(* ===== verification/_CoqProject ===== *)
-Q . S2P
Prelude.v
Atomic.v
Spinlock.v
ListHead.v
Pid.v
Sched.v
Signal.v
Process.v
KString.v
Misc.v
PageTable.v
Page.v
RadixTree.v
Hashtable.v
Mm.v
Paging.v
Boot.v
FdTable.v
Slab.v
Kmalloc.v
Vprint.v
Qstr.v
Inode.v
Dentry.v
Mount.v
Ramfs.v
Pathwalk.v
Buffer.v
PageCache.v
FileIO.v
Ext4Lib.v
Ext4Disk.v
Ext4Inode.v
Ext4Refs.v
Ext4Attr.v
Ext4Fs.v
Time.v
Snprintf.v
Device.v
Dtb.v
Syscall.v
Trap.v
Elf.v
