(* ===== verification/Prelude.v ===== *)
(** * The oscomp kernel: a verification development

    oscomp is a RISC-V (Sv39) teaching kernel written in C. This library models
    the parts of [src/kernel] and [src/include/kernel] that carry its own logic and
    proves what makes them correct. A C function is a Rocq function on explicit
    state with the name it has in the source; structures are records, the memory
    they live in is a finite map from addresses, and integers are [Z] with the
    truncation of their type written out ([u32], [u64], [s32], [s64] below).

    ** The system and the files

    - Utilities. [ListHead]: the intrusive lists of [util/list.h], pointer writes
      on a store of nodes. [KString]: [util/string.c] on a byte memory, its formatted
      output in [Snprintf]. [Vprint]: the format interpreter of [util/vprint.c]. [Qstr]:
      [util/qstr.c]. [Hashtable]: [util/hashtable.c], buckets of intrusive lists.
      [RadixTree]: [util/radix_tree.c]. [Misc]: [util/misc.c]. [Time]: [time.c].
      [Atomic]: the atomic operations of [util/atomic.h] as programs of instructions that several harts
      run on one word. [Spinlock]: [util/spinlock.h].
    - Memory. [Page]: [mm/page.c], the free list of physical pages. [PageTable]:
      [mm/pagetable.c]. [Slab] and [Kmalloc]: [mm/slab.c] and [mm/kmalloc.c].
      [Mm]: [mm/vma.c], [mm/mm_struct.c], [mm/mmap.c], [mm/uaccess.c] and
      [syscall/mmap.c]. [Paging]: the page tables and the page allocator as the
      paging that [Mm] asks for.
    - Processes. [Pid]: [sched/pid.c]. [Sched]: [sched/sched.c] and
      [sched/process.c]. [Process]: the making of processes, the idle task, the first process and
      the semaphores. [Signal]: [sched/signal.c]. [Trap]: [strap/strap.c].
      [Syscall]: the dispatcher and the wrappers of [syscall]. [Elf]: [elf/elf.c].
    - Files. [FdTable]: [fs/vfs/fdtable.c] and [fs/vfs/file.c]. [FileIO]: reading,
      writing and listing open files. [Inode]: [fs/vfs/inode.c], [fs/vfs/icache.c],
      part of [fs/vfs/superblock.c]. [Dentry]: [fs/vfs/dentry.c]. [Mount]:
      [fs/vfs/vfsmount.c] and [fs/vfs/fstype.c]. [Ramfs]: [fs/ramfs.c]. [Pathwalk]: [fs/vfs/vfs.c],
      [fs/vfs/path.c], [fs/vfs/fs_struct.c] and mounting. [PageCache]:
      [fs/vfs/address_space.c]. [Buffer]: [device/buffer_head.c] and [device/block_device.c].
      [Device]: the nodes in [/dev] of [device/device.c].
    - The ext4 adaptation. [Ext4Lib]: the state and the interfaces to the lwext4 library
      and to the VFS. [Ext4Inode]: [fs/ext4/ext4_inode.c]. [Ext4Fs]: the other files of
      [fs/ext4]. [Ext4Refs] and [Ext4Attr]: their theorems. [Ext4Disk]: concrete
      instances of the interfaces.
    - Boot. [Dtb]: [boot/dtb.c]. [Boot]: the kernel address space of [boot/kernel.c].

    The parts meet at type classes. [PageAlloc] ([PageTable], implemented by
    [Page]), [PageFrames] ([Slab], implemented by [Page]), [Paging] ([Mm],
    implemented in [Paging] by page tables over the page allocator), [KernelMap]
    ([Kmalloc]), [IntrusiveList] ([Sched], implemented by [ListHead]). What a file system
    or a device does behind its function pointers: [FileOps], [IoOps], [SuperOps],
    [DentryOps], [SpaceOps], [BlockOps], [MountOps], [NodeOps]. What the vendored lwext4 library and the disk driver do: [Lwext4],
    [Lwext4Files] and [Driver], with the laws [Lwext4Sizes] and [Lwext4Store]. What a client
    asks of parts modelled elsewhere: [Kernel] ([Ext4Lib]), [Loader] ([Elf]), [TaskParts] ([Process]), [OpenOps],
    [UserOps] and [VfsOps] ([Syscall]). Classes of laws have instances that satisfy them.
    [KMalloc] with its laws [KMallocSpec] is what the clients of the
    kernel allocator rely on: a returned block overlaps no block in use.
    [Kmalloc.kmalloc_roundtrip] proves that of [kmalloc] for sizes of 57 to 2040
    bytes; [Slab.slab_small_overlap] shows that it does not hold of slabs of small
    objects, whose bitmap is laid over the first object.

    ** What the theorems show

    - Page tables: mapping, unmapping and looking up a page or a range agree with a
      map from virtual pages to entries, the other translations unchanged; the tables
      under a root stay a tree; a new table shares no table page with the kernel's.
    - Allocators: a page, a slab object or a block is handed out to one owner,
      zeroed where promised; a released object or block is free again, while a page is never
      freed by [put_page]; running out is
      reported, after the page allocator has taken its list head for a page.
    - Address spaces: a new area is mapped by pages of its own; the heap grows by
      the pages asked for; unmapping removes exactly an area and refuses to split one;
      the search for a free area ends and returns a free one; copies from user
      memory return the bytes of the mapped page. If files can be sought, a loaded
      segment holds the bytes of its file and zeros after them; the kernel opens files without
      that right, and the image of the first process is then refused.
    - Containers: lists refine sequences, hash tables refine finite maps, lookups in
      a radix tree return what was inserted, up to the index the tree can hold.
    - Processes: pids are unique while held, the scheduler resumes its caller,
      SIGKILL is never blocked, a pending signal is delivered as its action says. A trap
      from user mode returns to the process with its registers or stops the kernel; time
      slices end. The first process is in the table and in the ready queue.
    - Harts: the atomic operations are linearizable in every interleaving, with the retries bounded;
      of the holders of a counted reference exactly one drops the last; a spin lock is held by one hart
      at a time and does not deadlock.
    - Files: a descriptor that is allocated and installed is found, opening a file gives
      such a descriptor, closing has the
      result the table says; an inode is on one state list of its superblock; the
      write-back of a file system ends, with the dirty inodes up to the first failure written; the caches of inodes, dentries,
      mounts, pages and buffers find what was put into them; the path of a dentry leads
      back to it; a listing of a directory is the entries the file
      system iterates over, and is refused where it has no iteration, as in the file systems here; every registered device is entered
      under a name of its own.
    - The ext4 adaptation: the operations return the references to inodes they take, on every
      path but one: the setting of attributes, when the library refuses the reference, uses it without
      having it; attributes that were
      set are read back in the width of their field on disk.
    - Strings: copies, comparisons, tokens, sorting, the decimal and hexadecimal output, the
      format interpreter against a one-pass reference, the bounded printers against
      the text of their formats.
    - Boot: the walk of a device tree ends and records the memory it describes; the page table the
      kernel starts with maps the image and the memory to themselves, with the permissions of each section.

    Theorems about behaviour that differs from the comments, or that a careful reading would not
    expect, are proved as such and listed as findings in the manifest.

    ** Bounds and fuel

    Loops that are not structural take fuel. A scan of memory upwards visits
    distinct addresses, so one more step than the memory has cells ends it
    ([KString], [Qstr], [Snprintf], [Dtb]). A walk of a list takes as many steps as the
    store has nodes ([ListHead], [Hashtable]). The levels of a radix tree are at most
    [RADIX_TREE_MAX_HEIGHT] ([RadixTree]), those of a page table three. The search
    for a free area moves past one area per step ([Mm]). A retry loop of an atomic operation turns once for each
    effect of another call or spurious failure ([Atomic]), a spinning hart once for each of its steps ([Spinlock]). Counted loops take their count.
    [Timeout] is a result of its own, different from [Fault], and the theorems say [Ok]:
    they prove that the loop ends.

    ** Left out

    Locks in the components other than [Spinlock]: the operations hold them throughout, and are modelled as
    atomic steps of one hart. Fences, which order accesses to different words. Printing, except where it is the function. Assembly and the
    register contents of a context switch. Names and values the code computes only for
    log calls that are commented out. The lwext4 library, third-party
    code kept under [vendor/lwext4], is an interface of the adaptation layer; its laws follow
    that code (positive error codes, fields of 16 bits for the owner, the group and the mode). Boot code that sets control registers and calls the
    other parts in order. Other code that is not modelled is listed with its reason in the
    manifest. *)

From stdpp Require Import base gmap list numbers strings.
From Stdlib Require Export ZArith Lia.

Declare Scope kernel_scope.
Delimit Scope kernel_scope with kernel.
Local Open Scope Z_scope.

(** ** Machine integers

    A [w]-bit C integer is a [Z]; every operation that can leave the range of
    its type is written with the truncation the compiler applies. *)

Definition u8 (x : Z) : Z := x mod 2 ^ 8.
Definition u32 (x : Z) : Z := x mod 2 ^ 32.
Definition u64 (x : Z) : Z := x mod 2 ^ 64.
Definition s32 (x : Z) : Z := (x + 2 ^ 31) mod 2 ^ 32 - 2 ^ 31.
Definition s64 (x : Z) : Z := (x + 2 ^ 63) mod 2 ^ 64 - 2 ^ 63.

(** The macros [ROUNDUP] and [ROUNDDOWN] at type [uint64]. *)
Definition ROUNDUP (a b : Z) : Z := u64 ((u64 (a - 1) / b + 1) * b).
Definition ROUNDDOWN (a b : Z) : Z := u64 (a / b * b).

Definition PAGE_SIZE : Z := 4096.

(** ** Error numbers (musl, generic) *)

Definition EPERM : Z := 1.
Definition ENOENT : Z := 2.
Definition ESRCH : Z := 3.
Definition EINTR : Z := 4.
Definition EBADF : Z := 9.
Definition EAGAIN : Z := 11.
Definition ENOMEM : Z := 12.
Definition EACCES : Z := 13.
Definition EFAULT : Z := 14.
Definition EBUSY : Z := 16.
Definition EEXIST : Z := 17.
Definition ENOTDIR : Z := 20.
Definition EISDIR : Z := 21.
Definition EINVAL : Z := 22.
Definition EMFILE : Z := 24.
Definition EROFS : Z := 30.
Definition ENAMETOOLONG : Z := 36.

(** Pointers: [IS_ERR_VALUE] says that the top 4095 addresses are error codes. *)
Definition PTR_IS_ERROR (p : Z) : bool := 2 ^ 64 - 4095 <=? u64 p.
Definition ERR_PTR (err : Z) : Z := u64 err.

(** ** Outcomes

    [Ok] is a normal return, [Panic] a call of [panic] (the kernel halts) and
    [Fault] an access to memory the model does not hold an object for (a null
    or dangling pointer, an index outside an array). [Timeout] means that the
    fuel of a loop ran out; the theorems show it does not happen. *)

Inductive outcome (A : Type) : Type :=
| Ok (a : A)
| Panic
| Fault
| Timeout.
Arguments Ok {A} a.
Arguments Panic {A}.
Arguments Fault {A}.
Arguments Timeout {A}.

Definition obind {A B : Type} (m : outcome A) (k : A → outcome B) : outcome B :=
  match m with
  | Ok a => k a
  | Panic => Panic
  | Fault => Fault
  | Timeout => Timeout
  end.

Notation "'let!' x := m 'in' k" := (obind m (λ x, k))
  (at level 10, x pattern, m at level 100, k at level 200)
  : kernel_scope.

Definition of_option {A : Type} (o : option A) : outcome A :=
  match o with
  | Some a => Ok a
  | None => Fault
  end.

(** ** The kernel allocator, as its clients see it

    [kmalloc size a] is the address it returns (0 for [NULL]) with the
    allocator's next state; [kfree ptr a] the state after the call. *)
Class KMalloc (A : Type) : Type := {
  kmalloc : Z → A → Z * A;
  kfree : Z → A → A;
}.

(** What clients rely on: a block that is returned overlaps none in use, and
    blocks in use stay in use until they are freed. *)
Class KMallocSpec (A : Type) {KM : KMalloc A} : Type := {
  km_block : A → Z → Z → Prop;
  km_block_pos a p n : km_block a p n → 0 < n;
  kmalloc_block size a p a' :
    0 < size → kmalloc size a = (p, a') →
    (∀ q n, km_block a q n → km_block a' q n) ∧
    (p ≠ 0 → km_block a' p size ∧ ∀ q n, km_block a q n → p + size ≤ q ∨ q + n ≤ p);
  kfree_others p q n a : q ≠ p → km_block a q n → km_block (kfree p a) q n;
}.

(** A block starts at [p]. *)
Definition km_live {A} {KM : KMalloc A} {KS : KMallocSpec A} (a : A) (p : Z) : Prop := ∃ n, km_block a p n.

Lemma kmalloc_fresh {A} {KM : KMalloc A} {KS : KMallocSpec A} size (a : A) p a' :
  0 < size → kmalloc size a = (p, a') →
  (∀ q, km_live a q → km_live a' q) ∧ (p ≠ 0 → ~ km_live a p ∧ km_live a' p).
Proof.
  intros Hs E. destruct (kmalloc_block size a p a' Hs E) as [Hm Hf]. split; [intros q [n Hq]; exists n; auto|].
  intros Hp. destruct (Hf Hp) as [Hb Hd]. split; [|by exists size].
  intros [n Hn]. pose proof (km_block_pos _ _ _ Hn). destruct (Hd p n Hn); lia.
Qed.

(** Allocations of these sizes, one after the other, all succeed. *)
Fixpoint allocs {A} {KM : KMalloc A} (ns : list Z) (a : A) : Prop :=
  match ns with
  | [] => True
  | n :: ns => fst (kmalloc n a) ≠ 0 ∧ allocs ns (snd (kmalloc n a))
  end.

(** The next [k] allocations of [n] bytes succeed. *)
Definition mem_for {A} {KM : KMalloc A} (k : nat) (n : Z) (a : A) : Prop := allocs (replicate k n) a.

Lemma mem_for_S {A} {KM : KMalloc A} k n (a : A) :
  mem_for (S k) n a ↔ fst (kmalloc n a) ≠ 0 ∧ mem_for k n (snd (kmalloc n a)).
Proof. done. Qed.

Lemma mem_for_le {A} {KM : KMalloc A} k k' n (a : A) : (k ≤ k')%nat → mem_for k' n a → mem_for k n a.
Proof.
  revert k a. induction k' as [|k' IH]; intros [|k] a Hk; [done|lia|done|]. rewrite !mem_for_S. intros [H1 H2]. split; [done|]. apply IH; [lia|done].
Qed.

(** The heap [a'] is [a] after allocations and releases of blocks that were allocated
    among them; [l] are the blocks that are kept. *)
Inductive kept {A} {KM : KMalloc A} (a : A) : list Z → A → Prop :=
| kept_none : kept a [] a
| kept_alloc l a' n p a'' : kept a l a' → kmalloc n a' = (p, a'') → p ≠ 0 → kept a (p :: l) a''
| kept_fail l a' n a'' : kept a l a' → kmalloc n a' = (0, a'') → kept a l a''
| kept_free l l' a' p : kept a l a' → l ≡ₚ p :: l' → kept a l' (kfree p a').

(** The simplest allocator: addresses from a growing break, nothing reused. *)
#[export] Instance bump_allocator : KMalloc Z := {
  kmalloc size brk := (brk, brk + size);
  kfree _ brk := brk;
}.

#[export, refine] Instance bump_spec : KMallocSpec Z :=
  { km_block brk q n := 0 < n ∧ q + n ≤ brk }.
Proof.
  - intros brk q n H. apply H.
  - intros size brk p brk' Hs [= <- <-]. split; [intros; lia|]. intros _. split; [lia|]. intros; lia.
  - intros p q n brk _ H. exact H.
Defined.

(** ** Automation *)

Create HintDb kernel.
Create Rewrite HintDb kbits.

(** Arithmetic with division and remainder by constants. *)
Ltac zdm := Z.div_mod_to_equations; lia.

(** Turn boolean tests of the code into propositions. *)
Ltac bool_props :=
  repeat match goal with
  | H : (_ && _)%bool = true |- _ => apply andb_prop in H; destruct H
  | H : (_ || _)%bool = false |- _ => apply orb_false_elim in H; destruct H
  | H : negb _ = true |- _ => apply negb_true_iff in H
  | H : negb _ = false |- _ => apply negb_false_iff in H
  | H : (_ =? _) = true |- _ => apply Z.eqb_eq in H
  | H : (_ =? _) = false |- _ => apply Z.eqb_neq in H
  | H : (_ <? _) = true |- _ => apply Z.ltb_lt in H
  | H : (_ <? _) = false |- _ => apply Z.ltb_ge in H
  | H : (_ <=? _) = true |- _ => apply Z.leb_le in H
  | H : (_ <=? _) = false |- _ => apply Z.leb_gt in H
  end.

(** Split the first [if] or [let!] the goal or a hypothesis is stuck on. *)
Ltac split_if :=
  match goal with
  | |- context [if ?b then _ else _] => destruct b eqn:?
  | H : context [if ?b then _ else _] |- _ => destruct b eqn:?
  end.

Lemma obind_Ok {A B} (m : outcome A) (k : A → outcome B) b :
  obind m k = Ok b → ∃ a, m = Ok a ∧ k a = Ok b.
Proof. destruct m; simpl; intros; [eauto | discriminate ..]. Qed.

(** Invert a successful run of a [let!] chain in a hypothesis. *)
Ltac inv_ok :=
  repeat match goal with
  | H : obind _ _ = Ok _ |- _ =>
      apply obind_Ok in H; destruct H as (? & ? & H)
  | H : Ok _ = Ok _ |- _ => injection H as H; try subst
  | H : Panic = Ok _ |- _ => discriminate H
  | H : Fault = Ok _ |- _ => discriminate H
  | H : Timeout = Ok _ |- _ => discriminate H
  end.

(** ** Ranges *)

Lemma u8_range x : 0 ≤ u8 x < 2 ^ 8.
Proof. apply Z.mod_pos_bound; lia. Qed.

Lemma u32_range x : 0 ≤ u32 x < 2 ^ 32.
Proof. apply Z.mod_pos_bound; lia. Qed.

Lemma u64_range x : 0 ≤ u64 x < 2 ^ 64.
Proof. apply Z.mod_pos_bound; lia. Qed.

Lemma s32_range x : - 2 ^ 31 ≤ s32 x < 2 ^ 31.
Proof. unfold s32. pose proof (Z.mod_pos_bound (x + 2 ^ 31) (2 ^ 32)). lia. Qed.

Lemma u8_small x : 0 ≤ x < 2 ^ 8 → u8 x = x.
Proof. apply Z.mod_small. Qed.

Lemma u32_small x : 0 ≤ x < 2 ^ 32 → u32 x = x.
Proof. apply Z.mod_small. Qed.

Lemma u64_small x : 0 ≤ x < 2 ^ 64 → u64 x = x.
Proof. apply Z.mod_small. Qed.

Lemma s32_small x : - 2 ^ 31 ≤ x < 2 ^ 31 → s32 x = x.
Proof. intros. unfold s32. rewrite Z.mod_small; lia. Qed.

Lemma s64_range x : - 2 ^ 63 ≤ s64 x < 2 ^ 63.
Proof. unfold s64. pose proof (Z.mod_pos_bound (x + 2 ^ 63) (2 ^ 64)). lia. Qed.

Lemma s64_small x : - 2 ^ 63 ≤ x < 2 ^ 63 → s64 x = x.
Proof. intros. unfold s64. rewrite Z.mod_small; lia. Qed.

#[export] Hint Resolve u8_range u32_range u64_range s32_range : kernel.

(** ** Bits *)

Lemma testbit_pow2 n i : 0 ≤ n → Z.testbit (Z.shiftl 1 n) i = (i =? n).
Proof.
  intros. rewrite Z.shiftl_1_l, Z.pow2_bits_eqb by lia.
  apply Bool.eq_iff_eq_true. rewrite !Z.eqb_eq. lia.
Qed.

(** [x & ~(1 << n)], the idiom by which the code clears a bit. *)
Lemma testbit_clear x n i :
  0 ≤ n → 0 ≤ i →
  Z.testbit (Z.land x (Z.lnot (Z.shiftl 1 n))) i = Z.testbit x i && negb (i =? n).
Proof. intros. rewrite Z.land_spec, Z.lnot_spec, testbit_pow2 by lia. done. Qed.

Lemma testbit_set x n i :
  0 ≤ n → Z.testbit (Z.lor x (Z.shiftl 1 n)) i = Z.testbit x i || (i =? n).
Proof. intros. rewrite Z.lor_spec, testbit_pow2 by lia. done. Qed.

(** [x & (1 << n)] is zero exactly when bit [n] is clear. *)
Lemma land_pow2_eqb x n :
  0 ≤ n → (Z.land x (Z.shiftl 1 n) =? 0) = negb (Z.testbit x n).
Proof.
  intros. apply Bool.eq_iff_eq_true. rewrite Z.eqb_eq, negb_true_iff. split.
  - intros E. assert (Z.testbit (Z.land x (Z.shiftl 1 n)) n = false) as B
      by (rewrite E; apply Z.bits_0).
    rewrite Z.land_spec, testbit_pow2, Z.eqb_refl, andb_true_r in B by lia. done.
  - intros E. apply Z.bits_inj'. intros i ?.
    rewrite Z.land_spec, testbit_pow2, Z.bits_0 by lia.
    destruct (Z.eqb_spec i n) as [->|]; [by rewrite E | by rewrite andb_false_r].
Qed.

(** A non-negative [Z] is a [w]-bit word exactly when its bits from [w] on are clear. *)
Lemma word_bits_high x w i : 0 ≤ x < 2 ^ w → 0 ≤ w ≤ i → Z.testbit x i = false.
Proof.
  intros Hx Hi. destruct (Z.eq_dec x 0) as [->|]; [apply Z.bits_0|].
  apply Z.bits_above_log2; [lia|].
  apply Z.lt_le_trans with w; [apply Z.log2_lt_pow2; lia | lia].
Qed.

Lemma word_bits_intro x w :
  0 ≤ x → 0 ≤ w → (∀ i, w ≤ i → Z.testbit x i = false) → x < 2 ^ w.
Proof.
  intros Hx Hw Hb. destruct (Z.eq_dec x 0) as [->|]; [lia|].
  apply Z.log2_lt_pow2; [lia|]. destruct (Z.lt_ge_cases (Z.log2 x) w); [done|].
  specialize (Hb (Z.log2 x) ltac:(lia)). rewrite Z.bit_log2 in Hb; [done|lia].
Qed.

Lemma word_land x y w : 0 ≤ w → 0 ≤ x < 2 ^ w → 0 ≤ Z.land x y < 2 ^ w.
Proof.
  intros Hw Hx. split; [apply Z.land_nonneg; lia|].
  apply word_bits_intro; [apply Z.land_nonneg; lia | done |].
  intros i Hi. rewrite Z.land_spec, (word_bits_high x w i) by lia. done.
Qed.

Lemma word_lor x y w :
  0 ≤ w → 0 ≤ x < 2 ^ w → 0 ≤ y < 2 ^ w → 0 ≤ Z.lor x y < 2 ^ w.
Proof.
  intros Hw Hx Hy. split; [apply Z.lor_nonneg; lia|].
  apply word_bits_intro; [apply Z.lor_nonneg; lia | done |].
  intros i Hi. rewrite Z.lor_spec, (word_bits_high x w i), (word_bits_high y w i) by lia. done.
Qed.

Lemma word_shiftl1 n w : 0 ≤ n < w → 0 ≤ Z.shiftl 1 n < 2 ^ w.
Proof. intros. rewrite Z.shiftl_1_l. split; [lia|]. apply Z.pow_lt_mono_r; lia. Qed.

Lemma word_eq x y w :
  0 ≤ w → 0 ≤ x < 2 ^ w → 0 ≤ y < 2 ^ w →
  (∀ i, 0 ≤ i < w → Z.testbit x i = Z.testbit y i) → x = y.
Proof.
  intros Hw Hx Hy Hb. apply Z.bits_inj'. intros i Hi.
  destruct (Z.lt_ge_cases i w); [apply Hb; lia|].
  by rewrite (word_bits_high x w i), (word_bits_high y w i) by lia.
Qed.

(** Or-ing a field below bit [k] into a value shifted by [k] is addition. *)
Lemma lor_shiftl_low x k f :
  0 ≤ k → 0 ≤ f < 2 ^ k → Z.lor (Z.shiftl x k) f = x * 2 ^ k + f.
Proof.
  intros Hk Hf. rewrite <-(Z.shiftl_mul_pow2 x k Hk).
  assert (Z.land (Z.shiftl x k) f = 0) as E.
  { apply Z.bits_inj'. intros i Hi. rewrite Z.land_spec, Z.bits_0, Z.shiftl_spec by lia.
    destruct (Z.lt_ge_cases i k); [by rewrite (Z.testbit_neg_r _ (i - k)) by lia|].
    by rewrite (word_bits_high f k i), andb_false_r by lia. }
  by rewrite Z.add_nocarry_lxor, Z.lxor_lor.
Qed.

#[export] Hint Resolve word_land word_lor word_shiftl1 : kernel.
#[export] Hint Rewrite Z.land_spec Z.lor_spec Z.lxor_spec Z.bits_0 : kbits.
#[export] Hint Rewrite testbit_clear testbit_set land_pow2_eqb using lia : kbits.

