(* ===== verification/Atomic.v ===== *)
(** * Atomic operations

    The inline functions of [include/kernel/util/atomic.h]. Their bodies are a few instructions on one word that
    several harts share, so a function is a program of the instructions it is made of
    ([prog]), and the harts of a machine run such programs in any interleaving: a schedule
    names the hart that executes its next instruction. A word keeps the harts that hold a
    reservation on it; a store ends all reservations, and a store-conditional may also fail
    without a reason, which the schedule decides.

    All accesses of one function are to one word, for which RISC-V orders the accesses of
    all harts; the fences and the [aq] and [rl] bits, which order accesses to different
    words, have no effect here.

    The theorems: in every interleaving the calls of the harts have the results and the effect
    of one sequential order of the calls ([atomics_linearizable]), and a call is retried at most
    once for each effect of another call or spurious failure, which bounds the fuel of the
    retry loops; of the callers that drop the references of a counter exactly one is told that
    it dropped the last ([dec_and_test_once]). *)

From stdpp Require Import base gmap list numbers.
From S2P Require Import Prelude.

Local Open Scope Z_scope.

(** ** Instructions *)

Inductive width : Type := W32 | W64.

Definition wrap (w : width) (x : Z) : Z := match w with W32 => s32 x | W64 => s64 x end.

(** [Sc] gives its continuation 0 on success and 1 on failure; the other instructions give
    theirs the old value. [OutOfFuel] is a retry loop whose fuel was used up. *)
Inductive prog : Type :=
| Ret (r : Z)
| OutOfFuel
| Load (w : width) (k : Z → prog)
| Store (w : width) (x : Z) (k : prog)
| Amoadd (w : width) (i : Z) (k : Z → prog)
| Amoswap (w : width) (x : Z) (k : Z → prog)
| Lr (w : width) (k : Z → prog)
| Sc (w : width) (x : Z) (k : Z → prog)
| Csrr_sstatus (k : Z → prog)
| Csrw_sstatus (x : Z) (k : prog).

Fixpoint bind (p : prog) (f : Z → prog) : prog :=
  match p with
  | Ret r => f r
  | OutOfFuel => OutOfFuel
  | Load w k => Load w (λ x, bind (k x) f)
  | Store w x k => Store w x (bind k f)
  | Amoadd w i k => Amoadd w i (λ x, bind (k x) f)
  | Amoswap w y k => Amoswap w y (λ x, bind (k x) f)
  | Lr w k => Lr w (λ x, bind (k x) f)
  | Sc w y k => Sc w y (λ x, bind (k x) f)
  | Csrr_sstatus k => Csrr_sstatus (λ x, bind (k x) f)
  | Csrw_sstatus x k => Csrw_sstatus x (bind k f)
  end.

(** A word and the harts that hold a reservation on it. *)
Record cell : Type := Cell { counter : Z; reserved : gset nat }.

Definition stored (x : Z) : cell := {| counter := x; reserved := ∅ |}.

(** The next instruction of hart [h], whose status register is [csr]. *)
Definition exec (h : nat) (spurious : bool) (p : prog) (m : cell) (csr : Z) : prog * cell * Z :=
  match p with
  | Ret _ | OutOfFuel => (p, m, csr)
  | Load _ k => (k (counter m), m, csr)
  | Store w x k => (k, stored (wrap w x), csr)
  | Amoadd w i k => (k (counter m), stored (wrap w (counter m + i)), csr)
  | Amoswap w x k => (k (counter m), stored (wrap w x), csr)
  | Lr _ k => (k (counter m), {| counter := counter m; reserved := {[h]} ∪ reserved m |}, csr)
  | Sc w x k =>
      if bool_decide (h ∈ reserved m) && negb spurious then (k 0, stored (wrap w x), csr)
      else (k 1, {| counter := counter m; reserved := reserved m ∖ {[h]} |}, csr)
  | Csrr_sstatus k => (k csr, m, csr)
  | Csrw_sstatus x k => (k, m, x)
  end.

(** ** The functions of atomic.h *)

Definition b2z (b : bool) : Z := if b then 1 else 0.

Definition atomic_read : prog := Load W32 Ret.

Definition atomic64_read : prog := Load W64 Ret.

Definition atomic_set (i : Z) : prog := Store W32 i (Ret 0).

Definition atomic64_set (i : Z) : prog := Store W64 i (Ret 0).

Definition atomic_add (i : Z) : prog := Amoadd W32 i (λ _, Ret 0).

Definition atomic64_add (i : Z) : prog := Amoadd W64 i (λ _, Ret 0).

Definition atomic_sub (i : Z) : prog := atomic_add (s32 (- i)).

Definition atomic64_sub (i : Z) : prog := atomic64_add (s64 (- i)).

Definition atomic_inc : prog := atomic_add 1.

Definition atomic64_inc : prog := atomic64_add 1.

Definition atomic_dec : prog := atomic_sub 1.

Definition atomic64_dec : prog := atomic64_sub 1.

Definition atomic_add_return (i : Z) : prog := Amoadd W32 i (λ val, Ret (s32 (val + i))).

Definition atomic64_add_return (i : Z) : prog := Amoadd W64 i (λ val, Ret (s64 (val + i))).

Definition atomic_sub_return (i : Z) : prog := atomic_add_return (s32 (- i)).

Definition atomic64_sub_return (i : Z) : prog := atomic64_add_return (s64 (- i)).

Definition atomic_inc_return : prog := atomic_add_return 1.

Definition atomic64_inc_return : prog := atomic64_add_return 1.

Definition atomic_dec_return : prog := atomic_sub_return 1.

Definition atomic64_dec_return : prog := atomic64_sub_return 1.

Definition atomic_inc_and_test : prog := bind atomic_inc_return (λ r, Ret (b2z (r =? 0))).

Definition atomic64_inc_and_test : prog := bind atomic64_inc_return (λ r, Ret (b2z (r =? 0))).

Definition atomic_dec_and_test : prog := bind atomic_dec_return (λ r, Ret (b2z (r =? 0))).

Definition atomic64_dec_and_test : prog := bind atomic64_dec_return (λ r, Ret (b2z (r =? 0))).

Definition atomic_xchg (new : Z) : prog := Amoswap W32 new Ret.

Definition atomic64_xchg (new : Z) : prog := Amoswap W64 new Ret.

Fixpoint atomic_cmpxchg (fuel : nat) (old new : Z) : prog :=
  match fuel with
  | O => OutOfFuel
  | S fuel =>
      Lr W32 (λ val,
        if negb (val =? old) then Ret val
        else Sc W32 new (λ t0, if negb (t0 =? 0) then atomic_cmpxchg fuel old new else Ret val))
  end.

Fixpoint atomic64_cmpxchg (fuel : nat) (old new : Z) : prog :=
  match fuel with
  | O => OutOfFuel
  | S fuel =>
      Lr W64 (λ val,
        if negb (val =? old) then Ret val
        else Sc W64 new (λ t0, if negb (t0 =? 0) then atomic64_cmpxchg fuel old new else Ret val))
  end.

(** The loop of [atomic_add_unless]; [inner] is the fuel of each [atomic_cmpxchg]. *)
Fixpoint add_unless_loop (inner fuel : nat) (a u c : Z) : prog :=
  match fuel with
  | O => OutOfFuel
  | S fuel =>
      if negb (c =? u) then
        bind (atomic_cmpxchg inner c (s32 (c + a))) (λ old,
          if negb (old =? c) then add_unless_loop inner fuel a u old else Ret (b2z (negb (c =? u))))
      else Ret (b2z (negb (c =? u)))
  end.

Definition atomic_add_unless (fuel : nat) (a u : Z) : prog :=
  bind atomic_read (λ c, add_unless_loop fuel fuel a u c).

Fixpoint add_unless_loop64 (inner fuel : nat) (a u c : Z) : prog :=
  match fuel with
  | O => OutOfFuel
  | S fuel =>
      if negb (c =? u) then
        bind (atomic64_cmpxchg inner c (s64 (c + a))) (λ old,
          if negb (old =? c) then add_unless_loop64 inner fuel a u old else Ret (b2z (negb (c =? u))))
      else Ret (b2z (negb (c =? u)))
  end.

Definition atomic64_add_unless (fuel : nat) (a u : Z) : prog :=
  bind atomic64_read (λ c, add_unless_loop64 fuel fuel a u c).

Definition atomic_inc_not_zero (fuel : nat) : prog := atomic_add_unless fuel 1 0.

Definition atomic64_inc_not_zero (fuel : nat) : prog := atomic64_add_unless fuel 1 0.

(** *** Interrupt state *)

Definition read_sstatus : prog := Csrr_sstatus Ret.

Definition write_sstatus (value : Z) : prog := Csrw_sstatus value (Ret 0).

Definition disable_irqsave : prog :=
  bind read_sstatus (λ sstatus, bind (write_sstatus (Z.land sstatus (u64 (Z.lnot 2)))) (λ _, Ret sstatus)).

Definition enable_irqrestore (flags : Z) : prog := write_sstatus flags.

(** ** Harts that share a counter

    A hart makes the calls of its script in order. [rets] are the results so far. *)

Inductive call : Type :=
| Read | Set_ (i : Z) | Add (i : Z) | Sub (i : Z) | Inc | Dec
| AddReturn (i : Z) | SubReturn (i : Z) | IncReturn | DecReturn | IncAndTest | DecAndTest
| Xchg (new : Z) | Cmpxchg (old new : Z) | AddUnless (a u : Z) | IncNotZero.

Definition code (w : width) (fuel : nat) (c : call) : prog :=
  match w, c with
  | W32, Read => atomic_read
  | W32, Set_ i => atomic_set i
  | W32, Add i => atomic_add i
  | W32, Sub i => atomic_sub i
  | W32, Inc => atomic_inc
  | W32, Dec => atomic_dec
  | W32, AddReturn i => atomic_add_return i
  | W32, SubReturn i => atomic_sub_return i
  | W32, IncReturn => atomic_inc_return
  | W32, DecReturn => atomic_dec_return
  | W32, IncAndTest => atomic_inc_and_test
  | W32, DecAndTest => atomic_dec_and_test
  | W32, Xchg new => atomic_xchg new
  | W32, Cmpxchg old new => atomic_cmpxchg fuel old new
  | W32, AddUnless a u => atomic_add_unless fuel a u
  | W32, IncNotZero => atomic_inc_not_zero fuel
  | W64, Read => atomic64_read
  | W64, Set_ i => atomic64_set i
  | W64, Add i => atomic64_add i
  | W64, Sub i => atomic64_sub i
  | W64, Inc => atomic64_inc
  | W64, Dec => atomic64_dec
  | W64, AddReturn i => atomic64_add_return i
  | W64, SubReturn i => atomic64_sub_return i
  | W64, IncReturn => atomic64_inc_return
  | W64, DecReturn => atomic64_dec_return
  | W64, IncAndTest => atomic64_inc_and_test
  | W64, DecAndTest => atomic64_dec_and_test
  | W64, Xchg new => atomic64_xchg new
  | W64, Cmpxchg old new => atomic64_cmpxchg fuel old new
  | W64, AddUnless a u => atomic64_add_unless fuel a u
  | W64, IncNotZero => atomic64_inc_not_zero fuel
  end.

Record hart : Type := Hart { pc : option prog; todo : list call; rets : list Z }.

Record machine : Type := Machine { word : cell; harts : list hart }.

Definition boot (x : Z) (scripts : list (list call)) : machine :=
  {| word := {| counter := x; reserved := ∅ |};
     harts := (λ cs, {| pc := None; todo := cs; rets := [] |}) <$> scripts |}.

(** One step of a hart: it begins its next call, returns from the current one, or executes an
    instruction. *)
Definition step (w : width) (fuel : nat) (s : machine) (choice : nat * bool) : machine :=
  let '(h, spurious) := choice in
  match harts s !! h with
  | None => s
  | Some t =>
      match pc t with
      | None =>
          match todo t with
          | [] => s
          | c :: cs => {| word := word s; harts := <[h := {| pc := Some (code w fuel c); todo := cs; rets := rets t |}]> (harts s) |}
          end
      | Some (Ret r) => {| word := word s; harts := <[h := {| pc := None; todo := todo t; rets := rets t ++ [r] |}]> (harts s) |}
      | Some p =>
          let '(p', m, _) := exec h spurious p (word s) 0 in
          {| word := m; harts := <[h := {| pc := Some p'; todo := todo t; rets := rets t |}]> (harts s) |}
      end
  end.

Definition run (w : width) (fuel : nat) (sched : list (nat * bool)) (s : machine) : machine :=
  foldl (step w fuel) s sched.

(** *** The sequential meaning of the calls *)

(** Result and new value of a call on a counter that no one else accesses. *)
Definition spec (w : width) (c : call) (x : Z) : Z * Z :=
  match c with
  | Read => (x, x)
  | Set_ i => (0, wrap w i)
  | Add i => (0, wrap w (x + i))
  | Sub i => (0, wrap w (x - i))
  | Inc => (0, wrap w (x + 1))
  | Dec => (0, wrap w (x - 1))
  | AddReturn i => (wrap w (x + i), wrap w (x + i))
  | SubReturn i => (wrap w (x - i), wrap w (x - i))
  | IncReturn => (wrap w (x + 1), wrap w (x + 1))
  | DecReturn => (wrap w (x - 1), wrap w (x - 1))
  | IncAndTest => (b2z (wrap w (x + 1) =? 0), wrap w (x + 1))
  | DecAndTest => (b2z (wrap w (x - 1) =? 0), wrap w (x - 1))
  | Xchg new => (x, wrap w new)
  | Cmpxchg old new => if x =? old then (x, wrap w new) else (x, x)
  | AddUnless a u => if x =? u then (0, x) else (1, wrap w (x + a))
  | IncNotZero => if x =? 0 then (0, x) else (1, wrap w (x + 1))
  end.

(** A history: hart, call and result, in the order of the effects. *)
Definition history : Type := list (nat * call * Z).

Fixpoint sequential (w : width) (x : Z) (log : history) (y : Z) : Prop :=
  match log with
  | [] => y = x
  | (_, c, r) :: log => fst (spec w c x) = r ∧ sequential w (snd (spec w c x)) log y
  end.

Definition by_hart (h : nat) (log : history) : list (call * Z) :=
  omap (λ '(j, c, r), if decide (j = h) then Some (c, r) else None) log.

Definition returned (p : option prog) : list Z :=
  match p with Some (Ret r) => [r] | _ => [] end.

Definition running (p : option prog) : bool :=
  match p with None | Some (Ret _) => false | Some _ => true end.

(** [log] explains [s]: it is a sequential run of the calls that took effect, and for each hart
    its entries are the first calls of its script, in order, with the results the hart
    got; a hart that is in no call has all the calls it began in [log]. *)
Definition explains (w : width) (x : Z) (scripts : list (list call)) (s : machine) (log : history) : Prop :=
  sequential w x log (counter (word s)) ∧ Forall (λ e, (e.1.1 < length scripts)%nat) log ∧
  ∀ h t, harts s !! h = Some t →
    pc t ≠ Some OutOfFuel ∧
    rets t ++ returned (pc t) = (by_hart h log).*2 ∧
    ∃ rest, scripts !! h = Some ((by_hart h log).*1 ++ rest) ∧ (running (pc t) = false → rest = todo t).

Definition spurious_failures (sched : list (nat * bool)) : nat := length (filter (λ c, c.2 = true) sched).

(** ** Programs that take effect once

    [lin w f n o p]: [p] has not taken effect; it does so in one instruction, with the result
    and new value [f] gives at that instant, after at most [n] failures. [o] is what the hart
    knows of the word: nothing, its value at an earlier instant, or that value and a
    reservation made then. *)

Inductive obs : Type := Fresh | Saw (x : Z) | Resv (x : Z).

Definition sees (o : obs) (x : Z) : Prop := match o with Fresh => True | Saw y | Resv y => x = y end.

#[global] Instance sees_dec o x : Decision (sees o x).
Proof. destruct o; simpl; apply _. Defined.

Definition done_at (f : Z → Z * Z) (x : Z) (p : prog) : Prop := ∃ r, p = Ret r ∧ f x = (r, x).

Inductive lin (w : width) (f : Z → Z * Z) : nat → obs → prog → Prop :=
| lin_load n k : (∀ x, done_at f x (k x) ∨ lin w f n (Saw x) (k x)) → lin w f n Fresh (Load w k)
| lin_store n o y r : (∀ x, f x = (r, wrap w y)) → lin w f n o (Store w y (Ret r))
| lin_amoadd n o i k : (∀ x, ∃ r, k x = Ret r ∧ f x = (r, wrap w (x + i))) → lin w f n o (Amoadd w i k)
| lin_amoswap n o y k : (∀ x, ∃ r, k x = Ret r ∧ f x = (r, wrap w y)) → lin w f n o (Amoswap w y k)
| lin_lr n o k :
    (∀ x, sees o x → done_at f x (k x) ∨ lin w f n (Resv x) (k x)) →
    (∀ x m, (m < n)%nat → done_at f x (k x) ∨ lin w f m (Resv x) (k x)) → lin w f n o (Lr w k)
| lin_sc n x y k r :
    f x = (r, wrap w y) → k 0 = Ret r → (∀ m, (m < n)%nat → lin w f m Fresh (k 1)) → lin w f n (Resv x) (Sc w y k).

Lemma wrap_idem w x : wrap w (wrap w x) = wrap w x.
Proof. destruct w; simpl; [apply s32_small, s32_range|apply s64_small, s64_range]. Qed.

Lemma s32_sub x i : s32 (x + s32 (- i)) = s32 (x - i).
Proof. unfold s32. zdm. Qed.

Lemma s64_sub x i : s64 (x + s64 (- i)) = s64 (x - i).
Proof. unfold s64. zdm. Qed.

(** The calls that are one instruction. *)
Lemma lin_amo w fuel n c :
  match c with Cmpxchg _ _ | AddUnless _ _ | IncNotZero => False | _ => True end → lin w (spec w c) n Fresh (code w fuel c).
Proof.
  destruct c, w; intros Hc; try done; constructor; intros x; (by left; exists x) || (try done); eexists; (split; [done|]);
    cbn [spec wrap]; rewrite ?s32_sub, ?s64_sub; done.
Qed.

(** The retry loops at either width. *)
Section Loops.

Context (w : width).

Fixpoint cmpxchg_at (fuel : nat) (old new : Z) : prog :=
  match fuel with
  | O => OutOfFuel
  | S fuel =>
      Lr w (λ val,
        if negb (val =? old) then Ret val
        else Sc w new (λ t0, if negb (t0 =? 0) then cmpxchg_at fuel old new else Ret val))
  end.

Fixpoint add_unless_at (inner fuel : nat) (a u c : Z) : prog :=
  match fuel with
  | O => OutOfFuel
  | S fuel =>
      if negb (c =? u) then
        bind (cmpxchg_at inner c (wrap w (c + a))) (λ old,
          if negb (old =? c) then add_unless_at inner fuel a u old else Ret (b2z (negb (c =? u))))
      else Ret (b2z (negb (c =? u)))
  end.

Lemma lin_cmpxchg fuel n old new : (n < fuel)%nat → lin w (spec w (Cmpxchg old new)) n Fresh (cmpxchg_at fuel old new).
Proof.
  revert n. induction fuel as [|fuel IH]; intros n Hn; [lia|]. simpl.
  assert (∀ x m, (m ≤ n)%nat →
    done_at (spec w (Cmpxchg old new)) x (if negb (x =? old) then Ret x else Sc w new (λ t0, if negb (t0 =? 0) then cmpxchg_at fuel old new else Ret x)) ∨
    lin w (spec w (Cmpxchg old new)) m (Resv x) (if negb (x =? old) then Ret x else Sc w new (λ t0, if negb (t0 =? 0) then cmpxchg_at fuel old new else Ret x))) as Hx.
  { intros x m Hm. destruct (x =? old) eqn:E; simpl.
    - right. apply (lin_sc _ _ _ _ _ _ x); simpl; [by rewrite E|done|]. intros m' Hm'. apply IH. lia.
    - left. exists x. simpl. by rewrite E. }
  apply lin_lr; intros; apply Hx; lia.
Qed.

(** The compare and exchange of a round of [atomic_add_unless] that expects [c], when [k] is what
    follows: the round is lost only to a change of the counter since [c] was read. *)
Lemma lin_round a u (fuel : nat) (loop : Z → prog) :
  (∀ x m, (m < fuel)%nat → done_at (spec w (AddUnless a u)) x (loop x) ∨ lin w (spec w (AddUnless a u)) m (Resv x) (loop x)) →
  ∀ inner n c o, c ≠ u → (n < inner)%nat → match o with Fresh => (n < fuel)%nat | Saw y | Resv y => y = c ∧ (n ≤ fuel)%nat end →
  lin w (spec w (AddUnless a u)) n o
    (bind (cmpxchg_at inner c (wrap w (c + a))) (λ old, if negb (old =? c) then loop old else Ret (b2z (negb (c =? u))))).
Proof.
  intros Hloop inner. induction inner as [|inner IH]; intros n c o Hc Hn Ho; [lia|]. simpl.
  set (k := λ val, bind (if negb (val =? c) then Ret val else _) _).
  assert (∀ x m, (m ≤ n)%nat → (m < n)%nat ∨ sees o x →
    done_at (spec w (AddUnless a u)) x (k x) ∨ lin w (spec w (AddUnless a u)) m (Resv x) (k x)) as Hk.
  { intros x m Hm Hs. unfold k. destruct (Z.eqb_spec x c) as [->|Hx]; simpl.
    - right. apply (lin_sc _ _ _ _ _ _ 1); simpl.
      + destruct (Z.eqb_spec c u); [done|]. by rewrite wrap_idem.
      + rewrite Z.eqb_refl. by destruct (Z.eqb_spec c u).
      + intros m' Hm'. apply IH; [done|lia|]. destruct o; lia.
    - destruct (Z.eqb_spec x c); [done|]. simpl. apply Hloop. destruct o; simpl in *; [lia| |]; destruct Ho as [-> Ho]; destruct Hs; (lia || done). }
  apply lin_lr; intros; apply Hk; auto; lia.
Qed.

Lemma lin_add_unless_loop inner a u fuel m x o :
  (m < fuel)%nat → (m < inner)%nat → o = Saw x ∨ o = Resv x →
  done_at (spec w (AddUnless a u)) x (add_unless_at inner fuel a u x) ∨
  lin w (spec w (AddUnless a u)) m o (add_unless_at inner fuel a u x).
Proof.
  revert m x o. induction fuel as [|fuel IH]; intros m x o Hm Hi Ho; [lia|]. simpl.
  destruct (Z.eqb_spec x u) as [->|Hx]; simpl; [left; exists 0; simpl; by rewrite Z.eqb_refl|right].
  destruct (Z.eqb_spec x u) as [?|_]; [done|].
  pose proof (lin_round a u (fuel `min` inner) (add_unless_at inner fuel a u)) as Hr.
  specialize (Hr ltac:(intros; apply IH; [lia|lia|by right]) inner m x o Hx Hi).
  destruct (Z.eqb_spec x u) as [?|_]; [done|]. apply Hr. destruct Ho as [-> | ->]; split; (done || lia).
Qed.

Lemma lin_add_unless fuel n a u :
  (n < fuel)%nat → lin w (spec w (AddUnless a u)) n Fresh (bind (Load w Ret) (λ c, add_unless_at fuel fuel a u c)).
Proof. intros Hn. apply lin_load. intros x. apply lin_add_unless_loop; auto. Qed.

End Loops.

(** Every function of the header takes effect once. *)
Lemma lin_code w fuel n c : (n < fuel)%nat → lin w (spec w c) n Fresh (code w fuel c).
Proof.
  intros Hn. destruct c; try (by apply lin_amo).
  - destruct w; [exact (lin_cmpxchg W32 fuel n old new Hn)|exact (lin_cmpxchg W64 fuel n old new Hn)].
  - destruct w; [exact (lin_add_unless W32 fuel n a u Hn)|exact (lin_add_unless W64 fuel n a u Hn)].
  - destruct w; [exact (lin_add_unless W32 fuel n 1 0 Hn)|exact (lin_add_unless W64 fuel n 1 0 Hn)].
Qed.

(** ** One instruction *)

(** [e]: the number of events (effects and spurious failures) at the instant of the observation;
    [E]: their number now. *)
Definition obs_ok (m : cell) (h e E : nat) (o : obs) : Prop :=
  match o with
  | Fresh => True
  | Saw x => E = e → counter m = x
  | Resv x => (h ∈ reserved m → counter m = x) ∧ (E = e → h ∈ reserved m)
  end.

(** Another hart's instruction either stores, or leaves the value and the reservations of others. *)
Definition quiet (h : nat) (m m' : cell) : Prop :=
  counter m' = counter m ∧ ∀ j, j ≠ h → j ∈ reserved m' ↔ j ∈ reserved m.

Lemma obs_ok_other h j m m' (e E E' : nat) o :
  j ≠ h → (e ≤ E ≤ E')%nat → obs_ok m j e E o → quiet h m m' ∨ (E < E')%nat ∧ reserved m' = ∅ → obs_ok m' j e E' o.
Proof.
  intros Hj He Ho [[Hc Hr]|[Hlt Hr]]; destruct o as [|x|x]; simpl in *; try done.
  - intros ->. rewrite Hc. apply Ho. lia.
  - rewrite Hc, (Hr j Hj). split; [by apply Ho|]. intros ->. apply Ho. lia.
  - lia.
  - split; [rewrite Hr; set_solver|lia].
Qed.

Lemma obs_sees m h e E o : obs_ok m h e E o → ¬ sees o (counter m) → E ≠ e.
Proof. intros Ho Hs ->. destruct o; simpl in *; [done|by apply Hs, Ho|]. apply Hs. by apply Ho, Ho. Qed.

(** A hart with a pending call: [N] bounds the events. *)
Definition pending_ok (w : width) (N E : nat) (m : cell) (h : nat) (f : Z → Z * Z) (p : prog) : Prop :=
  ∃ n o e, lin w f n o p ∧ (N ≤ n + e)%nat ∧ (e ≤ E)%nat ∧ obs_ok m h e E o.

Lemma exec_lin w (N E E' : nat) m h (sp : bool) f p :
  pending_ok w N E m h f p → E' = (E + if sp then 1 else 0)%nat → (E' ≤ N)%nat →
  ∃ p' m', exec h sp p m 0 = (p', m', 0) ∧
    ((∃ r, p' = Ret r ∧ f (counter m) = (r, counter m') ∧ (quiet h m m' ∨ reserved m' = ∅)) ∨
     (pending_ok w N E' m' h f p' ∧ quiet h m m')).
Proof.
  intros (n & o & e & Hl & Hn & He & Ho) HE1 HN.
  assert ((E ≤ E')%nat ∧ (sp = true → (E < E')%nat)) as [HE HS] by (destruct sp; split; lia || done). clear HE1.
  assert (quiet h m m) as Hq by (split; done).
  inversion Hl as [n' k Hk|n' o' y r Hf|n' o' i k Hk|n' o' y k Hk|n' o' k Hk1 Hk2|n' x y k r Hf Hk Hs]; subst; simpl.
  - do 2 eexists. split; [done|]. destruct (Hk (counter m)) as [(r & -> & Hf)|Hk']; [left; eauto|right].
    split; [|done]. exists n, (Saw (counter m)), E'. split_and!; (done || lia).
  - do 2 eexists. split; [done|]. left. exists r. rewrite Hf. auto.
  - do 2 eexists. split; [done|]. left. destruct (Hk (counter m)) as (r & -> & ->). eauto.
  - do 2 eexists. split; [done|]. left. destruct (Hk (counter m)) as (r & -> & ->). eauto.
  - do 2 eexists. split; [done|]. set (m' := {| counter := counter m; reserved := {[h]} ∪ reserved m |}).
    assert (quiet h m m') as Hq' by (split; [done|]; intros j Hj; simpl; set_solver).
    assert (obs_ok m' h E' E' (Resv (counter m))) as Ho' by (split; simpl; [done|set_solver]).
    destruct (decide (sees o (counter m))) as [Hse|Hse].
    + destruct (Hk1 _ Hse) as [(r & -> & Hf)|Hk']; [left; eauto|right; split; [|done]].
      exists n, (Resv (counter m)), E'. split_and!; (done || lia).
    + pose proof (obs_sees _ _ _ _ _ Ho Hse). destruct (Hk2 (counter m) (n - 1)%nat ltac:(lia)) as [(r & -> & Hf)|Hk']; [left; eauto|right; split; [|done]].
      exists (n - 1)%nat, (Resv (counter m)), E'. split_and!; (done || lia).
  - destruct Ho as [Hx Hr]. set (m' := {| counter := counter m; reserved := reserved m ∖ {[h]} |}).
    assert ((e < E')%nat → pending_ok w N E' m' h f (k 1) ∧ quiet h m m') as Hfail.
    { intros Hlt. split; [|split; [done|]; intros j Hj; simpl; set_solver].
      exists (n - 1)%nat, Fresh, E'. split_and!; [apply Hs; lia|lia|done|done]. }
    case_bool_decide as Hin; [destruct sp|]; simpl; do 2 eexists; (split; [done|]).
    + right. apply Hfail. specialize (HS eq_refl). lia.
    + left. exists r. rewrite Hk, (Hx Hin), Hf. auto.
    + right. apply Hfail. destruct (decide (E = e)) as [Heq|]; [by destruct Hin; apply Hr|lia].
Qed.

(** ** The machine *)

Definition weight (t : hart) : nat := (length (todo t) + if running (pc t) then 1 else 0)%nat.

Definition calls_left (l : list hart) : nat := sum_list_with weight l.

Lemma sum_list_with_insert {A} (f : A → nat) l i a b :
  l !! i = Some a → (sum_list_with f (<[i := b]> l) + f a = sum_list_with f l + f b)%nat.
Proof. revert i. induction l as [|a1 l IH]; intros [|i] Hi; simplify_eq/=; [lia|]. specialize (IH i Hi). lia. Qed.

Lemma by_hart_app h l1 l2 : by_hart h (l1 ++ l2) = by_hart h l1 ++ by_hart h l2.
Proof. apply omap_app. Qed.

Lemma by_hart_eq h c r : by_hart h [(h, c, r)] = [(c, r)].
Proof. unfold by_hart. simpl. by rewrite decide_True. Qed.

Lemma by_hart_ne h j c r : j ≠ h → by_hart j [(h, c, r)] = [].
Proof. intros Hj. unfold by_hart. simpl. by rewrite decide_False. Qed.

Lemma sequential_app w x l1 y l2 z : sequential w x l1 y → sequential w y l2 z → sequential w x (l1 ++ l2) z.
Proof. revert x. induction l1 as [|[[h c] r] l1 IH]; intros x; simpl; [by intros ->|]. intros [Hr H1] H2. split; [done|by apply IH]. Qed.

(** What a hart has done so far, with the entries [mine] of the history. *)
Definition hart_ok (w : width) (N E : nat) (m : cell) (h : nat) (script : list call) (mine : list (call * Z)) (t : hart) : Prop :=
  if running (pc t) then
    ∃ p c, pc t = Some p ∧ script = mine.*1 ++ c :: todo t ∧ rets t = mine.*2 ∧ pending_ok w N E m h (spec w c) p
  else script = mine.*1 ++ todo t ∧ rets t ++ returned (pc t) = mine.*2.

Lemma hart_ok_other w N E E' m m' h j script mine t :
  j ≠ h → (E ≤ E')%nat → quiet h m m' ∨ (E < E')%nat ∧ reserved m' = ∅ →
  hart_ok w N E m j script mine t → hart_ok w N E' m' j script mine t.
Proof.
  intros Hj HE Hm. unfold hart_ok. destruct (running (pc t)); [|done]. intros (p & c & Hp & Hs & Hr & n & o & e & Hl & Hn & He & Ho).
  exists p, c. split_and!; try done. exists n, o, e. split_and!; try done; [lia|]. by eapply obs_ok_other.
Qed.

(** The invariant; [k] counts the spurious failures so far. *)
Record inv (w : width) (x : Z) (scripts : list (list call)) (N k : nat) (s : machine) (log : history) : Prop := Inv {
  inv_seq : sequential w x log (counter (word s));
  inv_len : length (harts s) = length scripts;
  inv_range : Forall (λ e, (e.1.1 < length scripts)%nat) log;
  inv_left : (length log + calls_left (harts s) = length (concat scripts))%nat;
  inv_hart h t script : harts s !! h = Some t → scripts !! h = Some script →
    hart_ok w N (length log + k) (word s) h script (by_hart h log) t
}.

Lemma lin_running w f n o p : lin w f n o p → running (Some p) = true.
Proof. by inversion 1. Qed.

Lemma inv_boot w x scripts N : inv w x scripts N 0 (boot x scripts) [].
Proof.
  split; simpl; [done|by rewrite length_fmap|done| |].
  - unfold calls_left. induction scripts as [|cs l IH]; simpl; [done|]. rewrite length_app, <- IH. f_equal. apply Nat.add_0_r.
  - intros h t script Ht Hs. rewrite list_lookup_fmap, Hs in Ht. injection Ht as <-. by split.
Qed.

(** A step that changes one hart, with or without an entry in the history. *)
Lemma inv_update w x scripts N k k' s log h t t' m' new :
  inv w x scripts N k s log → harts s !! h = Some t → (k ≤ k')%nat →
  sequential w (counter (word s)) new (counter m') → (length new + weight t' = weight t)%nat →
  (∀ j, j ≠ h → by_hart j new = []) → (∀ n, (h < n)%nat → Forall (λ e, (e.1.1 < n)%nat) new) →
  quiet h (word s) m' ∨ new ≠ [] ∧ reserved m' = ∅ →
  (∀ script, scripts !! h = Some script → hart_ok w N (length (log ++ new) + k') m' h script (by_hart h log ++ by_hart h new) t') →
  inv w x scripts N k' {| word := m'; harts := <[h := t']> (harts s) |} (log ++ new).
Proof.
  intros [Hseq Hlen Hrange Hleft Hh] Ht Hk Hnew Hw Hby Hnr Hm Ht'. split; simpl.
  - by eapply sequential_app.
  - by rewrite length_insert.
  - apply Forall_app_2; [done|]. by rewrite <- Hlen; apply Hnr, (lookup_lt_Some _ _ _ Ht).
  - pose proof (sum_list_with_insert weight _ _ _ t' Ht). unfold calls_left in *. rewrite length_app. lia.
  - intros j tj script Hj Hs. destruct (decide (j = h)) as [->|Hjh].
    + rewrite list_lookup_insert_eq in Hj by (by eapply lookup_lt_Some). injection Hj as <-. rewrite by_hart_app. auto.
    + rewrite list_lookup_insert_ne in Hj by done. rewrite by_hart_app, (Hby j Hjh), app_nil_r.
      eapply hart_ok_other; [done| | |by apply Hh].
      * rewrite length_app. lia.
      * destruct Hm as [?|[Hne ?]]; [by left|right]. split; [|done]. rewrite length_app. destruct new; [done|simpl; lia].
Qed.

Lemma inv_mono w x scripts N k k' s log : inv w x scripts N k s log → (k ≤ k')%nat → inv w x scripts N k' s log.
Proof.
  intros [Hseq Hlen Hrange Hleft Hh] Hk. split; try done. intros h t script Ht Hs.
  apply (hart_ok_other _ _ (length log + k) _ (word s) _ (S h)); [lia|lia|left; by split|by apply Hh].
Qed.

Lemma step_exec w fuel s h sp t p p' m' :
  harts s !! h = Some t → pc t = Some p → running (Some p) = true → exec h sp p (word s) 0 = (p', m', 0) →
  step w fuel s (h, sp) = {| word := m'; harts := <[h := {| pc := Some p'; todo := todo t; rets := rets t |}]> (harts s) |}.
Proof. intros Ht Hp Hr He. unfold step. rewrite Ht, Hp. destruct p; try done; by rewrite He. Qed.

(** A hart that is in a call executes an instruction. *)
Lemma inv_exec w x scripts N fuel k k' s log h (sp : bool) t :
  inv w x scripts N k s log → harts s !! h = Some t → running (pc t) = true →
  k' = (k + if sp then 1 else 0)%nat → (length (concat scripts) + k' ≤ N)%nat →
  ∃ new, inv w x scripts N k' (step w fuel s (h, sp)) (log ++ new).
Proof.
  intros Hi Ht Hrun Hk HN. destruct (lookup_lt_is_Some_2 scripts h) as [script Hs].
  { rewrite <- (inv_len _ _ _ _ _ _ _ Hi). by eapply lookup_lt_Some. }
  pose proof (inv_hart _ _ _ _ _ _ _ Hi h t script Ht Hs) as Ho. unfold hart_ok in Ho. rewrite Hrun in Ho.
  destruct Ho as (p & c & Hp & Hsc & Hrets & Hpend). rewrite Hp in Hrun. pose proof (inv_left _ _ _ _ _ _ _ Hi) as Hleft.
  destruct (exec_lin w N _ (length log + k') (word s) h sp _ _ Hpend) as (p' & m' & He & Hcase); [destruct sp; lia|lia|].
  rewrite (step_exec _ _ _ _ _ _ _ _ _ Ht Hp Hrun He). destruct Hcase as [(r & -> & Hf & Hm)|[Hpend' Hq]].
  - exists [(h, c, r)]. apply (inv_update w x scripts N k k' s log h t _ m' [(h, c, r)] Hi Ht); [destruct sp; lia| | | | | |].
    + simpl. by rewrite Hf.
    + unfold weight. rewrite Hp, Hrun. simpl. lia.
    + intros j Hj. by apply by_hart_ne.
    + intros n Hn. by apply Forall_singleton.
    + destruct Hm as [|]; [by left|by right].
    + intros script' Hs'. rewrite Hs in Hs'. injection Hs' as <-. rewrite by_hart_eq. unfold hart_ok. simpl. rewrite !fmap_app, Hsc, Hrets. simpl.
      by rewrite <- app_assoc.
  - exists []. pose proof Hpend' as (n & o & e & Hl & _). apply lin_running in Hl.
    apply (inv_update w x scripts N k k' s log h t _ m' [] Hi Ht); [destruct sp; lia|by apply Hq| |done|done|by left|].
    + unfold weight. rewrite Hp, Hrun. simpl in *. by rewrite Hl.
    + intros script' Hs'. rewrite Hs in Hs'. injection Hs' as <-. rewrite !app_nil_r. unfold hart_ok. cbn [pc]. rewrite Hl. by exists p', c.
Qed.

Lemma inv_step w x scripts N fuel k k' s log h (sp : bool) :
  inv w x scripts N k s log → (N < fuel)%nat → k' = (k + if sp then 1 else 0)%nat → (length (concat scripts) + k' ≤ N)%nat →
  ∃ new, inv w x scripts N k' (step w fuel s (h, sp)) (log ++ new).
Proof.
  intros Hi Hf Hk HN. assert (k ≤ k')%nat as Hkk by (destruct sp; lia).
  destruct (harts s !! h) as [t|] eqn:Ht.
  2:{ exists []. unfold step. rewrite Ht, app_nil_r. by eapply inv_mono. }
  destruct (running (pc t)) eqn:Hrun; [by eapply inv_exec|]. exists [].
  assert (∀ t', weight t' = weight t → (∀ script mine, script = mine.*1 ++ todo t → rets t ++ returned (pc t) = mine.*2 →
      hart_ok w N (length log + k') (word s) h script mine t') →
    inv w x scripts N k' {| word := word s; harts := <[h := t']> (harts s) |} (log ++ [])) as Hup.
  { intros t' Hwt Hok. apply (inv_update w x scripts N k k' s log h t t' (word s) [] Hi Ht); try done; [left; by split|].
    intros script Hs. rewrite !app_nil_r. pose proof (inv_hart _ _ _ _ _ _ _ Hi h t script Ht Hs) as Ho. unfold hart_ok in Ho. rewrite Hrun in Ho.
    destruct Ho as [Ho1 Ho2]. by apply Hok. }
  unfold step. rewrite Ht. destruct (pc t) as [p|] eqn:Hp.
  - destruct p; try done. apply Hup; [unfold weight; by rewrite Hp|]. intros script mine Hsc Hr. split; simpl; [done|by rewrite app_nil_r].
  - destruct (todo t) as [|c cs] eqn:Htd; [rewrite app_nil_r; by eapply inv_mono|].
    pose proof (lin_code w fuel N c Hf) as Hl. pose proof (lin_running _ _ _ _ _ Hl) as Hr.
    apply Hup; [unfold weight; rewrite Hp, Htd; cbn [pc todo]; rewrite Hr; simpl; lia|]. intros script mine Hsc Hrt. unfold hart_ok. cbn [pc]. rewrite Hr.
    exists (code w fuel c), c. split_and!; [done|done|by rewrite app_nil_r in Hrt|]. exists N, Fresh, 0%nat. split_and!; (done || lia).
Qed.

Lemma inv_run w x scripts N fuel sched k s log :
  inv w x scripts N k s log → (N < fuel)%nat → (length (concat scripts) + k + spurious_failures sched ≤ N)%nat →
  ∃ new, inv w x scripts N (k + spurious_failures sched) (run w fuel sched s) (log ++ new).
Proof.
  revert k s log. induction sched as [|[h sp] sched IH]; intros k s log Hi Hf HN.
  { exists []. rewrite app_nil_r. unfold spurious_failures. simpl. by rewrite Nat.add_0_r. }
  assert (spurious_failures ((h, sp) :: sched) = ((if sp then 1 else 0) + spurious_failures sched)%nat) as Hsp.
  { unfold spurious_failures. rewrite filter_cons. by destruct sp. }
  rewrite Hsp in *. destruct (inv_step w x scripts N fuel k _ s log h sp Hi Hf eq_refl) as [new1 H1]; [lia|].
  destruct (IH _ _ _ H1 Hf) as [new2 H2]; [lia|]. exists (new1 ++ new2). rewrite app_assoc, Nat.add_assoc. done.
Qed.

Lemma inv_explains w x scripts N k s log : inv w x scripts N k s log → explains w x scripts s log.
Proof.
  intros Hi. split; [apply Hi|]. split; [apply Hi|]. intros h t Ht. destruct (lookup_lt_is_Some_2 scripts h) as [script Hs].
  { rewrite <- (inv_len _ _ _ _ _ _ _ Hi). by eapply lookup_lt_Some. }
  pose proof (inv_hart _ _ _ _ _ _ _ Hi h t script Ht Hs) as Ho. unfold hart_ok in Ho. destruct (running (pc t)) eqn:Hr.
  - destruct Ho as (p & c & Hp & Hsc & Hrt & n & o & e & Hl & _). rewrite Hp in *.
    split_and!; [by inversion Hl|by inversion Hl; simpl; rewrite app_nil_r|]. exists (c :: todo t). by rewrite Hs, Hsc.
  - destruct Ho as [Hsc Hrt]. split_and!; [by destruct (pc t) as [[]|]|done|]. exists (todo t). by rewrite Hs, Hsc.
Qed.

(** C8. Linearizability: in every interleaving of the calls of the harts on one counter,
    the calls have the results and the effect of a sequential run, in which the calls of
    a hart are in order. The history of a longer schedule continues the one of a
    shorter, so a call that has returned comes before every call that begins
    later. No retry loop runs out of fuel when the fuel exceeds the number of calls and
    spurious failures: a call retries only for an effect of another or such a failure. *)
Theorem atomics_linearizable w fuel scripts x sched1 sched2 :
  (length (concat scripts) + spurious_failures (sched1 ++ sched2) < fuel)%nat →
  ∃ log1 log2,
    explains w x scripts (run w fuel sched1 (boot x scripts)) log1 ∧
    explains w x scripts (run w fuel (sched1 ++ sched2) (boot x scripts)) (log1 ++ log2).
Proof.
  intros Hf. set (N := (length (concat scripts) + spurious_failures (sched1 ++ sched2))%nat) in *.
  assert (spurious_failures (sched1 ++ sched2) = (spurious_failures sched1 + spurious_failures sched2)%nat) as Hsp.
  { unfold spurious_failures. by rewrite list.filter_app, length_app. }
  destruct (inv_run w x scripts N fuel sched1 0 _ _ (inv_boot w x scripts N) Hf) as [log1 H1]; [unfold N; lia|].
  destruct (inv_run w x scripts N fuel sched2 _ _ _ H1 Hf) as [log2 H2]; [unfold N; lia|].
  exists log1, log2. apply inv_explains in H1, H2. unfold run in *. rewrite foldl_app. by split.
Qed.

(** Two harts take a reference unless there is none, and drop one; the first
    compare-and-exchange of hart 0 loses its reservation to hart 1. *)
Lemma atomics_linearizable_witness :
  let scripts := [[IncNotZero; DecAndTest]; [Inc; Dec]] in
  let sched := [(0, false); (0, false); (0, false); (1, false); (1, false); (0, false); (0, false); (0, false); (0, false)]%nat in
  (length (concat scripts) + spurious_failures (sched ++ [(0, false)]%nat) < 5)%nat ∧
  (∃ log1 log2,
    explains W32 1 scripts (run W32 5 sched (boot 1 scripts)) log1 ∧
    explains W32 1 scripts (run W32 5 (sched ++ [(0, false)]%nat) (boot 1 scripts)) (log1 ++ log2)) ∧
  counter (word (run W32 5 (sched ++ [(0, false)]%nat) (boot 1 scripts))) = 3.
Proof.
  cbv zeta. split; [vm_compute; lia|]. split; [|vm_compute; reflexivity].
  apply (atomics_linearizable W32 5 [[IncNotZero; DecAndTest]; [Inc; Dec]] 1). vm_compute. lia.
Defined.

(** ** Reference counts

    A hart that holds [k] references may take another with [atomic_inc] or drop one with
    [atomic_dec_and_test] while it holds at least one; at its end it holds none. *)

Fixpoint balanced (k : nat) (cs : list call) : Prop :=
  match cs with
  | [] => k = 0%nat
  | Inc :: cs => (0 < k)%nat ∧ balanced (S k) cs
  | DecAndTest :: cs => (0 < k)%nat ∧ balanced (k - 1) cs
  | _ => False
  end.

Definition ones (rs : list Z) : nat := length (filter (λ r, r = 1) rs).

Definition finished (s : machine) : Prop := Forall (λ t, pc t = None ∧ todo t = []) (harts s).

Lemma ones_cons r rs : ones (r :: rs) = ((if (r =? 1)%Z then 1 else 0) + ones rs)%nat.
Proof. unfold ones. rewrite filter_cons. destruct (Z.eqb_spec r 1); case_decide; done. Qed.

(** The sequential argument: [st] are the references each hart holds and its remaining calls with
    their results. *)
Lemma refcount_sequential log : ∀ x y (st : list (nat * list (call * Z))),
  (∀ h k mine, st !! h = Some (k, mine) → balanced k mine.*1 ∧ mine = by_hart h log) →
  Forall (λ e, (e.1.1 < length st)%nat) log → sequential W32 x log y →
  x = Z.of_nat (sum_list_with fst st) → x + Z.of_nat (length log) < 2 ^ 31 →
  y = 0 ∧ sum_list_with (λ e, ones e.2.*2) st = (if (x =? 0)%Z then 0 else 1)%nat.
Proof.
  induction log as [|[[h c] r] log IH]; intros x y st Hst Hrange Hseq Hx Hb.
  - simpl in Hseq. assert (sum_list_with fst st = 0%nat ∧ sum_list_with (λ e, ones e.2.*2) st = 0%nat) as [H1 H2].
    { clear -Hst. induction st as [|[k mine] st IHst]; [done|]. destruct (Hst 0%nat k mine eq_refl) as [Hb ->]. simpl in *. subst k.
      apply IHst. intros h. apply (Hst (S h)). }
    subst x y. rewrite H1. done.
  - apply Forall_cons_1 in Hrange as [Hh Hrange]. simpl in Hh. destruct (lookup_lt_is_Some_2 st h Hh) as [[k mine] Hk].
    destruct (Hst h k mine Hk) as [Hbal Hmine]. unfold by_hart in Hmine. simpl in Hmine. rewrite decide_True in Hmine by done. fold (by_hart h log) in Hmine.
    rewrite Hmine in Hbal. simpl in Hbal. simpl in Hseq. destruct Hseq as [Hr Hseq].
    assert (∀ k', balanced k' (by_hart h log).*1 → snd (spec W32 c x) = x + Z.of_nat k' - Z.of_nat k → snd (spec W32 c x) ≤ x + 1 →
      y = 0 ∧ (sum_list_with (λ e, ones e.2.*2) st = (if (r =? 1)%Z then 1 else 0) + (if (snd (spec W32 c x) =? 0)%Z then 0 else 1))%nat) as Hgo.
    { intros k' Hbal' Hx' Hle.
      pose proof (sum_list_with_insert fst st h _ (k', by_hart h log) Hk) as S1. pose proof (sum_list_with_insert (λ e, ones e.2.*2) st h _ (k', by_hart h log) Hk) as S2.
      assert (ones mine.*2 = ((if (r =? 1)%Z then 1 else 0) + ones (by_hart h log).*2)%nat) as Hone by (rewrite Hmine; apply ones_cons).
      destruct (IH (snd (spec W32 c x)) y (<[h := (k', by_hart h log)]> st)) as [-> H2]; simpl in *; try done.
      - intros j kj mj Hj. destruct (decide (j = h)) as [->|Hjh].
        + rewrite list_lookup_insert_eq in Hj by done. by injection Hj as <- <-.
        + rewrite list_lookup_insert_ne in Hj by done. destruct (Hst j kj mj Hj) as [Hbj ->]. unfold by_hart in *. simpl in *. rewrite decide_False in * by done. done.
      - by rewrite length_insert.
      - lia.
      - lia.
      - split; [done|]. rewrite H2 in S2. lia. }
    assert (Z.of_nat k ≤ x) as Hkx.
    { pose proof (sum_list_with_insert fst st h _ (0%nat, mine) Hk). simpl in *. lia. }
    simpl length in Hb. rewrite Nat2Z.inj_succ in Hb. simpl in Hgo, Hr.
    destruct c; try done; destruct Hbal as [Hpos Hbal]; simpl in Hgo, Hr.
    + rewrite s32_small in Hgo by lia. destruct (Hgo (S k) Hbal) as [-> ->]; [lia|lia|]. split; [done|]. subst r.
      destruct (Z.eqb_spec (x + 1) 0); [lia|]. destruct (Z.eqb_spec x 0); [lia|]. done.
    + rewrite s32_small in Hgo, Hr by lia. destruct (Hgo (k - 1)%nat Hbal) as [-> ->]; [lia|lia|]. split; [done|]. subst r.
      destruct (Z.eqb_spec (x - 1) 0); destruct (Z.eqb_spec x 0); simpl; lia.
Qed.

Lemma run_explains w fuel scripts x sched :
  (length (concat scripts) + spurious_failures sched < fuel)%nat →
  ∃ log, explains w x scripts (run w fuel sched (boot x scripts)) log ∧ length (harts (run w fuel sched (boot x scripts))) = length scripts ∧
         (length log ≤ length (concat scripts))%nat.
Proof.
  intros Hf. set (N := (length (concat scripts) + spurious_failures sched)%nat) in *.
  destruct (inv_run w x scripts N fuel sched 0 _ _ (inv_boot w x scripts N) Hf) as [log Hi]; [unfold N; lia|].
  exists log. split; [by eapply inv_explains|]. split; [apply Hi|]. pose proof (inv_left _ _ _ _ _ _ _ Hi). simpl in *. lia.
Qed.

(** When every hart has made its calls, its entries in the history are its script with its results. *)
Lemma finished_entries w x scripts s log h t :
  explains w x scripts s log → finished s → harts s !! h = Some t →
  scripts !! h = Some (by_hart h log).*1 ∧ rets t = (by_hart h log).*2.
Proof.
  intros (_ & _ & He) Hfin Ht. destruct (He h t Ht) as (_ & Hr & rest & Hs & Hrest).
  destruct (Forall_lookup_1 _ _ _ _ Hfin Ht) as [Hp Htd]. rewrite Hp in *. simpl in Hr, Hrest. rewrite app_nil_r in Hr.
  rewrite (Hrest eq_refl), Htd, app_nil_r in Hs. done.
Qed.

Lemma sum_list_with_zip {A B} (f : A → nat) (g : B → nat) l k :
  length l = length k → (∀ i a b, l !! i = Some a → k !! i = Some b → f a = g b) → sum_list_with f l = sum_list_with g k.
Proof.
  revert k. induction l as [|a l IH]; intros [|b k] Hlen Hfg; try done. simpl. rewrite (Hfg 0%nat a b) by done. f_equal.
  apply IH; [by injection Hlen|]. intros i. apply (Hfg (S i)).
Qed.

Lemma sum_list_with_ones {A B} (f : A → B) l : sum_list_with fst ((λ a, (1%nat, f a)) <$> l) = length l.
Proof. induction l; simpl; [done|]. by f_equal. Qed.

(** C15. Harts share an object with a reference count, one reference each, take further references while
    they hold one and drop all of them. In every interleaving that runs to the end the count is 0, and exactly
    one [atomic_dec_and_test] of all the calls has returned 1: the object is released once. *)
Theorem dec_and_test_once fuel scripts sched :
  scripts ≠ [] → Forall (balanced 1) scripts →
  Z.of_nat (length scripts + length (concat scripts)) < 2 ^ 31 →
  (length (concat scripts) + spurious_failures sched < fuel)%nat →
  let s := run W32 fuel sched (boot (Z.of_nat (length scripts)) scripts) in
  finished s → counter (word s) = 0 ∧ sum_list_with (λ t, ones (rets t)) (harts s) = 1%nat.
Proof.
  intros Hne Hbal Hb Hf s Hfin. destruct (run_explains W32 fuel scripts (Z.of_nat (length scripts)) sched Hf) as (log & He & Hlen & Hlog). fold s in He, Hlen.
  set (st := (λ h, (1%nat, by_hart h log)) <$> seq 0 (length scripts)).
  assert (∀ h e, st !! h = Some e → (h < length scripts)%nat ∧ e = (1%nat, by_hart h log)) as Hst.
  { intros h e Hh. apply list_lookup_fmap_Some in Hh as (j & -> & Hj). apply lookup_seq in Hj as [-> Hj]. done. }
  assert (length st = length scripts) as Hlst by (unfold st; by rewrite length_fmap, length_seq).
  assert (sum_list_with fst st = length scripts) as Hsum.
  { unfold st. rewrite <- (length_seq (length scripts) 0) at 2. apply sum_list_with_ones. }
  destruct (refcount_sequential log (Z.of_nat (length scripts)) (counter (word s)) st) as [Hy Hones].
  - intros h k mine Hh. apply Hst in Hh as [Hh [= -> ->]]. split; [|done].
    rewrite <- Hlen in Hh. destruct (lookup_lt_is_Some_2 _ _ Hh) as [t Ht]. destruct (finished_entries _ _ _ _ _ _ _ He Hfin Ht) as [Hs _].
    by apply (Forall_lookup_1 _ _ _ _ Hbal Hs).
  - rewrite Hlst. apply He.
  - apply He.
  - by rewrite Hsum.
  - lia.
  - split; [done|]. destruct (Z.eqb_spec (Z.of_nat (length scripts)) 0) as [H0|_]; [destruct scripts; done|].
    rewrite <- Hones. apply sum_list_with_zip; [congruence|]. intros h t e Ht Hh. apply Hst in Hh as [_ ->].
    destruct (finished_entries _ _ _ _ _ _ _ He Hfin Ht) as [_ ->]. done.
Qed.

(** Hart 0 takes a second reference before it drops both, hart 1 drops its own in between. *)
Lemma dec_and_test_once_witness :
  let scripts := [[Inc; DecAndTest; DecAndTest]; [DecAndTest]] in
  let sched := [(0, false); (0, false); (0, false); (0, false); (1, false); (0, false); (1, false); (0, false); (1, false);
                (0, false); (0, false); (0, false)]%nat in
  finished (run W32 5 sched (boot 2 scripts)) ∧
  counter (word (run W32 5 sched (boot 2 scripts))) = 0 ∧
  sum_list_with (λ t, ones (rets t)) (harts (run W32 5 sched (boot 2 scripts))) = 1%nat.
Proof.
  cbv zeta. assert (finished (run W32 5 [(0, false); (0, false); (0, false); (0, false); (1, false); (0, false); (1, false); (0, false); (1, false);
                (0, false); (0, false); (0, false)]%nat (boot 2 [[Inc; DecAndTest; DecAndTest]; [DecAndTest]]))) as Hfin.
  { vm_compute. repeat constructor. }
  split; [exact Hfin|]. apply (dec_and_test_once 5 [[Inc; DecAndTest; DecAndTest]; [DecAndTest]]).
  - done.
  - repeat constructor.
  - vm_compute. reflexivity.
  - vm_compute. lia.
  - exact Hfin.
Defined.
