(* ===== verification/Spinlock.v ===== *)
(** * Spin locks

    The inline functions of [include/kernel/util/spinlock.h], as programs of the
    instructions of [Atomic]. The flag of a lock is a word that is 0 or 1. Harts that share
    a lock enter and leave critical sections with the functions, in any interleaving.

    The theorems: a lock is held by one hart at a time, the flag says whether it is held, interrupts are
    off in the sections entered with [spinlock_lock_irqsave] and as before after them
    ([spinlock_mutex]); no interleaving leads to a state from which the harts cannot finish
    ([spinlock_no_deadlock]). *)

From stdpp Require Import base gmap list numbers.
From S2P Require Import Prelude Atomic.

Local Open Scope Z_scope.

(** ** The functions *)

Definition atomic_flag_test_and_set : prog := Amoswap W32 1 (λ old, Ret (b2z (negb (old =? 0)))).

Definition atomic_flag_clear : prog := Store W32 0 (Ret 0).

Definition spinlock_init : prog := atomic_flag_clear.

Definition spinlock_trylock : prog := bind atomic_flag_test_and_set (λ r, Ret (b2z (r =? 0))).

Fixpoint spinlock_lock (fuel : nat) : prog :=
  match fuel with
  | O => OutOfFuel
  | S fuel => bind atomic_flag_test_and_set (λ r, if negb (r =? 0) then spinlock_lock fuel else Ret 0)
  end.

Definition spinlock_unlock : prog := atomic_flag_clear.

Definition spinlock_unlock_irqrestore (flags : Z) : prog :=
  bind atomic_flag_clear (λ _, enable_irqrestore (u64 flags)).

(** The loop of [spinlock_lock_irqsave]. *)
Fixpoint irqsave_loop (fuel : nat) (flags : Z) : prog :=
  match fuel with
  | O => OutOfFuel
  | S fuel => bind atomic_flag_test_and_set (λ r, if negb (r =? 0) then irqsave_loop fuel flags else Ret flags)
  end.

Definition spinlock_lock_irqsave (fuel : nat) : prog :=
  bind disable_irqsave (λ sstatus, let flags := s64 sstatus in irqsave_loop fuel flags).

(** ** Harts that share a lock

    A section is entered with one of the three functions and left with the matching one; a hart
    whose [spinlock_trylock] fails skips the section. [sstatus] is its status register. *)

Inductive kind : Type := KLock | KIrq | KTry.

Definition acquire_code (fuel : nat) (k : kind) : prog :=
  match k with KLock => spinlock_lock fuel | KIrq => spinlock_lock_irqsave fuel | KTry => spinlock_trylock end.

Definition release_code (k : kind) (flags : Z) : prog :=
  match k with KIrq => spinlock_unlock_irqrestore flags | _ => spinlock_unlock end.

(** [Critical] has the result of the function that entered the section. *)
Inductive phase : Type :=
| Idle
| Acquiring (k : kind) (p : prog)
| Critical (k : kind) (r : Z)
| Releasing (k : kind) (p : prog).

Record lhart : Type := LHart { ph : phase; sstatus : Z; sections : list kind }.

Record lmachine : Type := LMachine { flag : cell; lharts : list lhart }.

Definition lboot (inits : list (Z * list kind)) : lmachine :=
  {| flag := {| counter := 0; reserved := ∅ |};
     lharts := (λ i, {| ph := Idle; sstatus := i.1; sections := i.2 |}) <$> inits |}.

(** The next phase of a hart that is in no instruction, or one instruction. *)
Definition advance (fuel h : nat) (m : cell) (t : lhart) : cell * lhart :=
  match ph t with
  | Idle =>
      match sections t with
      | [] => (m, t)
      | k :: ks => (m, {| ph := Acquiring k (acquire_code fuel k); sstatus := sstatus t; sections := ks |})
      end
  | Acquiring k (Ret r) =>
      let skip := match k with KTry => r =? 0 | _ => false end in
      (m, {| ph := if skip then Idle else Critical k r; sstatus := sstatus t; sections := sections t |})
  | Acquiring k p =>
      let '(p', m', csr) := exec h false p m (sstatus t) in
      (m', {| ph := Acquiring k p'; sstatus := csr; sections := sections t |})
  | Critical k r => (m, {| ph := Releasing k (release_code k r); sstatus := sstatus t; sections := sections t |})
  | Releasing k (Ret _) => (m, {| ph := Idle; sstatus := sstatus t; sections := sections t |})
  | Releasing k p =>
      let '(p', m', csr) := exec h false p m (sstatus t) in
      (m', {| ph := Releasing k p'; sstatus := csr; sections := sections t |})
  end.

Definition lstep (fuel : nat) (s : lmachine) (h : nat) : lmachine :=
  match lharts s !! h with
  | None => s
  | Some t => let '(m, t') := advance fuel h (flag s) t in {| flag := m; lharts := <[h := t']> (lharts s) |}
  end.

Definition lrun (fuel : nat) (sched : list nat) (s : lmachine) : lmachine := foldl (lstep fuel) s sched.

(** ** The invariant *)

Definition irq_off (b : Z) : Z := Z.land b (u64 (Z.lnot 2)).

(** [at_phase n b own p csr]: a hart in phase [p] whose status register was [b] before it entered the section and is
    [csr] now; [own] says whether it holds the lock. Its loops have fuel for [n] rounds. *)
Inductive at_phase (n : nat) (b : Z) : bool → phase → Z → Prop :=
| at_idle : at_phase n b false Idle b
| at_spin f : (n < f)%nat → at_phase n b false (Acquiring KLock (spinlock_lock f)) b
| at_got : at_phase n b true (Acquiring KLock (Ret 0)) b
| at_irq f : (n < f)%nat → at_phase n b false (Acquiring KIrq (spinlock_lock_irqsave f)) b
| at_irq_csr f : (n < f)%nat → at_phase n b false (Acquiring KIrq (Csrw_sstatus (irq_off b) (irqsave_loop f (s64 b)))) b
| at_irq_spin f : (n < f)%nat → at_phase n b false (Acquiring KIrq (irqsave_loop f (s64 b))) (irq_off b)
| at_irq_got : at_phase n b true (Acquiring KIrq (Ret (s64 b))) (irq_off b)
| at_try : at_phase n b false (Acquiring KTry spinlock_trylock) b
| at_try_got : at_phase n b true (Acquiring KTry (Ret 1)) b
| at_try_missed : at_phase n b false (Acquiring KTry (Ret 0)) b
| at_crit k r : k ≠ KIrq → at_phase n b true (Critical k r) b
| at_crit_irq : at_phase n b true (Critical KIrq (s64 b)) (irq_off b)
| at_rel k : k ≠ KIrq → at_phase n b true (Releasing k spinlock_unlock) b
| at_rel_irq : at_phase n b true (Releasing KIrq (spinlock_unlock_irqrestore (s64 b))) (irq_off b)
| at_rel_csr : at_phase n b false (Releasing KIrq (Csrw_sstatus b (Ret 0))) (irq_off b)
| at_rel_done k : at_phase n b false (Releasing k (Ret 0)) b.

(** The steps a hart has left when it finds the lock free. *)
Definition steps_left (p : phase) : nat :=
  match p with
  | Idle => 0
  | Acquiring _ (Csrr_sstatus _) => 8
  | Acquiring _ (Csrw_sstatus _ _) => 7
  | Acquiring _ (Amoswap _ _ _) => 6
  | Acquiring _ _ => 5
  | Critical _ _ => 4
  | Releasing _ (Store _ _ _) => 3
  | Releasing _ (Csrw_sstatus _ _) => 2
  | Releasing _ _ => 1
  end.

Definition left (t : lhart) : nat := (steps_left (ph t) + 9 * length (sections t))%nat.

Definition lock_done (t : lhart) : Prop := ph t = Idle ∧ sections t = [].

#[global] Instance lock_done_dec t : Decision (lock_done t).
Proof. destruct t as [[] csr [|]]; unfold lock_done; simpl; first [by left | by right; intros []]. Defined.

Lemma at_phase_mono n n' b o p csr : at_phase n b o p csr → (n' ≤ n)%nat → at_phase n' b o p csr.
Proof. intros Hp Hn. destruct Hp; constructor; (done || lia). Qed.

Lemma u64_s64 x : 0 ≤ x < 2 ^ 64 → u64 (s64 x) = x.
Proof. unfold u64, s64. intros Hx. zdm. Qed.

(** What a step of a hart does to the lock: nothing, take it when it is free, try it when it is held, give it back. *)
Definition lock_effect (own own' : bool) (m m' : cell) : Prop :=
  (own' = own ∧ counter m' = counter m) ∨
  (own = false ∧ own' = true ∧ counter m = 0 ∧ counter m' = 1) ∨
  (own = true ∧ own' = false ∧ counter m' = 0).

Lemma lock_effect_same own m m' : counter m' = counter m → lock_effect own own m m'.
Proof. intros H. by left. Qed.

(** One step of a hart that is in a section or on its way in or out. *)
Definition phase_step (n : nat) (b : Z) (own : bool) (m : cell) (p : phase) (own' : bool) (m' : cell) (p' : phase) (csr' : Z) : Prop :=
  at_phase n b own' p' csr' ∧ lock_effect own own' m m' ∧ (steps_left p' ≤ steps_left p)%nat ∧
  (counter m = 0 ∨ own = true → (steps_left p' < steps_left p)%nat).

Lemma advance_phase n b own h m p csr :
  0 ≤ b < 2 ^ 64 → counter m = 0 ∨ counter m = 1 → p ≠ Idle → at_phase (S n) b own p csr →
  ∃ own' m' p' csr', phase_step n b own m p own' m' p' csr' ∧
    ∀ fuel ks, advance fuel h m {| ph := p; sstatus := csr; sections := ks |} = (m', {| ph := p'; sstatus := csr'; sections := ks |}).
Proof.
  intros Hb Hm Hp Ht.
  assert (∀ own' m' p' csr', at_phase n b own' p' csr' → lock_effect own own' m m' → (steps_left p' < steps_left p)%nat →
    phase_step n b own m p own' m' p' csr') as Hgo by (intros; split_and!; (done || lia)).
  inversion Ht as [|f Hf| |f Hf|f Hf|f Hf| | | | |k r Hk| |k Hk| | |k]; subst; clear Ht; [done|..];
    try (destruct f as [|f]; [lia|]).
  - destruct Hm as [Hm|Hm]; do 4 eexists; (split; [|intros; unfold advance; simpl; rewrite Hm; simpl; done]).
    + apply Hgo; [apply at_got|by right; left|simpl; lia].
    + split_and!; [apply (at_spin _ _ f); lia|by apply lock_effect_same|destruct f; simpl; lia|]. rewrite Hm. intros []; done.
  - do 4 eexists; (split; [|intros; unfold advance; simpl; reflexivity]; apply Hgo); [by apply at_crit|by apply lock_effect_same|simpl; lia].
  - do 4 eexists; (split; [|intros; unfold advance; simpl; reflexivity]; apply Hgo); [apply (at_irq_csr _ _ (S f)); lia|by apply lock_effect_same|simpl; lia].
  - do 4 eexists; (split; [|intros; unfold advance; simpl; reflexivity]; apply Hgo); [apply (at_irq_spin _ _ (S f)); lia|by apply lock_effect_same|simpl; lia].
  - destruct Hm as [Hm|Hm]; do 4 eexists; (split; [|intros; unfold advance; simpl; rewrite Hm; simpl; done]).
    + apply Hgo; [apply at_irq_got|by right; left|simpl; lia].
    + split_and!; [apply (at_irq_spin _ _ f); lia|by apply lock_effect_same|destruct f; simpl; lia|]. rewrite Hm. intros []; done.
  - do 4 eexists; (split; [|intros; unfold advance; simpl; reflexivity]; apply Hgo); [by apply at_crit_irq|by apply lock_effect_same|simpl; lia].
  - destruct Hm as [Hm|Hm]; do 4 eexists; (split; [|intros; unfold advance; simpl; rewrite Hm; simpl; done]).
    + apply Hgo; [apply at_try_got|by right; left|simpl; lia].
    + apply Hgo; [apply at_try_missed|by apply lock_effect_same|simpl; lia].
  - do 4 eexists; (split; [|intros; unfold advance; simpl; reflexivity]; apply Hgo); [by apply at_crit|by apply lock_effect_same|simpl; lia].
  - do 4 eexists; (split; [|intros; unfold advance; simpl; reflexivity]; apply Hgo); [by apply at_idle|by apply lock_effect_same|simpl; lia].
  - do 4 eexists; (split; [|intros; unfold advance; simpl; reflexivity]; apply Hgo); [destruct k; [by apply at_rel|done|by apply at_rel]|by apply lock_effect_same|destruct k; simpl; (lia || done)].
  - do 4 eexists; (split; [|intros; unfold advance; simpl; reflexivity]; apply Hgo); [by apply at_rel_irq|by apply lock_effect_same|simpl; lia].
  - do 4 eexists; (split; [|intros; unfold advance; simpl; reflexivity]; apply Hgo); [by apply at_rel_done|by right; right|simpl; lia].
  - do 4 eexists; (split; [|intros; unfold advance; simpl; rewrite u64_s64 by done; reflexivity]; apply Hgo); [by apply at_rel_csr|by right; right|simpl; lia].
  - do 4 eexists; (split; [|intros; unfold advance; simpl; reflexivity]; apply Hgo); [by apply at_rel_done|by apply lock_effect_same|simpl; lia].
  - do 4 eexists; (split; [|intros; unfold advance; simpl; reflexivity]; apply Hgo); [by apply at_idle|by apply lock_effect_same|simpl; lia].
Qed.

Lemma acquire_phase n b fuel k : (n < fuel)%nat → at_phase n b false (Acquiring k (acquire_code fuel k)) b ∧ (steps_left (Acquiring k (acquire_code fuel k)) < 9)%nat.
Proof. intros Hn. destruct fuel; [lia|]. destruct k; (split; [constructor; lia|simpl; lia]). Qed.

Lemma advance_at n b own fuel h m t :
  0 ≤ b < 2 ^ 64 → (n < fuel)%nat → counter m = 0 ∨ counter m = 1 → at_phase (S n) b own (ph t) (sstatus t) →
  ∃ own' m' t', advance fuel h m t = (m', t') ∧ at_phase n b own' (ph t') (sstatus t') ∧ lock_effect own own' m m' ∧
    (left t' ≤ left t)%nat ∧ (counter m = 0 ∨ own = true → ¬ lock_done t → (left t' < left t)%nat).
Proof.
  intros Hb Hn Hm Ht. destruct t as [p csr ks]. unfold left. cbn [ph sstatus sections] in *.
  assert (p = Idle ∨ p ≠ Idle) as [->|Hp] by (destruct p; auto).
  - inversion Ht; subst. destruct ks as [|k ks].
    + exists false, m. eexists. split; [done|]. split_and!; [apply at_idle|by apply lock_effect_same|done|]. intros _ Hd. by destruct Hd.
    + destruct (acquire_phase n csr fuel k Hn) as [Hk Hl]. exists false, m. eexists. split; [done|]. cbn [ph sstatus sections].
      split_and!; [done|by apply lock_effect_same|..]; cbn [length]; change (steps_left Idle) with 0%nat; lia.
  - destruct (advance_phase n b own h m p csr Hb Hm Hp Ht) as (own' & m' & p' & csr' & (Hat & He & Hle & Hlt) & Heq).
    exists own', m'. eexists. split; [apply Heq|]. cbn [ph sstatus sections]. split_and!; try done; [lia|]. intros Hc _. specialize (Hlt Hc). lia.
Qed.

(** The machine: [owner] holds the lock. *)
Record linv (inits : list (Z * list kind)) (n : nat) (owner : option nat) (s : lmachine) : Prop := LInv {
  linv_len : length (lharts s) = length inits;
  linv_flag : counter (flag s) = match owner with Some _ => 1 | None => 0 end;
  linv_owner h : owner = Some h → (h < length inits)%nat;
  linv_hart h t i : lharts s !! h = Some t → inits !! h = Some i → at_phase n i.1 (bool_decide (owner = Some h)) (ph t) (sstatus t)
}.

Lemma linv_boot inits n : linv inits n None (lboot inits).
Proof.
  split; simpl; [by rewrite length_fmap|done|done|]. intros h t i Ht Hi. rewrite list_lookup_fmap, Hi in Ht. injection Ht as <-. apply at_idle.
Qed.

Lemma linv_mono inits n n' owner s : linv inits n owner s → (n' ≤ n)%nat → linv inits n' owner s.
Proof. intros [H1 H2 H3 H4] Hn. split; try done. intros h t i Ht Hi. eapply at_phase_mono; [by apply H4|done]. Qed.

Definition total (s : lmachine) : nat := sum_list_with left (lharts s).

Lemma linv_step inits n owner fuel s h :
  Forall (λ i, 0 ≤ i.1 < 2 ^ 64) inits → linv inits (S n) owner s → (n < fuel)%nat →
  ∃ owner', linv inits n owner' (lstep fuel s h) ∧ (total (lstep fuel s h) ≤ total s)%nat ∧
    (owner = None ∨ owner = Some h → ∀ t, lharts s !! h = Some t → ¬ lock_done t → (total (lstep fuel s h) < total s)%nat).
Proof.
  intros Hin Hi Hn. unfold lstep. destruct (lharts s !! h) as [t|] eqn:Ht.
  2:{ exists owner. split; [eapply linv_mono; [done|lia]|done]. }
  destruct Hi as [Hlen Hflag Hown Hh]. destruct (lookup_lt_is_Some_2 inits h) as [i Hii]; [rewrite <- Hlen; by eapply lookup_lt_Some|].
  destruct (advance_at n i.1 (bool_decide (owner = Some h)) fuel h (flag s) t) as (own' & m' & t' & -> & Hat & He & Hle & Hlt);
    [by apply (Forall_lookup_1 _ _ _ _ Hin Hii)|done|rewrite Hflag; destruct owner; auto|by apply Hh|].
  pose proof (sum_list_with_insert left _ _ _ t' Ht) as Hsum. unfold total. cbn [lharts].
  exists (if own' then Some h else if bool_decide (owner = Some h) then None else owner). split; [split; cbn [lharts flag]|split].
  - by rewrite length_insert.
  - destruct He as [[-> ->]|[(Ho & -> & Hc & ->)|(Ho & -> & ->)]]; [|done|by rewrite Ho].
    rewrite Hflag. case_bool_decide as Ho; [by rewrite Ho|done].
  - intros j. destruct own'; [intros [= <-]; by eapply lookup_lt_Some|]. case_bool_decide; [done|apply Hown].
  - intros j tj ij Hj Hij. destruct (decide (j = h)) as [->|Hjh].
    + rewrite list_lookup_insert_eq in Hj by (by eapply lookup_lt_Some). injection Hj as <-. rewrite Hii in Hij. injection Hij as <-.
      replace (bool_decide _) with own'; [done|]. destruct own'; [by rewrite bool_decide_true|]. symmetry. apply bool_decide_false.
      case_bool_decide; [done|done].
    + rewrite list_lookup_insert_ne in Hj by done. eapply at_phase_mono; [|apply (Nat.le_succ_diag_r n)].
      replace (bool_decide _) with (bool_decide (owner = Some j)); [by apply Hh|]. apply bool_decide_ext.
      destruct He as [[-> _]|[(Ho & -> & Hc & _)|(Ho & -> & _)]].
      * case_bool_decide as Ho; [|done]. rewrite Ho. done.
      * rewrite Hflag in Hc. destruct owner; [done|]. split; [done|]. intros [= ->]. done.
      * rewrite Ho. apply bool_decide_eq_true in Ho as ->. split; [|done]. intros [= ->]. done.
  - lia.
  - intros Ho t0 [= <-] Hd. assert (left t' < left t)%nat; [|lia]. apply Hlt; [|done]. destruct Ho as [-> | ->]; [left; done|right; by apply bool_decide_true].
Qed.

Lemma linv_run inits n owner fuel sched s :
  Forall (λ i, 0 ≤ i.1 < 2 ^ 64) inits → linv inits (length sched + n) owner s → (length sched + n < fuel)%nat →
  ∃ owner', linv inits n owner' (lrun fuel sched s) ∧ (total (lrun fuel sched s) ≤ total s)%nat.
Proof.
  intros Hin. revert owner s. induction sched as [|h sched IH]; intros owner s Hi Hf; simpl in *; [by exists owner|].
  destruct (linv_step inits _ owner fuel s h Hin Hi) as (owner1 & H1 & Ht1 & _); [lia|].
  destruct (IH owner1 _ H1) as (owner2 & H2 & Ht2); [lia|]. exists owner2. split; [done|]. unfold lrun in *. simpl. lia.
Qed.

(** ** Properties *)

Definition critical (s : lmachine) (h : nat) (k : kind) : Prop :=
  ∃ t r, lharts s !! h = Some t ∧ ph t = Critical k r.

(** The sections of all harts, and the steps of a section. *)
Definition work (inits : list (Z * list kind)) : nat := (9 * sum_list_with (λ i, length i.2) inits)%nat.

Lemma total_boot inits : total (lboot inits) = work inits.
Proof. unfold total, work, lboot. cbn [lharts]. induction inits as [|i l IH]; [done|]. rewrite fmap_cons. cbn [sum_list_with]. rewrite IH. unfold left. cbn [ph sections steps_left]. lia. Qed.

Lemma critical_owner inits n owner s h k :
  linv inits n owner s → critical s h k → owner = Some h ∧ ∃ t i, lharts s !! h = Some t ∧ inits !! h = Some i ∧ (k = KIrq → sstatus t = irq_off i.1).
Proof.
  intros Hi (t & r & Ht & Hp). destruct (lookup_lt_is_Some_2 inits h) as [i Hii].
  { rewrite <- (linv_len _ _ _ _ Hi). by eapply lookup_lt_Some. }
  pose proof (linv_hart _ _ _ _ Hi h t i Ht Hii) as Hat. rewrite Hp in Hat.
  destruct (bool_decide (owner = Some h)) eqn:Ho; [|inversion Hat]. split; [by apply bool_decide_eq_true in Ho|]. exists t, i. split_and!; [done|done|].
  by inversion Hat.
Qed.

Lemma irq_off_bit b : Z.testbit (irq_off b) 1 = false.
Proof. unfold irq_off. rewrite Z.land_spec. apply andb_false_r. Qed.

(** C9. Mutual exclusion: in every interleaving of harts that enter and leave critical sections of a
    lock with [spinlock_lock], [spinlock_lock_irqsave] or [spinlock_trylock] and the matching unlock function, at most
    one hart is in its section, the flag is set then, the interrupts of a hart that entered with
    [spinlock_lock_irqsave] are off there, and a hart outside has the status register it
    started with. *)
Theorem spinlock_mutex fuel inits sched :
  Forall (λ i, 0 ≤ i.1 < 2 ^ 64) inits → (length sched < fuel)%nat →
  let s := lrun fuel sched (lboot inits) in
  (∀ h1 h2 k1 k2, critical s h1 k1 → critical s h2 k2 → h1 = h2) ∧
  (∀ h k, critical s h k → counter (flag s) = 1) ∧
  (∀ h t r, lharts s !! h = Some t → ph t = Critical KIrq r → Z.testbit (sstatus t) 1 = false) ∧
  (∀ h t i, lharts s !! h = Some t → inits !! h = Some i → ph t = Idle → sstatus t = i.1).
Proof.
  intros Hin Hf s. destruct (linv_run inits 0 None fuel sched (lboot inits) Hin (linv_boot _ _)) as (owner & Hi & _); [lia|]. fold s in Hi.
  split_and!.
  - intros h1 h2 k1 k2 H1 H2. apply (critical_owner _ _ _ _ _ _ Hi) in H1 as [H1 _], H2 as [H2 _]. congruence.
  - intros h k Hc. apply (critical_owner _ _ _ _ _ _ Hi) in Hc as [-> _]. apply Hi.
  - intros h t r Ht Hp. destruct (critical_owner _ _ _ _ h KIrq Hi) as (_ & t' & i & Ht' & _ & Hs); [by exists t, r|].
    rewrite Ht in Ht'. injection Ht' as <-. rewrite (Hs eq_refl). apply irq_off_bit.
  - intros h t i Ht Hii Hp. pose proof (linv_hart _ _ _ _ Hi h t i Ht Hii) as Hat. rewrite Hp in Hat. by inversion Hat.
Qed.

Lemma left_pos t : ¬ lock_done t → (0 < left t)%nat.
Proof. destruct t as [[| | |] csr [|]]; unfold left, lock_done; simpl; repeat case_match; try lia. intros []. done. Qed.

Lemma progress inits fuel n : Forall (λ i, 0 ≤ i.1 < 2 ^ 64) inits → ∀ owner s,
  linv inits n owner s → (total s ≤ n)%nat → (n < fuel)%nat →
  ∃ sched, (length sched ≤ total s)%nat ∧ Forall lock_done (lharts (lrun fuel sched s)).
Proof.
  intros Hin. induction n as [n IH] using lt_wf_ind. intros owner s Hi Ht Hn.
  destruct (Forall_Exists_dec lock_done (λ t, decide (lock_done t)) (lharts s)) as [Hd|Hnd]; [by exists []; split; [simpl; lia|]|].
  assert (∃ h t, lharts s !! h = Some t ∧ ¬ lock_done t ∧ (owner = None ∨ owner = Some h)) as (h & t & Hh & Hd & Ho).
  { destruct owner as [h|].
    - destruct (lookup_lt_is_Some_2 (lharts s) h) as [t Hh]; [rewrite (linv_len _ _ _ _ Hi); by apply (linv_owner _ _ _ _ Hi)|].
      destruct (lookup_lt_is_Some_2 inits h) as [i Hii]; [by apply (linv_owner _ _ _ _ Hi)|].
      pose proof (linv_hart _ _ _ _ Hi h t i Hh Hii) as Hat. rewrite bool_decide_true in Hat by done.
      exists h, t. split_and!; [done| |by right]. intros [Hp _]. rewrite Hp in Hat. inversion Hat.
    - apply Exists_exists in Hnd as (t & Hin' & Hd). apply list_elem_of_In, list_elem_of_lookup in Hin' as [h Hh]. exists h, t. auto. }
  assert (0 < total s)%nat as Hpos.
  { pose proof (left_pos t Hd). pose proof (sum_list_with_in t left (lharts s) (list_elem_of_lookup_2 _ _ _ Hh)). unfold total. lia. }
  destruct n as [|n]; [lia|]. destruct (linv_step inits n owner fuel s h Hin Hi) as (owner' & Hi' & _ & Hlt); [lia|].
  specialize (Hlt Ho t Hh Hd). destruct (IH n ltac:(lia) owner' (lstep fuel s h) Hi') as (sched & Hl & Hfin); [lia|lia|].
  exists (h :: sched). split; [simpl; lia|done].
Qed.

(** C37. No deadlock: after any steps of the harts there are further steps, no more than their sections need,
    after which every hart has been through all its sections. *)
Theorem spinlock_no_deadlock fuel inits sched :
  Forall (λ i, 0 ≤ i.1 < 2 ^ 64) inits → (length sched + work inits < fuel)%nat →
  ∃ more, (length more ≤ work inits)%nat ∧ Forall lock_done (lharts (lrun fuel (sched ++ more) (lboot inits))).
Proof.
  intros Hin Hf. destruct (linv_run inits (work inits) None fuel sched (lboot inits) Hin (linv_boot _ _) Hf) as (owner & Hi & Ht).
  rewrite total_boot in Ht. destruct (progress inits fuel _ Hin owner _ Hi Ht) as (more & Hl & Hd); [lia|].
  exists more. split; [lia|]. unfold lrun in *. by rewrite foldl_app.
Qed.

(** Two harts, the second with interrupts on; it spins while the first is in its section. *)
Lemma spinlock_mutex_witness :
  let inits := [(0, [KLock]); (2, [KIrq; KTry])] in
  let s := lrun 20 [0; 0; 0; 1; 1; 1; 1; 1]%nat (lboot inits) in
  critical s 0 KLock ∧
  (∀ h1 h2 k1 k2, critical s h1 k1 → critical s h2 k2 → h1 = h2) ∧ (∀ h k, critical s h k → counter (flag s) = 1) ∧
  (∀ h t r, lharts s !! h = Some t → ph t = Critical KIrq r → Z.testbit (sstatus t) 1 = false) ∧
  (∀ h t i, lharts s !! h = Some t → inits !! h = Some i → ph t = Idle → sstatus t = i.1).
Proof.
  cbv zeta. split; [do 2 eexists; vm_compute; split; reflexivity|].
  apply (spinlock_mutex 20 [(0, [KLock]); (2, [KIrq; KTry])]); [repeat (apply Forall_cons_2; [simpl; lia|]); apply Forall_nil_2|simpl; lia].
Defined.

Lemma spinlock_no_deadlock_witness :
  let inits := [(0, [KLock]); (2, [KIrq])] in
  ∃ more, (length more ≤ work inits)%nat ∧ Forall lock_done (lharts (lrun 30 ([0; 0; 0; 1; 1; 1; 1; 1]%nat ++ more) (lboot inits))).
Proof. apply (spinlock_no_deadlock 30 [(0, [KLock]); (2, [KIrq])]); [repeat (apply Forall_cons_2; [simpl; lia|]); apply Forall_nil_2|vm_compute; lia]. Defined.
