(* ===== verification/ListHead.v ===== *)
(** * Intrusive doubly linked lists ([include/kernel/util/list.h])

    The store is a finite map from node addresses to [struct list_head]; every
    operation performs the pointer writes of the C code in the C order. [dll]
    relates a list head in the store to the sequence of nodes it links, and the
    theorems show that the pointer operations implement sequence operations and
    leave every other node alone. [IntrusiveList] is the interface the rest of
    the kernel is verified against. *)

From stdpp Require Import base gmap list.
From S2P Require Import Prelude.
Local Open Scope Z_scope.
Local Open Scope kernel_scope.

Record list_head := ListHead { next : Z; prev : Z }.

Abbreviation store := (gmap Z list_head).

(** Field reads and writes through a pointer. *)
Definition get_next (p : Z) (h : store) : outcome Z := of_option (next <$> h !! p).
Definition get_prev (p : Z) (h : store) : outcome Z := of_option (prev <$> h !! p).

Definition set_next (p v : Z) (h : store) : outcome store :=
  let! n := of_option (h !! p) in Ok (<[p := ListHead v (prev n)]> h).

Definition set_prev (p v : Z) (h : store) : outcome store :=
  let! n := of_option (h !! p) in Ok (<[p := ListHead (next n) v]> h).

Definition INIT_LIST_HEAD (list : Z) (h : store) : outcome store :=
  let! h := set_next list list h in
  set_prev list list h.

Definition __list_add (new_node prev next : Z) (h : store) : outcome store :=
  let! h := set_prev next new_node h in
  let! h := set_next new_node next h in
  let! h := set_prev new_node prev h in
  set_next prev new_node h.

Definition list_add (new_node head : Z) (h : store) : outcome store :=
  let! n := get_next head h in
  __list_add new_node head n h.

Definition list_add_tail (new_node head : Z) (h : store) : outcome store :=
  let! p := get_prev head h in
  __list_add new_node p head h.

Definition __list_del (prev next : Z) (h : store) : outcome store :=
  let! h := set_prev next prev h in
  set_next prev next h.

Definition list_del_init (entry : Z) (h : store) : outcome store :=
  let! p := get_prev entry h in
  let! n := get_next entry h in
  let! h := __list_del p n h in
  INIT_LIST_HEAD entry h.

Definition list_del (entry : Z) (h : store) : outcome store :=
  let! p := get_prev entry h in
  let! n := get_next entry h in
  let! h := __list_del p n h in
  let! h := set_next entry 0 h in
  set_prev entry 0 h.

Definition list_move (list head : Z) (h : store) : outcome store :=
  let! p := get_prev list h in
  let! n := get_next list h in
  let! h := __list_del p n h in
  list_add list head h.

Definition list_move_tail (list head : Z) (h : store) : outcome store :=
  let! p := get_prev list h in
  let! n := get_next list h in
  let! h := __list_del p n h in
  list_add_tail list head h.

Definition list_empty (head : Z) (h : store) : outcome bool :=
  let! n := get_next head h in Ok (n =? head).

Definition __list_splice (list prev next : Z) (h : store) : outcome store :=
  let! first := get_next list h in
  let! last := get_prev list h in
  let! h := set_prev first prev h in
  let! h := set_next prev first h in
  let! h := set_next last next h in
  set_prev next last h.

Definition list_splice (list head : Z) (h : store) : outcome store :=
  let! e := list_empty list h in
  if e then Ok h
  else let! n := get_next head h in __list_splice list head n h.

Definition list_splice_init (list head : Z) (h : store) : outcome store :=
  let! e := list_empty list h in
  if e then Ok h
  else
    let! n := get_next head h in
    let! h := __list_splice list head n h in
    INIT_LIST_HEAD list h.

(** The loop of [list_for_each]: the nodes visited from [pos] until [head], or
    [None] when the fuel ends first. *)
Fixpoint list_for_each (fuel : nat) (pos head : Z) (h : store) : option (list Z) :=
  if pos =? head then Some []
  else
    match fuel with
    | O => None
    | S fuel =>
        match h !! pos with
        | None => None
        | Some n => cons pos <$> list_for_each fuel (next n) head h
        end
    end.

(** ** Representation *)

(** Adjacent nodes of [l] point at each other. *)
Fixpoint linked (h : store) (l : list Z) : Prop :=
  match l with
  | x :: (y :: _) as t =>
      next <$> h !! x = Some y ∧ prev <$> h !! y = Some x ∧ linked h t
  | _ => True
  end.

(** [head] is the sentinel of a circular list holding the nodes [l] in order. *)
Definition dll (h : store) (head : Z) (l : list Z) : Prop :=
  NoDup (head :: l) ∧ linked h (head :: l ++ [head]).

(** [h'] differs from [h] only at the addresses of [s]. *)
Definition same_outside (s : list Z) (h h' : store) : Prop :=
  ∀ p, p ∉ s → h' !! p = h !! p.

Lemma same_outside_trans s h1 h2 h3 :
  same_outside s h1 h2 → same_outside s h2 h3 → same_outside s h1 h3.
Proof. intros H1 H2 p Hp. by rewrite H2, H1. Qed.

Lemma same_outside_mono s s' h h' :
  s ⊆ s' → same_outside s h h' → same_outside s' h h'.
Proof. intros Hs H p Hp. apply H. set_solver. Qed.

Lemma linked_cons2 h x y l :
  linked h (x :: y :: l) ↔
  next <$> h !! x = Some y ∧ prev <$> h !! y = Some x ∧ linked h (y :: l).
Proof. done. Qed.

Lemma linked_app h xs x ys :
  linked h (xs ++ x :: ys) ↔ linked h (xs ++ [x]) ∧ linked h (x :: ys).
Proof.
  induction xs as [|a xs IH]; [simpl; tauto|].
  destruct xs as [|b xs].
  - simpl. tauto.
  - change ((a :: b :: xs) ++ x :: ys) with (a :: b :: (xs ++ x :: ys)).
    change ((a :: b :: xs) ++ [x]) with (a :: b :: (xs ++ [x])).
    rewrite !linked_cons2. change (b :: xs ++ x :: ys) with ((b :: xs) ++ x :: ys).
    rewrite IH. simpl. tauto.
Qed.

(** A segment only depends on the [next] of all but its last node and the
    [prev] of all but its first. *)
Lemma linked_ext h h' l :
  linked h l →
  (∀ x, x ∈ removelast l → next <$> h' !! x = next <$> h !! x) →
  (∀ x, x ∈ tail l → prev <$> h' !! x = prev <$> h !! x) →
  linked h' l.
Proof.
  induction l as [|x [|y l] IH]; [done..|].
  intros (Hn & Hp & Hl) En Ep. split_and!.
  - rewrite En by (simpl; set_solver). done.
  - rewrite Ep by (simpl; set_solver). done.
  - apply IH; [done| |]; intros z Hz.
    + apply En. simpl. simpl in Hz. destruct l; set_solver.
    + apply Ep. simpl in *. set_solver.
Qed.

Lemma elem_removelast (x : Z) l : x ∈ removelast l → x ∈ l.
Proof. induction l as [|y [|z l] IH]; simpl in *; set_solver. Qed.

Lemma linked_frame s h h' l :
  same_outside s h h' → (∀ x, x ∈ l → x ∉ s) → linked h l → linked h' l.
Proof.
  intros Hs Hd Hl. apply (linked_ext h); [done| |]; intros x Hx; rewrite Hs; try done;
    apply Hd.
  - by apply elem_removelast.
  - destruct l; simpl in *; set_solver.
Qed.

Lemma dll_frame s h h' head l :
  same_outside s h h' → (∀ x, x ∈ head :: l → x ∉ s) → dll h head l → dll h' head l.
Proof.
  intros Hs Hd [Hnd Hl]. split; [done|]. apply (linked_frame s h); [done| |done].
  intros x Hx. apply Hd. set_solver.
Qed.

(** ** The pointer writes, seen through the fields *)

Definition nx (h : store) (p : Z) : option Z := next <$> h !! p.
Definition pv (h : store) (p : Z) : option Z := prev <$> h !! p.

(** [h'] has the [next] and [prev] fields given by [N] and [P], the nodes of
    [h], and differs from [h] at most on [s]. *)
Definition fields (s : list Z) (h h' : store) (N P : Z → option Z) : Prop :=
  (∀ q, nx h' q = N q) ∧ (∀ q, pv h' q = P q) ∧ same_outside s h h'.

Lemma nx_is_Some h p : is_Some (nx h p) ↔ is_Some (h !! p).
Proof. apply fmap_is_Some. Qed.

Lemma pv_is_Some h p : is_Some (pv h p) ↔ is_Some (h !! p).
Proof. apply fmap_is_Some. Qed.

Lemma set_next_ok p v h :
  is_Some (h !! p) →
  ∃ h', set_next p v h = Ok h' ∧
    fields [p] h h' (λ q, if decide (q = p) then Some v else nx h q) (pv h).
Proof.
  intros [n Hn]. unfold set_next. rewrite Hn. simpl. eexists; split; [done|].
  split_and!; intros q; unfold nx, pv; [case_decide; subst|..].
  - by rewrite lookup_insert_eq.
  - by rewrite lookup_insert_ne.
  - destruct (decide (p = q)) as [->|]; [by rewrite lookup_insert_eq, Hn | by rewrite lookup_insert_ne].
  - intros ?. rewrite lookup_insert_ne; set_solver.
Qed.

Lemma set_prev_ok p v h :
  is_Some (h !! p) →
  ∃ h', set_prev p v h = Ok h' ∧
    fields [p] h h' (nx h) (λ q, if decide (q = p) then Some v else pv h q).
Proof.
  intros [n Hn]. unfold set_prev. rewrite Hn. simpl. eexists; split; [done|].
  split_and!; intros q; unfold nx, pv; [|case_decide; subst|].
  - destruct (decide (p = q)) as [->|]; [by rewrite lookup_insert_eq, Hn | by rewrite lookup_insert_ne].
  - by rewrite lookup_insert_eq.
  - by rewrite lookup_insert_ne.
  - intros ?. rewrite lookup_insert_ne; set_solver.
Qed.

Lemma get_next_ok p v h : nx h p = Some v → get_next p h = Ok v.
Proof. unfold get_next, nx. by intros ->. Qed.

Lemma get_prev_ok p v h : pv h p = Some v → get_prev p h = Ok v.
Proof. unfold get_prev, pv. by intros ->. Qed.

(** Solve that a node is still present after some writes. *)
Ltac node_present :=
  rewrite <-?nx_is_Some in *;
  repeat match goal with
  | F : fields _ _ ?h _ _ |- context [nx ?h _] => rewrite (proj1 F)
  end; repeat case_decide; eauto.

(** Run the next field write of the goal. *)
Ltac write :=
  let h' := fresh "h" in let E := fresh "E" in let F := fresh "F" in
  match goal with
  | |- context [set_next ?p ?v ?h] =>
      destruct (set_next_ok p v h) as (h' & E & F); [node_present | rewrite E; simpl]
  | |- context [set_prev ?p ?v ?h] =>
      destruct (set_prev_ok p v h) as (h' & E & F); [node_present | rewrite E; simpl]
  end.

(** Close a [fields] goal from the [fields] facts of the single writes. *)
Ltac close_fields :=
  repeat match goal with
  | F : fields _ _ _ _ _ |- _ => destruct F as (? & ? & ?)
  end;
  eexists; split; [reflexivity|]; split_and!;
  [ intros q; repeat match goal with H : ∀ q, nx _ q = _ |- _ => rewrite H; clear H end;
    repeat case_decide; congruence
  | intros q; repeat match goal with H : ∀ q, pv _ q = _ |- _ => rewrite H; clear H end;
    repeat case_decide; congruence
  | repeat (eapply same_outside_trans; [eapply same_outside_mono; [|eassumption]; set_solver|]);
    done ].

Lemma __list_add_ok new p n h :
  is_Some (h !! new) → is_Some (h !! p) → is_Some (h !! n) →
  ∃ h', __list_add new p n h = Ok h' ∧
    fields [new; p; n] h h'
      (λ q, if decide (q = p) then Some new else if decide (q = new) then Some n else nx h q)
      (λ q, if decide (q = new) then Some p else if decide (q = n) then Some new else pv h q).
Proof. intros. unfold __list_add. do 4 write. close_fields. Qed.

Lemma __list_del_ok p n h :
  is_Some (h !! p) → is_Some (h !! n) →
  ∃ h', __list_del p n h = Ok h' ∧
    fields [p; n] h h'
      (λ q, if decide (q = p) then Some n else nx h q)
      (λ q, if decide (q = n) then Some p else pv h q).
Proof. intros. unfold __list_del. do 2 write. close_fields. Qed.

Lemma INIT_LIST_HEAD_ok p h :
  is_Some (h !! p) →
  ∃ h', INIT_LIST_HEAD p h = Ok h' ∧
    fields [p] h h'
      (λ q, if decide (q = p) then Some p else nx h q)
      (λ q, if decide (q = p) then Some p else pv h q).
Proof. intros. unfold INIT_LIST_HEAD. do 2 write. close_fields. Qed.

Lemma __list_splice_ok list p n first last h :
  nx h list = Some first → pv h list = Some last →
  is_Some (h !! first) → is_Some (h !! last) → is_Some (h !! p) → is_Some (h !! n) →
  ∃ h', __list_splice list p n h = Ok h' ∧
    fields [first; last; p; n] h h'
      (λ q, if decide (q = last) then Some n else if decide (q = p) then Some first else nx h q)
      (λ q, if decide (q = n) then Some last else if decide (q = first) then Some p else pv h q).
Proof.
  intros Hf Hl. intros. unfold __list_splice.
  rewrite (get_next_ok _ _ _ Hf), (get_prev_ok _ _ _ Hl). simpl. do 4 write. close_fields.
Qed.

(** ** Cutting and joining segments *)

Lemma linked_nodes h l x :
  (2 ≤ length l)%nat → linked h l → x ∈ l → is_Some (h !! x).
Proof.
  induction l as [|a [|b l] IH]; simpl; [lia..|]. intros _ (Hn & Hp & Hl) Hx.
  apply elem_of_cons in Hx as [->|Hx].
  - apply nx_is_Some. unfold nx. by rewrite Hn.
  - destruct l as [|c l].
    + apply list_elem_of_singleton in Hx as ->. apply pv_is_Some. unfold pv. by rewrite Hp.
    + apply IH; [simpl; lia | done | done].
Qed.

Lemma dll_nodes h head l x : dll h head l → x ∈ head :: l → is_Some (h !! x).
Proof.
  intros [_ Hl] Hx. apply (linked_nodes h (head :: l ++ [head])); [|done|set_solver].
  simpl. rewrite length_app. simpl. lia.
Qed.

(** In a circular list each node occurs once as the source of a [next] edge and
    once as the target of a [prev] edge. *)
Lemma cycle_split head (l xs : list Z) p n ys :
  NoDup (head :: l) → head :: l ++ [head] = xs ++ p :: n :: ys →
  (p ∉ xs) ∧ (p ∉ removelast (n :: ys)) ∧ (n ∉ tail (xs ++ [p])) ∧ n ∉ ys.
Proof.
  intros Hnd E.
  assert (head :: l = xs ++ p :: removelast (n :: ys)) as E1.
  { rewrite app_comm_cons in E. apply (f_equal (@removelast Z)) in E.
    rewrite removelast_last in E. rewrite E, removelast_app by done. done. }
  assert (l ++ [head] = tail (xs ++ [p]) ++ n :: ys) as E2.
  { apply (f_equal (@tail Z)) in E. cbn [tail] in E. rewrite E.
    destruct xs; [done|]. simpl. by rewrite <-app_assoc. }
  assert (NoDup (l ++ [head])) as Hnd2.
  { by rewrite <-Permutation_cons_append. }
  rewrite E1 in Hnd. rewrite E2 in Hnd2.
  apply NoDup_app in Hnd as (_ & H1 & H2). apply NoDup_cons in H2 as [H2 _].
  apply NoDup_app in Hnd2 as (_ & H3 & H4). apply NoDup_cons in H4 as [H4 _].
  split_and!; [intros Hx; apply (H1 p Hx); set_solver | done
    | intros Hx; apply (H3 n Hx); set_solver | done].
Qed.

Lemma removelast_app1 (xs : list Z) p : removelast (xs ++ [p]) = xs.
Proof. apply removelast_last. Qed.

(** Relinking between [p] and [n] through the nodes [m]. *)
Lemma relink h h' (xs m ys : list Z) p n :
  linked h (xs ++ [p]) → linked h (n :: ys) → linked h' (p :: m ++ [n]) →
  p ∉ xs → p ∉ removelast (n :: ys) → n ∉ tail (xs ++ [p]) → n ∉ ys →
  (∀ q, q ∈ xs ++ removelast (n :: ys) → q ≠ p → nx h' q = nx h q) →
  (∀ q, q ∈ tail (xs ++ [p]) ++ ys → q ≠ n → pv h' q = pv h q) →
  linked h' (xs ++ p :: m ++ n :: ys).
Proof.
  intros Hl Hr Hm Hp1 Hp2 Hn1 Hn2 EN EP.
  apply linked_app. split.
  - apply (linked_ext h); [done| |]; intros q Hq.
    + rewrite removelast_app1 in Hq. apply EN; [set_solver|]. intros ->. done.
    + apply EP; [set_solver|]. intros ->. done.
  - rewrite app_comm_cons. apply linked_app. split; [done|].
    apply (linked_ext h); [done| |]; intros q Hq.
    + apply EN; [set_solver|]. intros ->. done.
    + simpl in Hq. apply EP; [set_solver|]. intros ->. done.
Qed.

(** [__list_add] between the adjacent nodes [p] and [n] of a circular list. *)
Lemma __list_add_cycle head l xs p n ys new h :
  dll h head l → new ∉ head :: l → is_Some (h !! new) →
  head :: l ++ [head] = xs ++ p :: n :: ys →
  ∃ h', __list_add new p n h = Ok h' ∧
    linked h' (xs ++ p :: new :: n :: ys) ∧ same_outside [new; p; n] h h'.
Proof.
  intros [Hnd Hl] Hnew Hs E.
  assert (∀ q, q ∈ xs ++ p :: n :: ys → is_Some (h !! q)) as Hin.
  { intros q Hq. eapply dll_nodes; [by split|]. rewrite <-E in Hq. set_solver. }
  assert (new ∉ xs ++ p :: n :: ys) as Hnew' by (rewrite <-E; set_solver).
  destruct (cycle_split _ _ _ _ _ _ Hnd E) as (H1 & H2 & H3 & H4).
  rewrite E in Hl. apply linked_app in Hl as [Hl1 Hl2]. destruct Hl2 as (_ & _ & Hl2).
  destruct (__list_add_ok new p n h) as (h' & Eh & HN & HP & Hout);
    [done | apply Hin; set_solver .. |].
  exists h'. split_and!; [done| |done].
  apply (relink h h' xs [new] ys p n Hl1 Hl2); [|done..| |].
  - assert (new ≠ p) by set_solver. assert (n ≠ new) by set_solver.
    simpl. unfold nx, pv in *. rewrite !HN, !HP.
    repeat case_decide; try congruence; done.
  - intros q Hq ?. rewrite HN. repeat case_decide; try done. subst.
    destruct Hnew'. apply elem_of_app in Hq as [|Hq%elem_removelast]; set_solver.
  - intros q Hq ?. rewrite HP. repeat case_decide; try done. subst.
    destruct Hnew'. destruct xs; simpl in Hq; set_solver.
Qed.

(** [__list_del] around the node [e] of a circular list. *)
Lemma __list_del_cycle head l1 e l2 h :
  dll h head (l1 ++ e :: l2) →
  ∃ p n h', get_prev e h = Ok p ∧ get_next e h = Ok n ∧
    __list_del p n h = Ok h' ∧ dll h' head (l1 ++ l2) ∧
    (p ∈ head :: l1) ∧ (n ∈ l2 ++ [head]) ∧ same_outside [p; n] h h'.
Proof.
  intros D. pose proof D as [Hnd Hl].
  destruct (exists_last (l := head :: l1)) as (xs & p & Ex); [done|].
  destruct (l2 ++ [head]) as [|n ys] eqn:Ey; [by destruct l2|].
  assert (head :: (l1 ++ e :: l2) ++ [head] = xs ++ p :: e :: n :: ys) as E0.
  { rewrite <-app_assoc, app_comm_cons, Ex, <-app_assoc. simpl. by rewrite Ey. }
  assert (head :: (l1 ++ l2) ++ [head] = xs ++ p :: n :: ys) as E1.
  { rewrite <-app_assoc, app_comm_cons, Ex, <-app_assoc, Ey. done. }
  assert (NoDup (head :: l1 ++ l2)) as Hnd'.
  { clear -Hnd. rewrite app_comm_cons in Hnd. rewrite <-Permutation_middle in Hnd.
    by apply NoDup_cons in Hnd as [_ ?]. }
  destruct (cycle_split _ _ _ _ _ _ Hnd' E1) as (H1 & H2 & H3 & H4).
  rewrite E0 in Hl. apply linked_app in Hl as [Hl1 (Hpn & Hep & Hen & Hnp & Hl2)].
  assert (p ∈ head :: l1) as Hp by (rewrite Ex; set_solver).
  assert (n ∈ l2 ++ [head]) as Hn by (rewrite Ey; set_solver).
  destruct (__list_del_ok p n h) as (h' & Eh & HN & HP & Hout);
    [eapply dll_nodes; [done|set_solver]..|].
  exists p, n, h'. split_and!; [by apply get_prev_ok | by apply get_next_ok | done | | done | set_solver | done].
  split; [done|]. rewrite E1.
  apply (relink h h' xs [] ys p n Hl1 Hl2); [|done..| |].
  - simpl. unfold nx, pv in *. rewrite !HN, !HP. repeat case_decide; try congruence; done.
  - intros q Hq ?. rewrite HN. by case_decide.
  - intros q Hq ?. rewrite HP. by case_decide.
Qed.

(** A self-linked node is an empty list. *)
Lemma dll_nil h head :
  nx h head = Some head → pv h head = Some head → dll h head [].
Proof. intros. split; [apply NoDup_singleton | done]. Qed.

Lemma dll_first h head l :
  dll h head l → nx h head = Some (default head (hd_error l)).
Proof. intros [_ Hl]. destruct l; apply Hl. Qed.

Lemma dll_last h head l :
  dll h head l → pv h head = Some (List.last l head).
Proof.
  intros [_ Hl]. destruct l as [|x l] using rev_ind; [apply Hl|].
  rewrite <-app_assoc, app_comm_cons in Hl. apply linked_app in Hl as [_ Hl].
  rewrite List.last_last. apply Hl.
Qed.

Lemma dll_mid h head l1 e l2 x :
  dll h head (l1 ++ e :: l2) → x ∈ head :: l1 ++ l2 → x ≠ e.
Proof.
  intros [Hnd _]. rewrite app_comm_cons, <-Permutation_middle in Hnd.
  apply NoDup_cons in Hnd as [Hnd _]. intros Hx ->. done.
Qed.

(** ** The operations refine sequence operations *)

Lemma list_add_spec h head l new :
  dll h head l → new ∉ head :: l → is_Some (h !! new) →
  ∃ h', list_add new head h = Ok h' ∧ dll h' head (new :: l) ∧
    same_outside (new :: head :: l) h h'.
Proof.
  intros D Hnew Hs. pose proof D as [Hnd _].
  destruct (l ++ [head]) as [|n ys] eqn:Ey; [by destruct l|].
  destruct (__list_add_cycle head l [] head n ys new h D Hnew Hs) as (h' & Eh & Hl & Ho);
    [by rewrite Ey|].
  assert (n = default head (hd_error l)) as En by (destruct l; simplify_eq/=; done).
  exists h'. split_and!.
  - unfold list_add. rewrite (get_next_ok _ _ _ (dll_first _ _ _ D)). simpl. by rewrite <-En.
  - split; [apply NoDup_cons in Hnd as []; rewrite !NoDup_cons; set_solver|].
    cbn [app]. by rewrite Ey.
  - eapply same_outside_mono; [|done]. subst n. destruct l; set_solver.
Qed.

Lemma list_add_tail_spec h head l new :
  dll h head l → new ∉ head :: l → is_Some (h !! new) →
  ∃ h', list_add_tail new head h = Ok h' ∧ dll h' head (l ++ [new]) ∧
    same_outside (new :: head :: l) h h'.
Proof.
  intros D Hnew Hs. pose proof D as [Hnd _].
  destruct (exists_last (l := head :: l)) as (xs & p & Ex); [done|].
  destruct (__list_add_cycle head l xs p head [] new h D Hnew Hs) as (h' & Eh & Hl & Ho).
  { by rewrite app_comm_cons, Ex, <-app_assoc. }
  assert (p = List.last l head) as Ep.
  { destruct l as [|y l _] using rev_ind; [by destruct xs as [|? []]; simplify_eq/=|].
    rewrite List.last_last. rewrite app_comm_cons in Ex.
    by apply app_inj_tail in Ex as [_ <-]. }
  exists h'. split_and!.
  - unfold list_add_tail. rewrite (get_prev_ok _ _ _ (dll_last _ _ _ D)). simpl. by rewrite <-Ep.
  - split.
    + rewrite app_comm_cons. apply NoDup_app. split_and!; [done|set_solver|apply NoDup_singleton].
    + rewrite <-app_assoc, app_comm_cons, Ex, <-app_assoc. done.
  - eapply same_outside_mono; [|done]. assert (p ∈ head :: l) by (rewrite Ex; set_solver).
    set_solver.
Qed.

Lemma list_del_init_spec h head l1 e l2 :
  dll h head (l1 ++ e :: l2) →
  ∃ h', list_del_init e h = Ok h' ∧ dll h' head (l1 ++ l2) ∧ dll h' e [] ∧
    same_outside (head :: l1 ++ e :: l2) h h'.
Proof.
  intros D. destruct (__list_del_cycle _ _ _ _ _ D) as (p & n & h1 & Ep & En & E1 & D1 & Hp & Hn & Ho).
  assert (is_Some (h1 !! e)) as He.
  { rewrite Ho; [eapply dll_nodes; [exact D|set_solver]|].
    pose proof (dll_mid _ _ _ _ _ p D). pose proof (dll_mid _ _ _ _ _ n D). set_solver. }
  destruct (INIT_LIST_HEAD_ok e h1 He) as (h2 & E2 & HN & HP & Ho2).
  exists h2. unfold list_del_init. rewrite Ep, En. simpl. rewrite E1. simpl.
  split_and!; [done| | |].
  - eapply dll_frame; [exact Ho2| |done]. intros x Hx.
    pose proof (dll_mid _ _ _ _ _ x D Hx). set_solver.
  - apply dll_nil; rewrite ?HN, ?HP; by case_decide.
  - eapply same_outside_trans; eapply same_outside_mono; try eassumption; set_solver.
Qed.

Lemma list_del_spec h head l1 e l2 :
  dll h head (l1 ++ e :: l2) →
  ∃ h', list_del e h = Ok h' ∧ dll h' head (l1 ++ l2) ∧ h' !! e = Some (ListHead 0 0) ∧
    same_outside (head :: l1 ++ e :: l2) h h'.
Proof.
  intros D. destruct (__list_del_cycle _ _ _ _ _ D) as (p & n & h1 & Ep & En & E1 & D1 & Hp & Hn & Ho).
  assert (is_Some (h1 !! e)) as He.
  { rewrite Ho; [eapply dll_nodes; [exact D|set_solver]|].
    pose proof (dll_mid _ _ _ _ _ p D). pose proof (dll_mid _ _ _ _ _ n D). set_solver. }
  unfold list_del. rewrite Ep, En. simpl. rewrite E1. simpl.
  destruct He as [ne Hne]. unfold set_next at 1. rewrite Hne. simpl.
  unfold set_prev. rewrite lookup_insert_eq. simpl.
  eexists. split_and!; [done| |by rewrite lookup_insert_eq|].
  - eapply (dll_frame [e] h1); [| |done].
    + intros q Hq. rewrite !lookup_insert_ne by set_solver. done.
    + intros x Hx. pose proof (dll_mid _ _ _ _ _ x D Hx). set_solver.
  - intros q Hq. rewrite !lookup_insert_ne by set_solver. apply Ho. set_solver.
Qed.

Lemma list_empty_spec h head l :
  dll h head l → list_empty head h = Ok (bool_decide (l = [])).
Proof.
  intros D. unfold list_empty. rewrite (get_next_ok _ _ _ (dll_first _ _ _ D)). simpl.
  destruct l as [|x l]; simpl; [by rewrite Z.eqb_refl|].
  destruct D as [Hnd _]. apply NoDup_cons in Hnd as [Hnd _].
  f_equal. apply Z.eqb_neq. set_solver.
Qed.

(** Moving a node to the front (or back) of a list other than the one it is on. *)
Lemma list_move_spec h head l1 e l2 head' m (tl : bool) :
  dll h head (l1 ++ e :: l2) → dll h head' m →
  (∀ x, x ∈ head :: l1 ++ e :: l2 → x ∉ head' :: m) →
  ∃ h', (if tl then list_move_tail else list_move) e head' h = Ok h' ∧
    dll h' head (l1 ++ l2) ∧ dll h' head' (if tl then m ++ [e] else e :: m) ∧
    same_outside ((head :: l1 ++ e :: l2) ++ head' :: m) h h'.
Proof.
  intros D D' Hd.
  destruct (__list_del_cycle _ _ _ _ _ D) as (p & n & h1 & Ep & En & E1 & D1 & Hp & Hn & Ho).
  assert (∀ x, x ∈ head' :: m → x ∉ [p; n]) as Hpn.
  { intros x Hx Hx'. apply (Hd x); [set_solver|done]. }
  assert (dll h1 head' m) as D1' by (eapply dll_frame; [exact Ho|done|done]).
  assert (is_Some (h1 !! e)) as He.
  { rewrite Ho; [eapply dll_nodes; [exact D|set_solver]|].
    pose proof (dll_mid _ _ _ _ _ p D). pose proof (dll_mid _ _ _ _ _ n D). set_solver. }
  assert (e ∉ head' :: m) as He' by (apply Hd; set_solver).
  assert (∀ x, x ∈ head :: l1 ++ l2 → x ∉ e :: head' :: m) as Hd'.
  { intros x Hx. pose proof (dll_mid _ _ _ _ _ x D Hx). specialize (Hd x). set_solver. }
  assert (∀ s h2, s ⊆ (head :: l1 ++ e :: l2) ++ head' :: m → same_outside s h1 h2 →
            same_outside ((head :: l1 ++ e :: l2) ++ head' :: m) h h2) as Hout.
  { intros s h2 Hs H2. eapply same_outside_trans;
      [eapply same_outside_mono; [|exact Ho]; clear -Hp Hn; set_solver
      |by eapply same_outside_mono; [|exact H2]]. }
  destruct tl; unfold list_move, list_move_tail; rewrite Ep, En; simpl; rewrite E1; simpl.
  - destruct (list_add_tail_spec h1 head' m e D1' He' He) as (h2 & E2 & D2 & Ho2).
    exists h2. split_and!; [done|eapply dll_frame; [exact Ho2|done|done]|done|].
    eapply Hout; [|exact Ho2]. clear. set_solver.
  - destruct (list_add_spec h1 head' m e D1' He' He) as (h2 & E2 & D2 & Ho2).
    exists h2. split_and!; [done|eapply dll_frame; [exact Ho2|done|done]|done|].
    eapply Hout; [|exact Ho2]. clear. set_solver.
Qed.

(** The chain of the spliced nodes, between the head of the target and its
    former first node [n]. *)
Lemma splice_chain h h' lst us f t la head n :
  dll h lst (f :: t) → f :: t = us ++ [la] →
  (head ∉ lst :: f :: t) → (n ∉ lst :: f :: t) →
  (∀ q, nx h' q = if decide (q = la) then Some n
                  else if decide (q = head) then Some f else nx h q) →
  (∀ q, pv h' q = if decide (q = n) then Some la
                  else if decide (q = f) then Some head else pv h q) →
  linked h' (head :: (f :: t) ++ [n]).
Proof.
  intros [Hnd Hl] Eu Hh Hn HN HP.
  assert (la ∈ f :: t) as Hla by (rewrite Eu; set_solver).
  apply NoDup_cons in Hnd as [_ Hnd]. destruct Hl as (_ & _ & Hl).
  rewrite <-app_comm_cons. apply linked_cons2. fold (nx h' head) (pv h' f). rewrite HN, HP.
  split_and!; [repeat case_decide; subst; try done; set_solver
              |repeat case_decide; subst; try done; set_solver|].
  change (linked h ((f :: t) ++ [lst])) in Hl. change (linked h' ((f :: t) ++ [n])).
  rewrite Eu, <-app_assoc in Hl. rewrite Eu, <-app_assoc.
  apply linked_app. apply linked_app in Hl as [Hl _]. split.
  - apply (linked_ext h); [done| |]; intros q Hq.
    + rewrite removelast_app1 in Hq. fold (nx h' q) (nx h q). rewrite HN.
      assert (q ∈ f :: t) by (rewrite Eu; set_solver).
      rewrite Eu in Hnd. apply NoDup_app in Hnd as (_ & Hnd & _). specialize (Hnd q Hq).
      repeat case_decide; subst; try done; set_solver.
    + fold (pv h' q) (pv h q). rewrite HP. rewrite <-Eu in Hq. simpl in Hq.
      apply NoDup_cons in Hnd as [? _]. repeat case_decide; subst; try done; set_solver.
  - cbn. fold (nx h' la) (pv h' n). rewrite HN, HP. by repeat case_decide.
Qed.

(** The nodes of the spliced list keep their order between the head of the
    target and its former first node. *)
Lemma __list_splice_spec h lst l head m :
  dll h lst l → l ≠ [] → dll h head m →
  (∀ x, x ∈ lst :: l → x ∉ head :: m) →
  ∃ h' n, get_next head h = Ok n ∧ __list_splice lst head n h = Ok h' ∧
    dll h' head (l ++ m) ∧ same_outside (l ++ head :: m) h h'.
Proof.
  intros D Hne D' Hd. pose proof D as [Hnd Hl]. pose proof D' as [Hnd' Hl'].
  destruct l as [|f t]; [done|]. clear Hne.
  destruct (exists_last (l := f :: t)) as (us & la & Eu); [done|].
  destruct (m ++ [head]) as [|n ys] eqn:Ey; [by destruct m|].
  assert (n = default head (hd_error m)) as En by (destruct m; simplify_eq/=; done).
  assert (n ∈ head :: m) as Hn by (assert (n ∈ m ++ [head]) by (rewrite Ey; set_solver); set_solver).
  assert (la ∈ f :: t) as Hla' by (rewrite Eu; set_solver).
  assert (pv h lst = Some la) as Hla
    by (rewrite (dll_last _ _ _ D), Eu, List.last_last; done).
  destruct (__list_splice_ok lst head n f la h) as (h' & Eh & HN & HP & Ho);
    [apply Hl | done
    | apply (dll_nodes h lst (f :: t)); [done|set_solver]
    | apply (dll_nodes h lst (f :: t)); [done|set_solver]
    | apply (dll_nodes h head m); [done|set_solver]
    | by apply (dll_nodes h head m) |].
  exists h', n. split_and!; [subst n; by apply get_next_ok, dll_first|done| |].
  2:{ eapply same_outside_mono; [|done]. set_solver. }
  split.
  { apply NoDup_cons in Hnd as [_ ?]. apply NoDup_cons in Hnd' as [? ?].
    apply NoDup_cons. rewrite NoDup_app. set_solver. }
  assert (head :: m ++ [head] = [] ++ head :: n :: ys) as E1 by (by rewrite Ey).
  destruct (cycle_split _ _ _ _ _ _ Hnd' E1) as (H1 & H2 & H3 & H4).
  rewrite <-app_assoc, Ey.
  apply (relink h h' [] (f :: t) ys head n); [done|apply Hl'| |done..| |].
  - eapply splice_chain; [exact D|exact Eu| | |exact HN|exact HP].
    + intros Hx. apply (Hd _ Hx). set_solver.
    + intros Hx. by apply (Hd _ Hx).
  - intros q Hq ?. rewrite HN. case_decide; [|by case_decide]. subst.
    apply elem_removelast in Hq. rewrite <-Ey in Hq. specialize (Hd la). set_solver.
  - intros q Hq ?. rewrite HP. repeat case_decide; try done. subst. simpl in Hq.
    assert (f ∈ m ++ [head]) by (rewrite Ey; set_solver). specialize (Hd f). set_solver.
Qed.

Lemma list_splice_init_spec h lst l head m :
  dll h lst l → dll h head m → (∀ x, x ∈ lst :: l → x ∉ head :: m) →
  ∃ h', list_splice_init lst head h = Ok h' ∧ dll h' head (l ++ m) ∧ dll h' lst [] ∧
    same_outside (lst :: l ++ head :: m) h h'.
Proof.
  intros D D' Hd. unfold list_splice_init. rewrite (list_empty_spec _ _ _ D). simpl.
  case_bool_decide as El; [subst; exists h; by split_and!|].
  destruct (__list_splice_spec h lst l head m D El D' Hd) as (h1 & n & En & E1 & D1 & Ho1).
  rewrite En. simpl. rewrite E1. simpl.
  assert (lst ∉ l) as Hlst by (destruct D as [Hnd _]; by apply NoDup_cons in Hnd as [? _]).
  assert (lst ∉ head :: m) as Hlst' by (apply Hd; set_solver).
  destruct (INIT_LIST_HEAD_ok lst h1) as (h2 & E2 & HN & HP & Ho2).
  { rewrite Ho1 by (clear -Hlst Hlst'; set_solver). eapply dll_nodes; [exact D|set_solver]. }
  exists h2. split_and!; [done| | |].
  - eapply dll_frame; [exact Ho2| |done]. clear -Hlst Hlst'. set_solver.
  - apply dll_nil; rewrite ?HN, ?HP; by case_decide.
  - eapply same_outside_trans; (eapply same_outside_mono; [|eassumption]); clear; set_solver.
Qed.

(** [list_splice] leaves the emptied head linked into the nodes it gave away. *)
Lemma list_splice_spec h lst l head m :
  dll h lst l → dll h head m → (∀ x, x ∈ lst :: l → x ∉ head :: m) →
  ∃ h', list_splice lst head h = Ok h' ∧ dll h' head (l ++ m) ∧ h' !! lst = h !! lst.
Proof.
  intros D D' Hd. unfold list_splice. rewrite (list_empty_spec _ _ _ D). simpl.
  case_bool_decide as El; [subst; exists h; by split_and!|].
  destruct (__list_splice_spec h lst l head m D El D' Hd) as (h1 & n & En & E1 & D1 & Ho1).
  rewrite En. simpl. exists h1. split_and!; [done|done|]. apply Ho1.
  destruct D as [Hnd _]. apply NoDup_cons in Hnd as [? _]. specialize (Hd lst). set_solver.
Qed.

Lemma list_for_each_linked h head l x :
  head ∉ l → linked h (l ++ [head]) → x = default head (hd_error l) →
  list_for_each (length l) x head h = Some l.
Proof.
  revert x. induction l as [|y l IH]; simpl; intros x Hh Hl ->; [by rewrite Z.eqb_refl|].
  assert ((y =? head) = false) as -> by (apply Z.eqb_neq; set_solver).
  assert (next <$> h !! y = Some (default head (hd_error l)) ∧ linked h (l ++ [head])) as [Hn Hl'].
  { destruct l; simpl in *; tauto. }
  destruct (h !! y) as [ny|]; [|done]. simpl in Hn. injection Hn as ->.
  by rewrite IH by (done || set_solver).
Qed.

Lemma list_for_each_fuel f f' x head h l :
  (f ≤ f')%nat → list_for_each f x head h = Some l → list_for_each f' x head h = Some l.
Proof.
  revert f' x l. induction f as [|f IH]; intros f' x l Hf; destruct f'; simpl;
    destruct (x =? head); try done; try lia.
  destruct (h !! x) as [n|]; [|done]. intros Hl.
  destruct (list_for_each f _ _ _) as [l'|] eqn:E; [|done].
  by rewrite (IH f' _ l') by (done || lia).
Qed.

(** ** The interface offered to the rest of the kernel *)

Lemma list_for_each_ok h head l fuel :
  dll h head l → (length l ≤ fuel)%nat →
  list_for_each fuel (default head (hd_error l)) head h = Some l.
Proof.
  intros [Hnd Hl] Hf. apply (list_for_each_fuel (length l)); [done|].
  apply list_for_each_linked; [by apply NoDup_cons in Hnd as [? _]| |done].
  destruct l; [done|]. apply Hl.
Qed.

(** ** Families of disjoint lists

    [F] maps the address of each head to the nodes it links; no address belongs to
    two lists. Caches with many buckets are families. *)

Lemma dll_length h head l : dll h head l → (length l ≤ size h)%nat.
Proof.
  intros Hd. pose proof (proj1 Hd) as Hnd.
  assert (list_to_set (head :: l) ⊆ (dom h : gset Z)) as Hsub.
  { intros x Hx. rewrite elem_of_list_to_set in Hx. apply elem_of_dom. by eapply dll_nodes. }
  apply subseteq_size in Hsub. rewrite size_list_to_set, size_dom in Hsub by done. simpl in Hsub. lia.
Qed.

Abbreviation heads := (gmap Z (list Z)).

Record family (h : store) (F : heads) : Prop := {
  fam_dll p l : F !! p = Some l → dll h p l;
  fam_disj p l q m x : F !! p = Some l → F !! q = Some m → x ∈ p :: l → x ∈ q :: m → p = q;
}.

Definition in_family (F : heads) (x : Z) : Prop := ∃ p l, F !! p = Some l ∧ x ∈ p :: l.

#[export] Instance linked_dec h l : Decision (linked h l).
Proof. induction l as [|x [|y l] IH]; cbn; apply _. Defined.

#[export] Instance dll_dec h p l : Decision (dll h p l).
Proof. unfold dll. apply _. Defined.

(** A family listed explicitly. *)
Lemma family_intro h (L : list (Z * list Z)) :
  Forall (λ e, dll h e.1 e.2) L → NoDup (L ≫= λ e, e.1 :: e.2) → family h (list_to_map L).
Proof.
  intros HL Hnd. assert (∀ p l, (list_to_map L : heads) !! p = Some l → (p, l) ∈ L) as Hin
    by (intros p l; apply elem_of_list_to_map_2).
  split.
  - intros p l Hp. apply Hin in Hp. rewrite Forall_forall in HL. by apply (HL (p, l)).
  - intros p l q m x Hp%Hin Hq%Hin Hx Hx'. clear HL Hin. induction L as [|[a b] L IH]; [by apply elem_of_nil in Hp|].
    change (NoDup ((a :: b) ++ (L ≫= λ e, e.1 :: e.2))) in Hnd. apply NoDup_app in Hnd as (_ & Hd & Hnd).
    assert (∀ r n, (r, n) ∈ L → x ∈ r :: n → x ∉ a :: b) as Hout.
    { intros r n Hr Hxr Hxa. apply (Hd x Hxa). apply list_elem_of_bind. by exists (r, n). }
    apply elem_of_cons in Hp as [[= -> ->]|Hp]; apply elem_of_cons in Hq as [[= -> ->]|Hq];
      [done| | |by apply IH]; exfalso; by eapply Hout.
Qed.

Lemma family_sub h F F' : F' ⊆ F → family h F → family h F'.
Proof.
  intros Hs [H1 H2]. split.
  - intros p l Hp. apply H1. by eapply lookup_weaken.
  - intros p l q m x Hp Hq. apply H2; by eapply lookup_weaken.
Qed.

Lemma family_frame w h h' F :
  family h F → same_outside w h h' → (∀ x, x ∈ w → ~ in_family F x) → family h' F.
Proof.
  intros [H1 H2] Ho Hw. split; [|done]. intros p l Hp. apply (dll_frame w h); [done| |by apply H1].
  intros x Hx Hin. apply (Hw x Hin). by exists p, l.
Qed.

(** A write inside one list of a family keeps the others. *)
Lemma family_set h h' F p l l' w :
  family h F → F !! p = Some l → dll h' p l' → same_outside w h h' →
  (∀ x, x ∈ w → x ∈ p :: l ∨ ~ in_family F x) →
  (∀ x, x ∈ l' → x ∈ l ∨ ~ in_family F x) → family h' (<[p := l']> F).
Proof.
  intros [H1 H2] Hp Hd Ho Hw Hl'.
  assert (∀ q m x, p ≠ q → F !! q = Some m → x ∈ q :: m → x ∈ p :: l → False) as Hx by (intros; eauto).
  assert (∀ q m x, p ≠ q → F !! q = Some m → x ∈ q :: m → x ∈ p :: l' → False) as Hx'.
  { intros q m x Hpq Hq Hin Hin'. apply elem_of_cons in Hin' as [->|Hin'].
    - by eapply (Hx q m p); eauto; apply elem_of_cons; left.
    - destruct (Hl' x Hin') as [Hl|Hn]; [|apply Hn; by exists q, m].
      eapply (Hx q m x); eauto. apply elem_of_cons. by right. }
  split.
  - intros q m Hq. apply lookup_insert_Some in Hq as [[<- <-]|[Hpq Hq]]; [done|].
    apply (dll_frame w h); [done| |by apply H1]. intros x Hin Hinw.
    destruct (Hw x Hinw) as [?|Hn]; [by eapply Hx|]. apply Hn. by exists q, m.
  - intros q m q' m' x Hq Hq' Hin Hin'.
    apply lookup_insert_Some in Hq as [[<- <-]|[Hpq Hq]]; apply lookup_insert_Some in Hq' as [[<- <-]|[Hpq' Hq']];
      [done| | |by eapply H2].
    + exfalso. by eapply (Hx' q' m' x).
    + exfalso. by eapply (Hx' q m x).
Qed.

Lemma family_add h F p l x :
  family h F → F !! p = Some l → ~ in_family F x → is_Some (h !! x) →
  ∃ h', list_add x p h = Ok h' ∧ family h' (<[p := x :: l]> F) ∧ same_outside (x :: p :: l) h h'.
Proof.
  intros HF Hp Hx Hs. destruct (list_add_spec h p l x) as (h' & E & D & Ho);
    [by apply HF|intros Hin; apply Hx; by exists p, l|done|].
  exists h'. split; [done|]. split; [|done]. apply (family_set h h' F p l _ (x :: p :: l)); [done..| |].
  - intros y [->|Hy]%elem_of_cons; [by right|by left].
  - intros y [->|Hy]%elem_of_cons; [by right|by left].
Qed.

Lemma family_nodup h F p l1 x l2 : family h F → F !! p = Some (l1 ++ x :: l2) → x ≠ p ∧ x ∉ l1 ++ l2.
Proof.
  intros HF Hp. destruct (fam_dll _ _ HF _ _ Hp) as [Hnd _]. apply NoDup_cons in Hnd as [Hh Hnd].
  rewrite <-Permutation_middle in Hnd. apply NoDup_cons in Hnd as [Hx _]. split; [|done].
  intros ->. apply Hh. apply list_elem_of_lookup. exists (length l1). by rewrite list_lookup_middle.
Qed.

(** What [list_del] and [list_del_init] both do to a family. *)
Lemma family_remove h h' F p l1 x l2 :
  family h F → F !! p = Some (l1 ++ x :: l2) → dll h' p (l1 ++ l2) →
  same_outside (p :: l1 ++ x :: l2) h h' →
  family h' (<[p := l1 ++ l2]> F) ∧ ~ in_family (<[p := l1 ++ l2]> F) x.
Proof.
  intros HF Hp D Ho. destruct (family_nodup _ _ _ _ _ _ HF Hp) as [Hxp Hxl]. split.
  - apply (family_set h h' F p _ _ _ HF Hp D Ho); [by left|].
    intros y Hy. left. rewrite elem_of_app, elem_of_cons. rewrite elem_of_app in Hy. tauto.
  - intros (q & m & Hq & Hin). apply lookup_insert_Some in Hq as [[<- <-]|[Hpq Hq]].
    + apply elem_of_cons in Hin as [?|?]; done.
    + apply Hpq. apply (fam_disj _ _ HF p _ q m x Hp Hq); [|done].
      rewrite elem_of_cons, elem_of_app, elem_of_cons. tauto.
Qed.

Lemma family_del h F p l1 x l2 :
  family h F → F !! p = Some (l1 ++ x :: l2) →
  ∃ h', list_del x h = Ok h' ∧ family h' (<[p := l1 ++ l2]> F) ∧
    ~ in_family (<[p := l1 ++ l2]> F) x ∧ is_Some (h' !! x) ∧ same_outside (p :: l1 ++ x :: l2) h h'.
Proof.
  intros HF Hp. destruct (list_del_spec h p l1 x l2 (fam_dll _ _ HF _ _ Hp)) as (h' & E & D & Hx & Ho).
  destruct (family_remove h h' F p l1 x l2 HF Hp D Ho) as [HF' Hout].
  exists h'. split; [done|]. split; [done|]. split; [done|]. split; [by eexists|done].
Qed.

Lemma family_del_init h F p l1 x l2 :
  family h F → F !! p = Some (l1 ++ x :: l2) →
  ∃ h', list_del_init x h = Ok h' ∧ family h' (<[p := l1 ++ l2]> F) ∧
    ~ in_family (<[p := l1 ++ l2]> F) x ∧ dll h' x [] ∧ same_outside (p :: l1 ++ x :: l2) h h'.
Proof.
  intros HF Hp. destruct (list_del_init_spec h p l1 x l2 (fam_dll _ _ HF _ _ Hp)) as (h' & E & D & Hx & Ho).
  destruct (family_remove h h' F p l1 x l2 HF Hp D Ho) as [HF' Hout]. by exists h'.
Qed.

Lemma family_add_tail h F p l x :
  family h F → F !! p = Some l → ~ in_family F x → is_Some (h !! x) →
  ∃ h', list_add_tail x p h = Ok h' ∧ family h' (<[p := l ++ [x]]> F) ∧ same_outside (x :: p :: l) h h'.
Proof.
  intros HF Hp Hx Hs. destruct (list_add_tail_spec h p l x) as (h' & E & D & Ho);
    [by apply HF|intros Hin; apply Hx; by exists p, l|done|].
  exists h'. split; [done|]. split; [|done]. apply (family_set h h' F p l _ (x :: p :: l)); [done..| |].
  - intros y [->|Hy]%elem_of_cons; [by right|by left].
  - intros y [Hy|Hy]%elem_of_app; [by left|]. apply list_elem_of_singleton in Hy as ->. by right.
Qed.

(** A node that is on a list does not look like an empty list. *)
Lemma family_member h F p l1 x l2 : family h F → F !! p = Some (l1 ++ x :: l2) → list_empty x h = Ok false.
Proof.
  intros HF Hp. destruct (family_nodup _ _ _ _ _ _ HF Hp) as [Hxh Hnx]. destruct (fam_dll _ _ HF _ _ Hp) as [_ Hlk].
  rewrite <-app_assoc, app_comm_cons in Hlk. apply linked_app in Hlk as [_ Hlk].
  unfold list_empty. destruct l2 as [|y l2]; cbn in Hlk; destruct Hlk as [Hn _];
    rewrite (get_next_ok _ _ _ Hn); cbn [obind]; rewrite (proj2 (Z.eqb_neq _ _)); try done.
  intros ->. apply Hnx. rewrite elem_of_app, elem_of_cons. tauto.
Qed.

(** A new, empty list. *)
Lemma family_init h F p :
  family h F → ~ in_family F p → is_Some (h !! p) →
  ∃ h', INIT_LIST_HEAD p h = Ok h' ∧ family h' (<[p := []]> F) ∧ same_outside [p] h h'.
Proof.
  intros [H1 H2] Hp Hs. destruct (INIT_LIST_HEAD_ok p h Hs) as (h' & E & HN & HP & Ho).
  exists h'. split; [done|]. split; [|done].
  assert (∀ q m x, F !! q = Some m → x ∈ q :: m → x ≠ p) as Hne by (intros q m x Hq Hx ->; apply Hp; by exists q, m).
  split.
  - intros q m Hq. apply lookup_insert_Some in Hq as [[<- <-]|[Hpq Hq]].
    + apply dll_nil; rewrite ?HN, ?HP; by case_decide.
    + apply (dll_frame [p] h); [done| |by apply H1]. intros x Hx. rewrite list_elem_of_singleton. by eapply Hne.
  - intros q m q' m' x Hq Hq' Hin Hin'.
    apply lookup_insert_Some in Hq as [[<- <-]|[Hpq Hq]]; apply lookup_insert_Some in Hq' as [[<- <-]|[Hpq' Hq']];
      [done| | |by eapply H2].
    + apply list_elem_of_singleton in Hin as ->. by destruct (Hne q' m' p).
    + apply list_elem_of_singleton in Hin' as ->. by destruct (Hne q m p).
Qed.

(** [rep h head l]: in store [h] the sentinel [head] links the nodes [l];
    [live h p]: [p] is the address of some node. *)
Class IntrusiveList (H : Type) : Type := {
  rep : H → Z → list Z → Prop;
  live : H → Z → Prop;
  il_init : Z → H → outcome H;
  il_add : Z → Z → H → outcome H;
  il_add_tail : Z → Z → H → outcome H;
  il_del_init : Z → H → outcome H;
  il_first : Z → H → outcome Z;
  il_init_ok h p : live h p → ∃ h', il_init p h = Ok h' ∧ rep h' p [];
  il_add_ok h p l x : rep h p l → x ∉ p :: l → live h x →
    ∃ h', il_add x p h = Ok h' ∧ rep h' p (x :: l);
  il_add_tail_ok h p l x : rep h p l → x ∉ p :: l → live h x →
    ∃ h', il_add_tail x p h = Ok h' ∧ rep h' p (l ++ [x]);
  il_del_init_ok h p l1 x l2 : rep h p (l1 ++ x :: l2) →
    ∃ h', il_del_init x h = Ok h' ∧ rep h' p (l1 ++ l2) ∧ rep h' x [];
  il_first_ok h p l : rep h p l → il_first p h = Ok (default p (hd_error l));
  rep_nodup h p l : rep h p l → NoDup (p :: l);
}.

#[export] Program Instance store_list : IntrusiveList store := {
  rep := dll;
  live h p := is_Some (h !! p);
  il_init := INIT_LIST_HEAD;
  il_add := list_add;
  il_add_tail := list_add_tail;
  il_del_init := list_del_init;
  il_first := get_next;
}.
Next Obligation.
  intros h p Hp. simpl. destruct (INIT_LIST_HEAD_ok p h Hp) as (h' & E & HN & HP & _).
  exists h'. split; [done|]. apply dll_nil; rewrite ?HN, ?HP; by case_decide.
Qed.
Next Obligation.
  intros h p l x D Hx Hl. destruct (list_add_spec h p l x D Hx Hl) as (h' & ? & ? & _). eauto.
Qed.
Next Obligation.
  intros h p l x D Hx Hl. destruct (list_add_tail_spec h p l x D Hx Hl) as (h' & ? & ? & _). eauto.
Qed.
Next Obligation.
  intros h p l1 x l2 D. destruct (list_del_init_spec h p l1 x l2 D) as (h' & ? & ? & ? & _). eauto.
Qed.
Next Obligation. intros h p l D. by apply get_next_ok, dll_first. Qed.
Next Obligation. by intros h p l [Hnd _]. Qed.

(** ** Properties *)

(** C38. Insertion and removal refine sequence operations: on a head that links the
    nodes [l], of which there may be none, [list_add] puts a fresh node in front and
    [list_add_tail] puts it at the back; [list_del] and [list_del_init] remove exactly
    the node [e] of [l1 ++ e :: l2] (leaving it with null pointers, or as a list of its own); no
    node outside the list is written. *)
Theorem list_insert_remove_refine h head l :
  dll h head l →
  (∀ new, new ∉ head :: l → is_Some (h !! new) →
     (∃ h', list_add new head h = Ok h' ∧ dll h' head (new :: l) ∧ same_outside (new :: head :: l) h h') ∧
     (∃ h', list_add_tail new head h = Ok h' ∧ dll h' head (l ++ [new]) ∧ same_outside (new :: head :: l) h h')) ∧
  (∀ l1 e l2, l = l1 ++ e :: l2 →
     (∃ h', list_del e h = Ok h' ∧ dll h' head (l1 ++ l2) ∧ h' !! e = Some (ListHead 0 0) ∧
        same_outside (head :: l) h h') ∧
     (∃ h', list_del_init e h = Ok h' ∧ dll h' head (l1 ++ l2) ∧ dll h' e [] ∧ same_outside (head :: l) h h')).
Proof.
  intros D. split.
  - intros new Hnew Hs. split; [by apply list_add_spec|by apply list_add_tail_spec].
  - intros l1 e l2 ->. split; [by apply list_del_spec|by apply list_del_init_spec].
Qed.

(** Moving and splicing: [list_move] and [list_move_tail] take a node from one
    list to the front or back of another, and [list_splice_init] inserts a whole
    list, in order, at the front of another and leaves the first one empty. *)
Theorem list_move_splice_refine h head l1 e l2 head' m :
  dll h head (l1 ++ e :: l2) → dll h head' m →
  (∀ x, x ∈ head :: l1 ++ e :: l2 → x ∉ head' :: m) →
  (∃ h', list_move e head' h = Ok h' ∧ dll h' head (l1 ++ l2) ∧ dll h' head' (e :: m)) ∧
  (∃ h', list_move_tail e head' h = Ok h' ∧ dll h' head (l1 ++ l2) ∧
     dll h' head' (m ++ [e])) ∧
  (∃ h', list_splice_init head head' h = Ok h' ∧
     dll h' head' ((l1 ++ e :: l2) ++ m) ∧ dll h' head []).
Proof.
  intros D D' Hd. split_and!.
  - destruct (list_move_spec h head l1 e l2 head' m false D D' Hd) as (h' & ? & ? & ? & _). eauto.
  - destruct (list_move_spec h head l1 e l2 head' m true D D' Hd) as (h' & ? & ? & ? & _). eauto.
  - destruct (list_splice_init_spec h head _ head' m D D' Hd) as (h' & ? & ? & ? & _). eauto.
Qed.

(** Traversal: [list_for_each] started at the first node of a well-formed list
    ends at the head after visiting every node once, in order. *)
Theorem list_for_each_visits h head l fuel :
  dll h head l → (length l ≤ fuel)%nat →
  ∃ first, get_next head h = Ok first ∧ list_for_each fuel first head h = Some l.
Proof.
  intros D Hf. exists (default head (hd_error l)). split; [by apply get_next_ok, dll_first|].
  by apply list_for_each_ok.
Qed.

(** A store with the two lists [100: 8, 16] and [200: 24], and the lone node 32. *)
Definition sample_store : store :=
  list_to_map [(100, ListHead 8 16); (8, ListHead 16 100); (16, ListHead 100 8);
               (200, ListHead 24 24); (24, ListHead 200 200); (32, ListHead 0 0)].

Lemma sample_dll : dll sample_store 100 [8; 16] ∧ dll sample_store 200 [24].
Proof. split; (split; [apply (bool_decide_unpack _); vm_compute; exact I | by repeat split]). Qed.

(** An insertion, a removal, and an insertion into an empty list. *)
Lemma list_insert_remove_refine_witness :
  (∃ h', list_add 32 100 sample_store = Ok h' ∧ dll h' 100 [32; 8; 16]) ∧
  (∃ h', list_del 8 sample_store = Ok h' ∧ dll h' 100 [16]) ∧
  (∃ h', list_add_tail 32 100 {[100 := ListHead 100 100; 32 := ListHead 0 0]} = Ok h' ∧ dll h' 100 [32]).
Proof.
  destruct (list_insert_remove_refine sample_store 100 [8; 16]) as [Hi Hr]; [apply sample_dll|].
  split; [|split].
  - destruct (Hi 32) as [(h' & E & D & _) _]; [apply (bool_decide_unpack _); vm_compute; exact I|by eexists|]. by exists h'.
  - destruct (Hr [] 8 [16] eq_refl) as [(h' & E & D & _) _]. by exists h'.
  - destruct (list_insert_remove_refine {[100 := ListHead 100 100; 32 := ListHead 0 0]} 100 []) as [He _]; [by apply dll_nil|].
    destruct (He 32) as [_ (h' & E & D & _)]; [apply (bool_decide_unpack _); vm_compute; exact I|by eexists|]. by exists h'.
Defined.

Lemma list_move_splice_refine_witness :
  ∃ h', list_splice_init 100 200 sample_store = Ok h' ∧ dll h' 200 [8; 16; 24].
Proof.
  destruct (list_move_splice_refine sample_store 100 [8] 16 [] 200 [24])
    as (_ & _ & h' & E & D & _);
    [apply sample_dll | apply sample_dll | | by exists h'].
  intros x Hx. repeat (apply elem_of_cons in Hx as [->|Hx]; [set_solver|]).
  by apply elem_of_nil in Hx.
Defined.

Lemma list_for_each_visits_witness :
  ∃ first, get_next 100 sample_store = Ok first ∧
    list_for_each 2 first 100 sample_store = Some [8; 16].
Proof. apply (list_for_each_visits sample_store 100 [8; 16] 2); [apply sample_dll | done]. Defined.
