(* ===== verification/Pid.v ===== *)
(** * Process identifiers ([kernel/sched/pid.c], [include/kernel/sched/pid.h])

    A bitmap of [PID_MAX] bits and a rotating search position. The theorems
    show that allocation is next-fit, never hands out a pid twice, and fails
    only when every pid but the reserved 0 is taken. *)

From stdpp Require Import base gmap list.
From S2P Require Import Prelude.
Local Open Scope Z_scope.
Local Open Scope kernel_scope.

Definition PID_MAX : Z := 8192.

(** The spinlock field is left out: every operation runs with the lock held. *)
Record pid_manager := PidManager { next_pid : Z; pid_map : list Z }.

Definition pid_init : pid_manager :=
  PidManager 1 (repeat 0 (Z.to_nat (PID_MAX / 8))).

(** The body of the [for] loop of [pid_alloc], from index [i] on; [n] is the
    number of iterations left, [PID_MAX - i]. *)
Fixpoint pid_alloc_loop (n : nat) (i : Z) (manager : pid_manager) : outcome (Z * pid_manager) :=
  match n with
  | O => Ok (- EAGAIN, manager)
  | S n =>
      let current_pid := Z.rem (next_pid manager + i) PID_MAX in
      if current_pid =? 0 then pid_alloc_loop n (i + 1) manager
      else
        let byte_idx := Z.quot current_pid 8 in
        let bit_idx := Z.rem current_pid 8 in
        let! byte := of_option (pid_map manager !! Z.to_nat byte_idx) in
        if Z.land byte (Z.shiftl 1 bit_idx) =? 0 then
          Ok (current_pid,
              PidManager (Z.rem (current_pid + 1) PID_MAX)
                (<[Z.to_nat byte_idx := u8 (Z.lor byte (Z.shiftl 1 bit_idx))]> (pid_map manager)))
        else pid_alloc_loop n (i + 1) manager
  end.

Definition pid_alloc (manager : pid_manager) : outcome (Z * pid_manager) :=
  pid_alloc_loop (Z.to_nat PID_MAX) 0 manager.

Definition pid_free (pid : Z) (manager : pid_manager) : outcome pid_manager :=
  if (pid <=? 0) || (PID_MAX <=? pid) then Panic
  else
    let byte_idx := Z.quot pid 8 in
    let bit_idx := Z.rem pid 8 in
    let! byte := of_option (pid_map manager !! Z.to_nat byte_idx) in
    Ok (PidManager (next_pid manager)
          (<[Z.to_nat byte_idx := u8 (Z.land byte (Z.lnot (Z.shiftl 1 bit_idx)))]>
             (pid_map manager))).

(** ** Invariant and abstraction *)

Definition pid_wf (m : pid_manager) : Prop :=
  length (pid_map m) = 1024%nat ∧ Forall (λ b, 0 ≤ b < 2 ^ 8) (pid_map m) ∧
  0 ≤ next_pid m < PID_MAX.

(** Bit [p] of the bitmap. *)
Definition pid_used (m : pid_manager) (p : Z) : bool :=
  match pid_map m !! Z.to_nat (p / 8) with
  | Some b => Z.testbit b (p mod 8)
  | None => true
  end.

Definition valid_pid (p : Z) : Prop := 1 ≤ p < PID_MAX.

Lemma pid_byte m p :
  pid_wf m → 0 ≤ p < PID_MAX →
  ∃ b, pid_map m !! Z.to_nat (p / 8) = Some b ∧ 0 ≤ b < 2 ^ 8.
Proof.
  intros (Hlen & Hb & _) Hp. unfold PID_MAX in Hp.
  destruct (lookup_lt_is_Some_2 (pid_map m) (Z.to_nat (p / 8))) as [b E]; [zdm|].
  exists b. split; [done|]. exact (Forall_lookup_1 _ _ _ _ Hb E).
Qed.

(** Writing byte [p / 8] only changes the pids of that byte. *)
Lemma pid_used_insert m np p b q :
  pid_wf m → 0 ≤ p < PID_MAX → 0 ≤ q < PID_MAX →
  pid_used (PidManager np (<[Z.to_nat (p / 8) := b]> (pid_map m))) q =
  if q / 8 =? p / 8 then Z.testbit b (q mod 8) else pid_used m q.
Proof.
  intros (Hlen & _) Hp Hq. unfold PID_MAX in *. unfold pid_used. simpl.
  destruct (Z.eqb_spec (q / 8) (p / 8)) as [->|].
  - rewrite list_lookup_insert_eq; [done|]. rewrite Hlen. zdm.
  - rewrite list_lookup_insert_ne; [done|]. zdm.
Qed.

Lemma pid_wf_insert m np p b :
  pid_wf m → 0 ≤ np < PID_MAX → 0 ≤ b < 2 ^ 8 →
  pid_wf (PidManager np (<[p := b]> (pid_map m))).
Proof.
  intros (Hlen & Hf & _) Hnp Hb. split_and!; simpl; [by rewrite length_insert| |lia..].
  by apply Forall_insert.
Qed.

Lemma quot_rem_8 p : 0 ≤ p → Z.quot p 8 = p / 8 ∧ Z.rem p 8 = p mod 8.
Proof. intros. split; [by apply Z.quot_div_nonneg | by apply Z.rem_mod_nonneg]. Qed.

(** One probe of the loop, on the bitmap as a set. *)
Lemma pid_take_spec m p b :
  pid_wf m → 0 ≤ p < PID_MAX → pid_map m !! Z.to_nat (p / 8) = Some b →
  let m' := PidManager (Z.rem (p + 1) PID_MAX)
              (<[Z.to_nat (p / 8) := u8 (Z.lor b (Z.shiftl 1 (p mod 8)))]> (pid_map m)) in
  pid_wf m' ∧ ∀ q, 0 ≤ q < PID_MAX → pid_used m' q = pid_used m q || (q =? p).
Proof.
  intros Hwf Hp Hb. cbn zeta. destruct (pid_byte m p Hwf Hp) as (b' & E & Hr).
  rewrite Hb in E. injection E as <-.
  assert (0 ≤ p mod 8 < 8) by (apply Z.mod_pos_bound; lia).
  rewrite u8_small by (apply word_lor; [lia..|apply word_shiftl1; lia]). split.
  - apply pid_wf_insert; [done| |apply word_lor; [lia..|apply word_shiftl1; lia]].
    unfold PID_MAX in *. rewrite Z.rem_mod_nonneg by lia. zdm.
  - intros q Hq. rewrite pid_used_insert by done.
    destruct (Z.eqb_spec (q / 8) (p / 8)) as [E8|N8].
    + rewrite testbit_set by lia. unfold pid_used. rewrite E8, Hb. f_equal.
      apply Bool.eq_iff_eq_true. rewrite !Z.eqb_eq. zdm.
    + assert ((q =? p) = false) as -> by (apply Z.eqb_neq; congruence). by rewrite orb_false_r.
Qed.

(** The pid probed at iteration [i]. *)
Definition pid_candidate (m : pid_manager) (i : Z) : Z := (next_pid m + i) mod PID_MAX.

(** What the loop does from iteration [i] on: it stops at the first candidate
    that is neither 0 nor in use. *)
Lemma pid_alloc_loop_spec m n i :
  pid_wf m → 0 ≤ i →
  (∃ j m', i ≤ j < i + Z.of_nat n ∧ let p := pid_candidate m j in
     pid_alloc_loop n i m = Ok (p, m') ∧ valid_pid p ∧ pid_used m p = false ∧
     (∀ k, i ≤ k < j → let q := pid_candidate m k in q = 0 ∨ pid_used m q = true) ∧
     pid_wf m' ∧ next_pid m' = (p + 1) mod PID_MAX ∧
     ∀ q, 0 ≤ q < PID_MAX → pid_used m' q = pid_used m q || (q =? p)) ∨
  (pid_alloc_loop n i m = Ok (- EAGAIN, m) ∧
     ∀ k, i ≤ k < i + Z.of_nat n →
       let q := pid_candidate m k in q = 0 ∨ pid_used m q = true).
Proof.
  intros Hwf. revert i. induction n as [|n IH]; intros i Hi.
  { right. split; [done|]. lia. }
  assert (Z.rem (next_pid m + i) PID_MAX = pid_candidate m i) as Ec.
  { destruct Hwf as (_ & _ & ?). apply Z.rem_mod_nonneg; unfold PID_MAX in *; lia. }
  assert (0 ≤ pid_candidate m i < PID_MAX) as Hc by (apply Z.mod_pos_bound; done).
  cbn [pid_alloc_loop]. rewrite Ec.
  destruct (quot_rem_8 (pid_candidate m i)) as [-> ->]; [lia|].
  destruct (pid_byte m _ Hwf Hc) as (b & Eb & Hb). rewrite Eb. cbn [of_option obind].
  rewrite land_pow2_eqb by (apply Z.mod_pos_bound; lia).
  assert (Z.testbit b (pid_candidate m i mod 8) = pid_used m (pid_candidate m i)) as ->.
  { unfold pid_used. by rewrite Eb. }
  destruct (Z.eqb_spec (pid_candidate m i) 0) as [E0|N0];
    [|destruct (pid_used m (pid_candidate m i)) eqn:Eu].
  3:{ left. destruct (pid_take_spec m _ b Hwf Hc Eb) as [Hwf' Hu'].
      eexists i, _. cbn [negb]. split; [lia|]. split; [done|].
      split; [unfold valid_pid; lia|]. split; [done|]. split; [lia|]. split; [done|].
      split; [|done]. simpl. apply Z.rem_mod_nonneg; unfold PID_MAX; lia. }
  all: cbn [negb]; destruct (IH (i + 1) ltac:(lia)) as [(j & m' & Hj & E & Hv & Hu & Hk & Hr)|(E & Hk)];
    [left; exists j, m'; split; [lia|]; split; [done|]; split; [done|]; split; [done|];
     split; [|done]
    |right; split; [done|]];
    intros k Hk'; (destruct (Z.eq_dec k i) as [->|]; [tauto|apply Hk; lia]).
Qed.

(** Every pid is probed once in [PID_MAX] iterations. *)
Lemma pid_candidate_surj m q :
  pid_wf m → 0 ≤ q < PID_MAX → ∃ k, 0 ≤ k < PID_MAX ∧ pid_candidate m k = q.
Proof.
  intros (_ & _ & Hn) Hq. exists ((q - next_pid m) mod PID_MAX).
  unfold pid_candidate, PID_MAX in *. zdm.
Qed.

Lemma pid_init_wf : pid_wf pid_init.
Proof.
  split_and!; [done| |done..]. apply Forall_forall. intros b Hb.
  apply list_elem_of_In, repeat_spec in Hb. lia.
Qed.

Lemma pid_init_unused p : 0 ≤ p < PID_MAX → pid_used pid_init p = false.
Proof.
  intros Hp. unfold pid_used.
  destruct (pid_byte pid_init p pid_init_wf Hp) as (b & E & _). rewrite E.
  apply list_elem_of_lookup_2, list_elem_of_In, repeat_spec in E. subst. apply Z.bits_0.
Qed.

Lemma pid_free_spec m p :
  pid_wf m → valid_pid p →
  ∃ m', pid_free p m = Ok m' ∧ pid_wf m' ∧ next_pid m' = next_pid m ∧
    ∀ q, 0 ≤ q < PID_MAX → pid_used m' q = pid_used m q && negb (q =? p).
Proof.
  intros Hwf [Hp1 Hp2]. unfold pid_free.
  assert ((p <=? 0) || (PID_MAX <=? p) = false) as ->.
  { apply orb_false_intro; apply Z.leb_gt; lia. }
  destruct (quot_rem_8 p) as [-> ->]; [lia|].
  destruct (pid_byte m p Hwf) as (b & Eb & Hb); [lia|]. rewrite Eb. cbn [of_option obind].
  assert (0 ≤ p mod 8 < 8) by (apply Z.mod_pos_bound; lia).
  rewrite u8_small by (apply word_land; lia).
  eexists; split; [done|]. split_and!.
  - apply pid_wf_insert; [done|apply Hwf|apply word_land; lia].
  - done.
  - intros q Hq. rewrite pid_used_insert by (done || lia).
    destruct (Z.eqb_spec (q / 8) (p / 8)) as [E8|N8].
    + assert (0 ≤ q mod 8) by (apply Z.mod_pos_bound; lia).
      rewrite testbit_clear by lia. unfold pid_used. rewrite E8, Eb. f_equal. f_equal.
      apply Bool.eq_iff_eq_true. rewrite !Z.eqb_eq. zdm.
    + assert ((q =? p) = false) as -> by (apply Z.eqb_neq; congruence). by rewrite andb_true_r.
Qed.

(** ** Abstract specification: a set of live pids *)

Definition pid_abs (m : pid_manager) (s : gset Z) : Prop :=
  pid_wf m ∧ ∀ p, p ∈ s ↔ valid_pid p ∧ pid_used m p = true.

(** Requests and replies of the manager. *)
Inductive pid_step : pid_manager → gset Z → pid_manager → gset Z → Prop :=
| step_alloc m s pid m' :
    pid_alloc m = Ok (pid, m') → 0 < pid → pid_step m s m' ({[pid]} ∪ s)
| step_full m s pid m' :
    pid_alloc m = Ok (pid, m') → pid ≤ 0 → pid_step m s m' s
| step_free m s pid m' :
    pid_free pid m = Ok m' → pid_step m s m' (s ∖ {[pid]}).

Inductive pid_reach : pid_manager → gset Z → Prop :=
| reach_init : pid_reach pid_init ∅
| reach_step m s m' s' : pid_reach m s → pid_step m s m' s' → pid_reach m' s'.

Lemma pid_alloc_cases m :
  pid_wf m →
  (∃ j m', 0 ≤ j < PID_MAX ∧ let p := pid_candidate m j in
     pid_alloc m = Ok (p, m') ∧ valid_pid p ∧ pid_used m p = false ∧
     (∀ k, 0 ≤ k < j → let q := pid_candidate m k in q = 0 ∨ pid_used m q = true) ∧
     pid_wf m' ∧ next_pid m' = (p + 1) mod PID_MAX ∧
     ∀ q, 0 ≤ q < PID_MAX → pid_used m' q = pid_used m q || (q =? p)) ∨
  (pid_alloc m = Ok (- EAGAIN, m) ∧
     ∀ k, 0 ≤ k < PID_MAX → let q := pid_candidate m k in q = 0 ∨ pid_used m q = true).
Proof.
  intros Hwf. unfold pid_alloc.
  pose proof (pid_alloc_loop_spec m (Z.to_nat PID_MAX) 0 Hwf ltac:(done)) as H.
  rewrite Z2Nat.id, Z.add_0_l in H by done. exact H.
Qed.

(** Every pid is probed, so failure means that all are in use. *)
Lemma pid_all_used m q :
  pid_wf m →
  (∀ k, 0 ≤ k < PID_MAX → let p := pid_candidate m k in p = 0 ∨ pid_used m p = true) →
  valid_pid q → pid_used m q = true.
Proof.
  intros Hwf Hk Hq. destruct (pid_candidate_surj m q Hwf) as (k & Hk1 & <-);
    [unfold valid_pid in Hq; lia|].
  destruct (Hk k); [done| |done]. unfold valid_pid in Hq. lia.
Qed.

Lemma pid_alloc_result m :
  pid_wf m →
  (∃ p m', pid_alloc m = Ok (p, m') ∧ valid_pid p ∧ pid_used m p = false ∧ pid_wf m' ∧
     ∀ q, 0 ≤ q < PID_MAX → pid_used m' q = pid_used m q || (q =? p)) ∨
  (pid_alloc m = Ok (- EAGAIN, m) ∧ ∀ q, valid_pid q → pid_used m q = true).
Proof.
  intros Hwf. destruct (pid_alloc_cases m Hwf)
    as [(j & m' & _ & E & Hv & Hu & _ & Hw & _ & Hq)|(E & Hk)]; [left|right].
  - eexists _, _. by split_and!.
  - split; [done|]. intros q. by apply pid_all_used.
Qed.

Lemma pid_reach_abs m s : pid_reach m s → pid_abs m s.
Proof.
  induction 1 as [|m s m' s' _ [Hwf Habs] Hstep].
  - split; [apply pid_init_wf|]. intros p. split; [set_solver|]. intros [Hp Hu].
    rewrite pid_init_unused in Hu; [done|]. unfold valid_pid in Hp. lia.
  - destruct Hstep as [m s pid m' E Hp|m s pid m' E Hp|m s pid m' E].
    + destruct (pid_alloc_result m Hwf) as [(p & m2 & E2 & Hv & Hu & Hwf' & Hq)|[E2 _]];
        rewrite E in E2; injection E2 as -> ->; [|unfold EAGAIN in Hp; lia].
      split; [done|]. intros q. rewrite elem_of_union, elem_of_singleton, Habs. split.
      * intros [->|[Hq1 Hq2]]; (split; [done|]); unfold valid_pid in *;
          rewrite Hq by lia; [by rewrite Z.eqb_refl, orb_true_r | by rewrite Hq2].
      * intros [Hv' Hq']. unfold valid_pid in *. rewrite Hq in Hq' by lia.
        apply orb_prop in Hq' as [|?%Z.eqb_eq]; [right; done|left; done].
    + destruct (pid_alloc_result m Hwf) as [(p & m2 & E2 & Hv & _)|[E2 _]];
        rewrite E in E2; injection E2 as -> ->; [unfold valid_pid in Hv; lia|done].
    + assert (valid_pid pid) as Hv.
      { unfold pid_free in E. split_if; [done|]. bool_props. unfold valid_pid. lia. }
      destruct (pid_free_spec m pid Hwf Hv) as (m2 & E2 & Hwf' & _ & Hq).
      rewrite E in E2. injection E2 as <-. split; [done|]. intros q.
      rewrite elem_of_difference, elem_of_singleton, Habs. split.
      * intros [[Hq1 Hq2] Hne]. split; [done|]. unfold valid_pid in *. rewrite Hq by lia.
        rewrite Hq2. simpl. apply negb_true_iff, Z.eqb_neq. done.
      * intros [Hq1 Hq2]. unfold valid_pid in *. rewrite Hq in Hq2 by lia.
        bool_props. done.
Qed.

(** ** Properties *)

(** Next-fit allocation: [pid_alloc] terminates; it returns the first pid, in
    cyclic order from [next_pid], that is neither the reserved 0 nor in use, marks
    exactly that pid as used and moves [next_pid] behind it; it returns [-EAGAIN],
    with the manager unchanged, exactly when no such pid exists. *)
Theorem pid_alloc_next_fit m :
  pid_wf m →
  (∃ j m', 0 ≤ j < PID_MAX ∧ let p := pid_candidate m j in
     pid_alloc m = Ok (p, m') ∧ valid_pid p ∧ pid_used m p = false ∧
     (∀ k, 0 ≤ k < j → let q := pid_candidate m k in q = 0 ∨ pid_used m q = true) ∧
     pid_wf m' ∧ next_pid m' = (p + 1) mod PID_MAX ∧
     ∀ q, 0 ≤ q < PID_MAX → pid_used m' q = pid_used m q || (q =? p)) ∨
  (pid_alloc m = Ok (- EAGAIN, m) ∧ ∀ q, valid_pid q → pid_used m q = true).
Proof.
  intros Hwf. destruct (pid_alloc_cases m Hwf) as [H|[E H]]; [by left|right].
  split; [done|]. intros q. by apply pid_all_used.
Qed.

(** C39. Uniqueness over every history: whatever sequence of allocations and frees
    led from [pid_init] to the present state, with [s] the pids handed out and not
    freed since, the next [pid_alloc] either hands out a pid outside [s], or every
    pid from 1 to [PID_MAX - 1] is in [s] and it fails. *)
Theorem pid_alloc_unique m s :
  pid_reach m s →
  ∃ pid m', pid_alloc m = Ok (pid, m') ∧
    ((valid_pid pid ∧ pid ∉ s) ∨ (pid = - EAGAIN ∧ ∀ q, valid_pid q → q ∈ s)).
Proof.
  intros [Hwf Habs]%pid_reach_abs.
  destruct (pid_alloc_result m Hwf) as [(p & m' & E & Hv & Hu & _)|[E Hq]].
  - exists p, m'. split; [done|]. left. split; [done|]. rewrite Habs. intros [_ ?]. congruence.
  - exists (- EAGAIN), m. split; [done|]. right. split; [done|]. intros q Hv. rewrite Habs. auto.
Qed.

(** Freeing: [pid_free] panics exactly on a pid outside 1..[PID_MAX - 1];
    otherwise it releases that pid and no other, and a following allocation that
    starts its search there gets the same pid back. *)
Theorem pid_free_exact m p :
  pid_wf m →
  (pid_free p m = Panic ↔ ~ valid_pid p) ∧
  (valid_pid p →
   ∃ m', pid_free p m = Ok m' ∧ pid_wf m' ∧
     (∀ q, 0 ≤ q < PID_MAX → pid_used m' q = pid_used m q && negb (q =? p)) ∧
     (next_pid m = p → ∃ m'', pid_alloc m' = Ok (p, m''))).
Proof.
  intros Hwf. split.
  - unfold pid_free, valid_pid. split_if.
    + split; [|done]. intros _ ?. apply orb_prop in Heqb as [?%Z.leb_le|?%Z.leb_le]; lia.
    + bool_props. split; [destruct (pid_map m !! _); done|]. intros []. lia.
  - intros Hv. destruct (pid_free_spec m p Hwf Hv) as (m' & E & Hwf' & Hn & Hq).
    exists m'. split_and!; [done..|]. intros Hnp.
    assert (pid_candidate m' 0 = p) as Ec.
    { unfold pid_candidate, valid_pid in *. rewrite Hn, Hnp, Z.add_0_r. apply Z.mod_small. lia. }
    assert (pid_used m' p = false) as Hu.
    { rewrite Hq by (unfold valid_pid in Hv; lia). by rewrite Z.eqb_refl, andb_false_r. }
    destruct (pid_alloc_cases m' Hwf')
      as [(j & m2 & Hj & E2 & _ & _ & Hk & _)|[_ Hk]].
    + destruct (Z.eq_dec j 0) as [->|]; [rewrite Ec in E2; by exists m2|].
      destruct (Hk 0) as [H0|H0]; [lia| |congruence]. rewrite Ec in H0. unfold valid_pid in Hv. lia.
    + destruct (Hk 0) as [H0|H0]; [done| |congruence].
      rewrite Ec in H0. unfold valid_pid in Hv. lia.
Qed.

Lemma pid_alloc_next_fit_witness : ∃ m', pid_alloc pid_init = Ok (1, m') ∧ pid_used m' 1 = true.
Proof.
  destruct (pid_alloc_next_fit pid_init pid_init_wf) as [(j & m' & Hj & E & Hv & _ & Hk & _ & _ & Hq)|[E Hq]].
  - destruct (Z.eq_dec j 0) as [->|].
    + exists m'. split; [exact E|]. rewrite Hq by done. apply orb_true_r.
    + destruct (Hk 0) as [H|H]; [lia|discriminate H|vm_compute in H; discriminate H].
  - specialize (Hq 1 ltac:(done)). vm_compute in Hq. discriminate Hq.
Defined.

Lemma pid_alloc_unique_witness :
  ∃ pid m', pid_alloc pid_init = Ok (pid, m') ∧
    ((valid_pid pid ∧ pid ∉ (∅ : gset Z)) ∨ (pid = - EAGAIN ∧ ∀ q, valid_pid q → q ∈ (∅ : gset Z))).
Proof. apply (pid_alloc_unique pid_init ∅). constructor. Defined.

Lemma pid_free_exact_witness : ∃ m', pid_free 1 pid_init = Ok m' ∧ pid_used m' 1 = false.
Proof.
  destruct (pid_free_exact pid_init 1 pid_init_wf) as [_ H].
  destruct (H ltac:(done)) as (m' & E & _ & Hq & _). exists m'. split; [exact E|].
  rewrite Hq by done. apply andb_false_r.
Defined.
