(* ===== verification/Sched.v ===== *)
(** * Tasks, the ready queue and the scheduler ([kernel/sched/sched.c],
      [kernel/sched/process.c], [include/kernel/sched/process.h])

    The task structures live in a store indexed by address, so that [procs],
    [current] and the ready queue share them as the C pointers do. The ready
    queue is an intrusive list over the interface of [ListHead]; a queue node is
    the address of the task plus the offset of its [ready_queue_node] field. *)

From stdpp Require Import base gmap list.
From S2P Require Import Prelude ListHead Pid.
Local Open Scope Z_scope.
Local Open Scope kernel_scope.

Definition TASK_RUNNING : Z := 0.
Definition TASK_INTERRUPTIBLE : Z := 1.
Definition TASK_UNINTERRUPTIBLE : Z := 2.
Definition TASK_DEAD : Z := 128.
Definition NPROC : nat := 32.

(** [sigset_t] is an array of 16 words of 64 bits. *)
Abbreviation sigset_t := (list Z).

Record sigaction := SigAction {
  sa_handler : Z;
  sa_mask : sigset_t;
  sa_flags : Z;
  sa_restorer : Z;
}.

(** The list links [children], [sibling] and [ready_queue_node] are in the list
    store; the other fields are here. *)
Record task_struct := Task {
  kstack : Z;
  trapframe : Z;
  ktrapframe : Z;
  mm : Z;
  fs : Z;
  fdtable_ptr : Z;
  pid : Z;
  state : Z;
  flags : Z;
  parent : Z;
  tick_count : Z;
  pending : sigset_t;
  blocked : sigset_t;
  saved_sigmask : sigset_t;
  sighand : list sigaction;
  signal_flags : Z;
  exit_signal : Z;
  uid : Z;
  euid : Z;
  gid : Z;
  egid : Z;
}.

Definition set_ktrapframe (v : Z) (t : task_struct) : task_struct :=
  Task (kstack t) (trapframe t) v (mm t) (fs t) (fdtable_ptr t) (pid t) (state t) (flags t)
    (parent t) (tick_count t) (pending t) (blocked t) (saved_sigmask t) (sighand t)
    (signal_flags t) (exit_signal t) (uid t) (euid t) (gid t) (egid t).

(** The array of 64 actions and the 16-word set, all zero ([memset]). *)
Definition sigset_zero : sigset_t := repeat 0 16.
Definition sigaction_zero : sigaction := SigAction 0 sigset_zero 0 0.
Definition task_zero : task_struct :=
  Task 0 0 0 0 0 0 0 0 0 0 0 sigset_zero sigset_zero sigset_zero
    (repeat sigaction_zero 64) 0 0 0 0 0 0.

(** [offsetof(struct task_struct, ready_queue_node)]: six pointers, three
    32-bit fields and padding, [parent], and the two list heads before it. *)
Definition RQ_OFFSET : Z := 104.
Definition TASK_SIZE : Z := 10272.
Definition TRAPFRAME_SIZE : Z := 288.

Section Scheduler.
Context {H : Type} {IL : IntrusiveList H} {A : Type} {KM : KMalloc A}.

(** [ready_queue] is the address of the queue's head; [NCPU] is 1, so there is
    one [current]. *)
Record sched := Sched {
  tasks : gmap Z task_struct;
  procs : list Z;
  current : Z;
  ready_queue : Z;
  links : H;
  pids : pid_manager;
  heap : A;
}.

Definition set_tasks (ts : gmap Z task_struct) (s : sched) : sched :=
  Sched ts (procs s) (current s) (ready_queue s) (links s) (pids s) (heap s).
Definition set_procs (ps : list Z) (s : sched) : sched :=
  Sched (tasks s) ps (current s) (ready_queue s) (links s) (pids s) (heap s).
Definition set_current (c : Z) (s : sched) : sched :=
  Sched (tasks s) (procs s) c (ready_queue s) (links s) (pids s) (heap s).
Definition set_links (h : H) (s : sched) : sched :=
  Sched (tasks s) (procs s) (current s) (ready_queue s) h (pids s) (heap s).
Definition set_pids (p : pid_manager) (s : sched) : sched :=
  Sched (tasks s) (procs s) (current s) (ready_queue s) (links s) p (heap s).
Definition set_heap (a : A) (s : sched) : sched :=
  Sched (tasks s) (procs s) (current s) (ready_queue s) (links s) (pids s) a.

(** [*p] for a task pointer. *)
Definition task_at (p : Z) (s : sched) : outcome task_struct := of_option (tasks s !! p).

Definition init_scheduler (s : sched) : outcome sched :=
  let! h := il_init (ready_queue s) (links s) in
  Ok (set_procs (repeat 0 NPROC) (set_pids pid_init (set_links h s))).

(** The loop of [alloc_empty_process] over the slots [ps], which start at [i]. *)
Fixpoint alloc_empty_process_loop (ps : list Z) (i : nat) (s : sched) : outcome (Z * sched) :=
  match ps with
  | [] => Panic
  | p :: ps =>
      if p =? 0 then
        let (addr, a) := kmalloc TASK_SIZE (heap s) in
        if addr =? 0 then Fault (* memset through the null pointer *)
        else
          Ok (addr, set_heap a (set_procs (<[i := addr]> (procs s))
                     (set_tasks (<[addr := task_zero]> (tasks s)) s)))
      else alloc_empty_process_loop ps (S i) s
  end.

Definition alloc_empty_process (s : sched) : outcome (Z * sched) :=
  alloc_empty_process_loop (procs s) 0 s.

Definition insert_to_ready_queue (proc : Z) (s : sched) : outcome sched :=
  let! _ := task_at proc s in
  let! h := il_add (proc + RQ_OFFSET) (ready_queue s) (links s) in
  Ok (set_links h s).

(** How [schedule] leaves: back in the kernel context saved in a trap frame, or
    in user mode on behalf of a task. *)
Inductive resumption :=
| KernelContext (ktrapframe : Z)
| UserMode (task : Z).

Definition switch_to (proc : Z) (s : sched) : outcome (resumption * sched) :=
  if proc =? 0 then Panic
  else
    let s := set_current proc s in
    let! t := task_at proc s in
    if (trapframe t =? 0) || (mm t =? 0) then Fault
    else Ok (UserMode proc, s).

Definition save_context (cur : Z) (s : sched) : outcome sched :=
  if cur =? 0 then Ok s
  else
    let! t := task_at cur s in
    if ((state t =? TASK_INTERRUPTIBLE) || (state t =? TASK_UNINTERRUPTIBLE))
       && (ktrapframe t =? 0) then
      let (f, a) := kmalloc TRAPFRAME_SIZE (heap s) in
      if f =? 0 then Fault (* store_all_registers(NULL) *)
      else Ok (set_heap a (set_tasks (<[cur := set_ktrapframe f t]> (tasks s)) s))
    else Ok s.

Definition schedule (s : sched) : outcome (resumption * sched) :=
  let cur := current s in
  let! s := save_context cur s in
  let! n := il_first (ready_queue s) (links s) in
  let s := set_current (n - RQ_OFFSET) s in
  let! n := il_first (ready_queue s) (links s) in
  let! h := il_del_init n (links s) in
  let s := set_links h s in
  let! t := task_at cur s in
  let! _ := task_at (current s) s in
  if negb (ktrapframe t =? 0) then
    Ok (KernelContext (ktrapframe t),
        set_heap (kfree (ktrapframe t) (heap s))
          (set_tasks (<[cur := set_ktrapframe 0 t]> (tasks s)) s))
  else switch_to cur s.

Fixpoint find_process_loop (pid' : Z) (ps : list Z) (s : sched) : outcome Z :=
  match ps with
  | [] => Ok 0
  | p :: ps =>
      if p =? 0 then find_process_loop pid' ps s
      else
        let! t := task_at p s in
        if pid t =? pid' then Ok p else find_process_loop pid' ps s
  end.

Definition find_process_by_pid (pid' : Z) (s : sched) : outcome Z :=
  if pid' <=? 0 then Ok 0 else find_process_loop pid' (procs s) s.

(** One pass of the [for] loop of [do_wait(-1)] over the slots [ps] from index
    [i]: the index of the first dead child of the task with pid [me], if any. *)
Fixpoint do_wait_scan (me : Z) (ps : list Z) (i : Z) (s : sched) : outcome (option Z) :=
  match ps with
  | [] => Ok None
  | p :: ps =>
      let! t := task_at p s in
      if parent t =? 0 then do_wait_scan me ps (i + 1) s
      else
        let! q := task_at (parent t) s in
        if (pid q =? me) && negb (Z.land (state t) TASK_DEAD =? 0) then Ok (Some i)
        else do_wait_scan me ps (i + 1) s
  end.

(** The [while (1)] around it: [None] when [fuel] passes found nothing. *)
Fixpoint do_wait_any (fuel : nat) (me : Z) (s : sched) : outcome (option Z) :=
  match fuel with
  | O => Ok None
  | S fuel =>
      let! r := do_wait_scan me (procs s) 0 s in
      match r with
      | Some i => Ok (Some i)
      | None => do_wait_any fuel me s
      end
  end.

Definition do_wait (fuel : nat) (pid' : Z) (s : sched) : outcome (option Z) :=
  if pid' =? -1 then
    let! c := task_at (current s) s in do_wait_any fuel (pid c) s
  else if (0 <? pid') && (pid' <? Z.of_nat NPROC) then
    let! p := of_option (procs s !! Z.to_nat pid') in
    let! t := task_at p s in
    if negb (parent t =? current s) then Ok (Some (-1))
    else if negb (Z.land (state t) TASK_DEAD =? 0) then Ok (Some pid')
    else Ok (Some pid')
  else Ok (Some (-1)).

(** ** Lemmas *)

Lemma alloc_loop_spec ps i s :
  (∀ k, (k < length ps)%nat → ps !! k ≠ Some 0) ∧ alloc_empty_process_loop ps i s = Panic ∨
  ∃ k, ps !! k = Some 0 ∧ (∀ j, (j < k)%nat → ps !! j ≠ Some 0) ∧
    alloc_empty_process_loop ps i s =
      let (addr, a) := kmalloc TASK_SIZE (heap s) in
      if addr =? 0 then Fault
      else Ok (addr, set_heap a (set_procs (<[(i + k)%nat := addr]> (procs s))
                      (set_tasks (<[addr := task_zero]> (tasks s)) s))).
Proof.
  revert i. induction ps as [|p ps IH]; intros i; simpl; [left; split; [lia|done]|].
  destruct (Z.eqb_spec p 0) as [->|Hp].
  - right. exists 0%nat. split_and!; [done|lia|]. by rewrite Nat.add_0_r.
  - destruct (IH (S i)) as [[Hk E]|(k & Hk & Hj & E)]; [left|right].
    + split; [|done]. intros [|k] Hlt; simpl; [congruence|apply Hk; lia].
    + exists (S k). split_and!; [done| |].
      * intros [|j] Hlt; simpl; [congruence|apply Hj; lia].
      * by rewrite Nat.add_succ_r.
Qed.

(** [p] is the first slot of [ps] whose task has the pid looked for. *)
Definition first_with_pid (pid' : Z) (ps : list Z) (s : sched) (p : Z) : Prop :=
  ∃ k t, ps !! k = Some p ∧ p ≠ 0 ∧ tasks s !! p = Some t ∧ pid t = pid' ∧
    ∀ j q u, (j < k)%nat → ps !! j = Some q → tasks s !! q = Some u → q ≠ 0 → pid u ≠ pid'.

Lemma find_loop_spec pid' ps s :
  (∀ p, p ∈ ps → p ≠ 0 → is_Some (tasks s !! p)) →
  (∃ p, find_process_loop pid' ps s = Ok p ∧ first_with_pid pid' ps s p) ∨
  (find_process_loop pid' ps s = Ok 0 ∧
   ∀ p t, p ∈ ps → p ≠ 0 → tasks s !! p = Some t → pid t ≠ pid').
Proof.
  induction ps as [|p ps IH]; intros Hin; simpl; [right; split; [done|set_solver]|].
  destruct IH as [(r & E & k & t & Hk & Hr & Ht & Hp & Hj)|[E Hn]]; [set_solver| |];
    (destruct (Z.eqb_spec p 0) as [->|Hp0];
     [|destruct (Hin p) as [u Hu]; [set_solver|done|];
       unfold task_at; rewrite Hu; simpl; destruct (Z.eqb_spec (pid u) pid') as [Hpu|Hpu]]).
  2,5: left; exists p; split; [done|]; exists 0%nat, u; split_and!; [done..|lia].
  1,2: left; exists r; split; [done|]; exists (S k), t; split_and!; [done..|];
    intros [|j] q v Hlt Hq Hv Hq0; simpl in Hq; [congruence|apply (Hj j q v); [lia|done..]].
  1,2: right; split; [done|]; intros q v Hq Hq0 Hv; apply elem_of_cons in Hq as [->|Hq];
    [congruence|by eapply Hn].
Qed.

Lemma save_context_spec s t :
  current s ≠ 0 → tasks s !! current s = Some t →
  (∀ n, fst (kmalloc n (heap s)) ≠ 0) →
  ∃ s' t', save_context (current s) s = Ok s' ∧ tasks s' !! current s = Some t' ∧
    links s' = links s ∧ ready_queue s' = ready_queue s ∧ current s' = current s ∧
    procs s' = procs s ∧ pids s' = pids s ∧ trapframe t' = trapframe t ∧ mm t' = mm t ∧
    (∀ p, p ≠ current s → tasks s' !! p = tasks s !! p) ∧
    (ktrapframe t' = 0 ↔
       ktrapframe t = 0 ∧ state t ≠ TASK_INTERRUPTIBLE ∧ state t ≠ TASK_UNINTERRUPTIBLE) ∧
    (ktrapframe t ≠ 0 → ktrapframe t' = ktrapframe t).
Proof.
  intros Hc Ht Hk. unfold save_context, task_at. rewrite (proj2 (Z.eqb_neq _ _) Hc), Ht. simpl.
  destruct (_ && _) eqn:E.
  - specialize (Hk TRAPFRAME_SIZE). destruct (kmalloc _ _) as [f a]. simpl in Hk.
    rewrite (proj2 (Z.eqb_neq _ _) Hk). eexists _, (set_ktrapframe f t). simpl.
    bool_props. apply orb_prop in H0.
    split; [done|]. unfold set_heap, set_tasks; cbn [tasks]. split; [apply lookup_insert_eq|]. do 7 (split; [done|]).
    split; [intros; by rewrite lookup_insert_ne|]. split; [|done]. split; [done|].
    intros (_ & ? & ?). destruct H0 as [?%Z.eqb_eq|?%Z.eqb_eq]; done.
  - exists s, t. do 10 (split; [done|]). split; [|done]. split; [|tauto]. intros Hkt. split; [done|].
    rewrite Hkt, andb_true_r in E. bool_props. done.
Qed.

End Scheduler.

Arguments sched : clear implicits.

(** ** Properties *)

Section Properties.
Context {H : Type} {IL : IntrusiveList H} {A : Type} {KM : KMalloc A}.

(** The ready queue is last-in first-out: [insert_to_ready_queue] puts the
    task's node in front of the queue, so it is the one [schedule] takes next. *)
Theorem insert_to_ready_queue_lifo (s : sched H A) proc l :
  rep (links s) (ready_queue s) l → is_Some (tasks s !! proc) →
  proc + RQ_OFFSET ∉ ready_queue s :: l → live (links s) (proc + RQ_OFFSET) →
  ∃ s', insert_to_ready_queue proc s = Ok s' ∧
    rep (links s') (ready_queue s') (proc + RQ_OFFSET :: l) ∧
    il_first (ready_queue s') (links s') = Ok (proc + RQ_OFFSET) ∧
    tasks s' = tasks s ∧ current s' = current s.
Proof.
  intros Hr [t Ht] Hn Hl. unfold insert_to_ready_queue, task_at. rewrite Ht. simpl.
  destruct (il_add_ok _ _ _ _ Hr Hn Hl) as (h & E & Hr'). rewrite E. simpl.
  eexists; split; [done|]. split_and!; [done| |done..]. by apply (il_first_ok _ _ _ Hr').
Qed.

(** [schedule] removes the first task of the ready queue but resumes its
    caller: a runnable caller is sent back to user mode and stays [current]; a
    blocked caller (or one that has a saved kernel context) gets its own context
    back. The task taken from the queue is never resumed and no longer queued. *)
Theorem schedule_resumes_caller (s : sched H A) t n l :
  rep (links s) (ready_queue s) (n :: l) →
  current s ≠ 0 → tasks s !! current s = Some t → is_Some (tasks s !! (n - RQ_OFFSET)) →
  trapframe t ≠ 0 → mm t ≠ 0 → (∀ k, fst (kmalloc k (heap s)) ≠ 0) →
  ∃ r s', schedule s = Ok (r, s') ∧ rep (links s') (ready_queue s') l ∧
    (ktrapframe t = 0 ∧ state t ≠ TASK_INTERRUPTIBLE ∧ state t ≠ TASK_UNINTERRUPTIBLE →
       r = UserMode (current s) ∧ current s' = current s ∧ tasks s' = tasks s) ∧
    (ktrapframe t ≠ 0 ∨ state t = TASK_INTERRUPTIBLE ∨ state t = TASK_UNINTERRUPTIBLE →
       ∃ f, r = KernelContext f ∧ f ≠ 0 ∧ (ktrapframe t ≠ 0 → f = ktrapframe t) ∧
         current s' = n - RQ_OFFSET).
Proof.
  intros Hr Hc Ht [u Hu] Htf Hmm Hk.
  destruct (save_context_spec s t Hc Ht Hk) as (s1 & t1 & E1 & Ht1 & El & Erq & Ec & Ep & Epi & Etf & Emm & Eo & Hk0 & Hk1).
  unfold schedule. rewrite E1. cbn [obind]. rewrite El, Erq.
  assert (il_first (ready_queue s) (links s) = Ok n) as Ef by apply (il_first_ok _ _ _ Hr).
  rewrite Ef. cbn [obind]. unfold set_current; cbn [ready_queue links].
  rewrite Erq, El, Ef. cbn [obind].
  destruct (il_del_init_ok _ _ [] n l Hr) as (h & E & Hr' & _). rewrite E. cbn [obind].
  unfold task_at, set_links; cbn [tasks current]. rewrite Ht1. cbn [of_option obind].
  assert (is_Some (tasks s1 !! (n - RQ_OFFSET))) as [v Hv].
  { destruct (Z.eq_dec (n - RQ_OFFSET) (current s)) as [->|]; [by rewrite Ht1|].
    rewrite Eo by done. by rewrite Hu. }
  rewrite Hv. cbn [of_option obind].
  destruct (Z.eqb_spec (ktrapframe t1) 0) as [Hz|Hnz]; cbn [negb].
  - unfold switch_to. rewrite (proj2 (Z.eqb_neq _ _) Hc).
    unfold task_at, set_current; cbn [tasks]. rewrite Ht1. cbn [of_option obind].
    rewrite Etf, Emm, (proj2 (Z.eqb_neq _ _) Htf), (proj2 (Z.eqb_neq _ _) Hmm). cbn [orb].
    eexists _, _. split; [done|]. cbn [links ready_queue current tasks]. split; [done|].
    apply Hk0 in Hz as Hz'. split; [|tauto]. intros _. split_and!; [done..|].
    unfold save_context, task_at in E1. rewrite (proj2 (Z.eqb_neq _ _) Hc), Ht in E1. simpl in E1.
    destruct Hz' as (_ & N1 & N2). apply Z.eqb_neq in N1, N2. rewrite N1, N2 in E1. simpl in E1.
    by injection E1 as <-.
  - eexists _, _. split; [done|]. cbn [links ready_queue current]. split; [done|].
    split; [intros Hx; by apply Hk0 in Hx|]. intros _. exists (ktrapframe t1). by split_and!.
Qed.

(** [find_process_by_pid] is a sound and complete search of the process table:
    it returns the first occupied slot whose task has the pid asked for, and
    [NULL] exactly when the pid is not positive or no slot has it. *)
Theorem find_process_by_pid_correct (s : sched H A) pid' :
  (∀ p, p ∈ procs s → p ≠ 0 → is_Some (tasks s !! p)) →
  (∃ p, find_process_by_pid pid' s = Ok p ∧ 0 < pid' ∧ first_with_pid pid' (procs s) s p) ∨
  (find_process_by_pid pid' s = Ok 0 ∧
   (pid' ≤ 0 ∨ ∀ p t, p ∈ procs s → p ≠ 0 → tasks s !! p = Some t → pid t ≠ pid')).
Proof.
  intros Hin. unfold find_process_by_pid. destruct (Z.leb_spec pid' 0); [by right; auto|].
  destruct (find_loop_spec pid' (procs s) s Hin) as [(p & E & Hf)|[E Hn]]; [left|right]; eauto.
Qed.

(** [alloc_empty_process] takes the first empty slot of the table, stores a
    zeroed task structure there and leaves every other slot and task alone; it
    panics exactly when the table is full. *)
Theorem alloc_empty_process_first_slot (s : sched H A) :
  let (addr, a) := kmalloc TASK_SIZE (heap s) in
  addr ≠ 0 →
  (alloc_empty_process s = Panic ∧ 0 ∉ procs s) ∨
  ∃ k s', procs s !! k = Some 0 ∧ (∀ j, (j < k)%nat → procs s !! j ≠ Some 0) ∧
    alloc_empty_process s = Ok (addr, s') ∧ procs s' = <[k := addr]> (procs s) ∧
    tasks s' = <[addr := task_zero]> (tasks s) ∧ heap s' = a ∧ links s' = links s.
Proof.
  destruct (kmalloc _ _) as [addr a] eqn:Ek. intros Ha. unfold alloc_empty_process.
  destruct (alloc_loop_spec (procs s) 0 s) as [[Hk E]|(k & Hk & Hj & E)]; [left|right].
  - split; [done|]. intros [k Hk']%list_elem_of_lookup. apply (Hk k); [|done].
    by eapply lookup_lt_Some.
  - rewrite Ek in E. rewrite (proj2 (Z.eqb_neq _ _) Ha) in E. exists k. eexists. by split_and!.
Qed.

(** [do_wait(-1)] dereferences the pointer of an empty slot: unless a dead
    child sits in the slots before it, the first [NULL] of the process table makes
    the call fault instead of waiting. *)
Theorem do_wait_any_faults (s : sched H A) fuel c k :
  tasks s !! current s = Some c → tasks s !! 0 = None →
  procs s !! k = Some 0 →
  (∀ p, p ∈ take k (procs s) → ∃ t, tasks s !! p = Some t ∧ parent t = 0) →
  do_wait (S fuel) (-1) s = Fault.
Proof.
  intros Hc H0 Hk Hp. unfold do_wait, task_at. cbn [Z.eqb]. rewrite Hc. cbn -[do_wait_scan].
  assert (∀ ps i k, ps !! k = Some 0 →
    (∀ p, p ∈ take k ps → ∃ t, tasks s !! p = Some t ∧ parent t = 0) →
    do_wait_scan (pid c) ps i s = Fault) as Hs; [|by rewrite (Hs _ _ _ Hk Hp)].
  clear Hk Hp. induction ps as [|p ps IH]; intros i [|j] Hk Hp; simpl in *; try done.
  - injection Hk as ->. unfold task_at. by rewrite H0.
  - destruct (Hp p) as (t & Ht & Hpt); [set_solver|]. unfold task_at. rewrite Ht. simpl.
    rewrite Hpt. simpl. apply (IH (i + 1) j); [done|]. intros q Hq. apply Hp. set_solver.
Qed.
End Properties.

(** ** A small machine: task 2000 runs, task 3000 is queued, the table has room. *)

Definition sample_task (p : Z) : task_struct :=
  Task 0 4096 0 8192 0 0 p 0 0 0 0 sigset_zero sigset_zero sigset_zero
    (repeat sigaction_zero 64) 0 0 0 0 0 0.

Definition sample_links : store :=
  list_to_map [(1000, ListHead 3104 3104); (3104, ListHead 1000 1000); (2104, ListHead 2104 2104)].

Definition sample_sched : sched store Z :=
  Sched (list_to_map [(2000, sample_task 1); (3000, sample_task 2)])
    (2000 :: 3000 :: repeat 0 30) 2000 1000 sample_links pid_init 65536.

Lemma sample_queue : dll sample_links 1000 [3104].
Proof. split; [apply (bool_decide_unpack _); vm_compute; exact I | by repeat split]. Qed.

Lemma sample_fresh : 2000 + RQ_OFFSET ∉ [1000; 3104].
Proof. apply (bool_decide_unpack _). vm_compute. exact I. Qed.

Lemma insert_to_ready_queue_lifo_witness :
  ∃ s', insert_to_ready_queue 2000 sample_sched = Ok s' ∧ dll (links s') 1000 [2104; 3104].
Proof.
  destruct (insert_to_ready_queue_lifo sample_sched 2000 [3104]) as (s' & E & Hr & _).
  - exact sample_queue.
  - by eexists.
  - exact sample_fresh.
  - by eexists.
  - exists s'. split; [exact E|]. vm_compute in E. injection E as <-. exact Hr.
Defined.

Lemma schedule_resumes_caller_witness :
  ∃ r s', schedule sample_sched = Ok (r, s') ∧ r = UserMode 2000 ∧ dll (links s') (ready_queue s') [].
Proof.
  destruct (schedule_resumes_caller sample_sched (sample_task 1) 3104 [])
    as (r & s' & E & Hr & Hu & _).
  - exact sample_queue.
  - done.
  - done.
  - by eexists.
  - done.
  - done.
  - done.
  - exists r, s'. split; [exact E|]. split; [apply Hu; done | exact Hr].
Defined.

Lemma sample_procs_ok p :
  p ∈ procs sample_sched → p ≠ 0 → is_Some (tasks sample_sched !! p).
Proof.
  intros Hp Hn. simpl in Hp. apply elem_of_cons in Hp as [->|Hp]; [by eexists|].
  apply elem_of_cons in Hp as [->|Hp]; [by eexists|].
  repeat (apply elem_of_cons in Hp as [->|Hp]; [done|]). by apply elem_of_nil in Hp.
Qed.

Lemma find_process_by_pid_correct_witness : find_process_by_pid 2 sample_sched = Ok 3000.
Proof.
  destruct (find_process_by_pid_correct sample_sched 2 sample_procs_ok) as [(p & E & _)|[E _]].
  - rewrite E. vm_compute in E. by injection E as <-.
  - vm_compute in E. discriminate E.
Defined.

Lemma alloc_empty_process_first_slot_witness :
  ∃ s', alloc_empty_process sample_sched = Ok (65536, s') ∧ procs s' !! 2%nat = Some 65536.
Proof.
  destruct (alloc_empty_process_first_slot sample_sched) as [[E _]|(k & s' & _ & _ & E & _)].
  - done.
  - vm_compute in E. discriminate E.
  - exists s'. split; [exact E|]. vm_compute in E. injection E as <-. reflexivity.
Defined.

Lemma do_wait_any_faults_witness : do_wait 5 (-1) sample_sched = Fault.
Proof.
  apply (do_wait_any_faults sample_sched 4 (sample_task 1) 2); [done..|].
  intros p Hp. simpl in Hp. apply elem_of_cons in Hp as [->|Hp]; [by eexists|].
  apply elem_of_cons in Hp as [->|Hp]; [by eexists|]. by apply elem_of_nil in Hp.
Defined.
