(* ===== verification/Signal.v ===== *)
(** * Signals ([kernel/sched/signal.c], [include/kernel/sched/signal.h])

    Signal sets as arrays of words, and the signal operations on the tasks of
    [Sched]. A pointer argument that may be [NULL] is an [option]; the messages
    printed on delivery are the events the operations return. *)

From stdpp Require Import base gmap list.
From S2P Require Import Prelude ListHead Pid Sched.
Local Open Scope Z_scope.
Local Open Scope kernel_scope.

Definition SIGQUIT : Z := 3.
Definition SIGILL : Z := 4.
Definition SIGABRT : Z := 6.
Definition SIGBUS : Z := 7.
Definition SIGFPE : Z := 8.
Definition SIGKILL : Z := 9.
Definition SIGSEGV : Z := 11.
Definition SIGTERM : Z := 15.
Definition SIGSTOP : Z := 19.
Definition SIGTSTP : Z := 20.
Definition SIGTTIN : Z := 21.
Definition SIGTTOU : Z := 22.
Definition _NSIG : Z := 64.
Definition NSIG : Z := 65.
Definition SIG_DFL : Z := 0.
Definition SIG_IGN : Z := 1.
Definition SIG_BLOCK : Z := 0.
Definition SIG_UNBLOCK : Z := 1.
Definition SIG_SETMASK : Z := 2.

(** ** Signal sets *)

Definition sigemptyset (set : option sigset_t) : Z * option sigset_t :=
  match set with
  | None => (- EINVAL, None)
  | Some _ => (0, Some (repeat 0 16))
  end.

Definition sigfillset (set : option sigset_t) : Z * option sigset_t :=
  match set with
  | None => (- EINVAL, None)
  | Some _ => (0, Some (repeat (2 ^ 64 - 1) 16))
  end.

Definition sig_invalid (signo : Z) : bool := (signo <=? 0) || (NSIG <=? signo).

(** [(signo - 1) / (8 * sizeof(uint64))] and the bit in that word. *)
Definition sig_word (signo : Z) : nat := Z.to_nat ((signo - 1) / 64).
Definition sig_bit (signo : Z) : Z := Z.shiftl 1 ((signo - 1) mod 64).

Definition sigaddset (set : option sigset_t) (signo : Z) : Z * option sigset_t :=
  match set with
  | None => (- EINVAL, None)
  | Some s =>
      if sig_invalid signo then (- EINVAL, Some s)
      else (0, Some (alter (λ w, Z.lor w (sig_bit signo)) (sig_word signo) s))
  end.

Definition sigdelset (set : option sigset_t) (signo : Z) : Z * option sigset_t :=
  match set with
  | None => (- EINVAL, None)
  | Some s =>
      if sig_invalid signo then (- EINVAL, Some s)
      else (0, Some (alter (λ w, Z.land w (Z.lnot (sig_bit signo))) (sig_word signo) s))
  end.

Definition sigismember (set : option sigset_t) (signo : Z) : Z :=
  match set with
  | None => - EINVAL
  | Some s =>
      if sig_invalid signo then - EINVAL
      else
        match s !! sig_word signo with
        | Some w => if Z.land w (sig_bit signo) =? 0 then 0 else 1
        | None => 0
        end
  end.

(** [sigaddset(&s, n)] and [sigdelset(&s, n)] on a variable [s], the result ignored. *)
Definition add_to (s : sigset_t) (signo : Z) : sigset_t :=
  default s (snd (sigaddset (Some s) signo)).
Definition del_from (s : sigset_t) (signo : Z) : sigset_t :=
  default s (snd (sigdelset (Some s) signo)).

Definition set_pending (v : sigset_t) (t : task_struct) : task_struct :=
  Task (kstack t) (trapframe t) (ktrapframe t) (mm t) (fs t) (fdtable_ptr t) (pid t) (state t)
    (flags t) (parent t) (tick_count t) v (blocked t) (saved_sigmask t) (sighand t)
    (signal_flags t) (exit_signal t) (uid t) (euid t) (gid t) (egid t).
Definition set_blocked (v : sigset_t) (t : task_struct) : task_struct :=
  Task (kstack t) (trapframe t) (ktrapframe t) (mm t) (fs t) (fdtable_ptr t) (pid t) (state t)
    (flags t) (parent t) (tick_count t) (pending t) v (saved_sigmask t) (sighand t)
    (signal_flags t) (exit_signal t) (uid t) (euid t) (gid t) (egid t).
Definition set_sighand (v : list sigaction) (t : task_struct) : task_struct :=
  Task (kstack t) (trapframe t) (ktrapframe t) (mm t) (fs t) (fdtable_ptr t) (pid t) (state t)
    (flags t) (parent t) (tick_count t) (pending t) (blocked t) (saved_sigmask t) v
    (signal_flags t) (exit_signal t) (uid t) (euid t) (gid t) (egid t).

(** The messages of the delivery code. *)
Inductive event :=
| Killed (pid : Z) (sig : Z)
| Terminated (pid : Z) (sig : Z)
| Stopped (pid : Z) (sig : Z)
| Handled (pid : Z) (sig : Z).

(** ** Operations *)

Section Operations.
Context {H : Type} {A : Type}.
Implicit Types s : sched H A.

Definition update_task (p : Z) (t : task_struct) (s : sched H A) : sched H A :=
  set_tasks (<[p := t]> (tasks s)) s.

Definition do_send_signal (pid' sig : Z) (s : sched H A) : outcome (Z * list event * sched H A) :=
  if (sig <=? 0) || (NSIG <=? sig) then Ok (- EINVAL, [], s)
  else
    let! p := (if pid' =? 0 then Ok (current s) else find_process_by_pid pid' s) in
    if p =? 0 then Ok (- ESRCH, [], s)
    else
      let! t := task_at p s in
      if (sig =? SIGKILL) || (sig =? SIGSTOP) then
        if sig =? SIGKILL then Ok (0, [Killed (pid t) sig], s)
        else Ok (0, [Stopped (pid t) sig], s)
      else Ok (0, [], update_task p (set_pending (add_to (pending t) sig) t) s).

(** [oldact] says whether the caller passed a place for the old action; the
    second result is what is stored there. *)
Definition do_sigaction (sig : Z) (act : option sigaction) (oldact : bool) (s : sched H A)
    : outcome (Z * option sigaction * sched H A) :=
  let p := current s in
  if p =? 0 then Ok (- ESRCH, None, s)
  else if (sig <=? 0) || (NSIG <=? sig) then Ok (- EINVAL, None, s)
  else if (sig =? SIGKILL) || (sig =? SIGSTOP) then Ok (- EINVAL, None, s)
  else
    let! t := task_at p s in
    let! cur := of_option (sighand t !! Z.to_nat (sig - 1)) in
    let old := if oldact then Some cur else None in
    match act with
    | Some a =>
        Ok (0, old, update_task p (set_sighand (<[Z.to_nat (sig - 1) := a]> (sighand t)) t) s)
    | None => Ok (0, old, s)
    end.

Definition do_sigprocmask (how : Z) (set : option sigset_t) (oldset : bool) (s : sched H A)
    : outcome (Z * option sigset_t * sched H A) :=
  let p := current s in
  if p =? 0 then Ok (- ESRCH, None, s)
  else
    let! t := task_at p s in
    let old := if oldset then Some (blocked t) else None in
    match set with
    | None => Ok (0, old, s)
    | Some set =>
        let new_blocked :=
          if how =? SIG_BLOCK then Some (zip_with Z.lor (blocked t) set)
          else if how =? SIG_UNBLOCK then
            Some (zip_with (λ b w, Z.land b (Z.lnot w)) (blocked t) set)
          else if how =? SIG_SETMASK then Some set
          else None in
        match new_blocked with
        | None => Ok (- EINVAL, old, s)
        | Some nb =>
            let nb := del_from nb SIGKILL in
            let nb := del_from nb SIGSTOP in
            Ok (0, old, update_task p (set_blocked nb t) s)
        end
    end.

Definition do_kill (pid' sig : Z) (s : sched H A) : outcome (Z * list event * sched H A) :=
  if 0 <? pid' then do_send_signal pid' sig s
  else if pid' =? 0 then do_send_signal 0 sig s
  else if pid' =? -1 then do_send_signal 0 sig s
  else do_send_signal 0 sig s.

(** The [switch] on the default action of a signal. *)
Definition default_action (p sig : Z) : list event :=
  if bool_decide (sig ∈ [SIGTERM; SIGKILL; SIGSEGV; SIGBUS; SIGILL; SIGFPE; SIGQUIT; SIGABRT])
  then [Terminated p sig]
  else if bool_decide (sig ∈ [SIGSTOP; SIGTSTP; SIGTTIN; SIGTTOU]) then [Stopped p sig]
  else [].

(** The loop of [do_signal_delivery] from [sig] on, [n] iterations left: what it
    prints and the task it leaves. *)
Fixpoint delivery_loop (n : nat) (sig : Z) (t : task_struct) : outcome (list event * task_struct) :=
  match n with
  | O => Ok ([], t)
  | S n =>
      if negb (sigismember (Some (pending t)) sig =? 0)
         && (sigismember (Some (blocked t)) sig =? 0) then
        let t := set_pending (del_from (pending t) sig) t in
        let! a := of_option (sighand t !! Z.to_nat (sig - 1)) in
        if sa_handler a =? SIG_IGN then delivery_loop n (sig + 1) t
        else if sa_handler a =? SIG_DFL then
          let! (ev, t') := delivery_loop n (sig + 1) t in
          Ok (default_action (pid t) sig ++ ev, t')
        else Ok ([Handled (pid t) sig], t)
      else delivery_loop n (sig + 1) t
  end.

Definition do_signal_delivery (s : sched H A) : outcome (list event * sched H A) :=
  let p := current s in
  if p =? 0 then Ok ([], s)
  else
    let! t := task_at p s in
    let! (ev, t') := delivery_loop 64 1 t in
    Ok (ev, update_task p t' s).

Definition do_sigsuspend (mask : option sigset_t) (s : sched H A) : outcome (Z * sched H A) :=
  let p := current s in
  match mask with
  | Some mask =>
      if p =? 0 then Ok (- EINVAL, s)
      else
        let! t := task_at p s in
        let old_blocked := blocked t in
        let t := set_blocked mask t in
        let t := set_blocked (del_from (blocked t) SIGKILL) t in
        let t := set_blocked (del_from (blocked t) SIGSTOP) t in
        let t := set_blocked old_blocked t in
        Ok (- EINTR, update_task p t s)
  | None => Ok (- EINVAL, s)
  end.

(** *** System calls

    [U] is the memory of the user. [get_action] and [get_set] copy a structure from it,
    [None] when that fails; [put_action] and [put_set] copy to it, [true] when that fails. *)

Definition sys_kill (pid' sig : Z) (s : sched H A) : outcome (Z * list event * sched H A) := do_kill pid' sig s.

Definition sys_sigaction {U : Type} (get_action : U → Z → option sigaction) (put_action : U → Z → sigaction → bool * U)
    (sig act_user oldact_user : Z) (u : U) (s : sched H A) : outcome (Z * U * sched H A) :=
  match (if act_user =? 0 then Some None else Some <$> get_action u act_user) with
  | None => Ok (- EFAULT, u, s)
  | Some act =>
      let! (ret, old, s) := do_sigaction sig act (negb (oldact_user =? 0)) s in
      if (ret =? 0) && negb (oldact_user =? 0) then
        let! kernel_oldact := of_option old in
        let '(failed, u) := put_action u oldact_user kernel_oldact in
        if failed then Ok (- EFAULT, u, s) else Ok (ret, u, s)
      else Ok (ret, u, s)
  end.

Definition sys_sigprocmask {U : Type} (get_set : U → Z → option sigset_t) (put_set : U → Z → sigset_t → bool * U)
    (how set_user oldset_user : Z) (u : U) (s : sched H A) : outcome (Z * U * sched H A) :=
  match (if set_user =? 0 then Some None else Some <$> get_set u set_user) with
  | None => Ok (- EFAULT, u, s)
  | Some set =>
      let! (ret, old, s) := do_sigprocmask how set (negb (oldset_user =? 0)) s in
      if (ret =? 0) && negb (oldset_user =? 0) then
        let! kernel_oldset := of_option old in
        let '(failed, u) := put_set u oldset_user kernel_oldset in
        if failed then Ok (- EFAULT, u, s) else Ok (ret, u, s)
      else Ok (ret, u, s)
  end.

Definition sys_sigsuspend {U : Type} (get_set : U → Z → option sigset_t) (mask_user : Z) (u : U) (s : sched H A) : outcome (Z * sched H A) :=
  if mask_user =? 0 then Ok (- EFAULT, s)
  else
    match get_set u mask_user with
    | None => Ok (- EFAULT, s)
    | Some kernel_mask => do_sigsuspend (Some kernel_mask) s
    end.

End Operations.

(** ** Sets as sets *)

Definition valid_sig (n : Z) : Prop := 1 ≤ n ≤ 64.

Definition sigset_wf (s : sigset_t) : Prop :=
  length s = 16%nat ∧ Forall (λ w, 0 ≤ w < 2 ^ 64) s.

(** Membership of a signal number. *)
Definition sig_in (s : sigset_t) (n : Z) : bool :=
  match s !! sig_word n with
  | Some w => Z.testbit w ((n - 1) mod 64)
  | None => false
  end.

Lemma sig_valid n : valid_sig n → sig_invalid n = false ∧ sig_word n = 0%nat ∧ (n - 1) mod 64 = n - 1.
Proof.
  unfold valid_sig, sig_invalid, sig_word, NSIG. intros Hn. split_and!; [| |apply Z.mod_small; lia].
  - apply orb_false_intro; apply Z.leb_gt; lia.
  - rewrite Z.div_small by lia. done.
Qed.

Lemma sig_invalid_spec n : sig_invalid n = true ↔ ~ valid_sig n.
Proof.
  unfold sig_invalid, valid_sig, NSIG. split; [intros [?%Z.leb_le|?%Z.leb_le]%orb_prop; lia|].
  intros ?. apply orb_true_iff. rewrite !Z.leb_le. lia.
Qed.

Lemma sigset_word s : sigset_wf s → ∃ w, s !! 0%nat = Some w ∧ 0 ≤ w < 2 ^ 64.
Proof.
  intros [Hl Hf]. destruct s as [|w s]; [done|]. exists w. split; [done|].
  by apply Forall_cons in Hf as [? _].
Qed.

Lemma add_to_in s n m :
  sigset_wf s → valid_sig n → valid_sig m → sig_in (add_to s n) m = sig_in s m || (m =? n).
Proof.
  intros Hs Hn Hm. destruct (sigset_word s Hs) as (w & Ew & _).
  destruct (sig_valid n Hn) as (En & Ewn & Ebn), (sig_valid m Hm) as (_ & Ewm & Ebm).
  unfold add_to, sigaddset, sig_in. rewrite En, Ewn, Ewm. simpl.
  rewrite list_lookup_alter, Ew. simpl. unfold sig_bit.
  unfold valid_sig in *. rewrite Ebn, Ebm, testbit_set by lia. f_equal.
  apply Bool.eq_iff_eq_true. rewrite !Z.eqb_eq. lia.
Qed.

Lemma del_from_in s n m :
  sigset_wf s → valid_sig n → valid_sig m →
  sig_in (del_from s n) m = sig_in s m && negb (m =? n).
Proof.
  intros Hs Hn Hm. destruct (sigset_word s Hs) as (w & Ew & _).
  destruct (sig_valid n Hn) as (En & Ewn & Ebn), (sig_valid m Hm) as (_ & Ewm & Ebm).
  unfold del_from, sigdelset, sig_in. rewrite En, Ewn, Ewm. simpl.
  rewrite list_lookup_alter, Ew. simpl. unfold sig_bit.
  unfold valid_sig in *. rewrite Ebn, Ebm, testbit_clear by lia. f_equal. f_equal.
  apply Bool.eq_iff_eq_true. rewrite !Z.eqb_eq. lia.
Qed.

Lemma sigismember_in s n :
  sigset_wf s → valid_sig n → sigismember (Some s) n = if sig_in s n then 1 else 0.
Proof.
  intros Hs Hn. destruct (sigset_word s Hs) as (w & Ew & _).
  destruct (sig_valid n Hn) as (En & Ewn & Ebn). unfold sigismember, sig_in.
  rewrite En, Ewn, Ew. unfold sig_bit. rewrite land_pow2_eqb by (rewrite Ebn; unfold valid_sig in Hn; lia).
  by destruct (Z.testbit _ _).
Qed.

Lemma alter_wf f s i :
  sigset_wf s → (∀ w, 0 ≤ w < 2 ^ 64 → 0 ≤ f w < 2 ^ 64) → sigset_wf (alter f i s).
Proof.
  intros [Hl Hf] Hw. split; [by rewrite length_alter|]. apply Forall_alter; [done|].
  intros x _ Hx. by apply Hw.
Qed.

Lemma add_to_wf s n : sigset_wf s → sigset_wf (add_to s n).
Proof.
  intros Hs. unfold add_to, sigaddset. split_if; [done|]. simpl. apply alter_wf; [done|].
  intros w Hw. apply word_lor; [lia|done|]. apply word_shiftl1, Z.mod_pos_bound. lia.
Qed.

Lemma del_from_wf s n : sigset_wf s → sigset_wf (del_from s n).
Proof.
  intros Hs. unfold del_from, sigdelset. split_if; [done|]. simpl. apply alter_wf; [done|].
  intros w Hw. apply word_land; [lia|done].
Qed.

Lemma zip_with_wf f s s' :
  sigset_wf s → sigset_wf s' →
  (∀ a b, 0 ≤ a < 2 ^ 64 → 0 ≤ b < 2 ^ 64 → 0 ≤ f a b < 2 ^ 64) → sigset_wf (zip_with f s s').
Proof.
  intros [Hl Hf] [Hl' Hf'] Hw. split; [rewrite length_zip_with; lia|].
  apply Forall_forall. intros w Hx. apply elem_of_lookup_zip_with in Hx as (i & a & b & -> & Ha & Hb).
  apply Hw; [exact (Forall_lookup_1 _ _ _ _ Hf Ha)|exact (Forall_lookup_1 _ _ _ _ Hf' Hb)].
Qed.

(** The word loops of [do_sigprocmask] are union and difference. *)
Lemma zip_with_in f g s s' n :
  sigset_wf s → sigset_wf s' → valid_sig n →
  (∀ a b i, 0 ≤ i → Z.testbit (f a b) i = g (Z.testbit a i) (Z.testbit b i)) →
  sig_in (zip_with f s s') n = g (sig_in s n) (sig_in s' n).
Proof.
  intros Hs Hs' Hn Hf. destruct (sigset_word s Hs) as (w & Ew & _), (sigset_word s' Hs') as (w' & Ew' & _).
  destruct (sig_valid n Hn) as (_ & Ewn & Ebn). unfold sig_in.
  rewrite Ewn, lookup_zip_with, Ew, Ew'. simpl. apply Hf. unfold valid_sig in Hn. lia.
Qed.

#[export] Hint Resolve add_to_wf del_from_wf : kernel.

(** ** Delivery against its specification *)

Definition task_wf (t : task_struct) : Prop :=
  sigset_wf (pending t) ∧ sigset_wf (blocked t) ∧ length (sighand t) = 64%nat.

Definition handler (t : task_struct) (n : Z) : Z :=
  default 0 (sa_handler <$> sighand t !! Z.to_nat (n - 1)).

Definition deliverable (t : task_struct) (n : Z) : bool :=
  sig_in (pending t) n && negb (sig_in (blocked t) n).

Definition has_handler (t : task_struct) (n : Z) : bool :=
  negb (handler t n =? SIG_IGN) && negb (handler t n =? SIG_DFL).

(** The signals taken out of [l] in order: all deliverable ones up to and
    including the first that has a handler. *)
Fixpoint taken (t : task_struct) (l : list Z) : list Z :=
  match l with
  | [] => []
  | n :: l =>
      if deliverable t n then if has_handler t n then [n] else n :: taken t l
      else taken t l
  end.

Definition message (t : task_struct) (n : Z) : list event :=
  if handler t n =? SIG_IGN then []
  else if handler t n =? SIG_DFL then default_action (pid t) n
  else [Handled (pid t) n].



(** [t'] is [t] with the signals [l] no longer pending. *)
Definition took (t t' : task_struct) (l : list Z) : Prop :=
  task_wf t' ∧ t' = set_pending (pending t') t ∧
  ∀ m, valid_sig m → sig_in (pending t') m = sig_in (pending t) m && bool_decide (m ∉ l).

Lemma taken_ext t t' l :
  (∀ n, n ∈ l → deliverable t' n = deliverable t n) → sighand t' = sighand t →
  taken t' l = taken t l.
Proof.
  intros Hd Hs. assert (∀ n, has_handler t' n = has_handler t n) as Hh
    by (intros; unfold has_handler, handler; by rewrite Hs).
  induction l as [|n l IH]; simpl; [done|]. rewrite Hd, Hh, IH by set_solver. done.
Qed.

Lemma taken_subset t l : taken t l ⊆ l.
Proof. induction l as [|n l IH]; simpl; [done|]. repeat split_if; set_solver. Qed.

Lemma task_handler t n :
  task_wf t → valid_sig n →
  ∃ a, sighand t !! Z.to_nat (n - 1) = Some a ∧ handler t n = sa_handler a.
Proof.
  intros (_ & _ & Hl) Hn. unfold valid_sig in Hn.
  destruct (lookup_lt_is_Some_2 (sighand t) (Z.to_nat (n - 1))) as [a Ha]; [lia|].
  exists a. unfold handler. by rewrite Ha.
Qed.

(** Taking one signal out of the pending set. *)
Lemma took_one t n :
  task_wf t → valid_sig n → took t (set_pending (del_from (pending t) n) t) [n].
Proof.
  intros (Hp & Hb & Hl) Hn. split; [split; [by apply del_from_wf|done]|]. split; [done|].
  intros m Hm. cbn [pending set_pending]. rewrite del_from_in by done. f_equal. apply Bool.eq_iff_eq_true.
  rewrite negb_true_iff, Z.eqb_neq, bool_decide_eq_true. set_solver.
Qed.

Lemma signal_took_trans t1 t2 t3 l1 l2 : took t1 t2 l1 → took t2 t3 l2 → took t1 t3 (l1 ++ l2).
Proof.
  intros (_ & E1 & H1) (Hw & E2 & H2). split; [done|]. split; [by rewrite E2, E1|].
  intros m Hm. rewrite H2, H1 by done. rewrite <-andb_assoc. f_equal.
  apply Bool.eq_iff_eq_true. rewrite andb_true_iff, !bool_decide_eq_true. set_solver.
Qed.

Lemma delivery_loop_spec n sig t :
  task_wf t → 1 ≤ sig → sig + Z.of_nat n ≤ 65 →
  ∃ ev t', delivery_loop n sig t = Ok (ev, t') ∧
    took t t' (taken t (seqZ sig (Z.of_nat n))) ∧ ev = taken t (seqZ sig (Z.of_nat n)) ≫= message t.
Proof.
  revert sig t. induction n as [|n IH]; intros sig t Hwf H1 H2.
  { eexists _, _. split; [done|]. split; [|done]. split; [done|].
    split; [by destruct t|]. intros m Hm. by rewrite andb_true_r. }
  pose proof Hwf as (Hp & Hb & _). assert (valid_sig sig) as Hv by (unfold valid_sig; lia).
  rewrite seqZ_cons by lia. replace (Z.pred (Z.of_nat (S n))) with (Z.of_nat n) by lia.
  replace (Z.succ sig) with (sig + 1) by lia.
  cbn [delivery_loop taken]. rewrite !sigismember_in by done.
  assert (negb ((if sig_in (pending t) sig then 1 else 0) =? 0) &&
    ((if sig_in (blocked t) sig then 1 else 0) =? 0) = deliverable t sig) as ->.
  { unfold deliverable. by repeat split_if. }
  destruct (deliverable t sig) eqn:Ed; [|apply IH; [done|lia..]].
  pose proof (took_one t sig Hwf Hv) as Ht. set (t1 := set_pending _ t) in *.
  destruct (task_handler t sig Hwf Hv) as (a & Ea & Eh).
  change (sighand t1) with (sighand t). rewrite Ea. cbn [of_option obind].
  assert (taken t1 (seqZ (sig + 1) (Z.of_nat n)) = taken t (seqZ (sig + 1) (Z.of_nat n))) as Et.
  { apply taken_ext; [|done]. intros m Hm%elem_of_seqZ. unfold deliverable.
    assert (valid_sig m) by (unfold valid_sig; lia). destruct Ht as (_ & _ & ->); [|done].
    rewrite bool_decide_true by (intros ->%list_elem_of_singleton; lia). by rewrite andb_true_r. }
  destruct (IH (sig + 1) t1) as (ev & t' & E & Ht' & Hev); [apply Ht|lia..|]. rewrite Et in *.
  unfold has_handler. rewrite Eh.
  destruct (sa_handler a =? SIG_IGN) eqn:EI; [|destruct (sa_handler a =? SIG_DFL) eqn:ED].
  - exists ev, t'. cbn [negb andb]. split; [done|]. split; [exact (signal_took_trans _ _ _ _ _ Ht Ht')|].
    rewrite Hev, bind_cons.
    assert (message t sig = []) as -> by (unfold message; by rewrite Eh, EI). done.
  - rewrite E. cbn [obind negb andb]. eexists _, t'. split; [done|].
    split; [exact (signal_took_trans _ _ _ _ _ Ht Ht')|].
    rewrite Hev, bind_cons. f_equal. unfold message. by rewrite Eh, EI, ED.
  - cbn [negb andb]. eexists _, t1. split; [done|]. split; [done|].
    rewrite bind_cons. unfold message. by rewrite Eh, EI, ED.
Qed.

(** ** The mask that is never allowed to hold SIGKILL or SIGSTOP *)

Definition unblockable (s : sigset_t) : Prop := sig_in s SIGKILL = false ∧ sig_in s SIGSTOP = false.

Lemma strip_unblockable s :
  sigset_wf s → let s' := del_from (del_from s SIGKILL) SIGSTOP in
  sigset_wf s' ∧ unblockable s' ∧
  ∀ n, valid_sig n → n ≠ SIGKILL → n ≠ SIGSTOP → sig_in s' n = sig_in s n.
Proof.
  intros Hs. assert (valid_sig SIGKILL ∧ valid_sig SIGSTOP) as [HK HS] by done.
  split; [by auto with kernel|]. split.
  - split; rewrite !del_from_in by auto with kernel; [|by rewrite andb_false_r].
    by rewrite andb_false_r.
  - intros n Hn N1 N2. rewrite !del_from_in by auto with kernel.
    by rewrite (proj2 (Z.eqb_neq _ _) N1), (proj2 (Z.eqb_neq _ _) N2), !andb_true_r.
Qed.

(** The mask [do_sigprocmask] computes before it strips the two signals. *)
Definition mask_spec (how : Z) (b w : bool) : bool :=
  if how =? SIG_BLOCK then b || w else if how =? SIG_UNBLOCK then b && negb w else w.

Section Invariants.
Context {H : Type} {A : Type}.
Implicit Types s : sched H A.

Lemma do_sigprocmask_ok s t how set old :
  current s ≠ 0 → tasks s !! current s = Some t → task_wf t → sigset_wf set →
  how = SIG_BLOCK ∨ how = SIG_UNBLOCK ∨ how = SIG_SETMASK →
  ∃ nb, do_sigprocmask how (Some set) old s =
      Ok (0, if old then Some (blocked t) else None,
          update_task (current s) (set_blocked nb t) s) ∧
    sigset_wf nb ∧ unblockable nb ∧
    ∀ n, valid_sig n → n ≠ SIGKILL → n ≠ SIGSTOP →
      sig_in nb n = mask_spec how (sig_in (blocked t) n) (sig_in set n).
Proof.
  intros Hc Ht (_ & Hb & _) Hs Hhow. unfold do_sigprocmask, task_at.
  rewrite (proj2 (Z.eqb_neq _ _) Hc), Ht. cbn [of_option obind].
  assert (∃ nb, (if how =? SIG_BLOCK then Some (zip_with Z.lor (blocked t) set)
     else if how =? SIG_UNBLOCK then Some (zip_with (λ b w, Z.land b (Z.lnot w)) (blocked t) set)
     else if how =? SIG_SETMASK then Some set else None) = Some nb ∧ sigset_wf nb ∧
     ∀ n, valid_sig n → sig_in nb n = mask_spec how (sig_in (blocked t) n) (sig_in set n))
    as (nb & -> & Hnb & Hin).
  { unfold mask_spec. destruct Hhow as [E|[E|E]]; rewrite E; simpl; eexists; (split; [done|]); split.
    - apply zip_with_wf; [done..|]. intros. apply word_lor; lia.
    - intros n Hn. apply (zip_with_in _ orb); [done..|]. intros. apply Z.lor_spec.
    - apply zip_with_wf; [done..|]. intros. apply word_land; lia.
    - intros n Hn. apply (zip_with_in _ (λ b w, b && negb w)); [done..|].
      intros. by rewrite Z.land_spec, Z.lnot_spec.
    - done.
    - done. }
  destruct (strip_unblockable nb Hnb) as (Hw & Hu & Hi).
  eexists. split; [done|]. split; [done|]. split; [done|]. intros n Hn N1 N2.
  rewrite Hi by done. by apply Hin.
Qed.

(** One signal operation of the kernel, whatever its arguments. *)
Inductive sig_step : sched H A → sched H A → Prop :=
| step_send p n s r ev s' : do_send_signal p n s = Ok (r, ev, s') → sig_step s s'
| step_kill p n s r ev s' : do_kill p n s = Ok (r, ev, s') → sig_step s s'
| step_action n a o s r old s' : do_sigaction n a o s = Ok (r, old, s') → sig_step s s'
| step_mask how set o s r old s' :
    match set with Some w => sigset_wf w | None => True end →
    do_sigprocmask how set o s = Ok (r, old, s') → sig_step s s'
| step_deliver s ev s' : do_signal_delivery s = Ok (ev, s') → sig_step s s'
| step_suspend mask s r s' : do_sigsuspend mask s = Ok (r, s') → sig_step s s'.

Definition masks_ok s : Prop :=
  ∀ p t, tasks s !! p = Some t → task_wf t ∧ unblockable (blocked t).

Lemma masks_ok_update s p t :
  masks_ok s → task_wf t → unblockable (blocked t) → masks_ok (update_task p t s).
Proof.
  intros Hs Hw Hu q u Hq. unfold update_task, set_tasks in Hq. cbn [tasks] in Hq.
  apply lookup_insert_Some in Hq as [[-> <-]|[_ Hq]]; [done|by apply (Hs q)].
Qed.

Lemma task_at_ok s p t : task_at p s = Ok t → tasks s !! p = Some t.
Proof. unfold task_at. destruct (tasks s !! p); simpl; congruence. Qed.

Lemma send_masks_ok p n s r ev s' :
  do_send_signal p n s = Ok (r, ev, s') → masks_ok s → masks_ok s'.
Proof.
  unfold do_send_signal. intros E Hs. split_if; [by inv_ok; simplify_eq|].
  apply obind_Ok in E as (q & _ & E). split_if; [by inv_ok; simplify_eq|].
  apply obind_Ok in E as (t & Ht%task_at_ok & E). repeat split_if; inv_ok; simplify_eq; try done.
  destruct (Hs q t Ht) as [(Hp & Hb & Hl) Hu].
  apply masks_ok_update; [done| |done]. split; [by apply add_to_wf|done].
Qed.

Lemma mask_masks_ok how set o s r old s' :
  match set with Some w => sigset_wf w | None => True end →
  do_sigprocmask how set o s = Ok (r, old, s') → masks_ok s → masks_ok s'.
Proof.
  unfold do_sigprocmask. intros Hset E Hs. destruct (Z.eqb_spec (current s) 0); [by inv_ok; simplify_eq|].
  apply obind_Ok in E as (t & Ht%task_at_ok & E). destruct set as [set|]; [|by inv_ok; simplify_eq].
  destruct (Hs _ t Ht) as [Hwt Hu].
  destruct (decide (how = SIG_BLOCK ∨ how = SIG_UNBLOCK ∨ how = SIG_SETMASK)) as [Hhow|Hn].
  - destruct (do_sigprocmask_ok s t how set o) as (nb & E' & Hnb & Hun & _); [done..|].
    unfold do_sigprocmask, task_at in E'.
    rewrite (proj2 (Z.eqb_neq _ _) n), Ht in E'. cbn [of_option obind] in E'.
    rewrite E in E'. injection E' as -> -> ->.
    apply masks_ok_update; [done| |done]. destruct Hwt as (? & _ & ?). by split_and!.
  - assert (how ≠ SIG_BLOCK ∧ how ≠ SIG_UNBLOCK ∧ how ≠ SIG_SETMASK) as (N1 & N2 & N3) by tauto.
    apply Z.eqb_neq in N1, N2, N3. rewrite N1, N2, N3 in E. by inv_ok; simplify_eq.
Qed.

Lemma deliver_masks_ok s ev s' :
  do_signal_delivery s = Ok (ev, s') → masks_ok s → masks_ok s'.
Proof.
  unfold do_signal_delivery. intros E Hs. split_if; [by inv_ok; simplify_eq|].
  apply obind_Ok in E as (t & Ht%task_at_ok & E). destruct (Hs _ t Ht) as [Hw Hu].
  destruct (delivery_loop_spec 64 1 t Hw) as (ev1 & t1 & E1 & (Hw1 & Ht1 & _) & _); [lia..|].
  rewrite E1 in E. cbn [obind] in E. injection E as <- <-.
  apply masks_ok_update; [done..|]. by rewrite Ht1.
Qed.

Lemma suspend_id s t mask :
  current s ≠ 0 → tasks s !! current s = Some t →
  do_sigsuspend (Some mask) s = Ok (- EINTR, s).
Proof.
  intros Hc Ht. unfold do_sigsuspend, task_at.
  rewrite (proj2 (Z.eqb_neq _ _) Hc), Ht. cbn [of_option obind]. do 2 f_equal.
  unfold update_task, set_tasks. cbn.
  assert (set_blocked (blocked t) t = t) as Hid by (by destruct t).
  unfold set_blocked in Hid |- *. cbn. rewrite Hid. rewrite insert_id by done. by destruct s.
Qed.

Lemma sig_step_masks s s' : sig_step s s' → masks_ok s → masks_ok s'.
Proof.
  destruct 1 as [p n s r ev s' E|p n s r ev s' E|n a o s r old s' E|how set o s r old s' Hset E
                |s ev s' E|mask s r s' E].
  - by eapply send_masks_ok.
  - unfold do_kill in E. repeat split_if; by eapply send_masks_ok.
  - unfold do_sigaction in E. intros Hs. repeat split_if; try (by inv_ok; simplify_eq).
    all: apply obind_Ok in E as (t & Ht%task_at_ok & E);
      apply obind_Ok in E as (cur & _ & E); destruct a; inv_ok; simplify_eq; try done;
      destruct (Hs _ t Ht) as [(Hp & Hb & Hl) Hu];
      apply masks_ok_update; [done| |done]; split_and!; [done..|]; cbn; by rewrite length_insert.
  - by eapply mask_masks_ok.
  - by eapply deliver_masks_ok.
  - intros Hs. destruct mask as [mask|]; [|unfold do_sigsuspend in E; by inv_ok; simplify_eq].
    destruct (Z.eq_dec (current s) 0) as [Hz|Hnz].
    + unfold do_sigsuspend in E. rewrite Hz in E. simpl in E. by inv_ok; simplify_eq.
    + destruct (tasks s !! current s) as [t|] eqn:Ht.
      * rewrite (suspend_id s t mask Hnz Ht) in E. by injection E as _ <-.
      * unfold do_sigsuspend, task_at in E. rewrite (proj2 (Z.eqb_neq _ _) Hnz), Ht in E. done.
Qed.

(** The system calls make these steps or change nothing. *)
Lemma sys_sigaction_step {U} get put n a o (u : U) s r u' s' :
  sys_sigaction get put n a o u s = Ok (r, u', s') → s' = s ∨ sig_step s s'.
Proof.
  unfold sys_sigaction. destruct (if a =? 0 then _ else _) as [act|]; [|intros [= _ _ <-]; by left]. intros E.
  apply obind_Ok in E as ([[ret old] s1] & E1 & E). right. apply step_action in E1.
  destruct ((ret =? 0) && _); [|by injection E as _ _ <-]. apply obind_Ok in E as (k & _ & E).
  destruct (put u o k) as [[] u1]; by injection E as _ _ <-.
Qed.

Lemma sys_sigprocmask_step {U} get put how set o (u : U) s r u' s' :
  (∀ p w, get u p = Some w → sigset_wf w) → sys_sigprocmask get put how set o u s = Ok (r, u', s') → s' = s ∨ sig_step s s'.
Proof.
  intros Hg. unfold sys_sigprocmask. destruct (if set =? 0 then _ else _) as [w|] eqn:Ew; [|intros [= _ _ <-]; by left]. intros E.
  assert (match w with Some w => sigset_wf w | None => True end) as Hw.
  { destruct (set =? 0); [by injection Ew as <-|]. destruct (get u set) eqn:Eg; [|done]. injection Ew as <-. by apply (Hg set). }
  apply obind_Ok in E as ([[ret old] s1] & E1 & E). right. apply step_mask in E1; [|done].
  destruct ((ret =? 0) && _); [|by injection E as _ _ <-]. apply obind_Ok in E as (k & _ & E).
  destruct (put u o k) as [[] u1]; by injection E as _ _ <-.
Qed.

Lemma sys_sigsuspend_step {U} get p (u : U) s r s' : sys_sigsuspend get p u s = Ok (r, s') → s' = s ∨ sig_step s s'.
Proof.
  unfold sys_sigsuspend. destruct (p =? 0); [intros [= _ <-]; by left|]. destruct (get u p) as [w|]; [|intros [= _ <-]; by left].
  intros E. right. by eapply step_suspend.
Qed.

End Invariants.

(** ** Properties *)

(** The signal-set operations are set operations: on a well-formed set
    [sigaddset] and [sigdelset] change the membership of exactly the signal named,
    [sigismember] reads it, and all three return [-EINVAL] and change nothing for a
    null set or a signal outside 1..64. *)
Theorem sigset_algebra s n :
  sigset_wf s →
  (valid_sig n →
   (∃ s', sigaddset (Some s) n = (0, Some s') ∧ sigset_wf s' ∧
      ∀ m, valid_sig m → sigismember (Some s') m = if m =? n then 1 else sigismember (Some s) m) ∧
   (∃ s', sigdelset (Some s) n = (0, Some s') ∧ sigset_wf s' ∧
      ∀ m, valid_sig m → sigismember (Some s') m = if m =? n then 0 else sigismember (Some s) m)) ∧
  (~ valid_sig n →
   sigaddset (Some s) n = (- EINVAL, Some s) ∧ sigdelset (Some s) n = (- EINVAL, Some s) ∧
   sigismember (Some s) n = - EINVAL) ∧
  sigaddset None n = (- EINVAL, None) ∧ sigdelset None n = (- EINVAL, None) ∧
  sigismember None n = - EINVAL.
Proof.
  intros Hs. split; [|split; [|done]].
  - intros Hn. destruct (sig_valid n Hn) as [En _]. split.
    + exists (add_to s n). split; [unfold add_to, sigaddset; by rewrite En|].
      split; [by apply add_to_wf|]. intros m Hm.
      rewrite !sigismember_in, add_to_in by auto with kernel.
      destruct (m =? n); [by rewrite orb_true_r|by rewrite orb_false_r].
    + exists (del_from s n). split; [unfold del_from, sigdelset; by rewrite En|].
      split; [by apply del_from_wf|]. intros m Hm.
      rewrite !sigismember_in, del_from_in by auto with kernel.
      destruct (m =? n); [by rewrite andb_false_r|by rewrite andb_true_r].
  - intros Hn%sig_invalid_spec. unfold sigaddset, sigdelset, sigismember. by rewrite Hn.
Qed.

(** [do_sigprocmask] computes the POSIX mask: with a valid [how] the blocked set
    becomes the union with, the difference from, or the set passed, except that
    SIGKILL and SIGSTOP are never in it; the old mask is returned when asked for,
    and nothing but the caller's mask changes. An unknown [how] changes nothing. *)
Theorem do_sigprocmask_posix {H A : Type} (s : sched H A) t how set (old : bool) :
  current s ≠ 0 → tasks s !! current s = Some t → task_wf t → sigset_wf set →
  let oldmask := if old then Some (blocked t) else None in
  (how = SIG_BLOCK ∨ how = SIG_UNBLOCK ∨ how = SIG_SETMASK →
   ∃ nb, do_sigprocmask how (Some set) old s =
       Ok (0, oldmask, update_task (current s) (set_blocked nb t) s) ∧ sigset_wf nb ∧
     ∀ n, valid_sig n → sig_in nb n =
       mask_spec how (sig_in (blocked t) n) (sig_in set n)
       && negb (n =? SIGKILL) && negb (n =? SIGSTOP)) ∧
  (how ≠ SIG_BLOCK ∧ how ≠ SIG_UNBLOCK ∧ how ≠ SIG_SETMASK →
   do_sigprocmask how (Some set) old s = Ok (- EINVAL, oldmask, s)).
Proof.
  intros Hc Ht Hw Hs oldmask. split.
  - intros Hhow. destruct (do_sigprocmask_ok s t how set old Hc Ht Hw Hs Hhow) as (nb & E & Hnb & [Hk Hst] & Hi).
    exists nb. split_and!; [done|apply Hnb..|]. intros n Hn.
    destruct (Z.eqb_spec n SIGKILL) as [->|N1]; [by rewrite andb_false_r|].
    destruct (Z.eqb_spec n SIGSTOP) as [->|N2]; [by rewrite andb_false_r|].
    rewrite !andb_true_r. by apply Hi.
  - intros (N1 & N2 & N3). unfold do_sigprocmask, task_at.
    rewrite (proj2 (Z.eqb_neq _ _) Hc), Ht. cbn [of_option obind].
    by rewrite (proj2 (Z.eqb_neq _ _) N1), (proj2 (Z.eqb_neq _ _) N2), (proj2 (Z.eqb_neq _ _) N3).
Qed.

(** C40. Whatever sequence of signal operations runs, no task ever has SIGKILL or
    SIGSTOP in its blocked set, and the signal state of every task stays
    well-formed. *)
Theorem sigkill_never_blocked {H A : Type} (s s' : sched H A) :
  rtc sig_step s s' → masks_ok s → masks_ok s'.
Proof. induction 1; [done|]. eauto using sig_step_masks. Qed.

(** Delivery: [do_signal_delivery] takes, in increasing order, the pending
    signals that are not blocked, up to and including the first one with a handler
    of its own; exactly those leave the pending set, ignored ones silently and the
    others with the message of their default action or handler; nothing else of
    the task, and no other task, changes. *)
Theorem do_signal_delivery_spec {H A : Type} (s : sched H A) t :
  current s ≠ 0 → tasks s !! current s = Some t → task_wf t →
  ∃ t' : task_struct, let l := taken t (seqZ 1 64) in
    do_signal_delivery s = Ok (l ≫= message t, update_task (current s) t' s) ∧
    t' = set_pending (pending t') t ∧ sigset_wf (pending t') ∧
    ∀ n, valid_sig n → sig_in (pending t') n = sig_in (pending t) n && bool_decide (n ∉ l).
Proof.
  intros Hc Ht Hw. unfold do_signal_delivery, task_at.
  rewrite (proj2 (Z.eqb_neq _ _) Hc), Ht. cbn [of_option obind].
  destruct (delivery_loop_spec 64 1 t Hw) as (ev & t' & E & ((Hp & _) & Ht' & Hi) & Hev); [lia..|].
  rewrite E. cbn [obind]. exists t'. cbn zeta. subst ev. split; [done|]. split; [done|]. split; [done|exact Hi].
Qed.

(** Sending: [do_kill] with a positive pid and a signal other than SIGKILL and
    SIGSTOP adds exactly that signal to the pending set of the first task with that
    pid; it returns [-ESRCH] when no task has it and [-EINVAL] for a signal outside
    1..64, and then changes nothing. *)
Theorem do_kill_targets {H A : Type} (s : sched H A) pid' n :
  0 < pid' → (∀ p, p ∈ procs s → p ≠ 0 → ∃ t, tasks s !! p = Some t ∧ task_wf t) →
  (~ valid_sig n → do_kill pid' n s = Ok (- EINVAL, [], s)) ∧
  (valid_sig n → n ≠ SIGKILL → n ≠ SIGSTOP →
   (do_kill pid' n s = Ok (- ESRCH, [], s) ∧
      ∀ p t, p ∈ procs s → p ≠ 0 → tasks s !! p = Some t → pid t ≠ pid') ∨
   ∃ p t pend, first_with_pid pid' (procs s) s p ∧ tasks s !! p = Some t ∧
     do_kill pid' n s = Ok (0, [], update_task p (set_pending pend t) s) ∧ sigset_wf pend ∧
     ∀ m, valid_sig m → sig_in pend m = sig_in (pending t) m || (m =? n)).
Proof.
  intros Hp Hin. unfold do_kill, do_send_signal. rewrite (proj2 (Z.ltb_lt _ _) Hp).
  fold (sig_invalid n). split.
  - intros Hn%sig_invalid_spec. by rewrite Hn.
  - intros Hn N1 N2. destruct (sig_valid n Hn) as [-> _].
    rewrite (proj2 (Z.eqb_neq pid' 0)) by lia. unfold find_process_by_pid.
    rewrite (proj2 (Z.leb_gt _ _) Hp).
    destruct (find_loop_spec pid' (procs s) s) as [(p & E & Hf)|[E Hno]].
    { intros p Hpi Hp0. destruct (Hin p Hpi Hp0) as (t & Ht & _). by rewrite Ht. }
    + pose proof Hf as (k & t & Hk & Hp0 & Ht & _). rewrite E. cbn [obind].
      rewrite (proj2 (Z.eqb_neq _ _) Hp0). unfold task_at. rewrite Ht. cbn [of_option obind].
      rewrite (proj2 (Z.eqb_neq _ _) N1), (proj2 (Z.eqb_neq _ _) N2). cbn [orb]. right.
      destruct (Hin p) as (u & Hu & Hw & _); [by eapply list_elem_of_lookup_2|done|].
      rewrite Ht in Hu. injection Hu as <-.
      exists p, t, (add_to (pending t) n). split; [done|]. split; [done|]. split; [done|].
      split; [by apply add_to_wf|]. intros m Hm. by apply add_to_in.
    + rewrite E. cbn [obind]. left. by split.
Qed.

(** Sending SIGKILL or SIGSTOP has no effect on any task: the call reports
    success and prints, but neither the pending set nor the state of the target
    changes. *)
Theorem sigkill_has_no_effect {H A : Type} (s s' : sched H A) pid' n r ev :
  n = SIGKILL ∨ n = SIGSTOP → do_kill pid' n s = Ok (r, ev, s') → s' = s.
Proof.
  intros Hn E.
  assert (∀ p, do_send_signal p n s = Ok (r, ev, s') → s' = s) as Hk.
  { intros p. unfold do_send_signal. destruct Hn as [-> | ->]; cbn -[find_process_by_pid task_at];
      intros E'; apply obind_Ok in E' as (q & _ & E'); split_if; inv_ok; simplify_eq; try done;
      apply obind_Ok in E' as (t & _ & E'); inv_ok; by simplify_eq. }
  unfold do_kill in E. repeat split_if; eauto.
Qed.

(** [do_sigsuspend] does not suspend: it returns [-EINTR] at once and leaves
    the whole state, the mask included, as it was. *)
Theorem do_sigsuspend_returns_at_once {H A : Type} (s : sched H A) t mask :
  current s ≠ 0 → tasks s !! current s = Some t →
  do_sigsuspend (Some mask) s = Ok (- EINTR, s) ∧ do_sigsuspend None s = Ok (- EINVAL, s).
Proof. intros Hc Ht. split; [by apply (suspend_id s t)|done]. Qed.

(** [do_sigaction] installs and reports actions: after a successful call with
    an action [a], asking for the action of the same signal gives [a] back and the
    actions of all other signals are unchanged; SIGKILL, SIGSTOP and signals
    outside 1..64 are refused. *)
Theorem do_sigaction_roundtrip {H A : Type} (s : sched H A) t n a :
  current s ≠ 0 → tasks s !! current s = Some t → task_wf t →
  (valid_sig n ∧ n ≠ SIGKILL ∧ n ≠ SIGSTOP →
   ∃ old s', sighand t !! Z.to_nat (n - 1) = Some old ∧
     do_sigaction n (Some a) true s = Ok (0, Some old, s') ∧
     do_sigaction n None true s' = Ok (0, Some a, s') ∧
     ∀ m, valid_sig m → m ≠ n → m ≠ SIGKILL → m ≠ SIGSTOP →
       ∃ b, do_sigaction m None true s = Ok (0, Some b, s) ∧
            do_sigaction m None true s' = Ok (0, Some b, s')) ∧
  (~ valid_sig n ∨ n = SIGKILL ∨ n = SIGSTOP →
   do_sigaction n (Some a) true s = Ok (- EINVAL, None, s)).
Proof.
  intros Hc Ht Hw. assert (∀ (s1 : sched H A) t1 m act, current s1 ≠ 0 →
    tasks s1 !! current s1 = Some t1 → task_wf t1 → valid_sig m → m ≠ SIGKILL → m ≠ SIGSTOP →
    ∃ b, sighand t1 !! Z.to_nat (m - 1) = Some b ∧
      do_sigaction m act true s1 = Ok (0, Some b,
        match act with
        | Some a => update_task (current s1) (set_sighand (<[Z.to_nat (m - 1) := a]> (sighand t1)) t1) s1
        | None => s1
        end)) as Hrun.
  { intros s1 t1 m act Hc1 Ht1 Hw1 Hm N1 N2. destruct (task_handler t1 m Hw1 Hm) as (b & Eb & _).
    exists b. split; [done|]. unfold do_sigaction, task_at. fold (sig_invalid m).
    rewrite (proj2 (Z.eqb_neq _ _) Hc1). destruct (sig_valid m Hm) as [-> _].
    rewrite (proj2 (Z.eqb_neq _ _) N1), (proj2 (Z.eqb_neq _ _) N2), Ht1. cbn [orb of_option obind].
    rewrite Eb. by destruct act. }
  split.
  - intros (Hn & N1 & N2). destruct (Hrun s t n (Some a) Hc Ht Hw Hn N1 N2) as (old & Eo & E).
    eexists old, _. split; [done|]. split; [exact E|].
    set (t' := set_sighand _ t). set (s' := update_task _ _ _).
    assert (tasks s' !! current s' = Some t') as Ht' by apply lookup_insert_eq.
    assert (task_wf t') as Hw'.
    { destruct Hw as (? & ? & ?). split_and!; [done..|]. cbn. by rewrite length_insert. }
    split.
    + destruct (Hrun s' t' n None Hc Ht' Hw' Hn N1 N2) as (b & Eb & E'). rewrite E'.
      cbn in Eb. rewrite list_lookup_insert_eq in Eb by (by eapply lookup_lt_Some).
      by injection Eb as <-.
    + intros m Hm Nm M1 M2. destruct (Hrun s t m None Hc Ht Hw Hm M1 M2) as (b & Eb & Em).
      exists b. split; [done|]. destruct (Hrun s' t' m None Hc Ht' Hw' Hm M1 M2) as (b' & Eb' & Em').
      rewrite Em'. cbn in Eb'. unfold valid_sig in *.
      rewrite list_lookup_insert_ne in Eb' by lia. by rewrite Eb in Eb'; injection Eb' as <-.
  - unfold do_sigaction. fold (sig_invalid n). rewrite (proj2 (Z.eqb_neq _ _) Hc).
    intros [Hn%sig_invalid_spec|Hn]; [by rewrite Hn|]. split_if; [done|].
    by destruct Hn as [-> | ->].
Qed.

(** ** The sample machine again *)

Lemma repeat_words w n : 0 ≤ w < 2 ^ 64 → Forall (λ x, 0 ≤ x < 2 ^ 64) (repeat w n).
Proof. intros Hw. induction n; constructor; auto. Qed.

Lemma sigset_zero_wf : sigset_wf sigset_zero.
Proof. split; [done|]. apply repeat_words. lia. Qed.

Lemma sample_task_wf p : task_wf (sample_task p).
Proof. split_and!; [apply sigset_zero_wf..|done]. Qed.

Lemma sample_tasks p t : tasks sample_sched !! p = Some t → t = sample_task 1 ∨ t = sample_task 2.
Proof.
  cbn. intros [[_ Ht]|[_ [[_ Ht]|[_ Ht]]%lookup_insert_Some]]%lookup_insert_Some; auto.
  by rewrite lookup_empty in Ht.
Qed.

Lemma sample_masks_ok : masks_ok sample_sched.
Proof. intros p t [-> | ->]%sample_tasks; (split; [apply sample_task_wf|done]). Qed.

Lemma sample_procs_wf p :
  p ∈ procs sample_sched → p ≠ 0 → ∃ t, tasks sample_sched !! p = Some t ∧ task_wf t.
Proof.
  intros Hp Hn. destruct (sample_procs_ok p Hp Hn) as [t Ht]. exists t. split; [done|].
  apply sample_tasks in Ht as [-> | ->]; apply sample_task_wf.
Qed.

(** The set that holds exactly SIGTERM. *)
Definition sample_set : sigset_t := 16384 :: repeat 0 15.

Lemma sample_set_wf : sigset_wf sample_set.
Proof. split; [done|]. apply Forall_cons. split; [lia|]. apply repeat_words. lia. Qed.

Lemma sigset_algebra_witness :
  ∃ s', sigaddset (Some sigset_zero) SIGTERM = (0, Some s') ∧ sigismember (Some s') SIGTERM = 1.
Proof.
  destruct (sigset_algebra sigset_zero SIGTERM sigset_zero_wf) as [Hv _].
  destruct Hv as [(s' & E & _ & Hm) _]; [by split|].
  exists s'. split; [exact E|]. apply (Hm SIGTERM). by split.
Defined.

Lemma do_sigprocmask_posix_witness :
  ∃ nb, do_sigprocmask SIG_BLOCK (Some (repeat (2 ^ 64 - 1) 16)) true sample_sched =
      Ok (0, Some sigset_zero, update_task 2000 (set_blocked nb (sample_task 1)) sample_sched) ∧
    sig_in nb SIGTERM = true ∧ sig_in nb SIGKILL = false.
Proof.
  destruct (do_sigprocmask_posix sample_sched (sample_task 1) SIG_BLOCK
    (repeat (2 ^ 64 - 1) 16) true) as [Hv _].
  - done.
  - done.
  - apply sample_task_wf.
  - split; [done|]. apply repeat_words. lia.
  - destruct Hv as (nb & E & _ & Hi); [by left|]. exists nb. split; [exact E|].
    split; rewrite Hi; done.
Defined.

Lemma sigkill_never_blocked_witness :
  ∃ s', rtc sig_step sample_sched s' ∧ s' ≠ sample_sched ∧ masks_ok s'.
Proof.
  eexists. match goal with |- ?P ∧ _ => assert P as Hr end.
  - eapply rtc_l; [|apply rtc_refl].
    eapply (step_mask SIG_SETMASK (Some sample_set) false sample_sched).
    + exact sample_set_wf.
    + vm_compute. reflexivity.
  - split; [exact Hr|]. split; [|by apply (sigkill_never_blocked _ _ Hr), sample_masks_ok].
    intros Hx. apply (f_equal (λ s, blocked <$> (tasks s !! 2000))) in Hx. vm_compute in Hx.
    discriminate Hx.
Defined.

(** The running task of the sample machine with SIGTERM pending. *)
Definition sample_pending : task_struct := set_pending sample_set (sample_task 1).

Lemma do_signal_delivery_spec_witness :
  ∃ t', do_signal_delivery (update_task 2000 sample_pending sample_sched) =
      Ok ([Terminated 1 SIGTERM],
          update_task 2000 t' (update_task 2000 sample_pending sample_sched)) ∧
    sig_in (pending t') SIGTERM = false.
Proof.
  destruct (do_signal_delivery_spec (update_task 2000 sample_pending sample_sched) sample_pending)
    as (t' & E & _ & _ & Hi).
  - done.
  - apply lookup_insert_eq.
  - split; [exact sample_set_wf|]. split; [exact sigset_zero_wf|done].
  - exists t'. split; [exact E|]. rewrite Hi by done. vm_compute. reflexivity.
Defined.

Lemma do_kill_targets_witness :
  ∃ pend, do_kill 2 SIGTERM sample_sched =
      Ok (0, [], update_task 3000 (set_pending pend (sample_task 2)) sample_sched) ∧
    sig_in pend SIGTERM = true.
Proof.
  destruct (do_kill_targets sample_sched 2 SIGTERM) as [_ Hv].
  - done.
  - exact sample_procs_wf.
  - destruct Hv as [[E _]|(p & t & pend & Hf & Ht & E & _ & Hi)]; [by split|done|done|..].
    + vm_compute in E. discriminate E.
    + destruct Hf as (k & t' & Hk & Hp & Ht' & Hpid & _).
      rewrite Ht in Ht'. injection Ht' as <-.
      assert (p = 3000) as ->.
      { apply list_elem_of_lookup_2 in Hk. cbn in Hk.
        apply elem_of_cons in Hk as [->|Hk]; [by injection Ht as <-|].
        apply elem_of_cons in Hk as [->|Hk]; [done|].
        repeat (apply elem_of_cons in Hk as [->|Hk]; [done|]). by apply elem_of_nil in Hk. }
      injection Ht as <-. exists pend. split; [exact E|]. rewrite Hi by done. done.
Defined.

Lemma sigkill_has_no_effect_witness :
  ∃ s', do_kill 2 SIGKILL sample_sched = Ok (0, [Killed 2 SIGKILL], s') ∧ s' = sample_sched.
Proof.
  eexists. split; [vm_compute; reflexivity|].
  eapply (sigkill_has_no_effect sample_sched _ 2 SIGKILL 0 [Killed 2 SIGKILL]); [by left|].
  vm_compute. reflexivity.
Defined.

Lemma do_sigsuspend_returns_at_once_witness :
  do_sigsuspend (Some sample_set) sample_sched = Ok (- EINTR, sample_sched).
Proof.
  apply (do_sigsuspend_returns_at_once sample_sched (sample_task 1) sample_set); done.
Defined.

Lemma do_sigaction_roundtrip_witness :
  ∃ s', do_sigaction SIGTERM (Some (SigAction 77 sigset_zero 0 0)) true sample_sched =
      Ok (0, Some sigaction_zero, s') ∧
    do_sigaction SIGTERM None true s' = Ok (0, Some (SigAction 77 sigset_zero 0 0), s').
Proof.
  destruct (do_sigaction_roundtrip sample_sched (sample_task 1) SIGTERM
    (SigAction 77 sigset_zero 0 0)) as [Hv _]; [done|done|apply sample_task_wf|].
  destruct Hv as (old & s' & Eo & E1 & E2 & _); [by split|].
  exists s'. injection Eo as <-. by split.
Defined.
