(* ===== verification/Process.v ===== *)
(** * Making processes ([kernel/sched/process.c], [kernel/sched/idle_task.c], [kernel/boot/kernel.c])

    [alloc_process] fills a task structure of the process table; the idle task and the first process are made with it
    and enter the ready queue. The tasks, the process table, the ready queue and the pids are those of [Sched]; address
    spaces, descriptor tables, file system contexts and the loader are modelled in their own files and
    come here as the interface [TaskParts]. [kframes] is the [epc] of the trap frames of kernel tasks.

    The semaphores of [kernel/semaphore.c], whose blocking operations are commented out, are at the end. *)

From stdpp Require Import base gmap list.
From S2P Require Import Prelude ListHead Pid Sched.

Local Open Scope Z_scope.
Local Open Scope kernel_scope.

Definition CHILDREN_OFFSET : Z := 72.
Definition SIBLING_OFFSET : Z := 88.
Definition PF_KTHREAD : Z := 2097152.
Definition SIG_DFL : Z := 0.

(** What a process is made of. [open_console] is [do_open("/dev/console", O_RDWR, 0)] with the descriptor table
    of the current task, [load_init] is [load_init_binary] with ["/sbin/init"], which may give the task an address space; [fd_array] says whether an entry of a
    table is in use. *)
Class TaskParts (W : Type) : Type := {
  user_alloc_mm : W → outcome (Z * W);
  fs_struct_create : W → outcome (Z * W);
  fs_struct_unref : Z → W → outcome W;
  fdtable_acquire : Z → W → outcome (Z * W);
  max_fds : Z → W → outcome Z;
  fd_array : Z → Z → W → outcome bool;
  fdtable_closeFd : Z → Z → W → outcome W;
  open_console : Z → W → outcome (Z * W);
  load_init : task_struct → W → outcome (Z * task_struct * W);
}.

Definition with_mm (m : Z) (t : task_struct) : task_struct :=
  Task (kstack t) (trapframe t) (ktrapframe t) m (fs t) (fdtable_ptr t) (pid t) (state t) (flags t) (parent t) (tick_count t)
    (pending t) (blocked t) (saved_sigmask t) (sighand t) (signal_flags t) (exit_signal t) (uid t) (euid t) (gid t) (egid t).

(** The calls return: opening a file gives a descriptor or an error, loading an image gives an error code and may set
    the address space of the task; [cap] is the size of a descriptor table, which closing a descriptor does not change. *)
Class TaskPartsSpec (W : Type) {TP : TaskParts W} : Type := {
  cap : Z → W → Z;
  open_returns f w : ∃ r w', open_console f w = Ok (r, w');
  load_returns t w : ∃ e m w', load_init t w = Ok (e, with_mm m t, w');
  max_fds_cap f w : max_fds f w = Ok (cap f w);
  fd_array_returns f fd w : ∃ b, fd_array f fd w = Ok b;
  close_returns f fd w : ∃ w', fdtable_closeFd f fd w = Ok w' ∧ ∀ g, cap g w' = cap g w;
  unref_returns x w : ∃ w', fs_struct_unref x w = Ok w';
}.

Section Process.
Context {A : Type} {KM : KMalloc A} {W : Type} {TP : TaskParts W}.

Record kernel := Kernel { sch : sched store A; parts : W; kframes : gmap Z Z }.

Definition with_sched (s : sched store A) (k : kernel) : kernel := Kernel s (parts k) (kframes k).
Definition with_parts (w : W) (k : kernel) : kernel := Kernel (sch k) w (kframes k).

(** [kmalloc(PAGE_SIZE) + PAGE_SIZE - 16] *)
Definition alloc_kernel_stack (s : sched store A) : Z * sched store A :=
  let (p, a) := kmalloc PAGE_SIZE (heap s) in (u64 (p + PAGE_SIZE - 16), set_heap a s).

Definition init_nodes (p : Z) (s : sched store A) : outcome (sched store A) :=
  let! h := INIT_LIST_HEAD (p + CHILDREN_OFFSET) (links s) in
  let! h := INIT_LIST_HEAD (p + SIBLING_OFFSET) h in
  let! h := INIT_LIST_HEAD (p + RQ_OFFSET) h in
  Ok (set_links h s).

(** The loop that sets the handlers. *)
Fixpoint default_actions (n : nat) (l : list sigaction) : list sigaction :=
  match n with
  | O => l
  | S n => alter (λ a, SigAction SIG_DFL (sa_mask a) (sa_flags a) (sa_restorer a)) n (default_actions n l)
  end.

Definition alloc_process (k : kernel) : outcome (Z * kernel) :=
  let! (ps, s) := alloc_empty_process (sch k) in
  let (kstack', s) := alloc_kernel_stack s in
  let (trapframe', a) := kmalloc TRAPFRAME_SIZE (heap s) in
  let s := set_heap a s in
  let! (mm', w) := user_alloc_mm (parts k) in
  let! (fs', w) := fs_struct_create w in
  let! (fdtable', w) := fdtable_acquire 0 w in
  let! (pid', m) := pid_alloc (pids s) in
  let s := set_pids m s in
  let! s := init_nodes ps s in
  let! t := task_at ps s in
  let t := Task kstack' trapframe' 0 mm' fs' fdtable' pid' (state t) (flags t) (parent t) 0
             sigset_zero sigset_zero (saved_sigmask t) (default_actions 64 (repeat sigaction_zero 64))
             (signal_flags t) (exit_signal t) (uid t) (euid t) (gid t) (egid t) in
  Ok (ps, Kernel (set_tasks (<[ps := t]> (tasks s)) s) w (kframes k)).

Definition free_process (proc : Z) : Z := 0.

Definition current_is_in_group (gid' : Z) (s : sched store A) : outcome Z :=
  let! task := task_at (current s) s in
  if egid task =? gid' then Ok 1 else Ok 0.

(** [idle_task] and [init_mm] are the addresses of the two static structures, [idle_loop] that of the function. *)
Definition init_idle_task (idle_task init_mm idle_loop : Z) (k : kernel) : outcome kernel :=
  let (kstack', s) := alloc_kernel_stack (sch k) in
  let (ktrapframe', a) := kmalloc TRAPFRAME_SIZE (heap s) in
  let s := set_heap a s in
  if ktrapframe' =? 0 then Fault (* memset through the null pointer *)
  else
    let! t := task_at idle_task s in
    let t := Task kstack' 0 ktrapframe' init_mm (fs t) (fdtable_ptr t) 0 TASK_RUNNING PF_KTHREAD (parent t) 0
               (pending t) (blocked t) (saved_sigmask t) (sighand t) (signal_flags t) (exit_signal t) (uid t) (euid t) (gid t) (egid t) in
    let s := set_tasks (<[idle_task := t]> (tasks s)) s in
    let! s := init_nodes idle_task s in
    let! s := insert_to_ready_queue idle_task s in
    Ok (Kernel s (parts k) (<[ktrapframe' := idle_loop]> (kframes k))).

(** One turn of [idle_loop]; [halt_cpu] waits for an interrupt. *)
Definition idle_turn (s : sched store A) : outcome (resumption * sched store A) := schedule s.

(** The loop of [setup_init_fds] from [fd] on, [n] turns. *)
Fixpoint open_loop (n : nat) (fd saved_task : Z) (k : kernel) : outcome (Z * kernel) :=
  match n with
  | O => Ok (0, with_sched (set_current saved_task (sch k)) k)
  | S n =>
      let! t := task_at (current (sch k)) (sch k) in
      let! (r, w) := open_console (fdtable_ptr t) (parts k) in
      let k := with_parts w k in
      if negb (fd =? r) then Ok (-1, with_sched (set_current saved_task (sch k)) k)
      else open_loop n (fd + 1) saved_task k
  end.

Definition setup_init_fds (init_task : Z) (k : kernel) : outcome (Z * kernel) :=
  let saved_task := current (sch k) in
  open_loop 3 0 saved_task (with_sched (set_current init_task (sch k)) k).

(** The loop of the failure path over the descriptors from [fd] on; the bound is read again in each turn. *)
Fixpoint close_loop (fuel : nat) (fdt fd : Z) (w : W) : outcome W :=
  let! n := max_fds fdt w in
  if fd <? n then
    match fuel with
    | O => Timeout
    | S fuel =>
        let! used := fd_array fdt fd w in
        let! w := (if used then fdtable_closeFd fdt fd w else Ok w) in
        close_loop fuel fdt (fd + 1) w
    end
  else Ok w.

Definition create_init_process (fuel : nat) (k : kernel) : outcome (Z * kernel) :=
  let! (init_task, k) := alloc_process k in
  if init_task =? 0 then Ok (- ENOMEM, k)
  else
    let! t := task_at init_task (sch k) in
    let t := Task (kstack t) (trapframe t) (ktrapframe t) (mm t) (fs t) (fdtable_ptr t) 1 (state t) (flags t) 0 (tick_count t)
               (pending t) (blocked t) (saved_sigmask t) (sighand t) (signal_flags t) (exit_signal t) (uid t) (euid t) (gid t) (egid t) in
    let k := with_sched (set_tasks (<[init_task := t]> (tasks (sch k))) (sch k)) k in
    let! (_, k) := setup_init_fds init_task k in
    let! (error, t, w) := load_init t (parts k) in
    let k := with_parts w (with_sched (set_tasks (<[init_task := t]> (tasks (sch k))) (sch k)) k) in
    if negb (error =? 0) then
      let! w := close_loop fuel (fdtable_ptr t) 0 (parts k) in
      let! w := fs_struct_unref (fs t) w in
      let _ := free_process init_task in
      Ok (error, with_parts w k)
    else
      let! s := insert_to_ready_queue init_task (sch k) in
      Ok (0, with_sched s k).

(** ** Lemmas *)

Definition nodes_of (p : Z) : list Z := [p + CHILDREN_OFFSET; p + SIBLING_OFFSET; p + RQ_OFFSET].

Lemma init_node_ok p h : is_Some (h !! p) → ∃ h', INIT_LIST_HEAD p h = Ok h' ∧ dll h' p [] ∧ same_outside [p] h h' ∧ (∀ q, is_Some (h !! q) → is_Some (h' !! q)).
Proof.
  intros Hp. destruct (INIT_LIST_HEAD_ok p h Hp) as (h' & E & HN & HP & Ho). exists h'. split; [done|].
  split; [apply dll_nil; rewrite ?HN, ?HP; by case_decide|]. split; [done|]. intros q Hq.
  destruct (decide (q = p)) as [->|Hne].
  - specialize (HN p). rewrite decide_True in HN by done. unfold nx in HN. by destruct (h' !! p).
  - rewrite (Ho q); [done|]. by rewrite list_elem_of_singleton.
Qed.

Lemma init_nodes_ok p (s : sched store A) :
  (∀ q, q ∈ nodes_of p → is_Some (links s !! q)) →
  ∃ h', init_nodes p s = Ok (set_links h' s) ∧ (∀ q, q ∈ nodes_of p → dll h' q []) ∧ same_outside (nodes_of p) (links s) h' ∧
    (∀ q, is_Some (links s !! q) → is_Some (h' !! q)).
Proof.
  intros Hl. unfold init_nodes, nodes_of, CHILDREN_OFFSET, SIBLING_OFFSET, RQ_OFFSET in *.
  destruct (init_node_ok (p + 72) (links s)) as (h1 & -> & D1 & F1 & L1); [apply Hl; set_solver|]. cbn [obind].
  destruct (init_node_ok (p + 88) h1) as (h2 & -> & D2 & F2 & L2); [apply L1, Hl; set_solver|]. cbn [obind].
  destruct (init_node_ok (p + 104) h2) as (h3 & -> & D3 & F3 & L3); [apply L2, L1, Hl; set_solver|]. cbn [obind].
  assert (dll h3 (p + 72) []) as E1.
  { apply (dll_frame [p + 104] h2); [done|intros x Hx; apply list_elem_of_singleton in Hx as ->; rewrite list_elem_of_singleton; lia|].
    apply (dll_frame [p + 88] h1); [done|intros x Hx; apply list_elem_of_singleton in Hx as ->; rewrite list_elem_of_singleton; lia|done]. }
  assert (dll h3 (p + 88) []) as E2.
  { apply (dll_frame [p + 104] h2); [done|intros x Hx; apply list_elem_of_singleton in Hx as ->; rewrite list_elem_of_singleton; lia|done]. }
  exists h3. split; [done|]. split; [|split; [|auto]].
  - intros q Hq. repeat (apply elem_of_cons in Hq as [->|Hq]; [done|]). by apply elem_of_nil in Hq.
  - eapply same_outside_trans; [|eapply same_outside_mono; [|exact F3]]; [|set_solver].
    eapply same_outside_trans; (eapply same_outside_mono; [|done]; set_solver).
Qed.

Lemma default_actions_zero n : default_actions n (repeat sigaction_zero 64) = repeat sigaction_zero 64.
Proof.
  induction n as [|n IH]; [done|]. cbn [default_actions]. rewrite IH. apply list_eq. intros i.
  destruct (decide (i = n)) as [->|Hne]; [|by rewrite list_lookup_alter_ne by done].
  rewrite list_lookup_alter_eq. destruct (repeat sigaction_zero 64 !! n) as [x|] eqn:Ex; [|done].
  apply list_elem_of_lookup_2, list_elem_of_In, repeat_spec in Ex as ->. done.
Qed.

(** [alloc_process] when the parts of the process can be made. *)
Lemma alloc_process_spec k addr w x1 w1 x2 w2 x3 l :
  addr ≠ 0 → fst (kmalloc TASK_SIZE (heap (sch k))) = addr → 0 ∈ procs (sch k) → pid_wf (pids (sch k)) →
  (∀ q, q ∈ nodes_of addr → is_Some (links (sch k) !! q)) →
  dll (links (sch k)) (ready_queue (sch k)) l → (∀ q, q ∈ nodes_of addr → q ∉ ready_queue (sch k) :: l) →
  user_alloc_mm (parts k) = Ok (x1, w1) → fs_struct_create w1 = Ok (x2, w2) → fdtable_acquire 0 w2 = Ok (x3, w) →
  ∃ k' t i, alloc_process k = Ok (addr, k') ∧ parts k' = w ∧
    procs (sch k) !! i = Some 0 ∧ procs (sch k') = <[i := addr]> (procs (sch k)) ∧ (∀ j, (j < i)%nat → procs (sch k) !! j ≠ Some 0) ∧
    tasks (sch k') = <[addr := t]> (tasks (sch k)) ∧ mm t = x1 ∧ fs t = x2 ∧ fdtable_ptr t = x3 ∧
    (pid t = - EAGAIN ∨ valid_pid (pid t) ∧ pid_used (pids (sch k)) (pid t) = false) ∧
    state t = TASK_RUNNING ∧ parent t = 0 ∧ pending t = sigset_zero ∧ blocked t = sigset_zero ∧ sighand t = repeat sigaction_zero 64 ∧
    current (sch k') = current (sch k) ∧ ready_queue (sch k') = ready_queue (sch k) ∧
    dll (links (sch k')) (ready_queue (sch k)) l ∧ (∀ q, q ∈ nodes_of addr → dll (links (sch k')) q []).
Proof.
  intros Ha Hk Hz Hwf Hl Hd Hn E1 E2 E3. unfold alloc_process, alloc_empty_process.
  destruct (alloc_loop_spec (procs (sch k)) 0 (sch k)) as [[Hno _]|(i & Hi & Hj & ->)].
  { apply list_elem_of_lookup in Hz as [i Hi]. destruct (Hno i); [by eapply lookup_lt_Some|done]. }
  destruct (kmalloc TASK_SIZE (heap (sch k))) as [p a] eqn:Ek. cbn [fst] in Hk. subst p. rewrite (proj2 (Z.eqb_neq _ _) Ha). cbn [obind].
  unfold alloc_kernel_stack. destruct (kmalloc PAGE_SIZE _) as [st a1]. cbv beta iota. destruct (kmalloc TRAPFRAME_SIZE _) as [tf a2]. cbv beta iota zeta.
  rewrite E1. cbn [obind]. rewrite E2. cbn [obind]. rewrite E3. cbn [obind].
  unfold set_heap, set_procs, set_tasks, set_pids. cbn [pids heap tasks procs current ready_queue links].
  assert (∃ p' m, pid_alloc (pids (sch k)) = Ok (p', m) ∧ (p' = - EAGAIN ∨ valid_pid p' ∧ pid_used (pids (sch k)) p' = false)) as (p' & m & -> & Hp).
  { destruct (pid_alloc_result _ Hwf) as [(p' & m & E & Hv & Hu & _)|[E _]]; eauto 10. }
  cbn [obind].
  match goal with |- context [init_nodes addr ?s] => destruct (init_nodes_ok addr s) as (h & -> & Hnil & Hsame & _); [done|] end.
  cbn [obind]. unfold task_at, set_links. cbn [tasks pids heap procs current ready_queue links]. rewrite lookup_insert_eq. cbn [of_option obind].
  eexists _, _, i. split; [done|]. cbn [parts sch procs tasks current ready_queue links].
  do 4 (split; [done|]). split; [rewrite insert_insert_eq; reflexivity|]. cbn [mm fs fdtable_ptr pid state parent pending blocked sighand].
  do 8 (split; [done|]). split; [apply default_actions_zero|]. do 2 (split; [done|]). split; [|done].
  - apply (dll_frame (nodes_of addr) (links (sch k))); [done| |done]. intros x Hx Hin. by apply (Hn x).
Qed.

(** What [setup_init_fds] does to the files: it opens the console until a descriptor is not the one expected. *)
Fixpoint open_fds (n : nat) (fd fdt : Z) (w : W) : outcome W :=
  match n with
  | O => Ok w
  | S n => let! (r, w) := open_console fdt w in if fd =? r then open_fds n (fd + 1) fdt w else Ok w
  end.

Lemma open_loop_spec `{!TaskPartsSpec W} n fd saved k p t :
  current (sch k) = p → tasks (sch k) !! p = Some t →
  ∃ r w, open_loop n fd saved k = Ok (r, Kernel (set_current saved (sch k)) w (kframes k)) ∧ open_fds n fd (fdtable_ptr t) (parts k) = Ok w.
Proof.
  revert fd k. induction n as [|n IH]; intros fd k Hc Ht; cbn [open_loop open_fds]; [eexists _, _; done|].
  unfold task_at. rewrite Hc, Ht. cbn [of_option obind]. destruct (open_returns (fdtable_ptr t) (parts k)) as (r & w & ->). cbn [obind].
  destruct (fd =? r); cbn [negb]; [|eexists _, _; done]. destruct (IH (fd + 1) (with_parts w k)) as (r' & w' & -> & E); [done|done|]. eexists _, _. done.
Qed.

Lemma close_loop_returns `{!TaskPartsSpec W} fuel fdt fd w :
  cap fdt w - fd ≤ Z.of_nat fuel → ∃ w', close_loop fuel fdt fd w = Ok w'.
Proof.
  revert fd w. induction fuel as [|fuel IH]; intros fd w Hf; cbn [close_loop]; rewrite max_fds_cap; cbn [obind];
    (destruct (Z.ltb_spec fd (cap fdt w)); [|eauto]); [lia|].
  destruct (fd_array_returns fdt fd w) as [b ->]. cbn [obind]. destruct b; [destruct (close_returns fdt fd w) as (w' & -> & Hc)|]; cbn [obind]; apply IH; [rewrite Hc|]; lia.
Qed.

End Process.

(** The idle task is queued with pid 0, running, with its own address space and a context that starts at [idle_loop]. *)
Theorem init_idle_task_queued {A} {KM : KMalloc A} {W} {TP : TaskParts W} (k : @kernel A W) idle_task init_mm idle_loop t l :
  tasks (sch k) !! idle_task = Some t → (∀ n a, fst (kmalloc n a) ≠ 0) →
  (∀ q, q ∈ nodes_of idle_task → is_Some (links (sch k) !! q)) →
  dll (links (sch k)) (ready_queue (sch k)) l → (∀ q, q ∈ nodes_of idle_task → q ∉ ready_queue (sch k) :: l) →
  ∃ k' t', init_idle_task idle_task init_mm idle_loop k = Ok k' ∧ tasks (sch k') = <[idle_task := t']> (tasks (sch k)) ∧
    pid t' = 0 ∧ state t' = TASK_RUNNING ∧ flags t' = PF_KTHREAD ∧ mm t' = init_mm ∧ trapframe t' = 0 ∧
    kframes k' !! ktrapframe t' = Some idle_loop ∧ procs (sch k') = procs (sch k) ∧
    dll (links (sch k')) (ready_queue (sch k')) (idle_task + RQ_OFFSET :: l).
Proof.
  intros Ht Hk Hl Hd Hn. unfold init_idle_task, alloc_kernel_stack. destruct (kmalloc PAGE_SIZE _) as [st a1]. cbv beta iota.
  unfold set_heap. cbn [heap]. pose proof (Hk TRAPFRAME_SIZE a1) as Hf. destruct (kmalloc TRAPFRAME_SIZE a1) as [tf a2]. cbn [fst] in Hf. cbv beta iota zeta.
  rewrite (proj2 (Z.eqb_neq _ _) Hf). unfold task_at at 1. cbn [tasks]. rewrite Ht. cbn [of_option obind]. unfold set_tasks.
  cbn [tasks procs current ready_queue links pids heap].
  match goal with |- context [init_nodes idle_task ?s] => destruct (init_nodes_ok idle_task s) as (h & -> & Hnil & Hsame & _); [done|] end.
  cbn [obind]. cbn [links] in Hsame.
  assert (dll h (ready_queue (sch k)) l) as Hd1.
  { apply (dll_frame (nodes_of idle_task) (links (sch k))); [done| |done]. intros x Hx Hin. by apply (Hn x). }
  assert (dll h (idle_task + RQ_OFFSET) []) as Hq by (apply Hnil; unfold nodes_of; set_solver).
  destruct (list_add_spec h (ready_queue (sch k)) l (idle_task + RQ_OFFSET) Hd1) as (h2 & Eh & Hd2 & _);
    [apply Hn; unfold nodes_of; set_solver|apply (dll_nodes _ _ _ _ Hq); set_solver|].
  unfold insert_to_ready_queue, task_at, set_links. cbn [tasks links ready_queue procs current pids heap]. rewrite lookup_insert_eq. cbn [of_option obind il_add store_list].
  rewrite Eh. cbn [obind]. eexists _, _. split; [done|]. cbn [sch tasks procs links ready_queue kframes].
  split; [reflexivity|]. cbn. do 5 (split; [done|]). split; [apply lookup_insert_eq|]. by split.
Qed.

(** ** Semaphores

    Entries are never given back: [sem_free] only checks its argument, and the bodies of [sem_P] and [sem_V] are commented out. *)

Definition NSEM : nat := 256.

Record semaphore := Semaphore { isActive : Z; value : Z; wait_queue : Z; sem_pid : Z }.

(** The loop of [sem_new] over the entries from [i] on. *)
Fixpoint sem_new_loop (initial_value i : Z) (pool : list semaphore) : Z * list semaphore :=
  match pool with
  | [] => (-1, [])
  | s :: pool =>
      if isActive s =? 0 then (i, Semaphore 1 initial_value 0 (sem_pid s) :: pool)
      else let (r, pool) := sem_new_loop initial_value (i + 1) pool in (r, s :: pool)
  end.

Definition sem_new (initial_value : Z) (pool : list semaphore) : Z * list semaphore := sem_new_loop initial_value 0 pool.

Definition sem_free (sem_index : Z) (pool : list semaphore) : outcome (list semaphore) :=
  if (sem_index <? 0) || (Z.of_nat NSEM <=? sem_index) then Panic
  else
    let! s := of_option (pool !! Z.to_nat sem_index) in
    if isActive s =? 0 then Panic else Ok pool.

Definition sem_P (sem_index : Z) (pool : list semaphore) : Z * list semaphore := (0, pool).

Definition sem_V (sem_index : Z) (pool : list semaphore) : Z * list semaphore := (0, pool).

Lemma sem_new_loop_spec v i pool :
  match list_find (λ s, isActive s = 0) pool with
  | Some (j, s) => sem_new_loop v i pool = (i + Z.of_nat j, <[j := Semaphore 1 v 0 (sem_pid s)]> pool)
  | None => sem_new_loop v i pool = (-1, pool)
  end.
Proof.
  revert i. induction pool as [|s pool IH]; intros i; cbn [list_find sem_new_loop]; [done|]. destruct (Z.eqb_spec (isActive s) 0) as [E|E].
  - rewrite decide_True by done. by rewrite Z.add_0_r.
  - rewrite decide_False by done. specialize (IH (i + 1)). destruct (list_find _ pool) as [[j s']|]; cbn; rewrite IH; [|done].
    f_equal. lia.
Qed.

(** [sem_new] takes the first inactive entry and initialises it; it returns -1 exactly when all are active. [sem_free] does
    not change the pool. *)
Theorem sem_new_first v pool :
  match list_find (λ s, isActive s = 0) pool with
  | Some (j, s) => sem_new v pool = (Z.of_nat j, <[j := Semaphore 1 v 0 (sem_pid s)]> pool)
  | None => sem_new v pool = (-1, pool)
  end ∧
  ∀ i pool', sem_free i pool = Ok pool' → pool' = pool.
Proof.
  split; [apply (sem_new_loop_spec v 0)|]. intros i pool'. unfold sem_free. destruct (_ || _); [done|]. intros E.
  apply obind_Ok in E as (s & _ & E). destruct (isActive s =? 0); [done|]. by injection E as <-.
Qed.

(** ** A machine: the queue head at 1000, the next block at 65536, the parts of a process at fixed addresses. *)

#[local] Instance sample_parts : TaskParts Z := {
  user_alloc_mm w := Ok (4096, w);
  fs_struct_create w := Ok (8192, w);
  fs_struct_unref _ w := Ok w;
  fdtable_acquire _ w := Ok (12288, w);
  max_fds _ _ := Ok 64;
  fd_array _ fd w := Ok (fd <? w);
  fdtable_closeFd _ _ w := Ok w;
  open_console _ w := Ok (w, w + 1);
  load_init t w := Ok (0, with_mm (mm t) t, w);
}.

#[local, refine] Instance sample_parts_spec : TaskPartsSpec Z := { cap _ _ := 64 }.
Proof. all: intros; repeat eexists. Defined.

Definition sample_nodes : store :=
  list_to_map [(1000, ListHead 1000 1000); (65608, ListHead 0 0); (65624, ListHead 0 0); (65640, ListHead 0 0)].

Definition sample_kernel : @kernel Z Z := Kernel (Sched ∅ (repeat 0 32) 2000 1000 sample_nodes pid_init 65536) 0 ∅.

