(* ===== verification/KString.v ===== *)
(** * Memory and string primitives ([kernel/util/string.c])

    Memory is a partial map from addresses to bytes; reading or writing an
    address it does not hold is a [Fault]. [char] is unsigned, as in the RISC-V
    ABI. A scan upwards visits distinct addresses, so [S (size m)] steps of fuel
    end it, by its own exit or by a fault. *)

From stdpp Require Import base gmap list.
From S2P Require Import Prelude.
Local Open Scope Z_scope.
Local Open Scope kernel_scope.

Abbreviation mem := (gmap Z Z).

Definition load8 (p : Z) (m : mem) : outcome Z := of_option (m !! p).
Definition store8 (p b : Z) (m : mem) : outcome mem :=
  let! _ := load8 p m in Ok (<[p := u8 b]> m).

(** Little-endian access to [n] bytes. *)
Fixpoint load_le (n : nat) (p : Z) (m : mem) : outcome Z :=
  match n with
  | O => Ok 0
  | S n =>
      let! b := load8 p m in
      let! v := load_le n (p + 1) m in
      Ok (b + 256 * v)
  end.

Fixpoint store_le (n : nat) (p v : Z) (m : mem) : outcome mem :=
  match n with
  | O => Ok m
  | S n =>
      let! m := store8 p v m in
      store_le n (p + 1) (v / 256) m
  end.

Definition NULL : Z := 0.

(** ** Blocks of memory *)

Fixpoint memcpy_words (fuel : nat) (d s limit : Z) (m : mem) : outcome (Z * Z * mem) :=
  if d <? limit then
    match fuel with
    | O => Timeout
    | S fuel =>
        let! w := load_le 8 s m in
        let! m := store_le 8 d w m in
        memcpy_words fuel (d + 8) (s + 8) limit m
    end
  else Ok (d, s, m).

Fixpoint memcpy_bytes (fuel : nat) (d s limit : Z) (m : mem) : outcome mem :=
  if d <? limit then
    match fuel with
    | O => Timeout
    | S fuel =>
        let! b := load8 s m in
        let! m := store8 d b m in
        memcpy_bytes fuel (d + 1) (s + 1) limit m
    end
  else Ok m.

Definition memcpy (dest src len : Z) (m : mem) : outcome (Z * mem) :=
  let fuel := Z.to_nat len in
  let! (d, s, m) :=
    (if Z.land (Z.lor dest src) 7 =? 0
     then memcpy_words fuel dest src (u64 (dest + len - 7)) m
     else Ok (dest, src, m)) in
  let! m := memcpy_bytes fuel d s (u64 (dest + len)) m in
  Ok (dest, m).

(** The loops of [memset]: [n] bytes of [v] at a time. *)
Fixpoint memset_loop (fuel : nat) (n : nat) (d v limit : Z) (m : mem) : outcome mem :=
  if d <? limit then
    match fuel with
    | O => Timeout
    | S fuel =>
        let! m := store_le n d v m in
        memset_loop fuel n (d + Z.of_nat n) v limit m
    end
  else Ok m.

Definition memset (dest byte len : Z) (m : mem) : outcome (Z * mem) :=
  let fuel := Z.to_nat len in
  if Z.land (Z.lor dest len) 7 =? 0 then
    let word := Z.land byte 255 in
    let word := u64 (Z.lor word (Z.shiftl word 8)) in
    let word := u64 (Z.lor word (Z.shiftl word 16)) in
    let word := u64 (Z.lor word (u64 (Z.shiftl (u64 (Z.shiftl word 16)) 16))) in
    let! m := memset_loop fuel 4 dest (s32 word) (u64 (dest + len)) m in
    Ok (dest, m)
  else
    let! m := memset_loop fuel 1 dest byte (u64 (dest + len)) m in
    Ok (dest, m).

(** [while (n-- > 0) *d++ = *s++] and its backward twin. *)
Fixpoint move_up (n : nat) (d s : Z) (m : mem) : outcome mem :=
  match n with
  | O => Ok m
  | S n =>
      let! b := load8 s m in
      let! m := store8 d b m in
      move_up n (d + 1) (s + 1) m
  end.

Fixpoint move_down (n : nat) (d s : Z) (m : mem) : outcome mem :=
  match n with
  | O => Ok m
  | S n =>
      let! b := load8 (s - 1) m in
      let! m := store8 (d - 1) b m in
      move_down n (d - 1) (s - 1) m
  end.

Definition memmove (dst src n : Z) (m : mem) : outcome (Z * mem) :=
  let! m :=
    (if (src <? dst) && (dst <? u64 (src + n))
     then move_down (Z.to_nat n) (dst + n) (src + n) m
     else move_up (Z.to_nat n) dst src m) in
  Ok (dst, m).

Fixpoint memcmp_loop (n : nat) (p1 p2 : Z) (m : mem) : outcome Z :=
  match n with
  | O => Ok 0
  | S n =>
      let! a := load8 p1 m in
      let! b := load8 p2 m in
      if negb (a =? b) then Ok (a - b)
      else memcmp_loop n (p1 + 1) (p2 + 1) m
  end.

Definition memcmp (s1 s2 n : Z) (m : mem) : outcome Z :=
  if (s1 =? s2) || (n =? 0) then Ok 0
  else memcmp_loop (Z.to_nat n) s1 s2 m.

(** ** Strings *)

Fixpoint strlen_loop (fuel : nat) (p : Z) (m : mem) : outcome Z :=
  match fuel with
  | O => Timeout
  | S fuel =>
      let! c := load8 p m in
      if negb (c =? 0) then strlen_loop fuel (p + 1) m else Ok p
  end.

Definition strlen (s : Z) (m : mem) : outcome Z :=
  let! p := strlen_loop (S (size m)) s m in
  Ok (p - s).

Fixpoint strcmp_loop (fuel : nat) (s1 s2 : Z) (m : mem) : outcome Z :=
  match fuel with
  | O => Timeout
  | S fuel =>
      let! c1 := load8 s1 m in
      let! c2 := load8 s2 m in
      if negb (c1 =? 0) && (c1 =? c2) then strcmp_loop fuel (s1 + 1) (s2 + 1) m
      else Ok (c1 - c2)
  end.

Definition strcmp (s1 s2 : Z) (m : mem) : outcome Z := strcmp_loop (S (size m)) s1 s2 m.

Fixpoint strncmp_loop (n : nat) (s1 s2 : Z) (m : mem) : outcome Z :=
  match n with
  | O => Ok 0
  | S n =>
      let! c1 := load8 s1 m in
      let! c2 := load8 s2 m in
      if negb (c1 =? c2) || (c1 =? 0) || (c2 =? 0) then Ok (c1 - c2)
      else strncmp_loop n (s1 + 1) (s2 + 1) m
  end.

Definition strncmp (s1 s2 n : Z) (m : mem) : outcome Z :=
  if n =? 0 then Ok 0 else strncmp_loop (Z.to_nat n) s1 s2 m.

Fixpoint strcpy_loop (fuel : nat) (d s : Z) (m : mem) : outcome mem :=
  match fuel with
  | O => Timeout
  | S fuel =>
      let! c := load8 s m in
      let! m := store8 d c m in
      if c =? 0 then Ok m else strcpy_loop fuel (d + 1) (s + 1) m
  end.

Definition strcpy (dest src : Z) (m : mem) : outcome (Z * mem) :=
  let! m := strcpy_loop (S (size m)) dest src m in
  Ok (dest, m).

Definition strcat (dst src : Z) (m : mem) : outcome (Z * mem) :=
  let! n := strlen dst m in
  let! (_, m) := strcpy (dst + n) src m in
  Ok (dst, m).

Fixpoint strchr_loop (fuel : nat) (p c : Z) (m : mem) : outcome Z :=
  match fuel with
  | O => Timeout
  | S fuel =>
      let! b := load8 p m in
      if b =? c then Ok p
      else if b =? 0 then Ok NULL
      else strchr_loop fuel (p + 1) c m
  end.

Definition strchr (p ch : Z) (m : mem) : outcome Z := strchr_loop (S (size m)) p (u8 ch) m.

Fixpoint strncpy_copy (n : nat) (dest src : Z) (m : mem) : outcome (nat * mem) :=
  match n with
  | O => Ok (O, m)
  | S k =>
      let! c := load8 src m in
      if c =? 0 then Ok (n, m)
      else
        let! m := store8 dest c m in
        strncpy_copy k (dest + 1) (src + 1) m
  end.

(** [strncpy_copy] returns how many of the [n] bytes are left for the padding. *)
Fixpoint strncpy_pad (n : nat) (dest : Z) (m : mem) : outcome mem :=
  match n with
  | O => Ok m
  | S n =>
      let! m := store8 dest 0 m in
      strncpy_pad n (dest + 1) m
  end.

Definition strncpy (dest src n : Z) (m : mem) : outcome (Z * mem) :=
  let! (k, m) := strncpy_copy (Z.to_nat n) dest src m in
  let! m := strncpy_pad k (dest + n - Z.of_nat k) m in
  Ok (dest, m).

(** The two scans of [strtok]: on from [p] while the character is (not) one of
    the delimiters. *)
Fixpoint strtok_scan (fuel : nat) (member : bool) (p delim : Z) (m : mem) : outcome Z :=
  match fuel with
  | O => Timeout
  | S fuel =>
      let! c := load8 p m in
      if c =? 0 then Ok p
      else
        let! q := strchr delim c m in
        if Bool.eqb (negb (q =? NULL)) member then strtok_scan fuel member (p + 1) delim m
        else Ok p
  end.

(** [current] is the static variable of the function. *)
Definition strtok (str delim : Z) (current : Z) (m : mem) : outcome (Z * Z * mem) :=
  let current := if str =? NULL then current else str in
  if current =? NULL then Ok (NULL, current, m)
  else
    let! start := strtok_scan (S (size m)) true current delim m in
    let! c := load8 start m in
    if c =? 0 then Ok (NULL, NULL, m)
    else
      let! end_ := strtok_scan (S (size m)) false start delim m in
      let! c := load8 end_ m in
      if negb (c =? 0) then
        let! m := store8 end_ 0 m in
        Ok (start, end_ + 1, m)
      else Ok (start, NULL, m).

Fixpoint atol_spaces (fuel : nat) (p : Z) (m : mem) : outcome Z :=
  match fuel with
  | O => Timeout
  | S fuel =>
      let! c := load8 p m in
      if c =? 32 then atol_spaces fuel (p + 1) m else Ok p
  end.

Fixpoint atol_digits (fuel : nat) (p res : Z) (m : mem) : outcome Z :=
  match fuel with
  | O => Timeout
  | S fuel =>
      let! c := load8 p m in
      if negb (c =? 0) then atol_digits fuel (p + 1) (s64 (s64 (res * 10) + (c - 48))) m
      else Ok res
  end.

Definition atol (str : Z) (m : mem) : outcome Z :=
  let! str := atol_spaces (S (size m)) str m in
  let! c := load8 str m in
  let signed := (c =? 45) || (c =? 43) in
  let sign := c =? 45 in
  let str := if signed then str + 1 else str in
  let! res := atol_digits (S (size m)) str 0 m in
  Ok (if sign then s64 (- res) else res).

(** ** Regions *)

Definition mem_ok (m : mem) : Prop := ∀ a b, m !! a = Some b → 0 ≤ b < 256.
Definition mapped (m : mem) (p n : Z) : Prop := ∀ i, 0 ≤ i < n → is_Some (m !! (p + i)).
Definition same_dom (m m' : mem) : Prop := ∀ a, is_Some (m' !! a) ↔ is_Some (m !! a).

(** [m'] is [m] with the bytes [src + lo .. src + hi - 1] copied to [dest + lo] on. *)
Definition blit (dest src lo hi : Z) (m m' : mem) : Prop :=
  (∀ i, lo ≤ i < hi → m' !! (dest + i) = m !! (src + i)) ∧
  (∀ a, ~ (dest + lo ≤ a < dest + hi) → m' !! a = m !! a) ∧
  same_dom m m' ∧ mem_ok m'.

(** [m'] is [m] with [n] bytes [b] from [dest] on. *)
Definition filled (dest b n : Z) (m m' : mem) : Prop :=
  (∀ i, 0 ≤ i < n → m' !! (dest + i) = Some b) ∧
  (∀ a, ~ (dest ≤ a < dest + n) → m' !! a = m !! a) ∧
  same_dom m m' ∧ mem_ok m'.

Lemma same_dom_mapped m m' p n : same_dom m m' → mapped m p n → mapped m' p n.
Proof. intros Hd Hm i Hi. by apply Hd, Hm. Qed.

Lemma mapped_sub m p n i k : mapped m p n → 0 ≤ i → i + k ≤ n → mapped m (p + i) k.
Proof. intros Hm Hi Hk j Hj. rewrite <-Z.add_assoc. apply Hm. lia. Qed.

Lemma load8_ok p b m : m !! p = Some b → load8 p m = Ok b.
Proof. unfold load8. by intros ->. Qed.

Lemma mem_ok_insert m p b : mem_ok m → mem_ok (<[p := u8 b]> m).
Proof.
  intros Hm a c [[_ <-]|[_ Hc]]%lookup_insert_Some; [apply (u8_range b)|by apply (Hm a)].
Qed.

Lemma same_dom_insert m p b : is_Some (m !! p) → same_dom m (<[p := b]> m).
Proof.
  intros Hp a. destruct (Z.eq_dec p a) as [->|]; [rewrite lookup_insert_eq|by rewrite lookup_insert_ne].
  by split.
Qed.

Lemma store8_ok p b m :
  is_Some (m !! p) → mem_ok m →
  ∃ m', store8 p b m = Ok m' ∧ m' = <[p := u8 b]> m ∧ same_dom m m' ∧ mem_ok m'.
Proof.
  intros [c Hc] Hm. unfold store8. rewrite (load8_ok _ _ _ Hc). eexists. split; [done|].
  split; [done|]. split; [by apply same_dom_insert|by apply mem_ok_insert].
Qed.

Lemma same_dom_trans m1 m2 m3 : same_dom m1 m2 → same_dom m2 m3 → same_dom m1 m3.
Proof. intros H1 H2 a. by rewrite (H2 a). Qed.

Lemma load_le_same n p (m m' : mem) : (∀ a, p ≤ a < p + Z.of_nat n → m' !! a = m !! a) → load_le n p m' = load_le n p m.
Proof.
  revert p. induction n as [|n IH]; intros p Hs; [done|]. cbn [load_le]. unfold load8. rewrite Hs by lia.
  by rewrite (IH (p + 1)) by (intros a Ha; apply Hs; lia).
Qed.

Lemma load_le_ok n p m :
  mapped m p (Z.of_nat n) → mem_ok m →
  ∃ v, load_le n p m = Ok v ∧ 0 ≤ v < 256 ^ Z.of_nat n ∧
    ∀ i, 0 ≤ i < Z.of_nat n → m !! (p + i) = Some ((v / 256 ^ i) mod 256).
Proof.
  revert p. induction n as [|n IH]; intros p Hm Hok; [exists 0; split_and!; [done|lia|done|lia]|].
  destruct (Hm 0) as [b Hb]; [lia|]. rewrite Z.add_0_r in Hb.
  destruct (IH (p + 1)) as (v & E & Hv & Hi); [|done|].
  { intros i Hi. replace (p + 1 + i) with (p + (i + 1)) by lia. apply Hm. lia. }
  cbn [load_le]. rewrite (load8_ok _ _ _ Hb), E. cbn [obind]. eexists. split; [done|].
  pose proof (Hok _ _ Hb) as Hb'.
  assert (256 ^ Z.of_nat (S n) = 256 * 256 ^ Z.of_nat n) as Ep
    by (rewrite Nat2Z.inj_succ, Z.pow_succ_r; lia).
  split; [nia|]. intros i Hin. destruct (Z.eq_dec i 0) as [->|].
  - rewrite Z.add_0_r, Hb. f_equal. change (256 ^ 0) with 1. rewrite Z.div_1_r. zdm.
  - replace (p + i) with (p + 1 + (i - 1)) by lia. rewrite Hi by lia. do 2 f_equal.
    replace i with (Z.succ (i - 1)) at 2 by lia. rewrite Z.pow_succ_r by lia.
    rewrite <-Z.div_div by lia. f_equal. zdm.
Qed.

Lemma store_le_ok n p v m :
  mapped m p (Z.of_nat n) → mem_ok m →
  ∃ m', store_le n p v m = Ok m' ∧
    (∀ i, 0 ≤ i < Z.of_nat n → m' !! (p + i) = Some ((v / 256 ^ i) mod 256)) ∧
    (∀ a, ~ (p ≤ a < p + Z.of_nat n) → m' !! a = m !! a) ∧ same_dom m m' ∧ mem_ok m'.
Proof.
  revert p v m. induction n as [|n IH]; intros p v m Hm Hok.
  { exists m. split; [done|]. split; [lia|]. split; [done|]. by split. }
  assert (is_Some (m !! p)) as Hp by (rewrite <-(Z.add_0_r p); apply Hm; lia).
  destruct (store8_ok p v m Hp Hok) as (m1 & E1 & -> & Hd1 & Hok1).
  destruct (IH (p + 1) (v / 256) (<[p := u8 v]> m)) as (m2 & E2 & Hi & Ho & Hd2 & Hok2); [|done|].
  { intros i Hi. apply Hd1. replace (p + 1 + i) with (p + (i + 1)) by lia. apply Hm. lia. }
  cbn [store_le]. rewrite E1. cbn [obind]. exists m2. split; [done|]. split_and!; [..|done].
  - intros i Hin. destruct (Z.eq_dec i 0) as [->|].
    + rewrite Z.add_0_r, Ho, lookup_insert_eq by lia. change (256 ^ 0) with 1. by rewrite Z.div_1_r.
    + replace (p + i) with (p + 1 + (i - 1)) by lia. rewrite Hi by lia. do 2 f_equal.
      replace i with (Z.succ (i - 1)) at 2 by lia. rewrite Z.pow_succ_r by lia.
      by rewrite Z.div_div by lia.
  - intros a Ha. rewrite Ho by lia. apply lookup_insert_ne. lia.
  - by eapply same_dom_trans.
Qed.

(** A forward copy may overwrite its source only behind itself. *)
Definition forward_safe (dest src n : Z) : Prop := dest ≤ src ∨ src + n ≤ dest.

Lemma blit_refl dest src k m : mem_ok m → blit dest src k k m m.
Proof. intros Hok. split; [lia|]. split; [done|]. by split. Qed.

Lemma blit_snoc dest src n k c m m1 m2 :
  forward_safe dest src n → 0 ≤ k → 0 ≤ c → k + c ≤ n →
  blit dest src 0 k m m1 → blit (dest + k) (src + k) 0 c m1 m2 → blit dest src 0 (k + c) m m2.
Proof.
  intros Hf Hk Hc Hn (I1 & O1 & D1 & _) (I2 & O2 & D2 & Hok). split_and!; [..|done].
  - intros i Hi. destruct (Z.lt_ge_cases i k).
    + rewrite O2, I1 by lia. done.
    + specialize (I2 (i - k) ltac:(lia)).
      replace (dest + k + (i - k)) with (dest + i) in I2 by lia.
      replace (src + k + (i - k)) with (src + i) in I2 by lia.
      rewrite I2. apply O1. unfold forward_safe in Hf. lia.
  - intros a Ha. rewrite O2, O1 by lia. done.
  - by eapply same_dom_trans.
Qed.

(** The backward twin: the copied part grows downwards. *)
Lemma blit_cons dest src n k m m1 m2 :
  src ≤ dest → 0 < k ≤ n →
  blit dest src k n m m1 → blit (dest + (k - 1)) (src + (k - 1)) 0 1 m1 m2 → blit dest src (k - 1) n m m2.
Proof.
  intros Hf Hk (I1 & O1 & D1 & _) (I2 & O2 & D2 & Hok). split_and!; [..|done].
  - intros i Hi. destruct (Z.eq_dec i (k - 1)) as [->|].
    + specialize (I2 0 ltac:(lia)). rewrite !Z.add_0_r in I2. rewrite I2. apply O1. lia.
    + rewrite O2, I1 by lia. done.
  - intros a Ha. rewrite O2, O1 by lia. done.
  - by eapply same_dom_trans.
Qed.

Lemma chunk_blit n d s m :
  mapped m s (Z.of_nat n) → mapped m d (Z.of_nat n) → mem_ok m →
  ∃ v m', load_le n s m = Ok v ∧ store_le n d v m = Ok m' ∧ blit d s 0 (Z.of_nat n) m m'.
Proof.
  intros Hs Hd Hok. destruct (load_le_ok n s m Hs Hok) as (v & E & Hv & Hi).
  destruct (store_le_ok n d v m Hd Hok) as (m' & E' & Hi' & Ho & Hdom & Hok').
  exists v, m'. split; [done|]. split; [done|]. split_and!; [..|done|done].
  - intros i Hin. by rewrite Hi', Hi.
  - intros a Ha. apply Ho. lia.
Qed.

Lemma byte_blit d s m :
  is_Some (m !! s) → is_Some (m !! d) → mem_ok m →
  ∃ b m', load8 s m = Ok b ∧ store8 d b m = Ok m' ∧ blit d s 0 1 m m'.
Proof.
  intros [b Hb] Hd Hok. destruct (store8_ok d b m Hd Hok) as (m' & E & -> & Hdom & Hok').
  exists b. eexists. split; [by apply load8_ok|]. split; [done|]. split_and!; [..|done|done].
  - intros i Hi. replace i with 0 by lia. rewrite !Z.add_0_r, lookup_insert_eq, u8_small; [done|].
    by apply (Hok s).
  - intros a Ha. apply lookup_insert_ne. lia.
Qed.

Lemma mapped_at m p n i : mapped m p n → 0 ≤ i < n → is_Some (m !! (p + i)).
Proof. auto. Qed.

Lemma blit_mapped dest src lo hi m m' p n : blit dest src lo hi m m' → mapped m p n → mapped m' p n.
Proof. intros (_ & _ & Hd & _). by apply same_dom_mapped. Qed.

Lemma blit_ok dest src lo hi m m' : blit dest src lo hi m m' → mem_ok m'.
Proof. by intros (_ & _ & _ & ?). Qed.

#[export] Hint Resolve blit_mapped blit_ok mapped_at mapped_sub : kernel.

Section Copy.
Context (dest src n : Z) (m0 : mem).
Context (Hs : mapped m0 src n) (Hd : mapped m0 dest n).

Lemma memcpy_bytes_ok fuel k m :
  forward_safe dest src n → 0 ≤ k ≤ n → n - k ≤ Z.of_nat fuel → blit dest src 0 k m0 m →
  ∃ m', memcpy_bytes fuel (dest + k) (src + k) (dest + n) m = Ok m' ∧ blit dest src 0 n m0 m'.
Proof.
  intros Hf. revert k m. induction fuel as [|fuel IH]; intros k m Hk Hfu Hb; cbn [memcpy_bytes].
  all: destruct (Z.ltb_spec (dest + k) (dest + n)); [|replace n with k by lia; by eauto].
  1: lia.
  destruct (byte_blit (dest + k) (src + k) m) as (b & m1 & -> & E & Hb1);
    [eapply mapped_at; [eauto with kernel|lia]..|eauto with kernel|].
  cbn [obind]. rewrite E. cbn [obind]. rewrite <-!Z.add_assoc. apply IH; [lia..|].
  eapply blit_snoc; eauto; lia.
Qed.

Lemma memcpy_words_ok fuel k m :
  forward_safe dest src n → 0 ≤ k ≤ n → n - k ≤ Z.of_nat fuel → blit dest src 0 k m0 m →
  ∃ k' m', memcpy_words fuel (dest + k) (src + k) (dest + n - 7) m =
      Ok (dest + k', src + k', m') ∧ 0 ≤ k' ≤ n ∧ blit dest src 0 k' m0 m'.
Proof.
  intros Hf. revert k m. induction fuel as [|fuel IH]; intros k m Hk Hfu Hb; cbn [memcpy_words].
  all: destruct (Z.ltb_spec (dest + k) (dest + n - 7)); [|by exists k, m].
  1: lia.
  destruct (chunk_blit 8 (dest + k) (src + k) m) as (w & m1 & -> & E & Hb1);
    [eapply mapped_sub; [eauto with kernel|lia..]..|eauto with kernel|].
  cbn [obind]. rewrite E. cbn [obind]. rewrite <-!Z.add_assoc. apply IH; [lia..|].
  eapply (blit_snoc _ _ n); eauto; lia.
Qed.

Lemma move_up_ok c k m :
  forward_safe dest src n → 0 ≤ k → k + Z.of_nat c = n → blit dest src 0 k m0 m →
  ∃ m', move_up c (dest + k) (src + k) m = Ok m' ∧ blit dest src 0 n m0 m'.
Proof.
  intros Hf. revert k m. induction c as [|c IH]; intros k m Hk Hn Hb; cbn [move_up].
  { replace n with k by lia. eauto. }
  destruct (byte_blit (dest + k) (src + k) m) as (b & m1 & -> & E & Hb1);
    [eapply mapped_at; [eauto with kernel|lia]..|eauto with kernel|].
  cbn [obind]. rewrite E. cbn [obind]. rewrite <-!Z.add_assoc. apply IH; [lia..|].
  eapply blit_snoc; eauto; lia.
Qed.

Lemma move_down_ok c m :
  src ≤ dest → Z.of_nat c ≤ n → blit dest src (Z.of_nat c) n m0 m →
  ∃ m', move_down c (dest + Z.of_nat c) (src + Z.of_nat c) m = Ok m' ∧ blit dest src 0 n m0 m'.
Proof.
  intros Hf. revert m. induction c as [|c IH]; intros m Hn Hb; cbn [move_down]; [eauto|].
  replace (src + Z.of_nat (S c) - 1) with (src + Z.of_nat c) by lia.
  replace (dest + Z.of_nat (S c) - 1) with (dest + Z.of_nat c) by lia.
  destruct (byte_blit (dest + Z.of_nat c) (src + Z.of_nat c) m) as (b & m1 & -> & E & Hb1);
    [eapply mapped_at; [eauto with kernel|lia]..|eauto with kernel|].
  cbn [obind]. rewrite E. cbn [obind]. apply IH; [lia|].
  replace (Z.of_nat c) with (Z.of_nat (S c) - 1) in * by lia. eapply blit_cons; eauto; lia.
Qed.
End Copy.

Lemma memcpy_spec dest src n m :
  mem_ok m → mapped m src n → mapped m dest n → forward_safe dest src n →
  7 ≤ dest → 0 ≤ n → dest + n < 2 ^ 64 →
  ∃ m', memcpy dest src n m = Ok (dest, m') ∧ blit dest src 0 n m m'.
Proof.
  intros Hok Hs Hd Hf H7 Hn Hmax. unfold memcpy. rewrite !u64_small by lia.
  assert (∃ k m1, (if Z.land (Z.lor dest src) 7 =? 0
      then memcpy_words (Z.to_nat n) dest src (dest + n - 7) m else Ok (dest, src, m))
      = Ok (dest + k, src + k, m1) ∧ 0 ≤ k ≤ n ∧ blit dest src 0 k m m1) as (k & m1 & -> & Hk & Hb).
  { split_if.
    - destruct (memcpy_words_ok dest src n m Hs Hd (Z.to_nat n) 0 m) as (k & m1 & E & Hk & Hb);
        [done|lia|lia|by apply blit_refl|]. rewrite !Z.add_0_r in E. eauto.
    - exists 0, m. rewrite !Z.add_0_r. split; [done|]. split; [lia|]. by apply blit_refl. }
  cbn [obind].
  destruct (memcpy_bytes_ok dest src n m Hs Hd (Z.to_nat n) k m1) as (m2 & -> & Hb2); [done|lia..|done|].
  eauto.
Qed.

Lemma memmove_spec dst src n m :
  mem_ok m → mapped m src n → mapped m dst n → 0 ≤ n → 0 ≤ src → src + n < 2 ^ 64 →
  ∃ m', memmove dst src n m = Ok (dst, m') ∧ blit dst src 0 n m m'.
Proof.
  intros Hok Hs Hd Hn H0 Hmax. unfold memmove. rewrite u64_small by lia.
  destruct ((src <? dst) && (dst <? src + n)) eqn:E; bool_props.
  - destruct (move_down_ok dst src n m Hs Hd (Z.to_nat n) m) as (m' & E' & Hb);
      [lia|lia|rewrite Z2Nat.id by lia; by apply blit_refl|].
    rewrite Z2Nat.id in E' by lia. rewrite E'. eauto.
  - destruct (move_up_ok dst src n m Hs Hd (Z.to_nat n) 0 m) as (m' & E' & Hb);
      [|lia|lia|by apply blit_refl|].
    { unfold forward_safe. apply andb_false_iff in E as [E|E]; bool_props; lia. }
    rewrite !Z.add_0_r in E'. rewrite E'. eauto.
Qed.

Lemma filled_snoc dest b k c m m1 m2 :
  0 ≤ k → 0 ≤ c → filled dest b k m m1 → filled (dest + k) b c m1 m2 → filled dest b (k + c) m m2.
Proof.
  intros Hk Hc (I1 & O1 & D1 & _) (I2 & O2 & D2 & Hok). split_and!; [..|done].
  - intros i Hi. destruct (Z.lt_ge_cases i k); [rewrite O2 by lia; apply I1; lia|].
    replace (dest + i) with (dest + k + (i - k)) by lia. apply I2. lia.
  - intros a Ha. rewrite O2, O1 by lia. done.
  - by eapply same_dom_trans.
Qed.

(** The loop fills whole groups of [c] bytes when every byte of the group of
    [v] is [b]. *)
Lemma memset_loop_ok c v b dest n m0 fuel k m :
  (0 < c)%nat → (∀ i, 0 ≤ i < Z.of_nat c → (v / 256 ^ i) mod 256 = b) →
  mapped m0 dest n → (Z.of_nat c | n) → (Z.of_nat c | k) →
  0 ≤ k ≤ n → n - k ≤ Z.of_nat fuel → filled dest b k m0 m →
  ∃ m', memset_loop fuel c (dest + k) v (dest + n) m = Ok m' ∧ filled dest b n m0 m'.
Proof.
  intros Hc Hv Hd Hdn. revert k m. induction fuel as [|fuel IH]; intros k m Hdk Hk Hfu Hb;
    cbn [memset_loop].
  all: destruct (Z.ltb_spec (dest + k) (dest + n)); [|replace n with k by lia; by eauto].
  1: lia.
  assert (k + Z.of_nat c ≤ n) as Hle.
  { destruct Hdn as [x ->], Hdk as [y ->].
    assert (y + 1 ≤ x) as Hyx by (apply Z.le_succ_l, (Z.mul_lt_mono_pos_r (Z.of_nat c)); lia).
    apply (Z.mul_le_mono_nonneg_r _ _ (Z.of_nat c)) in Hyx; lia. }
  destruct (store_le_ok c (dest + k) v m) as (m1 & E & Hi & Ho & Hdom & Hok).
  { eapply mapped_sub; [|lia|exact Hle]. apply (same_dom_mapped m0); [apply Hb|done]. }
  { apply Hb. }
  rewrite E. cbn [obind]. rewrite <-Z.add_assoc. apply IH; [by apply Z.divide_add_r|lia|lia|].
  apply (filled_snoc dest b k (Z.of_nat c) m0 m m1); [lia|lia|done|].
  split_and!; [..|done|done]; [|done].
  intros i Hin. rewrite Hi, Hv by lia. done.
Qed.

(** The word built from a byte has that byte in its four lowest places: all 256
    cases by evaluation. *)
Definition memset_word (w : Z) : Z :=
  let word := u64 (Z.lor w (Z.shiftl w 8)) in
  let word := u64 (Z.lor word (Z.shiftl word 16)) in
  s32 (u64 (Z.lor word (u64 (Z.shiftl (u64 (Z.shiftl word 16)) 16)))).

Lemma memset_word_bytes b i : 0 ≤ i < 4 → (memset_word (Z.land b 255) / 256 ^ i) mod 256 = u8 b.
Proof.
  intros Hi. change 255 with (Z.ones 8). rewrite Z.land_ones by lia.
  fold (u8 b). pose proof (u8_range b) as Hb.
  assert (Forall (λ w, Forall (λ i, ((memset_word w / 256 ^ i) mod 256 =? w) = true) (seqZ 0 4))
    (seqZ 0 256)) as Hall.
  { apply (bool_decide_unpack _). vm_compute. exact I. }
  rewrite Forall_forall in Hall. specialize (Hall (u8 b) ltac:(apply elem_of_seqZ; lia)).
  rewrite Forall_forall in Hall. specialize (Hall i ltac:(apply elem_of_seqZ; lia)).
  by apply Z.eqb_eq.
Qed.

Lemma land7_divide x y : Z.land (Z.lor x y) 7 = 0 → (8 | y).
Proof.
  intros E. rewrite Z.land_lor_distr_l in E. apply Z.lor_eq_0_iff in E as [_ E].
  change 7 with (Z.ones 3) in E. rewrite Z.land_ones in E by lia. by apply Z.mod_divide.
Qed.

Lemma memset_spec dest byte n m :
  mem_ok m → mapped m dest n → 0 ≤ dest → 0 ≤ n → dest + n < 2 ^ 64 →
  ∃ m', memset dest byte n m = Ok (dest, m') ∧ filled dest (u8 byte) n m m'.
Proof.
  intros Hok Hd H0 Hn Hmax. unfold memset. rewrite !(u64_small (dest + n)) by lia.
  assert (filled dest (u8 byte) 0 m m) as Hf by (split; [lia|]; by split_and!).
  split_if; bool_props.
  - fold (memset_word (Z.land byte 255)).
    destruct (memset_loop_ok 4 (memset_word (Z.land byte 255)) (u8 byte) dest n m
      (Z.to_nat n) 0 m) as (m' & E & Hm'); [lia| |done| |by apply Z.divide_0_r|lia|lia|done|].
    + intros i Hi. by apply memset_word_bytes.
    + apply land7_divide in Heqb. etransitivity; [|exact Heqb]. by exists 2.
    + rewrite Z.add_0_r in E. rewrite E. eauto.
  - destruct (memset_loop_ok 1 byte (u8 byte) dest n m (Z.to_nat n) 0 m) as (m' & E & Hm');
      [lia| |done|by apply Z.divide_1_l|by apply Z.divide_1_l|lia|lia|done|].
    + intros i Hi. replace i with 0 by lia. by rewrite Z.pow_0_r, Z.div_1_r.
    + rewrite Z.add_0_r in E. rewrite E. eauto.
Qed.

(** ** Strings in memory *)

(** The bytes [l] lie at [p]. *)
Fixpoint bytes_at (m : mem) (p : Z) (l : list Z) : Prop :=
  match l with
  | [] => True
  | b :: l => m !! p = Some b ∧ bytes_at m (p + 1) l
  end.

(** The string [l], zero-terminated, lies at [p]. *)
Definition cstr (m : mem) (p : Z) (l : list Z) : Prop :=
  bytes_at m p (l ++ [0]) ∧ Forall (λ b, 0 < b < 256) l.

Lemma bytes_at_lookup m p l :
  bytes_at m p l ↔ ∀ i b, l !! i = Some b → m !! (p + Z.of_nat i) = Some b.
Proof.
  revert p. induction l as [|c l IH]; intros p; simpl; [by split|]. rewrite IH. split.
  - intros [Hc Hl] [|i] b E; simpl in E; [injection E as <-; by rewrite Z.add_0_r|].
    apply Hl in E. by replace (p + Z.of_nat (S i)) with (p + 1 + Z.of_nat i) by lia.
  - intros Hl. split; [by rewrite <-(Z.add_0_r p); apply (Hl 0%nat)|]. intros i b E.
    replace (p + 1 + Z.of_nat i) with (p + Z.of_nat (S i)) by lia. by apply Hl.
Qed.

Lemma bytes_at_app m p l1 l2 :
  bytes_at m p (l1 ++ l2) ↔ bytes_at m p l1 ∧ bytes_at m (p + Z.of_nat (length l1)) l2.
Proof.
  revert p. induction l1 as [|b l1 IH]; intros p; simpl; [rewrite Z.add_0_r; tauto|].
  rewrite IH. replace (p + 1 + Z.of_nat (length l1)) with (p + Z.of_nat (S (length l1))) by lia. tauto.
Qed.

Lemma bytes_at_mapped m p l : bytes_at m p l → mapped m p (Z.of_nat (length l)).
Proof.
  rewrite bytes_at_lookup. intros Hl i Hi.
  destruct (lookup_lt_is_Some_2 l (Z.to_nat i)) as [b Hb]; [lia|].
  apply Hl in Hb. rewrite Z2Nat.id in Hb by lia. by rewrite Hb.
Qed.

(** Distinct addresses of a finite memory: any run of mapped bytes is no longer
    than the memory is large. *)
Lemma mapped_size m p n : mapped m p n → n ≤ Z.of_nat (size m).
Proof.
  intros Hm. assert (list_to_set (seqZ p n) ⊆ (dom m : gset Z)) as Hsub.
  { intros a Ha. rewrite elem_of_list_to_set, elem_of_seqZ in Ha. apply elem_of_dom.
    replace a with (p + (a - p)) by lia. apply Hm. lia. }
  apply subseteq_size in Hsub. rewrite size_list_to_set, length_seqZ, size_dom in Hsub by apply NoDup_seqZ.
  lia.
Qed.

Lemma cstr_nil m p : cstr m p [] ↔ m !! p = Some 0.
Proof. unfold cstr. simpl. rewrite Forall_nil. tauto. Qed.

Lemma cstr_cons m p b l : cstr m p (b :: l) ↔ m !! p = Some b ∧ 0 < b < 256 ∧ cstr m (p + 1) l.
Proof. unfold cstr. simpl. rewrite Forall_cons. tauto. Qed.

Lemma cstr_mapped m p l : cstr m p l → mapped m p (Z.of_nat (length l) + 1).
Proof.
  intros [Hb _]. apply bytes_at_mapped in Hb. rewrite length_app in Hb. simpl in Hb.
  by replace (Z.of_nat (length l) + 1) with (Z.of_nat (length l + 1)) by lia.
Qed.

Lemma cstr_fuel m p l : cstr m p l → (length l < size m)%nat.
Proof. intros Hc%cstr_mapped%mapped_size. lia. Qed.

Lemma bytes_at_same m m' p l :
  (∀ a, p ≤ a < p + Z.of_nat (length l) → m' !! a = m !! a) → bytes_at m p l → bytes_at m' p l.
Proof.
  intros Hs. rewrite !bytes_at_lookup. intros Hl i b E. rewrite Hs; [by apply Hl|].
  apply lookup_lt_Some in E. lia.
Qed.

Lemma cstr_same m m' p l :
  (∀ a, p ≤ a < p + Z.of_nat (length l) + 1 → m' !! a = m !! a) → cstr m p l → cstr m' p l.
Proof.
  intros Hs [Hb Hf]. split; [|done]. eapply bytes_at_same; [|done].
  intros a. rewrite length_app. simpl. intros Ha. apply Hs. lia.
Qed.

Lemma bytes_at_blit dest src n m m' l :
  blit dest src 0 n m m' → Z.of_nat (length l) ≤ n → bytes_at m src l → bytes_at m' dest l.
Proof.
  intros (Hi & _) Hn. rewrite !bytes_at_lookup. intros Hl i b E. rewrite Hi; [by apply Hl|].
  apply lookup_lt_Some in E. lia.
Qed.

(** *** Reference functions on lists *)

(** The value of a comparison: the difference at the first difference, the end
    of a string counting as 0. *)
Fixpoint str_diff (l1 l2 : list Z) : Z :=
  match l1, l2 with
  | [], [] => 0
  | a :: _, [] => a
  | [], b :: _ => - b
  | a :: l1, b :: l2 => if a =? b then str_diff l1 l2 else a - b
  end.

Fixpoint index_of (c : Z) (l : list Z) : option Z :=
  match l with
  | [] => None
  | b :: l => if b =? c then Some 0 else Z.succ <$> index_of c l
  end.

(** Lexicographic order. *)
Fixpoint lex_lt (l1 l2 : list Z) : Prop :=
  match l1, l2 with
  | _, [] => False
  | [], _ :: _ => True
  | a :: l1, b :: l2 => a < b ∨ a = b ∧ lex_lt l1 l2
  end.

Definition byte_list (l : list Z) : Prop := Forall (λ b, 0 < b < 256) l.

Lemma str_diff_zero l1 l2 : byte_list l1 → byte_list l2 → str_diff l1 l2 = 0 ↔ l1 = l2.
Proof.
  unfold byte_list. revert l2. induction l1 as [|a l1 IH]; intros [|b l2] H1 H2; simpl;
    rewrite ?Forall_cons in *; try (split; [lia|done]); [done|].
  destruct (Z.eqb_spec a b) as [->|]; [rewrite IH by tauto; split; congruence|].
  split; [lia|congruence].
Qed.

Lemma str_diff_neg l1 l2 : byte_list l1 → byte_list l2 → str_diff l1 l2 < 0 ↔ lex_lt l1 l2.
Proof.
  unfold byte_list. revert l2. induction l1 as [|a l1 IH]; intros [|b l2] H1 H2; simpl;
    rewrite ?Forall_cons in *; try lia.
  destruct (Z.eqb_spec a b) as [->|]; [rewrite IH by tauto|]; intuition lia.
Qed.

(** *** The functions compute them *)

Lemma strlen_loop_ok fuel p l m :
  cstr m p l → (length l < fuel)%nat → strlen_loop fuel p m = Ok (p + Z.of_nat (length l)).
Proof.
  revert p fuel. induction l as [|b l IH]; intros p [|fuel] Hc Hf; simpl in *; try lia.
  - apply cstr_nil in Hc. rewrite (load8_ok _ _ _ Hc). cbn. f_equal. lia.
  - apply cstr_cons in Hc as (Hb & Hr & Hc). rewrite (load8_ok _ _ _ Hb). cbn [obind].
    rewrite (proj2 (Z.eqb_neq b 0)) by lia. cbn [negb]. rewrite IH by (done || lia). f_equal. lia.
Qed.

Lemma strlen_ok p l m : cstr m p l → strlen p m = Ok (Z.of_nat (length l)).
Proof.
  intros Hc. pose proof (cstr_fuel _ _ _ Hc). unfold strlen.
  rewrite (strlen_loop_ok _ _ l) by (done || lia). cbn [obind]. f_equal. lia.
Qed.

Lemma strcmp_loop_ok fuel p1 p2 l1 l2 m :
  cstr m p1 l1 → cstr m p2 l2 → (length l1 < fuel)%nat →
  strcmp_loop fuel p1 p2 m = Ok (str_diff l1 l2).
Proof.
  revert p1 p2 l2 fuel. induction l1 as [|a l1 IH]; intros p1 p2 [|b l2] [|fuel] H1 H2 Hf;
    simpl in *; try lia; rewrite ?cstr_nil, ?cstr_cons in *.
  - by rewrite (load8_ok _ _ _ H1), (load8_ok _ _ _ H2).
  - destruct H2 as (Hb & Hr & _). by rewrite (load8_ok _ _ _ H1), (load8_ok _ _ _ Hb).
  - destruct H1 as (Ha & Hr & _). rewrite (load8_ok _ _ _ Ha), (load8_ok _ _ _ H2). cbn [obind].
    rewrite (proj2 (Z.eqb_neq a 0)) by lia. cbn. f_equal. lia.
  - destruct H1 as (Ha & Hra & H1), H2 as (Hb & Hrb & H2).
    rewrite (load8_ok _ _ _ Ha), (load8_ok _ _ _ Hb). cbn [obind].
    rewrite (proj2 (Z.eqb_neq a 0)) by lia. cbn [negb andb].
    destruct (a =? b); [apply IH; done || lia|done].
Qed.

Lemma strcmp_ok p1 p2 l1 l2 m :
  cstr m p1 l1 → cstr m p2 l2 → strcmp p1 p2 m = Ok (str_diff l1 l2).
Proof.
  intros H1 H2. pose proof (cstr_fuel _ _ _ H1). apply strcmp_loop_ok; [done..|lia].
Qed.

Lemma strncmp_loop_ok n p1 p2 l1 l2 m :
  cstr m p1 l1 → cstr m p2 l2 →
  strncmp_loop n p1 p2 m = Ok (str_diff (take n l1) (take n l2)).
Proof.
  revert p1 p2 l1 l2. induction n as [|n IH]; intros p1 p2 [|a l1] [|b l2] H1 H2;
    simpl in *; try done; rewrite ?cstr_nil, ?cstr_cons in *.
  - by rewrite (load8_ok _ _ _ H1), (load8_ok _ _ _ H2).
  - destruct H2 as (Hb & Hr & _). rewrite (load8_ok _ _ _ H1), (load8_ok _ _ _ Hb). cbn [obind].
    by rewrite (proj2 (Z.eqb_neq 0 b)) by lia.
  - destruct H1 as (Ha & Hr & _). rewrite (load8_ok _ _ _ Ha), (load8_ok _ _ _ H2). cbn [obind].
    rewrite (proj2 (Z.eqb_neq a 0)) by lia. cbn. f_equal. lia.
  - destruct H1 as (Ha & Hra & H1), H2 as (Hb & Hrb & H2).
    rewrite (load8_ok _ _ _ Ha), (load8_ok _ _ _ Hb). cbn [obind].
    rewrite (proj2 (Z.eqb_neq a 0)), (proj2 (Z.eqb_neq b 0)) by lia.
    destruct (a =? b); [by apply IH|done].
Qed.

Lemma strncmp_ok p1 p2 l1 l2 n m :
  0 ≤ n → cstr m p1 l1 → cstr m p2 l2 →
  strncmp p1 p2 n m = Ok (str_diff (take (Z.to_nat n) l1) (take (Z.to_nat n) l2)).
Proof.
  intros Hn H1 H2. unfold strncmp. destruct (Z.eqb_spec n 0) as [->|]; [done|].
  by apply strncmp_loop_ok.
Qed.

(** Blocks of the same length; the bytes may be zero. *)
Lemma memcmp_loop_ok p1 p2 l1 l2 m :
  bytes_at m p1 l1 → bytes_at m p2 l2 → length l1 = length l2 →
  memcmp_loop (length l1) p1 p2 m = Ok (str_diff l1 l2).
Proof.
  revert p1 p2 l2. induction l1 as [|a l1 IH]; intros p1 p2 [|b l2] H1 H2 Hl; simpl in *; try done.
  destruct H1 as [Ha H1], H2 as [Hb H2]. rewrite (load8_ok _ _ _ Ha), (load8_ok _ _ _ Hb). cbn [obind].
  destruct (a =? b); [apply IH; [done..|lia]|done].
Qed.

Lemma str_diff_refl l : str_diff l l = 0.
Proof. induction l; simpl; [done|]. by rewrite Z.eqb_refl. Qed.

Lemma bytes_at_inj m p l1 l2 :
  bytes_at m p l1 → bytes_at m p l2 → length l1 = length l2 → l1 = l2.
Proof.
  revert p l2. induction l1 as [|a l1 IH]; intros p [|b l2] H1 H2 Hl; simpl in *; try done.
  destruct H1 as [Ha H1], H2 as [Hb H2]. f_equal; [congruence|]. eapply IH; eauto; lia.
Qed.

Lemma memcmp_ok p1 p2 l1 l2 m :
  bytes_at m p1 l1 → bytes_at m p2 l2 → length l1 = length l2 →
  memcmp p1 p2 (Z.of_nat (length l1)) m = Ok (str_diff l1 l2).
Proof.
  intros H1 H2 Hl. unfold memcmp. destruct (Z.eqb_spec p1 p2) as [->|]; simpl.
  { by rewrite (bytes_at_inj _ _ _ _ H1 H2 Hl), str_diff_refl. }
  destruct (Z.eqb_spec (Z.of_nat (length l1)) 0) as [E|].
  { destruct l1, l2; simpl in *; [done|lia..]. }
  rewrite Nat2Z.id. by apply memcmp_loop_ok.
Qed.

Lemma strchr_loop_ok fuel p c l m :
  cstr m p l → (length l < fuel)%nat →
  strchr_loop fuel p c m = Ok (match index_of c (l ++ [0]) with Some i => p + i | None => NULL end).
Proof.
  revert p fuel. induction l as [|b l IH]; intros p [|fuel] Hc Hf; cbn [length] in Hf; try lia;
    cbn [strchr_loop app index_of].
  - apply cstr_nil in Hc. rewrite (load8_ok _ _ _ Hc). cbn [obind].
    destruct (0 =? c); [by rewrite Z.add_0_r|done].
  - apply cstr_cons in Hc as (Hb & Hr & Hc). rewrite (load8_ok _ _ _ Hb). cbn [obind].
    destruct (b =? c); [by rewrite Z.add_0_r|].
    rewrite (proj2 (Z.eqb_neq b 0)) by lia. rewrite IH by (done || lia).
    destruct (index_of c (l ++ [0])); simpl; [|done]. f_equal. lia.
Qed.

Lemma strchr_ok p ch l m :
  cstr m p l →
  strchr p ch m = Ok (match index_of (u8 ch) (l ++ [0]) with Some i => p + i | None => NULL end).
Proof. intros Hc. pose proof (cstr_fuel _ _ _ Hc). apply strchr_loop_ok; [done|lia]. Qed.

Lemma strcpy_loop_ok dest src l m0 fuel k m :
  cstr m0 src l → mapped m0 dest (Z.of_nat (length l) + 1) →
  forward_safe dest src (Z.of_nat (length l) + 1) →
  (k ≤ length l)%nat → (length l - k < fuel)%nat → blit dest src 0 (Z.of_nat k) m0 m →
  ∃ m', strcpy_loop fuel (dest + Z.of_nat k) (src + Z.of_nat k) m = Ok m' ∧
    blit dest src 0 (Z.of_nat (length l) + 1) m0 m'.
Proof.
  intros Hc Hd Hf. revert k m. induction fuel as [|fuel IH]; intros k m Hk Hfu Hb; [lia|].
  pose proof (cstr_mapped _ _ _ Hc) as Hs. cbn [strcpy_loop].
  destruct (byte_blit (dest + Z.of_nat k) (src + Z.of_nat k) m) as (b & m1 & E1 & E & Hb1);
    [eapply mapped_at; [eauto with kernel|lia]..|eauto with kernel|].
  rewrite E1. cbn [obind]. rewrite E. cbn [obind].
  assert (blit dest src 0 (Z.of_nat k + 1) m0 m1) as Hb2 by (eapply blit_snoc; eauto; lia).
  assert (m0 !! (src + Z.of_nat k) = Some b) as Hsb.
  { destruct Hb as (_ & Ho & _). rewrite <-Ho by (unfold forward_safe in Hf; lia).
    unfold load8 in E1. destruct (m !! _); simpl in E1; congruence. }
  destruct Hc as [Hc Hl]. pose proof Hc as Hc'. rewrite bytes_at_lookup in Hc'.
  destruct (lookup_lt_is_Some_2 (l ++ [0]) k) as [b' Hb']; [rewrite length_app; simpl; lia|].
  pose proof (Hc' _ _ Hb') as Hx. rewrite Hsb in Hx. injection Hx as <-.
  destruct (Z.eqb_spec b 0) as [->|Hnz].
  - assert (k = length l) as ->; [|eauto].
    destruct (decide (k < length l)%nat); [|lia]. rewrite lookup_app_l in Hb' by done.
    rewrite Forall_forall in Hl. apply list_elem_of_lookup_2, Hl in Hb'. lia.
  - assert (k < length l)%nat.
    { destruct (decide (k < length l)%nat); [done|]. rewrite lookup_app_r in Hb' by lia.
      replace (k - length l)%nat with 0%nat in Hb' by lia. simpl in Hb'. congruence. }
    replace (dest + Z.of_nat k + 1) with (dest + Z.of_nat (S k)) by lia.
    replace (src + Z.of_nat k + 1) with (src + Z.of_nat (S k)) by lia.
    apply IH; [lia..|]. by replace (Z.of_nat (S k)) with (Z.of_nat k + 1) by lia.
Qed.

Lemma strcpy_ok dest src l m :
  mem_ok m → cstr m src l → mapped m dest (Z.of_nat (length l) + 1) →
  forward_safe dest src (Z.of_nat (length l) + 1) →
  ∃ m', strcpy dest src m = Ok (dest, m') ∧ blit dest src 0 (Z.of_nat (length l) + 1) m m' ∧
    cstr m' dest l.
Proof.
  intros Hok Hc Hd Hf. pose proof (cstr_fuel _ _ _ Hc).
  destruct (strcpy_loop_ok dest src l m (S (size m)) 0 m) as (m' & E & Hb);
    [done..|lia|lia|by apply blit_refl|].
  unfold strcpy. rewrite !Z.add_0_r in E. rewrite E. exists m'. split; [done|]. split; [done|].
  destruct Hc as [Hc Hl]. split; [|done]. eapply bytes_at_blit; [exact Hb| |exact Hc].
  rewrite length_app. simpl. lia.
Qed.

Definition disjoint (p n q k : Z) : Prop := p + n ≤ q ∨ q + k ≤ p.

Lemma strcat_ok dst src l1 l2 m :
  mem_ok m → cstr m dst l1 → cstr m src l2 →
  mapped m dst (Z.of_nat (length l1 + length l2) + 1) →
  disjoint dst (Z.of_nat (length l1 + length l2) + 1) src (Z.of_nat (length l2) + 1) →
  ∃ m', strcat dst src m = Ok (dst, m') ∧ cstr m' dst (l1 ++ l2) ∧
    (∀ a, ~ (dst ≤ a < dst + Z.of_nat (length l1 + length l2) + 1) → m' !! a = m !! a) ∧
    same_dom m m' ∧ mem_ok m'.
Proof.
  intros Hok H1 H2 Hd Hdis. unfold disjoint in Hdis. unfold strcat. rewrite (strlen_ok _ _ _ H1). cbn [obind].
  destruct (strcpy_ok (dst + Z.of_nat (length l1)) src l2 m) as (m' & E & (_ & Ho & Hsd & Hok') & Hc');
    [done|done|eapply mapped_sub; [done|lia..]|unfold forward_safe; lia|].
  rewrite E. cbn [obind]. exists m'. split; [done|]. split_and!.
  - destruct Hc' as [Hc' F2], H1 as [H1 F1]. split; [|by apply Forall_app].
    rewrite <-app_assoc. apply bytes_at_app. split; [|done].
    apply (bytes_at_same m); [intros a Ha; apply Ho; lia|]. by apply bytes_at_app in H1 as [? _].
  - intros a Ha. apply Ho. lia.
  - done.
  - done.
Qed.

Lemma strncpy_copy_ok n dest src l m :
  mem_ok m → cstr m src l → mapped m dest (Z.of_nat n) →
  disjoint dest (Z.of_nat n) src (Z.of_nat (length l) + 1) →
  ∃ m', strncpy_copy n dest src m = Ok ((n - length l)%nat, m') ∧ bytes_at m' dest (take n l) ∧
    (∀ a, ~ (dest ≤ a < dest + Z.of_nat n) → m' !! a = m !! a) ∧ same_dom m m' ∧ mem_ok m'.
Proof.
  unfold disjoint. revert dest src l m. induction n as [|n IH]; intros dest src l m Hok Hc Hd Hdis.
  { exists m. by split_and!. }
  cbn [strncpy_copy]. destruct l as [|b l].
  { apply cstr_nil in Hc. rewrite (load8_ok _ _ _ Hc). cbn. exists m. by split_and!. }
  pose proof Hc as Hc0. apply cstr_cons in Hc as (Hb & Hr & Hc). rewrite (load8_ok _ _ _ Hb). cbn [obind].
  rewrite (proj2 (Z.eqb_neq b 0)) by lia. cbn [length] in Hdis.
  destruct (store8_ok dest b m) as (m1 & -> & Em1 & Hd1 & Hok1);
    [rewrite <-(Z.add_0_r dest); apply Hd; lia|done|]. cbn [obind].
  assert (∀ a, a ≠ dest → m1 !! a = m !! a) as Ho1 by (intros; subst m1; by apply lookup_insert_ne).
  destruct (IH (dest + 1) (src + 1) l m1) as (m' & E & Hb' & Ho & Hsd & Hok'); [done|..|lia|].
  { apply (cstr_same m); [|done]. intros a Ha. apply Ho1. lia. }
  { apply (same_dom_mapped m); [done|]. eapply mapped_sub; [done|lia..]. }
  exists m'. split; [exact E|]. split_and!.
  - split; [|done]. rewrite Ho by lia. subst m1. rewrite lookup_insert_eq. by rewrite u8_small by lia.
  - intros a Ha. rewrite Ho, Ho1 by lia. done.
  - by eapply same_dom_trans.
  - done.
Qed.

Lemma strncpy_pad_ok n dest m :
  mem_ok m → mapped m dest (Z.of_nat n) →
  ∃ m', strncpy_pad n dest m = Ok m' ∧ filled dest 0 (Z.of_nat n) m m'.
Proof.
  revert dest m. induction n as [|n IH]; intros dest m Hok Hd; cbn [strncpy_pad].
  { exists m. split; [done|]. split; [lia|]. by split_and!. }
  destruct (store8_ok dest 0 m) as (m1 & -> & Em1 & Hd1 & Hok1);
    [rewrite <-(Z.add_0_r dest); apply Hd; lia|done|]. cbn [obind].
  destruct (IH (dest + 1) m1) as (m' & E & Hf); [done|..].
  { apply (same_dom_mapped m); [done|]. eapply mapped_sub; [done|lia..]. }
  exists m'. split; [done|]. replace (Z.of_nat (S n)) with (1 + Z.of_nat n) by lia.
  apply (filled_snoc _ _ _ _ m m1); [lia|lia| |done]. split_and!; [..|done|done].
  - intros i Hi. replace i with 0 by lia. rewrite Z.add_0_r. subst m1. by rewrite lookup_insert_eq.
  - intros a Ha. subst m1. apply lookup_insert_ne. lia.
Qed.

Lemma strncpy_ok dest src l n m :
  mem_ok m → 0 ≤ n → cstr m src l → mapped m dest n → disjoint dest n src (Z.of_nat (length l) + 1) →
  ∃ m', strncpy dest src n m = Ok (dest, m') ∧ bytes_at m' dest (resize (Z.to_nat n) 0 l) ∧
    (∀ a, ~ (dest ≤ a < dest + n) → m' !! a = m !! a) ∧ same_dom m m' ∧ mem_ok m'.
Proof.
  intros Hok Hn Hc Hd Hdis. rewrite <-(Z2Nat.id n Hn) in *. set (k := Z.to_nat n) in *. clearbody k.
  rewrite Nat2Z.id. destruct (strncpy_copy_ok k dest src l m) as (m1 & E1 & Hb1 & Ho1 & Hd1 & Hok1); [done..|].
  unfold strncpy. rewrite Nat2Z.id, E1. cbn [obind].
  replace (dest + Z.of_nat k - Z.of_nat (k - length l)) with (dest + Z.of_nat (length (take k l)))
    by (rewrite length_take; lia).
  pose proof (length_take l k) as Hlt.
  destruct (strncpy_pad_ok (k - length l) (dest + Z.of_nat (length (take k l))) m1)
    as (m2 & -> & Hi & Ho & Hd2 & Hok2).
  { done. }
  { eapply mapped_sub; [apply (same_dom_mapped m); done|lia..]. }
  cbn [obind]. exists m2. split; [done|]. split_and!.
  - rewrite resize_spec. apply bytes_at_app. split.
    + apply (bytes_at_same m1); [|done]. intros a Ha. apply Ho. lia.
    + apply bytes_at_lookup. intros i b Hb. apply lookup_replicate in Hb as [-> Hlt'].
      apply Hi. lia.
  - intros a Ha. rewrite Ho, Ho1 by lia. done.
  - by eapply same_dom_trans.
  - done.
Qed.

(** *** Tokens *)

(** How many characters at the front of [l] are (not) delimiters. *)
Fixpoint span (member : bool) (D l : list Z) : nat :=
  match l with
  | [] => 0
  | c :: l => if Bool.eqb (bool_decide (c ∈ D)) member then S (span member D l) else 0
  end.

Lemma index_of_Some c l : is_Some (index_of c l) ↔ c ∈ l.
Proof.
  induction l as [|b l IH]; simpl; [split; [by intros [? ?]|by intros ?%elem_of_nil]|].
  rewrite elem_of_cons. destruct (Z.eqb_spec b c) as [->|]; [split; eauto|].
  rewrite fmap_is_Some, IH. split; [auto|]. intros [->|]; [congruence|done].
Qed.

Lemma index_of_nonneg c l i : index_of c l = Some i → 0 ≤ i.
Proof.
  revert i. induction l as [|b l IH]; intros i; simpl; [done|]. destruct (b =? c); [by intros [= <-]|].
  destruct (index_of c l) as [j|]; simpl; [|done]. intros [= <-]. specialize (IH j eq_refl). lia.
Qed.

Lemma strchr_delim delim D c m :
  0 < delim → cstr m delim D → 0 < c < 256 →
  ∃ q, strchr delim c m = Ok q ∧ negb (q =? NULL) = bool_decide (c ∈ D).
Proof.
  intros Hd HD Hc. rewrite (strchr_ok _ _ _ _ HD), u8_small by lia. eexists. split; [done|].
  apply Bool.eq_iff_eq_true. rewrite bool_decide_eq_true, negb_true_iff, Z.eqb_neq.
  assert (c ∈ D ↔ is_Some (index_of c (D ++ [0]))) as ->.
  { rewrite index_of_Some, elem_of_app, list_elem_of_singleton. intuition lia. }
  destruct (index_of c (D ++ [0])) as [i|] eqn:E; unfold NULL.
  - apply index_of_nonneg in E. split; [eauto|lia].
  - split; [done|by intros [? ?]].
Qed.

Lemma strtok_scan_ok fuel member p delim l D m :
  0 < delim → cstr m p l → cstr m delim D → (length l < fuel)%nat →
  strtok_scan fuel member p delim m = Ok (p + Z.of_nat (span member D l)).
Proof.
  intros Hd. revert p fuel. induction l as [|c l IH]; intros p [|fuel] Hc HD Hf; simpl in Hf; try lia;
    cbn [strtok_scan span].
  - apply cstr_nil in Hc. rewrite (load8_ok _ _ _ Hc). cbn. f_equal. lia.
  - apply cstr_cons in Hc as (Hb & Hr & Hc). rewrite (load8_ok _ _ _ Hb). cbn [obind].
    rewrite (proj2 (Z.eqb_neq c 0)) by lia.
    destruct (strchr_delim delim D c m Hd HD Hr) as (q & -> & Eq). cbn [obind]. rewrite Eq.
    destruct (Bool.eqb _ _); [rewrite IH by (done || lia)|]; f_equal; lia.
Qed.

Lemma span_le member D l : (span member D l ≤ length l)%nat.
Proof. induction l as [|c l IH]; simpl; [lia|]. destruct (Bool.eqb _ _); lia. Qed.

Lemma cstr_drop m p l k :
  (k ≤ length l)%nat → cstr m p l → cstr m (p + Z.of_nat k) (drop k l).
Proof.
  revert p l. induction k as [|k IH]; intros p [|b l] Hk Hc; simpl in Hk; try lia.
  - simpl. by rewrite Z.add_0_r.
  - simpl. by rewrite Z.add_0_r.
  - apply cstr_cons in Hc as (_ & _ & Hc). simpl.
    replace (p + Z.of_nat (S k)) with (p + 1 + Z.of_nat k) by lia. apply IH; [lia|done].
Qed.

Lemma cstr_cut m p l k :
  (k ≤ length l)%nat → cstr m p l → cstr (<[p + Z.of_nat k := 0]> m) p (take k l).
Proof.
  intros Hk [Hb Hf]. split; [|by apply Forall_take]. apply bytes_at_app.
  rewrite length_take, Nat.min_l by done. split; [|split; [apply lookup_insert_eq|done]].
  rewrite <-(take_drop k l) in Hb. rewrite <-app_assoc in Hb. apply bytes_at_app in Hb as [Hb _].
  apply (bytes_at_same m); [|done]. intros a. rewrite length_take. intros Ha. apply lookup_insert_ne. lia.
Qed.

Lemma cstr_load m p l : cstr m p l → load8 p m = Ok (default 0 (head l)).
Proof.
  destruct l as [|b l]; rewrite ?cstr_nil, ?cstr_cons; [apply load8_ok|].
  intros [Hb _]. by apply load8_ok.
Qed.

(** One call of [strtok] that continues at [p]. *)
Lemma strtok_ok str p delim l D m :
  0 < p → 0 < delim → str = p ∨ str = NULL → cstr m p l → cstr m delim D →
  let a := span true D l in
  let l' := drop a l in
  let b := span false D l' in
  strtok str delim p m =
    match l' with
    | [] => Ok (NULL, NULL, m)
    | _ => match drop b l' with
           | [] => Ok (p + Z.of_nat a, NULL, m)
           | _ :: _ => Ok (p + Z.of_nat a, p + Z.of_nat a + Z.of_nat b + 1,
                           <[p + Z.of_nat a + Z.of_nat b := 0]> m)
           end
    end.
Proof.
  intros Hp Hdel Hstr Hc HD a l' b. pose proof (cstr_fuel _ _ _ Hc).
  assert ((if str =? NULL then p else str) = p) as Ec
    by (unfold NULL in *; destruct (Z.eqb_spec str 0); [done|by destruct Hstr]).
  unfold strtok. rewrite Ec. rewrite (proj2 (Z.eqb_neq p NULL)) by (unfold NULL; lia).
  rewrite (strtok_scan_ok _ true p delim l D) by (done || lia). fold a. cbn [obind].
  assert (cstr m (p + Z.of_nat a) l') as Hc' by (apply cstr_drop; [apply span_le|done]).
  rewrite (cstr_load _ _ _ Hc'). cbn [obind].
  destruct l' as [|c l0] eqn:El'; [done|]. change (default 0 (head (c :: l0))) with c.
  assert (0 < c < 256) as Hcr by (by apply cstr_cons in Hc' as (_ & ? & _)).
  rewrite (proj2 (Z.eqb_neq c 0)) by lia.
  pose proof (cstr_fuel _ _ _ Hc').
  rewrite (strtok_scan_ok _ false (p + Z.of_nat a) delim (c :: l0) D) by (done || lia). fold b. cbn [obind].
  assert (cstr m (p + Z.of_nat a + Z.of_nat b) (drop b (c :: l0))) as Hc2 by (apply cstr_drop; [apply span_le|done]).
  rewrite (cstr_load _ _ _ Hc2). cbn [obind].
  destruct (drop b (c :: l0)) as [|e r]; [done|].
  apply cstr_cons in Hc2 as (He & Hre & _). change (default 0 (head (e :: r))) with e.
  rewrite (proj2 (Z.eqb_neq e 0)) by lia. cbn [negb].
  unfold store8. rewrite (load8_ok _ _ _ He). done.
Qed.

(** The fields of [l] between delimiters, empty fields left out; [acc] is the
    field being read. *)
Fixpoint tokens (D acc l : list Z) : list (list Z) :=
  match l with
  | [] => match acc with [] => [] | _ => [acc] end
  | c :: l =>
      if bool_decide (c ∈ D)
      then match acc with [] => tokens D [] l | _ => acc :: tokens D [] l end
      else tokens D (acc ++ [c]) l
  end.

Lemma tokens_acc D acc l :
  acc ≠ [] → tokens D acc l = (acc ++ take (span false D l) l) :: tokens D [] (drop (S (span false D l)) l).
Proof.
  revert acc. induction l as [|c l IH]; intros acc Ha; cbn [tokens span].
  { destruct acc; [done|]. by rewrite app_nil_r. }
  destruct (bool_decide (c ∈ D)) eqn:E; cbn [Bool.eqb].
  - destruct acc; [done|]. by rewrite app_nil_r.
  - rewrite IH by (by destruct acc). by rewrite <-app_assoc.
Qed.

Lemma tokens_span D l :
  let l' := drop (span true D l) l in
  let b := span false D l' in
  tokens D [] l = match l' with [] => [] | _ => take b l' :: tokens D [] (drop (S b) l') end.
Proof.
  induction l as [|c l IH]; cbn [tokens span]; [done|].
  destruct (bool_decide (c ∈ D)) eqn:E; cbn [Bool.eqb drop]; [exact IH|].
  cbn [span]. rewrite E. cbn [Bool.eqb]. by rewrite tokens_acc.
Qed.

(** The usual client: [strtok(str, delim)], then [strtok(NULL, delim)] until [NULL]. *)
Fixpoint strtok_all (fuel : nat) (str delim current : Z) (m : mem) : outcome (list Z * mem) :=
  match fuel with
  | O => Timeout
  | S fuel =>
      let! (q, current, m) := strtok str delim current m in
      if q =? NULL then Ok ([], m)
      else
        let! (qs, m) := strtok_all fuel NULL delim current m in
        Ok (q :: qs, m)
  end.

Lemma span_cons_pos D l c r : drop (span true D l) l = c :: r → (0 < span false D (c :: r))%nat.
Proof.
  induction l as [|x l IH]; cbn [span drop]; [done|].
  destruct (bool_decide (x ∈ D)) eqn:E; cbn [Bool.eqb drop]; [exact IH|].
  intros [= <- <-]. cbn [span]. rewrite E. cbn. lia.
Qed.

Lemma strtok_all_ok fuel str p delim l D m :
  (length l + 2 ≤ fuel)%nat → 0 < p → 0 < delim → str = p ∨ str = NULL →
  cstr m p l → cstr m delim D → disjoint p (Z.of_nat (length l)) delim (Z.of_nat (length D) + 1) →
  ∃ qs m', strtok_all fuel str delim p m = Ok (qs, m') ∧ Forall2 (cstr m') qs (tokens D [] l) ∧
    ∀ a, ~ (p ≤ a < p + Z.of_nat (length l)) → m' !! a = m !! a.
Proof.
  unfold disjoint. revert str p l m. induction fuel as [|fuel IH]; intros str p l m Hf Hp Hdel Hstr Hc HD Hdis; [lia|].
  cbn [strtok_all]. rewrite (strtok_ok str p delim l D m Hp Hdel Hstr Hc HD).
  rewrite tokens_span. pose proof (span_le true D l) as Ha. pose proof (cstr_drop _ _ _ _ Ha Hc) as Hc'.
  assert (length (drop (span true D l) l) = (length l - span true D l)%nat) as Hl' by apply length_drop.
  set (a := span true D l) in *. destruct (drop a l) as [|c r] eqn:El'.
  { exists [], m. by split_and!. }
  pose proof (span_cons_pos D l c r El') as Hb0. pose proof (span_le false D (c :: r)) as Hb.
  pose proof (cstr_drop _ _ _ _ Hb Hc') as Hc2.
  set (b := span false D (c :: r)) in *. set (q := p + Z.of_nat a) in *.
  assert (0 < q) as Hq by lia.
  destruct (drop b (c :: r)) as [|e r'] eqn:Er.
  - cbn [obind]. rewrite (proj2 (Z.eqb_neq q NULL)) by (unfold NULL; lia).
    destruct fuel as [|fuel]; [lia|]. cbn [strtok_all]. change (strtok NULL delim NULL m) with (Ok (NULL, NULL, m)).
    exists [q], m. split; [done|]. split; [|done]. fold b.
    assert (b = length (c :: r)) as Eb by (apply (f_equal length) in Er; rewrite length_drop in Er; simpl in *; lia).
    rewrite take_ge, drop_ge by lia. apply Forall2_cons. split; [exact Hc'|constructor].
  - cbn [obind]. rewrite (proj2 (Z.eqb_neq q NULL)) by (unfold NULL; lia).
    set (m1 := <[q + Z.of_nat b := 0]> m).
    assert (∀ x, x ≠ q + Z.of_nat b → m1 !! x = m !! x) as Ho1 by (intros; by apply lookup_insert_ne).
    pose proof (length_drop (c :: r) b) as Hlb. rewrite Er in Hlb. cbn [length] in Hlb, Hl', Hb.
    assert (drop (S b) (c :: r) = r') as Er'.
    { replace (S b) with (b + 1)%nat by lia. by rewrite <-drop_drop, Er. }
    destruct (IH NULL (q + Z.of_nat b + 1) r' m1) as (qs & m' & E & Hqs & Ho).
    + lia.
    + lia.
    + done.
    + by right.
    + apply (cstr_same m); [intros x Hx; apply Ho1; lia|]. by apply cstr_cons in Hc2 as (_ & _ & ?).
    + apply (cstr_same m); [intros x Hx; apply Ho1; lia|done].
    + lia.
    + rewrite E. cbn [obind]. exists (q :: qs), m'. split; [done|]. rewrite Er'. split.
      * constructor; [|done]. apply (cstr_same m1); [|apply cstr_cut; [done|done]].
        intros x Hx. rewrite length_take in Hx. apply Ho. lia.
      * intros x Hx. rewrite Ho, Ho1 by lia. done.
Qed.

(** *** Numbers *)

Definition digit_char (c : Z) : Prop := 48 ≤ c ≤ 57.
Definition dec_value (r : Z) (l : list Z) : Z := fold_left (λ r c, r * 10 + (c - 48)) l r.

Lemma dec_value_mono r l : Forall digit_char l → 0 ≤ r → r ≤ dec_value r l.
Proof.
  revert r. induction l as [|c l IH]; intros r Hl Hr; [done|].
  apply Forall_cons in Hl as [Hc Hl]. unfold digit_char in Hc.
  cbn. specialize (IH (r * 10 + (c - 48)) Hl). unfold dec_value in IH. lia.
Qed.

Lemma atol_digits_ok fuel p r l m :
  cstr m p l → Forall digit_char l → (length l < fuel)%nat → 0 ≤ r → dec_value r l < 2 ^ 63 →
  atol_digits fuel p r m = Ok (dec_value r l).
Proof.
  revert p r fuel. induction l as [|c l IH]; intros p r [|fuel] Hc Hl Hf Hr Hv; simpl in Hf; try lia;
    cbn [atol_digits].
  - apply cstr_nil in Hc. by rewrite (load8_ok _ _ _ Hc).
  - apply cstr_cons in Hc as (Hb & Hrg & Hc). rewrite (load8_ok _ _ _ Hb). cbn [obind].
    rewrite (proj2 (Z.eqb_neq c 0)) by lia. cbn [negb]. apply Forall_cons in Hl as [Hd Hl].
    unfold digit_char in Hd. assert (dec_value r (c :: l) = dec_value (r * 10 + (c - 48)) l) as Ev by done.
    pose proof (dec_value_mono (r * 10 + (c - 48)) l Hl ltac:(lia)).
    rewrite Ev in Hv |- *. rewrite (s64_small (r * 10)), s64_small by lia. apply IH; [done|done|lia..].
Qed.

Lemma atol_spaces_ok fuel p k l m :
  cstr m p (replicate k 32 ++ l) → head l ≠ Some 32 → (k < fuel)%nat →
  atol_spaces fuel p m = Ok (p + Z.of_nat k).
Proof.
  revert p fuel. induction k as [|k IH]; intros p [|fuel] Hc Hh Hf; try lia; cbn [atol_spaces].
  - rewrite (cstr_load _ _ _ Hc). cbn [obind replicate app]. rewrite Z.add_0_r.
    destruct l as [|c l]; [done|]. change (default 0 (head (c :: l))) with c.
    rewrite (proj2 (Z.eqb_neq c 32)) by (simpl in Hh; congruence). done.
  - cbn [replicate app] in Hc. apply cstr_cons in Hc as (Hb & _ & Hc). rewrite (load8_ok _ _ _ Hb).
    cbn. rewrite IH by (done || lia). f_equal. lia.
Qed.

(** The sign characters an [atol] argument may carry. *)
Definition sign_value (s : list Z) : option Z :=
  if decide (s = []) then Some 1
  else if decide (s = [43]) then Some 1
  else if decide (s = [45]) then Some (-1)
  else None.

Lemma atol_ok p k s sv l m :
  cstr m p (replicate k 32 ++ s ++ l) → sign_value s = Some sv → Forall digit_char l →
  dec_value 0 l < 2 ^ 63 → atol p m = Ok (sv * dec_value 0 l).
Proof.
  intros Hc Hs Hl Hv. pose proof (cstr_fuel _ _ _ Hc) as Hf. rewrite !length_app, length_replicate in Hf.
  assert (head l ≠ Some 32 ∧ (default 0 (head l) =? 45) = false ∧ (default 0 (head l) =? 43) = false) as (Hl1 & Hl2 & Hl3).
  { destruct l as [|c l]; [done|]. apply Forall_cons in Hl as [Hd _]. unfold digit_char in Hd. cbn.
    split_and!; [injection 1; lia|apply Z.eqb_neq; lia..]. }
  pose proof (dec_value_mono 0 l Hl ltac:(lia)) as H0.
  unfold atol. rewrite (atol_spaces_ok _ p k (s ++ l)); [|done| |lia].
  2: { unfold sign_value in Hs. by repeat case_decide; simplify_eq. }
  cbn [obind]. apply (cstr_drop _ _ _ k) in Hc; [|rewrite length_app, length_replicate; lia].
  rewrite drop_app_length' in Hc by (by rewrite length_replicate). set (q := p + _) in *. rewrite (cstr_load _ _ _ Hc). cbn [obind].
  assert (∃ q', cstr m q' l ∧ sv = (if default 0 (head (s ++ l)) =? 45 then -1 else 1) ∧
    (if (default 0 (head (s ++ l)) =? 45) || (default 0 (head (s ++ l)) =? 43) then q + 1 else q) = q')
    as (q' & Hq' & -> & ->).
  { unfold sign_value in Hs. repeat case_decide; simplify_eq; cbn [app head] in *.
    - exists q. by rewrite Hl2, Hl3.
    - apply cstr_cons in Hc as (_ & _ & Hc). by exists (q + 1).
    - apply cstr_cons in Hc as (_ & _ & Hc). by exists (q + 1). }
  rewrite (atol_digits_ok _ q' 0 l) by (done || lia). cbn [obind]. f_equal.
  destruct (_ =? 45); [rewrite s64_small by lia|]; lia.
Qed.

(** ** Properties *)

(** The block operations: [memmove] copies [n] bytes correctly however the two
    regions overlap, [memcpy] does (by words or by bytes) when the destination does
    not start inside the source, and [memset] (by words or by bytes) fills the
    region with the low byte of its argument; all bytes outside keep their value. *)
Theorem block_ops_correct dst src n byte m :
  mem_ok m → mapped m src n → mapped m dst n → 0 ≤ src → 7 ≤ dst → 0 ≤ n →
  src + n < 2 ^ 64 → dst + n < 2 ^ 64 →
  (∃ m', memmove dst src n m = Ok (dst, m') ∧ blit dst src 0 n m m') ∧
  (dst ≤ src ∨ src + n ≤ dst → ∃ m', memcpy dst src n m = Ok (dst, m') ∧ blit dst src 0 n m m') ∧
  (∃ m', memset dst byte n m = Ok (dst, m') ∧ filled dst (u8 byte) n m m').
Proof.
  intros. split; [by apply memmove_spec|]. split; [by intros; apply memcpy_spec|].
  apply memset_spec; done || lia.
Qed.

(** The comparisons: [strcmp] and [strncmp] return 0 exactly on equal strings
    (equal prefixes of [n] characters) and a negative number exactly when the
    first is lexicographically smaller. *)
Theorem string_compare_order p1 p2 l1 l2 n m :
  cstr m p1 l1 → cstr m p2 l2 → 0 ≤ n →
  let t1 := take (Z.to_nat n) l1 in
  let t2 := take (Z.to_nat n) l2 in
  (∃ r, strcmp p1 p2 m = Ok r ∧ (r = 0 ↔ l1 = l2) ∧ (r < 0 ↔ lex_lt l1 l2)) ∧
  (∃ r, strncmp p1 p2 n m = Ok r ∧ (r = 0 ↔ t1 = t2) ∧ (r < 0 ↔ lex_lt t1 t2)).
Proof.
  intros H1 H2 Hn t1 t2. assert (byte_list l1 ∧ byte_list l2) as [F1 F2] by (split; [apply H1|apply H2]).
  assert (byte_list t1 ∧ byte_list t2) as [G1 G2] by (split; by apply Forall_take).
  split; eexists; (split; [by apply strcmp_ok || by apply strncmp_ok|]);
    (split; [by apply str_diff_zero|by apply str_diff_neg]).
Qed.

(** The string copies build the strings they should: [strlen] is the length,
    [strcpy] copies, [strcat] appends, [strncpy] copies at most [n] characters and
    pads with zeros; none writes outside the part of the destination it needs. *)
Theorem string_copy_correct dst src d s n m :
  mem_ok m → cstr m dst d → cstr m src s → 0 ≤ n →
  mapped m dst (Z.max n (Z.of_nat (length d + length s) + 1)) →
  disjoint dst (Z.max n (Z.of_nat (length d + length s) + 1)) src (Z.of_nat (length s) + 1) →
  let ns := Z.of_nat (length s) in
  strlen src m = Ok ns ∧
  (∃ m', strcpy dst src m = Ok (dst, m') ∧ cstr m' dst s ∧
     ∀ a, ~ (dst ≤ a < dst + ns + 1) → m' !! a = m !! a) ∧
  (∃ m', strcat dst src m = Ok (dst, m') ∧ cstr m' dst (d ++ s) ∧
     ∀ a, ~ (dst ≤ a < dst + Z.of_nat (length d) + ns + 1) → m' !! a = m !! a) ∧
  (∃ m', strncpy dst src n m = Ok (dst, m') ∧ bytes_at m' dst (resize (Z.to_nat n) 0 s) ∧
     ∀ a, ~ (dst ≤ a < dst + n) → m' !! a = m !! a).
Proof.
  intros Hok Hd Hs Hn Hm Hdis ns. unfold disjoint in Hdis.
  assert (∀ k, k ≤ Z.max n (Z.of_nat (length d + length s) + 1) → mapped m dst k) as Hk.
  { intros k Hk i Hi. apply Hm. lia. }
  split_and!.
  - by apply strlen_ok.
  - destruct (strcpy_ok dst src s m) as (m' & E & (_ & Ho & _) & Hc);
      [done|done|apply Hk; lia|unfold forward_safe; lia|].
    exists m'. split; [done|]. split; [done|]. intros a Ha. apply Ho. lia.
  - destruct (strcat_ok dst src d s m) as (m' & E & Hc & Ho & _);
      [done..|apply Hk; lia|unfold disjoint; lia|].
    exists m'. split; [done|]. split; [done|]. intros a Ha. apply Ho. lia.
  - destruct (strncpy_ok dst src s n m) as (m' & E & Hb & Ho & _);
      [done..|apply Hk; lia|unfold disjoint; lia|]. by exists m'.
Qed.

(** C34. [strtok] tokenizes: calling it on a string and then with [NULL] until it
    returns [NULL] yields, in order, pointers to exactly the non-empty fields
    between delimiters, each zero-terminated in place, and ends after one call per
    field and one more; only bytes of the string are overwritten. *)
Theorem strtok_tokens p delim l D current m :
  0 < p → 0 < delim → cstr m p l → cstr m delim D →
  disjoint p (Z.of_nat (length l)) delim (Z.of_nat (length D) + 1) →
  ∃ qs m', strtok_all (length l + 2) p delim current m = Ok (qs, m') ∧
    Forall2 (cstr m') qs (tokens D [] l) ∧
    ∀ a, ~ (p ≤ a < p + Z.of_nat (length l)) → m' !! a = m !! a.
Proof.
  intros Hp Hd Hc HD Hdis.
  destruct (strtok_all_ok (length l + 2) p p delim l D m) as (qs & m' & E & Hr); [lia|auto..|].
  exists qs, m'. split; [|done]. rewrite <-E. replace (length l + 2)%nat with (S (length l + 1)) by lia.
  cbn [strtok_all]. unfold strtok. by rewrite !(proj2 (Z.eqb_neq p NULL)) by (unfold NULL; lia).
Qed.

(** ** A memory to run them on: the string [a,,bc] at 100, its delimiters at 200,
    a buffer at 300. *)

Definition sample_mem : mem :=
  list_to_map (zip (seqZ 100 7) [97; 44; 44; 98; 99; 0; 1] ++ zip (seqZ 200 2) [44; 0]
    ++ zip (seqZ 300 16) (120 :: repeat 0 15)).

Lemma sample_mem_ok : mem_ok sample_mem.
Proof.
  assert (map_Forall (λ _ b, 0 ≤ b < 256) sample_mem) as Hf; [|exact Hf].
  apply (bool_decide_unpack _). vm_compute. exact I.
Qed.

Lemma sample_mapped p n :
  forallb (λ a, bool_decide (is_Some (sample_mem !! a))) (seqZ p n) = true → mapped sample_mem p n.
Proof.
  intros Hf i Hi. rewrite forallb_forall in Hf. specialize (Hf (p + i)).
  rewrite bool_decide_eq_true in Hf. apply Hf. apply list_elem_of_In, elem_of_seqZ. lia.
Qed.

Lemma sample_str : cstr sample_mem 100 [97; 44; 44; 98; 99].
Proof. split; [by repeat split|]. repeat constructor; lia. Qed.

Lemma sample_delim : cstr sample_mem 200 [44].
Proof. split; [by repeat split|]. repeat constructor; lia. Qed.

Lemma sample_dst : cstr sample_mem 300 [120].
Proof. split; [by repeat split|]. repeat constructor; lia. Qed.

Lemma block_ops_correct_witness :
  ∃ m', memmove 102 100 5 sample_mem = Ok (102, m') ∧ m' !! 105 = Some 98.
Proof.
  destruct (block_ops_correct 102 100 5 0 sample_mem) as [(m' & E & Hb & _) _].
  - exact sample_mem_ok.
  - apply sample_mapped. vm_compute. reflexivity.
  - apply sample_mapped. vm_compute. reflexivity.
  - lia.
  - lia.
  - lia.
  - lia.
  - lia.
  - exists m'. split; [exact E|]. exact (Hb 3 ltac:(lia)).
Defined.

Lemma string_compare_order_witness : ∃ r, strcmp 200 100 sample_mem = Ok r ∧ r < 0.
Proof.
  destruct (string_compare_order 200 100 _ _ 0 sample_mem sample_delim sample_str)
    as [(r & E & _ & Hr) _]; [lia|].
  exists r. split; [exact E|]. apply Hr. left. lia.
Defined.

Lemma string_copy_correct_witness :
  ∃ m', strcat 300 100 sample_mem = Ok (300, m') ∧ cstr m' 300 [120; 97; 44; 44; 98; 99].
Proof.
  destruct (string_copy_correct 300 100 _ _ 3 sample_mem sample_mem_ok sample_dst sample_str)
    as (_ & _ & (m' & E & Hc & _) & _).
  - lia.
  - apply sample_mapped. vm_compute. reflexivity.
  - right. cbn. lia.
  - exists m'. split; [exact E|exact Hc].
Defined.

Lemma strtok_tokens_witness :
  ∃ qs m', strtok_all 7 100 200 0 sample_mem = Ok (qs, m') ∧ Forall2 (cstr m') qs [[97]; [98; 99]].
Proof.
  destruct (strtok_tokens 100 200 _ _ 0 sample_mem ltac:(lia) ltac:(lia) sample_str sample_delim)
    as (qs & m' & E & Hq & _); [left; cbn; lia|].
  exists qs, m'. split; [exact E|exact Hq].
Defined.
