(* ===== verification/Misc.v ===== *)
(** * Bit search and sorting ([kernel/util/misc.c])

    [ffs] works on a 32-bit integer. [qsort] sorts the elements of an array in byte
    memory, through a temporary element from the kernel allocator; the comparison
    function reads the two elements it is given the addresses of. *)

From stdpp Require Import base gmap list.
From S2P Require Import Prelude KString.
Local Open Scope Z_scope.
Local Open Scope kernel_scope.

(** ** [ffs] *)

(** [if ((x & ones) == 0) { x >>= k; r += k; }] on the pair [x], [r]. *)
Definition ffs_step (k : Z) (m : Z * Z) : Z * Z :=
  if Z.land m.1 (Z.ones k) =? 0 then (Z.shiftr m.1 k, m.2 + k) else m.

Definition ffs (x : Z) : Z :=
  if x =? 0 then 0
  else (ffs_step 1 (ffs_step 2 (ffs_step 4 (ffs_step 8 (ffs_step 16 (x, 1)))))).2.

(** [n] is the lowest bit of [x] that is set. *)
Definition lowest (x n : Z) : Prop := 0 ≤ n ∧ Z.testbit x n = true ∧ ∀ i, 0 ≤ i < n → Z.testbit x i = false.

Lemma ffs_step_low k x r n :
  0 < k → lowest x n → n < 2 * k →
  ∃ n', lowest (ffs_step k (x, r)).1 n' ∧ n' < k ∧ n' + (ffs_step k (x, r)).2 = n + r.
Proof.
  intros Hk (H0 & Hn & Hlow) Hlt. unfold ffs_step. cbn [fst snd]. rewrite Z.land_ones by lia.
  destruct (Z.eqb_spec (x mod 2 ^ k) 0) as [Hz|Hz]; cbn [fst snd].
  - assert (k ≤ n) as Hkn.
    { destruct (Z.le_gt_cases k n) as [|Hc]; [done|]. exfalso.
      rewrite <-(Z.mod_pow2_bits_low x k n), Hz, Z.bits_0 in Hn by lia. done. }
    exists (n - k). split_and!; [|lia|lia]. split; [lia|]. split.
    + rewrite Z.shiftr_spec by lia. by replace (n - k + k) with n by lia.
    + intros i Hi. rewrite Z.shiftr_spec by lia. apply Hlow. lia.
  - exists n. split_and!; [done| |done]. destruct (Z.lt_ge_cases n k) as [|Hc]; [done|]. exfalso. apply Hz.
    apply Z.bits_inj'. intros i Hi. rewrite Z.bits_0. destruct (Z.lt_ge_cases i k).
    + rewrite Z.mod_pow2_bits_low by lia. apply Hlow. lia.
    + by rewrite Z.mod_pow2_bits_high by lia.
Qed.

Lemma lowest_below x (k : nat) :
  (∃ n, lowest x n ∧ n < Z.of_nat k) ∨ (∀ i, 0 ≤ i < Z.of_nat k → Z.testbit x i = false).
Proof.
  induction k as [|k [(n & ? & ?)|IH]]; [right; lia|left; exists n; split; [done|lia]|].
  destruct (Z.testbit x (Z.of_nat k)) eqn:Hb.
  - left. exists (Z.of_nat k). split; [|lia]. split; [lia|done].
  - right. intros i Hi. destruct (Z.eq_dec i (Z.of_nat k)) as [->|]; [done|]. apply IH. lia.
Qed.

Lemma int_lowest x : - 2 ^ 31 ≤ x < 2 ^ 31 → x ≠ 0 → ∃ n, lowest x n ∧ n < 32.
Proof.
  intros Hx Hn. destruct (lowest_below x 32) as [|Hf]; [done|]. exfalso.
  assert (x mod 2 ^ 32 = 0) as Hz.
  { apply Z.bits_inj'. intros i Hi. rewrite Z.bits_0. destruct (Z.lt_ge_cases i 32).
    - rewrite Z.mod_pow2_bits_low by lia. apply Hf. lia.
    - by rewrite Z.mod_pow2_bits_high by lia. }
  zdm.
Qed.

(** [ffs] is the number of the lowest set bit of an [int], counted from 1, and 0 for
    0. *)
Theorem ffs_correct x :
  - 2 ^ 31 ≤ x < 2 ^ 31 → if x =? 0 then ffs x = 0 else lowest x (ffs x - 1) ∧ 1 ≤ ffs x ≤ 32.
Proof.
  intros Hx. unfold ffs. destruct (Z.eqb_spec x 0) as [|Hn]; [done|].
  destruct (int_lowest x Hx Hn) as (n & Hl & Hlt).
  destruct (ffs_step_low 16 x 1 n) as (n1 & L1 & B1 & S1); [lia|done|lia|].
  set (m1 := ffs_step 16 (x, 1)) in *. destruct m1 as [x1 r1]. cbn [fst snd] in *.
  destruct (ffs_step_low 8 x1 r1 n1) as (n2 & L2 & B2 & S2); [lia|done|lia|].
  destruct (ffs_step 8 (x1, r1)) as [x2 r2]. cbn [fst snd] in *.
  destruct (ffs_step_low 4 x2 r2 n2) as (n3 & L3 & B3 & S3); [lia|done|lia|].
  destruct (ffs_step 4 (x2, r2)) as [x3 r3]. cbn [fst snd] in *.
  destruct (ffs_step_low 2 x3 r3 n3) as (n4 & L4 & B4 & S4); [lia|done|lia|].
  destruct (ffs_step 2 (x3, r3)) as [x4 r4]. cbn [fst snd] in *.
  destruct (ffs_step_low 1 x4 r4 n4) as (n5 & L5 & B5 & S5); [lia|done|lia|].
  destruct (ffs_step 1 (x4, r4)) as [x5 r5]. cbn [fst snd] in *.
  destruct L5 as (? & _). destruct Hl as (? & ?). assert (r5 - 1 = n) as -> by lia. split; [done|lia].
Qed.

(** ** [qsort] *)

Section Qsort.
Context {A : Type} {KM : KMalloc A}.
Context (compar : Z → Z → mem → outcome Z).

(** Exchange the elements at [elem1] and [elem2] through [temp]. *)
Definition swap_elems (temp elem1 elem2 size : Z) (m : mem) : outcome mem :=
  let! (_, m) := memcpy temp elem1 size m in
  let! (_, m) := memcpy elem1 elem2 size m in
  let! (_, m) := memcpy elem2 temp size m in
  Ok m.

(** The inner loop from [j] while [j < limit]. *)
Fixpoint qsort_inner (fuel : nat) (base size temp j limit : Z) (m : mem) : outcome mem :=
  if j <? limit then
    match fuel with
    | O => Timeout
    | S fuel =>
        let elem1 := u64 (base + j * size) in
        let elem2 := u64 (base + (j + 1) * size) in
        let! c := compar elem1 elem2 m in
        let! m := (if 0 <? c then swap_elems temp elem1 elem2 size m else Ok m) in
        qsort_inner fuel base size temp (j + 1) limit m
    end
  else Ok m.

(** The outer loop from [i]; both limits are computed in [size_t]. *)
Fixpoint qsort_outer (fuel : nat) (base nmemb size temp i : Z) (m : mem) : outcome mem :=
  if i <? u64 (nmemb - 1) then
    match fuel with
    | O => Timeout
    | S fuel' =>
        let! m := qsort_inner fuel base size temp 0 (u64 (nmemb - i - 1)) m in
        qsort_outer fuel' base nmemb size temp (i + 1) m
    end
  else Ok m.

Definition qsort (fuel : nat) (base nmemb size : Z) (m : mem) (a : A) : outcome (mem * A) :=
  let (temp, a) := kmalloc size a in
  if temp =? 0 then Ok (m, a)
  else let! m := qsort_outer fuel base nmemb size temp 0 m in Ok (m, kfree temp a).

End Qsort.

(** *** The algorithm on lists *)

Section Bubble.
Context {T : Type} (cmp : T → T → Z).

Definition cswap (j : nat) (l : list T) : list T :=
  match l !! j, l !! S j with
  | Some x, Some y => if 0 <? cmp x y then <[j := y]> (<[S j := x]> l) else l
  | _, _ => l
  end.

(** [n] steps from position [j]. *)
Fixpoint pass (n j : nat) (l : list T) : list T :=
  match n with
  | O => l
  | S n => pass n (S j) (cswap j l)
  end.

(** The passes with [n], [n - 1], ... steps. *)
Fixpoint bubble (n : nat) (l : list T) : list T :=
  match n with
  | O => l
  | S n' => bubble n' (pass n 0 l)
  end.

Lemma swap_perm (j : nat) (x y : T) l :
  l !! j = Some x → l !! S j = Some y → <[j := y]> (<[S j := x]> l) ≡ₚ l.
Proof.
  intros Hx Hy. rewrite <-(take_drop_middle l j x Hx) at 2.
  assert (drop (S j) l = y :: drop (S (S j)) l) as Hd by (by apply drop_S).
  rewrite Hd. rewrite <-(take_drop_middle l j x Hx) at 1. rewrite Hd.
  assert (length (take j l) = j) as Hl by (apply lookup_lt_Some in Hx; rewrite length_take; lia).
  rewrite insert_app_r_alt by lia. rewrite Hl. replace (S j - j)%nat with 1%nat by lia. cbn [insert list_insert].
  rewrite insert_app_r_alt by lia. rewrite Hl, Nat.sub_diag. cbn. by rewrite perm_swap.
Qed.

Lemma cswap_perm j l : cswap j l ≡ₚ l.
Proof. unfold cswap. repeat case_match; try done. by apply swap_perm. Qed.

Lemma pass_perm n j l : pass n j l ≡ₚ l.
Proof. revert j l. induction n as [|n IH]; intros j l; cbn; [done|]. by rewrite IH, cswap_perm. Qed.

Lemma bubble_perm n l : bubble n l ≡ₚ l.
Proof. revert l. induction n as [|n IH]; intros l; [done|]. cbn [bubble]. by rewrite IH, pass_perm. Qed.

Lemma cswap_length j l : length (cswap j l) = length l.
Proof. apply Permutation_length, cswap_perm. Qed.

Context (cmp_total : ∀ x y, 0 < cmp x y → cmp y x ≤ 0).
Context (cmp_trans : ∀ x y z, cmp x y ≤ 0 → cmp y z ≤ 0 → cmp x z ≤ 0).

(** The positions from [k] on hold the largest elements, in order. *)
Definition settled (k : nat) (l : list T) : Prop :=
  ∀ a b x y, (a < b)%nat → (k ≤ b)%nat → l !! a = Some x → l !! b = Some y → cmp x y ≤ 0.

(** The element at [j] is the largest up to there. *)
Definition top (j : nat) (l : list T) : Prop :=
  ∀ a x y, (a < j)%nat → l !! a = Some x → l !! j = Some y → cmp x y ≤ 0.

Lemma cswap_lookup j l x y a :
  l !! j = Some x → l !! S j = Some y →
  cswap j l !! a = if 0 <? cmp x y then (if decide (a = j) then Some y else if decide (a = S j) then Some x else l !! a) else l !! a.
Proof.
  intros Hx Hy. unfold cswap. rewrite Hx, Hy. destruct (0 <? cmp x y); [|done].
  pose proof (lookup_lt_Some _ _ _ Hx). pose proof (lookup_lt_Some _ _ _ Hy).
  destruct (decide (a = j)) as [->|Hj]; [rewrite list_lookup_insert_eq; [done|by rewrite length_insert]|].
  rewrite list_lookup_insert_ne by done. destruct (decide (a = S j)) as [->|]; [by rewrite list_lookup_insert_eq|].
  by rewrite list_lookup_insert_ne.
Qed.

Lemma cswap_top j l : (S j < length l)%nat → top j l → top (S j) (cswap j l).
Proof.
  intros Hl Ht a u v Ha Hu Hv.
  destruct (lookup_lt_is_Some_2 l j) as [x Hx]; [lia|]. destruct (lookup_lt_is_Some_2 l (S j) Hl) as [y Hy].
  rewrite (cswap_lookup _ _ x y a Hx Hy) in Hu. rewrite (cswap_lookup _ _ x y _ Hx Hy) in Hv. destruct (Z.ltb_spec 0 (cmp x y)) as [Hc|Hc].
  - rewrite decide_False, decide_True in Hv by lia. injection Hv as <-.
    destruct (decide (a = j)) as [->|]; [injection Hu as <-; by apply cmp_total|].
    rewrite decide_False in Hu by lia. apply (Ht a u x); [lia|done..].
  - assert (v = y) as -> by congruence. destruct (decide (a = j)) as [->|]; [by assert (u = x) as -> by congruence|].
    apply (cmp_trans _ x); [|done]. apply (Ht a u x); [lia|done..].
Qed.

Lemma cswap_settled j k l : (S j < k)%nat → (k ≤ length l)%nat → settled k l → settled k (cswap j l).
Proof.
  intros Hj Hk Hs a b u v Hab Hb Hu Hv.
  destruct (lookup_lt_is_Some_2 l j) as [x Hx]; [lia|]. destruct (lookup_lt_is_Some_2 l (S j)) as [y Hy]; [lia|].
  rewrite (cswap_lookup _ _ x y a Hx Hy) in Hu. rewrite (cswap_lookup _ _ x y _ Hx Hy) in Hv. destruct (0 <? cmp x y); [|by apply (Hs a b)].
  rewrite !decide_False in Hv by lia.
  destruct (decide (a = j)) as [->|]; [injection Hu as <-; apply (Hs (S j) b); [lia|done..]|].
  destruct (decide (a = S j)) as [->|]; [injection Hu as <-; apply (Hs j b); [lia|done..]|]. by apply (Hs a b).
Qed.

(** A pass up to the settled part settles one more position. *)
Lemma pass_settles n j k l :
  (j + n + 1 = k)%nat → (k ≤ length l)%nat → settled k l → top j l → settled (j + n) (pass n j l).
Proof.
  revert j l. induction n as [|n IH]; intros j l Hk Hl Hs Ht; cbn.
  - intros a b u v Hab Hb Hu Hv. destruct (decide (b = j)) as [->|]; [by apply (Ht a)|].
    apply (Hs a b); [done|lia|done..].
  - replace (j + S n)%nat with (S j + n)%nat by lia.
    apply IH; [lia|by rewrite cswap_length|apply cswap_settled; [lia|lia|done]|]. apply cswap_top; [lia|done].
Qed.

Lemma bubble_settles n l : (n < length l)%nat → settled (S n) l → settled 1 (bubble n l).
Proof.
  revert l. induction n as [|n IH]; intros l Hl Hs; [done|]. cbn [bubble]. apply IH.
  - rewrite (Permutation_length (pass_perm (S n) 0 l)). lia.
  - apply (pass_settles (S n) 0 (S (S n)) l); [lia|lia|done|]. intros a. lia.
Qed.

Lemma bubble_sorted l a b x y :
  (a < b)%nat → bubble (pred (length l)) l !! a = Some x → bubble (pred (length l)) l !! b = Some y → cmp x y ≤ 0.
Proof.
  intros Hab Hx Hy. destruct l as [|z l]; [done|]. cbn [pred length] in *.
  assert (settled 1 (bubble (length l) (z :: l))) as Hs.
  { apply bubble_settles; [cbn; lia|]. intros c d u v _ Hd _ Hv. apply lookup_lt_Some in Hv. cbn in Hv. lia. }
  apply (Hs a b x y); [done|lia|done..].
Qed.

End Bubble.

(** *** The array in memory *)

Section Array.
Context {A : Type} {KM : KMalloc A}.
Context (base size temp : Z) (n : nat).
Context (Hsize : 0 < size) (Hbase : 7 ≤ base) (Htemp : 7 ≤ temp).
Context (Hend : base + Z.of_nat n * size < 2 ^ 64) (Htend : temp + size < 2 ^ 64).
Context (Hdisj : disjoint base (Z.of_nat n * size) temp size).

Definition elem (j : nat) : Z := base + Z.of_nat j * size.

Definition array_at (m : mem) (l : list (list Z)) : Prop :=
  ∀ j x, l !! j = Some x → Z.of_nat (length x) = size ∧ bytes_at m (elem j) x.

(** Only the array and the temporary element may change. *)
Definition work (m m' : mem) : Prop :=
  same_dom m m' ∧ mem_ok m' ∧
  ∀ a, ~ (base ≤ a < base + Z.of_nat n * size) → ~ (temp ≤ a < temp + size) → m' !! a = m !! a.

Lemma work_trans m1 m2 m3 : work m1 m2 → work m2 m3 → work m1 m3.
Proof.
  intros (D1 & _ & O1) (D2 & K2 & O2). split; [by eapply same_dom_trans|]. split; [done|].
  intros a Ha Hb. by rewrite O2, O1.
Qed.

Lemma elem_in j : (j < n)%nat → base ≤ elem j ∧ elem j + size ≤ base + Z.of_nat n * size.
Proof. unfold elem. intros. nia. Qed.

Lemma elem_apart i j : i ≠ j → elem i + size ≤ elem j ∨ elem j + size ≤ elem i.
Proof. unfold elem. intros. destruct (Nat.lt_total i j) as [|[|]]; [left|done|right]; nia. Qed.

Lemma array_mapped m l j : array_at m l → (j < length l)%nat → mapped m (elem j) size.
Proof.
  intros Ha Hj. destruct (lookup_lt_is_Some_2 l j Hj) as [x Hx]. destruct (Ha j x Hx) as [<- Hb].
  by apply bytes_at_mapped.
Qed.

(** The bytes of [x] survive a copy to another place. *)
Lemma bytes_past m m' dest src p x :
  blit dest src 0 size m m' → p + Z.of_nat (length x) ≤ dest ∨ dest + size ≤ p → bytes_at m p x → bytes_at m' p x.
Proof. intros (_ & Ho & _ & _) Hp. apply bytes_at_same. intros a Ha. apply Ho. lia. Qed.

Lemma swap_elems_ok m l j x y :
  mem_ok m → mapped m temp size → array_at m l → length l = n → l !! j = Some x → l !! S j = Some y →
  ∃ m', swap_elems temp (elem j) (elem (S j)) size m = Ok m' ∧ work m m' ∧
    array_at m' (<[j := y]> (<[S j := x]> l)).
Proof.
  intros Hok Hm Ha Hl Hx Hy.
  pose proof (lookup_lt_Some _ _ _ Hx) as Hj. pose proof (lookup_lt_Some _ _ _ Hy) as Hj'.
  pose proof (elem_in j) as E1. pose proof (elem_in (S j)) as E2. pose proof (elem_apart j (S j)) as E12.
  assert (elem (S j) = elem j + size) as ES by (unfold elem; lia).
  destruct (Ha j x Hx) as [Lx Bx]. destruct (Ha (S j) y Hy) as [Ly By]. unfold disjoint in Hdisj.
  destruct (memcpy_spec temp (elem j) size m) as (m1 & C1 & B1);
    [done|by eapply array_mapped|done|unfold forward_safe; lia|done|lia|done|].
  destruct (memcpy_spec (elem j) (elem (S j)) size m1) as (m2 & C2 & B2);
    [by eauto with kernel|eapply blit_mapped; [exact B1|by eapply array_mapped]|eapply blit_mapped; [exact B1|by eapply array_mapped]|left; lia|lia|lia|lia|].
  destruct (memcpy_spec (elem (S j)) temp size m2) as (m3 & C3 & B3);
    [by eauto with kernel|by eauto with kernel|eapply blit_mapped; [exact B2|]; eapply blit_mapped; [exact B1|by eapply array_mapped]|unfold forward_safe; lia|lia|lia|lia|].
  exists m3. unfold swap_elems. rewrite C1. cbn [obind]. rewrite C2. cbn [obind]. rewrite C3. split; [done|]. split.
  - assert (work m m1 ∧ work m1 m2 ∧ work m2 m3) as (W1 & W2 & W3).
    { destruct B1 as (_ & O1 & D1 & K1), B2 as (_ & O2 & D2 & K2), B3 as (_ & O3 & D3 & K3).
      split_and!; (split; [done|]; split; [done|]); intros a Hn Hn2; [apply O1|apply O2|apply O3]; lia. }
    eauto using work_trans.
  - intros i z Hz. destruct (decide (i = j)) as [->|Hij].
    + rewrite list_lookup_insert_eq in Hz by (rewrite length_insert; lia). injection Hz as <-. split; [done|].
      eapply bytes_past; [exact B3|lia|]. eapply bytes_at_blit; [exact B2|lia|]. eapply bytes_past; [exact B1|lia|done].
    + rewrite list_lookup_insert_ne in Hz by done. destruct (decide (i = S j)) as [->|Hij'].
      * rewrite list_lookup_insert_eq in Hz by lia. injection Hz as <-. split; [done|].
        eapply bytes_at_blit; [exact B3|lia|]. eapply bytes_past; [exact B2|lia|]. eapply bytes_at_blit; [exact B1|lia|done].
      * rewrite list_lookup_insert_ne in Hz by done. destruct (Ha i z Hz) as [Lz Bz]. split; [done|].
        pose proof (elem_apart i j Hij). pose proof (elem_apart i (S j) Hij'). apply lookup_lt_Some in Hz. pose proof (elem_in i).
        eapply bytes_past; [exact B3|lia|]. eapply bytes_past; [exact B2|lia|]. eapply bytes_past; [exact B1|lia|done].
Qed.

(** The comparison function reads the two elements. *)
Context (compar : Z → Z → mem → outcome Z) (cmp : list Z → list Z → Z).
Context (Hcmp : ∀ m p q x y, bytes_at m p x → bytes_at m q y → Z.of_nat (length x) = size → Z.of_nat (length y) = size →
  compar p q m = Ok (cmp x y)).

Lemma elem_u64 j : (j < n)%nat → u64 (base + Z.of_nat j * size) = elem j.
Proof. intros Hj. apply u64_small. pose proof (elem_in j Hj). unfold elem in *. lia. Qed.

Lemma inner_ok fuel (j k : nat) m l :
  (k ≤ fuel)%nat → (j + k < n)%nat → mem_ok m → mapped m temp size → array_at m l → length l = n →
  ∃ m', qsort_inner compar fuel base size temp (Z.of_nat j) (Z.of_nat (j + k)) m = Ok m' ∧ work m m' ∧
    array_at m' (pass cmp k j l).
Proof.
  revert j k m l. induction fuel as [|fuel IH]; intros j k m l Hk Hn Hok Hm Ha Hl.
  { assert (k = 0%nat) as -> by lia. exists m. cbn. rewrite Nat.add_0_r, Z.ltb_irrefl. by split_and!. }
  destruct k as [|k]; cbn [qsort_inner pass].
  { exists m. rewrite Nat.add_0_r, Z.ltb_irrefl. by split_and!. }
  destruct (Z.ltb_spec (Z.of_nat j) (Z.of_nat (j + S k))) as [_|]; [|lia]. cbv zeta.
  replace (Z.of_nat j + 1) with (Z.of_nat (S j)) by lia. rewrite !elem_u64 by lia.
  destruct (lookup_lt_is_Some_2 l j) as [x Hx]; [lia|]. destruct (lookup_lt_is_Some_2 l (S j)) as [y Hy]; [lia|].
  destruct (Ha j x Hx) as [Lx Bx]. destruct (Ha (S j) y Hy) as [Ly By].
  rewrite (Hcmp m _ _ x y Bx By Lx Ly). cbn [obind].
  assert (∃ m1, (if 0 <? cmp x y then swap_elems temp (elem j) (elem (S j)) size m else Ok m) = Ok m1 ∧ work m m1 ∧
    array_at m1 (cswap cmp j l)) as (m1 & E1 & W1 & A1).
  { unfold cswap. rewrite Hx, Hy. destruct (0 <? cmp x y); [by apply swap_elems_ok|]. exists m. by split_and!. }
  rewrite E1. cbn [obind]. replace (j + S k)%nat with (S j + k)%nat by lia. destruct W1 as (D1 & K1 & O1).
  destruct (IH (S j) k m1 (cswap cmp j l)) as (m' & E' & W' & A');
    [lia|lia|done|by eapply same_dom_mapped|done|by rewrite cswap_length|].
  exists m'. split; [done|]. split; [|done]. by apply (work_trans _ m1).
Qed.

Lemma outer_ok fuel (i : nat) m l :
  (n - 1 - i ≤ fuel)%nat → (i < n)%nat → mem_ok m → mapped m temp size → array_at m l → length l = n →
  ∃ m', qsort_outer compar fuel base (Z.of_nat n) size temp (Z.of_nat i) m = Ok m' ∧ work m m' ∧
    array_at m' (bubble cmp (n - 1 - i) l).
Proof.
  assert (Z.of_nat n < 2 ^ 64) as Hn64 by nia.
  revert i m l. induction fuel as [|fuel IH]; intros i m l Hf Hi Hok Hm Ha Hl; cbn [qsort_outer].
  - rewrite u64_small by lia. destruct (Z.ltb_spec (Z.of_nat i) (Z.of_nat n - 1)); [lia|].
    replace (n - 1 - i)%nat with 0%nat by lia. exists m. by split_and!.
  - rewrite !u64_small by lia. destruct (Z.ltb_spec (Z.of_nat i) (Z.of_nat n - 1)) as [Hlt|Hge].
    + destruct (inner_ok (S fuel) 0 (n - 1 - i) m l) as (m1 & E1 & W1 & A1); [lia|lia|done..|].
      replace (Z.of_nat n - Z.of_nat i - 1) with (Z.of_nat (0 + (n - 1 - i))) by lia. change (Z.of_nat 0) with 0 in E1. rewrite E1.
      cbn [obind]. replace (Z.of_nat i + 1) with (Z.of_nat (S i)) by lia. destruct W1 as (D1 & K1 & O1).
      destruct (IH (S i) m1 (pass cmp (n - 1 - i) 0 l)) as (m' & E' & W' & A');
        [lia|lia|done|by eapply same_dom_mapped|done|by rewrite (Permutation_length (pass_perm cmp _ 0 l))|].
      exists m'. split; [done|]. split; [by apply (work_trans _ m1)|].
      replace (n - 1 - i)%nat with (S (n - 1 - S i)) by lia. cbn [bubble].
      by replace (S (n - 1 - S i)) with (n - 1 - i)%nat by lia.
    + replace (n - 1 - i)%nat with 0%nat by lia. exists m. by split_and!.
Qed.

End Array.

(** ** Properties *)

(** C35. [qsort] of at least one element, given its temporary element, ends and leaves in
    the array a permutation of the elements that is sorted by the comparison function,
    whenever that is a total preorder; no other memory changes but the temporary
    element, which is freed. *)
Theorem qsort_sorts {A} {KM : KMalloc A} compar (cmp : list Z → list Z → Z) base size temp (m : mem) (a a' : A) l :
  0 < size → 7 ≤ base → 7 ≤ temp → base + Z.of_nat (length l) * size < 2 ^ 64 → temp + size < 2 ^ 64 →
  disjoint base (Z.of_nat (length l) * size) temp size → mem_ok m → mapped m temp size →
  (∀ m p q x y, bytes_at m p x → bytes_at m q y → Z.of_nat (length x) = size → Z.of_nat (length y) = size →
     compar p q m = Ok (cmp x y)) →
  (∀ x y, 0 < cmp x y → cmp y x ≤ 0) → (∀ x y z, cmp x y ≤ 0 → cmp y z ≤ 0 → cmp x z ≤ 0) →
  kmalloc size a = (temp, a') → array_at base size m l → l ≠ [] →
  ∃ m' l', qsort compar (length l) base (Z.of_nat (length l)) size m a = Ok (m', kfree temp a') ∧
    array_at base size m' l' ∧ l' ≡ₚ l ∧
    (∀ i j x y, (i < j)%nat → l' !! i = Some x → l' !! j = Some y → cmp x y ≤ 0) ∧
    (∀ p, ~ (base ≤ p < base + Z.of_nat (length l) * size) → ~ (temp ≤ p < temp + size) → m' !! p = m !! p).
Proof.
  intros Hs Hb Ht He Hte Hd Hok Hm Hc Htot Htr Hk Ha Hl.
  assert (0 < length l)%nat as Hpos by (destruct l; [done|cbn; lia]).
  destruct (outer_ok base size temp (length l) Hs Hb Ht He Hte Hd compar cmp Hc (length l) 0 m l)
    as (m' & Eq & (_ & _ & Ho) & Ha'); [lia|lia|done..|].
  exists m', (bubble cmp (length l - 1 - 0) l). unfold qsort. rewrite Hk, (proj2 (Z.eqb_neq temp 0)) by lia.
  change (Z.of_nat 0) with 0 in Eq. rewrite Eq. cbn [obind]. split; [done|]. split; [done|]. split; [apply bubble_perm|]. split; [|done].
  intros i j x y Hij Hx Hy. replace (length l - 1 - 0)%nat with (pred (length l)) in * by lia.
  by apply (bubble_sorted cmp Htot Htr l i j).
Qed.

(** With no elements both limits wrap around: the first two places the array would have
    are compared. *)
Theorem qsort_empty_reads {A} {KM : KMalloc A} compar fuel base size (m : mem) (a : A) :
  0 ≤ base → 0 ≤ size → base + size < 2 ^ 64 → fst (kmalloc size a) ≠ 0 →
  compar base (base + size) m = Fault → qsort compar (S fuel) base 0 size m a = Fault.
Proof.
  intros Hb Hs He Hk Hc. unfold qsort. destruct (kmalloc size a) as [temp a']. cbn in Hk.
  rewrite (proj2 (Z.eqb_neq _ _) Hk). cbn [qsort_outer qsort_inner].
  change (0 <? u64 (0 - 1)) with true. change (0 <? u64 (0 - 0 - 1)) with true. cbv zeta. cbn iota.
  replace (base + 0 * size) with base by lia. replace (base + (0 + 1) * size) with (base + size) by lia.
  rewrite !u64_small by lia. by rewrite Hc.
Qed.

(** ** Witnesses: bytes in increasing order *)

Definition compare_bytes (p q : Z) (m : mem) : outcome Z :=
  let! x := load8 p m in
  let! y := load8 q m in
  Ok (x - y).

Definition first_byte (x : list Z) : Z := default 0 (hd_error x).

Definition three_bytes : mem := list_to_map [(100, 3); (101, 1); (102, 2); (200, 0)].

Lemma compare_bytes_ok (m : mem) p q x y :
  bytes_at m p x → bytes_at m q y → Z.of_nat (length x) = 1 → Z.of_nat (length y) = 1 →
  compare_bytes p q m = Ok (first_byte x - first_byte y).
Proof.
  destruct x as [|b [|]], y as [|c [|]]; cbn [length]; try lia. intros [Hb _] [Hc _] _ _.
  unfold compare_bytes. by rewrite (load8_ok _ _ _ Hb), (load8_ok _ _ _ Hc).
Qed.

Lemma three_bytes_ok : mem_ok three_bytes.
Proof.
  intros p b Hb. apply (elem_of_list_to_map_2 (M := gmap Z)) in Hb.
  repeat (apply elem_of_cons in Hb as [[= -> ->]|Hb]; [lia|]). by apply elem_of_nil in Hb.
Qed.

Lemma three_bytes_temp : mapped three_bytes 200 1.
Proof. intros i Hi. assert (i = 0) as -> by lia. by eexists. Qed.

Lemma three_bytes_array : array_at 100 1 three_bytes [[3]; [1]; [2]].
Proof. intros [|[|[|j]]] x Hx; try done; injection Hx as <-; split; done. Qed.

Lemma qsort_sorts_witness :
  ∃ m' l', qsort compare_bytes 3 100 3 1 three_bytes 200 = Ok (m', 201) ∧ array_at 100 1 m' l' ∧ l' ≡ₚ [[3]; [1]; [2]].
Proof.
  destruct (qsort_sorts compare_bytes (λ x y, first_byte x - first_byte y) 100 1 200 three_bytes 200 201 [[3]; [1]; [2]])
    as (m' & l' & Eq & Ha & Hp & _).
  - lia.
  - lia.
  - lia.
  - cbn. lia.
  - lia.
  - left. cbn. lia.
  - exact three_bytes_ok.
  - exact three_bytes_temp.
  - exact compare_bytes_ok.
  - intros x y. lia.
  - intros x y z. lia.
  - reflexivity.
  - exact three_bytes_array.
  - discriminate.
  - exists m', l'. split; [exact Eq|]. split; [exact Ha|exact Hp].
Defined.

Lemma ffs_correct_witness : lowest 48 4 ∧ ffs 48 = 5.
Proof. pose proof (ffs_correct 48 ltac:(lia)) as [H _]. split; [exact H|reflexivity]. Defined.

Lemma qsort_empty_reads_witness : qsort compare_bytes 1 300 0 1 three_bytes 200 = Fault.
Proof. apply qsort_empty_reads; [lia|lia|lia|discriminate|reflexivity]. Defined.
