(* ===== verification/PageTable.v ===== *)
(** * Sv39 page tables ([kernel/mm/pagetable.c], [include/kernel/mm/pagetable.h])

    Physical memory is a map from the addresses of 64-bit words to their values;
    physical and kernel virtual addresses coincide, as the code assumes. Pages come
    from the interface [PageAlloc], which the page allocator of [Page] implements.
    The invariant says that the tables below a root form a tree: every table page
    has one owner path. *)

From stdpp Require Import base gmap list.
From S2P Require Import Prelude.
Local Open Scope Z_scope.
Local Open Scope kernel_scope.

Definition PAGE_SHIFT : Z := 12.
Definition PTE_V : Z := 1.
Definition PTE_W : Z := 4.
Definition PTE_FLAGS_MASK : Z := 1023.
Definition PT_ENTRIES : nat := 512.
Definition MAXVA : Z := Z.shiftl 1 38.
Definition SATP_MODE_SV39 : Z := 8.

Definition PTE_FLAGS (pte : Z) : Z := Z.land pte PTE_FLAGS_MASK.
Definition PA2PPN (pa : Z) : Z := u64 (Z.shiftl (Z.shiftr pa PAGE_SHIFT) 10).
Definition PTE2PA (pte : Z) : Z := u64 (Z.shiftl (Z.shiftr pte 10) PAGE_SHIFT).
Definition PXSHIFT (level : Z) : Z := PAGE_SHIFT + 9 * level.
Definition PX (level va : Z) : Z := Z.land (Z.shiftr va (PXSHIFT level)) 511.
Definition MAKE_SATP (pagetable : Z) : Z :=
  Z.lor (u64 (Z.shiftl SATP_MODE_SV39 60)) (Z.shiftr pagetable 12).

(** [PA2PPN(pa) | perm | PTE_V] for an [int32] [perm]. *)
Definition make_pte (pa perm : Z) : Z := Z.lor (Z.lor (PA2PPN pa) (u64 perm)) PTE_V.

(** ** The page allocator, as the page tables see it

    [alloc_page] is [alloc_page()->paddr]: a fault when no page is left;
    [put_page pa] is [put_page(addr_to_page(pa))]. The clients rely on pages
    coming one by one from the list [avail], and on [put_page], where it returns, giving
    back the page it is called for or none. *)
Class PageAlloc (A : Type) : Type := {
  alloc_page : A → outcome (Z * A);
  put_page : Z → A → outcome A;
  avail : A → list Z;
  alloc_page_ok a p l :
    avail a = p :: l →
    ∃ a', alloc_page a = Ok (p, a') ∧ avail a' = l;
  put_page_ok a p a' :
    put_page p a = Ok a' → avail a' = avail a ∨ p ∉ avail a ∧ avail a' = p :: avail a;
}.

Section PageTable.
Context {A : Type} {PM : PageAlloc A}.

Record vmem := VMem {
  words : gmap Z Z;
  pages : A;
  mapped_pages : Z;
  page_tables : Z;
  satp : Z;
}.

Definition set_words (w : gmap Z Z) (s : vmem) : vmem :=
  VMem w (pages s) (mapped_pages s) (page_tables s) (satp s).
Definition set_pages (a : A) (s : vmem) : vmem :=
  VMem (words s) a (mapped_pages s) (page_tables s) (satp s).
Definition set_mapped (n : Z) (s : vmem) : vmem :=
  VMem (words s) (pages s) n (page_tables s) (satp s).
Definition set_tables (n : Z) (s : vmem) : vmem :=
  VMem (words s) (pages s) (mapped_pages s) n (satp s).
Definition set_satp (v : Z) (s : vmem) : vmem :=
  VMem (words s) (pages s) (mapped_pages s) (page_tables s) v.

Definition read_word (p : Z) (s : vmem) : outcome Z := of_option (words s !! p).
Definition write_word (p v : Z) (s : vmem) : outcome vmem :=
  let! _ := read_word p s in Ok (set_words (<[p := v]> (words s)) s).

(** [memset(pt, 0, PAGE_SIZE)] and [memcpy(dst, src, PAGE_SIZE)] on whole pages. *)
Fixpoint clear_page (n : nat) (p : Z) (m : gmap Z Z) : gmap Z Z :=
  match n with
  | O => m
  | S n => <[p + 8 * Z.of_nat n := 0]> (clear_page n p m)
  end.

Fixpoint copy_page (n : nat) (dst src : Z) (m : gmap Z Z) : outcome (gmap Z Z) :=
  match n with
  | O => Ok m
  | S n =>
      let! m := copy_page n dst src m in
      let! w := of_option (m !! (src + 8 * Z.of_nat n)) in
      Ok (<[dst + 8 * Z.of_nat n := w]> m)
  end.

Definition pagetable_server_init (s : vmem) : vmem := set_tables 0 (set_mapped 0 s).

Definition create_pagetable (s : vmem) : outcome (Z * vmem) :=
  let! (pt, a) := alloc_page (pages s) in
  let s := set_pages a s in
  if pt =? 0 then Ok (0, s)
  else
    let s := set_words (clear_page PT_ENTRIES pt (words s)) s in
    Ok (pt, set_tables (s32 (page_tables s + 1)) s).

(** [_pagetable_free_level] with [depth] levels of tables below [pagetable], and
    its loop over the entries from [i] on, [n] of them. *)
Fixpoint pagetable_free_level (depth : nat) (pagetable : Z) (s : vmem) : outcome vmem :=
  match depth with
  | O => Ok s
  | S depth =>
      (fix loop (n : nat) (i : Z) (s : vmem) : outcome vmem :=
         match n with
         | O => Ok s
         | S n =>
             let! pte := read_word (pagetable + 8 * i) s in
             let! s :=
               (if negb (Z.land pte PTE_V =? 0) then
                  let next_pt := PTE2PA pte in
                  let! s := pagetable_free_level depth next_pt s in
                  let! a := put_page next_pt (pages s) in
                  Ok (set_tables (s32 (page_tables s - 1)) (set_pages a s))
                else Ok s) in
             loop n (i + 1) s
         end) PT_ENTRIES 0 s
  end.

Definition free_pagetable (pagetable : Z) (s : vmem) : outcome vmem :=
  if pagetable =? 0 then Ok s
  else
    let! s := pagetable_free_level 2 pagetable s in
    let! a := put_page pagetable (pages s) in
    Ok (set_tables (s32 (page_tables s - 1)) (set_pages a s)).

(** One turn of the loop of [page_walk]: the next table, [None] for the early
    [return 0]. *)
Definition walk_step (level va : Z) (alloc : bool) (pt : Z) (s : vmem)
    : outcome (option Z * vmem) :=
  let pte := pt + 8 * PX level va in
  let! w := read_word pte s in
  if negb (Z.land w PTE_V =? 0) then Ok (Some (PTE2PA w), s)
  else if alloc then
    let! (pt, a) := alloc_page (pages s) in
    let s := set_pages a s in
    if pt =? 0 then Ok (None, s)
    else
      let s := set_words (clear_page PT_ENTRIES pt (words s)) s in
      let! s := write_word pte (Z.lor (PA2PPN pt) PTE_V) s in
      Ok (Some pt, s)
  else Ok (None, s).

(** The address of the PTE, 0 for [NULL]. *)
Definition page_walk (pagetable va : Z) (alloc : bool) (s : vmem) : outcome (Z * vmem) :=
  if pagetable =? 0 then Ok (0, s)
  else if MAXVA <=? va then Ok (0, s)
  else
    let! (pt, s) := walk_step 2 va alloc pagetable s in
    match pt with
    | None => Ok (0, s)
    | Some pt =>
        let! (pt, s) := walk_step 1 va alloc pt s in
        match pt with
        | None => Ok (0, s)
        | Some pt => Ok (pt + 8 * PX 0 va, s)
        end
    end.

Definition pgt_map_page (pagetable va pa perm : Z) (s : vmem) : outcome (Z * vmem) :=
  if pagetable =? 0 then Ok (-1, s)
  else
    let aligned_va := ROUNDDOWN va PAGE_SIZE in
    let aligned_pa := ROUNDDOWN pa PAGE_SIZE in
    if MAXVA <=? aligned_va then Ok (-1, s)
    else
      let! (pte, s) := page_walk pagetable aligned_va true s in
      if pte =? 0 then Ok (-1, s)
      else
        let! w := read_word pte s in
        if negb (Z.land w PTE_V =? 0) then
          if PTE2PA w =? aligned_pa then
            let! s := write_word pte (make_pte aligned_pa perm) s in
            Ok (0, s)
          else Ok (-1, s)
        else
          let! s := write_word pte (make_pte aligned_pa perm) s in
          Ok (0, set_mapped (s32 (mapped_pages s + 1)) s).

(** The loop of [pgt_map_pages]; the result of [pgt_map_page] is not looked at. *)
Fixpoint map_pages_loop (fuel : nat) (pagetable va pa size perm off : Z) (s : vmem) : outcome vmem :=
  if off <? size then
    match fuel with
    | O => Timeout
    | S fuel =>
        let! (_, s) := pgt_map_page pagetable (u64 (va + off)) (u64 (pa + off)) perm s in
        map_pages_loop fuel pagetable va pa size perm (u64 (off + PAGE_SIZE)) s
    end
  else Ok s.

Definition pgt_map_pages (pagetable va pa size perm : Z) (s : vmem) : outcome (Z * vmem) :=
  if negb (Z.land va (PAGE_SIZE - 1) =? 0) then Panic
  else if negb (Z.land pa (PAGE_SIZE - 1) =? 0) then Panic
  else
    let size := ROUNDUP size PAGE_SIZE in
    let! s := map_pages_loop (Z.to_nat (size / PAGE_SIZE)) pagetable va pa size perm 0 s in
    Ok (0, s).

(** The loop body of [pgt_unmap], for the entry [page_walk] found. *)
Definition unmap_entry (pte : Z) (free_phys : bool) (s : vmem) : outcome vmem :=
  if pte =? 0 then Ok s
  else
    let! w := read_word pte s in
    if negb (Z.land w PTE_V =? 0) then
      let! s :=
        (if free_phys then
           let! a := put_page (PTE2PA w) (pages s) in Ok (set_pages a s)
         else Ok s) in
      let! s := write_word pte 0 s in
      Ok (set_mapped (s32 (mapped_pages s - 1)) s)
    else Ok s.

Fixpoint unmap_loop (fuel : nat) (pagetable va_page end_va : Z) (free_phys : bool) (s : vmem)
    : outcome vmem :=
  if va_page <? end_va then
    match fuel with
    | O => Timeout
    | S fuel =>
        let! (pte, s) := page_walk pagetable va_page false s in
        let! s := unmap_entry pte free_phys s in
        unmap_loop fuel pagetable (u64 (va_page + PAGE_SIZE)) end_va free_phys s
    end
  else Ok s.

Definition pgt_unmap (pagetable va size : Z) (free_phys : bool) (s : vmem) : outcome (Z * vmem) :=
  if pagetable =? 0 then Ok (-1, s)
  else
    let start_va := ROUNDDOWN va PAGE_SIZE in
    let end_va := ROUNDUP (u64 (va + size)) PAGE_SIZE in
    if (MAXVA <=? start_va) || (MAXVA <? end_va) || (end_va <? start_va) then Ok (-1, s)
    else
      let! s := unmap_loop (Z.to_nat ((end_va - start_va) / PAGE_SIZE)) pagetable start_va end_va
                  free_phys s in
      Ok (0, s).

Definition lookup_pa (pagetable va : Z) (s : vmem) : outcome Z :=
  let! (pte, s) := page_walk pagetable va false s in
  if pte =? 0 then Ok 0
  else
    let! w := read_word pte s in
    if Z.land w PTE_V =? 0 then Ok 0
    else Ok (Z.lor (PTE2PA w) (Z.land va (PAGE_SIZE - 1))).

Definition pagetable_activate (pagetable : Z) (s : vmem) : vmem := set_satp (MAKE_SATP pagetable) s.

Definition pagetable_current (s : vmem) : Z :=
  if negb (Z.shiftr (satp s) 60 =? SATP_MODE_SV39) then 0
  else u64 (Z.shiftl (Z.land (satp s) (Z.shiftl 1 44 - 1)) PAGE_SHIFT).

(** One page of [pagetable_copy]; [false] is the early [return NULL]. *)
Definition copy_step (src dst va share : Z) (s : vmem) : outcome (bool * vmem) :=
  let! (src_pte, s) := page_walk src va false s in
  if src_pte =? 0 then Ok (true, s)
  else
    let! w := read_word src_pte s in
    if Z.land w PTE_V =? 0 then Ok (true, s)
    else
      let pa := PTE2PA w in
      let perm := PTE_FLAGS w in
      if share =? 0 then
        let! (new_page_base, a) := alloc_page (pages s) in
        let s := set_pages a s in
        if new_page_base =? 0 then
          let! s := free_pagetable dst s in Ok (false, s)
        else
          let! m := copy_page PT_ENTRIES new_page_base pa (words s) in
          let s := set_words m s in
          let! (dst_pte, s) := page_walk dst va true s in
          if dst_pte =? 0 then
            let! a := put_page new_page_base (pages s) in
            let! s := free_pagetable dst (set_pages a s) in Ok (false, s)
          else
            let! s := write_word dst_pte (make_pte new_page_base perm) s in
            Ok (true, set_mapped (s32 (mapped_pages s + 1)) s)
      else if share =? 1 then
        let! (dst_pte, s) := page_walk dst va true s in
        if dst_pte =? 0 then let! s := free_pagetable dst s in Ok (false, s)
        else
          let! s := write_word dst_pte (make_pte pa perm) s in
          Ok (true, set_mapped (s32 (mapped_pages s + 1)) s)
      else if share =? 2 then
        let! (dst_pte, s) := page_walk dst va true s in
        if dst_pte =? 0 then let! s := free_pagetable dst s in Ok (false, s)
        else
          let! s := write_word dst_pte (make_pte pa (Z.land perm (Z.lnot PTE_W))) s in
          let s := set_mapped (s32 (mapped_pages s + 1)) s in
          if negb (Z.land perm PTE_W =? 0) then
            let! s := write_word src_pte (make_pte pa (Z.land perm (Z.lnot PTE_W))) s in
            Ok (true, s)
          else Ok (true, s)
      else Ok (true, s).

Fixpoint copy_loop (fuel : nat) (src dst va end_ share : Z) (s : vmem) : outcome (bool * vmem) :=
  if va <? end_ then
    match fuel with
    | O => Timeout
    | S fuel =>
        let! (go, s) := copy_step src dst va share s in
        if go : bool then copy_loop fuel src dst (u64 (va + PAGE_SIZE)) end_ share s
        else Ok (false, s)
    end
  else Ok (true, s).

Definition pagetable_copy (src start end_ share : Z) (s : vmem) : outcome (Z * vmem) :=
  if src =? 0 then Ok (0, s)
  else
    let start := ROUNDDOWN start PAGE_SIZE in
    let end_ := ROUNDUP end_ PAGE_SIZE in
    let! (dst, s) := create_pagetable s in
    if dst =? 0 then Ok (0, s)
    else
      let! (go, s) := copy_loop (Z.to_nat ((end_ - start) / PAGE_SIZE)) src dst start end_ share s in
      Ok (if go : bool then dst else 0, s).

(** ** The translation a root defines *)

Definition child (s : vmem) (p i : Z) : option Z :=
  match words s !! (p + 8 * i) with
  | Some w => if Z.testbit w 0 then Some (PTE2PA w) else None
  | None => None
  end.

(** The address of the PTE of [va]. *)
Definition leaf (s : vmem) (root va : Z) : option Z :=
  match child s root (PX 2 va) with
  | None => None
  | Some p =>
      match child s p (PX 1 va) with
      | None => None
      | Some p => Some (p + 8 * PX 0 va)
      end
  end.

(** The PTE of [va], 0 when a table on the way is missing. *)
Definition pte_at (s : vmem) (root va : Z) : Z :=
  match leaf s root va with
  | Some a => default 0 (words s !! a)
  | None => 0
  end.

Definition translation (s : vmem) (root va : Z) : option Z :=
  let w := pte_at s root va in
  if Z.testbit w 0 then Some w else None.

Definition page_ok (p : Z) : Prop := p mod 4096 = 0 ∧ 0 < p < 2 ^ 56.

(** The tables of [root]: [own] gives each table page the indices that lead to it. *)
Record pt_inv (root : Z) (own : gmap Z (list Z)) (s : vmem) : Prop := {
  inv_root : own !! root = Some [];
  inv_page p path : own !! p = Some path → page_ok p;
  inv_word p path i :
    own !! p = Some path → 0 ≤ i < 512 →
    ∃ w, words s !! (p + 8 * i) = Some w ∧
      ((length path < 2)%nat → Z.testbit w 0 = true → own !! PTE2PA w = Some (path ++ [i]));
  inv_avail p : p ∈ avail (pages s) → page_ok p ∧ own !! p = None;
  inv_nodup : NoDup (avail (pages s));
}.

Definition indices (va : Z) : list Z := [PX 2 va; PX 1 va; PX 0 va].

End PageTable.

(** ** Bits of addresses and entries *)

Lemma land_valid w : negb (Z.land w PTE_V =? 0) = Z.testbit w 0.
Proof. change PTE_V with (Z.shiftl 1 0). rewrite land_pow2_eqb by lia. apply negb_involutive. Qed.

Lemma land_valid' w : (Z.land w PTE_V =? 0) = negb (Z.testbit w 0).
Proof. change PTE_V with (Z.shiftl 1 0). by rewrite land_pow2_eqb. Qed.

Lemma PX_range level va : 0 ≤ PX level va < 512.
Proof.
  unfold PX. change 511 with (Z.ones 9). rewrite Z.land_ones by lia. apply (Z.mod_pos_bound _ 512). lia.
Qed.

Lemma PX_div level va : 0 ≤ level → PX level va = va / 2 ^ (12 + 9 * level) mod 512.
Proof.
  intros. unfold PX, PXSHIFT, PAGE_SHIFT. change 511 with (Z.ones 9).
  rewrite Z.land_ones, Z.shiftr_div_pow2 by lia. done.
Qed.

(** Below [MAXVA] the three indices determine the page. *)
Lemma indices_inj va va' :
  0 ≤ va < 2 ^ 39 → 0 ≤ va' < 2 ^ 39 → indices va = indices va' → va / 4096 = va' / 4096.
Proof.
  unfold indices. rewrite !PX_div by lia. intros Hv Hv' [= E2 E1 E0].
  change (2 ^ (12 + 9 * 2)) with 1073741824 in *. change (2 ^ (12 + 9 * 1)) with 2097152 in *.
  change (2 ^ (12 + 9 * 0)) with 4096 in *. change (2 ^ 39) with 549755813888 in *. zdm.
Qed.

Lemma indices_page va va' : va / 4096 = va' / 4096 → indices va = indices va'.
Proof.
  intros E. unfold indices. rewrite !PX_div by lia.
  change (2 ^ (12 + 9 * 2)) with (4096 * 262144). change (2 ^ (12 + 9 * 1)) with (4096 * 512).
  change (2 ^ (12 + 9 * 0)) with 4096. rewrite <-!Z.div_div by lia. by rewrite E.
Qed.

Lemma PA2PPN_div pa : 0 ≤ pa < 2 ^ 56 → PA2PPN pa = pa / 4096 * 1024.
Proof.
  intros. unfold PA2PPN, PAGE_SHIFT. rewrite Z.shiftl_mul_pow2, Z.shiftr_div_pow2 by lia.
  apply u64_small. change (2 ^ 12) with 4096. change (2 ^ 10) with 1024. zdm.
Qed.

(** The address and the flags of an entry built from an aligned page. *)
Lemma entry_fields pa f :
  page_ok pa → 0 ≤ f < 1024 → PTE2PA (Z.lor (PA2PPN pa) f) = pa ∧ PTE_FLAGS (Z.lor (PA2PPN pa) f) = f.
Proof.
  intros [Ha Hr] Hf. rewrite PA2PPN_div by lia.
  assert (Z.lor (pa / 4096 * 1024) f = pa / 4096 * 1024 + f) as ->.
  { change 1024 with (2 ^ 10). rewrite <-Z.shiftl_mul_pow2 by lia.
    rewrite lor_shiftl_low by lia. by rewrite Z.shiftl_mul_pow2 by lia. }
  split.
  - unfold PTE2PA, PAGE_SHIFT. rewrite Z.shiftl_mul_pow2, Z.shiftr_div_pow2 by lia.
    change (2 ^ 12) with 4096. change (2 ^ 10) with 1024. rewrite u64_small; zdm.
  - unfold PTE_FLAGS, PTE_FLAGS_MASK. change 1023 with (Z.ones 10). rewrite Z.land_ones by lia.
    change (2 ^ 10) with 1024. zdm.
Qed.

Lemma make_pte_fields pa perm :
  page_ok pa → 0 ≤ perm < 1024 →
  PTE2PA (make_pte pa perm) = pa ∧ PTE_FLAGS (make_pte pa perm) = Z.lor perm PTE_V ∧
  Z.testbit (make_pte pa perm) 0 = true.
Proof.
  intros Hp Hf. unfold make_pte. rewrite u64_small by lia. rewrite <-Z.lor_assoc.
  destruct (entry_fields pa (Z.lor perm PTE_V) Hp) as [E1 E2].
  { change 1024 with (2 ^ 10) in *. apply word_lor; unfold PTE_V; lia. }
  split_and!; [done..|]. rewrite !Z.lor_spec. by rewrite !orb_true_r.
Qed.

Lemma table_pte_fields pt :
  page_ok pt → PTE2PA (Z.lor (PA2PPN pt) PTE_V) = pt ∧ Z.testbit (Z.lor (PA2PPN pt) PTE_V) 0 = true.
Proof.
  intros Hp. destruct (entry_fields pt PTE_V Hp) as [E _]; [unfold PTE_V; lia|].
  split; [done|]. rewrite Z.lor_spec. by rewrite orb_true_r.
Qed.

(** Entries of different tables, or different entries, are different words. *)
Lemma entry_inj p i q j :
  page_ok p → page_ok q → 0 ≤ i < 512 → 0 ≤ j < 512 → p + 8 * i = q + 8 * j → p = q ∧ i = j.
Proof. unfold page_ok. intros [? _] [? _] ? ? ?. zdm. Qed.

Lemma clear_page_in n p m i : 0 ≤ i < Z.of_nat n → clear_page n p m !! (p + 8 * i) = Some 0.
Proof.
  induction n as [|n IH]; intros Hi; [lia|]. cbn [clear_page].
  destruct (Z.eq_dec i (Z.of_nat n)) as [->|]; [apply lookup_insert_eq|].
  rewrite lookup_insert_ne by lia. apply IH. lia.
Qed.

Lemma clear_page_out n p m a :
  (∀ i, 0 ≤ i < Z.of_nat n → a ≠ p + 8 * i) → clear_page n p m !! a = m !! a.
Proof.
  induction n as [|n IH]; intros Ha; [done|]. cbn [clear_page].
  rewrite lookup_insert_ne by (intros E; apply (Ha (Z.of_nat n)); lia).
  apply IH. intros i Hi. apply Ha. lia.
Qed.

Section Walks.
Context {A : Type} {PM : PageAlloc A}.
Implicit Types (s : @vmem A) (own : gmap Z (list Z)) (root : Z).

(** [s'] differs from [s] in words and in at most [n] pages taken. *)
Definition took_pages (n : nat) s s' : Prop :=
  mapped_pages s' = mapped_pages s ∧ page_tables s' = page_tables s ∧ satp s' = satp s ∧
  (∃ k, (k ≤ n)%nat ∧ avail (pages s') = drop k (avail (pages s))).

Lemma took_refl n s : took_pages n s s.
Proof. split_and!; [done..|by exists 0%nat; split; [lia|]]. Qed.

Lemma took_trans n k s1 s2 s3 :
  took_pages n s1 s2 → took_pages k s2 s3 → took_pages (n + k) s1 s3.
Proof.
  intros (? & ? & ? & (i & Hi & Ei)) (? & ? & ? & (j & Hj & Ej)).
  split_and!; [congruence..|]. exists (i + j)%nat. split; [lia|]. by rewrite Ej, Ei, drop_drop.
Qed.

Lemma took_avail n s s' :
  took_pages n s s' → (length (avail (pages s)) - n ≤ length (avail (pages s')))%nat.
Proof. intros (_ & _ & _ & (k & Hk & ->)). rewrite length_drop. lia. Qed.

(** The tables a walk of [va] has to make. *)
Definition miss (o : option Z) : nat := match o with Some _ => 0 | None => 1 end.

Definition walk_cost s root va : nat := (miss (child s root (PX 2 va)) + miss (leaf s root va))%nat.

Lemma walk_cost_le s root va : (walk_cost s root va ≤ 2)%nat.
Proof. unfold walk_cost. destruct (child s root (PX 2 va)), (leaf s root va); simpl; lia. Qed.

(** The walk of [va] only reads entries whose path is a prefix of its indices. *)
Lemma pte_at_same root own s s' va :
  pt_inv root own s →
  (∀ q path j, own !! q = Some path → path ++ [j] `prefix_of` indices va → 0 ≤ j < 512 →
    words s' !! (q + 8 * j) = words s !! (q + 8 * j)) →
  pte_at s' root va = pte_at s root va.
Proof.
  intros Hinv Hw. pose proof (inv_root _ _ _ Hinv) as Hr.
  assert (∀ p path l, own !! p = Some path → (length path < 2)%nat → path ++ [PX l va] `prefix_of` indices va →
    child s' p (PX l va) = child s p (PX l va) ∧
    ∀ q, child s p (PX l va) = Some q → own !! q = Some (path ++ [PX l va])) as Hc.
  { intros p path l Hp Hlen Hpre. unfold child. rewrite (Hw p path) by (done || apply PX_range).
    split; [done|]. intros q. destruct (inv_word _ _ _ Hinv p path (PX l va) Hp (PX_range l va)) as (w & -> & Hc).
    destruct (Z.testbit w 0); [|done]. intros [= <-]. by apply Hc. }
  unfold pte_at, leaf.
  destruct (Hc root [] 2 Hr) as [-> H1]; [simpl; lia|by eexists [_; _]|].
  destruct (child s root (PX 2 va)) as [p1|]; [|done]. specialize (H1 p1 eq_refl).
  destruct (Hc p1 _ 1 H1) as [-> H0]; [simpl; lia|by eexists [_]|].
  destruct (child s p1 (PX 1 va)) as [p0|]; [|done]. specialize (H0 p0 eq_refl).
  rewrite (Hw p0 _ _ H0); [done|by exists []|apply PX_range].
Qed.

(** Setting an entry of a table, or hanging a fresh table below it. *)
Lemma inv_set_leaf root own s p path i w :
  pt_inv root own s → own !! p = Some path → length path = 2%nat → 0 ≤ i < 512 →
  pt_inv root own (set_words (<[p + 8 * i := w]> (words s)) s).
Proof.
  intros [Hr Hp Hw Ha Hn] Hpp Hl Hi. split; [done|done| |done|done].
  intros q pq j Hq Hj. cbn [words set_words]. destruct (Hw q pq j Hq Hj) as (v & Ev & Hv).
  destruct (Z.eq_dec (p + 8 * i) (q + 8 * j)) as [E|E].
  - apply entry_inj in E as [<- <-]; eauto. exists w. rewrite lookup_insert_eq. split; [done|].
    rewrite Hpp in Hq. injection Hq as <-. lia.
  - exists v. by rewrite lookup_insert_ne.
Qed.

Lemma inv_new_table root own s a q l p path i :
  pt_inv root own s → own !! p = Some path → (length path < 2)%nat → 0 ≤ i < 512 →
  avail (pages s) = q :: l → avail a = l →
  pt_inv root (<[q := path ++ [i]]> own)
    (set_words (<[p + 8 * i := Z.lor (PA2PPN q) PTE_V]> (clear_page PT_ENTRIES q (words s))) (set_pages a s)).
Proof.
  intros Hinv Hpp Hlen Hi Hav Hl. pose proof Hinv as [Hr Hp Hw Ha Hn].
  destruct (Ha q) as [Hq Hqn]; [rewrite Hav; apply elem_of_cons; auto|].
  destruct (table_pte_fields q Hq) as [Ep Eb].
  split; cbn [words pages set_words set_pages].
  - rewrite lookup_insert_ne; [done|]. intros ->. congruence.
  - intros x px [[<- _]|[_ Hx]]%lookup_insert_Some; [done|by apply (Hp x px)].
  - intros x px j Hx Hj. apply lookup_insert_Some in Hx as [[<- <-]|[Hne Hx]].
    + exists 0. split; [|by intros _ ?]. rewrite lookup_insert_ne.
      * apply clear_page_in. unfold PT_ENTRIES. lia.
      * intros E. apply entry_inj in E as [-> _]; [congruence|by apply (Hp p path)|done..].
    + destruct (Hw x px j Hx Hj) as (v & Ev & Hv). destruct (Z.eq_dec (p + 8 * i) (x + 8 * j)) as [E|E].
      * apply entry_inj in E as [<- <-]; [|by apply (Hp p path)|by apply (Hp x px)|done..].
        exists (Z.lor (PA2PPN q) PTE_V). rewrite lookup_insert_eq. split; [done|]. intros _ _.
        rewrite Ep, lookup_insert_eq. congruence.
      * exists v. rewrite lookup_insert_ne by done. rewrite clear_page_out.
        -- split; [done|]. intros Hl' Hv'. specialize (Hv Hl' Hv'). rewrite lookup_insert_ne; [done|].
           intros ->. congruence.
        -- intros k Hk E'. unfold PT_ENTRIES in Hk. apply entry_inj in E' as [-> _]; [congruence|by apply (Hp x px)|done|done|lia].
  - intros x Hx. rewrite Hl in Hx. destruct (Ha x) as [Hx1 Hx2]; [rewrite Hav; apply elem_of_cons; auto|]. split; [done|].
    rewrite lookup_insert_ne; [done|]. intros <-. rewrite Hav in Hn. apply NoDup_cons in Hn as [Hn _]. done.
  - rewrite Hl. rewrite Hav in Hn. by apply NoDup_cons in Hn as [_ ?].
Qed.
End Walks.

Section WalkSpecs.
Context {A : Type} {PM : PageAlloc A}.
Implicit Types (s : @vmem A) (own : gmap Z (list Z)) (root : Z).

Lemma walk_step_find level va p s w :
  words s !! (p + 8 * PX level va) = Some w → walk_step level va false p s = Ok (child s p (PX level va), s).
Proof.
  intros Hw. unfold walk_step, read_word, child. rewrite Hw. cbn [of_option obind].
  rewrite land_valid. by destruct (Z.testbit w 0).
Qed.

Lemma child_own root own s p path i q :
  pt_inv root own s → own !! p = Some path → (length path < 2)%nat → 0 ≤ i < 512 →
  child s p i = Some q → own !! q = Some (path ++ [i]).
Proof.
  intros Hinv Hp Hl Hi. unfold child. destruct (inv_word _ _ _ Hinv p path i Hp Hi) as (w & -> & Hc).
  destruct (Z.testbit w 0); [|done]. intros [= <-]. by apply Hc.
Qed.

Lemma root_nonzero root own s : pt_inv root own s → (root =? 0) = false.
Proof.
  intros Hinv. destruct (inv_page _ _ _ Hinv _ _ (inv_root _ _ _ Hinv)) as [_ ?]. apply Z.eqb_neq. lia.
Qed.

(** The leaf entry of an address, and the table it is in. *)
Lemma leaf_entry root own s va e :
  pt_inv root own s → leaf s root va = Some e →
  ∃ p w, own !! p = Some [PX 2 va; PX 1 va] ∧ e = p + 8 * PX 0 va ∧ words s !! e = Some w ∧ e ≠ 0.
Proof.
  intros Hinv. unfold leaf. destruct (child s root (PX 2 va)) as [p1|] eqn:E1; [|done].
  destruct (child s p1 (PX 1 va)) as [p0|] eqn:E0; [|done]. intros [= <-].
  apply (child_own root own s _ []) in E1; [|done|apply Hinv|simpl; lia|apply PX_range].
  apply (child_own root own s _ [PX 2 va]) in E0; [|done|done|simpl; lia|apply PX_range].
  destruct (inv_word _ _ _ Hinv p0 _ (PX 0 va) E0 (PX_range 0 va)) as (w & Hw & _).
  destruct (inv_page _ _ _ Hinv p0 _ E0) as [_ ?]. pose proof (PX_range 0 va).
  exists p0, w. split_and!; [done..|lia].
Qed.

Lemma page_walk_find root own s va :
  pt_inv root own s → page_walk root va false s =
    Ok (if MAXVA <=? va then 0 else default 0 (leaf s root va), s).
Proof.
  intros Hinv. unfold page_walk. rewrite (root_nonzero _ _ _ Hinv). destruct (MAXVA <=? va); [done|].
  destruct (inv_word _ _ _ Hinv root [] (PX 2 va)) as (w & Hw & _); [apply Hinv|apply PX_range|].
  rewrite (walk_step_find _ _ _ _ _ Hw). cbn [obind]. unfold leaf.
  destruct (child s root (PX 2 va)) as [p1|] eqn:E1; [|done].
  apply (child_own root own s _ []) in E1; [|done|apply Hinv|simpl; lia|apply PX_range].
  destruct (inv_word _ _ _ Hinv p1 _ (PX 1 va) E1 (PX_range 1 va)) as (w1 & Hw1 & _).
  rewrite (walk_step_find _ _ _ _ _ Hw1). cbn [obind]. by destruct (child s p1 (PX 1 va)).
Qed.

(** A step that may allocate: it reaches a table, and the new table maps nothing. *)
Lemma walk_step_make root own s level va p path :
  pt_inv root own s → own !! p = Some path → (length path < 2)%nat →
  (miss (child s p (PX level va)) ≤ length (avail (pages s)))%nat →
  ∃ q s' own', walk_step level va true p s = Ok (Some q, s') ∧ pt_inv root own' s' ∧
    own' !! q = Some (path ++ [PX level va]) ∧ own ⊆ own' ∧ took_pages (miss (child s p (PX level va))) s s' ∧
    child s' p (PX level va) = Some q ∧
    (∀ x px j, own !! x = Some px → 0 ≤ j < 512 → (x, j) ≠ (p, PX level va) →
       words s' !! (x + 8 * j) = words s !! (x + 8 * j)) ∧
    (child s p (PX level va) = None ∧ (∀ j, 0 ≤ j < 512 → words s' !! (q + 8 * j) = Some 0) ∨
     child s p (PX level va) = Some q ∧ s' = s).
Proof.
  intros Hinv Hp Hl Hav. pose proof (PX_range level va) as Hi. set (i := PX level va) in *.
  destruct (inv_word _ _ _ Hinv p path i Hp Hi) as (w & Hw & Hc).
  unfold walk_step, read_word. fold i. rewrite Hw. cbn [of_option obind]. rewrite land_valid.
  destruct (Z.testbit w 0) eqn:Eb.
  { assert (child s p i = Some (PTE2PA w)) as Ech by (unfold child; by rewrite Hw, Eb).
    exists (PTE2PA w), s, own. split; [done|]. split; [done|]. split; [by apply Hc|]. split; [done|].
    split; [apply took_refl|]. split; [done|]. split; [done|by right]. }
  assert (child s p i = None) as Ech by (unfold child; by rewrite Hw, Eb). rewrite Ech in *. cbn [miss] in *.
  destruct (avail (pages s)) as [|q l] eqn:El; [simpl in Hav; lia|].
  destruct (alloc_page_ok _ _ _ El) as (a & -> & Ea). cbn [obind].
  destruct (inv_avail _ _ _ Hinv q) as [Hq Hqn]; [rewrite El; apply elem_of_cons; auto|].
  destruct (table_pte_fields q Hq) as [Ep Ebit].
  rewrite (proj2 (Z.eqb_neq q 0)) by (destruct Hq; lia).
  pose proof (inv_new_table root own s a q l p path i Hinv Hp Hl Hi El Ea) as Hinv'.
  pose proof (inv_page _ _ _ Hinv p path Hp) as Hpok.
  assert (q ≠ p) as Hqp by congruence.
  assert (∀ x px j, own !! x = Some px → 0 ≤ j < 512 →
    clear_page PT_ENTRIES q (words s) !! (x + 8 * j) = words s !! (x + 8 * j)) as Hclr.
  { intros x px j Hx Hj. apply clear_page_out. intros k Hk E. unfold PT_ENTRIES in Hk.
    apply entry_inj in E as [-> _]; [congruence|by apply (inv_page _ _ _ Hinv x px)|done|done|lia]. }
  unfold write_word, read_word. cbn [words set_words set_pages].
  rewrite (Hclr p path i Hp Hi), Hw. cbn [of_option obind].
  exists q. eexists. exists (<[q := path ++ [i]]> own). split; [done|]. split; [exact Hinv'|].
  split; [apply lookup_insert_eq|]. split; [by apply insert_subseteq|]. split.
  { split_and!; [done..|]. exists 1%nat. split; [lia|]. cbn [pages set_words set_pages]. by rewrite El, Ea. }
  cbn [words set_words set_pages]. split; [|split].
  - unfold child. cbn [words set_words set_pages]. by rewrite lookup_insert_eq, Ebit, Ep.
  - intros x px j Hx Hj Hne. rewrite lookup_insert_ne; [by eapply Hclr|]. intros E.
    apply entry_inj in E as [<- <-]; [done|done|by apply (inv_page _ _ _ Hinv x px)|done..].
  - left. split; [done|]. intros j Hj. rewrite lookup_insert_ne.
    + apply clear_page_in. unfold PT_ENTRIES. lia.
    + intros E. apply entry_inj in E as [-> _]; done.
Qed.

(** [page_walk] with allocation reaches the entry and changes no translation. *)
Lemma page_walk_make root own s va :
  pt_inv root own s → va < MAXVA → (walk_cost s root va ≤ length (avail (pages s)))%nat →
  ∃ e s' own', page_walk root va true s = Ok (e, s') ∧ pt_inv root own' s' ∧
    leaf s' root va = Some e ∧ own ⊆ own' ∧ took_pages (walk_cost s root va) s s' ∧
    ∀ va', pte_at s' root va' = pte_at s root va'.
Proof.
  intros Hinv Hva Hav. unfold page_walk. rewrite (root_nonzero _ _ _ Hinv).
  rewrite (proj2 (Z.leb_gt _ _) Hva). pose proof (inv_root _ _ _ Hinv) as Hr.
  destruct (walk_step_make root own s 2 va root [] Hinv Hr) as
    (p1 & s1 & own1 & -> & Hinv1 & Hp1 & Hsub1 & Htk1 & Hch1 & Hfr1 & Hnew1); [simpl; lia|unfold walk_cost in Hav; lia|].
  cbn [obind]. pose proof (took_avail _ _ _ Htk1) as Hav1.
  assert (miss (child s1 p1 (PX 1 va)) = miss (leaf s root va)) as Ecost.
  { unfold leaf. destruct Hnew1 as [[-> Hz]|[-> ->]].
    - unfold child at 1. rewrite Hz by apply PX_range. done.
    - by destruct (child s p1 (PX 1 va)). }
  unfold walk_cost in *.
  destruct (walk_step_make root own1 s1 1 va p1 [PX 2 va] Hinv1 Hp1) as
    (p0 & s2 & own2 & -> & Hinv2 & Hp0 & Hsub2 & Htk2 & Hch2 & Hfr2 & Hnew2);
    [simpl; lia|rewrite Ecost; lia|].
  cbn [obind]. exists (p0 + 8 * PX 0 va), s2, own2. split; [done|]. split; [done|].
  pose proof (inv_root _ _ _ Hinv1) as Hr1.
  assert (child s2 root (PX 2 va) = Some p1) as Hch1'.
  { rewrite <-Hch1. unfold child. rewrite (Hfr2 root []); [done|done|apply PX_range|].
    intros [= <- _]. rewrite Hr1 in Hp1. done. }
  split; [unfold leaf; by rewrite Hch1', Hch2|]. split; [by etransitivity|].
  split; [rewrite <-Ecost; by apply (took_trans _ _ s s1 s2)|]. intros va'.
  assert (pte_at s1 root va' = pte_at s root va') as <-.
  { destruct Hnew1 as [[Hno Hz]|[_ ->]]; [|done].
    destruct (Z.eq_dec (PX 2 va') (PX 2 va)) as [E|E].
    - unfold pte_at, leaf. rewrite E, Hch1, Hno. unfold child at 1. rewrite Hz by apply PX_range. done.
    - apply (pte_at_same root own); [done|]. intros x px j Hx [k Hk] Hj. apply (Hfr1 x px); [done..|].
      intros [= -> ->]. rewrite Hr in Hx. injection Hx as <-. unfold indices in Hk; cbn [app] in Hk. congruence. }
  destruct Hnew2 as [[Hno Hz]|[_ ->]]; [|done].
  destruct (decide (PX 2 va' = PX 2 va ∧ PX 1 va' = PX 1 va)) as [[E2 E1]|E].
  - unfold pte_at, leaf. rewrite E2, E1, Hch1', Hch2, Hch1, Hno. by rewrite Hz by apply PX_range.
  - apply (pte_at_same root own1); [done|]. intros x px j Hx [k Hk] Hj. apply (Hfr2 x px); [done..|].
    intros [= -> ->]. rewrite Hp1 in Hx. injection Hx as <-. unfold indices in Hk; cbn [app] in Hk. apply E. split; congruence.
Qed.
End WalkSpecs.

Lemma MAXVA_eq : MAXVA = 274877906944.
Proof. reflexivity. Qed.

(** Two addresses below [MAXVA] on the same page. *)
Definition same_page (va va' : Z) : bool := va / 4096 =? va' / 4096.

Lemma ROUNDDOWN_page x : 0 ≤ x < 2 ^ 64 → ROUNDDOWN x PAGE_SIZE = x / 4096 * 4096.
Proof. intros. unfold ROUNDDOWN, PAGE_SIZE. apply u64_small. zdm. Qed.

Lemma ROUNDUP_page x : 0 < x ≤ 2 ^ 64 - 4096 → ROUNDUP x PAGE_SIZE = (x + 4095) / 4096 * 4096.
Proof. intros. unfold ROUNDUP, PAGE_SIZE. rewrite (u64_small (x - 1)), u64_small; zdm. Qed.

Section Specs.
Context {A : Type} {PM : PageAlloc A}.
Implicit Types (s : @vmem A) (own : gmap Z (list Z)) (root : Z).

Lemma leaf_indices s root va va' : indices va = indices va' → leaf s root va = leaf s root va'.
Proof. unfold indices, leaf. by intros [= -> -> ->]. Qed.

Lemma write_word_ok s p v w : words s !! p = Some v → write_word p w s = Ok (set_words (<[p := w]> (words s)) s).
Proof. unfold write_word, read_word. by intros ->. Qed.

(** Writing the entry of [va] sets the translation of its page and of no other. *)
Lemma write_leaf root own s va e w :
  pt_inv root own s → 0 ≤ va < MAXVA → leaf s root va = Some e →
  let s' := set_words (<[e := w]> (words s)) s in
  write_word e w s = Ok s' ∧ pt_inv root own s' ∧
  (∀ va', 0 ≤ va' < MAXVA → pte_at s' root va' = if same_page va va' then w else pte_at s root va') ∧
  ∀ va', leaf s' root va' = leaf s root va'.
Proof.
  intros Hinv Hva He s'. destruct (leaf_entry root own s va e Hinv He) as (p & v & Hp & Ee & Hv & _).
  pose proof (PX_range 0 va) as Hi. rewrite MAXVA_eq in *.
  assert (∀ va', leaf s' root va' = leaf s root va') as Hleaf.
  { intros va'. assert (∀ q path i, own !! q = Some path → (length path < 2)%nat → 0 ≤ i < 512 →
      child s' q i = child s q i) as Hc.
    { intros q path i Hq Hl Hii. unfold child, s'. cbn [words set_words]. rewrite lookup_insert_ne; [done|].
      rewrite Ee. intros E. apply entry_inj in E as [<- _]; [|by eapply inv_page|by eapply inv_page|done..].
      rewrite Hp in Hq. injection Hq as <-. simpl in Hl. lia. }
    unfold leaf. rewrite (Hc root []); [|apply Hinv|simpl; lia|apply PX_range].
    destruct (child s root (PX 2 va')) as [p1|] eqn:E1; [|done].
    apply (child_own root own s _ []) in E1; [|done|apply Hinv|simpl; lia|apply PX_range].
    rewrite (Hc p1 _ _ E1); [done|simpl; lia|apply PX_range]. }
  split; [by apply (write_word_ok s e v)|]. split; [subst e; by eapply inv_set_leaf|]. split; [|exact Hleaf].
  intros va' Hva'. unfold same_page. destruct (Z.eqb_spec (va / 4096) (va' / 4096)) as [E|E].
  - unfold pte_at. rewrite Hleaf, <-(leaf_indices s root va va' (indices_page _ _ E)), He.
    unfold s'. cbn [words set_words]. by rewrite lookup_insert_eq.
  - apply (pte_at_same root own); [done|]. intros q path j Hq [k Hk] Hj. unfold s'. cbn [words set_words].
    apply lookup_insert_ne. rewrite Ee. intros Ea.
    apply entry_inj in Ea as [<- <-]; [|by eapply inv_page|by eapply inv_page|done..].
    rewrite Hp in Hq. injection Hq as <-. apply E. apply indices_inj; [lia..|].
    unfold indices in *. cbn [app] in Hk. congruence.
Qed.

(** The page of [va] in [s'] maps to the entry [w], all other pages as in [s]. *)
Definition remapped root s s' va w : Prop :=
  ∀ va', 0 ≤ va' < MAXVA → pte_at s' root va' = if same_page va va' then w else pte_at s root va'.

Lemma pgt_map_page_spec root own s va pa perm :
  pt_inv root own s → 0 ≤ va < MAXVA → 0 ≤ pa < 2 ^ 56 → (walk_cost s root va ≤ length (avail (pages s)))%nat →
  let pa' := ROUNDDOWN pa PAGE_SIZE in
  ∃ r s' own', pgt_map_page root va pa perm s = Ok (r, s') ∧ pt_inv root own' s' ∧ own ⊆ own' ∧
    (length (avail (pages s)) - walk_cost s root va ≤ length (avail (pages s')))%nat ∧ is_Some (leaf s' root va) ∧
    page_tables s' = page_tables s ∧ satp s' = satp s ∧
    match translation s root va with
    | Some w =>
        if PTE2PA w =? pa'
        then r = 0 ∧ remapped root s s' va (make_pte pa' perm) ∧ mapped_pages s' = mapped_pages s
        else r = -1 ∧ (∀ va', pte_at s' root va' = pte_at s root va') ∧ mapped_pages s' = mapped_pages s
    | None => r = 0 ∧ remapped root s s' va (make_pte pa' perm) ∧ mapped_pages s' = s32 (mapped_pages s + 1)
    end.
Proof.
  intros Hinv Hva Hpa Hav pa'. unfold pgt_map_page. rewrite (root_nonzero _ _ _ Hinv). fold pa'.
  assert (Hva64 : 0 ≤ va < 2 ^ 64) by (rewrite MAXVA_eq in Hva; lia).
  rewrite (ROUNDDOWN_page va Hva64). set (va0 := va / 4096 * 4096) in *.
  assert (0 ≤ va0 < MAXVA ∧ va0 / 4096 = va / 4096) as [Hva0 Eva] by (rewrite MAXVA_eq in *; unfold va0; zdm).
  rewrite (proj2 (Z.leb_gt MAXVA va0)) by lia.
  assert (walk_cost s root va0 = walk_cost s root va) as Ecost.
  { pose proof (indices_page _ _ Eva) as Ei. unfold walk_cost. rewrite (leaf_indices s root va0 va Ei).
    unfold indices in Ei. by injection Ei as -> _ _. }
  destruct (page_walk_make root own s va0 Hinv (proj2 Hva0)) as
    (e & s1 & own1 & -> & Hinv1 & Hleaf & Hsub & Htk & Hpte); [by rewrite Ecost|]. cbn [obind]. rewrite Ecost in Htk.
  destruct (leaf_entry root own1 s1 va0 e Hinv1 Hleaf) as (p & w & _ & _ & Hw & He).
  rewrite (proj2 (Z.eqb_neq e 0)) by lia. unfold read_word at 1. rewrite Hw. cbn [of_option obind].
  rewrite land_valid. pose proof (took_avail _ _ _ Htk) as Hav'. destruct Htk as (M1 & M2 & M3 & _).
  assert (pte_at s root va = w) as Ew.
  { rewrite <-Hpte. unfold pte_at. by rewrite <-(leaf_indices s1 root va0 va (indices_page _ _ Eva)), Hleaf, Hw. }
  unfold translation. rewrite Ew.
  destruct (write_leaf root own1 s1 va0 e (make_pte pa' perm) Hinv1 Hva0 Hleaf) as (E & Hinv2 & Hp2 & Hlf).
  assert (leaf s1 root va = Some e) as Hleaf' by (rewrite <-Hleaf; symmetry; by apply leaf_indices, indices_page).
  assert (is_Some (leaf (set_words (<[e:=make_pte pa' perm]> (words s1)) s1) root va)) as Hlf1 by (rewrite Hlf; eauto).
  assert (∀ va', 0 ≤ va' < MAXVA → pte_at (set_words (<[e:=make_pte pa' perm]> (words s1)) s1) root va' =
    if same_page va va' then make_pte pa' perm else pte_at s root va') as Hre.
  { intros va' Hva'. rewrite Hp2, Hpte by done. unfold same_page. by rewrite Eva. }
  destruct (Z.testbit w 0); [destruct (PTE2PA w =? pa')|].
  - rewrite E. cbn [obind]. eexists 0, _, own1. split; [done|]. by split_and!.
  - exists (-1), s1, own1. split; [done|]. by split_and!.
  - rewrite E. cbn [obind]. eexists 0, _, own1. split; [done|].
    split; [by destruct Hinv2; split|]. split_and!; [done..|]. cbn. by rewrite M1.
Qed.

Lemma lookup_pa_spec root own s va :
  pt_inv root own s → 0 ≤ va →
  lookup_pa root va s = Ok (if MAXVA <=? va then 0 else
    match translation s root va with
    | Some w => Z.lor (PTE2PA w) (va mod 4096)
    | None => 0
    end).
Proof.
  intros Hinv Hva. unfold lookup_pa. rewrite (page_walk_find _ _ _ _ Hinv). cbn [obind].
  destruct (MAXVA <=? va); [done|]. unfold translation, pte_at.
  destruct (leaf s root va) as [e|] eqn:He; [|done]. cbn [default].
  destruct (leaf_entry root own s va e Hinv He) as (p & w & _ & _ & Hw & He0). cbn -[Z.testbit].
  rewrite (proj2 (Z.eqb_neq e 0)) by lia. unfold read_word. rewrite Hw. cbn [of_option obind default].
  rewrite land_valid'. change (PAGE_SIZE - 1) with (Z.ones 12). rewrite Z.land_ones by lia.
  cbn -[Z.testbit]. by destruct (Z.testbit w 0).
Qed.
End Specs.

(** ** Ranges of pages *)

(** What mapping a page leaves of its entry [w]: a page that is mapped elsewhere
    keeps its entry. *)
Definition map_result (w pa perm : Z) : Z :=
  if Z.testbit w 0 && negb (PTE2PA w =? pa) then w else make_pte pa perm.

Section Ranges.
Context {A : Type} {PM : PageAlloc A}.
Implicit Types (s : @vmem A) (own : gmap Z (list Z)) (root : Z).

Lemma map_page_result root own s va pa perm :
  pt_inv root own s → 0 ≤ va < MAXVA → 0 ≤ pa < 2 ^ 56 → (walk_cost s root va ≤ length (avail (pages s)))%nat →
  let pa' := pa / 4096 * 4096 in
  ∃ r s' own', pgt_map_page root va pa perm s = Ok (r, s') ∧ pt_inv root own' s' ∧ own ⊆ own' ∧
    (length (avail (pages s)) - walk_cost s root va ≤ length (avail (pages s')))%nat ∧ is_Some (leaf s' root va) ∧
    remapped root s s' va (map_result (pte_at s root va) pa' perm).
Proof.
  intros Hinv Hva Hpa Hav pa'.
  destruct (pgt_map_page_spec root own s va pa perm Hinv Hva Hpa Hav) as
    (r & s' & own' & E & Hinv' & Hsub & Hav' & Hlf & _ & _ & Hm).
  rewrite ROUNDDOWN_page in Hm by lia. fold pa' in Hm.
  exists r, s', own'. split; [done|]. split; [done|]. split; [done|]. split; [done|]. split; [done|].
  unfold translation, map_result in *. destruct (Z.testbit (pte_at s root va) 0); cbn [andb negb].
  - destruct (PTE2PA (pte_at s root va) =? pa'); cbn [andb negb]; [by destruct Hm as (_ & ? & _)|].
    destruct Hm as (_ & Hs & _). intros va' Hva'. rewrite Hs. unfold same_page.
    destruct (Z.eqb_spec (va / 4096) (va' / 4096)) as [E'|]; [|done].
    unfold pte_at. by rewrite (leaf_indices s root va va' (indices_page _ _ E')).
  - by destruct Hm as (_ & ? & _).
Qed.

Lemma pte_at_same_page s root va va' : same_page va va' = true → pte_at s root va = pte_at s root va'.
Proof.
  intros E%Z.eqb_eq. unfold pte_at. by rewrite (leaf_indices s root va va' (indices_page _ _ E)).
Qed.

(** [va'] is in the range of [n] pages from [va], and the part from page [k] on. *)
Definition in_range (va n va' : Z) : bool := (va <=? va') && (va' <? va + 4096 * n).

(** The table pages the range of [n] pages from [va] may need: one for each 2 MiB and
    each 1 GiB it meets. [tables_after] are those of the blocks after the first. *)
Definition tables_after (va n : Z) : Z :=
  ((va + 4096 * n - 1) / 2097152 - va / 2097152) + ((va + 4096 * n - 1) / 1073741824 - va / 1073741824).

Definition tables_needed (va n : Z) : Z := tables_after va n + 2.

(** The walk of the page after one that has its tables. *)
Lemma walk_cost_next s root va :
  0 ≤ va → is_Some (leaf s root va) →
  Z.of_nat (walk_cost s root (va + 4096)) ≤
    ((va + 4096) / 2097152 - va / 2097152) + ((va + 4096) / 1073741824 - va / 1073741824).
Proof.
  intros Hva [e He]. pose proof (walk_cost_le s root (va + 4096)) as Hle. unfold leaf in He.
  destruct (child s root (PX 2 va)) as [p1|] eqn:E1; [|done]. destruct (child s p1 (PX 1 va)) as [p0|] eqn:E0; [|done].
  rewrite PX_div in E1, E0 by lia. change (2 ^ (12 + 9 * 2)) with 1073741824 in E1. change (2 ^ (12 + 9 * 1)) with 2097152 in E0.
  destruct (Z.eq_dec ((va + 4096) / 1073741824) (va / 1073741824)) as [Eg|Eg]; [|zdm].
  unfold walk_cost, leaf. rewrite !PX_div by lia. change (2 ^ (12 + 9 * 2)) with 1073741824. change (2 ^ (12 + 9 * 1)) with 2097152.
  rewrite Eg, E1. destruct (Z.eq_dec ((va + 4096) / 2097152) (va / 2097152)) as [Er|Er].
  - rewrite Er, E0. simpl. lia.
  - assert (va / 2097152 < (va + 4096) / 2097152) as Hlt by (clear -Hva Er; zdm).
    destruct (child s p1 ((va + 4096) / 2097152 mod 512)); simpl; lia.
Qed.

Lemma map_pages_loop_spec root own s va pa n perm fuel k :
  pt_inv root own s → va mod 4096 = 0 → pa mod 4096 = 0 → 0 ≤ va → va + 4096 * n ≤ MAXVA →
  0 ≤ pa → pa + 4096 * n ≤ 2 ^ 56 → 0 ≤ k < n → n - k ≤ Z.of_nat fuel →
  tables_after (va + 4096 * k) (n - k) + Z.of_nat (walk_cost s root (va + 4096 * k)) ≤ Z.of_nat (length (avail (pages s))) →
  ∃ s' own', map_pages_loop fuel root va pa (4096 * n) perm (4096 * k) s = Ok s' ∧
    pt_inv root own' s' ∧ own ⊆ own' ∧
    Z.of_nat (length (avail (pages s))) - (tables_after (va + 4096 * k) (n - k) + Z.of_nat (walk_cost s root (va + 4096 * k))) ≤
      Z.of_nat (length (avail (pages s'))) ∧
    ∀ va', 0 ≤ va' < MAXVA → pte_at s' root va' =
      if in_range (va + 4096 * k) (n - k) va'
      then map_result (pte_at s root va') (pa + (va' - va) / 4096 * 4096) perm else pte_at s root va'.
Proof.
  intros Hinv Hva Hpa Hv0 Hvm Hp0 Hpm. revert own s k Hinv.
  induction fuel as [|fuel IH]; intros own s k Hinv Hk Hf Hav; cbn [map_pages_loop]; [lia|].
  rewrite (proj2 (Z.ltb_lt (4096 * k) (4096 * n))) by lia.
  pose proof MAXVA_eq as EM. unfold PAGE_SIZE. rewrite !u64_small by lia.
  assert (0 ≤ tables_after (va + 4096 * k) (n - k)) as Hta by (unfold tables_after; clear -Hk Hv0; zdm).
  destruct (map_page_result root own s (va + 4096 * k) (pa + 4096 * k) perm)
    as (r & s1 & own1 & -> & Hinv1 & Hsub & Hav1 & Hlf & Hre); [done|lia|lia|lia|]. cbn [obind].
  replace (4096 * k + 4096) with (4096 * (k + 1)) by lia.
  assert (∀ va', 0 ≤ va' < MAXVA → same_page (va + 4096 * k) va' = true →
    map_result (pte_at s root (va + 4096 * k)) ((pa + 4096 * k) / 4096 * 4096) perm =
    map_result (pte_at s root va') (pa + (va' - va) / 4096 * 4096) perm) as Hhere.
  { intros va' Hva' E. rewrite (pte_at_same_page s root _ va' E). apply Z.eqb_eq in E.
    assert ((va' - va) / 4096 = k) as -> by (clear -Hva E; zdm). f_equal. clear -Hpa. zdm. }
  destruct (Z.eq_dec (k + 1) n) as [<-|Hne].
  { exists s1, own1. split; [destruct fuel; cbn [map_pages_loop]; by rewrite Z.ltb_irrefl|]. split; [done|]. split; [done|]. split; [lia|].
    intros va' Hva'. rewrite Hre by done. unfold in_range. destruct (same_page (va + 4096 * k) va') eqn:E.
    - rewrite (Hhere va' Hva' E). apply Z.eqb_eq in E. rewrite (proj2 (Z.leb_le _ _)), (proj2 (Z.ltb_lt _ _)) by (clear -Hva E; zdm). done.
    - apply Z.eqb_neq in E. destruct (Z.leb_spec (va + 4096 * k) va'), (Z.ltb_spec va' (va + 4096 * k + 4096 * (k + 1 - k))); (done || (clear -Hva E H H0; zdm)). }
  pose proof (walk_cost_next s1 root (va + 4096 * k) ltac:(lia) Hlf) as Hnext.
  replace (va + 4096 * k + 4096) with (va + 4096 * (k + 1)) in Hnext by lia.
  assert (tables_after (va + 4096 * (k + 1)) (n - (k + 1)) + Z.of_nat (walk_cost s1 root (va + 4096 * (k + 1))) ≤ tables_after (va + 4096 * k) (n - k)) as Hstep.
  { unfold tables_after. replace (va + 4096 * (k + 1) + 4096 * (n - (k + 1)) - 1) with (va + 4096 * k + 4096 * (n - k) - 1) by lia. lia. }
  destruct (IH own1 s1 (k + 1) Hinv1) as (s2 & own2 & -> & Hinv2 & Hsub2 & Hav2 & Hpte); [lia..|].
  exists s2, own2. split; [done|]. split; [done|]. split; [by etransitivity|]. split; [lia|].
  intros va' Hva'. rewrite Hpte, Hre by done. unfold in_range. destruct (same_page (va + 4096 * k) va') eqn:E.
  - rewrite (Hhere va' Hva' E). apply Z.eqb_eq in E.
    rewrite (proj2 (Z.leb_gt (va + 4096 * (k + 1)) va')) by zdm. cbn [andb].
    rewrite (proj2 (Z.leb_le _ _)), (proj2 (Z.ltb_lt _ _)) by zdm. done.
  - apply Z.eqb_neq in E. destruct (Z.leb_spec (va + 4096 * (k + 1)) va').
    + rewrite (proj2 (Z.leb_le _ _)) by lia.
      by replace (va + 4096 * (k + 1) + 4096 * (n - (k + 1))) with (va + 4096 * k + 4096 * (n - k)) by lia.
    + rewrite (proj2 (Z.leb_gt (va + 4096 * k) va')) by zdm. done.
Qed.

(** [pgt_map_pages] of a range of pages. *)
Lemma pgt_map_pages_spec root own s va pa n size perm :
  pt_inv root own s → va mod 4096 = 0 → pa mod 4096 = 0 → 0 ≤ va → 0 ≤ pa →
  4096 * (n - 1) < size ≤ 4096 * n → 0 < n → va + 4096 * n ≤ MAXVA → pa + 4096 * n ≤ 2 ^ 56 →
  tables_needed va n ≤ Z.of_nat (length (avail (pages s))) →
  ∃ s' own', pgt_map_pages root va pa size perm s = Ok (0, s') ∧ pt_inv root own' s' ∧
    Z.of_nat (length (avail (pages s))) - tables_needed va n ≤ Z.of_nat (length (avail (pages s'))) ∧
    ∀ va', 0 ≤ va' < MAXVA → pte_at s' root va' =
      if in_range va n va'
      then map_result (pte_at s root va') (pa + (va' - va) / 4096 * 4096) perm
      else pte_at s root va'.
Proof.
  intros Hinv Hva Hpa Hv0 Hp0 Hsz Hn Hvm Hpm Hav. pose proof MAXVA_eq as EM. unfold pgt_map_pages, tables_needed in *.
  change (PAGE_SIZE - 1) with (Z.ones 12). rewrite !Z.land_ones by lia.
  change (2 ^ 12) with 4096. rewrite Hva, Hpa. cbn [Z.eqb negb].
  rewrite ROUNDUP_page by lia. replace ((size + 4095) / 4096 * 4096) with (4096 * n) by (clear -Hsz; zdm).
  unfold PAGE_SIZE. replace (4096 * n / 4096) with n by (clear -Hsz; zdm). pose proof (walk_cost_le s root va) as Hcost.
  destruct (map_pages_loop_spec root own s va pa n perm (Z.to_nat n) 0) as (s' & own' & E & Hinv' & _ & Hav' & Hpte);
    [done|done|done|lia..|rewrite Z.mul_0_r, Z.add_0_r, Z.sub_0_r; lia|].
  rewrite Z.mul_0_r, ?Z.add_0_r, ?Z.sub_0_r in *. rewrite E. cbn [obind]. exists s', own'. split; [done|]. split; [done|]. split; [lia|]. done.
Qed.

(** [put_page] of the pages [l], one after the other. *)
Fixpoint put_all (l : list Z) (a : A) : outcome A :=
  match l with
  | [] => Ok a
  | p :: l => let! a := put_page p a in put_all l a
  end.

(** The physical pages the range maps, in the order of their virtual addresses. *)
Definition mapped_range s root (va n : Z) : list Z :=
  omap (λ i, PTE2PA <$> translation s root (va + 4096 * i)) (seqZ 0 n).

(** A page that may be given back without harm to the tables. *)
Definition may_free own (p : Z) : Prop := page_ok p ∧ own !! p = None.

Lemma put_all_inv root own s l a :
  pt_inv root own s → Forall (may_free own) l → put_all l (pages s) = Ok a → pt_inv root own (set_pages a s).
Proof.
  revert s. induction l as [|p l IH]; intros s Hinv Hl; cbn [put_all]; [by intros [= <-]; destruct s, Hinv; split|].
  apply Forall_cons in Hl as [[Hp Ho] Hl]. destruct (put_page p (pages s)) as [a1| | |] eqn:E; cbn [obind]; try done.
  intros Ha. assert (pt_inv root own (set_pages a1 s)) as Hinv1.
  { destruct Hinv as [H1 H2 H3 H4 H5]. destruct (put_page_ok _ _ _ E) as [Ea|[Hn Ea]]; split; cbn [pages set_pages]; rewrite ?Ea; try done.
    - intros q [->|Hq]%elem_of_cons; [done|by apply H4].
    - by apply NoDup_cons. }
  exact (IH _ Hinv1 Hl Ha).
Qed.

(** What clearing the entry of [va] leaves. *)
Definition unmapped_from root s s' (va n : Z) : Prop :=
  ∀ va', 0 ≤ va' < MAXVA → translation s' root va' = if in_range va n va' then None else translation s root va'.

(** The pages [free_phys] asks for. *)
Definition freed (fp : bool) (l : list Z) : list Z := if fp then l else [].

Lemma unmap_entry_spec root own s va fp :
  pt_inv root own s → va mod 4096 = 0 → 0 ≤ va < MAXVA → Forall (may_free own) (freed fp (mapped_range s root va 1)) →
  match put_all (freed fp (mapped_range s root va 1)) (pages s) with
  | Ok a => ∃ s', unmap_entry (default 0 (leaf s root va)) fp s = Ok s' ∧ pt_inv root own s' ∧ pages s' = a ∧ unmapped_from root s s' va 1
  | o => (let! s' := unmap_entry (default 0 (leaf s root va)) fp s in Ok (pages s')) = o
  end.
Proof.
  intros Hinv Hal Hva. assert (∀ va', in_range va 1 va' = same_page va va') as Hone.
  { intros va'. unfold in_range, same_page. destruct (Z.leb_spec va va'), (Z.ltb_spec va' (va + 4096 * 1)), (Z.eqb_spec (va / 4096) (va' / 4096));
      cbn; done || (exfalso; clear -Hal H H0 n; zdm) || (exfalso; clear -Hal H H0 e; zdm) || (exfalso; clear -Hal H e; zdm). }
  assert (mapped_range s root va 1 = match translation s root va with Some w => [PTE2PA w] | None => [] end) as ->.
  { unfold mapped_range. change (seqZ 0 1) with [0]. cbn [omap list_omap]. rewrite Z.mul_0_r, Z.add_0_r. by destruct (translation s root va). }
  assert (translation s root va = None → unmapped_from root s s va 1) as Hnone.
  { intros Hn va' _. rewrite Hone. destruct (same_page va va') eqn:E; [|done]. rewrite <-Hn. unfold translation.
    by rewrite (pte_at_same_page s root va va' E). }
  unfold unmap_entry. destruct (leaf s root va) as [e|] eqn:He; cbn [default].
  2: { assert (translation s root va = None) as Ht by (unfold translation, pte_at; by rewrite He). rewrite Ht. intros _.
       replace (freed fp []) with (@nil Z) by (by destruct fp). cbn [put_all]. exists s. split; [done|]. split; [done|]. split; [done|auto]. }
  destruct (leaf_entry root own s va e Hinv He) as (p & w & _ & _ & Hw & He0).
  cbn -[Z.testbit Z.land write_word put_all]. rewrite (proj2 (Z.eqb_neq e 0)) by lia.
  unfold read_word. rewrite Hw. cbn [of_option obind]. rewrite land_valid.
  assert (translation s root va = if Z.testbit w 0 then Some w else None) as Ht
    by (unfold translation, pte_at; by rewrite He, Hw).
  rewrite Ht. destruct (Z.testbit w 0) eqn:Eb.
  2: { intros _. replace (freed fp []) with (@nil Z) by (by destruct fp). cbn [put_all]. exists s. split; [done|]. split; [done|]. split; [done|auto]. }
  intros Hl.
  assert (∀ a, put_all (freed fp [PTE2PA w]) (pages s) = Ok a → ∃ s',
    (let! s := write_word e 0 (set_pages a s) in Ok (set_mapped (s32 (mapped_pages s - 1)) s)) = Ok s' ∧
    pt_inv root own s' ∧ pages s' = a ∧ unmapped_from root s s' va 1) as Hdone.
  { intros a Ea. pose proof (put_all_inv root own s _ a Hinv Hl Ea) as Hinv1.
    destruct (write_leaf root own (set_pages a s) va e 0 Hinv1 Hva He) as (-> & Hinv2 & Hp & _).
    cbn [obind]. eexists. split; [done|]. split; [by destruct Hinv2; split|]. split; [done|].
    intros va' Hva'. rewrite Hone. unfold translation. specialize (Hp va' Hva').
    change (pte_at (set_mapped ?n ?s) root va') with (pte_at s root va'). rewrite Hp.
    change (pte_at (set_pages a s) root va') with (pte_at s root va'). by destruct (same_page va va'). }
  destruct fp; cbn [freed put_all] in *.
  - destruct (put_page (PTE2PA w) (pages s)) as [a| | |]; cbn [obind] in *; try done. by apply Hdone.
  - replace s with (set_pages (pages s) s) at 2 by (by destruct s). by apply Hdone.
Qed.

Lemma mapped_range_cons s root va n :
  0 < n → mapped_range s root va n = mapped_range s root va 1 ++ mapped_range s root (va + 4096) (n - 1).
Proof.
  intros Hn. unfold mapped_range. rewrite (seqZ_cons 0 n) by lia. change (seqZ 0 1) with [0]. change (n - 1) with (Z.pred n).
  cbn [omap list_omap]. replace (omap _ (seqZ (Z.succ 0) (Z.pred n))) with (omap (λ i, PTE2PA <$> translation s root (va + 4096 + 4096 * i)) (seqZ 0 (Z.pred n))).
  - destruct (PTE2PA <$> _); done.
  - apply list_omap_ext. change (Z.succ 0) with (1 + 0). rewrite <-(fmap_add_seqZ 1 0), Forall2_fmap_r.
    apply Forall_Forall2_diag, Forall_forall. intros i _. cbn. do 2 f_equal. lia.
Qed.

Lemma mapped_range_same s s' root va n :
  0 ≤ va → va + 4096 * n ≤ MAXVA → (∀ va', va ≤ va' < va + 4096 * n → translation s' root va' = translation s root va') →
  mapped_range s' root va n = mapped_range s root va n.
Proof.
  intros Hv Hm Hs. unfold mapped_range. apply list_omap_ext, Forall_Forall2_diag, Forall_forall. intros i Hi%elem_of_seqZ. f_equal. apply Hs. lia.
Qed.

Lemma put_all_app l1 l2 (a : A) : put_all (l1 ++ l2) a = (let! a := put_all l1 a in put_all l2 a).
Proof. revert a. induction l1 as [|p l1 IH]; intros a; cbn [put_all app obind]; [done|]. destruct (put_page p a); cbn [obind]; done. Qed.

Lemma unmap_loop_spec root own va n fp fuel : ∀ s,
  pt_inv root own s → va mod 4096 = 0 → 0 ≤ va → 0 ≤ n → va + 4096 * n ≤ MAXVA → n ≤ Z.of_nat fuel →
  Forall (may_free own) (freed fp (mapped_range s root va n)) →
  match put_all (freed fp (mapped_range s root va n)) (pages s) with
  | Ok a => ∃ s', unmap_loop fuel root va (va + 4096 * n) fp s = Ok s' ∧ pt_inv root own s' ∧ pages s' = a ∧ unmapped_from root s s' va n
  | o => (let! s' := unmap_loop fuel root va (va + 4096 * n) fp s in Ok (pages s')) = o
  end.
Proof.
  pose proof MAXVA_eq as EM. revert va n. induction fuel as [|fuel IH]; intros va n s Hinv Hva Hv0 Hn Hvm Hf Hl; cbn [unmap_loop].
  all: destruct (Z.ltb_spec va (va + 4096 * n)) as [Hlt|Hge].
  1: lia.
  1,3: replace n with 0 in * by lia; change (mapped_range s root va 0) with (@nil Z); replace (freed fp []) with (@nil Z) by (by destruct fp);
    cbn [put_all]; exists s; split; [done|]; split; [done|]; split; [done|]; intros va' Hva';
    unfold in_range; destruct (Z.leb_spec va va'), (Z.ltb_spec va' (va + 4096 * 0)); done || lia.
  rewrite (page_walk_find _ _ _ _ Hinv). cbn [obind]. rewrite (proj2 (Z.leb_gt MAXVA va)) by lia.
  unfold PAGE_SIZE. rewrite u64_small by lia. rewrite mapped_range_cons in * by lia.
  assert (freed fp (mapped_range s root va 1 ++ mapped_range s root (va + 4096) (n - 1)) =
    freed fp (mapped_range s root va 1) ++ freed fp (mapped_range s root (va + 4096) (n - 1))) as Ef by (by destruct fp).
  rewrite Ef in *. apply Forall_app in Hl as [Hl1 Hl2]. rewrite put_all_app.
  pose proof (unmap_entry_spec root own s va fp Hinv Hva ltac:(lia) Hl1) as H1.
  destruct (put_all (freed fp (mapped_range s root va 1)) (pages s)) as [a| | |]; cbn [obind];
    [|by destruct (unmap_entry _ _ _)..].
  destruct H1 as (s1 & -> & Hinv1 & <- & Htr). cbn [obind]. replace (va + 4096 * n) with (va + 4096 + 4096 * (n - 1)) by lia.
  assert (mapped_range s1 root (va + 4096) (n - 1) = mapped_range s root (va + 4096) (n - 1)) as Em.
  { apply mapped_range_same; [lia..|]. intros va' Hva'. rewrite Htr by lia. unfold in_range.
    by rewrite (proj2 (Z.ltb_ge va' (va + 4096 * 1))), andb_false_r by lia. }
  rewrite <-Em in Hl2 |- *. pose proof (IH (va + 4096) (n - 1) s1 Hinv1 ltac:(zdm) ltac:(lia) ltac:(lia) ltac:(lia) ltac:(lia) Hl2) as H2.
  destruct (put_all _ (pages s1)) as [a| | |]; [|done..]. destruct H2 as (s2 & -> & Hinv2 & <- & Htr2).
  exists s2. split; [done|]. split; [done|]. split; [done|]. intros va' Hva'. rewrite Htr2, Htr by done. unfold in_range.
  destruct (Z.leb_spec (va + 4096) va'), (Z.leb_spec va va'), (Z.ltb_spec va' (va + 4096 + 4096 * (n - 1))), (Z.ltb_spec va' (va + 4096 * n)),
    (Z.ltb_spec va' (va + 4096 * 1)); cbn; done || lia.
Qed.
End Ranges.

Section Create.
Context {A : Type} {PM : PageAlloc A}.
Implicit Types (s : @vmem A) (own : gmap Z (list Z)) (root : Z).

Definition pages_ok (l : list Z) : Prop := Forall page_ok l ∧ NoDup l.

Lemma create_spec s q l :
  avail (pages s) = q :: l → pages_ok (q :: l) →
  ∃ s', create_pagetable s = Ok (q, s') ∧ avail (pages s') = l ∧
    words s' = clear_page PT_ENTRIES q (words s) ∧ satp s' = satp s ∧
    pt_inv q {[q := []]} s' ∧ ∀ va, pte_at s' q va = 0.
Proof.
  intros Hav [Hok Hnd]. destruct (alloc_page_ok _ _ _ Hav) as (a & E & Ea).
  apply Forall_cons in Hok as [Hq Hok]. apply NoDup_cons in Hnd as [Hnq Hnd].
  unfold create_pagetable. rewrite E. cbn [obind]. rewrite (proj2 (Z.eqb_neq q 0)) by (destruct Hq; lia).
  eexists. split; [done|]. split; [exact Ea|]. split; [done|]. split; [done|].
  assert (∀ i, 0 ≤ i < 512 → clear_page PT_ENTRIES q (words s) !! (q + 8 * i) = Some 0) as Hz.
  { intros i Hi. apply clear_page_in. unfold PT_ENTRIES. lia. }
  split.
  - split; cbn [words pages set_tables set_words set_pages].
    + apply lookup_singleton_eq.
    + by intros p path [<- _]%lookup_singleton_Some.
    + intros p path i [<- <-]%lookup_singleton_Some Hi. exists 0. by split; [apply Hz|].
    + rewrite Ea. intros p Hp. split; [by eapply Forall_forall in Hok|].
      apply lookup_singleton_ne. intros ->. done.
    + by rewrite Ea.
  - intros va. unfold pte_at, leaf, child. cbn [words set_tables set_words set_pages].
    by rewrite Hz by apply PX_range.
Qed.

(** A fresh page is in no table of another root. *)
Lemma create_frame s s' root own q l :
  pt_inv root own s → avail (pages s) = q :: l → create_pagetable s = Ok (q, s') →
  pt_inv root own s' ∧ ∀ va, pte_at s' root va = pte_at s root va.
Proof.
  intros Hinv Hav E. pose proof Hinv as [Hr Hp Hw Ha Hn].
  assert (pages_ok (q :: l)) as Hok.
  { rewrite <-Hav. split; [|done]. apply Forall_forall. intros p Hpi. by apply Ha. }
  destruct (create_spec s q l Hav Hok) as (s1 & E1 & Ea & Ew & _). rewrite E1 in E. injection E as <-.
  destruct (Ha q) as [Hq Hqn]; [rewrite Hav; apply elem_of_cons; auto|].
  assert (∀ x px j, own !! x = Some px → 0 ≤ j < 512 → words s1 !! (x + 8 * j) = words s !! (x + 8 * j)) as Hfr.
  { intros x px j Hx Hj. rewrite Ew. apply clear_page_out. intros k Hk Eq. unfold PT_ENTRIES in Hk.
    apply entry_inj in Eq as [-> _]; [congruence|by eapply Hp|done|done|lia]. }
  split.
  - split; [done|done| |rewrite Ea|].
    + intros p path i Hpp Hi. rewrite (Hfr p path) by done. by apply (Hw p path).
    + intros p Hpi. apply Ha. rewrite Hav. apply elem_of_cons; auto.
    + rewrite Ea. rewrite Hav in Hn. by apply NoDup_cons in Hn as [_ ?].
  - intros va. apply (pte_at_same root own); [done|]. intros x px j Hx _ Hj. by apply (Hfr x px).
Qed.

Lemma satp_roundtrip s root :
  page_ok root → pagetable_current (pagetable_activate root s) = root.
Proof.
  intros [Ha Hr]. unfold pagetable_current, pagetable_activate, MAKE_SATP, set_satp. cbn [satp].
  change (u64 (Z.shiftl SATP_MODE_SV39 60)) with (Z.shiftl 8 60).
  assert (0 ≤ Z.shiftr root 12 < 2 ^ 44) as Hs.
  { rewrite Z.shiftr_div_pow2 by lia. change (2 ^ 12) with 4096. zdm. }
  rewrite lor_shiftl_low by lia. rewrite !Z.shiftr_div_pow2 in * by lia.
  change (2 ^ 12) with 4096 in *. set (x := root / 4096) in *.
  replace ((8 * 2 ^ 60 + x) / 2 ^ 60) with 8 by (clearbody x; zdm).
  change (8 =? SATP_MODE_SV39) with true. cbn [negb].
  change (Z.shiftl 1 44 - 1) with (Z.ones 44). rewrite Z.land_ones by lia.
  replace ((8 * 2 ^ 60 + x) mod 2 ^ 44) with x by (clearbody x; zdm).
  unfold PAGE_SHIFT. rewrite Z.shiftl_mul_pow2 by lia. change (2 ^ 12) with 4096.
  rewrite u64_small by lia. pose proof (Z.div_mod root 4096 ltac:(lia)) as E. fold x in E. lia.
Qed.
End Create.

(** ** Properties *)

Section Properties.
Context {A : Type} {PM : PageAlloc A}.
Implicit Types (s : @vmem A) (own : gmap Z (list Z)) (root : Z).

(** C1. Mapping a page: on a well-formed table with pages to spare, [pgt_map_page]
    of an unmapped page, or of a page already mapped to the same physical page,
    succeeds; then every address of the page translates to the physical page plus
    its offset, with exactly the permissions asked for, and every other page keeps
    its entry. A page mapped elsewhere is refused with [-1] and nothing changes.
    The tables stay a tree. *)
Theorem pgt_map_page_correct root own s va pa perm :
  pt_inv root own s → 0 ≤ va < MAXVA → 4096 ≤ pa < 2 ^ 56 → 0 ≤ perm < 1024 →
  (2 ≤ length (avail (pages s)))%nat →
  ∃ r s' own', pgt_map_page root va pa perm s = Ok (r, s') ∧ pt_inv root own' s' ∧
    match translation s root va with
    | Some w =>
        if PTE2PA w =? pa / 4096 * 4096 then r = 0
        else r = -1 ∧ ∀ va', translation s' root va' = translation s root va'
    | None => r = 0
    end ∧
    (r = 0 →
     (∀ va', 0 ≤ va' < MAXVA → va' / 4096 = va / 4096 →
        lookup_pa root va' s' = Ok (pa / 4096 * 4096 + va' mod 4096) ∧
        PTE_FLAGS (pte_at s' root va') = Z.lor perm PTE_V) ∧
     ∀ va', 0 ≤ va' < MAXVA → va' / 4096 ≠ va / 4096 →
        translation s' root va' = translation s root va').
Proof.
  intros Hinv Hva Hpa Hperm Hav.
  pose proof (walk_cost_le s root va) as Hcost.
  destruct (pgt_map_page_spec root own s va pa perm Hinv Hva) as
    (r & s' & own' & E & Hinv' & _ & _ & _ & _ & _ & Hm); [lia|lia|].
  rewrite ROUNDDOWN_page in Hm by lia. set (pa' := pa / 4096 * 4096) in *.
  assert (page_ok pa') as Hok by (unfold page_ok, pa'; zdm).
  destruct (make_pte_fields pa' perm Hok Hperm) as (F1 & F2 & F3).
  assert (remapped root s s' va (make_pte pa' perm) →
    (∀ va', 0 ≤ va' < MAXVA → va' / 4096 = va / 4096 →
        lookup_pa root va' s' = Ok (pa' + va' mod 4096) ∧
        PTE_FLAGS (pte_at s' root va') = Z.lor perm PTE_V) ∧
     ∀ va', 0 ≤ va' < MAXVA → va' / 4096 ≠ va / 4096 →
        translation s' root va' = translation s root va') as Hre.
  { intros Hre. split; intros va' Hva' Ep; specialize (Hre va' Hva'); unfold same_page in Hre.
    - rewrite (proj2 (Z.eqb_eq _ _)) in Hre by done. split; [|by rewrite Hre].
      rewrite (lookup_pa_spec root own' s' va' Hinv') by lia. rewrite (proj2 (Z.leb_gt _ _)) by lia.
      unfold translation. rewrite Hre, F3, F1. f_equal. unfold pa'.
      change 4096 with (2 ^ 12). rewrite <-Z.shiftl_mul_pow2 by lia. rewrite lor_shiftl_low; [by rewrite Z.shiftl_mul_pow2 by lia|lia|].
      apply Z.mod_pos_bound. lia.
    - rewrite (proj2 (Z.eqb_neq _ _)) in Hre by congruence. unfold translation. by rewrite Hre. }
  exists r, s', own'. split; [done|]. split; [done|].
  destruct (translation s root va) as [w|] eqn:Et; [destruct (PTE2PA w =? pa')|].
  - destruct Hm as (-> & Hr & _). split; [done|]. intros _. by apply Hre.
  - destruct Hm as (-> & Hr & _). split; [|done]. split; [done|]. intros va'. unfold translation. by rewrite Hr.
  - destruct Hm as (-> & Hr & _). split; [done|]. intros _. by apply Hre.
Qed.

(** C3. Mapping a range: [pgt_map_pages] returns 0 whatever happens; each page of
    the rounded-up range gets the entry of its physical page, except a page that
    was mapped elsewhere, which silently keeps its old entry; no page outside the
    range changes. The tables it needs are at most one for each 2 MiB and each 1 GiB block it
    meets. *)
Theorem pgt_map_pages_range root own s va pa n size perm :
  pt_inv root own s → va mod 4096 = 0 → pa mod 4096 = 0 → 0 ≤ va → 0 ≤ pa →
  4096 * (n - 1) < size ≤ 4096 * n → 0 < n → va + 4096 * n ≤ MAXVA → pa + 4096 * n ≤ 2 ^ 56 →
  tables_needed va n ≤ Z.of_nat (length (avail (pages s))) →
  ∃ s' own', pgt_map_pages root va pa size perm s = Ok (0, s') ∧ pt_inv root own' s' ∧
    Z.of_nat (length (avail (pages s))) - tables_needed va n ≤ Z.of_nat (length (avail (pages s'))) ∧
    ∀ va', 0 ≤ va' < MAXVA → pte_at s' root va' =
      if in_range va n va'
      then map_result (pte_at s root va') (pa + (va' - va) / 4096 * 4096) perm
      else pte_at s root va'.
Proof. apply pgt_map_pages_spec. Qed.

(** C2. Unmapping: [pgt_unmap] of a range below [MAXVA] clears the entry of every mapped page
    of the range. With [free_phys] set it calls [put_page] for exactly the physical pages
    the range mapped, in the order of their virtual addresses, and ends as these calls do;
    otherwise the allocator is left alone. When it returns, no address of the range
    translates, every other translation is unchanged and the tables are still a tree. A
    range that ends above [MAXVA] is refused. The pages to be freed must be pages of memory
    that are not page tables. *)
Theorem pgt_unmap_range root own s va size n fp :
  pt_inv root own s → va mod 4096 = 0 → 0 ≤ va → 0 < size → 4096 * (n - 1) < size ≤ 4096 * n →
  va + size < 2 ^ 63 → (va + 4096 * n ≤ MAXVA → Forall (may_free own) (freed fp (mapped_range s root va n))) →
  if va + 4096 * n <=? MAXVA then
    match put_all (freed fp (mapped_range s root va n)) (pages s) with
    | Ok a =>
        ∃ s', pgt_unmap root va size fp s = Ok (0, s') ∧ pt_inv root own s' ∧ pages s' = a ∧
          ∀ va', 0 ≤ va' < MAXVA → translation s' root va' =
            if in_range va n va' then None else translation s root va'
    | o => (let! (_, s') := pgt_unmap root va size fp s in Ok (pages s')) = o
    end
  else pgt_unmap root va size fp s = Ok (-1, s).
Proof.
  intros Hinv Hva Hv0 Hs0 Hsz Hmax Hl. pose proof MAXVA_eq as EM. unfold pgt_unmap.
  rewrite (root_nonzero _ _ _ Hinv). rewrite ROUNDDOWN_page by lia. rewrite (u64_small (va + size)) by lia.
  rewrite ROUNDUP_page by lia.
  replace ((va + size + 4095) / 4096 * 4096) with (va + 4096 * n) by (clear -Hva Hsz; zdm).
  replace (va / 4096 * 4096) with va by (clear -Hva; zdm).
  rewrite (proj2 (Z.ltb_ge (va + 4096 * n) va)) by lia. rewrite orb_false_r.
  destruct (Z.leb_spec (va + 4096 * n) MAXVA) as [Hle|Hgt].
  - assert (va < MAXVA) as Hvm by lia.
    rewrite (proj2 (Z.leb_gt MAXVA va)), (proj2 (Z.ltb_ge MAXVA _)) by lia. cbn [orb].
    unfold PAGE_SIZE. replace ((va + 4096 * n - va) / 4096) with n by (clear; zdm).
    pose proof (unmap_loop_spec root own va n fp (Z.to_nat n) s Hinv Hva Hv0 ltac:(lia) Hle ltac:(lia) (Hl Hle)) as H.
    destruct (put_all _ _) as [a| | |]; [|by destruct (unmap_loop _ _ _ _ _ _)..].
    destruct H as (s' & -> & Hinv' & Hpg & Htr). cbn [obind]. by exists s'.
  - rewrite (proj2 (Z.ltb_lt MAXVA _)) by lia. by rewrite orb_true_r.
Qed.

(** A new page table maps nothing, leaves every other page table and its
    translations as they are, and is the one [pagetable_current] reports once it
    has been activated. *)
Theorem create_pagetable_isolated s root own q l :
  pt_inv root own s → avail (pages s) = q :: l →
  ∃ s', create_pagetable s = Ok (q, s') ∧ pt_inv q {[q := []]} s' ∧ pt_inv root own s' ∧
    (∀ va, translation s' q va = None ∧ translation s' root va = translation s root va) ∧
    pagetable_current (pagetable_activate q s') = q.
Proof.
  intros Hinv Hav. pose proof Hinv as [_ _ _ Ha Hn].
  assert (pages_ok (q :: l)) as Hok.
  { rewrite <-Hav. split; [|done]. apply Forall_forall. intros p Hpi. by apply Ha. }
  destruct (create_spec s q l Hav Hok) as (s' & E & _ & _ & _ & Hinv' & Hz).
  destruct (create_frame s s' root own q l Hinv Hav E) as [Hinv2 Hpte].
  exists s'. split; [done|]. split; [done|]. split; [done|]. split.
  - intros va. unfold translation. by rewrite Hz, Hpte.
  - apply satp_roundtrip. destruct Hok as [Hok _]. by apply Forall_cons in Hok as [? _].
Qed.
End Properties.

(** ** A concrete machine: free pages in a list, to which [put_page] adds. *)

#[export, refine] Instance list_page_alloc : PageAlloc (list Z) := {
  alloc_page a := match a with [] => Fault | p :: l => Ok (p, l) end;
  put_page p a := if decide (p ∈ a) then Ok a else Ok (p :: a);
  avail a := a;
}.
Proof.
  - intros a p l ->. by exists l.
  - intros a p a'. case_decide; intros [= <-]; [by left|by right].
Defined.

Definition sample_vmem : @vmem (list Z) := VMem ∅ [65536; 69632; 73728; 77824; 81920] 0 0 0.

Lemma sample_avail : avail (pages sample_vmem) = [65536; 69632; 73728; 77824; 81920].
Proof. reflexivity. Qed.

Lemma sample_pages_ok : pages_ok (avail (pages sample_vmem)).
Proof.
  split; [|apply (bool_decide_unpack _); vm_compute; exact I].
  repeat (apply Forall_cons; split; [by split; [reflexivity|lia]|]). by apply Forall_nil.
Qed.

(** The state after the first [create_pagetable]. *)
Definition sample_root : @vmem (list Z) :=
  match create_pagetable sample_vmem with Ok (_, s) => s | _ => sample_vmem end.

Lemma sample_root_inv : pt_inv 65536 {[65536 := []]} sample_root ∧ ∀ va, pte_at sample_root 65536 va = 0.
Proof.
  destruct (create_spec sample_vmem 65536 [69632; 73728; 77824; 81920] sample_avail sample_pages_ok)
    as (s' & E & _ & _ & _ & Hinv & Hz).
  unfold sample_root. rewrite E. by split.
Qed.

Lemma sample_root_avail : avail (pages sample_root) = [69632; 73728; 77824; 81920].
Proof. reflexivity. Qed.

Lemma sample_root_none va : translation sample_root 65536 va = None.
Proof. unfold translation. by rewrite (proj2 sample_root_inv). Qed.

Lemma pgt_map_page_correct_witness :
  ∃ s', pgt_map_page 65536 8192 1048576 6 sample_root = Ok (0, s') ∧
    lookup_pa 65536 8200 s' = Ok 1048584.
Proof.
  destruct (pgt_map_page_correct 65536 _ sample_root 8192 1048576 6 (proj1 sample_root_inv))
    as (r & s' & own' & E & _ & Hr & Hl).
  - rewrite MAXVA_eq. lia.
  - lia.
  - lia.
  - rewrite sample_root_avail. cbn. lia.
  - rewrite sample_root_none in Hr. subst r. exists s'. split; [exact E|].
    apply (Hl eq_refl). { rewrite MAXVA_eq. lia. } reflexivity.
Defined.

Lemma pgt_map_pages_range_witness :
  ∃ s', pgt_map_pages 65536 8192 1048576 5000 6 sample_root = Ok (0, s') ∧
    pte_at s' 65536 12288 = make_pte 1052672 6.
Proof.
  destruct (pgt_map_pages_range 65536 _ sample_root 8192 1048576 2 5000 6 (proj1 sample_root_inv))
    as (s' & own' & E & _ & _ & Hp).
  - reflexivity.
  - reflexivity.
  - lia.
  - lia.
  - lia.
  - lia.
  - rewrite MAXVA_eq. lia.
  - lia.
  - rewrite sample_root_avail. by vm_compute.
  - exists s'. split; [exact E|]. rewrite Hp by (rewrite MAXVA_eq; lia).
    rewrite (proj2 sample_root_inv). reflexivity.
Defined.

(** The state in which the page at 8192 is mapped, to 1048576. *)
Definition sample_mapped : @vmem (list Z) :=
  match pgt_map_page 65536 8192 1048576 6 sample_root with Ok (_, s) => s | _ => sample_root end.

Definition sample_tables : gmap Z (list Z) := {[65536 := []; 69632 := [0]; 73728 := [0; 0]]}.

Definition sample_word (p : Z) (path : list Z) (i : Z) : bool :=
  match words sample_mapped !! (p + 8 * i) with
  | Some w => (2 <=? Z.of_nat (length path)) || negb (Z.testbit w 0) || bool_decide (sample_tables !! PTE2PA w = Some (path ++ [i]))
  | None => false
  end.

Lemma sample_words : map_Forall (λ p path, Forall (λ i, sample_word p path i = true) (seqZ 0 512)) sample_tables.
Proof. apply (bool_decide_unpack _). vm_compute. exact I. Qed.

Lemma sample_mapped_inv : pt_inv 65536 sample_tables sample_mapped.
Proof.
  split.
  - reflexivity.
  - intros p path Hp. assert (map_Forall (λ p _, page_ok p) sample_tables) as HF; [|by apply (HF p path)].
    unfold sample_tables. rewrite !map_Forall_insert by reflexivity. split_and!; [split; [reflexivity|lia]..|].
    apply map_Forall_singleton. split; [reflexivity|lia].
  - intros p path i Hp Hi. pose proof (sample_words p path Hp) as HF. rewrite Forall_forall in HF.
    specialize (HF i). unfold sample_word in HF. destruct (words sample_mapped !! (p + 8 * i)) as [w|].
    + exists w. split; [done|]. intros Hl Hb. specialize (HF ltac:(by apply elem_of_seqZ)). rewrite Hb, orb_false_r in HF.
      apply orb_prop in HF as [HF|HF]; [apply Z.leb_le in HF; lia|by apply bool_decide_eq_true in HF].
    + by specialize (HF ltac:(by apply elem_of_seqZ)).
  - change (avail (pages sample_mapped)) with [77824; 81920]. intros p [->|[->|[]%elem_of_nil]%elem_of_cons]%elem_of_cons;
      (split; [split; [reflexivity|lia]|reflexivity]).
  - apply (bool_decide_unpack _). vm_compute. exact I.
Qed.

Lemma sample_mapped_page : mapped_range sample_mapped 65536 8192 1 = [1048576].
Proof. vm_compute. reflexivity. Qed.

Lemma sample_put : put_all (freed true [1048576]) (pages sample_mapped) = Ok (1048576 :: pages sample_mapped).
Proof. vm_compute. reflexivity. Qed.

Lemma pgt_unmap_range_witness :
  ∃ s', pgt_unmap 65536 8192 4096 true sample_mapped = Ok (0, s') ∧ translation sample_mapped 65536 8192 = Some 262151 ∧
    translation s' 65536 8192 = None ∧ avail (pages s') = 1048576 :: avail (pages sample_mapped).
Proof.
  pose proof (pgt_unmap_range 65536 sample_tables sample_mapped 8192 4096 1 true sample_mapped_inv) as Hu.
  rewrite (proj2 (Z.leb_le _ _)), sample_mapped_page, sample_put in Hu by (rewrite MAXVA_eq; lia).
  destruct Hu as (s' & E & _ & Hp & Ht).
  - reflexivity.
  - lia.
  - lia.
  - lia.
  - lia.
  - intros _. apply Forall_singleton. split; [split; [reflexivity|lia]|reflexivity].
  - exists s'. split; [exact E|]. split; [vm_compute; reflexivity|]. split; [rewrite Ht by (rewrite MAXVA_eq; lia); reflexivity|].
    rewrite Hp. reflexivity.
Defined.

Lemma create_pagetable_isolated_witness :
  ∃ s', create_pagetable sample_root = Ok (69632, s') ∧ translation s' 69632 0 = None.
Proof.
  destruct (create_pagetable_isolated sample_root 65536 _ 69632 [73728; 77824; 81920]
    (proj1 sample_root_inv) sample_root_avail) as (s' & E & _ & _ & Ht & _).
  exists s'. split; [exact E|]. apply Ht.
Defined.
