(* ===== verification/Page.v ===== *)
(** * The physical page allocator ([kernel/mm/page.c], [include/kernel/mm/page.h])

    Free pages are linked through a [list_head] at their start, so the free list is
    a list of page addresses in the store of [ListHead]; page structures are a map
    from their addresses; [ram] holds the words of the pages, as in [PageTable]. The
    spinlocks around the free list are left out: each operation holds them
    throughout. [kernel_pa] is [lookup_pa(g_kernel_pagetable, _)] of [PageTable]. *)

From stdpp Require Import base gmap list.
From S2P Require Import Prelude ListHead PageTable.
Local Open Scope Z_scope.
Local Open Scope kernel_scope.

Definition PAGE_DIRTY : Z := 1.
Definition PAGE_LOCKED : Z := 4.
Definition KERN_BASE : Z := 2149580800.
Definition DRAM_BASE : Z := 2147483648.
Definition PKE_MAX_ALLOWABLE_RAM : Z := 134217728.

(** [page_lock] is the state of the lock, [lru] the list node. *)
Record page := Page {
  flags : Z;
  mapping : Z;
  refcount : Z;
  index : Z;
  kmalloc_size : Z;
  paddr : Z;
  lru : list_head;
  page_lock : bool;
}.

(** [sizeof(struct page)] and the offset of its [lru]. *)
Definition PAGE_STRUCT : Z := 72.
Definition LRU_OFFSET : Z := 48.

(** The static variables of the file; [free_page_list] is the address of the list
    head, [links] the memory of the list nodes. *)
Record page_manager := PageManager {
  page_pool : Z;
  structs : gmap Z page;
  total_pages : Z;
  mem_base_addr : Z;
  mem_size : Z;
  free_page_list : Z;
  links : store;
  free_page_counter : Z;
  ram : gmap Z Z;
}.

Definition set_structs (m : gmap Z page) (s : page_manager) : page_manager :=
  PageManager (page_pool s) m (total_pages s) (mem_base_addr s) (mem_size s) (free_page_list s)
    (links s) (free_page_counter s) (ram s).
Definition set_free (h : store) (n : Z) (s : page_manager) : page_manager :=
  PageManager (page_pool s) (structs s) (total_pages s) (mem_base_addr s) (mem_size s)
    (free_page_list s) h n (ram s).
Definition set_ram (m : gmap Z Z) (s : page_manager) : page_manager :=
  PageManager (page_pool s) (structs s) (total_pages s) (mem_base_addr s) (mem_size s)
    (free_page_list s) (links s) (free_page_counter s) m.

Definition get_struct (p : Z) (s : page_manager) : outcome page := of_option (structs s !! p).
Definition put_struct (p : Z) (v : page) (s : page_manager) : page_manager :=
  set_structs (<[p := v]> (structs s)) s.

(** [init_page_struct]; [kmalloc_size] keeps its value. *)
Definition reset_page (p : Z) (v : page) : page :=
  Page 0 0 0 0 (kmalloc_size v) 0 (ListHead (p + LRU_OFFSET) (p + LRU_OFFSET)) false.

Definition init_page_struct (p : Z) (s : page_manager) : outcome page_manager :=
  if p =? 0 then Ok s
  else
    let! v := get_struct p s in
    Ok (put_struct p (reset_page p v) s).

Definition get_free_page_addr (s : page_manager) : outcome (Z * page_manager) :=
  let! n := get_next (free_page_list s) (links s) in
  if negb (n =? 0) then
    let! h := list_del n (links s) in
    Ok (n, set_free h (u64 (free_page_counter s - 1)) s)
  else Ok (n, s).

Definition put_free_page (addr : Z) (s : page_manager) : outcome page_manager :=
  if negb (addr mod PAGE_SIZE =? 0) || (addr <? mem_base_addr s)
     || (u64 (mem_base_addr s + mem_size s) <=? addr)
  then Panic
  else
    let! h := list_add addr (free_page_list s) (links s) in
    Ok (set_free h (u64 (free_page_counter s + 1)) s).

(** The two loops of [init_page_manager]. *)
Fixpoint init_structs (n : nat) (i : Z) (s : page_manager) : outcome page_manager :=
  match n with
  | O => Ok s
  | S n =>
      let! s := init_page_struct (page_pool s + PAGE_STRUCT * i) s in
      init_structs n (i + 1) s
  end.

Fixpoint free_range (fuel : nat) (i limit : Z) (s : page_manager) : outcome page_manager :=
  if i <? limit then
    match fuel with
    | O => Timeout
    | S fuel =>
        let! s := put_free_page i s in
        free_range fuel (u64 (i + PAGE_SIZE)) limit s
    end
  else Ok s.

(** [kernel_end] is the address of [_end], [memsize] is [memInfo.size]. *)
Definition init_page_manager (kernel_end memsize : Z) (s : page_manager) : outcome page_manager :=
  let pke_kernel_size := u64 (kernel_end - KERN_BASE) in
  let free_mem_start_addr := ROUNDUP kernel_end PAGE_SIZE in
  let mem_size' := ROUNDDOWN (Z.min PKE_MAX_ALLOWABLE_RAM memsize) PAGE_SIZE in
  if mem_size' <=? pke_kernel_size then Panic
  else
    let total := mem_size' / PAGE_SIZE in
    let page_map_size := ROUNDUP (u64 (total * PAGE_STRUCT)) PAGE_SIZE in
    let s := PageManager free_mem_start_addr (structs s) total KERN_BASE mem_size'
               (free_page_list s) (links s) 0 (ram s) in
    let! s := init_structs (Z.to_nat total) 0 s in
    let! h := INIT_LIST_HEAD (free_page_list s) (links s) in
    let s := set_free h (free_page_counter s) s in
    let free_start := u64 (free_mem_start_addr + page_map_size) in
    let limit := u64 (DRAM_BASE + mem_size') in
    free_range (Z.to_nat ((limit - free_start) / PAGE_SIZE)) free_start limit s.

Definition pfn_to_page (pfn : Z) (s : page_manager) : Z :=
  if total_pages s <=? pfn then 0 else page_pool s + PAGE_STRUCT * pfn.

Definition page_to_pfn (p : Z) (s : page_manager) : Z :=
  if p =? 0 then 0 else u64 ((p - page_pool s) / PAGE_STRUCT).

Section PageOps.
Context (kernel_pa : Z → outcome Z).

Definition get_pfn (pa : Z) (s : page_manager) : outcome Z :=
  if pa <? mem_base_addr s then Panic
  else
    let! pa := (if u64 (mem_base_addr s + mem_size s) <=? pa then kernel_pa pa else Ok pa) in
    Ok (u64 (pa - mem_base_addr s) / PAGE_SIZE).

Definition addr_to_page (addr : Z) (s : page_manager) : outcome Z :=
  let! pa := (if u64 (mem_base_addr s + mem_size s) <=? addr then kernel_pa addr else Ok addr) in
  if negb (pa mod PAGE_SIZE =? 0) || (pa <? mem_base_addr s)
     || (u64 (mem_base_addr s + mem_size s) <=? pa)
  then Ok 0
  else
    let! pfn := get_pfn pa s in
    Ok (pfn_to_page pfn s).

(** The page structure, 0 for [NULL]. *)
Definition alloc_page (s : page_manager) : outcome (Z * page_manager) :=
  let! (pa, s) := get_free_page_addr s in
  if pa =? 0 then Ok (0, s)
  else
    let s := set_ram (clear_page PT_ENTRIES pa (ram s)) s in
    let! p := addr_to_page pa s in
    if p =? 0 then Ok (p, s)
    else
      let! s := init_page_struct p s in
      let! v := get_struct p s in
      Ok (p, put_struct p (Page (flags v) (mapping v) 1 (index v) (kmalloc_size v) pa (lru v)
                             (page_lock v)) s).

Definition put_page (p : Z) (s : page_manager) : outcome page_manager :=
  if p =? 0 then Ok s
  else
    let! v := get_struct p s in
    if negb (refcount v =? 0) then Ok s
    else
      let! s := init_page_struct p s in
      let! v := get_struct p s in
      put_free_page (paddr v) s.
End PageOps.

(** The operations on one page structure; 0 is [NULL]. *)
Definition set_flags (f : Z) (v : page) : page :=
  Page f (mapping v) (refcount v) (index v) (kmalloc_size v) (paddr v) (lru v) (page_lock v).
Definition set_refcount (n : Z) (v : page) : page :=
  Page (flags v) (mapping v) n (index v) (kmalloc_size v) (paddr v) (lru v) (page_lock v).
Definition set_lock (b : bool) (v : page) : page :=
  Page (flags v) (mapping v) (refcount v) (index v) (kmalloc_size v) (paddr v) (lru v) b.

Definition update_page (p : Z) (f : page → page) (s : page_manager) : outcome page_manager :=
  if p =? 0 then Ok s else let! v := get_struct p s in Ok (put_struct p (f v) s).

Definition get_page (p : Z) : page_manager → outcome page_manager :=
  update_page p (λ v, set_refcount (s32 (refcount v + 1)) v).
Definition set_page_dirty (p : Z) : page_manager → outcome page_manager :=
  update_page p (λ v, set_flags (Z.lor (flags v) PAGE_DIRTY) v).
Definition clear_page_dirty (p : Z) : page_manager → outcome page_manager :=
  update_page p (λ v, set_flags (Z.land (flags v) (Z.lnot PAGE_DIRTY)) v).

Definition test_page_dirty (p : Z) (s : page_manager) : outcome Z :=
  if p =? 0 then Ok 0
  else
    let! v := get_struct p s in
    Ok (if Z.land (flags v) PAGE_DIRTY =? 0 then 0 else 1).

(** Spinning on a lock that is held never ends on one processor. *)
Definition lock_page (p : Z) (s : page_manager) : outcome page_manager :=
  if p =? 0 then Ok s
  else
    let! v := get_struct p s in
    if page_lock v then Timeout
    else Ok (put_struct p (set_flags (Z.lor (flags v) PAGE_LOCKED) (set_lock true v)) s).

Definition unlock_page (p : Z) : page_manager → outcome page_manager :=
  update_page p (λ v, set_lock false (set_flags (Z.land (flags v) (Z.lnot PAGE_LOCKED)) v)).

Definition trylock_page (p : Z) (s : page_manager) : outcome (Z * page_manager) :=
  if p =? 0 then Ok (0, s)
  else
    let! v := get_struct p s in
    if page_lock v then Ok (0, s)
    else Ok (1, put_struct p (set_flags (Z.lor (flags v) PAGE_LOCKED) (set_lock true v)) s).

Definition get_free_page_count (s : page_manager) : Z := s32 (free_page_counter s).

(** ** Invariant *)

(** [p] is a page the allocator may hand out. *)
Definition managed (s : page_manager) (p : Z) : Prop :=
  p mod 4096 = 0 ∧ mem_base_addr s ≤ p < mem_base_addr s + mem_size s.

(** The structure that describes the page [p]. *)
Definition struct_of (s : page_manager) (p : Z) : Z :=
  page_pool s + PAGE_STRUCT * ((p - mem_base_addr s) / 4096).

Record geometry (s : page_manager) : Prop := {
  geo_pool : 0 < page_pool s;
  geo_base : 0 < mem_base_addr s ∧ mem_base_addr s mod 4096 = 0;
  geo_size : 0 ≤ mem_size s ∧ mem_size s mod 4096 = 0;
  geo_end : mem_base_addr s + mem_size s < 2 ^ 56;
  geo_total : total_pages s = mem_size s / 4096;
}.

(** The free pages are exactly [l], each once. *)
Record page_inv (s : page_manager) (l : list Z) : Prop := {
  pi_geo : geometry s;
  pi_list : dll (links s) (free_page_list s) l;
  pi_pages : Forall (managed s) l;
  pi_counter : free_page_counter s = Z.of_nat (length l);
  pi_structs i : 0 ≤ i < total_pages s → is_Some (structs s !! (page_pool s + PAGE_STRUCT * i));
}.

Lemma dll_nodup h head l : dll h head l → NoDup (head :: l).
Proof. by intros [? _]. Qed.

Lemma managed_pos s p : geometry s → managed s p → 0 < p < 2 ^ 56.
Proof. intros [_ [Hb _] _ He _] [_ Hp]. lia. Qed.

Lemma managed_pfn s p : geometry s → managed s p → 0 ≤ (p - mem_base_addr s) / 4096 < total_pages s.
Proof. intros [_ [_ Hb] [_ Hs] _ ->] [Hp Hr]. zdm. Qed.

Lemma struct_of_pos s p : geometry s → managed s p → 0 < struct_of s p.
Proof.
  intros Hg Hm. pose proof (managed_pfn s p Hg Hm). destruct Hg as [Hp _ _ _ _].
  unfold struct_of, PAGE_STRUCT. lia.
Qed.

Lemma struct_of_inj s p q : geometry s → managed s p → managed s q → struct_of s p = struct_of s q → p = q.
Proof.
  intros [_ [_ Hb] _ _ _] [Hp _] [Hq _]. unfold struct_of, PAGE_STRUCT. intros E. zdm.
Qed.

Lemma inv_length s l : page_inv s l → Z.of_nat (length l) < 2 ^ 56.
Proof.
  intros [Hg Hd Hp _ _]. apply dll_nodup, NoDup_cons in Hd as [_ Hd].
  pose proof Hg as [_ [Hb _] [Hs _] He _].
  assert (list_to_set l ⊆ (list_to_set (seqZ (mem_base_addr s) (mem_size s)) : gset Z)) as Hsub.
  { intros p Hp'. rewrite elem_of_list_to_set in *. rewrite elem_of_seqZ.
    rewrite Forall_forall in Hp. by destruct (Hp p Hp') as [_ ?]. }
  apply subseteq_size in Hsub. rewrite !size_list_to_set, length_seqZ in Hsub by (done || apply NoDup_seqZ).
  lia.
Qed.

(** [addr_to_page] finds the structure of a managed page without the kernel page table. *)
Lemma addr_to_page_managed kpa s p :
  geometry s → managed s p → addr_to_page kpa p s = Ok (struct_of s p).
Proof.
  intros Hg Hm. pose proof (managed_pfn s p Hg Hm) as Hpfn. pose proof (managed_pos s p Hg Hm).
  pose proof Hg as [_ [Hb _] [Hs _] He _]. destruct Hm as [Ha Hr].
  unfold addr_to_page, get_pfn, pfn_to_page, PAGE_SIZE. rewrite !u64_small by lia.
  rewrite !(proj2 (Z.leb_gt _ p)) by lia. cbn [obind]. rewrite Ha. cbn [Z.eqb negb orb].
  rewrite (proj2 (Z.ltb_ge p _)) by lia. cbn [obind orb]. rewrite (proj2 (Z.leb_gt (mem_base_addr s + mem_size s) p)) by lia.
  cbn [obind]. rewrite u64_small by lia. rewrite (proj2 (Z.leb_gt _ _)) by lia. done.
Qed.

(** The structure a fresh allocation leaves. *)
Definition fresh_page (st p : Z) (v : page) : page :=
  Page 0 0 1 0 (kmalloc_size v) p (ListHead (st + LRU_OFFSET) (st + LRU_OFFSET)) false.

Lemma alloc_page_spec kpa s p l :
  page_inv s (p :: l) →
  ∃ s' v, alloc_page kpa s = Ok (struct_of s p, s') ∧ page_inv s' l ∧
    structs s !! struct_of s p = Some v ∧
    structs s' = <[struct_of s p := fresh_page (struct_of s p) p v]> (structs s) ∧
    ram s' = clear_page PT_ENTRIES p (ram s) ∧
    (page_pool s', mem_base_addr s', mem_size s', total_pages s', free_page_list s') =
    (page_pool s, mem_base_addr s, mem_size s, total_pages s, free_page_list s).
Proof.
  intros Hinv. pose proof (inv_length _ _ Hinv) as Hlen. destruct Hinv as [Hg Hd Hp Hc Hst].
  apply Forall_cons in Hp as [Hmp Hp]. pose proof (managed_pos s p Hg Hmp) as Hpp.
  destruct (list_del_spec (links s) (free_page_list s) [] p l Hd) as (h' & E & Hd' & _ & _).
  unfold alloc_page, get_free_page_addr.
  rewrite (get_next_ok _ _ _ (dll_first _ _ _ Hd)). change (default (free_page_list s) (hd_error (p :: l))) with p. cbn [obind].
  rewrite (proj2 (Z.eqb_neq p 0)) by lia. cbn [negb]. rewrite E. cbn [obind].
  rewrite (proj2 (Z.eqb_neq p 0)) by lia.
  set (s1 := set_ram _ _). assert (geometry s1) as Hg1 by (by destruct Hg; split).
  assert (managed s1 p) as Hm1 by exact Hmp.
  rewrite (addr_to_page_managed kpa s1 p Hg1 Hm1). cbn [obind]. change (struct_of s1 p) with (struct_of s p).
  pose proof (struct_of_pos s p Hg Hmp) as Hsp.
  rewrite (proj2 (Z.eqb_neq _ 0)) by lia. unfold init_page_struct. rewrite (proj2 (Z.eqb_neq _ 0)) by lia.
  destruct (Hst _ (managed_pfn s p Hg Hmp)) as [v Hv]. fold (struct_of s p) in Hv.
  unfold get_struct. change (structs s1) with (structs s). rewrite Hv. cbn [of_option obind].
  cbn [structs put_struct set_structs]. rewrite lookup_insert_eq. cbn [of_option obind].
  eexists _, v. split; [done|]. split; [|split_and!; [done|cbn; by rewrite insert_insert_eq|done|done]].
  split; [by destruct Hg; split|exact Hd'|exact Hp| |].
  - cbn. cbn [length] in Hlen, Hc. rewrite Hc, u64_small; lia.
  - intros i Hi. cbn. rewrite insert_insert_eq. destruct (Z.eq_dec (page_pool s + PAGE_STRUCT * i) (struct_of s p)) as [->|Hne].
    + by rewrite lookup_insert_eq.
    + rewrite lookup_insert_ne by congruence. by apply Hst.
Qed.

Lemma put_free_page_spec s p l :
  page_inv s l → managed s p → p ∉ free_page_list s :: l → is_Some (links s !! p) →
  ∃ s', put_free_page p s = Ok s' ∧ page_inv s' (p :: l) ∧
    s' = set_free (links s') (free_page_counter s') s ∧ same_outside (p :: free_page_list s :: l) (links s) (links s').
Proof.
  intros Hinv [Ha Hr] Hn Hcell. pose proof (inv_length _ _ Hinv) as Hlen.
  destruct Hinv as [Hg Hd Hp Hc Hst]. pose proof Hg as [_ [Hb _] [Hs _] He _].
  unfold put_free_page, PAGE_SIZE. rewrite Ha, u64_small by lia. cbn [Z.eqb negb orb].
  rewrite (proj2 (Z.ltb_ge p _)), (proj2 (Z.leb_gt _ p)) by lia. cbn [orb].
  destruct (list_add_spec (links s) (free_page_list s) l p Hd Hn Hcell) as (h' & -> & Hd' & Ho). cbn [obind].
  eexists. split; [done|]. split; [|done]. split; [by destruct Hg; split|done| | |done].
  - apply Forall_cons. by split.
  - cbn. rewrite Hc, u64_small; lia.
Qed.

Lemma put_page_spec s l p v :
  page_inv s l → p ≠ 0 → structs s !! p = Some v →
  put_page p s = if refcount v =? 0 then Panic else Ok s.
Proof.
  intros [Hg _ _ _ _] Hp Hv. pose proof Hg as [_ [Hb _] _ _ _].
  unfold put_page, init_page_struct, get_struct. rewrite (proj2 (Z.eqb_neq p 0)) by done.
  rewrite Hv. cbn [of_option obind]. destruct (Z.eqb_spec (refcount v) 0); cbn [negb]; [|done].
  cbn [structs put_struct set_structs]. rewrite lookup_insert_eq. cbn [of_option obind reset_page paddr].
  unfold put_free_page. cbn [mem_base_addr set_structs put_struct].
  rewrite (proj2 (Z.ltb_lt 0 _)) by lia. by rewrite orb_true_r.
Qed.

(** ** Running out of pages *)

Lemma dll_nil_cell h head : dll h head [] → h !! head = Some (ListHead head head).
Proof.
  intros [_ Hl]. destruct Hl as (Hn & Hp & _).
  destruct (h !! head) as [[n p]|]; simpl in *; congruence.
Qed.

(** Deleting the head of an empty list. *)
Lemma list_del_self h head :
  h !! head = Some (ListHead head head) → list_del head h = Ok (<[head := ListHead 0 0]> h).
Proof.
  intros E. unfold list_del, __list_del, get_prev, get_next, set_prev, set_next. rewrite E.
  simpl. rewrite E. simpl. repeat (rewrite ?lookup_insert_eq, ?insert_insert_eq; simpl). done.
Qed.

Lemma alloc_page_empty kpa s :
  page_inv s [] → 0 < free_page_list s < mem_base_addr s + mem_size s →
  free_page_list s mod 4096 ≠ 0 →
  let head := free_page_list s in
  alloc_page kpa s = Ok (0, set_ram (clear_page PT_ENTRIES head (ram s))
    (set_free (<[head := ListHead 0 0]> (links s)) (2 ^ 64 - 1) s)).
Proof.
  intros [Hg Hd _ Hc _] Hh Hal head. apply dll_nil_cell in Hd as Hcell. pose proof Hg as [_ [Hb _] [Hs _] He _].
  unfold alloc_page, get_free_page_addr. unfold get_next. rewrite Hcell. cbn [fmap option_fmap option_map next of_option obind].
  rewrite (proj2 (Z.eqb_neq _ 0)) by lia. cbn [negb]. rewrite (list_del_self _ _ Hcell). cbn [obind].
  rewrite (proj2 (Z.eqb_neq (free_page_list s) 0)) by lia.
  unfold addr_to_page. cbn [mem_base_addr mem_size set_ram set_free]. rewrite u64_small by lia.
  rewrite (proj2 (Z.leb_gt _ (free_page_list s))) by lia. cbn [obind]. unfold PAGE_SIZE.
  rewrite (proj2 (Z.eqb_neq _ _) Hal). cbn [negb orb obind Z.eqb]. rewrite Hc. done.
Qed.

(** ** Initialisation *)

Fixpoint page_seq (n : nat) (i : Z) : list Z :=
  match n with
  | O => []
  | S n => i :: page_seq n (i + 4096)
  end.

Lemma page_seq_elem n i p :
  p ∈ page_seq n i ↔ i ≤ p < i + 4096 * Z.of_nat n ∧ (p - i) mod 4096 = 0.
Proof.
  revert i. induction n as [|n IH]; intros i; cbn [page_seq].
  { rewrite elem_of_nil. split; [done|]. intros [? _]. lia. }
  rewrite elem_of_cons, IH. split.
  - intros [->|[Hr Hm]]; [split; [lia|by rewrite Z.sub_diag]|]. split; [lia|]. zdm.
  - intros [Hr Hm]. destruct (Z.eq_dec p i) as [->|]; [by left|right]. zdm.
Qed.

Lemma init_structs_spec n i s :
  0 < page_pool s → 0 ≤ i →
  (∀ j, i ≤ j < i + Z.of_nat n → is_Some (structs s !! (page_pool s + PAGE_STRUCT * j))) →
  ∃ m, init_structs n i s = Ok (set_structs m s) ∧ ∀ a, is_Some (structs s !! a) → is_Some (m !! a).
Proof.
  revert i s. induction n as [|n IH]; intros i s Hp Hi Hs; cbn [init_structs].
  { exists (structs s). split; [by destruct s|done]. }
  unfold init_page_struct, get_struct. rewrite (proj2 (Z.eqb_neq _ 0)) by (unfold PAGE_STRUCT; lia).
  destruct (Hs i) as [v Hv]; [lia|]. rewrite Hv. cbn [of_option obind].
  set (s1 := put_struct _ _ s).
  assert (∀ a, is_Some (structs s !! a) → is_Some (structs s1 !! a)) as Hmono.
  { intros a Ha. cbn. destruct (Z.eq_dec (page_pool s + PAGE_STRUCT * i) a) as [->|]; [by rewrite lookup_insert_eq|by rewrite lookup_insert_ne]. }
  destruct (IH (i + 1) s1) as (m & E & Hm); [done|lia| |].
  - intros j Hj. apply Hmono. apply Hs. lia.
  - exists m. split; [rewrite E; done|]. auto.
Qed.

Lemma free_range_spec n i fuel s l :
  page_inv s l → (n ≤ fuel)%nat → 0 ≤ i → i + 4096 * Z.of_nat n < 2 ^ 56 →
  (∀ p, p ∈ page_seq n i → managed s p ∧ (p ∉ free_page_list s :: l) ∧ is_Some (links s !! p)) →
  ∃ s', free_range fuel i (i + 4096 * Z.of_nat n) s = Ok s' ∧ page_inv s' (reverse (page_seq n i) ++ l) ∧
    (page_pool s', structs s', ram s') = (page_pool s, structs s, ram s).
Proof.
  revert n i s l. induction fuel as [|fuel IH]; intros n i s l Hinv Hf Hi Hmax Hp; cbn [free_range].
  all: destruct n as [|n].
  1,3: rewrite (proj2 (Z.ltb_ge _ _)) by lia; by exists s.
  1: lia.
  rewrite (proj2 (Z.ltb_lt _ _)) by lia.
  destruct (Hp i) as (Hm & Hn & Hc); [apply elem_of_cons; by left|].
  destruct (put_free_page_spec s i l Hinv Hm Hn Hc) as (s1 & -> & Hinv1 & Es1 & Ho). cbn [obind].
  unfold PAGE_SIZE. rewrite u64_small by lia.
  replace (i + 4096 * Z.of_nat (S n)) with (i + 4096 + 4096 * Z.of_nat n) in * by lia.
  destruct (IH n (i + 4096) s1 (i :: l)) as (s2 & E & Hinv2 & Eq); [done|lia|lia|lia| |].
  - intros p Hpe. destruct (Hp p) as (Hm' & Hn' & Hc'); [apply elem_of_cons; by right|].
    assert (p ≠ i) as Hpi by (apply page_seq_elem in Hpe; lia).
    rewrite Es1. split; [done|]. cbn [free_page_list set_free links]. split.
    + rewrite !elem_of_cons in *. tauto.
    + rewrite Ho; [done|]. rewrite !elem_of_cons in *. tauto.
  - exists s2. split; [done|]. cbn [page_seq]. rewrite reverse_cons, <-app_assoc. split; [done|].
    rewrite Eq, Es1. done.
Qed.

Lemma init_page_manager_spec kernel_end memsize s :
  let ms := Z.min PKE_MAX_ALLOWABLE_RAM memsize / 4096 * 4096 in
  let pool := (kernel_end + 4095) / 4096 * 4096 in
  let start := pool + (ms / 4096 * PAGE_STRUCT + 4095) / 4096 * 4096 in
  let n := Z.to_nat ((DRAM_BASE + ms - start) / 4096) in
  KERN_BASE < kernel_end → 0 ≤ memsize → kernel_end - KERN_BASE < ms →
  (∀ i, 0 ≤ i < ms / 4096 → is_Some (structs s !! (pool + PAGE_STRUCT * i))) →
  (∀ p, p = free_page_list s ∨ p ∈ page_seq n start → is_Some (links s !! p)) →
  free_page_list s < kernel_end →
  ∃ s', init_page_manager kernel_end memsize s = Ok s' ∧ page_inv s' (reverse (page_seq n start)) ∧
    get_free_page_count s' = Z.of_nat n.
Proof.
  intros ms pool start n Hk Hms Hsz Hst Hcell Hhead.
  assert (0 ≤ ms ≤ 134217728 ∧ ms mod 4096 = 0) as [Hms1 Hms2] by (unfold ms, PKE_MAX_ALLOWABLE_RAM; zdm).
  assert (kernel_end ≤ pool ∧ pool < kernel_end + 4096 ∧ pool mod 4096 = 0) as (Hp1 & Hp2 & Hp3) by (unfold pool; zdm).
  assert (0 < ms) as Hms0 by lia. assert (0 < ms / 4096 ≤ 32768) as Hq by zdm.
  set (ps := (ms / 4096 * PAGE_STRUCT + 4095) / 4096 * 4096) in *.
  assert (0 < ps < 2 ^ 30 ∧ ps mod 4096 = 0) as [Hps1 Hps2] by (unfold ps, PAGE_STRUCT; zdm).
  unfold KERN_BASE, DRAM_BASE in *.
  unfold init_page_manager. rewrite ROUNDDOWN_page by (unfold PKE_MAX_ALLOWABLE_RAM; lia). fold ms.
  unfold KERN_BASE, DRAM_BASE. rewrite (u64_small (kernel_end - _)) by lia.
  rewrite (proj2 (Z.leb_gt ms (kernel_end - 2149580800))) by lia. rewrite (ROUNDUP_page kernel_end) by lia.
  fold pool. unfold PAGE_SIZE.
  change (ROUNDUP (u64 (ms / 4096 * PAGE_STRUCT)) 4096) with (ROUNDUP (u64 (ms / 4096 * PAGE_STRUCT)) PAGE_SIZE).
  rewrite (u64_small (ms / 4096 * PAGE_STRUCT)), ROUNDUP_page by (unfold PAGE_STRUCT; lia). fold ps.
  rewrite !u64_small by lia. fold start. fold n.
  set (s0 := PageManager _ _ _ _ _ _ _ _ _).
  destruct (init_structs_spec (Z.to_nat (ms / 4096)) 0 s0) as (m & -> & Hm); [cbn; lia|lia| |].
  { intros j Hj. apply Hst. lia. }
  cbn [obind]. set (head := free_page_list s) in *.
  destruct (INIT_LIST_HEAD_ok head (links s)) as (h & Eh & HN & HP & Ho); [apply Hcell; by left|].
  cbn [free_page_list links set_structs s0]. fold head. rewrite Eh. cbn [obind].
  set (s1 := set_free _ _ _).
  assert (geometry s1) as Hg.
  { split; unfold s1, s0; cbn [page_pool mem_base_addr mem_size total_pages set_free set_structs]; try done; lia. }
  assert (page_inv s1 []) as Hinv.
  { split; [done| |done|done|].
    - apply dll_nil; rewrite ?HN, ?HP; by case_decide.
    - intros i Hi. cbn. apply Hm. cbn. apply Hst. cbn in Hi. lia. }
  assert (∀ p, p ∈ page_seq n start → managed s1 p ∧ (p ∉ head :: []) ∧ is_Some (links s1 !! p)) as Hpg.
  { intros p Hp. pose proof Hp as [Hr Hmo]%page_seq_elem.
    assert (4096 * Z.of_nat n ≤ Z.max 0 (2147483648 + ms - start)) as Hn by (unfold n; zdm).
    split; [split; [unfold start in *; zdm|cbn; lia]|].
    assert (p ≠ head) as Hne by lia. split; [rewrite list_elem_of_singleton; done|].
    cbn. rewrite Ho by (by rewrite list_elem_of_singleton). apply Hcell. by right. }
  destruct (Z.le_gt_cases start (2147483648 + ms)) as [Hle|Hgt].
  - assert (2147483648 + ms = start + 4096 * Z.of_nat n) as En by (unfold n, start in *; zdm).
    rewrite En. destruct (free_range_spec n start n s1 [] Hinv) as (s' & E & Hinv' & _); [lia|lia|lia|exact Hpg|].
    rewrite app_nil_r in Hinv'. exists s'. split; [exact E|]. split; [done|].
    unfold get_free_page_count. rewrite (pi_counter _ _ Hinv'), length_reverse.
    assert (∀ k i, length (page_seq k i) = k) as -> by (intros k; induction k; intros; cbn; auto).
    apply s32_small. lia.
  - assert (n = 0%nat) as En by (unfold n; zdm). rewrite En. exists s1. split; [|done].
    cbn [free_range]. by rewrite (proj2 (Z.ltb_ge _ _)) by lia.
Qed.

(** ** Properties *)

(** Initialisation: on a machine whose memory holds the kernel, the list head
    and the page structures, [init_page_manager] puts on the free list exactly the
    pages from the end of the page structures to the end of memory, each once, the
    highest first, with the counter equal to their number. *)
Theorem init_page_manager_frees kernel_end memsize s :
  let ms := Z.min PKE_MAX_ALLOWABLE_RAM memsize / 4096 * 4096 in
  let pool := (kernel_end + 4095) / 4096 * 4096 in
  let start := pool + (ms / 4096 * PAGE_STRUCT + 4095) / 4096 * 4096 in
  let n := Z.to_nat ((DRAM_BASE + ms - start) / 4096) in
  KERN_BASE < kernel_end → 0 ≤ memsize → kernel_end - KERN_BASE < ms →
  (∀ i, 0 ≤ i < ms / 4096 → is_Some (structs s !! (pool + PAGE_STRUCT * i))) →
  (∀ p, p = free_page_list s ∨ p ∈ page_seq n start → is_Some (links s !! p)) →
  free_page_list s < kernel_end →
  ∃ s', init_page_manager kernel_end memsize s = Ok s' ∧ page_inv s' (reverse (page_seq n start)) ∧
    get_free_page_count s' = Z.of_nat n.
Proof. apply init_page_manager_spec. Qed.

(** C5. Allocation: [alloc_page] takes the first free page, hands out its own
    structure with reference count 1 and the page's address, clears the whole page
    and changes no other structure; the page is not on the remaining free list, so
    it cannot be handed out again. *)
Theorem alloc_page_exclusive kpa s p l :
  page_inv s (p :: l) →
  ∃ s' v, alloc_page kpa s = Ok (struct_of s p, s') ∧ page_inv s' l ∧ (p ∉ l) ∧
    structs s' !! struct_of s p = Some v ∧ refcount v = 1 ∧ paddr v = p ∧
    (∀ q, q ≠ struct_of s p → structs s' !! q = structs s !! q) ∧
    (∀ i, 0 ≤ i < 512 → ram s' !! (p + 8 * i) = Some 0) ∧
    get_free_page_count s' = s32 (Z.of_nat (length l)).
Proof.
  intros Hinv. destruct (alloc_page_spec kpa s p l Hinv) as (s' & v & E & Hinv' & Hv & Hs & Hr & _).
  exists s', (fresh_page (struct_of s p) p v). rewrite Hs, Hr.
  split; [done|]. split; [done|]. split.
  { destruct Hinv as [_ Hd _ _ _]. apply dll_nodup in Hd. rewrite !NoDup_cons in Hd. tauto. }
  split; [apply lookup_insert_eq|]. split; [done|]. split; [done|].
  split; [intros q Hq; by apply lookup_insert_ne|].
  split; [intros i Hi; apply clear_page_in; unfold PT_ENTRIES; lia|].
  unfold get_free_page_count. by rewrite (pi_counter _ _ Hinv').
Qed.

(** No page is ever given back: [put_page] does not decrement the count, so a
    page that is referenced stays allocated, and for an unreferenced one it clears
    the address of the page before freeing it and panics. *)
Theorem put_page_never_frees s l p v :
  page_inv s l → p ≠ 0 → structs s !! p = Some v →
  (refcount v ≠ 0 → put_page p s = Ok s) ∧ (refcount v = 0 → put_page p s = Panic).
Proof.
  intros Hinv Hp Hv. rewrite (put_page_spec s l p v Hinv Hp Hv). split; intros Hr.
  - by rewrite (proj2 (Z.eqb_neq _ _) Hr).
  - by rewrite Hr.
Qed.

(** Running out: with no free page left the code takes the list head itself for
    a page: it clears the 4096 bytes of kernel data behind the list head, sets the
    head to [NULL] and the counter to [2^64 - 1], and only then returns [NULL]; the
    next page that is freed makes the kernel follow a null pointer. *)
Theorem alloc_page_exhausted kpa s p :
  page_inv s [] → 0 < free_page_list s < mem_base_addr s + mem_size s →
  free_page_list s mod 4096 ≠ 0 → managed s p → links s !! 0 = None →
  ∃ s', alloc_page kpa s = Ok (0, s') ∧
    (∀ i, 0 ≤ i < 512 → ram s' !! (free_page_list s + 8 * i) = Some 0) ∧
    free_page_counter s' = 2 ^ 64 - 1 ∧ put_free_page p s' = Fault.
Proof.
  intros Hinv Hh Hal [Hpa Hpr] H0. rewrite (alloc_page_empty kpa s Hinv Hh Hal). eexists. split; [done|].
  destruct Hinv as [Hg _ _ _ _]. pose proof Hg as [_ [Hb _] [Hs _] He _].
  split; [intros i Hi; apply clear_page_in; unfold PT_ENTRIES; lia|]. split; [done|].
  unfold put_free_page, PAGE_SIZE. cbn [mem_base_addr mem_size free_page_list links set_ram set_free].
  rewrite Hpa, u64_small by lia. cbn [Z.eqb negb orb].
  rewrite (proj2 (Z.ltb_ge p _)), (proj2 (Z.leb_gt _ p)) by lia. cbn [orb].
  unfold list_add, get_next. rewrite lookup_insert_eq. cbn.
  unfold __list_add, set_prev. rewrite lookup_insert_ne by lia. by rewrite H0.
Qed.

(** ** The allocator implements the interface of the page tables *)

Definition heap_ok (s : page_manager) : Prop :=
  (∃ l, page_inv s l) ∧ 0 < free_page_list s < mem_base_addr s + mem_size s ∧
  free_page_list s mod 4096 ≠ 0.

Definition page_heap : Type := { s : page_manager | heap_ok s }.

(** The pages on the free list, by walking it. *)
Definition free_pages (s : page_manager) : list Z :=
  match links s !! free_page_list s with
  | Some n => default [] (list_for_each (size (links s)) (next n) (free_page_list s) (links s))
  | None => []
  end.

Lemma free_pages_inv s l : page_inv s l → free_pages s = l.
Proof.
  intros [_ Hd _ _ _]. unfold free_pages. pose proof (dll_first _ _ _ Hd) as Hf.
  unfold nx in Hf. destruct (links s !! free_page_list s) as [n|]; [|done].
  simpl in Hf. injection Hf as Hf. rewrite Hf.
  rewrite (list_for_each_ok (links s) (free_page_list s) l) by (done || by eapply dll_length). done.
Qed.

Section Interface.
Context (kernel_pa : Z → outcome Z).

Lemma alloc_heap_ok s p s' : heap_ok s → alloc_page kernel_pa s = Ok (p, s') → p ≠ 0 → heap_ok s'.
Proof.
  intros ([l Hinv] & Hh & Hal) E Hp. destruct l as [|q l].
  - rewrite (alloc_page_empty _ s Hinv Hh Hal) in E. by injection E as <-.
  - destruct (alloc_page_spec kernel_pa s q l Hinv) as (s1 & v & E1 & Hinv1 & _ & _ & _ & [= _ Eb Es _ Ef]).
    rewrite E1 in E. injection E as _ <-. split; [eauto|]. by rewrite Ef, Eb, Es.
Qed.

(** [alloc_page()->paddr], from the result [r] of [alloc_page]. *)
Definition alloc_heap_from (a : page_heap) (r : outcome (Z * page_manager)) :
    alloc_page kernel_pa (`a) = r → outcome (Z * page_heap) :=
  match r with
  | Ok (p, s') => λ E,
      match Z.eq_dec p 0 with
      | left _ => Fault
      | right Hp =>
          let! v := get_struct p s' in
          Ok (paddr v, s' ↾ alloc_heap_ok _ _ _ (proj2_sig a) E Hp)
      end
  | Panic => λ _, Panic
  | Fault => λ _, Fault
  | Timeout => λ _, Timeout
  end.

Definition alloc_heap (a : page_heap) : outcome (Z * page_heap) :=
  alloc_heap_from a (alloc_page kernel_pa (`a)) eq_refl.

(** [put_page(addr_to_page(pa))]; when it returns, the state is unchanged. *)
Definition put_heap (pa : Z) (a : page_heap) : outcome page_heap :=
  let! p := addr_to_page kernel_pa pa (`a) in
  let! _ := put_page p (`a) in
  Ok a.

Lemma put_heap_faithful s p s' : heap_ok s → put_page p s = Ok s' → s' = s.
Proof.
  intros ([l Hinv] & _) E. destruct (Z.eq_dec p 0) as [->|Hp]; [by injection E as <-|].
  destruct (structs s !! p) as [v|] eqn:Hv.
  - rewrite (put_page_spec s l p v Hinv Hp Hv) in E. destruct (_ =? 0); [done|]. by injection E as <-.
  - unfold put_page, get_struct in E. rewrite (proj2 (Z.eqb_neq p 0)), Hv in E by done. done.
Qed.

Lemma alloc_heap_eq a p s' (Hp : p ≠ 0) v :
  alloc_page kernel_pa (`a) = Ok (p, s') → structs s' !! p = Some v →
  ∃ H, alloc_heap a = Ok (paddr v, s' ↾ H).
Proof.
  intros E Hv. unfold alloc_heap.
  assert (∀ r (Er : alloc_page kernel_pa (`a) = r), r = Ok (p, s') →
    ∃ H, alloc_heap_from a r Er = Ok (paddr v, s' ↾ H)) as Hr; [|by apply Hr].
  intros r Er ->. cbn. destruct (Z.eq_dec p 0); [done|]. unfold get_struct. rewrite Hv. cbn. eauto.
Qed.

#[export, refine] Instance page_heap_alloc : PageAlloc page_heap := {
  PageTable.alloc_page := alloc_heap;
  PageTable.put_page := put_heap;
  avail a := free_pages (`a);
}.
Proof.
  - intros [s Hs] p l Hav. cbn in Hav. pose proof Hs as ([l0 Hinv] & _).
    rewrite (free_pages_inv s l0 Hinv) in Hav. subst l0.
    destruct (alloc_page_spec kernel_pa s p l Hinv) as (s' & v & E & Hinv' & Hv & Hst & _ & [= Ep Eb Es _ _]).
    pose proof Hinv as [Hg _ Hpg _ _]. apply Forall_cons in Hpg as [Hm _].
    pose proof (struct_of_pos s p Hg Hm) as Hpos.
    assert (structs s' !! struct_of s p = Some (fresh_page (struct_of s p) p v)) as Hv'
      by (rewrite Hst; apply lookup_insert_eq).
    destruct (alloc_heap_eq (s ↾ Hs) (struct_of s p) s' ltac:(lia) _ E Hv') as (Hs' & Ea).
    exists (s' ↾ Hs'). split; [exact Ea|exact (free_pages_inv s' l Hinv')].
  - intros a p a' E. left. unfold put_heap in E. destruct (addr_to_page kernel_pa p (`a)) as [x| | |]; cbn [obind] in E; try done.
    destruct (put_page x (`a)); cbn [obind] in E; try done. by injection E as <-.
Defined.

(** Unmapping never gives a page back, whatever [free_phys] says: [put_page] does not count
    references down, and frees only pages that have none, for which it panics. *)
Lemma unmap_entry_keeps pte fp (s s' : @vmem page_heap) : unmap_entry pte fp s = Ok s' → pages s' = pages s.
Proof.
  unfold unmap_entry, read_word, write_word, read_word. destruct (pte =? 0); [by intros [= <-]|].
  destruct (words s !! pte) as [w|] eqn:Ew; cbn [of_option obind]; [|done]. destruct (negb _); [|by intros [= <-]].
  destruct fp; cbn [obind].
  - destruct (PageTable.put_page _ _) as [a| | |] eqn:E; cbn [obind]; try done. cbn [words set_pages]. rewrite Ew. cbn [of_option obind].
    intros [= <-]. cbn. cbn in E. unfold put_heap in E. destruct (addr_to_page _ _ _) as [x| | |]; cbn [obind] in E; try done.
    destruct (put_page x _); cbn [obind] in E; try done. by injection E.
  - rewrite Ew. cbn [of_option obind]. by intros [= <-].
Qed.

Lemma walk_find_same {A} {PM : PageAlloc A} root va (s s' : @vmem A) p : page_walk root va false s = Ok (p, s') → s' = s.
Proof.
  unfold page_walk, walk_step. destruct (root =? 0); [by intros [= _ <-]|]. destruct (MAXVA <=? va); [by intros [= _ <-]|].
  destruct (read_word (root + 8 * PX 2 va) s) as [w| | |]; cbn [obind]; try done. destruct (negb _); cbn [obind]; [|by intros [= _ <-]].
  destruct (read_word (PTE2PA w + 8 * PX 1 va) s) as [w'| | |]; cbn [obind]; try done. destruct (negb _); cbn [obind]; by intros [= _ <-].
Qed.

Theorem unmap_frees_nothing root va size fp (s s' : @vmem page_heap) r :
  pgt_unmap root va size fp s = Ok (r, s') → pages s' = pages s.
Proof.
  unfold pgt_unmap. destruct (root =? 0); [by intros [= _ <-]|]. destruct (_ || _); [by intros [= _ <-]|].
  generalize (Z.to_nat ((ROUNDUP (u64 (va + size)) PAGE_SIZE - ROUNDDOWN va PAGE_SIZE) / PAGE_SIZE)) as fuel.
  generalize (ROUNDDOWN va PAGE_SIZE) as v, (ROUNDUP (u64 (va + size)) PAGE_SIZE) as e. intros v e fuel. revert v s.
  induction fuel as [|fuel IH]; intros v s; cbn [unmap_loop]; (destruct (v <? e); cbn [obind]; [|by intros [= _ <-]]); [done|].
  destruct (page_walk root v false s) as [[p s1]| | |] eqn:Ew; cbn [obind]; try done.
  destruct (unmap_entry p fp s1) as [s2| | |] eqn:Eu; cbn [obind]; try done. intros E. rewrite (IH _ _ E), (unmap_entry_keeps _ _ _ _ Eu).
  by rewrite (walk_find_same _ _ _ _ _ Ew).
Qed.
End Interface.

(** ** Concrete machines *)

Definition zero_page : page := Page 0 0 0 0 0 0 (ListHead 0 0) false.

(** One managed page at 65536, free or not; the list head is at 60008. *)
Definition one_page (free : bool) (n : Z) : page_manager :=
  PageManager 1000 {[1000 := set_refcount n zero_page]} 1 65536 4096 60008
    (if free then {[60008 := ListHead 65536 65536; 65536 := ListHead 60008 60008]}
     else {[60008 := ListHead 60008 60008; 65536 := ListHead 0 0]})
    (if free then 1 else 0) ∅.

Lemma one_page_inv (free : bool) n : page_inv (one_page free n) (if free then [65536] else []).
Proof.
  split.
  - by split; cbn; try (split; lia || done); lia.
  - destruct free; (split; [apply (bool_decide_unpack _); vm_compute; exact I|by repeat split]).
  - destruct free; [|by apply Forall_nil]. apply Forall_cons. split; [|by apply Forall_nil]. split; [done|cbn; lia].
  - by destruct free.
  - cbn. intros i Hi. replace i with 0 by lia. by eexists.
Qed.

(** 525 pages of memory above [DRAM_BASE], of which the last two are free. *)
Definition boot_machine : page_manager :=
  PageManager 0 (list_to_map ((λ i, (2149584896 + 72 * i, zero_page)) <$> seqZ 0 525)) 0 0 0 2149580808
    (list_to_map ((λ p, (p, ListHead 0 0)) <$> [2149580808; 2149625856; 2149629952])) 0 ∅.

Lemma init_page_manager_frees_witness :
  ∃ s', init_page_manager 2149580900 2150400 boot_machine = Ok s' ∧
    page_inv s' [2149629952; 2149625856] ∧ get_free_page_count s' = 2.
Proof.
  apply (init_page_manager_frees 2149580900 2150400 boot_machine).
  - reflexivity.
  - lia.
  - reflexivity.
  - intros i Hi.
    assert (Forall (λ i, is_Some (structs boot_machine !! (2149584896 + 72 * i))) (seqZ 0 525)) as Hf
      by (apply (bool_decide_unpack _); vm_compute; exact I).
    rewrite Forall_forall in Hf. apply Hf, elem_of_seqZ.
    change (Z.min PKE_MAX_ALLOWABLE_RAM 2150400 / 4096 * 4096 / 4096) with 525 in Hi. lia.
  - intros p [->|Hp]; [by eexists|]. vm_compute in Hp.
    apply elem_of_cons in Hp as [->|Hp]; [by eexists|].
    apply elem_of_cons in Hp as [->|Hp]; [by eexists|]. by apply elem_of_nil in Hp.
  - reflexivity.
Defined.

Lemma alloc_page_exclusive_witness :
  ∃ s' v, alloc_page Ok (one_page true 0) = Ok (1000, s') ∧ structs s' !! 1000 = Some v ∧ paddr v = 65536.
Proof.
  destruct (alloc_page_exclusive Ok (one_page true 0) 65536 [] (one_page_inv true 0))
    as (s' & v & E & _ & _ & Hv & _ & Hp & _).
  exists s', v. split; [exact E|]. split; [exact Hv|exact Hp].
Defined.

Lemma put_page_never_frees_witness :
  put_page 1000 (one_page false 1) = Ok (one_page false 1) ∧ put_page 1000 (one_page false 0) = Panic.
Proof.
  split.
  - apply (put_page_never_frees _ _ 1000 (set_refcount 1 zero_page) (one_page_inv false 1)); done.
  - apply (put_page_never_frees _ _ 1000 (set_refcount 0 zero_page) (one_page_inv false 0)); done.
Defined.

Lemma alloc_page_exhausted_witness :
  ∃ s', alloc_page Ok (one_page false 1) = Ok (0, s') ∧ put_free_page 65536 s' = Fault.
Proof.
  destruct (alloc_page_exhausted Ok (one_page false 1) 65536 (one_page_inv false 1)) as (s' & E & _ & _ & Hf).
  - cbn. lia.
  - done.
  - split; [done|cbn; lia].
  - done.
  - exists s'. split; [exact E|exact Hf].
Defined.
