(* ===== verification/RadixTree.v ===== *)
(** * Radix trees ([kernel/util/radix_tree.c], [include/kernel/util/radix_tree.h])

    The page cache's index: nodes of 64 slots in a store indexed by address. The
    height of a tree is at most [RADIX_TREE_MAX_HEIGHT], so five steps of fuel end
    every loop over the levels. *)

From stdpp Require Import base gmap list.
From S2P Require Import Prelude.
Local Open Scope Z_scope.
Local Open Scope kernel_scope.

Definition RADIX_TREE_MAP_SHIFT : Z := 6.
Definition RADIX_TREE_MAP_SIZE : nat := 64.
Definition RADIX_TREE_MAP_MASK : Z := 63.
Definition RADIX_TREE_MAX_HEIGHT : Z := 4.
Definition RADIX_TREE_MAX_TAGS : Z := 3.
Definition NODE_SIZE : Z := 552.

(** One word holds the 64 tag bits of a tag, so [tags] is an array of three words. *)
Record radix_tree_node := Node {
  height : Z;
  count : Z;
  parent : Z;
  slots : list Z;
  tags : list Z;
}.

Definition node_zero : radix_tree_node :=
  Node 0 0 0 (replicate RADIX_TREE_MAP_SIZE 0) (replicate 3 0).

Definition set_height (v : Z) (n : radix_tree_node) : radix_tree_node :=
  Node v (count n) (parent n) (slots n) (tags n).
Definition set_count (v : Z) (n : radix_tree_node) : radix_tree_node :=
  Node (height n) v (parent n) (slots n) (tags n).
Definition set_parent (v : Z) (n : radix_tree_node) : radix_tree_node :=
  Node (height n) (count n) v (slots n) (tags n).
Definition set_slot (i v : Z) (n : radix_tree_node) : radix_tree_node :=
  Node (height n) (count n) (parent n) (<[Z.to_nat i := v]> (slots n)) (tags n).
Definition set_tag (t v : Z) (n : radix_tree_node) : radix_tree_node :=
  Node (height n) (count n) (parent n) (slots n) (<[Z.to_nat t := v]> (tags n)).

Section RadixTree.
Context {A : Type} {KM : KMalloc A}.

(** The tree ([struct radixTreeRoot]), the nodes in memory and the allocator. *)
Record rtree := RTree {
  rheight : Z;
  rnode : Z;
  nodes : gmap Z radix_tree_node;
  heap : A;
}.

Definition set_root (h n : Z) (s : rtree) : rtree := RTree h n (nodes s) (heap s).
Definition set_nodes (m : gmap Z radix_tree_node) (s : rtree) : rtree :=
  RTree (rheight s) (rnode s) m (heap s).

Definition get_node (p : Z) (s : rtree) : outcome radix_tree_node := of_option (nodes s !! p).
Definition get_slot (i : Z) (n : radix_tree_node) : outcome Z := of_option (slots n !! Z.to_nat i).
Definition put_node (p : Z) (n : radix_tree_node) (s : rtree) : rtree :=
  set_nodes (<[p := n]> (nodes s)) s.
(** Change the node at [p]. *)
Definition on_node (p : Z) (f : radix_tree_node → radix_tree_node) (s : rtree) : outcome rtree :=
  let! n := get_node p s in Ok (put_node p (f n) s).

Definition radix_tree_node_alloc (s : rtree) : Z * rtree :=
  let (p, a) := kmalloc NODE_SIZE (heap s) in
  let s := RTree (rheight s) (rnode s) (nodes s) a in
  if p =? 0 then (0, s)
  else (p, put_node p (set_parent 0 (set_count 0 node_zero)) s).

Definition radix_tree_node_free (p : Z) (s : rtree) : rtree :=
  if p =? 0 then s
  else RTree (rheight s) (rnode s) (delete p (nodes s)) (kfree p (heap s)).

(** [(index >> shift) & RADIX_TREE_MAP_MASK]. *)
Definition offset_at (index shift : Z) : Z := Z.land (Z.shiftr index shift) RADIX_TREE_MAP_MASK.

Definition radix_tree_index_in_node (index height : Z) : Z :=
  offset_at index ((height - 1) * RADIX_TREE_MAP_SHIFT).

(** [1UL << (height * RADIX_TREE_MAP_SHIFT)]. *)
Definition limit (height : Z) : Z := Z.shiftl 1 (height * RADIX_TREE_MAP_SHIFT).

(** The height needed for [index], [None] when it is too large. *)
Fixpoint needed_height (fuel : nat) (index height : Z) : outcome (option Z) :=
  if limit height <? index then
    match fuel with
    | O => Timeout
    | S fuel =>
        if RADIX_TREE_MAX_HEIGHT <=? height then Ok None
        else needed_height fuel index (height + 1)
    end
  else Ok (Some height).

(** The [do ... while (height > root->height)] of [radix_tree_extend]. *)
Fixpoint extend_loop (fuel : nat) (height' : Z) (s : rtree) : outcome (Z * rtree) :=
  match fuel with
  | O => Timeout
  | S fuel =>
      let (node, s) := radix_tree_node_alloc s in
      if node =? 0 then Ok (- ENOMEM, s)
      else
        let! s :=
          (if rheight s =? 0 then Ok (set_root 1 node s)
           else
             let! s := on_node node (λ n,
                 set_count 1 (set_height (u32 (rheight s + 1)) (set_slot 0 (rnode s) n))) s in
             let! s := (if negb (rnode s =? 0) then on_node (rnode s) (set_parent node) s else Ok s) in
             Ok (set_root (u32 (rheight s + 1)) node s)) in
        if rheight s <? height' then extend_loop fuel height' s else Ok (0, s)
  end.

Definition radix_tree_extend (index : Z) (s : rtree) : outcome (Z * rtree) :=
  let! h := needed_height 5 index (rheight s) in
  match h with
  | None => Ok (- EINVAL, s)
  | Some h => if h =? rheight s then Ok (0, s) else extend_loop 5 h s
  end.

(** The descent of [radix_tree_create_path]: the result and the leaf reached. *)
Fixpoint create_loop (fuel : nat) (i shift index node : Z) (s : rtree) : outcome (Z * Z * rtree) :=
  if i <? u32 (rheight s - 1) then
    match fuel with
    | O => Timeout
    | S fuel =>
        if node =? 0 then Ok (- EINVAL, 0, s)
        else
          let offset := offset_at index shift in
          let! n := get_node node s in
          let! child := get_slot offset n in
          if child =? 0 then
            let (child, s) := radix_tree_node_alloc s in
            if child =? 0 then Ok (- ENOMEM, 0, s)
            else
              let! s := on_node child (λ c, set_parent node (set_height (u32 (rheight s - (i + 1))) c)) s in
              let! s := on_node node (λ n, set_count (u32 (count n + 1)) (set_slot offset child n)) s in
              create_loop fuel (i + 1) (u32 (shift - RADIX_TREE_MAP_SHIFT)) index child s
          else create_loop fuel (i + 1) (u32 (shift - RADIX_TREE_MAP_SHIFT)) index child s
    end
  else Ok (0, node, s).

(** The slot found is the pair of its node and its offset. *)
Definition radix_tree_create_path (index : Z) (s : rtree) : outcome (Z * (Z * Z) * rtree) :=
  let! (result, s) := radix_tree_extend index s in
  if result <? 0 then Ok (result, (0, 0), s)
  else
    let! (result, node, s) :=
      create_loop 5 0 (u32 ((rheight s - 1) * RADIX_TREE_MAP_SHIFT)) index (rnode s) s in
    if result <? 0 then Ok (result, (0, 0), s)
    else Ok (0, (node, Z.land index RADIX_TREE_MAP_MASK), s).

Definition radix_tree_node_can_delete (n : radix_tree_node) : bool := count n =? 0.

(** The node pointer that is left, 0 when the node was freed. *)
Fixpoint radix_tree_delete_node (levels : nat) (node index : Z) (s : rtree) : outcome (Z * rtree) :=
  match levels with
  | O => Fault
  | S levels =>
      let offset := radix_tree_index_in_node index (Z.of_nat (S levels)) in
      let! n := get_node node s in
      let! child := get_slot offset n in
      let! s :=
        (match levels with
         | S _ =>
             let! (child, s) := radix_tree_delete_node levels child index s in
             let! s := on_node node (set_slot offset child) s in
             if child =? 0 then on_node node (λ n, set_count (u32 (count n - 1)) n) s else Ok s
         | O => on_node node (λ n, set_count (u32 (count n - 1)) (set_slot offset 0 n)) s
         end) in
      let! n := get_node node s in
      if radix_tree_node_can_delete n then Ok (0, radix_tree_node_free node s)
      else Ok (node, s)
  end.

Fixpoint shrink_loop (fuel : nat) (node : Z) (s : rtree) : outcome rtree :=
  if (1 <? rheight s) && negb (node =? 0) then
    let! n := get_node node s in
    if count n =? 1 then
      match fuel with
      | O => Timeout
      | S fuel =>
          let! child := get_slot 0 n in
          if child =? 0 then Ok s
          else
            let! c := get_node child s in
            if negb (height c =? u32 (height n - 1)) then Ok s
            else
              let s := set_root (rheight s - 1) child s in
              let! s := on_node child (set_parent 0) s in
              shrink_loop fuel child (radix_tree_node_free node s)
      end
    else Ok s
  else Ok s.

Definition radix_tree_shrink (s : rtree) : outcome rtree :=
  let! s := shrink_loop 5 (rnode s) s in
  if (0 <? rheight s) && (rnode s =? 0) then Ok (set_root 0 (rnode s) s) else Ok s.

Definition radix_tree_init (s : rtree) : rtree := set_root 0 0 s.

Definition radix_tree_insert (index item : Z) (s : rtree) : outcome (Z * rtree) :=
  if item =? 0 then Ok (- EINVAL, s)
  else
    let! (result, slot, s) := radix_tree_create_path index s in
    if result <? 0 then Ok (result, s)
    else
      let (node, offset) := slot : Z * Z in
      let! n := get_node node s in
      let! old := get_slot offset n in
      if negb (old =? 0) then Ok (- EEXIST, s)
      else
        let! s := on_node node (set_slot offset item) s in
        Ok (0, s).

(** The loop over the levels of [radix_tree_lookup] and its kin: from [node], with
    [levels] levels to go, to the pointer below. *)
Fixpoint descend (levels : nat) (index node : Z) (s : rtree) : outcome Z :=
  match levels with
  | O => Ok node
  | S l =>
      if node =? 0 then Ok 0
      else
        let! n := get_node node s in
        let! child := get_slot (offset_at index (Z.of_nat l * RADIX_TREE_MAP_SHIFT)) n in
        descend l index child s
  end.

Definition radix_tree_lookup (index : Z) (s : rtree) : outcome Z :=
  if rheight s =? 0 then Ok 0
  else if limit (rheight s) <? index then Ok 0
  else descend (Z.to_nat (rheight s)) index (rnode s) s.

(** The walk of [radix_tree_delete] to the leaf: all levels but the last. *)
Fixpoint descend_leaf (levels : nat) (index node : Z) (s : rtree) : outcome Z :=
  match levels with
  | O => Ok node
  | S l =>
      if node =? 0 then Ok 0
      else
        let! n := get_node node s in
        let! child := get_slot (offset_at index (Z.of_nat levels * RADIX_TREE_MAP_SHIFT)) n in
        descend_leaf l index child s
  end.

Definition radix_tree_delete (index : Z) (s : rtree) : outcome (Z * rtree) :=
  if rheight s =? 0 then Ok (0, s)
  else if limit (rheight s) <? index then Ok (0, s)
  else
    let offset := Z.land index RADIX_TREE_MAP_MASK in
    if rheight s =? 1 then
      let node := rnode s in
      if node =? 0 then Ok (0, s)
      else
        let! n := get_node node s in
        let! item := get_slot offset n in
        if item =? 0 then Ok (item, s)
        else
          let n := set_count (u32 (count n - 1)) (set_slot offset 0 n) in
          let s := put_node node n s in
          if count n =? 0 then Ok (item, set_root 0 0 (radix_tree_node_free node s))
          else Ok (item, s)
    else
      let! node := descend_leaf (Z.to_nat (rheight s - 1)) index (rnode s) s in
      if node =? 0 then Ok (0, s)
      else
        let! n := get_node node s in
        let! item := get_slot offset n in
        if item =? 0 then Ok (item, s)
        else
          let s := put_node node (set_count (u32 (count n - 1)) (set_slot offset 0 n)) s in
          let! (_, s) := radix_tree_delete_node (Z.to_nat (rheight s)) (rnode s) index s in
          let! s := radix_tree_shrink s in
          Ok (item, s).

(** The items found, in order; their number is the result. *)
Fixpoint gang_loop (fuel : nat) (first_index index : Z) (s : rtree) : outcome (list Z) :=
  match fuel with
  | O => Ok []
  | S fuel =>
      let! item := radix_tree_lookup index s in
      if item =? 0 then Ok []
      else
        let index := u64 (index + 1) in
        if index <? first_index then Ok [item]
        else let! l := gang_loop fuel first_index index s in Ok (item :: l)
  end.

Definition radix_tree_gang_lookup (first_index max_items : Z) (s : rtree) : outcome (list Z) :=
  gang_loop (Z.to_nat max_items) first_index first_index s.

(** The walk of the tag operations: [f] changes the tag word of each node, given
    the offset. [false] is the early [return -ENOENT]. *)
Fixpoint tag_walk (f : Z → Z → Z) (levels : nat) (tag index node : Z) (s : rtree) : outcome (bool * rtree) :=
  match levels with
  | O => Ok (true, s)
  | S l =>
      if node =? 0 then Ok (false, s)
      else
        let offset := offset_at index (Z.of_nat l * RADIX_TREE_MAP_SHIFT) in
        let! n := get_node node s in
        let! w := of_option (tags n !! Z.to_nat tag) in
        let s := put_node node (set_tag tag (f offset w) n) s in
        let! child := get_slot offset n in
        tag_walk f l tag index child s
  end.

Definition tag_update (f : Z → Z → Z) (index tag : Z) (s : rtree) : outcome (Z * rtree) :=
  if RADIX_TREE_MAX_TAGS <=? tag then Ok (- EINVAL, s)
  else if rheight s =? 0 then Ok (- ENOENT, s)
  else if limit (rheight s) <? index then Ok (- ENOENT, s)
  else
    let! (done, s) := tag_walk f (Z.to_nat (rheight s)) tag index (rnode s) s in
    Ok (if done : bool then 0 else - ENOENT, s).

Definition radix_tree_tag_set : Z → Z → rtree → outcome (Z * rtree) :=
  tag_update (λ offset w, Z.lor w (Z.shiftl 1 (offset mod 64))).

Definition radix_tree_tag_clear : Z → Z → rtree → outcome (Z * rtree) :=
  tag_update (λ offset w, Z.land w (Z.lnot (Z.shiftl 1 (offset mod 64)))).

Fixpoint tag_get_walk (levels : nat) (tag index node : Z) (s : rtree) : outcome Z :=
  match levels with
  | O => Ok 1
  | S l =>
      if node =? 0 then Ok 0
      else
        let offset := offset_at index (Z.of_nat l * RADIX_TREE_MAP_SHIFT) in
        let! n := get_node node s in
        let! w := of_option (tags n !! Z.to_nat tag) in
        if Z.land w (Z.shiftl 1 (offset mod 64)) =? 0 then Ok 0
        else
          let! child := get_slot offset n in
          tag_get_walk l tag index child s
  end.

Definition radix_tree_tag_get (index tag : Z) (s : rtree) : outcome Z :=
  if RADIX_TREE_MAX_TAGS <=? tag then Ok 0
  else if rheight s =? 0 then Ok 0
  else if limit (rheight s) <? index then Ok 0
  else tag_get_walk (Z.to_nat (rheight s)) tag index (rnode s) s.

(** Skip to the next tagged index; [None] is the wrap-around. *)
Fixpoint skip_untagged (fuel : nat) (first_index index tag : Z) (s : rtree) : outcome (option Z) :=
  let! t := radix_tree_tag_get index tag s in
  if negb (t =? 0) then Ok (Some index)
  else
    match fuel with
    | O => Timeout
    | S fuel =>
        let index := u64 (index + 1) in
        if index <? first_index then Ok None
        else skip_untagged fuel first_index index tag s
    end.

Fixpoint gang_tag_loop (fuel scan : nat) (first_index index tag : Z) (s : rtree) : outcome (list Z) :=
  match fuel with
  | O => Ok []
  | S fuel =>
      let! i := skip_untagged scan first_index index tag s in
      match i with
      | None => Ok []
      | Some index =>
          let! item := radix_tree_lookup index s in
          if item =? 0 then Ok []
          else
            let index := u64 (index + 1) in
            if index <? first_index then Ok [item]
            else let! l := gang_tag_loop fuel scan first_index index tag s in Ok (item :: l)
      end
  end.

(** [scan] bounds the number of indices skipped in one go. *)
Definition radix_tree_gang_lookup_tag (scan : nat) (first_index max_items tag : Z) (s : rtree)
    : outcome (list Z) :=
  if RADIX_TREE_MAX_TAGS <=? tag then Ok []
  else gang_tag_loop (Z.to_nat max_items) scan first_index first_index tag s.

Fixpoint radix_tree_destroy_node (levels : nat) (node : Z) (s : rtree) : outcome rtree :=
  if node =? 0 then Ok s
  else
    let! s :=
      (match levels with
       | S (S _ as l) =>
           let! n := get_node node s in
           (fix loop (cs : list Z) (s : rtree) : outcome rtree :=
              match cs with
              | [] => Ok s
              | c :: cs =>
                  let! s := (if c =? 0 then Ok s else radix_tree_destroy_node l c s) in
                  loop cs s
              end) (slots n) s
       | _ => Ok s
       end) in
    Ok (radix_tree_node_free node s).

Definition radix_tree_destroy (s : rtree) : outcome rtree :=
  if (0 <? rheight s) && negb (rnode s =? 0) then
    let! s := radix_tree_destroy_node (Z.to_nat (rheight s)) (rnode s) s in
    Ok (set_root 0 0 s)
  else Ok s.

Fixpoint count_items (levels : nat) (node : Z) (s : rtree) : outcome Z :=
  if node =? 0 then Ok 0
  else
    match levels with
    | O => Fault
    | S l =>
        let! n := get_node node s in
        (fix loop (cs : list Z) (acc : Z) : outcome Z :=
           match cs with
           | [] => Ok acc
           | c :: cs =>
               if c =? 0 then loop cs acc
               else
                 let! k := (match l with O => Ok 1 | S _ => count_items l c s end) in
                 loop cs (u64 (acc + k))
           end) (slots n) 0
    end.

Definition radix_tree_count_items (s : rtree) : outcome Z :=
  if (rheight s =? 0) || (rnode s =? 0) then Ok 0
  else count_items (Z.to_nat (rheight s)) (rnode s) s.

(** The callback changes a state [D]; a non-zero result stops the iteration. *)
Section ForEach.
Context {D : Type} (fn : Z → Z → D → Z * D).

Fixpoint for_each (levels : nat) (node base_index : Z) (s : rtree) (d : D) : outcome (Z * D) :=
  if node =? 0 then Ok (0, d)
  else
    match levels with
    | O => Fault
    | S l =>
        let! n := get_node node s in
        (fix loop (cs : list Z) (i count : Z) (d : D) : outcome (Z * D) :=
           match cs with
           | [] => Ok (count, d)
           | c :: cs =>
               if c =? 0 then loop cs (i + 1) count d
               else
                 match l with
                 | O =>
                     let (r, d) := fn c (Z.lor base_index i) d in
                     if r =? 0 then loop cs (i + 1) (u32 (count + 1)) d else Ok (count, d)
                 | S _ =>
                     let new_base := Z.lor base_index (u32 (Z.shiftl i (Z.of_nat l * RADIX_TREE_MAP_SHIFT))) in
                     let! (ret, d) := for_each l c new_base s d in
                     let count := u32 (count + ret) in
                     let! k := count_items l c s in
                     if negb (ret =? k) then Ok (count, d) else loop cs (i + 1) count d
                 end
           end) (slots n) 0 0 d
    end.

Definition radix_tree_for_each (s : rtree) (d : D) : outcome (Z * D) :=
  if (rheight s =? 0) || (rnode s =? 0) then Ok (0, d)
  else for_each (Z.to_nat (rheight s)) (rnode s) 0 s d.
End ForEach.
End RadixTree.

(** ** The map a tree represents *)

Lemma limit_pow h : 0 ≤ h → limit h = 64 ^ h.
Proof.
  intros. unfold limit, RADIX_TREE_MAP_SHIFT. rewrite Z.shiftl_1_l. change 64 with (2 ^ 6).
  rewrite <-Z.pow_mul_r by lia. f_equal. lia.
Qed.

Lemma offset_at_div i l : 0 ≤ l → offset_at i (l * RADIX_TREE_MAP_SHIFT) = i / 64 ^ l mod 64.
Proof.
  intros. unfold offset_at, RADIX_TREE_MAP_MASK, RADIX_TREE_MAP_SHIFT. change 63 with (Z.ones 6).
  rewrite Z.land_ones, Z.shiftr_div_pow2 by lia. change 64 with (2 ^ 6).
  rewrite <-Z.pow_mul_r by lia. do 3 f_equal. lia.
Qed.

Lemma offset_range i l : 0 ≤ l → 0 ≤ offset_at i (l * RADIX_TREE_MAP_SHIFT) < 64.
Proof. intros. rewrite offset_at_div by done. apply Z.mod_pos_bound. lia. Qed.

(** A node of level [k] with base [b] covers the indices [i] with [i / 64^k = b]. *)
Lemma child_base i l : 0 ≤ l →
  64 * (i / 64 ^ (l + 1)) + offset_at i (l * RADIX_TREE_MAP_SHIFT) = i / 64 ^ l.
Proof.
  intros. rewrite offset_at_div by done. rewrite Z.pow_add_r, <-Z.div_div by lia.
  change (64 ^ 1) with 64. symmetry. apply Z.div_mod. lia.
Qed.

Section Spec.
Context {A : Type} {KM : KMalloc A} {KS : KMallocSpec A}.
Implicit Types (s : @rtree A) (own : gmap Z (Z * Z)).

(** The number of slots in use. *)
Definition used (l : list Z) : Z := Z.of_nat (length (filter (λ c, c ≠ 0) l)).

(** What the field [count] of a node of level [k] holds: the slots in use of an inner
    node; of a leaf, whose items are not counted when they are inserted, 0. *)
Definition node_count (k : Z) (n : radix_tree_node) : Z := if 1 <? k then used (slots n) else 0.

Record rt_inv own s : Prop := {
  ri_height : 0 ≤ rheight s ≤ 4;
  ri_root : if rheight s =? 0 then rnode s = 0 ∧ own = ∅ else own !! rnode s = Some (rheight s, 0);
  ri_node p k b : own !! p = Some (k, b) → p ≠ 0 ∧ 1 ≤ k ∧
    ∃ n, nodes s !! p = Some n ∧ length (slots n) = 64%nat ∧ length (tags n) = 3%nat ∧ count n = node_count k n ∧
      (1 < k → ∀ i c, 0 ≤ i < 64 → slots n !! Z.to_nat i = Some c → c ≠ 0 → own !! c = Some (k - 1, 64 * b + i));
  ri_live p x : own !! p = Some x → km_live (heap s) p;
}.

(** The slot [i] of the node at [p]. *)
Definition slot_val s (p i : Z) : Z :=
  match nodes s !! p with
  | Some n => default 0 (slots n !! Z.to_nat i)
  | None => 0
  end.

(** The descent on values. *)
Fixpoint walk (l : nat) (i node : Z) s : Z :=
  match l with
  | O => node
  | S l =>
      if node =? 0 then 0
      else walk l i (slot_val s node (offset_at i (Z.of_nat l * RADIX_TREE_MAP_SHIFT))) s
  end.

(** The item at index [i], 0 for none. *)
Definition content s (i : Z) : Z :=
  if (0 <? rheight s) && (0 <=? i) && (i <? 64 ^ rheight s)
  then walk (Z.to_nat (rheight s)) i (rnode s) s else 0.

(** [node] is the node for index [i] at level [k], or absent. *)
Definition covers own (node k i : Z) : Prop := node = 0 ∨ own !! node = Some (k, i / 64 ^ k).

Lemma get_slot_val own s p k b i :
  rt_inv own s → own !! p = Some (k, b) → 0 ≤ i < 64 →
  ∃ n, get_node p s = Ok n ∧ nodes s !! p = Some n ∧ get_slot i n = Ok (slot_val s p i) ∧
    slots n !! Z.to_nat i = Some (slot_val s p i).
Proof.
  intros Hinv Hp Hi. destruct (ri_node _ _ Hinv p k b Hp) as (_ & _ & n & Hn & Hl & _).
  exists n. unfold get_node, get_slot, slot_val. rewrite Hn.
  destruct (lookup_lt_is_Some_2 (slots n) (Z.to_nat i)) as [c Hc]; [lia|]. rewrite Hc. done.
Qed.

(** Going down one level stays on the path of [i]. *)
Lemma covers_child own s node l i :
  rt_inv own s → own !! node = Some (l + 1, i / 64 ^ (l + 1)) → 0 < l →
  covers own (slot_val s node (offset_at i (l * RADIX_TREE_MAP_SHIFT))) l i.
Proof.
  intros Hinv Hn Hl. pose proof (offset_range i l ltac:(lia)) as Ho.
  destruct (get_slot_val own s node _ _ _ Hinv Hn Ho) as (n & _ & Hnn & _ & Hs).
  destruct (ri_node _ _ Hinv node _ _ Hn) as (_ & _ & n' & Hn' & _ & _ & _ & Hc).
  rewrite Hnn in Hn'. injection Hn' as <-.
  destruct (Z.eq_dec (slot_val s node (offset_at i (l * RADIX_TREE_MAP_SHIFT))) 0) as [->|Hne]; [by left|right].
  rewrite (Hc ltac:(lia) _ _ Ho Hs Hne), child_base by lia. do 2 f_equal. lia.
Qed.

Lemma descend_walk own s l i node :
  rt_inv own s → covers own node (Z.of_nat l) i → descend l i node s = Ok (walk l i node s).
Proof.
  intros Hinv. revert node. induction l as [|l IH]; intros node Hc; cbn [descend walk]; [done|].
  destruct Hc as [->|Hc]; [done|]. destruct (ri_node _ _ Hinv _ _ _ Hc) as (Hnz & _).
  rewrite (proj2 (Z.eqb_neq node 0)) by done.
  destruct (get_slot_val own s node _ _ _ Hinv Hc (offset_range i (Z.of_nat l) ltac:(lia))) as (n & -> & _ & E & _).
  cbn [obind]. rewrite E. cbn [obind]. destruct l as [|l]; [done|]. apply IH.
  replace (Z.of_nat (S (S l))) with (Z.of_nat (S l) + 1) in Hc by lia.
  apply (covers_child own s node); [done|done|lia].
Qed.

(** The offsets below level [k] see the index modulo [64^k] only. *)
Lemma offset_mod i l k : 0 ≤ l < k →
  offset_at (i mod 64 ^ k) (l * RADIX_TREE_MAP_SHIFT) = offset_at i (l * RADIX_TREE_MAP_SHIFT).
Proof.
  intros Hk. rewrite !offset_at_div by lia. replace k with (l + 1 + (k - l - 1)) by lia.
  assert (0 < 64 ^ l) as Hl by (apply Z.pow_pos_nonneg; lia).
  assert (0 < 64 ^ (k - l - 1)) as Hm by (apply Z.pow_pos_nonneg; lia).
  rewrite !Z.pow_add_r by lia. change (64 ^ 1) with 64. rewrite !Z.rem_mul_r by lia.
  set (u := (i / 64 ^ l) mod 64). set (v := (i / (64 ^ l * 64)) mod 64 ^ (k - l - 1)).
  replace (i mod 64 ^ l + 64 ^ l * u + 64 ^ l * 64 * v) with (i mod 64 ^ l + (u + 64 * v) * 64 ^ l) by ring.
  rewrite Z.div_add by lia. rewrite Z.div_small by (apply Z.mod_pos_bound; lia). rewrite Z.add_0_l.
  rewrite Z.mul_comm, Z.mod_add by lia. unfold u. by rewrite Z.mod_mod by lia.
Qed.

Lemma descend_mod l k i node s :
  Z.of_nat l ≤ k → descend l (i mod 64 ^ k) node s = descend l i node s.
Proof.
  revert node. induction l as [|l IH]; intros node Hk; cbn [descend]; [done|].
  destruct (node =? 0); [done|]. rewrite offset_mod by lia.
  destruct (get_node node s) as [n| | |]; cbn [obind]; [|done..].
  destruct (get_slot _ n) as [c| | |]; cbn [obind]; [|done..]. apply IH. lia.
Qed.

(** The root is on the path of every index below the tree's limit. *)
Lemma covers_root own s i :
  rt_inv own s → 0 < rheight s → 0 ≤ i < 64 ^ rheight s →
  own !! rnode s = Some (rheight s, i / 64 ^ rheight s).
Proof.
  intros Hinv Hh Hi. pose proof (ri_root _ _ Hinv) as Hr. rewrite (proj2 (Z.eqb_neq _ 0)) in Hr by lia.
  by rewrite Hr, Z.div_small.
Qed.

Lemma lookup_content own s i :
  rt_inv own s → 0 ≤ i → i ≠ 64 ^ rheight s → radix_tree_lookup i s = Ok (content s i).
Proof.
  intros Hinv Hi Hne. pose proof (ri_height _ _ Hinv). unfold radix_tree_lookup, content.
  destruct (Z.eqb_spec (rheight s) 0) as [->|]; [done|]. rewrite limit_pow by lia.
  rewrite (proj2 (Z.ltb_lt 0 _)), (proj2 (Z.leb_le 0 i)) by lia. cbn [andb].
  destruct (Z.ltb_spec (64 ^ rheight s) i).
  - by rewrite (proj2 (Z.ltb_ge i _)) by lia.
  - rewrite (proj2 (Z.ltb_lt i _)) by lia. apply (descend_walk own); [done|]. right.
    rewrite Z2Nat.id by lia. apply covers_root; [done|lia|lia].
Qed.

(** *** Frames *)

Lemma walk_same own s s' l i node :
  rt_inv own s → covers own node (Z.of_nat l) i →
  (∀ p k, own !! p = Some (k, i / 64 ^ k) →
    slot_val s' p (offset_at i ((k - 1) * RADIX_TREE_MAP_SHIFT)) =
    slot_val s p (offset_at i ((k - 1) * RADIX_TREE_MAP_SHIFT))) →
  walk l i node s' = walk l i node s.
Proof.
  intros Hinv Hc Hs. revert node Hc. induction l as [|l IH]; intros node Hc; cbn [walk]; [done|].
  destruct Hc as [->|Hc]; [done|]. destruct (node =? 0); [done|].
  specialize (Hs node (Z.of_nat (S l)) Hc). replace (Z.of_nat (S l) - 1) with (Z.of_nat l) in Hs by lia.
  rewrite Hs. destruct l as [|l]; [done|]. apply IH.
  replace (Z.of_nat (S (S l))) with (Z.of_nat (S l) + 1) in Hc by lia.
  apply (covers_child own s node); [done|done|lia].
Qed.

(** A state with the same root whose owned slots are the same has the same content. *)
Lemma content_same own s s' :
  rt_inv own s → rheight s' = rheight s → rnode s' = rnode s →
  (∀ p k b i, own !! p = Some (k, b) → 0 ≤ i < 64 → slot_val s' p i = slot_val s p i) →
  ∀ i, content s' i = content s i.
Proof.
  intros Hinv Hh Hr Hs i. unfold content. rewrite Hh, Hr. destruct (_ && _) eqn:E; [|done]. bool_props.
  apply (walk_same own); [done| |].
  - right. rewrite Z2Nat.id by lia. apply covers_root; [done|lia..].
  - intros p k Hp. destruct (ri_node _ _ Hinv _ _ _ Hp) as (_ & Hk & _).
    apply (Hs p _ _ _ Hp). apply offset_range. lia.
Qed.

Lemma slot_val_put s p q n i :
  slot_val (put_node p n s) q i = if q =? p then default 0 (slots n !! Z.to_nat i) else slot_val s q i.
Proof.
  unfold slot_val, put_node, set_nodes. cbn [nodes].
  destruct (Z.eqb_spec q p) as [->|]; [by rewrite lookup_insert_eq|by rewrite lookup_insert_ne].
Qed.

(** Changing an owned node that keeps its slots. *)
Lemma inv_put own s p k b n :
  rt_inv own s → own !! p = Some (k, b) → length (slots n) = 64%nat → length (tags n) = 3%nat → count n = node_count k n →
  (1 < k → ∀ i c, 0 ≤ i < 64 → slots n !! Z.to_nat i = Some c → c ≠ 0 → own !! c = Some (k - 1, 64 * b + i)) →
  rt_inv own (put_node p n s).
Proof.
  intros [Hh Hr Hn Hl] Hp H64 H3 Hct Hc. split; [done|done| |done].
  intros q kq bq Hq. destruct (Hn q kq bq Hq) as (Hz & Hk & n' & Hn' & Hrest). split; [done|]. split; [done|].
  cbn. destruct (Z.eq_dec p q) as [<-|Hne].
  - rewrite lookup_insert_eq. rewrite Hp in Hq. injection Hq as <- <-. by exists n.
  - rewrite lookup_insert_ne by done. by exists n'.
Qed.

Lemma node_alloc_spec own s q s' :
  rt_inv own s → radix_tree_node_alloc s = (q, s') →
  rheight s' = rheight s ∧ rnode s' = rnode s ∧ (∀ i, content s' i = content s i) ∧ rt_inv own s' ∧
  (q ≠ 0 → own !! q = None ∧ nodes s' = <[q := node_zero]> (nodes s) ∧ km_live (heap s') q) ∧
  (q = 0 → fst (kmalloc NODE_SIZE (heap s)) = 0) ∧ heap s' = snd (kmalloc NODE_SIZE (heap s)).
Proof.
  intros Hinv. pose proof Hinv as [Hh Hr Hn Hl]. unfold radix_tree_node_alloc.
  destruct (kmalloc NODE_SIZE (heap s)) as [p a] eqn:E.
  destruct (kmalloc_fresh NODE_SIZE (heap s) p a ltac:(unfold NODE_SIZE; lia) E) as [Hmono Hfresh].
  assert (∀ x, own !! p = Some x → p = 0) as Hno.
  { intros x Hx. destruct (Z.eq_dec p 0); [done|]. destruct (Hfresh ltac:(done)) as [Hf _].
    by destruct (Hf (Hl p x Hx)). }
  assert (rt_inv own (RTree (rheight s) (rnode s) (nodes s) a)) as Hinv1.
  { split; [done|done|exact Hn|]. intros q' x Hx. cbn. eauto. }
  destruct (Z.eqb_spec p 0) as [->|Hp]; intros [= <- <-].
  { split; [done|]. split; [done|]. split; [by apply (content_same own)|]. by split_and!. }
  assert (own !! p = None) as Hnone by (destruct (own !! p) as [x|] eqn:Ex; [by destruct (Hno x)|done]).
  split; [done|]. split; [done|]. split; [|split].
  - intros i. apply (content_same own); [done..|]. intros q' k b j Hq _.
    rewrite slot_val_put. destruct (Z.eqb_spec q' p) as [->|]; [congruence|done].
  - split; [done|done| |].
    + intros q' k b Hq. cbn. rewrite lookup_insert_ne by congruence. by apply (Hn q').
    + intros q' x Hx. cbn. eauto.
  - split; [|done]. intros _. split; [done|]. split; [done|]. by apply Hfresh.
Qed.

(** *** Growing at the top *)

Definition zero_slots : list Z := replicate RADIX_TREE_MAP_SIZE 0.

Lemma zero_slots_lookup i : default 0 (zero_slots !! i) = 0.
Proof.
  unfold zero_slots. destruct (replicate RADIX_TREE_MAP_SIZE 0 !! i) as [x|] eqn:E; [|done].
  by apply lookup_replicate in E as [-> _].
Qed.

Lemma used_replicate k : used (replicate k 0) = 0.
Proof. unfold used. induction k as [|k IH]; [done|]. cbn [replicate]. rewrite filter_cons_False by (intros []; done). exact IH. Qed.

Lemma used_insert l i c : l !! i = Some 0 → c ≠ 0 → used (<[i := c]> l) = used l + 1.
Proof.
  unfold used. intros Hi Hc. rewrite insert_take_drop by (by eapply lookup_lt_Some).
  rewrite <-(take_drop_middle l i 0 Hi) at 3. rewrite !filter_app, !length_app, filter_cons_True, filter_cons_False by (done || intros []; done).
  cbn [length]. lia.
Qed.

Lemma used_range l : 0 ≤ used l ≤ Z.of_nat (length l).
Proof. unfold used. pose proof (length_filter (λ c, c ≠ 0) l). lia. Qed.

(** [s'] is [s] with a new root [q] above the old one, which sits in slot 0. *)
Record grown own s s' (q : Z) : Prop := {
  gr_fresh : own !! q = None;
  gr_nz : q ≠ 0;
  gr_live : km_live (heap s') q ∧ ∀ p, km_live (heap s) p → km_live (heap s') p;
  gr_height : rheight s' = rheight s + 1 ∧ rheight s + 1 ≤ 4;
  gr_node : rnode s' = q;
  gr_slots : ∃ n, nodes s' !! q = Some n ∧ slots n = <[0%nat := rnode s]> zero_slots ∧ length (tags n) = 3%nat ∧ count n = node_count (rheight s + 1) n;
  gr_old p x : own !! p = Some x → ∃ n n', nodes s !! p = Some n ∧ nodes s' !! p = Some n' ∧
    slots n' = slots n ∧ tags n' = tags n ∧ count n' = count n;
}.

Lemma grown_inv own s s' q :
  rt_inv own s → grown own s s' q → rt_inv (<[q := (rheight s + 1, 0)]> own) s'.
Proof.
  intros Hinv [Gf Gz Gl [Gh Gm] Gn (n & Hn & Hs & Ht & Hct) Go]. pose proof Hinv as [Hh Hr Hnd Hl].
  split.
  - lia.
  - rewrite (proj2 (Z.eqb_neq _ 0)) by lia. by rewrite Gn, lookup_insert_eq, Gh.
  - intros p k b Hp. apply lookup_insert_Some in Hp as [[<- [= <- <-]]|[Hne Hp]].
    + split; [done|]. split; [lia|]. exists n. split; [done|].
      split; [by rewrite Hs, length_insert|]. split; [done|]. split; [done|]. rewrite Hs.
      intros Hk i c Hi Hc Hcz. destruct (Z.eq_dec i 0) as [->|Hi0].
      * rewrite list_lookup_insert_eq in Hc by (cbn; lia). injection Hc as <-.
        rewrite (proj2 (Z.eqb_neq _ 0)) in Hr by lia.
        rewrite lookup_insert_ne by congruence. rewrite Hr. do 2 f_equal. lia.
      * rewrite list_lookup_insert_ne in Hc by lia. pose proof (zero_slots_lookup (Z.to_nat i)) as Hz.
        rewrite Hc in Hz. cbn in Hz. congruence.
    + destruct (Hnd p k b Hp) as (Hz & Hk & m & Hm & L1 & L2 & L3 & Hc). split; [done|]. split; [done|].
      destruct (Go p _ Hp) as (m0 & m' & Em0 & Em' & Es & Et & Ec). rewrite Hm in Em0. injection Em0 as <-.
      exists m'. unfold node_count in *. split; [done|]. rewrite Es, Et, Ec. split; [done|]. split; [done|]. split; [done|].
      intros Hk1 i c Hi Hcs Hcz. specialize (Hc Hk1 i c Hi Hcs Hcz).
      rewrite lookup_insert_ne; [done|]. intros <-. congruence.
  - destruct Gl as [Gl Gl']. intros p x [[<- _]|[_ Hp]]%lookup_insert_Some; [done|]. eauto.
Qed.

Lemma grown_content own s s' q i :
  rt_inv own s → grown own s s' q → content s' i = content s i.
Proof.
  intros Hinv Hg. pose proof (grown_inv _ _ _ _ Hinv Hg) as Hinv'. destruct Hg as [Gf Gz Gl [Gh Gm] Gn (n & Hn & Hs & Ht & _) Go].
  pose proof Hinv as [Hh Hr Hnd Hl]. unfold content. rewrite Gh, Gn.
  destruct (Z.leb_spec 0 i) as [Hi|Hi]; [|by rewrite !andb_false_r].
  rewrite (proj2 (Z.ltb_lt 0 (rheight s + 1))) by lia. cbn [andb].
  rewrite Z.pow_add_r by lia. change (64 ^ 1) with 64.
  assert (0 < 64 ^ rheight s) as Hpos by (apply Z.pow_pos_nonneg; lia).
  replace (Z.to_nat (rheight s + 1)) with (S (Z.to_nat (rheight s))) by lia. cbn [walk].
  rewrite (proj2 (Z.eqb_neq q 0)) by done. rewrite offset_at_div, Z2Nat.id by lia.
  assert (slot_val s' q (i / 64 ^ rheight s mod 64) =
    if i / 64 ^ rheight s mod 64 =? 0 then rnode s else 0) as ->.
  { unfold slot_val. rewrite Hn, Hs. pose proof (Z.mod_pos_bound (i / 64 ^ rheight s) 64 ltac:(lia)) as Hr64.
    destruct (Z.eqb_spec (i / 64 ^ rheight s mod 64) 0) as [->|Hne].
    - by rewrite list_lookup_insert_eq by (cbn; lia).
    - rewrite list_lookup_insert_ne by lia. apply zero_slots_lookup. }
  destruct (Z.ltb_spec i (64 ^ rheight s)) as [Hlt|Hge].
  - rewrite (proj2 (Z.ltb_lt i _)) by lia. rewrite Z.div_small by lia. cbn [Z.eqb Z.modulo Z.div_eucl].
    change (0 mod 64 =? 0) with true. cbn [Z.eqb].
    destruct (Z.ltb_spec 0 (rheight s)) as [Hh0|Hh0]; cbn [andb].
    + apply (walk_same own); [done| |].
      * right. rewrite Z2Nat.id by lia. by apply covers_root.
      * intros p k Hp. destruct (Go p _ Hp) as (m & m' & Em & Em' & Es & _).
        unfold slot_val. by rewrite Em, Em', Es.
    + replace (rheight s) with 0 in * by lia. cbn in Hr. by destruct Hr as [-> _].
  - rewrite !andb_false_r. destruct (Z.ltb_spec i (64 ^ rheight s * 64)) as [Hlt|]; [|done].
    assert (i / 64 ^ rheight s mod 64 ≠ 0) as Hnz.
    { rewrite Z.mod_small.
      - intros E. apply Z.div_small_iff in E; lia.
      - split; [apply Z.div_pos; lia|]. apply Z.div_lt_upper_bound; lia. }
    rewrite (proj2 (Z.eqb_neq _ _) Hnz). by destruct (Z.to_nat (rheight s)).
Qed.

(** With memory for [k] nodes and [m] more the call does not fail, and leaves memory for [m]. *)
Definition enough (k : Z) (r : Z) s s' : Prop :=
  ∀ m, mem_for (Z.to_nat k + m) NODE_SIZE (heap s) → r = 0 ∧ mem_for m NODE_SIZE (heap s').

Lemma enough_le k k' r s s' : 0 ≤ k ≤ k' → enough k r s s' → enough k' r s s'.
Proof.
  intros Hk He m Hm. destruct (He (Z.to_nat (k' - k) + m)%nat) as [-> H].
  - by replace (Z.to_nat k + (Z.to_nat (k' - k) + m))%nat with (Z.to_nat k' + m)%nat by lia.
  - split; [done|]. by apply (mem_for_le m (Z.to_nat (k' - k) + m)); [lia|].
Qed.

Lemma extend_loop_spec fuel h own s :
  rt_inv own s → rheight s < h ≤ 4 → h - rheight s ≤ Z.of_nat fuel →
  ∃ r s' own', extend_loop fuel h s = Ok (r, s') ∧ rt_inv own' s' ∧
    (∀ i, content s' i = content s i) ∧ (r = 0 ∧ rheight s' = h ∨ r = - ENOMEM) ∧
    enough (h - rheight s) r s s'.
Proof.
  revert own s. induction fuel as [|fuel IH]; intros own s Hinv Hh Hf; [lia|]. cbn [extend_loop].
  destruct (radix_tree_node_alloc s) as [q s1] eqn:Ea.
  destruct (node_alloc_spec own s q s1 Hinv Ea) as (Eh & Er & Hcont & Hinv1 & Hnew & Hnull & Hheap).
  destruct (Z.eqb_spec q 0) as [->|Hq].
  { exists (- ENOMEM), s1, own. split; [done|]. split; [done|]. split; [done|]. split; [by right|].
    intros m. replace (Z.to_nat (h - rheight s) + m)%nat with (S (Z.to_nat (h - rheight s - 1) + m)) by lia. rewrite mem_for_S.
    rewrite Hnull by done. by intros [? _]. }
  destruct (Hnew Hq) as (Hfresh & Hnodes & Hlive). pose proof Hinv as [Hhr Hr Hnd Hl].
  assert (∃ s2, (if rheight s1 =? 0 then Ok (set_root 1 q s1)
       else let! s := on_node q (λ n, set_count 1 (set_height (u32 (rheight s1 + 1)) (set_slot 0 (rnode s1) n))) s1 in
            let! s := (if negb (rnode s =? 0) then on_node (rnode s) (set_parent q) s else Ok s) in
            Ok (set_root (u32 (rheight s + 1)) q s)) = Ok s2 ∧ grown own s1 s2 q ∧ heap s2 = heap s1) as (s2 & E2 & Hg & Hheap2).
  { rewrite Eh. destruct (Z.eqb_spec (rheight s) 0) as [Hz|Hnz].
    - eexists. split; [done|]. split; [|done]. destruct Hr as [Hr0 ->].
      split; [done|done|done|cbn; lia|done| |done]. exists node_zero. cbn.
      split; [by rewrite Hnodes, lookup_insert_eq|]. split; [by rewrite Er, Hr0|]. split; [done|]. by rewrite Eh, Hz.
    - unfold on_node, get_node. rewrite Hnodes, lookup_insert_eq.
      cbn [of_option obind]. unfold put_node, set_nodes. cbn [rnode nodes]. rewrite Er.
      destruct (Hnd _ _ _ Hr) as (Hrz & _ & n & Hn & _). rewrite (proj2 (Z.eqb_neq (rnode s) 0)) by done. cbn [negb].
      assert (q ≠ rnode s) as Hqr by congruence.
      rewrite lookup_insert_ne by done. rewrite Hnodes, lookup_insert_ne, Hn by done. cbn [of_option obind].
      eexists. split; [done|]. split; [|done]. split; [done|done|done| |done| |].
      + cbn. rewrite Eh, u32_small by lia. lia.
      + cbn. rewrite lookup_insert_ne, lookup_insert_eq by done. eexists. split; [done|]. rewrite Er. split; [done|]. split; [done|].
        unfold node_count. rewrite Eh, (proj2 (Z.ltb_lt 1 _)) by lia.
        change (1 = used (<[0%nat := rnode s]> zero_slots)). rewrite used_insert by done. unfold zero_slots. by rewrite used_replicate.
      + intros p x Hp. destruct x as [k b]. destruct (Hnd p k b Hp) as (_ & _ & m & Hm & _).
        assert (q ≠ p) by congruence. cbn. rewrite Hnodes.
        destruct (Z.eq_dec (rnode s) p) as [<-|Hne].
        * rewrite Hn in Hm. injection Hm as <-. rewrite !lookup_insert_ne by done.
          rewrite lookup_insert_eq. by eexists _, _.
        * rewrite !lookup_insert_ne by done. by exists m, m. }
  rewrite E2. cbn [obind]. pose proof (grown_inv own s1 s2 q Hinv1 Hg) as Hinv2.
  assert (∀ i, content s2 i = content s i) as Hc2 by (intros i; by rewrite (grown_content own s1 s2 q i Hinv1 Hg)).
  assert (rheight s2 = rheight s + 1) as Hh2 by (destruct Hg as [_ _ _ [? _] _ _ _]; lia).
  destruct (Z.ltb_spec (rheight s2) h).
  - destruct (IH _ s2 Hinv2) as (r & s3 & own3 & E3 & Hinv3 & Hc3 & Hres & Hen); [lia..|].
    exists r, s3, own3. split; [done|]. split; [done|]. split; [intros i; by rewrite Hc3|]. split; [done|].
    intros m Hm. apply Hen. rewrite Hheap2, Hheap. replace (h - rheight s2) with (h - rheight s - 1) by lia.
    replace (Z.to_nat (h - rheight s) + m)%nat with (S (Z.to_nat (h - rheight s - 1) + m)) in Hm by lia. apply Hm.
  - eexists 0, s2, _. split; [done|]. split; [exact Hinv2|]. split; [done|]. split; [left; split; [done|lia]|].
    intros m Hm. split; [done|]. rewrite Hheap2, Hheap. replace (h - rheight s) with 1 in Hm by lia. apply Hm.
Qed.

(** *** Growing at the bottom *)

Lemma walk_null l i s : walk l i 0 s = 0.
Proof. by destruct l. Qed.

(** Hanging an empty node [q] into an empty slot of an inner node changes nothing. *)
Lemma walk_hang own s s' node k b off q l i nd :
  rt_inv own s → own !! node = Some (k, b) → 1 < k → slot_val s node off = 0 → slot_val s' node off = q →
  (∀ j, slot_val s' q j = 0) →
  (∀ p x j, own !! p = Some x → 0 ≤ j → (p, j) ≠ (node, off) → slot_val s' p j = slot_val s p j) →
  covers own nd (Z.of_nat l) i → walk l i nd s' = walk l i nd s.
Proof.
  intros Hinv Hn Hk H0 Hq Hz Hs. revert nd. induction l as [|l IH]; intros nd Hc; cbn [walk]; [done|].
  destruct Hc as [->|Hc]; [done|]. destruct (nd =? 0); [done|].
  set (o := offset_at i (Z.of_nat l * RADIX_TREE_MAP_SHIFT)) in *.
  destruct (decide ((nd, o) = (node, off))) as [[= -> Eo]|Hne].
  - rewrite Eo, H0, Hq, walk_null. rewrite Hn in Hc. injection Hc as Ek _.
    destruct l as [|l]; [lia|]. cbn [walk]. destruct (q =? 0); [done|]. by rewrite Hz, walk_null.
  - rewrite (Hs nd _ o Hc (proj1 (offset_range _ _ (Nat2Z.is_nonneg l))) Hne). destruct l as [|l]; [done|]. apply IH.
    replace (Z.of_nat (S (S l))) with (Z.of_nat (S l) + 1) in Hc by lia.
    apply (covers_child own s nd); [done|done|lia].
Qed.

(** The state in which [create_loop] has hung [q] below [node]. *)
Record hung own s s' (node k b off q : Z) : Prop := {
  hg_inv : rt_inv (<[q := (k - 1, 64 * b + off)]> own) s';
  hg_content i : content s' i = content s i;
  hg_root : rheight s' = rheight s ∧ rnode s' = rnode s;
  hg_slot : slot_val s' node off = q;
  hg_heap : heap s' = snd (kmalloc NODE_SIZE (heap s));
  hg_frame p x j : own !! p = Some x → 0 ≤ j → (p, j) ≠ (node, off) → slot_val s' p j = slot_val s p j;
}.

Lemma hang_spec own s q s1 node k b off h0 :
  rt_inv own s → own !! node = Some (k, b) → 1 < k → 0 ≤ off < 64 → slot_val s node off = 0 →
  radix_tree_node_alloc s = (q, s1) → q ≠ 0 →
  ∃ s2 s3, on_node q (λ c, set_parent node (set_height h0 c)) s1 = Ok s2 ∧
    on_node node (λ n, set_count (u32 (count n + 1)) (set_slot off q n)) s2 = Ok s3 ∧
    hung own s s3 node k b off q.
Proof.
  intros Hinv Hn Hk Hoff H0 Ea Hq.
  destruct (node_alloc_spec own s q s1 Hinv Ea) as (Eh & Er & Hcont & Hinv1 & Hnew & _ & Hheap).
  destruct (Hnew Hq) as (Hfresh & Hnodes & Hlive). assert (q ≠ node) as Hqn by congruence.
  destruct (ri_node _ _ Hinv node k b Hn) as (Hnz & _ & n & En & L1 & L2 & L3 & Hc).
  unfold on_node, get_node. rewrite Hnodes, lookup_insert_eq. cbn [of_option obind].
  eexists. eexists. split; [done|]. unfold put_node, set_nodes. cbn [nodes].
  rewrite lookup_insert_ne, Hnodes, lookup_insert_ne, En by done. cbn [of_option obind]. split; [done|].
  set (n3 := set_count _ _). set (q3 := set_parent _ _).
  match goal with |- hung _ _ ?st _ _ _ _ _ => set (s3 := st) end.
  assert (nodes s3 !! q = Some q3) as Eq3 by (cbn; by rewrite lookup_insert_ne, lookup_insert_eq).
  assert (nodes s3 !! node = Some n3) as En3 by (cbn; by rewrite lookup_insert_eq).
  assert (∀ p, p ≠ q → p ≠ node → nodes s3 !! p = nodes s !! p) as Eo
    by (intros p Hp1 Hp2; cbn; by rewrite !lookup_insert_ne).
  assert (slot_val s3 node off = q) as Hslot.
  { unfold slot_val. rewrite En3. cbn. by rewrite list_lookup_insert_eq by lia. }
  assert (∀ j, slot_val s3 q j = 0) as Hz by (intros j; unfold slot_val; rewrite Eq3; apply zero_slots_lookup).
  assert (∀ p x j, own !! p = Some x → 0 ≤ j → (p, j) ≠ (node, off) → slot_val s3 p j = slot_val s p j) as Hsame.
  { intros p x j Hp Hj Hne. destruct (Z.eq_dec p node) as [->|Hpn].
    - unfold slot_val. rewrite En3, En. cbn. rewrite list_lookup_insert_ne; [done|]. intros E.
      apply Hne. f_equal. lia.
    - unfold slot_val. by rewrite (Eo p) by congruence. }
  split; [|..|done|exact Hheap|exact Hsame].
  - destruct Hinv1 as [Hh1 Hr1 Hn1 Hl1]. split; [done| | |].
    + cbn [rheight rnode s3]. destruct (rheight s1 =? 0) eqn:E0.
      * destruct Hr1 as [_ ->]. done.
      * rewrite lookup_insert_ne; [done|]. intros ->. congruence.
    + intros p kp bp Hp. apply lookup_insert_Some in Hp as [[<- [= <- <-]]|[Hpq Hp]].
      * split; [done|]. split; [lia|]. exists q3. split; [done|]. split; [done|]. split; [done|].
        split; [unfold node_count; destruct (1 <? k - 1); [symmetry; apply (used_replicate 64)|done]|].
        intros _ i c _ Hci. pose proof (zero_slots_lookup (Z.to_nat i)) as Hz'.
        change (slots q3) with zero_slots in Hci. by rewrite Hci in Hz'.
      * destruct (ri_node _ _ Hinv p kp bp Hp) as (P1 & P2 & m & Em & M1 & M2 & M3 & Mc). split; [done|]. split; [done|].
        destruct (Z.eq_dec p node) as [->|Hpn].
        -- rewrite Hn in Hp. injection Hp as <- <-. exists n3. split; [done|].
           split; [cbn; by rewrite length_insert|]. split; [done|]. split.
           { unfold node_count in *. rewrite (proj2 (Z.ltb_lt 1 k)) in * by lia. cbn. rewrite used_insert, L3, u32_small; [done| |..].
             - pose proof (used_range (slots n)). lia.
             - unfold slot_val in H0. rewrite En in H0. destruct (lookup_lt_is_Some_2 (slots n) (Z.to_nat off)) as [c Hc']; [lia|].
               rewrite Hc' in H0 |- *. cbn in H0. by rewrite H0.
             - done. }
           intros _ i c Hi Hci Hcz. cbn in Hci. destruct (Z.eq_dec i off) as [->|Hio].
           ++ rewrite list_lookup_insert_eq in Hci by lia. injection Hci as <-. apply lookup_insert_eq.
           ++ rewrite list_lookup_insert_ne in Hci by lia. rewrite lookup_insert_ne; [by apply (Hc Hk i c)|].
              intros <-. specialize (Hc Hk i q Hi Hci Hcz). congruence.
        -- exists m. rewrite (Eo p) by congruence. split; [done|]. split; [done|]. split; [done|]. split; [done|].
           intros Hkp i c Hi Hci Hcz. specialize (Mc Hkp i c Hi Hci Hcz). rewrite lookup_insert_ne; [done|].
           intros <-. congruence.
    + intros p x [[<- _]|[_ Hp]]%lookup_insert_Some; [done|]. by apply (Hl1 p x).
  - intros i. unfold content. cbn [rheight rnode s3]. rewrite Eh, Er. destruct (_ && _) eqn:E; [|done]. bool_props.
    apply (walk_hang own s s3 node k b off q); [done..|].
    right. rewrite Z2Nat.id by lia. by apply covers_root.
  - split; [exact Eh|exact Er].
Qed.

(** [t] differs from [s] in leaves only. *)
Definition upper_same own s (t : @rtree A) : Prop :=
  ∀ p k b j, own !! p = Some (k, b) → 1 < k → 0 ≤ j → slot_val t p j = slot_val s p j.

Lemma create_loop_spec fuel k index node own s :
  rt_inv own s → 1 ≤ k ≤ rheight s → own !! node = Some (k, index / 64 ^ k) → 0 ≤ index →
  k - 1 ≤ Z.of_nat fuel →
  ∃ r leaf s' own', create_loop fuel (rheight s - k) (u32 ((k - 1) * RADIX_TREE_MAP_SHIFT)) index node s =
      Ok (r, leaf, s') ∧ rt_inv own' s' ∧ own ⊆ own' ∧ (∀ i, content s' i = content s i) ∧
    rheight s' = rheight s ∧ rnode s' = rnode s ∧
    (r = 0 ∧ own' !! leaf = Some (1, index / 64) ∧
       (∀ t, upper_same own' s' t → walk (Z.to_nat k) index node t = slot_val t leaf (index mod 64)) ∨
     r = - ENOMEM) ∧ enough (k - 1) r s s' ∧
    (∀ p kp bp j, own !! p = Some (kp, bp) → k < kp → 0 ≤ j → slot_val s' p j = slot_val s p j).
Proof.
  revert k node own s. induction fuel as [|fuel IH]; intros k node own s Hinv Hk Hn Hi Hf.
  all: pose proof (ri_height _ _ Hinv) as Hh; destruct (ri_node _ _ Hinv _ _ _ Hn) as (Hnz & _).
  all: cbn [create_loop]; rewrite (u32_small (rheight s - 1)) by lia.
  all: destruct (Z.ltb_spec (rheight s - k) (rheight s - 1)) as [Hlt|Hge]; try lia.
  1,3: replace k with 1 in * by lia; exists 0, node, s, own; split; [done|]; split; [done|];
    split; [done|]; split; [done|]; split; [done|]; split; [done|]; split; [|split; [by intros m|done]]; left; split; [done|];
    split; [by rewrite Z.pow_1_r in Hn|]; intros t _; change (Z.to_nat 1) with 1%nat; cbn [walk];
    rewrite (proj2 (Z.eqb_neq node 0)) by done; rewrite offset_at_div by lia; by rewrite Z.pow_0_r, Z.div_1_r.
  assert (u32 ((k - 1) * RADIX_TREE_MAP_SHIFT) = (k - 1) * RADIX_TREE_MAP_SHIFT) as ->
    by (apply u32_small; unfold RADIX_TREE_MAP_SHIFT; lia).
  replace ((k - 1) * RADIX_TREE_MAP_SHIFT - RADIX_TREE_MAP_SHIFT) with ((k - 1 - 1) * RADIX_TREE_MAP_SHIFT) by lia.
  rewrite (proj2 (Z.eqb_neq node 0)) by done. set (off := offset_at index ((k - 1) * RADIX_TREE_MAP_SHIFT)).
  assert (0 ≤ off < 64) as Hoff by (apply offset_range; lia).
  destruct (get_slot_val own s node _ _ off Hinv Hn Hoff) as (n & -> & _ & E & _). cbn [obind]. rewrite E. cbn [obind].
  assert (64 * (index / 64 ^ k) + off = index / 64 ^ (k - 1)) as Eb.
  { unfold off. rewrite <-(child_base index (k - 1)) by lia. by replace (k - 1 + 1) with k by lia. }
  replace (rheight s - k + 1) with (rheight s - (k - 1)) by lia.
  destruct (Z.eqb_spec (slot_val s node off) 0) as [H0|H0].
  - destruct (radix_tree_node_alloc s) as [q s1] eqn:Ea.
    destruct (node_alloc_spec own s q s1 Hinv Ea) as (Eh & Er & Hcont & Hinv1 & _ & Hnull & Hheap).
    destruct (Z.eqb_spec q 0) as [->|Hq].
    { eexists (- ENOMEM), 0, s1, own. split; [done|]. split; [done|]. split; [done|]. split; [done|].
      split; [done|]. split; [done|]. split; [by right|]. split.
      { intros m. replace (Z.to_nat (k - 1) + m)%nat with (S (Z.to_nat (k - 2) + m)) by lia. rewrite mem_for_S.
        rewrite Hnull by done. by intros [? _]. }
      intros p kp bp j Hp _ _. unfold radix_tree_node_alloc in Ea. destruct (kmalloc NODE_SIZE (heap s)) as [x a].
      destruct (Z.eqb_spec x 0) as [->|]; inversion Ea; subst; done. }
    destruct (hang_spec own s q s1 node k _ off (u32 (rheight s1 - (rheight s - (k - 1)))) Hinv Hn ltac:(lia) Hoff H0 Ea Hq)
      as (s2 & s3 & E2 & E3 & [Hinv3 Hc3 [Hh3 Hr3] Hs3 Hheap3 Hfr]).
    rewrite E2. cbn [obind]. rewrite E3. cbn [obind].
    rewrite Eb in Hinv3. rewrite <-Hh3.
    destruct (IH (k - 1) q _ s3 Hinv3) as (r & leaf & s4 & own4 & E4 & Hinv4 & Hsub & Hc4 & Hh4 & Hr4 & Hres & Hen & Hfr4);
      [lia|apply lookup_insert_eq|lia|lia|].
    assert (own ⊆ own4) as Hown4.
    { etransitivity; [apply insert_subseteq|exact Hsub].
      destruct (node_alloc_spec own s q s1 Hinv Ea) as (_ & _ & _ & _ & Hnew & _). by apply Hnew. }
    exists r, leaf, s4, own4. split; [exact E4|]. split; [done|]. split; [done|].
    split; [intros i; by rewrite Hc4, Hc3|].
    split; [congruence|]. split; [congruence|].
    assert (∀ p kp bp j, own !! p = Some (kp, bp) → k - 1 < kp → 0 ≤ j → slot_val s4 p j = slot_val s3 p j) as Hfr'.
    { intros p kp bp j Hp Hkp Hj. apply (Hfr4 p kp bp); [|done|done].
      rewrite lookup_insert_ne; [done|]. intros ->. destruct (node_alloc_spec own s p s1 Hinv Ea) as (_ & _ & _ & _ & Hnew & _).
      destruct (Hnew Hq) as [Hno _]. congruence. }
    split; [|split].
    + destruct Hres as [(-> & Hleaf & Hw)|Hres]; [left|by right].
      split; [done|]. split; [done|]. intros t Ht. rewrite <-(Hw t Ht).
      replace (Z.to_nat k) with (S (Z.to_nat (k - 1))) by lia. cbn [walk]. rewrite (proj2 (Z.eqb_neq node 0)) by done.
      rewrite Z2Nat.id by lia. fold off.
      rewrite (Ht node k (index / 64 ^ k)), (Hfr' node _ _ off Hn), Hs3 by (done || lia || by apply (lookup_weaken own)). done.
    + intros m Hm. apply Hen. rewrite Hheap3. replace (Z.to_nat (k - 1) + m)%nat with (S (Z.to_nat (k - 1 - 1) + m)) in Hm by lia. apply Hm.
    + intros p kp bp j Hp Hkp Hj. rewrite (Hfr' p kp bp) by (done || lia). apply (Hfr p (kp, bp)); [done|done|].
      intros [= -> _]. rewrite Hn in Hp. injection Hp. lia.
  - destruct (covers_child own s node (k - 1) index Hinv) as [?|Hc];
      [by replace (k - 1 + 1) with k by lia|lia|done|]. fold off in Hc.
    destruct (IH (k - 1) (slot_val s node off) own s Hinv) as (r & leaf & s4 & own4 & E4 & Hinv4 & Hsub & Hc4 & Hh4 & Hr4 & Hres & Hen & Hfr4);
      [lia|exact Hc|lia|lia|].
    exists r, leaf, s4, own4. split; [exact E4|]. split; [done|]. split; [done|]. split; [done|].
    split; [done|]. split; [done|]. split; [|split].
    + destruct Hres as [(-> & Hleaf & Hw)|Hres]; [left|by right].
      split; [done|]. split; [done|]. intros t Ht. rewrite <-(Hw t Ht).
      replace (Z.to_nat k) with (S (Z.to_nat (k - 1))) by lia. cbn [walk]. rewrite (proj2 (Z.eqb_neq node 0)) by done.
      rewrite Z2Nat.id by lia. fold off.
      rewrite (Ht node k (index / 64 ^ k)) by (lia || by apply (lookup_weaken own)).
      by rewrite (Hfr4 node _ _ off Hn) by lia.
    + intros m Hm. destruct (Hen (S m)) as [-> H]; [by replace (Z.to_nat (k - 1 - 1) + S m)%nat with (Z.to_nat (k - 1) + m)%nat by lia|].
      split; [done|]. by apply (mem_for_le m (S m)); [lia|].
    + intros p kp bp j Hp Hkp Hj. apply (Hfr4 p kp bp); [done|lia|done].
Qed.
(** *** Insertion *)

Lemma needed_height_spec fuel index h :
  0 ≤ h ≤ 4 → 4 - h < Z.of_nat fuel →
  ∃ r, needed_height fuel index h = Ok r ∧
    match r with
    | Some h' => h ≤ h' ≤ 4 ∧ index ≤ 64 ^ h' ∧ (∀ j, h ≤ j < h' → 64 ^ j < index)
    | None => 64 ^ 4 < index
    end.
Proof.
  revert h. induction fuel as [|fuel IH]; intros h Hh Hf; [lia|]. cbn [needed_height].
  rewrite limit_pow by lia. destruct (Z.ltb_spec (64 ^ h) index) as [Hlt|Hge].
  - unfold RADIX_TREE_MAX_HEIGHT. destruct (Z.leb_spec 4 h) as [H4|H4].
    + exists None. replace h with 4 in Hlt by lia. done.
    + destruct (IH (h + 1)) as (r & E & Hr); [lia..|]. exists r. split; [done|]. destruct r as [h'|]; [|done].
      destruct Hr as (H1 & H2 & H3). split; [lia|]. split; [done|]. intros j Hj.
      destruct (Z.eq_dec j h) as [->|]; [done|]. apply H3. lia.
  - exists (Some h). split; [done|]. split; [lia|]. split; [done|]. intros j Hj. lia.
Qed.

Lemma extend_spec own s index :
  rt_inv own s →
  ∃ r s' own', radix_tree_extend index s = Ok (r, s') ∧ rt_inv own' s' ∧ (∀ i, content s' i = content s i) ∧
    (r = 0 ∧ index ≤ 64 ^ rheight s' ∧ (rheight s' = 0 → index ≤ 1) ∧ rheight s ≤ rheight s' ∨
     r = - EINVAL ∧ 64 ^ 4 < index ∨ r = - ENOMEM) ∧
    (index ≤ 64 ^ 4 → enough 4 r s s').
Proof.
  intros Hinv. pose proof (ri_height _ _ Hinv) as Hh. unfold radix_tree_extend.
  destruct (needed_height_spec 5 index (rheight s)) as (h & -> & Hn); [lia..|]. cbn [obind].
  destruct h as [h|].
  2: { exists (- EINVAL), s, own. split; [done|]. split; [done|]. split; [done|]. split; [by right; left|]. intros Hle. cbn in Hn. lia. }
  destruct Hn as (H1 & H2 & _). destruct (Z.eqb_spec h (rheight s)) as [->|Hne].
  - exists 0, s, own. split; [done|]. split; [done|]. split; [done|]. split.
    + left. split; [done|]. split; [done|]. split; [|lia]. intros E. by rewrite E in H2.
    + intros _. apply (enough_le 0); [lia|]. by intros m.
  - destruct (extend_loop_spec 5 h own s Hinv) as (r & s' & own' & E & Hi' & Hc & Hres & Hen); [lia..|].
    exists r, s', own'. split; [done|]. split; [done|]. split; [done|]. split; [|intros _; apply (enough_le (h - rheight s)); [lia|done]].
    destruct Hres as [[-> Eh]|Hres]; [left|tauto]. rewrite Eh. split; [done|]. split; [done|]. lia.
Qed.

Lemma extend_too_large s index : 64 ^ 4 < index → 0 ≤ rheight s ≤ 4 → radix_tree_extend index s = Ok (- EINVAL, s).
Proof.
  intros Hi Hh. unfold radix_tree_extend. destruct (needed_height_spec 5 index (rheight s)) as (r & -> & Hr); [lia..|]. cbn [obind].
  destruct r as [h|]; [|done]. destruct Hr as (H1 & H2 & _). assert (64 ^ h ≤ 64 ^ 4) by (apply Z.pow_le_mono_r; lia). lia.
Qed.

(** Filling the slot of [idx] in its leaf. *)
Lemma fill_spec own s leaf idx item n :
  rt_inv own s → own !! leaf = Some (1, idx / 64) → 0 ≤ idx < 64 ^ rheight s → 0 < rheight s →
  nodes s !! leaf = Some n →
  (∀ t, upper_same own s t → walk (Z.to_nat (rheight s)) idx (rnode s) t = slot_val t leaf (idx mod 64)) →
  let s' := put_node leaf (set_slot (idx mod 64) item n) s in
  rt_inv own s' ∧ ∀ i, content s' i = if i =? idx then item else content s i.
Proof.
  intros Hinv Hl Hidx Hh Hn Hw s'. pose proof (Z.mod_pos_bound idx 64 ltac:(lia)) as Hm.
  destruct (ri_node _ _ Hinv _ _ _ Hl) as (Hnz & _ & n' & Hn' & L1 & L2 & L3 & _). rewrite Hn in Hn'. injection Hn' as <-.
  assert (∀ p j, 0 ≤ j → (p, j) ≠ (leaf, idx mod 64) → slot_val s' p j = slot_val s p j) as Hsame.
  { intros p j Hj Hne. unfold s'. rewrite slot_val_put. destruct (Z.eqb_spec p leaf) as [->|]; [|done].
    cbn. rewrite list_lookup_insert_ne; [by unfold slot_val; rewrite Hn|]. intros E. apply Hne. f_equal. lia. }
  split.
  { apply (inv_put own s leaf 1 (idx / 64)); [done|done| |done|done|lia]. cbn. by rewrite length_insert. }
  intros i. unfold content. change (rheight s') with (rheight s). change (rnode s') with (rnode s).
  destruct (Z.eqb_spec i idx) as [->|Hne].
  - rewrite (proj2 (Z.ltb_lt 0 _)), (proj2 (Z.leb_le 0 idx)), (proj2 (Z.ltb_lt idx _)) by lia. cbn [andb].
    rewrite Hw.
    + unfold s'. rewrite slot_val_put, Z.eqb_refl. cbn. by rewrite list_lookup_insert_eq by lia.
    + intros p k b j Hp Hk Hj. apply Hsame; [done|]. intros [= -> _]. rewrite Hl in Hp. injection Hp. lia.
  - destruct (_ && _) eqn:E; [|done]. bool_props. apply (walk_same own); [done| |].
    + right. rewrite Z2Nat.id by lia. by apply covers_root.
    + intros p k Hp. destruct (ri_node _ _ Hinv _ _ _ Hp) as (_ & Hk & _).
      apply Hsame; [apply offset_range; lia|]. intros [= -> Eo]. rewrite Hl in Hp. injection Hp as <- Ed.
      apply Hne. rewrite offset_at_div, Z.pow_0_r, Z.div_1_r in Eo by lia. rewrite Z.pow_1_r in Ed.
      rewrite (Z.div_mod i 64), (Z.div_mod idx 64) by lia. congruence.
Qed.

(** The indices a tree of height [h] can take: not the powers of 64 from [64^h] on, and not 0 when it is empty. *)
Definition good_index (h idx : Z) : Prop := 0 ≤ idx ∧ (h = 0 → idx ≠ 0) ∧ ∀ k, h ≤ k ≤ 4 → idx ≠ 64 ^ k.

(** What an insertion of [item] at [idx] may do: fill the empty slot, refuse a slot
    in use, refuse a large index, or run out of memory, for which the heap must have no
    room for the seven nodes an insertion needs at most; nothing else changes. *)
Definition insert_result (idx item r : Z) s (s' : @rtree A) : Prop :=
  r = 0 ∧ content s idx = 0 ∧ (∀ i, content s' i = if i =? idx then item else content s i) ∨
  r = - EEXIST ∧ content s idx ≠ 0 ∧ (∀ i, content s' i = content s i) ∨
  r = - EINVAL ∧ 64 ^ 4 < idx ∧ (∀ i, content s' i = content s i) ∨
  r = - ENOMEM ∧ ~ mem_for 7 NODE_SIZE (heap s) ∧ (∀ i, content s' i = content s i).

Lemma insert_spec own s idx item :
  rt_inv own s → item ≠ 0 → good_index (rheight s) idx →
  ∃ r s' own', radix_tree_insert idx item s = Ok (r, s') ∧ rt_inv own' s' ∧ insert_result idx item r s s'.
Proof.
  intros Hinv Hitem (Hi & Hz & Hnot). unfold radix_tree_insert, radix_tree_create_path.
  rewrite (proj2 (Z.eqb_neq item 0)) by done.
  destruct (extend_spec own s idx Hinv) as (r & s1 & own1 & E1 & Hinv1 & Hc1 & Hr & Hen1). rewrite E1. cbn [obind].
  destruct Hr as [(-> & Hle & H0 & Hmono)|[[-> Hbig]| ->]].
  2: { change (- EINVAL <? 0) with true. cbn. exists (- EINVAL), s1, own1. split; [done|]. split; [done|]. right. right. by left. }
  2: { change (- ENOMEM <? 0) with true. cbn. exists (- ENOMEM), s1, own1. split; [done|]. split; [done|]. right.
       destruct (Z.ltb_spec (64 ^ 4) idx) as [Hb|Hb].
       - exfalso. revert E1. rewrite (extend_too_large s idx Hb) by apply Hinv. done.
       - right. right. split; [done|]. split; [|done]. intros Hm. by destruct (Hen1 Hb 3%nat Hm). }
  change (0 <? 0) with false. cbn iota.
  pose proof (ri_height _ _ Hinv1) as Hh1.
  assert (idx ≠ 64 ^ rheight s1) as Hne by (apply Hnot; lia).
  assert (0 < rheight s1) as Hpos.
  { destruct (Z.eq_dec (rheight s1) 0) as [E|]; [|lia]. rewrite E in Hne. change (64 ^ 0) with 1 in Hne. specialize (H0 E). pose proof (ri_height _ _ Hinv). specialize (Hz ltac:(lia)). lia. }
  assert (64 ^ rheight s1 ≤ 64 ^ 4) as H64 by (apply Z.pow_le_mono_r; lia).
  assert (idx < 64 ^ rheight s1) as Hlt by lia.
  destruct (create_loop_spec 5 (rheight s1) idx (rnode s1) own1 s1 Hinv1)
    as (r & leaf & s2 & own2 & E & Hinv2 & Hsub & Hc2 & Hh2 & Hr2 & Hres & Hen2 & _);
    [lia|apply covers_root; [done|lia|lia]|lia|lia|].
  rewrite Z.sub_diag in E. rewrite E. cbn [obind].
  destruct Hres as [(-> & Hleaf & Hw)| ->].
  2: { change (- ENOMEM <? 0) with true. cbn. exists (- ENOMEM), s2, own2. split; [done|]. split; [done|]. right. right. right.
       split; [done|]. split; [|intros i; by rewrite Hc2]. intros Hm. destruct (Hen1 ltac:(lia) 3%nat Hm) as [_ Hm1].
       apply (enough_le _ 3) in Hen2; [|lia]. by destruct (Hen2 O Hm1). }
  change (0 <? 0) with false. cbn [obind].
  assert (Z.land idx RADIX_TREE_MAP_MASK = idx mod 64) as ->.
  { change RADIX_TREE_MAP_MASK with (Z.ones 6). by rewrite Z.land_ones by lia. }
  pose proof (Z.mod_pos_bound idx 64 ltac:(lia)) as Hm.
  destruct (get_slot_val own2 s2 leaf _ _ _ Hinv2 Hleaf Hm) as (n & En & Hn & Es & _). rewrite En. cbn [obind].
  rewrite Es. cbn [obind]. rewrite <-Hh2, <-Hr2 in Hw.
  assert (content s idx = slot_val s2 leaf (idx mod 64)) as Ec.
  { rewrite <-Hc1, <-Hc2. unfold content. rewrite Hh2.
    rewrite (proj2 (Z.ltb_lt 0 _)), (proj2 (Z.leb_le 0 idx)), (proj2 (Z.ltb_lt idx _)) by lia. cbn [andb].
    rewrite <-Hh2. apply Hw. by intros p k b j. }
  destruct (Z.eqb_spec (slot_val s2 leaf (idx mod 64)) 0) as [E0|E0]; cbn [negb].
  - unfold on_node. rewrite En. cbn [obind].
    destruct (fill_spec own2 s2 leaf idx item n Hinv2 Hleaf) as [Hinv3 Hc3]; [rewrite Hh2; lia..|done|exact Hw|].
    eexists 0, _, own2. split; [done|]. split; [exact Hinv3|]. left. split; [done|]. split; [congruence|].
    intros i. by rewrite Hc3, Hc2, Hc1.
  - exists (- EEXIST), s2, own2. split; [done|]. split; [done|]. right. left. split; [done|]. split; [congruence|].
    intros i. by rewrite Hc2.
Qed.
(** *** Tags *)

(** The word of tag [t] in the node at [p]. *)
Definition tag_val s (p t : Z) : Z :=
  match nodes s !! p with
  | Some n => default 0 (tags n !! Z.to_nat t)
  | None => 0
  end.

Lemma get_tag_val own s p k b t :
  rt_inv own s → own !! p = Some (k, b) → 0 ≤ t < 3 →
  ∃ n, nodes s !! p = Some n ∧ tags n !! Z.to_nat t = Some (tag_val s p t).
Proof.
  intros Hinv Hp Ht. destruct (ri_node _ _ Hinv p k b Hp) as (_ & _ & n & Hn & _ & Hl & _).
  exists n. split; [done|]. unfold tag_val. rewrite Hn.
  destruct (lookup_lt_is_Some_2 (tags n) (Z.to_nat t)) as [w Hw]; [lia|]. by rewrite Hw.
Qed.

(** [s'] differs from [s] in the tag words of the levels up to [l] only. *)
Record tags_only own s (s' : @rtree A) (l : Z) : Prop := {
  to_inv : rt_inv own s';
  to_root : rheight s' = rheight s ∧ rnode s' = rnode s;
  to_slots p j : slot_val s' p j = slot_val s p j;
  to_upper p k b t : own !! p = Some (k, b) → l < k → tag_val s' p t = tag_val s p t;
}.

Lemma tags_only_put own s node k b t w n :
  rt_inv own s → own !! node = Some (k, b) → nodes s !! node = Some n →
  tags_only own s (put_node node (set_tag t w n) s) k.
Proof.
  intros Hinv Hn En. destruct (ri_node _ _ Hinv _ _ _ Hn) as (_ & _ & n' & En' & L1 & L2 & L3 & Hc).
  rewrite En in En'. injection En' as <-. split.
  - apply (inv_put own s node k b); [done|done|done| |done|done]. cbn. by rewrite length_insert.
  - done.
  - intros p j. rewrite slot_val_put. destruct (Z.eqb_spec p node) as [->|]; [|done].
    unfold slot_val. by rewrite En.
  - intros p kp bp t' Hp Hkp. unfold tag_val, put_node, set_nodes. cbn [nodes].
    rewrite lookup_insert_ne; [done|]. intros ->. rewrite Hn in Hp. injection Hp. lia.
Qed.

Lemma tags_only_trans own s1 s2 s3 k l :
  k ≤ l → tags_only own s1 s2 l → tags_only own s2 s3 k → tags_only own s1 s3 l.
Proof.
  intros Hkl [A1 A2 A3 A4] [B1 B2 B3 B4]. split; [done| | |].
  - destruct A2, B2. split; congruence.
  - intros p j. by rewrite B3.
  - intros p kp bp t Hp Hlt. rewrite (B4 p kp bp) by (done || lia). by apply (A4 p kp bp).
Qed.

(** The first node of the walk gets its word from [f]; deeper steps leave it alone.
    The rest of the walk is what [tag_get_walk] sees below. *)
Lemma tag_walk_spec f own l t i node s :
  rt_inv own s → covers own node (Z.of_nat l) i → 0 ≤ t < 3 →
  ∃ ok s', tag_walk f l t i node s = Ok (ok, s') ∧ tags_only own s s' (Z.of_nat l) ∧
    (∀ l', l = S l' → node ≠ 0 →
       tag_val s' node t = f (offset_at i (Z.of_nat l' * RADIX_TREE_MAP_SHIFT)) (tag_val s node t)) ∧
    ((∀ o w, 0 ≤ o < 64 → Z.land (f o w) (Z.shiftl 1 (o mod 64)) ≠ 0) →
       ∀ s2, rt_inv own s2 → (∀ p j, slot_val s2 p j = slot_val s' p j) →
         (∀ p k b, own !! p = Some (k, b) → k ≤ Z.of_nat l → tag_val s2 p t = tag_val s' p t) →
         tag_get_walk l t i node s2 = Ok (Z.b2z ok)).
Proof.
  intros Hinv Hc Ht. revert node s Hinv Hc. induction l as [|l IH]; intros node s Hinv Hc; cbn [tag_walk].
  { exists true, s. split; [done|]. by split. }
  assert (tags_only own s s (Z.of_nat (S l))) as Hrefl by done.
  destruct (Z.eqb_spec node 0) as [->|Hnz]; [by exists false, s|]. destruct Hc as [?|Hc]; [done|].
  set (o := offset_at i (Z.of_nat l * RADIX_TREE_MAP_SHIFT)).
  assert (0 ≤ o < 64) as Ho by (apply offset_range; lia).
  destruct (get_slot_val own s node _ _ o Hinv Hc Ho) as (n & En & Hn & Es & _).
  destruct (get_tag_val own s node _ _ t Hinv Hc Ht) as (n' & Hn' & Et). rewrite Hn in Hn'. injection Hn' as <-.
  rewrite En. cbn [obind]. rewrite Et. cbn [of_option obind]. rewrite Es. cbn [obind].
  set (w := f o (tag_val s node t)). set (s1 := put_node node (set_tag t w n) s).
  pose proof (tags_only_put own s node _ _ t w n Hinv Hc Hn) as H1. fold s1 in H1.
  assert (covers own (slot_val s node o) (Z.of_nat l) i ∨ l = O) as Hcl.
  { destruct l as [|l]; [by right|left]. replace (Z.of_nat (S (S l))) with (Z.of_nat (S l) + 1) in Hc by lia.
    apply (covers_child own s node); [done|done|lia]. }
  assert (tag_val s1 node t = w) as Hw1.
  { unfold tag_val, s1, put_node, set_nodes. cbn [nodes]. rewrite lookup_insert_eq. cbn.
    destruct (ri_node _ _ Hinv _ _ _ Hc) as (_ & _ & n'' & Hn'' & _ & L3 & _). rewrite Hn in Hn''. injection Hn'' as <-.
    by rewrite list_lookup_insert_eq by lia. }
  assert (∃ ok s', tag_walk f l t i (slot_val s node o) s1 = Ok (ok, s') ∧ tags_only own s1 s' (Z.of_nat l) ∧
    ((∀ o w, 0 ≤ o < 64 → Z.land (f o w) (Z.shiftl 1 (o mod 64)) ≠ 0) →
       ∀ s2, rt_inv own s2 → (∀ p j, slot_val s2 p j = slot_val s' p j) →
         (∀ p k b, own !! p = Some (k, b) → k ≤ Z.of_nat l → tag_val s2 p t = tag_val s' p t) →
         tag_get_walk l t i (slot_val s node o) s2 = Ok (Z.b2z ok))) as (ok & s' & E & H2 & Hget).
  { destruct Hcl as [Hcl| ->].
    - destruct (IH (slot_val s node o) s1 (to_inv _ _ _ _ H1) Hcl) as (ok & s' & E & H2 & _ & Hg). by exists ok, s'.
    - exists true, s1. split; [done|]. split; [|done]. split; [apply H1|done|done|done]. }
  exists ok, s'. split; [exact E|]. split; [eapply tags_only_trans; [|exact H1|exact H2]; lia|].
  assert (tag_val s' node t = w) as Hw by (rewrite (to_upper _ _ _ _ H2 node _ _ t Hc); [done|lia]).
  split; [by intros l' [= <-] _|]. intros Hf s2 Hinv2 Hsl Htg. cbn [tag_get_walk].
  rewrite (proj2 (Z.eqb_neq node 0)) by done. fold o.
  destruct (get_slot_val own s2 node _ _ o Hinv2 Hc Ho) as (n2 & En2 & Hn2 & Es2 & _).
  destruct (get_tag_val own s2 node _ _ t Hinv2 Hc Ht) as (n3 & Hn3 & Et2). rewrite Hn2 in Hn3. injection Hn3 as <-.
  rewrite En2. cbn [obind]. rewrite Et2. cbn [of_option obind].
  rewrite (Htg node _ _ Hc), Hw by lia. unfold w. rewrite (proj2 (Z.eqb_neq _ 0) (Hf o (tag_val s node t) Ho)).
  rewrite Es2. cbn [obind].
  rewrite Hsl, (to_slots _ _ _ _ H2), (to_slots _ _ _ _ H1). apply Hget; [done|done|done|].
  intros p k b Hp Hk. apply (Htg p k b Hp). lia.
Qed.

Lemma tag_update_spec f own s i t :
  rt_inv own s → 0 < rheight s → 0 ≤ i < 64 ^ rheight s → 0 ≤ t < 3 →
  ∃ ok s', tag_update f i t s = Ok (if ok : bool then 0 else - ENOENT, s') ∧
    tag_walk f (Z.to_nat (rheight s)) t i (rnode s) s = Ok (ok, s').
Proof.
  intros Hinv Hh Hi Ht. unfold tag_update, RADIX_TREE_MAX_TAGS.
  destruct (tag_walk_spec f own (Z.to_nat (rheight s)) t i (rnode s) s Hinv) as (ok & s' & E & _).
  { right. rewrite Z2Nat.id by lia. by apply covers_root. }
  { done. }
  exists ok, s'. rewrite (proj2 (Z.leb_gt 3 t)), (proj2 (Z.eqb_neq (rheight s) 0)) by lia.
  rewrite limit_pow by lia. rewrite (proj2 (Z.ltb_ge _ i)) by lia. by rewrite E.
Qed.
(** The test against the limit of the tree lets one index too many through. *)
Lemma lookup_at_limit s : 0 < rheight s ≤ 4 → radix_tree_lookup (64 ^ rheight s) s = radix_tree_lookup 0 s.
Proof.
  intros Hh. unfold radix_tree_lookup. rewrite (proj2 (Z.eqb_neq (rheight s) 0)) by lia.
  rewrite limit_pow by lia. assert (0 < 64 ^ rheight s) by (apply Z.pow_pos_nonneg; lia).
  rewrite !(proj2 (Z.ltb_ge (64 ^ rheight s) _)) by lia.
  rewrite <-(descend_mod _ (rheight s) (64 ^ rheight s)) by lia. by rewrite Z.mod_same by lia.
Qed.

(** ** Properties *)

(** C14. In a well-formed tree, the insertion of an item at an index (other than [64^h]
    and the higher powers of 64 in a tree of height [h], and other than 0 in the empty tree)
    fills the index's slot and no other, refuses an index in use with [-EEXIST], an index
    above [64^4] with [-EINVAL] and reports [-ENOMEM] only when the heap has no room for seven
    nodes; the tree stays well-formed, its inner nodes counting their slots in use and its
    leaves, which insertion does not count, keeping 0; every lookup at an index other than
    [64^h] finds the item of the map the tree stands for. *)
Theorem radix_insert_lookup own s idx item :
  rt_inv own s → item ≠ 0 → good_index (rheight s) idx →
  ∃ r s' own', radix_tree_insert idx item s = Ok (r, s') ∧ rt_inv own' s' ∧ insert_result idx item r s s' ∧
    ∀ i, 0 ≤ i → i ≠ 64 ^ rheight s' → radix_tree_lookup i s' = Ok (content s' i).
Proof.
  intros Hinv Hitem Hgood.
  destruct (insert_spec own s idx item Hinv Hitem Hgood) as (r & s' & own' & E & Hinv' & Hr).
  exists r, s', own'. split; [done|]. split; [done|]. split; [done|]. intros i H1 H2. by apply (lookup_content own').
Qed.

(** The limits of an index are off by one at both ends: a lookup of the first
    index above a tree's range returns the item at index 0, and the first two indices
    cannot be inserted into an empty tree. *)
Theorem radix_index_limits s :
  (0 < rheight s ≤ 4 → radix_tree_lookup (64 ^ rheight s) s = radix_tree_lookup 0 s) ∧
  (rheight s = 0 → rnode s = 0 → ∀ idx item, item ≠ 0 → 0 ≤ idx ≤ 1 → radix_tree_insert idx item s = Ok (- EINVAL, s)).
Proof.
  split.
  - apply lookup_at_limit.
  - intros Eh Er idx item Hitem Hi. unfold radix_tree_insert. rewrite (proj2 (Z.eqb_neq item 0)) by done.
    unfold radix_tree_create_path, radix_tree_extend. rewrite Eh. cbn [needed_height].
    rewrite limit_pow, Z.pow_0_r, (proj2 (Z.ltb_ge 1 idx)) by lia. cbn [obind Z.eqb].
    change (0 <? 0) with false. cbn iota. rewrite Eh, Er. cbn [create_loop]. rewrite Eh. done.
Qed.

(** Setting a tag leaves the items alone; when it reaches the leaf the tag reads
    as set, otherwise it returns [-ENOENT] and the tag reads as clear. *)
Theorem radix_tag_set_get own s i t :
  rt_inv own s → 0 < rheight s → 0 ≤ i < 64 ^ rheight s → 0 ≤ t < 3 →
  ∃ ok s', radix_tree_tag_set i t s = Ok (if ok : bool then 0 else - ENOENT, s') ∧ rt_inv own s' ∧
    (∀ j, content s' j = content s j) ∧ radix_tree_tag_get i t s' = Ok (Z.b2z ok).
Proof.
  intros Hinv Hh Hi Ht. unfold radix_tree_tag_set. set (f := λ _ _, _).
  destruct (tag_update_spec f own s i t Hinv Hh Hi Ht) as (ok & s' & -> & E).
  exists ok, s'. split; [done|].
  destruct (tag_walk_spec f own (Z.to_nat (rheight s)) t i (rnode s) s Hinv) as (ok' & s'' & E' & Hto & _ & Hg).
  { right. rewrite Z2Nat.id by lia. by apply covers_root. }
  { done. }
  rewrite E in E'. injection E' as <- <-. destruct Hto as [Hinv' [Eh Er] Hsl _]. split; [done|].
  split; [intros j; apply (content_same own); by intros|]. unfold radix_tree_tag_get, RADIX_TREE_MAX_TAGS.
  rewrite Eh, Er, limit_pow by lia.
  rewrite (proj2 (Z.leb_gt 3 t)), (proj2 (Z.eqb_neq (rheight s) 0)), (proj2 (Z.ltb_ge _ i)) by lia.
  apply Hg; [|done..]. intros o w Ho Hz. rewrite Z.mod_small in Hz by lia.
  assert (Z.testbit (Z.land (f o w) (Z.shiftl 1 o)) o = false) as Hb by (rewrite Hz; apply Z.bits_0).
  unfold f in Hb. rewrite Z.land_spec, Z.lor_spec, Z.mod_small, Z.shiftl_1_l, Z.pow2_bits_true in Hb by lia.
  by rewrite orb_true_r in Hb.
Qed.

(** Clearing a tag at an index clears it for the whole subtree below the same
    slot of the root. *)
Theorem radix_tag_clear_subtree own s i j t :
  rt_inv own s → 0 < rheight s → 0 ≤ i < 64 ^ rheight s → 0 ≤ j < 64 ^ rheight s → 0 ≤ t < 3 →
  i / 64 ^ (rheight s - 1) = j / 64 ^ (rheight s - 1) →
  ∃ ok s', radix_tree_tag_clear i t s = Ok (if ok : bool then 0 else - ENOENT, s') ∧ rt_inv own s' ∧
    rheight s' = rheight s ∧ (∀ k, content s' k = content s k) ∧ radix_tree_tag_get j t s' = Ok 0.
Proof.
  intros Hinv Hh Hi Hj Ht Hij. unfold radix_tree_tag_clear. set (f := λ _ _, _).
  destruct (tag_update_spec f own s i t Hinv Hh Hi Ht) as (ok & s' & -> & E).
  exists ok, s'. split; [done|].
  destruct (tag_walk_spec f own (Z.to_nat (rheight s)) t i (rnode s) s Hinv) as (ok' & s'' & E' & Hto & Hw & _).
  { right. rewrite Z2Nat.id by lia. by apply covers_root. }
  { done. }
  rewrite E in E'. injection E' as <- <-. destruct Hto as [Hinv' [Eh Er] Hsl _]. split; [done|].
  split; [done|]. split; [intros k; apply (content_same own); by intros|].
  unfold radix_tree_tag_get, RADIX_TREE_MAX_TAGS. rewrite Eh, Er, limit_pow by lia.
  rewrite (proj2 (Z.leb_gt 3 t)), (proj2 (Z.eqb_neq (rheight s) 0)), (proj2 (Z.ltb_ge _ j)) by lia.
  pose proof (covers_root own s j Hinv Hh Hj) as Hroot. destruct (ri_node _ _ Hinv _ _ _ Hroot) as (Hnz & _).
  replace (Z.to_nat (rheight s)) with (S (Z.to_nat (rheight s - 1))) in * by lia.
  specialize (Hw _ eq_refl Hnz). cbn [tag_get_walk]. rewrite (proj2 (Z.eqb_neq (rnode s) 0)) by done.
  rewrite !offset_at_div, !Z2Nat.id, Hij in * by lia. set (o := j / 64 ^ (rheight s - 1) mod 64) in *.
  destruct (get_tag_val own s' (rnode s) _ _ t Hinv' Hroot Ht) as (n & Hn & Et).
  unfold get_node. rewrite Hn. cbn [of_option obind]. rewrite Et. cbn [of_option obind]. rewrite Hw. unfold f.
  rewrite <-Z.land_assoc, (Z.land_comm (Z.lnot _)), Z.land_lnot_diag, Z.land_0_r. done.
Qed.

End Spec.

(** ** Witnesses: a tree of two levels with one leaf, in which index 7 is in use *)

Definition sample : rtree :=
  RTree 2 1000 {[1000 := Node 2 1 0 (<[0%nat := 2000]> (replicate 64 0)) (replicate 3 0);
                 2000 := Node 1 0 1000 (<[7%nat := 77]> (replicate 64 0)) (replicate 3 0)]} 9000.

Definition sample_own : gmap Z (Z * Z) := {[1000 := (2, 0); 2000 := (1, 0)]}.

Lemma sample_inv : rt_inv sample_own sample.
Proof.
  split.
  - cbn. lia.
  - reflexivity.
  - intros p k b Hp. unfold sample_own in Hp. apply lookup_insert_Some in Hp as [[<- [= <- <-]]|[_ Hp]].
    + split; [done|]. split; [lia|]. eexists. split; [reflexivity|]. split; [done|]. split; [done|]. split; [done|].
      intros _ i c Hi Hc Hcz. cbn [slots] in Hc. destruct (Z.eq_dec i 0) as [->|Hi0].
      * injection Hc as <-. reflexivity.
      * rewrite list_lookup_insert_ne in Hc by lia. apply lookup_replicate in Hc as [-> _]. done.
    + apply lookup_singleton_Some in Hp as [<- [= <- <-]].
      split; [done|]. split; [lia|]. eexists. split; [reflexivity|]. split; [done|]. split; [done|]. split; [done|]. lia.
  - intros p x Hp. unfold sample_own in Hp. apply lookup_insert_Some in Hp as [[<- _]|[_ Hp]]; [exists 552; cbn; lia|].
    apply lookup_singleton_Some in Hp as [<- _]. exists 552. cbn. lia.
Qed.

Lemma radix_insert_lookup_witness :
  ∃ r s' own', radix_tree_insert 130 55 sample = Ok (r, s') ∧ rt_inv own' s' ∧
    insert_result 130 55 r sample s'.
Proof.
  destruct (radix_insert_lookup sample_own sample 130 55 sample_inv) as (r & s' & own' & E & H1 & H2 & _).
  - lia.
  - split; [lia|]. split; [done|]. intros k Hk. cbn in Hk. assert (64 ^ 2 ≤ 64 ^ k) by (apply Z.pow_le_mono_r; lia). lia.
  - exists r, s', own'. split; [exact E|]. split; [exact H1|exact H2].
Defined.

Lemma radix_index_limits_witness :
  radix_tree_lookup 4096 sample = radix_tree_lookup 0 sample ∧
  radix_tree_insert 1 55 (radix_tree_init sample) = Ok (- EINVAL, radix_tree_init sample).
Proof.
  split.
  - apply (proj1 (radix_index_limits sample)). cbn. lia.
  - apply (proj2 (radix_index_limits (radix_tree_init sample))); [reflexivity|reflexivity|lia|lia].
Defined.

Lemma radix_tag_set_get_witness :
  ∃ ok s', radix_tree_tag_set 7 1 sample = Ok (if ok : bool then 0 else - ENOENT, s') ∧
    radix_tree_tag_get 7 1 s' = Ok (Z.b2z ok).
Proof.
  destruct (radix_tag_set_get sample_own sample 7 1 sample_inv) as (ok & s' & E & _ & _ & H).
  - cbn. lia.
  - cbn. lia.
  - lia.
  - exists ok, s'. split; [exact E|exact H].
Defined.

Lemma radix_tag_clear_subtree_witness :
  ∃ ok s', radix_tree_tag_clear 8 1 sample = Ok (if ok : bool then 0 else - ENOENT, s') ∧
    radix_tree_tag_get 7 1 s' = Ok 0.
Proof.
  destruct (radix_tag_clear_subtree sample_own sample 8 7 1 sample_inv) as (ok & s' & E & _ & _ & _ & H).
  - cbn. lia.
  - cbn. lia.
  - cbn. lia.
  - lia.
  - reflexivity.
  - exists ok, s'. split; [exact E|exact H].
Defined.
