(* ===== verification/Hashtable.v ===== *)
(** * Hash tables ([kernel/util/hashtable.c], [include/kernel/util/hashtable.h])

    Bucket arrays of intrusive lists, the table the dentry and inode caches are built
    on. The callbacks of a table are functions of the model. The four [static]
    variables of [hashtable_try_expand] are shared by all tables, so they are part of
    the memory, not of a table. Bucket locks are left out: each operation takes at
    most one lock of an array at a time and releases it on every path. *)

From stdpp Require Import base gmap list.
From S2P Require Import Prelude ListHead KString.
Local Open Scope Z_scope.
Local Open Scope kernel_scope.

(** [struct hashtable] without its callbacks. *)
Record hashtable := HT {
  ht_size : Z;
  items : Z;
  max_load : Z;
  expanding : Z;
  buckets : Z;
}.

Definition set_items (v : Z) (ht : hashtable) : hashtable :=
  HT (ht_size ht) v (max_load ht) (expanding ht) (buckets ht).
Definition set_expanding (v : Z) (ht : hashtable) : hashtable :=
  HT (ht_size ht) (items ht) (max_load ht) v (buckets ht).

(** The [static] variables of [hashtable_try_expand]. *)
Record expansion := Expansion {
  new_buckets : Z;
  new_size : Z;
  transfer_index : Z;
  expansion_in_progress : Z;
}.

(** [sizeof(struct hash_bucket)], and the list head of bucket [i]. *)
Definition BUCKET_SIZE : Z := 24.
Definition bucket (base i : Z) : Z := base + BUCKET_SIZE * i.

Definition next_power_of_2 (x : Z) : Z :=
  let x := u32 (x - 1) in
  let x := Z.lor x (Z.shiftr x 1) in
  let x := Z.lor x (Z.shiftr x 2) in
  let x := Z.lor x (Z.shiftr x 4) in
  let x := Z.lor x (Z.shiftr x 8) in
  let x := Z.lor x (Z.shiftr x 16) in
  u32 (x + 1).

Definition hashtable_count (ht : option hashtable) : Z :=
  match ht with
  | Some ht => u32 (items ht)
  | None => 0
  end.

(** ** Hash functions *)

Fixpoint hash_string_loop (fuel : nat) (str hash : Z) (m : mem) : outcome Z :=
  let! c := load8 str m in
  if c =? 0 then Ok hash
  else
    match fuel with
    | O => Timeout
    | S fuel => hash_string_loop fuel (str + 1) (u32 (Z.lxor hash c * 16777619)) m
    end.

Definition hash_string (key size : Z) (m : mem) : outcome Z :=
  hash_string_loop (base.size m) key 2166136261 m.

(** On the 32-bit value the key points at. *)
Definition hash_int (k : Z) : Z :=
  let k := Z.lxor k (Z.shiftr k 16) in
  let k := u32 (k * 2246822507) in
  let k := Z.lxor k (Z.shiftr k 13) in
  let k := u32 (k * 3266489909) in
  Z.lxor k (Z.shiftr k 16).

(** The pointer's low half is what [hash_int] reads. *)
Definition hash_ptr (ptr : Z) : Z := hash_int (u32 ptr).

Section Hashtable.
Context {A : Type} {KM : KMalloc A}.
Context (hash_func get_key : Z → Z) (key_equals : Z → Z → bool).

Record hmem := HMem {
  cells : store;
  statics : expansion;
  heap : A;
}.

Definition set_cells (c : store) (m : hmem) : hmem := HMem c (statics m) (heap m).
Definition set_statics (e : expansion) (m : hmem) : hmem := HMem (cells m) e (heap m).

(** [kmalloc] of [n] buckets: the list heads exist from then on, their contents are
    whatever the memory held (every caller initialises them). *)
Definition alloc_buckets (n : Z) (m : hmem) : Z * hmem :=
  let (p, a) := kmalloc (n * BUCKET_SIZE) (heap m) in
  if p =? 0 then (0, HMem (cells m) (statics m) a)
  else (p, HMem (foldr (λ i c, <[bucket p i := ListHead 0 0]> c) (cells m) (seqZ 0 n)) (statics m) a).

Definition free_buckets (base n : Z) (m : hmem) : hmem :=
  HMem (foldr (λ i c, delete (bucket base i) c) (cells m) (seqZ 0 n)) (statics m) (kfree base (heap m)).

Fixpoint init_buckets (n : nat) (base i : Z) (c : store) : outcome store :=
  match n with
  | O => Ok c
  | S n =>
      let! c := INIT_LIST_HEAD (bucket base i) c in
      init_buckets n base (i + 1) c
  end.

Definition hashtable_setup (ht : option hashtable) (initial_size max_load : Z) (m : hmem)
    : outcome (Z * option hashtable * hmem) :=
  match ht with
  | None => Ok (- EINVAL, None, m)
  | Some ht =>
      let initial_size := if initial_size <? 16 then 16 else initial_size in
      let max_load := if (max_load <? 50) || (90 <? max_load) then 70 else max_load in
      let initial_size := next_power_of_2 initial_size in
      let (p, m) := alloc_buckets initial_size m in
      let ht := HT (ht_size ht) (items ht) (Hashtable.max_load ht) (expanding ht) p in
      if p =? 0 then Ok (- ENOMEM, Some ht, m)
      else
        let! c := init_buckets (Z.to_nat initial_size) p 0 (cells m) in
        Ok (0, Some (HT initial_size 0 max_load (expanding ht) p), set_cells c m)
  end.

(** The [list_for_each_safe] over one old bucket, which moves every node to its new
    bucket: [i], or [i + size] when the hash has the bit of the old size. *)
Fixpoint transfer_bucket (fuel : nat) (i pos n head size new_buckets : Z) (c : store) : outcome store :=
  if pos =? head then Ok c
  else
    match fuel with
    | O => Timeout
    | S fuel =>
        let key := get_key pos in
        let hash := hash_func key in
        let new_idx := if negb (Z.land hash size =? 0) then u32 (i + size) else i in
        let! c := list_del pos c in
        let! c := list_add pos (bucket new_buckets new_idx) c in
        let! n' := get_next n c in
        transfer_bucket fuel i n n' head size new_buckets c
    end.

Fixpoint transfer_loop (count : nat) (i old size new_buckets : Z) (c : store) : outcome store :=
  match count with
  | O => Ok c
  | S count =>
      let head := bucket old i in
      let! pos := get_next head c in
      let! n := get_next pos c in
      let! c := transfer_bucket (base.size c) i pos n head size new_buckets c in
      transfer_loop count (i + 1) old size new_buckets c
  end.

(** Start an expansion unless one is in progress; [Some r] is an early return. *)
Definition start_expand (ht : hashtable) (m : hmem) : outcome (option Z * hashtable * hmem) :=
  let st := statics m in
  if expansion_in_progress st =? 0 then
    if negb (expanding ht =? 0) then Ok (Some 0, ht, m)
    else
      let ht := set_expanding 1 ht in
      let new_size := u32 (ht_size ht * 2) in
      let (p, m) := alloc_buckets new_size m in
      let m := set_statics (Expansion p new_size (transfer_index st) (expansion_in_progress st)) m in
      if p =? 0 then Ok (Some (- ENOMEM), set_expanding 0 ht, m)
      else
        let! c := init_buckets (Z.to_nat new_size) p 0 (cells m) in
        Ok (None, ht, set_statics (Expansion p new_size 0 1) (set_cells c m))
  else Ok (None, ht, m).

Definition hashtable_try_expand (ht : hashtable) (m : hmem) : outcome (Z * hashtable * hmem) :=
  let current_items := u32 (items ht) in
  let threshold := u32 (ht_size ht * max_load ht) / 100 in
  if current_items <? threshold then Ok (0, ht, m)
  else
    let! (early, ht, m) := start_expand ht m in
    match early with
    | Some r => Ok (r, ht, m)
    | None =>
        let st := statics m in
        let end_index := u32 (transfer_index st + 16) in
        let end_index := if ht_size ht <? end_index then ht_size ht else end_index in
        let! c := transfer_loop (Z.to_nat (end_index - transfer_index st)) (transfer_index st)
                    (buckets ht) (ht_size ht) (new_buckets st) (cells m) in
        let m := set_cells c m in
        if ht_size ht <=? end_index then
          let ht' := HT (new_size st) (items ht) (max_load ht) 0 (new_buckets st) in
          Ok (0, ht', set_statics (Expansion 0 0 0 0) (free_buckets (buckets ht) (ht_size ht) m))
        else
          Ok (0, ht, set_statics (Expansion (new_buckets st) (new_size st) end_index (expansion_in_progress st)) m)
    end.

(** The node of the bucket with an equal key, 0 for none. *)
Fixpoint find_key (fuel : nat) (key pos head : Z) (c : store) : outcome Z :=
  if pos =? head then Ok 0
  else
    match fuel with
    | O => Timeout
    | S fuel =>
        if key_equals (get_key pos) key then Ok pos
        else
          let! n := get_next pos c in
          find_key fuel key n head c
    end.

Definition search_bucket (key head : Z) (c : store) : outcome Z :=
  let! pos := get_next head c in find_key (base.size c) key pos head c.

(** [hashtable_insert] once the table has its size. *)
Definition insert_into (t : hashtable) (key hash node : Z) (m : hmem) : outcome (Z * option hashtable * hmem) :=
  let idx := Z.land hash (u32 (ht_size t - 1)) in
  let! found := search_bucket key (bucket (buckets t) idx) (cells m) in
  if negb (found =? 0) then Ok (- EEXIST, Some t, m)
  else
    let! c := list_add node (bucket (buckets t) idx) (cells m) in
    Ok (0, Some (set_items (s32 (items t + 1)) t), set_cells c m).

Definition hashtable_insert (ht : option hashtable) (node : Z) (m : hmem)
    : outcome (Z * option hashtable * hmem) :=
  match ht with
  | None => Ok (- EINVAL, ht, m)
  | Some t =>
      if node =? 0 then Ok (- EINVAL, ht, m)
      else
        let key := get_key node in
        if key =? 0 then Ok (- EINVAL, ht, m)
        else
          let hash := hash_func key in
          let! (ret, t, m) :=
            (if u32 (ht_size t * max_load t) / 100 <=? hashtable_count ht
             then hashtable_try_expand t m else Ok (0, t, m)) in
          if ret <? 0 then Ok (ret, Some t, m)
          else insert_into t key hash node m
  end.

Definition hashtable_lookup (ht : option hashtable) (key : Z) (m : hmem) : outcome Z :=
  match ht with
  | None => Ok 0
  | Some t =>
      if key =? 0 then Ok 0
      else
        let idx := Z.land (hash_func key) (u32 (ht_size t - 1)) in
        search_bucket key (bucket (buckets t) idx) (cells m)
  end.

Definition hashtable_remove (ht : option hashtable) (node : Z) (m : hmem)
    : outcome (Z * option hashtable * hmem) :=
  match ht with
  | None => Ok (- EINVAL, ht, m)
  | Some t =>
      if node =? 0 then Ok (- EINVAL, ht, m)
      else if get_key node =? 0 then Ok (- EINVAL, ht, m)
      else
        let! e := list_empty node (cells m) in
        if negb e then
          let! c := list_del_init node (cells m) in
          Ok (0, Some (set_items (s32 (items t - 1)) t), set_cells c m)
        else Ok (- ENOENT, ht, m)
  end.

Definition hashtable_remove_by_key (ht : option hashtable) (key : Z) (m : hmem)
    : outcome (Z * option hashtable * hmem) :=
  match ht with
  | None => Ok (- EINVAL, ht, m)
  | Some t =>
      if key =? 0 then Ok (- EINVAL, ht, m)
      else
        let idx := Z.land (hash_func key) (u32 (ht_size t - 1)) in
        let! pos := search_bucket key (bucket (buckets t) idx) (cells m) in
        if negb (pos =? 0) then
          let! c := list_del_init pos (cells m) in
          Ok (0, Some (set_items (s32 (items t - 1)) t), set_cells c m)
        else Ok (- ENOENT, ht, m)
  end.

Definition hashtable_clear (ht : option hashtable) (m : hmem) : option hashtable * hmem :=
  match ht with
  | None => (ht, m)
  | Some t =>
      if buckets t =? 0 then (ht, m)
      else (Some (HT 0 0 (max_load t) (expanding t) 0), free_buckets (buckets t) (ht_size t) m)
  end.
End Hashtable.

(** ** Powers of two *)

(** [y] has bit [i] set when [x] has one of the [d] bits from [i] on. *)
Definition smeared (d x y : Z) : Prop :=
  0 ≤ y ∧ ∀ i, 0 ≤ i → Z.testbit y i = true ↔ ∃ j, i ≤ j < i + d ∧ Z.testbit x j = true.

Lemma smear_step d w x y : 0 ≤ w ≤ d → smeared d x y → smeared (d + w) x (Z.lor y (Z.shiftr y w)).
Proof.
  intros Hw [Hy Hb]. split; [apply Z.lor_nonneg; split; [done|]; by apply Z.shiftr_nonneg|]. intros i Hi.
  rewrite Z.lor_spec, Z.shiftr_spec, orb_true_iff by lia. rewrite !Hb by lia. split.
  - intros [(j & Hj & Hx)|(j & Hj & Hx)]; exists j; (split; [lia|done]).
  - intros (j & Hj & Hx). destruct (Z.lt_ge_cases j (i + d)); [left|right]; exists j; (split; [lia|done]).
Qed.

Lemma smeared_ones x y : 0 < x < 2 ^ 32 → smeared 32 x y → y = Z.ones (Z.log2 x + 1).
Proof.
  intros Hx [Hy Hb]. pose proof (Z.log2_nonneg x). assert (Z.log2 x < 32) by (apply Z.log2_lt_pow2; lia).
  apply Z.bits_inj'. intros i Hi. apply Bool.eq_iff_eq_true. rewrite Hb, Z.testbit_ones_nonneg, Z.ltb_lt by lia. split.
  - intros (j & Hj & Hbit). destruct (Z.lt_ge_cases i (Z.log2 x + 1)); [done|].
    rewrite Z.bits_above_log2 in Hbit by lia. done.
  - intros Hlt. exists (Z.log2 x). split; [lia|]. apply Z.bit_log2. lia.
Qed.

Lemma next_power_of_2_ok x :
  1 ≤ x ≤ 2 ^ 31 → ∃ k, 0 ≤ k ≤ 31 ∧ next_power_of_2 x = 2 ^ k ∧ x ≤ 2 ^ k < 2 * x.
Proof.
  intros Hx. unfold next_power_of_2. rewrite (u32_small (x - 1)) by lia.
  destruct (Z.eq_dec x 1) as [->|Hne]; [by exists 0|].
  assert (smeared 1 (x - 1) (x - 1)) as H0.
  { split; [lia|]. intros i Hi. split; [by exists i; split; [lia|]|]. intros (j & Hj & Hb). by replace i with j by lia. }
  apply (smear_step 1 1) in H0; [|lia]. apply (smear_step (1 + 1) 2) in H0; [|lia].
  apply (smear_step (1 + 1 + 2) 4) in H0; [|lia]. apply (smear_step (1 + 1 + 2 + 4) 8) in H0; [|lia].
  apply (smear_step (1 + 1 + 2 + 4 + 8) 16) in H0; [|lia]. apply smeared_ones in H0; [|lia]. rewrite H0.
  pose proof (Z.log2_spec (x - 1) ltac:(lia)) as Hl. pose proof (Z.log2_nonneg (x - 1)).
  assert (Z.log2 (x - 1) < 31) by (apply Z.log2_lt_pow2; lia).
  exists (Z.log2 (x - 1) + 1). rewrite Z.ones_equiv. unfold Z.succ in Hl.
  assert (2 ^ (Z.log2 (x - 1) + 1) ≤ 2 ^ 31) by (apply Z.pow_le_mono_r; lia).
  replace (Z.pred (2 ^ (Z.log2 (x - 1) + 1)) + 1) with (2 ^ (Z.log2 (x - 1) + 1)) by lia.
  rewrite u32_small by lia. split; [lia|]. split; [done|]. split; [lia|].
  rewrite Z.pow_add_r by lia. lia.
Qed.

(** ** Representation *)

Lemma bucket_inj base i j : bucket base i = bucket base j → i = j.
Proof. unfold bucket, BUCKET_SIZE. lia. Qed.

(** [n] new empty heads. *)
Fixpoint add_heads (n : nat) (base i : Z) (F : heads) : heads :=
  match n with
  | O => F
  | S n => add_heads n base (i + 1) (<[bucket base i := []]> F)
  end.

Lemma add_heads_other n base i F p :
  (∀ j, i ≤ j < i + Z.of_nat n → p ≠ bucket base j) → add_heads n base i F !! p = F !! p.
Proof.
  revert i F. induction n as [|n IH]; intros i F Hp; cbn [add_heads]; [done|].
  rewrite IH by (intros; apply Hp; lia). apply lookup_insert_ne. intros E. apply (Hp i); [lia|done].
Qed.

Lemma add_heads_in n base i F j :
  i ≤ j < i + Z.of_nat n → add_heads n base i F !! bucket base j = Some [].
Proof.
  revert i F. induction n as [|n IH]; intros i F Hj; [lia|]. cbn [add_heads].
  destruct (Z.eq_dec i j) as [->|Hne]; [|apply IH; lia].
  rewrite add_heads_other; [apply lookup_insert_eq|]. intros k Hk E. apply bucket_inj in E. lia.
Qed.

Lemma init_buckets_spec n base i c F :
  family c F →
  (∀ j, i ≤ j < i + Z.of_nat n → ~ in_family F (bucket base j) ∧ is_Some (c !! bucket base j)) →
  ∃ c', init_buckets n base i c = Ok c' ∧ family c' (add_heads n base i F) ∧
    (∀ x, is_Some (c !! x) → is_Some (c' !! x)).
Proof.
  revert i c F. induction n as [|n IH]; intros i c F HF Hnew; cbn [init_buckets add_heads]; [by exists c|].
  destruct (Hnew i ltac:(lia)) as [Hi Hs].
  destruct (family_init c F (bucket base i) HF Hi Hs) as (c1 & -> & HF1 & Ho). cbn [obind].
  assert (∀ x, is_Some (c !! x) → is_Some (c1 !! x)) as Hdom.
  { intros x Hx. destruct (decide (x = bucket base i)) as [->|Hne].
    - apply (dll_nodes c1 (bucket base i) []); [|by apply list_elem_of_singleton].
      apply (fam_dll _ _ HF1). apply lookup_insert_eq.
    - rewrite Ho; [done|]. by rewrite list_elem_of_singleton. }
  destruct (IH (i + 1) c1 _ HF1) as (c' & E & HF' & Hd).
  - intros j Hj. destruct (Hnew j ltac:(lia)) as [Hj1 Hj2]. split; [|by apply Hdom].
    intros (p & l & Hp & Hin). apply lookup_insert_Some in Hp as [[<- <-]|[_ Hp]].
    + apply list_elem_of_singleton in Hin. apply bucket_inj in Hin. lia.
    + apply Hj1. by exists p, l.
  - exists c'. split; [done|]. split; [done|]. intros x Hx. auto.
Qed.

Section Spec.
Context {A : Type} {KM : KMalloc A} {KS : KMallocSpec A}.
Context (hash_func get_key : Z → Z) (key_equals : Z → Z → bool).
Implicit Types (m : @hmem A) (t : hashtable) (F : heads).

(** What the callbacks promise: a full 32-bit hash that equal keys share. *)
Record callbacks : Prop := {
  cb_range k : 0 ≤ hash_func k < 2 ^ 32;
  cb_sym k k' : key_equals k k' = key_equals k' k;
  cb_hash k k' : key_equals k k' = true → hash_func k = hash_func k';
}.
Hypothesis CB : callbacks.

(** The bucket of a key. *)
Definition idx_of t (key : Z) : Z := Z.land (hash_func key) (u32 (ht_size t - 1)).

(** [t] holds exactly the nodes [ns]; [F] is the family of lists in memory. *)
Record ht_rep t m F (ns : list Z) : Prop := {
  hr_fam : family (cells m) F;
  hr_size : ∃ k, 4 ≤ k ≤ 25 ∧ ht_size t = 2 ^ k;
  hr_bucket i : 0 ≤ i < ht_size t → ∃ l, F !! bucket (buckets t) i = Some l ∧
    ∀ x, x ∈ l ↔ x ∈ ns ∧ idx_of t (get_key x) = i;
  hr_key x : x ∈ ns → x ≠ 0 ∧ get_key x ≠ 0;
  hr_unique x y : x ∈ ns → y ∈ ns → key_equals (get_key x) (get_key y) = true → x = y;
  hr_nodup : NoDup ns;
  hr_items : items t = Z.of_nat (length ns) ∧ items t < 2 ^ 31 - 1;
  hr_load : 50 ≤ max_load t ≤ 90;
}.

Lemma idx_mod t k key : 0 ≤ k ≤ 31 → ht_size t = 2 ^ k → idx_of t key = hash_func key mod 2 ^ k.
Proof.
  intros Hk E. unfold idx_of. rewrite E. assert (2 ^ k ≤ 2 ^ 31) by (apply Z.pow_le_mono_r; lia).
  rewrite u32_small by lia.
  replace (2 ^ k - 1) with (Z.ones k) by (rewrite Z.ones_equiv; lia). by rewrite Z.land_ones by lia.
Qed.

Lemma rep_idx t m F ns key : ht_rep t m F ns → 0 ≤ idx_of t key < ht_size t.
Proof.
  intros HR. destruct (hr_size _ _ _ _ HR) as (k & Hk & E). rewrite (idx_mod t k), E by (done || lia).
  apply Z.mod_pos_bound. lia.
Qed.

Lemma find_key_spec key head l c fuel x :
  dll c head l → (∃ pre post, l = pre ++ post ∧ x = default head (hd_error post) ∧
    (length post ≤ fuel)%nat ∧ Forall (λ y, key_equals (get_key y) key = false) pre) →
  Forall (λ y, y ≠ 0) l →
  ∃ r, find_key get_key key_equals fuel key x head c = Ok r ∧
    (r ≠ 0 ∧ r ∈ l ∧ key_equals (get_key r) key = true ∨
     r = 0 ∧ Forall (λ y, key_equals (get_key y) key = false) l).
Proof.
  intros D (pre & post & -> & -> & Hf & Hpre) Hnz. revert pre fuel D Hf Hpre Hnz.
  induction post as [|y post IH]; intros pre fuel D Hf Hpre Hnz.
  { exists 0. destruct fuel; simpl; rewrite Z.eqb_refl; (split; [done|right]); (split; [done|]); by rewrite app_nil_r. }
  destruct fuel as [|fuel]; cbn [length] in Hf; [lia|]. change (default head (hd_error (y :: post))) with y. cbn [find_key].
  destruct D as [Hnd Hl]. assert (y ≠ head ∧ y ≠ 0) as [Hyh Hy0].
  { split.
    - intros ->. apply NoDup_cons in Hnd as [Hh _]. apply Hh, elem_of_app. right. by apply elem_of_cons; left.
    - rewrite Forall_app, Forall_cons in Hnz. tauto. }
  rewrite (proj2 (Z.eqb_neq y head)) by done. destruct (key_equals (get_key y) key) eqn:Ek.
  - exists y. split; [done|]. left. split; [done|]. split; [|done]. rewrite elem_of_app, elem_of_cons. tauto.
  - assert (get_next y c = Ok (default head (hd_error post))) as ->.
    { apply get_next_ok. rewrite <-app_assoc, app_comm_cons in Hl. apply linked_app in Hl as [_ Hl].
      unfold nx. destruct post; apply Hl. }
    cbn [obind]. destruct (IH (pre ++ [y]) fuel) as (r & E & Hr).
    + by rewrite <-app_assoc.
    + lia.
    + rewrite Forall_app, Forall_singleton. done.
    + by rewrite <-app_assoc.
    + exists r. split; [done|]. by rewrite <-app_assoc in Hr.
Qed.

(** The search of the bucket of a key is a search of the table. *)
Lemma search_spec t m F ns key :
  ht_rep t m F ns → ∃ r,
    search_bucket get_key key_equals key (bucket (buckets t) (idx_of t key)) (cells m) = Ok r ∧
    (r ≠ 0 ∧ r ∈ ns ∧ key_equals (get_key r) key = true ∨
     r = 0 ∧ ∀ y, y ∈ ns → key_equals (get_key y) key = false).
Proof.
  intros HR. destruct (hr_bucket _ _ _ _ HR _ (rep_idx t m F ns key HR)) as (l & Hl & Hin).
  pose proof (fam_dll _ _ (hr_fam _ _ _ _ HR) _ _ Hl) as D. unfold search_bucket.
  rewrite (get_next_ok _ _ _ (dll_first _ _ _ D)). cbn [obind].
  destruct (find_key_spec key _ l (cells m) (size (cells m)) (default (bucket (buckets t) (idx_of t key)) (hd_error l)) D)
    as (r & E & Hr).
  - exists [], l. split; [done|]. split; [done|]. split; [by eapply dll_length|done].
  - apply Forall_forall. intros y Hy. apply Hin in Hy as [Hy _]. by apply (hr_key _ _ _ _ HR).
  - exists r. split; [exact E|]. destruct Hr as [(H1 & H2 & H3)|[H1 H2]]; [left|right].
    + split; [done|]. split; [by apply Hin|done].
    + split; [done|]. intros y Hy. rewrite Forall_forall in H2.
      destruct (key_equals (get_key y) key) eqn:Ek; [|done]. rewrite <-Ek. apply H2, Hin. split; [done|].
      unfold idx_of. by rewrite (cb_hash CB _ _ Ek).
Qed.

(** The expansion threshold does not overflow. *)
Lemma rep_threshold t m F ns :
  ht_rep t m F ns →
  u32 (ht_size t * max_load t) / 100 = ht_size t * max_load t / 100 ∧
  ht_size t * max_load t / 100 < 2 ^ 25.
Proof.
  intros HR. destruct (hr_size _ _ _ _ HR) as (k & Hk & Ek). pose proof (hr_load _ _ _ _ HR) as Hml.
  assert (0 < ht_size t ≤ 2 ^ 25) as Hs by (rewrite Ek; split; [lia|apply Z.pow_le_mono_r; lia]).
  split; [by rewrite u32_small by nia|]. apply Z.div_lt_upper_bound; [lia|]. nia.
Qed.

Lemma add_node_rep t m F ns x c' l :
  ht_rep t m F ns → x ≠ 0 → get_key x ≠ 0 → ~ in_family F x →
  F !! bucket (buckets t) (idx_of t (get_key x)) = Some l →
  (∀ y, y ∈ ns → key_equals (get_key y) (get_key x) = false) → items t < 2 ^ 31 - 2 →
  family c' (<[bucket (buckets t) (idx_of t (get_key x)) := x :: l]> F) →
  ht_rep (set_items (s32 (items t + 1)) t) (set_cells c' m)
    (<[bucket (buckets t) (idx_of t (get_key x)) := x :: l]> F) (x :: ns).
Proof.
  intros HR Hx Hkx Hfresh Hl Hno Hmax HF'. pose proof (rep_idx t m F ns (get_key x) HR) as Hidx.
  assert (x ∉ ns) as Hxns.
  { intros Hin. apply Hfresh. exists (bucket (buckets t) (idx_of t (get_key x))), l. split; [done|].
    apply elem_of_cons. right. destruct (hr_bucket _ _ _ _ HR _ Hidx) as (l' & Hl' & Hb).
    rewrite Hl in Hl'. injection Hl' as <-. by apply Hb. }
  destruct HR as [H1 H2 H3 H4 H5 H6 [H7 H7'] H8]. split.
  - exact HF'.
  - done.
  - intros i Hi. destruct (decide (i = idx_of t (get_key x))) as [->|Hne].
    + exists (x :: l). cbn [buckets set_items]. rewrite lookup_insert_eq. split; [done|]. intros y.
      destruct (H3 _ Hi) as (l' & Hl' & Hb). rewrite Hl in Hl'. injection Hl' as <-.
      rewrite !elem_of_cons, Hb. split; [|tauto]. intros [->|[? ?]]; [|tauto]. split; [by left|done].
    + destruct (H3 i Hi) as (l' & Hl' & Hb). exists l'. cbn [buckets set_items].
      rewrite lookup_insert_ne by (intros E; apply bucket_inj in E; done). split; [done|]. intros y. rewrite Hb, elem_of_cons.
      split; [tauto|]. intros [[->|?] E]; [|tauto]. destruct Hne. symmetry. exact E.
  - intros y [->|Hy]%elem_of_cons; [done|by apply H4].
  - intros y z [->|Hy]%elem_of_cons [->|Hz]%elem_of_cons E; [done| | |by apply H5].
    + rewrite (cb_sym CB), Hno in E by done. done.
    + rewrite Hno in E by done. done.
  - by apply NoDup_cons.
  - cbn. rewrite s32_small by lia. lia.
  - done.
Qed.

(** The two results of an insertion: the key is in use, or the node is added. The lists that are
    not buckets of the table stay as they are. *)
Definition inserted t m F (ns : list Z) (x : Z) (run : outcome (Z * option hashtable * @hmem A)) : Prop :=
  (∃ y, y ∈ ns ∧ key_equals (get_key y) (get_key x) = true) ∧ run = Ok (- EEXIST, Some t, m) ∨
  (∀ y, y ∈ ns → key_equals (get_key y) (get_key x) = false) ∧
    ∃ t' m' F', run = Ok (0, Some t', m') ∧ ht_rep t' m' F' (x :: ns) ∧
      ∀ h, (∀ i, 0 ≤ i < ht_size t → h ≠ bucket (buckets t) i) → F' !! h = F !! h.

Lemma insert_into_spec t m F ns x :
  ht_rep t m F ns → x ≠ 0 → get_key x ≠ 0 → ~ in_family F x → is_Some (cells m !! x) → items t < 2 ^ 31 - 2 →
  inserted t m F ns x (insert_into get_key key_equals t (get_key x) (hash_func (get_key x)) x m).
Proof.
  intros HR Hx Hkx Hfresh Hs Hit. unfold inserted, insert_into. fold (idx_of t (get_key x)).
  destruct (search_spec t m F ns (get_key x) HR) as (r & -> & Hr). cbn [obind].
  destruct Hr as [(H1 & H2 & H3)|[-> Hno]].
  - left. split; [by exists r|]. by rewrite (proj2 (Z.eqb_neq r 0)).
  - right. split; [done|]. cbn [Z.eqb negb].
    destruct (hr_bucket _ _ _ _ HR _ (rep_idx t m F ns (get_key x) HR)) as (l & Hl & _).
    destruct (family_add _ _ _ _ x (hr_fam _ _ _ _ HR) Hl Hfresh Hs) as (c' & -> & HF' & _). cbn [obind].
    eexists _, _, _. split; [done|]. split; [by apply add_node_rep|]. intros h Hh. apply lookup_insert_ne.
    intros E. by apply (Hh _ (rep_idx t m F ns (get_key x) HR)).
Qed.

Lemma lookup_spec t m F ns key :
  ht_rep t m F ns → key ≠ 0 → ∃ r, hashtable_lookup hash_func get_key key_equals (Some t) key m = Ok r ∧
    (r ≠ 0 ∧ r ∈ ns ∧ key_equals (get_key r) key = true ∨ r = 0 ∧ ∀ y, y ∈ ns → key_equals (get_key y) key = false).
Proof.
  intros HR Hk. unfold hashtable_lookup. rewrite (proj2 (Z.eqb_neq key 0)) by done. by apply (search_spec t m F).
Qed.

(** An insertion that does not reach the threshold. *)
Lemma insert_below_spec t m F ns x :
  ht_rep t m F ns → x ≠ 0 → get_key x ≠ 0 → ~ in_family F x → is_Some (cells m !! x) →
  items t < ht_size t * max_load t / 100 →
  inserted t m F ns x (hashtable_insert hash_func get_key key_equals (Some t) x m).
Proof.
  intros HR Hx Hkx Hfresh Hs Hload. unfold hashtable_insert, hashtable_count.
  rewrite (proj2 (Z.eqb_neq x 0)), (proj2 (Z.eqb_neq (get_key x) 0)) by done.
  destruct (rep_threshold t m F ns HR) as [-> Hthr]. pose proof (hr_items _ _ _ _ HR) as Hit.
  rewrite (u32_small (items t)) by lia. rewrite (proj2 (Z.leb_gt _ _)) by done. cbn [obind].
  change (0 <? 0) with false. cbn iota. apply insert_into_spec; (done || lia).
Qed.

Lemma del_node_rep t m F n1 x n2 c' l1 l2 :
  ht_rep t m F (n1 ++ x :: n2) →
  F !! bucket (buckets t) (idx_of t (get_key x)) = Some (l1 ++ x :: l2) →
  x ∉ l1 ++ l2 →
  family c' (<[bucket (buckets t) (idx_of t (get_key x)) := l1 ++ l2]> F) →
  ht_rep (set_items (s32 (items t - 1)) t) (set_cells c' m)
    (<[bucket (buckets t) (idx_of t (get_key x)) := l1 ++ l2]> F) (n1 ++ n2).
Proof.
  intros [H1 H2 H3 H4 H5 H6 [H7 H7'] H8] Hl Hnx HF'.
  rewrite <-Permutation_middle in H6. apply NoDup_cons in H6 as [Hxn Hnd].
  assert (∀ y, y ∈ n1 ++ n2 ↔ y ∈ n1 ++ x :: n2 ∧ y ≠ x) as Hmem.
  { intros y. rewrite !elem_of_app, elem_of_cons. rewrite elem_of_app in Hxn. split; [|tauto].
    intros Hy. split; [tauto|]. intros ->. tauto. }
  split.
  - exact HF'.
  - done.
  - intros i Hi. destruct (H3 i Hi) as (l' & Hl' & Hb). cbn [buckets set_items].
    destruct (decide (i = idx_of t (get_key x))) as [->|Hne].
    + exists (l1 ++ l2). rewrite lookup_insert_eq. split; [done|]. intros y.
      rewrite Hl in Hl'. injection Hl' as <-. specialize (Hb y). rewrite Hmem.
      rewrite elem_of_app, elem_of_cons in Hb. rewrite elem_of_app in Hnx |- *.
      change (idx_of (set_items _ t)) with (idx_of t).
      destruct (decide (y = x)) as [->|]; tauto.
    + exists l'. rewrite lookup_insert_ne by (intros E; apply bucket_inj in E; done). split; [done|]. intros y.
      rewrite Hb, Hmem. change (idx_of (set_items _ t)) with (idx_of t).
      destruct (decide (y = x)) as [->|]; [|tauto]. split; [|tauto]. intros [_ E]. congruence.
  - intros y [Hy _]%Hmem. by apply H4.
  - intros y z [Hy _]%Hmem [Hz _]%Hmem. by apply H5.
  - done.
  - rewrite length_app in *. cbn [length] in *. cbn [items set_items]. rewrite s32_small by lia. lia.
  - done.
Qed.

(** The bucket of a node of the table, split at the node. *)
Lemma node_bucket t m F ns x :
  ht_rep t m F ns → x ∈ ns →
  ∃ l1 l2, F !! bucket (buckets t) (idx_of t (get_key x)) = Some (l1 ++ x :: l2).
Proof.
  intros HR Hx. destruct (hr_bucket _ _ _ _ HR _ (rep_idx t m F ns (get_key x) HR)) as (l & Hl & Hb).
  destruct (list_elem_of_split l x) as (l1 & l2 & ->); [by apply Hb|]. by exists l1, l2.
Qed.

Lemma unlink_spec t m F n1 x n2 :
  ht_rep t m F (n1 ++ x :: n2) →
  ∃ c' F', list_del_init x (cells m) = Ok c' ∧
    ht_rep (set_items (s32 (items t - 1)) t) (set_cells c' m) F' (n1 ++ n2) ∧ ~ in_family F' x ∧
    is_Some (c' !! x).
Proof.
  intros HR. destruct (node_bucket t m F _ x HR) as (l1 & l2 & Hl).
  { rewrite elem_of_app, elem_of_cons. tauto. }
  destruct (family_del_init _ _ _ _ _ _ (hr_fam _ _ _ _ HR) Hl) as (c' & E & HF' & Hout & Dx & _).
  destruct (family_nodup _ _ _ _ _ _ (hr_fam _ _ _ _ HR) Hl) as [_ Hnx].
  eexists _, _. split; [exact E|]. split; [by eapply del_node_rep|]. split; [done|].
  apply (dll_nodes c' x []); [done|by apply list_elem_of_singleton].
Qed.

Lemma remove_spec t m F n1 x n2 :
  ht_rep t m F (n1 ++ x :: n2) →
  ∃ t' m' F', hashtable_remove get_key (Some t) x m = Ok (0, Some t', m') ∧ ht_rep t' m' F' (n1 ++ n2) ∧
    ~ in_family F' x ∧ is_Some (cells m' !! x).
Proof.
  intros HR. assert (x ∈ n1 ++ x :: n2) as Hin by (rewrite elem_of_app, elem_of_cons; tauto).
  destruct (hr_key _ _ _ _ HR x Hin) as [Hx Hk]. unfold hashtable_remove.
  rewrite (proj2 (Z.eqb_neq x 0)), (proj2 (Z.eqb_neq (get_key x) 0)) by done.
  destruct (node_bucket t m F _ x HR Hin) as (l1 & l2 & Hl).
  rewrite (family_member _ _ _ _ _ _ (hr_fam _ _ _ _ HR) Hl).
  cbn [obind negb]. destruct (unlink_spec t m F n1 x n2 HR) as (c' & F' & -> & HR' & Hout & Hs). cbn [obind].
  eexists _, _, F'. split; [done|]. done.
Qed.

(** *** Expansion *)

(** The list ops only write fields of existing nodes. *)
Definition grows (c c' : store) : Prop := ∀ x, is_Some (c !! x) → is_Some (c' !! x).

Lemma set_next_grows p v c c' : set_next p v c = Ok c' → grows c c'.
Proof.
  intros H x Hx. unfold set_next in H. inv_ok. destruct (decide (p = x)) as [->|];
    [rewrite lookup_insert_eq; by eexists|by rewrite lookup_insert_ne].
Qed.

Lemma set_prev_grows p v c c' : set_prev p v c = Ok c' → grows c c'.
Proof.
  intros H x Hx. unfold set_prev in H. inv_ok. destruct (decide (p = x)) as [->|];
    [rewrite lookup_insert_eq; by eexists|by rewrite lookup_insert_ne].
Qed.

Lemma list_add_grows x p c c' : list_add x p c = Ok c' → grows c c'.
Proof.
  unfold list_add, __list_add. intros H. inv_ok. intros y Hy.
  repeat match goal with
  | E : set_next _ _ _ = Ok _ |- _ => apply set_next_grows in E
  | E : set_prev _ _ _ = Ok _ |- _ => apply set_prev_grows in E
  end. unfold grows in *. auto 10.
Qed.

Lemma list_del_grows x c c' : list_del x c = Ok c' → grows c c'.
Proof.
  unfold list_del, __list_del. intros H. inv_ok. intros y Hy.
  repeat match goal with
  | E : set_next _ _ _ = Ok _ |- _ => apply set_next_grows in E
  | E : set_prev _ _ _ = Ok _ |- _ => apply set_prev_grows in E
  end. unfold grows in *. auto 10.
Qed.

(** The list at [p] has the node [x]. *)
Definition holds F (p x : Z) : Prop := ∃ l, F !! p = Some l ∧ x ∈ l.

Lemma holds_insert F p l q x : holds (<[p := l]> F) q x ↔ (q = p ∧ x ∈ l) ∨ (q ≠ p ∧ holds F q x).
Proof.
  unfold holds. destruct (decide (q = p)) as [->|Hne].
  - rewrite lookup_insert_eq. split; [intros (l' & [= <-] & Hx); by left|].
    intros [[_ Hx]|[? _]]; [by exists l|done].
  - rewrite lookup_insert_ne by done. split; [intros H; by right|]. intros [[? _]|[_ H]]; done.
Qed.

Lemma holds_Some F p l x : F !! p = Some l → holds F p x ↔ x ∈ l.
Proof. intros Hp. unfold holds. rewrite Hp. split; [by intros (? & [= <-] & ?)|]. by exists l. Qed.

(** The new bucket of [x] from old bucket [i]. *)
Definition dest (size nb i x : Z) : Z :=
  bucket nb (if negb (Z.land (hash_func (get_key x)) size =? 0) then u32 (i + size) else i).

Lemma transfer_bucket_spec fuel i size nb head l c F n :
  family c F → F !! head = Some l → (length l ≤ fuel)%nat →
  (∀ x, x ∈ l → is_Some (F !! dest size nb i x) ∧ dest size nb i x ≠ head) →
  get_next (default head (hd_error l)) c = Ok n →
  ∃ c' F', transfer_bucket hash_func get_key fuel i (default head (hd_error l)) n head size nb c = Ok c' ∧
    family c' F' ∧ grows c c' ∧ (∀ p, is_Some (F' !! p) ↔ is_Some (F !! p)) ∧
    (∀ p x, holds F' p x ↔ (p ≠ head ∧ holds F p x) ∨ (x ∈ l ∧ dest size nb i x = p)).
Proof.
  revert l c F n. induction fuel as [|fuel IH]; intros l c F n HF Hl Hf Hd Hn;
    destruct l as [|x l]; cbn [length] in Hf; try lia.
  1,2: exists c, F; simpl; rewrite Z.eqb_refl; split; [done|]; split; [done|]; split; [by intros y|];
    split; [done|]; intros p y; rewrite elem_of_nil;
    destruct (decide (p = head)) as [->|]; [|tauto]; rewrite (holds_Some F head [] y Hl), elem_of_nil; tauto.
  change (default head (hd_error (x :: l))) with x in *. cbn [transfer_bucket].
  destruct (family_nodup c F head [] x l HF Hl) as [Hxh Hxl].
  rewrite (proj2 (Z.eqb_neq x head)) by done.
  destruct (Hd x) as [[ld Hld] Hdh]; [by apply elem_of_cons; left|].
  fold (dest size nb i x).
  destruct (family_del c F head [] x l HF Hl) as (c1 & E1 & HF1 & Hout & Hs1 & _). rewrite E1. cbn [obind].
  destruct (family_add c1 _ (dest size nb i x) ld x HF1) as (c2 & E2 & HF2 & _);
    [by rewrite lookup_insert_ne|done|done|]. rewrite E2. cbn [obind]. cbn [app] in *.
  set (F2 := <[dest size nb i x := x :: ld]> (<[head := l]> F)) in *.
  assert (F2 !! head = Some l) as Hh2 by (unfold F2; rewrite lookup_insert_ne, lookup_insert_eq; done).
  assert (n = default head (hd_error l)) as ->.
  { destruct (fam_dll _ _ HF _ _ Hl) as [_ Hlk]. apply (linked_app _ [head] x) in Hlk as [_ Hlk].
    assert (get_next x c = Ok (default head (hd_error l))) as E; [|congruence].
    apply get_next_ok. unfold nx. destruct l; apply Hlk. }
  assert (∃ n', get_next (default head (hd_error l)) c2 = Ok n') as [n' Hn'].
  { destruct (dll_nodes c2 head l (default head (hd_error l)) (fam_dll _ _ HF2 _ _ Hh2)) as [v Hv].
    - destruct l; [by apply elem_of_cons; left|]. apply elem_of_cons. right. by apply elem_of_cons; left.
    - exists (next v). unfold get_next. by rewrite Hv. }
  rewrite Hn'. cbn [obind].
  assert (∀ p, is_Some (F2 !! p) ↔ is_Some (F !! p)) as Hdom2.
  { intros p. unfold F2. destruct (decide (p = dest size nb i x)) as [->|Hp1]; [rewrite lookup_insert_eq, Hld; by split|].
    rewrite lookup_insert_ne by done. destruct (decide (p = head)) as [->|Hp2]; [rewrite lookup_insert_eq, Hl; by split|].
    by rewrite lookup_insert_ne. }
  destruct (IH l c2 F2 n' HF2 Hh2) as (c' & F' & E' & HF' & Hg & Hdom & Hh); [lia| |done|].
  { intros y Hy. destruct (Hd y) as [H1 H2]; [by apply elem_of_cons; right|]. split; [by apply Hdom2|done]. }
  exists c', F'. split; [exact E'|]. split; [done|].
  split; [intros y Hy; apply Hg, (list_add_grows _ _ _ _ E2), (list_del_grows _ _ _ E1), Hy|].
  split; [intros p; by rewrite Hdom|].
  intros p y. rewrite Hh. unfold F2. rewrite holds_insert, holds_insert, !elem_of_cons.
  pose proof (holds_Some F (dest size nb i x) ld y Hld) as Hhd.
  destruct (decide (p = dest size nb i x)) as [->|Hp1].
  - destruct (decide (y = x)) as [->|]; tauto.
  - split; [|]; [intros [[? [[? _]|[? [[? _]|[? ?]]]]]|[? ?]]; try tauto|].
    intros [[? ?]|[[->|?] E]]; [tauto| |tauto]. by destruct Hp1.
Qed.

Lemma transfer_loop_spec count i old size nb c F :
  family c F → 0 ≤ i →
  (∀ j, i ≤ j < i + Z.of_nat count → is_Some (F !! bucket old j) ∧
     ∀ x, is_Some (F !! dest size nb j x) ∧ ∀ j', i ≤ j' < i + Z.of_nat count → dest size nb j x ≠ bucket old j') →
  ∃ c' F', transfer_loop hash_func get_key count i old size nb c = Ok c' ∧ family c' F' ∧ grows c c' ∧
    (∀ p, is_Some (F' !! p) ↔ is_Some (F !! p)) ∧
    (∀ p x, holds F' p x ↔
       (holds F p x ∧ ∀ j, i ≤ j < i + Z.of_nat count → p ≠ bucket old j) ∨
       ∃ j, i ≤ j < i + Z.of_nat count ∧ holds F (bucket old j) x ∧ dest size nb j x = p).
Proof.
  revert i c F. induction count as [|count IH]; intros i c F HF Hi Hd; cbn [transfer_loop].
  { exists c, F. split; [done|]. split; [done|]. split; [by intros y|]. split; [done|]. intros p x. split.
    - intros H. left. split; [done|]. lia.
    - intros [[H _]|(j & Hj & _)]; [done|lia]. }
  destruct (Hd i ltac:(lia)) as [[l Hl] Hdi]. pose proof (fam_dll _ _ HF _ _ Hl) as D.
  rewrite (get_next_ok _ _ _ (dll_first _ _ _ D)). cbn [obind].
  destruct (dll_nodes c (bucket old i) l (default (bucket old i) (hd_error l)) D) as [v Hv].
  { destruct l; [by apply elem_of_cons; left|]. apply elem_of_cons. right. by apply elem_of_cons; left. }
  assert (get_next (default (bucket old i) (hd_error l)) c = Ok (next v)) as En by (unfold get_next; by rewrite Hv).
  rewrite En. cbn [obind].
  destruct (transfer_bucket_spec (base.size c) i size nb (bucket old i) l c F (next v) HF Hl)
    as (c1 & F1 & E1 & HF1 & Hg1 & Hdom1 & Hh1); [by eapply dll_length| |done|].
  { intros x _. destruct (Hdi x) as [H1 H2]. split; [done|]. apply H2. lia. }
  rewrite E1. cbn [obind].
  destruct (IH (i + 1) c1 F1 HF1) as (c' & F' & E' & HF' & Hg' & Hdom' & Hh'); [lia| |].
  { intros j Hj. destruct (Hd j ltac:(lia)) as [H1 H2]. split; [by apply Hdom1|]. intros x.
    destruct (H2 x) as [H3 H4]. split; [by apply Hdom1|]. intros j' Hj'. apply H4. lia. }
  exists c', F'. split; [exact E'|]. split; [done|]. split; [intros y Hy; auto|].
  split; [intros p; by rewrite Hdom'|].
  assert (∀ j x, i + 1 ≤ j < i + 1 + Z.of_nat count → holds F1 (bucket old j) x ↔ holds F (bucket old j) x) as Hold.
  { intros j x Hj. rewrite Hh1. split.
    - intros [[_ H]|[_ H]]; [done|]. destruct (Hdi x) as [_ H2]. by destruct (H2 j ltac:(lia)).
    - intros H. left. split; [|done]. intros E. apply bucket_inj in E. lia. }
  intros p x. rewrite Hh', Hh1. pose proof (holds_Some F (bucket old i) l x Hl) as Hhi. split.
  - intros [[[[H1 H2]|[H1 H2]] H3]|(j & Hj & H1 & H2)].
    + left. split; [done|]. intros j Hj. destruct (Z.eq_dec j i) as [->|]; [done|apply H3; lia].
    + right. exists i. split; [lia|]. split; [by apply Hhi|done].
    + right. exists j. split; [lia|]. split; [by apply Hold|done].
  - intros [[H1 H2]|(j & Hj & H1 & H2)].
    + left. split; [left; split; [apply H2; lia|done]|]. intros j Hj. apply H2. lia.
    + destruct (Z.eq_dec j i) as [->|Hne].
      * left. split; [right; split; [by apply Hhi|done]|]. intros j Hj' E. rewrite <-H2 in E.
        destruct (Hdi x) as [_ H3]. by destruct (H3 j ltac:(lia)).
      * right. exists j. split; [lia|]. split; [apply Hold; [lia|done]|done].
Qed.

(** [x] lies in a block in use, other than the one at [b]. *)
Definition placed m (b x : Z) : Prop := ∃ q n, q ≠ b ∧ km_block (heap m) q n ∧ q ≤ x < q + n.

(** The bucket array is a block; every other address of the lists is in some other block. *)
Record ht_mem t m F : Prop := {
  hm_block : km_block (heap m) (buckets t) (ht_size t * BUCKET_SIZE);
  hm_other x : in_family F x →
    (∃ i, 0 ≤ i < ht_size t ∧ x = bucket (buckets t) i) ∨ placed m (buckets t) x;
}.

Lemma foldr_cells_in n base (c : store) i :
  0 ≤ i < n → is_Some (foldr (λ i (c : store), <[bucket base i := ListHead 0 0]> c) c (seqZ 0 n) !! bucket base i).
Proof.
  intros Hi. assert (i ∈ seqZ 0 n) as Hin by (apply elem_of_seqZ; lia). clear Hi. revert Hin.
  generalize (seqZ 0 n). intros l. induction l as [|j l IH]; [by rewrite elem_of_nil|].
  intros [->|Hl]%elem_of_cons; cbn [foldr]; [rewrite lookup_insert_eq; by eexists|].
  destruct (decide (bucket base j = bucket base i)) as [->|]; [rewrite lookup_insert_eq; by eexists|].
  rewrite lookup_insert_ne by done. auto.
Qed.

Lemma foldr_cells_out {X} (f : Z → gmap Z X → gmap Z X) n base (c : gmap Z X) :
  (∀ j (c : gmap Z X) x, x ≠ bucket base j → f j c !! x = c !! x) →
  ∀ x, (∀ j, 0 ≤ j < n → x ≠ bucket base j) → foldr f c (seqZ 0 n) !! x = c !! x.
Proof.
  intros Hf x Hx. assert (∀ j, j ∈ seqZ 0 n → x ≠ bucket base j) as Hx'.
  { intros j Hj. apply Hx. apply elem_of_seqZ in Hj. lia. }
  clear Hx. revert Hx'. generalize (seqZ 0 n). intros l. induction l as [|j l IH]; intros Hx; [done|].
  cbn [foldr]. rewrite Hf by (apply Hx; by apply elem_of_cons; left). apply IH.
  intros k Hk. apply Hx. apply elem_of_cons. by right.
Qed.

Lemma same_outside_buckets n base (c c' : store) :
  (∀ x, (∀ j, 0 ≤ j < n → x ≠ bucket base j) → c' !! x = c !! x) →
  same_outside (bucket base <$> seqZ 0 n) c c'.
Proof.
  intros H x Hx. apply H. intros j Hj ->. apply Hx, list_elem_of_fmap. exists j. split; [done|]. apply elem_of_seqZ. lia.
Qed.

Lemma in_bucket_block base n j : 0 ≤ j < n → base ≤ bucket base j < base + n * BUCKET_SIZE.
Proof. unfold bucket, BUCKET_SIZE. lia. Qed.

(** Every address of the lists is in some block. *)
Definition all_placed m F : Prop :=
  ∀ x, in_family F x → ∃ q n, km_block (heap m) q n ∧ q ≤ x < q + n.

Lemma ht_mem_placed t m F : ht_mem t m F → all_placed m F.
Proof.
  intros HM x Hx. destruct (hm_other _ _ _ HM x Hx) as [(i & Hi & ->)|(q & n & _ & Hq)]; [|by exists q, n].
  exists (buckets t), (ht_size t * BUCKET_SIZE). split; [apply HM|by apply in_bucket_block].
Qed.

Lemma alloc_buckets_spec m F n :
  family (cells m) F → all_placed m F → 0 < n → fst (kmalloc (n * BUCKET_SIZE) (heap m)) ≠ 0 →
  ∃ p m', alloc_buckets n m = (p, m') ∧ p ≠ 0 ∧ family (cells m') F ∧ statics m' = statics m ∧
    km_block (heap m') p (n * BUCKET_SIZE) ∧
    (∀ q k, km_block (heap m) q k → km_block (heap m') q k ∧ q ≠ p ∧
       ∀ j, 0 ≤ j < n → ~ (q ≤ bucket p j < q + k)) ∧
    grows (cells m) (cells m') ∧
    ∀ j, 0 ≤ j < n → ~ in_family F (bucket p j) ∧ is_Some (cells m' !! bucket p j).
Proof.
  intros HF HM Hn Hp. unfold alloc_buckets. destruct (kmalloc (n * BUCKET_SIZE) (heap m)) as [p a] eqn:E. cbn in Hp.
  destruct (kmalloc_block (n * BUCKET_SIZE) (heap m) p a ltac:(unfold BUCKET_SIZE; lia) E) as [Hmono Hnew]. destruct (Hnew Hp) as [Hb Hdis].
  rewrite (proj2 (Z.eqb_neq p 0)) by done. exists p. eexists. split; [done|]. cbn [cells statics heap].
  assert (∀ q k, km_block (heap m) q k → q ≠ p) as Hqp.
  { intros q k Hq. pose proof (km_block_pos _ _ _ Hq). destruct (Hdis q k Hq); unfold BUCKET_SIZE in *; lia. }
  assert (∀ j, 0 ≤ j < n → ~ in_family F (bucket p j)) as Hout.
  { intros j Hj Hin. pose proof (in_bucket_block p n j Hj) as Hr.
    destruct (HM _ Hin) as (q & k & Hq & Hx). destruct (Hdis q k Hq); lia. }
  split; [done|].
  split; [|split; [done|split; [done|split; [|split]]]].
  - apply (family_frame (bucket p <$> seqZ 0 n) (cells m)); [done| |].
    + apply same_outside_buckets. apply foldr_cells_out. intros j c x Hx. by apply lookup_insert_ne.
    + intros x Hx. apply list_elem_of_fmap in Hx as (j & -> & Hj). apply Hout. apply elem_of_seqZ in Hj. lia.
  - intros q k Hq. split; [by apply Hmono|]. split; [by eapply Hqp|]. intros j Hj Hr.
    pose proof (in_bucket_block p n j Hj). destruct (Hdis q k Hq); lia.
  - intros x Hx. generalize (seqZ 0 n). intros l. induction l as [|j l IH]; [done|]. cbn [foldr].
    destruct (decide (bucket p j = x)) as [->|]; [rewrite lookup_insert_eq; by eexists|by rewrite lookup_insert_ne].
  - intros j Hj. split; [by apply Hout|by apply foldr_cells_in].
Qed.

Lemma bucket_case n base p :
  (∃ j, 0 ≤ j < n ∧ p = bucket base j) ∨ (∀ j, 0 ≤ j < n → p ≠ bucket base j).
Proof.
  destruct (decide (p ∈ bucket base <$> seqZ 0 n)) as [Hin|Hno].
  - left. apply list_elem_of_fmap in Hin as (j & -> & Hj). apply elem_of_seqZ in Hj. exists j. split; [lia|done].
  - right. intros j Hj ->. apply Hno, list_elem_of_fmap. exists j. split; [done|]. apply elem_of_seqZ. lia.
Qed.

Lemma add_heads_holds n base F p x : holds (add_heads n base 0 F) p x → holds F p x.
Proof.
  intros (l & Hl & Hx). destruct (bucket_case (Z.of_nat n) base p) as [(j & Hj & ->)|Hno].
  - rewrite add_heads_in in Hl by lia. injection Hl as <-. by apply elem_of_nil in Hx.
  - exists l. split; [|done]. by rewrite add_heads_other in Hl.
Qed.

Lemma add_heads_dom n base F p :
  is_Some (add_heads n base 0 F !! p) ↔ is_Some (F !! p) ∨ ∃ j, 0 ≤ j < Z.of_nat n ∧ p = bucket base j.
Proof.
  destruct (bucket_case (Z.of_nat n) base p) as [(j & Hj & ->)|Hno].
  - rewrite add_heads_in by lia. split; [|by eexists]. intros _. right. by exists j.
  - rewrite add_heads_other by done. split; [by left|]. intros [H|(j & Hj & ->)]; [done|]. by destruct (Hno j).
Qed.

(** The first batch of an expansion: [cnt] buckets are empty and their nodes are in
    the new array [p]. *)
Record batch t m F (ns : list Z) (cnt p : Z) (m1 : @hmem A) (c' : store) F' : Prop := {
  ba_start : start_expand t m = Ok (None, set_expanding 1 t, m1);
  ba_statics : statics m1 = Expansion p (2 * ht_size t) 0 1;
  ba_sep i j : 0 ≤ i < 2 * ht_size t → 0 ≤ j < ht_size t → bucket p i ≠ bucket (buckets t) j;
  ba_new : p ≠ buckets t ∧ km_block (heap m1) p (2 * ht_size t * BUCKET_SIZE);
  ba_blocks q k : km_block (heap m) q k → km_block (heap m1) q k ∧ q ≠ p ∧
    ∀ j, 0 ≤ j < 2 * ht_size t → ~ (q ≤ bucket p j < q + k);
  ba_run : transfer_loop hash_func get_key (Z.to_nat cnt) 0 (buckets t) (ht_size t) p (cells m1) = Ok c';
  ba_fam : family c' F';
  ba_grows : grows (cells m) c';
  ba_old j : 0 ≤ j < cnt → F' !! bucket (buckets t) j = Some [];
  ba_in i : 0 ≤ i < 2 * ht_size t → is_Some (F' !! bucket p i) ∧ ∀ x, holds F' (bucket p i) x ↔
    x ∈ ns ∧ idx_of t (get_key x) < cnt ∧ dest (ht_size t) p (idx_of t (get_key x)) x = bucket p i;
  ba_addr x : in_family F' x → in_family F x ∨ ∃ i, 0 ≤ i < 2 * ht_size t ∧ x = bucket p i;
}.

Lemma batch_spec t m F ns cnt :
  ht_rep t m F ns → ht_mem t m F → expanding t = 0 → expansion_in_progress (statics m) = 0 →
  fst (kmalloc (2 * ht_size t * BUCKET_SIZE) (heap m)) ≠ 0 → 0 ≤ cnt ≤ ht_size t →
  ∃ p m1 c' F', batch t m F ns cnt p m1 c' F'.
Proof.
  intros HR HM Hex Hpr Hkm Hc. destruct (hr_size _ _ _ _ HR) as (k & Hk & Ek).
  assert (0 < ht_size t ≤ 2 ^ 25) as Hs by (rewrite Ek; split; [lia|apply Z.pow_le_mono_r; lia]).
  destruct (alloc_buckets_spec m F (2 * ht_size t) (hr_fam _ _ _ _ HR) (ht_mem_placed _ _ _ HM) ltac:(lia) Hkm)
    as (p & m0 & E0 & Hp & HF0 & Hst0 & Hb0 & Hbl & Hg0 & Hnew).
  destruct (init_buckets_spec (Z.to_nat (2 * ht_size t)) p 0 (cells m0) F HF0) as (c1 & E1 & HF1 & Hg1).
  { intros j Hj. apply Hnew. lia. }
  set (F1 := add_heads (Z.to_nat (2 * ht_size t)) p 0 F) in *.
  set (m1 := set_statics (Expansion p (2 * ht_size t) 0 1) (set_cells c1 m0)).
  assert (∀ i j, 0 ≤ i < 2 * ht_size t → 0 ≤ j < ht_size t → bucket p i ≠ bucket (buckets t) j) as Hsep.
  { intros i j Hi Hj E. destruct (Hnew i Hi) as [Hno _]. apply Hno. rewrite E.
    destruct (hr_bucket _ _ _ _ HR j Hj) as (l & Hl & _). exists (bucket (buckets t) j), l. split; [done|].
    by apply elem_of_cons; left. }
  assert (∀ j, 0 ≤ j < ht_size t → F1 !! bucket (buckets t) j = F !! bucket (buckets t) j) as HF1old.
  { intros j Hj. apply add_heads_other. intros i Hi E. eapply Hsep; [| |symmetry; exact E]; lia. }
  assert (∀ j x, 0 ≤ j < ht_size t → ∃ i, 0 ≤ i < 2 * ht_size t ∧ dest (ht_size t) p j x = bucket p i) as Hdest.
  { intros j x Hj. unfold dest. destruct (negb _); eexists; (split; [|done]); rewrite ?u32_small; lia. }
  destruct (transfer_loop_spec (Z.to_nat cnt) 0 (buckets t) (ht_size t) p c1 F1 HF1 ltac:(lia))
    as (c' & F' & E' & HF' & Hg' & Hdom' & Hh').
  { intros j Hj. split; [rewrite HF1old by lia; destruct (hr_bucket _ _ _ _ HR j) as (l & -> & _); [lia|by eexists]|].
    intros x. destruct (Hdest j x ltac:(lia)) as (i & Hi & ->). split.
    - unfold F1. rewrite add_heads_in by lia. by eexists.
    - intros j' Hj'. apply Hsep; lia. }
  rewrite Z2Nat.id in Hh' by lia. rewrite Z.add_0_l in Hh'.
  assert (∀ j x, 0 ≤ j < ht_size t → holds F1 (bucket (buckets t) j) x ↔ x ∈ ns ∧ idx_of t (get_key x) = j) as Hold.
  { intros j x Hj. destruct (hr_bucket _ _ _ _ HR j Hj) as (l & Hl & Hb).
    rewrite (holds_Some F1 _ l) by (by rewrite HF1old). apply Hb. }
  exists p, m1, c', F'. split.
  - unfold start_expand. rewrite Hpr, Hex. cbn [Z.eqb negb]. change (ht_size (set_expanding 1 t)) with (ht_size t).
    replace (u32 (ht_size t * 2)) with (2 * ht_size t) by (rewrite u32_small; lia). rewrite E0.
    rewrite (proj2 (Z.eqb_neq p 0)) by done. change (cells (set_statics _ m0)) with (cells m0). rewrite E1. done.
  - done.
  - exact Hsep.
  - split; [|done]. intros ->. by destruct (Hbl _ _ (hm_block _ _ _ HM)) as (_ & ? & _).
  - intros q n Hq. by apply Hbl.
  - exact E'.
  - done.
  - intros x Hx. auto.
  - intros j Hj. destruct (proj2 (Hdom' (bucket (buckets t) j))) as [l Hl].
    { rewrite HF1old by lia. destruct (hr_bucket _ _ _ _ HR j) as (l & -> & _); [lia|by eexists]. }
    rewrite Hl. f_equal. destruct l as [|x l]; [done|]. exfalso.
    assert (holds F' (bucket (buckets t) j) x) as Hx by (exists (x :: l); split; [done|by apply elem_of_cons; left]).
    apply Hh' in Hx as [[_ Hx]|(j' & Hj' & _ & Hx)]; [by apply (Hx j)|].
    destruct (Hdest j' x ltac:(lia)) as (i & Hi & E). rewrite E in Hx. eapply Hsep; [| |exact Hx]; lia.
  - intros i Hi. split; [apply Hdom'; unfold F1; rewrite add_heads_in by lia; by eexists|]. intros x. rewrite Hh'. split.
    + intros [[(l & Hl & Hx) _]|(j & Hj & Hx & E)].
      * unfold F1 in Hl. rewrite add_heads_in in Hl by lia. injection Hl as <-. by apply elem_of_nil in Hx.
      * apply Hold in Hx as [Hx <-]; [|lia]. split; [done|]. split; [lia|done].
    + intros (Hx & Hlt & E). right. exists (idx_of t (get_key x)). pose proof (rep_idx t m F ns (get_key x) HR).
      split; [lia|]. split; [by apply Hold|done].
  - assert (∀ q y, holds F1 q y → in_family F y) as Hh1.
    { intros q y Hy. apply add_heads_holds in Hy as (l & Hl & Hy). exists q, l. split; [done|]. apply elem_of_cons. by right. }
    intros x (q & l & Hq & Hx). apply elem_of_cons in Hx as [->|Hx].
    + destruct (proj1 (add_heads_dom _ p F q) (proj1 (Hdom' q) ltac:(by eexists))) as [[l' Hl']|(i & Hi & ->)].
      * left. exists q, l'. split; [done|]. by apply elem_of_cons; left.
      * right. exists i. split; [lia|done].
    + left. assert (holds F' q x) as Hh by (by exists l). apply Hh' in Hh as [[Hh _]|(j & _ & Hh & _)]; by eapply Hh1.
Qed.

(** The bit of the old size decides between the two new buckets. *)
Lemma mod_double h k : 0 ≤ k → h mod 2 ^ (k + 1) = h mod 2 ^ k + if negb (Z.land h (2 ^ k) =? 0) then 2 ^ k else 0.
Proof.
  intros Hk. rewrite Z.pow_add_r, Z.rem_mul_r by lia. change (2 ^ 1) with 2.
  rewrite <-Z.testbit_spec' by lia. rewrite <-Z.shiftl_1_l, land_pow2_eqb, negb_involutive by lia.
  rewrite Z.shiftl_1_l. destruct (Z.testbit h k); cbn [Z.b2z]; lia.
Qed.

Lemma foldr_delete_in {X} n base (c : gmap Z X) i :
  0 ≤ i < n → foldr (λ i (c : gmap Z X), delete (bucket base i) c) c (seqZ 0 n) !! bucket base i = None.
Proof.
  intros Hi. assert (i ∈ seqZ 0 n) as Hin by (apply elem_of_seqZ; lia). clear Hi. revert Hin.
  generalize (seqZ 0 n). intros l. induction l as [|j l IH]; [by rewrite elem_of_nil|].
  intros [->|Hl]%elem_of_cons; cbn [foldr]; [apply lookup_delete_eq|].
  destruct (decide (bucket base j = bucket base i)) as [->|]; [apply lookup_delete_eq|].
  rewrite lookup_delete_ne by done. auto.
Qed.

(** The lists without the heads of an array. *)
Definition del_heads (n base : Z) F : heads := foldr (λ i F, delete (bucket base i) F) F (seqZ 0 n).

Lemma del_heads_sub n base F : del_heads n base F ⊆ F.
Proof.
  unfold del_heads. generalize (seqZ 0 n). intros l. induction l as [|j l IH]; [done|]. cbn [foldr].
  etransitivity; [apply delete_subseteq|done].
Qed.

(** Freeing an array of empty buckets. *)
Lemma free_buckets_fam n base m F :
  family (cells m) F → (∀ j, 0 ≤ j < n → F !! bucket base j = Some []) →
  family (cells (free_buckets base n m)) (del_heads n base F) ∧
  ∀ j, 0 ≤ j < n → ~ in_family (del_heads n base F) (bucket base j).
Proof.
  intros HF Hold.
  assert (∀ j, 0 ≤ j < n → ~ in_family (del_heads n base F) (bucket base j)) as Hout.
  { intros j Hj (q & l & Hq & Hin). pose proof (lookup_weaken _ _ _ _ Hq (del_heads_sub n base F)) as Hq'.
    assert (q = bucket base j) as ->.
    { apply (fam_disj _ _ HF q l (bucket base j) [] (bucket base j)); [done|by apply Hold|done|by apply list_elem_of_singleton]. }
    unfold del_heads in Hq. by rewrite foldr_delete_in in Hq. }
  split; [|done]. apply (family_frame (bucket base <$> seqZ 0 n) (cells m)).
  - by apply (family_sub _ F); [apply del_heads_sub|].
  - apply same_outside_buckets. apply foldr_cells_out. intros j c x Hx. by apply lookup_delete_ne.
  - intros x Hx. apply list_elem_of_fmap in Hx as (j & -> & Hj). apply Hout. apply elem_of_seqZ in Hj. lia.
Qed.

Lemma new_idx t t' k key : 4 ≤ k ≤ 25 → ht_size t = 2 ^ k → ht_size t' = 2 * ht_size t →
  idx_of t' key = idx_of t key + if negb (Z.land (hash_func key) (ht_size t) =? 0) then ht_size t else 0.
Proof.
  intros Hk E E'. rewrite (idx_mod t k) by (done || lia).
  rewrite (idx_mod t' (k + 1)), mod_double, E; [done|lia|lia|]. rewrite E', E, Z.pow_add_r; lia.
Qed.

Lemma expand_all t m F ns p m1 c' F' :
  ht_rep t m F ns → ht_mem t m F → ht_size t ≤ 16 → batch t m F ns (ht_size t) p m1 c' F' →
  let t' := HT (2 * ht_size t) (items t) (max_load t) 0 p in
  let m' := set_statics (Expansion 0 0 0 0) (free_buckets (buckets t) (ht_size t) (set_cells c' m1)) in
  let F2 := del_heads (ht_size t) (buckets t) F' in
  ht_rep t' m' F2 ns ∧ ht_mem t' m' F2.
Proof.
  intros HR HM H16 B t' m' F2. destruct (hr_size _ _ _ _ HR) as (k & Hk & Ek).
  destruct (free_buckets_fam (ht_size t) (buckets t) (set_cells c' m1) F' (ba_fam _ _ _ _ _ _ _ _ _ B) (ba_old _ _ _ _ _ _ _ _ _ B))
    as [HF2 Hout]. fold F2 in HF2, Hout.
  assert (∀ i, 0 ≤ i < 2 * ht_size t → F2 !! bucket p i = F' !! bucket p i) as Hnew.
  { intros i Hi. unfold F2, del_heads.
    apply (foldr_cells_out (λ i (F : heads), delete (bucket (buckets t) i) F) _ (buckets t)).
    - intros j c x Hx. by apply lookup_delete_ne.
    - intros j Hj. by apply (ba_sep _ _ _ _ _ _ _ _ _ B). }
  pose proof HR as [H1 _ H3 H4 H5 H6 H7 H8]. split; [split|split].
  - exact HF2.
  - exists (k + 1). cbn [ht_size t']. split; [|rewrite Ek, Z.pow_add_r by lia; lia].
    assert (k < 5) by (apply (Z.pow_lt_mono_r_iff 2); lia). lia.
  - intros i Hi. destruct (ba_in _ _ _ _ _ _ _ _ _ B i Hi) as [[l Hl] Hb]. exists l. cbn [buckets t'].
    split; [by rewrite Hnew|]. intros x. rewrite <-(holds_Some F' (bucket p i) l x Hl), Hb.
    pose proof (rep_idx t m F ns (get_key x) HR) as Hx. rewrite (new_idx t t' k) by done. unfold dest.
    assert (2 ^ k ≤ 2 ^ 25) by (apply Z.pow_le_mono_r; lia).
    destruct (negb _); rewrite ?u32_small by lia; rewrite ?Z.add_0_r; split.
    + intros (? & _ & E). apply bucket_inj in E. done.
    + intros [? <-]. split; [done|]. split; [lia|done].
    + intros (? & _ & E). apply bucket_inj in E. done.
    + intros [? <-]. split; [done|]. split; [lia|done].
  - done.
  - done.
  - done.
  - done.
  - done.
  - destruct (ba_new _ _ _ _ _ _ _ _ _ B) as [Hp Hb]. cbn. by apply kfree_others.
  - intros x Hx. destruct (ba_addr _ _ _ _ _ _ _ _ _ B x) as [Hin|Hin]; [|right|by left].
    { destruct Hx as (q & l & Hq & Hx). exists q, l. split; [|done]. by apply (lookup_weaken _ _ _ _ Hq), del_heads_sub. }
    destruct (hm_other _ _ _ HM x Hin) as [(i & Hi & ->)|(q & n & Hq & Hqb & Hr)]; [by destruct (Hout i Hi)|].
    destruct (ba_blocks _ _ _ _ _ _ _ _ _ B q n Hqb) as (Hq1 & Hqp & _). exists q, n. split; [done|]. split; [|done].
    cbn. by apply kfree_others.
Qed.

(** The run of [hashtable_try_expand] at the threshold. *)
Lemma try_expand_run t m F ns :
  ht_rep t m F ns → ht_mem t m F → expanding t = 0 → expansion_in_progress (statics m) = 0 →
  fst (kmalloc (2 * ht_size t * BUCKET_SIZE) (heap m)) ≠ 0 → ht_size t * max_load t / 100 ≤ items t →
  ∃ p m1 c' F', batch t m F ns (Z.min 16 (ht_size t)) p m1 c' F' ∧
    hashtable_try_expand hash_func get_key t m =
      Ok (0, if ht_size t <=? 16 then HT (2 * ht_size t) (items t) (max_load t) 0 p else set_expanding 1 t,
          if ht_size t <=? 16
          then set_statics (Expansion 0 0 0 0) (free_buckets (buckets t) (ht_size t) (set_cells c' m1))
          else set_statics (Expansion p (2 * ht_size t) 16 1) (set_cells c' m1)).
Proof.
  intros HR HM Hex Hpr Hkm Hload. destruct (hr_size _ _ _ _ HR) as (k & Hk & Ek).
  assert (2 ^ 4 ≤ ht_size t ≤ 2 ^ 25) as Hs by (rewrite Ek; split; apply Z.pow_le_mono_r; lia).
  destruct (batch_spec t m F ns (Z.min 16 (ht_size t)) HR HM Hex Hpr Hkm ltac:(lia)) as (p & m1 & c' & F' & B).
  exists p, m1, c', F'. split; [done|]. destruct (rep_threshold t m F ns HR) as [Et _]. pose proof (hr_items _ _ _ _ HR) as Hit.
  unfold hashtable_try_expand. rewrite Et, (u32_small (items t)), (proj2 (Z.ltb_ge _ _)) by lia.
  rewrite (ba_start _ _ _ _ _ _ _ _ _ B). cbn [obind]. rewrite (ba_statics _ _ _ _ _ _ _ _ _ B).
  cbn [transfer_index new_buckets new_size expansion_in_progress ht_size buckets set_expanding].
  change (u32 (0 + 16)) with 16. rewrite Z.sub_0_r.
  assert ((if ht_size t <? 16 then ht_size t else 16) = Z.min 16 (ht_size t)) as -> by (destruct (Z.ltb_spec (ht_size t) 16); lia).
  rewrite (ba_run _ _ _ _ _ _ _ _ _ B). cbn [obind].
  destruct (Z.leb_spec (ht_size t) 16); [rewrite (proj2 (Z.leb_le (ht_size t) _)) by lia; done|].
  rewrite (proj2 (Z.leb_gt (ht_size t) _)) by lia. rewrite Z.min_l by lia. done.
Qed.

(** ** Properties *)

(** C20. A table below its load threshold implements a set of nodes with distinct
    keys: a lookup finds the node with an equal key if there is one and nothing
    otherwise; an insertion adds the node, or returns [-EEXIST] and changes nothing
    when an equal key is present; removal takes out exactly the node, by its address or
    by its key, and [-ENOENT] is returned for a key that is not there. *)
Theorem hashtable_ops_refine t m F ns :
  ht_rep t m F ns →
  (∀ key, key ≠ 0 → ∃ r, hashtable_lookup hash_func get_key key_equals (Some t) key m = Ok r ∧
     (r ≠ 0 ∧ r ∈ ns ∧ key_equals (get_key r) key = true ∨
      r = 0 ∧ ∀ y, y ∈ ns → key_equals (get_key y) key = false)) ∧
  (∀ x, x ≠ 0 → get_key x ≠ 0 → ~ in_family F x → is_Some (cells m !! x) →
     items t < ht_size t * max_load t / 100 →
     inserted t m F ns x (hashtable_insert hash_func get_key key_equals (Some t) x m)) ∧
  (∀ n1 x n2, ns = n1 ++ x :: n2 → ∃ t' m' F', hashtable_remove get_key (Some t) x m = Ok (0, Some t', m') ∧
     ht_rep t' m' F' (n1 ++ n2)) ∧
  (∀ key, key ≠ 0 →
     (∀ y, y ∈ ns → key_equals (get_key y) key = false) ∧
       hashtable_remove_by_key hash_func get_key key_equals (Some t) key m = Ok (- ENOENT, Some t, m) ∨
     ∃ n1 x n2 t' m' F', ns = n1 ++ x :: n2 ∧ key_equals (get_key x) key = true ∧
       hashtable_remove_by_key hash_func get_key key_equals (Some t) key m = Ok (0, Some t', m') ∧
       ht_rep t' m' F' (n1 ++ n2)).
Proof.
  intros HR. split; [|split; [|split]].
  - intros key Hk. by apply (lookup_spec t m F).
  - intros x Hx Hkx Hfresh Hs Hload. by apply insert_below_spec.
  - intros n1 x n2 ->. destruct (remove_spec t m F n1 x n2 HR) as (t' & m' & F' & E & HR' & _). by exists t', m', F'.
  - intros key Hk. unfold hashtable_remove_by_key. rewrite (proj2 (Z.eqb_neq key 0)) by done.
    fold (idx_of t key). destruct (search_spec t m F ns key HR) as (r & -> & Hr). cbn [obind].
    destruct Hr as [(H1 & H2 & H3)|[-> Hno]]; [right|by left].
    rewrite (proj2 (Z.eqb_neq r 0)) by done. cbn [negb].
    apply list_elem_of_split in H2 as (n1 & n2 & ->).
    destruct (unlink_spec t m F n1 r n2 HR) as (c' & F' & -> & HR' & _). cbn [obind].
    eexists n1, r, n2, _, _, F'. split; [done|]. split; [done|]. split; [done|exact HR'].
Qed.

(** At the threshold of a table of up to 16 buckets, with memory for the new array,
    an insertion doubles the table first: without computing the new positions from
    scratch, every node ends up in the bucket its full hash selects in the new table, so
    the table holds the same nodes, and then the insertion proceeds as usual. *)
Theorem hashtable_insert_expands t m F ns x :
  ht_rep t m F ns → ht_mem t m F → expanding t = 0 → expansion_in_progress (statics m) = 0 →
  fst (kmalloc (2 * ht_size t * BUCKET_SIZE) (heap m)) ≠ 0 →
  ht_size t * max_load t / 100 ≤ items t < 2 ^ 31 - 2 → ht_size t ≤ 16 →
  x ≠ 0 → get_key x ≠ 0 → ~ in_family F x → is_Some (cells m !! x) → placed m (buckets t) x →
  ∃ t1 m1 F1, ht_size t1 = 2 * ht_size t ∧ ht_rep t1 m1 F1 ns ∧ ht_mem t1 m1 F1 ∧ expanding t1 = 0 ∧
    expansion_in_progress (statics m1) = 0 ∧
    inserted t1 m1 F1 ns x (hashtable_insert hash_func get_key key_equals (Some t) x m).
Proof.
  intros HR HM Hex Hpr Hkm Hload H16 Hx Hkx Hfresh Hs Hpl. pose proof (hr_items _ _ _ _ HR) as Hit.
  destruct (try_expand_run t m F ns HR HM Hex Hpr Hkm ltac:(lia)) as (p & m1 & c' & F' & B & E).
  rewrite Z.min_r in B by lia. rewrite (proj2 (Z.leb_le (ht_size t) 16)) in E by done.
  destruct (expand_all t m F ns p m1 c' F' HR HM H16 B) as [HR1 HM1].
  eexists _, _, _. split; [|split; [exact HR1|split; [exact HM1|split; [|split]]]]; [done..|].
  unfold hashtable_insert, hashtable_count.
  rewrite (proj2 (Z.eqb_neq x 0)), (proj2 (Z.eqb_neq (get_key x) 0)) by done.
  destruct (rep_threshold t m F ns HR) as [-> _]. rewrite (u32_small (items t)) by lia.
  rewrite (proj2 (Z.leb_le _ _)), E by lia. cbn [obind]. change (0 <? 0) with false. cbn iota.
  apply insert_into_spec; [exact HR1|done|done| | |cbn; lia].
  - intros (q & l & Hq & Hin). destruct (ba_addr _ _ _ _ _ _ _ _ _ B x) as [Hi|(i & Hi & ->)]; [|done|].
    + exists q, l. split; [|done]. by apply (lookup_weaken _ _ _ _ Hq), del_heads_sub.
    + destruct Hpl as (q' & n & _ & Hb & Hr). destruct (ba_blocks _ _ _ _ _ _ _ _ _ B q' n Hb) as (_ & _ & Hfar).
      by apply (Hfar i).
  - cbn. rewrite foldr_cells_out with (base := buckets t).
    + by apply (ba_grows _ _ _ _ _ _ _ _ _ B).
    + intros j c y Hy. by apply lookup_delete_ne.
    + intros j Hj ->. apply Hfresh. destruct (hr_bucket _ _ _ _ HR j Hj) as (l & Hl & _).
      exists (bucket (buckets t) j), l. split; [done|]. by apply elem_of_cons; left.
Qed.

(** The expansion of a table of more than 16 buckets proceeds in batches, and
    between two batches the table still searches the old array: after the first batch a
    lookup of the key of any node from the first 16 buckets finds nothing. *)
Theorem hashtable_expand_hides t m F ns x :
  ht_rep t m F ns → ht_mem t m F → expanding t = 0 → expansion_in_progress (statics m) = 0 →
  fst (kmalloc (2 * ht_size t * BUCKET_SIZE) (heap m)) ≠ 0 →
  ht_size t * max_load t / 100 ≤ items t → 16 < ht_size t →
  x ∈ ns → idx_of t (get_key x) < 16 →
  ∃ t' m', hashtable_try_expand hash_func get_key t m = Ok (0, t', m') ∧
    hashtable_lookup hash_func get_key key_equals (Some t') (get_key x) m' = Ok 0.
Proof.
  intros HR HM Hex Hpr Hkm Hload H16 Hx Hidx.
  destruct (try_expand_run t m F ns HR HM Hex Hpr Hkm Hload) as (p & m1 & c' & F' & B & E).
  rewrite Z.min_l in B by lia. rewrite (proj2 (Z.leb_gt (ht_size t) 16)) in E by done.
  eexists _, _. split; [exact E|]. unfold hashtable_lookup.
  destruct (hr_key _ _ _ _ HR x Hx) as [_ Hk]. rewrite (proj2 (Z.eqb_neq _ 0)) by done.
  change (ht_size (set_expanding 1 t)) with (ht_size t). fold (idx_of t (get_key x)).
  pose proof (rep_idx t m F ns (get_key x) HR).
  pose proof (fam_dll _ _ (ba_fam _ _ _ _ _ _ _ _ _ B) _ _ (ba_old _ _ _ _ _ _ _ _ _ B (idx_of t (get_key x)) ltac:(lia))) as D.
  unfold search_bucket. cbn [cells set_statics set_cells buckets set_expanding].
  rewrite (get_next_ok _ _ _ (dll_first _ _ _ D)). cbn [obind].
  destruct (size c'); simpl; by rewrite Z.eqb_refl.
Qed.

(** Setting up a table in fresh memory yields an empty table whose size is the
    least power of two that is at least 16 and at least the size asked for, with the
    load factor given, or 70 if it is not between 50 and 90. *)
Theorem hashtable_setup_empty t m F isize ml :
  family (cells m) F → all_placed m F → 0 ≤ isize ≤ 2 ^ 25 →
  fst (kmalloc (next_power_of_2 (Z.max 16 isize) * BUCKET_SIZE) (heap m)) ≠ 0 →
  ∃ t' m' F', hashtable_setup (Some t) isize ml m = Ok (0, Some t', m') ∧ ht_rep t' m' F' [] ∧ ht_mem t' m' F' ∧
    Z.max 16 isize ≤ ht_size t' < 2 * Z.max 16 isize ∧
    max_load t' = (if (50 <=? ml) && (ml <=? 90) then ml else 70) ∧ expanding t' = expanding t.
Proof.
  intros HF Hpl Hi Hkm. unfold hashtable_setup.
  assert ((if isize <? 16 then 16 else isize) = Z.max 16 isize) as -> by (destruct (Z.ltb_spec isize 16); lia).
  destruct (next_power_of_2_ok (Z.max 16 isize) ltac:(lia)) as (k & Hk & E2 & Hr). rewrite E2 in Hkm |- *.
  assert (4 ≤ k ≤ 25) as Hk4.
  { split; [apply (Z.pow_le_mono_r_iff 2); lia|]. assert (k < 26); [apply (Z.pow_lt_mono_r_iff 2); lia|lia]. }
  destruct (alloc_buckets_spec m F (2 ^ k) HF Hpl ltac:(lia) Hkm) as (p & m0 & -> & Hp & HF0 & Hst & Hb & Hbl & _ & Hnew).
  rewrite (proj2 (Z.eqb_neq p 0)) by done.
  destruct (init_buckets_spec (Z.to_nat (2 ^ k)) p 0 (cells m0) F HF0) as (c1 & -> & HF1 & _).
  { intros j Hj. apply Hnew. lia. }
  cbn [obind]. eexists _, _, _. split; [done|]. cbn [ht_size max_load expanding].
  split; [|split; [|split; [lia|split; [|done]]]].
  - split; cbn [ht_size buckets items max_load cells set_cells].
    + exact HF1.
    + by exists k.
    + intros i Hi'. exists []. rewrite add_heads_in by lia. split; [done|]. intros x. by rewrite !elem_of_nil; tauto.
    + by intros x ?%elem_of_nil.
    + by intros x y ?%elem_of_nil.
    + apply NoDup_nil_2.
    + split; [done|lia].
    + destruct (Z.ltb_spec ml 50), (Z.ltb_spec 90 ml); cbn [orb]; lia.
  - split; [done|]. cbn [ht_size buckets]. intros x (q & l & Hq & Hx). apply elem_of_cons in Hx as [->|Hx].
    + destruct (proj1 (add_heads_dom _ p F q) ltac:(by eexists)) as [[l' Hl']|(j & Hj & ->)]; [right|left; exists j; split; [lia|done]].
      destruct (Hpl q) as (b & n & Hbn & Hin); [exists q, l'; split; [done|by apply elem_of_cons; left]|].
      exists b, n. destruct (Hbl b n Hbn) as (? & ? & _). done.
    + right. destruct (add_heads_holds (Z.to_nat (2 ^ k)) p F q x) as (l' & Hl' & Hx'); [by exists l|].
      destruct (Hpl x) as (b & n & Hbn & Hin); [exists q, l'; split; [done|by apply elem_of_cons; right]|].
      exists b, n. destruct (Hbl b n Hbn) as (? & ? & _). done.
  - destruct (Z.ltb_spec ml 50), (Z.ltb_spec 90 ml), (Z.leb_spec 50 ml), (Z.leb_spec ml 90); cbn [orb andb]; (done || lia).
Qed.

End Spec.

(** A table depends on its callbacks only at the keys of its nodes. *)
Lemma ht_rep_ext {A} (hash_func hash_func' get_key : Z → Z) (key_equals key_equals' : Z → Z → bool) t (m : @hmem A) F ns :
  (∀ x, x ∈ ns → hash_func' (get_key x) = hash_func (get_key x)) →
  (∀ x y, x ∈ ns → y ∈ ns → key_equals' (get_key x) (get_key y) = key_equals (get_key x) (get_key y)) →
  ht_rep hash_func get_key key_equals t m F ns → ht_rep hash_func' get_key key_equals' t m F ns.
Proof.
  intros Hh He [H1 H2 H3 H4 H5 H6 H7 H8]. split; try done.
  - intros i Hi. destruct (H3 i Hi) as (l & Hl & Hin). exists l. split; [done|]. intros x. rewrite Hin. unfold idx_of.
    split; intros [Hx E]; (split; [done|]); [by rewrite Hh|by rewrite Hh in E].
  - intros x y Hx Hy. rewrite He by done. by apply H5.
Qed.

(** ** Witnesses

    Tables made by running the code on an empty memory whose nodes are at the
    multiples of 64 from 4096 on; the key of a node is its address. *)

Definition sample_hash (k : Z) : Z := u32 (k / 64).
Definition sample_key (x : Z) : Z := x.

Lemma sample_callbacks : callbacks sample_hash Z.eqb.
Proof.
  split.
  - intros k. apply u32_range.
  - intros k k'. apply Z.eqb_sym.
  - by intros k k' ->%Z.eqb_eq.
Qed.

Definition sample_node (i : Z) : Z := 4096 + 64 * i.

Definition empty_mem : @hmem Z :=
  HMem (list_to_map ((λ i, (sample_node i, ListHead 0 0)) <$> seqZ 0 40)) (Expansion 0 0 0 0) 65536.

(** Set a table up and insert the first [n] nodes. *)
Definition sample_table (isize : Z) (n : nat) : hashtable * @hmem Z :=
  let ins s i :=
    match hashtable_insert sample_hash sample_key Z.eqb (Some s.1) (sample_node i) s.2 with
    | Ok (_, Some t, m) => (t, m)
    | _ => s
    end in
  match hashtable_setup (Some (HT 0 0 0 0 0)) isize 50 empty_mem with
  | Ok (_, Some t, m) => foldl ins (t, m) (seqZ 0 (Z.of_nat n))
  | _ => (HT 0 0 0 0 0, empty_mem)
  end.

Definition sample_nodes (n : nat) : list Z := reverse (sample_node <$> seqZ 0 (Z.of_nat n)).

Definition sample_lists (t : hashtable) (ns : list Z) : list (Z * list Z) :=
  (λ i, (bucket (buckets t) i, filter (λ x, idx_of sample_hash t (sample_key x) = i) ns)) <$> seqZ 0 (ht_size t).

(** All that a table has to satisfy, as a computation. *)
Lemma table_check t (m : @hmem Z) ns k :
  let L := sample_lists t ns in
  4 ≤ k ≤ 25 → ht_size t = 2 ^ k →
  Forall (λ e, dll (cells m) e.1 e.2) L → NoDup (L ≫= λ e, e.1 :: e.2) →
  Forall (λ x, x ≠ 0) ns → NoDup ns → items t = Z.of_nat (length ns) → items t < 2 ^ 31 - 1 →
  50 ≤ max_load t ≤ 90 → 0 < buckets t ∧ buckets t + ht_size t * BUCKET_SIZE ≤ heap m →
  Forall (λ x, x < heap m ∧ x ≠ buckets t) ns →
  ht_rep sample_hash sample_key Z.eqb t m (list_to_map L) ns ∧ ht_mem t m (list_to_map L).
Proof.
  intros L Hk Ek HD Hnd Hnz Hns Hi Hi' Hl Hb Hx.
  assert (∀ p l, (list_to_map L : heads) !! p = Some l → (p, l) ∈ L) as Hin
    by (intros p l; apply elem_of_list_to_map_2).
  assert (∀ i, 0 ≤ i < ht_size t → (list_to_map L : heads) !! bucket (buckets t) i =
    Some (filter (λ x, idx_of sample_hash t (sample_key x) = i) ns)) as Hlk.
  { intros i Hri. apply elem_of_list_to_map_1.
    - unfold L, sample_lists. rewrite <-list_fmap_compose. apply NoDup_fmap_2_strong; [|apply NoDup_seqZ].
      intros a b _ _ E. by apply bucket_inj in E.
    - unfold L, sample_lists. apply list_elem_of_fmap. exists i. split; [done|]. apply elem_of_seqZ. lia. }
  rewrite Forall_forall in Hnz, Hx. split; [split|split].
  - by apply family_intro.
  - by exists k.
  - intros i Hri. eexists. split; [by apply Hlk|]. intros x. rewrite list_elem_of_filter. tauto.
  - intros x Hxn. split; by apply Hnz.
  - intros x y _ _ E. by apply Z.eqb_eq in E.
  - done.
  - done.
  - done.
  - assert (0 < 2 ^ k) by lia. cbn. unfold BUCKET_SIZE in *. lia.
  - intros x (p & l & Hp & Hpl). apply Hin in Hp. unfold L, sample_lists in Hp.
    apply list_elem_of_fmap in Hp as (i & [= -> ->] & Hri%elem_of_seqZ).
    apply elem_of_cons in Hpl as [->|Hpl]; [left; exists i; split; [lia|done]|].
    right. apply list_elem_of_filter in Hpl as [_ Hpl]. destruct (Hx x Hpl). exists x, 1. split; [done|]. cbn. lia.
Qed.

(** Sixteen buckets with 8 nodes and thirty-two with 16: both at their threshold. *)
Lemma sample16_ok :
  let s := sample_table 16 8 in
  ht_rep sample_hash sample_key Z.eqb s.1 s.2 (list_to_map (sample_lists s.1 (sample_nodes 8))) (sample_nodes 8) ∧
  ht_mem s.1 s.2 (list_to_map (sample_lists s.1 (sample_nodes 8))).
Proof.
  apply (table_check _ _ _ 4); [lia|by vm_compute| | | | |by vm_compute|by vm_compute|by vm_compute|by vm_compute|];
    apply (bool_decide_unpack _); vm_compute; exact I.
Qed.

Lemma sample32_ok :
  let s := sample_table 32 16 in
  ht_rep sample_hash sample_key Z.eqb s.1 s.2 (list_to_map (sample_lists s.1 (sample_nodes 16))) (sample_nodes 16) ∧
  ht_mem s.1 s.2 (list_to_map (sample_lists s.1 (sample_nodes 16))).
Proof.
  apply (table_check _ _ _ 5); [lia|by vm_compute| | | | |by vm_compute|by vm_compute|by vm_compute|by vm_compute|];
    apply (bool_decide_unpack _); vm_compute; exact I.
Qed.

Lemma hashtable_setup_empty_witness :
  ∃ t' m' F', hashtable_setup (Some (HT 0 0 0 0 0)) 20 95 empty_mem = Ok (0, Some t', m') ∧
    ht_rep sample_hash sample_key Z.eqb t' m' F' [] ∧ 20 ≤ ht_size t' < 40 ∧ max_load t' = 70.
Proof.
  destruct (hashtable_setup_empty sample_hash sample_key Z.eqb (HT 0 0 0 0 0) empty_mem ∅ 20 95)
    as (t' & m' & F' & E & HR & _ & Hs & Hm & _).
  - split; [by intros p l ?|by intros p l q m x ?].
  - intros x (p & l & Hp & _). by rewrite lookup_empty in Hp.
  - lia.
  - vm_compute. discriminate.
  - exists t', m', F'. split; [exact E|]. split; [exact HR|]. split; [exact Hs|exact Hm].
Defined.

Lemma hashtable_ops_refine_witness :
  let s := sample_table 16 8 in
  ∃ r, hashtable_lookup sample_hash sample_key Z.eqb (Some s.1) (sample_node 3) s.2 = Ok r ∧
    (r ≠ 0 ∧ r ∈ sample_nodes 8 ∧ Z.eqb (sample_key r) (sample_node 3) = true ∨
     r = 0 ∧ ∀ y, y ∈ sample_nodes 8 → Z.eqb (sample_key y) (sample_node 3) = false).
Proof.
  intros s.
  apply (proj1 (hashtable_ops_refine sample_hash sample_key Z.eqb sample_callbacks s.1 s.2 _ _ (proj1 sample16_ok))).
  done.
Defined.

Lemma hashtable_insert_expands_witness :
  let s := sample_table 16 8 in
  ∃ t1 m1 F1, ht_size t1 = 32 ∧ ht_rep sample_hash sample_key Z.eqb t1 m1 F1 (sample_nodes 8) ∧
    inserted sample_hash sample_key Z.eqb t1 m1 F1 (sample_nodes 8) (sample_node 30)
      (hashtable_insert sample_hash sample_key Z.eqb (Some s.1) (sample_node 30) s.2).
Proof.
  intros s.
  destruct (hashtable_insert_expands sample_hash sample_key Z.eqb sample_callbacks s.1 s.2 _ _ (sample_node 30)
    (proj1 sample16_ok) (proj2 sample16_ok)) as (t1 & m1 & F1 & Hs & HR & _ & _ & _ & Hins).
  - by vm_compute.
  - by vm_compute.
  - by vm_compute.
  - by vm_compute.
  - by vm_compute.
  - by vm_compute.
  - by vm_compute.
  - intros (p & l & Hp & Hin). apply elem_of_list_to_map_2 in Hp.
    assert (sample_node 30 ∉ (sample_lists s.1 (sample_nodes 8) ≫= λ e, e.1 :: e.2)) as Hno
      by (apply (bool_decide_unpack _); vm_compute; exact I).
    apply Hno, list_elem_of_bind. by exists (p, l).
  - apply (bool_decide_unpack _). vm_compute. exact I.
  - exists (sample_node 30), 1. by vm_compute.
  - exists t1, m1, F1. split; [exact Hs|]. split; [exact HR|exact Hins].
Defined.

Lemma hashtable_expand_hides_witness :
  let s := sample_table 32 16 in
  ∃ t' m', hashtable_try_expand sample_hash sample_key s.1 s.2 = Ok (0, t', m') ∧
    hashtable_lookup sample_hash sample_key Z.eqb (Some t') (sample_node 3) m' = Ok 0.
Proof.
  intros s.
  apply (hashtable_expand_hides sample_hash sample_key Z.eqb s.1 s.2 _ _ (sample_node 3)
    (proj1 sample32_ok) (proj2 sample32_ok)).
  - by vm_compute.
  - by vm_compute.
  - by vm_compute.
  - by vm_compute.
  - by vm_compute.
  - apply (bool_decide_unpack _). vm_compute. exact I.
  - by vm_compute.
Defined.
