(* ===== verification/Mm.v ===== *)
(** * Address spaces ([kernel/mm/vma.c], [kernel/mm/mm_struct.c], [kernel/mm/mmap.c],
    [kernel/mm/init_mm.c], [kernel/syscall/mmap.c], [kernel/mm/uaccess.c])

    The memory areas of a process and the operations on them. Structures live in
    maps from addresses to records. The list of areas of an [mm_struct] is the
    sequence of their addresses in list order, newest first, which is what the
    intrusive lists of [ListHead] implement; [list_for_each_entry_safe] visits the
    sequence it starts with, as the loop bodies unlink no node but the current one.
    The page array of an area is kept with the area, next to its pointer. Pages and
    page tables are behind the interface [Paging]. Locks are left out. *)

From stdpp Require Import base gmap list.
From S2P Require Import Prelude KString PageTable.
Local Open Scope Z_scope.
Local Open Scope kernel_scope.

Definition PROT_READ : Z := 1.
Definition PROT_WRITE : Z := 2.
Definition PROT_EXEC : Z := 4.

Definition PTE_R : Z := 2.
Definition PTE_X : Z := 8.
Definition PTE_U : Z := 16.
Definition PTE_A : Z := 64.
Definition PTE_D : Z := 128.

Definition VM_READ : Z := 1.
Definition VM_WRITE : Z := 2.
Definition VM_EXEC : Z := 4.
Definition VM_SHARED : Z := 8.
Definition VM_PRIVATE : Z := 16.
Definition VM_MAYREAD : Z := 32.
Definition VM_MAYWRITE : Z := 64.
Definition VM_MAYEXEC : Z := 128.
Definition VM_GROWSDOWN : Z := 512.
Definition VM_GROWSUP : Z := 1024.
Definition VM_USER : Z := 2048.
Definition VM_USERSTACK : Z :=
  Z.lor VM_READ (Z.lor VM_WRITE (Z.lor VM_MAYREAD (Z.lor VM_MAYWRITE (Z.lor VM_GROWSDOWN (Z.lor VM_USER VM_PRIVATE))))).

Definition MAP_SHARED : Z := 1.
Definition MAP_PRIVATE : Z := 2.
Definition MAP_FIXED : Z := 16.
Definition MAP_ANONYMOUS : Z := 32.
Definition MAP_GROWSDOWN : Z := 256.
Definition MAP_POPULATE : Z := 32768.

Definition USER_STACK_TOP : Z := 2147483648.
Definition USER_FREE_ADDRESS_START : Z := 4194304.
Definition DRAM_BASE : Z := 2147483648.

Inductive vma_type :=
| VMA_ANONYMOUS | VMA_PRIVATE | VMA_SHARED | VMA_FILE | VMA_STACK | VMA_HEAP
| VMA_TEXT | VMA_DATA | VMA_BSS | VMA_VDSO.

#[export] Instance vma_type_eq_dec : EqDecision vma_type.
Proof. solve_decision. Defined.

(** [x & mask], as a condition. *)
Definition has (x mask : Z) : bool := negb (Z.land x mask =? 0).
(** [if (c) x |= mask;] *)
Definition or_if (c : bool) (mask x : Z) : Z := if c then Z.lor x mask else x.

(** ** Conversions between protections, area flags and entry flags *)

Definition prot_to_type (prot : Z) (user : bool) : Z :=
  let perm := or_if (has prot PROT_READ) (Z.lor PTE_R PTE_A) 0 in
  let perm := or_if (has prot PROT_WRITE) (Z.lor PTE_W PTE_D) perm in
  let perm := or_if (has prot PROT_EXEC) (Z.lor PTE_X PTE_A) perm in
  let perm := if perm =? 0 then PTE_R else perm in
  or_if user PTE_U perm.

Definition prot_to_vm_flags (prot : Z) : Z :=
  let f := or_if (has prot PROT_READ) (Z.lor VM_READ VM_MAYREAD) 0 in
  let f := or_if (has prot PROT_WRITE) (Z.lor VM_WRITE VM_MAYWRITE) f in
  or_if (has prot PROT_EXEC) (Z.lor VM_EXEC VM_MAYEXEC) f.

Definition vm_flags_to_type (vm_flags : Z) : Z :=
  let perm := or_if (has vm_flags VM_READ) (Z.lor PTE_R PTE_A) 0 in
  let perm := or_if (has vm_flags VM_WRITE) (Z.lor PTE_W PTE_D) perm in
  let perm := or_if (has vm_flags VM_EXEC) (Z.lor PTE_X PTE_A) perm in
  let perm := or_if (has vm_flags VM_USER) PTE_U perm in
  let perm := Z.lor perm PTE_V in
  if negb (has perm (Z.lor PTE_R (Z.lor PTE_W PTE_X))) then PTE_V else perm.

Definition type_to_vm_flags (pte_flags : Z) : Z :=
  let f := or_if (has pte_flags PTE_R) (Z.lor VM_READ VM_MAYREAD) 0 in
  let f := or_if (has pte_flags PTE_W) (Z.lor VM_WRITE VM_MAYWRITE) f in
  let f := or_if (has pte_flags PTE_X) (Z.lor VM_EXEC VM_MAYEXEC) f in
  or_if (has pte_flags PTE_U) VM_USER f.

(** ** State *)

(** [vm_pages] is the pointer [pages], [page_tab] the array it points at. *)
Record vm_area_struct := VMA {
  vm_start : Z;
  vm_end : Z;
  vm_prot : Z;
  vm_type : vma_type;
  vm_flags : Z;
  vm_mm : Z;
  vm_file : Z;
  vm_pgoff : Z;
  vm_pages : Z;
  page_tab : list Z;
  page_count : Z;
}.

Record mm_struct := MM {
  is_kernel_mm : bool;
  pagetable : Z;
  vma_list : list Z;
  map_count : Z;
  start_code : Z;
  end_code : Z;
  start_data : Z;
  end_data : Z;
  start_brk : Z;
  brk : Z;
  start_stack : Z;
  end_stack : Z;
  mm_users : Z;
  mm_count : Z;
}.

Definition VMA_SIZE : Z := 88.
Definition MM_SIZE : Z := 120.

Definition vma_zero : vm_area_struct := VMA 0 0 0 VMA_ANONYMOUS 0 0 0 0 0 [] 0.

Definition set_vm_start (x : Z) (v : vm_area_struct) : vm_area_struct :=
  VMA x (vm_end v) (vm_prot v) (vm_type v) (vm_flags v) (vm_mm v) (vm_file v) (vm_pgoff v) (vm_pages v) (page_tab v) (page_count v).
Definition set_vm_end (x : Z) (v : vm_area_struct) : vm_area_struct :=
  VMA (vm_start v) x (vm_prot v) (vm_type v) (vm_flags v) (vm_mm v) (vm_file v) (vm_pgoff v) (vm_pages v) (page_tab v) (page_count v).
Definition set_vm_prot (x f : Z) (v : vm_area_struct) : vm_area_struct :=
  VMA (vm_start v) (vm_end v) x (vm_type v) f (vm_mm v) (vm_file v) (vm_pgoff v) (vm_pages v) (page_tab v) (page_count v).
Definition set_vm_file (x o : Z) (v : vm_area_struct) : vm_area_struct :=
  VMA (vm_start v) (vm_end v) (vm_prot v) (vm_type v) (vm_flags v) (vm_mm v) x o (vm_pages v) (page_tab v) (page_count v).
Definition set_pages (p : Z) (l : list Z) (n : Z) (v : vm_area_struct) : vm_area_struct :=
  VMA (vm_start v) (vm_end v) (vm_prot v) (vm_type v) (vm_flags v) (vm_mm v) (vm_file v) (vm_pgoff v) p l n.
Definition set_tab (l : list Z) (v : vm_area_struct) : vm_area_struct := set_pages (vm_pages v) l (page_count v) v.

Definition set_vma_list (l : list Z) (n : Z) (m : mm_struct) : mm_struct :=
  MM (is_kernel_mm m) (pagetable m) l n (start_code m) (end_code m) (start_data m) (end_data m) (start_brk m) (brk m)
     (start_stack m) (end_stack m) (mm_users m) (mm_count m).
Definition set_code (a b : Z) (m : mm_struct) : mm_struct :=
  MM (is_kernel_mm m) (pagetable m) (vma_list m) (map_count m) a b (start_data m) (end_data m) (start_brk m) (brk m)
     (start_stack m) (end_stack m) (mm_users m) (mm_count m).
Definition set_data (a b : Z) (m : mm_struct) : mm_struct :=
  MM (is_kernel_mm m) (pagetable m) (vma_list m) (map_count m) (start_code m) (end_code m) a b (start_brk m) (brk m)
     (start_stack m) (end_stack m) (mm_users m) (mm_count m).
Definition set_brk (b : Z) (m : mm_struct) : mm_struct :=
  MM (is_kernel_mm m) (pagetable m) (vma_list m) (map_count m) (start_code m) (end_code m) (start_data m) (end_data m)
     (start_brk m) b (start_stack m) (end_stack m) (mm_users m) (mm_count m).
Definition set_mm_count (n : Z) (m : mm_struct) : mm_struct :=
  MM (is_kernel_mm m) (pagetable m) (vma_list m) (map_count m) (start_code m) (end_code m) (start_data m) (end_data m)
     (start_brk m) (brk m) (start_stack m) (end_stack m) (mm_users m) n.

(** ** Pages and page tables, as the address spaces see them *)

Class Paging (P : Type) : Type := {
  pg_alloc : P → outcome (Z * P);                       (* alloc_page() *)
  pg_put : Z → P → outcome P;                           (* put_page(page) *)
  pg_paddr : Z → P → outcome Z;                         (* page->paddr *)
  pg_map : Z → Z → Z → Z → P → outcome (Z * P);         (* pgt_map_page *)
  pg_unmap : Z → Z → Z → bool → P → outcome (Z * P);    (* pgt_unmap *)
  pg_walk : Z → Z → P → outcome Z;                      (* page_walk(pagetable, va, 0) *)
  pg_read : Z → P → outcome Z;                          (* *pte *)
  pg_write : Z → Z → P → outcome P;                     (* *pte = v *)
  pg_clear : Z → P → P;                                 (* memset(pagetable, 0, PAGE_SIZE) *)
  pg_free : Z → P → outcome P;                          (* free_pagetable *)
}.

Section Mm.
Context {A : Type} {KM : KMalloc A} {P : Type} {PG : Paging P}.

Record kmm := KMM {
  mms : gmap Z mm_struct;
  vmas : gmap Z vm_area_struct;
  slab : A;
  paging : P;
  ram : mem;
}.

Definition set_mms (x : gmap Z mm_struct) (s : kmm) : kmm := KMM x (vmas s) (slab s) (paging s) (ram s).
Definition set_vmas (x : gmap Z vm_area_struct) (s : kmm) : kmm := KMM (mms s) x (slab s) (paging s) (ram s).
Definition set_slab (x : A) (s : kmm) : kmm := KMM (mms s) (vmas s) x (paging s) (ram s).
Definition set_paging (x : P) (s : kmm) : kmm := KMM (mms s) (vmas s) (slab s) x (ram s).
Definition set_ram (x : mem) (s : kmm) : kmm := KMM (mms s) (vmas s) (slab s) (paging s) x.

Definition get_mm (p : Z) (s : kmm) : outcome mm_struct := of_option (mms s !! p).
Definition get_vma (p : Z) (s : kmm) : outcome vm_area_struct := of_option (vmas s !! p).
Definition put_mm (p : Z) (m : mm_struct) (s : kmm) : kmm := set_mms (<[p := m]> (mms s)) s.
Definition put_vma (p : Z) (v : vm_area_struct) (s : kmm) : kmm := set_vmas (<[p := v]> (vmas s)) s.
Definition on_mm (p : Z) (f : mm_struct → mm_struct) (s : kmm) : outcome kmm :=
  let! m := get_mm p s in Ok (put_mm p (f m) s).
Definition on_vma (p : Z) (f : vm_area_struct → vm_area_struct) (s : kmm) : outcome kmm :=
  let! v := get_vma p s in Ok (put_vma p (f v) s).
(** [kfree] of a page array, and of an area, whose fields are gone afterwards. *)
Definition kfree_ptr (p : Z) (s : kmm) : kmm := set_slab (kfree p (slab s)) s.
Definition kfree_vma (p : Z) (s : kmm) : kmm := kfree_ptr p (set_vmas (delete p (vmas s)) s).

(** ** Finding areas *)

(** The first area of the list that satisfies the test, 0 for none. *)
Fixpoint find_area (test : vm_area_struct → bool) (l : list Z) (s : kmm) : outcome Z :=
  match l with
  | [] => Ok 0
  | p :: l =>
      let! v := get_vma p s in
      if test v then Ok p else find_area test l s
  end.

Definition find_vma (mm addr : Z) (s : kmm) : outcome Z :=
  if mm =? 0 then Ok 0
  else
    let! m := get_mm mm s in
    find_area (λ v, (vm_start v <=? addr) && (addr <? vm_end v)) (vma_list m) s.

Definition find_vma_intersection (mm start end_ : Z) (s : kmm) : outcome Z :=
  if (mm =? 0) || (end_ <=? start) then Ok 0
  else
    let! m := get_mm mm s in
    find_area (λ v, (start <? vm_end v) && (vm_start v <? end_)) (vma_list m) s.

(** ** Creating areas *)

Definition alloc_vma (s : kmm) : Z * kmm :=
  let (p, a) := kmalloc VMA_SIZE (slab s) in
  let s := set_slab a s in
  if p =? 0 then (0, s) else (p, put_vma p vma_zero s).

Definition vma_init (mm start end_ : Z) (type : vma_type) (prot flags : Z) (v : vm_area_struct) : vm_area_struct :=
  let f := or_if (has prot PROT_READ) (Z.lor VM_READ VM_MAYREAD) flags in
  let f := or_if (has prot PROT_WRITE) (Z.lor VM_WRITE VM_MAYWRITE) f in
  let f := or_if (has prot PROT_EXEC) (Z.lor VM_EXEC VM_MAYEXEC) f in
  VMA start end_ (vm_prot v) type f mm (vm_file v) (vm_pgoff v) (vm_pages v) (page_tab v)
      (s32 (u64 (end_ - start + PAGE_SIZE - 1) / PAGE_SIZE)).

Definition vma_alloc_page_array (vma : Z) (s : kmm) : outcome (Z * kmm) :=
  let! v := get_vma vma s in
  if 0 <? page_count v then
    let (p, a) := kmalloc (page_count v * 8) (slab s) in
    let s := set_slab a s in
    if p =? 0 then Ok (- ENOMEM, put_vma vma (set_pages 0 [] (page_count v) v) s)
    else Ok (0, put_vma vma (set_pages p (replicate (Z.to_nat (page_count v)) 0) (page_count v) v) s)
  else Ok (0, s).

Definition insert_vm_struct (mm vma : Z) (s : kmm) : outcome (Z * kmm) :=
  let! v := get_vma vma s in
  let! hit := find_vma_intersection mm (vm_start v) (vm_end v) s in
  if negb (hit =? 0) then Ok (- ENOMEM, s)
  else
    let! s := on_mm mm (λ m, set_vma_list (vma :: vma_list m) (s32 (map_count m + 1)) m) s in
    Ok (0, s).

(** The bounds of the code and the data segment after an area [start, end_) was added. *)
Definition grow_code (start end_ : Z) (m : mm_struct) : mm_struct :=
  set_code (if (start_code m =? 0) || (start <? start_code m) then start else start_code m)
           (if end_code m <? end_ then end_ else end_code m) m.
Definition grow_data (start end_ : Z) (m : mm_struct) : mm_struct :=
  set_data (if (start_data m =? 0) || (start <? start_data m) then start else start_data m)
           (if end_data m <? end_ then end_ else end_data m) m.

Definition vm_area_setup (mm addr len : Z) (type : vma_type) (prot flags : Z) (s : kmm) : outcome (Z * kmm) :=
  let end_ := u64 (addr + len) in
  if (mm =? 0) || (end_ <=? addr) then Ok (0, s)
  else
    let (vma, s) := alloc_vma s in
    if vma =? 0 then Ok (0, s)
    else
      let! s := on_vma vma (vma_init mm addr end_ type prot flags) s in
      let! (r, s) := vma_alloc_page_array vma s in
      if negb (r =? 0) then Ok (0, kfree_vma vma s)
      else
        let! (r, s) := insert_vm_struct mm vma s in
        if negb (r =? 0) then
          let! v := get_vma vma s in
          let s := if negb (vm_pages v =? 0) then kfree_ptr (vm_pages v) s else s in
          Ok (0, kfree_vma vma s)
        else
          let! s := on_mm mm (λ m,
            match type with
            | VMA_TEXT => grow_code addr end_ m
            | VMA_DATA => grow_data addr end_ m
            | _ => m
            end) s in
          Ok (vma, s).

Definition update_mm_boundaries (v : vm_area_struct) (m : mm_struct) : mm_struct :=
  match vm_type v with
  | VMA_TEXT => grow_code (vm_start v) (vm_end v) m
  | VMA_DATA => grow_data (vm_start v) (vm_end v) m
  | _ => m
  end.

(** ** Freeing areas *)

(** [put_page] of the pages of an array. *)
Fixpoint put_pages (l : list Z) (s : kmm) : outcome kmm :=
  match l with
  | [] => Ok s
  | p :: l =>
      let! s := (if negb (p =? 0) then let! a := pg_put p (paging s) in Ok (set_paging a s) else Ok s) in
      put_pages l s
  end.

(** [list_del] of the area's node from the list of its [mm_struct]. *)
Definition unlink_vma (mm vma : Z) (s : kmm) : outcome kmm :=
  let! m := get_mm mm s in
  if decide (vma ∈ vma_list m)
  then Ok (put_mm mm (set_vma_list (filter (λ p, p ≠ vma) (vma_list m)) (map_count m) m) s)
  else Fault.

Definition free_vma (vma : Z) (s : kmm) : outcome kmm :=
  let! v := get_vma vma s in
  let! s :=
    (if negb (vm_pages v =? 0) then
       let! s := put_pages (take (Z.to_nat (page_count v)) (page_tab v)) s in
       Ok (kfree_ptr (vm_pages v) s)
     else Ok s) in
  let! s := unlink_vma (vm_mm v) vma s in
  Ok (kfree_vma vma s).

(** ** Unmapping *)

(** [for (i = ...) { dst[i] = src[i + off]; src[i + off] = NULL; }], [n] times. *)
Fixpoint move_tab (n : nat) (i off : Z) (src dst : list Z) : outcome (list Z * list Z) :=
  match n with
  | O => Ok (src, dst)
  | S n =>
      let! p := of_option (src !! Z.to_nat (i + off)) in
      let! _ := of_option (dst !! Z.to_nat i) in
      move_tab n (i + 1) off (<[Z.to_nat (i + off) := 0]> src) (<[Z.to_nat i := p]> dst)
  end.

(** [for (i = ...) l[i] = l[i + off];], [n] times. *)
Fixpoint shift_tab (n : nat) (i off : Z) (l : list Z) : outcome (list Z) :=
  match n with
  | O => Ok l
  | S n =>
      let! p := of_option (l !! Z.to_nat (i + off)) in
      shift_tab n (i + 1) off (<[Z.to_nat i := p]> l)
  end.

(** Cut [vm_start, start) off the area; the result is 0 or [-ENOMEM]. *)
Definition split_first (mm vma start : Z) (s : kmm) : outcome (Z * kmm) :=
  let! v := get_vma vma s in
  let! (free_vma, s) :=
    vm_area_setup mm (vm_start v) (u64 (start - vm_start v)) (vm_type v) (vm_prot v) (vm_flags v) s in
  if free_vma =? 0 then Ok (- ENOMEM, s)
  else
    let n := s32 (u64 (start - vm_start v) / PAGE_SIZE) in
    let! f := get_vma free_vma s in
    let! (tab, ftab) := move_tab (Z.to_nat n) 0 0 (page_tab v) (page_tab f) in
    let s := put_vma free_vma (set_tab ftab f) s in
    let remain := s32 (page_count v - n) in
    let! tab :=
      (if 0 <? remain then
         let! tab := shift_tab (Z.to_nat remain) 0 n tab in
         Ok (take (Z.to_nat remain) tab ++ replicate (Z.to_nat (page_count v - remain)) 0)
       else Ok tab) in
    Ok (0, put_vma vma (set_vm_start start (set_tab tab v)) s).

(** Cut [end_, vm_end) off the area. *)
Definition split_last (mm next end_ : Z) (s : kmm) : outcome (Z * kmm) :=
  let! v := get_vma next s in
  let! (free_vma, s) :=
    vm_area_setup mm end_ (u64 (vm_end v - end_)) (vm_type v) (vm_prot v) (vm_flags v) s in
  if free_vma =? 0 then Ok (- ENOMEM, s)
  else
    let split_idx := s32 (u64 (end_ - vm_start v) / PAGE_SIZE) in
    let remain := s32 (page_count v - split_idx) in
    let! f := get_vma free_vma s in
    let! (tab, ftab) := move_tab (Z.to_nat remain) 0 split_idx (page_tab v) (page_tab f) in
    let s := put_vma free_vma (set_tab ftab f) s in
    Ok (0, put_vma next (set_vm_end end_ (set_tab tab v)) s).

(** Unmap and put the pages [i], ..., [i + n - 1] of an area. *)
Fixpoint unmap_area_pages (n : nat) (i pt vma : Z) (s : kmm) : outcome kmm :=
  match n with
  | O => Ok s
  | S n =>
      let! v := get_vma vma s in
      let! s :=
        (if i <? page_count v then
           let! p := of_option (page_tab v !! Z.to_nat i) in
           if negb (p =? 0) then
             let! (_, a) := pg_unmap pt (u64 (vm_start v + i * PAGE_SIZE)) PAGE_SIZE true (paging s) in
             let! a := pg_put p a in
             Ok (put_vma vma (set_tab (<[Z.to_nat i := 0]> (page_tab v)) v) (set_paging a s))
           else Ok s
         else Ok s) in
      unmap_area_pages n (i + 1) pt vma s
  end.

(** The loop over the areas; [l] are the areas not yet visited. *)
Fixpoint unmap_areas (l : list Z) (mm start end_ : Z) (s : kmm) : outcome kmm :=
  match l with
  | [] => Ok s
  | vma :: l =>
      let! v := get_vma vma s in
      if end_ <=? vm_start v then Ok s
      else if vm_end v <=? start then unmap_areas l mm start end_ s
      else
        let unmap_start := Z.max start (vm_start v) in
        let unmap_end := Z.min end_ (vm_end v) in
        let start_idx := s32 (u64 (unmap_start - vm_start v) / PAGE_SIZE) in
        let end_idx := s32 (u64 (unmap_end - vm_start v + PAGE_SIZE - 1) / PAGE_SIZE) in
        let! m := get_mm mm s in
        let! s := unmap_area_pages (Z.to_nat (end_idx - start_idx)) start_idx (pagetable m) vma s in
        let! s := unlink_vma mm vma s in
        let s := if negb (vm_pages v =? 0) then kfree_ptr (vm_pages v) s else s in
        let s := kfree_vma vma s in
        let! s := on_mm mm (λ m, set_vma_list (vma_list m) (s32 (map_count m - 1)) m) s in
        unmap_areas l mm start end_ s
  end.

Definition do_unmap (mm start len : Z) (s : kmm) : outcome (Z * kmm) :=
  if (mm =? 0) || (len =? 0) then Ok (- EINVAL, s)
  else if has start (PAGE_SIZE - 1) || has len (PAGE_SIZE - 1) then Ok (- EINVAL, s)
  else
    let end_ := u64 (start + len) in
    if end_ <? start then Ok (- EINVAL, s)
    else
      let! vma := find_vma mm start s in
      if vma =? 0 then Ok (0, s)
      else
        let! v := get_vma vma s in
        if end_ <=? vm_start v then Ok (0, s)
        else
          let! (r, s) := (if vm_start v <? start then split_first mm vma start s else Ok (0, s)) in
          if negb (r =? 0) then Ok (r, s)
          else
            let! next := find_vma mm end_ s in
            let! (r, s) :=
              (if next =? 0 then Ok (0, s)
               else
                 let! w := get_vma next s in
                 if (vm_start w <? end_) && (end_ <? vm_end w) then split_last mm next end_ s
                 else Ok (0, s)) in
            if negb (r =? 0) then Ok (r, s)
            else
              let! m := get_mm mm s in
              let! s := unmap_areas (vma_list m) mm start end_ s in
              Ok (0, s).

(** ** Populating *)

Fixpoint populate_loop (n : nat) (vma va length prot offset page_idx : Z) (s : kmm) : outcome (Z * kmm) :=
  if offset <? length then
    match n with
    | O => Timeout
    | S n =>
        let! v := get_vma vma s in
        let! p := of_option (page_tab v !! Z.to_nat page_idx) in
        if negb (p =? 0) then populate_loop n vma va length prot (offset + PAGE_SIZE) (page_idx + 1) s
        else
          let! (page, a) := pg_alloc (paging s) in
          let s := set_paging a s in
          if page =? 0 then
            let! (_, s) := do_unmap (vm_mm v) va offset s in
            Ok (- ENOMEM, s)
          else
            let s := put_vma vma (set_tab (<[Z.to_nat page_idx := page]> (page_tab v)) v) s in
            let! pa := pg_paddr page (paging s) in
            let! m := get_mm (vm_mm v) s in
            let! (ret, a) := pg_map (pagetable m) (u64 (va + offset)) pa
                               (prot_to_type prot (has (vm_flags v) VM_USER)) (paging s) in
            let s := set_paging a s in
            if negb (ret =? 0) then
              let! a := pg_put page (paging s) in
              let! (_, s) := do_unmap (vm_mm v) va offset (set_paging a s) in
              Ok (- ENOMEM, s)
            else populate_loop n vma va length prot (offset + PAGE_SIZE) (page_idx + 1) s
    end
  else Ok (0, s).

Definition populate_vma (vma va length prot : Z) (s : kmm) : outcome (Z * kmm) :=
  populate_loop (Z.to_nat (length / PAGE_SIZE + 1)) vma va length prot 0 0 s.

(** ** The heap *)

(** Extend the heap's last area to [new_brk]. *)
Definition extend_heap (vma old_brk new_brk : Z) (s : kmm) : outcome (Z * kmm) :=
  let! v := get_vma vma s in
  let v := set_vm_end new_brk v in
  let old_npages := u64 (page_count v) in
  let new_npages := u64 (new_brk - vm_start v + PAGE_SIZE - 1) / PAGE_SIZE in
  if old_npages <? new_npages then
    let (p, a) := kmalloc (u64 (new_npages * 8)) (slab s) in
    let s := set_slab a s in
    if p =? 0 then Ok (- ENOMEM, put_vma vma (set_vm_end old_brk v) s)
    else
      let tab := replicate (Z.to_nat new_npages) 0 in
      let (tab, s) :=
        if negb (vm_pages v =? 0)
        then (take (Z.to_nat old_npages) (page_tab v) ++ drop (Z.to_nat old_npages) tab, kfree_ptr (vm_pages v) s)
        else (tab, s) in
      Ok (0, put_vma vma (set_pages p tab (s32 new_npages) v) s)
  else Ok (0, put_vma vma v s).

(** Free the pages of the area from [addr] up to [old_brk]. *)
Fixpoint contract_loop (fuel : nat) (pt vma addr old_brk : Z) (s : kmm) : outcome kmm :=
  if addr <? old_brk then
    match fuel with
    | O => Timeout
    | S fuel =>
        let! v := get_vma vma s in
        let page_idx := s32 (u64 (addr - vm_start v) / PAGE_SIZE) in
        let! s :=
          (if (0 <=? page_idx) && (page_idx <? page_count v) then
             let! p := of_option (page_tab v !! Z.to_nat page_idx) in
             if negb (p =? 0) then
               let! (_, a) := pg_unmap pt addr PAGE_SIZE true (paging s) in
               let! a := pg_put p a in
               Ok (put_vma vma (set_tab (<[Z.to_nat page_idx := 0]> (page_tab v)) v) (set_paging a s))
             else Ok s
           else Ok s) in
        contract_loop fuel pt vma (u64 (addr + PAGE_SIZE)) old_brk s
    end
  else Ok s.

Definition do_brk (mm new_brk : Z) (s : kmm) : outcome (Z * kmm) :=
  if mm =? 0 then Ok (u64 (- EINVAL), s)
  else
    let! m := get_mm mm s in
    if new_brk =? 0 then Ok (brk m, s)
    else
      let new_brk := ROUNDUP new_brk PAGE_SIZE in
      let old_brk := brk m in
      if new_brk <? start_brk m then Ok (u64 (- EINVAL), s)
      else if new_brk =? old_brk then Ok (old_brk, s)
      else
        let! (r, s) :=
          (if old_brk <? new_brk then
             let! hit := find_vma_intersection mm old_brk new_brk s in
             if negb (hit =? 0) then Ok (- ENOMEM, s)
             else
               let! vma := find_vma mm (u64 (old_brk - 1)) s in
               let! fits :=
                 (if vma =? 0 then Ok false
                  else let! v := get_vma vma s in
                       Ok ((vm_end v =? old_brk) && bool_decide (vm_type v = VMA_HEAP))) in
               if fits : bool then extend_heap vma old_brk new_brk s
               else
                 let! (vma, s) :=
                   vm_area_setup mm old_brk (new_brk - old_brk) VMA_HEAP (Z.lor PROT_READ PROT_WRITE)
                     (Z.lor VM_GROWSUP (Z.lor VM_PRIVATE VM_USER)) s in
                 if vma =? 0 then Ok (- ENOMEM, s) else Ok (0, s)
           else
             let! vma := find_vma mm new_brk s in
             if vma =? 0 then Ok (0, s)
             else
               let! v := get_vma vma s in
               if (vm_start v <? new_brk) && bool_decide (vm_type v = VMA_HEAP) then
                 let! s := contract_loop (Z.to_nat ((old_brk - new_brk) / PAGE_SIZE + 1)) (pagetable m) vma
                             (ROUNDUP new_brk PAGE_SIZE) old_brk s in
                 let! s := on_vma vma (set_vm_end new_brk) s in
                 Ok (0, s)
               else Ok (0, s)) in
        if negb (r =? 0) then Ok (u64 r, s)
        else
          let! s := on_mm mm (set_brk new_brk) s in
          Ok (new_brk, s).

(** ** Protection *)

(** The permission bits of the entries of the pages from [addr] to [end_]. *)
Fixpoint protect_ptes (n : nat) (pt addr end_ pte_perm : Z) (s : kmm) : outcome kmm :=
  if addr <? end_ then
    match n with
    | O => Timeout
    | S n =>
        let! pte := pg_walk pt addr (paging s) in
        let! s :=
          (if negb (pte =? 0) then
             let! w := pg_read pte (paging s) in
             if has w PTE_V then
               let! a := pg_write pte (Z.lor (Z.lor (PA2PPN (PTE2PA w)) pte_perm) PTE_V) (paging s) in
               Ok (set_paging a s)
             else Ok s
           else Ok s) in
        protect_ptes n pt (u64 (addr + PAGE_SIZE)) end_ pte_perm s
    end
  else Ok s.

(** The loop over the areas of the range. *)
Fixpoint protect_loop (fuel : nat) (mm current_addr end_ prot vmf pte_perm : Z) (s : kmm) : outcome (Z * kmm) :=
  if current_addr <? end_ then
    match fuel with
    | O => Timeout
    | S fuel =>
        let! vma := find_vma mm current_addr s in
        if vma =? 0 then Ok (- ENOMEM, s)
        else
          let! v := get_vma vma s in
          if end_ <=? vm_start v then Ok (- ENOMEM, s)
          else if has prot PROT_READ && negb (has (vm_flags v) VM_MAYREAD) then Ok (- EACCES, s)
          else if has prot PROT_WRITE && negb (has (vm_flags v) VM_MAYWRITE) then Ok (- EACCES, s)
          else if has prot PROT_EXEC && negb (has (vm_flags v) VM_MAYEXEC) then Ok (- EACCES, s)
          else
            let change_start := Z.max current_addr (vm_start v) in
            let change_end := Z.min end_ (vm_end v) in
            let f := Z.lor (Z.land (vm_flags v) (Z.lnot (Z.lor VM_READ (Z.lor VM_WRITE VM_EXEC)))) vmf in
            let s := put_vma vma (set_vm_prot prot f v) s in
            let! m := get_mm mm s in
            let! s := protect_ptes (Z.to_nat ((change_end - change_start) / PAGE_SIZE + 1)) (pagetable m)
                        change_start change_end pte_perm s in
            protect_loop fuel mm (vm_end v) end_ prot vmf pte_perm s
    end
  else Ok (0, s).

Definition do_protect (mm start len prot : Z) (s : kmm) : outcome (Z * kmm) :=
  if mm =? 0 then Ok (- EINVAL, s)
  else if has start (PAGE_SIZE - 1) then Ok (- EINVAL, s)
  else if len =? 0 then Ok (0, s)
  else
    let len := ROUNDUP len PAGE_SIZE in
    let end_ := u64 (start + len) in
    if end_ <? start then Ok (- EINVAL, s)
    else
      let vmf := or_if (has prot PROT_READ) VM_READ 0 in
      let vmf := or_if (has prot PROT_WRITE) VM_WRITE vmf in
      let vmf := or_if (has prot PROT_EXEC) VM_EXEC vmf in
      let! m := get_mm mm s in
      let pte_perm := prot_to_type prot (negb (is_kernel_mm m)) in
      protect_loop (S (length (vma_list m))) mm start end_ prot vmf pte_perm s.

(** ** Mapping *)

(** The largest end of an area, which bounds the search for a free range. *)
Definition top_end (m : mm_struct) (s : kmm) : Z :=
  foldr (λ p e, match vmas s !! p with Some v => Z.max (vm_end v) e | None => e end) 0 (vma_list m).

Fixpoint find_free_loop (fuel : nat) (mm addr length : Z) (s : kmm) : outcome Z :=
  let! hit := find_vma_intersection mm addr (u64 (addr + length)) s in
  if negb (hit =? 0) then
    match fuel with
    | O => Timeout
    | S fuel => find_free_loop fuel mm (ROUNDUP (u64 (addr + PAGE_SIZE)) PAGE_SIZE) length s
    end
  else Ok addr.

Definition find_free_area (mm length : Z) (s : kmm) : outcome Z :=
  let! m := get_mm mm s in
  find_free_loop (Z.to_nat ((top_end m s - brk m) / PAGE_SIZE + 2)) mm (brk m) length s.

Definition mmap_file (mm addr length prot flags file pgoff : Z) (s : kmm) : outcome (Z * kmm) :=
  if (mm =? 0) || (length =? 0) then Ok (u64 (- EINVAL), s)
  else
    let length := ROUNDUP length PAGE_SIZE in
    let type :=
      if negb (file =? 0) then VMA_FILE
      else if has flags MAP_ANONYMOUS then VMA_ANONYMOUS
      else if has prot PROT_EXEC then VMA_TEXT
      else VMA_STACK in
    let f := prot_to_vm_flags prot in
    let f := or_if (has flags MAP_SHARED) VM_SHARED f in
    let f := or_if (has flags MAP_PRIVATE) VM_PRIVATE f in
    let f := or_if (has flags MAP_GROWSDOWN) VM_GROWSDOWN f in
    let! (addr, refused) :=
      (if addr =? 0 then let! a := find_free_area mm length s in Ok (a, false)
       else if has flags MAP_FIXED then
         let! hit := find_vma_intersection mm addr (u64 (addr + length)) s in
         Ok (addr, negb (hit =? 0))
       else Ok (addr, false)) in
    if refused : bool then Ok (u64 (- EINVAL), s)
    else
      let! (vma, s) := vm_area_setup mm addr length type prot f s in
      if vma =? 0 then Ok (u64 (- ENOMEM), s)
      else
        let! s := (if negb (file =? 0) then on_vma vma (set_vm_file file pgoff) s else Ok s) in
        let! s :=
          (if has flags MAP_POPULATE then let! (_, s) := populate_vma vma addr length prot s in Ok s else Ok s) in
        let! s := on_mm mm (λ m,
          match type with
          | VMA_TEXT => grow_code addr (u64 (addr + length)) m
          | VMA_DATA | VMA_FILE => grow_data addr (u64 (addr + length)) m
          | _ => m
          end) s in
        Ok (addr, s).

(** ** Address spaces *)

(** The [mm_struct] at [p] is the static [init_mm]. *)
Definition create_init_mm (p g_kernel_pagetable mem_size : Z) (s : kmm) : kmm :=
  put_mm p (MM true g_kernel_pagetable [] 0 0 0 0 0 DRAM_BASE (u64 (DRAM_BASE + mem_size)) 0 0 0 0) s.

Definition user_alloc_mm (s : kmm) : outcome (Z * kmm) :=
  let (mm, a) := kmalloc MM_SIZE (slab s) in
  if mm =? 0 then Fault
  else
    let (pt, a) := kmalloc PAGE_SIZE a in
    let s := set_slab a s in
    let stack := USER_STACK_TOP - PAGE_SIZE in
    if pt =? 0 then Ok (0, put_mm mm (MM false 0 [] 0 0 0 0 0 0 0 0 0 0 0) s)
    else
      let s := set_paging (pg_clear pt (paging s)) s in
      let s := put_mm mm (MM false pt [] 0 4194304 4194304 268435456 268435456
                 USER_FREE_ADDRESS_START USER_FREE_ADDRESS_START stack USER_STACK_TOP 1 1) s in
      let! (vma, s) := vm_area_setup mm stack (USER_STACK_TOP - stack) VMA_STACK (Z.lor PROT_READ PROT_WRITE)
                         VM_USERSTACK s in
      if vma =? 0 then Ok (0, s) else Ok (mm, s).

(** The loop of [free_mm], which goes on with the area after [free_vma] freed it. *)
Fixpoint free_areas (l : list Z) (s : kmm) : outcome kmm :=
  match l with
  | [] => Ok s
  | vma :: l =>
      let! s := free_vma vma s in
      let! v := get_vma vma s in
      let! s :=
        (if negb (vm_pages v =? 0) then
           let! s := put_pages (take (Z.to_nat (page_count v)) (page_tab v)) s in
           Ok (kfree_ptr (vm_pages v) s)
         else Ok s) in
      let! s := unlink_vma (vm_mm v) vma s in
      free_areas l (kfree_vma vma s)
  end.

Definition free_mm (mm : Z) (s : kmm) : outcome kmm :=
  if mm =? 0 then Ok s
  else
    let! m := get_mm mm s in
    let m := set_mm_count (s32 (mm_count m - 1)) m in
    let s := put_mm mm m s in
    if mm_count m =? 0 then
      let! s := free_areas (vma_list m) s in
      let! s :=
        (if negb (pagetable m =? 0) then let! a := pg_free (pagetable m) (paging s) in Ok (set_paging a s) else Ok s) in
      Ok (kfree_ptr mm (set_mms (delete mm (mms s)) s))
    else Ok s.

(** ** Copying from and to user memory *)

(** What is left to return when a copy stops: the bytes copied, or the error. *)
Definition stop_copy (bytes_copied err : Z) : Z := if 0 <? bytes_copied then bytes_copied else err.

Fixpoint copy_to_loop (fuel : nat) (mm dst src len bytes_copied : Z) (s : kmm) : outcome (Z * kmm) :=
  if bytes_copied <? len then
    match fuel with
    | O => Timeout
    | S fuel =>
        let addr := u64 (dst + bytes_copied) in
        let! vma := find_vma mm addr s in
        if vma =? 0 then Ok (stop_copy bytes_copied (- EFAULT), s)
        else
          let! v := get_vma vma s in
          if negb (has (vm_prot v) PROT_WRITE) then Ok (stop_copy bytes_copied (- EFAULT), s)
          else
            let page_offset := Z.lor addr (PAGE_SIZE - 1) in
            let page_bytes := Z.min (u64 (PAGE_SIZE - page_offset)) (len - bytes_copied) in
            let page_va := ROUNDDOWN addr PAGE_SIZE in
            let page_idx := s32 (u64 (page_va - vm_start v) / PAGE_SIZE) in
            if (page_idx <? 0) || (page_count v <=? page_idx) then Ok (stop_copy bytes_copied (- EFAULT), s)
            else
              let! p := of_option (page_tab v !! Z.to_nat page_idx) in
              let! s :=
                (if p =? 0 then let! (_, s) := populate_vma vma page_va PAGE_SIZE (vm_prot v) s in Ok s else Ok s) in
              let! v := get_vma vma s in
              let! p := of_option (page_tab v !! Z.to_nat page_idx) in
              let! pa := pg_paddr p (paging s) in
              let! (_, m) := memcpy (u64 (pa + page_offset)) (u64 (src + bytes_copied)) page_bytes (ram s) in
              copy_to_loop fuel mm dst src len (bytes_copied + page_bytes) (set_ram m s)
    end
  else Ok (bytes_copied, s).

Definition mm_copy_to_user (mm dst src len : Z) (s : kmm) : outcome (Z * kmm) :=
  if (mm =? 0) || (dst =? 0) || (src =? 0) || (len =? 0) then Ok (- EINVAL, s)
  else copy_to_loop (Z.to_nat len) mm dst src len 0 s.

Fixpoint copy_from_loop (fuel : nat) (mm dst src len bytes_copied : Z) (s : kmm) : outcome (Z * kmm) :=
  if bytes_copied <? len then
    match fuel with
    | O => Timeout
    | S fuel =>
        let addr := u64 (src + bytes_copied) in
        let! vma := find_vma mm addr s in
        if vma =? 0 then Ok (stop_copy bytes_copied (-1), s)
        else
          let! v := get_vma vma s in
          if negb (has (vm_prot v) PROT_READ) then Ok (stop_copy bytes_copied (-1), s)
          else
            let page_offset := addr mod PAGE_SIZE in
            let page_bytes := Z.min (PAGE_SIZE - page_offset) (len - bytes_copied) in
            let page_va := ROUNDDOWN addr PAGE_SIZE in
            let page_idx := s32 (u64 (page_va - vm_start v) / PAGE_SIZE) in
            if (page_idx <? 0) || (page_count v <=? page_idx) then Ok (stop_copy bytes_copied (-1), s)
            else
              let! p := of_option (page_tab v !! Z.to_nat page_idx) in
              if p =? 0 then Ok (stop_copy bytes_copied (-1), s)
              else
                let! pa := pg_paddr p (paging s) in
                let! (_, m) := memcpy (u64 (dst + bytes_copied)) (u64 (pa + page_offset)) page_bytes (ram s) in
                copy_from_loop fuel mm dst src len (bytes_copied + page_bytes) (set_ram m s)
    end
  else Ok (bytes_copied, s).

Definition mm_copy_from_user (mm dst src len : Z) (s : kmm) : outcome (Z * kmm) :=
  if (mm =? 0) || (dst =? 0) || (src =? 0) || (len =? 0) then Ok (- EINVAL, s)
  else copy_from_loop (Z.to_nat len) mm dst src len 0 s.

(** ** The user access functions; [cur] is [current->mm], 0 without one *)

Definition copy_to_user (cur to from n : Z) (s : kmm) : outcome (Z * kmm) :=
  if cur =? 0 then Ok (n, s)
  else
    let! (ret, s) := mm_copy_to_user cur to from n s in
    Ok (if ret <? 0 then n else u64 (n - ret), s).

Definition copy_from_user (cur to from n : Z) (s : kmm) : outcome (Z * kmm) :=
  if cur =? 0 then Ok (n, s)
  else
    let! (ret, s) := mm_copy_from_user cur to from n s in
    Ok (if ret <? 0 then n else u64 (n - ret), s).

(** [c] is the address of the local variable. *)
Fixpoint strlen_user_loop (fuel : nat) (cur c str res : Z) (s : kmm) : outcome (Z * kmm) :=
  match fuel with
  | O => Timeout
  | S fuel =>
      let! (r, s) := copy_from_user cur c (u64 (str + res)) 1 s in
      if negb (r =? 0) then Ok (0, s)
      else
        let! b := load8 c (ram s) in
        if b =? 0 then Ok (res + 1, s)
        else
          let res := res + 1 in
          if 4096 <? res then Ok (0, s) else strlen_user_loop fuel cur c str res s
  end.

Definition strlen_user (cur c str : Z) (s : kmm) : outcome (Z * kmm) := strlen_user_loop 4098 cur c str 0 s.

Definition user_to_kernel_str (cur c user_ptr : Z) (s : kmm) : outcome (Z * kmm) :=
  let! (len, s) := strlen_user cur c user_ptr s in
  if len <=? 0 then Ok (0, s)
  else
    let (kernel_ptr, a) := kmalloc (len + 1) (slab s) in
    let s := set_slab a s in
    if kernel_ptr =? 0 then Ok (0, s)
    else
      let! (r, s) := copy_from_user cur kernel_ptr user_ptr (len + 1) s in
      if negb (r =? 0) then Ok (0, kfree_ptr kernel_ptr s)
      else
        let! m := store8 (kernel_ptr + len) 0 (ram s) in
        Ok (kernel_ptr, set_ram m s).

Fixpoint strncpy_user_loop (fuel : nat) (cur dst src count res : Z) (s : kmm) : outcome (Z * bool * kmm) :=
  if res <? count - 1 then
    match fuel with
    | O => Timeout
    | S fuel =>
        let! (r, s) := copy_from_user cur (u64 (dst + res)) (u64 (src + res)) 1 s in
        if negb (r =? 0) then Ok (- EFAULT, true, s)
        else
          let! b := load8 (dst + res) (ram s) in
          if b =? 0 then Ok (res, true, s)
          else strncpy_user_loop fuel cur dst src count (res + 1) s
    end
  else Ok (res, false, s).

(** [tmp] is the address of the local variable. *)
Definition strncpy_from_user (cur tmp dst src count : Z) (s : kmm) : outcome (Z * kmm) :=
  if count <=? 0 then Ok (0, s)
  else
    let! (res, returned, s) := strncpy_user_loop (Z.to_nat count) cur dst src count 0 s in
    if returned : bool then Ok (res, s)
    else
      let! m := store8 (dst + res) 0 (ram s) in
      let! (r, s) := copy_from_user cur tmp (u64 (src + res)) 1 (set_ram m s) in
      if negb (r =? 0) then Ok (- EFAULT, s)
      else
        let! b := load8 tmp (ram s) in
        Ok (if negb (b =? 0) then - ENAMETOOLONG else res, s).

(** [zeros] is the address of the local array of 64 zero bytes. *)
Fixpoint clear_user_loop (fuel : nat) (cur zeros to n : Z) (s : kmm) : outcome (Z * kmm) :=
  if 0 <? n then
    match fuel with
    | O => Timeout
    | S fuel =>
        let chunk := if 64 <? n then 64 else n in
        let! (ret, s) := copy_to_user cur to zeros chunk s in
        if negb (ret =? 0) then Ok (n, s)
        else clear_user_loop fuel cur zeros (u64 (to + chunk)) (n - chunk) s
    end
  else Ok (n, s).

Definition clear_user (cur zeros to n : Z) (s : kmm) : outcome (Z * kmm) :=
  let! (_, m) := memset zeros 0 64 (ram s) in
  clear_user_loop (Z.to_nat n) cur zeros to n (set_ram m s).

Definition access_ok (cur addr size : Z) : Z := if cur =? 0 then 1 else 0.
End Mm.

(** ** Well-formed address spaces *)

Section Spec.
Context {A : Type} {KM : KMalloc A} {KS : KMallocSpec A} {P : Type} {PG : Paging P}.
Implicit Types (s : @kmm A P) (m : mm_struct) (v w : vm_area_struct).

(** An area of [mm]: a non-empty range, with one page slot for each of its pages. *)
Record area_ok (mm : Z) v : Prop := {
  ao_range : 0 ≤ vm_start v < vm_end v ∧ vm_end v < 2 ^ 64;
  ao_mm : vm_mm v = mm;
  ao_count : page_count v = Z.of_nat (length (page_tab v)) ∧ page_count v < 2 ^ 31;
}.

Definition disjoint v w : Prop := vm_end v ≤ vm_start w ∨ vm_end w ≤ vm_start v.

(** [mm] is an address space with fields [m]: its areas exist and do not overlap, and
    [map_count] counts them; areas and page arrays are allocated and distinct. *)
Record mm_ok (mm : Z) m s : Prop := {
  mo_mm : mms s !! mm = Some m;
  mo_nz : mm ≠ 0;
  mo_nodup : NoDup (vma_list m);
  mo_area p : p ∈ vma_list m → p ≠ 0 ∧ ∃ v, vmas s !! p = Some v ∧ area_ok mm v;
  mo_disj p q v w : p ∈ vma_list m → q ∈ vma_list m → p ≠ q →
    vmas s !! p = Some v → vmas s !! q = Some w → disjoint v w;
  mo_count : map_count m = Z.of_nat (length (vma_list m)) ∧ map_count m < 2 ^ 31 - 1;
  mo_live p : is_Some (vmas s !! p) → km_live (slab s) p;
  mo_pages p v : p ∈ vma_list m → vmas s !! p = Some v → vm_pages v ≠ 0 →
    vmas s !! vm_pages v = None ∧ km_live (slab s) (vm_pages v);
  mo_inj p q v w : p ∈ vma_list m → q ∈ vma_list m → p ≠ q → vmas s !! p = Some v → vmas s !! q = Some w →
    vm_pages v ≠ 0 → vm_pages v ≠ vm_pages w;
}.

Lemma find_area_spec test l s :
  (∀ p, p ∈ l → p ≠ 0 ∧ is_Some (vmas s !! p)) →
  ∃ r, find_area test l s = Ok r ∧
    (r = 0 ∧ (∀ p v, p ∈ l → vmas s !! p = Some v → test v = false) ∨
     r ≠ 0 ∧ r ∈ l ∧ ∃ v, vmas s !! r = Some v ∧ test v = true).
Proof.
  induction l as [|p l IH]; intros Hl; cbn [find_area].
  { exists 0. split; [done|]. left. split; [done|]. by intros p v ?%elem_of_nil. }
  destruct (Hl p ltac:(by apply elem_of_cons; left)) as [Hp [v Hv]]. unfold get_vma. rewrite Hv. cbn [of_option obind].
  destruct (test v) eqn:Et.
  - exists p. split; [done|]. right. split; [done|]. split; [by apply elem_of_cons; left|]. by exists v.
  - destruct IH as (r & E & Hr); [intros q Hq; apply Hl; by apply elem_of_cons; right|].
    exists r. split; [done|]. destruct Hr as [[-> Hno]|(Hr & Hin & Hv')]; [left|right].
    + split; [done|]. intros q w [->|Hq]%elem_of_cons Hw; [congruence|by apply (Hno q)].
    + split; [done|]. split; [by apply elem_of_cons; right|done].
Qed.

Lemma areas_exist mm m s p : mm_ok mm m s → p ∈ vma_list m → p ≠ 0 ∧ is_Some (vmas s !! p).
Proof. intros HM Hp. destruct (mo_area _ _ _ HM p Hp) as (H0 & v & Hv & _). split; [done|by eexists]. Qed.

Lemma find_vma_ok mm m s addr :
  mm_ok mm m s → ∃ r, find_vma mm addr s = Ok r ∧
    (r = 0 ∧ (∀ p v, p ∈ vma_list m → vmas s !! p = Some v → ~ (vm_start v ≤ addr < vm_end v)) ∨
     r ≠ 0 ∧ r ∈ vma_list m ∧ ∃ v, vmas s !! r = Some v ∧ vm_start v ≤ addr < vm_end v).
Proof.
  intros HM. unfold find_vma, get_mm. rewrite (proj2 (Z.eqb_neq mm 0)) by apply HM. rewrite (mo_mm _ _ _ HM). cbn [of_option obind].
  destruct (find_area_spec (λ v, (vm_start v <=? addr) && (addr <? vm_end v)) (vma_list m) s) as (r & E & Hr).
  { intros p Hp. by apply (areas_exist mm m). }
  exists r. split; [done|]. destruct Hr as [[-> Hno]|(Hr & Hin & v & Hv & Et)]; [left|right].
  - split; [done|]. intros p v Hp Hv Hc. specialize (Hno p v Hp Hv). apply andb_false_iff in Hno as [H|H]; bool_props; lia.
  - split; [done|]. split; [done|]. exists v. split; [done|]. bool_props. lia.
Qed.

Lemma find_intersection_ok mm m s a b :
  mm_ok mm m s → a < b → ∃ r, find_vma_intersection mm a b s = Ok r ∧
    (r = 0 ∧ (∀ p v, p ∈ vma_list m → vmas s !! p = Some v → vm_end v ≤ a ∨ b ≤ vm_start v) ∨
     r ≠ 0 ∧ r ∈ vma_list m ∧ ∃ v, vmas s !! r = Some v ∧ a < vm_end v ∧ vm_start v < b).
Proof.
  intros HM Hab. unfold find_vma_intersection, get_mm. rewrite (proj2 (Z.eqb_neq mm 0)) by apply HM.
  rewrite (proj2 (Z.leb_gt b a)) by done. rewrite (mo_mm _ _ _ HM). cbn [of_option obind orb].
  destruct (find_area_spec (λ v, (a <? vm_end v) && (vm_start v <? b)) (vma_list m) s) as (r & E & Hr).
  { intros p Hp. by apply (areas_exist mm m). }
  exists r. split; [done|]. destruct Hr as [[-> Hno]|(Hr & Hin & v & Hv & Et)]; [left|right].
  - split; [done|]. intros p v Hp Hv. specialize (Hno p v Hp Hv). apply andb_false_iff in Hno as [H|H]; bool_props; lia.
  - split; [done|]. split; [done|]. exists v. split; [done|]. bool_props. lia.
Qed.

(** *** Creating an area *)

(** The range [a, b) overlaps an area. *)
Definition overlaps m s (a b : Z) : Prop :=
  ∃ p v, p ∈ vma_list m ∧ vmas s !! p = Some v ∧ a < vm_end v ∧ vm_start v < b.

(** The sizes of the structure of an area [a, b) and of the array of its pages. *)
Definition area_blocks (a b : Z) : list Z := [VMA_SIZE; (b - a + 4095) / 4096 * 8].

(** The area [vm_area_setup] makes. *)
Definition new_area (mm a b : Z) (type : vma_type) (prot flags pgs : Z) : vm_area_struct :=
  let n := (b - a + 4095) / 4096 in
  set_pages pgs (replicate (Z.to_nat n) 0) n (vma_init mm a b type prot flags vma_zero).

(** The fields of the [mm_struct] after an area was added. *)
Definition with_area (p a b : Z) (type : vma_type) m : mm_struct :=
  let m := set_vma_list (p :: vma_list m) (map_count m + 1) m in
  match type with
  | VMA_TEXT => grow_code a b m
  | VMA_DATA => grow_data a b m
  | _ => m
  end.

Lemma with_area_list p a b type m :
  vma_list (with_area p a b type m) = p :: vma_list m ∧ map_count (with_area p a b type m) = map_count m + 1.
Proof. by destruct type. Qed.

(** What a call returns: an area, whose two blocks are all the call keeps, or [NULL], when
    the range is in use or the heap has no room for the two blocks, with nothing changed
    and nothing kept. *)
Definition setup_result mm m s (a b : Z) (type : vma_type) (prot flags r : Z) (s' : @kmm A P) : Prop :=
  paging s' = paging s ∧ ram s' = ram s ∧ (∀ p, km_live (slab s) p → km_live (slab s') p) ∧
  (r = 0 ∧ mms s' = mms s ∧ vmas s' = vmas s ∧
     kept (slab s) [] (slab s') ∧ (overlaps m s a b ∨ ~ allocs (area_blocks a b) (slab s)) ∨
   r ≠ 0 ∧ ~ overlaps m s a b ∧ ~ km_live (slab s) r ∧ km_live (slab s') r ∧
     ∃ pgs, ~ km_live (slab s) pgs ∧ km_live (slab s') pgs ∧ pgs ≠ r ∧ vmas s' = <[r := new_area mm a b type prot flags pgs]> (vmas s) ∧
     mms s' = <[mm := with_area r a b type m]> (mms s) ∧ kept (slab s) [pgs; r] (slab s')).

Lemma vma_init_count mm a b type prot flags v :
  0 ≤ a < b → b < 2 ^ 64 → b - a ≤ 2 ^ 42 → page_count (vma_init mm a b type prot flags v) = (b - a + 4095) / 4096.
Proof.
  intros Hab Hb Hl. cbn. unfold PAGE_SIZE. rewrite u64_small by lia.
  replace (b - a + 4096 - 1) with (b - a + 4095) by lia. apply s32_small. clear -Hab Hl. zdm.
Qed.

Lemma kfree_live (a : A) p q : q ≠ p → km_live a q → km_live (kfree p a) q.
Proof. intros Hq [n Hn]. exists n. by apply kfree_others. Qed.

(** A new structure that is not on the list changes nothing for the address space. *)
Lemma mm_ok_fresh mm m s p v (a : A) pg rm :
  mm_ok mm m s → ~ km_live (slab s) p → km_live a p → (∀ q, km_live (slab s) q → km_live a q) →
  mm_ok mm m (KMM (mms s) (<[p := v]> (vmas s)) a pg rm).
Proof.
  intros [H1 H2 H3 H4 H5 H6 H7 H8 H9] Hp Ha Hmono.
  assert (∀ q w, q ∈ vma_list m → <[p := v]> (vmas s) !! q = Some w → vmas s !! q = Some w) as Hold.
  { intros q w Hq. destruct (decide (p = q)) as [->|]; [|by rewrite lookup_insert_ne].
    destruct (H4 q Hq) as (_ & w' & Hw & _). destruct Hp. apply H7. by eexists. }
  split; cbn [mms vmas slab]; try done.
  - intros q Hq. destruct (H4 q Hq) as (Hz & w & Hw & Hok). split; [done|]. exists w. split; [|done].
    rewrite lookup_insert_ne; [done|]. intros ->. apply Hp, H7. by eexists.
  - intros q r w w' Hq Hr Hne Hw Hw'. by apply (H5 q r); auto.
  - intros q [w Hw]. destruct (decide (p = q)) as [->|Hne]; [done|].
    rewrite lookup_insert_ne in Hw by done. apply Hmono, H7. by eexists.
  - intros q w Hq Hw Hz. destruct (H8 q w Hq (Hold q w Hq Hw) Hz) as [Hn Hl]. split; [|by apply Hmono].
    rewrite lookup_insert_ne; [done|]. intros ->. by apply Hp.
  - intros q r w w' Hq Hr Hne Hw Hw'. by apply (H9 q r); auto.
Qed.

Lemma vm_area_setup_spec mm m s a len type prot flags :
  mm_ok mm m s → 0 ≤ a → 0 < len ≤ 2 ^ 42 → a + len < 2 ^ 64 →
  ∃ r s', vm_area_setup mm a len type prot flags s = Ok (r, s') ∧
    setup_result mm m s a (a + len) type prot flags r s'.
Proof.
  intros HM Ha Hlen Hend. unfold vm_area_setup. rewrite (u64_small (a + len)) by lia.
  rewrite (proj2 (Z.eqb_neq mm 0)), (proj2 (Z.leb_gt (a + len) a)) by (lia || apply HM). cbn [orb].
  set (b := a + len) in *. unfold alloc_vma. destruct (kmalloc VMA_SIZE (slab s)) as [p a1] eqn:E1.
  destruct (kmalloc_fresh VMA_SIZE (slab s) p a1 ltac:(unfold VMA_SIZE; lia) E1) as [Hmono1 Hf1].
  destruct (Z.eqb_spec p 0) as [->|Hp].
  { exists 0. eexists. split; [done|]. split; [done|]. split; [done|]. split; [exact Hmono1|].
    left. split; [done|]. split; [done|]. split; [done|]. split; [by eapply kept_fail; [constructor|]|].
    right. unfold area_blocks. cbn. rewrite E1. by intros [? _]. }
  rewrite (proj2 (Z.eqb_neq p 0)) by done. destruct (Hf1 Hp) as [Hnl1 Hl1].
  assert (vmas s !! p = None) as Hnone.
  { destruct (vmas s !! p) eqn:Ev; [|done]. destruct Hnl1. apply HM. by eexists. }
  unfold on_vma, get_vma, put_vma. cbn [vmas set_vmas set_slab]. rewrite lookup_insert_eq. cbn [of_option obind].
  set (v0 := vma_init mm a b type prot flags vma_zero).
  assert (page_count v0 = (b - a + 4095) / 4096) as Hpc by (apply vma_init_count; lia).
  unfold vma_alloc_page_array, get_vma. cbn [vmas set_vmas]. rewrite lookup_insert_eq. cbn [of_option obind].
  assert (0 < (b - a + 4095) / 4096) as Hn by (clear -Hlen; unfold b; zdm).
  rewrite Hpc, (proj2 (Z.ltb_lt 0 _)) by done. cbn [slab set_vmas set_slab].
  destruct (kmalloc ((b - a + 4095) / 4096 * 8) a1) as [q a2] eqn:E2.
  destruct (kmalloc_fresh ((b - a + 4095) / 4096 * 8) a1 q a2 ltac:(lia) E2) as [Hmono2 Hf2].
  assert (∀ x, km_live (slab s) x → km_live a2 x ∧ x ≠ p) as Hlive.
  { intros x Hx. split; [by apply Hmono2, Hmono1|]. by intros ->. }
  destruct (Z.eqb_spec q 0) as [->|Hq].
  { cbn [obind]. change (negb (- ENOMEM =? 0)) with true. cbn iota. exists 0. eexists. split; [done|].
    unfold put_vma, kfree_vma, kfree_ptr. cbn. rewrite !insert_insert_eq, delete_insert_id by done.
    split; [done|]. split; [done|]. split; [intros x Hx; destruct (Hlive x Hx); by apply kfree_live|].
    left. split; [done|]. split; [done|]. split; [done|]. split.
    - eapply kept_free; [|reflexivity]. eapply kept_fail; [eapply kept_alloc; [constructor|exact E1|done]|exact E2].
    - right. unfold area_blocks. cbn. rewrite E1. cbn. rewrite E2. by intros (_ & ? & _). }
  assert (kept (slab s) [q; p] a2) as Hkept.
  { eapply kept_alloc; [eapply kept_alloc; [constructor|exact E1|done]|exact E2|done]. }
  destruct (Hf2 Hq) as [Hnl2 Hl2].
  unfold put_vma. cbn [obind vmas set_vmas set_slab mms slab paging ram Z.eqb negb].
  rewrite !insert_insert_eq. set (v1 := set_pages q _ _ v0).
  pose proof (mm_ok_fresh mm m s p v1 a2 (paging s) (ram s) HM Hnl1 (Hmono2 _ Hl1) (λ x Hx, Hmono2 _ (Hmono1 _ Hx))) as HM1.
  set (s1 := KMM (mms s) (<[p := v1]> (vmas s)) a2 (paging s) (ram s)) in *.
  match goal with |- context [insert_vm_struct mm p ?x] => change x with s1 end.
  unfold insert_vm_struct, get_vma. cbn [vmas s1]. rewrite lookup_insert_eq. cbn [of_option obind].
  change (vm_start v1) with a. change (vm_end v1) with b.
  destruct (find_intersection_ok mm m s1 a b HM1 ltac:(lia)) as (h & -> & Hh). cbn [obind].
  assert (∀ x v, x ∈ vma_list m → vmas s1 !! x = Some v ↔ vmas s !! x = Some v) as Hsame.
  { intros x v Hx. cbn. rewrite lookup_insert_ne; [done|]. intros ->. by destruct (areas_exist mm m s x HM Hx) as [_ [? ?]]; congruence. }
  destruct Hh as [[-> Hno]|(Hh & Hin & w & Hw & Ho)].
  - cbn [Z.eqb negb]. unfold on_mm, get_mm. cbn [mms s1]. rewrite (mo_mm _ _ _ HM). cbn [of_option obind].
    change (negb (0 =? 0)) with false. cbn iota. unfold put_mm. cbn [mms set_mms]. rewrite lookup_insert_eq. cbn [of_option obind].
    exists p. eexists. split; [done|]. cbn [paging ram slab vmas mms set_mms]. split; [done|]. split; [done|]. split; [by intros x Hx; apply Hlive|].
    right. split; [done|]. split.
    { intros (x & v & Hx & Hv & H1 & H2). apply Hsame in Hv; [|done]. destruct (Hno x v Hx Hv); lia. }
    split; [done|]. split; [by apply Hmono2|]. exists q. split; [intros Hx; by apply Hnl2, Hmono1|].
    split; [done|]. split; [by intros ->|]. split.
    + done.
    + split; [|exact Hkept]. rewrite insert_insert_eq. f_equal. unfold with_area. rewrite s32_small by (destruct (mo_count _ _ _ HM); lia). done.
  - rewrite (proj2 (Z.eqb_neq h 0)) by done. cbn [negb obind]. change (negb (- ENOMEM =? 0)) with true. cbn iota.
    unfold get_vma. cbn [vmas s1]. rewrite lookup_insert_eq. cbn [of_option obind]. change (vm_pages v1) with q.
    rewrite (proj2 (Z.eqb_neq q 0)) by done. cbn [negb]. exists 0. eexists. split; [done|].
    unfold kfree_vma, kfree_ptr. cbn. rewrite delete_insert_id by done. split; [done|]. split; [done|]. split.
    { intros x Hx. destruct (Hlive x Hx) as [Hl Hxp]. apply kfree_live; [done|]. apply kfree_live; [|done].
      intros ->. apply Hnl2, Hmono1, Hx. }
    left. split; [done|]. split; [done|]. split; [done|]. split.
    { eapply kept_free; [eapply kept_free; [exact Hkept|reflexivity]|reflexivity]. }
    left. exists h, w. split; [done|]. split; [by apply Hsame|done].
Qed.

Lemma new_area_ok mm a b type prot flags pgs :
  0 ≤ a < b → b < 2 ^ 64 → b - a ≤ 2 ^ 42 → area_ok mm (new_area mm a b type prot flags pgs).
Proof.
  intros Hab Hb Hl. split; cbn; [lia|done|]. rewrite length_replicate.
  assert (0 < (b - a + 4095) / 4096 < 2 ^ 31) by (clear -Hab Hl; zdm). lia.
Qed.

Lemma mm_ok_slab mm m s s' :
  mm_ok mm m s → mms s' = mms s → vmas s' = vmas s → (∀ p, km_live (slab s) p → km_live (slab s') p) → mm_ok mm m s'.
Proof.
  intros [H1 H2 H3 H4 H5 H6 H7 H8 H9] Em Ev Hmono. split; rewrite ?Em, ?Ev; try done; [by auto|].
  intros p v Hp Hv Hz. destruct (H8 p v Hp Hv Hz). auto.
Qed.

Lemma setup_ok mm m s a b type prot flags r s' :
  mm_ok mm m s → 0 ≤ a < b → b < 2 ^ 64 → b - a ≤ 2 ^ 42 → map_count m < 2 ^ 31 - 2 →
  setup_result mm m s a b type prot flags r s' →
  mm_ok mm (if r =? 0 then m else with_area r a b type m) s'.
Proof.
  intros HM Hab Hb Hln Hc (_ & _ & Hmono & [(-> & Em & Ev & _)|(Hr & Hno & Hnr & Hlr & pgs & Hnp & Hlp & Hpr & Ev & Em & _)]).
  { by apply (mm_ok_slab mm m s). }
  rewrite (proj2 (Z.eqb_neq r 0)) by done. destruct (with_area_list r a b type m) as [El Ec].
  assert (∀ p, is_Some (vmas s !! p) → p ≠ r) as Hne' by (intros p Hp ->; by apply Hnr, HM).
  assert (∀ p, p ∈ vma_list m → p ≠ r) as Hne by (intros p Hp; apply Hne'; by apply (areas_exist mm m)).
  assert (∀ p v, p ∈ vma_list m → vmas s !! p = Some v → disjoint (new_area mm a b type prot flags pgs) v) as Hd.
  { intros p v Hp Hv. unfold disjoint. cbn. destruct (Z.le_gt_cases b (vm_start v)); [by left|].
    destruct (Z.le_gt_cases (vm_end v) a); [by right|]. destruct Hno. exists p, v. split; [done|]. split; [done|]. lia. }
  assert (∀ p v, p ∈ r :: vma_list m → vmas s' !! p = Some v →
    p = r ∧ v = new_area mm a b type prot flags pgs ∨ p ∈ vma_list m ∧ vmas s !! p = Some v) as Hcase.
  { intros p v [->|Hp]%elem_of_cons Hv; rewrite Ev in Hv; [left|right].
    - rewrite lookup_insert_eq in Hv. by injection Hv.
    - rewrite lookup_insert_ne in Hv by (symmetry; by apply Hne). done. }
  split; rewrite ?El, ?Ec.
  - rewrite Em. apply lookup_insert_eq.
  - apply HM.
  - apply NoDup_cons. split; [|apply HM]. intros Hin. by apply (Hne r).
  - intros p [->|Hp]%elem_of_cons; rewrite Ev.
    + split; [done|]. rewrite lookup_insert_eq. eexists. split; [done|]. by apply new_area_ok.
    + rewrite lookup_insert_ne by (symmetry; by apply Hne). by apply (mo_area _ _ _ HM).
  - intros p q v w Hp Hq Hpq Hv Hw.
    destruct (Hcase p v Hp Hv) as [[-> ->]|[Hp' Hv']]; destruct (Hcase q w Hq Hw) as [[-> ->]|[Hq' Hw']]; [done| | |].
    + by eapply Hd.
    + destruct (Hd p v Hp' Hv'); unfold disjoint in *; tauto.
    + by apply (mo_disj _ _ _ HM p q).
  - cbn [length]. destruct (mo_count _ _ _ HM). lia.
  - intros p Hp. rewrite Ev in Hp. destruct (decide (p = r)) as [->|]; [done|].
    rewrite lookup_insert_ne in Hp by done. by apply Hmono, HM.
  - intros p v Hp Hv Hz. rewrite Ev. destruct (Hcase p v Hp Hv) as [[-> ->]|[Hp' Hv']].
    + cbn. split; [|done]. rewrite lookup_insert_ne by done. destruct (vmas s !! pgs) eqn:E; [|done].
      destruct Hnp. apply HM. by eexists.
    + destruct (mo_pages _ _ _ HM p v Hp' Hv' Hz) as [Hn Hl]. split; [|by apply Hmono].
      rewrite lookup_insert_ne; [done|]. by intros ->.
  - intros p q v w Hp Hq Hpq Hv Hw Hz.
    destruct (Hcase p v Hp Hv) as [[-> ->]|[Hp' Hv']]; destruct (Hcase q w Hq Hw) as [[-> ->]|[Hq' Hw']]; [done| | |].
    + change (pgs ≠ vm_pages w). intros E. apply Hnp. rewrite E. apply (mo_pages _ _ _ HM q w); [done|done|]. by rewrite <-E.
    + change (vm_pages v ≠ pgs). intros E. apply Hnp. rewrite <-E. by apply (mo_pages _ _ _ HM p v).
    + by apply (mo_inj _ _ _ HM p q).
Qed.

(** *** Finding a free range *)

Lemma top_end_le l s p v :
  p ∈ l → vmas s !! p = Some v →
  vm_end v ≤ foldr (λ p e, match vmas s !! p with Some v => Z.max (vm_end v) e | None => e end) 0 l.
Proof.
  induction l as [|q l IH]; intros Hp Hv; [by apply elem_of_nil in Hp|]. cbn [foldr].
  apply elem_of_cons in Hp as [->|Hp]; [rewrite Hv; lia|]. specialize (IH Hp Hv).
  destruct (vmas s !! q); lia.
Qed.

Lemma find_free_loop_spec fuel mm m s addr length :
  mm_ok mm m s → 0 < length → 0 ≤ addr → addr mod 4096 = 0 →
  top_end m s + length + 8192 < 2 ^ 64 → addr + length < 2 ^ 64 → top_end m s - addr < 4096 * Z.of_nat fuel →
  ∃ a, find_free_loop fuel mm addr length s = Ok a ∧ addr ≤ a ∧ a mod 4096 = 0 ∧ ~ overlaps m s a (a + length).
Proof.
  revert addr. induction fuel as [|fuel IH]; intros addr HM Hl Ha Hal Htop Hmax Hf;
    cbn [find_free_loop]; rewrite u64_small by lia;
    destruct (find_intersection_ok mm m s addr (addr + length) HM ltac:(lia)) as (h & -> & Hh); cbn [obind];
    destruct Hh as [[-> Hno]|(Hh & Hin & v & Hv & Ho)].
  1,3: exists addr; split; [done|]; split; [lia|]; split; [done|]; intros (p & w & Hp & Hw & Hc);
    destruct (Hno p w Hp Hw); lia.
  - pose proof (top_end_le (vma_list m) s h v Hin Hv) as Ht. fold (top_end m s) in Ht. lia.
  - rewrite (proj2 (Z.eqb_neq h 0)) by done. cbn [negb].
    pose proof (top_end_le (vma_list m) s h v Hin Hv) as Ht. fold (top_end m s) in Ht.
    assert (ROUNDUP (u64 (addr + PAGE_SIZE)) PAGE_SIZE = addr + 4096) as ->.
    { unfold PAGE_SIZE. rewrite (u64_small (addr + 4096)) by lia. unfold ROUNDUP. rewrite (u64_small (_ - 1)) by lia.
      assert (addr + 8192 < 2 ^ 64) as Hb by lia. clear -Hal Ha Hb. rewrite u64_small; zdm. }
    destruct (IH (addr + 4096)) as (a & E & H1 & H2 & H3); [done|done|lia|clear -Hal; zdm|lia|lia|lia|].
    exists a. split; [done|]. split; [lia|done].
Qed.

Lemma find_free_area_spec mm m s length :
  mm_ok mm m s → 0 < length → 0 ≤ brk m → brk m mod 4096 = 0 →
  Z.max (brk m) (top_end m s) + length + 8192 < 2 ^ 64 →
  ∃ a, find_free_area mm length s = Ok a ∧ brk m ≤ a ∧ a mod 4096 = 0 ∧ ~ overlaps m s a (a + length).
Proof.
  intros HM Hl Hb Hal Hmax. unfold find_free_area, get_mm. rewrite (mo_mm _ _ _ HM). cbn [of_option obind].
  apply find_free_loop_spec; try (done || lia). unfold PAGE_SIZE. clear -Hb. zdm.
Qed.

(** *** Copying *)

(** No area of [mm] has a protection set, as [vma_init] leaves it. *)
Definition unprotected m s : Prop := ∀ p v, p ∈ vma_list m → vmas s !! p = Some v → vm_prot v = 0.

Lemma copy_loops_refused mm m s fuel dst src len :
  mm_ok mm m s → unprotected m s → 0 < len →
  copy_to_loop (S fuel) mm dst src len 0 s = Ok (- EFAULT, s) ∧
  copy_from_loop (S fuel) mm dst src len 0 s = Ok (-1, s).
Proof.
  intros HM Hun Hlen. cbn [copy_to_loop copy_from_loop]. rewrite (proj2 (Z.ltb_lt 0 len)) by done. split.
  - destruct (find_vma_ok mm m s (u64 (dst + 0)) HM) as (r & -> & Hr). cbn [obind].
    destruct Hr as [[-> _]|(Hr & Hin & v & Hv & _)]; [done|].
    rewrite (proj2 (Z.eqb_neq r 0)) by done. unfold get_vma. rewrite Hv. cbn [of_option obind]. by rewrite (Hun r v Hin Hv).
  - destruct (find_vma_ok mm m s (u64 (src + 0)) HM) as (r & -> & Hr). cbn [obind].
    destruct Hr as [[-> _]|(Hr & Hin & v & Hv & _)]; [done|].
    rewrite (proj2 (Z.eqb_neq r 0)) by done. unfold get_vma. rewrite Hv. cbn [of_option obind]. by rewrite (Hun r v Hin Hv).
Qed.

(** *** Unmapping *)

Lemma has_page x : has x (PAGE_SIZE - 1) = negb (x mod 4096 =? 0).
Proof. unfold has. change (PAGE_SIZE - 1) with (Z.ones 12). by rewrite Z.land_ones by lia. Qed.

(** Only the allocator of structures may differ. *)
Definition same_areas s (s' : @kmm A P) : Prop :=
  mms s' = mms s ∧ vmas s' = vmas s ∧ paging s' = paging s ∧ ram s' = ram s.

(** A split asks for an area that overlaps the one it splits, so it is refused. *)
Lemma setup_refused mm m s p v a b type prot flags :
  mm_ok mm m s → p ∈ vma_list m → vmas s !! p = Some v → vm_start v ≤ a < b → b ≤ vm_end v → b - a ≤ 2 ^ 42 →
  ∃ s', vm_area_setup mm a (u64 (b - a)) type prot flags s = Ok (0, s') ∧ same_areas s s'.
Proof.
  intros HM Hp Hv Hab Hb Hlen. destruct (mo_area _ _ _ HM p Hp) as (_ & v' & Hv' & [Hr _ _]).
  rewrite Hv in Hv'. injection Hv' as <-. rewrite u64_small by lia.
  destruct (vm_area_setup_spec mm m s a (b - a) type prot flags HM) as (r & s' & E & E1 & E2 & _ & Hr'); [lia..|].
  replace (a + (b - a)) with b in Hr' by lia.
  destruct Hr' as [(-> & E3 & E4 & _)|(_ & Hno & _)]; [by exists s'|].
  destruct Hno. exists p, v. split; [done|]. split; [done|]. lia.
Qed.

Lemma split_first_refused mm m s p v start :
  mm_ok mm m s → p ∈ vma_list m → vmas s !! p = Some v → vm_start v < start < vm_end v → start - vm_start v ≤ 2 ^ 42 →
  ∃ s', split_first mm p start s = Ok (- ENOMEM, s') ∧ same_areas s s'.
Proof.
  intros HM Hp Hv Hs Hl. unfold split_first, get_vma. rewrite Hv. cbn [of_option obind].
  destruct (setup_refused mm m s p v (vm_start v) start (vm_type v) (vm_prot v) (vm_flags v) HM Hp Hv) as (s' & -> & Hsame);
    [lia..|]. by exists s'.
Qed.

Lemma split_last_refused mm m s p v end_ :
  mm_ok mm m s → p ∈ vma_list m → vmas s !! p = Some v → vm_start v < end_ < vm_end v → vm_end v - end_ ≤ 2 ^ 42 →
  ∃ s', split_last mm p end_ s = Ok (- ENOMEM, s') ∧ same_areas s s'.
Proof.
  intros HM Hp Hv Hs Hl. unfold split_last, get_vma. rewrite Hv. cbn [of_option obind].
  destruct (setup_refused mm m s p v end_ (vm_end v) (vm_type v) (vm_prot v) (vm_flags v) HM Hp Hv) as (s' & -> & Hsame);
    [lia..|]. by exists s'.
Qed.

(** The pages of [v] can be unmapped and given back. *)
Definition pages_release m v : Prop :=
  (∀ va (a : P), ∃ r a', pg_unmap (pagetable m) va PAGE_SIZE true a = Ok (r, a')) ∧
  (∀ x (a : P), x ∈ page_tab v → x ≠ 0 → ∃ a', pg_put x a = Ok a').

Lemma unmap_area_pages_ok n i m p v s :
  vmas s !! p = Some v → page_count v = Z.of_nat (length (page_tab v)) → 0 ≤ i → pages_release m v →
  ∃ s' tab, unmap_area_pages n i (pagetable m) p s = Ok s' ∧ mms s' = mms s ∧ slab s' = slab s ∧ ram s' = ram s ∧
    vmas s' = <[p := set_tab tab v]> (vmas s).
Proof.
  revert i v s. induction n as [|n IH]; intros i v s Hv Hc Hi [Hu Hp]; cbn [unmap_area_pages].
  { exists s, (page_tab v). split; [done|]. split; [done|]. split; [done|]. split; [done|].
    rewrite insert_id; [done|]. rewrite Hv. by destruct v. }
  unfold get_vma. rewrite Hv. cbn [of_option obind].
  destruct (Z.ltb_spec i (page_count v)) as [Hlt|]; [|by apply IH; [..|lia|]].
  destruct (lookup_lt_is_Some_2 (page_tab v) (Z.to_nat i)) as [x Hx]; [lia|]. rewrite Hx. cbn [of_option obind].
  destruct (Z.eqb_spec x 0) as [->|Hx0]; cbn [negb]; [by apply IH; [..|lia|]|].
  destruct (Hu (u64 (vm_start v + i * PAGE_SIZE)) (paging s)) as (r & a1 & ->). cbn [obind].
  destruct (Hp x a1) as (a2 & ->); [by eapply list_elem_of_lookup_2|done|]. cbn [obind].
  set (v1 := set_tab _ v).
  destruct (IH (i + 1) v1 (put_vma p v1 (set_paging a2 s))) as (s' & tab & E & E1 & E2 & E3 & E4).
  - cbn. apply lookup_insert_eq.
  - cbn. by rewrite length_insert.
  - lia.
  - split; [done|]. intros y a Hy Hy0. apply Hp; [|done].
    cbn in Hy. apply list_elem_of_lookup in Hy as [j Hj]. destruct (decide (j = Z.to_nat i)) as [->|Hne].
    + rewrite list_lookup_insert_eq in Hj by (apply lookup_lt_Some in Hx; done). congruence.
    + rewrite list_lookup_insert_ne in Hj by done. by eapply list_elem_of_lookup_2.
  - exists s', tab. split; [done|]. split; [done|]. split; [done|]. split; [done|].
    rewrite E4. cbn. by rewrite insert_insert_eq.
Qed.

(** Areas outside the range are skipped, until one at or above its end. *)
Lemma unmap_areas_outside l mm start end_ s :
  (∀ p, p ∈ l → ∃ v, vmas s !! p = Some v ∧ (vm_end v ≤ start ∨ end_ ≤ vm_start v)) →
  unmap_areas l mm start end_ s = Ok s.
Proof.
  induction l as [|p l IH]; intros Hl; cbn [unmap_areas]; [done|].
  destruct (Hl p ltac:(by apply elem_of_cons; left)) as (v & Hv & Hc). unfold get_vma. rewrite Hv. cbn [of_option obind].
  destruct (Z.leb_spec end_ (vm_start v)); [done|]. destruct (Z.leb_spec (vm_end v) start); [|lia].
  apply IH. intros q Hq. apply Hl. by apply elem_of_cons; right.
Qed.

Lemma unmap_areas_prefix l1 l2 mm start end_ s :
  (∀ p, p ∈ l1 → ∃ v, vmas s !! p = Some v ∧ vm_end v ≤ start ∧ vm_start v < end_) →
  unmap_areas (l1 ++ l2) mm start end_ s = unmap_areas l2 mm start end_ s.
Proof.
  induction l1 as [|p l1 IH]; intros Hl; [done|]. cbn [app unmap_areas].
  destruct (Hl p ltac:(by apply elem_of_cons; left)) as (v & Hv & H1 & H2). unfold get_vma. rewrite Hv. cbn [of_option obind].
  rewrite (proj2 (Z.leb_gt end_ _)), (proj2 (Z.leb_le (vm_end v) _)) by lia. apply IH.
  intros q Hq. apply Hl. by apply elem_of_cons; right.
Qed.

Lemma filter_one (l1 l2 : list Z) p : p ∉ l1 ++ l2 → filter (λ x, x ≠ p) (l1 ++ p :: l2) = l1 ++ l2.
Proof.
  intros Hp. rewrite filter_app, filter_cons_False by tauto. rewrite elem_of_app in Hp.
  assert (∀ l : list Z, p ∉ l → filter (λ x, x ≠ p) l = l) as Hid.
  { intros l Hl. induction l as [|x l IH]; [done|]. rewrite elem_of_cons in Hl.
    rewrite filter_cons_True by (intros ->; tauto). rewrite IH; [done|tauto]. }
  rewrite !Hid; tauto.
Qed.

(** [s'] is [s] without the area [p] of [mm]. *)
Definition area_removed mm m s (l1 : list Z) (p : Z) (l2 : list Z) (s' : @kmm A P) : Prop :=
  vmas s' = delete p (vmas s) ∧ ram s' = ram s ∧
  (∀ v, vmas s !! p = Some v → slab s' = kfree p (if vm_pages v =? 0 then slab s else kfree (vm_pages v) (slab s))) ∧
  mms s' = <[mm := set_vma_list (l1 ++ l2) (map_count m - 1) m]> (mms s).

Lemma unmap_areas_exact mm m s l1 p l2 v :
  mm_ok mm m s → vma_list m = l1 ++ p :: l2 → vmas s !! p = Some v → pages_release m v →
  (∀ q w, q ∈ l1 → vmas s !! q = Some w → vm_start w < vm_end v) →
  ∃ s', unmap_areas (vma_list m) mm (vm_start v) (vm_end v) s = Ok s' ∧ area_removed mm m s l1 p l2 s'.
Proof.
  intros HM El Hv Hrel Hord. pose proof (mo_nodup _ _ _ HM) as Hnd. rewrite El in Hnd.
  assert (p ∈ vma_list m) as Hp by (rewrite El, elem_of_app, elem_of_cons; tauto).
  destruct (mo_area _ _ _ HM p Hp) as (Hp0 & v' & Hv' & [Hr _ [Hc _]]). rewrite Hv in Hv'. injection Hv' as <-.
  rewrite <-Permutation_middle in Hnd. apply NoDup_cons in Hnd as [Hpn _].
  assert (∀ q, q ∈ l1 ++ l2 → ∃ w, vmas s !! q = Some w ∧ disjoint w v) as Hoth.
  { intros q Hq. assert (q ∈ vma_list m) as Hq' by (rewrite El, elem_of_app, elem_of_cons; rewrite elem_of_app in Hq; tauto).
    destruct (mo_area _ _ _ HM q Hq') as (_ & w & Hw & _). exists w. split; [done|].
    apply (mo_disj _ _ _ HM q p w v); [done|done| |done|done]. by intros ->. }
  rewrite El. rewrite unmap_areas_prefix.
  2: { intros q Hq. destruct (Hoth q ltac:(apply elem_of_app; tauto)) as (w & Hw & Hd). exists w. split; [done|].
       specialize (Hord q w Hq Hw). unfold disjoint in Hd. lia. }
  cbn [unmap_areas]. unfold get_vma at 1. rewrite Hv. cbn [of_option obind].
  rewrite !(proj2 (Z.leb_gt (vm_end v) _)) by lia.
  unfold get_mm at 1. rewrite (mo_mm _ _ _ HM). cbn [of_option obind].
  match goal with |- context [unmap_area_pages ?n ?i _ _ _] => destruct (unmap_area_pages_ok n i m p v s Hv Hc) as
    (s1 & tab & -> & E1 & E2 & E3 & E4); [|done|] end.
  { rewrite Z.max_l, Z.sub_diag by lia. vm_compute. done. }
  cbn [obind]. unfold unlink_vma, get_mm. rewrite E1, (mo_mm _ _ _ HM). cbn [of_option obind].
  rewrite decide_True by done. rewrite El, filter_one by done. cbn [obind].
  set (s2 := kfree_vma p _).
  assert (mms s2 = <[mm := set_vma_list (l1 ++ l2) (map_count m) m]> (mms s)) as Em2.
  { unfold s2. destruct (negb _); cbn; by rewrite E1. }
  assert (vmas s2 = delete p (vmas s)) as Ev2.
  { unfold s2. destruct (negb _); cbn; by rewrite E4, delete_insert_eq. }
  assert (ram s2 = ram s) as Er2 by (unfold s2; destruct (negb _); cbn; done).
  assert (slab s2 = kfree p (if vm_pages v =? 0 then slab s else kfree (vm_pages v) (slab s))) as Es2
    by (unfold s2; destruct (vm_pages v =? 0); cbn; by rewrite E2).
  unfold on_mm, get_mm. rewrite Em2, lookup_insert_eq. cbn [of_option obind].
  rewrite unmap_areas_outside.
  - eexists. split; [done|]. unfold put_mm. split; [exact Ev2|]. split; [exact Er2|].
    split; [intros v2 Hv2; rewrite Hv in Hv2; injection Hv2 as <-; exact Es2|]. cbn [mms set_mms].
    rewrite Em2, insert_insert_eq. cbn [map_count set_vma_list vma_list].
    assert (0 < Z.of_nat (length (vma_list m))) by (rewrite El, length_app; cbn; lia).
    rewrite s32_small by (destruct (mo_count _ _ _ HM); lia). done.
  - intros q Hq. destruct (Hoth q ltac:(apply elem_of_app; tauto)) as (w & Hw & Hd). exists w. cbn [vmas put_mm set_mms].
    rewrite Ev2, lookup_delete_ne; [split; [done|]; unfold disjoint in Hd; lia|].
    intros ->. apply Hpn. apply elem_of_app. tauto.
Qed.

Lemma removed_ok mm m s l1 p l2 s' :
  mm_ok mm m s → vma_list m = l1 ++ p :: l2 → area_removed mm m s l1 p l2 s' →
  mm_ok mm (set_vma_list (l1 ++ l2) (map_count m - 1) m) s'.
Proof.
  intros HM El (Ev & _ & Esl & Em).
  assert (p ∈ vma_list m) as Hp by (rewrite El, elem_of_app, elem_of_cons; tauto).
  destruct (mo_area _ _ _ HM p Hp) as (Hp0 & v & Hv & _). specialize (Esl v Hv).
  pose proof (mo_nodup _ _ _ HM) as Hnd. rewrite El, <-Permutation_middle in Hnd. apply NoDup_cons in Hnd as [Hpn Hnd].
  assert (∀ q, q ∈ l1 ++ l2 → q ∈ vma_list m ∧ q ≠ p) as Hsub.
  { intros q Hq. split; [|by intros ->]. rewrite El, elem_of_app, elem_of_cons. rewrite elem_of_app in Hq. tauto. }
  assert (∀ q w, q ∈ l1 ++ l2 → vmas s' !! q = Some w → vmas s !! q = Some w) as Hold.
  { intros q w Hq Hw. destruct (Hsub q Hq) as [_ Hqp]. by rewrite Ev, lookup_delete_ne in Hw by done. }
  assert (∀ q, km_live (slab s) q → q ≠ p → (vm_pages v ≠ 0 → q ≠ vm_pages v) → km_live (slab s') q) as Hlive.
  { intros q Hq Hqp Hqv. rewrite Esl. apply kfree_live; [done|].
    destruct (Z.eqb_spec (vm_pages v) 0); [done|]. apply kfree_live; [by apply Hqv|done]. }
  destruct HM as [H1 H2 H3 H4 H5 [H6 H6'] H7 H8 H9].
  split; cbn [vma_list set_vma_list map_count].
  - rewrite Em. apply lookup_insert_eq.
  - done.
  - done.
  - intros q Hq. destruct (Hsub q Hq) as [Hq' Hqp]. rewrite Ev, lookup_delete_ne by done. by apply H4.
  - intros q r w w' Hq Hr Hqr Hw Hw'. apply (H5 q r); [by apply Hsub|by apply Hsub|done|by apply Hold|by apply Hold].
  - rewrite El in H6. rewrite length_app in *. cbn [length] in H6. lia.
  - intros q Hq. rewrite Ev in Hq. destruct (decide (q = p)) as [->|Hqp]; [rewrite lookup_delete_eq in Hq; by destruct Hq|].
    rewrite lookup_delete_ne in Hq by done. apply Hlive; [by apply H7|done|].
    intros Hz ->. destruct (H8 p v Hp Hv Hz) as [Hn _]. rewrite Hn in Hq. by destruct Hq.
  - intros q w Hq Hw Hz. destruct (Hsub q Hq) as [Hq' Hqp]. specialize (Hold q w Hq Hw).
    destruct (H8 q w Hq' Hold Hz) as [Hn Hl]. split.
    + rewrite Ev. apply lookup_delete_None. by right.
    + apply Hlive; [done|congruence|]. intros Hvz E. by apply (H9 q p w v Hq' Hp Hqp Hold Hv Hz).
  - intros q r w w' Hq Hr Hqr Hw Hw'. apply (H9 q r); [by apply Hsub|by apply Hsub|done|by apply Hold|by apply Hold].
Qed.

(** *** The heap *)

(** The addresses that belong to some area. *)
Definition in_area m s (x : Z) : Prop := ∃ p v, p ∈ vma_list m ∧ vmas s !! p = Some v ∧ vm_start v ≤ x < vm_end v.

(** The area [v] at [p] grows to [v1], which ends at [b] and may have a new page array;
    the old array may have been freed. *)
Lemma mm_ok_grow mm m s p v b v1 s1 :
  mm_ok mm m s → p ∈ vma_list m → vmas s !! p = Some v →
  (∀ q w, q ∈ vma_list m → vmas s !! q = Some w → vm_end w ≤ vm_end v ∨ b ≤ vm_start w) →
  vmas s1 = <[p := v1]> (vmas s) → mms s1 = mms s → vm_start v1 = vm_start v → vm_end v1 = b → area_ok mm v1 →
  (∀ q, km_live (slab s) q → (vm_pages v ≠ vm_pages v1 → vm_pages v ≠ 0 → q ≠ vm_pages v) → km_live (slab s1) q) →
  (vm_pages v1 = vm_pages v ∨ ~ km_live (slab s) (vm_pages v1) ∧ km_live (slab s1) (vm_pages v1)) →
  mm_ok mm m s1.
Proof.
  intros HM Hp Hv Hfree Ev Em E1 E2 Hok Hlive Hpg. destruct HM as [H1 H2 H3 H4 H5 H6 H7 H8 H9].
  assert (∀ q w, vmas s1 !! q = Some w → q = p ∧ w = v1 ∨ q ≠ p ∧ vmas s !! q = Some w) as Hcase.
  { intros q w Hw. rewrite Ev in Hw. apply lookup_insert_Some in Hw as [[<- <-]|[? ?]]; [by left|right]. done. }
  assert (∀ q w, q ∈ vma_list m → q ≠ p → vmas s !! q = Some w → disjoint w v1) as Hd.
  { intros q w Hq Hqp Hw. destruct (H4 q Hq) as (_ & w' & Hw' & [Hrw _ _]). rewrite Hw in Hw'. injection Hw' as <-.
    destruct (H5 q p w v Hq Hp Hqp Hw Hv), (Hfree q w Hq Hw); unfold disjoint; lia. }
  split; rewrite ?Em; try done.
  - intros q Hq. destruct (H4 q Hq) as (Hq0 & w & Hw & Hwok). split; [done|]. rewrite Ev.
    destruct (decide (p = q)) as [<-|]; [rewrite lookup_insert_eq; by eexists|rewrite lookup_insert_ne by done; by exists w].
  - intros q r w w' Hq Hrl Hqr Hw Hw'.
    destruct (Hcase q w Hw) as [[-> ->]|[Hqp Hw1]]; destruct (Hcase r w' Hw') as [[-> ->]|[Hrp Hw1']]; [done| | |by apply (H5 q r)].
    + destruct (Hd r w' Hrl Hrp Hw1'); unfold disjoint; tauto.
    + by apply (Hd q).
  - intros q Hq. assert (is_Some (vmas s !! q)) as Hq'.
    { rewrite Ev in Hq. destruct (decide (p = q)) as [<-|]; [by eexists|by rewrite lookup_insert_ne in Hq]. }
    apply Hlive; [by apply H7|]. intros _ Hz ->. destruct (H8 p v Hp Hv Hz) as [Hn _]. rewrite Hn in Hq'. by destruct Hq'.
  - intros q w Hq Hw Hz. rewrite Ev, lookup_insert_None.
    destruct (Hcase q w Hw) as [[-> ->]|[Hqp Hw1]].
    + destruct Hpg as [E|[Hn Hl]].
      * rewrite E in Hz |- *. destruct (H8 p v Hp Hv Hz) as [Hn Hl].
        split; [split; [done|congruence]|]. apply Hlive; [done|]. by rewrite E.
      * split; [|done]. split; [|intros E; apply Hn; rewrite <-E; apply H7; by eexists].
        destruct (vmas s !! vm_pages v1) eqn:E; [|done]. destruct Hn. apply H7. by eexists.
    + destruct (H8 q w Hq Hw1 Hz) as [Hn Hl]. split; [split; [done|congruence]|].
      apply Hlive; [done|]. intros _ Hz' E. by apply (H9 q p w v Hq Hp Hqp Hw1 Hv Hz).
  - intros q r w w' Hq Hrl Hqr Hw Hw' Hz.
    destruct (Hcase q w Hw) as [[-> ->]|[Hqp Hw1]]; destruct (Hcase r w' Hw') as [[-> ->]|[Hrp Hw1']]; [done| | |by apply (H9 q r)].
    + destruct Hpg as [E|[Hn Hl]]; [rewrite E in Hz |- *; by apply (H9 p r)|].
      intros E. apply Hn. rewrite E. apply (H8 r w' Hrl Hw1'). by rewrite <-E.
    + destruct Hpg as [E|[Hn Hl]]; [rewrite E; by apply (H9 q p)|].
      intros E. apply Hn. rewrite <-E. by apply (H8 q w Hq Hw1).
Qed.

(** [s'] is [s] with the area at [p] made to end at [b]. *)
Lemma extend_heap_spec mm m s p v b :
  mm_ok mm m s → p ∈ vma_list m → vmas s !! p = Some v → vm_end v < b → b < 2 ^ 63 → b - vm_start v ≤ 2 ^ 42 →
  (∀ q w, q ∈ vma_list m → vmas s !! q = Some w → vm_end w ≤ vm_end v ∨ b ≤ vm_start w) →
  ∃ r s', extend_heap p (vm_end v) b s = Ok (r, s') ∧ mm_ok mm m s' ∧ mms s' = mms s ∧
    (r = 0 ∧ (∃ v', vm_start v' = vm_start v ∧ vm_end v' = b ∧ vm_type v' = vm_type v ∧ vmas s' = <[p := v']> (vmas s)) ∨
     r = - ENOMEM ∧ vmas s' = vmas s ∧ ~ allocs [(b - vm_start v + 4095) / 4096 * 8] (slab s)).
Proof.
  intros HM Hp Hv Hb Hb63 Hlen Hfree. destruct (mo_area _ _ _ HM p Hp) as (Hp0 & v' & Hv' & [Hr Hmm [Hc Hc31]]).
  rewrite Hv in Hv'. injection Hv' as <-.
  unfold extend_heap, get_vma. rewrite Hv. cbn [of_option obind]. cbn [page_count set_vm_end vm_start vm_pages page_tab].
  unfold PAGE_SIZE. rewrite (u64_small (page_count v)) by lia. rewrite (u64_small (b - _ + 4096 - 1)) by lia.
  replace (b - vm_start v + 4096 - 1) with (b - vm_start v + 4095) by lia. set (N := (b - vm_start v + 4095) / 4096).
  assert (0 < N ≤ 2 ^ 30) as HN by (unfold N; clear -Hr Hb Hlen; zdm). rewrite (u64_small (N * 8)) by lia.
  destruct (Z.ltb_spec (page_count v) N) as [Hlt|Hge].
  - destruct (kmalloc (N * 8) (slab s)) as [q a] eqn:Ek.
    destruct (kmalloc_fresh (N * 8) (slab s) q a ltac:(lia) Ek) as [Hmono Hf].
    destruct (Z.eqb_spec q 0) as [->|Hq].
    + eexists (- ENOMEM), _. split; [done|].
      assert (vmas (put_vma p (set_vm_end (vm_end v) (set_vm_end b v)) (set_slab a s)) = vmas s) as Ev
        by (cbn; apply insert_id; rewrite Hv; by destruct v).
      split; [|split; [done|right; split; [done|split; [exact Ev|cbn; fold N; rewrite Ek; by intros [? _]]]]].
      by apply (mm_ok_slab mm m s).
    + destruct (Hf Hq) as [Hnl Hl].
      set (tab := if negb (vm_pages v =? 0)
        then take (Z.to_nat (page_count v)) (page_tab v) ++ drop (Z.to_nat (page_count v)) (replicate (Z.to_nat N) 0)
        else replicate (Z.to_nat N) 0).
      set (s1 := if negb (vm_pages v =? 0) then kfree_ptr (vm_pages v) (set_slab a s) else set_slab a s).
      assert ((if negb (vm_pages v =? 0)
        then (take (Z.to_nat (page_count v)) (page_tab v) ++ drop (Z.to_nat (page_count v)) (replicate (Z.to_nat N) 0),
              kfree_ptr (vm_pages v) (set_slab a s)) else (replicate (Z.to_nat N) 0, set_slab a s)) = (tab, s1)) as ->
        by (unfold tab, s1; by destruct (negb _)).
      assert (Z.of_nat (length tab) = N) as Ht.
      { unfold tab. destruct (negb _); [|rewrite length_replicate; lia].
        rewrite length_app, length_take, length_drop, length_replicate. lia. }
      rewrite s32_small by lia. eexists 0, _. split; [done|].
      assert (mms s1 = mms s ∧ vmas s1 = vmas s) as [Em Ev] by (unfold s1; by destruct (negb _)).
      split; [|split; [exact Em|left; split; [done|]; eexists; split; [|split; [|split; [|cbn; by rewrite Ev]]]; done]].
      eapply (mm_ok_grow mm m s p v b _ _ HM Hp Hv Hfree); [cbn; by rewrite Ev|exact Em|done|done| | |].
      * split; [cbn; lia|exact Hmm|]. cbn. lia.
      * intros x Hx Hxv. cbn. unfold s1. destruct (Z.eqb_spec (vm_pages v) 0) as [Ez|Ez]; cbn [negb]; [by apply Hmono|].
        apply kfree_live; [|by apply Hmono]. apply Hxv; [|done]. cbn. intros Eq. apply Hnl. rewrite <-Eq.
        by apply (mo_pages _ _ _ HM p v).
      * right. cbn. split; [done|]. unfold s1. destruct (Z.eqb_spec (vm_pages v) 0) as [Ez|Ez]; cbn [negb]; [done|].
        apply kfree_live; [|done]. intros ->. apply Hnl. by apply (mo_pages _ _ _ HM p v).
  - eexists 0, _. split; [done|].
    split; [|split; [done|left; split; [done|]; eexists; split; [|split; [|split; [|done]]]; done]].
    eapply (mm_ok_grow mm m s p v b _ _ HM Hp Hv Hfree); [done|done|done|done| | |].
    + split; [cbn; lia|exact Hmm|]. cbn. lia.
    + intros x Hx _. exact Hx.
    + by left.
Qed.

Lemma mm_ok_brk mm m s b : mm_ok mm m s → mm_ok mm (set_brk b m) (put_mm mm (set_brk b m) s).
Proof. intros [H1 H2 H3 H4 H5 H6 H7 H8 H9]. split; try done. apply lookup_insert_eq. Qed.

(** The heap has no room for what growing to [b] needs: a new area, or a longer array of
    pages for the area that ends at the break. *)
Definition brk_no_room m s (b : Z) : Prop :=
  ~ allocs (area_blocks (brk m) b) (slab s) ∨
  ∃ p v, p ∈ vma_list m ∧ vmas s !! p = Some v ∧ vm_end v = brk m ∧ ~ allocs [(b - vm_start v + 4095) / 4096 * 8] (slab s).

(** What growing the heap from [brk m] to [b] may do. *)
Definition brk_result mm m s (b r : Z) (s' : @kmm A P) : Prop :=
  ∃ m', mm_ok mm m' s' ∧
    (r = b ∧ brk m' = b ∧ (∀ x, in_area m' s' x ↔ in_area m s x ∨ brk m ≤ x < b) ∨
     r = u64 (- ENOMEM) ∧ m' = m ∧ vmas s' = vmas s ∧ (overlaps m s (brk m) b ∨ brk_no_room m s b)).

(** The new heap area when there is none to extend. *)
Lemma brk_new_area mm m s b :
  mm_ok mm m s → 0 ≤ brk m < b → b < 2 ^ 63 → b - brk m ≤ 2 ^ 42 → map_count m < 2 ^ 31 - 2 →
  ∃ r s', (let! (vma, s) := vm_area_setup mm (brk m) (b - brk m) VMA_HEAP (Z.lor PROT_READ PROT_WRITE)
             (Z.lor VM_GROWSUP (Z.lor VM_PRIVATE VM_USER)) s in
           if vma =? 0 then Ok (- ENOMEM, s) else Ok (0, s)) = Ok (r, s') ∧
    (r = 0 ∧ (∃ p, mm_ok mm (with_area p (brk m) b VMA_HEAP m) s' ∧
        ∀ x, in_area (with_area p (brk m) b VMA_HEAP m) s' x ↔ in_area m s x ∨ brk m ≤ x < b) ∨
     r = - ENOMEM ∧ mm_ok mm m s' ∧ vmas s' = vmas s ∧ (overlaps m s (brk m) b ∨ ~ allocs (area_blocks (brk m) b) (slab s))).
Proof.
  intros HM Hb Hb63 Hlen Hc.
  destruct (vm_area_setup_spec mm m s (brk m) (b - brk m) VMA_HEAP (Z.lor PROT_READ PROT_WRITE)
    (Z.lor VM_GROWSUP (Z.lor VM_PRIVATE VM_USER)) HM) as (p & s' & -> & Hres); [lia..|]. cbn [obind].
  replace (brk m + (b - brk m)) with b in Hres by lia.
  pose proof (setup_ok mm m s (brk m) b _ _ _ p s' HM ltac:(lia) ltac:(lia) Hlen Hc Hres) as HM'.
  destruct Hres as (_ & _ & _ & [(-> & Em & Ev & _ & Hwhy)|(Hp & _ & Hnr & _ & pgs & _ & _ & _ & Ev & _)]).
  - eexists (- ENOMEM), s'. split; [done|]. right. split; [done|]. split; [done|]. by split.
  - rewrite (proj2 (Z.eqb_neq p 0)) in * by done. exists 0, s'. split; [done|]. left. split; [done|]. exists p.
    split; [done|]. intros x. unfold in_area. rewrite (proj1 (with_area_list p (brk m) b VMA_HEAP m)), Ev. split.
    + intros (q & w & Hq & Hw & Hx). apply elem_of_cons in Hq as [->|Hq].
      * rewrite lookup_insert_eq in Hw. injection Hw as <-. right. exact Hx.
      * left. exists q, w. split; [done|]. split; [|done]. rewrite lookup_insert_ne in Hw; [done|]. intros ->.
        apply Hnr, HM. by apply (areas_exist mm m).
    + intros [(q & w & Hq & Hw & Hx)|Hx].
      * exists q, w. split; [by apply elem_of_cons; right|]. split; [|done]. rewrite lookup_insert_ne; [done|].
        intros ->. apply Hnr, HM. by eexists.
      * eexists p, _. split; [by apply elem_of_cons; left|]. split; [apply lookup_insert_eq|exact Hx].
Qed.

Lemma do_brk_grow mm m s nb b :
  mm_ok mm m s → 0 < nb → b = (nb + 4095) / 4096 * 4096 → start_brk m ≤ b → 0 < brk m < b → b ≤ 2 ^ 42 →
  map_count m < 2 ^ 31 - 2 →
  ∃ r s', do_brk mm nb s = Ok (r, s') ∧ brk_result mm m s b r s'.
Proof.
  intros HM Hnb Eb Hstart Hold Hb Hc. unfold do_brk, get_mm.
  assert (mms s !! mm = Some m) as Hmm by apply HM.
  rewrite (proj2 (Z.eqb_neq mm 0)) by apply HM. rewrite Hmm. cbn [of_option obind].
  rewrite (proj2 (Z.eqb_neq nb 0)) by lia. cbv zeta. rewrite ROUNDUP_page by (clear -Eb Hnb Hb; zdm).
  rewrite <-Eb. rewrite (proj2 (Z.ltb_ge b _)), (proj2 (Z.eqb_neq b _)), (proj2 (Z.ltb_lt (brk m) b)) by lia.
  destruct (find_intersection_ok mm m s (brk m) b HM ltac:(lia)) as (h & -> & Hh). cbn [obind].
  destruct Hh as [[-> Hfree]|(Hh & Hin & w & Hw & Ho)].
  2: { rewrite (proj2 (Z.eqb_neq h 0)) by done. cbn [negb obind]. eexists _, s. split; [done|]. exists m. split; [done|].
       right. split; [done|]. split; [done|]. split; [done|]. left. by exists h, w. }
  cbn [Z.eqb negb]. rewrite (u64_small (brk m - 1)) by lia.
  destruct (find_vma_ok mm m s (brk m - 1) HM) as (p & -> & Hp). cbn [obind].
  assert (∀ m1 s1 r1 (H1 : mm_ok mm m1 s1), mms s1 !! mm = Some m1 → (∀ x, in_area m1 s1 x ↔ in_area m s x ∨ brk m ≤ x < b) →
    r1 = 0 → ∃ r s', (if negb (r1 =? 0) then Ok (u64 r1, s1) else let! s := on_mm mm (set_brk b) s1 in Ok (b, s)) = Ok (r, s') ∧
      brk_result mm m s b r s') as Hdone.
  { intros m1 s1 r1 H1 E1 Ha ->. cbn [Z.eqb negb]. unfold on_mm, get_mm. rewrite E1. cbn [of_option obind].
    eexists _, _. split; [done|]. exists (set_brk b m1). split; [by apply mm_ok_brk|]. left. split; [done|]. split; [done|]. exact Ha. }
  assert (∃ fits, (if p =? 0 then Ok false else let! v := get_vma p s in
      Ok ((vm_end v =? brk m) && bool_decide (vm_type v = VMA_HEAP))) = Ok fits ∧
    (fits = true → p ∈ vma_list m ∧ ∃ v, vmas s !! p = Some v ∧ vm_end v = brk m)) as (fits & -> & Hfits).
  { destruct Hp as [[-> _]|(Hp & Hin & v & Hv & _)]; [by exists false|].
    rewrite (proj2 (Z.eqb_neq p 0)) by done. unfold get_vma. rewrite Hv. cbn [of_option obind]. eexists. split; [done|].
    intros E. bool_props. split; [done|]. by exists v. }
  cbn [obind]. destruct fits.
  - destruct (Hfits eq_refl) as (Hin & v & Hv & Ev).
    destruct (mo_area _ _ _ HM p Hin) as (_ & v0 & Hv0 & [Hrv _ _]). rewrite Hv in Hv0. injection Hv0 as <-.
    rewrite <-Ev in Hfree |- *.
    destruct (extend_heap_spec mm m s p v b HM Hin Hv) as (r & s' & -> & HM' & Em & Hr); [lia..|exact Hfree|]. cbn [obind].
    destruct Hr as [(-> & v' & E1 & E2 & _ & Ev')|(-> & Ev' & Hno)].
    + apply (Hdone m s' 0); [done|by rewrite Em| |done]. intros x. unfold in_area. rewrite Ev'. split.
      * intros (q & w & Hq & Hw & Hx). destruct (decide (p = q)) as [<-|Hne].
        -- rewrite lookup_insert_eq in Hw. injection Hw as <-. destruct (Z.lt_ge_cases x (vm_end v)); [left|right; lia].
           exists p, v. split; [done|]. split; [done|]. lia.
        -- rewrite lookup_insert_ne in Hw by done. left. by exists q, w.
      * intros [(q & w & Hq & Hw & Hx)|Hx].
        -- destruct (decide (p = q)) as [<-|Hne].
           ++ exists p, v'. split; [done|]. rewrite lookup_insert_eq. split; [done|]. rewrite Hv in Hw. injection Hw as <-. lia.
           ++ exists q, w. split; [done|]. by rewrite lookup_insert_ne.
        -- exists p, v'. split; [done|]. rewrite lookup_insert_eq. split; [done|]. lia.
    + change (negb (- ENOMEM =? 0)) with true. cbn iota. eexists _, _. split; [done|]. exists m. split; [done|].
      right. split; [done|]. split; [done|]. split; [done|]. right. right. by exists p, v.
  - destruct (brk_new_area mm m s b HM) as (r & s' & -> & Hr); [lia..|]. cbn [obind].
    destruct Hr as [(-> & q & HM' & Ha)|(-> & HM' & Ev & Hwhy)].
    + apply (Hdone _ s' 0 HM'); [apply HM'|exact Ha|done].
    + change (negb (- ENOMEM =? 0)) with true. cbn iota. eexists _, _. split; [done|]. exists m. split; [done|].
      right. split; [done|]. split; [done|]. split; [done|]. destruct Hwhy as [?|?]; [by left|by right; left].
Qed.

(** *** Reading user memory *)

Lemma find_vma_unique mm m s p v x :
  mm_ok mm m s → p ∈ vma_list m → vmas s !! p = Some v → vm_start v ≤ x < vm_end v → find_vma mm x s = Ok p.
Proof.
  intros HM Hp Hv Hx. destruct (find_vma_ok mm m s x HM) as (r & -> & [[-> Hno]|(_ & Hr & w & Hw & Hxw)]).
  - by destruct (Hno p v Hp Hv).
  - f_equal. destruct (decide (r = p)) as [|Hne]; [done|].
    destruct (mo_disj _ _ _ HM r p w v Hr Hp Hne Hw Hv); lia.
Qed.

(** The page of address [x] in the area [v] is present, at [pa]. *)
Record page_present s v (x pa : Z) : Prop := {
  pp_align : vm_start v mod 4096 = 0;
  pp_prot : has (vm_prot v) PROT_READ = true;
  pp_page : ∃ pg, pg ≠ 0 ∧ page_tab v !! Z.to_nat ((x - vm_start v) / 4096) = Some pg ∧ pg_paddr pg (paging s) = Ok pa;
}.

Lemma copy_from_page mm m s p v dst x n pa :
  mm_ok mm m s → p ∈ vma_list m → vmas s !! p = Some v → vm_start v ≤ x < vm_end v → page_present s v x pa →
  0 < n → x mod 4096 + n ≤ 4096 → x ≠ 0 → 0 ≤ pa → pa + 4096 < 2 ^ 64 → 7 ≤ dst → dst + n < 2 ^ 64 →
  mem_ok (ram s) → mapped (ram s) (pa + x mod 4096) n → mapped (ram s) dst n → forward_safe dst (pa + x mod 4096) n →
  ∃ r', mm_copy_from_user mm dst x n s = Ok (n, set_ram r' s) ∧ blit dst (pa + x mod 4096) 0 n (ram s) r'.
Proof.
  intros HM Hp Hv Hx [Hal Hprot (pg & Hpg & Htab & Hpa)] Hn Hpage Hx0 Hpa0 Hpam Hd Hdm Hok Hms Hmd Hfs.
  destruct (mo_area _ _ _ HM p Hp) as (Hp0 & v' & Hv' & [Hr _ [Hc Hc31]]). rewrite Hv in Hv'. injection Hv' as <-.
  pose proof (Z.mod_pos_bound x 4096 ltac:(lia)) as Hxm.
  unfold mm_copy_from_user. rewrite (proj2 (Z.eqb_neq mm 0)), (proj2 (Z.eqb_neq dst 0)), (proj2 (Z.eqb_neq x 0)),
    (proj2 (Z.eqb_neq n 0)) by (lia || apply HM). cbn [orb].
  replace (Z.to_nat n) with (S (Z.to_nat (n - 1))) by lia. cbn [copy_from_loop].
  rewrite (proj2 (Z.ltb_lt 0 n)) by lia. rewrite !Z.add_0_r, (u64_small x) by lia.
  rewrite (find_vma_unique mm m s p v x HM Hp Hv Hx). cbn [obind]. rewrite (proj2 (Z.eqb_neq p 0)) by done.
  unfold get_vma. rewrite Hv. cbn [of_option obind]. rewrite Hprot. cbn [negb]. rewrite ROUNDDOWN_page by lia.
  unfold PAGE_SIZE. rewrite Z.sub_0_r, Z.min_r by lia.
  assert (vm_start v ≤ x / 4096 * 4096 ≤ x) as Hva by (clear -Hal Hx; zdm).
  assert ((x / 4096 * 4096 - vm_start v) / 4096 = (x - vm_start v) / 4096) as Eidx by (clear -Hal; zdm).
  assert (0 ≤ (x - vm_start v) / 4096) by (clear -Hx; zdm).
  pose proof (lookup_lt_Some _ _ _ Htab) as Hlt.
  rewrite (u64_small (x / 4096 * 4096 - vm_start v)) by lia. rewrite Eidx, s32_small by lia.
  rewrite (proj2 (Z.ltb_ge _ 0)), (proj2 (Z.leb_gt (page_count v) _)) by lia. cbn [orb].
  rewrite Htab. cbn [of_option obind]. rewrite (proj2 (Z.eqb_neq pg 0)) by done. rewrite Hpa. cbn [obind].
  rewrite (u64_small dst), (u64_small (pa + _)) by lia.
  destruct (memcpy_spec dst (pa + x mod 4096) n (ram s)) as (r' & -> & Hb); [done|done|done|done|lia..|]. cbn [obind].
  exists r'. split; [|done]. rewrite Z.add_0_l. destruct (Z.to_nat (n - 1)); cbn [copy_from_loop]; by rewrite Z.ltb_irrefl.
Qed.

(** ** Properties *)

(** C12. [vm_area_setup] in a well-formed address space adds an area with exactly the
    range, type and flags asked for at the head of the list and keeps the areas
    disjoint and counted; it returns [NULL], with areas and lists as before and every
    block it allocated given back, only if the range overlaps an area or the heap it was
    called with has no room for the structure and the array of pages. *)
Theorem vm_area_setup_correct mm m s a len type prot flags :
  mm_ok mm m s → 0 ≤ a → 0 < len ≤ 2 ^ 42 → a + len < 2 ^ 64 → map_count m < 2 ^ 31 - 2 →
  ∃ r s', vm_area_setup mm a len type prot flags s = Ok (r, s') ∧
    setup_result mm m s a (a + len) type prot flags r s' ∧
    mm_ok mm (if r =? 0 then m else with_area r a (a + len) type m) s'.
Proof.
  intros HM Ha Hlen Hend Hc. destruct (vm_area_setup_spec mm m s a len type prot flags HM Ha Hlen Hend) as (r & s' & E & Hr).
  exists r, s'. split; [done|]. split; [done|]. eapply setup_ok; [exact HM|lia..|exact Hr].
Qed.

(** C13. Growing the heap: [do_brk] above the current break makes exactly the addresses
    up to the new, page-aligned break part of an area, by extending the area that ends
    at the break if it is a heap area and by adding one otherwise, and keeps the areas
    disjoint; if the range is in use or memory runs out it returns [-ENOMEM] and break
    and areas stay as they were. *)
Theorem do_brk_grows mm m s nb b :
  mm_ok mm m s → 0 < nb → b = (nb + 4095) / 4096 * 4096 → start_brk m ≤ b → 0 < brk m < b → b ≤ 2 ^ 42 →
  map_count m < 2 ^ 31 - 2 →
  ∃ r s', do_brk mm nb s = Ok (r, s') ∧ brk_result mm m s b r s'.
Proof. apply do_brk_grow. Qed.

(** C29. The search for a free range ends and returns a page-aligned address at or above
    the break such that the range overlaps no area. *)
Theorem find_free_area_free mm m s length :
  mm_ok mm m s → 0 < length → 0 ≤ brk m → brk m mod 4096 = 0 →
  Z.max (brk m) (top_end m s) + length + 8192 < 2 ^ 64 →
  ∃ a, find_free_area mm length s = Ok a ∧ brk m ≤ a ∧ a mod 4096 = 0 ∧ ~ overlaps m s a (a + length).
Proof. apply find_free_area_spec. Qed.

(** What [do_unmap] does to a page-aligned range: it does nothing when no area
    contains its first address, even if areas begin inside the range; it fails with
    [-ENOMEM] and changes nothing whenever an area would have to be split at the start of
    the range; and when the range is exactly an area that no area above the range precedes
    in the list, it removes exactly this area and keeps the address space well-formed. *)
Theorem do_unmap_cases mm m s start len :
  mm_ok mm m s → 0 ≤ start → 0 < len → start mod 4096 = 0 → len mod 4096 = 0 → start + len < 2 ^ 64 →
  ((∀ p v, p ∈ vma_list m → vmas s !! p = Some v → ~ (vm_start v ≤ start < vm_end v)) →
     do_unmap mm start len s = Ok (0, s)) ∧
  (∀ p v, p ∈ vma_list m → vmas s !! p = Some v → vm_start v < start < vm_end v → start - vm_start v ≤ 2 ^ 42 →
     ∃ s', do_unmap mm start len s = Ok (- ENOMEM, s') ∧ same_areas s s') ∧
  (∀ l1 p l2 v, vma_list m = l1 ++ p :: l2 → vmas s !! p = Some v → vm_start v = start → vm_end v = start + len →
     pages_release m v → (∀ q w, q ∈ l1 → vmas s !! q = Some w → vm_start w < start + len) →
     ∃ s', do_unmap mm start len s = Ok (0, s') ∧ area_removed mm m s l1 p l2 s' ∧
       mm_ok mm (set_vma_list (l1 ++ l2) (map_count m - 1) m) s').
Proof.
  intros HM Hs Hl Hsa Hla Hend. unfold do_unmap.
  rewrite (proj2 (Z.eqb_neq mm 0)), (proj2 (Z.eqb_neq len 0)) by (lia || apply HM). cbn [orb].
  rewrite !has_page, Hsa, Hla. cbn [Z.eqb negb orb]. rewrite u64_small, (proj2 (Z.ltb_ge _ start)) by lia.
  split; [|split].
  - intros Hno. destruct (find_vma_ok mm m s start HM) as (r & -> & [[-> _]|(_ & Hr & w & Hw & Hx)]); [done|].
    by destruct (Hno r w Hr Hw).
  - intros p v Hp Hv Hsv Hlen. rewrite (find_vma_unique mm m s p v start HM Hp Hv) by lia. cbn [obind].
    destruct (areas_exist mm m s p HM Hp) as [Hp0 _]. rewrite (proj2 (Z.eqb_neq p 0)) by done.
    unfold get_vma. rewrite Hv. cbn [of_option obind].
    rewrite (proj2 (Z.leb_gt _ (vm_start v))), (proj2 (Z.ltb_lt (vm_start v) _)) by lia.
    destruct (split_first_refused mm m s p v start HM Hp Hv Hsv Hlen) as (s' & -> & Hsame). cbn [obind].
    change (negb (- ENOMEM =? 0)) with true. by exists s'.
  - intros l1 p l2 v El Hv Es Ee Hrel Hord.
    assert (p ∈ vma_list m) as Hp by (rewrite El, elem_of_app, elem_of_cons; tauto).
    rewrite (find_vma_unique mm m s p v start HM Hp Hv) by lia. cbn [obind].
    destruct (areas_exist mm m s p HM Hp) as [Hp0 _]. rewrite (proj2 (Z.eqb_neq p 0)) by done.
    unfold get_vma at 1. rewrite Hv. cbn [of_option obind].
    rewrite (proj2 (Z.leb_gt _ (vm_start v))), (proj2 (Z.ltb_ge (vm_start v) _)) by lia. cbn [obind Z.eqb negb].
    assert (∃ nx, find_vma mm (start + len) s = Ok nx ∧
      (if nx =? 0 then Ok (0, s) else let! w := get_vma nx s in
         if (vm_start w <? start + len) && (start + len <? vm_end w) then split_last mm nx (start + len) s else Ok (0, s))
      = Ok (0, s)) as (nx & -> & Enx).
    { destruct (find_vma_ok mm m s (start + len) HM) as (nx & E & Hnx). exists nx. split; [done|].
      destruct Hnx as [[-> _]|(Hnz & Hin & w & Hw & Hx)]; [done|]. rewrite (proj2 (Z.eqb_neq nx 0)) by done.
      unfold get_vma. rewrite Hw. cbn [of_option obind]. rewrite (proj2 (Z.ltb_ge (vm_start w) _)); [done|].
      destruct (decide (nx = p)) as [->|Hne]; [rewrite Hv in Hw; injection Hw as <-; lia|].
      destruct (mo_disj _ _ _ HM nx p w v Hin Hp Hne Hw Hv); lia. }
    cbn [obind]. rewrite Enx. cbn [obind Z.eqb negb]. change (negb (0 =? 0)) with false. cbn iota.
    unfold get_mm. rewrite (mo_mm _ _ _ HM). cbn [of_option obind]. rewrite <-Ee, <-Es.
    destruct (unmap_areas_exact mm m s l1 p l2 v HM El Hv Hrel) as (s' & -> & Hrem); [intros q w Hq Hw; specialize (Hord q w Hq Hw); lia|].
    cbn [obind]. exists s'. split; [done|]. split; [done|]. by eapply removed_ok.
Qed.

(** Areas made by [vm_area_setup] have no protection recorded in [vm_prot], and in
    an address space of such areas every copy from or to user memory is refused with
    nothing copied; [access_ok] refuses every address of a task with an address space. *)
Theorem user_copies_refused mm m s :
  mm_ok mm m s → unprotected m s →
  (∀ a b type prot flags pgs, vm_prot (new_area mm a b type prot flags pgs) = 0) ∧
  (∀ dst src n, 0 < n < 2 ^ 63 →
     copy_to_user mm dst src n s = Ok (n, s) ∧ copy_from_user mm dst src n s = Ok (n, s)) ∧
  ∀ addr n, access_ok mm addr n = 0.
Proof.
  intros HM Hun. split; [done|]. assert (mm ≠ 0) as Hz by apply HM. split.
  - intros dst src n Hn. unfold copy_to_user, copy_from_user, mm_copy_to_user, mm_copy_from_user.
    rewrite (proj2 (Z.eqb_neq mm 0)), (proj2 (Z.eqb_neq n 0)) by (done || lia). cbn [orb].
    replace (Z.to_nat n) with (S (Z.to_nat (n - 1))) by lia.
    destruct (copy_loops_refused mm m s (Z.to_nat (n - 1)) dst src n HM Hun ltac:(lia)) as [-> ->].
    by destruct ((dst =? 0) || (src =? 0) || false).
  - intros addr n. unfold access_ok. by rewrite (proj2 (Z.eqb_neq mm 0)).
Qed.

(** Reading user memory inside one page: in an area whose recorded protection
    allows reading and whose page is present, [copy_from_user] copies exactly the bytes at
    the page's physical address plus the offset to the destination and reports that none
    is left. *)
Theorem copy_from_user_page mm m s p v dst x n pa :
  mm_ok mm m s → p ∈ vma_list m → vmas s !! p = Some v → vm_start v ≤ x < vm_end v → page_present s v x pa →
  0 < n → x mod 4096 + n ≤ 4096 → x ≠ 0 → 0 ≤ pa → pa + 4096 < 2 ^ 64 → 7 ≤ dst → dst + n < 2 ^ 64 →
  mem_ok (ram s) → mapped (ram s) (pa + x mod 4096) n → mapped (ram s) dst n → forward_safe dst (pa + x mod 4096) n →
  ∃ r', copy_from_user mm dst x n s = Ok (0, set_ram r' s) ∧ blit dst (pa + x mod 4096) 0 n (ram s) r'.
Proof.
  intros HM Hp Hv Hx Hpp Hn Hpage Hx0 Hpa0 Hpam Hd Hdm Hok Hms Hmd Hfs.
  destruct (copy_from_page mm m s p v dst x n pa HM Hp Hv Hx Hpp) as (r' & E & Hb); [done..|].
  exists r'. split; [|done]. unfold copy_from_user. rewrite (proj2 (Z.eqb_neq mm 0)) by apply HM. rewrite E. cbn [obind].
  rewrite (proj2 (Z.ltb_ge n 0)) by lia. by rewrite Z.sub_diag.
Qed.
End Spec.

(** ** Witnesses: two areas of one page each, the first with a page at 65536 *)

(** Pages are given by a table; there are no page tables and no free pages. *)
#[export] Instance table_paging : Paging (gmap Z Z) := {
  pg_alloc a := Ok (0, a);
  pg_put p a := Ok a;
  pg_paddr p a := of_option (a !! p);
  pg_map _ _ _ _ a := Ok (-1, a);
  pg_unmap _ _ _ _ a := Ok (0, a);
  pg_walk _ _ a := Ok 0;
  pg_read _ a := Fault;
  pg_write _ _ a := Fault;
  pg_clear _ a := a;
  pg_free _ a := Ok a;
}.

Definition sample_mm : mm_struct := MM false 0 [300; 200] 2 0 0 0 0 4194304 4198400 0 0 1 1.
Definition heap_area (prot : Z) : vm_area_struct := VMA 4194304 4198400 prot VMA_HEAP 0 100 0 0 50000 [77] 1.
Definition stack_area : vm_area_struct := VMA 8388608 8392704 0 VMA_STACK 0 100 0 0 60000 [0] 1.

Definition sample_state (prot : Z) : @kmm Z (gmap Z Z) :=
  KMM {[100 := sample_mm]} {[200 := heap_area prot; 300 := stack_area]} 100000 {[77 := 65536]}
      (list_to_map ((λ i, (65536 + i, i)) <$> seqZ 0 16) ∪ list_to_map ((λ i, (70000 + i, 0)) <$> seqZ 0 16)).

Lemma sample_areas prot p v :
  vmas (sample_state prot) !! p = Some v → p = 200 ∧ v = heap_area prot ∨ p = 300 ∧ v = stack_area.
Proof.
  intros Hv. cbn in Hv. apply lookup_insert_Some in Hv as [[<- <-]|[_ Hv]]; [by left|right].
  apply lookup_singleton_Some in Hv as [<- <-]. done.
Qed.

Lemma sample_mm_ok prot : mm_ok 100 sample_mm (sample_state prot).
Proof.
  split.
  - done.
  - done.
  - apply (bool_decide_unpack _). vm_compute. exact I.
  - intros p Hp. cbn in Hp. rewrite !elem_of_cons, elem_of_nil in Hp. destruct Hp as [->|[->|[]]]; (split; [done|]).
    + exists stack_area. split; [done|]. by split.
    + exists (heap_area prot). split; [done|]. by split.
  - intros p q v w _ _ Hpq [[-> ->]|[-> ->]]%sample_areas [[-> ->]|[-> ->]]%sample_areas; try done; [left|right]; cbn; lia.
  - cbn. lia.
  - intros p [v Hv]. apply sample_areas in Hv as [[-> _]|[-> _]]; exists 88; cbn; lia.
  - intros p v _ [[-> ->]|[-> ->]]%sample_areas _; (split; [done|]); exists 8; cbn; lia.
  - intros p q v w _ _ Hpq [[-> ->]|[-> ->]]%sample_areas [[-> ->]|[-> ->]]%sample_areas; done.
Qed.

Lemma vm_area_setup_correct_witness :
  ∃ r s', vm_area_setup 100 12582912 8192 VMA_DATA PROT_READ VM_USER (sample_state 0) = Ok (r, s') ∧
    mm_ok 100 (if r =? 0 then sample_mm else with_area r 12582912 12591104 VMA_DATA sample_mm) s'.
Proof.
  destruct (vm_area_setup_correct 100 sample_mm (sample_state 0) 12582912 8192 VMA_DATA PROT_READ VM_USER (sample_mm_ok 0))
    as (r & s' & E & _ & HM); [lia..|cbn; lia|]. exists r, s'. split; [exact E|exact HM].
Defined.

Lemma do_brk_grows_witness :
  ∃ r s', do_brk 100 4200000 (sample_state 0) = Ok (r, s') ∧ brk_result 100 sample_mm (sample_state 0) 4202496 r s'.
Proof.
  apply (do_brk_grows 100 sample_mm (sample_state 0) 4200000 4202496 (sample_mm_ok 0));
    [lia|reflexivity|cbn; lia|cbn; lia|lia|cbn; lia].
Defined.

Lemma find_free_area_free_witness :
  ∃ a, find_free_area 100 8192 (sample_state 0) = Ok a ∧ 4198400 ≤ a ∧ ~ overlaps sample_mm (sample_state 0) a (a + 8192).
Proof.
  destruct (find_free_area_free 100 sample_mm (sample_state 0) 8192 (sample_mm_ok 0)) as (a & E & H1 & _ & H2);
    [lia|cbn; lia|reflexivity|vm_compute; done|]. exists a. split; [exact E|]. split; [exact H1|exact H2].
Defined.

Lemma do_unmap_cases_witness :
  do_unmap 100 4096 4194304 (sample_state 0) = Ok (0, sample_state 0) ∧
  ∃ s', do_unmap 100 8388608 4096 (sample_state 0) = Ok (0, s') ∧ mm_ok 100 (set_vma_list [200] 1 sample_mm) s'.
Proof.
  split.
  - apply (proj1 (do_unmap_cases 100 sample_mm (sample_state 0) 4096 4194304 (sample_mm_ok 0)
      ltac:(lia) ltac:(lia) eq_refl eq_refl ltac:(lia))).
    intros p v _ Hv. apply sample_areas in Hv as [[_ ->]|[_ ->]]; cbn; lia.
  - destruct (proj2 (proj2 (do_unmap_cases 100 sample_mm (sample_state 0) 8388608 4096 (sample_mm_ok 0)
      ltac:(lia) ltac:(lia) eq_refl eq_refl ltac:(lia))) [] 300 [200] stack_area) as (s' & E & _ & HM).
    + reflexivity.
    + reflexivity.
    + reflexivity.
    + reflexivity.
    + split; [intros va a; by exists 0, a|intros x a _ _; by exists a].
    + intros q w Hq. by apply elem_of_nil in Hq.
    + exists s'. split; [exact E|exact HM].
Defined.

Lemma user_copies_refused_witness :
  copy_to_user 100 4194304 70000 4 (sample_state 0) = Ok (4, sample_state 0) ∧ access_ok 100 4194304 4 = 0.
Proof.
  destruct (user_copies_refused 100 sample_mm (sample_state 0) (sample_mm_ok 0)) as (_ & Hc & Ha).
  - intros p v _ Hv. apply sample_areas in Hv as [[_ ->]|[_ ->]]; reflexivity.
  - split; [apply Hc; lia|apply Ha].
Defined.

Lemma copy_from_user_page_witness :
  ∃ r', copy_from_user 100 70000 4194309 3 (sample_state 1) = Ok (0, set_ram r' (sample_state 1)) ∧
    blit 70000 65541 0 3 (ram (sample_state 1)) r'.
Proof.
  apply (copy_from_user_page 100 sample_mm (sample_state 1) 200 (heap_area 1) 70000 4194309 3 65536 (sample_mm_ok 1)).
  - apply (bool_decide_unpack _). vm_compute. exact I.
  - reflexivity.
  - cbn. lia.
  - split; [reflexivity|reflexivity|]. exists 77. split; [lia|]. split; reflexivity.
  - lia.
  - vm_compute. discriminate.
  - lia.
  - lia.
  - lia.
  - lia.
  - lia.
  - assert (map_Forall (λ _ b, 0 ≤ b < 256) (ram (sample_state 1))) as Hf
      by (apply (bool_decide_unpack _); vm_compute; exact I).
    intros a b Hb. exact (Hf a b Hb).
  - intros i Hi. assert (i = 0 ∨ i = 1 ∨ i = 2) as [->|[->| ->]] by lia; vm_compute; by eexists.
  - intros i Hi. assert (i = 0 ∨ i = 1 ∨ i = 2) as [->|[->| ->]] by lia; vm_compute; by eexists.
  - vm_compute. right. discriminate.
Defined.
