(* ===== verification/Paging.v ===== *)
(** * The paging interface, from the page tables and the page allocator

    [Mm] is written against [Paging]; here the interface is implemented by the
    operations of [PageTable] on the allocator of [Page]. The identity
    [struct page *] of a page is the address of its structure. *)

From stdpp Require Import base gmap list.
From S2P Require Import Prelude PageTable Page Mm.
Local Open Scope Z_scope.
Local Open Scope kernel_scope.

Section Paging.
Context (kernel_pa : Z → outcome Z).
Let PA : PageAlloc page_heap := page_heap_alloc kernel_pa.
Local Existing Instance PA.

(** [alloc_page()]: the structure of the page taken. *)
Definition machine_alloc (s : @vmem page_heap) : outcome (Z * @vmem page_heap) :=
  let! (pa, a) := PageTable.alloc_page (pages s) in
  let! p := addr_to_page kernel_pa pa (proj1_sig a) in
  Ok (p, PageTable.set_pages a s).

(** [put_page(page)] returns only when it changes nothing. *)
Definition machine_put (p : Z) (s : @vmem page_heap) : outcome (@vmem page_heap) :=
  let! _ := Page.put_page p (proj1_sig (pages s)) in Ok s.

Definition machine_paddr (p : Z) (s : @vmem page_heap) : outcome Z :=
  let! v := get_struct p (proj1_sig (pages s)) in Ok (paddr v).

#[export] Instance machine_paging : Paging (@vmem page_heap) := {
  pg_alloc := machine_alloc;
  pg_put := machine_put;
  pg_paddr := machine_paddr;
  pg_map := pgt_map_page;
  pg_unmap := pgt_unmap;
  pg_walk pt va s := let! (pte, _) := page_walk pt va false s in Ok pte;
  pg_read := read_word;
  pg_write := write_word;
  pg_clear pt s := set_words (clear_page PT_ENTRIES pt (words s)) s;
  pg_free := free_pagetable;
}.

(** Without allocation, [page_walk] leaves the state alone. *)
Lemma page_walk_pure pt va (s s' : @vmem page_heap) pte : page_walk pt va false s = Ok (pte, s') → s' = s.
Proof.
  unfold page_walk, walk_step. destruct (_ =? 0); [by intros [= _ <-]|]. destruct (_ <=? _); [by intros [= _ <-]|].
  destruct (read_word _ s) as [w| | |]; cbn [obind]; [|done..]. destruct (negb _); cbn [obind]; [|by intros [= _ <-]].
  destruct (read_word _ s) as [w'| | |]; cbn [obind]; [|done..]. destruct (negb _); cbn [obind]; by intros [= _ <-].
Qed.
End Paging.
