(* ===== verification/Boot.v ===== *)
(** * The kernel's address space at boot ([kernel/boot/kernel.c])

    [kernel_vm_init] builds the page table the kernel runs on: text, data and the rest of the memory
    at their physical addresses, page 0 and the pages around the boot stack without permissions. The addresses the
    linker script provides and the size of the memory, which the device tree gives, are fields of [image].

    The theorem [kernel_vm_init_space] gives the entry of every page below [MAXVA] after it, from which follows that
    switching paging on leaves every address of the image and of the memory above it as it is. *)

From stdpp Require Import base gmap list.
From S2P Require Import Prelude PageTable Mm.

Local Open Scope Z_scope.
Local Open Scope kernel_scope.

Definition NCPU : Z := 1.

(** [_ftext], [_etext], [_fdata], [_end], [stack0] and [memInfo.size]. *)
Record image := Image { ftext : Z; etext : Z; fdata : Z; end_ : Z; stack0 : Z; memsize : Z }.

Section Boot.
Context {A : Type} {PM : PageAlloc A}.
Implicit Types (s : @vmem A) (img : image).

(** The loop of [setup_stack_guard_pages] from [i] on, [n] turns. *)
Fixpoint guard_loop (n : nat) (i : Z) (pagetable : Z) img s : outcome vmem :=
  match n with
  | O => Ok s
  | S n =>
      let guard_page := u64 (stack0 img + (i * 2 - 1) * PAGE_SIZE) in
      let! (_, s) := pgt_map_pages pagetable guard_page guard_page PAGE_SIZE 0 s in
      guard_loop n (i + 1) pagetable img s
  end.

Definition setup_stack_guard_pages (pagetable : Z) img s : outcome vmem :=
  let! (_, s) := pgt_map_pages pagetable 0 0 PAGE_SIZE 0 s in
  guard_loop (Z.to_nat (NCPU + 1)) 0 pagetable img s.

(** The calls of [kernel_vm_init] that map the sections and the memory above them. *)
Definition map_sections (pt : Z) img s : outcome vmem :=
  let! (_, s) := pgt_map_pages pt (ftext img) (ftext img) (u64 (etext img - ftext img)) (prot_to_type (Z.lor PROT_READ PROT_EXEC) false) s in
  let! (_, s) := pgt_map_pages pt (etext img) (etext img) (u64 (fdata img - etext img)) (prot_to_type (Z.lor PROT_READ PROT_WRITE) false) s in
  let! (_, s) := pgt_map_pages pt (fdata img) (fdata img) (u64 (end_ img - fdata img)) (prot_to_type (Z.lor PROT_READ PROT_WRITE) false) s in
  let! (_, s) := pgt_map_pages pt (fdata img) (fdata img) (u64 (end_ img - fdata img)) (prot_to_type (Z.lor PROT_READ PROT_WRITE) false) s in
  let! (_, s) := pgt_map_pages pt (end_ img) (end_ img) (u64 (DRAM_BASE + memsize img - end_ img)) (prot_to_type (Z.lor PROT_READ PROT_WRITE) false) s in
  Ok s.

(** The result is [g_kernel_pagetable]. *)
Definition kernel_vm_init img s : outcome (Z * vmem) :=
  let! (pt, a) := alloc_page (PageTable.pages s) in
  let s := PageTable.set_pages a s in
  let s := PageTable.set_words (clear_page PT_ENTRIES pt (PageTable.words s)) s in
  let! s := map_sections pt img s in
  let! s := setup_stack_guard_pages pt img s in
  Ok (pt, s).

(** ** Mapping pages at their own address *)

Definition page_of (va : Z) : Z := va / 4096 * 4096.

(** The entry of [va] is free or maps its page to itself. *)
Definition identity_entry (va w : Z) : Prop := w = 0 ∨ ∃ perm, 0 ≤ perm < 1024 ∧ w = make_pte (page_of va) perm.

(** [s] has the tables of [root] and the entries [f], with [n] pages left. *)
Definition space (root : Z) (f : Z → Z) (n : Z) s : Prop :=
  (∃ own, pt_inv root own s) ∧ n ≤ Z.of_nat (length (avail (PageTable.pages s))) ∧
  ∀ va, 0 ≤ va < MAXVA → pte_at s root va = f va ∧ identity_entry va (f va).

Lemma map_result_identity va w perm :
  0 ≤ va < MAXVA → 0 ≤ perm < 1024 → identity_entry va w → map_result w (page_of va) perm = make_pte (page_of va) perm.
Proof.
  intros Hva Hp [->|(perm' & Hp' & ->)]; [done|]. rewrite MAXVA_eq in Hva. unfold map_result, page_of.
  destruct (Z.eq_dec (va / 4096) 0) as [->|Hne].
  - destruct (Z.eqb_spec (PTE2PA (make_pte (0 * 4096) perm')) (0 * 4096)) as [_|Hn]; [by rewrite andb_false_r|].
    exfalso. apply Hn. unfold make_pte. rewrite Z.mul_0_l. change (PA2PPN 0) with 0. rewrite Z.lor_0_l, u64_small by lia.
    unfold PTE2PA, PTE_V, PAGE_SHIFT. rewrite Z.shiftr_div_pow2 by lia. rewrite Z.div_small; [done|].
    apply word_lor; (lia || (change (2 ^ 10) with 1024; lia)).
  - destruct (make_pte_fields (va / 4096 * 4096) perm') as (-> & _ & _); [|done|].
    { assert (0 < va / 4096 < 67108864) by zdm. split; [apply Z.mod_mul; lia|lia]. }
     by rewrite Z.eqb_refl, andb_false_r.
Qed.

(** Mapping [k] pages from [va] to themselves. *)
Lemma map_identity root f n s va k size perm :
  space root f n s → va mod 4096 = 0 → 0 ≤ va → 0 < k → 4096 * (k - 1) < size ≤ 4096 * k → va + 4096 * k ≤ MAXVA →
  0 ≤ perm < 1024 → tables_needed va k ≤ n →
  ∃ s', pgt_map_pages root va va size perm s = Ok (0, s') ∧
    space root (λ va', if in_range va k va' then make_pte (page_of va') perm else f va') (n - tables_needed va k) s'.
Proof.
  intros ((own & Hinv) & Hn & Hf) Hva Hv0 Hk Hsz Hmax Hperm Ht. pose proof MAXVA_eq as EM.
  destruct (pgt_map_pages_spec root own s va va k size perm) as (s' & own' & E & Hinv' & Hav & Hpte); [done..|lia|lia|lia|].
  exists s'. split; [done|]. split; [eauto|]. split; [lia|]. intros va' Hva'. rewrite Hpte by done. destruct (Hf va' Hva') as [-> Hid].
  unfold in_range. destruct (Z.leb_spec va va'), (Z.ltb_spec va' (va + 4096 * k)); cbn [andb]; try done.
  replace (va + (va' - va) / 4096 * 4096) with (page_of va') by (unfold page_of; clear -Hva; zdm).
  split; [by apply map_result_identity|]. right. exists perm. done.
Qed.

Lemma map_identity_empty root f n s va perm :
  space root f n s → va mod 4096 = 0 → pgt_map_pages root va va 0 perm s = Ok (0, s).
Proof.
  intros _ Hva. unfold pgt_map_pages. change (PAGE_SIZE - 1) with (Z.ones 12). rewrite !Z.land_ones by lia.
  change (2 ^ 12) with 4096. rewrite Hva. reflexivity.
Qed.

Lemma space_ext root f g n m s : space root f n s → (∀ va, 0 ≤ va < MAXVA → f va = g va) → m ≤ n → space root g m s.
Proof. intros (Ho & Hn & Hf) Hfg Hm. split; [done|]. split; [lia|]. intros va Hva. rewrite <-(Hfg va Hva). by apply Hf. Qed.

(** The new, empty table. *)
Lemma new_space s q l :
  avail (PageTable.pages s) = q :: l → pages_ok (q :: l) →
  ∃ a, alloc_page (PageTable.pages s) = Ok (q, a) ∧
    space q (λ _, 0) (Z.of_nat (length l)) (PageTable.set_words (clear_page PT_ENTRIES q (PageTable.words s)) (PageTable.set_pages a s)).
Proof.
  intros Hav Hok. destruct (create_spec s q l Hav Hok) as (s' & E & Hl & _ & _ & Hinv & Hz).
  destruct (alloc_page_ok _ _ _ Hav) as (a & Ea & _). exists a. split; [done|]. unfold create_pagetable in E. rewrite Ea in E. cbn [obind] in E.
  destruct Hok as [Hq _]. apply Forall_cons in Hq as [[_ Hq] _]. rewrite (proj2 (Z.eqb_neq q 0)) in E by lia. injection E as <-.
  split; [|split].
  - eexists. destruct Hinv. split; done.
  - cbn in *. by rewrite Hl.
  - intros va Hva. split; [apply (Hz va)|by left].
Qed.

(** ** The layout of the image *)

(** Page-aligned sections in their order, inside the memory; the first page of [stack0] is the boot stack. *)
Record layout_ok img : Prop := {
  lay_aligned : ftext img mod 4096 = 0 ∧ etext img mod 4096 = 0 ∧ fdata img mod 4096 = 0 ∧ end_ img mod 4096 = 0 ∧
                stack0 img mod 4096 = 0 ∧ memsize img mod 4096 = 0;
  lay_order : DRAM_BASE ≤ ftext img ∧ ftext img < etext img ≤ fdata img ∧ fdata img < end_ img < DRAM_BASE + memsize img;
  lay_stack : fdata img < stack0 img ∧ stack0 img + 4096 * 3 ≤ end_ img;
  lay_top : DRAM_BASE + memsize img ≤ MAXVA;
}.

Definition npages (a b : Z) : Z := (b - a) / 4096.

(** The pages the tables take: the root, and those of the ranges. *)
Definition boot_tables img : Z :=
  1 + tables_needed (ftext img) (npages (ftext img) (etext img)) +
  (if etext img =? fdata img then 0 else tables_needed (etext img) (npages (etext img) (fdata img))) +
  2 * tables_needed (fdata img) (npages (fdata img) (end_ img)) +
  tables_needed (end_ img) (npages (end_ img) (DRAM_BASE + memsize img)) + 6.

(** The entry of each page: nothing below the kernel, the three pages without permissions, read and execute in the text,
    read and write up to the end of the memory. *)
Definition boot_entry img (va : Z) : Z :=
  let p := page_of va in
  if (p =? 0) || (p =? stack0 img - 4096) || (p =? stack0 img + 4096) then make_pte p 0
  else if (ftext img <=? va) && (va <? etext img) then make_pte p (PTE_R + PTE_X + PTE_A)
  else if (etext img <=? va) && (va <? DRAM_BASE + memsize img) then make_pte p (PTE_R + PTE_W + PTE_A + PTE_D)
  else 0.

Lemma guard_one root f n s p :
  space root f n s → p mod 4096 = 0 → 0 ≤ p → p + 4096 ≤ MAXVA → 2 ≤ n →
  ∃ s', pgt_map_pages root p p PAGE_SIZE 0 s = Ok (0, s') ∧
    space root (λ va, if page_of va =? p then make_pte (page_of va) 0 else f va) (n - 2) s'.
Proof.
  intros Hs Hp H0 Hmax Hn. assert (tables_needed p 1 = 2) as Ht by (unfold tables_needed, tables_after; clear -Hp; zdm).
  destruct (map_identity root f n s p 1 PAGE_SIZE 0) as (s' & E & Hs'); [done|done|done|lia|unfold PAGE_SIZE; lia|lia|lia|lia|].
  exists s'. split; [done|]. rewrite Ht in Hs'. eapply space_ext; [exact Hs'| |lia]. intros va Hva. unfold in_range, page_of. cbn.
  destruct (Z.leb_spec p va) as [H1|H1], (Z.ltb_spec va (p + 4096 * 1)) as [H2|H2], (Z.eqb_spec (va / 4096 * 4096) p) as [H3|H3]; cbn; try done;
    exfalso; clear -Hp H1 H2 H3; zdm.
Qed.

Lemma map_section root f n s a b size perm :
  space root f n s → a mod 4096 = 0 → b mod 4096 = 0 → 0 ≤ a → a < b ≤ MAXVA → size = b - a → 0 ≤ perm < 1024 →
  tables_needed a (npages a b) ≤ n →
  ∃ s', pgt_map_pages root a a (u64 size) perm s = Ok (0, s') ∧
    space root (λ va, if (a <=? va) && (va <? b) then make_pte (page_of va) perm else f va) (n - tables_needed a (npages a b)) s'.
Proof.
  intros Hs Ha Hb H0 Hab -> Hperm Ht. pose proof MAXVA_eq as EM. rewrite u64_small by lia. unfold npages in *.
  destruct (map_identity root f n s a ((b - a) / 4096) (b - a) perm) as (s' & E & Hs');
    [done|done|done|clear -Ha Hb Hab; zdm|clear -Ha Hb Hab; zdm|clear -Ha Hb Hab; zdm|done|done|].
  exists s'. split; [done|]. eapply space_ext; [exact Hs'| |lia]. intros va _. unfold in_range. by replace (a + 4096 * ((b - a) / 4096)) with b by (clear -Ha Hb; zdm).
Qed.

Lemma tables_needed_pos a b : a mod 4096 = 0 → b mod 4096 = 0 → a < b → 2 ≤ tables_needed a (npages a b).
Proof.
  intros Ha Hb Hab. unfold tables_needed, tables_after, npages. assert (a ≤ a + 4096 * ((b - a) / 4096) - 1) as Hle by zdm.
  pose proof (Z.div_le_mono _ _ 2097152 ltac:(lia) Hle). pose proof (Z.div_le_mono _ _ 1073741824 ltac:(lia) Hle). lia.
Qed.

(** The four sections, the data mapped twice. *)
Lemma boot_sections img s q f n :
  layout_ok img → space q f n s → (∀ va, f va = 0) → boot_tables img - 1 ≤ n →
  ∃ s', map_sections q img s = Ok s' ∧
    space q (λ va, if (ftext img <=? va) && (va <? etext img) then make_pte (page_of va) (PTE_R + PTE_X + PTE_A)
                   else if (etext img <=? va) && (va <? DRAM_BASE + memsize img) then make_pte (page_of va) (PTE_R + PTE_W + PTE_A + PTE_D)
                   else 0) 6 s'.
Proof.
  intros [(A1 & A2 & A3 & A4 & A5 & A6) (O1 & O2 & O3) (S1 & S2) T] Hs Hf Hn. unfold boot_tables in Hn. unfold map_sections.
  change (prot_to_type (Z.lor PROT_READ PROT_EXEC) false) with (PTE_R + PTE_X + PTE_A).
  change (prot_to_type (Z.lor PROT_READ PROT_WRITE) false) with (PTE_R + PTE_W + PTE_A + PTE_D).
  assert (0 ≤ PTE_R + PTE_X + PTE_A < 1024 ∧ 0 ≤ PTE_R + PTE_W + PTE_A + PTE_D < 1024) as [Hrx Hrw] by (split; split; by vm_compute).
  assert ((DRAM_BASE + memsize img) mod 4096 = 0) as A7 by (unfold DRAM_BASE; clear -A6; zdm). assert (0 < DRAM_BASE) as HD by done.
  pose proof (tables_needed_pos _ _ A1 A2 (proj1 O2)) as P1. pose proof (tables_needed_pos _ _ A3 A4 (proj1 O3)) as P3.
  pose proof (tables_needed_pos _ _ A4 A7 (proj2 O3)) as P4.
  assert (0 ≤ (if etext img =? fdata img then 0 else tables_needed (etext img) (npages (etext img) (fdata img)))) as P2.
  { destruct (Z.eqb_spec (etext img) (fdata img)); [done|]. pose proof (tables_needed_pos _ _ A2 A3 ltac:(lia)). lia. }
  destruct (map_section q f n s (ftext img) (etext img) _ _ Hs A1 A2 ltac:(lia) ltac:(lia) eq_refl Hrx) as (s1 & -> & Hs1); [lia|]. cbn [obind].
  set (n1 := n - tables_needed (ftext img) (npages (ftext img) (etext img))) in *.
  assert (∃ s2 n2, pgt_map_pages q (etext img) (etext img) (u64 (fdata img - etext img)) (PTE_R + PTE_W + PTE_A + PTE_D) s1 = Ok (0, s2) ∧
    n2 = n1 - (if etext img =? fdata img then 0 else tables_needed (etext img) (npages (etext img) (fdata img))) ∧
    space q (λ va, if (etext img <=? va) && (va <? fdata img) then make_pte (page_of va) (PTE_R + PTE_W + PTE_A + PTE_D)
                   else if (ftext img <=? va) && (va <? etext img) then make_pte (page_of va) (PTE_R + PTE_X + PTE_A) else f va) n2 s2) as (s2 & n2 & -> & En2 & Hs2).
  { destruct (Z.eqb_spec (etext img) (fdata img)) as [E|E].
    - rewrite <-E, Z.sub_diag. change (u64 0) with 0. rewrite (map_identity_empty _ _ _ _ _ _ Hs1 A2). exists s1, n1. split; [done|]. split; [lia|].
      eapply space_ext; [exact Hs1| |lia]. intros va _. cbn beta. destruct (Z.leb_spec (etext img) va), (Z.ltb_spec va (etext img)); (done || lia).
    - destruct (map_section q _ n1 s1 (etext img) (fdata img) _ _ Hs1 A2 A3 ltac:(lia) ltac:(lia) eq_refl Hrw) as (s2 & -> & Hs2); [lia|]. eexists _, _. done. }
  cbn [obind].
  destruct (map_section q _ n2 s2 (fdata img) (end_ img) _ _ Hs2 A3 A4 ltac:(lia) ltac:(lia) eq_refl Hrw) as (s3 & -> & Hs3); [lia|]. cbn [obind].
  destruct (map_section q _ _ s3 (fdata img) (end_ img) _ _ Hs3 A3 A4 ltac:(lia) ltac:(lia) eq_refl Hrw) as (s4 & -> & Hs4); [lia|]. cbn [obind].
  destruct (map_section q _ _ s4 (end_ img) (DRAM_BASE + memsize img) _ _ Hs4 A4 A7 ltac:(lia) ltac:(lia) eq_refl Hrw) as (s5 & -> & Hs5); [lia|]. cbn [obind].
  exists s5. split; [done|]. eapply space_ext; [exact Hs5| |lia]. intros va _. cbn beta. rewrite Hf.
  destruct (Z.leb_spec (ftext img) va), (Z.ltb_spec va (etext img)), (Z.leb_spec (etext img) va), (Z.ltb_spec va (fdata img)),
    (Z.leb_spec (fdata img) va), (Z.ltb_spec va (end_ img)), (Z.leb_spec (end_ img) va), (Z.ltb_spec va (DRAM_BASE + memsize img)); cbn [andb]; (done || lia).
Qed.
Lemma guards_space img s q f n :
  layout_ok img → space q f n s → 6 ≤ n →
  ∃ s', setup_stack_guard_pages q img s = Ok s' ∧
    space q (λ va, if (page_of va =? 0) || (page_of va =? stack0 img - 4096) || (page_of va =? stack0 img + 4096) then make_pte (page_of va) 0 else f va) 0 s'.
Proof.
  intros [(A1 & A2 & A3 & A4 & A5 & A6) (O1 & O2 & O3) (S1 & S2) T] Hs Hn. pose proof MAXVA_eq as EM. assert (DRAM_BASE = 2147483648) as ED by done.
  unfold setup_stack_guard_pages. destruct (guard_one q f n s 0 Hs) as (s1 & -> & Hs1); [done|done|lia|lia|]. cbn [obind].
  change (Z.to_nat (NCPU + 1)) with 2%nat. cbn [guard_loop].
  change (0 * 2 - 1) with (-1). change ((0 + 1) * 2 - 1) with 1.
  replace (stack0 img + -1 * PAGE_SIZE) with (stack0 img - 4096) by (unfold PAGE_SIZE; lia).
  replace (stack0 img + 1 * PAGE_SIZE) with (stack0 img + 4096) by (unfold PAGE_SIZE; lia). rewrite !u64_small by lia.
  destruct (guard_one q _ _ s1 (stack0 img - 4096) Hs1) as (s2 & -> & Hs2); [clear -A5; zdm|lia|lia|lia|]. cbn [obind].
  destruct (guard_one q _ _ s2 (stack0 img + 4096) Hs2) as (s3 & -> & Hs3); [clear -A5; zdm|lia|lia|lia|]. cbn [obind].
  exists s3. split; [done|]. eapply space_ext; [exact Hs3| |lia]. intros va _. cbn beta.
  destruct (page_of va =? 0), (page_of va =? stack0 img - 4096), (page_of va =? stack0 img + 4096); done.
Qed.

Lemma lookup_identity root own s va perm :
  pt_inv root own s → 4096 ≤ va < MAXVA → 0 ≤ perm < 1024 → pte_at s root va = make_pte (page_of va) perm → lookup_pa root va s = Ok va.
Proof.
  intros Hinv Hva Hp Hw. rewrite MAXVA_eq in Hva. rewrite (lookup_pa_spec root own) by (done || lia).
  rewrite (proj2 (Z.leb_gt _ _)) by (rewrite MAXVA_eq; lia). unfold translation. rewrite Hw.
  destruct (make_pte_fields (page_of va) perm) as (F1 & _ & F2); [|done|].
  { assert (0 < va / 4096 < 67108864) by zdm. split; [apply Z.mod_mul; lia|unfold page_of; lia]. }
  cbv zeta. rewrite F2, F1. f_equal. unfold page_of. change 4096 with (2 ^ 12). rewrite <-Z.shiftl_mul_pow2 by lia. rewrite lor_shiftl_low; [|lia|apply Z.mod_pos_bound; lia].
  rewrite ?Z.shiftl_mul_pow2 by lia. change (2 ^ 12) with 4096. zdm.
Qed.

(** C4. The address space after [kernel_vm_init]: every page below [MAXVA] has the entry [boot_entry] gives it, and every address
    from the start of the text to the end of the memory translates to itself, so the kernel keeps running when
    paging is switched on. The guard page below the boot stack is the page before [stack0]. *)
Theorem kernel_vm_init_space img s q l :
  layout_ok img → avail (PageTable.pages s) = q :: l → pages_ok (q :: l) → boot_tables img ≤ Z.of_nat (length (q :: l)) →
  ∃ s', kernel_vm_init img s = Ok (q, s') ∧ (∃ own, pt_inv q own s') ∧
    (∀ va, 0 ≤ va < MAXVA → pte_at s' q va = boot_entry img va) ∧
    (∀ va, ftext img ≤ va < DRAM_BASE + memsize img → lookup_pa q va s' = Ok va).
Proof.
  intros Hl Hav Hok Hn. destruct (new_space s q l Hav Hok) as (a & Ea & Hs0).
  destruct (boot_sections img _ q _ _ Hl Hs0 (λ _, eq_refl)) as (s1 & E1 & Hs1); [simpl in Hn; lia|].
  destruct (guards_space img s1 q _ 6 Hl Hs1 ltac:(lia)) as (s2 & E2 & Hs2).
  exists s2. split.
  { unfold kernel_vm_init. rewrite Ea. cbn [obind].
    change (PageTable.words (PageTable.set_pages a s)) with (PageTable.words s). rewrite E1. cbn [obind]. by rewrite E2. }
  destruct Hs2 as ([own Hinv] & _ & Hpte). split; [eauto|]. split; [intros va Hva; by apply Hpte|].
  intros va Hva. destruct Hl as [_ (O1 & O2 & O3) _ T]. assert (DRAM_BASE = 2147483648) as ED by done.
  destruct (Hpte va ltac:(lia)) as [Hw _]. cbn beta in Hw.
  assert (∃ perm, 0 ≤ perm < 1024 ∧ pte_at s2 q va = make_pte (page_of va) perm) as (perm & Hp & Hw').
  { destruct (_ || _); [exists 0; split; [lia|done]|]. destruct (Z.leb_spec (ftext img) va), (Z.ltb_spec va (etext img)); cbn [andb] in Hw; try lia.
    - eexists. split; [|exact Hw]. by vm_compute.
    - rewrite (proj2 (Z.leb_le _ _)), (proj2 (Z.ltb_lt _ _)) in Hw by lia. eexists. split; [|exact Hw]. by vm_compute. }
  apply (lookup_identity q own s2 va perm Hinv); [lia|done|done].
Qed.
End Boot.

(** A small image: one page of text, four of data with the stack in the second, one page of memory above; and twenty free pages. *)
Definition sample_image : image := Image 2149580800 2149584896 2149584896 2149605376 2149588992 2129920.

Definition sample_boot : @vmem (list Z) := VMem ∅ ((λ i, 4096 * Z.of_nat i) <$> seq 1 20) 0 0 0.

Lemma kernel_vm_init_space_witness :
  ∃ s', kernel_vm_init sample_image sample_boot = Ok (4096, s') ∧ lookup_pa 4096 2149589000 s' = Ok 2149589000 ∧
    pte_at s' 4096 2149584896 = make_pte 2149584896 0.
Proof.
  destruct (kernel_vm_init_space sample_image sample_boot 4096 ((λ i, 4096 * Z.of_nat i) <$> seq 2 19)) as (s' & E & _ & Hp & Hl).
  - split; [by split_and!|split_and!; by vm_compute|split; by vm_compute|by vm_compute].
  - reflexivity.
  - split; [|apply (bool_decide_unpack _); vm_compute; exact I]. cbn. repeat (apply Forall_cons; split; [split; [reflexivity|lia]|]). by apply Forall_nil.
  - by vm_compute.
  - exists s'. split; [exact E|]. split; [apply Hl; split; by vm_compute|]. rewrite Hp by (split; by vm_compute). reflexivity.
Defined.
