(* ===== verification/FdTable.v ===== *)
(** * File descriptor tables and open files ([kernel/fs/vfs/fdtable.c],
    [kernel/fs/vfs/file.c])

    Tables and files live in maps from addresses to records; the two arrays of a
    table are kept with the table, next to their pointers. What the file system does
    behind an open file (its [release] and [llseek] operations, dropping the path,
    the size of the inode) is behind the interface [FileOps]. Locks are left out. *)

From stdpp Require Import base gmap list.
From S2P Require Import Prelude.
Local Open Scope Z_scope.
Local Open Scope kernel_scope.

Definition FDTABLE_INIT_SIZE : Z := 16.
Definition FD_ALLOCATED : Z := 16777216.
Definition FMODE_WRITE : Z := 2.
Definition FMODE_LSEEK : Z := 16384.
Definition SEEK_SET : Z := 0.
Definition SEEK_CUR : Z := 1.
Definition SEEK_END : Z := 2.
Definition ESPIPE : Z := 29.
Definition FDTABLE_SIZE : Z := 32.

Record fdtable := FdTab {
  fd_array : Z;
  fd_flags : Z;
  files_of : list Z;
  flags_of : list Z;
  max_fds : Z;
  fdt_nextfd : Z;
  fdt_refcount : Z;
}.

Record file := File {
  f_refcount : Z;
  f_mode : Z;
  f_pos : Z;
  f_inode : Z;
}.

Definition set_arrays (l k : list Z) (t : fdtable) : fdtable :=
  FdTab (fd_array t) (fd_flags t) l k (max_fds t) (fdt_nextfd t) (fdt_refcount t).
Definition set_nextfd (n : Z) (t : fdtable) : fdtable :=
  FdTab (fd_array t) (fd_flags t) (files_of t) (flags_of t) (max_fds t) n (fdt_refcount t).
Definition set_fdt_refcount (n : Z) (t : fdtable) : fdtable :=
  FdTab (fd_array t) (fd_flags t) (files_of t) (flags_of t) (max_fds t) (fdt_nextfd t) n.
Definition set_f_refcount (n : Z) (f : file) : file := File n (f_mode f) (f_pos f) (f_inode f).
Definition set_f_mode (n : Z) (f : file) : file := File (f_refcount f) n (f_pos f) (f_inode f).
Definition set_f_pos (n : Z) (f : file) : file := File (f_refcount f) (f_mode f) n (f_inode f).

(** The operations behind an open file; [None] is a missing function pointer. *)
Class FileOps (V : Type) : Type := {
  fs_release : Z → V → option (Z * V);
  fs_llseek : Z → Z → Z → V → option (Z * V);
  path_destroy : Z → V → V;
  i_size : Z → V → Z;
}.

Section FdTable.
Context {A : Type} {KM : KMalloc A} {V : Type} {FO : FileOps V}.

Record fdmem := FdMem {
  tables : gmap Z fdtable;
  files : gmap Z file;
  heap : A;
  vfs : V;
}.

Definition set_tables (x : gmap Z fdtable) (s : fdmem) : fdmem := FdMem x (files s) (heap s) (vfs s).
Definition set_files (x : gmap Z file) (s : fdmem) : fdmem := FdMem (tables s) x (heap s) (vfs s).
Definition set_heap (x : A) (s : fdmem) : fdmem := FdMem (tables s) (files s) x (vfs s).
Definition set_vfs (x : V) (s : fdmem) : fdmem := FdMem (tables s) (files s) (heap s) x.

Definition get_table (p : Z) (s : fdmem) : outcome fdtable := of_option (tables s !! p).
Definition put_table (p : Z) (t : fdtable) (s : fdmem) : fdmem := set_tables (<[p := t]> (tables s)) s.
Definition get_file (p : Z) (s : fdmem) : outcome file := of_option (files s !! p).
Definition put_file (p : Z) (f : file) (s : fdmem) : fdmem := set_files (<[p := f]> (files s)) s.

(** ** Open files *)

Definition file_ref (f : Z) (s : fdmem) : outcome (Z * fdmem) :=
  if f =? 0 then Ok (0, s)
  else
    let! v := get_file f s in
    if f_refcount v <=? 0 then Panic
    else Ok (f, put_file f (set_f_refcount (s32 (f_refcount v + 1)) v) s).

Definition file_free (f : Z) (s : fdmem) : outcome (Z * fdmem) :=
  if f =? 0 then Ok (- EINVAL, s)
  else
    let! _ := get_file f s in
    let (error, s) :=
      match fs_release f (vfs s) with
      | Some (e, v) => (e, set_vfs v s)
      | None => (0, s)
      end in
    if negb (error =? 0) then Ok (error, s)
    else
      let s := set_vfs (path_destroy f (vfs s)) s in
      Ok (error, FdMem (tables s) (delete f (files s)) (kfree f (heap s)) (vfs s)).

Definition file_unref (f : Z) (s : fdmem) : outcome (Z * fdmem) :=
  if (f =? 0) || PTR_IS_ERROR f then Ok (- EINVAL, s)
  else
    let! v := get_file f s in
    let v := set_f_refcount (s32 (f_refcount v - 1)) v in
    let s := put_file f v s in
    if f_refcount v =? 0 then
      let! (_, s) := file_free f s in
      Ok (0, s)
    else Ok (- EBADF, s).

Definition file_denyWrite (f : Z) (s : fdmem) : outcome (Z * fdmem) :=
  if f =? 0 then Ok (- EINVAL, s)
  else
    let! v := get_file f s in
    if (f_inode v =? 0) || (f_refcount v <=? 0) then Ok (- EBADF, s)
    else Ok (0, put_file f (set_f_mode (Z.land (f_mode v) (Z.lnot FMODE_WRITE)) v) s).

Definition file_allowWrite (f : Z) (s : fdmem) : outcome (Z * fdmem) :=
  if f =? 0 then Ok (- EINVAL, s)
  else
    let! v := get_file f s in
    if (f_inode v =? 0) || (f_refcount v <=? 0) then Ok (- EBADF, s)
    else Ok (0, put_file f (set_f_mode (Z.lor (f_mode v) FMODE_WRITE) v) s).

Definition file_llseek (f offset whence : Z) (s : fdmem) : outcome (Z * fdmem) :=
  if f =? 0 then Ok (- EINVAL, s)
  else
    let! v := get_file f s in
    if f_inode v =? 0 then Ok (- EINVAL, s)
    else if Z.land (f_mode v) FMODE_LSEEK =? 0 then Ok (- ESPIPE, s)
    else
      match fs_llseek f offset whence (vfs s) with
      | Some (r, x) => Ok (r, set_vfs x s)
      | None =>
          let new_pos :=
            if whence =? SEEK_SET then Some offset
            else if whence =? SEEK_CUR then Some (f_pos v + offset)
            else if whence =? SEEK_END then Some (i_size (f_inode v) (vfs s) + offset)
            else None in
          match new_pos with
          | None => Ok (- EINVAL, s)
          | Some new_pos =>
              if new_pos <? 0 then Ok (- EINVAL, s)
              else Ok (new_pos, put_file f (set_f_pos new_pos v) s)
          end
      end.

(** ** Tables *)

Definition __fdtable_alloc (s : fdmem) : Z * fdmem :=
  let (fdt, a) := kmalloc FDTABLE_SIZE (heap s) in
  if fdt =? 0 then (0, set_heap a s)
  else
    let (arr, a) := kmalloc (8 * FDTABLE_INIT_SIZE) a in
    if arr =? 0 then (0, set_heap (kfree fdt a) s)
    else
      let (fl, a) := kmalloc (4 * FDTABLE_INIT_SIZE) a in
      if fl =? 0 then (0, set_heap (kfree fdt (kfree arr a)) s)
      else
        let zeros := replicate (Z.to_nat FDTABLE_INIT_SIZE) 0 in
        (fdt, put_table fdt (FdTab arr fl zeros zeros FDTABLE_INIT_SIZE 0 1) (set_heap a s)).

Definition __fdtable_free (fdt : Z) (s : fdmem) : outcome fdmem :=
  let! t := get_table fdt s in
  Ok (FdMem (delete fdt (tables s)) (files s) (kfree fdt (kfree (fd_flags t) (kfree (fd_array t) (heap s)))) (vfs s)).

Definition fdtable_acquire (fdt : Z) (s : fdmem) : outcome (Z * fdmem) :=
  if fdt =? 0 then Ok (__fdtable_alloc s)
  else
    let! t := get_table fdt s in
    if fdt_refcount t <=? 0 then Ok (0, s)
    else Ok (fdt, put_table fdt (set_fdt_refcount (s32 (fdt_refcount t + 1)) t) s).

Definition fdtable_unref (fdt : Z) (s : fdmem) : outcome (Z * fdmem) :=
  if fdt =? 0 then Ok (- EINVAL, s)
  else
    let! t := get_table fdt s in
    if fdt_refcount t <=? 0 then Panic
    else
      let t := set_fdt_refcount (s32 (fdt_refcount t - 1)) t in
      let s := put_table fdt t s in
      if fdt_refcount t =? 0 then let! s := __fdtable_free fdt s in Ok (0, s) else Ok (0, s).

Definition fdtable_expand (fdt new_size : Z) (s : fdmem) : outcome (Z * fdmem) :=
  if fdt =? 0 then Ok (- EINVAL, s)
  else
    let! t := get_table fdt s in
    if new_size <=? max_fds t then Ok (- EINVAL, s)
    else
      let (arr, a) := kmalloc (8 * new_size) (heap s) in
      if arr =? 0 then Ok (- ENOMEM, set_heap a s)
      else
        let (fl, a) := kmalloc (4 * new_size) a in
        if fl =? 0 then Ok (- ENOMEM, set_heap (kfree arr a) s)
        else
          let n := Z.to_nat (max_fds t) in
          let pad := replicate (Z.to_nat new_size - n) 0 in
          let a := kfree (fd_flags t) (kfree (fd_array t) a) in
          Ok (0, put_table fdt (FdTab arr fl (take n (files_of t) ++ pad) (take n (flags_of t) ++ pad) new_size
                                  (fdt_nextfd t) (fdt_refcount t)) (set_heap a s)).

(** The copy loop of [fdtable_copy], from [i] on. *)
Fixpoint copy_fds (n : nat) (i : Z) (old new : fdtable) : outcome fdtable :=
  match n with
  | O => Ok new
  | S n =>
      let! f := of_option (files_of old !! Z.to_nat i) in
      let! fl := of_option (flags_of old !! Z.to_nat i) in
      copy_fds n (i + 1) old
        (if f =? 0 then new
         else set_arrays (<[Z.to_nat i := f]> (files_of new)) (<[Z.to_nat i := fl]> (flags_of new)) new)
  end.

Definition fdtable_copy (old : Z) (s : fdmem) : outcome (Z * fdmem) :=
  if old =? 0 then Ok (0, s)
  else
    let! t := get_table old s in
    if fdt_refcount t <=? 0 then Ok (0, s)
    else
      let size := max_fds t in
      let (new, s) := __fdtable_alloc s in
      if new =? 0 then Ok (0, s)
      else
        let! (r, s) := (if FDTABLE_INIT_SIZE <? size then fdtable_expand new size s else Ok (0, s)) in
        if r <? 0 then
          let! (_, s) := fdtable_unref new s in
          Ok (0, s)
        else
          let! n := get_table new s in
          let! n := copy_fds (Z.to_nat size) 0 t n in
          Ok (new, put_table new (set_nextfd (fdt_nextfd t) n) s).

Definition fdtable_getSize (fdt : Z) (s : fdmem) : outcome Z :=
  if fdt =? 0 then Ok 0 else let! t := get_table fdt s in Ok (max_fds t).

(** A descriptor is free when it has no file and is not set aside. *)
Definition fd_free (f fl : Z) : bool := (f =? 0) && (Z.land fl FD_ALLOCATED =? 0).

Fixpoint find_fd (n : nat) (i : Z) (t : fdtable) : outcome Z :=
  match n with
  | O => Ok (-1)
  | S n =>
      let! f := of_option (files_of t !! Z.to_nat i) in
      let! fl := of_option (flags_of t !! Z.to_nat i) in
      if fd_free f fl then Ok i else find_fd n (i + 1) t
  end.

Definition __find_next_fd (start : Z) (t : fdtable) : outcome Z :=
  find_fd (Z.to_nat (max_fds t - start)) start t.

Definition fdtable_allocFd (fdt flags : Z) (s : fdmem) : outcome (Z * fdmem) :=
  if fdt =? 0 then Ok (- EINVAL, s)
  else
    let! t := get_table fdt s in
    let! fd := __find_next_fd (fdt_nextfd t) t in
    let! fd := (if fd <? 0 then __find_next_fd 0 t else Ok fd) in
    let! (fd, s) :=
      (if fd <? 0 then
         let! (r, s) := fdtable_expand fdt (u32 (max_fds t * 2)) s in
         if r <? 0 then Ok (- EMFILE, s)
         else
           let! t := get_table fdt s in
           let! fd := __find_next_fd (fdt_nextfd t) t in
           Ok (fd, s)
       else Ok (fd, s)) in
    if 0 <=? fd then
      let! t := get_table fdt s in
      Ok (fd, put_table fdt (set_nextfd (u32 (fd + 1))
                (set_arrays (<[Z.to_nat fd := 0]> (files_of t))
                            (<[Z.to_nat fd := Z.lor flags FD_ALLOCATED]> (flags_of t)) t)) s)
    else Ok (fd, s).

Definition fdtable_closeFd (fdt fd : Z) (s : fdmem) : outcome fdmem :=
  if fdt =? 0 then Ok s
  else
    let! t := get_table fdt s in
    if max_fds t <=? fd then Ok s
    else
      let! f := of_option (files_of t !! Z.to_nat fd) in
      let! fl := of_option (flags_of t !! Z.to_nat fd) in
      let t' :=
        if negb (f =? 0) then
          set_nextfd (if fd <? fdt_nextfd t then fd else fdt_nextfd t)
            (set_arrays (<[Z.to_nat fd := 0]> (files_of t)) (<[Z.to_nat fd := 0]> (flags_of t)) t)
        else set_arrays (files_of t) (<[Z.to_nat fd := Z.land fl (Z.lnot FD_ALLOCATED)]> (flags_of t)) t in
      let s := put_table fdt t' s in
      if negb (f =? 0) then let! (_, s) := file_unref f s in Ok s else Ok s.

Definition fdtable_installFd (fdt fd f : Z) (s : fdmem) : outcome (Z * fdmem) :=
  if (fdt =? 0) || (f =? 0) then Ok (- EINVAL, s)
  else
    let! t := get_table fdt s in
    if max_fds t <=? fd then Ok (- EINVAL, s)
    else
      let! fl := of_option (flags_of t !! Z.to_nat fd) in
      if Z.land fl FD_ALLOCATED =? 0 then Ok (- EBADF, s)
      else Ok (s32 fd, put_table fdt (set_arrays (<[Z.to_nat fd := f]> (files_of t)) (flags_of t) t) s).

Definition fdtable_getFile (fdt fd : Z) (s : fdmem) : outcome (Z * fdmem) :=
  if fdt =? 0 then Ok (0, s)
  else
    let! t := get_table fdt s in
    if max_fds t <=? fd then Ok (0, s)
    else
      let! f := of_option (files_of t !! Z.to_nat fd) in
      let! (_, s) := file_ref f s in
      Ok (f, s).

Definition fdtable_setFdFlags (fdt fd flags : Z) (s : fdmem) : outcome (Z * fdmem) :=
  if fdt =? 0 then Ok (- EINVAL, s)
  else
    let! t := get_table fdt s in
    if max_fds t <=? fd then Ok (- EINVAL, s)
    else
      let! f := of_option (files_of t !! Z.to_nat fd) in
      if f =? 0 then Ok (- EBADF, s)
      else Ok (0, put_table fdt (set_arrays (files_of t) (<[Z.to_nat fd := flags]> (flags_of t)) t) s).

Definition fdtable_getFdFlags (fdt fd : Z) (s : fdmem) : outcome Z :=
  if fdt =? 0 then Ok 0
  else
    let! t := get_table fdt s in
    if max_fds t <=? fd then Ok 0
    else
      let! f := of_option (files_of t !! Z.to_nat fd) in
      if f =? 0 then Ok 0 else of_option (flags_of t !! Z.to_nat fd).

(** ** System calls; [fdt] is the table of the current task, [fd] an [int32] that
    becomes a [uint64] in the calls *)

Definition do_close (fdt fd : Z) (s : fdmem) : outcome (Z * fdmem) :=
  let! (filp, s) := fdtable_getFile fdt (u64 fd) s in
  if filp =? 0 then Ok (- EBADF, s)
  else
    let! s := fdtable_closeFd fdt (u64 fd) s in
    file_unref filp s.

Definition do_lseek (fdt fd offset whence : Z) (s : fdmem) : outcome (Z * fdmem) :=
  let! (filp, s) := fdtable_getFile fdt (u64 fd) s in
  if filp =? 0 then Ok (- EBADF, s)
  else
    let! (pos, s) := file_llseek filp offset whence s in
    let! (_, s) := file_unref filp s in
    Ok (pos, s).
End FdTable.

(** ** Well-formed tables *)

Record table_ok (t : fdtable) : Prop := {
  to_files : Z.of_nat (length (files_of t)) = max_fds t;
  to_flags : Z.of_nat (length (flags_of t)) = max_fds t;
  to_max : 0 < max_fds t < 2 ^ 30;
  to_next : 0 ≤ fdt_nextfd t ≤ max_fds t;
}.

(** Descriptor [i] of the table. *)
Definition file_at (t : fdtable) (i : Z) : Z := default 0 (files_of t !! Z.to_nat i).
Definition flags_at (t : fdtable) (i : Z) : Z := default 0 (flags_of t !! Z.to_nat i).
Definition free_at (t : fdtable) (i : Z) : bool := fd_free (file_at t i) (flags_at t i).

Lemma slot_at t i : table_ok t → 0 ≤ i < max_fds t →
  files_of t !! Z.to_nat i = Some (file_at t i) ∧ flags_of t !! Z.to_nat i = Some (flags_at t i).
Proof.
  intros [H1 H2 H3 H4] Hi. unfold file_at, flags_at.
  destruct (lookup_lt_is_Some_2 (files_of t) (Z.to_nat i)) as [f ->]; [lia|].
  destruct (lookup_lt_is_Some_2 (flags_of t) (Z.to_nat i)) as [g ->]; [lia|]. done.
Qed.

Lemma set_slot t i f fl j n :
  table_ok t → 0 ≤ i < max_fds t → 0 ≤ j → 0 ≤ n ≤ max_fds t →
  let t' := set_nextfd n (set_arrays (<[Z.to_nat i := f]> (files_of t)) (<[Z.to_nat i := fl]> (flags_of t)) t) in
  table_ok t' ∧ file_at t' j = (if j =? i then f else file_at t j) ∧ flags_at t' j = (if j =? i then fl else flags_at t j).
Proof.
  intros [H1 H2 H3 H4] Hi Hj Hn t'. split; [split; cbn; rewrite ?length_insert; lia|].
  unfold file_at, flags_at. cbn. destruct (Z.eqb_spec j i) as [->|Hne].
  - rewrite !list_lookup_insert_eq by lia. done.
  - rewrite !list_lookup_insert_ne by lia. done.
Qed.

Lemma find_fd_spec n i t :
  table_ok t → 0 ≤ i → i + Z.of_nat n ≤ max_fds t →
  ∃ r, find_fd n i t = Ok r ∧
    (r = -1 ∧ (∀ j, i ≤ j < i + Z.of_nat n → free_at t j = false) ∨
     i ≤ r < i + Z.of_nat n ∧ free_at t r = true ∧ ∀ j, i ≤ j < r → free_at t j = false).
Proof.
  intros Ht. revert i. induction n as [|n IH]; intros i Hi Hn; cbn [find_fd].
  { exists (-1). split; [done|]. left. split; [done|]. lia. }
  destruct (slot_at t i Ht ltac:(lia)) as [-> ->]. cbn [of_option obind]. fold (free_at t i).
  destruct (free_at t i) eqn:Ef.
  - exists i. split; [done|]. right. split; [lia|]. split; [done|]. lia.
  - destruct (IH (i + 1)) as (r & E & Hr); [lia..|]. exists r. split; [done|].
    destruct Hr as [[-> Hno]|(Hr & Hf & Hno)]; [left|right].
    + split; [done|]. intros j Hj. destruct (Z.eq_dec j i) as [->|]; [done|]. apply Hno. lia.
    + split; [lia|]. split; [done|]. intros j Hj. destruct (Z.eq_dec j i) as [->|]; [done|]. apply Hno. lia.
Qed.

Lemma find_next_spec start t :
  table_ok t → 0 ≤ start ≤ max_fds t →
  ∃ r, __find_next_fd start t = Ok r ∧
    (r = -1 ∧ (∀ j, start ≤ j < max_fds t → free_at t j = false) ∨
     start ≤ r < max_fds t ∧ free_at t r = true ∧ ∀ j, start ≤ j < r → free_at t j = false).
Proof.
  intros Ht Hs. unfold __find_next_fd. destruct (find_fd_spec (Z.to_nat (max_fds t - start)) start t Ht) as (r & E & Hr); [lia..|].
  exists r. split; [done|]. rewrite Z2Nat.id in Hr by lia. by replace (start + (max_fds t - start)) with (max_fds t) in Hr by lia.
Qed.

Section Spec.
Context {A : Type} {KM : KMalloc A} {V : Type} {FO : FileOps V}.
Implicit Types (s : @fdmem A V) (t : fdtable).

(** The sizes of the arrays of a table of [n] descriptors. *)
Definition array_blocks (n : Z) : list Z := [8 * n; 4 * n].

(** [t'] is [t] with room for [n] descriptors. *)
Definition widened t (n : Z) (t' : fdtable) : Prop :=
  table_ok t' ∧ max_fds t' = n ∧ fdt_nextfd t' = fdt_nextfd t ∧ fdt_refcount t' = fdt_refcount t ∧
  ∀ i, 0 ≤ i → file_at t' i = (if i <? max_fds t then file_at t i else 0) ∧
               flags_at t' i = (if i <? max_fds t then flags_at t i else 0).

Lemma pad_at (l : list Z) n k i :
  length l = n → (n ≤ k)%nat →
  default 0 ((take n l ++ replicate (k - n) 0) !! i) = if decide (i < n)%nat then default 0 (l !! i) else 0.
Proof.
  intros Hl Hk. rewrite take_ge by lia. case_decide as Hi.
  - by rewrite lookup_app_l by lia.
  - rewrite lookup_app_r by lia. destruct (replicate _ _ !! _) eqn:E; [|done]. by apply lookup_replicate in E as [-> _].
Qed.

Lemma expand_spec fdt t n s :
  tables s !! fdt = Some t → fdt ≠ 0 → table_ok t → max_fds t < n < 2 ^ 30 →
  ∃ r s', fdtable_expand fdt n s = Ok (r, s') ∧ files s' = files s ∧ vfs s' = vfs s ∧
    (r = 0 ∧ (∃ t', tables s' = <[fdt := t']> (tables s) ∧ widened t n t') ∨
     r = - ENOMEM ∧ tables s' = tables s ∧ ~ allocs (array_blocks n) (heap s) ∧ kept (heap s) [] (heap s')).
Proof.
  intros Ht Hz Hok Hn. pose proof Hok as [H1 H2 H3 H4]. unfold fdtable_expand. rewrite (proj2 (Z.eqb_neq fdt 0)) by done.
  unfold get_table. rewrite Ht. cbn [of_option obind]. rewrite (proj2 (Z.leb_gt n _)) by lia.
  destruct (kmalloc (8 * n) (heap s)) as [arr a] eqn:E1. destruct (Z.eqb_spec arr 0) as [->|Harr].
  { eexists (- ENOMEM), _. split; [done|]. split; [done|]. split; [done|]. right. split; [done|]. split; [done|].
    split; [unfold array_blocks; cbn [allocs]; rewrite E1; by intros [? _]|]. by eapply kept_fail; [constructor|]. }
  destruct (kmalloc (4 * n) a) as [fl a'] eqn:E2. destruct (Z.eqb_spec fl 0) as [->|_].
  { eexists (- ENOMEM), _. split; [done|]. split; [done|]. split; [done|]. right. split; [done|]. split; [done|].
    split; [unfold array_blocks; cbn [allocs]; rewrite E1; cbn; rewrite E2; by intros (_ & ? & _)|].
    eapply kept_free; [|reflexivity]. eapply kept_fail; [eapply kept_alloc; [constructor|exact E1|done]|exact E2]. }
  eexists 0, _. split; [done|]. split; [done|]. split; [done|]. left. split; [done|]. eexists. split; [done|].
  split; [split; cbn [files_of flags_of max_fds fdt_nextfd]|].
  - rewrite length_app, length_take, length_replicate. lia.
  - rewrite length_app, length_take, length_replicate. lia.
  - lia.
  - lia.
  - split; [done|]. split; [done|]. split; [done|]. intros i Hi. unfold file_at, flags_at. cbn [files_of flags_of].
    rewrite !pad_at by lia. destruct (Z.ltb_spec i (max_fds t)); case_decide; (done || lia).
Qed.

(** The result of an allocation: a descriptor that was free, now set aside; or [-EMFILE], when no
    descriptor is free and the heap has no room for arrays of twice the size, with no memory kept. *)
Definition alloc_result fdt t flags s (r : Z) (s' : @fdmem A V) : Prop :=
  files s' = files s ∧ vfs s' = vfs s ∧
  (r = - EMFILE ∧ tables s' = tables s ∧ ~ allocs (array_blocks (max_fds t * 2)) (heap s) ∧ kept (heap s) [] (heap s') ∧ (∀ i, 0 ≤ i < max_fds t → free_at t i = false) ∨
   0 ≤ r ∧ (r < max_fds t → free_at t r = true) ∧
   ∃ t', tables s' = <[fdt := t']> (tables s) ∧ table_ok t' ∧ r < max_fds t' ∧
     file_at t' r = 0 ∧ flags_at t' r = Z.lor flags FD_ALLOCATED ∧
     ∀ i, 0 ≤ i < max_fds t → i ≠ r → file_at t' i = file_at t i ∧ flags_at t' i = flags_at t i).

Lemma allocFd_spec fdt t flags s :
  tables s !! fdt = Some t → fdt ≠ 0 → table_ok t → max_fds t < 2 ^ 29 →
  ∃ r s', fdtable_allocFd fdt flags s = Ok (r, s') ∧ alloc_result fdt t flags s r s'.
Proof.
  intros Ht Hz Hok Hm. pose proof Hok as [H1 H2 H3 H4]. unfold fdtable_allocFd.
  rewrite (proj2 (Z.eqb_neq fdt 0)) by done. unfold get_table. rewrite Ht. cbn [of_option obind].
  assert (∃ fd, (let! fd := __find_next_fd (fdt_nextfd t) t in if fd <? 0 then __find_next_fd 0 t else Ok fd) = Ok fd ∧
    (fd = -1 ∧ (∀ i, 0 ≤ i < max_fds t → free_at t i = false) ∨ 0 ≤ fd < max_fds t ∧ free_at t fd = true)) as (fd & E & Hfd).
  { destruct (find_next_spec (fdt_nextfd t) t Hok ltac:(lia)) as (r & -> & [[-> _]|(Hr & Hf & _)]); cbn [obind].
    - change (-1 <? 0) with true. cbn iota.
      destruct (find_next_spec 0 t Hok ltac:(lia)) as (r & -> & [[-> Hno]|(Hr & Hf & _)]); [exists (-1)|exists r];
        (split; [done|]); [by left|right]. split; [lia|done].
    - rewrite (proj2 (Z.ltb_ge r 0)) by lia. exists r. split; [done|]. right. split; [lia|done]. }
  assert (∀ {X} (m : outcome Z) (k : Z → outcome Z) (h : Z → outcome X), (let! a := m in let! b := k a in h b) =
    (let! b := (let! a := m in k a) in h b)) as Hassoc by (intros X [] k h; done).
  rewrite Hassoc, E. cbn [obind]. clear Hassoc E.
  destruct Hfd as [[-> Hfull]|[Hfd Hfree]].
  - change (-1 <? 0) with true. cbn iota. rewrite (u32_small (max_fds t * 2)) by lia.
    destruct (expand_spec fdt t (max_fds t * 2) s Ht Hz Hok ltac:(lia)) as (r & s1 & -> & Ef & Ev & Hr). cbn [obind].
    destruct Hr as [(-> & t1 & Et & Hok1 & Em & En & _ & Hw)|(-> & Et & Hoom & Hkept)].
    + change (0 <? 0) with false. cbn iota. rewrite Et, lookup_insert_eq. cbn [of_option obind].
      destruct (find_next_spec (fdt_nextfd t1) t1 Hok1 ltac:(lia)) as (fd & -> & Hfd).
      assert (∀ j, 0 ≤ j → j < max_fds t → free_at t1 j = false) as Hlow.
      { intros j Hj1 Hj. unfold free_at. destruct (Hw j Hj1) as [-> ->]. rewrite (proj2 (Z.ltb_lt j _)) by done. by apply Hfull. }
      assert (free_at t1 (max_fds t) = true) as Hnew.
      { unfold free_at. destruct (Hw (max_fds t) ltac:(lia)) as [-> ->]. by rewrite Z.ltb_irrefl. }
      destruct Hfd as [[-> Hno]|(Hfd & Hf & _)]; [rewrite Hno in Hnew; [done|lia]|]. cbn [obind].
      assert (max_fds t ≤ fd) as Hge.
      { destruct (Z.lt_ge_cases fd (max_fds t)); [|done]. rewrite Hlow in Hf; [done|lia|done]. }
      rewrite (proj2 (Z.leb_le 0 fd)) by lia. rewrite Et, lookup_insert_eq. cbn [of_option obind].
      eexists fd, _. split; [done|]. split; [exact Ef|]. split; [exact Ev|]. right. split; [lia|]. split; [lia|].
      rewrite (u32_small (fd + 1)) by lia.
      destruct (set_slot t1 fd 0 (Z.lor flags FD_ALLOCATED) fd (fd + 1) Hok1 ltac:(lia) ltac:(lia) ltac:(lia)) as (Hok2 & E1 & E2).
      rewrite Z.eqb_refl in E1, E2.
      eexists. split; [unfold put_table; cbn [tables set_tables]; by rewrite Et, insert_insert_eq|].
      split; [exact Hok2|]. split; [cbn; lia|]. split; [exact E1|]. split; [exact E2|].
      intros i Hi Hne.
      destruct (set_slot t1 fd 0 (Z.lor flags FD_ALLOCATED) i (fd + 1) Hok1 ltac:(lia) ltac:(lia) ltac:(lia)) as (_ & -> & ->).
      rewrite (proj2 (Z.eqb_neq i fd)) by done. destruct (Hw i ltac:(lia)) as [-> ->]. by rewrite (proj2 (Z.ltb_lt i _)) by lia.
    + change (- ENOMEM <? 0) with true. cbn [obind]. change (0 <=? - EMFILE) with false. cbn iota.
      eexists _, _. split; [done|]. split; [exact Ef|]. split; [exact Ev|]. left. done.
  - rewrite (proj2 (Z.ltb_ge fd 0)) by lia. cbn [obind]. rewrite (proj2 (Z.leb_le 0 fd)) by lia. rewrite Ht. cbn [of_option obind].
    eexists fd, _. split; [done|]. split; [done|]. split; [done|]. right. split; [lia|]. split; [done|].
    rewrite (u32_small (fd + 1)) by lia.
    destruct (set_slot t fd 0 (Z.lor flags FD_ALLOCATED) fd (fd + 1) Hok ltac:(lia) ltac:(lia) ltac:(lia)) as (Hok2 & E1 & E2).
    rewrite Z.eqb_refl in E1, E2.
    eexists. split; [done|]. split; [exact Hok2|]. split; [cbn; lia|]. split; [exact E1|]. split; [exact E2|].
    intros i Hi Hne.
    destruct (set_slot t fd 0 (Z.lor flags FD_ALLOCATED) i (fd + 1) Hok ltac:(lia) ltac:(lia) ltac:(lia)) as (_ & -> & ->).
    by rewrite (proj2 (Z.eqb_neq i fd)) by done.
Qed.
End Spec.

(** ** What the operations do *)

Lemma allocated_flag fl : Z.land (Z.lor fl FD_ALLOCATED) FD_ALLOCATED = FD_ALLOCATED.
Proof.
  apply Z.bits_inj'. intros i _. rewrite Z.land_spec, Z.lor_spec.
  destruct (Z.testbit fl i), (Z.testbit FD_ALLOCATED i); done.
Qed.

Section Run.
Context {A : Type} {KM : KMalloc A} {V : Type} {FO : FileOps V}.
Implicit Types (s : @fdmem A V) (t : fdtable) (v : file).

(** Descriptor [fd] of [t'] is [(f, fl)], and the others are those of [t]. *)
Definition slot_update t (fd f fl : Z) t' : Prop :=
  table_ok t' ∧ max_fds t' = max_fds t ∧ fdt_refcount t' = fdt_refcount t ∧
  ∀ i, 0 ≤ i < max_fds t →
    file_at t' i = (if i =? fd then f else file_at t i) ∧ flags_at t' i = (if i =? fd then fl else flags_at t i).

Lemma slot_update_set t fd f fl n :
  table_ok t → 0 ≤ fd < max_fds t → 0 ≤ n ≤ max_fds t →
  slot_update t fd f fl
    (set_nextfd n (set_arrays (<[Z.to_nat fd := f]> (files_of t)) (<[Z.to_nat fd := fl]> (flags_of t)) t)).
Proof.
  intros Hok Hfd Hn. split; [by apply (set_slot t fd f fl 0 n)|]. split; [done|]. split; [done|].
  intros i Hi. apply (set_slot t fd f fl i n); (done || lia).
Qed.

Lemma installFd_ok fdt t fd f s :
  tables s !! fdt = Some t → fdt ≠ 0 → f ≠ 0 → table_ok t → 0 ≤ fd < max_fds t →
  Z.land (flags_at t fd) FD_ALLOCATED ≠ 0 →
  ∃ t', fdtable_installFd fdt fd f s = Ok (fd, put_table fdt t' s) ∧ slot_update t fd f (flags_at t fd) t'.
Proof.
  intros Ht Hz Hf Hok Hfd Hal. pose proof Hok as [H1 H2 H3 H4]. unfold fdtable_installFd.
  rewrite (proj2 (Z.eqb_neq fdt 0)), (proj2 (Z.eqb_neq f 0)) by done. cbn [orb]. unfold get_table. rewrite Ht. cbn [of_option obind].
  rewrite (proj2 (Z.leb_gt _ fd)) by lia. destruct (slot_at t fd Hok Hfd) as [_ Efl]. rewrite Efl. cbn [of_option obind].
  rewrite (proj2 (Z.eqb_neq _ 0)) by done. rewrite s32_small by lia. eexists. split; [done|].
  pose proof (slot_update_set t fd f (flags_at t fd) (fdt_nextfd t) Hok Hfd H4) as H.
  rewrite (list_insert_id (flags_of t)) in H by done. destruct t. exact H.
Qed.

Lemma getFile_ok fdt t fd f v s :
  tables s !! fdt = Some t → fdt ≠ 0 → table_ok t → 0 ≤ fd < max_fds t →
  file_at t fd = f → f ≠ 0 → files s !! f = Some v → 0 < f_refcount v < 2 ^ 31 - 1 →
  fdtable_getFile fdt fd s = Ok (f, put_file f (set_f_refcount (f_refcount v + 1) v) s).
Proof.
  intros Ht Hz Hok Hfd Ef Hf Hv Hrc. unfold fdtable_getFile. rewrite (proj2 (Z.eqb_neq fdt 0)) by done.
  unfold get_table. rewrite Ht. cbn [of_option obind]. rewrite (proj2 (Z.leb_gt _ fd)) by lia.
  destruct (slot_at t fd Hok Hfd) as [E _]. rewrite E, Ef. cbn [of_option obind]. unfold file_ref.
  rewrite (proj2 (Z.eqb_neq f 0)) by done. unfold get_file. rewrite Hv. cbn [of_option obind].
  rewrite (proj2 (Z.leb_gt _ 0)) by lia. cbn [obind]. by rewrite s32_small by lia.
Qed.

(** The file an error-free last reference leaves behind. *)
Definition released f s : Prop := match fs_release f (vfs s) with Some (e, _) => e = 0 | None => True end.

Lemma file_unref_ok f v s :
  f ≠ 0 → PTR_IS_ERROR f = false → files s !! f = Some v → 0 < f_refcount v < 2 ^ 31 → released f s →
  ∃ r s', file_unref f s = Ok (r, s') ∧ tables s' = tables s ∧
    (f_refcount v = 1 ∧ r = 0 ∧ files s' = delete f (files s) ∨
     1 < f_refcount v ∧ r = - EBADF ∧ vfs s' = vfs s ∧ files s' = <[f := set_f_refcount (f_refcount v - 1) v]> (files s)).
Proof.
  intros Hf He Hv Hrc Hrel. unfold file_unref. rewrite (proj2 (Z.eqb_neq f 0)), He by done. cbn [orb].
  unfold get_file. rewrite Hv. cbn [of_option obind f_refcount set_f_refcount]. rewrite s32_small by lia.
  destruct (Z.eqb_spec (f_refcount v - 1) 0) as [E|E].
  - unfold file_free. rewrite (proj2 (Z.eqb_neq f 0)) by done. unfold get_file. cbn [put_file set_files files].
    rewrite lookup_insert_eq. cbn. unfold released in Hrel.
    destruct (fs_release f (vfs s)) as [[e x]|].
    + subst e. cbn. eexists _, _. split; [done|]. split; [done|]. left. split; [lia|]. split; [done|]. cbn. apply delete_insert_eq.
    + cbn. eexists _, _. split; [done|]. split; [done|]. left. split; [lia|]. split; [done|]. cbn. apply delete_insert_eq.
  - eexists _, _. split; [done|]. split; [done|]. right. split; [lia|]. done.
Qed.

Lemma closeFd_ok fdt t fd f v s :
  tables s !! fdt = Some t → fdt ≠ 0 → table_ok t → 0 ≤ fd < max_fds t →
  file_at t fd = f → f ≠ 0 → PTR_IS_ERROR f = false → files s !! f = Some v → 0 < f_refcount v < 2 ^ 31 → released f s →
  ∃ t' r s', fdtable_closeFd fdt fd s = Ok s' ∧ file_unref f (put_table fdt t' s) = Ok (r, s') ∧
    slot_update t fd 0 0 t' ∧ fdt_nextfd t' ≤ fd.
Proof.
  intros Ht Hz Hok Hfd Ef Hf He Hv Hrc Hrel. pose proof Hok as [H1 H2 H3 H4].
  unfold fdtable_closeFd. rewrite (proj2 (Z.eqb_neq fdt 0)) by done.
  unfold get_table. rewrite Ht. cbn [of_option obind]. rewrite (proj2 (Z.leb_gt _ fd)) by lia.
  destruct (slot_at t fd Hok Hfd) as [E1 E2]. rewrite E1, E2, Ef. cbn [of_option obind].
  rewrite (proj2 (Z.eqb_neq f 0)) by done. cbn [negb].
  set (t' := set_nextfd _ _).
  destruct (file_unref_ok f v (put_table fdt t' s) Hf He Hv Hrc Hrel) as (r & s' & E & _).
  exists t', r, s'. rewrite E. cbn [obind]. split; [done|]. split; [done|]. unfold t'.
  split; [apply slot_update_set; [done|done|destruct (Z.ltb_spec fd (fdt_nextfd t)); lia]|].
  cbn. destruct (Z.ltb_spec fd (fdt_nextfd t)); lia.
Qed.
End Run.

Section Close.
Context {A : Type} {KM : KMalloc A} {V : Type} {FO : FileOps V}.
Implicit Types (s : @fdmem A V) (t : fdtable) (v : file).

Lemma do_close_spec fdt t fd f v s :
  tables s !! fdt = Some t → fdt ≠ 0 → table_ok t → 0 ≤ fd < max_fds t →
  file_at t fd = f → f ≠ 0 → PTR_IS_ERROR f = false → files s !! f = Some v → 0 < f_refcount v < 2 ^ 31 - 1 → released f s →
  ∃ r s' t', do_close fdt fd s = Ok (r, s') ∧ tables s' = <[fdt := t']> (tables s) ∧
    slot_update t fd 0 0 t' ∧ fdt_nextfd t' ≤ fd ∧
    (f_refcount v = 1 ∧ r = 0 ∧ files s' = delete f (files s) ∨
     1 < f_refcount v ∧ r = - EBADF ∧ files s' = <[f := set_f_refcount (f_refcount v - 1) v]> (files s)).
Proof.
  intros Ht Hz Hok Hfd Ef Hf He Hv Hrc Hrel. pose proof Hok as [H1 H2 H3 H4]. unfold do_close. rewrite u64_small by lia.
  rewrite (getFile_ok fdt t fd f v) by done. cbn [obind]. rewrite (proj2 (Z.eqb_neq f 0)) by done.
  set (v1 := set_f_refcount (f_refcount v + 1) v). set (s1 := put_file f v1 s).
  destruct (closeFd_ok fdt t fd f v1 s1 Ht Hz Hok Hfd Ef Hf He) as (t' & r1 & s2 & -> & E1 & Hup & Hnx);
    [apply lookup_insert_eq | cbn; lia | exact Hrel |]. cbn [obind].
  destruct (file_unref_ok f v1 (put_table fdt t' s1) Hf He) as (r & s' & E & Et1 & Hcase);
    [apply lookup_insert_eq | cbn; lia | exact Hrel |].
  rewrite E in E1. injection E1 as -> ->. destruct Hcase as [[Hc _]|(_ & _ & Ev & Ef2)]; [cbn in Hc; lia|].
  cbn [f_refcount v1 set_f_refcount] in Ef2. rewrite Z.add_simpl_r in Ef2.
  assert (files s2 = files s) as Ef3.
  { rewrite Ef2. cbn. rewrite insert_insert_eq. apply insert_id. by destruct v. }
  destruct (file_unref_ok f v s2 Hf He) as (r2 & s3 & E3 & Et2 & Hcase); [by rewrite Ef3 | lia | by unfold released; rewrite Ev |].
  exists r2, s3, t'. split; [done|]. rewrite Et2, Et1. split; [done|]. split; [done|]. split; [done|].
  rewrite Ef3 in Hcase. destruct Hcase as [?|(? & ? & _ & ?)]; [by left|by right].
Qed.

(** C21. Opening: [fdtable_allocFd] always returns, with a descriptor that was free
    (and nothing else changed but possibly the size of the table) or with [-EMFILE]
    when every descriptor is taken and the heap has no room for the two arrays of a table
    twice as large (then the call keeps no memory); a file installed
    there is the one [fdtable_getFile] returns, with one more reference, and the other
    descriptors keep their files and flags. *)
Theorem fd_alloc_install_get fdt t flags f v s :
  tables s !! fdt = Some t → fdt ≠ 0 → table_ok t → max_fds t < 2 ^ 29 →
  files s !! f = Some v → f ≠ 0 → 0 < f_refcount v < 2 ^ 31 - 1 →
  ∃ r s1, fdtable_allocFd fdt flags s = Ok (r, s1) ∧ alloc_result fdt t flags s r s1 ∧
    (0 ≤ r → ∃ s2 s3 t', fdtable_installFd fdt r f s1 = Ok (r, s2) ∧ fdtable_getFile fdt r s2 = Ok (f, s3) ∧
      files s3 = <[f := set_f_refcount (f_refcount v + 1) v]> (files s) ∧
      tables s3 = <[fdt := t']> (tables s) ∧ table_ok t' ∧ file_at t' r = f ∧
      ∀ i, 0 ≤ i < max_fds t → i ≠ r → file_at t' i = file_at t i ∧ flags_at t' i = flags_at t i).
Proof.
  intros Ht Hz Hok Hm Hv Hf Hrc. destruct (allocFd_spec fdt t flags s Ht Hz Hok Hm) as (r & s1 & E & Hres).
  exists r, s1. split; [done|]. split; [done|]. intros Hr.
  destruct Hres as (Ef & _ & [[-> _]|(_ & _ & t1 & Et & Hok1 & Hlt & _ & Efl & Hoth)]); [unfold EMFILE in Hr; lia|].
  destruct (installFd_ok fdt t1 r f s1) as (t2 & E2 & Hup); [by rewrite Et, lookup_insert_eq | done | done | done | lia | |].
  { rewrite Efl, allocated_flag. done. }
  destruct Hup as (Hok2 & Em & _ & Hslot). pose proof (to_max t Hok) as Hpos.
  assert (file_at t2 r = f) as E3 by (destruct (Hslot r ltac:(lia)) as [-> _]; by rewrite Z.eqb_refl).
  eexists _, _, t2. split; [exact E2|]. split.
  { apply (getFile_ok fdt t2 r f v); try done; [apply lookup_insert_eq | lia | cbn; by rewrite Ef]. }
  cbn. rewrite Ef, Et, insert_insert_eq. do 4 (split; [done|]).
  intros i Hi Hne. destruct (Hoth i Hi Hne) as [<- <-]. destruct (Z.lt_ge_cases i (max_fds t1)) as [Hlt1|Hge1].
  - destruct (Hslot i ltac:(lia)) as [-> ->]. by rewrite (proj2 (Z.eqb_neq i r)).
  - destruct Hok1 as [L1 L2 _ _], Hok2 as [L3 L4 _ _]. unfold file_at, flags_at.
    rewrite !(lookup_ge_None_2 _ (Z.to_nat i)) by lia. done.
Qed.

(** Closing: [do_close] empties the descriptor and makes it the next candidate
    for allocation; it returns 0 and frees the file exactly when the table held the
    only reference. When other references remain the descriptor is closed all the
    same and one reference dropped, but the system call returns [-EBADF]. *)
Theorem do_close_result fdt t fd f v s :
  tables s !! fdt = Some t → fdt ≠ 0 → table_ok t → 0 ≤ fd < max_fds t →
  file_at t fd = f → f ≠ 0 → PTR_IS_ERROR f = false → files s !! f = Some v → 0 < f_refcount v < 2 ^ 31 - 1 → released f s →
  ∃ r s' t', do_close fdt fd s = Ok (r, s') ∧ tables s' = <[fdt := t']> (tables s) ∧
    free_at t' fd = true ∧ fdt_nextfd t' ≤ fd ∧
    (∀ i, 0 ≤ i < max_fds t → i ≠ fd → file_at t' i = file_at t i ∧ flags_at t' i = flags_at t i) ∧
    (f_refcount v = 1 → r = 0 ∧ files s' = delete f (files s)) ∧
    (1 < f_refcount v → r = - EBADF ∧ files s' = <[f := set_f_refcount (f_refcount v - 1) v]> (files s)).
Proof.
  intros Ht Hz Hok Hfd Ef Hf He Hv Hrc Hrel.
  destruct (do_close_spec fdt t fd f v s Ht Hz Hok Hfd Ef Hf He Hv Hrc Hrel) as (r & s' & t' & E & Et & (_ & _ & _ & Hs) & Hn & Hc).
  exists r, s', t'. split; [done|]. split; [done|]. split; [|split; [done|split]].
  - unfold free_at. destruct (Hs fd Hfd) as [-> ->]. by rewrite Z.eqb_refl.
  - intros i Hi Hne. destruct (Hs i Hi) as [-> ->]. by rewrite (proj2 (Z.eqb_neq i fd)).
  - destruct Hc as [(? & ? & ?)|(? & ? & ?)]; (split; intros; [|]); (done || lia).
Qed.
End Close.

(** ** Copying a table *)

Lemma copy_fds_spec n i old new :
  table_ok old → table_ok new → 0 ≤ i → i + Z.of_nat n ≤ max_fds old → max_fds old ≤ max_fds new →
  ∃ new', copy_fds n i old new = Ok new' ∧ table_ok new' ∧ max_fds new' = max_fds new ∧
    ∀ j, 0 ≤ j < max_fds old →
      let taken := (i <=? j) && (j <? i + Z.of_nat n) && negb (file_at old j =? 0) in
      file_at new' j = (if taken then file_at old j else file_at new j) ∧
      flags_at new' j = (if taken then flags_at old j else flags_at new j).
Proof.
  intros Ho. revert i new. induction n as [|n IH]; intros i new Hn Hi Hle Hmax; cbn [copy_fds].
  { exists new. do 3 (split; [done|]). intros j Hj.
    destruct (Z.leb_spec i j), (Z.ltb_spec j (i + Z.of_nat 0)); (done || lia). }
  destruct (slot_at old i Ho ltac:(lia)) as [-> ->]. cbn [of_option obind].
  pose proof (to_next new Hn) as Hnx. pose proof (to_max old Ho) as Hpos.
  destruct (Z.eqb_spec (file_at old i) 0) as [E0|E0].
  - destruct (IH (i + 1) new Hn) as (new' & E & Hok & Em & Hj); [lia..|]. exists new'. do 3 (split; [done|]).
    intros j Hjr. destruct (Hj j Hjr) as [-> ->].
    destruct (Z.eq_dec j i) as [->|Hne]; [rewrite E0; cbn; by rewrite !andb_false_r|].
    replace ((i + 1 <=? j) && (j <? i + 1 + Z.of_nat n)) with ((i <=? j) && (j <? i + Z.of_nat (S n))); [done|].
    f_equal; [destruct (Z.leb_spec i j), (Z.leb_spec (i + 1) j); (done || lia)|]. f_equal. lia.
  - set (m := set_arrays _ _ new).
    assert (slot_update new i (file_at old i) (flags_at old i) m) as (Hok1 & Em1 & _ & Hs).
    { pose proof (slot_update_set new i (file_at old i) (flags_at old i) (fdt_nextfd new) Hn ltac:(lia) Hnx) as H.
      unfold m. destruct new. exact H. }
    destruct (IH (i + 1) m Hok1) as (new' & E & Hok & Em & Hj); [lia..|]. exists new'. split; [done|]. split; [done|]. split; [lia|].
    intros j Hjr. destruct (Hj j Hjr) as [-> ->]. destruct (Hs j ltac:(lia)) as [-> ->].
    destruct (Z.eq_dec j i) as [->|Hne].
    + rewrite Z.leb_refl, Z.eqb_refl, (proj2 (Z.eqb_neq _ 0) E0), (proj2 (Z.ltb_lt i (i + Z.of_nat (S n)))) by lia.
      rewrite (proj2 (Z.leb_gt (i + 1) i)) by lia. done.
    + rewrite (proj2 (Z.eqb_neq j i)) by done.
      replace ((i + 1 <=? j) && (j <? i + 1 + Z.of_nat n)) with ((i <=? j) && (j <? i + Z.of_nat (S n))); [done|].
      f_equal; [destruct (Z.leb_spec i j), (Z.leb_spec (i + 1) j); (done || lia)|]. f_equal. lia.
Qed.

Section Copy.
Context {A : Type} {KM : KMalloc A} {KS : KMallocSpec A} {V : Type} {FO : FileOps V}.
Implicit Types (s : @fdmem A V) (t : fdtable) (v : file).

Lemma fdtable_alloc_spec s :
  ∃ new s', __fdtable_alloc s = (new, s') ∧ files s' = files s ∧ vfs s' = vfs s ∧
    (new = 0 ∧ tables s' = tables s ∧ ~ allocs (FDTABLE_SIZE :: array_blocks FDTABLE_INIT_SIZE) (heap s) ∨
     new ≠ 0 ∧ (∀ ns, allocs (FDTABLE_SIZE :: array_blocks FDTABLE_INIT_SIZE ++ ns) (heap s) → allocs ns (heap s')) ∧
       ~ km_live (heap s) new ∧ ∃ t, tables s' = <[new := t]> (tables s) ∧ table_ok t ∧ fdt_refcount t = 1 ∧
       max_fds t = FDTABLE_INIT_SIZE ∧ ∀ i, file_at t i = 0 ∧ flags_at t i = 0).
Proof.
  unfold __fdtable_alloc. destruct (kmalloc FDTABLE_SIZE (heap s)) as [p a1] eqn:E1. destruct (Z.eqb_spec p 0) as [->|Hp].
  { eexists _, _. split; [done|]. do 2 (split; [done|]). left. do 2 (split; [done|]). cbn [allocs]. rewrite E1. by intros [? _]. }
  destruct (kmalloc (8 * FDTABLE_INIT_SIZE) a1) as [q a2] eqn:E2. destruct (Z.eqb_spec q 0) as [->|_].
  { eexists _, _. split; [done|]. do 2 (split; [done|]). left. do 2 (split; [done|]). cbn [allocs array_blocks]. rewrite E1. cbn [snd]. rewrite E2. by intros (_ & ? & _). }
  destruct (kmalloc (4 * FDTABLE_INIT_SIZE) a2) as [r a3] eqn:E3. destruct (Z.eqb_spec r 0) as [->|_].
  { eexists _, _. split; [done|]. do 2 (split; [done|]). left. do 2 (split; [done|]). cbn [allocs array_blocks]. rewrite E1. cbn [snd]. rewrite E2. cbn [snd]. rewrite E3. by intros (_ & _ & ? & _). }
  eexists _, _. split; [done|]. do 2 (split; [done|]). right. split; [done|]. split.
  { intros ns. cbn [allocs array_blocks app]. rewrite E1. cbn [snd]. rewrite E2. cbn [snd]. rewrite E3. by intros (_ & _ & _ & ?). }
  split.
  { by apply (kmalloc_fresh FDTABLE_SIZE (heap s) p a1 ltac:(done) E1). }
  eexists. split; [done|]. split; [by split|]. do 2 (split; [done|]). intros i. unfold file_at, flags_at. cbn [files_of flags_of].
  destruct (replicate _ 0 !! Z.to_nat i) eqn:El; [apply lookup_replicate in El as [-> _]|]; done.
Qed.

(** The sizes of the blocks of a copy of a table of [n] descriptors, in the order in
    which they are allocated. *)
Definition copy_blocks (n : Z) : list Z := FDTABLE_SIZE :: array_blocks FDTABLE_INIT_SIZE ++ array_blocks n.

(** The table [fdtable_copy] makes. *)
Definition copied t (size : Z) t' : Prop :=
  table_ok t' ∧ max_fds t' = size ∧ fdt_nextfd t' = fdt_nextfd t ∧
  ∀ i, 0 ≤ i < max_fds t → file_at t' i = file_at t i ∧ flags_at t' i = (if file_at t i =? 0 then 0 else flags_at t i).

Lemma copied_from t n m :
  table_ok t → table_ok n → max_fds n = max_fds t → (∀ i, 0 ≤ i → file_at n i = 0 ∧ flags_at n i = 0) →
  copy_fds (Z.to_nat (max_fds t)) 0 t n = Ok m → copied t (max_fds t) (set_nextfd (fdt_nextfd t) m).
Proof.
  intros Ht Hn Em Hz E. pose proof (to_max t Ht). pose proof (to_next t Ht).
  destruct (copy_fds_spec (Z.to_nat (max_fds t)) 0 t n Ht Hn) as (m' & E' & Hok & Em' & Hs); [lia..|].
  rewrite E in E'. injection E' as <-. destruct Hok as [L1 L2 L3 L4].
  split; [split; cbn; (done || lia)|]. split; [cbn; lia|]. split; [done|]. intros i Hi.
  change (file_at (set_nextfd _ m) i) with (file_at m i). change (flags_at (set_nextfd _ m) i) with (flags_at m i).
  destruct (Hs i Hi) as [-> ->]. destruct (Hz i ltac:(lia)) as [-> ->].
  rewrite (proj2 (Z.leb_le 0 i)), (proj2 (Z.ltb_lt i _)) by lia. cbn [andb].
  by destruct (Z.eqb_spec (file_at t i) 0) as [->|].
Qed.

Lemma fdtable_copy_spec old t s :
  tables s !! old = Some t → old ≠ 0 → table_ok t → FDTABLE_INIT_SIZE ≤ max_fds t → 0 < fdt_refcount t → km_live (heap s) old →
  ∃ new s', fdtable_copy old s = Ok (new, s') ∧ files s' = files s ∧ vfs s' = vfs s ∧ tables s' !! old = Some t ∧
    (new = 0 ∧ ~ allocs (copy_blocks (max_fds t)) (heap s) ∨ new ≠ 0 ∧ new ≠ old ∧ ∃ t', tables s' !! new = Some t' ∧ copied t (max_fds t) t').
Proof.
  intros Ht Hz Hok Hmin Hrc Hlive. unfold fdtable_copy. rewrite (proj2 (Z.eqb_neq old 0)) by done.
  unfold get_table at 1. rewrite Ht. cbn [of_option obind]. rewrite (proj2 (Z.leb_gt _ 0)) by done.
  pose proof (to_max t Hok) as Hmax.
  destruct (fdtable_alloc_spec s) as (new & s1 & -> & Ef & Ev & [(-> & Et & Hoom)|(Hn & Hroom & Hfr & t0 & Et & Hok0 & Erc & Em & Hz0)]).
  { exists 0, s1. rewrite Et. split; [done|]. do 3 (split; [done|]). left. split; [done|]. intros H. apply Hoom.
    by destruct H as (? & ? & ? & _). }
  assert (new ≠ old) as Hne by (intros ->; done).
  assert (tables s1 !! new = Some t0) as Et1 by (rewrite Et; apply lookup_insert_eq).
  rewrite (proj2 (Z.eqb_neq new 0)) by done.
  assert (∀ n s2, files s2 = files s → vfs s2 = vfs s → tables s2 = <[new := n]> (tables s) → table_ok n → max_fds n = max_fds t →
      (∀ i, 0 ≤ i → file_at n i = 0 ∧ flags_at n i = 0) →
      ∃ s', (let! n0 := get_table new s2 in let! n1 := copy_fds (Z.to_nat (max_fds t)) 0 t n0 in
             Ok (new, put_table new (set_nextfd (fdt_nextfd t) n1) s2)) = Ok (new, s') ∧
        files s' = files s ∧ vfs s' = vfs s ∧ tables s' !! old = Some t ∧ ∃ t', tables s' !! new = Some t' ∧ copied t (max_fds t) t') as Hfin.
  { intros n s2 E1 E2 E3 Hokn Emn Hzn. unfold get_table. rewrite E3, lookup_insert_eq. cbn [of_option obind].
    destruct (copy_fds_spec (Z.to_nat (max_fds t)) 0 t n Hok Hokn) as (m & E & _); [lia..|]. rewrite E. cbn [obind].
    eexists. split; [done|]. split; [exact E1|]. split; [exact E2|].
    split; [cbn; by rewrite lookup_insert_ne, E3, lookup_insert_ne|].
    eexists. split; [apply lookup_insert_eq|]. by apply (copied_from t n m). }
  destruct (Z.ltb_spec FDTABLE_INIT_SIZE (max_fds t)) as [Hlt|Hge].
  - destruct (expand_spec new t0 (max_fds t) s1 Et1 Hn Hok0 ltac:(lia)) as (r & s2 & -> & Ef2 & Ev2 & Hr). cbn [obind].
    destruct Hr as [(-> & t1 & Et2 & Hok1 & Em1 & _ & _ & Hw)|(-> & Et2 & Hoom & _)].
    + change (0 <? 0) with false. cbn iota.
      destruct (Hfin t1 s2) as (s' & E & H); [by rewrite Ef2 | by rewrite Ev2 | by rewrite Et2, Et, insert_insert_eq | done | done | |].
      { intros i Hi. destruct (Hw i Hi) as [-> ->]. destruct (Hz0 i) as [-> ->]. by destruct (i <? _). }
      exists new, s'. split; [done|]. destruct H as (H1 & H2 & H3 & H4). do 3 (split; [done|]). by right.
    + change (- ENOMEM <? 0) with true. cbn iota. unfold fdtable_unref. rewrite (proj2 (Z.eqb_neq new 0)) by done.
      unfold get_table. rewrite Et2, Et1. cbn [of_option obind]. rewrite Erc. cbn. unfold __fdtable_free, get_table. cbn.
      rewrite lookup_insert_eq. cbn. eexists 0, _. split; [done|]. cbn. split; [by rewrite Ef2|]. split; [by rewrite Ev2|].
      split; [|by left; split; [|intros H; apply Hoom, Hroom]]. by rewrite lookup_delete_ne, lookup_insert_ne, Et2, Et, lookup_insert_ne.
  - cbn [obind]. change (0 <? 0) with false. cbn iota.
    destruct (Hfin t0 s1) as (s' & E & H); [done..|lia|intros; apply Hz0|].
    exists new, s'. split; [done|]. destruct H as (H1 & H2 & H3 & H4). do 3 (split; [done|]). by right.
Qed.

(** [fdtable_copy], used by [fork], copies every open descriptor but takes no
    reference to the files it shares: when the table held the only reference, closing
    the descriptor in the copy succeeds, frees the file, and the next use of the same
    descriptor in the original table reads freed memory. *)
Theorem fdtable_copy_shares old t s :
  tables s !! old = Some t → old ≠ 0 → table_ok t → FDTABLE_INIT_SIZE ≤ max_fds t → 0 < fdt_refcount t → km_live (heap s) old →
  ∃ new s', fdtable_copy old s = Ok (new, s') ∧ files s' = files s ∧
    (new = 0 ∧ ~ allocs (copy_blocks (max_fds t)) (heap s) ∨
     new ≠ 0 ∧ (∃ t', tables s' !! new = Some t' ∧ copied t (max_fds t) t') ∧
     ∀ fd f v, 0 ≤ fd < max_fds t → file_at t fd = f → f ≠ 0 → PTR_IS_ERROR f = false →
       files s !! f = Some v → f_refcount v = 1 → released f s →
       ∃ s'', do_close new fd s' = Ok (0, s'') ∧ fdtable_getFile old fd s'' = Fault).
Proof.
  intros Ht Hz Hok Hmin Hrc Hlive.
  destruct (fdtable_copy_spec old t s Ht Hz Hok Hmin Hrc Hlive) as (new & s' & E & Ef & Ev & Eo & Hcase).
  exists new, s'. split; [done|]. split; [done|]. destruct Hcase as [H|(Hn & Hne & t' & Et & Hc)]; [by left|right].
  split; [done|]. split; [by exists t'|]. intros fd f v Hfd Efd Hf He Hv Hrcv Hrel.
  destruct Hc as (Hok' & Em & _ & Hs).
  destruct (do_close_spec new t' fd f v s' Et Hn Hok') as (r & s2 & t2 & E2 & Et2 & _ & _ & Hr); try done; try lia.
  { destruct (Hs fd Hfd) as [-> _]. done. }
  { by rewrite Ef. }
  { unfold released. by rewrite Ev. }
  destruct Hr as [(_ & -> & Ef2)|[Hlt _]]; [|lia]. exists s2. split; [done|].
  unfold fdtable_getFile. rewrite (proj2 (Z.eqb_neq old 0)) by done. unfold get_table.
  rewrite Et2, lookup_insert_ne, Eo by done. cbn [of_option obind]. rewrite (proj2 (Z.leb_gt _ fd)) by lia.
  destruct (slot_at t fd Hok Hfd) as [-> _]. rewrite Efd. cbn [of_option obind]. unfold file_ref.
  rewrite (proj2 (Z.eqb_neq f 0)) by done. unfold get_file. by rewrite Ef2, lookup_delete_eq.
Qed.
End Copy.

(** ** A concrete instance: files without operations of their own *)

#[local] Instance plain_files : FileOps unit := {
  fs_release _ _ := None;
  fs_llseek _ _ _ _ := None;
  path_destroy _ u := u;
  i_size _ _ := 0;
}.

(** One table, at 4096, with file 8192 open as descriptor 0. *)
Definition fd_tab0 : fdtable :=
  FdTab 4128 4256 (8192 :: replicate 15 0) (FD_ALLOCATED :: replicate 15 0) 16 1 1.
Definition fd_mem0 (n : Z) : @fdmem Z unit := FdMem {[ 4096 := fd_tab0 ]} {[ 8192 := File n 3 0 1 ]} 16384 tt.

Lemma fd_tab0_ok : table_ok fd_tab0.
Proof. split; vm_compute; (reflexivity || split; (reflexivity || discriminate)). Qed.

Lemma fd_alloc_install_get_witness :
  ∃ r s1, fdtable_allocFd 4096 1 (fd_mem0 1) = Ok (r, s1) ∧ alloc_result 4096 fd_tab0 1 (fd_mem0 1) r s1 ∧
    (0 ≤ r → ∃ s2 s3 t', fdtable_installFd 4096 r 8192 s1 = Ok (r, s2) ∧ fdtable_getFile 4096 r s2 = Ok (8192, s3) ∧
      files s3 = <[8192 := File 2 3 0 1]> (files (fd_mem0 1)) ∧
      tables s3 = <[4096 := t']> (tables (fd_mem0 1)) ∧ table_ok t' ∧ file_at t' r = 8192 ∧
      ∀ i, 0 ≤ i < max_fds fd_tab0 → i ≠ r → file_at t' i = file_at fd_tab0 i ∧ flags_at t' i = flags_at fd_tab0 i).
Proof.
  apply (fd_alloc_install_get 4096 fd_tab0 1 8192 (File 1 3 0 1) (fd_mem0 1));
    [reflexivity | discriminate | apply fd_tab0_ok | reflexivity | reflexivity | discriminate | cbn; lia].
Defined.

Lemma do_close_result_witness :
  ∃ r s' t', do_close 4096 0 (fd_mem0 2) = Ok (r, s') ∧ tables s' = <[4096 := t']> (tables (fd_mem0 2)) ∧
    free_at t' 0 = true ∧ fdt_nextfd t' ≤ 0 ∧
    (∀ i, 0 ≤ i < max_fds fd_tab0 → i ≠ 0 → file_at t' i = file_at fd_tab0 i ∧ flags_at t' i = flags_at fd_tab0 i) ∧
    (2 = 1 → r = 0 ∧ files s' = delete 8192 (files (fd_mem0 2))) ∧
    (1 < 2 → r = - EBADF ∧ files s' = <[8192 := File 1 3 0 1]> (files (fd_mem0 2))).
Proof.
  apply (do_close_result 4096 fd_tab0 0 8192 (File 2 3 0 1) (fd_mem0 2));
    [reflexivity | discriminate | apply fd_tab0_ok | cbn; lia | reflexivity | discriminate | reflexivity | reflexivity | cbn; lia | exact I].
Defined.

Lemma fdtable_copy_shares_witness :
  ∃ new s', fdtable_copy 4096 (fd_mem0 1) = Ok (new, s') ∧ files s' = files (fd_mem0 1) ∧
    (new = 0 ∧ ~ allocs (copy_blocks (max_fds fd_tab0)) (heap (fd_mem0 1)) ∨
     new ≠ 0 ∧ (∃ t', tables s' !! new = Some t' ∧ copied fd_tab0 (max_fds fd_tab0) t') ∧
     ∀ fd f v, 0 ≤ fd < max_fds fd_tab0 → file_at fd_tab0 fd = f → f ≠ 0 → PTR_IS_ERROR f = false →
       files (fd_mem0 1) !! f = Some v → f_refcount v = 1 → released f (fd_mem0 1) →
       ∃ s'', do_close new fd s' = Ok (0, s'') ∧ fdtable_getFile 4096 fd s'' = Fault).
Proof.
  apply (fdtable_copy_shares 4096 fd_tab0 (fd_mem0 1));
    [reflexivity | discriminate | apply fd_tab0_ok | discriminate | reflexivity | exists 32; cbn; lia].
Defined.

(** The whole run: copy the table, close in the copy, read in the original. *)
Example copy_close_read :
  (let! (new, s) := fdtable_copy 4096 (fd_mem0 1) in
   let! (r, s) := do_close new 0 s in
   fdtable_getFile 4096 0 s) = Fault.
Proof. vm_compute. reflexivity. Qed.
