(* ===== verification/Slab.v ===== *)
(** * The slab allocator ([kernel/mm/slab.c], [include/kernel/mm/slab.h])

    A slab is a page that begins with its header; the header's bitmap and the objects
    are bytes of one memory, so that the places where they overlap overlap in the
    model too. The list node of a slab is the first field of its header, hence its
    address is that of the page. Physical pages come from the interface
    [PageFrames], which the allocator of [Page] implements. The lock of a cache is
    left out: every operation holds it throughout. *)

From stdpp Require Import base gmap list.
From S2P Require Import Prelude ListHead KString PageTable Page.
Local Open Scope Z_scope.
Local Open Scope kernel_scope.

(** ** Pages, as the slab allocator sees them *)

Class PageFrames (P : Type) : Type := {
  pf_alloc : P → outcome (Z * P);        (* alloc_page() *)
  pf_put : Z → P → outcome P;            (* put_page(page) *)
  pf_paddr : Z → P → outcome Z;          (* page->paddr *)
}.

(** [pf_inv a l]: [l] are the addresses of the free pages; [pf_used p pa a]: the page
    at [pa], described by the structure [p], is in use. *)
Class PageFramesSpec (P : Type) {PF : PageFrames P} : Type := {
  pf_inv : P → list Z → Prop;
  pf_used : Z → Z → P → Prop;
  pf_alloc_ok a pa l :
    pf_inv a (pa :: l) →
    ∃ p a', pf_alloc a = Ok (p, a') ∧ p ≠ 0 ∧ pf_paddr p a' = Ok pa ∧ pf_inv a' l ∧
      pa mod 4096 = 0 ∧ 0 < pa < 2 ^ 56 ∧ pf_used p pa a' ∧ (∀ q, ~ pf_used q pa a) ∧
      ∀ q qa, pf_used q qa a → pf_used q qa a';
  pf_put_ok a l p pa :
    pf_inv a l → pf_used p pa a →
    ∃ a' l', pf_put p a = Ok a' ∧ pf_inv a' l' ∧ l' ⊆ pa :: l ∧ ∀ q qa, qa ≠ pa → pf_used q qa a → pf_used q qa a';
}.

(** ** Data *)

(** [sizeof(struct slab_header)] and the offset of its flexible array. *)
Definition SLAB_HEADER : Z := 40.
Definition BITMAP_OFFSET : Z := 36.

Record slab_header := SlabHeader {
  slab_page : Z;
  free_count : Z;
  total_count : Z;
  slab_obj_size : Z;
}.

(** The three list heads of a cache are identified by their addresses, below. *)
Record kmem_cache := KmemCache {
  cache_obj_size : Z;
  free_objects : Z;
}.

Definition SLAB_SIZES_COUNT : nat := 8.
Definition slab_sizes : list Z := [16; 32; 64; 128; 256; 512; 1024; 2048].

Definition set_free_count (n : Z) (h : slab_header) : slab_header :=
  SlabHeader (slab_page h) n (total_count h) (slab_obj_size h).

Section Slab.
Context {P : Type} {PF : PageFrames P}.

(** [bytes] is the memory of bitmaps and objects, [slab_lists] that of the list
    nodes, in headers and caches. *)
Record slabs := Slabs {
  headers : gmap Z slab_header;
  caches : list kmem_cache;
  slab_lists : store;
  bytes : mem;
  frames : P;
}.

Definition set_headers (x : gmap Z slab_header) (s : slabs) : slabs :=
  Slabs x (caches s) (slab_lists s) (bytes s) (frames s).
Definition set_caches (x : list kmem_cache) (s : slabs) : slabs :=
  Slabs (headers s) x (slab_lists s) (bytes s) (frames s).
Definition set_lists (x : store) (s : slabs) : slabs :=
  Slabs (headers s) (caches s) x (bytes s) (frames s).
Definition set_bytes (x : mem) (s : slabs) : slabs :=
  Slabs (headers s) (caches s) (slab_lists s) x (frames s).
Definition set_frames (x : P) (s : slabs) : slabs :=
  Slabs (headers s) (caches s) (slab_lists s) (bytes s) x.

Definition get_header (slab : Z) (s : slabs) : outcome slab_header := of_option (headers s !! slab).
Definition put_header (slab : Z) (h : slab_header) (s : slabs) : slabs :=
  set_headers (<[slab := h]> (headers s)) s.
Definition get_cache (i : nat) (s : slabs) : outcome kmem_cache := of_option (caches s !! i).
Definition add_free_objects (i : nat) (d : Z) (s : slabs) : outcome slabs :=
  let! c := get_cache i s in
  Ok (set_caches (<[i := KmemCache (cache_obj_size c) (u32 (free_objects c + d))]> (caches s)) s).

(** ** Bitmaps *)

Definition bitmap_setbit (bitmap idx : Z) (m : mem) : outcome mem :=
  let! b := load8 (bitmap + idx / 8) m in
  store8 (bitmap + idx / 8) (Z.lor b (Z.shiftl 1 (idx mod 8))) m.

Definition bitmap_clearbit (bitmap idx : Z) (m : mem) : outcome mem :=
  let! b := load8 (bitmap + idx / 8) m in
  store8 (bitmap + idx / 8) (Z.land b (Z.lnot (Z.shiftl 1 (idx mod 8)))) m.

Definition bitmap_testbit (bitmap idx : Z) (m : mem) : outcome Z :=
  let! b := load8 (bitmap + idx / 8) m in
  Ok (Z.land (Z.shiftr b (idx mod 8)) 1).

(** The loops over the bits of byte [i] and over the bytes. *)
Fixpoint firstzero_bits (n : nat) (bitmap i j size : Z) (m : mem) : outcome (option Z) :=
  match n with
  | O => Ok None
  | S n =>
      let! b := load8 (bitmap + i) m in
      if (Z.land b (Z.shiftl 1 j) =? 0) && (i * 8 + j <? size) then Ok (Some (i * 8 + j))
      else firstzero_bits n bitmap i (j + 1) size m
  end.

Fixpoint firstzero_bytes (n : nat) (bitmap i size : Z) (m : mem) : outcome Z :=
  match n with
  | O => Ok (-1)
  | S n =>
      let! r := firstzero_bits 8 bitmap i 0 size m in
      match r with
      | Some k => Ok k
      | None => firstzero_bytes n bitmap (i + 1) size m
      end
  end.

Definition bitmap_firstzero (bitmap size : Z) (m : mem) : outcome Z :=
  firstzero_bytes (Z.to_nat (u32 (size + 7) / 8)) bitmap 0 size m.

(** ** Objects of a slab *)

Definition obj_index (slab obj : Z) (h : slab_header) : outcome Z :=
  if slab_obj_size h =? 0 then Fault
  else Ok (u32 (Z.quot (obj - (slab + SLAB_HEADER)) (slab_obj_size h))).

Definition index_to_obj (slab idx : Z) (h : slab_header) : Z :=
  slab + SLAB_HEADER + u32 (idx * slab_obj_size h).

Definition round8 (n : Z) : Z := Z.land (u64 (n + 7)) (Z.lnot 7).

(** [bitmap_size] and [total_objs] of [slab_header_init]. *)
Definition bitmap_bytes (obj_size : Z) : Z := u32 ((PAGE_SIZE / obj_size + 7) / 8).
Definition slab_capacity (obj_size : Z) : Z :=
  u32 (u32 (PAGE_SIZE - SLAB_HEADER - bitmap_bytes obj_size) / obj_size).

(** [alloc_page] clears the page it returns. *)
Definition slab_new_page (s : slabs) : outcome (Z * slabs) :=
  let! (page, a) := pf_alloc (frames s) in
  if page =? 0 then Ok (0, set_frames a s)
  else
    let! pa := pf_paddr page a in
    let! (_, m) := memset pa 0 PAGE_SIZE (bytes s) in
    Ok (page, set_bytes m (set_frames a s)).

Definition slab_header_init (obj_size : Z) (s : slabs) : outcome (Z * slabs) :=
  let! (page, s) := slab_new_page s in
  if page =? 0 then Ok (0, s)
  else
    let! slab := pf_paddr page (frames s) in
    let obj_size := round8 obj_size in
    let total_objs := slab_capacity obj_size in
    let s := set_lists (<[slab := ListHead 0 0]> (slab_lists s)) s in
    let! l := INIT_LIST_HEAD slab (slab_lists s) in
    let s := put_header slab (SlabHeader page total_objs total_objs obj_size) (set_lists l s) in
    let! (_, m) := memset (slab + BITMAP_OFFSET) 0 (bitmap_bytes obj_size) (bytes s) in
    Ok (slab, set_bytes m s).

(** ** Caches; [slab_caches] is the address of the array of the caches *)
Section Caches.
Context (slab_caches : Z).

Definition KMEM_CACHE : Z := 72.
Definition slabs_full (i : nat) : Z := slab_caches + KMEM_CACHE * Z.of_nat i + 16.
Definition slabs_partial (i : nat) : Z := slab_caches + KMEM_CACHE * Z.of_nat i + 32.
Definition slabs_free (i : nat) : Z := slab_caches + KMEM_CACHE * Z.of_nat i + 48.

Definition list_run (f : store → outcome store) (s : slabs) : outcome slabs :=
  let! l := f (slab_lists s) in Ok (set_lists l s).

(** The first half of [slab_alloc_obj]: a slab with a free object is first in
    [slabs_partial]; [false] when there is no memory for a new slab. *)
Definition slab_refill (i : nat) (s : slabs) : outcome (bool * slabs) :=
  let! no_partial := list_empty (slabs_partial i) (slab_lists s) in
  if no_partial then
    let! no_free := list_empty (slabs_free i) (slab_lists s) in
    if no_free then
      let! c := get_cache i s in
      let! (slab, s) := slab_header_init (cache_obj_size c) s in
      if slab =? 0 then Ok (false, s)
      else
        let! s := list_run (list_add slab (slabs_partial i)) s in
        Ok (true, s)
    else
      let! first := get_next (slabs_free i) (slab_lists s) in
      let! s := list_run (list_del first) s in
      let! s := list_run (list_add first (slabs_partial i)) s in
      Ok (true, s)
  else Ok (true, s).

(** The second half: the first free object of the first slab of [slabs_partial]. *)
Definition slab_take (i : nat) (s : slabs) : outcome (Z * slabs) :=
  let! slab := get_next (slabs_partial i) (slab_lists s) in
  let! h := get_header slab s in
  let! idx := bitmap_firstzero (slab + BITMAP_OFFSET) (total_count h) (bytes s) in
  if idx <? 0 then Panic
  else
    let! m := bitmap_setbit (slab + BITMAP_OFFSET) idx (bytes s) in
    let h := set_free_count (u32 (free_count h - 1)) h in
    let s := put_header slab h (set_bytes m s) in
    let! s := add_free_objects i (-1) s in
    let! s :=
      (if free_count h =? 0 then
         let! s := list_run (list_del slab) s in
         list_run (list_add slab (slabs_full i)) s
       else Ok s) in
    let obj := index_to_obj slab idx h in
    let! (_, m) := memset obj 0 (slab_obj_size h) (bytes s) in
    Ok (obj, set_bytes m s).

Definition slab_alloc_obj (i : nat) (s : slabs) : outcome (Z * slabs) :=
  let! (ok, s) := slab_refill i s in
  if negb ok then Ok (0, s) else slab_take i s.

(** The release of the last free slab; its page goes back to the page allocator. *)
Definition slab_release (i : nat) (s : slabs) : outcome slabs :=
  let! last := get_prev (slabs_free i) (slab_lists s) in
  let! s := list_run (list_del last) s in
  let! h := get_header last s in
  let! s := add_free_objects i (- free_count h) s in
  let! a := pf_put (slab_page h) (frames s) in
  Ok (set_frames a (set_headers (delete last (headers s)) (set_lists (delete last (slab_lists s)) s))).

Definition slab_free_obj (i : nat) (slab obj : Z) (s : slabs) : outcome slabs :=
  let! h := get_header slab s in
  let! idx := obj_index slab obj h in
  if total_count h <=? idx then Panic
  else
    let! b := bitmap_testbit (slab + BITMAP_OFFSET) idx (bytes s) in
    if b =? 0 then Panic
    else
      let! m := bitmap_clearbit (slab + BITMAP_OFFSET) idx (bytes s) in
      let h := set_free_count (u32 (free_count h + 1)) h in
      let! s := add_free_objects i 1 (put_header slab h (set_bytes m s)) in
      if free_count h =? 1 then
        let! s := list_run (list_del slab) s in
        list_run (list_add slab (slabs_partial i)) s
      else if free_count h =? total_count h then
        let! s := list_run (list_del slab) s in
        let! s := list_run (list_add slab (slabs_free i)) s in
        let! c := get_cache i s in
        if u32 (2 * total_count h) <? free_objects c then slab_release i s else Ok s
      else Ok s.

(** [slab_init], from cache [i] on. *)
Fixpoint slab_init_loop (i : nat) (sizes : list Z) (s : slabs) : outcome slabs :=
  match sizes with
  | [] => Ok s
  | size :: sizes =>
      let! s := list_run (INIT_LIST_HEAD (slabs_full i)) s in
      let! s := list_run (INIT_LIST_HEAD (slabs_partial i)) s in
      let! s := list_run (INIT_LIST_HEAD (slabs_free i)) s in
      let! _ := get_cache i s in
      slab_init_loop (S i) sizes (set_caches (<[i := KmemCache size 0]> (caches s)) s)
  end.

Definition slab_init (s : slabs) : outcome slabs := slab_init_loop 0 slab_sizes s.

Fixpoint cache_loop (i : nat) (sizes : list Z) (size : Z) : option nat :=
  match sizes with
  | [] => None
  | x :: sizes => if size <=? x then Some i else cache_loop (S i) sizes size
  end.

Definition slab_cache_for_size (size : Z) : option nat := cache_loop 0 slab_sizes (round8 size).

Definition slab_alloc (size : Z) (s : slabs) : outcome (Z * slabs) :=
  if 2048 <? size then Ok (0, s)
  else
    match slab_cache_for_size size with
    | None => Panic
    | Some i => slab_alloc_obj i s
    end.

Definition find_slab (ptr : Z) : Z := Z.land ptr (Z.lnot (PAGE_SIZE - 1)).

(** The search for the cache, from [i] on. *)
Fixpoint free_loop (n i : nat) (slab ptr : Z) (s : slabs) : outcome (Z * slabs) :=
  match n with
  | O => Ok (0, s)
  | S n =>
      let! c := get_cache i s in
      let! h := get_header slab s in
      if cache_obj_size c =? slab_obj_size h then
        let! s := slab_free_obj i slab ptr s in
        Ok (1, s)
      else free_loop n (S i) slab ptr s
  end.

Definition slab_free (ptr : Z) (s : slabs) : outcome (Z * slabs) :=
  if ptr =? 0 then Ok (0, s)
  else
    let slab := find_slab ptr in
    let! h := get_header slab s in
    let! idx := obj_index slab ptr h in
    if total_count h <=? idx then Ok (0, s)
    else free_loop SLAB_SIZES_COUNT 0 slab ptr s.
End Caches.
End Slab.

(** ** Bitmaps in memory *)

(** Object [k] of the slab is marked as used. *)
Definition bit_used (m : mem) (slab k : Z) : bool :=
  Z.testbit (default 0 (m !! (slab + BITMAP_OFFSET + k / 8))) (k mod 8).

(** The number of free objects among the first [n]. *)
Fixpoint free_bits (m : mem) (slab : Z) (n : nat) : Z :=
  match n with
  | O => 0
  | S n => free_bits m slab n + (if bit_used m slab (Z.of_nat n) then 0 else 1)
  end.

Lemma free_bits_range m slab n : 0 ≤ free_bits m slab n ≤ Z.of_nat n.
Proof. induction n as [|n IH]; cbn [free_bits]; [lia|]. destruct (bit_used _ _ _); lia. Qed.

Lemma free_bits_ext m m' slab n :
  (∀ k, 0 ≤ k < Z.of_nat n → bit_used m' slab k = bit_used m slab k) → free_bits m' slab n = free_bits m slab n.
Proof. induction n as [|n IH]; intros H; cbn [free_bits]; [done|]. rewrite IH, H by (lia || intros; apply H; lia). done. Qed.

Lemma free_bits_zero m slab n :
  free_bits m slab n = 0 → ∀ k, 0 ≤ k < Z.of_nat n → bit_used m slab k = true.
Proof.
  induction n as [|n IH]; cbn [free_bits]; [lia|]. pose proof (free_bits_range m slab n) as Hr.
  intros H k Hk. destruct (bit_used m slab (Z.of_nat n)) eqn:E; [|lia].
  destruct (Z.eq_dec k (Z.of_nat n)) as [->|]; [done|]. apply IH; lia.
Qed.

Lemma free_bits_full m slab n :
  free_bits m slab n = Z.of_nat n → ∀ k, 0 ≤ k < Z.of_nat n → bit_used m slab k = false.
Proof.
  induction n as [|n IH]; cbn [free_bits]; [lia|]. pose proof (free_bits_range m slab n) as Hr.
  intros H k Hk. destruct (bit_used m slab (Z.of_nat n)) eqn:E; [lia|].
  destruct (Z.eq_dec k (Z.of_nat n)) as [->|]; [done|]. apply IH; lia.
Qed.

Lemma free_bits_all_free m slab n :
  (∀ k, 0 ≤ k < Z.of_nat n → bit_used m slab k = false) → free_bits m slab n = Z.of_nat n.
Proof. induction n as [|n IH]; intros H; cbn [free_bits]; [done|]. rewrite IH, H by (lia || intros; apply H; lia). lia. Qed.

(** Flipping one bit. *)
Lemma free_bits_flip m m' slab n k :
  0 ≤ k < Z.of_nat n → bit_used m' slab k = negb (bit_used m slab k) →
  (∀ j, 0 ≤ j < Z.of_nat n → j ≠ k → bit_used m' slab j = bit_used m slab j) →
  free_bits m' slab n = free_bits m slab n + (if bit_used m slab k then 1 else -1).
Proof.
  induction n as [|n IH]; [lia|]. intros Hk Hf Ho. cbn [free_bits].
  destruct (Z.eq_dec k (Z.of_nat n)) as [->|Hne].
  - rewrite (free_bits_ext m m' slab n) by (intros; apply Ho; lia). rewrite Hf. destruct (bit_used m slab (Z.of_nat n)); cbn; lia.
  - rewrite IH by (lia || done || intros; apply Ho; lia). rewrite (Ho (Z.of_nat n)) by lia. lia.
Qed.

Lemma bit_byte i j : 0 ≤ j < 8 → (i * 8 + j) / 8 = i ∧ (i * 8 + j) mod 8 = j.
Proof. intros. zdm. Qed.

Section Scan.
Context (m : mem) (slab size : Z).
Context (Hm : mapped m (slab + BITMAP_OFFSET) ((size + 7) / 8)).

Lemma load_bitmap i : 0 ≤ i < (size + 7) / 8 → ∃ b, load8 (slab + BITMAP_OFFSET + i) m = Ok b ∧ m !! (slab + BITMAP_OFFSET + i) = Some b.
Proof. intros Hi. destruct (Hm i Hi) as [b Hb]. exists b. split; [by apply load8_ok|done]. Qed.

Lemma firstzero_bits_ok n i j :
  0 ≤ i < (size + 7) / 8 → 0 ≤ j → j + Z.of_nat n = 8 →
  ∃ r, firstzero_bits n (slab + BITMAP_OFFSET) i j size m = Ok r ∧
    match r with
    | Some k => i * 8 + j ≤ k < size ∧ bit_used m slab k = false
    | None => ∀ k, i * 8 + j ≤ k < i * 8 + 8 → k < size → bit_used m slab k = true
    end.
Proof.
  intros Hi. revert j. induction n as [|n IH]; intros j Hj Hn; cbn [firstzero_bits].
  { exists None. split; [done|]. lia. }
  destruct (load_bitmap i Hi) as (b & -> & Hb). cbn [obind].
  assert (bit_used m slab (i * 8 + j) = Z.testbit b j) as Eu.
  { unfold bit_used. destruct (bit_byte i j ltac:(lia)) as [-> ->]. by rewrite Hb. }
  rewrite land_pow2_eqb by lia. destruct (Z.testbit b j) eqn:Et; cbn [negb andb].
  - destruct (IH (j + 1)) as (r & -> & Hr); [lia..|]. exists r. split; [done|]. destruct r as [k|].
    + split; [lia|apply Hr].
    + intros k Hk Hs. destruct (Z.eq_dec k (i * 8 + j)) as [->|]; [done|]. apply Hr; lia.
  - destruct (Z.ltb_spec (i * 8 + j) size) as [Hlt|Hge].
    + eexists. split; [done|]. split; [lia|done].
    + destruct (IH (j + 1)) as (r & -> & Hr); [lia..|]. exists r. split; [done|]. destruct r as [k|].
      * split; [lia|apply Hr].
      * intros k Hk Hs. lia.
Qed.

Lemma firstzero_bytes_ok n i :
  0 ≤ i → i + Z.of_nat n = (size + 7) / 8 →
  ∃ r, firstzero_bytes n (slab + BITMAP_OFFSET) i size m = Ok r ∧
    (r = -1 ∧ (∀ k, i * 8 ≤ k < size → bit_used m slab k = true) ∨ i * 8 ≤ r < size ∧ bit_used m slab r = false).
Proof.
  revert i. induction n as [|n IH]; intros i Hi Hn; cbn [firstzero_bytes].
  { exists (-1). split; [done|]. left. split; [done|]. intros k Hk. assert (size ≤ i * 8) by zdm. lia. }
  destruct (firstzero_bits_ok 8 i 0) as ([k|] & -> & Hr); [lia..| |]; cbn [obind].
  - exists k. split; [done|]. right. split; [lia|apply Hr].
  - destruct (IH (i + 1)) as (r & -> & Hr'); [lia..|]. exists r. split; [done|].
    destruct Hr' as [[-> Hall]|[Hk Hu]]; [left|right].
    + split; [done|]. intros k Hk. destruct (Z.lt_ge_cases k (i * 8 + 8)); [apply Hr; lia|apply Hall; lia].
    + split; [lia|done].
Qed.

Lemma bitmap_firstzero_ok :
  0 ≤ size < 2 ^ 31 → free_bits m slab (Z.to_nat size) ≠ 0 →
  ∃ k, bitmap_firstzero (slab + BITMAP_OFFSET) size m = Ok k ∧ 0 ≤ k < size ∧ bit_used m slab k = false.
Proof.
  intros Hs Hf. unfold bitmap_firstzero. rewrite u32_small by lia.
  destruct (firstzero_bytes_ok (Z.to_nat ((size + 7) / 8)) 0) as (r & -> & Hr); [lia|rewrite Z2Nat.id by zdm; lia|].
  exists r. split; [done|]. destruct Hr as [[-> Hall]|[? ?]]; [|split; [lia|done]].
  destruct Hf. assert (∀ n, (n ≤ Z.to_nat size)%nat → free_bits m slab n = 0) as Hz; [|by apply Hz].
  induction n as [|n IH]; intros Hn; cbn [free_bits]; [done|]. rewrite IH, Hall by lia. done.
Qed.
End Scan.

(** A write to the byte of bit [k] that leaves the byte's other bits. *)
Lemma bit_write m slab k b c (v : bool) :
  m !! (slab + BITMAP_OFFSET + k / 8) = Some b → 0 ≤ k → 0 ≤ c < 256 →
  (∀ j, 0 ≤ j < 8 → Z.testbit c j = if j =? k mod 8 then v else Z.testbit b j) →
  ∀ j, 0 ≤ j → bit_used (<[slab + BITMAP_OFFSET + k / 8 := c]> m) slab j = if j =? k then v else bit_used m slab j.
Proof.
  intros Hb Hk Hc Hbits j Hj. unfold bit_used. destruct (Z.eq_dec (j / 8) (k / 8)) as [Ed|Ed].
  - rewrite Ed, lookup_insert_eq, Hb. cbn [default]. rewrite Hbits by zdm.
    destruct (Z.eqb_spec j k) as [->|Hne]; [by rewrite Z.eqb_refl|].
    destruct (Z.eqb_spec (j mod 8) (k mod 8)); [zdm|done].
  - rewrite lookup_insert_ne by lia. destruct (Z.eqb_spec j k); [congruence|done].
Qed.

Lemma byte_lor b n : 0 ≤ b < 256 → 0 ≤ n < 8 → 0 ≤ Z.lor b (Z.shiftl 1 n) < 256.
Proof. intros Hb Hn. apply (word_lor b (Z.shiftl 1 n) 8); [lia|done|]. by apply word_shiftl1. Qed.

Lemma byte_clear b n : 0 ≤ b < 256 → 0 ≤ Z.land b n < 256.
Proof. intros Hb. by apply (word_land b n 8). Qed.

Lemma bitmap_setbit_ok m slab k :
  mem_ok m → 0 ≤ k → is_Some (m !! (slab + BITMAP_OFFSET + k / 8)) →
  ∃ c m', bitmap_setbit (slab + BITMAP_OFFSET) k m = Ok m' ∧ m' = <[slab + BITMAP_OFFSET + k / 8 := c]> m ∧ mem_ok m' ∧ same_dom m m' ∧
    ∀ j, 0 ≤ j → bit_used m' slab j = if j =? k then true else bit_used m slab j.
Proof.
  intros Hok Hk [b Hb]. unfold bitmap_setbit. rewrite (load8_ok _ _ _ Hb). cbn [obind].
  pose proof (Hok _ _ Hb) as Hr. assert (0 ≤ k mod 8 < 8) as Hm by zdm.
  pose proof (byte_lor b (k mod 8) Hr Hm) as Hc.
  destruct (store8_ok (slab + BITMAP_OFFSET + k / 8) (Z.lor b (Z.shiftl 1 (k mod 8))) m) as (m' & E & -> & Hd & Hok'); [by eexists|done|].
  rewrite u8_small in * by lia. eexists _, _. split; [exact E|]. split; [done|]. split; [done|]. split; [done|].
  apply (bit_write m slab k b); [done..|]. intros j Hj. rewrite testbit_set by lia. destruct (j =? _); [apply orb_true_r|apply orb_false_r].
Qed.

Lemma bitmap_clearbit_ok m slab k :
  mem_ok m → 0 ≤ k → is_Some (m !! (slab + BITMAP_OFFSET + k / 8)) →
  ∃ c m', bitmap_clearbit (slab + BITMAP_OFFSET) k m = Ok m' ∧ m' = <[slab + BITMAP_OFFSET + k / 8 := c]> m ∧ mem_ok m' ∧ same_dom m m' ∧
    ∀ j, 0 ≤ j → bit_used m' slab j = if j =? k then false else bit_used m slab j.
Proof.
  intros Hok Hk [b Hb]. unfold bitmap_clearbit. rewrite (load8_ok _ _ _ Hb). cbn [obind].
  pose proof (Hok _ _ Hb) as Hr. assert (0 ≤ k mod 8 < 8) as Hm by zdm.
  pose proof (byte_clear b (Z.lnot (Z.shiftl 1 (k mod 8))) Hr) as Hc.
  destruct (store8_ok (slab + BITMAP_OFFSET + k / 8) (Z.land b (Z.lnot (Z.shiftl 1 (k mod 8)))) m) as (m' & E & -> & Hd & Hok'); [by eexists|done|].
  rewrite u8_small in * by lia. eexists _, _. split; [exact E|]. split; [done|]. split; [done|]. split; [done|].
  apply (bit_write m slab k b); [done..|]. intros j Hj. rewrite testbit_clear by lia. destruct (j =? _); [apply andb_false_r|apply andb_true_r].
Qed.

Lemma bitmap_testbit_ok m slab k :
  0 ≤ k → is_Some (m !! (slab + BITMAP_OFFSET + k / 8)) →
  bitmap_testbit (slab + BITMAP_OFFSET) k m = Ok (Z.b2z (bit_used m slab k)).
Proof.
  intros Hk [b Hb]. unfold bitmap_testbit, bit_used. rewrite (load8_ok _ _ _ Hb), Hb. cbn [obind default].
  f_equal. rewrite Z.testbit_spec' by zdm. change 1 with (Z.ones 1) at 1. rewrite Z.land_ones, Z.shiftr_div_pow2 by (lia || zdm). done.
Qed.

(** ** Geometry

    For objects of 128 bytes and more the bitmap fits between its offset and the end
    of the header, so it does not meet the objects. *)

Definition large_size (z : Z) : Prop := z ∈ [128; 256; 512; 1024; 2048].

Lemma large_geometry z : large_size z →
  round8 z = z ∧ 128 ≤ z ≤ 2048 ∧ 0 < slab_capacity z < 32 ∧ SLAB_HEADER + slab_capacity z * z ≤ 4096 ∧
  0 < bitmap_bytes z ≤ 4 ∧ (slab_capacity z + 7) / 8 ≤ bitmap_bytes z.
Proof.
  unfold large_size. rewrite !elem_of_cons, elem_of_nil.
  intros [->|[->|[->|[->|[->|[]]]]]]; vm_compute; repeat split; (reflexivity || discriminate).
Qed.

(** The object [k] of a slab. *)
Definition object (z slab k : Z) : Z := slab + SLAB_HEADER + k * z.

Lemma index_to_obj_object z slab k h :
  large_size z → slab_obj_size h = z → 0 ≤ k < slab_capacity z → index_to_obj slab k h = object z slab k.
Proof.
  intros Hz E Hk. destruct (large_geometry z Hz) as (_ & Hz1 & Hn & _). unfold index_to_obj, object. rewrite E.
  rewrite u32_small by nia. done.
Qed.

Lemma obj_index_object z slab k h :
  large_size z → slab_obj_size h = z → 0 ≤ k < slab_capacity z → obj_index slab (object z slab k) h = Ok k.
Proof.
  intros Hz E Hk. destruct (large_geometry z Hz) as (_ & Hz1 & Hn & _). unfold obj_index, object. rewrite E.
  rewrite (proj2 (Z.eqb_neq z 0)) by lia. replace (slab + SLAB_HEADER + k * z - (slab + SLAB_HEADER)) with (k * z) by lia.
  rewrite Z.quot_mul by lia. by rewrite u32_small by lia.
Qed.

(** Where the object lies in its page. *)
Lemma object_in_page z slab k :
  large_size z → 0 ≤ k < slab_capacity z →
  slab + SLAB_HEADER ≤ object z slab k ∧ object z slab k + z ≤ slab + 4096.
Proof. intros Hz Hk. destruct (large_geometry z Hz) as (_ & Hz1 & Hn & Hend & _). unfold object, SLAB_HEADER in *. nia. Qed.

Lemma page_floor slab x : slab mod 4096 = 0 → slab ≤ x < slab + 4096 → x / 4096 * 4096 = slab.
Proof. intros. zdm. Qed.

Lemma land_page x : Z.land x (Z.lnot (PAGE_SIZE - 1)) = x / 4096 * 4096.
Proof. change (PAGE_SIZE - 1) with (Z.ones 12). rewrite <-Z.ldiff_land, Z.ldiff_ones_r, Z.shiftl_mul_pow2, Z.shiftr_div_pow2 by lia. done. Qed.

Lemma find_slab_object z slab k :
  large_size z → slab mod 4096 = 0 → 0 ≤ k < slab_capacity z → find_slab (object z slab k) = slab.
Proof.
  intros Hz Ha Hk. unfold find_slab. rewrite land_page. apply page_floor; [done|].
  pose proof (object_in_page z slab k Hz Hk). destruct (large_geometry z Hz). unfold SLAB_HEADER in *. lia.
Qed.

(** Objects are the same or do not meet. *)
Lemma object_disjoint z a k b j :
  large_size z → a mod 4096 = 0 → b mod 4096 = 0 → 0 ≤ k < slab_capacity z → 0 ≤ j < slab_capacity z →
  object z a k = object z b j ∧ a = b ∧ k = j ∨
  (a ≠ b ∨ k ≠ j) ∧ (object z a k + z ≤ object z b j ∨ object z b j + z ≤ object z a k).
Proof.
  intros Hz Ha Hb Hk Hj. pose proof (object_in_page z a k Hz Hk). pose proof (object_in_page z b j Hz Hj).
  destruct (large_geometry z Hz) as (_ & Hz1 & _). unfold SLAB_HEADER in *.
  destruct (Z.eq_dec a b) as [->|Hne].
  - destruct (Z.eq_dec k j) as [->|Hkj]; [by left|]. right. split; [by right|]. unfold object. nia.
  - right. split; [by left|]. assert (a + 4096 ≤ b ∨ b + 4096 ≤ a) by zdm. lia.
Qed.

Lemma object_inj z a k b j :
  large_size z → a mod 4096 = 0 → b mod 4096 = 0 → 0 ≤ k < slab_capacity z → 0 ≤ j < slab_capacity z →
  object z a k = object z b j → a = b ∧ k = j.
Proof.
  intros Hz Ha Hb Hk Hj E. destruct (large_geometry z Hz) as (_ & Hz1 & _).
  destruct (object_disjoint z a k b j Hz Ha Hb Hk Hj) as [(_ & ? & ?)|(_ & Hd)]; [done|lia].
Qed.

Section Inv.
Context {P : Type} {PF : PageFrames P} {PS : PageFramesSpec P}.
Context (slab_caches : Z) (i : nat) (z : Z).
Context (Hz : large_size z).
Implicit Types (s : @slabs P).

Abbreviation full_head := (slabs_full slab_caches i).
Abbreviation partial_head := (slabs_partial slab_caches i).
Abbreviation free_head := (slabs_free slab_caches i).
Abbreviation N := (Z.to_nat (slab_capacity z)).

Definition slab_family (full partial free : list Z) : heads :=
  <[full_head := full]> (<[partial_head := partial]> {[free_head := free]}).

(** The page of a slab: its header, its bitmap with [n] objects free, its memory. *)
Record slab_ok s (n slab : Z) (h : slab_header) : Prop := {
  so_header : headers s !! slab = Some h;
  so_size : slab_obj_size h = z;
  so_total : total_count h = slab_capacity z;
  so_free : free_count h = n;
  so_bits : free_bits (bytes s) slab N = n;
  so_align : slab mod 4096 = 0;
  so_addr : 0 < slab < 2 ^ 56;
  so_mapped : mapped (bytes s) slab 4096;
  so_used : pf_used (slab_page h) slab (frames s);
}.

Definition slab_at s (n slab : Z) : Prop := ∃ h, slab_ok s n slab h.
Definition slab_some s (slab : Z) : Prop := ∃ n, 0 < n ∧ slab_at s n slab.

(** The free pages: none at the list heads, all in memory. *)
Definition pages_ok s (l : list Z) : Prop :=
  pf_inv (frames s) l ∧ Forall (λ pa, (pa ∉ [full_head; partial_head; free_head]) ∧ mapped (bytes s) pa 4096) l.

Record cache_inv s (full partial free : list Z) : Prop := {
  ci_cache : ∃ c, caches s !! i = Some c ∧ cache_obj_size c = z;
  ci_lists : family (slab_lists s) (slab_family full partial free);
  ci_mem : mem_ok (bytes s);
  ci_full : Forall (slab_at s 0) full;
  ci_partial : Forall (slab_some s) partial;
  ci_free : Forall (slab_at s (slab_capacity z)) free;
}.

(** ** Live objects *)

Definition member (full partial free : list Z) (x : Z) : Prop := x ∈ full ∨ x ∈ partial ∨ x ∈ free.

Definition live s (full partial free : list Z) (o : Z) : Prop :=
  ∃ slab k, member full partial free slab ∧ 0 ≤ k < slab_capacity z ∧ bit_used (bytes s) slab k = true ∧ o = object z slab k.

Lemma heads_distinct : full_head ≠ partial_head ∧ full_head ≠ free_head ∧ partial_head ≠ free_head.
Proof. unfold slabs_full, slabs_partial, slabs_free. lia. Qed.

Lemma family_full f p r : slab_family f p r !! full_head = Some f.
Proof. apply lookup_insert_eq. Qed.
Lemma family_partial f p r : slab_family f p r !! partial_head = Some p.
Proof. destruct heads_distinct as (? & ? & ?). unfold slab_family. by rewrite lookup_insert_ne, lookup_insert_eq. Qed.
Lemma family_free f p r : slab_family f p r !! free_head = Some r.
Proof. destruct heads_distinct as (? & ? & ?). unfold slab_family. by rewrite !lookup_insert_ne, lookup_singleton_eq. Qed.

Lemma family_set_full f p r x : <[full_head := x]> (slab_family f p r) = slab_family x p r.
Proof. apply insert_insert_eq. Qed.
Lemma family_set_partial f p r x : <[partial_head := x]> (slab_family f p r) = slab_family f x r.
Proof.
  destruct heads_distinct as (? & ? & ?). unfold slab_family. rewrite insert_insert_ne by done. by rewrite insert_insert_eq.
Qed.
Lemma family_set_free f p r x : <[free_head := x]> (slab_family f p r) = slab_family f p x.
Proof.
  destruct heads_distinct as (? & ? & ?). unfold slab_family. rewrite (insert_insert_ne _ free_head full_head) by done.
  rewrite (insert_insert_ne _ free_head partial_head) by done. by rewrite insert_singleton_eq.
Qed.

Lemma in_slab_family f p r x : in_family (slab_family f p r) x ↔ x ∈ [full_head; partial_head; free_head] ∨ member f p r x.
Proof.
  destruct heads_distinct as (H1 & H2 & H3). split.
  - intros (q & l & Hq & Hx). unfold slab_family in Hq.
    apply lookup_insert_Some in Hq as [[<- <-]|[_ Hq]]; [|apply lookup_insert_Some in Hq as [[<- <-]|[_ Hq]]; [|apply lookup_singleton_Some in Hq as [<- <-]]];
      apply elem_of_cons in Hx as [->|Hx]; unfold member; rewrite ?elem_of_cons; tauto.
  - intros [Hx|[Hx|[Hx|Hx]]].
    + rewrite !elem_of_cons, elem_of_nil in Hx. destruct Hx as [->|[->|[->|[]]]];
        [exists full_head, f; split; [apply family_full|] | exists partial_head, p; split; [apply family_partial|]
        | exists free_head, r; split; [apply family_free|]]; apply elem_of_cons; by left.
    + exists full_head, f. split; [apply family_full|apply elem_of_cons; by right].
    + exists partial_head, p. split; [apply family_partial|apply elem_of_cons; by right].
    + exists free_head, r. split; [apply family_free|apply elem_of_cons; by right].
Qed.

Lemma member_at s f p r x : cache_inv s f p r → member f p r x → ∃ n, slab_at s n x.
Proof.
  intros [_ _ _ Hf Hp Hr] [Hx|[Hx|Hx]]; [rewrite Forall_forall in Hf|rewrite Forall_forall in Hp|rewrite Forall_forall in Hr]; eauto.
  destruct (Hp _ Hx) as (n & _ & H). eauto.
Qed.

(** A slab is not touched by changes elsewhere. *)
Definition slab_same s s' (slab : Z) : Prop :=
  headers s' !! slab = headers s !! slab ∧ same_dom (bytes s) (bytes s') ∧
  (∀ a, slab + BITMAP_OFFSET ≤ a < slab + SLAB_HEADER → bytes s' !! a = bytes s !! a) ∧
  (∀ q, pf_used q slab (frames s) → pf_used q slab (frames s')).

Lemma bit_same m m' slab k :
  (∀ a, slab + BITMAP_OFFSET ≤ a < slab + SLAB_HEADER → m' !! a = m !! a) → 0 ≤ k < slab_capacity z →
  bit_used m' slab k = bit_used m slab k.
Proof.
  intros H Hk. destruct (large_geometry z Hz) as (_ & _ & Hn & _ & Hb & _). unfold bit_used. rewrite H; [done|].
  unfold BITMAP_OFFSET, SLAB_HEADER in *. zdm.
Qed.

Lemma slab_ok_same s s' n slab h : slab_same s s' slab → slab_ok s n slab h → slab_ok s' n slab h.
Proof.
  intros (E & Hd & Hb & Hu) [H1 H2 H3 H4 H5 H6 H7 H8 H9]. split; try done; [by rewrite E| | |by apply Hu].
  - rewrite <-H5. apply free_bits_ext. intros k Hk. apply bit_same; [done|lia].
  - by apply (same_dom_mapped (bytes s)).
Qed.

Lemma slab_at_same s s' n slab : slab_same s s' slab → slab_at s n slab → slab_at s' n slab.
Proof. intros Hs [h H]. exists h. by apply (slab_ok_same s). Qed.

Lemma slabs_at_same s s' n l : (∀ x, x ∈ l → slab_same s s' x) → Forall (slab_at s n) l → Forall (slab_at s' n) l.
Proof. rewrite !Forall_forall. intros Hs H x Hx. apply (slab_at_same s); auto. Qed.

Lemma slabs_some_same s s' l : (∀ x, x ∈ l → slab_same s s' x) → Forall (slab_some s) l → Forall (slab_some s') l.
Proof. rewrite !Forall_forall. intros Hs H x Hx. destruct (H x Hx) as (n & Hn & Ha). exists n. split; [done|]. apply (slab_at_same s); auto. Qed.

(** A new slab: all its objects are free, and the other slabs are as before. *)
Lemma slab_header_init_ok s f p r pa l :
  cache_inv s f p r → pages_ok s (pa :: l) →
  ∃ s' h, slab_header_init z s = Ok (pa, s') ∧ slab_ok s' (slab_capacity z) pa h ∧ caches s' = caches s ∧
    is_Some (slab_lists s' !! pa) ∧ same_outside [pa] (slab_lists s) (slab_lists s') ∧ pages_ok s' l ∧ mem_ok (bytes s') ∧
    (∀ x, member f p r x → slab_same s s' x) ∧ ~ member f p r pa ∧ (pa ∉ [full_head; partial_head; free_head]) ∧
    (∀ a, ~ (pa ≤ a < pa + 4096) → bytes s' !! a = bytes s !! a).
Proof.
  intros Hinv [Hpf Hl]. apply Forall_cons in Hl as [[Hhd Hmap] Hl].
  destruct (pf_alloc_ok _ _ _ Hpf) as (page & a' & Ea & Hpn & Epa & Hpf' & Hal & Hpa & Hus & Hfresh & Hkeep).
  destruct (large_geometry z Hz) as (Ez & _ & Hn & _ & Hb & Hcap). pose proof (ci_mem _ _ _ _ Hinv) as Hmem.
  unfold slab_header_init, slab_new_page. rewrite Ea. cbn [obind]. rewrite (proj2 (Z.eqb_neq page 0)), Epa by done. cbn [obind].
  destruct (memset_spec pa 0 PAGE_SIZE (bytes s) Hmem Hmap) as (m1 & -> & F1 & O1 & D1 & K1); [lia|done|unfold PAGE_SIZE; lia|].
  cbn [obind frames set_bytes set_frames]. rewrite (proj2 (Z.eqb_neq page 0)), Epa by done. cbn [obind]. rewrite Ez.
  destruct (INIT_LIST_HEAD_ok pa (<[pa := ListHead 0 0]> (slab_lists s))) as (h' & Eh & HN & _ & Ho);
    [by rewrite lookup_insert_eq|]. cbn [slab_lists set_lists set_bytes set_frames]. rewrite Eh. cbn [obind].
  cbn [bytes put_header set_headers set_lists set_bytes].
  destruct (memset_spec (pa + BITMAP_OFFSET) 0 (bitmap_bytes z) m1 K1) as (m2 & -> & F2 & O2 & D2 & K2);
    [apply (mapped_sub m1 pa 4096); [by apply (same_dom_mapped (bytes s))|unfold BITMAP_OFFSET; lia..]|unfold BITMAP_OFFSET; lia|lia|unfold BITMAP_OFFSET; lia|].
  cbn [obind]. change (u8 0) with 0 in *.
  assert (∀ a, ~ (pa ≤ a < pa + 4096) → m2 !! a = bytes s !! a) as Hout.
  { intros a Ha. rewrite O2, O1 by (unfold BITMAP_OFFSET, PAGE_SIZE in *; lia). done. }
  assert (same_dom (bytes s) m2) as Hdom by (by eapply same_dom_trans).
  assert (~ member f p r pa) as Hnm.
  { intros Hx. destruct (member_at _ _ _ _ _ Hinv Hx) as (n & h & Hok). by apply (Hfresh (slab_page h)), (so_used _ _ _ _ Hok). }
  eexists _, _. split; [done|]. split; [|split; [done|]]; [|split; [|split; [|split; [|split; [done|split; [|split; [done|split; [done|exact Hout]]]]]]]].
  - split; [apply lookup_insert_eq|..]; try done.
    + cbn [bytes set_bytes]. rewrite free_bits_all_free; [lia|]. intros k Hk. unfold bit_used. rewrite F2; [apply Z.bits_0|]. zdm.
    + by apply (same_dom_mapped (bytes s)).
  - cbn. apply nx_is_Some. rewrite HN. by case_decide.
  - intros q Hq. cbn. rewrite Ho by done. apply lookup_insert_ne. rewrite elem_of_cons in Hq. naive_solver.
  - split; [exact Hpf'|]. eapply Forall_impl; [exact Hl|]. intros x [Hx1 Hx2]. split; [done|]. by apply (same_dom_mapped (bytes s)).
  - intros x Hx. destruct (member_at _ _ _ _ _ Hinv Hx) as (n & h & Hok). pose proof (so_align _ _ _ _ Hok) as Hxa.
    assert (x ≠ pa) as Hne by (intros ->; done).
    split; [cbn; by rewrite lookup_insert_ne|]. split; [exact Hdom|]. split; [|intros q; apply Hkeep].
    intros a Ha. apply Hout. unfold BITMAP_OFFSET, SLAB_HEADER in Ha. zdm.
Qed.

Lemma slab_same_refl s s' x :
  headers s' = headers s → bytes s' = bytes s → frames s' = frames s → slab_same s s' x.
Proof. intros E1 E2 E3. split; [by rewrite E1|]. rewrite E2. split; [done|]. split; [done|]. by rewrite E3. Qed.

Definition sizes_of (l : list kmem_cache) : list Z := cache_obj_size <$> l.

(** Moves between the lists: the rest of the state is the same. *)
Lemma list_run_del s F hd l1 x l2 :
  family (slab_lists s) F → F !! hd = Some (l1 ++ x :: l2) →
  ∃ h', list_run (list_del x) s = Ok (set_lists h' s) ∧ family h' (<[hd := l1 ++ l2]> F) ∧
    ~ in_family (<[hd := l1 ++ l2]> F) x ∧ is_Some (h' !! x).
Proof.
  intros HF Hh. destruct (family_del _ _ _ _ _ _ HF Hh) as (h' & E & HF' & Hn & Hs & _).
  exists h'. unfold list_run. rewrite E. done.
Qed.

Lemma list_run_add s F hd l x :
  family (slab_lists s) F → F !! hd = Some l → ~ in_family F x → is_Some (slab_lists s !! x) →
  ∃ h', list_run (list_add x hd) s = Ok (set_lists h' s) ∧ family h' (<[hd := x :: l]> F).
Proof.
  intros HF Hh Hx Hs. destruct (family_add _ _ _ _ _ HF Hh Hx Hs) as (h' & E & HF' & _).
  exists h'. unfold list_run. rewrite E. done.
Qed.

(** Objects keep their bytes. *)
Definition objects_same s s' (f p r : list Z) : Prop :=
  ∀ o a, live s f p r o → o ≤ a < o + z → bytes s' !! a = bytes s !! a.

Lemma slab_refill_ok s f p r l :
  cache_inv s f p r → pages_ok s l → (p = [] → r = [] → l ≠ []) →
  ∃ s' p' r' l', slab_refill slab_caches i s = Ok (true, s') ∧ cache_inv s' f p' r' ∧ pages_ok s' l' ∧ p' ≠ [] ∧
    (l' = l ∨ ∃ pa, l = pa :: l') ∧
    caches s' = caches s ∧ (∀ o, live s' f p' r' o ↔ live s f p r o) ∧ objects_same s s' f p r.
Proof.
  intros Hinv Hl Hmem. pose proof Hinv as [[c [Ec Ecz]] HF Hok Hf Hp Hr]. unfold slab_refill.
  destruct (large_geometry z Hz) as (_ & _ & Hcap & _).
  rewrite (list_empty_spec _ _ p (fam_dll _ _ HF _ _ (family_partial f p r))). cbn [obind].
  destruct p as [|x p].
  2: { rewrite bool_decide_false by done. exists s, (x :: p), r, l. split; [done|]. split; [done|]. split; [done|]. split; [done|]. split; [by left|].
       split; [done|]. split; [done|]. by intros o a. }
  rewrite bool_decide_true by done. rewrite (list_empty_spec _ _ r (fam_dll _ _ HF _ _ (family_free f [] r))). cbn [obind].
  destruct r as [|x r].
  - rewrite bool_decide_true by done. destruct l as [|pa l]; [by destruct Hmem|].
    unfold get_cache. rewrite Ec. cbn [of_option obind]. rewrite Ecz.
    destruct (slab_header_init_ok s f [] [] pa l Hinv Hl) as (s1 & h & -> & Hs1 & Ecs & Hcell & Hout & Hl1 & Hm1 & Hsame & Hnm & Hnh & Hby).
    cbn [obind]. pose proof (so_addr _ _ _ _ Hs1). rewrite (proj2 (Z.eqb_neq pa 0)) by lia.
    assert (~ in_family (slab_family f [] []) pa) as Hnf by (rewrite in_slab_family; intros [?|?]; done).
    destruct (list_run_add s1 (slab_family f [] []) partial_head [] pa) as (h' & -> & HF').
    { apply (family_frame [pa] (slab_lists s)); [done..|]. intros y Hy. apply list_elem_of_singleton in Hy as ->. done. }
    { apply family_partial. } { done. } { done. }
    cbn [obind]. rewrite family_set_partial in HF'. eexists _, [pa], [], l. split; [done|].
    split; [|split; [exact Hl1|split; [done|split; [right; by exists pa|split; [exact Ecs|split]]]]].
    + split; [exists c; cbn; by rewrite Ecs|exact HF'|exact Hm1| | |done].
      * apply (slabs_at_same s); [|done]. intros y Hy. apply Hsame. by left.
      * apply Forall_singleton. exists (slab_capacity z). split; [lia|]. exists h. by apply (slab_ok_same s1); [apply slab_same_refl|].
    + intros o. split; intros (y & k & Hy & Hk & Hu & ->).
      * destruct Hy as [Hy|[Hy|Hy]]; [exists y, k; split; [by left|]| |by apply elem_of_nil in Hy].
        -- split; [done|]. split; [|done]. rewrite <-Hu. symmetry. apply bit_same; [apply (Hsame y); by left|done].
        -- apply list_elem_of_singleton in Hy as ->. pose proof (so_bits _ _ _ _ Hs1) as Hb.
           cbn [bytes set_lists] in Hu. rewrite (free_bits_full (bytes s1) pa N) in Hu; [done|lia|lia].
      * exists y, k. destruct Hy as [Hy|[Hy|Hy]]; [|by apply elem_of_nil in Hy..].
        split; [by left|]. split; [done|]. split; [|done]. rewrite <-Hu. apply bit_same; [apply (Hsame y); by left|done].
    + intros o a (y & k & Hy & Hk & Hu & ->) Ha. cbn. apply Hby. pose proof (object_in_page z y k Hz Hk) as Hpg.
      destruct (member_at _ _ _ _ _ Hinv Hy) as (n & hy & Hyok). pose proof (so_align _ _ _ _ Hyok). pose proof (so_align _ _ _ _ Hs1).
      assert (y ≠ pa) by (intros ->; done). unfold SLAB_HEADER in *. zdm.
  - rewrite bool_decide_false by done. rewrite (get_next_ok _ x _); [|apply (dll_first _ _ _ (fam_dll _ _ HF _ _ (family_free f [] (x :: r))))].
    cbn [obind]. apply Forall_cons in Hr as [Hx Hr].
    destruct (list_run_del s _ free_head [] x r HF (family_free _ _ _)) as (h1 & -> & HF1 & Hn1 & Hc1). cbn [obind].
    rewrite family_set_free in HF1, Hn1. cbn [app] in HF1, Hn1.
    destruct (list_run_add (set_lists h1 s) _ partial_head [] x HF1 (family_partial _ _ _) Hn1 Hc1) as (h2 & -> & HF2). cbn [obind].
    rewrite family_set_partial in HF2. eexists _, [x], r, l. split; [done|].
    assert (∀ y, slab_same s (set_lists h2 (set_lists h1 s)) y) as Hs by (intros y; by apply slab_same_refl).
    split; [|split; [exact Hl|split; [done|split; [by left|split; [done|split]]]]].
    + split; [by exists c|exact HF2|exact Hok|by apply (slabs_at_same s)| |by apply (slabs_at_same s)].
      apply Forall_singleton. exists (slab_capacity z). split; [lia|]. by apply (slab_at_same s).
    + intros o. unfold live. assert (∀ y, member f [x] r y ↔ member f [] (x :: r) y) as Em.
      { intros y. unfold member. rewrite !elem_of_cons, elem_of_nil. tauto. }
      split; intros (y & k & Hy & H); exists y, k; (split; [by apply Em|done]).
    + by intros o a.
Qed.

Lemma bitmap_mapped s n slab h k : slab_ok s n slab h → 0 ≤ k < slab_capacity z → is_Some (bytes s !! (slab + BITMAP_OFFSET + k / 8)).
Proof.
  intros Hs Hk. destruct (large_geometry z Hz) as (_ & _ & Hn & _). rewrite <-Z.add_assoc.
  apply (so_mapped _ _ _ _ Hs). unfold BITMAP_OFFSET. zdm.
Qed.

Lemma add_free_objects_ok s d :
  (∃ c, caches s !! i = Some c ∧ cache_obj_size c = z) →
  ∃ cs, add_free_objects i d s = Ok (set_caches cs s) ∧ sizes_of cs = sizes_of (caches s) ∧
    ∃ c, cs !! i = Some c ∧ cache_obj_size c = z.
Proof.
  intros (c & Ec & Ez). unfold add_free_objects, get_cache. rewrite Ec. cbn [of_option obind]. eexists. split; [done|].
  split; [|eexists; split; [apply list_lookup_insert_eq; by apply lookup_lt_Some in Ec|done]].
  unfold sizes_of. rewrite list_fmap_insert. cbn. apply list_insert_id. by rewrite list_lookup_fmap, Ec.
Qed.

(** The members of the lists other than the first partial slab. *)
Lemma first_partial_once s f x p r :
  family (slab_lists s) (slab_family f (x :: p) r) → ~ member f p r x.
Proof.
  intros HF. destruct (list_run_del s _ partial_head [] x p HF (family_partial _ _ _)) as (h & _ & _ & Hn & _).
  rewrite family_set_partial, in_slab_family in Hn. tauto.
Qed.

(** Marking object [k] of slab [x] and writing inside the object: the effect on the
    slabs. *)
Lemma mark_slab s s' x k n h (v : bool) :
  slab_ok s n x h → 0 ≤ k < slab_capacity z → bit_used (bytes s) x k = negb v →
  headers s' = <[x := set_free_count (n + (if v then -1 else 1)) h]> (headers s) → same_dom (bytes s) (bytes s') →
  frames s' = frames s →
  (∀ j, 0 ≤ j < slab_capacity z → bit_used (bytes s') x j = if j =? k then v else bit_used (bytes s) x j) →
  slab_ok s' (n + (if v then -1 else 1)) x (set_free_count (n + (if v then -1 else 1)) h).
Proof.
  intros [H1 H2 H3 H4 H5 H6 H7 H8 H9] Hk Hu Eh Hd Ef Hb. split; try done.
  - rewrite Eh. apply lookup_insert_eq.
  - rewrite (free_bits_flip (bytes s) (bytes s') x N k); [|lia| |].
    + rewrite Hu, H5. by destruct v.
    + rewrite Hb, Z.eqb_refl, Hu by lia. by destruct v.
    + intros j Hj Hne. rewrite Hb by lia. by rewrite (proj2 (Z.eqb_neq j k)).
  - by apply (same_dom_mapped (bytes s)).
  - by rewrite Ef.
Qed.

(** The bytes after an object is taken. *)
Lemma take_bytes s n x h k :
  mem_ok (bytes s) → slab_ok s n x h → 0 ≤ k < slab_capacity z →
  ∃ m1 m2, bitmap_setbit (x + BITMAP_OFFSET) k (bytes s) = Ok m1 ∧ memset (object z x k) 0 z m1 = Ok (object z x k, m2) ∧
    mem_ok m2 ∧ same_dom (bytes s) m2 ∧
    (∀ j, 0 ≤ j < slab_capacity z → bit_used m2 x j = if j =? k then true else bit_used (bytes s) x j) ∧
    (∀ a, object z x k ≤ a < object z x k + z → m2 !! a = Some 0) ∧
    (∀ a, ~ (x + BITMAP_OFFSET ≤ a < x + SLAB_HEADER) → ~ (object z x k ≤ a < object z x k + z) → m2 !! a = bytes s !! a).
Proof.
  intros Hok Hs Hk. destruct (large_geometry z Hz) as (_ & Hz1 & Hn & _ & Hb & _).
  pose proof (object_in_page z x k Hz Hk) as Hpg. pose proof (so_addr _ _ _ _ Hs) as Hxa.
  destruct (bitmap_setbit_ok (bytes s) x k Hok ltac:(lia) (bitmap_mapped _ _ _ _ _ Hs Hk)) as (c & m1 & E1 & Em & K1 & D1 & B1).
  destruct (memset_spec (object z x k) 0 z m1 K1) as (m2 & E2 & F2 & O2 & D2 & K2).
  { replace (object z x k) with (x + (object z x k - x)) by lia. apply (mapped_sub m1 x 4096); [|unfold SLAB_HEADER in *; lia..].
    apply (same_dom_mapped (bytes s)); [done|]. apply (so_mapped _ _ _ _ Hs). }
  { unfold SLAB_HEADER in *. lia. } { lia. } { unfold SLAB_HEADER in *. lia. }
  change (u8 0) with 0 in *. exists m1, m2. split; [done|]. split; [done|]. split; [done|]. split; [by eapply same_dom_trans|].
  split; [|split].
  - intros j Hj. rewrite <-B1 by lia. apply bit_same; [|done]. intros a Ha. apply O2. lia.
  - intros a Ha. replace a with (object z x k + (a - object z x k)) by lia. apply F2. lia.
  - intros a Ha1 Ha2. rewrite O2 by lia. subst m1. apply lookup_insert_ne. unfold BITMAP_OFFSET, SLAB_HEADER in *. zdm.
Qed.

Lemma other_slab_bytes x y k a :
  x mod 4096 = 0 → y mod 4096 = 0 → x ≠ y → 0 ≤ k < slab_capacity z → y ≤ a < y + 4096 →
  ~ (x + BITMAP_OFFSET ≤ a < x + SLAB_HEADER) ∧ ~ (object z x k ≤ a < object z x k + z).
Proof.
  intros Hx Hy Hne Hk Ha. pose proof (object_in_page z x k Hz Hk). destruct (large_geometry z Hz) as (_ & Hz1 & _).
  unfold BITMAP_OFFSET, SLAB_HEADER in *. zdm.
Qed.

(** What taking or giving back object [k] of slab [x] does to the live objects. *)
Lemma live_mark s s' f p r f' p' r' x k (v : bool) :
  cache_inv s f p r → (∀ y, member f' p' r' y ↔ member f p r y) → member f p r x → 0 ≤ k < slab_capacity z →
  (∀ j, 0 ≤ j < slab_capacity z → bit_used (bytes s') x j = if j =? k then v else bit_used (bytes s) x j) →
  (∀ y j, member f p r y → y ≠ x → 0 ≤ j < slab_capacity z → bit_used (bytes s') y j = bit_used (bytes s) y j) →
  ∀ o, live s' f' p' r' o ↔ if v then o = object z x k ∨ live s f p r o else live s f p r o ∧ o ≠ object z x k.
Proof.
  intros Hinv Hmem Hx Hk Hbx Hby o.
  assert (∀ y, member f p r y → y mod 4096 = 0) as Hal.
  { intros y Hy. destruct (member_at _ _ _ _ _ Hinv Hy) as (n & h & Hs). apply Hs. }
  assert (∀ y j, member f p r y → 0 ≤ j < slab_capacity z → (y ≠ x ∨ j ≠ k) →
    bit_used (bytes s') y j = bit_used (bytes s) y j) as Hsame.
  { intros y j Hy Hj Hne. destruct (Z.eq_dec y x) as [->|Hyx]; [|by apply Hby].
    rewrite Hbx by done. destruct Hne as [?|?]; [done|]. by rewrite (proj2 (Z.eqb_neq j k)). }
  assert (∀ y j, member f p r y → 0 ≤ j < slab_capacity z → object z y j ≠ object z x k → y ≠ x ∨ j ≠ k) as Hdiff.
  { intros y j Hy Hj Hne. destruct (Z.eq_dec y x) as [->|?]; [|by left]. right. by intros ->. }
  destruct v; split.
  - intros (y & j & Hy & Hj & Hu & ->). apply Hmem in Hy.
    destruct (Z.eq_dec (object z y j) (object z x k)) as [?|Hne]; [by left|right]. exists y, j.
    rewrite Hsame in Hu by auto. done.
  - intros [->|(y & j & Hy & Hj & Hu & ->)].
    + exists x, k. split; [by apply Hmem|]. split; [done|]. split; [|done]. by rewrite Hbx, Z.eqb_refl.
    + exists y, j. split; [by apply Hmem|]. split; [done|]. split; [|done].
      destruct (Z.eq_dec y x) as [->|?]; [rewrite Hbx by done; by destruct (j =? k)|by rewrite Hby].
  - intros (y & j & Hy & Hj & Hu & ->). apply Hmem in Hy.
    assert (object z y j ≠ object z x k) as Hne.
    { intros E. apply object_inj in E as [-> ->]; [|by auto..]. by rewrite Hbx, Z.eqb_refl in Hu. }
    split; [|done]. exists y, j. rewrite Hsame in Hu by auto. done.
  - intros [(y & j & Hy & Hj & Hu & ->) Hne]. exists y, j. split; [by apply Hmem|]. rewrite Hsame by auto. done.
Qed.

Lemma live_disjoint s f p r o o' :
  cache_inv s f p r → live s f p r o → live s f p r o' → o = o' ∨ o + z ≤ o' ∨ o' + z ≤ o.
Proof.
  intros Hinv (y & k & Hy & Hk & _ & ->) (y' & k' & Hy' & Hk' & _ & ->).
  destruct (member_at _ _ _ _ _ Hinv Hy) as (n & h & Hs), (member_at _ _ _ _ _ Hinv Hy') as (n' & h' & Hs').
  destruct (object_disjoint z y k y' k' Hz (so_align _ _ _ _ Hs) (so_align _ _ _ _ Hs') Hk Hk') as [(? & _)|(_ & ?)]; tauto.
Qed.

(** Marking object [k] of slab [x], and writing nowhere else than in the slab's bitmap
    and in that object. *)
Lemma mark_effect s s' f p r x k n h (v : bool) :
  let d := if v then -1 else 1 in
  cache_inv s f p r → member f p r x → slab_ok s n x h → 0 ≤ k < slab_capacity z → bit_used (bytes s) x k = negb v →
  headers s' = <[x := set_free_count (n + d) h]> (headers s) → frames s' = frames s → same_dom (bytes s) (bytes s') →
  (∀ j, 0 ≤ j < slab_capacity z → bit_used (bytes s') x j = if j =? k then v else bit_used (bytes s) x j) →
  (∀ a, ~ (x + BITMAP_OFFSET ≤ a < x + SLAB_HEADER) → ~ (object z x k ≤ a < object z x k + z) → bytes s' !! a = bytes s !! a) →
  slab_ok s' (n + d) x (set_free_count (n + d) h) ∧
  (∀ y, member f p r y → y ≠ x → slab_same s s' y) ∧
  (∀ o a, live s f p r o → o ≠ object z x k → o ≤ a < o + z → bytes s' !! a = bytes s !! a) ∧
  (∀ f' p' r', (∀ y, member f' p' r' y ↔ member f p r y) → ∀ o, live s' f' p' r' o ↔
     if v then o = object z x k ∨ live s f p r o else live s f p r o ∧ o ≠ object z x k).
Proof.
  intros d Hinv Hx Hs Hk Hu Eh Ef Hd Hb Ho. pose proof (so_align _ _ _ _ Hs) as Hxal.
  assert (∀ y, member f p r y → y ≠ x → slab_same s s' y) as Hsame.
  { intros y Hy Hne. destruct (member_at s f p r y Hinv Hy) as (n' & h2 & Hs2).
    split; [by rewrite Eh, lookup_insert_ne|]. split; [done|]. split; [|by rewrite Ef]. intros a Ha.
    destruct (other_slab_bytes x y k a Hxal (so_align _ _ _ _ Hs2) (not_eq_sym Hne) Hk); [unfold BITMAP_OFFSET, SLAB_HEADER in *; lia|]. by apply Ho. }
  split; [by apply (mark_slab s s' x k n h v)|]. split; [done|]. split.
  - intros o a (y & j & Hy & Hj & Hu' & ->) Hno Ha. destruct (member_at _ _ _ _ _ Hinv Hy) as (n' & h2 & Hs2).
    pose proof (so_align _ _ _ _ Hs2) as Hyal. pose proof (object_in_page z y j Hz Hj) as Hpg. unfold SLAB_HEADER in *.
    destruct (Z.eq_dec x y) as [->|Hne].
    + apply Ho; [unfold SLAB_HEADER; lia|]. destruct (object_disjoint z y k y j) as [(_ & _ & ->)|(_ & Hdj)]; [done..|lia].
    + destruct (other_slab_bytes x y k a Hxal Hyal Hne Hk); [lia|]. by apply Ho.
  - intros f' p' r' Hmem. apply (live_mark s s' f p r f' p' r' x k v Hinv Hmem Hx Hk Hb).
    intros y j Hy Hne Hj. apply bit_same; [|done]. by apply (Hsame y).
Qed.

Lemma pages_ok_bytes s s' l : pages_ok s l → frames s' = frames s → same_dom (bytes s) (bytes s') → pages_ok s' l.
Proof.
  intros [H1 H2] E Hd. split; [by rewrite E|]. eapply Forall_impl; [exact H2|]. intros y [Hy1 Hy2]. split; [done|].
  by apply (same_dom_mapped (bytes s)).
Qed.

(** The move of the slab once it is full. *)
Lemma take_lists s f x p r n :
  family (slab_lists s) (slab_family f (x :: p) r) → 0 < n →
  ∃ h' f' p', (if n + -1 =? 0 then let! t := list_run (list_del x) s in list_run (list_add x full_head) t else Ok s)
      = Ok (set_lists h' s) ∧ family h' (slab_family f' p' r) ∧
    (n = 1 ∧ f' = x :: f ∧ p' = p ∨ 1 < n ∧ f' = f ∧ p' = x :: p).
Proof.
  intros HF Hn. destruct (Z.eqb_spec (n + -1) 0) as [E|E].
  - destruct (list_run_del s _ partial_head [] x p HF (family_partial _ _ _)) as (h1 & -> & HF1 & Hn1 & Hc1). cbn [obind].
    rewrite family_set_partial in HF1, Hn1.
    destruct (list_run_add (set_lists h1 s) _ full_head f x HF1 (family_full _ _ _) Hn1 Hc1) as (h2 & -> & HF2).
    rewrite family_set_full in HF2. exists h2, (x :: f), p. split; [done|]. split; [done|]. left. split; [lia|done].
  - exists (slab_lists s), f, (x :: p). split; [by destruct s|]. split; [done|]. right. split; [lia|done].
Qed.

Lemma slab_take_ok s f x p r l :
  cache_inv s f (x :: p) r → pages_ok s l →
  ∃ o s' f' p', slab_take slab_caches i s = Ok (o, s') ∧ cache_inv s' f' p' r ∧ pages_ok s' l ∧
    sizes_of (caches s') = sizes_of (caches s) ∧ ~ live s f (x :: p) r o ∧
    (∀ o', live s' f' p' r o' ↔ o' = o ∨ live s f (x :: p) r o') ∧ objects_same s s' f (x :: p) r ∧
    (∀ a, o ≤ a < o + z → bytes s' !! a = Some 0).
Proof.
  intros Hinv Hl. pose proof Hinv as [Hc HF Hok Hf Hp Hr]. apply Forall_cons in Hp as [(n & Hn & h & Hs) Hp].
  destruct (large_geometry z Hz) as (_ & Hz1 & Hcap & _). pose proof (first_partial_once s f x p r HF) as Honce.
  pose proof (free_bits_range (bytes s) x N) as Hbr. rewrite (so_bits _ _ _ _ Hs) in Hbr.
  assert (member f (x :: p) r x) as Hx by (right; left; apply elem_of_cons; by left).
  unfold slab_take. rewrite (get_next_ok _ x _); [|apply (dll_first _ _ _ (fam_dll _ _ HF _ _ (family_partial f (x :: p) r)))].
  cbn [obind]. unfold get_header. rewrite (so_header _ _ _ _ Hs). cbn [of_option obind]. rewrite (so_total _ _ _ _ Hs).
  destruct (bitmap_firstzero_ok (bytes s) x (slab_capacity z)) as (k & -> & Hk & Hfree).
  { rewrite <-(Z.add_0_r (x + BITMAP_OFFSET)), <-Z.add_assoc. apply (mapped_sub _ x 4096); [apply (so_mapped _ _ _ _ Hs)|unfold BITMAP_OFFSET; lia|unfold BITMAP_OFFSET; zdm]. }
  { lia. } { rewrite (so_bits _ _ _ _ Hs). lia. }
  cbn [obind]. rewrite (proj2 (Z.ltb_ge k 0)) by lia.
  destruct (take_bytes s n x h k Hok Hs Hk) as (m1 & m2 & -> & E2 & K2 & D2 & B2 & Z2 & O2). cbn [obind].
  rewrite (so_free _ _ _ _ Hs), u32_small by lia. change (n - 1) with (n + -1). cbn [free_count set_free_count].
  set (s1 := put_header x _ (set_bytes m1 s)).
  destruct (add_free_objects_ok s1 (-1) Hc) as (cs & -> & Esz & Hcs). cbn [obind].
  destruct (take_lists (set_caches cs s1) f x p r n HF Hn) as (h' & f' & p' & -> & HF' & Hcase). cbn [obind].
  rewrite (index_to_obj_object z) by (done || apply (so_size _ _ _ _ Hs)).
  cbn [slab_obj_size set_free_count bytes set_lists set_caches s1 put_header set_headers set_bytes]. rewrite (so_size _ _ _ _ Hs), E2. cbn [obind].
  set (s' := set_bytes m2 _). exists (object z x k), s', f', p'. split; [done|].
  destruct (mark_effect s s' f (x :: p) r x k n h true Hinv Hx Hs Hk Hfree) as (Hs' & Hsame & Hobj & Hlive); [done..|].
  assert (∀ y, member f' p' r y ↔ member f (x :: p) r y) as Hmem.
  { intros y. unfold member. destruct Hcase as [(_ & -> & ->)|(_ & -> & ->)]; rewrite !elem_of_cons; tauto. }
  assert (∀ y, member f p r y → slab_same s s' y) as Hsm.
  { intros y Hy. apply Hsame; [unfold member in *; rewrite elem_of_cons; tauto|by intros ->]. }
  assert (~ live s f (x :: p) r (object z x k)) as Hno.
  { intros (y & j & Hy & Hj & Hu & E). destruct (member_at _ _ _ _ _ Hinv Hy) as (n' & h2 & Hs2).
    apply object_inj in E as [<- <-]; [by rewrite Hfree in Hu|done|apply Hs|apply Hs2|done|done]. }
  split; [|split; [by apply (pages_ok_bytes s)|split; [exact Esz|split; [done|split; [by apply Hlive|split; [|exact Z2]]]]]].
  - split; [exact Hcs|exact HF'|exact K2|..].
    + destruct Hcase as [(-> & -> & _)|(_ & -> & _)]; [apply Forall_cons; split; [by eexists|]|];
        (apply (slabs_at_same s); [intros y Hy; apply Hsm; by left|done]).
    + destruct Hcase as [(_ & _ & ->)|(Hlt & _ & ->)]; [|apply Forall_cons; split; [exists (n + -1); split; [lia|by eexists]|]];
        (apply (slabs_some_same s); [intros y Hy; apply Hsm; right; by left|done]).
    + apply (slabs_at_same s); [intros y Hy; apply Hsm; by do 2 right|done].
  - intros o a Ho. apply Hobj; [done|]. by intros ->.
Qed.

Lemma slab_alloc_obj_ok s f p r l :
  cache_inv s f p r → pages_ok s l → (p = [] → r = [] → l ≠ []) →
  ∃ o s' f' p' r' l', slab_alloc_obj slab_caches i s = Ok (o, s') ∧ cache_inv s' f' p' r' ∧ pages_ok s' l' ∧
    (l' = l ∨ ∃ pa, l = pa :: l') ∧ sizes_of (caches s') = sizes_of (caches s) ∧ ~ live s f p r o ∧
    (∀ o', live s' f' p' r' o' ↔ o' = o ∨ live s f p r o') ∧ objects_same s s' f p r ∧
    (∀ a, o ≤ a < o + z → bytes s' !! a = Some 0).
Proof.
  intros Hinv Hl Hav. destruct (slab_refill_ok s f p r l Hinv Hl Hav) as (s1 & p1 & r1 & l1 & E1 & Hinv1 & Hl1 & Hne & Hll & Ec & Hlive1 & Hobj1).
  destruct p1 as [|x p1]; [done|].
  destruct (slab_take_ok s1 f x p1 r1 l1 Hinv1 Hl1) as (o & s' & f' & p' & E & Hinv' & Hl' & Esz & Hno & Hlive & Hobj & Hzero).
  exists o, s', f', p', r1, l1. unfold slab_alloc_obj. rewrite E1. cbn [obind negb].
  split; [done|]. split; [done|]. split; [done|]. split; [done|]. split; [by rewrite Esz, Ec|]. split; [by rewrite <-Hlive1|].
  split; [intros o'; by rewrite Hlive, Hlive1|]. split; [|done].
  intros o' a Ho Ha. rewrite (Hobj o') by (done || by apply Hlive1). by apply (Hobj1 o').
Qed.

(** The owner of an object may write into it. *)
Lemma client_write s m f p r x k :
  cache_inv s f p r → member f p r x → 0 ≤ k < slab_capacity z → mem_ok m → same_dom (bytes s) m →
  (∀ a, ~ (object z x k ≤ a < object z x k + z) → m !! a = bytes s !! a) →
  cache_inv (set_bytes m s) f p r ∧ ∀ o, live (set_bytes m s) f p r o ↔ live s f p r o.
Proof.
  intros Hinv Hx Hk Hm Hd Ho. destruct (member_at _ _ _ _ _ Hinv Hx) as (n & h & Hs). pose proof (so_align _ _ _ _ Hs) as Hxal.
  assert (∀ y, member f p r y → slab_same s (set_bytes m s) y) as Hsame.
  { intros y Hy. split; [done|]. split; [done|]. split; [|done]. intros a Ha. apply Ho.
    destruct (member_at _ _ _ _ _ Hinv Hy) as (n' & h' & Hs'). pose proof (so_align _ _ _ _ Hs') as Hyal.
    pose proof (object_in_page z x k Hz Hk). destruct (Z.eq_dec x y) as [->|Hne]; [lia|].
    apply (other_slab_bytes x y k a Hxal Hyal Hne Hk). unfold BITMAP_OFFSET, SLAB_HEADER in *. lia. }
  split.
  - destruct Hinv as [H1 H2 H3 H4 H5 H6]. split; [done|done|done|..].
    + apply (slabs_at_same s); [intros y Hy; apply Hsame; by left|done].
    + apply (slabs_some_same s); [intros y Hy; apply Hsame; right; by left|done].
    + apply (slabs_at_same s); [intros y Hy; apply Hsame; by do 2 right|done].
  - intros o. split; intros (y & j & Hy & Hj & Hu & ->); exists y, j; (split; [done|]); (split; [done|]); (split; [|done]); rewrite <-Hu;
      [symmetry|]; (apply bit_same; [by apply (Hsame y)|done]).
Qed.

(** ** Giving objects back *)

(** The release of the last slab of the list of free slabs. *)
Lemma slab_release_ok s f p r y l :
  cache_inv s f p (r ++ [y]) → pages_ok s l →
  ∃ s' l', slab_release slab_caches i s = Ok s' ∧ cache_inv s' f p r ∧ pages_ok s' l' ∧
    sizes_of (caches s') = sizes_of (caches s) ∧ bytes s' = bytes s ∧ headers s' = delete y (headers s) ∧
    (∀ o, live s' f p r o ↔ live s f p (r ++ [y]) o).
Proof.
  intros Hinv [Hpf Hl]. pose proof Hinv as [Hc HF Hok Hf Hp Hr].
  apply Forall_app in Hr as [Hr Hy]. apply Forall_singleton in Hy as (h & Hs). unfold slab_release.
  rewrite (get_prev_ok _ y _).
  2: { rewrite (dll_last _ _ _ (fam_dll _ _ HF _ _ (family_free f p (r ++ [y])))). by rewrite List.last_last. }
  cbn [obind]. destruct (list_run_del s _ free_head r y [] HF (family_free _ _ _)) as (h1 & -> & HF1 & Hn1 & Hc1). cbn [obind].
  rewrite family_set_free, app_nil_r in HF1, Hn1. assert (Hn2 := Hn1). rewrite in_slab_family in Hn2.
  unfold get_header. cbn [headers set_lists]. rewrite (so_header _ _ _ _ Hs). cbn [of_option obind].
  destruct (add_free_objects_ok (set_lists h1 s) (- free_count h) Hc) as (cs & -> & Esz & Hcs). cbn [obind frames set_caches set_lists].
  destruct (pf_put_ok _ _ _ _ Hpf (so_used _ _ _ _ Hs)) as (a' & l' & -> & Hpf' & Hsub & Hkeep). cbn [obind].
  set (s' := set_frames a' _). exists s', l'. split; [done|].
  assert (∀ x, member f p r x → slab_same s s' x) as Hsame.
  { intros x Hx. assert (y ≠ x) as Hne by (intros ->; tauto). split; [cbn; by rewrite lookup_delete_ne|]. split; [done|]. split; [done|].
    intros q. by apply Hkeep. }
  split; [|split; [|split; [exact Esz|split; [done|split; [done|]]]]].
  - split; [exact Hcs| |exact Hok|..].
    + cbn. apply (family_frame [y] h1); [done| |].
      * intros q Hq. rewrite lookup_delete_ne; [done|]. rewrite list_elem_of_singleton in Hq. congruence.
      * intros q Hq. apply list_elem_of_singleton in Hq as ->. done.
    + apply (slabs_at_same s); [intros x Hx; apply Hsame; by left|done].
    + apply (slabs_some_same s); [intros x Hx; apply Hsame; right; by left|done].
    + apply (slabs_at_same s); [intros x Hx; apply Hsame; by do 2 right|done].
  - split; [exact Hpf'|]. rewrite Forall_forall in Hl |- *. intros x Hx. apply Hsub, elem_of_cons in Hx as [->|Hx]; [|by apply Hl].
    split; [tauto|apply (so_mapped _ _ _ _ Hs)].
  - intros o. split; intros (x & k & Hx & Hk & Hu & ->); exists x, k; (split; [|done]); unfold member in *; rewrite ?elem_of_app in *; [tauto|].
    destruct Hx as [?|[?|[?|Hx]]]; [tauto..|]. apply list_elem_of_singleton in Hx as ->. pose proof (so_bits _ _ _ _ Hs).
    cbn [bytes set_frames s' set_headers set_lists set_caches] in Hu. rewrite (free_bits_full (bytes s) y N) in Hu; [done|lia|lia].
Qed.

(** The free count of a slab tells which list it is on. *)
Lemma slab_list s f p r x n :
  cache_inv s f p r → member f p r x → slab_at s n x →
  (x ∈ f ∧ n = 0) ∨ (x ∈ p ∧ 0 < n) ∨ (x ∈ r ∧ n = slab_capacity z).
Proof.
  intros [_ _ _ Hf Hp Hr] Hx [h Hs]. rewrite Forall_forall in Hf, Hp, Hr.
  assert (∀ n', slab_at s n' x → n' = n) as Hn.
  { intros n' [h' Hs']. pose proof (so_bits _ _ _ _ Hs). pose proof (so_bits _ _ _ _ Hs'). congruence. }
  destruct Hx as [Hx|[Hx|Hx]]; [left|right; left|right; right]; (split; [done|]).
  - symmetry. by apply Hn, Hf.
  - destruct (Hp x Hx) as (n' & Hpos & H). by rewrite <-(Hn n').
  - symmetry. by apply Hn, Hr.
Qed.

(** The moves of a slab [x] of free count [n] that gets one more free object, up to
    the release. *)
Lemma free_lists s f p r x n :
  family (slab_lists s) (slab_family f p r) → x ∈ f ∧ n = 0 ∨ x ∈ p ∧ 0 < n < slab_capacity z →
  (n = 0 ∧ ∃ h' f', (let! t := list_run (list_del x) s in list_run (list_add x partial_head) t) = Ok (set_lists h' s) ∧
     family h' (slab_family f' (x :: p) r) ∧ (∀ y, y ∈ f ↔ y = x ∨ y ∈ f') ∧ x ∉ f' ++ p ++ r) ∨
  (0 < n ∧ ∃ h' p', (∀ A (K : slabs → outcome A), (let! t := list_run (list_del x) s in let! t := list_run (list_add x free_head) t in K t) = K (set_lists h' s)) ∧
     family h' (slab_family f p' (x :: r)) ∧ (∀ y, y ∈ p ↔ y = x ∨ y ∈ p') ∧ x ∉ f ++ p' ++ r).
Proof.
  intros HF [[Hx ->]|[Hx Hn]]; [left|right]; (split; [lia|]); apply list_elem_of_split in Hx as (l1 & l2 & ->).
  - destruct (list_run_del s _ full_head l1 x l2 HF (family_full _ _ _)) as (h1 & -> & HF1 & Hn1 & Hc1).
    rewrite family_set_full in HF1, Hn1.
    destruct (list_run_add (set_lists h1 s) _ partial_head p x HF1 (family_partial _ _ _) Hn1 Hc1) as (h2 & E2 & HF2).
    rewrite family_set_partial in HF2. rewrite in_slab_family in Hn1. exists h2, (l1 ++ l2). cbn [obind]. rewrite E2. split; [done|]. split; [done|].
    split; [intros y; rewrite !elem_of_app, elem_of_cons; tauto|]. unfold member in Hn1. rewrite !elem_of_app in *. tauto.
  - destruct (list_run_del s _ partial_head l1 x l2 HF (family_partial _ _ _)) as (h1 & -> & HF1 & Hn1 & Hc1).
    rewrite family_set_partial in HF1, Hn1.
    destruct (list_run_add (set_lists h1 s) _ free_head r x HF1 (family_free _ _ _) Hn1 Hc1) as (h2 & E2 & HF2).
    rewrite family_set_free in HF2. rewrite in_slab_family in Hn1. exists h2, (l1 ++ l2).
    split; [intros A K; cbn [obind]; by rewrite E2|]. split; [done|].
    split; [intros y; rewrite !elem_of_app, elem_of_cons; tauto|]. unfold member in Hn1. rewrite !elem_of_app in *. tauto.
Qed.

Lemma cache_inv_lists s h f p r :
  (∃ c, caches s !! i = Some c ∧ cache_obj_size c = z) → family h (slab_family f p r) → mem_ok (bytes s) →
  Forall (slab_at s 0) f → Forall (slab_some s) p → Forall (slab_at s (slab_capacity z)) r → cache_inv (set_lists h s) f p r.
Proof.
  intros Hc HF Hok Hf Hp Hr. assert (∀ y, slab_same s (set_lists h s) y) as Hs by (intros y; by apply slab_same_refl).
  split; [done|done|done|by apply (slabs_at_same s)|by apply (slabs_some_same s)|by apply (slabs_at_same s)].
Qed.

(** What the state after a free looks like. *)
Definition freed s (f p r : list Z) x k s' (f' p' r' l' : list Z) : Prop :=
  cache_inv s' f' p' r' ∧ pages_ok s' l' ∧ sizes_of (caches s') = sizes_of (caches s) ∧
  (∀ o, live s' f' p' r' o ↔ live s f p r o ∧ o ≠ object z x k) ∧
  (∀ o a, live s f p r o → o ≠ object z x k → o ≤ a < o + z → bytes s' !! a = bytes s !! a) ∧
  bit_used (bytes s') x k = false ∧ (headers s' !! x = None ∨ ∃ n, slab_at s' n x).

(** The rest of [slab_free_obj], once the object is marked free in [s1]. *)
Section Freeing.
Context s s1 (f p r l : list Z) (x k n : Z) (h : slab_header).
Context (Hinv : cache_inv s f p r) (Hx : member f p r x) (Hs : slab_ok s n x h) (Hlt : n < slab_capacity z).
Context (Hc : ∃ c, caches s1 !! i = Some c ∧ cache_obj_size c = z) (Hok : mem_ok (bytes s1)) (Hl : pages_ok s1 l).
Context (El : slab_lists s1 = slab_lists s) (Esz : sizes_of (caches s1) = sizes_of (caches s)).
Context (Hbit : bit_used (bytes s1) x k = false) (Hs1 : slab_ok s1 (n + 1) x (set_free_count (n + 1) h)).
Context (Hsame : ∀ y, member f p r y → y ≠ x → slab_same s s1 y).
Context (Hobj : ∀ o a, live s f p r o → o ≠ object z x k → o ≤ a < o + z → bytes s1 !! a = bytes s !! a).
Context (Hlive : ∀ f' p' r', (∀ y, member f' p' r' y ↔ member f p r y) →
  ∀ o, live s1 f' p' r' o ↔ live s f p r o ∧ o ≠ object z x k).

Lemma lists_s1 : family (slab_lists s1) (slab_family f p r).
Proof. rewrite El. apply (ci_lists _ _ _ _ Hinv). Qed.

(** The slabs other than [x] when the lists are [f'], [p'], [r'] and [x]. *)
Lemma same_others f' p' r' :
  (∀ y, member f' p' r' y ∨ y = x ↔ member f p r y) → x ∉ f' ++ p' ++ r' → ∀ y, member f' p' r' y → slab_same s s1 y.
Proof.
  intros Hmem Hn y Hy. apply Hsame; [apply Hmem; by left|]. intros ->. apply Hn. rewrite !elem_of_app. exact Hy.
Qed.

Lemma freed_lists h' f' p' r' :
  cache_inv (set_lists h' s1) f' p' r' → (∀ y, member f' p' r' y ↔ member f p r y) →
  freed s f p r x k (set_lists h' s1) f' p' r' l.
Proof.
  intros Hi Hmem. split; [done|split; [exact Hl|split; [done|split; [by apply Hlive|split; [done|split; [done|]]]]]].
  right. apply (member_at _ _ _ _ _ Hi). by apply Hmem.
Qed.

(** The slab was full. *)
Lemma free_first : n = 0 → x ∈ f →
  ∃ s' f', (let! t := list_run (list_del x) s1 in list_run (list_add x partial_head) t) = Ok s' ∧
    freed s f p r x k s' f' (x :: p) r l.
Proof.
  intros Hn0 Hxf. pose proof Hinv as [_ _ _ Hf Hp Hr].
  destruct (free_lists s1 f p r x n lists_s1 (or_introl (conj Hxf Hn0))) as [(_ & h' & f' & E & HF' & Hf' & Hn)|[? _]]; [|lia].
  exists (set_lists h' s1), f'. split; [done|].
  assert (∀ y, member f' (x :: p) r y ↔ member f p r y) as Hmem by (intros y; unfold member; rewrite elem_of_cons, Hf'; tauto).
  assert (∀ y, member f' p r y → slab_same s s1 y) as Hsm.
  { apply (same_others f' p r); [|done]. intros y. rewrite <-Hmem. unfold member. rewrite elem_of_cons. tauto. }
  apply freed_lists; [|done]. apply cache_inv_lists; [done..| | |].
  - apply (slabs_at_same s); [intros y Hy; apply Hsm; by left|]. rewrite Forall_forall in Hf |- *. intros y Hy. apply Hf, Hf'. by right.
  - apply Forall_cons. split; [exists (n + 1); split; [lia|by eexists]|]. apply (slabs_some_same s); [intros y Hy; apply Hsm; right; by left|done].
  - apply (slabs_at_same s); [intros y Hy; apply Hsm; by do 2 right|done].
Qed.

(** The slab stays partially used. *)
Lemma free_stay : 0 < n → x ∈ p → freed s f p r x k s1 f p r l.
Proof.
  intros Hn0 Hxp. pose proof Hinv as [_ _ _ Hf Hp Hr]. replace s1 with (set_lists (slab_lists s1) s1) by (by destruct s1).
  apply freed_lists; [|done].
  assert ((x ∉ f) ∧ (x ∉ r)) as [Hxf Hxr].
  { rewrite Forall_forall in Hf, Hr. split; intros Hin; [destruct (Hf x Hin) as [h2 Hh2]|destruct (Hr x Hin) as [h2 Hh2]];
      pose proof (so_bits _ _ _ _ Hh2); pose proof (so_bits _ _ _ _ Hs); lia. }
  apply cache_inv_lists; [done|apply lists_s1|done| | |].
  - apply (slabs_at_same s); [intros y Hy; apply Hsame; [by left|intros ->; done]|done].
  - rewrite Forall_forall in Hp |- *. intros y Hy. destruct (Z.eq_dec y x) as [->|Hne]; [exists (n + 1); split; [lia|by eexists]|].
    destruct (Hp y Hy) as (n' & Hn' & Ha). exists n'. split; [done|]. apply (slab_at_same s); [apply Hsame; [right; by left|done]|done].
  - apply (slabs_at_same s); [intros y Hy; apply Hsame; [by do 2 right|intros ->; done]|done].
Qed.

(** All objects of the slab are free now. *)
Lemma free_last : 0 < n → x ∈ p → n + 1 = slab_capacity z →
  ∃ s' p' r' l',
    (let! t := list_run (list_del x) s1 in
     let! t := list_run (list_add x free_head) t in
     let! c := get_cache i t in
     if u32 (2 * slab_capacity z) <? free_objects c then slab_release slab_caches i t else Ok t) = Ok s' ∧
    freed s f p r x k s' f p' r' l'.
Proof.
  intros Hn0 Hxp En. pose proof Hinv as [_ _ _ Hf Hp Hr].
  destruct (free_lists s1 f p r x n lists_s1 (or_intror (conj Hxp (conj Hn0 Hlt)))) as [[? _]|(_ & h' & p' & E & HF' & Hp' & Hn)]; [lia|].
  rewrite E. assert (∀ y, member f p' (x :: r) y ↔ member f p r y) as Hmem by (intros y; unfold member; rewrite elem_of_cons, Hp'; tauto).
  assert (∀ y, member f p' r y → slab_same s s1 y) as Hsm.
  { apply (same_others f p' r); [|done]. intros y. rewrite <-Hmem. unfold member. rewrite elem_of_cons. tauto. }
  assert (cache_inv (set_lists h' s1) f p' (x :: r)) as Hinv1.
  { apply cache_inv_lists; [done..| | |].
    - apply (slabs_at_same s); [intros y Hy; apply Hsm; by left|done].
    - apply (slabs_some_same s); [intros y Hy; apply Hsm; right; by left|]. rewrite Forall_forall in Hp |- *. intros y Hy. apply Hp, Hp'. by right.
    - apply Forall_cons. split; [rewrite <-En; by eexists|]. apply (slabs_at_same s); [intros y Hy; apply Hsm; by do 2 right|done]. }
  destruct Hc as (c & Ec & Ecz). unfold get_cache. cbn [caches set_lists]. rewrite Ec. cbn [of_option obind].
  destruct (_ <? _); [|exists (set_lists h' s1), p', (x :: r), l; split; [done|]; by apply freed_lists].
  destruct (exists_last (l := x :: r)) as (r1 & y & Er); [done|]. rewrite Er in Hinv1, Hmem.
  destruct (slab_release_ok (set_lists h' s1) f p' r1 y l Hinv1 Hl) as (s' & l' & E' & Hinv' & Hl' & Esz' & Eb & Eh & Hlive').
  exists s', p', r1, l'. split; [done|]. split; [done|]. split; [done|]. split; [by rewrite Esz'|].
  split; [intros o; rewrite Hlive'; by apply (Hlive f p' (r1 ++ [y]) Hmem)|]. rewrite Eb. split; [done|]. split; [done|].
  destruct (Z.eq_dec y x) as [->|Hne]; [left; rewrite Eh; apply lookup_delete_eq|right].
  assert (x ∈ r1 ++ [y]) as Hin by (rewrite <-Er; apply elem_of_cons; by left).
  rewrite elem_of_app, list_elem_of_singleton in Hin. destruct Hin as [Hin|Hin]; [|congruence].
  apply (member_at s' f p' r1 x Hinv'). by do 2 right.
Qed.
End Freeing.

Lemma slab_free_obj_ok s f p r l x k :
  cache_inv s f p r → pages_ok s l → member f p r x → 0 ≤ k < slab_capacity z → bit_used (bytes s) x k = true →
  ∃ s' f' p' r' l', slab_free_obj slab_caches i x (object z x k) s = Ok s' ∧ freed s f p r x k s' f' p' r' l'.
Proof.
  intros Hinv Hl Hx Hk Hu. destruct (member_at _ _ _ _ _ Hinv Hx) as (n & h & Hs). pose proof Hinv as [Hc HF Hok Hf Hp Hr].
  destruct (large_geometry z Hz) as (_ & _ & Hcap & _). pose proof (free_bits_range (bytes s) x N) as Hbr. rewrite (so_bits _ _ _ _ Hs) in Hbr.
  assert (n < slab_capacity z) as Hlt.
  { destruct (Z.lt_ge_cases n (slab_capacity z)); [done|]. rewrite (free_bits_full (bytes s) x N) in Hu; [done| |lia].
    rewrite (so_bits _ _ _ _ Hs). lia. }
  unfold slab_free_obj, get_header. rewrite (so_header _ _ _ _ Hs). cbn [of_option obind].
  rewrite (obj_index_object z) by (done || apply (so_size _ _ _ _ Hs)). cbn [obind]. rewrite (so_total _ _ _ _ Hs), (proj2 (Z.leb_gt _ k)) by lia.
  rewrite bitmap_testbit_ok, Hu by (lia || by eapply bitmap_mapped). cbn [obind Z.b2z]. change (1 =? 0) with false. cbn iota.
  destruct (bitmap_clearbit_ok (bytes s) x k Hok ltac:(lia) (bitmap_mapped _ _ _ _ _ Hs Hk)) as (c1 & m1 & -> & Em & K1 & D1 & B1). cbn [obind].
  rewrite (so_free _ _ _ _ Hs), u32_small by lia. cbn [free_count set_free_count total_count]. rewrite (so_total _ _ _ _ Hs).
  destruct (add_free_objects_ok (put_header x (set_free_count (n + 1) h) (set_bytes m1 s)) 1 Hc) as (cs & -> & Esz & Hcs). cbn [obind].
  set (s1 := set_caches cs _).
  destruct (mark_effect s s1 f p r x k n h false Hinv Hx Hs Hk Hu) as (Hs1 & Hsame & Hobj & Hlive); [done|done|done|intros j Hj; apply B1; lia| |].
  { intros a Ha _. cbn. rewrite Em. apply lookup_insert_ne. unfold BITMAP_OFFSET, SLAB_HEADER in *. zdm. }
  assert (bit_used (bytes s1) x k = false) as Hbit by (cbn; by rewrite B1, Z.eqb_refl by lia).
  assert (pages_ok s1 l) as Hl1 by (by apply (pages_ok_bytes s)).
  destruct (slab_list s f p r x n Hinv Hx (ex_intro _ h Hs)) as [[Hin Hn]|[[Hin Hn]|[_ ?]]]; [| |lia].
  - rewrite (proj2 (Z.eqb_eq (n + 1) 1)) by lia.
    destruct (free_first s s1 f p r l x k n h) as (s' & f' & E & HR); [done..|]. by exists s', f', (x :: p), r, l.
  - rewrite (proj2 (Z.eqb_neq (n + 1) 1)) by lia. destruct (Z.eqb_spec (n + 1) (slab_capacity z)) as [En|En].
    + destruct (free_last s s1 f p r l x k n h) as (s' & p' & r' & l' & E & HR); [done..|]. by exists s', f, p', r', l'.
    + exists s1, f, p, r, l. split; [done|]. by apply (free_stay s s1 f p r l x k n h).
Qed.
End Inv.

(** ** The page allocator as the source of slabs *)

Section Frames.
Context (kernel_pa : Z → outcome Z).

#[export] Instance page_frames : PageFrames page_manager := {
  pf_alloc := Page.alloc_page kernel_pa;
  pf_put := Page.put_page;
  pf_paddr p s := let! v := get_struct p s in Ok (paddr v);
}.

Definition frame_used (p pa : Z) (s : page_manager) : Prop :=
  managed s pa ∧ p = struct_of s pa ∧ (pa ∉ free_pages s) ∧ ∃ v, structs s !! p = Some v ∧ refcount v ≠ 0.

#[export, refine] Instance page_frames_spec : PageFramesSpec page_manager := {
  pf_inv := page_inv;
  pf_used := frame_used;
}.
Proof.
  - intros s pa l Hinv. destruct (alloc_page_spec kernel_pa s pa l Hinv) as (s' & v & E & Hinv' & Hv & Hst & _ & [= Ep Eb Es _ _]).
    pose proof Hinv as [Hg Hd Hpg _ _]. apply Forall_cons in Hpg as [Hm _]. pose proof (struct_of_pos s pa Hg Hm) as Hpos.
    assert (∀ q, struct_of s' q = struct_of s q) as Eso by (intros q; unfold struct_of; by rewrite Ep, Eb).
    assert (∀ q, managed s' q ↔ managed s q) as Ema by (intros q; unfold managed; by rewrite Eb, Es).
    assert (pa ∉ l) as Hnl by (apply dll_nodup, NoDup_cons in Hd as [_ Hd]; by apply NoDup_cons in Hd as [? _]).
    exists (struct_of s pa), s'. split; [exact E|]. split; [lia|]. cbn. unfold get_struct, frame_used. rewrite Hst, lookup_insert_eq. cbn.
    split; [done|]. split; [done|]. split; [apply Hm|]. split; [by apply (managed_pos s)|].
    rewrite Eso, (free_pages_inv s' l Hinv'), (free_pages_inv s _ Hinv). split; [|split].
    + split; [by apply Ema|]. split; [done|]. split; [done|]. eexists. split; [done|done].
    + intros q (_ & _ & Hn & _). apply Hn, elem_of_cons. by left.
    + intros q qa (Hq & -> & Hn & w & Hw & Hr). rewrite elem_of_cons in Hn. split; [by apply Ema|]. split; [by rewrite Eso|].
      split; [tauto|]. exists w. rewrite lookup_insert_ne; [done|]. intros E'. apply struct_of_inj in E'; [|done..]. subst qa. tauto.
  - intros s l p pa Hinv (Hm & -> & Hn & v & Hv & Hr). pose proof (struct_of_pos s pa (pi_geo _ _ Hinv) Hm).
    exists s, l. cbn. rewrite (put_page_spec s l _ v Hinv) by (done || lia). rewrite (proj2 (Z.eqb_neq _ _) Hr).
    split; [done|]. split; [done|]. split; [|done]. intros x Hx. apply elem_of_cons. by right.
Defined.
End Frames.

(** ** Allocation and release by size *)

Lemma round8_eq n : 0 ≤ n < 2 ^ 64 - 7 → round8 n = (n + 7) / 8 * 8.
Proof.
  intros Hn. unfold round8. rewrite u64_small by lia. change 7 with (Z.ones 3) at 2.
  rewrite <-Z.ldiff_land, Z.ldiff_ones_r, Z.shiftl_mul_pow2, Z.shiftr_div_pow2 by lia. done.
Qed.

Lemma cache_for_large size :
  64 < size ≤ 2048 →
  ∃ i z, slab_cache_for_size size = Some i ∧ slab_sizes !! i = Some z ∧ large_size z ∧ size ≤ z.
Proof.
  intros Hs. unfold slab_cache_for_size. rewrite round8_eq by lia. set (n := (size + 7) / 8 * 8).
  assert (size ≤ n ≤ 2048 ∧ 64 < n) as [Hn Hn'] by (unfold n; zdm). unfold slab_sizes, cache_loop.
  rewrite !(proj2 (Z.leb_gt n _)) by lia.
  assert (∀ i z, slab_sizes !! i = Some z → n <= z → large_size z → ∃ i' z', Some i = Some i' ∧ slab_sizes !! i' = Some z' ∧ large_size z' ∧ size ≤ z') as Hf.
  { intros i z E Hle Hz. exists i, z. split; [done|]. split; [done|]. split; [done|lia]. }
  destruct (Z.leb_spec n 128); [apply (Hf 3%nat 128); [done|done|by apply (bool_decide_unpack _)]|].
  destruct (Z.leb_spec n 256); [apply (Hf 4%nat 256); [done|done|by apply (bool_decide_unpack _)]|].
  destruct (Z.leb_spec n 512); [apply (Hf 5%nat 512); [done|done|by apply (bool_decide_unpack _)]|].
  destruct (Z.leb_spec n 1024); [apply (Hf 6%nat 1024); [done|done|by apply (bool_decide_unpack _)]|].
  rewrite (proj2 (Z.leb_le n 2048)) by lia. apply (Hf 7%nat 2048); [done|lia|by apply (bool_decide_unpack _)].
Qed.

Lemma sizes_nodup i j z : slab_sizes !! i = Some z → slab_sizes !! j = Some z → i = j.
Proof. apply NoDup_lookup. apply (bool_decide_unpack _). vm_compute. exact I. Qed.

Lemma free_loop_ok {P} {PF : PageFrames P} slab_caches n j i z slab ptr (s : @slabs P) h :
  sizes_of (caches s) = slab_sizes → slab_sizes !! i = Some z → headers s !! slab = Some h → slab_obj_size h = z →
  (j ≤ i < j + n)%nat →
  free_loop slab_caches n j slab ptr s = let! s' := slab_free_obj slab_caches i slab ptr s in Ok (1, s').
Proof.
  intros Hsz Hi Hh Ez. revert j. induction n as [|n IH]; intros j Hj; [lia|]. cbn [free_loop].
  assert (∃ c, caches s !! j = Some c) as [c Ec].
  { apply lookup_lt_is_Some. replace (length (caches s)) with (length slab_sizes) by (rewrite <-Hsz; apply length_fmap).
    apply lookup_lt_Some in Hi. lia. }
  unfold get_cache, get_header. rewrite Ec, Hh. cbn [of_option obind].
  assert (slab_sizes !! j = Some (cache_obj_size c)) as Hc by (by rewrite <-Hsz; unfold sizes_of; rewrite list_lookup_fmap, Ec).
  destruct (Z.eqb_spec (cache_obj_size c) (slab_obj_size h)) as [E|E].
  - replace j with i; [done|]. apply (sizes_nodup _ _ z); [done|]. by rewrite Hc, E, Ez.
  - apply IH. destruct (Nat.eq_dec j i) as [->|]; [|lia]. congruence.
Qed.

Section Top.
Context {P : Type} {PF : PageFrames P} {PS : PageFramesSpec P}.
Context (slab_caches : Z) (i : nat) (z : Z).
Implicit Types (s : @slabs P).

(** The slabs of a cache lie in memory the allocator owns, so objects are not NULL. *)
Lemma slab_free_eq s f p r x k :
  large_size z → slab_sizes !! i = Some z → sizes_of (caches s) = slab_sizes → cache_inv slab_caches i z s f p r → member f p r x →
  0 ≤ k < slab_capacity z →
  slab_free slab_caches (object z x k) s = let! s' := slab_free_obj slab_caches i x (object z x k) s in Ok (1, s').
Proof.
  intros Hz Hi Hsz Hinv Hx Hk. destruct (member_at _ _ _ _ _ _ _ _ Hinv Hx) as (n & h & Hs).
  pose proof (object_in_page z x k Hz Hk) as Hpg. pose proof (so_addr _ _ _ _ _ Hs) as Ha. unfold slab_free.
  rewrite (proj2 (Z.eqb_neq _ 0)) by (unfold SLAB_HEADER in *; lia). rewrite find_slab_object by (done || apply Hs).
  unfold get_header. rewrite (so_header _ _ _ _ _ Hs). cbn [of_option obind].
  rewrite (obj_index_object z) by (done || apply Hs). cbn [obind]. rewrite (so_total _ _ _ _ _ Hs), (proj2 (Z.leb_gt _ k)) by lia.
  apply (free_loop_ok slab_caches _ _ i z x _ s h); [done|done|apply Hs|apply Hs|]. apply lookup_lt_Some in Hi.
  change (length slab_sizes) with 8%nat in Hi. unfold SLAB_SIZES_COUNT. lia.
Qed.

(** A freed object cannot be freed again. *)
Lemma freed_again s s' f p r x k f' p' r' l' :
  large_size z → slab_sizes !! i = Some z → sizes_of (caches s) = slab_sizes → x mod 4096 = 0 → 0 < x → 0 ≤ k < slab_capacity z →
  freed slab_caches i z s f p r x k s' f' p' r' l' → ∀ v, slab_free slab_caches (object z x k) s' ≠ Ok v.
Proof.
  intros Hz Hi Hsz Hal Hpos Hk (Hinv & _ & Esz & _ & _ & Hbit & Hh) v. rewrite Hsz in Esz.
  pose proof (object_in_page z x k Hz Hk) as Hpg. unfold slab_free.
  rewrite (proj2 (Z.eqb_neq _ 0)) by (unfold SLAB_HEADER in *; lia). rewrite find_slab_object by done.
  unfold get_header. destruct Hh as [->|(n & h & Hs)]; [done|]. rewrite (so_header _ _ _ _ _ Hs). cbn [of_option obind].
  rewrite (obj_index_object z) by (done || apply Hs). cbn [obind]. rewrite (so_total _ _ _ _ _ Hs), (proj2 (Z.leb_gt _ k)) by lia.
  rewrite (free_loop_ok slab_caches _ _ i z x _ s' h); [|done|done|apply Hs|apply Hs|].
  2: { apply lookup_lt_Some in Hi. change (length slab_sizes) with 8%nat in Hi. unfold SLAB_SIZES_COUNT. lia. }
  unfold slab_free_obj, get_header. rewrite (so_header _ _ _ _ _ Hs). cbn [of_option obind].
  rewrite (obj_index_object z) by (done || apply Hs). cbn [obind]. rewrite (so_total _ _ _ _ _ Hs), (proj2 (Z.leb_gt _ k)) by lia.
  rewrite bitmap_testbit_ok, Hbit by (lia || by eapply bitmap_mapped). done.
Qed.

(** C7. Allocation of 65 to 2048 bytes: with a page left when a new slab is needed,
    [slab_alloc] returns an object of at least the size asked for that was not live,
    cleared, and disjoint from every live object of the cache; the live objects are
    the old ones and the new one, none of their bytes change, and the cache stays
    well formed (free counts, bitmaps and the three lists agree). *)
Theorem slab_alloc_fresh size s f p r l :
  64 < size ≤ 2048 → slab_cache_for_size size = Some i → slab_sizes !! i = Some z →
  cache_inv slab_caches i z s f p r → pages_ok slab_caches i s l → (p = [] → r = [] → l ≠ []) →
  ∃ o s' f' p' r' l', slab_alloc slab_caches size s = Ok (o, s') ∧ size ≤ z ∧
    cache_inv slab_caches i z s' f' p' r' ∧ pages_ok slab_caches i s' l' ∧ sizes_of (caches s') = sizes_of (caches s) ∧
    ~ live z s f p r o ∧ (∀ o', live z s' f' p' r' o' ↔ o' = o ∨ live z s f p r o') ∧
    (∀ o', live z s f p r o' → o + z ≤ o' ∨ o' + z ≤ o) ∧
    (∀ o' a, live z s f p r o' → o' ≤ a < o' + z → bytes s' !! a = bytes s !! a) ∧
    (∀ a, o ≤ a < o + z → bytes s' !! a = Some 0).
Proof.
  intros Hsize Hi Hz Hinv Hl Hav. destruct (cache_for_large size Hsize) as (i' & z' & Hi' & Hz' & Hlarge & Hle).
  rewrite Hi in Hi'. injection Hi' as <-. rewrite Hz in Hz'. injection Hz' as <-.
  destruct (slab_alloc_obj_ok slab_caches i z Hlarge s f p r l Hinv Hl Hav) as (o & s' & f' & p' & r' & l' & E & Hinv' & Hl' & _ & Esz & Hno & Hlive & Hobj & Hzero).
  exists o, s', f', p', r', l'. split.
  { unfold slab_alloc. rewrite (proj2 (Z.ltb_ge 2048 size)) by lia. by rewrite Hi. }
  do 6 (split; [done|]). split; [|done]. intros o' Ho'.
  destruct (live_disjoint slab_caches i z Hlarge s' f' p' r' o o' Hinv') as [->|?]; [apply Hlive; by left|apply Hlive; by right|done|done].
Qed.

(** C24. Release: [slab_free] of a live object of 128 bytes or more succeeds, removes
    exactly that object from the live ones, changes no byte of the others and keeps
    the cache well formed, whether the slab moves between the lists, stays or is given
    back to the page allocator; a second free of the same pointer never returns. *)
Theorem slab_free_live s f p r l o :
  large_size z → slab_sizes !! i = Some z → sizes_of (caches s) = slab_sizes →
  cache_inv slab_caches i z s f p r → pages_ok slab_caches i s l → live z s f p r o →
  ∃ s' f' p' r' l', slab_free slab_caches o s = Ok (1, s') ∧
    cache_inv slab_caches i z s' f' p' r' ∧ pages_ok slab_caches i s' l' ∧ sizes_of (caches s') = slab_sizes ∧
    (∀ o', live z s' f' p' r' o' ↔ live z s f p r o' ∧ o' ≠ o) ∧
    (∀ o' a, live z s f p r o' → o' ≠ o → o' ≤ a < o' + z → bytes s' !! a = bytes s !! a) ∧
    (∀ v, slab_free slab_caches o s' ≠ Ok v).
Proof.
  intros Hlarge Hz Hsz Hinv Hl (x & k & Hx & Hk & Hu & ->).
  destruct (slab_free_obj_ok slab_caches i z Hlarge s f p r l x k Hinv Hl Hx Hk Hu) as (s' & f' & p' & r' & l' & E & HR).
  exists s', f', p', r', l'. rewrite (slab_free_eq s f p r x k) by done. rewrite E. cbn [obind]. split; [done|].
  destruct (member_at _ _ _ _ _ _ _ _ Hinv Hx) as (n & h & Hs). pose proof (so_addr _ _ _ _ _ Hs).
  assert (∀ v, slab_free slab_caches (object z x k) s' ≠ Ok v) as Hagain
    by (apply (freed_again s s' f p r x k f' p' r' l'); (done || apply Hs || lia)).
  destruct HR as (Hinv' & Hl' & Esz & Hlive & Hobj & _). by rewrite <-Hsz.
Qed.
End Top.

(** ** A concrete machine: two free pages from 65536 on, the caches at 8192 *)

Definition two_pages : page_manager :=
  PageManager 1000 {[1000 := zero_page; 1072 := zero_page]} 2 65536 8192 60008
    {[60008 := ListHead 65536 69632; 65536 := ListHead 69632 60008; 69632 := ListHead 60008 65536]} 2 ∅.

Lemma two_pages_inv : page_inv two_pages [65536; 69632].
Proof.
  split.
  - by split; cbn; try (split; lia || done); lia.
  - apply (bool_decide_unpack _). vm_compute. exact I.
  - repeat (apply Forall_cons; split; [split; [done|cbn; lia]|]). by apply Forall_nil.
  - done.
  - cbn. intros i Hi. assert (i = 0 ∨ i = 1) as [->| ->] by lia; by eexists.
Qed.

Definition slab_pages : PageFrames page_manager := page_frames (λ _, Fault).
Definition slab_pages_spec : @PageFramesSpec page_manager slab_pages := page_frames_spec (λ _, Fault).
#[local] Existing Instances slab_pages slab_pages_spec.

Definition CACHES : Z := 8192.
Definition head_cells : store :=
  list_to_map ((λ n, (CACHES + 72 * Z.of_nat (n / 3) + 16 + 16 * Z.of_nat (n mod 3), ListHead 0 0)) <$> seq 0 24).
Definition zero_bytes (p n : Z) : mem := list_to_map ((λ k, (p + k, 0)) <$> seqZ 0 n).

Definition off_machine (m : mem) : @slabs page_manager :=
  Slabs ∅ (replicate 8 (KmemCache 0 0)) head_cells m two_pages.

(** The machine after [slab_init]. *)
Definition slab_fresh (m : mem) : @slabs page_manager :=
  Slabs ∅ ((λ z, KmemCache z 0) <$> slab_sizes)
    (match slab_init CACHES (off_machine ∅) with Ok s => slab_lists s | _ => ∅ end) m two_pages.

Lemma slab_init_fresh m : slab_init CACHES (off_machine m) = Ok (slab_fresh m).
Proof. vm_compute. reflexivity. Qed.

Definition slab0 : @slabs page_manager := slab_fresh (zero_bytes 65536 8192).

Lemma zero_bytes_lookup p n a b : zero_bytes p n !! a = Some b → b = 0.
Proof.
  intros H. apply elem_of_list_to_map_2 in H. apply list_elem_of_fmap in H as (k & [= _ ->] & _). done.
Qed.

Lemma zero_bytes_mapped p n : mapped (zero_bytes p n) p n.
Proof.
  intros k Hk. unfold zero_bytes. destruct (list_to_map _ !! (p + k)) eqn:E; [by eexists|].
  apply not_elem_of_list_to_map_2 in E. destruct E. apply list_elem_of_fmap. exists (p + k, 0). split; [done|].
  apply list_elem_of_fmap. exists k. split; [done|]. apply elem_of_seqZ. lia.
Qed.

Lemma slab0_inv j z : slab_sizes !! j = Some z → cache_inv CACHES j z slab0 [] [] [].
Proof.
  intros Hj. assert (j < 8)%nat as Hlt by (by apply lookup_lt_Some in Hj).
  assert (∀ n, (n < 8)%nat → ∃ z, slab_sizes !! n = Some z ∧ (∃ c, caches slab0 !! n = Some c ∧ cache_obj_size c = z) ∧
     family (slab_lists slab0) (slab_family CACHES n [] [] [])) as H.
  { intros n Hn. do 8 (destruct n as [|n]; [eexists; split; [reflexivity|split; [by eexists|
      apply (family_intro _ [(slabs_full CACHES _, []); (slabs_partial CACHES _, []); (slabs_free CACHES _, [])]);
      apply (bool_decide_unpack _); vm_compute; exact I]]|]). lia. }
  destruct (H j Hlt) as (z' & E & Hc & HF). rewrite Hj in E. injection E as <-. split; [done|done| |done..].
  change (bytes slab0) with (zero_bytes 65536 8192). intros a b Hb. apply zero_bytes_lookup in Hb as ->. lia.
Qed.

Lemma slab0_pages j : (j < 8)%nat → pages_ok CACHES j slab0 [65536; 69632].
Proof.
  intros Hj. assert (mapped (bytes slab0) 65536 8192) as Hm by apply zero_bytes_mapped.
  split; [apply two_pages_inv|]. repeat (apply Forall_cons; split; [split|]); [| | | |by apply Forall_nil].
  - rewrite !elem_of_cons, elem_of_nil. unfold slabs_full, slabs_partial, slabs_free, CACHES, KMEM_CACHE. lia.
  - intros k Hk. apply Hm. lia.
  - rewrite !elem_of_cons, elem_of_nil. unfold slabs_full, slabs_partial, slabs_free, CACHES, KMEM_CACHE. lia.
  - apply (mapped_sub _ 65536 8192 4096 4096); [done|lia..].
Qed.

Lemma slab_alloc_fresh_witness :
  ∃ o s' f' p' r' l', slab_alloc CACHES 100 slab0 = Ok (o, s') ∧ 100 ≤ 128 ∧
    cache_inv CACHES 3 128 s' f' p' r' ∧ pages_ok CACHES 3 s' l' ∧ sizes_of (caches s') = sizes_of (caches slab0) ∧
    ~ live 128 slab0 [] [] [] o ∧ (∀ o', live 128 s' f' p' r' o' ↔ o' = o ∨ live 128 slab0 [] [] [] o') ∧
    (∀ o', live 128 slab0 [] [] [] o' → o + 128 ≤ o' ∨ o' + 128 ≤ o) ∧
    (∀ o' a, live 128 slab0 [] [] [] o' → o' ≤ a < o' + 128 → bytes s' !! a = bytes slab0 !! a) ∧
    (∀ a, o ≤ a < o + 128 → bytes s' !! a = Some 0).
Proof.
  apply (slab_alloc_fresh CACHES 3 128 100 slab0 [] [] [] [65536; 69632]);
    [lia | reflexivity | reflexivity | apply slab0_inv; reflexivity | apply slab0_pages; lia | done].
Defined.

(** After one allocation, the object that was returned can be freed. *)
Lemma slab_free_live_witness :
  ∃ o s, slab_alloc CACHES 100 slab0 = Ok (o, s) ∧
  ∃ s' f' p' r' l', slab_free CACHES o s = Ok (1, s') ∧
    cache_inv CACHES 3 128 s' f' p' r' ∧ pages_ok CACHES 3 s' l' ∧ sizes_of (caches s') = slab_sizes ∧
    (∃ f p r, (∀ o', live 128 s' f' p' r' o' ↔ live 128 s f p r o' ∧ o' ≠ o) ∧
      ∀ o' a, live 128 s f p r o' → o' ≠ o → o' ≤ a < o' + 128 → bytes s' !! a = bytes s !! a) ∧
    (∀ v, slab_free CACHES o s' ≠ Ok v).
Proof.
  assert (large_size 128) as Hz by (by apply (bool_decide_unpack _)).
  destruct (slab_alloc_obj_ok CACHES 3 128 Hz slab0 [] [] [] [65536; 69632]) as (o & s & f & p & r & l & E & Hinv & Hl & _ & Esz & _ & Hlive & _);
    [apply slab0_inv; reflexivity | apply slab0_pages; lia | done |].
  exists o, s. split; [exact E|].
  destruct (slab_free_live CACHES 3 128 s f p r l o) as (s' & f' & p' & r' & l' & E' & H1 & H2 & H3 & H4 & H5 & H6);
    [exact Hz | reflexivity | rewrite Esz; reflexivity | exact Hinv | exact Hl | apply Hlive; by left |].
  exists s', f', p', r', l'. split; [exact E'|]. split; [exact H1|]. split; [exact H2|]. split; [exact H3|].
  split; [|exact H6]. exists f, p, r. split; [exact H4|exact H5].
Defined.

(** ** Small objects

    [n] allocations of [size] bytes, the last one first. *)
Fixpoint slab_allocs (n : nat) (size : Z) (s : slabs) : outcome (list Z * slabs) :=
  match n with
  | O => Ok ([], s)
  | S n =>
      let! (l, s) := slab_allocs n size s in
      let! (o, s) := slab_alloc CACHES size s in
      Ok (o :: l, s)
  end.

(** 33 allocations, a free of the first object, two allocations: the objects still
    live after the free, and the results of the last two allocations. *)
Definition small_run (size : Z) : outcome (list Z * Z * Z) :=
  let! (l, s) := slab_allocs 33 size slab0 in
  let! (_, s) := slab_free CACHES (List.last l 0) s in
  let! (o1, s) := slab_alloc CACHES size s in
  let! (o2, s) := slab_alloc CACHES size s in
  Ok (removelast l, o1, o2).

(** The bit of object 32 is in a byte of object 0. *)
Lemma small_bit_32 z slab m :
  z ∈ [16; 32; 64] → mem_ok m → mapped m slab 4096 → 0 < slab < 2 ^ 56 →
  32 < slab_capacity z ∧
  ∃ m', memset (object z slab 0) 0 z m = Ok (object z slab 0, m') ∧ bit_used m' slab 32 = false.
Proof.
  intros Hz Hok Hm Hs. assert (16 ≤ z ≤ 64 ∧ 32 < slab_capacity z) as [Hz1 Hcap].
  { rewrite !elem_of_cons, elem_of_nil in Hz. destruct Hz as [->|[->|[->|[]]]]; vm_compute; repeat split; (reflexivity || discriminate). }
  split; [done|]. unfold object. rewrite Z.mul_0_l, Z.add_0_r.
  destruct (memset_spec (slab + SLAB_HEADER) 0 z m Hok) as (m' & E & F & _); [|unfold SLAB_HEADER; lia..|].
  { apply (mapped_sub m slab 4096); [done|unfold SLAB_HEADER; lia..]. }
  exists m'. split; [exact E|]. unfold bit_used. change (32 / 8) with 4.
  replace (slab + BITMAP_OFFSET + 4) with (slab + SLAB_HEADER + 0) by (unfold BITMAP_OFFSET, SLAB_HEADER; lia).
  rewrite F by lia. apply Z.bits_0.
Qed.

(** In the slabs for objects of 16, 32 and 64 bytes the bitmap runs into the first
    object: clearing that object, as its allocation does, marks object 32 as free
    whoever uses it. So on the machine that has just run [slab_init], after 33
    allocations, a free of the first object and one allocation, the next allocation
    returns an object that is still in use. *)
Theorem slab_small_overlap :
  (∀ z slab m, z ∈ [16; 32; 64] → mem_ok m → mapped m slab 4096 → 0 < slab < 2 ^ 56 →
     32 < slab_capacity z ∧
     ∃ m', memset (object z slab 0) 0 z m = Ok (object z slab 0, m') ∧ bit_used m' slab 32 = false) ∧
  Forall (λ z, ∃ l o1 o2, small_run z = Ok (l, o1, o2) ∧ o2 ∈ l) [16; 32; 64].
Proof.
  split; [apply small_bit_32|].
  assert (∀ z, match small_run z with Ok (l, _, o2) => bool_decide (o2 ∈ l) | _ => false end = true →
    ∃ l o1 o2, small_run z = Ok (l, o1, o2) ∧ o2 ∈ l) as H.
  { intros z E. destruct (small_run z) as [[[l o1] o2]| | |]; [|done..]. exists l, o1, o2. split; [done|]. by apply bool_decide_eq_true_1 in E. }
  repeat (apply Forall_cons; split; [apply H; vm_compute; reflexivity|]). apply Forall_nil. exact I.
Qed.
