(* ===== verification/Kmalloc.v ===== *)
(** * The kernel allocator ([kernel/mm/kmalloc.c])

    Blocks of up to 2040 bytes are slab objects behind an 8-byte header; larger ones
    are mapped into the address space of the kernel, through the interface
    [KernelMap]. The memory of the slabs is also that of the blocks. *)

From stdpp Require Import base gmap list.
From S2P Require Import Prelude ListHead KString PageTable Page Slab.
Local Open Scope Z_scope.
Local Open Scope kernel_scope.

Definition KMALLOC_MAGIC : Z := 2702231789.
Definition HEADER_SIZE : Z := 8.

(** What [kmalloc] uses of [init_mm] and of the page structures; 0 is [NULL]. *)
Class KernelMap (L : Type) : Type := {
  km_mmap : Z → L → outcome (Z * L);          (* mmap_file(&init_mm, 0, size, ...) *)
  km_unmap : Z → Z → L → outcome L;           (* do_unmap(&init_mm, ptr, size) *)
  km_page : Z → L → outcome Z;                (* addr_to_page(ptr) *)
  km_get_size : Z → L → outcome Z;            (* page->kmalloc_size *)
  km_set_size : Z → Z → L → outcome L;
}.

Section Kmalloc.
Context {P : Type} {PF : PageFrames P} {L : Type} {KL : KernelMap L}.
Context (slab_caches : Z).

Record kheap := KHeap {
  small : @slabs P;
  large : L;
}.

Definition set_small (s : @slabs P) (k : kheap) : kheap := KHeap s (large k).
Definition set_large (x : L) (k : kheap) : kheap := KHeap (small k) x.
Definition kbytes (k : kheap) : mem := bytes (small k).
Definition set_kbytes (m : mem) (k : kheap) : kheap := set_small (set_bytes m (small k)) k.

Definition ptr_to_header (ptr : Z) : Z := ptr - HEADER_SIZE.
Definition header_to_ptr (header : Z) : Z := header + HEADER_SIZE.

(** The two fields of a [struct kmalloc_header]. *)
Definition header_size (header : Z) (k : kheap) : outcome Z := load_le 4 header (kbytes k).
Definition header_magic (header : Z) (k : kheap) : outcome Z := load_le 4 (header + 4) (kbytes k).
Definition write_header (header size : Z) (k : kheap) : outcome kheap :=
  let! m := store_le 4 header size (kbytes k) in
  let! m := store_le 4 (header + 4) KMALLOC_MAGIC m in
  Ok (set_kbytes m k).

Definition kmalloc (size : Z) (k : kheap) : outcome (Z * kheap) :=
  if size =? 0 then Ok (0, k)
  else
    let size := round8 size in
    let total_size := u64 (size + HEADER_SIZE) in
    if total_size <=? 2048 then
      let! (header, s) := slab_alloc slab_caches total_size (small k) in
      let k := set_small s k in
      if negb (header =? 0) then
        let! k := write_header header size k in
        Ok (header_to_ptr header, k)
      else Ok (0, k)
    else
      let! (ret, x) := km_mmap size (large k) in
      let! page := km_page ret x in
      if negb (page =? 0) then
        let! x := km_set_size page size x in
        Ok (ret, set_large x k)
      else Ok (0, set_large x k).

Definition kfree (ptr : Z) (k : kheap) : outcome kheap :=
  if ptr =? 0 then Ok k
  else if Z.land ptr (PAGE_SIZE - 1) =? 0 then
    let! page := km_page ptr (large k) in
    if page =? 0 then Panic
    else
      let! size := km_get_size page (large k) in
      let! x := km_unmap ptr size (large k) in
      Ok (set_large x k)
  else
    let header := ptr_to_header ptr in
    let! magic := header_magic header k in
    if negb (magic =? KMALLOC_MAGIC) then Panic
    else
      let! (r, s) := slab_free slab_caches header (small k) in
      if r =? 0 then Panic else Ok (set_small s k).

Definition kcalloc (n size : Z) (k : kheap) : outcome (Z * kheap) :=
  if negb (size =? 0) && ((2 ^ 64 - 1) / size <? n) then Ok (0, k)
  else
    let total_size := u64 (n * size) in
    if total_size =? 0 then Ok (0, k)
    else
      let! (ret, k) := kmalloc total_size k in
      if ret =? 0 then Ok (0, k)
      else
        let! (_, m) := memset ret 0 total_size (kbytes k) in
        Ok (ret, set_kbytes m k).

Definition kzalloc (size : Z) (k : kheap) : outcome (Z * kheap) :=
  let! (ptr, k) := kmalloc size k in
  if ptr =? 0 then Ok (ptr, k)
  else
    let! (_, m) := memset ptr 0 size (kbytes k) in
    Ok (ptr, set_kbytes m k).

Definition ksize (ptr : Z) (k : kheap) : outcome Z :=
  if ptr =? 0 then Ok 0
  else if Z.land ptr (PAGE_SIZE - 1) =? 0 then
    let! page := km_page ptr (large k) in
    if page =? 0 then Ok 0 else km_get_size page (large k)
  else
    let header := ptr_to_header ptr in
    let! magic := header_magic header k in
    if negb (magic =? KMALLOC_MAGIC) then Panic else header_size header k.

Definition krealloc (ptr new_size : Z) (k : kheap) : outcome (Z * kheap) :=
  if ptr =? 0 then kmalloc new_size k
  else if new_size =? 0 then
    let! k := kfree ptr k in Ok (0, k)
  else
    let! old_size := ksize ptr k in
    if new_size <=? old_size then Ok (ptr, k)
    else
      let! (new_ptr, k) := kmalloc new_size k in
      if new_ptr =? 0 then Ok (0, k)
      else
        let! (_, m) := memcpy new_ptr ptr old_size (kbytes k) in
        let! k := kfree ptr (set_kbytes m k) in
        Ok (new_ptr, k).

Definition alloc_kernel_stack (k : kheap) : outcome (Z * kheap) :=
  let! (kstack, k) := kmalloc PAGE_SIZE k in
  Ok (u64 (kstack + PAGE_SIZE - 16), k).

Definition kstrdup (s : Z) (k : kheap) : outcome (Z * kheap) :=
  if s =? 0 then Ok (0, k)
  else
    let! n := strlen s (kbytes k) in
    let len := u64 (n + 1) in
    let! (buf, k) := kmalloc len k in
    if buf =? 0 then Ok (buf, k)
    else
      let! (_, m) := memcpy buf s len (kbytes k) in
      Ok (buf, set_kbytes m k).

Definition kstrndup (s max : Z) (k : kheap) : outcome (Z * kheap) :=
  if s =? 0 then Ok (0, k)
  else
    let! len := strlen s (kbytes k) in
    let! (buf, k) := kmalloc (u64 (len + 1)) k in
    if buf =? 0 then Ok (buf, k)
    else
      let! (_, m) := memcpy buf s len (kbytes k) in
      let! m := store8 (buf + len) 0 m in
      Ok (buf, set_kbytes m k).
End Kmalloc.

(** ** Headers in memory *)

Lemma load_le_value n p v m :
  (∀ i, 0 ≤ i < Z.of_nat n → m !! (p + i) = Some ((v / 256 ^ i) mod 256)) → 0 ≤ v < 256 ^ Z.of_nat n → load_le n p m = Ok v.
Proof.
  revert p v. induction n as [|n IH]; intros p v Hb Hv; cbn [load_le]; [f_equal; change (256 ^ Z.of_nat 0) with 1 in Hv; lia|].
  rewrite Nat2Z.inj_succ, Z.pow_succ_r in Hv by lia.
  pose proof (Hb 0 ltac:(lia)) as H0. rewrite Z.add_0_r, Z.pow_0_r, Z.div_1_r in H0. rewrite (load8_ok _ _ _ H0). cbn [obind].
  rewrite (IH (p + 1) (v / 256)); [cbn [obind]; f_equal; zdm| |split; [zdm|apply Z.div_lt_upper_bound; lia]].
  intros i Hi. replace (p + 1 + i) with (p + (i + 1)) by lia. rewrite Hb by lia. do 2 f_equal.
  rewrite Z.pow_add_r, Z.mul_comm, Z.pow_1_r, <-Z.div_div by lia. done.
Qed.

Lemma store_header_ok o size m :
  mem_ok m → mapped m o 8 → 0 ≤ size < 2 ^ 32 →
  ∃ m1 m2, store_le 4 o size m = Ok m1 ∧ store_le 4 (o + 4) KMALLOC_MAGIC m1 = Ok m2 ∧
    mem_ok m2 ∧ same_dom m m2 ∧ load_le 4 o m2 = Ok size ∧ load_le 4 (o + 4) m2 = Ok KMALLOC_MAGIC ∧
    (∀ a, ~ (o ≤ a < o + 8) → m2 !! a = m !! a).
Proof.
  intros Hok Hm Hs. destruct (store_le_ok 4 o size m) as (m1 & E1 & I1 & O1 & D1 & K1); [intros i Hi; apply Hm; lia|done|].
  destruct (store_le_ok 4 (o + 4) KMALLOC_MAGIC m1) as (m2 & E2 & I2 & O2 & D2 & K2);
    [intros i Hi; apply D1; rewrite <-Z.add_assoc; apply Hm; lia|done|].
  exists m1, m2. split; [done|]. split; [done|]. split; [done|]. split; [by eapply same_dom_trans|]. split; [|split].
  - apply load_le_value; [|done]. intros i Hi. rewrite O2 by lia. by apply I1.
  - apply load_le_value; [done|]. by unfold KMALLOC_MAGIC.
  - intros a Ha. rewrite O2, O1 by lia. done.
Qed.

Lemma land_offset x : Z.land x (PAGE_SIZE - 1) = x mod 4096.
Proof. change (PAGE_SIZE - 1) with (Z.ones 12). by rewrite Z.land_ones by lia. Qed.

Section Spec.
Context {P : Type} {PF : PageFrames P} {PS : PageFramesSpec P} {L : Type} {KL : KernelMap L}.
Context (slab_caches : Z) (i : nat) (z : Z).
Implicit Types (s : @slabs P) (k : @kheap P L).

(** A block behind a header in a live object. *)
Record block_ok s (f p r : list Z) (ptr size : Z) : Prop := {
  bo_live : live z s f p r (ptr - 8);
  bo_fits : 8 + size ≤ z;
  bo_size : load_le 4 (ptr - 8) (bytes s) = Ok size;
  bo_magic : load_le 4 (ptr - 4) (bytes s) = Ok KMALLOC_MAGIC;
}.

(** Pointers to small blocks are never taken for page allocations. *)
Lemma block_not_page s f p r o :
  large_size z → cache_inv slab_caches i z s f p r → live z s f p r o →
  0 < o + 8 ∧ (Z.land (o + 8) (PAGE_SIZE - 1) =? 0) = false.
Proof.
  intros Hz Hinv (x & k & Hx & Hk & _ & ->). destruct (member_at _ _ _ _ _ _ _ _ Hinv Hx) as (n & h & Hs).
  pose proof (object_in_page z x k Hz Hk). pose proof (so_align _ _ _ _ _ Hs). pose proof (so_addr _ _ _ _ _ Hs).
  destruct (large_geometry z Hz) as (_ & Hz1 & _). unfold SLAB_HEADER in *. split; [lia|].
  rewrite land_offset. apply Z.eqb_neq. zdm.
Qed.

Lemma ksize_ok k f p r ptr size :
  large_size z → cache_inv slab_caches i z (small k) f p r → block_ok (small k) f p r ptr size → ksize ptr k = Ok size.
Proof.
  intros Hz Hinv [Hl Hfit Hsz Hmag]. destruct (block_not_page _ _ _ _ _ Hz Hinv Hl) as [Hpos Hal].
  replace (ptr - 8 + 8) with ptr in * by lia. unfold ksize. rewrite (proj2 (Z.eqb_neq ptr 0)), Hal by lia.
  unfold header_magic, header_size, ptr_to_header, kbytes, HEADER_SIZE. replace (ptr - 8 + 4) with (ptr - 4) by lia.
  rewrite Hmag. cbn [obind]. by rewrite Z.eqb_refl.
Qed.

(** The allocation of a small block. *)
Lemma kmalloc_ok size k f p r l :
  56 < size ≤ 2040 → slab_cache_for_size (round8 size + 8) = Some i → slab_sizes !! i = Some z →
  cache_inv slab_caches i z (small k) f p r → pages_ok slab_caches i (small k) l → (p = [] → r = [] → l ≠ []) →
  ∃ ptr s' f' p' r' l', kmalloc slab_caches size k = Ok (ptr, set_small s' k) ∧ large_size z ∧
    cache_inv slab_caches i z s' f' p' r' ∧ pages_ok slab_caches i s' l' ∧ (l' = l ∨ ∃ pa, l = pa :: l') ∧
    sizes_of (caches s') = sizes_of (caches (small k)) ∧ block_ok s' f' p' r' ptr (round8 size) ∧ ~ live z (small k) f p r (ptr - 8) ∧
    (∀ o, live z s' f' p' r' o ↔ o = ptr - 8 ∨ live z (small k) f p r o) ∧
    (∀ o a, live z (small k) f p r o → o ≤ a < o + z → bytes s' !! a = bytes (small k) !! a).
Proof.
  intros Hsize Hi Hzi Hinv Hl Hav. rewrite round8_eq in Hi by lia. assert (size ≤ round8 size ≤ 2040 ∧ 64 < round8 size + 8) as [Hr Hr64]
    by (rewrite round8_eq by lia; zdm). rewrite <-round8_eq in Hi by lia.
  destruct (cache_for_large (round8 size + 8) ltac:(lia)) as (i' & z' & Hi' & Hz' & Hz & Hle).
  rewrite Hi in Hi'. injection Hi' as <-. rewrite Hzi in Hz'. injection Hz' as <-.
  destruct (slab_alloc_obj_ok slab_caches i z Hz (small k) f p r l Hinv Hl Hav) as (o & s1 & f' & p' & r' & l' & E & Hinv1 & Hl1 & Hll & Esz & Hno & Hlive & Hobj & _).
  unfold kmalloc. rewrite (proj2 (Z.eqb_neq size 0)) by lia. unfold HEADER_SIZE. rewrite u64_small by lia.
  rewrite (proj2 (Z.leb_le _ 2048)) by lia. unfold slab_alloc. rewrite (proj2 (Z.ltb_ge 2048 _)), Hi, E by lia. cbn [obind].
  assert (live z s1 f' p' r' o) as Ho by (apply Hlive; by left). pose proof Ho as (x & j & Hx & Hj & _ & Eo).
  destruct (member_at _ _ _ _ _ _ _ _ Hinv1 Hx) as (n & h & Hs). pose proof (object_in_page z x j Hz Hj) as Hpg. rewrite <-Eo in Hpg.
  pose proof (so_addr _ _ _ _ _ Hs). destruct (large_geometry z Hz) as (_ & Hz1 & _). unfold SLAB_HEADER in Hpg.
  rewrite (proj2 (Z.eqb_neq o 0)) by lia. cbn [negb].
  destruct (store_header_ok o (round8 size) (bytes s1)) as (m1 & m2 & E1 & E2 & K2 & D2 & L1 & L2 & O2);
    [apply Hinv1|replace o with (x + (o - x)) by lia; apply (mapped_sub _ x 4096); [apply Hs|lia..]|lia|].
  unfold write_header, kbytes. cbn [small set_small]. rewrite E1. cbn [obind]. rewrite E2. cbn [obind].
  destruct (client_write slab_caches i z Hz s1 m2 f' p' r' x j Hinv1 Hx Hj K2 D2) as [Hinv2 Hlive2]; [intros a Ha; apply O2; lia|].
  exists (o + 8), (set_bytes m2 s1), f', p', r', l'. split; [done|]. split; [done|]. split; [done|].
  split; [by apply (pages_ok_bytes _ _ s1)|]. split; [done|]. split; [done|]. replace (o + 8 - 8) with o by lia.
  split; [|split; [done|split; [intros o'; by rewrite Hlive2|]]].
  - split; replace (o + 8 - 8) with o by lia; [by apply Hlive2|lia|exact L1|]. replace (o + 8 - 4) with (o + 4) by lia. exact L2.
  - intros o' a Ho' Ha. cbn. rewrite <-(Hobj o' a) by done. apply O2.
    destruct (live_disjoint slab_caches i z Hz s1 f' p' r' o o' Hinv1 Ho) as [->|?]; [apply Hlive; by right|done|lia].
Qed.

Lemma kfree_ok k f p r l ptr size :
  large_size z → slab_sizes !! i = Some z → sizes_of (caches (small k)) = slab_sizes →
  cache_inv slab_caches i z (small k) f p r → pages_ok slab_caches i (small k) l → block_ok (small k) f p r ptr size →
  ∃ s' f' p' r' l', kfree slab_caches ptr k = Ok (set_small s' k) ∧ cache_inv slab_caches i z s' f' p' r' ∧
    pages_ok slab_caches i s' l' ∧ (∀ o, live z s' f' p' r' o ↔ live z (small k) f p r o ∧ o ≠ ptr - 8) ∧
    (∀ o a, live z (small k) f p r o → o ≠ ptr - 8 → o ≤ a < o + z → bytes s' !! a = bytes (small k) !! a).
Proof.
  intros Hz Hzi Hsz Hinv Hl [Hlv Hfit Hs Hmag]. destruct (block_not_page _ _ _ _ _ Hz Hinv Hlv) as [Hpos Hal].
  replace (ptr - 8 + 8) with ptr in * by lia. unfold kfree. rewrite (proj2 (Z.eqb_neq ptr 0)), Hal by lia.
  unfold header_magic, ptr_to_header, kbytes, HEADER_SIZE. replace (ptr - 8 + 4) with (ptr - 4) by lia. rewrite Hmag. cbn [obind].
  rewrite Z.eqb_refl. cbn [negb]. destruct Hlv as (x & j & Hx & Hj & Hu & Eo).
  destruct (slab_free_obj_ok slab_caches i z Hz (small k) f p r l x j Hinv Hl Hx Hj Hu) as (s' & f' & p' & r' & l' & E & HR).
  rewrite Eo, (slab_free_eq slab_caches i z (small k) f p r x j), E by done. cbn [obind]. change (1 =? 0) with false. cbn iota.
  exists s', f', p', r', l'. destruct HR as (H1 & H2 & _ & H3 & H4 & _). done.
Qed.

(** Blocks keep their headers under changes elsewhere. *)
Lemma block_same s s' f p r f' p' r' ptr size :
  large_size z → block_ok s f p r ptr size → live z s' f' p' r' (ptr - 8) →
  (∀ a, ptr - 8 ≤ a < ptr - 8 + z → bytes s' !! a = bytes s !! a) → block_ok s' f' p' r' ptr size.
Proof.
  intros Hz [H1 H2 H3 H4] Hl Hb. destruct (large_geometry z Hz) as (_ & Hz1 & _). split; [done|done|..].
  - rewrite <-H3. apply load_le_same. intros a Ha. apply Hb. lia.
  - rewrite <-H4. apply load_le_same. intros a Ha. apply Hb. lia.
Qed.

Lemma live_mapped s f p r o :
  large_size z → cache_inv slab_caches i z s f p r → live z s f p r o → mapped (bytes s) o z ∧ 40 < o < 2 ^ 57.
Proof.
  intros Hz Hinv (x & j & Hx & Hj & _ & ->). destruct (member_at _ _ _ _ _ _ _ _ Hinv Hx) as (n & h & Hs).
  pose proof (object_in_page z x j Hz Hj). pose proof (so_addr _ _ _ _ _ Hs). destruct (large_geometry z Hz) as (_ & Hz1 & _).
  unfold SLAB_HEADER in *. split; [|lia]. replace (object z x j) with (x + (object z x j - x)) by lia.
  apply (mapped_sub _ x 4096); [apply Hs|lia..].
Qed.

(** Copying a whole block into a new one. *)
Lemma copy_block s f p r src dst n n' :
  large_size z → cache_inv slab_caches i z s f p r → block_ok s f p r src n → block_ok s f p r dst n' → 0 ≤ n ≤ n' → src ≠ dst →
  ∃ m, memcpy dst src n (bytes s) = Ok (dst, m) ∧ cache_inv slab_caches i z (set_bytes m s) f p r ∧ same_dom (bytes s) m ∧
    (∀ o, live z (set_bytes m s) f p r o ↔ live z s f p r o) ∧
    (∀ j, 0 ≤ j < n → m !! (dst + j) = bytes s !! (src + j)) ∧
    (∀ a, ~ (dst ≤ a < dst + n') → m !! a = bytes s !! a).
Proof.
  intros Hz Hinv Hsrc Hdst Hn Hne. destruct Hsrc as [Ls Fs _ _], Hdst as [Ld Fd _ _].
  destruct (live_mapped _ _ _ _ _ Hz Hinv Ls) as [Ms Rs], (live_mapped _ _ _ _ _ Hz Hinv Ld) as [Md Rd].
  destruct (large_geometry z Hz) as (_ & Hz1 & _).
  destruct (live_disjoint slab_caches i z Hz s f p r _ _ Hinv Ls Ld) as [?|Hdj]; [lia|].
  destruct (memcpy_spec dst src n (bytes s)) as (m & E & B1 & B2 & B3 & B4); [apply Hinv| | |unfold forward_safe; lia|lia..|].
  { replace src with (src - 8 + 8) by lia. apply (mapped_sub _ _ z); [done|lia..]. }
  { replace dst with (dst - 8 + 8) by lia. apply (mapped_sub _ _ z); [done|lia..]. }
  exists m. split; [done|]. destruct Ld as (x & j & Hx & Hj & _ & Eo).
  destruct (client_write slab_caches i z Hz s m f p r x j Hinv Hx Hj B4 B3) as [Hi' Hl']; [intros a Ha; apply B2; lia|].
  split; [done|]. split; [done|]. split; [done|]. split; [exact B1|]. intros a Ha. apply B2. lia.
Qed.

(** C10. Small blocks (57 to 2040 bytes): [kmalloc] returns a pointer to a block of the
    size asked for, rounded up to 8, in an object that was not live; no byte of a live
    object changes, [ksize] reports the rounded size, and [kfree] of the pointer
    succeeds and makes exactly the old objects live again. *)
Theorem kmalloc_roundtrip size k f p r l :
  56 < size ≤ 2040 → slab_cache_for_size (round8 size + 8) = Some i → slab_sizes !! i = Some z →
  sizes_of (caches (small k)) = slab_sizes →
  cache_inv slab_caches i z (small k) f p r → pages_ok slab_caches i (small k) l → (p = [] → r = [] → l ≠ []) →
  ∃ ptr k1 f1 p1 r1, kmalloc slab_caches size k = Ok (ptr, k1) ∧ cache_inv slab_caches i z (small k1) f1 p1 r1 ∧
    size ≤ round8 size ∧ 8 + round8 size ≤ z ∧ ~ live z (small k) f p r (ptr - 8) ∧
    (∀ o, live z (small k1) f1 p1 r1 o ↔ o = ptr - 8 ∨ live z (small k) f p r o) ∧
    (∀ o a, live z (small k) f p r o → o ≤ a < o + z → kbytes k1 !! a = kbytes k !! a) ∧
    ksize ptr k1 = Ok (round8 size) ∧
    ∃ k2 f2 p2 r2, kfree slab_caches ptr k1 = Ok k2 ∧ cache_inv slab_caches i z (small k2) f2 p2 r2 ∧
      ∀ o, live z (small k2) f2 p2 r2 o ↔ live z (small k) f p r o.
Proof.
  intros Hsize Hi Hzi Hsz Hinv Hl Hav.
  destruct (kmalloc_ok size k f p r l Hsize Hi Hzi Hinv Hl Hav) as (ptr & s1 & f1 & p1 & r1 & l1 & E & Hz & Hinv1 & Hl1 & _ & Esz & Hb & Hno & Hlive & Hobj).
  exists ptr, (set_small s1 k), f1, p1, r1. split; [done|]. split; [done|]. split; [rewrite round8_eq by lia; zdm|].
  split; [apply (bo_fits _ _ _ _ _ _ Hb)|]. split; [done|]. split; [done|]. split; [done|].
  split; [by apply (ksize_ok (set_small s1 k) f1 p1 r1)|].
  destruct (kfree_ok (set_small s1 k) f1 p1 r1 l1 ptr (round8 size)) as (s2 & f2 & p2 & r2 & l2 & E2 & Hinv2 & _ & Hlive2 & _);
    [done|done|by rewrite <-Hsz|done|done|done|].
  eexists _, f2, p2, r2. split; [exact E2|]. split; [done|]. intros o. cbn [small set_small] in *. rewrite Hlive2, Hlive.
  split; [intros [[->|?] ?]; done|]. intros Ho. split; [by right|]. intros ->. done.
Qed.

(** Growing a small block into the same cache: [krealloc] moves it to a new block
    whose first bytes are the old contents, frees the old block, and leaves the other
    live objects and their bytes alone; a request of at most the current size keeps
    the block. *)
Theorem krealloc_keeps ptr old new k f p r l :
  slab_sizes !! i = Some z → large_size z → sizes_of (caches (small k)) = slab_sizes →
  cache_inv slab_caches i z (small k) f p r → pages_ok slab_caches i (small k) l → (p = [] → r = [] → l ≠ []) →
  block_ok (small k) f p r ptr old → 0 ≤ old → 56 < new ≤ 2040 → slab_cache_for_size (round8 new + 8) = Some i →
  (new ≤ old → krealloc slab_caches ptr new k = Ok (ptr, k)) ∧
  (old < new → ∃ q k' f' p' r', krealloc slab_caches ptr new k = Ok (q, k') ∧ cache_inv slab_caches i z (small k') f' p' r' ∧
     ksize q k' = Ok (round8 new) ∧ ~ live z (small k) f p r (q - 8) ∧
     (∀ j, 0 ≤ j < old → kbytes k' !! (q + j) = kbytes k !! (ptr + j)) ∧
     (∀ o, live z (small k') f' p' r' o ↔ o = q - 8 ∨ live z (small k) f p r o ∧ o ≠ ptr - 8) ∧
     (∀ o a, live z (small k) f p r o → o ≠ ptr - 8 → o ≤ a < o + z → kbytes k' !! a = kbytes k !! a)).
Proof.
  intros Hzi Hz Hsz Hinv Hl Hav Hb Hold Hnew Hi. destruct (large_geometry z Hz) as (_ & Hz1 & _).
  destruct (live_mapped _ _ _ _ _ Hz Hinv (bo_live _ _ _ _ _ _ Hb)) as [_ Hpos].
  unfold krealloc. rewrite (proj2 (Z.eqb_neq ptr 0)), (proj2 (Z.eqb_neq new 0)) by lia.
  rewrite (ksize_ok k f p r ptr old Hz Hinv Hb). cbn [obind].
  split; intros Hcmp; [by rewrite (proj2 (Z.leb_le _ _)) by lia|]. rewrite (proj2 (Z.leb_gt _ _)) by lia.
  destruct (kmalloc_ok new k f p r l Hnew Hi Hzi Hinv Hl Hav) as (q & s1 & f1 & p1 & r1 & l1 & -> & _ & Hinv1 & Hl1 & _ & Esz & Hbq & Hno & Hlive & Hobj).
  cbn [obind]. destruct (live_mapped _ _ _ _ _ Hz Hinv1 (bo_live _ _ _ _ _ _ Hbq)) as [_ Hqpos]. rewrite (proj2 (Z.eqb_neq q 0)) by lia.
  assert (ptr ≠ q) as Hne by (intros ->; apply Hno, Hb).
  assert (block_ok s1 f1 p1 r1 ptr old) as Hb1.
  { apply (block_same (small k) s1 f p r); [done|done|apply Hlive; right; apply Hb|]. intros a Ha. apply (Hobj (ptr - 8)); [apply Hb|done]. }
  assert (old ≤ round8 new) as Hle by (rewrite round8_eq by lia; zdm).
  destruct (copy_block s1 f1 p1 r1 ptr q old (round8 new) Hz Hinv1 Hb1 Hbq) as (m & E2 & Hinv2 & D2 & Hlive2 & Hc2 & Ho2); [lia|done|].
  change (kbytes (set_small s1 k)) with (bytes s1). rewrite E2. cbn [obind]. set (s2 := set_bytes m s1) in *.
  assert (∀ o, live z s1 f1 p1 r1 o → o ≠ q - 8 → ∀ a, o ≤ a < o + z → bytes s2 !! a = bytes s1 !! a) as Hkeep.
  { intros o Ho Hoq a Ha. apply Ho2. destruct (live_disjoint slab_caches i z Hz s1 f1 p1 r1 o (q - 8) Hinv1 Ho) as [?|?]; [apply Hbq|lia|].
    pose proof (bo_fits _ _ _ _ _ _ Hbq). lia. }
  assert (block_ok s2 f1 p1 r1 ptr old) as Hb2.
  { apply (block_same s1 s2 f1 p1 r1); [done|done|apply Hlive2, Hb1|]. apply Hkeep; [apply Hb1|lia]. }
  destruct (kfree_ok (set_kbytes m (set_small s1 k)) f1 p1 r1 l1 ptr old) as (s3 & f3 & p3 & r3 & l3 & E3 & Hinv3 & _ & Hlive3 & Hobj3);
    [done|done|by rewrite <-Hsz|done|by apply (pages_ok_bytes _ _ s1)|done|].
  rewrite E3. cbn [obind]. change (small (set_kbytes m (set_small s1 k))) with s2 in *.
  assert (live z s2 f1 p1 r1 (q - 8)) as Hq2 by (apply Hlive2, Hbq).
  assert (∀ a, q - 8 ≤ a < q - 8 + z → bytes s3 !! a = bytes s2 !! a) as Hq3 by (intros a Ha; apply (Hobj3 (q - 8)); [done|lia|done]).
  eexists q, _, f3, p3, r3. split; [done|]. split; [exact Hinv3|]. pose proof (bo_fits _ _ _ _ _ _ Hbq) as Hfit.
  assert (block_ok s2 f1 p1 r1 q (round8 new)) as Hbq2.
  { destruct Hbq as [B1 B2 B3 B4]. split; [done|done|..]; [rewrite <-B3|rewrite <-B4]; apply load_le_same; intros a Ha; apply Ho2; lia. }
  split; [|split; [done|split; [|split]]].
  - apply (ksize_ok _ f3 p3 r3); [done|done|]. apply (block_same s2 s3 f1 p1 r1); [done|done|apply Hlive3; split; [done|lia]|done].
  - intros j Hj. cbn. rewrite Hq3, Hc2 by lia. apply (Hobj (ptr - 8)); [apply Hb|]. pose proof (bo_fits _ _ _ _ _ _ Hb). lia.
  - intros o. cbn. rewrite Hlive3, Hlive2, Hlive. split; [intros [[->|?] ?]; [by left|by right]|].
    intros [->|[? ?]]; (split; [|done || lia]); [by left|by right].
  - intros o a Ho Hop Ha. cbn. rewrite (Hobj3 o) by (done || apply Hlive2, Hlive; by right).
    rewrite (Hkeep o); [by apply (Hobj o)|apply Hlive; by right| |done]. intros ->. done.
Qed.
End Spec.

(** [kcalloc] is [kzalloc] of the product when the product fits in 64 bits, and
    returns [NULL] without allocating when it does not. *)
Theorem kcalloc_is_kzalloc {P} {PF : PageFrames P} {L} {KL : KernelMap L} slab_caches n size (k : @kheap P L) :
  0 ≤ n < 2 ^ 64 → 0 ≤ size < 2 ^ 64 →
  kcalloc slab_caches n size k = if 2 ^ 64 <=? n * size then Ok (0, k) else kzalloc slab_caches (n * size) k.
Proof.
  intros Hn Hs. unfold kcalloc. destruct (Z.eqb_spec size 0) as [->|Hs0]; cbn [negb andb].
  { rewrite !Z.mul_0_r. done. }
  destruct (Z.ltb_spec ((2 ^ 64 - 1) / size) n) as [Hlt|Hge].
  - rewrite (proj2 (Z.leb_le _ _)); [done|]. pose proof (Z.mul_succ_div_gt (2 ^ 64 - 1) size ltac:(lia)). nia.
  - assert (n * size < 2 ^ 64) as Hfit by (pose proof (Z.mul_div_le (2 ^ 64 - 1) size ltac:(lia)); nia).
    rewrite (proj2 (Z.leb_gt _ _)), u64_small by nia. unfold kzalloc.
    destruct (Z.eqb_spec (n * size) 0) as [->|Hne]; [done|].
    destruct (kmalloc _ _ _) as [[ret k']| | |]; [|done..]. cbn [obind]. by destruct (Z.eqb_spec ret 0) as [->|].
Qed.

(** ** A concrete heap: the machine of [Slab], no mappings *)

#[local] Existing Instances slab_pages slab_pages_spec.
#[local] Instance no_map : KernelMap unit := {
  km_mmap _ _ := Fault;
  km_unmap _ _ _ := Fault;
  km_page _ _ := Fault;
  km_get_size _ _ := Fault;
  km_set_size _ _ _ := Fault;
}.

Definition kheap0 : @kheap page_manager unit := KHeap slab0 tt.

Lemma kmalloc_roundtrip_witness :
  ∃ ptr k1 f1 p1 r1, kmalloc CACHES 100 kheap0 = Ok (ptr, k1) ∧ cache_inv CACHES 3 128 (small k1) f1 p1 r1 ∧
    100 ≤ round8 100 ∧ 8 + round8 100 ≤ 128 ∧ ~ live 128 (small kheap0) [] [] [] (ptr - 8) ∧
    (∀ o, live 128 (small k1) f1 p1 r1 o ↔ o = ptr - 8 ∨ live 128 (small kheap0) [] [] [] o) ∧
    (∀ o a, live 128 (small kheap0) [] [] [] o → o ≤ a < o + 128 → kbytes k1 !! a = kbytes kheap0 !! a) ∧
    ksize ptr k1 = Ok (round8 100) ∧
    ∃ k2 f2 p2 r2, kfree CACHES ptr k1 = Ok k2 ∧ cache_inv CACHES 3 128 (small k2) f2 p2 r2 ∧
      ∀ o, live 128 (small k2) f2 p2 r2 o ↔ live 128 (small kheap0) [] [] [] o.
Proof.
  apply (kmalloc_roundtrip CACHES 3 128 100 kheap0 [] [] [] [65536; 69632]);
    [lia | reflexivity | reflexivity | reflexivity | apply slab0_inv; reflexivity | apply slab0_pages; lia | done].
Defined.

(** A block of 64 bytes grown to 100: both are in the cache of 128-byte objects. *)
Lemma krealloc_keeps_witness :
  ∃ ptr k f p r, kmalloc CACHES 64 kheap0 = Ok (ptr, k) ∧
  (64 < 100 → ∃ q k' f' p' r', krealloc CACHES ptr 100 k = Ok (q, k') ∧ cache_inv CACHES 3 128 (small k') f' p' r' ∧
     ksize q k' = Ok (round8 100) ∧ ~ live 128 (small k) f p r (q - 8) ∧
     (∀ j, 0 ≤ j < 64 → kbytes k' !! (q + j) = kbytes k !! (ptr + j)) ∧
     (∀ o, live 128 (small k') f' p' r' o ↔ o = q - 8 ∨ live 128 (small k) f p r o ∧ o ≠ ptr - 8) ∧
     (∀ o a, live 128 (small k) f p r o → o ≠ ptr - 8 → o ≤ a < o + 128 → kbytes k' !! a = kbytes k !! a)).
Proof.
  destruct (kmalloc_ok CACHES 3 128 64 kheap0 [] [] [] [65536; 69632]) as (ptr & s & f & p & r & l & E & Hz & Hinv & Hl & Hll & Esz & Hb & _);
    [lia | reflexivity | reflexivity | apply slab0_inv; reflexivity | apply slab0_pages; lia | done |].
  exists ptr, (set_small s kheap0), f, p, r. split; [exact E|].
  apply (krealloc_keeps CACHES 3 128 ptr 64 100 (set_small s kheap0) f p r l);
    [reflexivity | exact Hz | cbn [small set_small]; rewrite Esz; reflexivity | exact Hinv | exact Hl | | exact Hb | lia | lia | reflexivity].
  intros _ _. destruct Hll as [->|[pa [= _ <-]]]; discriminate.
Defined.

Lemma kcalloc_is_kzalloc_witness :
  kcalloc CACHES 5 20 kheap0 = if 2 ^ 64 <=? 5 * 20 then Ok (0, kheap0) else kzalloc CACHES (5 * 20) kheap0.
Proof. apply (kcalloc_is_kzalloc CACHES 5 20 kheap0); lia. Defined.

(** The rounding of a request close to [2^64] overflows: the block has 0 bytes. *)
Example kmalloc_huge :
  match kmalloc CACHES (2 ^ 64 - 3) kheap0 with
  | Ok (ptr, k) => match ksize ptr k with Ok n => (negb (ptr =? 0), n) | _ => (false, 0) end
  | _ => (false, 0)
  end = (true, 0).
Proof. vm_compute. reflexivity. Qed.
