(* ===== verification/Vprint.v ===== *)
(** * Formatted output ([kernel/util/vprint.c])

    The callback [out] appends to the output, a list of bytes; a format is the list
    of the bytes before its terminator, and the variable arguments are a list of
    values. The buffer of [print_num] is an array of its real size, so a write outside
    it is a [Fault]. *)

From stdpp Require Import base list.
From S2P Require Import Prelude.
Local Open Scope Z_scope.
Local Open Scope kernel_scope.

(** An argument in its register, or a string (its bytes before the terminator). *)
Inductive arg :=
| AInt (v : Z)
| AStr (s : list Z).

Definition va_int (ap : list arg) : outcome (Z * list arg) :=
  match ap with AInt v :: ap => Ok (s32 v, ap) | _ => Fault end.
Definition va_long (ap : list arg) : outcome (Z * list arg) :=
  match ap with AInt v :: ap => Ok (s64 v, ap) | _ => Fault end.
Definition va_str (ap : list arg) : outcome (list Z * list arg) :=
  match ap with AStr s :: ap => Ok (s, ap) | _ => Fault end.

(** ** Characters and strings *)

Definition spaces (n : Z) : list Z := replicate (Z.to_nat n) 32.

Definition print_char (c length : Z) (ladjust : bool) : list Z :=
  let length := if length <? 1 then 1 else length in
  if ladjust then c :: spaces (length - 1) else spaces (length - 1) ++ [c].

Definition print_str (s : list Z) (length : Z) (ladjust : bool) : list Z :=
  let len := Z.of_nat (List.length s) in
  let length := if length <? len then len else length in
  if ladjust then s ++ spaces (length - len) else spaces (length - len) ++ s.

(** ** Numbers *)

Definition buf_get (i : Z) (buf : list Z) : outcome Z :=
  if i <? 0 then Fault else of_option (buf !! Z.to_nat i).
Definition buf_set (i c : Z) (buf : list Z) : outcome (list Z) :=
  if (0 <=? i) && (i <? Z.of_nat (length buf)) then Ok (<[Z.to_nat i := c]> buf) else Fault.

Definition digit_char (tmp : Z) (upcase : bool) : Z :=
  if tmp <=? 9 then 48 + tmp else if upcase then 65 + tmp - 10 else 97 + tmp - 10.

(** The digits, last one first; [u] has 64 bits, so 64 rounds are enough. *)
Fixpoint digits_loop (fuel : nat) (u base : Z) (upcase : bool) (p : Z) (buf : list Z) : outcome (Z * list Z) :=
  match fuel with
  | O => Timeout
  | S fuel =>
      let! buf := buf_set p (digit_char (u mod base) upcase) buf in
      let u := u / base in
      if negb (u =? 0) then digits_loop fuel u base upcase (p + 1) buf else Ok (p + 1, buf)
  end.

Fixpoint pad_loop (n : nat) (i padc : Z) (buf : list Z) : outcome (list Z) :=
  match n with
  | O => Ok buf
  | S n =>
      let! buf := buf_set i padc buf in
      pad_loop n (i + 1) padc buf
  end.

Fixpoint swap_loop (fuel : nat) (begin end_ : Z) (buf : list Z) : outcome (list Z) :=
  if begin <? end_ then
    match fuel with
    | O => Timeout
    | S fuel =>
        let! tmp := buf_get begin buf in
        let! c := buf_get end_ buf in
        let! buf := buf_set begin c buf in
        let! buf := buf_set end_ tmp buf in
        swap_loop fuel (begin + 1) (end_ - 1) buf
    end
  else Ok buf.

(** The size of the buffer is an [int]: [length + 70] must not overflow. *)
Definition print_num (u base : Z) (neg_flag : bool) (length : Z) (ladjust : bool) (padc : Z) (upcase : bool) : outcome (list Z) :=
  if 2 ^ 31 <=? length + 70 then Fault
  else
  let buf := replicate (Z.to_nat (length + 70)) 0 in
  let! (p, buf) := digits_loop 64 u base upcase 0 buf in
  let! (p, buf) := (if neg_flag then let! buf := buf_set p 45 buf in Ok (p + 1, buf) else Ok (p, buf)) in
  let actualLength := p in
  let length := if length <? actualLength then actualLength else length in
  let padc := if ladjust then 32 else padc in
  let! buf :=
    (if neg_flag && negb ladjust && (padc =? 48) then
       let! buf := pad_loop (Z.to_nat (length - actualLength)) (actualLength - 1) padc buf in
       buf_set (length - 1) 45 buf
     else pad_loop (Z.to_nat (length - actualLength)) actualLength padc buf) in
  let end_ := if ladjust then actualLength - 1 else length - 1 in
  let! buf := swap_loop (List.length buf) 0 end_ buf in
  if Z.of_nat (List.length buf) <? length then Fault else Ok (take (Z.to_nat length) buf).

(** ** Formats *)

Definition is_digit (c : Z) : bool := (48 <=? c) && (c <=? 57).

(** The text before the next [%], and what follows it ([None] at the end). *)
Fixpoint scan (fmt : list Z) : list Z * option (list Z) :=
  match fmt with
  | [] => ([], None)
  | c :: fmt' => if c =? 37 then ([], Some fmt') else let (s, r) := scan fmt' in (c :: s, r)
  end.

Fixpoint width_loop (width : Z) (fmt : list Z) : Z * list Z :=
  match fmt with
  | c :: fmt' => if is_digit c then width_loop (s32 (width * 10 + c - 48)) fmt' else (width, fmt)
  | [] => (width, fmt)
  end.

Fixpoint long_loop (long_flag : bool) (fmt : list Z) : bool * list Z :=
  match fmt with
  | c :: fmt' => if c =? 108 then long_loop true fmt' else (long_flag, fmt)
  | [] => (long_flag, fmt)
  end.

Definition va_num (long_flag : bool) (ap : list arg) : outcome (Z * list arg) :=
  if long_flag then va_long ap else va_int ap.

(** The conversion [c]; 0 is the end of the format. *)
Definition convert (c : Z) (long_flag : bool) (width : Z) (ladjust : bool) (padc : Z) (ap : list arg) : outcome (list Z * list arg) :=
  let number (base : Z) (upcase : bool) :=
    let! (num, ap) := va_num long_flag ap in
    let! s := print_num (u64 num) base false width ladjust padc upcase in
    Ok (s, ap) in
  if c =? 98 (* b *) then number 2 false
  else if (c =? 100) || (c =? 68) (* d D *) then
    let! (num, ap) := va_num long_flag ap in
    let neg_flag := num <? 0 in
    let num := if neg_flag then s64 (- num) else num in
    let! s := print_num (u64 num) 10 neg_flag width ladjust padc false in
    Ok (s, ap)
  else if (c =? 111) || (c =? 79) (* o O *) then number 8 false
  else if (c =? 117) || (c =? 85) (* u U *) then number 10 false
  else if (c =? 120) || (c =? 112) (* x p *) then number 16 false
  else if c =? 88 (* X *) then number 16 true
  else if c =? 99 (* c *) then
    let! (v, ap) := va_int ap in
    Ok (print_char (u8 v) width ladjust, ap)
  else if c =? 115 (* s *) then
    let! (s, ap) := va_str ap in
    Ok (print_str s width ladjust, ap)
  else if c =? 0 then Ok ([], ap)
  else Ok ([c], ap).

Fixpoint vprintfmt_loop (fuel : nat) (fmt : list Z) (ap : list arg) (acc : list Z) : outcome (list Z) :=
  match fuel with
  | O => Timeout
  | S fuel =>
      let (s, r) := scan fmt in
      let acc := acc ++ s in
      match r with
      | None | Some [] => Ok acc
      | Some (c :: fmt') =>
          let '(ladjust, padc, fmt) :=
            if c =? 45 then (true, 32, fmt') else if c =? 48 then (false, 48, fmt') else (false, 32, c :: fmt') in
          let (width, fmt) := width_loop 0 fmt in
          let (long_flag, fmt) := long_loop false fmt in
          let! (s, ap) := convert (default 0 (head fmt)) long_flag width ladjust padc ap in
          vprintfmt_loop fuel (tail fmt) ap (acc ++ s)
      end
  end.

Definition vprintfmt (fmt : list Z) (ap : list arg) : outcome (list Z) :=
  vprintfmt_loop (S (length fmt)) fmt ap [].

(** ** Numerals *)

(** The digits of [u], the last one first. *)
Fixpoint numeral_rev (fuel : nat) (u base : Z) (upcase : bool) : list Z :=
  match fuel with
  | O => []
  | S fuel =>
      digit_char (u mod base) upcase ::
      if u / base =? 0 then [] else numeral_rev fuel (u / base) base upcase
  end.

Definition numeral (u base : Z) (upcase : bool) : list Z := rev (numeral_rev 64 u base upcase).

(** The text a number is to be printed as: the sign goes before zeros and after
    spaces, left adjustment pads with spaces on the right. *)
Definition number_text (u base : Z) (neg : bool) (width : Z) (ladjust : bool) (padc : Z) (upcase : bool) : list Z :=
  let sign := if neg then [45] else [] in
  let ds := numeral u base upcase in
  let pad c := replicate (Z.to_nat width - length (sign ++ ds)) c in
  if ladjust then sign ++ ds ++ pad 32
  else if padc =? 48 then sign ++ pad 48 ++ ds
  else pad padc ++ sign ++ ds.

(** The value of a digit character, and of a numeral read from the left. *)
Definition digit_value (c : Z) : Z := if c <=? 57 then c - 48 else if c <=? 90 then c - 55 else c - 87.
Definition numeral_value (base : Z) (l : list Z) : Z := fold_left (λ acc c, acc * base + digit_value c) l 0.

Lemma digit_char_value d upcase : 0 ≤ d < 16 → digit_value (digit_char d upcase) = d.
Proof.
  intros Hd. unfold digit_value, digit_char.
  destruct upcase, (Z.leb_spec d 9); repeat match goal with |- context [?a <=? ?b] => destruct (Z.leb_spec a b) end; lia.
Qed.

Lemma numeral_rev_length fuel u base upcase : (length (numeral_rev fuel u base upcase) ≤ fuel)%nat.
Proof. revert u. induction fuel as [|n IH]; intros u; cbn; [lia|]. destruct (_ =? 0); cbn; [lia|]. specialize (IH (u / base)). lia. Qed.

Lemma numeral_rev_pos fuel u base upcase : (0 < fuel)%nat → (0 < length (numeral_rev fuel u base upcase))%nat.
Proof. destruct fuel; cbn; lia. Qed.

Lemma numeral_rev_value fuel u base upcase :
  2 ≤ base ≤ 16 → 0 ≤ u < base ^ Z.of_nat fuel → numeral_value base (rev (numeral_rev fuel u base upcase)) = u.
Proof.
  intros Hb. revert u. induction fuel as [|n IH]; intros u Hu; cbn [numeral_rev].
  { change (base ^ Z.of_nat 0) with 1 in Hu. cbn. lia. }
  rewrite Nat2Z.inj_succ, Z.pow_succ_r in Hu by lia. cbn [rev]. unfold numeral_value. rewrite fold_left_app. cbn [fold_left].
  rewrite digit_char_value by (pose proof (Z.mod_pos_bound u base); lia).
  destruct (Z.eqb_spec (u / base) 0) as [E|E]; cbn [rev fold_left].
  - pose proof (Z.div_mod u base). lia.
  - fold (numeral_value base (rev (numeral_rev n (u / base) base upcase))). rewrite IH.
    + pose proof (Z.div_mod u base). lia.
    + split; [apply Z.div_pos; lia|]. apply Z.div_lt_upper_bound; lia.
Qed.

Lemma pow_base_64 base : 2 ≤ base → 2 ^ 64 ≤ base ^ 64.
Proof. intros. apply Z.pow_le_mono_l. lia. Qed.

(** ** The buffer of [print_num] *)

Lemma buf_set_app (pre rest : list Z) x c : buf_set (Z.of_nat (length pre)) c (pre ++ x :: rest) = Ok ((pre ++ [c]) ++ rest).
Proof.
  unfold buf_set. rewrite length_app. cbn [length]. rewrite (proj2 (Z.leb_le 0 _)), (proj2 (Z.ltb_lt _ _)) by lia. cbn [andb].
  rewrite Nat2Z.id, insert_app_r_alt, Nat.sub_diag, <-app_assoc by lia. done.
Qed.

Lemma buf_get_app (pre rest : list Z) x : buf_get (Z.of_nat (length pre)) (pre ++ x :: rest) = Ok x.
Proof. unfold buf_get. rewrite (proj2 (Z.ltb_ge _ 0)), Nat2Z.id, list_lookup_middle by (done || lia). done. Qed.

Lemma digits_loop_ok fuel u base upcase pre rest :
  2 ≤ base → 0 ≤ u < base ^ Z.of_nat fuel → (0 < fuel)%nat → (fuel ≤ length rest)%nat →
  let ds := numeral_rev fuel u base upcase in
  digits_loop fuel u base upcase (Z.of_nat (length pre)) (pre ++ rest) =
    Ok (Z.of_nat (length (pre ++ ds)), (pre ++ ds) ++ drop (length ds) rest).
Proof.
  intros Hb. revert u pre rest. induction fuel as [|n IH]; intros u pre rest Hu Hf Hr; [lia|].
  destruct rest as [|x rest]; [cbn in Hr; lia|]. cbn [digits_loop numeral_rev length] in *. rewrite buf_set_app. cbn [obind].
  rewrite Nat2Z.inj_succ, Z.pow_succ_r in Hu by lia.
  assert (0 ≤ u / base < base ^ Z.of_nat n) as Hu' by (split; [apply Z.div_pos; lia|apply Z.div_lt_upper_bound; lia]).
  replace (Z.of_nat (length pre) + 1) with (Z.of_nat (length (pre ++ [digit_char (u mod base) upcase]))) by (rewrite length_app; cbn; lia).
  destruct (Z.eqb_spec (u / base) 0) as [E|E]; cbn [negb]; [done|].
  assert (0 < n)%nat as Hn by (destruct n; [change (base ^ Z.of_nat 0) with 1 in Hu'; lia|lia]).
  rewrite IH by (done || lia). rewrite <-!app_assoc. cbn [app drop length]. done.
Qed.

Lemma pad_loop_ok n c pre rest :
  (n ≤ length rest)%nat → pad_loop n (Z.of_nat (length pre)) c (pre ++ rest) = Ok (pre ++ replicate n c ++ drop n rest).
Proof.
  revert pre rest. induction n as [|n IH]; intros pre rest Hn; cbn [pad_loop]; [done|].
  destruct rest as [|x rest]; [cbn in Hn; lia|]. rewrite buf_set_app. cbn [obind].
  replace (Z.of_nat (length pre) + 1) with (Z.of_nat (length (pre ++ [c]))) by (rewrite length_app; cbn; lia).
  rewrite IH by (cbn in Hn; lia). by rewrite <-app_assoc.
Qed.

Lemma swap_loop_ok fuel a m b :
  (length m ≤ fuel)%nat →
  swap_loop fuel (Z.of_nat (length a)) (Z.of_nat (length a) + Z.of_nat (length m) - 1) (a ++ m ++ b) = Ok (a ++ rev m ++ b).
Proof.
  revert a m b. induction fuel as [|n IH]; intros a m b Hm; cbn [swap_loop].
  { destruct m; [|cbn in Hm; lia]. rewrite (proj2 (Z.ltb_ge _ _)) by (cbn; lia). done. }
  destruct m as [|x m]; [rewrite (proj2 (Z.ltb_ge _ _)) by (cbn; lia); done|].
  destruct m as [|y m _] using rev_ind; [rewrite (proj2 (Z.ltb_ge _ _)) by (cbn; lia); done|].
  rewrite (proj2 (Z.ltb_lt _ _)) by (cbn [length]; rewrite length_app; cbn; lia).
  replace (Z.of_nat (length a) + Z.of_nat (length (x :: m ++ [y])) - 1) with (Z.of_nat (length (a ++ x :: m)))
    by (cbn [length]; rewrite !length_app; cbn [length]; lia).
  cbn [app]. rewrite <-app_assoc. cbn [app]. rewrite buf_get_app. cbn [obind].
  assert (∀ c, a ++ c :: m ++ y :: b = (a ++ c :: m) ++ y :: b) as Eq by (intros; by rewrite <-app_assoc).
  rewrite (Eq x), buf_get_app. cbn [obind]. rewrite <-Eq, buf_set_app. cbn [obind]. rewrite <-app_assoc. cbn [app].
  replace (length (a ++ x :: m)) with (length (a ++ y :: m)) by (by rewrite !length_app).
  rewrite Eq, buf_set_app. cbn [obind].
  replace (Z.of_nat (length a) + 1) with (Z.of_nat (length (a ++ [y]))) by (rewrite length_app; cbn; lia).
  replace (Z.of_nat (length (a ++ y :: m)) - 1) with (Z.of_nat (length (a ++ [y])) + Z.of_nat (length m) - 1)
    by (rewrite !length_app; cbn [length]; lia).
  replace (((a ++ y :: m) ++ [x]) ++ b) with ((a ++ [y]) ++ m ++ x :: b) by (by rewrite <-!app_assoc).
  rewrite IH by (cbn [length] in Hm; rewrite length_app in Hm; cbn in Hm; lia).
  change (rev (x :: m ++ [y])) with (rev (m ++ [y]) ++ [x]). rewrite rev_app_distr, <-!app_assoc. done.
Qed.

Lemma rev_replicate n (c : Z) : rev (replicate n c) = replicate n c.
Proof. rewrite rev_alt. apply reverse_replicate. Qed.

(** The sign, appended to the reversed digits. *)
Lemma sign_ok (neg : bool) ds junk :
  (length ds < length junk)%nat →
  let sg := if neg then [45] else [] in
  ∃ rest, (if neg then let! buf := buf_set (Z.of_nat (length ds)) 45 (ds ++ drop (length ds) junk) in
             Ok (Z.of_nat (length ds) + 1, buf)
           else Ok (Z.of_nat (length ds), ds ++ drop (length ds) junk))
          = Ok (Z.of_nat (length (ds ++ sg)), (ds ++ sg) ++ rest) ∧ length rest = (length junk - length (ds ++ sg))%nat.
Proof.
  intros Hl sg. assert (length (drop (length ds) junk) = length junk - length ds)%nat as Hdr by apply length_drop.
  destruct neg; unfold sg; [|eexists; rewrite app_nil_r; split; [done|done]].
  destruct (drop (length ds) junk) as [|x rest]; [cbn [length] in Hdr; lia|]. rewrite buf_set_app. cbn [obind]. exists rest.
  rewrite !length_app. cbn [length] in *. split; [|lia]. repeat f_equal. lia.
Qed.

(** The end of [print_num]: [t] is reversed, [pad] is not. *)
Lemma finish_ok (t pad junk : list Z) k e :
  k = Z.of_nat (length (t ++ pad)) → e = Z.of_nat (length t) - 1 →
  (let! buf := swap_loop (length (t ++ pad ++ junk)) 0 e (t ++ pad ++ junk) in
   if Z.of_nat (length buf) <? k then Fault else Ok (take (Z.to_nat k) buf)) = Ok (rev t ++ pad).
Proof.
  intros -> ->. pose proof (swap_loop_ok (length (t ++ pad ++ junk)) [] t (pad ++ junk)) as Hs. cbn [app length] in Hs.
  change (Z.of_nat 0) with 0 in Hs. rewrite Z.add_0_l in Hs. rewrite Hs by (rewrite length_app; lia). cbn [obind].
  rewrite (proj2 (Z.ltb_ge _ _)) by (rewrite !length_app, length_rev; lia). rewrite Nat2Z.id, app_assoc.
  rewrite take_app_le, take_ge by (rewrite !length_app, length_rev; lia). done.
Qed.

(** [print_num] never leaves its buffer and prints the number's text. *)
Lemma print_num_ok u base neg width ladjust padc upcase :
  0 ≤ u < 2 ^ 64 → 2 ≤ base ≤ 16 → 0 ≤ width < 2 ^ 31 - 70 →
  print_num u base neg width ladjust padc upcase = Ok (number_text u base neg width ladjust padc upcase).
Proof.
  intros Hu Hb Hw. unfold print_num. pose proof (pow_base_64 base) as Hp.
  rewrite (proj2 (Z.leb_gt _ _)) by lia.
  set (junk := replicate (Z.to_nat (width + 70)) 0).
  assert (length junk = Z.to_nat width + 70)%nat as Hj by (unfold junk; rewrite length_replicate; lia). clearbody junk.
  pose proof (digits_loop_ok 64 u base upcase [] junk) as Hd. cbn [app length] in Hd. change (Z.of_nat 0) with 0 in Hd.
  change (Z.of_nat 64) with 64 in Hd. rewrite Hd by lia. clear Hd. cbn [obind].
  set (ds := numeral_rev 64 u base upcase). assert (length ds ≤ 64 ∧ 0 < length ds)%nat as [Hl Hl0]
    by (split; [apply numeral_rev_length|apply numeral_rev_pos; lia]).
  unfold number_text. change (numeral u base upcase) with (rev ds). clearbody ds.
  destruct (sign_ok neg ds junk ltac:(lia)) as (rest & -> & Hrest). cbn [obind].
  set (sg := if neg then [45] else []) in *. assert (rev sg = sg ∧ length sg ≤ 1)%nat as [Er Hsg] by (unfold sg; destruct neg; cbn; split; (done || lia)).
  set (n := (Z.to_nat width - length (sg ++ rev ds))%nat). rewrite length_app in Hrest.
  assert (n = Z.to_nat width - (length ds + length sg))%nat as En by (unfold n; rewrite length_app, length_rev; lia).
  assert ((if width <? Z.of_nat (length (ds ++ sg)) then Z.of_nat (length (ds ++ sg)) else width) = Z.of_nat (length (ds ++ sg) + n)) as ->
    by (rewrite length_app; destruct (Z.ltb_spec width (Z.of_nat (length ds + length sg))); lia).
  replace (Z.to_nat (Z.of_nat (length (ds ++ sg) + n) - Z.of_nat (length (ds ++ sg)))) with n by lia.
  assert (n ≤ length rest)%nat as Hn by lia. clearbody n.
  destruct ladjust; [|destruct (neg && negb false && (padc =? 48)) eqn:Ec].
  - rewrite andb_false_r. cbn [andb]. rewrite pad_loop_ok by done. cbn [obind].
    rewrite finish_ok; [|rewrite !length_app, length_replicate; lia|done]. by rewrite rev_app_distr, Er, <-app_assoc.
  - apply andb_prop in Ec as [Ec ->%Z.eqb_eq]. apply andb_prop in Ec as [-> _]. unfold sg in *. cbn [length] in *.
    replace (Z.of_nat (length (ds ++ [45])) - 1) with (Z.of_nat (length ds)) by (rewrite length_app; cbn; lia).
    rewrite <-app_assoc, pad_loop_ok by (rewrite length_app; lia). cbn [obind]. rewrite app_assoc.
    destruct (drop n ([45] ++ rest)) as [|x r] eqn:E; [apply (f_equal length) in E; rewrite length_drop in E; cbn in E; lia|].
    replace (Z.of_nat (length (ds ++ [45]) + n) - 1) with (Z.of_nat (length (ds ++ replicate n 48)))
      by (rewrite !length_app, length_replicate; cbn; lia).
    rewrite buf_set_app. cbn [obind]. rewrite (finish_ok _ [] r);
      [|rewrite !length_app, length_replicate; cbn; lia|rewrite !length_app, length_replicate; cbn; lia].
    rewrite !rev_app_distr, rev_replicate, app_nil_r. done.
  - rewrite pad_loop_ok by done. cbn [obind]. rewrite app_assoc.
    rewrite (finish_ok _ [] (drop n rest)); [|rewrite !length_app, length_replicate; cbn; lia..].
    rewrite !rev_app_distr, rev_replicate, Er, app_nil_r.
    destruct (Z.eqb_spec padc 48) as [->|]; [|done]. by destruct neg.
Qed.

(** ** Formats, abstractly

    A format is a sequence of texts and directives; [render] writes it down,
    [meaning] is what it is to print. *)

Inductive flag := NoFlag | Minus | Zero.

Record directive := Directive {
  d_flag : flag;
  d_width : Z;
  d_long : nat;
  d_conv : Z;
}.

Inductive piece :=
| Text (l : list Z)
| Dir (d : directive).

Definition flag_text (f : flag) : list Z := match f with NoFlag => [] | Minus => [45] | Zero => [48] end.
Definition width_text (w : Z) : list Z := if w =? 0 then [] else numeral w 10 false.

Definition render_piece (p : piece) : list Z :=
  match p with
  | Text l => l
  | Dir d => 37 :: flag_text (d_flag d) ++ width_text (d_width d) ++ replicate (d_long d) 108 ++ [d_conv d]
  end.

Definition render (ps : list piece) : list Z := ps ≫= render_piece.

(** What may follow a flag, a width and the [l]s as a conversion. *)
Definition conv_ok (c : Z) : bool := negb (is_digit c) && negb (c =? 108) && negb (c =? 45) && negb (c =? 0).

Definition piece_ok (p : piece) : Prop :=
  match p with
  | Text l => 37 ∉ l
  | Dir d => 0 ≤ d_width d < 2 ^ 31 - 70 ∧ conv_ok (d_conv d) = true
  end.

(** The number conversions: the base and the case of the digits. *)
Definition unsigned_conv (c : Z) : option (Z * bool) :=
  if c =? 98 then Some (2, false)
  else if (c =? 111) || (c =? 79) then Some (8, false)
  else if (c =? 117) || (c =? 85) then Some (10, false)
  else if (c =? 120) || (c =? 112) then Some (16, false)
  else if c =? 88 then Some (16, true)
  else None.

(** ["0123456789ABCDEF"] and ["0123456789abcdef"] *)
Definition digit_table (upper : bool) : list Z :=
  [48; 49; 50; 51; 52; 53; 54; 55; 56; 57] ++
  if upper then [65; 66; 67; 68; 69; 70] else [97; 98; 99; 100; 101; 102].

(** The numeral of [u], the last digit first; a number of 64 bits has at most 64. *)
Fixpoint digits_spec (n : nat) (u base : Z) (upper : bool) : list Z :=
  match n with
  | O => []
  | S n =>
      default 0 (digit_table upper !! Z.to_nat (u mod base)) ::
      if u <? base then [] else digits_spec n (u / base) base upper
  end.

(** A text in a field of the width asked for. *)
Definition fill (d : directive) (t : list Z) (c : Z) : list Z := replicate (Z.to_nat (d_width d) - length t) c.
Definition in_field (d : directive) (t : list Z) : list Z :=
  match d_flag d with Minus => t ++ fill d t 32 | _ => fill d t 32 ++ t end.

(** A number: the flag [0] puts zeros between the sign and the digits. *)
Definition number_spec (d : directive) (neg : bool) (u base : Z) (upper : bool) : list Z :=
  let sign := if neg then [45] else [] in
  let ds := rev (digits_spec 64 u base upper) in
  match d_flag d with
  | Zero => sign ++ fill d (sign ++ ds) 48 ++ ds
  | _ => in_field d (sign ++ ds)
  end.

(** What a directive means in C. Arguments of the wrong kind mean nothing, and nothing is
    said of an [unsigned int] from [2^31] on, which the code takes for a negative [int]
    ([unsigned_int_extended]). A conversion the code does not know is its character. *)
Definition dir_meaning (d : directive) (ap : list arg) : option (list Z * list arg) :=
  let long := negb (Nat.eqb (d_long d) 0) in
  let c := d_conv d in
  match unsigned_conv c with
  | Some (base, upper) =>
      match ap with
      | AInt v :: ap =>
          let u := if long then v mod 2 ^ 64 else v mod 2 ^ 32 in
          if long || (u <? 2 ^ 31) then Some (number_spec d false u base upper, ap) else None
      | _ => None
      end
  | None =>
      if (c =? 100) || (c =? 68) then
        match ap with
        | AInt v :: ap =>
            let n := if long then s64 v else s32 v in
            Some (number_spec d (n <? 0) (Z.abs n) 10 false, ap)
        | _ => None
        end
      else if c =? 99 then
        match ap with AInt v :: ap => Some (in_field d [v mod 256], ap) | _ => None end
      else if c =? 115 then
        match ap with AStr s :: ap => Some (in_field d s, ap) | _ => None end
      else Some ([c], ap)
  end.

Fixpoint meaning (ps : list piece) (ap : list arg) : option (list Z) :=
  match ps with
  | [] => Some []
  | Text l :: ps => option_map (app l) (meaning ps ap)
  | Dir d :: ps =>
      match dir_meaning d ap with
      | Some (s, ap) => option_map (app s) (meaning ps ap)
      | None => None
      end
  end.

(** Also for the least number, whose negation overflows. *)
Lemma negated_abs n : - 2 ^ 63 ≤ n < 2 ^ 63 → u64 (if n <? 0 then s64 (- n) else n) = Z.abs n.
Proof.
  intros Hn. destruct (Z.ltb_spec n 0) as [Hlt|Hge]; [|rewrite u64_small; lia].
  destruct (Z.eq_dec n (- 2 ^ 63)) as [->|Hne]; [done|]. unfold s64, u64. zdm.
Qed.

Lemma va_num_ok (long : bool) v ap : va_num long (AInt v :: ap) = Ok (if long then s64 v else s32 v, ap).
Proof. by destruct long. Qed.

Lemma digit_char_table x upper : 0 ≤ x < 16 → default 0 (digit_table upper !! Z.to_nat x) = digit_char x upper.
Proof.
  intros Hx. assert (∃ k, Z.to_nat x = k ∧ x = Z.of_nat k ∧ k < 16)%nat as (k & -> & -> & Hk) by (exists (Z.to_nat x); lia).
  do 16 (destruct k as [|k]; [by destruct upper|]). lia.
Qed.

Lemma digits_spec_ok n u base upper : 2 ≤ base ≤ 16 → 0 ≤ u → digits_spec n u base upper = numeral_rev n u base upper.
Proof.
  intros Hb. revert u. induction n as [|n IH]; intros u Hu; [done|]. cbn [digits_spec numeral_rev].
  pose proof (Z.mod_pos_bound u base). rewrite digit_char_table by lia. f_equal.
  destruct (Z.ltb_spec u base) as [Hlt|Hge].
  - by rewrite Z.div_small by lia.
  - rewrite (proj2 (Z.eqb_neq _ 0)), IH; [done|by apply Z.div_pos; lia|]. pose proof (Z.div_str_pos u base). lia.
Qed.

(** The flags of the code are those of the directive. *)
Definition left (d : directive) : bool := match d_flag d with Minus => true | _ => false end.
Definition padc (d : directive) : Z := match d_flag d with Zero => 48 | _ => 32 end.

Lemma number_spec_ok d neg u base upper :
  2 ≤ base ≤ 16 → 0 ≤ u → number_text u base neg (d_width d) (left d) (padc d) upper = number_spec d neg u base upper.
Proof.
  intros Hb Hu. unfold number_text, number_spec, in_field, fill, left, padc. rewrite digits_spec_ok by done.
  fold (numeral u base upper). destruct (d_flag d); cbn [Z.eqb Pos.eqb]; [done|by rewrite app_assoc|done].
Qed.

Lemma print_char_ok c d : 0 ≤ d_width d → print_char c (d_width d) (left d) = in_field d [c].
Proof.
  intros Hw. unfold print_char, in_field, fill, left, spaces. cbn [length].
  replace (Z.to_nat (d_width d) - 1)%nat with (Z.to_nat ((if d_width d <? 1 then 1 else d_width d) - 1))
    by (destruct (Z.ltb_spec (d_width d) 1); lia).
  by destruct (d_flag d).
Qed.

Lemma print_str_ok t d : 0 ≤ d_width d → print_str t (d_width d) (left d) = in_field d t.
Proof.
  intros Hw. unfold print_str, in_field, fill, left, spaces.
  replace (Z.to_nat (d_width d) - length t)%nat
    with (Z.to_nat ((if d_width d <? Z.of_nat (length t) then Z.of_nat (length t) else d_width d) - Z.of_nat (length t)))
    by (destruct (Z.ltb_spec (d_width d) (Z.of_nat (length t))); lia).
  by destruct (d_flag d).
Qed.

(** What the code reads of a number that is meant as unsigned. *)
Lemma unsigned_read (lng : bool) v :
  let u := if lng then v mod 2 ^ 64 else v mod 2 ^ 32 in
  lng || (u <? 2 ^ 31) = true → u64 (if lng then s64 v else s32 v) = u ∧ 0 ≤ u.
Proof. destruct lng; cbn [orb]; intros H; bool_props; unfold u64, s64, s32; zdm. Qed.

Lemma convert_ok d ap s ap' :
  0 ≤ d_width d < 2 ^ 31 - 70 → conv_ok (d_conv d) = true → dir_meaning d ap = Some (s, ap') →
  convert (d_conv d) (0 <? Z.of_nat (d_long d)) (d_width d) (left d) (padc d) ap = Ok (s, ap').
Proof.
  intros Hw Hc Hm. unfold dir_meaning in Hm.
  assert (negb (Nat.eqb (d_long d) 0) = (0 <? Z.of_nat (d_long d))) as El
    by (destruct (Nat.eqb_spec (d_long d) 0), (Z.ltb_spec 0 (Z.of_nat (d_long d))); (done || lia)).
  rewrite El in Hm. clear El. set (lng := 0 <? Z.of_nat (d_long d)) in *. set (c := d_conv d) in *.
  assert (∀ base up, 2 ≤ base ≤ 16 →
    match ap with
    | AInt v :: ap => let u := if lng then v mod 2 ^ 64 else v mod 2 ^ 32 in
        if lng || (u <? 2 ^ 31) then Some (number_spec d false u base up, ap) else None
    | _ => None end = Some (s, ap') →
    (let! (num, ap) := va_num lng ap in
     let! s := print_num (u64 num) base false (d_width d) (left d) (padc d) up in Ok (s, ap)) = Ok (s, ap')) as Hnum.
  { intros base up Hb. destruct ap as [|[v|t] ap0]; [done| |done]. cbv zeta. destruct (lng || _) eqn:Hu; [|done]. intros [= <- <-].
    destruct (unsigned_read lng v Hu) as [Eu Hu0]. rewrite va_num_ok. cbn [obind].
    rewrite print_num_ok by (done || apply u64_range). cbn [obind]. by rewrite Eu, number_spec_ok. }
  assert (∀ v, - 2 ^ 63 ≤ (if lng then s64 v else s32 v) < 2 ^ 63) as Hr
    by (intros v; destruct lng; [apply s64_range|pose proof (s32_range v); lia]).
  unfold convert, unsigned_conv in *. fold c. assert (c ≠ 0) as Hc0 by (unfold conv_ok in Hc; bool_props; done).
  destruct (c =? 98); [by apply Hnum|]. destruct ((c =? 100) || (c =? 68)) eqn:Ed.
  - assert (((c =? 111) || (c =? 79)) = false ∧ ((c =? 117) || (c =? 85)) = false ∧ ((c =? 120) || (c =? 112)) = false ∧ (c =? 88) = false) as (E1 & E2 & E3 & E4).
    { apply orb_prop in Ed as [E%Z.eqb_eq|E%Z.eqb_eq]; rewrite E; done. }
    rewrite E1, E2, E3, E4 in Hm. destruct ap as [|[v|t] ap0]; [done| |done]. injection Hm as <- <-. rewrite va_num_ok. cbn [obind].
    rewrite negated_abs by apply Hr. rewrite print_num_ok by (specialize (Hr v); lia). cbn [obind]. by rewrite number_spec_ok by lia.
  - destruct ((c =? 111) || (c =? 79)); [by apply Hnum|]. destruct ((c =? 117) || (c =? 85)); [by apply Hnum|].
    destruct ((c =? 120) || (c =? 112)); [by apply Hnum|]. destruct (c =? 88); [by apply Hnum|].
    destruct (c =? 99).
    { destruct ap as [|[v|t] ap0]; [done| |done]. injection Hm as <- <-. cbn [va_int obind]. rewrite print_char_ok by lia.
      do 3 f_equal. unfold u8, s32. f_equal. zdm. }
    destruct (c =? 115).
    { destruct ap as [|[v|t] ap0]; [done|done|]. injection Hm as <- <-. cbn [va_str obind]. by rewrite print_str_ok by lia. }
    rewrite (proj2 (Z.eqb_neq c 0)) by done. by injection Hm as <- <-.
Qed.

(** ** Reading a format *)

Lemma scan_text t fmt : 37 ∉ t → scan (t ++ 37 :: fmt) = (t, Some fmt).
Proof.
  induction t as [|c t IH]; cbn [app scan]; [done|]. rewrite elem_of_cons. intros H.
  rewrite (proj2 (Z.eqb_neq c 37)) by (intros ->; tauto). rewrite IH by tauto. done.
Qed.

Lemma scan_end t : 37 ∉ t → scan t = (t, None).
Proof.
  induction t as [|c t IH]; cbn [scan]; [done|]. rewrite elem_of_cons. intros H.
  rewrite (proj2 (Z.eqb_neq c 37)) by (intros ->; tauto). rewrite IH by tauto. done.
Qed.

Definition dec_fold (l : list Z) (acc : Z) : Z := fold_left (λ a c, a * 10 + digit_value c) l acc.

Lemma is_digit_value c : is_digit c = true → digit_value c = c - 48 ∧ 0 ≤ c - 48 ≤ 9.
Proof. unfold is_digit, digit_value. intros H. bool_props. rewrite (proj2 (Z.leb_le c 57)) by lia. lia. Qed.

Lemma dec_fold_mono l acc : Forall (λ c, is_digit c = true) l → 0 ≤ acc → acc ≤ dec_fold l acc.
Proof.
  revert acc. induction l as [|c l IH]; intros acc Hl Hacc; [cbn; lia|]. apply Forall_cons in Hl as [Hc Hl].
  change (dec_fold (c :: l) acc) with (dec_fold l (acc * 10 + digit_value c)).
  destruct (is_digit_value c Hc) as [-> ?]. specialize (IH (acc * 10 + (c - 48)) Hl ltac:(lia)). lia.
Qed.

Lemma width_loop_ok l c rest acc :
  Forall (λ c, is_digit c = true) l → is_digit c = false → 0 ≤ acc → dec_fold l acc < 2 ^ 31 →
  width_loop acc (l ++ c :: rest) = (dec_fold l acc, c :: rest).
Proof.
  revert acc. induction l as [|d l IH]; intros acc Hl Hc Hacc Hlt; cbn [app width_loop]; [by rewrite Hc|].
  apply Forall_cons in Hl as [Hd Hl]. rewrite Hd. destruct (is_digit_value d Hd) as [Ev Hv].
  change (dec_fold (d :: l) acc) with (dec_fold l (acc * 10 + digit_value d)) in *. rewrite Ev in *.
  pose proof (dec_fold_mono l (acc * 10 + (d - 48)) Hl ltac:(lia)).
  replace (acc * 10 + d - 48) with (acc * 10 + (d - 48)) by lia. rewrite s32_small by lia. apply IH; (done || lia).
Qed.

Lemma long_loop_ok n c rest b : c ≠ 108 → long_loop b (replicate n 108 ++ c :: rest) = (b || (0 <? Z.of_nat n), c :: rest).
Proof.
  intros Hc. revert b. induction n as [|n IH]; intros b; cbn [replicate app long_loop].
  - rewrite (proj2 (Z.eqb_neq c 108)) by done. by rewrite orb_false_r.
  - rewrite IH. cbn [orb]. by rewrite (proj2 (Z.ltb_lt 0 _)), orb_true_r by lia.
Qed.

Lemma numeral_rev_digits fuel u : Forall (λ c, is_digit c = true) (numeral_rev fuel u 10 false).
Proof.
  revert u. induction fuel as [|n IH]; intros u; cbn [numeral_rev]; [by apply Forall_nil|]. apply Forall_cons. split.
  - pose proof (Z.mod_pos_bound u 10). unfold is_digit, digit_char. rewrite (proj2 (Z.leb_le _ 9)) by lia.
    rewrite (proj2 (Z.leb_le 48 _)), (proj2 (Z.leb_le _ 57)) by lia. done.
  - destruct (_ =? 0); [by apply Forall_nil|apply IH].
Qed.

Lemma numeral_digits u : Forall (λ c, is_digit c = true) (numeral u 10 false).
Proof. unfold numeral. apply Forall_rev, numeral_rev_digits. Qed.

(** No leading zero. *)
Lemma numeral_rev_last fuel u :
  0 < u < 10 ^ Z.of_nat fuel → ∃ l c, numeral_rev fuel u 10 false = l ++ [c] ∧ c ≠ 48.
Proof.
  revert u. induction fuel as [|n IH]; intros u Hu; [change (10 ^ Z.of_nat 0) with 1 in Hu; lia|]. cbn [numeral_rev].
  rewrite Nat2Z.inj_succ, Z.pow_succ_r in Hu by lia. destruct (Z.eqb_spec (u / 10) 0) as [E|E].
  - exists [], (digit_char (u mod 10) false). split; [done|]. unfold digit_char. destruct (Z.leb_spec (u mod 10) 9); zdm.
  - destruct (IH (u / 10)) as (l & c & -> & Hc); [zdm|]. by exists (digit_char (u mod 10) false :: l), c.
Qed.

(** The text of a width, followed by something else, is read back. *)
Lemma width_text_ok w c rest :
  0 ≤ w < 2 ^ 31 → is_digit c = false → width_loop 0 (width_text w ++ c :: rest) = (w, c :: rest).
Proof.
  intros Hw Hc. unfold width_text. destruct (Z.eqb_spec w 0) as [->|Hne]; [cbn; by rewrite Hc|].
  assert (dec_fold (numeral w 10 false) 0 = w) as Ev.
  { apply (numeral_rev_value 64 w 10 false); [lia|]. change (Z.of_nat 64) with 64. pose proof (pow_base_64 10). lia. }
  rewrite width_loop_ok; [by rewrite Ev|apply numeral_digits|done|lia|lia].
Qed.

(** Without a flag the rest of a directive starts with neither [-] nor [0]. *)
Lemma no_flag_head w n c rest :
  0 ≤ w < 2 ^ 31 → conv_ok c = true →
  ∃ x t, width_text w ++ replicate n 108 ++ c :: rest = x :: t ∧ x ≠ 45 ∧ x ≠ 48.
Proof.
  intros Hw Hc. unfold width_text. destruct (Z.eqb_spec w 0) as [->|Hne].
  - destruct n as [|n]; cbn; eexists _, _; (split; [done|]); [|done]. unfold conv_ok, is_digit in Hc. bool_props.
    split; [done|]. intros ->. done.
  - destruct (numeral_rev_last 64 w) as (l & x & E & Hx).
    { change (Z.of_nat 64) with 64. pose proof (pow_base_64 10). lia. }
    pose proof (numeral_digits w) as Hd. unfold numeral in *. rewrite E, rev_app_distr in *. cbn [rev app] in *.
    apply Forall_cons in Hd as [Hd _]. eexists _, _. split; [done|]. split; [|done]. intros ->. done.
Qed.

Lemma vprintfmt_loop_ok ps t fuel ap acc out :
  Forall piece_ok ps → 37 ∉ t → (length (t ++ render ps) < fuel)%nat → meaning ps ap = Some out →
  vprintfmt_loop fuel (t ++ render ps) ap acc = Ok (acc ++ t ++ out).
Proof.
  revert t fuel ap acc out. induction ps as [|[l|d] ps IH]; intros t fuel ap acc out Hok Ht Hf Hm; (destruct fuel as [|fuel]; [lia|]).
  - cbn [render mbind list_bind] in *. injection Hm as <-. rewrite app_nil_r. cbn [vprintfmt_loop]. by rewrite scan_end.
  - apply Forall_cons in Hok as [Hl Hok]. cbn [meaning] in Hm. destruct (meaning ps ap) as [out'|] eqn:E; [|done]. injection Hm as <-.
    change (render (Text l :: ps)) with (l ++ render ps) in *. rewrite app_assoc in *.
    rewrite (IH (t ++ l) (S fuel) ap acc out'); [by rewrite <-app_assoc|done| |done|done]. cbn in Hl. rewrite elem_of_app. tauto.
  - apply Forall_cons in Hok as [[Hw Hc] Hok]. cbn [meaning] in Hm. destruct (dir_meaning d ap) as [[s ap']|] eqn:E; [|done].
    destruct (meaning ps ap') as [out'|] eqn:E'; [|done]. injection Hm as <-.
    change (render (Dir d :: ps)) with (render_piece (Dir d) ++ render ps) in *. cbn [render_piece app] in *.
    rewrite <-!app_assoc in *. cbn [app] in *. cbn [vprintfmt_loop]. rewrite scan_text by done.
    pose proof (convert_ok d ap s ap' Hw Hc E) as Hconv.
    assert (is_digit (d_conv d) = false ∧ d_conv d ≠ 108) as [Hcd Hcl] by (unfold conv_ok in Hc; bool_props; done).
    assert (length (render ps) < fuel)%nat as Hf'
      by (rewrite length_app in Hf; cbn [length] in Hf; rewrite !length_app in Hf; cbn [length] in Hf; lia).
    assert (∀ left' padc', left' = left d → padc' = padc d →
      (let (width, fmt) := width_loop 0 (width_text (d_width d) ++ replicate (d_long d) 108 ++ d_conv d :: render ps) in
       let (lng, fmt) := long_loop false fmt in
       let! (s, ap) := convert (default 0 (head fmt)) lng width left' padc' ap in
       vprintfmt_loop fuel (tail fmt) ap ((acc ++ t) ++ s)) = Ok (acc ++ t ++ s ++ out')) as Hrest.
    { intros left' padc' -> ->.
      destruct (replicate (d_long d) 108 ++ d_conv d :: render ps) as [|y r] eqn:Ey; [by apply app_eq_nil in Ey as [_ ?]|].
      rewrite width_text_ok; [|lia|destruct (d_long d); cbn in Ey; by injection Ey as <- _]. rewrite <-Ey, long_loop_ok by done.
      change (default 0 (head (d_conv d :: render ps))) with (d_conv d). cbn [orb tail]. rewrite Hconv. cbn [obind].
      pose proof (IH [] fuel ap' ((acc ++ t) ++ s) out' Hok (not_elem_of_nil _)) as IH'. cbn [app] in IH'.
      rewrite IH' by done. by rewrite <-!app_assoc. }
    destruct (d_flag d) eqn:Ef; cbn [flag_text app].
    + destruct (no_flag_head (d_width d) (d_long d) (d_conv d) (render ps) ltac:(lia) Hc) as (x & r & Ex & H1 & H2).
      rewrite Ex in *. rewrite (proj2 (Z.eqb_neq x 45)), (proj2 (Z.eqb_neq x 48)) by done.
      apply Hrest; unfold left, padc; by rewrite Ef.
    + apply Hrest; unfold left, padc; by rewrite Ef.
    + apply Hrest; unfold left, padc; by rewrite Ef.
Qed.


(** Numbers are printed without leaving the buffer of [print_num]; the text has the
    width asked for, or more when the number needs it, and without padding, reading
    it back gives the number. *)
Theorem print_num_value u base neg width ladjust padc upcase :
  0 ≤ u < 2 ^ 64 → 2 ≤ base ≤ 16 → 0 ≤ width < 2 ^ 31 - 70 →
  ∃ text, print_num u base neg width ladjust padc upcase = Ok text ∧
    text = number_text u base neg width ladjust padc upcase ∧
    length text = Nat.max (Z.to_nat width) (length (numeral u base upcase) + if neg then 1 else 0) ∧
    numeral_value base (numeral u base upcase) = u.
Proof.
  intros Hu Hb Hw. eexists. split; [by apply print_num_ok|]. split; [done|]. split.
  - unfold number_text. destruct ladjust, (padc =? 48), neg; rewrite !length_app, length_replicate; cbn; lia.
  - unfold numeral. apply numeral_rev_value; [done|]. change (Z.of_nat 64) with 64. pose proof (pow_base_64 base). lia.
Qed.

(** An [unsigned int] above [2^31] is printed as a 64-bit number. *)
Lemma unsigned_int_extended v :
  2 ^ 31 ≤ v < 2 ^ 32 → vprintfmt [37; 117] [AInt v] = Ok (numeral (v + (2 ^ 64 - 2 ^ 32)) 10 false).
Proof.
  intros Hv.
  transitivity (let! s := print_num (u64 (s32 v)) 10 false 0 false 32 false in Ok (s ++ [])).
  { unfold vprintfmt. cbn -[print_num u64 s32]. by destruct (print_num _ _ _ _ _ _ _). }
  replace (u64 (s32 v)) with (v + (2 ^ 64 - 2 ^ 32)) by (unfold u64, s32; zdm).
  rewrite print_num_ok by lia. cbn [obind]. by rewrite app_nil_r.
Qed.


Lemma print_num_value_witness :
  ∃ text, print_num 255 16 false 6 false 48 true = Ok text ∧ text = number_text 255 16 false 6 false 48 true ∧
    length text = Nat.max (Z.to_nat 6) (length (numeral 255 16 true) + 0) ∧ numeral_value 16 (numeral 255 16 true) = 255.
Proof. apply (print_num_value 255 16 false 6 false 48 true); lia. Defined.
