(* ===== verification/Qstr.v ===== *)
(** * Qualified strings ([kernel/util/qstr.c], [include/kernel/util/qstr.h])

    A name with its length and hash, the key of the dentry cache. Names are not
    written to once they are made, so a [const char *] is modelled by its address and
    the bytes that can be read from it on; reading past them is a [Fault].
    [memcmp_mem] ties the comparison of such bytes to [memcmp] on memory. *)

From stdpp Require Import base list.
From S2P Require Import Prelude KString.
Local Open Scope Z_scope.
Local Open Scope kernel_scope.

Record charp := CharP {
  addr : Z;
  text : list Z;
}.

Record qstr := Qstr {
  name : charp;
  len : Z;
  hash : Z;
}.

Definition is_null (p : charp) : bool := addr p =? 0.

(** [strlen] and the loop of [memcmp] on the bytes of their arguments. *)
Fixpoint text_strlen (s : list Z) : outcome Z :=
  match s with
  | [] => Fault
  | c :: s =>
      if c =? 0 then Ok 0
      else let! n := text_strlen s in Ok (n + 1)
  end.

Fixpoint text_memcmp (n : nat) (s1 s2 : list Z) : outcome Z :=
  match n with
  | O => Ok 0
  | S n =>
      match s1, s2 with
      | a :: s1, b :: s2 => if negb (a =? b) then Ok (a - b) else text_memcmp n s1 s2
      | _, _ => Fault
      end
  end.

(** ** Hashing *)

Definition QSTR_HASH_ALGORITHM_FNV1A : Z := 0.
Definition QSTR_HASH_ALGORITHM_DJBX33A : Z := 1.

(** The new value of [current_hash_algorithm]. *)
Definition qstr_set_hash_algorithm (algorithm current_hash_algorithm : Z) : Z :=
  if (0 <=? algorithm) && (algorithm <=? 1) then algorithm else current_hash_algorithm.

(** [n] rounds of a hash function over the bytes of a string. *)
Fixpoint hash_loop (round : Z → Z → Z) (n : nat) (str : list Z) (hash : Z) : outcome Z :=
  match n with
  | O => Ok hash
  | S n =>
      match str with
      | [] => Fault
      | c :: str => hash_loop round n str (round hash c)
      end
  end.

Definition fnv1a_round (hash c : Z) : Z := u32 (Z.lxor hash c * 16777619).
Definition fnv1a_hash (str : list Z) (len : Z) : outcome Z := hash_loop fnv1a_round (Z.to_nat len) str 2166136261.

Definition djbx33a_round (hash c : Z) : Z := Z.lxor (u32 (u32 (Z.shiftl hash 5) + hash)) c.
Definition djbx33a_hash (str : list Z) (len : Z) : outcome Z := hash_loop djbx33a_round (Z.to_nat len) str 5381.

Section Qstr.
Context (current_hash_algorithm : Z).

Definition qstr_hash (name : charp) (len : Z) : outcome Z :=
  if is_null name then Ok 0
  else if current_hash_algorithm =? QSTR_HASH_ALGORITHM_DJBX33A then djbx33a_hash (text name) len
  else fnv1a_hash (text name) len.

Definition qstr_hash_str (name : charp) : outcome Z :=
  if is_null name then Ok 0
  else
    let! n := text_strlen (text name) in
    qstr_hash name (u32 n).

Definition full_name_hash (name : charp) (len : Z) : outcome Z := qstr_hash name len.

Definition qstr_update_hash (q : option qstr) : outcome (option qstr) :=
  match q with
  | None => Ok None
  | Some q =>
      if is_null (name q) then Ok (Some q)
      else
        let! h := qstr_hash (name q) (len q) in
        Ok (Some (Qstr (name q) (len q) h))
  end.

(** The structure a pointer argument leads to after the call. *)
Definition qstr_init_from_str_with_len (q : option qstr) (name : charp) (len : Z) : outcome (option qstr) :=
  match q with
  | None => Ok q
  | Some _ =>
      if is_null name then Ok q
      else
        let! h := qstr_hash name len in
        Ok (Some (Qstr name len h))
  end.

Definition qstr_init_from_str (q : option qstr) (name : charp) : outcome (option qstr) :=
  match q with
  | None => Ok q
  | Some _ =>
      if is_null name then Ok q
      else
        let! n := text_strlen (text name) in
        let! h := qstr_hash name (u32 n) in
        Ok (Some (Qstr name (u32 n) h))
  end.

(** ** Creation: the address of the new structure (0 for [NULL]) and its contents *)

Section Create.
Context {A : Type} {KM : KMalloc A}.

Definition QSTR_SIZE : Z := 16.

(** [kstrdup] and [kstrndup], which ignores its limit: both copy the string up to its
    terminator. *)
Definition dup_string (s : charp) (a : A) : outcome (charp * A) :=
  if is_null s then Ok (CharP 0 [], a)
  else
    let! n := text_strlen (text s) in
    let (buf, a) := kmalloc (u64 (n + 1)) a in
    if buf =? 0 then Ok (CharP 0 [], a)
    else Ok (CharP buf (take (Z.to_nat n) (text s) ++ [0]), a).

Definition qstr_create_with_length (name : charp) (len : Z) (a : A) : outcome (Z * option qstr * A) :=
  if is_null name then Ok (0, None, a)
  else
    let (q, a) := kmalloc QSTR_SIZE a in
    if q =? 0 then Ok (0, None, a)
    else
      let! (s, a) := dup_string name a in
      if is_null s then Ok (0, None, kfree q a)
      else
        let! h := qstr_hash name len in
        Ok (q, Some (Qstr s len h), a).

Definition qstr_create (name : charp) (a : A) : outcome (Z * option qstr * A) :=
  if is_null name then Ok (0, None, a)
  else
    let! n := text_strlen (text name) in
    let len := u32 n in
    let (q, a) := kmalloc QSTR_SIZE a in
    if q =? 0 then Ok (0, None, a)
    else
      let! (s, a) := dup_string name a in
      if is_null s then Ok (0, None, kfree q a)
      else
        let! h := qstr_hash name len in
        Ok (q, Some (Qstr s len h), a).

Definition qstr_free (qstr_ptr : Z) (q : qstr) (a : A) : A :=
  if qstr_ptr =? 0 then a
  else
    let a := if is_null (name q) then a else kfree (addr (name q)) a in
    kfree qstr_ptr a.
End Create.
End Qstr.

(** ** Comparison *)

Definition qstr_compare (a b : option qstr) : outcome Z :=
  match a with
  | None => Ok (if b is Some _ then -1 else 0)
  | Some a =>
      if is_null (name a) then Ok (if b is Some _ then -1 else 0)
      else
        match b with
        | None => Ok 1
        | Some b =>
            if is_null (name b) then Ok 1
            else if hash a <? hash b then Ok (-1)
            else if hash b <? hash a then Ok 1
            else
              let! result := text_memcmp (Z.to_nat (if len a <? len b then len a else len b)) (text (name a)) (text (name b)) in
              if negb (result =? 0) then Ok result
              else if len a <? len b then Ok (-1)
              else if len b <? len a then Ok 1
              else Ok 0
        end
  end.

Definition qstr_eq (a b : option qstr) : outcome Z :=
  match a, b with
  | Some a, Some b =>
      if negb (hash a =? hash b) then Ok 0
      else if negb (len a =? len b) then Ok 0
      else
        let! r := text_memcmp (Z.to_nat (len a)) (text (name a)) (text (name b)) in
        Ok (if r =? 0 then 1 else 0)
  | _, _ => Ok 0
  end.

Definition fold_case (c : Z) : Z := if (65 <=? c) && (c <=? 90) then c + 32 else c.

(** The two loops over the common length; [None] when it ends without a difference. *)
Fixpoint case_loop (n : nat) (s1 s2 : list Z) : outcome (option Z) :=
  match n with
  | O => Ok None
  | S n =>
      match s1, s2 with
      | ca :: s1, cb :: s2 =>
          let ca := fold_case ca in
          let cb := fold_case cb in
          if ca <? cb then Ok (Some (-1))
          else if cb <? ca then Ok (Some 1)
          else case_loop n s1 s2
      | _, _ => Fault
      end
  end.

Definition qstr_case_compare (a b : option qstr) : outcome Z :=
  match a with
  | None => Ok (if b is Some _ then -1 else 0)
  | Some a =>
      if is_null (name a) then Ok (if b is Some _ then -1 else 0)
      else
        match b with
        | None => Ok 1
        | Some b =>
            if is_null (name b) then Ok 1
            else
              let! d := case_loop (Z.to_nat (Z.min (len a) (len b))) (text (name a)) (text (name b)) in
              match d with
              | Some d => Ok d
              | None =>
                  if len a <? len b then Ok (-1)
                  else if len b <? len a then Ok 1
                  else Ok 0
              end
        end
  end.

Fixpoint case_eq_loop (n : nat) (s1 s2 : list Z) : outcome Z :=
  match n with
  | O => Ok 1
  | S n =>
      match s1, s2 with
      | ca :: s1, cb :: s2 =>
          if negb (fold_case ca =? fold_case cb) then Ok 0
          else case_eq_loop n s1 s2
      | _, _ => Fault
      end
  end.

Definition qstr_case_eq (a b : option qstr) : outcome Z :=
  match a, b with
  | Some a, Some b =>
      if negb (len a =? len b) then Ok 0
      else case_eq_loop (Z.to_nat (len a)) (text (name a)) (text (name b))
  | _, _ => Ok 0
  end.

Definition qstr_prefix_compare (prefix str : option qstr) : outcome Z :=
  match prefix, str with
  | Some prefix, Some str =>
      if len str <? len prefix then Ok 0
      else
        let! r := text_memcmp (Z.to_nat (len prefix)) (text (name prefix)) (text (name str)) in
        Ok (if r =? 0 then 1 else 0)
  | _, _ => Ok 0
  end.

(** ** The contents of a string *)

Definition contents (q : qstr) : list Z := take (Z.to_nat (len q)) (text (name q)).

(** A string made by the functions above: its length lies within its text. *)
Record qstr_ok (alg : Z) (q : qstr) : Prop := {
  qo_addr : addr (name q) ≠ 0;
  qo_len : 0 ≤ len q ≤ Z.of_nat (length (text (name q)));
  qo_hash : qstr_hash alg (name q) (len q) = Ok (hash q);
}.

Lemma hash_loop_ok round n s h : (n ≤ length s)%nat → hash_loop round n s h = Ok (foldl round h (take n s)).
Proof.
  revert s h. induction n as [|n IH]; intros [|c s] h Hn; cbn in *; try done; [lia|]. apply IH. lia.
Qed.

Lemma text_memcmp_ok n s1 s2 :
  (n ≤ length s1)%nat → (n ≤ length s2)%nat → text_memcmp n s1 s2 = Ok (str_diff (take n s1) (take n s2)).
Proof.
  revert s1 s2. induction n as [|n IH]; intros [|a s1] [|b s2] H1 H2; cbn in *; try done; try lia.
  destruct (a =? b); cbn; [apply IH; lia|done].
Qed.

(** What the bytes say is what [memcmp] computes on any memory that holds them. *)
Lemma memcmp_mem m a b n r :
  bytes_at m (addr a) (text a) → bytes_at m (addr b) (text b) → 0 ≤ n →
  text_memcmp (Z.to_nat n) (text a) (text b) = Ok r → memcmp (addr a) (addr b) n m = Ok r.
Proof.
  assert (∀ k s1 s2 p1 p2, bytes_at m p1 s1 → bytes_at m p2 s2 → text_memcmp k s1 s2 = Ok r →
    memcmp_loop k p1 p2 m = Ok r ∧ (p1 = p2 → r = 0)) as Hloop.
  { induction k as [|k IH]; intros s1 s2 p1 p2 H1 H2; cbn; [intros [= <-]; done|].
    destruct s1 as [|x s1], s2 as [|y s2]; try done. destruct H1 as [Hx H1], H2 as [Hy H2].
    rewrite (load8_ok _ _ _ Hx), (load8_ok _ _ _ Hy). cbn [obind].
    destruct (Z.eqb_spec x y) as [->|Hne]; cbn.
    - intros E. destruct (IH s1 s2 (p1 + 1) (p2 + 1) H1 H2 E) as [E' Hr]. split; [done|]. intros ->. by apply Hr.
    - intros [= <-]. split; [done|]. intros ->. congruence. }
  intros Ha Hb Hn E. destruct (Hloop _ _ _ _ _ Ha Hb E) as [E' Hr]. unfold memcmp.
  destruct (Z.eqb_spec (addr a) (addr b)) as [Heq|]; cbn [orb]; [by rewrite Hr|].
  destruct (Z.eqb_spec n 0) as [->|]; [|done]. cbn in E. by injection E as <-.
Qed.

Lemma contents_hash alg a b : qstr_ok alg a → qstr_ok alg b → contents a = contents b → hash a = hash b.
Proof.
  intros [Ha Hla Hha] [Hb Hlb Hhb] E. unfold qstr_hash, is_null in *.
  rewrite (proj2 (Z.eqb_neq _ 0)) in Hha by done. rewrite (proj2 (Z.eqb_neq _ 0)) in Hhb by done.
  unfold djbx33a_hash, fnv1a_hash in *. rewrite !hash_loop_ok in Hha, Hhb by lia.
  unfold contents in E. rewrite E in Hha. destruct (alg =? _); congruence.
Qed.

Lemma contents_length q : 0 ≤ len q ≤ Z.of_nat (length (text (name q))) → Z.of_nat (length (contents q)) = len q.
Proof. intros H. unfold contents. rewrite length_take. lia. Qed.

Lemma lex_lt_irrefl l : ~ lex_lt l l.
Proof. induction l as [|a l IH]; cbn; [tauto|]. intros [?|[_ ?]]; [lia|tauto]. Qed.

Lemma lex_lt_trans l1 l2 l3 : lex_lt l1 l2 → lex_lt l2 l3 → lex_lt l1 l3.
Proof.
  revert l2 l3. induction l1 as [|a l1 IH]; intros [|b l2] [|c l3]; cbn; try tauto.
  intros [?|[-> H1]] [?|[-> H2]]; [left; lia|left; lia|left; lia|right; split; [done|by apply (IH l2)]].
Qed.

(** Comparing the common part and then the lengths is the lexicographic order. *)
Lemma lex_common l1 l2 k :
  k = Nat.min (length l1) (length l2) →
  let d := str_diff (take k l1) (take k l2) in
  (lex_lt l1 l2 ↔ d < 0 ∨ d = 0 ∧ (length l1 < length l2)%nat) ∧ (l1 = l2 ↔ d = 0 ∧ length l1 = length l2).
Proof.
  intros ->. revert l2. induction l1 as [|a l1 IH]; intros [|b l2]; cbn.
  - split; [lia|tauto].
  - split; [split; [intros _; right; split; [done|lia]|tauto]|split; [done|intros []; done]].
  - split; [lia|split; [done|intros []; done]].
  - destruct (IH l2) as [H1 H2]. destruct (Z.eqb_spec a b) as [->|Hne].
    + split; [rewrite <-Nat.succ_lt_mono, <-H1; split; [intros [?|[_ ?]]; [lia|done]|tauto]|].
      rewrite Nat.succ_inj_wd, <-H2. split; congruence.
    + split; [lia|]. split; [congruence|]. intros [? _]. lia.
Qed.

(** The order [qstr_compare] decides: by hash first, then lexicographically. *)
Definition qstr_lt (a b : qstr) : Prop := hash a < hash b ∨ hash a = hash b ∧ lex_lt (contents a) (contents b).

Lemma qstr_lt_trans a b c : qstr_lt a b → qstr_lt b c → qstr_lt a c.
Proof.
  intros [?|[E1 H1]] [?|[E2 H2]]; [left; lia..|right]. split; [lia|]. by apply (lex_lt_trans _ (contents b)).
Qed.

(** The bytes with upper-case letters folded, the common part of two strings. *)
Definition folded (q : qstr) : list Z := fold_case <$> contents q.

Lemma take_contents k q : (k ≤ Z.to_nat (len q))%nat → take k (contents q) = take k (text (name q)).
Proof. intros. unfold contents. rewrite take_take. f_equal. lia. Qed.

Lemma case_loop_ok n s1 s2 :
  (n ≤ length s1)%nat → (n ≤ length s2)%nat →
  let d := str_diff (take n (fold_case <$> s1)) (take n (fold_case <$> s2)) in
  case_loop n s1 s2 = Ok (if d <? 0 then Some (-1) else if 0 <? d then Some 1 else None).
Proof.
  revert s1 s2. induction n as [|n IH]; intros [|a s1] [|b s2] H1 H2; cbn in *; try done; try lia.
  destruct (Z.ltb_spec (fold_case a) (fold_case b)), (Z.ltb_spec (fold_case b) (fold_case a)); try lia.
  - rewrite (proj2 (Z.eqb_neq _ _)), (proj2 (Z.ltb_lt _ 0)) by lia. done.
  - rewrite (proj2 (Z.eqb_neq _ _)), (proj2 (Z.ltb_ge _ 0)), (proj2 (Z.ltb_lt 0 _)) by lia. done.
  - rewrite (proj2 (Z.eqb_eq _ _)) by lia. apply IH; lia.
Qed.

Lemma case_eq_loop_ok n s1 s2 :
  (n ≤ length s1)%nat → (n ≤ length s2)%nat →
  case_eq_loop n s1 s2 = Ok (if bool_decide (take n (fold_case <$> s1) = take n (fold_case <$> s2)) then 1 else 0).
Proof.
  revert s1 s2. induction n as [|n IH]; intros [|a s1] [|b s2] H1 H2; cbn in *; try done; try lia.
  destruct (Z.eqb_spec (fold_case a) (fold_case b)) as [E|Hne]; cbn.
  - rewrite IH by lia. case_bool_decide as E1; case_bool_decide as E2; congruence.
  - rewrite bool_decide_eq_false_2 by congruence. done.
Qed.

(** A comparison of two wrapped lists, read off the difference of their common part. *)
Lemma sign_cases (l1 l2 : list Z) (d la lb : Z) (k : nat) :
  k = Nat.min (length l1) (length l2) → d = str_diff (take k l1) (take k l2) →
  la = Z.of_nat (length l1) → lb = Z.of_nat (length l2) →
  (lex_lt l1 l2 ↔ d < 0 ∨ d = 0 ∧ la < lb) ∧ (l1 = l2 ↔ d = 0 ∧ la = lb) ∧ (lex_lt l2 l1 ↔ 0 < d ∨ d = 0 ∧ lb < la).
Proof.
  intros Hk -> -> ->. destruct (lex_common l1 l2 k Hk) as [H1 H2].
  destruct (lex_common l2 l1 k) as [H3 _]; [lia|].
  assert (∀ x y, str_diff x y = - str_diff y x) as Hanti.
  { induction x as [|a x IH]; intros [|b y]; cbn; try lia. rewrite (Z.eqb_sym b a). destruct (a =? b); [apply IH|lia]. }
  rewrite (Hanti (take k l2)) in H3. cbn zeta in *. rewrite H1, H2, H3. lia.
Qed.

Definition decides (m : outcome Z) (lt eq gt : Prop) : Prop :=
  ∃ r, m = Ok r ∧ (r < 0 ↔ lt) ∧ (r = 0 ↔ eq) ∧ (0 < r ↔ gt).

Lemma qstr_compare_ok alg a b :
  qstr_ok alg a → qstr_ok alg b →
  decides (qstr_compare (Some a) (Some b)) (qstr_lt a b) (contents a = contents b) (qstr_lt b a).
Proof.
  intros Ha Hb. pose proof (contents_hash _ _ _ Ha Hb) as Hh. destruct Ha as [Ha Hla _], Hb as [Hb Hlb _].
  pose proof (contents_length a Hla) as La. pose proof (contents_length b Hlb) as Lb.
  unfold decides, qstr_compare, qstr_lt, is_null. rewrite !(proj2 (Z.eqb_neq _ 0)) by done.
  destruct (Z.ltb_spec (hash a) (hash b)); [exists (-1); split; [done|]; intuition lia|].
  destruct (Z.ltb_spec (hash b) (hash a)); [exists 1; split; [done|]; intuition lia|].
  set (k := Z.to_nat _). assert (k = Nat.min (length (contents a)) (length (contents b))) as Hk.
  { subst k. destruct (Z.ltb_spec (len a) (len b)); lia. }
  rewrite text_memcmp_ok, <-(take_contents k a), <-(take_contents k b) by lia. cbn [obind].
  set (d := str_diff _ _).
  destruct (sign_cases (contents a) (contents b) d (len a) (len b) k Hk eq_refl ltac:(lia) ltac:(lia)) as (H1 & H2 & H3).
  exists (if negb (d =? 0) then d else if len a <? len b then -1 else if len b <? len a then 1 else 0).
  rewrite H1, H2, H3. destruct (Z.eqb_spec d 0), (Z.ltb_spec (len a) (len b)), (Z.ltb_spec (len b) (len a)); cbn;
    (split; [done|lia]).
Qed.

Lemma qstr_case_compare_ok alg a b :
  qstr_ok alg a → qstr_ok alg b →
  decides (qstr_case_compare (Some a) (Some b)) (lex_lt (folded a) (folded b)) (folded a = folded b) (lex_lt (folded b) (folded a)).
Proof.
  intros [Ha Hla _] [Hb Hlb _]. pose proof (contents_length a Hla) as La. pose proof (contents_length b Hlb) as Lb.
  unfold decides, qstr_case_compare, is_null. rewrite !(proj2 (Z.eqb_neq _ 0)) by done.
  set (k := Z.to_nat _). assert (k = Nat.min (length (folded a)) (length (folded b))) as Hk.
  { unfold folded. rewrite !length_fmap. subst k. lia. }
  rewrite case_loop_ok by lia. cbn [obind]. set (d := str_diff _ _).
  assert (∀ q, (k ≤ Z.to_nat (len q))%nat → take k (folded q) = take k (fold_case <$> text (name q))) as Htk.
  { intros q Hq. unfold folded. rewrite <-!fmap_take. f_equal. by apply take_contents. }
  destruct (sign_cases (folded a) (folded b) d (len a) (len b) k Hk) as (H1 & H2 & H3).
  { subst d. rewrite !Htk by lia. done. }
  { unfold folded. rewrite length_fmap. lia. }
  { unfold folded. rewrite length_fmap. lia. }
  exists (if d <? 0 then -1 else if 0 <? d then 1 else if len a <? len b then -1 else if len b <? len a then 1 else 0).
  rewrite H1, H2, H3.
  destruct (Z.ltb_spec d 0), (Z.ltb_spec 0 d), (Z.ltb_spec (len a) (len b)), (Z.ltb_spec (len b) (len a)); cbn;
    (split; [done|lia]).
Qed.

Lemma str_diff_eq l1 l2 : length l1 = length l2 → (str_diff l1 l2 =? 0) = bool_decide (l1 = l2).
Proof.
  revert l2. induction l1 as [|a l1 IH]; intros [|b l2] Hl; cbn in *; try done; try lia.
  destruct (Z.eqb_spec a b) as [->|Hne].
  - rewrite IH by lia. case_bool_decide as E1; case_bool_decide as E2; congruence.
  - rewrite bool_decide_eq_false_2 by congruence. apply Z.eqb_neq. lia.
Qed.

Section Equal.
Context (alg : Z) (a b : qstr) (Ha : qstr_ok alg a) (Hb : qstr_ok alg b).

Lemma memcmp_contents k :
  (k ≤ Z.to_nat (len a))%nat → (k ≤ Z.to_nat (len b))%nat →
  text_memcmp k (text (name a)) (text (name b)) = Ok (str_diff (take k (contents a)) (take k (contents b))).
Proof.
  pose proof (qo_len _ _ Ha). pose proof (qo_len _ _ Hb). intros H1 H2. rewrite text_memcmp_ok, !take_contents by lia. done.
Qed.

Lemma qstr_eq_ok : qstr_eq (Some a) (Some b) = Ok (if bool_decide (contents a = contents b) then 1 else 0).
Proof.
  pose proof (contents_length a (qo_len _ _ Ha)) as La. pose proof (contents_length b (qo_len _ _ Hb)) as Lb.
  unfold qstr_eq. destruct (Z.eqb_spec (len a) (len b)) as [El|El]; cbn [negb].
  - rewrite memcmp_contents, !take_ge by lia. cbn [obind]. rewrite str_diff_eq by lia.
    destruct (Z.eqb_spec (hash a) (hash b)) as [|Hne]; cbn [negb]; [by case_bool_decide|].
    rewrite bool_decide_eq_false_2; [done|]. intros E. by apply Hne, (contents_hash alg).
  - rewrite bool_decide_eq_false_2; [by destruct (hash a =? hash b)|]. intros E. rewrite E in La. lia.
Qed.

Lemma qstr_case_eq_ok : qstr_case_eq (Some a) (Some b) = Ok (if bool_decide (folded a = folded b) then 1 else 0).
Proof.
  pose proof (contents_length a (qo_len _ _ Ha)) as La. pose proof (contents_length b (qo_len _ _ Hb)) as Lb.
  pose proof (qo_len _ _ Ha). pose proof (qo_len _ _ Hb).
  unfold qstr_case_eq. destruct (Z.eqb_spec (len a) (len b)) as [El|El]; cbn [negb].
  - rewrite case_eq_loop_ok by lia. unfold folded, contents. rewrite !fmap_take, <-El. done.
  - rewrite bool_decide_eq_false_2; [done|]. intros E%(f_equal length). unfold folded in E. rewrite !length_fmap in E. lia.
Qed.

Lemma qstr_prefix_ok :
  qstr_prefix_compare (Some a) (Some b) = Ok (if bool_decide (contents a `prefix_of` contents b) then 1 else 0).
Proof.
  pose proof (contents_length a (qo_len _ _ Ha)) as La. pose proof (contents_length b (qo_len _ _ Hb)) as Lb.
  unfold qstr_prefix_compare. destruct (Z.ltb_spec (len b) (len a)).
  - rewrite bool_decide_eq_false_2; [done|]. intros E%prefix_length. lia.
  - rewrite memcmp_contents, (take_ge (contents a)) by lia. cbn [obind].
    rewrite str_diff_eq by (rewrite length_take; lia).
    rewrite (bool_decide_ext (contents a = _) (contents a `prefix_of` contents b)); [by case_bool_decide|]. split.
    + intros ->. apply prefix_take.
    + intros [l ->]. rewrite take_app_le, take_ge by lia. done.
Qed.
End Equal.

(** On strings made with one hash algorithm the comparisons are functions of the
    contents: [qstr_compare] decides a strict total order in which only strings with
    equal contents are equal, [qstr_eq] equality and [qstr_prefix_compare] the prefix
    relation, and the two functions that ignore case decide the lexicographic order and
    equality of the folded contents. *)
Theorem qstr_comparisons alg a b :
  qstr_ok alg a → qstr_ok alg b →
  decides (qstr_compare (Some a) (Some b)) (qstr_lt a b) (contents a = contents b) (qstr_lt b a) ∧
  (∀ c, qstr_lt a b → qstr_lt b c → qstr_lt a c) ∧
  decides (qstr_case_compare (Some a) (Some b)) (lex_lt (folded a) (folded b)) (folded a = folded b) (lex_lt (folded b) (folded a)) ∧
  qstr_eq (Some a) (Some b) = Ok (if bool_decide (contents a = contents b) then 1 else 0) ∧
  qstr_case_eq (Some a) (Some b) = Ok (if bool_decide (folded a = folded b) then 1 else 0) ∧
  qstr_prefix_compare (Some a) (Some b) = Ok (if bool_decide (contents a `prefix_of` contents b) then 1 else 0).
Proof.
  intros Ha Hb. split; [by apply (qstr_compare_ok alg)|]. split; [intros c; apply qstr_lt_trans|].
  split; [by apply (qstr_case_compare_ok alg)|]. split; [by apply (qstr_eq_ok alg)|].
  split; [by apply (qstr_case_eq_ok alg)|by apply (qstr_prefix_ok alg)].
Qed.

(** A string made by [qstr_create_with_length] is well formed when the length given is
    within the string. *)
Lemma qstr_create_ok {A} {KM : KMalloc A} alg s (l : list Z) n (a a' : A) p q :
  byte_list l → text s = l ++ [0] → 0 ≤ n ≤ Z.of_nat (length l) →
  qstr_create_with_length alg s n a = Ok (p, Some q, a') →
  p ≠ 0 ∧ qstr_ok alg q ∧ contents q = take (Z.to_nat n) l ∧ len q = n ∧
  ∃ a1, kmalloc QSTR_SIZE a = (p, a1) ∧ kmalloc (u64 (Z.of_nat (length l) + 1)) a1 = (addr (name q), a').
Proof.
  intros Hl Ht Hn. unfold qstr_create_with_length, is_null. destruct (Z.eqb_spec (addr s) 0) as [|Hs]; [done|].
  destruct (kmalloc QSTR_SIZE a) as [q0 a1] eqn:E1. destruct (Z.eqb_spec q0 0) as [|Hq]; [done|].
  assert (text_strlen (text s) = Ok (Z.of_nat (length l))) as El.
  { rewrite Ht. clear Ht Hn. induction Hl as [|c l Hc _ IH]; cbn; [done|]. rewrite (proj2 (Z.eqb_neq c 0)), IH by lia. cbn. f_equal. lia. }
  unfold dup_string, is_null. rewrite (proj2 (Z.eqb_neq _ 0)), El by done. cbn [obind].
  destruct (kmalloc (u64 (Z.of_nat (length l) + 1)) a1) as [b a2] eqn:E2.
  destruct (Z.eqb_spec b 0) as [|Hb]; [done|]. cbn [obind addr]. rewrite (proj2 (Z.eqb_neq b 0)) by done.
  assert (take (Z.to_nat (Z.of_nat (length l))) (text s) = l) as Htk by (rewrite Ht, Nat2Z.id, take_app_length; done).
  rewrite Htk. destruct (qstr_hash alg s n) as [h| | |] eqn:Eh; cbn [obind]; try done.
  intros [= <- <- <-]. split; [done|]. split; [|split; [|split; [done|]]].
  - split; cbn [name addr text len hash]; [done|rewrite length_app; cbn; lia|].
    unfold qstr_hash, is_null in *. cbn [addr text] in *.
    rewrite (proj2 (Z.eqb_neq _ 0)) in Eh by done. rewrite (proj2 (Z.eqb_neq _ 0)) by done. by rewrite Ht in Eh.
  - unfold contents. cbn. rewrite take_app_le by lia. done.
  - exists a1. split; [done|exact E2].
Qed.

Lemma qstr_comparisons_witness :
  let a := Qstr (CharP 4096 [76; 105; 98; 0]) 3 (fnv1a_round (fnv1a_round (fnv1a_round 2166136261 76) 105) 98) in
  let b := Qstr (CharP 8192 [108; 105; 98; 0]) 3 (fnv1a_round (fnv1a_round (fnv1a_round 2166136261 108) 105) 98) in
  qstr_eq (Some a) (Some b) = Ok 0 ∧ qstr_case_eq (Some a) (Some b) = Ok 1 ∧
  decides (qstr_compare (Some a) (Some b)) (qstr_lt a b) (contents a = contents b) (qstr_lt b a).
Proof.
  intros a b.
  assert (qstr_ok 0 a) as Ha by (split; [done|cbn; lia|reflexivity]).
  assert (qstr_ok 0 b) as Hb by (split; [done|cbn; lia|reflexivity]).
  destruct (qstr_comparisons 0 a b Ha Hb) as (H1 & _ & _ & H2 & H3 & _). split; [exact H2|]. split; [exact H3|exact H1].
Defined.
