(* ===== verification/Inode.v ===== *)
(** * Inodes, their state lists and the inode cache ([kernel/fs/vfs/inode.c],
      [kernel/fs/vfs/icache.c], part of [kernel/fs/vfs/superblock.c])

    Inodes and superblocks live in maps from addresses to records. Their list heads
    and nodes are cells of the memory the hash tables work in, at the offsets of the
    structures, so an inode is on the lists of its superblock and in a bucket of the
    cache at once. What the file system does behind its function pointers is the
    interface [SuperOps], on a state of its own. Locks and time stamps are left out. *)

From stdpp Require Import base gmap list.
From S2P Require Import Prelude ListHead KString Hashtable.
Local Open Scope Z_scope.
Local Open Scope kernel_scope.

Definition I_DIRTY : Z := 1.
Definition I_NEW : Z := 2.
Definition I_FREEING : Z := 64.

Definition MAY_EXEC : Z := 1.
Definition MAY_WRITE : Z := 2.
Definition MAY_READ : Z := 4.

Definition MS_RDONLY : Z := 1.
Definition S_IFMT : Z := 61440.
Definition S_ISDIR (mode : Z) : bool := Z.land mode S_IFMT =? 16384.
Definition S_ISCHR (mode : Z) : bool := Z.land mode S_IFMT =? 8192.
Definition S_ISBLK (mode : Z) : bool := Z.land mode S_IFMT =? 24576.

(** [x & flag] as a condition. *)
Definition has (flag x : Z) : bool := negb (Z.land x flag =? 0).

Record inode := Inode {
  i_mode : Z;
  i_uid : Z;
  i_gid : Z;
  i_size : Z;
  i_nlink : Z;
  i_superblock : Z;
  i_ino : Z;
  i_op : Z;
  i_refcount : Z;
  i_state : Z;
  i_fs_info : Z;
  i_data : Z;
}.

Record superblock := Superblock {
  s_flags : Z;
  s_operations : Z;
  s_refcount : Z;
  s_next_ino : Z;
  s_root : Z;
  s_fs_info : Z;
  s_device_id : Z;
  s_fstype : Z;
}.

(** Offsets of the members that are linked into lists. *)
Definition I_KEY : Z := 120.
Definition I_S_LIST : Z := 136.
Definition I_STATE_LIST : Z := 152.
Definition I_HASH : Z := 168.
Definition I_DENTRIES : Z := 224.
Definition INODE_SIZE : Z := 256.
Definition S_FSTYPE : Z := 56.
Definition S_ALL : Z := 192.
Definition S_CLEAN : Z := 216.
Definition S_DIRTY : Z := 232.

Definition set_i_refcount (n : Z) (i : inode) : inode :=
  Inode (i_mode i) (i_uid i) (i_gid i) (i_size i) (i_nlink i) (i_superblock i) (i_ino i) (i_op i) n (i_state i) (i_fs_info i) (i_data i).
Definition set_i_state (n : Z) (i : inode) : inode :=
  Inode (i_mode i) (i_uid i) (i_gid i) (i_size i) (i_nlink i) (i_superblock i) (i_ino i) (i_op i) (i_refcount i) n (i_fs_info i) (i_data i).
Definition set_s_refcount (n : Z) (s : superblock) : superblock :=
  Superblock (s_flags s) (s_operations s) n (s_next_ino s) (s_root s) (s_fs_info s) (s_device_id s) (s_fstype s).
Definition set_s_next_ino (n : Z) (s : superblock) : superblock :=
  Superblock (s_flags s) (s_operations s) (s_refcount s) n (s_root s) (s_fs_info s) (s_device_id s) (s_fstype s).

(** The inode [memset] and the assignments of [superblock_createInode] leave. *)
Definition blank_inode (sb ino : Z) : inode := Inode 0 0 0 0 0 sb ino 0 0 0 0 0.

(** The function pointers of [struct superblock_operations] and the [permission] of
    [struct inode_operations], by the address of the structure; [None] is a null
    pointer. *)
Class SuperOps (W : Type) : Type := {
  op_get_next_ino : Z → option (Z → W → Z * W);
  op_alloc_inode : Z → option (Z → Z → W → Z * W);
  op_read_inode : Z → option (Z → inode → W → inode * W);
  op_write_inode : Z → option (Z → Z → W → Z * W);
  op_evict_inode : Z → option (Z → W → W);
  op_sync_fs : Z → option (Z → Z → W → Z * W);
  op_put_super : Z → option (Z → W → W);
  op_permission : Z → option (Z → Z → W → Z * W);
}.

(** [p->op && p->op->f]: the function behind a table that may be null. *)
Definition hook {F : Type} (op : Z → option F) (table : Z) : option F :=
  if table =? 0 then None else op table.

Section Inode.
Context {A : Type} {KM : KMalloc A} {W : Type} {SO : SuperOps W}.

Record vfs := Vfs {
  inodes : gmap Z inode;
  supers : gmap Z superblock;
  hm : @hmem A;
  itab : hashtable;
  fs : W;
}.

Definition set_inodes (x : gmap Z inode) (v : vfs) : vfs := Vfs x (supers v) (hm v) (itab v) (fs v).
Definition set_supers (x : gmap Z superblock) (v : vfs) : vfs := Vfs (inodes v) x (hm v) (itab v) (fs v).
Definition set_hm (x : @hmem A) (v : vfs) : vfs := Vfs (inodes v) (supers v) x (itab v) (fs v).
Definition set_itab (x : hashtable) (v : vfs) : vfs := Vfs (inodes v) (supers v) (hm v) x (fs v).
Definition set_fs (x : W) (v : vfs) : vfs := Vfs (inodes v) (supers v) (hm v) (itab v) x.

Definition lists (v : vfs) : store := cells (hm v).
Definition set_lists (c : store) (v : vfs) : vfs := set_hm (set_cells c (hm v)) v.
Definition on_lists (f : store → outcome store) (v : vfs) : outcome vfs :=
  let! c := f (lists v) in Ok (set_lists c v).

Definition get_inode (x : Z) (v : vfs) : outcome inode := of_option (inodes v !! x).
Definition put_inode (x : Z) (i : inode) (v : vfs) : vfs := set_inodes (<[x := i]> (inodes v)) v.
Definition get_super (s : Z) (v : vfs) : outcome superblock := of_option (supers v !! s).
Definition put_super (s : Z) (b : superblock) (v : vfs) : vfs := set_supers (<[s := b]> (supers v)) v.

(** ** Permissions; [euid] is that of the calling task *)

Definition current_group_matches (gid : Z) : bool := true.

Definition inode_isReadonly (i : inode) (v : vfs) : outcome bool :=
  if i_superblock i =? 0 then Ok false
  else let! b := get_super (i_superblock i) v in Ok (has MS_RDONLY (s_flags b)).

Definition inode_isImmutable (i : inode) : bool := false.

(** The three tests on the bits of the caller's class; the last one that fails is
    the result of [generic_permission], and all three give the same. *)
Definition mode_denies (mask mode : Z) : bool :=
  (has MAY_READ mask && negb (has 4 mode)) || (has MAY_WRITE mask && negb (has 2 mode)) ||
  (has MAY_EXEC mask && negb (has 1 mode)).

(** The mode shifted to the bits of the caller's class. *)
Definition class_mode (euid : Z) (i : inode) : Z :=
  if euid =? i_uid i then Z.shiftr (i_mode i) 6
  else if current_group_matches (i_gid i) then Z.shiftr (i_mode i) 3
  else i_mode i.

Definition generic_permission (euid x mask : Z) (v : vfs) : outcome Z :=
  let! i := get_inode x v in
  if euid =? 0 then Ok 0
  else
    let! ro := (if has MAY_WRITE mask then inode_isReadonly i v else Ok false) in
    if ro then Ok (- EROFS)
    else if mode_denies mask (class_mode euid i) then Ok (- EACCES)
    else Ok 0.

(** The file system's own test, unless it has none or answers [-EAGAIN]. *)
Definition ask_fs (x mask : Z) (i : inode) (v : vfs) : option Z * vfs :=
  match hook op_permission (i_op i) with
  | None => (None, v)
  | Some f =>
      let (r, w) := f x mask (fs v) in
      (if r =? - EAGAIN then None else Some r, set_fs w v)
  end.

Definition inode_checkPermission (euid x mask : Z) (v : vfs) : outcome (Z * vfs) :=
  if x =? 0 then Ok (- EINVAL, v)
  else
    let! i := get_inode x v in
    if S_ISCHR (i_mode i) || S_ISBLK (i_mode i) then Ok (0, v)
    else
      let (r, v) := ask_fs x mask i v in
      match r with
      | Some r => Ok (r, v)
      | None => let! r := generic_permission euid x mask v in Ok (r, v)
      end.

Definition inode_permission (euid x mask : Z) (v : vfs) : outcome (Z * vfs) :=
  if x =? 0 then Ok (- EINVAL, v)
  else
    let! i := get_inode x v in
    if euid =? 0 then
      if has MAY_WRITE mask && inode_isImmutable i then Ok (- EPERM, v) else Ok (0, v)
    else
      let (r, v) := ask_fs x mask i v in
      match r with
      | Some r => Ok (r, v)
      | None =>
          let! ro := (if has MAY_WRITE mask then inode_isReadonly i v else Ok false) in
          if ro then Ok (- EROFS, v)
          else if mode_denies mask (class_mode euid i) then Ok (- EACCES, v)
          else Ok (0, v)
      end.

(** ** References and state lists *)

Definition inode_isBad (i : inode) : bool := i_op i =? 0.

Definition inode_ref (x : Z) (v : vfs) : outcome (Z * vfs) :=
  if x =? 0 then Ok (0, v)
  else
    let! i := get_inode x v in
    if inode_isBad i then Ok (0, v)
    else Ok (x, put_inode x (set_i_refcount (s32 (i_refcount i + 1)) i) v).

(** Take an inode off the state list it is on, if any. *)
Definition leave_state_list (x : Z) (v : vfs) : outcome vfs :=
  let! e := list_empty (x + I_STATE_LIST) (lists v) in
  if negb e then on_lists (list_del_init (x + I_STATE_LIST)) v else Ok v.

Definition inode_unref (x : Z) (v : vfs) : outcome vfs :=
  if x =? 0 then Ok v
  else
    let! i := get_inode x v in
    let i := set_i_refcount (s32 (i_refcount i - 1)) i in
    let v := put_inode x i v in
    if i_refcount i =? 0 then
      if negb (has I_DIRTY (i_state i)) then
        let! v := leave_state_list x v in
        on_lists (list_add_tail (x + I_STATE_LIST) (i_superblock i + S_CLEAN)) v
      else Ok v
    else Ok v.

Definition inode_setDirty (x : Z) (v : vfs) : outcome vfs :=
  if x =? 0 then Ok v
  else
    let! i := get_inode x v in
    if negb (has I_DIRTY (i_state i)) && negb (i_superblock i =? 0) then
      let! v := leave_state_list x v in
      let v := put_inode x (set_i_state (Z.lor (i_state i) I_DIRTY) i) v in
      on_lists (list_add (x + I_STATE_LIST) (i_superblock i + S_DIRTY)) v
    else Ok v.

Definition clear_flag (flag x : Z) : Z := Z.land x (u64 (Z.lnot flag)).

(** Move a written inode from the dirty to the clean list. *)
Definition make_clean (x : Z) (del : Z → store → outcome store) (v : vfs) : outcome vfs :=
  let! v := on_lists (del (x + I_STATE_LIST)) v in
  let! i := get_inode x v in
  let v := put_inode x (set_i_state (clear_flag I_DIRTY (i_state i)) i) v in
  on_lists (list_add (x + I_STATE_LIST) (i_superblock i + S_CLEAN)) v.

(** The [write_inode] of an inode's superblock, 0 when there is none. *)
Definition call_write (x wait s : Z) (v : vfs) : outcome (Z * vfs) :=
  if s =? 0 then Ok (0, v)
  else
    let! b := get_super s v in
    match hook op_write_inode (s_operations b) with
    | None => Ok (0, v)
    | Some f => let (r, w) := f x wait (fs v) in Ok (r, set_fs w v)
    end.

Definition inode_sync (x wait : Z) (v : vfs) : outcome (Z * vfs) :=
  if x =? 0 then Ok (- EINVAL, v)
  else
    let! i := get_inode x v in
    if negb (has I_DIRTY (i_state i)) then Ok (0, v)
    else
      let! (ret, v) := call_write x wait (i_superblock i) v in
      if (ret =? 0) && negb (wait =? 0) then
        let! i := get_inode x v in
        if has I_DIRTY (i_state i) then
          let! v := make_clean x list_del_init v in Ok (ret, v)
        else Ok (ret, v)
      else Ok (ret, v).

Definition inode_sync_metadata (x wait : Z) (v : vfs) : outcome (Z * vfs) := inode_sync x wait v.

Definition unlock_new_inode (x : Z) (v : vfs) : outcome (Z * vfs) :=
  if x =? 0 then Ok (- EINVAL, v)
  else
    let! i := get_inode x v in
    if negb (has I_NEW (i_state i)) then Ok (- EINVAL, v)
    else Ok (0, put_inode x (set_i_state (clear_flag I_NEW (i_state i)) i) v).

(** ** Creation and destruction *)

(** The list members of an inode come and go with its memory. *)
Definition inode_cells (x : Z) : list Z := [x + I_S_LIST; x + I_STATE_LIST; x + I_HASH; x + I_DENTRIES].

Definition new_inode (x : Z) (i : inode) (v : vfs) : vfs :=
  put_inode x i (set_lists (foldr (λ p c, <[p := ListHead 0 0]> c) (lists v) (inode_cells x)) v).

Definition kfree_at (p : Z) (v : vfs) : vfs :=
  let m := hm v in set_hm (HMem (cells m) (statics m) (kfree p (heap m))) v.

Definition drop_inode (x : Z) (v : vfs) : vfs :=
  kfree_at x (set_inodes (delete x (inodes v)) (set_lists (foldr delete (lists v) (inode_cells x)) v)).

Definition __inode__free (x : Z) (v : vfs) : outcome vfs :=
  if x =? 0 then Ok v
  else
    let! i := get_inode x v in
    let v := put_inode x (set_i_state 0 i) v in
    let! v :=
      (if negb (i_superblock i =? 0) then
         let! v := on_lists (list_del_init (x + I_S_LIST)) v in
         on_lists (list_del_init (x + I_STATE_LIST)) v
       else Ok v) in
    let v := if i_fs_info i =? 0 then v else kfree_at (i_fs_info i) v in
    let v := if i_data i =? 0 then v else kfree_at (i_data i) v in
    Ok (drop_inode x v).

Definition evict_inode (x : Z) (v : vfs) : outcome vfs :=
  if x =? 0 then Ok v
  else
    let! i := get_inode x v in
    let v := put_inode x (set_i_state (Z.lor (i_state i) I_FREEING) i) v in
    let! v :=
      (if i_superblock i =? 0 then Ok v
       else
         let! b := get_super (i_superblock i) v in
         match hook op_evict_inode (s_operations b) with
         | None => Ok v
         | Some f => Ok (set_fs (f x (fs v)) v)
         end) in
    __inode__free x v.

Definition PTR_IS_INVALID (p : Z) : bool := (p =? 0) || PTR_IS_ERROR p.

(** The inode number and the memory for a new inode. *)
Definition next_ino (s : Z) (b : superblock) (v : vfs) : Z * vfs :=
  match hook op_get_next_ino (s_operations b) with
  | Some f => let (n, w) := f s (fs v) in (n, set_fs w v)
  | None => let n := s64 (s_next_ino b + 1) in (n, put_super s (set_s_next_ino n b) v)
  end.

Definition inode_memory (s ino : Z) (b : superblock) (v : vfs) : Z * vfs :=
  match hook op_alloc_inode (s_operations b) with
  | Some f => let (p, w) := f s ino (fs v) in (p, set_fs w v)
  | None =>
      let m := hm v in
      let (p, a) := kmalloc INODE_SIZE (heap m) in
      (p, set_hm (HMem (cells m) (statics m) a) v)
  end.

Definition superblock_createInode (s : Z) (v : vfs) : outcome (Z * vfs) :=
  if PTR_IS_INVALID s then Ok (ERR_PTR (- EINVAL), v)
  else
    let! b := get_super s v in
    let (ino, v) := next_ino s b v in
    let (x, v) := inode_memory s ino b v in
    if PTR_IS_INVALID x then Ok (ERR_PTR (- ENOMEM), v)
    else
      let v := new_inode x (blank_inode s (u64 ino)) v in
      let! v := on_lists (INIT_LIST_HEAD (x + I_DENTRIES)) v in
      let! v := on_lists (INIT_LIST_HEAD (x + I_S_LIST)) v in
      let! v := on_lists (INIT_LIST_HEAD (x + I_STATE_LIST)) v in
      let! v := on_lists (list_add (x + I_S_LIST) (s + S_ALL)) v in
      let! v := on_lists (list_add (x + I_STATE_LIST) (s + S_CLEAN)) v in
      let! (_, v) := inode_ref x v in
      Ok (x, v).

(** ** The inode cache

    The table's callbacks get pointers to keys: the key inside an inode, or the local
    key of [icache_lookup], for which [LOCAL_KEY] stands. *)

Definition LOCAL_KEY : Z := -1.

Definition key_at (local : Z * Z) (v : vfs) (k : Z) : Z * Z :=
  if k =? LOCAL_KEY then local
  else
    match inodes v !! (k - I_KEY) with
    | Some i => (i_superblock i, i_ino i)
    | None => (0, 0)
    end.

Definition icache_hash (key : Z * Z) : Z :=
  u32 (Z.shiftr (u64 (Z.lxor key.1 key.2 * 11400714819323198485)) 32).

Definition icache_equal (k1 k2 : Z * Z) : bool := (k1.1 =? k2.1) && (k1.2 =? k2.2).

Definition icache_getkey (node : Z) : Z := node - I_HASH + I_KEY.

Definition ihash (local : Z * Z) (v : vfs) (k : Z) : Z := icache_hash (key_at local v k).
Definition iequal (local : Z * Z) (v : vfs) (k1 k2 : Z) : bool := icache_equal (key_at local v k1) (key_at local v k2).

Definition icache_init (v : vfs) : outcome (Z * vfs) :=
  let! (err, t, m) := hashtable_setup (Some (itab v)) 1024 75 (hm v) in
  Ok (err, set_itab (default (itab v) t) (set_hm m v)).

Definition icache_lookup (sb ino : Z) (v : vfs) : outcome (Z * vfs) :=
  let local := (sb, ino) in
  let! node := hashtable_lookup (ihash local v) icache_getkey (iequal local v) (Some (itab v)) LOCAL_KEY (hm v) in
  if PTR_IS_INVALID node then Ok (0, v)
  else
    let x := node - I_HASH in
    let! (_, v) := inode_ref x v in
    Ok (x, v).

Definition icache_insert (x : Z) (v : vfs) : outcome vfs :=
  if x =? 0 then Ok v
  else
    let! i := get_inode x v in
    if i_superblock i =? 0 then Ok v
    else
      let! (_, t, m) := hashtable_insert (ihash (0, 0) v) icache_getkey (iequal (0, 0) v) (Some (itab v)) (x + I_HASH) (hm v) in
      Ok (set_itab (default (itab v) t) (set_hm m v)).

Definition icache_delete (x : Z) (v : vfs) : outcome vfs :=
  if x =? 0 then Ok v
  else
    let! i := get_inode x v in
    if i_superblock i =? 0 then Ok v
    else
      let! (_, t, m) := hashtable_remove icache_getkey (Some (itab v)) (x + I_HASH) (hm v) in
      Ok (set_itab (default (itab v) t) (set_hm m v)).

(** Have the file system read an inode that is marked new; [Some] is an early return. *)
Definition read_new (s x : Z) (v : vfs) : outcome (option Z * vfs) :=
  let! i := get_inode x v in
  if has I_NEW (i_state i) then
    let! b := get_super s v in
    match hook op_read_inode (s_operations b) with
    | Some f => let (i, w) := f x i (fs v) in Ok (None, set_fs w (put_inode x i v))
    | None => Ok (Some (ERR_PTR (- EINVAL)), v)
    end
  else Ok (None, v).

Definition inode_acquire (s ino : Z) (v : vfs) : outcome (Z * vfs) :=
  if PTR_IS_INVALID s then Ok (ERR_PTR (- EINVAL), v)
  else
    let! (x, v) := icache_lookup s ino v in
    if PTR_IS_ERROR x then Ok (ERR_PTR (- ENOMEM), v)
    else
      let! (x, v) := (if x =? 0 then superblock_createInode s v else Ok (x, v)) in
      if PTR_IS_INVALID x then Ok (ERR_PTR (- ENOMEM), v)
      else
        let! (early, v) := read_new s x v in
        match early with
        | Some r => Ok (r, v)
        | None => let! v := icache_insert x v in Ok (x, v)
        end.

(** ** Superblocks *)

Definition grab_super (s : Z) (v : vfs) : outcome vfs :=
  if s =? 0 then Ok v
  else let! b := get_super s v in Ok (put_super s (set_s_refcount (s32 (s_refcount b + 1)) b) v).

Definition deactivate_super_safe (s : Z) (v : vfs) : outcome vfs :=
  if s =? 0 then Ok v
  else let! b := get_super s v in Ok (put_super s (set_s_refcount (s32 (s_refcount b - 1)) b) v).

Definition __deactivate_super (s : Z) (v : vfs) : outcome vfs :=
  if s =? 0 then Ok v
  else
    let! b := get_super s v in
    let v := match hook op_put_super (s_operations b) with Some f => set_fs (f s (fs v)) v | None => v end in
    let! v := on_lists (list_del (s + S_FSTYPE)) v in
    let v := if s_fs_info b =? 0 then v else kfree_at (s_fs_info b) v in
    Ok (kfree_at s (set_supers (delete s (supers v)) v)).

Definition superblock_put (s : Z) (v : vfs) : outcome vfs :=
  if s =? 0 then Ok v
  else
    let! b := get_super s v in
    let b := set_s_refcount (s32 (s_refcount b - 1)) b in
    let v := put_super s b v in
    if s_refcount b =? 0 then __deactivate_super s v else Ok v.

(** The loop over the dirty list: [pos] and [n] are the two cursors. *)
Fixpoint sync_loop (fuel : nat) (s pos n wait ret : Z) (v : vfs) : outcome (Z * vfs) :=
  if pos =? s + S_DIRTY then Ok (ret, v)
  else
    match fuel with
    | O => Timeout
    | S fuel =>
        let! b := get_super s v in
        let x := pos - I_STATE_LIST in
        let! (ret, v) :=
          match hook op_write_inode (s_operations b) with
          | None => Ok (ret, v)
          | Some f =>
              let (r, w) := f x wait (fs v) in
              let v := set_fs w v in
              if (r =? 0) && negb (wait =? 0) then
                let! v := make_clean x list_del v in Ok (r, v)
              else Ok (r, v)
          end in
        if negb (ret =? 0) then Ok (ret, v)
        else
          let! n' := get_next n (lists v) in
          sync_loop fuel s n n' wait ret v
    end.

Definition sync_filesystem (s wait : Z) (v : vfs) : outcome (Z * vfs) :=
  if s =? 0 then Ok (- EINVAL, v)
  else
    let! b := get_super s v in
    let (ret, v) :=
      match hook op_sync_fs (s_operations b) with
      | None => (0, v)
      | Some f => let (r, w) := f s wait (fs v) in (r, set_fs w v)
      end in
    if negb (ret =? 0) then Ok (ret, v)
    else
      let! pos := get_next (s + S_DIRTY) (lists v) in
      let! n := get_next pos (lists v) in
      sync_loop (size (lists v)) s pos n wait ret v.
End Inode.

Lemma has_bit b x : 0 ≤ b → has (2 ^ b) x = Z.testbit x b.
Proof. intros Hb. unfold has. rewrite <-Z.shiftl_1_l, land_pow2_eqb by done. apply negb_involutive. Qed.

Lemma has_lor b x : 0 ≤ b → has (2 ^ b) (Z.lor x (2 ^ b)) = true.
Proof. intros Hb. rewrite has_bit, Z.lor_spec, Z.pow2_bits_true by done. apply orb_true_r. Qed.

Lemma has_clear b x : 0 ≤ b < 64 → has (2 ^ b) (clear_flag (2 ^ b) x) = false.
Proof.
  intros Hb. unfold clear_flag, u64. rewrite has_bit, Z.land_spec by lia.
  rewrite Z.mod_pow2_bits_low, Z.lnot_spec, Z.pow2_bits_true by lia. apply andb_false_r.
Qed.

Section Spec.
Context {A : Type} {KM : KMalloc A} {KS : KMallocSpec A} {W : Type} {SO : SuperOps W}.
Implicit Types (v : @vfs A W) (F : heads).

(** ** Permissions *)

(** The rights bits a caller has: the owner's, or those of the group. *)
Definition granted (euid mask : Z) (i : inode) : Prop :=
  ∀ b, 0 ≤ b < 3 → Z.testbit mask b = true → Z.testbit (i_mode i) (b + if euid =? i_uid i then 6 else 3) = true.

Lemma mode_denies_spec euid mask i : mode_denies mask (class_mode euid i) = false ↔ granted euid mask i.
Proof.
  assert (∀ b, 0 ≤ b → Z.testbit (class_mode euid i) b = Z.testbit (i_mode i) (b + if euid =? i_uid i then 6 else 3)) as Hb.
  { intros b Hb. unfold class_mode. cbn. destruct (euid =? i_uid i); by rewrite Z.shiftr_spec. }
  assert (∀ x, has 4 x = Z.testbit x 2) as B2 by (intros x; by apply (has_bit 2)).
  assert (∀ x, has 2 x = Z.testbit x 1) as B1 by (intros x; by apply (has_bit 1)).
  assert (∀ x, has 1 x = Z.testbit x 0) as B0 by (intros x; by apply (has_bit 0)).
  unfold mode_denies, granted, MAY_READ, MAY_WRITE, MAY_EXEC.
  rewrite !B2, !B1, !B0, !Hb, !orb_false_iff by lia. split.
  - intros [[H1 H2] H3] b Hr E. assert (b = 0 ∨ b = 1 ∨ b = 2) as [->|[->| ->]] by lia.
    + rewrite E in H3. by apply negb_false_iff in H3.
    + rewrite E in H2. by apply negb_false_iff in H2.
    + rewrite E in H1. by apply negb_false_iff in H1.
  - intros H. repeat split; apply andb_false_iff; rewrite negb_false_iff.
    + destruct (Z.testbit mask 2) eqn:E; [right; by apply H|by left].
    + destruct (Z.testbit mask 1) eqn:E; [right; by apply H|by left].
    + destruct (Z.testbit mask 0) eqn:E; [right; by apply H|by left].
Qed.

(** Both permission checks implement the same rule when the file system leaves
    the decision to them: root may do anything, nobody writes to a read-only file
    system, and otherwise the bits of the owner's class are tested for the owner and
    those of the group's class for everybody else. *)
Theorem permission_rule euid x mask v v' i ro :
  x ≠ 0 → inodes v !! x = Some i → inode_isReadonly i v = Ok ro → ask_fs x mask i v = (None, v') →
  ∃ r, inode_permission euid x mask v = Ok (r, if euid =? 0 then v else v') ∧
    generic_permission euid x mask v' = Ok r ∧
    (S_ISCHR (i_mode i) || S_ISBLK (i_mode i) = false → inode_checkPermission euid x mask v = Ok (r, v')) ∧
    (r = 0 ↔ euid = 0 ∨ (Z.testbit mask 1 = true → ro = false) ∧ granted euid mask i) ∧
    (r = 0 ∨ r = - EROFS ∨ r = - EACCES).
Proof.
  intros Hx Hi Hro Hask.
  assert (inodes v' = inodes v ∧ supers v' = supers v) as [Ei Es].
  { unfold ask_fs in Hask. destruct (hook op_permission (i_op i)) as [f|]; [|by injection Hask as <-].
    destruct (f x mask (fs v)) as [r w]. by injection Hask as _ <-. }
  assert (inode_isReadonly i v' = Ok ro) as Hro'.
  { unfold inode_isReadonly, get_super in *. by rewrite Es. }
  assert (generic_permission euid x mask v' = Ok (if euid =? 0 then 0 else if has MAY_WRITE mask && ro then - EROFS
    else if mode_denies mask (class_mode euid i) then - EACCES else 0)) as Hg.
  { unfold generic_permission, get_inode. rewrite Ei, Hi. cbn [of_option obind]. destruct (euid =? 0); [done|].
    destruct (has MAY_WRITE mask); rewrite ?Hro'; cbn [obind andb]; [destruct ro; [done|]|]; by destruct (mode_denies _ _). }
  eexists. split; [|split; [exact Hg|split; [|split]]].
  - unfold inode_permission, get_inode. rewrite (proj2 (Z.eqb_neq x 0)), Hi by done. cbn [of_option obind].
    unfold inode_isImmutable. rewrite andb_false_r. destruct (euid =? 0); [done|]. rewrite Hask.
    destruct (has MAY_WRITE mask); rewrite ?Hro'; cbn [obind andb]; [destruct ro; [done|]|]; by destruct (mode_denies _ _).
  - intros Hdev. unfold inode_checkPermission, get_inode. rewrite (proj2 (Z.eqb_neq x 0)), Hi by done. cbn [of_option obind].
    rewrite Hdev, Hask, Hg. done.
  - rewrite <-mode_denies_spec. assert (has MAY_WRITE mask = Z.testbit mask 1) as -> by (by apply (has_bit 1)).
    unfold EROFS, EACCES. destruct (Z.eqb_spec euid 0); [tauto|].
    destruct (Z.testbit mask 1), ro, (mode_denies mask _); cbn; intuition (congruence || lia).
  - repeat case_match; auto.
Qed.

(** ** The state lists of a superblock *)

Definition state_nodes (l : list Z) : list Z := (λ x, x + I_STATE_LIST) <$> l.
Definition all_nodes (l : list Z) : list Z := (λ x, x + I_S_LIST) <$> l.

(** Superblock [s] owns the inodes [all], each on exactly one of the two state lists
    (their nodes are disjoint in the family [F]) and flagged dirty when it is the
    dirty one. *)
Record inode_lists v F (s : Z) (all clean dirty : list Z) : Prop := {
  il_fam : family (lists v) F;
  il_placed : all_placed (hm v) F;
  il_all : F !! (s + S_ALL) = Some (all_nodes all);
  il_clean : F !! (s + S_CLEAN) = Some (state_nodes clean);
  il_dirty : F !! (s + S_DIRTY) = Some (state_nodes dirty);
  il_member x : x ∈ all ↔ x ∈ clean ∨ x ∈ dirty;
  il_super : s ≠ 0;
  il_inode x : x ∈ all → x ≠ 0 ∧ ∃ i, inodes v !! x = Some i ∧ i_superblock i = s ∧ (has I_DIRTY (i_state i) = true ↔ x ∈ dirty);
}.

(** What [list_del] and [list_del_init] have in common. *)
Definition unlinks (del : Z → store → outcome store) : Prop :=
  ∀ h F p l1 x l2, family h F → F !! p = Some (l1 ++ x :: l2) →
    ∃ h', del x h = Ok h' ∧ family h' (<[p := l1 ++ l2]> F) ∧ ~ in_family (<[p := l1 ++ l2]> F) x ∧ is_Some (h' !! x).

Lemma unlinks_del : unlinks list_del.
Proof.
  intros h F p l1 x l2 HF Hp. destruct (family_del h F p l1 x l2 HF Hp) as (h' & E & HF' & Hx & Hs & _). by exists h'.
Qed.

Lemma unlinks_del_init : unlinks list_del_init.
Proof.
  intros h F p l1 x l2 HF Hp. destruct (family_del_init h F p l1 x l2 HF Hp) as (h' & E & HF' & Hx & Hs & _).
  exists h'. split; [done|]. split; [done|]. split; [done|]. apply (dll_nodes _ _ _ _ Hs). by apply elem_of_cons; left.
Qed.

Lemma in_family_insert F p l x : in_family (<[p := l]> F) x → x ∈ p :: l ∨ in_family F x.
Proof.
  intros (q & m & Hq & Hx). apply lookup_insert_Some in Hq as [[<- <-]|[_ Hq]]; [by left|right]. by exists q, m.
Qed.

Lemma all_placed_insert v F p l :
  all_placed (hm v) F → (∀ x, x ∈ p :: l → in_family F x) → all_placed (hm v) (<[p := l]> F).
Proof. intros Hpl Hin x Hx. apply Hpl. destruct (in_family_insert F p l x Hx); auto. Qed.

Lemma head_in_family F p l : F !! p = Some l → in_family F p.
Proof. intros Hp. exists p, l. split; [done|]. by apply elem_of_cons; left. Qed.

Lemma node_in_family F p l x : F !! p = Some l → x ∈ l → in_family F x.
Proof. intros Hp Hx. exists p, l. split; [done|]. by apply elem_of_cons; right. Qed.

(** Taking a node off one list and putting it in front of another. *)
Lemma relink_ok del h F p l1 y l2 q m :
  unlinks del → family h F → F !! p = Some (l1 ++ y :: l2) → F !! q = Some m → q ≠ p →
  ∃ h1 h2, del y h = Ok h1 ∧ list_add y q h1 = Ok h2 ∧ family h2 (<[q := y :: m]> (<[p := l1 ++ l2]> F)).
Proof.
  intros Hdel HF Hp Hq Hpq. destruct (Hdel h F p l1 y l2 HF Hp) as (h1 & E1 & HF1 & Hy & Hs).
  destruct (family_add h1 (<[p := l1 ++ l2]> F) q m y HF1) as (h2 & E2 & HF2 & _); [by rewrite lookup_insert_ne by done|done..|].
  by exists h1, h2.
Qed.

Lemma relink_placed v F p l1 y l2 q m :
  all_placed (hm v) F → F !! p = Some (l1 ++ y :: l2) → F !! q = Some m → q ≠ p →
  all_placed (hm v) (<[q := y :: m]> (<[p := l1 ++ l2]> F)).
Proof.
  intros Hpl Hp Hq Hpq x Hx. apply Hpl. apply in_family_insert in Hx as [Hx|Hx].
  - apply elem_of_cons in Hx as [->|Hx]; [by eapply head_in_family|].
    apply elem_of_cons in Hx as [->|Hx]; [|by eapply node_in_family].
    apply (node_in_family F p _ y Hp). rewrite elem_of_app, elem_of_cons. tauto.
  - apply in_family_insert in Hx as [Hx|Hx]; [|done].
    apply elem_of_cons in Hx as [->|Hx]; [by eapply head_in_family|].
    apply (node_in_family F p _ x Hp). rewrite elem_of_app, elem_of_cons. rewrite elem_of_app in Hx. tauto.
Qed.

Lemma state_nodes_app l1 x l2 : state_nodes (l1 ++ x :: l2) = state_nodes l1 ++ (x + I_STATE_LIST) :: state_nodes l2.
Proof. unfold state_nodes. by rewrite fmap_app. Qed.

Lemma state_nodes_app2 l1 l2 : state_nodes (l1 ++ l2) = state_nodes l1 ++ state_nodes l2.
Proof. unfold state_nodes. by rewrite fmap_app. Qed.

(** An inode is not on both lists, and not twice on one. *)
Lemma il_disjoint v F s all clean dirty x : inode_lists v F s all clean dirty → x ∈ clean → x ∈ dirty → False.
Proof.
  intros H Hc Hd. assert (s + S_CLEAN = s + S_DIRTY) as E; [|unfold S_CLEAN, S_DIRTY in E; lia].
  apply (fam_disj _ _ (il_fam _ _ _ _ _ _ H) _ _ _ _ (x + I_STATE_LIST) (il_clean _ _ _ _ _ _ H) (il_dirty _ _ _ _ _ _ H)).
  - apply elem_of_cons. right. unfold state_nodes. apply list_elem_of_fmap. by exists x.
  - apply elem_of_cons. right. unfold state_nodes. apply list_elem_of_fmap. by exists x.
Qed.

Lemma il_nodup v F s all clean dirty : inode_lists v F s all clean dirty → NoDup (clean ++ dirty).
Proof.
  intros H. destruct (fam_dll _ _ (il_fam _ _ _ _ _ _ H) _ _ (il_clean _ _ _ _ _ _ H)) as [Hc _].
  destruct (fam_dll _ _ (il_fam _ _ _ _ _ _ H) _ _ (il_dirty _ _ _ _ _ _ H)) as [Hd _].
  apply NoDup_cons in Hc as [_ Hc]. apply NoDup_cons in Hd as [_ Hd].
  apply NoDup_app. split; [by apply NoDup_fmap_1 in Hc|]. split; [|by apply NoDup_fmap_1 in Hd].
  intros x Hx Hx'. by eapply il_disjoint.
Qed.

Lemma lists_set v c : lists (set_lists c v) = c.
Proof. done. Qed.

(** An update of one inode that keeps what the lists depend on. *)
Lemma il_put v F s all clean dirty x i i' :
  inode_lists v F s all clean dirty → inodes v !! x = Some i →
  i_superblock i' = i_superblock i → i_state i' = i_state i → inode_lists (put_inode x i' v) F s all clean dirty.
Proof.
  intros H Hi Hs Hst. split; try apply H. intros y Hy. destruct (il_inode _ _ _ _ _ _ H y Hy) as (Hy0 & j & Hj & Hjs & Hjd).
  split; [done|]. destruct (decide (x = y)) as [<-|Hne].
  - exists i'. cbn. rewrite lookup_insert_eq. split; [done|]. rewrite Hs, Hst. split; congruence || naive_solver.
  - exists j. cbn. rewrite lookup_insert_ne by done. done.
Qed.

Lemma il_fs v F s all clean dirty w : inode_lists v F s all clean dirty → inode_lists (set_fs w v) F s all clean dirty.
Proof. intros H. split; apply H. Qed.

(** Moving inode [x] from one state list to the other, with its new flags. *)
Section Move.
Context (v : @vfs A W) (F : heads) (s : Z) (all : list Z) (x : Z).

Lemma il_move_dirty c1 c2 dirty i' c F' :
  inode_lists v F s all (c1 ++ x :: c2) dirty → i_superblock i' = s → has I_DIRTY (i_state i') = true →
  F' = <[s + S_DIRTY := x + I_STATE_LIST :: state_nodes dirty]> (<[s + S_CLEAN := state_nodes (c1 ++ c2)]> F) →
  family c F' → inode_lists (set_lists c (put_inode x i' v)) F' s all (c1 ++ c2) (x :: dirty).
Proof.
  intros H Hs Hd EF HF. pose proof (il_clean _ _ _ _ _ _ H) as Hc. rewrite state_nodes_app in Hc.
  assert (s + S_DIRTY ≠ s + S_CLEAN ∧ s + S_ALL ≠ s + S_CLEAN ∧ s + S_ALL ≠ s + S_DIRTY) as (N1 & N2 & N3) by (unfold S_ALL, S_CLEAN, S_DIRTY; lia).
  pose proof (il_nodup _ _ _ _ _ _ H) as Hnd. subst F'. split.
  - done.
  - change (all_placed (hm v) (<[s + S_DIRTY := x + I_STATE_LIST :: state_nodes dirty]> (<[s + S_CLEAN := state_nodes (c1 ++ c2)]> F))).
    rewrite state_nodes_app2. apply relink_placed; [apply H|done|apply H|done].
  - rewrite !lookup_insert_ne by done. apply H.
  - rewrite lookup_insert_ne, lookup_insert_eq by done. done.
  - rewrite lookup_insert_eq. done.
  - intros y. rewrite (il_member _ _ _ _ _ _ H y), !elem_of_app, !elem_of_cons. tauto.
  - apply H.
  - intros y Hy. destruct (il_inode _ _ _ _ _ _ H y Hy) as (Hy0 & j & Hj & Hjs & Hjd). split; [done|].
    destruct (decide (x = y)) as [<-|Hne]; cbn.
    + exists i'. rewrite lookup_insert_eq. split; [done|]. split; [done|]. rewrite elem_of_cons. tauto.
    + exists j. rewrite lookup_insert_ne by done. split; [done|]. split; [done|]. rewrite elem_of_cons, Hjd. intuition congruence.
Qed.

Lemma il_move_clean clean d1 d2 i' c F' :
  inode_lists v F s all clean (d1 ++ x :: d2) → i_superblock i' = s → has I_DIRTY (i_state i') = false →
  F' = <[s + S_CLEAN := x + I_STATE_LIST :: state_nodes clean]> (<[s + S_DIRTY := state_nodes (d1 ++ d2)]> F) →
  family c F' → inode_lists (set_lists c (put_inode x i' v)) F' s all (x :: clean) (d1 ++ d2).
Proof.
  intros H Hs Hd EF HF. pose proof (il_dirty _ _ _ _ _ _ H) as Hc. rewrite state_nodes_app in Hc.
  assert (s + S_CLEAN ≠ s + S_DIRTY ∧ s + S_ALL ≠ s + S_CLEAN ∧ s + S_ALL ≠ s + S_DIRTY) as (N1 & N2 & N3) by (unfold S_ALL, S_CLEAN, S_DIRTY; lia).
  pose proof (il_nodup _ _ _ _ _ _ H) as Hnd. apply NoDup_app in Hnd as (_ & _ & Hnd).
  rewrite <-Permutation_middle in Hnd. apply NoDup_cons in Hnd as [Hx _]. subst F'. split.
  - done.
  - change (all_placed (hm v) (<[s + S_CLEAN := x + I_STATE_LIST :: state_nodes clean]> (<[s + S_DIRTY := state_nodes (d1 ++ d2)]> F))).
    rewrite state_nodes_app2. apply relink_placed; [apply H|done|apply H|done].
  - rewrite !lookup_insert_ne by done. apply H.
  - rewrite lookup_insert_eq. done.
  - rewrite lookup_insert_ne, lookup_insert_eq by done. done.
  - intros y. rewrite (il_member _ _ _ _ _ _ H y), !elem_of_app, !elem_of_cons. tauto.
  - apply H.
  - intros y Hy. destruct (il_inode _ _ _ _ _ _ H y Hy) as (Hy0 & j & Hj & Hjs & Hjd). split; [done|].
    destruct (decide (x = y)) as [<-|Hne]; cbn.
    + exists i'. rewrite lookup_insert_eq. split; [done|]. split; [done|]. rewrite Hd. done.
    + exists j. rewrite lookup_insert_ne by done. split; [done|]. split; [done|].
      rewrite Hjd, !elem_of_app, elem_of_cons. intuition congruence.
Qed.
End Move.

Lemma on_lists_ok (f : store → outcome store) v c : f (lists v) = Ok c → on_lists f v = Ok (set_lists c v).
Proof. intros E. unfold on_lists. by rewrite E. Qed.

Lemma in_middle (x : Z) l1 l2 : x ∈ l1 ++ x :: l2.
Proof. rewrite elem_of_app, elem_of_cons. tauto. Qed.

Lemma setDirty_clean v F s all c1 x c2 dirty :
  inode_lists v F s all (c1 ++ x :: c2) dirty →
  ∃ v' F', inode_setDirty x v = Ok v' ∧ inode_lists v' F' s all (c1 ++ c2) (x :: dirty).
Proof.
  intros H. assert (x ∈ all) as Hx by (apply (il_member _ _ _ _ _ _ H); left; apply in_middle).
  destruct (il_inode _ _ _ _ _ _ H x Hx) as (Hx0 & i & Hi & Hs & Hd).
  assert (has I_DIRTY (i_state i) = false) as Hc.
  { destruct (has I_DIRTY (i_state i)) eqn:E; [|done]. destruct (il_disjoint _ _ _ _ _ _ x H (in_middle x c1 c2)). tauto. }
  pose proof (il_clean _ _ _ _ _ _ H) as HC. rewrite state_nodes_app in HC.
  destruct (relink_ok list_del_init (lists v) F _ _ _ _ (s + S_DIRTY) (state_nodes dirty) unlinks_del_init (il_fam _ _ _ _ _ _ H) HC)
    as (c & c' & E1 & E2 & HF); [apply H|unfold S_DIRTY, S_CLEAN; lia|].
  rewrite <-state_nodes_app2 in HF. eexists _, _. split; [|eapply (il_move_dirty v F s all x c1 c2 dirty
    (set_i_state (Z.lor (i_state i) I_DIRTY) i)); [done|done|by apply (has_lor 0)|done|exact HF]].
  unfold inode_setDirty, get_inode, leave_state_list.
  rewrite (proj2 (Z.eqb_neq x 0)), Hi by done. cbn [of_option obind]. rewrite Hs.
  rewrite (proj2 (Z.eqb_neq s 0)) by apply H. rewrite Hc. cbn [negb andb].
  rewrite (family_member _ _ _ _ _ _ (il_fam _ _ _ _ _ _ H) HC). cbn [obind negb].
  rewrite (on_lists_ok _ _ _ E1). cbn [obind]. erewrite on_lists_ok; [|exact E2]. done.
Qed.

Lemma setDirty_dirty v F s all clean dirty x :
  inode_lists v F s all clean dirty → x ∈ dirty → inode_setDirty x v = Ok v.
Proof.
  intros H Hx. assert (x ∈ all) as Ha by (apply (il_member _ _ _ _ _ _ H); by right).
  destruct (il_inode _ _ _ _ _ _ H x Ha) as (Hx0 & i & Hi & Hs & Hd). unfold inode_setDirty, get_inode.
  rewrite (proj2 (Z.eqb_neq x 0)), Hi by done. cbn [of_option obind]. by rewrite (proj2 Hd Hx).
Qed.

Lemma make_clean_ok del v F s all clean d1 x d2 :
  unlinks del → inode_lists v F s all clean (d1 ++ x :: d2) →
  ∃ v' F', make_clean x del v = Ok v' ∧ inode_lists v' F' s all (x :: clean) (d1 ++ d2) ∧
    fs v' = fs v ∧ supers v' = supers v ∧ inodes v' !! x = (λ i, set_i_state (clear_flag I_DIRTY (i_state i)) i) <$> inodes v !! x.
Proof.
  intros Hdel H. assert (x ∈ all) as Hx by (apply (il_member _ _ _ _ _ _ H); right; apply in_middle).
  destruct (il_inode _ _ _ _ _ _ H x Hx) as (Hx0 & i & Hi & Hs & Hd).
  pose proof (il_dirty _ _ _ _ _ _ H) as HC. rewrite state_nodes_app in HC.
  destruct (relink_ok del (lists v) F _ _ _ _ (s + S_CLEAN) (state_nodes clean) Hdel (il_fam _ _ _ _ _ _ H) HC)
    as (c & c' & E1 & E2 & HF); [apply H|unfold S_DIRTY, S_CLEAN; lia|].
  rewrite <-state_nodes_app2 in HF. eexists _, _. split; [|split; [eapply (il_move_clean v F s all x clean d1 d2
    (set_i_state (clear_flag I_DIRTY (i_state i)) i)); [done|done|by apply (has_clear 0)|done|exact HF]|]].
  - unfold make_clean, get_inode. rewrite (on_lists_ok _ _ _ E1). cbn [obind]. cbn [inodes set_lists set_hm].
    rewrite Hi. cbn [of_option obind]. rewrite Hs. erewrite on_lists_ok; [|exact E2]. done.
  - split; [done|]. split; [done|]. cbn. by rewrite lookup_insert_eq, Hi.
Qed.

(** On its last reference a clean inode goes to the end of the clean list. *)
Lemma unref_ok v F s all clean dirty x i :
  inode_lists v F s all clean dirty → x ∈ all → inodes v !! x = Some i →
  ∃ v' F' clean', inode_unref x v = Ok v' ∧ inode_lists v' F' s all clean' dirty ∧ clean' ≡ₚ clean ∧
    inodes v' !! x = Some (set_i_refcount (s32 (i_refcount i - 1)) i).
Proof.
  intros H Hx Hi. destruct (il_inode _ _ _ _ _ _ H x Hx) as (Hx0 & i0 & Hi0 & Hs & Hd).
  rewrite Hi in Hi0. injection Hi0 as <-. set (i' := set_i_refcount (s32 (i_refcount i - 1)) i).
  assert (inode_lists (put_inode x i' v) F s all clean dirty) as H' by (by apply (il_put v F s all clean dirty x i)).
  unfold inode_unref, get_inode. rewrite (proj2 (Z.eqb_neq x 0)), Hi by done. cbn [of_option obind]. fold i'.
  assert (inodes (put_inode x i' v) !! x = Some i') as Hput by (cbn; by rewrite lookup_insert_eq).
  destruct (i_refcount i' =? 0); [|by exists (put_inode x i' v), F, clean].
  change (i_state i') with (i_state i). change (i_superblock i') with (i_superblock i).
  destruct (has I_DIRTY (i_state i)) eqn:Ed; cbn [negb]; [by exists (put_inode x i' v), F, clean|].
  assert (x ∈ clean) as Hc.
  { destruct (proj1 (il_member _ _ _ _ _ _ H x) Hx) as [?|Hdd]; [done|]. apply Hd in Hdd. congruence. }
  apply list_elem_of_split in Hc as (c1 & c2 & ->).
  pose proof (il_clean _ _ _ _ _ _ H') as HC. rewrite state_nodes_app in HC.
  destruct (unlinks_del_init _ _ _ _ _ _ (il_fam _ _ _ _ _ _ H') HC) as (c & E1 & HF1 & Hout & Hsome).
  destruct (family_add_tail c _ (s + S_CLEAN) (state_nodes c1 ++ state_nodes c2) (x + I_STATE_LIST) HF1) as (c' & E2 & HF2 & _);
    [by rewrite lookup_insert_eq|done|done|].
  unfold leave_state_list. rewrite (family_member _ _ _ _ _ _ (il_fam _ _ _ _ _ _ H') HC). cbn [obind negb].
  rewrite (on_lists_ok _ _ _ E1). cbn [obind]. rewrite Hs. erewrite on_lists_ok; [|exact E2].
  rewrite insert_insert_eq in HF2. eexists _, _, ((c1 ++ c2) ++ [x]). split; [done|]. split; [|split; [|exact Hput]].
  - assert (s + S_DIRTY ≠ s + S_CLEAN ∧ s + S_ALL ≠ s + S_CLEAN) as (N1 & N2) by (unfold S_ALL, S_CLEAN, S_DIRTY; lia).
    split.
    + exact HF2.
    + change (all_placed (hm v) (<[s + S_CLEAN := (state_nodes c1 ++ state_nodes c2) ++ [x + I_STATE_LIST]]> F)).
      apply all_placed_insert; [apply H|]. intros y [->|Hy]%elem_of_cons; [by eapply head_in_family|].
      apply (node_in_family _ _ _ _ HC). rewrite !elem_of_app, list_elem_of_singleton in Hy. rewrite elem_of_app, elem_of_cons. tauto.
    + rewrite lookup_insert_ne by done. apply H.
    + rewrite lookup_insert_eq. by rewrite !state_nodes_app2.
    + rewrite lookup_insert_ne by done. apply H.
    + intros y. rewrite (il_member _ _ _ _ _ _ H y), !elem_of_app, elem_of_cons, list_elem_of_singleton. tauto.
    + apply H.
    + intros y Hy. exact (il_inode _ _ _ _ _ _ H' y Hy).
  - rewrite <-(Permutation_middle c1 c2 x). symmetry. apply Permutation_cons_append.
Qed.

Lemma ref_ok v F s all clean dirty x :
  inode_lists v F s all clean dirty → x ∈ all →
  ∃ r v', inode_ref x v = Ok (r, v') ∧ inode_lists v' F s all clean dirty.
Proof.
  intros H Hx. destruct (il_inode _ _ _ _ _ _ H x Hx) as (Hx0 & i & Hi & Hs & Hd).
  unfold inode_ref, get_inode. rewrite (proj2 (Z.eqb_neq x 0)), Hi by done. cbn [of_option obind].
  destruct (inode_isBad i); [by eexists _, _|]. eexists _, _. split; [done|]. by apply (il_put v F s all clean dirty x i).
Qed.

Lemma call_write_ok x wait s v : supers v !! s ≠ None → ∃ r w, call_write x wait s v = Ok (r, set_fs w v).
Proof.
  intros Hs. unfold call_write, get_super. destruct (s =? 0); [exists 0, (fs v); by destruct v|].
  destruct (supers v !! s) as [b|]; [|done]. cbn [of_option obind].
  destruct (hook op_write_inode (s_operations b)) as [f|]; [|exists 0, (fs v); by destruct v].
  destruct (f x wait (fs v)) as [r w]. by exists r, w.
Qed.

(** A successful synchronous write moves a dirty inode to the clean list; nothing else
    changes the lists. *)
Lemma sync_ok v F s all clean dirty x wait :
  inode_lists v F s all clean dirty → x ∈ all → supers v !! s ≠ None →
  ∃ r v' F' clean' dirty', inode_sync x wait v = Ok (r, v') ∧ inode_lists v' F' s all clean' dirty' ∧
    supers v' = supers v ∧ (r = 0 → wait ≠ 0 → x ∈ clean').
Proof.
  intros H Hx Hsup. destruct (il_inode _ _ _ _ _ _ H x Hx) as (Hx0 & i & Hi & Hs & Hd).
  unfold inode_sync, get_inode. rewrite (proj2 (Z.eqb_neq x 0)), Hi by done. cbn [of_option obind].
  destruct (has I_DIRTY (i_state i)) eqn:Ed; cbn [negb].
  - destruct (call_write_ok x wait (i_superblock i) v) as (r & w & ->); [by rewrite Hs|]. cbn [obind].
    apply (il_fs _ _ _ _ _ _ w) in H.
    destruct ((r =? 0) && negb (wait =? 0)) eqn:Ec.
    + cbn [inodes set_fs]. rewrite Hi. cbn [of_option obind]. rewrite Ed.
      destruct (list_elem_of_split dirty x (proj1 Hd eq_refl)) as (d1 & d2 & ->).
      destruct (make_clean_ok list_del_init _ _ _ _ _ _ _ _ unlinks_del_init H) as (v' & F' & E & H' & _ & Esup & _).
      rewrite E. cbn [obind]. eexists _, _, _, _, _. split; [done|]. split; [exact H'|]. split; [done|].
      intros _ _. by apply elem_of_cons; left.
    + eexists _, _, _, _, _. split; [done|]. split; [exact H|]. split; [done|]. intros -> Hw.
      rewrite (proj2 (Z.eqb_neq wait 0)) in Ec by done. done.
  - eexists _, _, _, _, _. split; [done|]. split; [exact H|]. split; [done|]. intros _ _.
    destruct (proj1 (il_member _ _ _ _ _ _ H x) Hx) as [?|Hdd]; [done|]. apply Hd in Hdd. congruence.
Qed.

(** ** Writing back a whole superblock *)

(** The writes of [sync_filesystem] in order: what is left, the result and the state
    of the file system. *)
Fixpoint write_run (f : Z → Z → W → Z * W) (wait : Z) (l : list Z) (w : W) : list Z * Z * W :=
  match l with
  | [] => ([], 0, w)
  | x :: l' =>
      let (r, w) := f x wait w in
      if r =? 0 then write_run f wait l' w else (l, r, w)
  end.

Definition first_of (h : Z) (l : list Z) : Z := default h (hd_error l).

Lemma next_of_first c h l : dll c h l → get_next (first_of h l) c = Ok (first_of h (tail l)).
Proof.
  intros D. destruct l as [|y l]; [by apply get_next_ok, (dll_first _ _ _ D)|].
  destruct D as [_ Hl]. cbn in Hl. destruct Hl as (_ & _ & Hl). apply get_next_ok. destruct l as [|z l]; cbn in *; apply Hl.
Qed.

Lemma sync_loop_ok f b s all wait dirty fuel v F clean rest r w :
  hook op_write_inode (s_operations b) = Some f → wait ≠ 0 → (length dirty ≤ fuel)%nat →
  inode_lists v F s all clean dirty → supers v !! s = Some b → write_run f wait dirty (fs v) = (rest, r, w) →
  ∃ v' F' written, dirty = written ++ rest ∧
    sync_loop fuel s (first_of (s + S_DIRTY) (state_nodes dirty)) (first_of (s + S_DIRTY) (tail (state_nodes dirty))) wait 0 v = Ok (r, v') ∧
    inode_lists v' F' s all (reverse written ++ clean) rest ∧ fs v' = w.
Proof.
  intros Hf Hw. revert fuel v F clean. induction dirty as [|x dirty IH]; intros fuel v F clean Hfuel H Hb E.
  - injection E as <- <- <-. exists v, F, []. split; [done|]. split; [|done].
    destruct fuel; cbn; by rewrite Z.eqb_refl.
  - destruct fuel as [|fuel]; [cbn in Hfuel; lia|]. cbn [write_run] in E. destruct (f x wait (fs v)) as [r1 w1] eqn:Ef.
    assert (x + I_STATE_LIST ≠ s + S_DIRTY) as Hne.
    { destruct (fam_dll _ _ (il_fam _ _ _ _ _ _ H) _ _ (il_dirty _ _ _ _ _ _ H)) as [Hnd _].
      apply NoDup_cons in Hnd as [Hnd _]. intros Eq. apply Hnd. rewrite <-Eq. by apply elem_of_cons; left. }
    cbn [sync_loop]. change (first_of (s + S_DIRTY) (state_nodes (x :: dirty))) with (x + I_STATE_LIST).
    rewrite (proj2 (Z.eqb_neq _ _) Hne). unfold get_super. rewrite Hb. cbn [of_option obind]. rewrite Hf.
    replace (x + I_STATE_LIST - I_STATE_LIST) with x by lia. rewrite Ef, (proj2 (Z.eqb_neq wait 0)), andb_true_r by done.
    destruct (Z.eqb_spec r1 0) as [->|Hr].
    + apply (il_fs _ _ _ _ _ _ w1) in H.
      destruct (make_clean_ok list_del _ _ _ _ _ [] x dirty unlinks_del H) as (v1 & F1 & E1 & H1 & Efs & Esup & _).
      cbn [app] in H1. rewrite E1. cbn [obind]. change (negb (0 =? 0)) with false. cbn iota.
      change (tail (state_nodes (x :: dirty))) with (state_nodes dirty).
      rewrite (next_of_first _ _ _ (fam_dll _ _ (il_fam _ _ _ _ _ _ H1) _ _ (il_dirty _ _ _ _ _ _ H1))). cbn [obind].
      destruct (IH fuel v1 F1 (x :: clean)) as (v' & F' & written & -> & E' & H' & Efs'); [cbn in Hfuel; lia|exact H1| | |].
      * by rewrite Esup.
      * rewrite Efs. exact E.
      * exists v', F', (x :: written). split; [done|]. split; [exact E'|]. split; [|done].
        by rewrite reverse_cons, <-app_assoc.
    + injection E as <- <- <-. cbn [obind]. rewrite (proj2 (Z.eqb_neq r1 0)) by done. cbn [negb].
      eexists _, F, []. split; [done|]. split; [done|]. split; [|done]. by apply il_fs.
Qed.

Lemma dll_next c h l1 y l2 : dll c h (l1 ++ y :: l2) → get_next y c = Ok (first_of h l2).
Proof.
  intros [_ Hl]. rewrite <-app_assoc, app_comm_cons in Hl. apply linked_app in Hl as [_ Hl].
  apply get_next_ok. destruct l2 as [|z l2]; cbn in *; apply Hl.
Qed.

(** What a write-back comes to: the inodes that stay dirty, the result and the file
    system. Without [wait], and without a function that writes inodes, all stay dirty. *)
Definition write_back (b : superblock) (wait : Z) (dirty : list Z) (w : W) : list Z * Z * W :=
  match hook op_write_inode (s_operations b) with
  | Some f => let '(rest, r, w) := write_run f wait dirty w in (if wait =? 0 then dirty else rest, r, w)
  | None => (dirty, 0, w)
  end.

Lemma sync_loop_still b s all wait dirty written l fuel n v F clean :
  wait = 0 ∨ hook op_write_inode (s_operations b) = None → (length l ≤ fuel)%nat →
  inode_lists v F s all clean dirty → supers v !! s = Some b → dirty = written ++ l →
  (l ≠ [] → n = first_of (s + S_DIRTY) (tail (state_nodes l))) →
  sync_loop fuel s (first_of (s + S_DIRTY) (state_nodes l)) n wait 0 v =
    Ok ((write_back b wait l (fs v)).1.2, set_fs (write_back b wait l (fs v)).2 v).
Proof.
  intros Hq. revert fuel n v written. induction l as [|x l IH]; intros fuel n v written Hfuel H Hb Hd Hn.
  { assert (write_back b wait [] (fs v) = ([], 0, fs v)) as ->.
    { unfold write_back. destruct (hook op_write_inode _); [|done]. cbn. by destruct (wait =? 0). }
    cbn [fst snd]. assert (set_fs (fs v) v = v) as -> by by destruct v. destruct fuel; cbn; by rewrite Z.eqb_refl. }
  destruct fuel as [|fuel]; [cbn in Hfuel; lia|]. rewrite (Hn ltac:(done)). clear Hn n.
  pose proof (fam_dll _ _ (il_fam _ _ _ _ _ _ H) _ _ (il_dirty _ _ _ _ _ _ H)) as D. rewrite Hd in D.
  unfold state_nodes in D. rewrite fmap_app, fmap_cons in D.
  assert (x + I_STATE_LIST ≠ s + S_DIRTY) as Hne.
  { apply not_eq_sym. eapply dll_mid; [exact D|]. by apply elem_of_cons; left. }
  change (first_of (s + S_DIRTY) (state_nodes (x :: l))) with (x + I_STATE_LIST).
  change (tail (state_nodes (x :: l))) with (state_nodes l). cbn [sync_loop].
  rewrite (proj2 (Z.eqb_neq _ _) Hne). unfold get_super. rewrite Hb. cbn [of_option obind].
  replace (x + I_STATE_LIST - I_STATE_LIST) with x by lia.
  assert (∃ n', get_next (first_of (s + S_DIRTY) (state_nodes l)) (lists v) = Ok n' ∧
    (l ≠ [] → n' = first_of (s + S_DIRTY) (tail (state_nodes l)))) as (n' & Hn' & Hnl).
  { destruct l as [|y l].
    - eexists. split; [apply get_next_ok, (dll_first _ _ _ D)|done].
    - eexists. split; [|done]. apply (dll_next _ _ (state_nodes written ++ [x + I_STATE_LIST])).
      rewrite <-app_assoc. exact D. }
  assert (∀ w1, sync_loop fuel s (first_of (s + S_DIRTY) (state_nodes l)) n' wait 0 (set_fs w1 v) =
    Ok ((write_back b wait l w1).1.2, set_fs (write_back b wait l w1).2 v)) as Hrec.
  { intros w1. rewrite (IH fuel n' (set_fs w1 v) (written ++ [x])); [by destruct v|cbn in Hfuel; lia|by apply il_fs|done| |done].
    by rewrite <-app_assoc. }
  unfold write_back in *. destruct (hook op_write_inode (s_operations b)) as [f|].
  - destruct Hq as [->|?]; [|done]. cbn [write_run]. destruct (f x 0 (fs v)) as [r1 w1]. rewrite andb_false_r. cbn [obind].
    destruct (Z.eqb_spec r1 0) as [->|Hr]; cbn [negb]; [|done].
    change (lists (set_fs w1 v)) with (lists v). rewrite Hn'. cbn [obind]. rewrite Hrec.
    by destruct (write_run f 0 l w1) as [[rest r] w].
  - cbn [obind]. change (negb (0 =? 0)) with false. cbn iota. rewrite Hn'. cbn [obind].
    specialize (Hrec (fs v)). assert (set_fs (fs v) v = v) as Hv by by destruct v. rewrite Hv in Hrec. exact Hrec.
Qed.

(** The three cases together. *)
Lemma write_back_ok b s all wait dirty v F clean rest r w :
  inode_lists v F s all clean dirty → supers v !! s = Some b → write_back b wait dirty (fs v) = (rest, r, w) →
  ∃ v' F' written, dirty = written ++ rest ∧
    sync_loop (size (lists v)) s (first_of (s + S_DIRTY) (state_nodes dirty))
      (first_of (s + S_DIRTY) (tail (state_nodes dirty))) wait 0 v = Ok (r, v') ∧
    inode_lists v' F' s all (reverse written ++ clean) rest ∧ fs v' = w.
Proof.
  intros H Hb E. pose proof (fam_dll _ _ (il_fam _ _ _ _ _ _ H) _ _ (il_dirty _ _ _ _ _ _ H)) as D.
  pose proof (dll_length _ _ _ D) as Hl. unfold state_nodes in Hl. rewrite length_fmap in Hl.
  destruct (hook op_write_inode (s_operations b)) as [f|] eqn:Hf; [destruct (Z.eqb_spec wait 0) as [Hw|Hw]|].
  2: { unfold write_back in E. rewrite Hf in E. destruct (write_run f wait dirty (fs v)) as [[rest' r'] w'] eqn:Er.
       rewrite (proj2 (Z.eqb_neq wait 0)) in E by done. injection E as <- <- <-. by eapply sync_loop_ok. }
  all: rewrite (sync_loop_still b s all wait dirty [] dirty _ _ v F clean) by auto; rewrite E; cbn [fst snd];
    assert (rest = dirty) as -> by
      (unfold write_back in E; rewrite Hf in E; try (destruct (write_run f wait dirty (fs v)) as [[??]?]; rewrite Hw in E); by injection E as <- _ _);
    exists (set_fs w v), F, []; (split; [done|]); (split; [done|]); (split; [by apply il_fs|done]).
Qed.

(** ** New inodes *)

Lemma inode_cells_in x : x + I_S_LIST ∈ inode_cells x ∧ x + I_STATE_LIST ∈ inode_cells x ∧ x + I_DENTRIES ∈ inode_cells x.
Proof. unfold inode_cells. rewrite !elem_of_cons. tauto. Qed.

Lemma inode_cells_range x p : p ∈ inode_cells x → x ≤ p < x + INODE_SIZE.
Proof.
  unfold inode_cells, I_S_LIST, I_STATE_LIST, I_HASH, I_DENTRIES, INODE_SIZE. rewrite !elem_of_cons, elem_of_nil. lia.
Qed.

Lemma init_frame h F p :
  family h F → ~ in_family F p → is_Some (h !! p) →
  ∃ h', INIT_LIST_HEAD p h = Ok h' ∧ family h' F ∧ ∀ q, is_Some (h !! q) → is_Some (h' !! q).
Proof.
  intros HF Hp Hs. destruct (family_init h F p HF Hp Hs) as (h' & E & HF' & Ho). exists h'. split; [done|].
  assert (F !! p = None) as HN.
  { destruct (F !! p) as [l|] eqn:El; [|done]. destruct Hp. by eapply head_in_family. }
  split; [apply (family_sub _ _ F (insert_subseteq _ _ _ HN) HF')|].
  intros q Hq. destruct (decide (q = p)) as [->|]; [|rewrite Ho; [done|by rewrite list_elem_of_singleton]].
  apply (dll_nodes h' p [] p); [|by apply elem_of_cons; left]. apply HF'. by rewrite lookup_insert_eq.
Qed.

Lemma blank_cells_in (c : store) ps p :
  p ∈ ps ∨ is_Some (c !! p) → is_Some (foldr (λ p c, <[p := ListHead 0 0]> c) c ps !! p).
Proof.
  induction ps as [|q ps IH]; cbn; [rewrite elem_of_nil; tauto|]. rewrite elem_of_cons. intros H.
  destruct (decide (q = p)) as [->|]; [rewrite lookup_insert_eq; by eexists|]. rewrite lookup_insert_ne by done.
  apply IH. destruct H as [[->|?]|?]; [done|by left|by right].
Qed.

Lemma blank_cells_out (c : store) ps : same_outside ps c (foldr (λ p c, <[p := ListHead 0 0]> c) c ps).
Proof.
  intros p Hp. induction ps as [|q ps IH]; cbn; [done|]. apply not_elem_of_cons in Hp as [H1 H2].
  rewrite lookup_insert_ne by done. auto.
Qed.

Lemma all_placed_grow (m m' : @hmem A) F :
  (∀ q n, km_block (heap m) q n → km_block (heap m') q n) → all_placed m F → all_placed m' F.
Proof. intros Hg Hpl x Hx. destruct (Hpl x Hx) as (q & n & Hq & Hr). exists q, n. auto. Qed.

(** The lists after a new inode [x] has been linked in front of both of its lists. *)
Lemma link_new c F s all clean x :
  family c F → F !! (s + S_ALL) = Some all → F !! (s + S_CLEAN) = Some clean →
  (∀ p, p ∈ inode_cells x → ~ in_family F p ∧ is_Some (c !! p)) →
  ∃ c1 c2 c3 c4 c5,
    INIT_LIST_HEAD (x + I_DENTRIES) c = Ok c1 ∧ INIT_LIST_HEAD (x + I_S_LIST) c1 = Ok c2 ∧
    INIT_LIST_HEAD (x + I_STATE_LIST) c2 = Ok c3 ∧ list_add (x + I_S_LIST) (s + S_ALL) c3 = Ok c4 ∧
    list_add (x + I_STATE_LIST) (s + S_CLEAN) c4 = Ok c5 ∧
    family c5 (<[s + S_CLEAN := x + I_STATE_LIST :: clean]> (<[s + S_ALL := x + I_S_LIST :: all]> F)).
Proof.
  intros HF Ha Hc Hfresh.
  destruct (inode_cells_in x) as (C1 & C2 & C3).
  destruct (Hfresh _ C3) as [D1 D2], (Hfresh _ C1) as [L1 L2], (Hfresh _ C2) as [T1 T2].
  destruct (init_frame c F _ HF D1 D2) as (c1 & E1 & HF1 & G1).
  destruct (init_frame c1 F _ HF1 L1 (G1 _ L2)) as (c2 & E2 & HF2 & G2).
  destruct (init_frame c2 F _ HF2 T1 (G2 _ (G1 _ T2))) as (c3 & E3 & HF3 & G3).
  destruct (family_add c3 F _ _ _ HF3 Ha L1 (G3 _ (G2 _ (G1 _ L2)))) as (c4 & E4 & HF4 & Ho).
  destruct (family_add c4 (<[s + S_ALL := x + I_S_LIST :: all]> F) (s + S_CLEAN) clean (x + I_STATE_LIST) HF4) as (c5 & E5 & HF5 & _).
  - rewrite lookup_insert_ne by (unfold S_ALL, S_CLEAN; lia). done.
  - intros [Hin|Hin]%in_family_insert; [|done]. apply elem_of_cons in Hin as [Eq|Hin]; [apply T1; rewrite Eq; exact (head_in_family _ _ _ Ha)|].
    apply elem_of_cons in Hin as [Eq|Hin]; [unfold I_STATE_LIST, I_S_LIST in Eq; lia|]. apply T1. exact (node_in_family _ _ _ _ Ha Hin).
  - eapply list_add_grows; [exact E4|]. auto.
  - by exists c1, c2, c3, c4, c5.
Qed.

(** The list members [ps] of an object in new memory meet none of the lists. *)
Lemma new_cells_ok (m : @hmem A) a F x size ps :
  0 < size → (∀ p, p ∈ ps → x ≤ p < x + size) →
  family (cells m) F → all_placed m F → kmalloc size (heap m) = (x, a) → x ≠ 0 →
  let c := foldr (λ p c, <[p := ListHead 0 0]> c) (cells m) ps in
  family c F ∧ (∀ p, p ∈ ps → ~ in_family F p ∧ is_Some (c !! p)) ∧
  (∀ q n, km_block (heap m) q n → km_block a q n) ∧ km_block a x size.
Proof.
  intros Hsz Hr HF Hpl E Hx. destruct (kmalloc_block size (heap m) x a Hsz E) as [Hg Hnew].
  destruct (Hnew Hx) as [Hb Hd].
  assert (∀ p, p ∈ ps → ~ in_family F p) as Hout.
  { intros p Hp Hin. destruct (Hpl p Hin) as (q & n & Hq & Hin'). specialize (Hr p Hp). destruct (Hd q n Hq); lia. }
  split; [apply (family_frame ps (cells m)); [done|apply blank_cells_out|done]|].
  split; [|done]. intros p Hp. split; [by apply Hout|]. apply blank_cells_in. by left.
Qed.

(** The invariant once a new inode is on its two lists. *)
Lemma il_new v F s all clean dirty x ino v' :
  inode_lists v F s all clean dirty →
  let F' := <[s + S_CLEAN := x + I_STATE_LIST :: state_nodes clean]> (<[s + S_ALL := x + I_S_LIST :: all_nodes all]> F) in
  x ≠ 0 → (∀ p, p ∈ inode_cells x → ~ in_family F p) → family (lists v') F' →
  (∀ q n, km_block (heap (hm v)) q n → km_block (heap (hm v')) q n) → km_block (heap (hm v')) x INODE_SIZE →
  inodes v' = <[x := blank_inode s ino]> (inodes v) →
  (x ∉ all) ∧ inode_lists v' F' s (x :: all) (x :: clean) dirty.
Proof.
  intros H F' Hx Hfresh HF Hg Hblk Ein. destruct (inode_cells_in x) as (C1 & C2 & _).
  assert (x ∉ all) as Hxa.
  { intros Hin. apply (Hfresh _ C1). apply (node_in_family F _ _ _ (il_all _ _ _ _ _ _ H)). apply list_elem_of_fmap. by exists x. }
  assert (x ∉ dirty) as Hxd.
  { intros Hin. apply Hxa, (il_member _ _ _ _ _ _ H). by right. }
  split; [done|]. subst F'. split.
  - done.
  - pose proof (head_in_family _ _ _ (il_all _ _ _ _ _ _ H)) as A1. pose proof (head_in_family _ _ _ (il_clean _ _ _ _ _ _ H)) as A2.
    pose proof (all_placed_grow _ _ F Hg (il_placed _ _ _ _ _ _ H)) as Hold.
    assert (∀ p, p ∈ inode_cells x → ∃ q n, km_block (heap (hm v')) q n ∧ q ≤ p < q + n) as Hnew.
    { intros p Hp. exists x, INODE_SIZE. split; [done|by apply inode_cells_range]. }
    intros p Hp. apply in_family_insert in Hp as [Hp|Hp]; [|apply in_family_insert in Hp as [Hp|Hp]; [|by apply Hold]].
    + apply elem_of_cons in Hp as [->|Hp]; [by apply Hold|]. apply elem_of_cons in Hp as [->|Hp]; [by apply Hnew|].
      apply Hold. exact (node_in_family _ _ _ _ (il_clean _ _ _ _ _ _ H) Hp).
    + apply elem_of_cons in Hp as [->|Hp]; [by apply Hold|]. apply elem_of_cons in Hp as [->|Hp]; [by apply Hnew|].
      apply Hold. exact (node_in_family _ _ _ _ (il_all _ _ _ _ _ _ H) Hp).
  - rewrite lookup_insert_ne by (unfold S_ALL, S_CLEAN; lia). rewrite lookup_insert_eq. done.
  - rewrite lookup_insert_eq. done.
  - rewrite !lookup_insert_ne by (unfold S_ALL, S_CLEAN, S_DIRTY; lia). apply H.
  - intros y. rewrite !elem_of_cons, (il_member _ _ _ _ _ _ H y). tauto.
  - apply H.
  - intros y Hy. rewrite Ein. apply elem_of_cons in Hy as [->|Hy].
    + split; [done|]. exists (blank_inode s ino). rewrite lookup_insert_eq. done.
    + destruct (il_inode _ _ _ _ _ _ H y Hy) as (Hy0 & j & Hj). split; [done|]. exists j.
      rewrite lookup_insert_ne by (intros ->; done). done.
Qed.

Lemma next_ino_ok v F s all clean dirty b :
  inode_lists v F s all clean dirty → supers v !! s = Some b →
  ∃ n v' b', next_ino s b v = (n, v') ∧ inode_lists v' F s all clean dirty ∧ supers v' !! s = Some b' ∧
    s_operations b' = s_operations b ∧ hm v' = hm v ∧ inodes v' = inodes v.
Proof.
  intros H Hb. unfold next_ino. destruct (hook op_get_next_ino (s_operations b)) as [f|].
  - destruct (f s (fs v)) as [n w]. eexists _, _, b. split; [done|]. split; [by apply il_fs|]. done.
  - eexists _, _, _. split; [done|]. split; [split; apply H|]. cbn. rewrite lookup_insert_eq. done.
Qed.

(** A superblock whose inodes are allocated by [kmalloc]. *)
Definition plain_super v (s : Z) : Prop :=
  PTR_IS_ERROR s = false ∧ ∃ b, supers v !! s = Some b ∧ hook op_alloc_inode (s_operations b) = None.

Lemma create_ok v F s all clean dirty :
  inode_lists v F s all clean dirty → plain_super v s →
  ∃ x v', superblock_createInode s v = Ok (x, v') ∧ plain_super v' s ∧
    (x = ERR_PTR (- ENOMEM) ∧ inode_lists v' F s all clean dirty ∨
     ∃ F' ino, (x ∉ all) ∧ inode_lists v' F' s (x :: all) (x :: clean) dirty ∧ inodes v' !! x = Some (blank_inode s ino)).
Proof.
  intros H (He & b & Hb & Hal). unfold superblock_createInode, PTR_IS_INVALID, get_super.
  rewrite (proj2 (Z.eqb_neq s 0)), He by apply H. cbn [orb]. rewrite Hb. cbn [of_option obind].
  destruct (next_ino_ok v F s all clean dirty b H Hb) as (n & v1 & b' & E1 & H1 & Hb' & Eop & Ehm & Ein). rewrite E1.
  unfold inode_memory. rewrite Hal. destruct (kmalloc INODE_SIZE (heap (hm v1))) as [x a] eqn:Ek.
  set (v2 := set_hm _ v1).
  assert (∀ v', supers v' = supers v1 → plain_super v' s) as Hps.
  { intros v' Es. split; [done|]. exists b'. by rewrite Es, Eop. }
  destruct ((x =? 0) || PTR_IS_ERROR x) eqn:Einv.
  - eexists _, _. split; [done|]. split; [by apply Hps|]. left. split; [done|].
    split; try apply H1. apply (all_placed_grow (hm v1)); [|apply H1].
    by destruct (kmalloc_block INODE_SIZE _ _ _ ltac:(done) Ek) as [Hg _].
  - apply orb_false_elim in Einv as [Hx _]. apply Z.eqb_neq in Hx.
    destruct (new_cells_ok (hm v1) a F x INODE_SIZE (inode_cells x) ltac:(done) (inode_cells_range x) (il_fam _ _ _ _ _ _ H1) (il_placed _ _ _ _ _ _ H1) Ek Hx) as (HF & Hfresh & Hg & Hblk).
    set (c0 := foldr _ _ _) in HF, Hfresh.
    destruct (link_new c0 F s _ _ x HF (il_all _ _ _ _ _ _ H1) (il_clean _ _ _ _ _ _ H1) Hfresh)
      as (c1 & c2 & c3 & c4 & c5 & F1 & F2 & F3 & F4 & F5 & HF').
    set (v3 := new_inode x _ v2).
    assert (lists v3 = c0) as El by done.
    rewrite (on_lists_ok _ v3 c1) by (rewrite El; exact F1). cbn [obind].
    rewrite (on_lists_ok _ _ c2) by exact F2. cbn [obind]. rewrite (on_lists_ok _ _ c3) by exact F3. cbn [obind].
    rewrite (on_lists_ok _ _ c4) by exact F4. cbn [obind]. rewrite (on_lists_ok _ _ c5) by exact F5. cbn [obind].
    set (v4 := set_lists c5 _).
    assert (inodes v4 !! x = Some (blank_inode s (u64 n))) as Hnew by (cbn; by rewrite lookup_insert_eq).
    assert (inode_ref x v4 = Ok (0, v4)) as Eref.
    { unfold inode_ref, get_inode. rewrite (proj2 (Z.eqb_neq x 0)), Hnew by done. done. }
    rewrite Eref. cbn [obind]. eexists _, _. split; [done|]. split; [by apply Hps|]. right.
    assert (inodes v4 = <[x := blank_inode s (u64 n)]> (inodes v1)) as Einodes by done.
    destruct (il_new v1 F s all clean dirty x (u64 n) v4 H1 Hx) as [Hnin Hil]; [by apply Hfresh|exact HF'|exact Hg|exact Hblk|exact Einodes|].
    eexists _, (u64 n). split; [exact Hnin|]. split; [exact Hil|exact Hnew].
Qed.

(** ** The inode cache *)

Definition inode_key (i : inode) : Z * Z := (i_superblock i, i_ino i).
Definition hash_nodes (l : list Z) : list Z := (λ x, x + I_HASH) <$> l.

(** The table of the cache holds the inodes [xs]. *)
Record icache_rep v F (xs : list Z) : Prop := {
  ic_rep : ht_rep (ihash (0, 0) v) icache_getkey (iequal (0, 0) v) (itab v) (hm v) F (hash_nodes xs);
  ic_inode x : x ∈ xs → 0 < x < 2 ^ 63 ∧ is_Some (inodes v !! x);
}.

Lemma icache_callbacks local v : callbacks (ihash local v) (iequal local v).
Proof.
  unfold ihash, iequal, icache_equal. split.
  - intros k. apply u32_range.
  - intros k k'. by rewrite (Z.eqb_sym (key_at local v k).1), (Z.eqb_sym (key_at local v k).2).
  - intros k k' E. bool_props. unfold icache_hash. congruence.
Qed.

Lemma key_of_node x : icache_getkey (x + I_HASH) = x + I_KEY.
Proof. unfold icache_getkey. lia. Qed.

Lemma key_at_inode local v x i : 0 < x → inodes v !! x = Some i → key_at local v (x + I_KEY) = inode_key i.
Proof.
  intros Hx Hi. unfold key_at, LOCAL_KEY. rewrite (proj2 (Z.eqb_neq _ _)) by (unfold I_KEY; lia).
  replace (x + I_KEY - I_KEY) with x by lia. by rewrite Hi.
Qed.

Lemma icache_equal_iff k1 k2 : icache_equal k1 k2 = true ↔ k1 = k2.
Proof. destruct k1, k2. unfold icache_equal. cbn. rewrite andb_true_iff, !Z.eqb_eq. split; [intros [-> ->]; done|intros [= -> ->]; done]. Qed.

Lemma icache_local local v F xs :
  icache_rep v F xs → ht_rep (ihash local v) icache_getkey (iequal local v) (itab v) (hm v) F (hash_nodes xs).
Proof.
  intros HR. assert (∀ n, n ∈ hash_nodes xs → key_at local v (icache_getkey n) = key_at (0, 0) v (icache_getkey n)) as Hk.
  { intros n Hn. apply list_elem_of_fmap in Hn as (x & -> & Hx). destruct (ic_inode _ _ _ HR x Hx) as [Hr [i Hi]].
    rewrite key_of_node, !(key_at_inode _ v x i) by (done || lia). done. }
  apply (ht_rep_ext (ihash (0, 0) v) _ _ (iequal (0, 0) v)); [| |apply HR].
  - intros n Hn. unfold ihash. by rewrite Hk.
  - intros n n' Hn Hn'. unfold iequal. by rewrite !Hk.
Qed.

(** A lookup finds the inode with the key, with one more reference, if there is one. *)
Lemma icache_lookup_ok v F xs sb ino :
  icache_rep v F xs →
  (∃ x i v', x ∈ xs ∧ inodes v !! x = Some i ∧ inode_key i = (sb, ino) ∧ icache_lookup sb ino v = Ok (x, v') ∧
     v' = (if inode_isBad i then v else put_inode x (set_i_refcount (s32 (i_refcount i + 1)) i) v)) ∨
  (∀ x i, x ∈ xs → inodes v !! x = Some i → inode_key i ≠ (sb, ino)) ∧ icache_lookup sb ino v = Ok (0, v).
Proof.
  intros HR. unfold icache_lookup.
  destruct (lookup_spec (ihash (sb, ino) v) icache_getkey (iequal (sb, ino) v) (icache_callbacks _ v) _ _ F _ LOCAL_KEY
    (icache_local (sb, ino) v F xs HR)) as (r & -> & Hr); [done|]. cbn [obind].
  assert (key_at (sb, ino) v LOCAL_KEY = (sb, ino)) as Hloc by done.
  destruct Hr as [(Hr0 & Hin & Heq)|[-> Hno]].
  - left. apply list_elem_of_fmap in Hin as (x & -> & Hx). destruct (ic_inode _ _ _ HR x Hx) as [Hrg [i Hi]].
    unfold iequal in Heq. rewrite key_of_node, (key_at_inode _ v x i), Hloc, icache_equal_iff in Heq by (done || lia).
    assert (PTR_IS_INVALID (x + I_HASH) = false) as ->.
    { unfold PTR_IS_INVALID, PTR_IS_ERROR. rewrite (proj2 (Z.eqb_neq _ 0)) by done.
      rewrite u64_small by (unfold I_HASH; lia). apply Z.leb_gt. unfold I_HASH. lia. }
    replace (x + I_HASH - I_HASH) with x by lia.
    assert (inode_ref x v = Ok (if inode_isBad i then 0 else x, if inode_isBad i then v else put_inode x (set_i_refcount (s32 (i_refcount i + 1)) i) v)) as ->.
    { unfold inode_ref, get_inode. rewrite (proj2 (Z.eqb_neq x 0)), Hi by lia. cbn. by destruct (inode_isBad i). }
    cbn [obind]. by exists x, i, (if inode_isBad i then v else put_inode x (set_i_refcount (s32 (i_refcount i + 1)) i) v).
  - right. split; [|done]. intros x i Hx Hi Ek. destruct (ic_inode _ _ _ HR x Hx) as [Hrg _].
    assert (iequal (sb, ino) v (icache_getkey (x + I_HASH)) LOCAL_KEY = true) as E.
    { unfold iequal. rewrite key_of_node, (key_at_inode _ v x i), Hloc by (done || lia). by apply icache_equal_iff. }
    rewrite Hno in E; [done|]. apply list_elem_of_fmap. by exists x.
Qed.

Lemma on_lists_supers (f : store → outcome store) v v' : on_lists f v = Ok v' → supers v' = supers v.
Proof. unfold on_lists. intros E. by inv_ok. Qed.

Lemma leave_supers x v v' : leave_state_list x v = Ok v' → supers v' = supers v.
Proof. unfold leave_state_list. intros E. inv_ok. case_match; [by eapply on_lists_supers|by inv_ok]. Qed.

Lemma unref_supers x v v' : inode_unref x v = Ok v' → supers v' = supers v.
Proof.
  unfold inode_unref. intros E. case_match; [by inv_ok|]. inv_ok. repeat case_match; inv_ok; try done.
  erewrite on_lists_supers by eassumption. by erewrite leave_supers by eassumption.
Qed.

Lemma setDirty_supers x v v' : inode_setDirty x v = Ok v' → supers v' = supers v.
Proof.
  unfold inode_setDirty. intros E. case_match; [by inv_ok|]. inv_ok. case_match; inv_ok; try done.
  erewrite on_lists_supers by eassumption. cbn. by erewrite leave_supers by eassumption.
Qed.

Lemma ref_supers x v r v' : inode_ref x v = Ok (r, v') → supers v' = supers v.
Proof. unfold inode_ref. intros E. case_match; [by inv_ok; simplify_eq|]. inv_ok. case_match; inv_ok; by simplify_eq. Qed.

Inductive inode_op :=
| ORef (x : Z)
| OUnref (x : Z)
| OSetDirty (x : Z)
| OSync (x wait : Z)
| OCreate.

Definition run_op (s : Z) (op : inode_op) v : outcome (@vfs A W) :=
  match op with
  | ORef x => let! (_, v) := inode_ref x v in Ok v
  | OUnref x => inode_unref x v
  | OSetDirty x => inode_setDirty x v
  | OSync x wait => let! (_, v) := inode_sync x wait v in Ok v
  | OCreate => let! (_, v) := superblock_createInode s v in Ok v
  end.

Fixpoint run_ops (s : Z) (ops : list inode_op) v : outcome (@vfs A W) :=
  match ops with
  | [] => Ok v
  | op :: ops => let! v := run_op s op v in run_ops s ops v
  end.

Definition op_inodes (op : inode_op) : list Z :=
  match op with
  | ORef x | OUnref x | OSetDirty x | OSync x _ => [x]
  | OCreate => []
  end.

Lemma run_op_ok s op v F all clean dirty :
  inode_lists v F s all clean dirty → plain_super v s → op_inodes op ⊆ all →
  ∃ v' F' all' clean' dirty', run_op s op v = Ok v' ∧ inode_lists v' F' s all' clean' dirty' ∧ plain_super v' s ∧ all ⊆ all'.
Proof.
  intros H HP Hop. assert (∀ v', supers v' = supers v → plain_super v' s) as Hps.
  { intros v' E. destruct HP as [? (b & Hb & ?)]. split; [done|]. exists b. by rewrite E. }
  assert (∀ x, op_inodes op = [x] → x ∈ all) as Hx by (intros x E; apply Hop; rewrite E; by apply list_elem_of_singleton).
  destruct op as [x|x|x|x wait|]; cbn [run_op].
  - destruct (ref_ok v F s all clean dirty x H (Hx x eq_refl)) as (r & v' & E & H'). rewrite E. cbn [obind].
    exists v', F, all, clean, dirty. split; [done|]. split; [done|]. split; [|done]. by eapply Hps, ref_supers.
  - destruct (il_inode _ _ _ _ _ _ H x (Hx x eq_refl)) as (_ & i & Hi & _).
    destruct (unref_ok v F s all clean dirty x i H (Hx x eq_refl) Hi) as (v' & F' & clean' & E & H' & _).
    exists v', F', all, clean', dirty. split; [done|]. split; [done|]. split; [|done]. by eapply Hps, unref_supers.
  - destruct (proj1 (il_member _ _ _ _ _ _ H x) (Hx x eq_refl)) as [Hc|Hd].
    + apply list_elem_of_split in Hc as (c1 & c2 & ->).
      destruct (setDirty_clean v F s all c1 x c2 dirty H) as (v' & F' & E & H').
      exists v', F', all, (c1 ++ c2), (x :: dirty). split; [done|]. split; [done|]. split; [|done]. by eapply Hps, setDirty_supers.
    + exists v, F, all, clean, dirty. split; [by apply (setDirty_dirty v F s all clean dirty)|]. done.
  - destruct (sync_ok v F s all clean dirty x wait H (Hx x eq_refl)) as (r & v' & F' & clean' & dirty' & E & H' & Es & _).
    { destruct HP as [_ (b & -> & _)]. done. }
    rewrite E. cbn [obind]. exists v', F', all, clean', dirty'. split; [done|]. split; [done|]. split; [by apply Hps|done].
  - destruct (create_ok v F s all clean dirty H HP) as (x & v' & E & HP' & Hc). rewrite E. cbn [obind].
    destruct Hc as [[_ H']|(F' & ino & _ & H' & _)].
    + by exists v', F, all, clean, dirty.
    + exists v', F', (x :: all), (x :: clean), dirty. split; [done|]. split; [done|]. split; [done|]. intros y Hy. by apply elem_of_cons; right.
Qed.

(** C25. At any time an inode is on exactly one of the two state lists of its
    superblock, and it is the dirty list exactly when the inode is flagged dirty: taking
    and dropping references, marking dirty, writing back and creating inodes, in any
    order, all return and keep the lists that way. *)
Theorem inode_one_state_list s ops v F all clean dirty :
  inode_lists v F s all clean dirty → plain_super v s → Forall (λ op, op_inodes op ⊆ all) ops →
  ∃ v' F' all' clean' dirty', run_ops s ops v = Ok v' ∧ inode_lists v' F' s all' clean' dirty' ∧
    NoDup (clean' ++ dirty') ∧ all ⊆ all'.
Proof.
  intros H HP Hops. revert v F all clean dirty H HP Hops.
  induction ops as [|op ops IH]; intros v F all clean dirty H HP Hops; cbn [run_ops].
  - exists v, F, all, clean, dirty. split; [done|]. split; [done|]. split; [by eapply il_nodup|done].
  - apply Forall_cons in Hops as [Hop Hops].
    destruct (run_op_ok s op v F all clean dirty H HP Hop) as (v1 & F1 & all1 & c1 & d1 & E & H1 & HP1 & Hsub).
    rewrite E. cbn [obind]. destruct (IH v1 F1 all1 c1 d1 H1 HP1) as (v' & F' & all' & c' & d' & E' & H' & Hnd & Hsub').
    + eapply Forall_impl; [exact Hops|]. cbn. intros o Ho. by etransitivity.
    + exists v', F', all', c', d'. split; [done|]. split; [done|]. split; [done|]. by etransitivity.
Qed.

(** C27. [sync_filesystem] first calls the file system's own [sync_fs], if it has one; a
    result that is not 0 is returned and no inode is touched. Otherwise it ends after
    calling [write_inode], if the file system has it, for the dirty inodes in the order
    of their list up to the first failure, whose result it returns. With [wait] exactly the inodes
    it wrote have moved to the clean list, without [wait] none has. *)
Theorem sync_filesystem_spec s wait v F all clean dirty b :
  inode_lists v F s all clean dirty → supers v !! s = Some b →
  let (r0, w0) := match hook op_sync_fs (s_operations b) with Some g => g s wait (fs v) | None => (0, fs v) end in
  if negb (r0 =? 0) then sync_filesystem s wait v = Ok (r0, set_fs w0 v)
  else
    let '(rest, r, w) := write_back b wait dirty w0 in
    ∃ v' F' written, dirty = written ++ rest ∧ sync_filesystem s wait v = Ok (r, v') ∧
      inode_lists v' F' s all (reverse written ++ clean) rest ∧ fs v' = w.
Proof.
  intros H Hb. unfold sync_filesystem, get_super. rewrite (proj2 (Z.eqb_neq s 0)), Hb by apply H. cbn [of_option obind].
  assert (∀ w0, let '(rest, r, w) := write_back b wait dirty w0 in
    ∃ v' F' written, dirty = written ++ rest ∧
      (let! pos := get_next (s + S_DIRTY) (lists v) in let! n := get_next pos (lists v) in
       sync_loop (size (lists v)) s pos n wait 0 (set_fs w0 v)) = Ok (r, v') ∧
      inode_lists v' F' s all (reverse written ++ clean) rest ∧ fs v' = w) as Hloop.
  { intros w0. destruct (write_back b wait dirty w0) as [[rest r] w] eqn:E.
    pose proof (fam_dll _ _ (il_fam _ _ _ _ _ _ H) _ _ (il_dirty _ _ _ _ _ _ H)) as D.
    rewrite (get_next_ok _ _ _ (dll_first _ _ _ D)). cbn [obind]. fold (first_of (s + S_DIRTY) (state_nodes dirty)).
    rewrite (next_of_first _ _ _ D). cbn [obind].
    exact (write_back_ok b s all wait dirty (set_fs w0 v) F clean rest r w (il_fs _ _ _ _ _ _ w0 H) Hb E). }
  destruct (hook op_sync_fs (s_operations b)) as [g|].
  - destruct (g s wait (fs v)) as [r0 w0]. destruct (Z.eqb_spec r0 0) as [->|Hr]; cbn [negb]; [exact (Hloop w0)|done].
  - specialize (Hloop (fs v)). assert (set_fs (fs v) v = v) as Hv by by destruct v. rewrite Hv in Hloop. exact Hloop.
Qed.

(** The inode cache maps (superblock, number) pairs to inodes: inserting an inode
    whose pair is not in use makes a lookup of that pair, and of it alone, return the
    new inode; every other lookup is unaffected. *)
Theorem icache_insert_lookup v F xs x i :
  icache_rep v F xs → 0 < x < 2 ^ 63 → inodes v !! x = Some i → i_superblock i ≠ 0 →
  ~ in_family F (x + I_HASH) → is_Some (lists v !! (x + I_HASH)) →
  items (itab v) < ht_size (itab v) * max_load (itab v) / 100 →
  (∀ y j, y ∈ xs → inodes v !! y = Some j → inode_key j ≠ inode_key i) →
  ∃ v' F', icache_insert x v = Ok v' ∧ inodes v' = inodes v ∧ icache_rep v' F' (x :: xs) ∧
    ∀ sb ino, ∃ y v2, icache_lookup sb ino v' = Ok (y, v2) ∧
      ((sb, ino) = inode_key i ∧ y = x ∨ (sb, ino) ≠ inode_key i ∧ ∃ v3, icache_lookup sb ino v = Ok (y, v3)).
Proof.
  intros HR Hx Hi Hsb Hfresh Hs Hload Hkeys. unfold icache_insert, get_inode.
  rewrite (proj2 (Z.eqb_neq x 0)), Hi by lia. cbn [of_option obind]. rewrite (proj2 (Z.eqb_neq _ 0)) by done.
  destruct (insert_below_spec (ihash (0, 0) v) icache_getkey (iequal (0, 0) v) (icache_callbacks _ v) _ _ F _ (x + I_HASH)
    (ic_rep _ _ _ HR)) as [[(n & Hn & Eq) _]|[_ (t' & m' & F' & -> & HR' & _)]];
    [unfold I_HASH; lia|rewrite key_of_node; unfold I_KEY; lia|done|done|done| |].
  - exfalso. apply list_elem_of_fmap in Hn as (y & -> & Hy). destruct (ic_inode _ _ _ HR y Hy) as [Hyr [j Hj]].
    unfold iequal in Eq. rewrite !key_of_node, (key_at_inode _ v y j), (key_at_inode _ v x i), icache_equal_iff in Eq by (done || lia).
    by apply (Hkeys y j).
  - cbn [obind]. set (v' := set_itab _ _).
    assert (icache_rep v' F' (x :: xs)) as HR2.
    { split; [exact HR'|]. intros y [->|Hy]%elem_of_cons; [split; [done|by exists i]|by apply HR]. }
    exists v', F'. split; [done|]. split; [done|]. split; [done|]. intros sb ino.
    destruct (icache_lookup_ok v' F' (x :: xs) sb ino HR2) as [(y & j & v2 & Hy & Hj & Hk & E & _)|[Hno E]].
    + exists y, v2. split; [done|]. change (inodes v !! y = Some j) in Hj.
      destruct (decide (y = x)) as [->|Hne]; [left; split; congruence|right].
      apply elem_of_cons in Hy as [?|Hy]; [done|]. split; [intros E2; apply (Hkeys y j Hy Hj); congruence|].
      destruct (icache_lookup_ok v F xs sb ino HR) as [(z & k & v3 & Hz & Hk3 & Hkk & E3 & _)|[Hno3 _]].
      * exists v3. assert (z = y) as ->; [|done].
        assert (y + I_HASH = z + I_HASH) as E4; [|lia].
        apply (hr_unique _ _ _ _ _ _ _ (ic_rep _ _ _ HR)); [apply list_elem_of_fmap; by exists y|apply list_elem_of_fmap; by exists z|].
        destruct (ic_inode _ _ _ HR y Hy), (ic_inode _ _ _ HR z Hz).
        unfold iequal. rewrite !key_of_node, (key_at_inode _ v y j), (key_at_inode _ v z k), icache_equal_iff by (done || lia). congruence.
      * by destruct (Hno3 y j Hy Hj).
    + exists 0, v'. split; [done|]. right. split.
      * intros E2. apply (Hno x i); [by apply elem_of_cons; left|done|done].
      * destruct (icache_lookup_ok v F xs sb ino HR) as [(z & k & v3 & Hz & Hk3 & Hkk & E3 & _)|[_ E3]]; [|by exists v].
        exfalso. apply (Hno z k); [by apply elem_of_cons; right|done|done].
Qed.
End Spec.

(** ** Witnesses

    A machine with one superblock at 4096, whose file system logs the inodes it writes,
    a cache of 16 buckets, and two inodes made by running the code. *)

#[local] Instance log_ops : SuperOps (list Z) := {
  op_get_next_ino _ := None;
  op_alloc_inode _ := None;
  op_read_inode _ := None;
  op_write_inode _ := Some (λ x _ w, (0, w ++ [x]));
  op_evict_inode _ := None;
  op_sync_fs _ := Some (λ s _ w, (0, w ++ [s]));
  op_put_super _ := None;
  op_permission _ := None;
}.

Definition SB : Z := 4096.

Definition ivfs0 : @vfs Z (list Z) :=
  let heads := (λ p, (p, ListHead p p)) <$> [SB + S_ALL; SB + S_CLEAN; SB + S_DIRTY] in
  let m := HMem (list_to_map heads) (Expansion 0 0 0 0) 8192 in
  let supers := {[SB := Superblock 0 1 1 1 0 0 0 0]} in
  match hashtable_setup (Some (HT 0 0 0 0 0)) 16 75 m with
  | Ok (_, Some t, m) => Vfs ∅ supers m t []
  | _ => Vfs ∅ supers m (HT 0 0 0 0 0) []
  end.

Definition ivfs_after (ops : list inode_op) : @vfs Z (list Z) :=
  match run_ops SB ops ivfs0 with
  | Ok v => v
  | _ => ivfs0
  end.

(** The lists such a machine should have. *)
Definition sample_heads (v : @vfs Z (list Z)) (all clean dirty : list Z) : list (Z * list Z) :=
  [(SB + S_ALL, all_nodes all); (SB + S_CLEAN, state_nodes clean); (SB + S_DIRTY, state_nodes dirty)] ++
  ((λ i, (bucket (buckets (itab v)) i, [])) <$> seqZ 0 16).

Lemma sample_lists_ok v all clean dirty :
  let L := sample_heads v all clean dirty in
  Forall (λ e, dll (lists v) e.1 e.2) L → NoDup (L ≫= λ e, e.1 :: e.2) →
  Forall (λ x, x < heap (hm v)) (L ≫= λ e, e.1 :: e.2) →
  Forall (λ x, x ∈ clean ∨ x ∈ dirty) all → Forall (λ x, x ∈ all) (clean ++ dirty) →
  Forall (λ x, x ≠ 0 ∧ from_option (λ i, i_superblock i = SB ∧ has I_DIRTY (i_state i) = bool_decide (x ∈ dirty)) False (inodes v !! x)) all →
  inode_lists v (list_to_map L) SB all clean dirty.
Proof.
  intros L HD Hnd Hpl H1 H2 H3. rewrite !Forall_forall in H1, H2, H3, Hpl. split.
  - by apply family_intro.
  - intros x (p & l & Hp & Hx). exists x, 1. assert (x < heap (hm v)) as Hlt; [|cbn; lia].
    apply Hpl, list_elem_of_bind. exists (p, l). split; [done|]. by apply elem_of_list_to_map_2.
  - unfold L, sample_heads. cbn [app]. rewrite list_to_map_cons, lookup_insert_eq. done.
  - unfold L, sample_heads. cbn [app]. rewrite !list_to_map_cons, lookup_insert_ne, lookup_insert_eq by done. done.
  - unfold L, sample_heads. cbn [app]. rewrite !list_to_map_cons, !lookup_insert_ne, lookup_insert_eq by done. done.
  - intros x. split; [apply H1|]. intros Hx. apply H2, elem_of_app. done.
  - done.
  - intros x Hx. destruct (H3 x Hx) as [Hx0 Hi]. split; [done|]. destruct (inodes v !! x) as [i|]; [|done]. cbn in Hi.
    exists i. destruct Hi as [Hs Hd]. split; [done|]. split; [done|]. rewrite Hd. apply bool_decide_eq_true.
Qed.

Lemma sample_inodes ops all clean dirty :
  let v := ivfs_after ops in let L := sample_heads v all clean dirty in
  bool_decide (Forall (λ e, dll (lists v) e.1 e.2) L ∧ NoDup (L ≫= λ e, e.1 :: e.2) ∧
    Forall (λ x, x < heap (hm v)) (L ≫= λ e, e.1 :: e.2)) = true →
  bool_decide (Forall (λ x, x ∈ clean ∨ x ∈ dirty) all ∧ Forall (λ x, x ∈ all) (clean ++ dirty)) = true →
  forallb (λ x, negb (x =? 0) && from_option (λ i, (i_superblock i =? SB) && Bool.eqb (has I_DIRTY (i_state i)) (bool_decide (x ∈ dirty))) false (inodes v !! x)) all = true →
  inode_lists v (list_to_map L) SB all clean dirty.
Proof.
  intros v L (H1 & H2 & H3)%bool_decide_eq_true (H4 & H5)%bool_decide_eq_true H6.
  apply sample_lists_ok; [done..|]. rewrite forallb_forall in H6. apply Forall_forall. intros x Hx.
  apply list_elem_of_In in Hx. apply H6 in Hx. bool_props. split; [done|]. destruct (inodes v !! x) as [i|]; [|done]. cbn in *.
  bool_props. split; [done|by apply Bool.eqb_prop].
Qed.

Lemma sample_super ops : supers (ivfs_after ops) !! SB ≠ None → plain_super (ivfs_after ops) SB.
Proof. intros H. split; [done|]. destruct (supers _ !! SB) as [b|]; [|done]. exists b. split; [done|]. unfold hook. by case_match. Qed.

Lemma inode_one_state_list_witness :
  let v := ivfs_after [OCreate; OCreate] in
  ∃ v' F' all' clean' dirty', run_ops SB [OSetDirty 8576; OUnref 8576; OSetDirty 8832; OSync 8576 1; OCreate; ORef 8832] v = Ok v' ∧
    inode_lists v' F' SB all' clean' dirty' ∧ NoDup (clean' ++ dirty').
Proof.
  intros v.
  destruct (inode_one_state_list SB [OSetDirty 8576; OUnref 8576; OSetDirty 8832; OSync 8576 1; OCreate; ORef 8832] v
    (list_to_map (sample_heads v [8832; 8576] [8832; 8576] [])) [8832; 8576] [8832; 8576] [])
    as (v' & F' & all' & clean' & dirty' & E & H & Hnd & _).
  - apply sample_inodes; vm_compute; reflexivity.
  - apply sample_super. vm_compute. discriminate.
  - repeat (apply Forall_cons; split; [cbn; set_solver|]). apply Forall_nil; exact I.
  - exists v', F', all', clean', dirty'. split; [exact E|]. split; [exact H|exact Hnd].
Defined.

Lemma sync_filesystem_spec_witness :
  let v := ivfs_after [OCreate; OCreate; OSetDirty 8576; OSetDirty 8832] in
  ∃ v' F', sync_filesystem SB 1 v = Ok (0, v') ∧ inode_lists v' F' SB [8832; 8576] [8576; 8832] [] ∧
    fs v' = [SB; 8832; 8576].
Proof.
  intros v.
  destruct (sync_filesystem_spec SB 1 v (list_to_map (sample_heads v [8832; 8576] [] [8832; 8576])) [8832; 8576] [] [8832; 8576]
    (Superblock 0 1 1 3 0 0 0 0)) as (v' & F' & written & E1 & E2 & H & E3).
  - apply sample_inodes; vm_compute; reflexivity.
  - vm_compute. reflexivity.
  - rewrite app_nil_r in E1. subst written. exists v', F'. split; [exact E2|]. split; [exact H|exact E3].
Defined.

Lemma permission_rule_witness :
  let i := Inode 33188 1000 100 0 1 0 7 1 1 0 0 0 in
  let v : @vfs Z (list Z) := Vfs {[8192 := i]} ∅ (hm ivfs0) (itab ivfs0) [] in
  inode_permission 1001 8192 MAY_READ v = Ok (0, v) ∧ inode_permission 1001 8192 MAY_WRITE v = Ok (- EACCES, v).
Proof.
  intros i v. split.
  - destruct (permission_rule 1001 8192 MAY_READ v v i false) as (r & E & _ & _ & Hr & _); [lia|reflexivity..|].
    rewrite E. cbn. do 2 f_equal. apply Hr. right. split; [done|]. intros b Hb.
    assert (b = 0 ∨ b = 1 ∨ b = 2) as [->|[->| ->]] by lia; done.
  - destruct (permission_rule 1001 8192 MAY_WRITE v v i false) as (r & E & _ & _ & Hr & Hr'); [lia|reflexivity..|].
    rewrite E. cbn. do 2 f_equal. destruct Hr' as [->|[->| ->]]; [exfalso| |done].
    + destruct (proj1 Hr eq_refl) as [?|[_ Hg]]; [done|]. by specialize (Hg 1 ltac:(lia) eq_refl).
    + vm_compute in E. done.
Defined.

Lemma icache_insert_lookup_witness :
  let v := ivfs_after [OCreate; OCreate] in
  ∃ v' F', icache_insert 8576 v = Ok v' ∧ icache_rep v' F' [8576] ∧
    ∃ y v2, icache_lookup SB 2 v' = Ok (y, v2) ∧ y = 8576.
Proof.
  intros v. set (L := sample_heads v [8832; 8576] [8832; 8576] []).
  assert (inode_lists v (list_to_map L) SB [8832; 8576] [8832; 8576] []) as H by (apply sample_inodes; vm_compute; reflexivity).
  destruct (icache_insert_lookup v (list_to_map L) [] 8576 (blank_inode SB 2)) as (v' & F' & E & _ & HR & Hl).
  - split; [|by intros x ?%elem_of_nil]. split.
    + apply H.
    + exists 4. split; [lia|]. vm_compute. reflexivity.
    + intros i Hi. exists []. split; [|intros x; rewrite !elem_of_nil; tauto].
      assert (ht_size (itab v) = 16) as Es by (vm_compute; reflexivity).
      assert (i ∈ seqZ 0 16) as Hin by (apply elem_of_seqZ; rewrite Es in Hi; lia). clear Hi. revert i Hin.
      apply Forall_forall. apply (bool_decide_unpack _). vm_compute. exact I.
    + by intros x ?%elem_of_nil.
    + by intros x y ?%elem_of_nil.
    + apply NoDup_nil_2.
    + split; vm_compute; reflexivity.
    + vm_compute. split; discriminate.
  - lia.
  - vm_compute. reflexivity.
  - discriminate.
  - intros (p & l & Hp & Hx). apply elem_of_list_to_map_2 in Hp.
    assert (Forall (λ e : Z * list Z, 8576 + I_HASH ∉ e.1 :: e.2) L) as Hno by (apply (bool_decide_unpack _); vm_compute; exact I).
    rewrite Forall_forall in Hno. by apply (Hno (p, l)).
  - vm_compute. by eexists.
  - vm_compute. reflexivity.
  - intros y j Hy. apply elem_of_nil in Hy. destruct Hy.
  - exists v', F'. split; [exact E|]. split; [exact HR|]. destruct (Hl SB 2) as (y & v2 & E2 & Hy). exists y, v2. split; [exact E2|].
    destruct Hy as [[_ ->]|[Hne _]]; [reflexivity|]. by destruct Hne.
Defined.
