(* ===== verification/Dentry.v ===== *)
(** * Directory entries and their cache ([kernel/fs/vfs/dentry.c])

    Dentries and their names live in maps from addresses to records, next to the
    inodes of [Inode]; the list members of a dentry are cells of the same memory.
    Locks are left out.

    The hash table gets its keys from [__dentry_get_key], which fills one static
    structure and returns its address. A key pointer is therefore modelled by the node
    the static key was last filled from, or by [LOCAL_KEY] for the local key of
    [__dentry_lookupHash]; comparing the static key with itself says equal whatever
    nodes were meant. *)

From stdpp Require Import base gmap list.
From S2P Require Import Prelude ListHead KString Hashtable Qstr Inode.
Local Open Scope Z_scope.
Local Open Scope kernel_scope.

Definition DCACHE_DISCONNECTED : Z := 1.
Definition DCACHE_REFERENCED : Z := 64.
Definition DCACHE_NEGATIVE : Z := 256.
Definition DCACHE_MOUNTED : Z := 8192.
Definition DCACHE_HASHED : Z := 16384.

Definition ATTR_MODE : Z := 1.
Definition ATTR_UID : Z := 2.
Definition ATTR_GID : Z := 4.
Definition ATTR_SIZE : Z := 8.

Definition CONFIG_MAX_PATH_DEPTH : nat := 128.

(** Offsets of the list members. *)
Definition D_HASH : Z := 32.
Definition D_SIBLING : Z := 56.
Definition D_CHILDREN : Z := 72.
Definition D_LRU : Z := 112.
Definition D_ALIAS : Z := 128.
Definition DENTRY_SIZE : Z := 152.

Record dentry := Dentry {
  d_refcount : Z;
  d_flags : Z;
  d_inode : Z;
  d_name : Z;
  d_parent : Z;
  d_superblock : Z;
  d_time : Z;
  d_op : Z;
}.

Definition set_d_refcount (n : Z) (d : dentry) : dentry :=
  Dentry n (d_flags d) (d_inode d) (d_name d) (d_parent d) (d_superblock d) (d_time d) (d_op d).
Definition set_d_flags (n : Z) (d : dentry) : dentry :=
  Dentry (d_refcount d) n (d_inode d) (d_name d) (d_parent d) (d_superblock d) (d_time d) (d_op d).
Definition set_d_inode (n : Z) (d : dentry) : dentry :=
  Dentry (d_refcount d) (d_flags d) n (d_name d) (d_parent d) (d_superblock d) (d_time d) (d_op d).
Definition set_d_name (n : Z) (d : dentry) : dentry :=
  Dentry (d_refcount d) (d_flags d) (d_inode d) n (d_parent d) (d_superblock d) (d_time d) (d_op d).
Definition set_d_parent (n : Z) (d : dentry) : dentry :=
  Dentry (d_refcount d) (d_flags d) (d_inode d) (d_name d) n (d_superblock d) (d_time d) (d_op d).
Definition set_d_time (n : Z) (d : dentry) : dentry :=
  Dentry (d_refcount d) (d_flags d) (d_inode d) (d_name d) (d_parent d) (d_superblock d) n (d_op d).

(** The two function pointers of [struct dentry_operations] that are called. *)
Class DentryOps (W : Type) : Type := {
  op_revalidate : Z → option (Z → Z → W → Z * W);
  op_prune : Z → option (Z → W → W);
}.

Section Dentry.
Context {A : Type} {KM : KMalloc A} {W : Type} {SO : SuperOps W} {DO : DentryOps W}.
Context (current_hash_algorithm euid : Z).

Record dvfs := Dvfs {
  iv : @vfs A W;
  dentries : gmap Z dentry;
  names : gmap Z qstr;
  dtab : hashtable;
  jiffies : Z;
}.

Definition set_iv (x : @vfs A W) (v : dvfs) : dvfs := Dvfs x (dentries v) (names v) (dtab v) (jiffies v).
Definition set_dentries (x : gmap Z dentry) (v : dvfs) : dvfs := Dvfs (iv v) x (names v) (dtab v) (jiffies v).
Definition set_names (x : gmap Z qstr) (v : dvfs) : dvfs := Dvfs (iv v) (dentries v) x (dtab v) (jiffies v).
Definition set_dtab (x : hashtable) (v : dvfs) : dvfs := Dvfs (iv v) (dentries v) (names v) x (jiffies v).

Definition cells_of (v : dvfs) : store := lists (iv v).
Definition on_cells (f : store → outcome store) (v : dvfs) : outcome dvfs :=
  let! w := on_lists f (iv v) in Ok (set_iv w v).
Definition get_dentry (x : Z) (v : dvfs) : outcome dentry := of_option (dentries v !! x).
Definition put_dentry (x : Z) (d : dentry) (v : dvfs) : dvfs := set_dentries (<[x := d]> (dentries v)) v.
Definition update (x : Z) (f : dentry → dentry) (v : dvfs) : outcome dvfs :=
  let! d := get_dentry x v in Ok (put_dentry x (f d) v).

Definition heap_of (v : dvfs) : A := heap (hm (iv v)).
Definition set_heap (a : A) (v : dvfs) : dvfs :=
  let m := hm (iv v) in set_iv (set_hm (HMem (cells m) (statics m) a) (iv v)) v.

(** ** Keys *)

Definition key_of (local : Z * qstr) (v : dvfs) (k : Z) : option (Z * qstr) :=
  if k =? LOCAL_KEY then Some local
  else
    match dentries v !! (k - D_HASH) with
    | Some d => pair (d_parent d) <$> names v !! d_name d
    | None => None
    end.

Definition __dentry_hashfunction (key : Z * qstr) : Z := u32 (u32 (u32 key.1 * 31) + hash key.2).

Definition __dentry_key_equals (k1 k2 : Z * qstr) : outcome bool :=
  if negb (k1.1 =? k2.1) then Ok false
  else if negb (len k1.2 =? len k2.2) then Ok false
  else
    let! r := text_memcmp (Z.to_nat (len k1.2)) (text (name k1.2)) (text (name k2.2)) in
    Ok (r =? 0).

Definition __dentry_get_key (node : Z) : Z := node.

Definition dhash (local : Z * qstr) (v : dvfs) (k : Z) : Z := default 0 (__dentry_hashfunction <$> key_of local v k).

(** The comparison the table calls. Two keys from [__dentry_get_key] are the same static
    structure. The table takes a function that answers, so a comparison that leaves its
    text counts as unequal; the names of a cache in order never do ([key_equals_ok]). *)
Definition dequal (local : Z * qstr) (v : dvfs) (k1 k2 : Z) : bool :=
  if k2 =? LOCAL_KEY then
    match key_of local v k1, key_of local v k2 with
    | Some a, Some b => if __dentry_key_equals a b is Ok r then r else false
    | _, _ => false
    end
  else true.

Definition no_key : Z * qstr := (0, Qstr (CharP 0 []) 0 0).

Definition init_dentry_hashtable (v : dvfs) : outcome (Z * dvfs) :=
  let! (err, t, m) := hashtable_setup (Some (dtab v)) 1024 75 (hm (iv v)) in
  Ok (err, set_dtab (default (dtab v) t) (set_iv (set_hm m (iv v)) v)).

(** Hashing a dentry without a name reads through a null pointer. *)
Definition __dentry_hash (x : Z) (v : dvfs) : outcome (Z * dvfs) :=
  let! _ := of_option (key_of no_key v (x + D_HASH)) in
  let! (r, t, m) := hashtable_insert (dhash no_key v) __dentry_get_key (dequal no_key v) (Some (dtab v)) (x + D_HASH) (hm (iv v)) in
  Ok (r, set_dtab (default (dtab v) t) (set_iv (set_hm m (iv v)) v)).

Definition __dentry_lookupHash (parent : Z) (name : qstr) (v : dvfs) : outcome Z :=
  let local := (parent, name) in
  let! node := hashtable_lookup (dhash local v) __dentry_get_key (dequal local v) (Some (dtab v)) LOCAL_KEY (hm (iv v)) in
  Ok (if node =? 0 then 0 else node - D_HASH).

(** [hashtable_remove] and the flag, as all three callers write them. *)
Definition unhash (x : Z) (v : dvfs) : outcome dvfs :=
  let! d := get_dentry x v in
  if has DCACHE_HASHED (d_flags d) then
    let! (_, t, m) := hashtable_remove __dentry_get_key (Some (dtab v)) (x + D_HASH) (hm (iv v)) in
    let v := set_dtab (default (dtab v) t) (set_iv (set_hm m (iv v)) v) in
    update x (λ d, set_d_flags (clear_flag DCACHE_HASHED (d_flags d)) d) v
  else Ok v.

(** ** References *)

Definition dentry_ref (x : Z) (v : dvfs) : outcome (Z * dvfs) :=
  if x =? 0 then Ok (0, v)
  else let! v := update x (λ d, set_d_refcount (s32 (d_refcount d + 1)) d) v in Ok (x, v).

(** [if (!list_empty(p)) { list_del(p); INIT_LIST_HEAD(p); }] *)
Definition leave_list (p : Z) (v : dvfs) : outcome dvfs :=
  let! e := list_empty p (cells_of v) in
  if e then Ok v
  else
    let! v := on_cells (list_del p) v in
    on_cells (INIT_LIST_HEAD p) v.

Definition dentry_cells (x : Z) : list Z := [x + D_HASH; x + D_SIBLING; x + D_CHILDREN; x + D_LRU; x + D_ALIAS].

Definition drop_dentry (x : Z) (v : dvfs) : dvfs :=
  let w := iv v in
  let w := kfree_at x (set_lists (foldr delete (lists w) (dentry_cells x)) w) in
  set_dentries (delete x (dentries v)) (set_iv w v).

Definition drop_name (q : Z) (v : dvfs) : dvfs := set_names (delete q (names v)) (set_iv (kfree_at q (iv v)) v).

(** What [__dentry_free] does before it drops the reference to the parent. *)
Definition detach (x : Z) (v : dvfs) : outcome dvfs :=
  let! v := unhash x v in
  let! v := leave_list (x + D_SIBLING) v in
  let! v := leave_list (x + D_LRU) v in
  let! d := get_dentry x v in
  if d_inode d =? 0 then Ok v
  else
    let! e := list_empty (x + D_ALIAS) (cells_of v) in
    let! v := (if e then Ok v else on_cells (list_del_init (x + D_ALIAS)) v) in
    let! w := inode_unref (d_inode d) (iv v) in
    Ok (put_dentry x (set_d_inode 0 d) (set_iv w v)).

(** [dentry_unref] and [__dentry_free] call each other; every level frees a dentry, so
    the number of dentries is enough fuel. *)
Fixpoint dentry_unref_loop (fuel : nat) (x : Z) (v : dvfs) : outcome (Z * dvfs) :=
  if x =? 0 then Ok (- EINVAL, v)
  else
    let! d := get_dentry x v in
    if d_refcount d <=? 0 then Ok (- EINVAL, v)
    else
      let d := set_d_refcount (s32 (d_refcount d - 1)) d in
      let v := put_dentry x d v in
      if d_refcount d =? 0 then
        match fuel with
        | O => Timeout
        | S fuel =>
            let! v := detach x v in
            let! d := get_dentry x v in
            let! v :=
              (if negb (d_parent d =? 0) && negb (d_parent d =? x) then
                 let! (_, v) := dentry_unref_loop fuel (d_parent d) v in
                 update x (set_d_parent 0) v
               else Ok v) in
            let v := if d_name d =? 0 then v else drop_name (d_name d) v in
            Ok (0, drop_dentry x v)
        end
      else Ok (0, v).

Definition dentry_unref (x : Z) (v : dvfs) : outcome (Z * dvfs) := dentry_unref_loop (size (dentries v)) x v.

(** ** Creation and lookup *)

(** The memory of a new dentry, cleared. *)
Definition new_dentry (x : Z) (v : dvfs) : dvfs :=
  let w := iv v in
  put_dentry x (Dentry 0 0 0 0 0 0 0 0)
    (set_iv (set_lists (foldr (λ p c, <[p := ListHead 0 0]> c) (lists w) (dentry_cells x)) w) v).

Definition __dentry_alloc (parent : Z) (nm : qstr) (v : dvfs) : outcome (Z * dvfs) :=
  if is_null (name nm) then Ok (0, v)
  else
    let (x, a) := kmalloc DENTRY_SIZE (heap_of v) in
    let v := set_heap a v in
    if x =? 0 then Ok (0, v)
    else
      let v := new_dentry x v in
      let! v := update x (set_d_refcount 1) v in
      let! v := on_cells (INIT_LIST_HEAD (x + D_CHILDREN)) v in
      let! v := on_cells (INIT_LIST_HEAD (x + D_LRU)) v in
      let! v := on_cells (INIT_LIST_HEAD (x + D_ALIAS)) v in
      let! v := on_cells (INIT_LIST_HEAD (x + D_HASH)) v in
      let! (q, s, a) := qstr_create_with_length current_hash_algorithm (name nm) (len nm) (heap_of v) in
      let v := set_heap a v in
      let v := match s with Some s => set_names (<[q := s]> (names v)) v | None => v end in
      let! v := update x (set_d_name q) v in
      let! (p, v) := (if parent =? 0 then Ok (x, v) else dentry_ref parent v) in
      let! v := update x (set_d_parent p) v in
      if parent =? 0 then Ok (x, v)
      else
        let! pd := get_dentry parent v in
        let! v := update x (λ d, Dentry (d_refcount d) (d_flags d) (d_inode d) (d_name d) (d_parent d) (d_superblock pd) (d_time d) (d_op d)) v in
        let! v := on_cells (list_add (x + D_SIBLING) (parent + D_CHILDREN)) v in
        Ok (x, v).

Definition dentry_lookup (parent : Z) (nm : option qstr) (v : dvfs) : outcome (Z * dvfs) :=
  match nm with
  | None => Ok (0, v)
  | Some nm =>
      if (parent =? 0) || is_null (name nm) then Ok (0, v)
      else
        let! x := __dentry_lookupHash parent nm v in
        if x =? 0 then Ok (0, v)
        else
          let! v := update x (λ d, set_d_flags (Z.lor (d_flags d) DCACHE_REFERENCED)
                      (set_d_time (jiffies v) (set_d_refcount (s32 (d_refcount d + 1)) d))) v in
          Ok (x, v)
  end.

Definition inode_is_dir (i : Z) (v : dvfs) : outcome bool :=
  let! n := get_inode i (iv v) in Ok (S_ISDIR (i_mode n)).

Definition dentry_isDir (x : Z) (v : dvfs) : outcome bool :=
  if x =? 0 then Ok false
  else
    let! d := get_dentry x v in
    if d_inode d =? 0 then Ok false else inode_is_dir (d_inode d) v.

(** A dentry that was found is given up when it fails revalidation (dropping two
    references) or is not of the kind asked for. *)
Definition check_found (x is_dir : Z) (revalidate : bool) (v : dvfs) : outcome (Z * dvfs) :=
  let! (x, v) :=
    (if x =? 0 then Ok (0, v)
     else
       let! d := get_dentry x v in
       match (if revalidate then hook op_revalidate (d_op d) else None) with
       | None => Ok (x, v)
       | Some f =>
           let (r, w) := f x 0 (fs (iv v)) in
           let v := set_iv (set_fs w (iv v)) v in
           if r =? 0 then
             let! (_, v) := dentry_unref x v in
             let! (_, v) := dentry_unref x v in
             Ok (0, v)
           else Ok (x, v)
       end) in
  if (x =? 0) || (is_dir =? -1) then Ok (x, v)
  else
    let! d := get_dentry x v in
    let! type_match :=
      (if d_inode d =? 0 then Ok false
       else
         let! is_directory := inode_is_dir (d_inode d) v in
         Ok (if is_dir =? 1 then is_directory else negb is_directory)) in
    if type_match then Ok (x, v)
    else let! (_, v) := dentry_unref x v in Ok (0, v).

Definition dentry_acquire (parent : Z) (nm : option qstr) (is_dir : Z) (revalidate alloc : bool) (v : dvfs) : outcome (Z * dvfs) :=
  match nm with
  | None => Ok (ERR_PTR (- EINVAL), v)
  | Some nm =>
      if (parent =? 0) || is_null (name nm) then Ok (ERR_PTR (- EINVAL), v)
      else
        let! dir := dentry_isDir parent v in
        if negb dir then Ok (ERR_PTR (- ENOTDIR), v)
        else
          let! h := (if hash nm =? 0 then full_name_hash current_hash_algorithm (name nm) (len nm) else Ok (hash nm)) in
          let tmp_name := Qstr (name nm) (len nm) h in
          let! (x, v) := dentry_lookup parent (Some tmp_name) v in
          let! (x, v) := check_found x is_dir revalidate v in
          if (x =? 0) && alloc then
            let! (x, v) := __dentry_alloc parent tmp_name v in
            if x =? 0 then Ok (0, v)
            else
              let! (ret, v) := __dentry_hash x v in
              let! v := (if ret =? 0 then update x (λ d, set_d_flags (Z.lor (d_flags d) DCACHE_HASHED) d) v else Ok v) in
              let! v := update x (λ d, set_d_flags (Z.lor (d_flags d) DCACHE_NEGATIVE) d) v in
              Ok (x, v)
          else Ok (x, v)
  end.

Definition dentry_acquireRaw (parent : Z) (nm : charp) (is_dir : Z) (revalidate alloc : bool) (v : dvfs) : outcome (Z * dvfs) :=
  if (parent =? 0) || is_null nm then Ok (ERR_PTR (- EINVAL), v)
  else
    let! c := of_option (head (text nm)) in
    if c =? 0 then Ok (ERR_PTR (- EINVAL), v)
    else
      let! n := text_strlen (text nm) in
      let! h := full_name_hash current_hash_algorithm nm (u32 n) in
      dentry_acquire parent (Some (Qstr nm (u32 n) h)) is_dir revalidate alloc v.

(** ** Changes to a dentry *)

Definition dentry_instantiate (x i : Z) (v : dvfs) : outcome (Z * dvfs) :=
  if (x =? 0) || (i =? 0) then Ok (- EINVAL, v)
  else
    let! d := get_dentry x v in
    let! v :=
      (if d_inode d =? 0 then Ok v
       else
         let! e := list_empty (x + D_ALIAS) (cells_of v) in
         let! v := (if e then Ok v else on_cells (list_del_init (x + D_ALIAS)) v) in
         let! w := inode_unref (d_inode d) (iv v) in
         Ok (put_dentry x (set_d_inode 0 d) (set_iv w v))) in
    let! (i, w) := inode_ref i (iv v) in
    let! v := update x (set_d_inode i) (set_iv w v) in
    let! v := on_cells (list_add (x + D_ALIAS) (i + I_DENTRIES)) v in
    Ok (0, v).

Definition dentry_rename (old new : Z) (v : dvfs) : outcome (Z * dvfs) :=
  if (old =? 0) || (new =? 0) then Ok (- EINVAL, v)
  else if old =? new then Ok (0, v)
  else
    let! v := unhash old v in
    let! od := get_dentry old v in
    let! nd := get_dentry new v in
    let! v :=
      (if d_parent od =? d_parent nd then Ok v
       else
         let! v := on_cells (list_del (old + D_SIBLING)) v in
         let! (p, v) := dentry_ref (d_parent nd) v in
         let! v := update old (set_d_parent p) v in
         let! v := on_cells (list_add (old + D_SIBLING) (d_parent nd + D_CHILDREN)) v in
         let! (_, v) := dentry_unref (d_parent od) v in
         Ok v) in
    let v := if d_name od =? 0 then v else drop_name (d_name od) v in
    let! nq := of_option (names v !! d_name nd) in
    let! (q, s, a) := qstr_create_with_length current_hash_algorithm (name nq) (len nq) (heap_of v) in
    let v := set_heap a v in
    let v := match s with Some s => set_names (<[q := s]> (names v)) v | None => v end in
    let! v := update old (set_d_name q) v in
    let! (error, v) := __dentry_hash old v in
    if error =? 0 then
      let! v := update old (λ d, set_d_flags (Z.lor (d_flags d) DCACHE_HASHED) d) v in
      Ok (error, v)
    else Ok (- EBUSY, v).

Definition dentry_revalidate (x flags : Z) (v : dvfs) : outcome (Z * dvfs) :=
  if x =? 0 then Ok (- EINVAL, v)
  else
    let! d := get_dentry x v in
    let! f := of_option (hook op_revalidate (d_op d)) in
    let (r, w) := f x flags (fs (iv v)) in
    Ok (r, set_iv (set_fs w (iv v)) v).

Definition dentry_permission (x mask : Z) (v : dvfs) : outcome (Z * dvfs) :=
  if x =? 0 then Ok (- EINVAL, v)
  else
    let! d := get_dentry x v in
    if d_inode d =? 0 then Ok (- ENOENT, v)
    else
      let! (r, w) := inode_checkPermission euid (d_inode d) mask (iv v) in
      Ok (r, set_iv w v).

Definition dentry_prune (x : Z) (v : dvfs) : outcome dvfs :=
  if x =? 0 then Ok v
  else
    let! d := get_dentry x v in
    let v :=
      match hook op_prune (d_op d) with
      | Some f => set_iv (set_fs (f x (fs (iv v))) (iv v)) v
      | None => v
      end in
    let! v := unhash x v in
    let! v := (if negb (d_parent d =? 0) && negb (d_parent d =? x) then leave_list (x + D_SIBLING) v else Ok v) in
    update x (λ d, set_d_flags (Z.lor (d_flags d) DCACHE_DISCONNECTED) d) v.

Definition dentry_delete (x : Z) (v : dvfs) : outcome (Z * dvfs) :=
  if x =? 0 then Ok (- EINVAL, v)
  else
    let! d := get_dentry x v in
    if d_inode d =? 0 then Ok (- ENOENT, v)
    else
      let! i := get_inode (d_inode d) (iv v) in
      let nlink := if 0 <? i_nlink i then i_nlink i - 1 else i_nlink i in
      let state := if nlink =? 0 then Z.lor (i_state i) I_FREEING else i_state i in
      let i := Inode (i_mode i) (i_uid i) (i_gid i) (i_size i) nlink (i_superblock i) (i_ino i) (i_op i) (i_refcount i) state (i_fs_info i) (i_data i) in
      let v := set_iv (put_inode (d_inode d) i (iv v)) v in
      let! v := dentry_prune x v in
      Ok (0, v).

Definition is_mounted (x : Z) (v : dvfs) : outcome bool :=
  if x =? 0 then Ok false
  else let! d := get_dentry x v in Ok (has DCACHE_MOUNTED (d_flags d)).

Definition dentry_isEmptyDir (x : Z) (v : dvfs) : outcome bool :=
  if x =? 0 then Ok false
  else
    let! dir := dentry_isDir x v in
    if negb dir then Ok false else list_empty (x + D_CHILDREN) (cells_of v).

Definition setattr_prepare (x ia_valid : Z) (v : dvfs) : outcome (Z * dvfs) :=
  let! d := get_dentry x v in
  if d_inode d =? 0 then Ok (- EINVAL, v)
  else
    let check (v : dvfs) :=
      let! (r, w) := inode_checkPermission euid (d_inode d) MAY_WRITE (iv v) in Ok (r, set_iv w v) in
    let! (error, v) := (if has ATTR_MODE ia_valid then check v else Ok (0, v)) in
    if negb (error =? 0) then Ok (error, v)
    else if has (Z.lor ATTR_UID ATTR_GID) ia_valid && negb (euid =? 0) then Ok (- EPERM, v)
    else if has ATTR_SIZE ia_valid then
      let! (error, v) := check v in
      if negb (error =? 0) then Ok (error, v)
      else
        let! dir := inode_is_dir (d_inode d) v in
        if dir then Ok (- EISDIR, v) else Ok (0, v)
    else Ok (0, v).

(** ** Paths *)

Definition name_of (d : dentry) (v : dvfs) : outcome qstr := of_option (names v !! d_name d).

(** The first pass of [dentry_allocFullPath]: the length of the path. *)
Fixpoint path_length (fuel : nat) (x path_len : Z) (v : dvfs) : outcome (Z * dvfs) :=
  if x =? 0 then Ok (path_len, v)
  else
    let! d := get_dentry x v in
    if d_parent d =? x then
      let! (_, v) := dentry_unref x v in
      Ok (s32 (path_len + 1), v)
    else
      match fuel with
      | O => Timeout
      | S fuel =>
          let! q := name_of d v in
          let path_len := s32 (path_len + (len q + 1)) in
          let! (temp, v) := dentry_ref (d_parent d) v in
          let! (_, v) := dentry_unref x v in
          path_length fuel temp path_len v
      end.

(** The second pass writes from the end of the buffer towards its start; [out] is what
    the buffer holds from index [start] on. Writing before the buffer is a fault. *)
Fixpoint path_fill (fuel : nat) (x start : Z) (out : list Z) (v : dvfs) : outcome (list Z * dvfs) :=
  if x =? 0 then Ok (out, v)
  else
    let! d := get_dentry x v in
    if d_parent d =? x then
      let (start, out) := if Nat.eqb (length out) 1 then (start - 1, 47 :: out) else (start, 47 :: tail out) in
      if start <? 0 then Fault
      else
        let! (_, v) := dentry_unref x v in
        Ok (out, v)
    else
      match fuel with
      | O => Timeout
      | S fuel =>
          let! q := name_of d v in
          let start := start - len q - 1 in
          if (start <? 0) || (Z.of_nat (length (text (name q))) <? len q) then Fault
          else
            let out := 47 :: take (Z.to_nat (len q)) (text (name q)) ++ out in
            let! (parent, v) := dentry_ref (d_parent d) v in
            let! (_, v) := dentry_unref x v in
            path_fill fuel parent start out v
      end.

(** The address and contents of the new string. *)
Definition dentry_allocFullPath (x : Z) (v : dvfs) : outcome (charp * dvfs) :=
  if x =? 0 then Ok (CharP 0 [], v)
  else
    let! (d, v) := dentry_ref x v in
    let! (path_len, v) := path_length (size (dentries v)) d 0 v in
    let (buf, a) := kmalloc (u64 (path_len + 1)) (heap_of v) in
    let v := set_heap a v in
    if buf =? 0 then Ok (CharP 0 [], v)
    else
      let! (d, v) := dentry_ref x v in
      let! (out, v) := path_fill (size (dentries v)) d path_len [0] v in
      Ok (CharP buf out, v).

(** The walk of [dentry_allocPath2Mount] up to the mount point: the names stacked, the
    last first, with their total length. *)
Fixpoint mount_walk (fuel : nat) (cur self_parent : Z) (stack : list qstr) (total_len : Z) (v : dvfs) : outcome (list qstr * Z) :=
  if cur =? 0 then Ok (stack, total_len)
  else
    let! d := get_dentry cur v in
    if has DCACHE_MOUNTED (d_flags d) || (d_parent d =? cur) || (d_parent d =? 0) then Ok (stack, total_len)
    else
      match fuel with
      | O => Timeout
      | S fuel =>
          if (length stack <? CONFIG_MAX_PATH_DEPTH)%nat && negb (cur =? self_parent) then
            let! q := name_of d v in
            mount_walk fuel (d_parent d) self_parent (q :: stack) (u64 (total_len + (len q + 1))) v
          else mount_walk fuel (d_parent d) self_parent stack total_len v
      end.

Definition qstr_bytes (q : qstr) : list Z := take (Z.to_nat (len q)) (text (name q)).

Fixpoint join (l : list qstr) : list Z :=
  match l with
  | [] => []
  | [q] => qstr_bytes q
  | q :: l => qstr_bytes q ++ 47 :: join l
  end.

Definition dentry_allocPath2Mount (x : Z) (v : dvfs) : outcome (charp * dvfs) :=
  if x =? 0 then Ok (CharP 0 [], v)
  else
    let! d := get_dentry x v in
    let! (stack, total_len) := mount_walk (size (dentries v)) x (d_parent d) [] 1 v in
    let (path, a) := kmalloc (u64 (total_len + 1)) (heap_of v) in
    let v := set_heap a v in
    if path =? 0 then Ok (CharP 0 [], v)
    else if forallb (λ q, len q <=? Z.of_nat (length (text (name q)))) stack then Ok (CharP path (47 :: join stack ++ [0]), v)
    else Fault.
End Dentry.

Section Spec.
Context {A : Type} {KM : KMalloc A} {KS : KMallocSpec A} {W : Type} {SO : SuperOps W} {DO : DentryOps W}.
Context (alg : Z).
Implicit Types (v : @dvfs A W) (F : heads) (ds : gmap Z dentry) (qs : gmap Z qstr).

(** ** Paths *)

(** [x] is reached from a root over the dentries [ns] (from [x] up) with the names [l]
    (from the root down); all of them are in use. *)
Inductive path_of ds qs : Z → list Z → list qstr → Prop :=
| path_root x d :
    x ≠ 0 → ds !! x = Some d → 0 < d_refcount d < 2 ^ 31 - 2 → d_parent d = x → path_of ds qs x [x] []
| path_child x d q ns l :
    x ≠ 0 → ds !! x = Some d → 0 < d_refcount d < 2 ^ 31 - 2 → d_parent d ≠ x →
    qs !! d_name d = Some q → 0 ≤ len q ≤ Z.of_nat (length (text (name q))) →
    path_of ds qs (d_parent d) ns l → path_of ds qs x (x :: ns) (l ++ [q]).

Lemma path_det ds qs x ns l ns' l' : path_of ds qs x ns l → path_of ds qs x ns' l' → ns' = ns.
Proof.
  intros H. revert ns' l'. induction H as [x d H0 Hd Hr Hp|x d q ns l H0 Hd Hr Hp Hq Hl _ IH]; intros ns' l' H'.
  - by inversion H'; simplify_eq.
  - inversion H'; simplify_eq. f_equal. eauto.
Qed.

(** Every dentry on the way has a path of its own, at most as long. *)
Lemma path_above ds qs x ns l y :
  path_of ds qs x ns l → y ∈ ns → ∃ ns' l', path_of ds qs y ns' l' ∧ (length ns' ≤ length ns)%nat.
Proof.
  intros H. induction H as [x d H0 Hd Hr Hp|x d q ns l H0 Hd Hr Hp Hq Hl Hpath IH]; intros Hy.
  - apply list_elem_of_singleton in Hy as ->. exists [x], []. split; [by eapply path_root|done].
  - apply elem_of_cons in Hy as [->|Hy]; [exists (x :: ns), (l ++ [q]); split; [by eapply path_child|done]|].
    destruct (IH Hy) as (ns' & l' & H' & Hle). exists ns', l'. split; [done|]. cbn. lia.
Qed.

Lemma path_nodup ds qs x ns l : path_of ds qs x ns l → NoDup ns ∧ length ns = S (length l) ∧ ∀ y, y ∈ ns → is_Some (ds !! y).
Proof.
  intros H. induction H as [x d H0 Hd Hr Hp|x d q ns l H0 Hd Hr Hp Hq Hl Hpath (Hnd & Hlen & Hin)].
  - split; [apply NoDup_singleton|]. split; [done|]. intros y ->%list_elem_of_singleton. by exists d.
  - split; [apply NoDup_cons; split; [|done]|split].
    + intros Hx. destruct (path_above _ _ _ _ _ _ Hpath Hx) as (ns' & l' & H' & Hle).
      pose proof (path_det _ _ _ _ _ _ _ (path_child _ _ x d q ns l H0 Hd Hr Hp Hq Hl Hpath) H') as ->. cbn in Hle. lia.
    + rewrite length_app. cbn. lia.
    + intros y [->|Hy]%elem_of_cons; [by exists d|auto].
Qed.

(** The depth of a dentry is below the number of dentries, the fuel of the walks. *)
Lemma path_depth ds qs x ns l : path_of ds qs x ns l → (length l < size ds)%nat.
Proof.
  intros H. destruct (path_nodup _ _ _ _ _ H) as (Hnd & Hlen & Hin).
  assert (list_to_set ns ⊆@{gset Z} dom ds) as Hsub.
  { intros y Hy. rewrite elem_of_list_to_set in Hy. by apply elem_of_dom, Hin. }
  apply subseteq_size in Hsub. rewrite size_list_to_set, size_dom in Hsub by done. lia.
Qed.

(** [x] with one more reference. *)
Definition held (x : Z) (d : dentry) v : @dvfs A W := put_dentry x (set_d_refcount (d_refcount d + 1) d) v.

Lemma ref_held x d v :
  x ≠ 0 → dentries v !! x = Some d → 0 < d_refcount d < 2 ^ 31 - 2 → dentry_ref x v = Ok (x, held x d v).
Proof.
  intros Hx Hd Hr. unfold dentry_ref, update, get_dentry. rewrite (proj2 (Z.eqb_neq x 0)), Hd by done. cbn [of_option obind].
  rewrite s32_small by lia. done.
Qed.

Lemma dvfs_eta v : Dvfs (iv v) (dentries v) (names v) (dtab v) (jiffies v) = v.
Proof. by destruct v. Qed.

Lemma unref_held fuel x d v :
  x ≠ 0 → dentries v !! x = Some d → 0 < d_refcount d < 2 ^ 31 - 2 → dentry_unref_loop fuel x (held x d v) = Ok (0, v).
Proof.
  intros Hx Hd Hr.
  assert (dentries (held x d v) !! x = Some (set_d_refcount (d_refcount d + 1) d)) as Hh by (cbn; by rewrite lookup_insert_eq).
  destruct fuel as [|fuel]; cbn [dentry_unref_loop]; unfold get_dentry; rewrite (proj2 (Z.eqb_neq x 0)), Hh by done;
    cbn [of_option obind d_refcount set_d_refcount];
    (rewrite (proj2 (Z.leb_gt _ 0)) by lia); replace (d_refcount d + 1 - 1) with (d_refcount d) by lia;
    (rewrite s32_small by lia); (rewrite (proj2 (Z.eqb_neq _ 0)) by lia);
    unfold held, put_dentry, set_dentries; cbn; rewrite insert_insert_eq, insert_id by (destruct d; done); by rewrite dvfs_eta.
Qed.

(** One step of the walks: hold the parent, let go of the child. *)
Lemma walk_step fuel x d p dp v :
  x ≠ 0 → dentries v !! x = Some d → 0 < d_refcount d < 2 ^ 31 - 2 → p ≠ x →
  p ≠ 0 → dentries v !! p = Some dp → 0 < d_refcount dp < 2 ^ 31 - 2 →
  dentry_ref p (held x d v) = Ok (p, held x d (held p dp v)) ∧
  dentry_unref_loop fuel x (held x d (held p dp v)) = Ok (0, held p dp v).
Proof.
  intros Hx Hd Hr Hne Hp Hdp Hrp. split.
  - rewrite (ref_held p dp); [|done|cbn; by rewrite lookup_insert_ne|done].
    unfold held, put_dentry, set_dentries. cbn. by rewrite insert_insert_ne.
  - apply unref_held; [done|cbn; by rewrite lookup_insert_ne|done].
Qed.

Definition path_size (l : list qstr) : Z := foldr (λ q n, n + len q + 1) 0 l.

Lemma path_size_snoc l q : path_size (l ++ [q]) = path_size l + len q + 1.
Proof. induction l as [|r l IH]; cbn; [lia|]. unfold path_size in *. lia. Qed.

Lemma path_size_pos ds qs x ns l : path_of ds qs x ns l → 0 ≤ path_size l.
Proof. intros H. induction H; [done|]. rewrite path_size_snoc. lia. Qed.

(** The top of a path, to step to. *)
Lemma path_head ds qs x ns l : path_of ds qs x ns l → ∃ d, x ≠ 0 ∧ ds !! x = Some d ∧ 0 < d_refcount d < 2 ^ 31 - 2.
Proof. intros H. inversion H; eauto. Qed.

Lemma path_length_ok fuel x ns l d acc v :
  path_of (dentries v) (names v) x ns l → dentries v !! x = Some d → (length l ≤ fuel)%nat →
  0 ≤ acc → acc + path_size l + 1 < 2 ^ 31 →
  path_length fuel x acc (held x d v) = Ok (acc + path_size l + 1, v).
Proof.
  intros H. revert fuel d acc. induction H as [x d H0 Hd Hr Hp|x d q ns l H0 Hd Hr Hp Hq Hl Hpath IH];
    intros fuel d' acc Hd' Hf Hacc Hmax; rewrite Hd in Hd'; injection Hd' as <-.
  - assert (dentries (held x d v) !! x = Some (set_d_refcount (d_refcount d + 1) d)) as Hh by (cbn; by rewrite lookup_insert_eq).
    destruct fuel; cbn [path_length]; unfold get_dentry; rewrite (proj2 (Z.eqb_neq x 0)), Hh by done; cbn [of_option obind d_parent set_d_refcount];
      rewrite (proj2 (Z.eqb_eq _ _) Hp); unfold dentry_unref; rewrite unref_held by done; cbn [obind]; cbn in Hmax; rewrite s32_small by (cbn; lia); do 2 f_equal; cbn; lia.
  - rewrite length_app in Hf. cbn in Hf. destruct fuel as [|fuel]; [lia|]. rewrite path_size_snoc in Hmax |- *.
    pose proof (path_size_pos _ _ _ _ _ Hpath) as Hps.
    assert (dentries (held x d v) !! x = Some (set_d_refcount (d_refcount d + 1) d)) as Hh by (cbn; by rewrite lookup_insert_eq).
    destruct (path_head _ _ _ _ _ Hpath) as (dp & Hp0 & Hdp & Hrp).
    cbn [path_length]; unfold get_dentry. rewrite (proj2 (Z.eqb_neq x 0)), Hh by done. cbn [of_option obind d_parent set_d_refcount].
    rewrite (proj2 (Z.eqb_neq _ _) Hp). unfold name_of. cbn [d_name set_d_refcount names held put_dentry set_dentries].
    rewrite Hq. cbn [of_option obind]. unfold dentry_unref.
    destruct (walk_step (size (dentries (held x d (held (d_parent d) dp v)))) x d (d_parent d) dp v H0 Hd Hr Hp Hp0 Hdp Hrp) as [E1 E2].
    rewrite E1. cbn [obind]. rewrite E2. cbn [obind]. rewrite s32_small by lia.
    rewrite (IH fuel dp (acc + (len q + 1))) by (done || lia). do 2 f_equal. lia.
Qed.

(** The path as text: every component behind a slash, and a lone slash for the root. *)
Definition components (l : list qstr) : list Z := l ≫= λ q, 47 :: contents q.
Definition path_text (l : list qstr) : list Z := if l is [] then [47] else components l.

Lemma path_fill_ok fuel x ns l d out v :
  path_of (dentries v) (names v) x ns l → dentries v !! x = Some d → (length l ≤ fuel)%nat →
  out = [0] ∨ (∃ c t, out = 47 :: c :: t) →
  path_fill fuel x (path_size l + 1) out (held x d v) =
    Ok (if bool_decide (l = [] ∧ out = [0]) then 47 :: out else components l ++ out, v).
Proof.
  intros H. revert fuel d out. induction H as [x d H0 Hd Hr Hp|x d q ns l H0 Hd Hr Hp Hq Hl Hpath IH];
    intros fuel d' out Hd' Hf Hout; rewrite Hd in Hd'; injection Hd' as <-;
    assert (dentries (held x d v) !! x = Some (set_d_refcount (d_refcount d + 1) d)) as Hh by (cbn; by rewrite lookup_insert_eq).
  - destruct fuel; cbn [path_fill]; unfold get_dentry; rewrite (proj2 (Z.eqb_neq x 0)), Hh by done; cbn [of_option obind d_parent set_d_refcount];
      rewrite (proj2 (Z.eqb_eq _ _) Hp); unfold dentry_unref;
      (destruct Hout as [->|(c & t & ->)]; [rewrite bool_decide_eq_true_2 by done|rewrite bool_decide_eq_false_2 by (intros [_ ?]; done)]);
      cbn; rewrite unref_held by done; done.
  - rewrite length_app in Hf. cbn in Hf. destruct fuel as [|fuel]; [lia|]. rewrite path_size_snoc.
    pose proof (path_size_pos _ _ _ _ _ Hpath) as Hps. destruct (path_head _ _ _ _ _ Hpath) as (dp & Hp0 & Hdp & Hrp).
    cbn [path_fill]; unfold get_dentry. rewrite (proj2 (Z.eqb_neq x 0)), Hh by done. cbn [of_option obind d_parent set_d_refcount].
    rewrite (proj2 (Z.eqb_neq _ _) Hp). unfold name_of. cbn [d_name set_d_refcount names held put_dentry set_dentries].
    rewrite Hq. cbn [of_option obind]. unfold dentry_unref.
    replace (path_size l + len q + 1 + 1 - len q - 1) with (path_size l + 1) by lia.
    rewrite (proj2 (Z.ltb_ge (path_size l + 1) 0)), (proj2 (Z.ltb_ge _ (len q))) by lia. cbn [orb].
    destruct (walk_step (size (dentries (held x d (held (d_parent d) dp v)))) x d (d_parent d) dp v H0 Hd Hr Hp Hp0 Hdp Hrp) as [E1 E2].
    rewrite E1. cbn [obind]. rewrite E2. cbn [obind]. fold (contents q).
    rewrite (IH fuel dp) by (done || lia || (right; destruct (contents q), Hout as [->|(? & ? & ->)]; cbn; eauto)).
    rewrite !bool_decide_eq_false_2 by (intros [? ?]; by destruct l).
    unfold components. rewrite bind_app. cbn. rewrite app_nil_r, <-app_assoc. done.
Qed.

Lemma path_of_same x ns l v v' :
  dentries v' = dentries v → names v' = names v →
  path_of (dentries v) (names v) x ns l → path_of (dentries v') (names v') x ns l.
Proof. by intros -> ->. Qed.

Lemma full_path_ok x ns l v p a :
  path_of (dentries v) (names v) x ns l → path_size l + 1 < 2 ^ 31 →
  kmalloc (path_size l + 2) (heap_of v) = (p, a) →
  dentry_allocFullPath x v = Ok (if p =? 0 then CharP 0 [] else CharP p (path_text l ++ [0]), set_heap a v).
Proof.
  intros H Hmax Ek. destruct (path_head _ _ _ _ _ H) as (d & Hx & Hd & Hr).
  pose proof (path_size_pos _ _ _ _ _ H) as Hps. pose proof (path_depth _ _ _ _ _ H) as Hdep.
  unfold dentry_allocFullPath. rewrite (proj2 (Z.eqb_neq x 0)) by done. rewrite (ref_held x d) by done. cbn [obind].
  assert (size (dentries (held x d v)) = size (dentries v)) as Esz by (cbn; apply map_size_insert_Some; by exists d).
  rewrite (path_length_ok _ x ns l d 0 v) by (done || lia). cbn [obind]. rewrite Z.add_0_l.
  replace (path_size l + 1 + 1) with (path_size l + 2) by lia. rewrite u64_small, Ek by lia.
  destruct (p =? 0); [done|].
  rewrite (ref_held x d (set_heap a v)) by done. cbn [obind].
  rewrite (path_fill_ok _ x ns l d [0] (set_heap a v)); [|done|done| |by left].
  - cbn [obind]. do 3 f_equal. unfold path_text. destruct l; [by rewrite bool_decide_eq_true_2|].
    by rewrite bool_decide_eq_false_2 by (intros [? _]; done).
  - change (size (dentries (held x d (set_heap a v)))) with (size (dentries (held x d v))). lia.
Qed.

Lemma first_slash (a b c d : list Z) :
  47 ∉ a → 47 ∉ b → (c = [] ∨ ∃ t, c = 47 :: t) → (d = [] ∨ ∃ t, d = 47 :: t) → a ++ c = b ++ d → a = b ∧ c = d.
Proof.
  revert b. induction a as [|x a IH]; intros [|y b] Ha Hb Hc Hd E; cbn in E.
  - done.
  - exfalso. destruct Hc as [->|[t ->]]; [done|]. injection E as <- _. apply Hb. by apply elem_of_cons; left.
  - exfalso. destruct Hd as [->|[t ->]]; [done|]. injection E as -> _. apply Ha. by apply elem_of_cons; left.
  - injection E as -> E. apply not_elem_of_cons in Ha as [_ Ha]. apply not_elem_of_cons in Hb as [_ Hb].
    destruct (IH b Ha Hb Hc Hd E) as [-> ->]. done.
Qed.

Definition proper_name (q : qstr) : Prop := (47 ∉ contents q) ∧ contents q ≠ [].

Lemma components_inj l l' :
  Forall proper_name l → Forall proper_name l' → components l = components l' → contents <$> l = contents <$> l'.
Proof.
  intros Hl. revert l'. induction Hl as [|q l [Hq _] Hl IH]; intros [|q' l'] Hl' E; try done.
  apply Forall_cons in Hl' as [[Hq' _] Hl']. unfold components in E. cbn in E. injection E as E.
  assert (∀ m : list qstr, components m = [] ∨ ∃ t, components m = 47 :: t) as Hc by (intros [|? ?]; [by left|right; by eexists]).
  apply first_slash in E as [E1 E2]; [|done|done|apply Hc|apply Hc]. cbn. rewrite E1. f_equal. by apply IH.
Qed.

Lemma path_text_inj l l' :
  Forall proper_name l → Forall proper_name l' → path_text l = path_text l' → contents <$> l = contents <$> l'.
Proof.
  intros Hl Hl' E. apply components_inj; [done..|]. unfold path_text in E. destruct l as [|q l], l' as [|q' l']; try done; exfalso.
  - apply Forall_cons in Hl' as [[_ H] _]. unfold components in E. cbn in E. injection E as E. destruct (contents q'); done.
  - apply Forall_cons in Hl as [[_ H] _]. unfold components in E. cbn in E. injection E as E. destruct (contents q); done.
Qed.

(** ** The cache *)

(** The bucket of the key ([parent], [q]). *)
Definition didx v (parent : Z) (q : qstr) : Z :=
  Z.land (__dentry_hashfunction (parent, q)) (u32 (ht_size (dtab v) - 1)).

(** [x] is a dentry under [parent] with the name [q]. *)
Definition is_named v (x parent : Z) (q : qstr) : Prop :=
  0 < x ∧ ∃ d, dentries v !! x = Some d ∧ d_parent d = parent ∧ names v !! d_name d = Some q ∧ qstr_ok alg q ∧ km_live (heap_of v) (d_name d).

(** The dentries [hs] are in the table, at most one in a bucket. *)
Record dcache v F (hs : list Z) : Prop := {
  dc_fam : family (cells_of v) F;
  dc_placed : all_placed (hm (iv v)) F;
  dc_size : ∃ k, 4 ≤ k ≤ 25 ∧ ht_size (dtab v) = 2 ^ k;
  dc_load : 50 ≤ max_load (dtab v) ≤ 90;
  dc_items : items (dtab v) = Z.of_nat (length hs) ∧ items (dtab v) < 2 ^ 31 - 2;
  dc_bucket i : 0 ≤ i < ht_size (dtab v) → ∃ l, F !! bucket (buckets (dtab v)) i = Some l ∧ (length l ≤ 1)%nat ∧
    ∀ n, n ∈ l ↔ ∃ x p q, n = x + D_HASH ∧ x ∈ hs ∧ is_named v x p q ∧ didx v p q = i;
  dc_named x : x ∈ hs → ∃ p q, is_named v x p q;
}.

Lemma didx_range v F hs p q : dcache v F hs → 0 ≤ didx v p q < ht_size (dtab v).
Proof.
  intros H. destruct (dc_size _ _ _ H) as (k & Hk & E). unfold didx. rewrite E.
  assert (2 ^ k ≤ 2 ^ 31) by (apply Z.pow_le_mono_r; lia). rewrite u32_small by lia.
  replace (2 ^ k - 1) with (Z.ones k) by (rewrite Z.ones_equiv; lia). rewrite Z.land_ones by lia. apply Z.mod_pos_bound. lia.
Qed.

Lemma key_of_named local v x p q : is_named v x p q → key_of local v (x + D_HASH) = Some (p, q).
Proof.
  intros [Hx (d & Hd & <- & Hq & _)]. unfold key_of, LOCAL_KEY. rewrite (proj2 (Z.eqb_neq _ _)) by (unfold D_HASH; lia).
  replace (x + D_HASH - D_HASH) with x by lia. rewrite Hd, Hq. done.
Qed.

Lemma key_equals_ok p q p' q' :
  qstr_ok alg q → qstr_ok alg q' →
  __dentry_key_equals (p, q) (p', q') = Ok (bool_decide (p = p' ∧ contents q = contents q')).
Proof.
  intros Hq Hq'. unfold __dentry_key_equals. cbn [fst snd].
  pose proof (contents_length q (qo_len _ _ Hq)) as L. pose proof (contents_length q' (qo_len _ _ Hq')) as L'.
  destruct (Z.eqb_spec p p') as [->|Hp]; cbn [negb]; [|by rewrite bool_decide_eq_false_2 by tauto].
  destruct (Z.eqb_spec (len q) (len q')) as [El|El]; cbn [negb].
  - rewrite (memcmp_contents alg q q' Hq Hq') by lia. cbn [obind]. rewrite !take_ge by lia. rewrite str_diff_eq by lia.
    f_equal. apply bool_decide_ext. tauto.
  - rewrite bool_decide_eq_false_2; [done|]. intros [_ E]. rewrite E in L. lia.
Qed.

Lemma named_unique v x p q p' q' : is_named v x p q → is_named v x p' q' → p' = p ∧ q' = q.
Proof. intros [_ (d & Hd & <- & Hq & _)] [_ (d' & Hd' & <- & Hq' & _)]. simplify_eq. done. Qed.

Lemma lookupHash_ok v F hs parent nm :
  dcache v F hs → qstr_ok alg nm →
  (∃ x q, x ∈ hs ∧ is_named v x parent q ∧ contents q = contents nm ∧ __dentry_lookupHash parent nm v = Ok x) ∨
  (∀ x q, x ∈ hs → is_named v x parent q → contents q ≠ contents nm) ∧ __dentry_lookupHash parent nm v = Ok 0.
Proof.
  intros H Hnm.
  destruct (dc_bucket _ _ _ H _ (didx_range v F hs parent nm H)) as (l & Hl & _ & Hin).
  pose proof (fam_dll _ _ (dc_fam _ _ _ H) _ _ Hl) as D.
  assert (∀ x p q, is_named v x p q → dequal (parent, nm) v (x + D_HASH) LOCAL_KEY = true ↔ p = parent ∧ contents q = contents nm) as Heq.
  { intros x p q Hn. unfold dequal. change (LOCAL_KEY =? LOCAL_KEY) with true. cbn iota.
    rewrite (key_of_named _ _ _ _ _ Hn). change (key_of (parent, nm) v LOCAL_KEY) with (Some (parent, nm)).
    destruct Hn as (_ & d & _ & _ & _ & Hq & _). rewrite key_equals_ok by done. by rewrite bool_decide_eq_true. }
  unfold __dentry_lookupHash, hashtable_lookup. change (LOCAL_KEY =? 0) with false. cbn iota.
  change (dhash (parent, nm) v LOCAL_KEY) with (__dentry_hashfunction (parent, nm)). fold (didx v parent nm).
  unfold search_bucket. change (cells (hm (iv v))) with (cells_of v).
  rewrite (get_next_ok _ _ _ (dll_first _ _ _ D)). cbn [obind].
  destruct (find_key_spec __dentry_get_key (dequal (parent, nm) v) LOCAL_KEY _ l (cells_of v) (size (cells_of v))
    (default (bucket (buckets (dtab v)) (didx v parent nm)) (hd_error l)) D) as (r & E & Hr).
  - exists [], l. split; [done|]. split; [done|]. split; [by eapply dll_length|done].
  - apply Forall_forall. intros n Hn. apply Hin in Hn as (x & p & q & -> & _ & [? _] & _). unfold D_HASH. lia.
  - rewrite E. cbn [obind]. destruct Hr as [(Hr0 & Hrl & Hre)|[-> Hno]].
    + left. apply Hin in Hrl as (x & p & q & -> & Hx & Hn & _). apply (Heq x p q Hn) in Hre as [-> Ec].
      exists x, q. split; [done|]. split; [done|]. split; [done|]. rewrite (proj2 (Z.eqb_neq _ 0)) by done. f_equal. lia.
    + right. split; [|done]. intros x q Hx Hn Ec. rewrite Forall_forall in Hno.
      assert (dequal (parent, nm) v (x + D_HASH) LOCAL_KEY = true) as Ht by (by apply (Heq x parent q Hn)).
      unfold __dentry_get_key in Hno. rewrite Hno in Ht; [done|]. apply Hin. exists x, parent, q. split; [done|]. split; [done|]. split; [done|].
      unfold didx, __dentry_hashfunction. cbn. destruct Hn as (_ & d & _ & _ & _ & Hq & _).
      by rewrite (contents_hash alg q nm Hq Hnm Ec).
Qed.

(** ** New dentries *)

Definition set_cells_of (c : store) v : @dvfs A W := set_iv (set_lists c (iv v)) v.

Lemma on_cells_ok (f : store → outcome store) v c : f (cells_of v) = Ok c → on_cells f v = Ok (set_cells_of c v).
Proof. intros E. unfold on_cells. by rewrite (on_lists_ok f (iv v) c E). Qed.

Lemma update_ok x f d v : dentries v !! x = Some d → update x f v = Ok (put_dentry x (f d) v).
Proof. intros Hd. unfold update, get_dentry. by rewrite Hd. Qed.

Lemma dentry_cells_range x p : p ∈ dentry_cells x → x ≤ p < x + DENTRY_SIZE.
Proof.
  unfold dentry_cells, D_HASH, D_SIBLING, D_CHILDREN, D_LRU, D_ALIAS, DENTRY_SIZE. rewrite !elem_of_cons, elem_of_nil. lia.
Qed.

Lemma dentry_cells_in x : Forall (λ p, p ∈ dentry_cells x) [x + D_HASH; x + D_SIBLING; x + D_CHILDREN; x + D_LRU; x + D_ALIAS].
Proof. by apply Forall_forall. Qed.

(** The family once a new dentry is a child of [parent], with an empty list of children. *)
Definition child_family (F : heads) (parent x : Z) (kids : list Z) : heads :=
  <[parent + D_CHILDREN := x + D_SIBLING :: kids]> (<[x + D_CHILDREN := []]> F).

Lemma link_child c F parent kids x :
  family c F → F !! (parent + D_CHILDREN) = Some kids → parent ≠ x →
  (∀ p, p ∈ dentry_cells x → ~ in_family F p ∧ is_Some (c !! p)) →
  ∃ c1 c2 c3 c4 c5,
    INIT_LIST_HEAD (x + D_CHILDREN) c = Ok c1 ∧ INIT_LIST_HEAD (x + D_LRU) c1 = Ok c2 ∧
    INIT_LIST_HEAD (x + D_ALIAS) c2 = Ok c3 ∧ INIT_LIST_HEAD (x + D_HASH) c3 = Ok c4 ∧
    list_add (x + D_SIBLING) (parent + D_CHILDREN) c4 = Ok c5 ∧ family c5 (child_family F parent x kids) ∧
    is_Some (c5 !! (x + D_HASH)).
Proof.
  intros HF Hk Hne Hfresh. pose proof (dentry_cells_in x) as Hin. rewrite !Forall_cons in Hin. destruct Hin as (I1 & I2 & I3 & I4 & I5 & _).
  destruct (Hfresh _ I1) as [N1 S1], (Hfresh _ I2) as [N2 S2], (Hfresh _ I3) as [N3 S3], (Hfresh _ I4) as [N4 S4], (Hfresh _ I5) as [N5 S5].
  destruct (family_init c F _ HF N3 S3) as (c1 & E1 & HF1 & Ho1).
  assert (∀ p, p ≠ x + D_CHILDREN → ~ in_family F p → ~ in_family (<[x + D_CHILDREN := []]> F) p) as Hout.
  { intros p Hp Hn [Hin|Hin]%in_family_insert; [|done]. by apply list_elem_of_singleton in Hin. }
  assert (∀ p, p ≠ x + D_CHILDREN → is_Some (c !! p) → is_Some (c1 !! p)) as G1.
  { intros p Hp Hs. rewrite Ho1; [done|]. by rewrite list_elem_of_singleton. }
  destruct (init_frame c1 _ (x + D_LRU) HF1) as (c2 & E2 & HF2 & G2); [apply Hout; [unfold D_LRU, D_CHILDREN; lia|done]|apply G1; [unfold D_LRU, D_CHILDREN; lia|done]|].
  destruct (init_frame c2 _ (x + D_ALIAS) HF2) as (c3 & E3 & HF3 & G3); [apply Hout; [unfold D_ALIAS, D_CHILDREN; lia|done]|apply G2, G1; [unfold D_ALIAS, D_CHILDREN; lia|done]|].
  destruct (init_frame c3 _ (x + D_HASH) HF3) as (c4 & E4 & HF4 & G4); [apply Hout; [unfold D_HASH, D_CHILDREN; lia|done]|apply G3, G2, G1; [unfold D_HASH, D_CHILDREN; lia|done]|].
  destruct (family_add c4 _ (parent + D_CHILDREN) kids (x + D_SIBLING) HF4) as (c5 & E5 & HF5 & _).
  - rewrite lookup_insert_ne by lia. done.
  - apply Hout; [unfold D_SIBLING, D_CHILDREN; lia|done].
  - apply G4, G3, G2, G1; [unfold D_SIBLING, D_CHILDREN; lia|done].
  - exists c1, c2, c3, c4, c5. repeat (split; [done|]). eapply list_add_grows; [exact E5|].
    apply G4, G3, G2, G1; [unfold D_HASH, D_CHILDREN; lia|done].
Qed.

(** [parent] is in use as a directory with the children [kids]. *)
Definition parent_ok v (F : heads) (parent : Z) (pd : dentry) (kids : list Z) : Prop :=
  parent ≠ 0 ∧ dentries v !! parent = Some pd ∧ F !! (parent + D_CHILDREN) = Some kids.

(** The state after the allocation of [x] with the name [s] at [q]. *)
Definition with_child v (parent : Z) (pd : dentry) (x q : Z) (s : qstr) (c : store) (a : A) : @dvfs A W :=
  Dvfs (set_hm (HMem c (statics (hm (iv v))) a) (iv v))
    (<[x := Dentry 1 0 0 q parent (d_superblock pd) 0 0]> (<[parent := set_d_refcount (s32 (d_refcount pd + 1)) pd]> (dentries v)))
    (<[q := s]> (names v)) (dtab v) (jiffies v).

Lemma alloc_ok v F parent pd kids nm x a q s a' :
  family (cells_of v) F → all_placed (hm (iv v)) F → parent_ok v F parent pd kids → addr (name nm) ≠ 0 →
  kmalloc DENTRY_SIZE (heap_of v) = (x, a) → x ≠ 0 →
  qstr_create_with_length alg (name nm) (len nm) a = Ok (q, Some s, a') →
  ∃ c, __dentry_alloc alg parent nm v = Ok (x, with_child v parent pd x q s c a') ∧
    family c (child_family F parent x kids) ∧ is_Some (c !! (x + D_HASH)) ∧ x ≠ parent ∧
    (∀ p, p ∈ dentry_cells x → ~ in_family F p) ∧ (∀ r n, km_block (heap_of v) r n → km_block a r n) ∧ km_block a x DENTRY_SIZE.
Proof.
  intros HF Hpl (Hp0 & Hpd & Hkids) Hnm Ek Hx Eq.
  destruct (new_cells_ok (hm (iv v)) a F x DENTRY_SIZE (dentry_cells x) ltac:(done) (dentry_cells_range x) HF Hpl Ek Hx) as (HF0 & Hfresh & Hg & Hblk).
  set (c0 := foldr _ _ _) in HF0, Hfresh.
  assert (parent ≠ x) as Hpx.
  { intros ->. pose proof (dentry_cells_in x) as Hin. rewrite !Forall_cons in Hin. destruct Hin as (_ & _ & I3 & _).
    destruct (Hfresh _ I3) as [Hno _]. apply Hno. exact (head_in_family _ _ _ Hkids). }
  destruct (link_child c0 F parent kids x HF0 Hkids Hpx Hfresh) as (c1 & c2 & c3 & c4 & c5 & E1 & E2 & E3 & E4 & E5 & HF5 & Hs5).
  exists c5. split; [|split; [done|split; [done|split; [done|split; [intros p Hp; by apply Hfresh|done]]]]].
  unfold __dentry_alloc, is_null. rewrite (proj2 (Z.eqb_neq _ 0)), Ek, (proj2 (Z.eqb_neq x 0)) by done.
  set (v1 := new_dentry x (set_heap a v)).
  assert (cells_of v1 = c0) as El by done.
  rewrite (update_ok x _ (Dentry 0 0 0 0 0 0 0 0)) by (cbn; by rewrite lookup_insert_eq). cbn [obind].
  rewrite (on_cells_ok _ _ c1) by exact E1. cbn [obind]. rewrite (on_cells_ok _ _ c2) by exact E2. cbn [obind].
  rewrite (on_cells_ok _ _ c3) by exact E3. cbn [obind]. rewrite (on_cells_ok _ _ c4) by exact E4. cbn [obind].
  set (v2 := set_cells_of c4 _). change (heap_of v2) with a. rewrite Eq. cbn [obind].
  rewrite (update_ok x _ (Dentry 1 0 0 0 0 0 0 0)) by (cbn; by rewrite lookup_insert_eq). cbn [obind].
  rewrite (proj2 (Z.eqb_neq parent 0)) by done. unfold dentry_ref. rewrite (proj2 (Z.eqb_neq parent 0)) by done.
  rewrite (update_ok parent _ pd) by (cbn; by rewrite !lookup_insert_ne by done). cbn [obind].
  rewrite (update_ok x _ (Dentry 1 0 0 q 0 0 0 0)) by (cbn; rewrite lookup_insert_ne, lookup_insert_eq by done; done). cbn [obind].
  unfold get_dentry. cbn [dentries put_dentry set_dentries].
  rewrite lookup_insert_ne, lookup_insert_eq by done. cbn [of_option obind].
  rewrite (update_ok x _ (Dentry 1 0 0 q parent 0 0 0)) by (cbn; by rewrite lookup_insert_eq). cbn [obind].
  rewrite (on_cells_ok _ _ c5) by exact E5. cbn [obind].
  do 2 f_equal. unfold with_child, set_cells_of, put_dentry, set_dentries, set_iv, set_names, set_heap. cbn.
  f_equal. rewrite !insert_insert_eq, (insert_insert_ne _ parent x), insert_insert_eq by done. done.
Qed.

Lemma named_same v v' x p q :
  dentries v' !! x = dentries v !! x → names v' = names v → heap_of v' = heap_of v → is_named v x p q → is_named v' x p q.
Proof. intros E1 E2 E3 [Hx (d & Hd & Hp & Hq & Hok & Hl)]. split; [done|]. exists d. by rewrite E1, E2, E3. Qed.

(** A hashed dentry's node is on a list. *)
Lemma hashed_in_family v F hs x : dcache v F hs → x ∈ hs → in_family F (x + D_HASH).
Proof.
  intros H Hx. destruct (dc_named _ _ _ H x Hx) as (p & q & Hn).
  destruct (dc_bucket _ _ _ H _ (didx_range v F hs p q H)) as (l & Hl & _ & Hin).
  apply (node_in_family _ _ _ _ Hl), Hin. exists x, p, q. done.
Qed.

(** The table's part of [__dentry_hash]: an empty bucket takes the dentry, any other
    refuses it. *)
Lemma hash_new v F hs x parent s l :
  dcache v F hs → is_named v x parent s → ~ in_family F (x + D_HASH) → is_Some (cells_of v !! (x + D_HASH)) →
  items (dtab v) < ht_size (dtab v) * max_load (dtab v) / 100 →
  let b := bucket (buckets (dtab v)) (didx v parent s) in
  F !! b = Some l →
  (l = [] → ∃ c, __dentry_hash x v = Ok (0, set_dtab (set_items (s32 (items (dtab v) + 1)) (dtab v)) (set_cells_of c v)) ∧
     family c (<[b := [x + D_HASH]]> F)) ∧
  (l ≠ [] → __dentry_hash x v = Ok (- EEXIST, v)).
Proof.
  intros H Hn Hfresh Hs Hload b Hl. pose proof (proj1 Hn) as Hx.
  destruct (dc_size _ _ _ H) as (k & Hk & Ek). pose proof (dc_load _ _ _ H) as Hml. pose proof (dc_items _ _ _ H) as [Hi1 Hi2].
  assert (0 < ht_size (dtab v) ≤ 2 ^ 25) as Hsz by (rewrite Ek; split; [lia|apply Z.pow_le_mono_r; lia]).
  pose proof (fam_dll _ _ (dc_fam _ _ _ H) _ _ Hl) as D.
  assert (Forall (λ y, y ≠ 0) l) as Hnz.
  { apply Forall_forall. intros n Hin. destruct (dc_bucket _ _ _ H _ (didx_range v F hs parent s H)) as (l' & Hl' & _ & Hin').
    fold b in Hl'. rewrite Hl in Hl'. injection Hl' as <-. apply Hin' in Hin as (y & p & q & -> & _ & [? _] & _). unfold D_HASH. lia. }
  assert (∀ y, dequal no_key v (__dentry_get_key y) (x + D_HASH) = true) as Heq.
  { intros y. unfold dequal, LOCAL_KEY. rewrite (proj2 (Z.eqb_neq _ _)) by (unfold D_HASH; lia). done. }
  destruct (find_key_spec __dentry_get_key (dequal no_key v) (x + D_HASH) b l (cells_of v) (size (cells_of v))
    (default b (hd_error l)) D) as (r & E & Hr).
  { exists [], l. split; [done|]. split; [done|]. split; [by eapply dll_length|done]. }
  { exact Hnz. }
  unfold __dentry_hash. rewrite (key_of_named _ _ _ _ _ Hn). cbn [of_option obind].
  unfold hashtable_insert, hashtable_count. change (__dentry_get_key (x + D_HASH)) with (x + D_HASH).
  rewrite (proj2 (Z.eqb_neq (x + D_HASH) 0)) by (unfold D_HASH; lia).
  rewrite !u32_small by nia. rewrite (proj2 (Z.leb_gt _ _)) by done. cbn [obind]. change (0 <? 0) with false. cbn iota.
  assert (dhash no_key v (x + D_HASH) = __dentry_hashfunction (parent, s)) as Eh.
  { unfold dhash. by rewrite (key_of_named _ _ _ _ _ Hn). }
  unfold insert_into. rewrite Eh. fold (didx v parent s). fold b. unfold search_bucket. change (cells (hm (iv v))) with (cells_of v).
  rewrite (get_next_ok _ _ _ (dll_first _ _ _ D)). cbn [obind]. rewrite E. cbn [obind]. split.
  - intros ->. destruct Hr as [(_ & Hin & _)|[-> _]]; [by apply elem_of_nil in Hin|]. change (negb (0 =? 0)) with false. cbn iota.
    destruct (family_add (cells_of v) F b [] (x + D_HASH) (dc_fam _ _ _ H) Hl Hfresh Hs) as (c & Ec & HF & _).
    rewrite Ec. cbn [obind]. by exists c.
  - intros Hne. destruct Hr as [(Hr0 & _)|[_ Hall]].
    + rewrite (proj2 (Z.eqb_neq r 0)) by done. cbn [negb obind default]. do 2 f_equal. by destruct v as [[] ? ? ? ?].
    + destruct l as [|y l]; [done|]. apply Forall_cons in Hall as [Hy _]. by rewrite Heq in Hy.
Qed.

(** A change that keeps the buckets and the names of the hashed dentries. *)
Lemma dcache_transfer v v' F F' hs :
  dcache v F hs → family (cells_of v') F' → all_placed (hm (iv v')) F' → dtab v' = dtab v →
  (∀ i, 0 ≤ i < ht_size (dtab v) → F' !! bucket (buckets (dtab v)) i = F !! bucket (buckets (dtab v)) i) →
  (∀ x p q, x ∈ hs → is_named v x p q → is_named v' x p q) → dcache v' F' hs.
Proof.
  intros H HF Hpl Ht Hb Hn. split; [done|done|rewrite Ht; apply H..| |].
  - rewrite Ht. intros i Hi. destruct (dc_bucket _ _ _ H i Hi) as (l & Hl & Hlen & Hin). exists l.
    split; [by rewrite Hb|]. split; [done|]. intros n. rewrite Hin. unfold didx. rewrite Ht. split.
    + intros (x & p & q & -> & Hx & Hnx & E). exists x, p, q. auto.
    + intros (x & p & q & -> & Hx & Hnx & E). destruct (dc_named _ _ _ H x Hx) as (p0 & q0 & Hn0).
      destruct (named_unique _ _ _ _ _ _ Hnx (Hn x p0 q0 Hx Hn0)) as [-> ->]. by exists x, p, q.
  - intros x Hx. destruct (dc_named _ _ _ H x Hx) as (p & q & Hnx). exists p, q. auto.
Qed.

Lemma named_put v x d d' y p q :
  dentries v !! x = Some d → d_parent d' = d_parent d → d_name d' = d_name d →
  is_named v y p q → is_named (put_dentry x d' v) y p q.
Proof.
  intros Hd Hp Hnm [Hy (e & He & Hep & Hq & Hok & Hl)]. split; [done|]. cbn. destruct (decide (x = y)) as [<-|].
  - exists d'. rewrite lookup_insert_eq. rewrite Hd in He. injection He as <-. rewrite Hp, Hnm. done.
  - exists e. rewrite lookup_insert_ne by done. done.
Qed.

Lemma dcache_put v F hs x d d' :
  dcache v F hs → dentries v !! x = Some d → d_parent d' = d_parent d → d_name d' = d_name d →
  dcache (put_dentry x d' v) F hs.
Proof.
  intros H Hd Hp Hn. apply (dcache_transfer v _ F F hs H); [apply H|apply H|done|done|]. intros y p q _. by eapply named_put.
Qed.

Lemma km_live_mono (a a' : A) r : (∀ r n, km_block a r n → km_block a' r n) → km_live a r → km_live a' r.
Proof. intros Hg [n Hn]. exists n. auto. Qed.

(** The parent's list of children is not one of the buckets. *)
Definition off_table v (parent : Z) : Prop :=
  ∀ i, 0 ≤ i < ht_size (dtab v) → parent + D_CHILDREN ≠ bucket (buckets (dtab v)) i.

(** The other dentries keep their names. *)
Lemma named_child v parent pd x q s c a a' y p r :
  dentries v !! parent = Some pd → (∀ r n, km_block (heap_of v) r n → km_block a r n) → (∀ r n, km_block a r n → km_block a' r n) →
  x ≠ y → ~ km_live (heap_of v) q → is_named v y p r → is_named (with_child v parent pd x q s c a') y p r.
Proof.
  intros Hpd Hg Hg' Hxy Hq [Hy0 (d & Hd & Hdp & Hr & Hok & Hl)]. split; [done|].
  assert (q ≠ d_name d) as Hqn by (intros ->; done).
  cbn. rewrite lookup_insert_ne by done. unfold heap_of in *. cbn.
  destruct (decide (parent = y)) as [->|Hpy].
  - rewrite Hpd in Hd. injection Hd as <-. exists (set_d_refcount (s32 (d_refcount pd + 1)) pd). rewrite lookup_insert_eq.
    split; [done|]. split; [done|]. cbn. rewrite lookup_insert_ne by done. split; [done|]. split; [done|]. eapply km_live_mono; [|exact Hl]. auto.
  - exists d. rewrite lookup_insert_ne by done. split; [done|]. split; [done|]. rewrite lookup_insert_ne by done.
    split; [done|]. split; [done|]. eapply km_live_mono; [|exact Hl]. auto.
Qed.

Lemma dcache_child v F hs parent pd kids x q s c a a' :
  dcache v F hs → parent_ok v F parent pd kids → off_table v parent → x ≠ parent →
  family c (child_family F parent x kids) → (∀ p, p ∈ dentry_cells x → ~ in_family F p) →
  (∀ r n, km_block (heap_of v) r n → km_block a r n) → km_block a x DENTRY_SIZE → (∀ r n, km_block a r n → km_block a' r n) →
  ~ km_live (heap_of v) q →
  dcache (with_child v parent pd x q s c a') (child_family F parent x kids) hs.
Proof.
  intros H (Hp0 & Hpd & Hkids) Hoff Hxp HF Hout Hg Hblk Hg' Hq.
  pose proof (dentry_cells_in x) as Hin. rewrite !Forall_cons in Hin. destruct Hin as (I1 & I2 & I3 & _).
  apply (dcache_transfer v _ F _ hs H); [exact HF| |done| |].
  - assert (∀ p, p ∈ dentry_cells x → ∃ r n, km_block a' r n ∧ r ≤ p < r + n) as Hnew.
    { intros p Hp. exists x, DENTRY_SIZE. split; [by apply Hg'|by apply dentry_cells_range]. }
    assert (∀ p, in_family F p → ∃ r n, km_block a' r n ∧ r ≤ p < r + n) as Hold.
    { intros p Hp. destruct (dc_placed _ _ _ H p Hp) as (r & n & Hr & Hin). exists r, n. split; [by apply Hg', Hg|done]. }
    intros p Hp. apply in_family_insert in Hp as [Hp|Hp]; [|apply in_family_insert in Hp as [Hp|Hp]; [|by apply Hold]].
    + apply elem_of_cons in Hp as [->|Hp]; [apply Hold; exact (head_in_family _ _ _ Hkids)|].
      apply elem_of_cons in Hp as [->|Hp]; [by apply Hnew|]. apply Hold. exact (node_in_family _ _ _ _ Hkids Hp).
    + apply list_elem_of_singleton in Hp as ->. by apply Hnew.
  - intros i Hi. unfold child_family. rewrite !lookup_insert_ne; [done| |by apply Hoff].
    intros E. destruct (dc_bucket _ _ _ H i Hi) as (l & Hl & _). apply (Hout _ I3). rewrite E. exact (head_in_family _ _ _ Hl).
  - intros y p r Hy Hn. apply (named_child v parent pd x q s c a a'); [done|done|done| |done|done].
    intros ->. apply (Hout _ I1). by eapply hashed_in_family.
Qed.

Lemma dcache_hashed v F hs x parent s c :
  dcache v F hs → is_named v x parent s → ~ in_family F (x + D_HASH) → 
  (∃ r n, km_block (heap_of v) r n ∧ r ≤ x + D_HASH < r + n) →
  items (dtab v) < ht_size (dtab v) * max_load (dtab v) / 100 →
  let b := bucket (buckets (dtab v)) (didx v parent s) in
  F !! b = Some [] → family c (<[b := [x + D_HASH]]> F) →
  dcache (set_dtab (set_items (s32 (items (dtab v) + 1)) (dtab v)) (set_cells_of c v)) (<[b := [x + D_HASH]]> F) (x :: hs).
Proof.
  intros H Hn Hfresh Hpl Hload b Hb HF. set (v' := set_dtab _ _).
  destruct (dc_size _ _ _ H) as (k & Hk & Ek). pose proof (dc_load _ _ _ H) as Hml. pose proof (dc_items _ _ _ H) as [Hi1 Hi2].
  assert (0 < ht_size (dtab v) ≤ 2 ^ 25) as Hsz by (rewrite Ek; split; [lia|apply Z.pow_le_mono_r; lia]).
  assert (items (dtab v) < 2 ^ 26) as Hi3.
  { eapply Z.lt_le_trans; [exact Hload|]. apply Z.lt_le_incl, Z.div_lt_upper_bound; [lia|]. nia. }
  assert (∀ y p q, is_named v' y p q ↔ is_named v y p q) as Hnamed by (intros; split; by apply named_same).
  split.
  - exact HF.
  - intros p Hp. apply in_family_insert in Hp as [Hp|Hp]; [|by apply (dc_placed _ _ _ H)].
    apply elem_of_cons in Hp as [->|Hp]; [apply (dc_placed _ _ _ H); exact (head_in_family _ _ _ Hb)|].
    apply list_elem_of_singleton in Hp as ->. exact Hpl.
  - by exists k.
  - done.
  - cbn. rewrite s32_small by lia. split; lia.
  - intros i Hi. destruct (dc_bucket _ _ _ H i Hi) as (l & Hl & Hlen & Hin). destruct (decide (didx v parent s = i)) as [<-|Hne].
    + exists [x + D_HASH]. split; [by rewrite lookup_insert_eq|]. split; [done|]. intros n. rewrite list_elem_of_singleton.
      fold b in Hl. rewrite Hb in Hl. injection Hl as <-. split.
      * intros ->. exists x, parent, s. split; [done|]. split; [by apply elem_of_cons; left|]. split; [by apply Hnamed|done].
      * intros (y & p & q & -> & Hy & Hny & E). apply Hnamed in Hny. apply elem_of_cons in Hy as [->|Hy]; [done|].
        exfalso. eapply elem_of_nil, Hin. exists y, p, q. split; [done|]. split; [done|]. split; [done|exact E].
    + exists l. cbn [buckets dtab v' set_dtab set_items]. rewrite lookup_insert_ne by (unfold b; intros E; by apply bucket_inj in E).
      split; [done|]. split; [done|]. intros n. rewrite Hin. split.
      * intros (y & p & q & -> & Hy & Hny & E). exists y, p, q. split; [done|]. split; [by apply elem_of_cons; right|]. split; [by apply Hnamed|done].
      * intros (y & p & q & -> & Hy & Hny & E). apply Hnamed in Hny. apply elem_of_cons in Hy as [->|Hy].
        -- destruct (named_unique _ _ _ _ _ _ Hn Hny) as [-> ->]. by destruct Hne.
        -- exists y, p, q. split; [done|]. split; [done|]. split; [done|exact E].
  - intros y [->|Hy]%elem_of_cons; [exists parent, s; by apply Hnamed|].
    destruct (dc_named _ _ _ H y Hy) as (p & q & Hny). exists p, q. by apply Hnamed.
Qed.

Lemma cache_unique v F hs x y p q q' :
  dcache v F hs → x ∈ hs → y ∈ hs → is_named v x p q → is_named v y p q' → contents q = contents q' → x = y.
Proof.
  intros H Hx Hy Hnx Hny E. destruct (dc_bucket _ _ _ H _ (didx_range v F hs p q H)) as (l & _ & Hlen & Hin).
  assert (x + D_HASH ∈ l) as H1 by (apply Hin; by exists x, p, q).
  assert (y + D_HASH ∈ l) as H2.
  { apply Hin. exists y, p, q'. split; [done|]. split; [done|]. split; [done|]. unfold didx, __dentry_hashfunction. cbn.
    destruct Hnx as (_ & dx & _ & _ & _ & Hqx & _), Hny as (_ & dy & _ & _ & _ & Hqy & _).
    by rewrite (contents_hash alg q q' Hqx Hqy E). }
  destruct l as [|n [|n' l]]; [by apply elem_of_nil in H1| |cbn in Hlen; lia].
  apply list_elem_of_singleton in H1, H2. lia.
Qed.

(** The name [dentry_acquire] looks for is the one it was given. *)
Lemma tmp_name_ok nm :
  qstr_ok alg nm →
  (if hash nm =? 0 then full_name_hash alg (name nm) (len nm) else Ok (hash nm)) = Ok (hash nm) ∧ Qstr (name nm) (len nm) (hash nm) = nm.
Proof. intros H. split; [|by destruct nm]. unfold full_name_hash. rewrite (qo_hash _ _ H). by destruct (hash nm =? 0). Qed.

(** What a lookup does to the dentry it finds. *)
Definition touched v (d : dentry) : dentry :=
  set_d_flags (Z.lor (d_flags d) DCACHE_REFERENCED) (set_d_time (jiffies v) (set_d_refcount (s32 (d_refcount d + 1)) d)).

Lemma acquire_hit_any v F hs parent nm x q d rv al :
  dcache v F hs → parent ≠ 0 → dentry_isDir parent v = Ok true → qstr_ok alg nm →
  x ∈ hs → is_named v x parent q → contents q = contents nm → dentries v !! x = Some d →
  (rv = true → hook op_revalidate (d_op d) = None) →
  dentry_acquire alg parent (Some nm) (-1) rv al v = Ok (x, put_dentry x (touched v d) v).
Proof.
  intros H Hp Hdir Hnm Hx Hn Ec Hd Hrv. unfold dentry_acquire, is_null.
  rewrite (proj2 (Z.eqb_neq parent 0)), (proj2 (Z.eqb_neq (addr (name nm)) 0)) by (done || apply Hnm). cbn [orb].
  rewrite Hdir. cbn [obind negb]. destruct (tmp_name_ok nm Hnm) as [E1 E2]. rewrite E1. cbn [obind]. cbv zeta. rewrite E2. clear E1 E2.
  unfold dentry_lookup, is_null. rewrite (proj2 (Z.eqb_neq parent 0)), (proj2 (Z.eqb_neq (addr (name nm)) 0)) by (done || apply Hnm). cbn [orb].
  destruct (lookupHash_ok v F hs parent nm H Hnm) as [(y & q' & Hy & Hny & Ec' & ->)|[Hno _]]; [|by destruct (Hno x q Hx Hn)].
  assert (y = x) as -> by (apply (cache_unique v F hs y x parent q' q H); congruence).
  cbn [obind]. rewrite (proj2 (Z.eqb_neq x 0)) by (destruct Hn; lia). rewrite (update_ok x _ d) by done. cbn [obind].
  unfold check_found. rewrite (proj2 (Z.eqb_neq x 0)) by (destruct Hn; lia). unfold get_dentry. cbn [dentries put_dentry set_dentries].
  rewrite lookup_insert_eq. cbn [of_option obind].
  destruct rv; cbn [d_op set_d_flags set_d_time set_d_refcount]; [rewrite Hrv by done|]; cbn [obind];
    change (-1 =? -1) with true; rewrite orb_true_r; cbn [obind]; rewrite (proj2 (Z.eqb_neq x 0)) by (destruct Hn; lia); done.
Qed.

Lemma acquire_hit v F hs parent nm x q d al :
  dcache v F hs → parent ≠ 0 → dentry_isDir parent v = Ok true → qstr_ok alg nm →
  x ∈ hs → is_named v x parent q → contents q = contents nm → dentries v !! x = Some d →
  dentry_acquire alg parent (Some nm) (-1) false al v = Ok (x, put_dentry x (touched v d) v).
Proof. intros. by eapply acquire_hit_any. Qed.

Lemma acquire_miss v F hs parent nm :
  dcache v F hs → parent ≠ 0 → dentry_isDir parent v = Ok true → qstr_ok alg nm →
  (∀ x q, x ∈ hs → is_named v x parent q → contents q ≠ contents nm) →
  dentry_acquire alg parent (Some nm) (-1) false true v =
    let! (x, v) := __dentry_alloc alg parent nm v in
    if x =? 0 then Ok (0, v)
    else
      let! (ret, v) := __dentry_hash x v in
      let! v := (if ret =? 0 then update x (λ d, set_d_flags (Z.lor (d_flags d) DCACHE_HASHED) d) v else Ok v) in
      let! v := update x (λ d, set_d_flags (Z.lor (d_flags d) DCACHE_NEGATIVE) d) v in
      Ok (x, v).
Proof.
  intros H Hp Hdir Hnm Hno. unfold dentry_acquire, is_null.
  rewrite (proj2 (Z.eqb_neq parent 0)), (proj2 (Z.eqb_neq (addr (name nm)) 0)) by (done || apply Hnm). cbn [orb].
  rewrite Hdir. cbn [obind negb]. destruct (tmp_name_ok nm Hnm) as [E1 E2]. rewrite E1. cbn [obind]. cbv zeta. rewrite E2. clear E1 E2.
  unfold dentry_lookup, is_null. rewrite (proj2 (Z.eqb_neq parent 0)), (proj2 (Z.eqb_neq (addr (name nm)) 0)) by (done || apply Hnm). cbn [orb].
  destruct (lookupHash_ok v F hs parent nm H Hnm) as [(y & q' & Hy & Hny & Ec' & _)|[_ ->]]; [by destruct (Hno y q' Hy Hny)|].
  done.
Qed.

(** A name as the callers pass it: a C string with its length and hash. *)
Definition name_arg (nm : qstr) : Prop :=
  qstr_ok alg nm ∧ ∃ l, byte_list l ∧ text (name nm) = l ++ [0] ∧ len nm ≤ Z.of_nat (length l) < 2 ^ 32.

(** The three allocations of a new dentry and what they give. *)
Definition memory_for v (nm : qstr) (x q : Z) (s : qstr) (a a' : A) : Prop :=
  kmalloc DENTRY_SIZE (heap_of v) = (x, a) ∧ 0 < x ∧ qstr_create_with_length alg (name nm) (len nm) a = Ok (q, Some s, a').

Lemma memory_ok v nm x q s a a' :
  name_arg nm → memory_for v nm x q s a a' →
  qstr_ok alg s ∧ contents s = contents nm ∧ (∀ r n, km_block a r n → km_block a' r n) ∧ km_live a' q ∧ ~ km_live (heap_of v) q.
Proof.
  intros [Hnm (l & Hl & Ht & Hlen & Hmax)] (Ek & Hx & Eq).
  destruct (qstr_create_ok alg (name nm) l (len nm) a a' q s Hl Ht (conj (proj1 (qo_len _ _ Hnm)) Hlen) Eq)
    as (Hq & Hs & Ec & El & a1 & E1 & E2).
  rewrite u64_small in E2 by lia.
  destruct (kmalloc_block QSTR_SIZE a q a1 ltac:(done) E1) as [G1 _].
  destruct (kmalloc_block (Z.of_nat (length l) + 1) a1 _ a' ltac:(lia) E2) as [G2 _].
  destruct (kmalloc_fresh QSTR_SIZE a q a1 ltac:(done) E1) as [_ N1]. destruct (N1 Hq) as [Hfr Hlive].
  destruct (kmalloc_fresh DENTRY_SIZE (heap_of v) x a ltac:(done) Ek) as [G0 _].
  split; [done|]. split; [|split; [auto|split; [by eapply km_live_mono|intros Hl'; by apply Hfr, G0]]].
  rewrite Ec. unfold contents. rewrite Ht, take_app_le by lia. done.
Qed.

Lemma didx_contents v p q q' : qstr_ok alg q → qstr_ok alg q' → contents q = contents q' → didx v p q = didx v p q'.
Proof. intros H H' E. unfold didx, __dentry_hashfunction. cbn. by rewrite (contents_hash alg q q' H H' E). Qed.

(** What is true of the new dentry [x] once it is in the tree. *)
Record created v (hs : list Z) parent pd (kids : list Z) nm x s v' F' (hs' : list Z) (hashed : bool) : Prop := {
  cr_kept y p r : y ∈ hs → is_named v y p r → is_named v' y p r;
  cr_named : is_named v' x parent s;
  cr_contents : contents s = contents nm;
  cr_cache : dcache v' F' hs';
  cr_dentry : ∃ d, dentries v' !! x = Some d ∧ d_refcount d = 1 ∧ d_inode d = 0 ∧
    has DCACHE_HASHED (d_flags d) = hashed ∧ has DCACHE_NEGATIVE (d_flags d) = true;
  cr_parent : parent_ok v' F' parent (set_d_refcount (s32 (d_refcount pd + 1)) pd) (x + D_SIBLING :: kids);
  cr_others y : y ≠ x → y ≠ parent → dentries v' !! y = dentries v !! y;
  cr_inodes : inodes (iv v') = inodes (iv v);
  cr_table : ht_size (dtab v') = ht_size (dtab v) ∧ buckets (dtab v') = buckets (dtab v) ∧ max_load (dtab v') = max_load (dtab v);
}.

(** The flags at the end of [dentry_acquire]. *)
Lemma created_flags v hs parent pd kids nm x s v1 F' hs' d f :
  (∀ y p r, y ∈ hs → is_named v y p r → is_named v1 y p r) →
  is_named v1 x parent s → contents s = contents nm → dcache v1 F' hs' →
  dentries v1 !! x = Some d → d_refcount d = 1 → d_inode d = 0 → has DCACHE_NEGATIVE f = true →
  parent_ok v1 F' parent (set_d_refcount (s32 (d_refcount pd + 1)) pd) (x + D_SIBLING :: kids) → x ≠ parent →
  (∀ y, y ≠ x → y ≠ parent → dentries v1 !! y = dentries v !! y) → inodes (iv v1) = inodes (iv v) →
  ht_size (dtab v1) = ht_size (dtab v) ∧ buckets (dtab v1) = buckets (dtab v) ∧ max_load (dtab v1) = max_load (dtab v) →
  created v hs parent pd kids nm x s (put_dentry x (set_d_flags f d) v1) F' hs' (has DCACHE_HASHED f).
Proof.
  intros Hkept Hn Ec HD Hd Hr Hi Hf (Hp0 & Hpd & Hk) Hxp Ho Ein Ht. split; [intros y p r Hy Hny; apply (named_put v1 x d); auto| |done| |exists (set_d_flags f d)| | |done|done].
  - by apply (named_put v1 x d).
  - by apply (dcache_put v1 F' hs' x d).
  - cbn. rewrite lookup_insert_eq. done.
  - split; [done|]. cbn. rewrite lookup_insert_ne by done. done.
  - intros y Hy Hyp. cbn. rewrite lookup_insert_ne by done. by apply Ho.
Qed.

Lemma acquire_new v F hs parent pd kids nm x q s a a' :
  dcache v F hs → parent_ok v F parent pd kids → off_table v parent → dentry_isDir parent v = Ok true → name_arg nm →
  (∀ x q, x ∈ hs → is_named v x parent q → contents q ≠ contents nm) → memory_for v nm x q s a a' →
  items (dtab v) < ht_size (dtab v) * max_load (dtab v) / 100 →
  (∀ y, in_family F (y + D_SIBLING) → y ≠ x) ∧ (x ∉ hs) ∧
  ∃ l v' F', F !! bucket (buckets (dtab v)) (didx v parent nm) = Some l ∧
    dentry_acquire alg parent (Some nm) (-1) false true v = Ok (x, v') ∧
    created v hs parent pd kids nm x s v' F' (if l is [] then x :: hs else hs) (if l is [] then true else false).
Proof.
  intros H HP Hoff Hdir Hnm Hno Hmem Hload. pose proof HP as (Hp0 & Hpd & Hkids). destruct (memory_ok v nm x q s a a' Hnm Hmem) as (Hs & Ec & Hg' & Hlive & Hfree).
  destruct Hmem as (Ek & Hx & Eq).
  destruct (alloc_ok v F parent pd kids nm x a q s a' (dc_fam _ _ _ H) (dc_placed _ _ _ H) HP (qo_addr _ _ (proj1 Hnm)) Ek ltac:(lia) Eq)
    as (c & Ea & HF & Hsome & Hxp & Hout & Hg & Hblk).
  pose proof (dcache_child v F hs parent pd kids x q s c a a' H HP Hoff Hxp HF Hout Hg Hblk Hg' Hfree) as H1.
  pose proof (dentry_cells_in x) as Hin. rewrite !Forall_cons in Hin. destruct Hin as (I1 & I2 & I3 & _).
  assert (∀ y p r, y ∈ hs → is_named v y p r → is_named (with_child v parent pd x q s c a') y p r) as Hkept.
  { intros y p r Hy Hny. apply (named_child v parent pd x q s c a a'); [done..| |done|done].
    intros ->. apply (Hout _ I1). by eapply hashed_in_family. }
  split; [intros y Hy ->; by apply (Hout _ I2)|]. split; [intros Hxh; apply (Hout _ I1); by eapply hashed_in_family|].
  set (v1 := with_child v parent pd x q s c a') in *. set (F1 := child_family F parent x kids) in *.
  assert (is_named v1 x parent s) as Hn1.
  { split; [done|]. eexists. cbn. rewrite lookup_insert_eq. split; [done|]. cbn. rewrite lookup_insert_eq. done. }
  assert (~ in_family F1 (x + D_HASH)) as Hfresh.
  { intros [Hi|Hi]%in_family_insert.
    - apply elem_of_cons in Hi as [Hi|Hi]; [apply (Hout _ I1); rewrite Hi; exact (head_in_family _ _ _ Hkids)|].
      apply elem_of_cons in Hi as [Hi|Hi]; [unfold D_HASH, D_SIBLING in Hi; lia|]. apply (Hout _ I1). exact (node_in_family _ _ _ _ Hkids Hi).
    - apply in_family_insert in Hi as [Hi|Hi]; [apply list_elem_of_singleton in Hi; unfold D_HASH, D_CHILDREN in Hi; lia|]. by apply (Hout _ I1). }
  assert (didx v1 parent s = didx v parent nm) as Eidx by (by apply (didx_contents v parent s nm Hs (proj1 Hnm))).
  destruct (dc_bucket _ _ _ H1 _ (didx_range v1 F1 hs parent s H1)) as (l & Hl & _).
  assert (F !! bucket (buckets (dtab v)) (didx v parent nm) = Some l) as Hl0.
  { rewrite <-Hl, Eidx. symmetry. unfold F1, child_family. rewrite !lookup_insert_ne; [done| |].
    - intros E. destruct (dc_bucket _ _ _ H _ (didx_range v F hs parent nm H)) as (l' & Hl' & _).
      apply (Hout _ I3). change (buckets (dtab v1)) with (buckets (dtab v)) in E. rewrite E. exact (head_in_family _ _ _ Hl').
    - apply Hoff. by apply (didx_range v F hs). }
  destruct (hash_new v1 F1 hs x parent s l H1 Hn1 Hfresh Hsome Hload Hl) as [Hempty Hfull].
  exists l. rewrite (acquire_miss v F hs parent nm H Hp0 Hdir (proj1 Hnm) Hno), Ea. cbn [obind]. rewrite (proj2 (Z.eqb_neq x 0)) by lia.
  destruct l as [|n l].
  - destruct (Hempty eq_refl) as (c2 & -> & HF2). cbn [obind]. change (0 =? 0) with true. cbn iota.
    assert (∃ r n, km_block (heap_of v1) r n ∧ r ≤ x + D_HASH < r + n) as Hplx.
    { exists x, DENTRY_SIZE. split; [by apply Hg'|by apply dentry_cells_range]. }
    pose proof (dcache_hashed v1 F1 hs x parent s c2 H1 Hn1 Hfresh Hplx Hload Hl HF2) as H2.
    set (v2 := set_dtab _ _) in *. set (d1 := Dentry 1 0 0 q parent (d_superblock pd) 0 0).
    assert (dentries v2 !! x = Some d1) as Hd2 by (cbn; by rewrite lookup_insert_eq).
    rewrite (update_ok x _ d1) by done. cbn [obind]. rewrite (update_ok x _ (set_d_flags DCACHE_HASHED d1)) by (cbn; by rewrite lookup_insert_eq).
    cbn [obind]. eexists _, _. split; [done|]. split; [done|].
    unfold put_dentry, set_dentries. cbn [dentries iv names dtab jiffies]. rewrite insert_insert_eq.
    apply (created_flags v hs parent pd kids nm x s v2 _ (x :: hs) d1 (Z.lor DCACHE_HASHED DCACHE_NEGATIVE));
      [intros y p r Hy Hny; apply (named_same v1); auto|by apply (named_same v1)|done|exact H2|done|done|done|done| |done| |done|done].
    + split; [done|]. split; [cbn; rewrite lookup_insert_ne, lookup_insert_eq by done; done|].
      rewrite lookup_insert_ne; [by unfold F1, child_family; rewrite lookup_insert_eq|].
      intros E. apply (Hoff (didx v1 parent s)); [by apply (didx_range v1 F1 hs)|done].
    + intros y Hy Hyp. cbn. by rewrite !lookup_insert_ne by done.
  - rewrite Hfull by done. cbn [obind]. change (- EEXIST =? 0) with false. cbn iota. cbn [obind].
    set (d1 := Dentry 1 0 0 q parent (d_superblock pd) 0 0).
    assert (dentries v1 !! x = Some d1) as Hd2 by (cbn; by rewrite lookup_insert_eq).
    rewrite (update_ok x _ d1) by done. cbn [obind]. eexists _, _. split; [done|]. split; [done|].
    apply (created_flags v hs parent pd kids nm x s v1 F1 hs d1 DCACHE_NEGATIVE); [done|done|done|exact H1|done|done|done|done| |done| |done|done].
    + split; [done|]. split; [cbn; rewrite lookup_insert_ne, lookup_insert_eq by done; done|]. unfold F1, child_family. by rewrite lookup_insert_eq.
    + intros y Hy Hyp. cbn. by rewrite !lookup_insert_ne by done.
Qed.

(** C11. [dentry_acquire] returns the cached dentry of a name under a directory with one
    more reference, if there is one. Otherwise it makes a new one: negative, with one
    reference, linked as the first child of the directory, which gains a reference, and
    carrying a copy of the name; it is entered in the cache only when its bucket is
    empty, and no other dentry changes. *)
Theorem dentry_acquire_spec v F hs parent pd kids nm :
  dcache v F hs → parent_ok v F parent pd kids → off_table v parent → dentry_isDir parent v = Ok true → name_arg nm →
  (∀ x q d, x ∈ hs → is_named v x parent q → contents q = contents nm → dentries v !! x = Some d →
     dentry_acquire alg parent (Some nm) (-1) false true v = Ok (x, put_dentry x (touched v d) v)) ∧
  (∀ x q s a a', (∀ y q, y ∈ hs → is_named v y parent q → contents q ≠ contents nm) → memory_for v nm x q s a a' →
     items (dtab v) < ht_size (dtab v) * max_load (dtab v) / 100 →
     (x ∉ hs) ∧ ∃ l v' F', F !! bucket (buckets (dtab v)) (didx v parent nm) = Some l ∧
       dentry_acquire alg parent (Some nm) (-1) false true v = Ok (x, v') ∧
       created v hs parent pd kids nm x s v' F' (if l is [] then x :: hs else hs) (if l is [] then true else false)).
Proof.
  intros H HP Hoff Hdir Hnm. split.
  - intros x q d Hx Hn Ec Hd. apply (acquire_hit v F hs parent nm x q d true H (proj1 HP) Hdir (proj1 Hnm) Hx Hn Ec Hd).
  - intros x q s a a' Hno Hmem Hload. by apply (acquire_new v F hs parent pd kids nm x q s a a').
Qed.

(** The directory is still one after the creation of a child. *)
Lemma created_dir v hs parent pd kids nm x s v' F' hs' b :
  created v hs parent pd kids nm x s v' F' hs' b → dentries v !! parent = Some pd →
  dentry_isDir parent v = Ok true → dentry_isDir parent v' = Ok true.
Proof.
  intros C Hpd. destruct (cr_parent _ _ _ _ _ _ _ _ _ _ _ _ C) as (Hp0 & Hpd' & _).
  unfold dentry_isDir, get_dentry, inode_is_dir, get_inode. rewrite (proj2 (Z.eqb_neq parent 0)), Hpd, Hpd' by done. cbn.
  by rewrite (cr_inodes _ _ _ _ _ _ _ _ _ _ _ _ C).
Qed.

(** Asking twice: when the bucket of a new name was empty, the second
    [dentry_acquire] returns the dentry the first one made, now with two references.
    When another dentry was in the bucket, the static key makes the table refuse the
    new one as a duplicate, and the second call makes a second dentry for the same name
    in the same directory. *)
Theorem dentry_acquire_again v F hs parent pd kids nm x q s a a' :
  dcache v F hs → parent_ok v F parent pd kids → off_table v parent → dentry_isDir parent v = Ok true → name_arg nm →
  (∀ y q, y ∈ hs → is_named v y parent q → contents q ≠ contents nm) → memory_for v nm x q s a a' →
  items (dtab v) < ht_size (dtab v) * max_load (dtab v) / 100 →
  ∃ l v', F !! bucket (buckets (dtab v)) (didx v parent nm) = Some l ∧
    dentry_acquire alg parent (Some nm) (-1) false true v = Ok (x, v') ∧
    (l = [] → ∃ v2 d, dentry_acquire alg parent (Some nm) (-1) false true v' = Ok (x, v2) ∧
       dentries v2 !! x = Some d ∧ d_refcount d = 2) ∧
    (l ≠ [] → ∀ y q2 s2 a2 a2', memory_for v' nm y q2 s2 a2 a2' →
       ∃ v2, dentry_acquire alg parent (Some nm) (-1) false true v' = Ok (y, v2) ∧ y ≠ x ∧
         is_named v' x parent s ∧ is_named v2 y parent s2 ∧ contents s = contents nm ∧ contents s2 = contents nm).
Proof.
  intros H HP Hoff Hdir Hnm Hno Hmem Hload. pose proof HP as (Hp0 & Hpd & _).
  destruct (acquire_new v F hs parent pd kids nm x q s a a' H HP Hoff Hdir Hnm Hno Hmem Hload)
    as (_ & Hxh & l & v' & F' & Hl & E & C).
  exists l, v'. split; [done|]. split; [done|].
  pose proof (created_dir _ _ _ _ _ _ _ _ _ _ _ _ C Hpd Hdir) as Hdir'. pose proof (cr_parent _ _ _ _ _ _ _ _ _ _ _ _ C) as HP'.
  split; intros Hl'.
  - subst l. destruct (cr_dentry _ _ _ _ _ _ _ _ _ _ _ _ C) as (d & Hd & Hr & _).
    eexists _, _. split; [apply (acquire_hit v' F' (x :: hs) parent nm x s d true (cr_cache _ _ _ _ _ _ _ _ _ _ _ _ C) Hp0 Hdir' (proj1 Hnm));
      [by apply elem_of_cons; left|exact (cr_named _ _ _ _ _ _ _ _ _ _ _ _ C)|apply C|done]|].
    cbn. rewrite lookup_insert_eq. split; [done|]. cbn. rewrite Hr. done.
  - intros y q2 s2 a2 a2' Hmem2. destruct l as [|n l]; [done|].
    destruct (cr_table _ _ _ _ _ _ _ _ _ _ _ _ C) as (Ht1 & Ht2 & Ht3). pose proof (cr_cache _ _ _ _ _ _ _ _ _ _ _ _ C) as H'.
    destruct (acquire_new v' F' hs parent _ _ nm y q2 s2 a2 a2' H' HP') as (Hfresh & _ & l2 & v2 & F2 & _ & E2 & C2).
    + intros i. rewrite Ht1, Ht2. apply Hoff.
    + done.
    + done.
    + intros z r Hz Hnz. destruct (dc_named _ _ _ H z Hz) as (p0 & q0 & Hn0).
      destruct (named_unique _ _ _ _ _ _ Hnz (cr_kept _ _ _ _ _ _ _ _ _ _ _ _ C z p0 q0 Hz Hn0)) as [-> ->]. by apply (Hno z r).
    + done.
    + destruct (dc_items _ _ _ H) as [Ei _], (dc_items _ _ _ H') as [Ei' _]. rewrite Ht1, Ht3, Ei', <-Ei. done.
    + exists v2. split; [done|]. split; [|split; [exact (cr_named _ _ _ _ _ _ _ _ _ _ _ _ C)|split; [exact (cr_named _ _ _ _ _ _ _ _ _ _ _ _ C2)|split; [apply C|apply C2]]]].
      intros ->. apply (Hfresh x); [|done]. destruct HP' as (_ & _ & Hk). apply (node_in_family _ _ _ _ Hk). by apply elem_of_cons; left.
Qed.

(** [dentry_allocFullPath] ends for every dentry below a root, returns the names of
    its ancestors and its own, each behind a slash (a lone slash for the root), in a
    buffer it never leaves, and leaves every reference count as it was; from the text
    the names can be read back. *)
Theorem dentry_full_path x ns l v p a :
  path_of (dentries v) (names v) x ns l → path_size l + 1 < 2 ^ 31 →
  kmalloc (path_size l + 2) (heap_of v) = (p, a) →
  dentry_allocFullPath x v = Ok (if p =? 0 then CharP 0 [] else CharP p (path_text l ++ [0]), set_heap a v) ∧
  (∀ l', Forall proper_name l → Forall proper_name l' → path_text l = path_text l' → contents <$> l = contents <$> l').
Proof. intros H Hmax Ek. split; [by apply (full_path_ok x ns)|]. intros l'. apply path_text_inj. Qed.
End Spec.

(** ** Witnesses

    A root directory at 8192 with its inode at 4096, a cache of 16 buckets, and the name
    [etc]. *)

#[local] Existing Instance log_ops.
#[local] Instance no_dentry_ops : DentryOps (list Z) := {
  op_revalidate _ := None;
  op_prune _ := None;
}.

Definition ROOT : Z := 8192.

Definition dvfs0 : @dvfs Z (list Z) :=
  let m := HMem {[ROOT + D_CHILDREN := ListHead (ROOT + D_CHILDREN) (ROOT + D_CHILDREN)]} (Expansion 0 0 0 0) 16384 in
  let dir := Inode 16877 0 0 0 1 0 2 1 1 0 0 0 in
  let root := Dentry 1 0 4096 0 ROOT 0 0 0 in
  match hashtable_setup (Some (HT 0 0 0 0 0)) 16 75 m with
  | Ok (_, Some t, m) => Dvfs (Vfs {[4096 := dir]} ∅ m (HT 0 0 0 0 0) []) {[ROOT := root]} ∅ t 7
  | _ => Dvfs (Vfs {[4096 := dir]} ∅ m (HT 0 0 0 0 0) []) {[ROOT := root]} ∅ (HT 0 0 0 0 0) 7
  end.

Definition dvfs0_lists : list (Z * list Z) :=
  (ROOT + D_CHILDREN, []) :: ((λ i, (bucket (buckets (dtab dvfs0)) i, [])) <$> seqZ 0 16).

Definition etc : qstr := Qstr (CharP 100 [101; 116; 99; 0]) 3 (fnv1a_round (fnv1a_round (fnv1a_round 2166136261 101) 116) 99).

Lemma etc_name : name_arg 0 etc.
Proof. split; [split; [done|cbn; lia|reflexivity]|]. exists [101; 116; 99]. split; [|split; [done|cbn; lia]]. repeat constructor. Qed.

Lemma dvfs0_bucket i : 0 ≤ i < 16 → (list_to_map dvfs0_lists : heads) !! bucket (buckets (dtab dvfs0)) i = Some [].
Proof.
  intros Hi. assert (i ∈ seqZ 0 16) as Hin by (apply elem_of_seqZ; lia). clear Hi. revert i Hin.
  apply Forall_forall. apply (bool_decide_unpack _). vm_compute. exact I.
Qed.

Lemma dvfs0_size : ht_size (dtab dvfs0) = 16.
Proof. vm_compute. reflexivity. Qed.

Lemma dvfs0_ok : dcache 0 dvfs0 (list_to_map dvfs0_lists) [].
Proof.
  split.
  - apply family_intro; apply (bool_decide_unpack _); vm_compute; exact I.
  - intros x (p & l & Hp & Hx). exists x, 1. assert (x < heap (hm (iv dvfs0))) as Hlt; [|cbn; lia].
    apply elem_of_list_to_map_2 in Hp. assert (x ∈ dvfs0_lists ≫= λ e, e.1 :: e.2) as Hin by (apply list_elem_of_bind; by exists (p, l)).
    revert x Hin Hx. clear. intros x Hin _. revert x Hin. apply Forall_forall. apply (bool_decide_unpack _). vm_compute. exact I.
  - exists 4. split; [lia|]. vm_compute. reflexivity.
  - vm_compute. split; discriminate.
  - split; vm_compute; reflexivity.
  - rewrite dvfs0_size. intros i Hi. exists []. split; [by apply dvfs0_bucket|]. split; [cbn; lia|]. intros n. rewrite elem_of_nil. split; [done|].
    intros (x & p & q & _ & Hx & _). by apply elem_of_nil in Hx.
  - intros x Hx. by apply elem_of_nil in Hx.
Qed.

Lemma dvfs0_parent : parent_ok dvfs0 (list_to_map dvfs0_lists) ROOT (Dentry 1 0 4096 0 ROOT 0 0 0) [] ∧ off_table dvfs0 ROOT.
Proof.
  split; [split; [done|split; vm_compute; reflexivity]|]. unfold off_table. rewrite dvfs0_size. intros i Hi.
  assert (buckets (dtab dvfs0) = 16384) as -> by (vm_compute; reflexivity). unfold bucket, BUCKET_SIZE, ROOT, D_CHILDREN. lia.
Qed.

Definition etc_dentry : Z := 16768.
Definition etc_copy : qstr := Qstr (CharP 16936 [101; 116; 99; 0]) 3 (hash etc).

Lemma dvfs0_memory : memory_for 0 dvfs0 etc etc_dentry 16920 etc_copy 16920 16940.
Proof. split; [vm_compute; reflexivity|]. split; [done|]. vm_compute. reflexivity. Qed.

Lemma dentry_acquire_spec_witness :
  ∃ v' F', dentry_acquire 0 ROOT (Some etc) (-1) false true dvfs0 = Ok (etc_dentry, v') ∧ dcache 0 v' F' [etc_dentry].
Proof.
  destruct dvfs0_parent as [HP Hoff].
  destruct (dentry_acquire_spec 0 dvfs0 (list_to_map dvfs0_lists) [] ROOT _ [] etc dvfs0_ok HP Hoff ltac:(vm_compute; reflexivity) etc_name) as [_ Hnew].
  destruct (Hnew etc_dentry 16920 etc_copy 16920 16940) as (_ & l & v' & F' & Hl & E & C).
  - intros y q Hy. apply elem_of_nil in Hy. destruct Hy.
  - exact dvfs0_memory.
  - vm_compute. reflexivity.
  - assert (l = []) as ->.
    { rewrite dvfs0_bucket in Hl; [congruence|]. rewrite <-dvfs0_size. apply (didx_range 0 dvfs0 _ _ _ _ dvfs0_ok). }
    exists v', F'. split; [exact E|]. exact (cr_cache _ _ _ _ _ _ _ _ _ _ _ _ _ C).
Defined.

Lemma dentry_acquire_again_witness :
  ∃ v' v2 d, dentry_acquire 0 ROOT (Some etc) (-1) false true dvfs0 = Ok (etc_dentry, v') ∧
    dentry_acquire 0 ROOT (Some etc) (-1) false true v' = Ok (etc_dentry, v2) ∧ dentries v2 !! etc_dentry = Some d ∧ d_refcount d = 2.
Proof.
  destruct dvfs0_parent as [HP Hoff].
  destruct (dentry_acquire_again 0 dvfs0 (list_to_map dvfs0_lists) [] ROOT _ [] etc etc_dentry 16920 etc_copy 16920 16940
    dvfs0_ok HP Hoff ltac:(vm_compute; reflexivity) etc_name) as (l & v' & Hl & E & Hsame & _).
  - intros y q Hy. apply elem_of_nil in Hy. destruct Hy.
  - exact dvfs0_memory.
  - vm_compute. reflexivity.
  - destruct Hsame as (v2 & d & E2 & Hd & Hr).
    { rewrite dvfs0_bucket in Hl; [congruence|]. rewrite <-dvfs0_size. apply (didx_range 0 dvfs0 _ _ _ _ dvfs0_ok). }
    exists v', v2, d. split; [exact E|]. split; [exact E2|]. split; [exact Hd|exact Hr].
Defined.

Lemma dentry_full_path_witness :
  let v := Dvfs (iv dvfs0) {[ROOT := Dentry 1 0 4096 0 ROOT 0 0 0; 9000 := Dentry 1 0 0 9500 ROOT 0 0 0]} {[9500 := etc]} (dtab dvfs0) 7 in
  dentry_allocFullPath 9000 v = Ok (CharP 16768 [47; 101; 116; 99; 0], set_heap 16774 v).
Proof.
  intros v. destruct (dentry_full_path 9000 [9000; ROOT] [etc] v 16768 16774) as [E _].
  - apply (path_child _ _ 9000 (Dentry 1 0 0 9500 ROOT 0 0 0) etc [ROOT] []);
      [done|vm_compute; reflexivity|cbn; lia|done|vm_compute; reflexivity|cbn; lia|].
    apply (path_root _ _ ROOT (Dentry 1 0 4096 0 ROOT 0 0 0)); [done|vm_compute; reflexivity|cbn; lia|done].
  - cbn. lia.
  - vm_compute. reflexivity.
  - exact E.
Defined.
