(* ===== verification/Mount.v ===== *)
(** * Mounts, file system types and the directories of a process
      ([kernel/fs/vfs/vfsmount.c], [kernel/fs/vfs/fstype.c], [kernel/fs/vfs/fs_struct.c],
      the rest of [kernel/fs/vfs/superblock.c], part of [kernel/fs/vfs/path.c])

    Mounts live in a map from addresses to records next to the dentries; their list
    members are cells of the memory of the lists, and the mount table is a hash table
    whose key is the mount point, a pair of a dentry and a mount. Locks are left out. *)

From stdpp Require Import base gmap list.
From S2P Require Import Prelude ListHead KString Hashtable Qstr Inode Dentry.
Local Open Scope Z_scope.
Local Open Scope kernel_scope.

Definition MS_NOSUID : Z := 2.
Definition MS_NODEV : Z := 4.
Definition MS_NOEXEC : Z := 8.
Definition MS_NOATIME : Z := 1024.
Definition MS_NODIRATIME : Z := 2048.
Definition MS_REC : Z := 16384.
Definition MS_RELATIME : Z := 2097152.

Definition ENOSYS : Z := 38.

Record path := Path {
  p_mnt : Z;
  p_dentry : Z;
}.

#[export] Instance path_eq_dec : EqDecision path.
Proof. solve_decision. Defined.

Record vfsmount := VfsMount {
  mnt_root : Z;
  mnt_path : path;
  mnt_flags : Z;
  mnt_id : Z;
  mnt_superblock : Z;
  mnt_refcount : Z;
  mnt_devname : charp;
}.

(** Offsets of the mount point and of the list members. *)
Definition M_PATH : Z := 8.
Definition M_NODE_SUPER : Z := 40.
Definition M_NODE_GLOBAL : Z := 56.
Definition M_HASH : Z := 72.
Definition M_NODE_NS : Z := 96.
Definition M_CHILDREN : Z := 112.
Definition M_CHILD : Z := 128.
Definition MOUNT_SIZE : Z := 160.
Definition S_MOUNTS : Z := 0.
Definition S_IO : Z := 248.
Definition SUPER_SIZE : Z := 272.

Definition NULL : charp := CharP 0 [].

(** [strcmp] on the bytes of its arguments. *)
Fixpoint text_strcmp (s1 s2 : list Z) : outcome Z :=
  match s1, s2 with
  | a :: s1, b :: s2 =>
      if (a =? 0) || negb (a =? b) then Ok (a - b) else text_strcmp s1 s2
  | _, _ => Fault
  end.

Definition set_mnt_path (p : path) (m : vfsmount) : vfsmount :=
  VfsMount (mnt_root m) p (mnt_flags m) (mnt_id m) (mnt_superblock m) (mnt_refcount m) (mnt_devname m).
Definition set_mnt_flags (n : Z) (m : vfsmount) : vfsmount :=
  VfsMount (mnt_root m) (mnt_path m) n (mnt_id m) (mnt_superblock m) (mnt_refcount m) (mnt_devname m).
Definition set_mnt_refcount (n : Z) (m : vfsmount) : vfsmount :=
  VfsMount (mnt_root m) (mnt_path m) (mnt_flags m) (mnt_id m) (mnt_superblock m) n (mnt_devname m).
Definition set_mnt_devname (s : charp) (m : vfsmount) : vfsmount :=
  VfsMount (mnt_root m) (mnt_path m) (mnt_flags m) (mnt_id m) (mnt_superblock m) (mnt_refcount m) s.

Record fs_struct := FsStruct {
  fs_count : Z;
  root : path;
  pwd : path;
}.

Definition FS_STRUCT_SIZE : Z := 56.

(** [struct fstype]; its list members are at these offsets. *)
Record fstype := FsType {
  fs_name : charp;
  fs_mount : Z;
}.

Definition FT_GLOBAL : Z := 16.
Definition FT_SUPERS : Z := 32.

(** The [remount] of a superblock: the result and the flags it leaves. *)
Class MountOps (W : Type) : Type := {
  op_remount : Z → option (Z → path → Z → Z → W → Z * Z * W);
}.

Section Mount.
Context {A : Type} {KM : KMalloc A} {W : Type} {SO : SuperOps W} {DO : DentryOps W} {MO : MountOps W}.

(** The addresses of the list heads [mount_list] and [file_systems_list]. *)
Context (mount_list file_systems_list : Z).

Record mvfs := Mvfs {
  dv : @dvfs A W;
  mounts : gmap Z vfsmount;
  mtab : hashtable;
  next_mount_id : Z;
  fs_structs : gmap Z fs_struct;
  fstypes : gmap Z fstype;
}.

Definition set_dv (x : @dvfs A W) (v : mvfs) : mvfs := Mvfs x (mounts v) (mtab v) (next_mount_id v) (fs_structs v) (fstypes v).
Definition set_mounts (x : gmap Z vfsmount) (v : mvfs) : mvfs := Mvfs (dv v) x (mtab v) (next_mount_id v) (fs_structs v) (fstypes v).
Definition set_mtab (x : hashtable) (v : mvfs) : mvfs := Mvfs (dv v) (mounts v) x (next_mount_id v) (fs_structs v) (fstypes v).
Definition set_next_mount_id (x : Z) (v : mvfs) : mvfs := Mvfs (dv v) (mounts v) (mtab v) x (fs_structs v) (fstypes v).
Definition set_fs_structs (x : gmap Z fs_struct) (v : mvfs) : mvfs := Mvfs (dv v) (mounts v) (mtab v) (next_mount_id v) x (fstypes v).

Definition get_mount (x : Z) (v : mvfs) : outcome vfsmount := of_option (mounts v !! x).
Definition put_mount (x : Z) (m : vfsmount) (v : mvfs) : mvfs := set_mounts (<[x := m]> (mounts v)) v.
Definition upd_mount (x : Z) (f : vfsmount → vfsmount) (v : mvfs) : outcome mvfs :=
  let! m := get_mount x v in Ok (put_mount x (f m) v).

Definition mhm (v : mvfs) : @hmem A := hm (iv (dv v)).
Definition set_mhm (m : @hmem A) (v : mvfs) : mvfs := set_dv (set_iv (set_hm m (iv (dv v))) (dv v)) v.
Definition links (v : mvfs) : store := cells (mhm v).
Definition on_links (f : store → outcome store) (v : mvfs) : outcome mvfs :=
  let! c := f (links v) in Ok (set_mhm (set_cells c (mhm v)) v).
Definition malloc (n : Z) (v : mvfs) : Z * mvfs :=
  let (p, a) := kmalloc n (heap (mhm v)) in (p, set_mhm (HMem (links v) (statics (mhm v)) a) v).
Definition release (p : Z) (v : mvfs) : mvfs :=
  set_mhm (HMem (links v) (statics (mhm v)) (kfree p (heap (mhm v)))) v.

(** An operation on the dentries below. *)
Definition on_dv {B : Type} (f : @dvfs A W → outcome (B * @dvfs A W)) (v : mvfs) : outcome (B * mvfs) :=
  let! (r, d) := f (dv v) in Ok (r, set_dv d v).

(** ** The mount table *)

Definition mount_hash_func (key : path) : Z := u32 (u64 (u64 (p_dentry key * 31) + p_mnt key)).

Definition mount_get_key (node : Z) : Z := node - M_HASH + M_PATH.

Definition mount_key_equals (p1 p2 : path) : bool := (p_dentry p1 =? p_dentry p2) && (p_mnt p1 =? p_mnt p2).

(** What a key pointer leads to: the [mnt_path] of a mount, or the caller's path. *)
Definition mkey (local : path) (v : mvfs) (k : Z) : path :=
  if k =? LOCAL_KEY then local else default (Path 0 0) (mnt_path <$> mounts v !! (k - M_PATH)).

Definition mhash (local : path) (v : mvfs) (k : Z) : Z := mount_hash_func (mkey local v k).
Definition mequal (local : path) (v : mvfs) (k1 k2 : Z) : bool := mount_key_equals (mkey local v k1) (mkey local v k2).

Definition mcache_init (v : mvfs) : outcome mvfs :=
  let! v := on_links (INIT_LIST_HEAD mount_list) v in
  let! (_, t, m) := hashtable_setup (Some (mtab v)) 256 75 (mhm v) in
  Ok (set_mtab (default (mtab v) t) (set_mhm m v)).

Definition path_lookupMount (p : path) (v : mvfs) : outcome Z :=
  let! node := hashtable_lookup (mhash p v) mount_get_key (mequal p v) (Some (mtab v)) LOCAL_KEY (mhm v) in
  if PTR_IS_INVALID node then Ok 0 else Ok (node - M_HASH).

Definition __mount_hash (x : Z) (v : mvfs) : outcome (Z * mvfs) :=
  if x =? 0 then Ok (- EINVAL, v)
  else
    let! m := get_mount x v in
    if p_dentry (mnt_path m) =? 0 then Ok (- EINVAL, v)
    else
      let! (r, t, h) := hashtable_insert (mhash (Path 0 0) v) mount_get_key (mequal (Path 0 0) v) (Some (mtab v)) (x + M_HASH) (mhm v) in
      Ok (r, set_mtab (default (mtab v) t) (set_mhm h v)).

Definition unhash_mount (x : Z) (v : mvfs) : outcome mvfs :=
  let! (_, t, h) := hashtable_remove mount_get_key (Some (mtab v)) (x + M_HASH) (mhm v) in
  Ok (set_mtab (default (mtab v) t) (set_mhm h v)).

Definition __mount_unhash (x : Z) (v : mvfs) : outcome mvfs :=
  if x =? 0 then Ok v else unhash_mount x v.

(** ** References *)

Definition mount_ref (x : Z) (v : mvfs) : outcome (Z * mvfs) :=
  if x =? 0 then Ok (0, v)
  else let! v := upd_mount x (λ m, set_mnt_refcount (s32 (mnt_refcount m + 1)) m) v in Ok (x, v).

Definition mount_cells (x : Z) : list Z :=
  [x + M_NODE_SUPER; x + M_NODE_GLOBAL; x + M_HASH; x + M_NODE_NS; x + M_CHILDREN; x + M_CHILD].

Definition __mount_free (x : Z) (v : mvfs) : outcome mvfs :=
  if x =? 0 then Ok v
  else
    let! m := get_mount x v in
    let v := if is_null (mnt_devname m) then v else release (addr (mnt_devname m)) v in
    let v := set_mhm (set_cells (foldr delete (links v) (mount_cells x)) (mhm v)) v in
    Ok (release x (set_mounts (delete x (mounts v)) v)).

(** What [mount_unref] does to the table and the lists when the last reference goes. *)
Definition mount_leave (x : Z) (v : mvfs) : outcome mvfs :=
  let! e := list_empty (x + M_HASH) (links v) in
  let! v := (if e then Ok v else unhash_mount x v) in
  let! v := on_links (list_del (x + M_NODE_GLOBAL)) v in
  let! m := get_mount x v in
  let! v := (if mnt_superblock m =? 0 then Ok v else on_links (list_del (x + M_NODE_SUPER)) v) in
  let! e := list_empty (x + M_CHILD) (links v) in
  if e then Ok v else on_links (list_del (x + M_CHILD)) v.

(** Every level frees a mount, so the number of mounts is enough fuel. *)
Fixpoint mount_unref_loop (fuel : nat) (x : Z) (v : mvfs) : outcome mvfs :=
  if x =? 0 then Ok v
  else
    let! m := get_mount x v in
    let m := set_mnt_refcount (s32 (mnt_refcount m - 1)) m in
    let v := put_mount x m v in
    if mnt_refcount m =? 0 then
      match fuel with
      | O => Timeout
      | S fuel =>
          let! v := mount_leave x v in
          let! v := (if mnt_root m =? 0 then Ok v else let! (_, v) := on_dv (dentry_unref (mnt_root m)) v in Ok v) in
          let! v := (if p_dentry (mnt_path m) =? 0 then Ok v
                     else let! (_, v) := on_dv (dentry_unref (p_dentry (mnt_path m))) v in Ok v) in
          let! v := (if p_mnt (mnt_path m) =? 0 then Ok v else mount_unref_loop fuel (p_mnt (mnt_path m)) v) in
          __mount_free x v
      end
    else Ok v.

Definition mount_unref (x : Z) (v : mvfs) : outcome mvfs := mount_unref_loop (size (mounts v)) x v.

(** ** Attaching and changing mounts *)

Definition mount_add (newmnt : Z) (mountpoint : option path) (flags : Z) (v : mvfs) : outcome (Z * mvfs) :=
  match mountpoint with
  | None => Ok (- EINVAL, v)
  | Some mp =>
      if newmnt =? 0 then Ok (- EINVAL, v)
      else
        let! parent := path_lookupMount mp v in
        if negb (parent =? 0) then Ok (- EBUSY, v)
        else
          let! (d, v) := on_dv (dentry_ref (p_dentry mp)) v in
          let! v := upd_mount newmnt (λ m, set_mnt_path (Path (p_mnt (mnt_path m)) d) m) v in
          let! (x, v) := mount_ref (p_mnt mp) v in
          let! v := upd_mount newmnt (λ m, set_mnt_path (Path x (p_dentry (mnt_path m))) m) v in
          let! v := (if p_mnt mp =? 0 then Ok v else on_links (list_add (newmnt + M_CHILD) (p_mnt mp + M_CHILDREN)) v) in
          let! (error, v) := __mount_hash newmnt v in
          if negb (error =? 0) then
            let! m := get_mount newmnt v in
            let! (_, v) := on_dv (dentry_unref (p_dentry (mnt_path m))) v in
            let! m := get_mount newmnt v in
            let! v := mount_unref (p_mnt (mnt_path m)) v in
            let! v := upd_mount newmnt (set_mnt_path (Path 0 0)) v in
            let! v := on_links (list_del_init (newmnt + M_CHILD)) v in
            Ok (error, v)
          else Ok (0, v)
  end.

(** The memory of a new mount, cleared. *)
Definition new_mount (x : Z) (v : mvfs) : mvfs :=
  put_mount x (VfsMount 0 (Path 0 0) 0 0 0 0 NULL)
    (set_mhm (set_cells (foldr (λ p c, <[p := ListHead 0 0]> c) (links v) (mount_cells x)) (mhm v)) v).

Fixpoint init_lists (l : list Z) (v : mvfs) : outcome mvfs :=
  match l with
  | [] => Ok v
  | p :: l => let! v := on_links (INIT_LIST_HEAD p) v in init_lists l v
  end.

(** A copy of a string from [kmalloc] and [strcpy], or [kstrdup]. *)
Definition copy_string (s : charp) (v : mvfs) : outcome (charp * mvfs) :=
  let! n := text_strlen (text s) in
  let (p, v) := malloc (u64 (n + 1)) v in
  Ok (if p =? 0 then NULL else CharP p (take (Z.to_nat n) (text s) ++ [0]), v).

Definition mount_bind (source : option path) (flags : Z) (v : mvfs) : outcome (Z * mvfs) :=
  match source with
  | None => Ok (ERR_PTR (- EINVAL), v)
  | Some src =>
      if (p_dentry src =? 0) || (p_mnt src =? 0) then Ok (ERR_PTR (- EINVAL), v)
      else
        let (x, v) := malloc MOUNT_SIZE v in
        if x =? 0 then Ok (ERR_PTR (- ENOMEM), v)
        else
          let v := new_mount x v in
          let! v := init_lists [x + M_NODE_SUPER; x + M_NODE_GLOBAL; x + M_HASH; x + M_NODE_NS; x + M_CHILDREN; x + M_CHILD] v in
          let! (d, v) := on_dv (dentry_ref (p_dentry src)) v in
          let! sm := get_mount (p_mnt src) v in
          let sb := mnt_superblock sm in
          let new_flags := s32 (Z.lor (Z.land (mnt_flags sm) (Z.lnot MS_REC)) (Z.land flags MS_REC)) in
          let! v := upd_mount x (λ m, VfsMount d (mnt_path m) new_flags (mnt_id m) sb 1 (mnt_devname m)) v in
          let! v := (if sb =? 0 then Ok v else on_links (list_add (x + M_NODE_SUPER) (sb + S_MOUNTS)) v) in
          let! v := on_links (list_add (x + M_NODE_GLOBAL) mount_list) v in
          let! sm := get_mount (p_mnt src) v in
          if is_null (mnt_devname sm) then Ok (x, v)
          else
            let! (s, v) := copy_string (mnt_devname sm) v in
            let! v := upd_mount x (set_mnt_devname s) v in
            Ok (x, v)
  end.

(** One [if (flags & F) remount_flags |= F]. *)
Definition or_flag (flag flags remount_flags : Z) : Z :=
  if has flag flags then Z.lor remount_flags flag else remount_flags.

Definition remount_flags_of (flags old : Z) : Z :=
  let r := if has MS_RDONLY flags then Z.lor old MS_RDONLY else Z.land old (Z.lnot MS_RDONLY) in
  let r := or_flag MS_NOSUID flags r in
  let r := or_flag MS_NODEV flags r in
  let r := or_flag MS_NOEXEC flags r in
  let r := or_flag MS_NOATIME flags r in
  let r := or_flag MS_NODIRATIME flags r in
  or_flag MS_RELATIME flags r.

Definition remount (mount_path : option path) (flags data : Z) (v : mvfs) : outcome (Z * mvfs) :=
  match mount_path with
  | None => Ok (- EINVAL, v)
  | Some mp =>
      let! x := path_lookupMount mp v in
      if x =? 0 then Ok (- EINVAL, v)
      else
        let! m := get_mount x v in
        if mnt_superblock m =? 0 then Ok (- ENOSYS, v)
        else
          let! b := get_super (mnt_superblock m) (iv (dv v)) in
          match hook op_remount (s_operations b) with
          | None => Ok (- ENOSYS, v)
          | Some f =>
              let '(ret, r, w) := f (mnt_superblock m) mp (remount_flags_of flags (mnt_flags m)) data (fs (iv (dv v))) in
              let v := set_dv (set_iv (set_fs w (iv (dv v))) (dv v)) v in
              if negb (ret =? 0) then Ok (ret, v)
              else let! v := upd_mount x (set_mnt_flags r) v in Ok (0, v)
          end
  end.

(** ** Superblocks *)

Definition set_s_root (r : Z) (b : superblock) : superblock :=
  Superblock (s_flags b) (s_operations b) (s_refcount b) (s_next_ino b) r (s_fs_info b) (s_device_id b) (s_fstype b).

Definition on_iv (f : @vfs A W → outcome (@vfs A W)) (v : mvfs) : outcome mvfs :=
  let! w := f (iv (dv v)) in Ok (set_dv (set_iv w (dv v)) v).

(** [create_mount] of a superblock's operations; no file system of the kernel has one. *)
Definition superblock_acquireMount (create_mount : Z → option (Z → Z → charp → mvfs → outcome (Z * mvfs)))
    (s flags : Z) (device_path : charp) (v : mvfs) : outcome (Z * mvfs) :=
  if s =? 0 then Ok (0, v)
  else
    let! b := get_super s (iv (dv v)) in
    if s_root b =? 0 then Ok (0, v)
    else
      let! (mnt, v) := (match hook create_mount (s_operations b) with
                        | Some f => f s flags device_path v
                        | None => Ok (0, v)
                        end) in
      if negb (mnt =? 0) then Ok (mnt, v)
      else
        let (x, v) := malloc MOUNT_SIZE v in
        if PTR_IS_INVALID x then Ok (ERR_PTR (- ENOMEM), v)
        else
          let v := new_mount x v in
          let! b := get_super s (iv (dv v)) in
          let! (d, v) := on_dv (dentry_ref (s_root b)) v in
          let! v := upd_mount x (λ m, VfsMount d (mnt_path m) flags (next_mount_id v) s 1 (mnt_devname m)) v in
          let v := set_next_mount_id (s32 (next_mount_id v + 1)) v in
          let! named := (if is_null device_path then Ok false
                         else let! c := of_option (head (text device_path)) in Ok (negb (c =? 0))) in
          let! v := (if named then
                       let! (n, v) := copy_string device_path v in
                       upd_mount x (set_mnt_devname n) v
                     else Ok v) in
          let! v := init_lists [x + M_CHILDREN; x + M_NODE_SUPER; x + M_CHILD; x + M_NODE_GLOBAL; x + M_NODE_NS] v in
          let! v := on_links (list_add (x + M_NODE_SUPER) (s + S_MOUNTS)) v in
          let! v := on_iv (grab_super s) v in
          Ok (x, v).

(** The loop of [generic_shutdown_super] over all inodes, with its two cursors. *)
Fixpoint shutdown_loop (fuel : nat) (s pos n : Z) (v : @vfs A W) : outcome (@vfs A W) :=
  if pos =? s + S_ALL then Ok v
  else
    match fuel with
    | O => Timeout
    | S fuel =>
        let x := pos - I_S_LIST in
        let! i := get_inode x v in
        let! b := get_super s v in
        let v := (if has I_DIRTY (i_state i) then
                    match hook op_write_inode (s_operations b) with
                    | Some f => let (_, w) := f x 1 (fs v) in set_fs w v
                    | None => v
                    end
                  else v) in
        let v := match hook Inode.op_evict_inode (s_operations b) with Some f => set_fs (f x (fs v)) v | None => v end in
        let! n' := get_next n (lists v) in
        shutdown_loop fuel s n n' v
    end.

Definition generic_shutdown_super (s : Z) (v : mvfs) : outcome mvfs :=
  if s =? 0 then Ok v
  else
    let! v := on_iv (λ w,
      let! (_, w) := sync_filesystem s 1 w in
      let! pos := get_next (s + S_ALL) (lists w) in
      let! n := get_next pos (lists w) in
      shutdown_loop (size (lists w)) s pos n w) v in
    let! b := get_super s (iv (dv v)) in
    let! v := (if s_root b =? 0 then Ok v
               else
                 let! (_, v) := on_dv (dentry_unref (s_root b)) v in
                 on_iv (λ w, let! b := get_super s w in Ok (put_super s (set_s_root 0 b) w)) v) in
    let! v := on_iv (deactivate_super_safe s) v in
    on_iv (superblock_put s) v.

(** ** The mount above a dentry *)

(** The lookup of [dentry_lookupMountpoint]; it asks for a mount point in no mount. *)
Definition mount_on (x : Z) (v : mvfs) : outcome (Z * mvfs) :=
  let p := Path 0 x in
  let! node := hashtable_lookup (mhash p v) mount_get_key (mequal p v) (Some (mtab v)) LOCAL_KEY (mhm v) in
  if node =? 0 then Ok (0, v) else mount_ref (node - M_HASH) v.

Fixpoint lookup_mountpoint (fuel : nat) (x : Z) (v : mvfs) : outcome (Z * mvfs) :=
  if x =? 0 then Ok (0, v)
  else
    let! d := get_dentry x (dv v) in
    if d_parent d =? x then mount_on x v
    else
      match fuel with
      | O => Timeout
      | S fuel =>
          let! (mnt, v) := (if has DCACHE_MOUNTED (d_flags d) then mount_on x v else Ok (0, v)) in
          if negb (mnt =? 0) then Ok (mnt, v) else lookup_mountpoint fuel (d_parent d) v
      end.

(** A walk to the root visits every dentry at most once. *)
Definition dentry_lookupMountpoint (x : Z) (v : mvfs) : outcome (Z * mvfs) :=
  lookup_mountpoint (size (dentries (dv v))) x v.

(** ** Paths and the directories of a process *)

(** Both members are null afterwards. *)
Definition path_destroy (p : path) (v : mvfs) : outcome (path * mvfs) :=
  let! v := (if p_dentry p =? 0 then Ok v else let! (_, v) := on_dv (dentry_unref (p_dentry p)) v in Ok v) in
  let! v := (if p_mnt p =? 0 then Ok v else mount_unref (p_mnt p) v) in
  Ok (Path 0 0, v).

Definition get_fs (x : Z) (v : mvfs) : outcome fs_struct := of_option (fs_structs v !! x).
Definition put_fs (x : Z) (f : fs_struct) (v : mvfs) : mvfs := set_fs_structs (<[x := f]> (fs_structs v)) v.

(** [umask], which is not initialised and not read, is left out. *)
Definition fs_struct_create (v : mvfs) : outcome (Z * mvfs) :=
  let (x, v) := malloc FS_STRUCT_SIZE v in
  if x =? 0 then Ok (ERR_PTR (- ENOMEM), v)
  else Ok (x, put_fs x (FsStruct 1 (Path 0 0) (Path 0 0)) v).

(** References to both members of a path. *)
Definition ref_path (p : path) (v : mvfs) : outcome (path * mvfs) :=
  let! (d, v) := on_dv (dentry_ref (p_dentry p)) v in
  let! (m, v) := mount_ref (p_mnt p) v in
  Ok (Path m d, v).

(** The result of [fs_struct_create] is not checked: writing through the error pointer
    is a fault. *)
Definition copy_fs_struct (old : Z) (v : mvfs) : outcome (Z * mvfs) :=
  if old =? 0 then Ok (0, v)
  else
    let! (x, v) := fs_struct_create v in
    let! o := get_fs old v in
    let! v := (if p_dentry (root o) =? 0 then Ok v
               else
                 let! (p, v) := ref_path (root o) v in
                 let! f := get_fs x v in
                 Ok (put_fs x (FsStruct (fs_count f) p (pwd f)) v)) in
    let! v := (if p_dentry (pwd o) =? 0 then Ok v
               else
                 let! (p, v) := ref_path (pwd o) v in
                 let! f := get_fs x v in
                 Ok (put_fs x (FsStruct (fs_count f) (root f) p) v)) in
    Ok (x, v).

Definition fs_struct_unref (x : Z) (v : mvfs) : outcome mvfs :=
  if x =? 0 then Ok v
  else
    let! f := get_fs x v in
    let f := FsStruct (s32 (fs_count f - 1)) (root f) (pwd f) in
    let v := put_fs x f v in
    if fs_count f =? 0 then
      let! (_, v) := path_destroy (root f) v in
      let! (_, v) := path_destroy (pwd f) v in
      Ok (release x (set_fs_structs (delete x (fs_structs v)) v))
    else Ok v.

Definition set_fs_root (x : Z) (p : option path) (v : mvfs) : outcome mvfs :=
  match p with
  | None => Ok v
  | Some p =>
      if x =? 0 then Ok v
      else
        let! f := get_fs x v in
        let old_root := root f in
        let! (p, v) := ref_path p v in
        let v := put_fs x (FsStruct (fs_count f) p (pwd f)) v in
        let! (_, v) := path_destroy old_root v in
        Ok v
  end.

Definition set_fs_pwd (x : Z) (p : option path) (v : mvfs) : outcome mvfs :=
  match p with
  | None => Ok v
  | Some p =>
      if x =? 0 then Ok v
      else
        let! f := get_fs x v in
        let old_pwd := pwd f in
        let! (p, v) := ref_path p v in
        let v := put_fs x (FsStruct (fs_count f) (root f) p) v in
        let! (_, v) := path_destroy old_pwd v in
        Ok v
  end.

(** ** File system types *)

Definition get_fstype (x : Z) (v : mvfs) : outcome fstype := of_option (fstypes v !! x).

(** [list_for_each_entry] over the registered types up to the first that [test] accepts;
    0 when there is none. *)
Fixpoint find_fstype (fuel : nat) (test : Z → fstype → outcome bool) (pos : Z) (v : mvfs) : outcome Z :=
  if pos =? file_systems_list then Ok 0
  else
    let x := pos - FT_GLOBAL in
    let! t := get_fstype x v in
    let! hit := test x t in
    if hit then Ok x
    else
      match fuel with
      | O => Timeout
      | S fuel =>
          let! pos := get_next pos (links v) in
          find_fstype fuel test pos v
      end.

Definition search_fstypes (test : Z → fstype → outcome bool) (v : mvfs) : outcome Z :=
  let! pos := get_next file_systems_list (links v) in
  find_fstype (size (links v)) test pos v.

Definition same_name (s : charp) (x : Z) (t : fstype) : outcome bool :=
  let! r := text_strcmp (text (fs_name t)) (text s) in Ok (r =? 0).

Definition fstype_register_all (v : mvfs) : outcome (Z * mvfs) :=
  let! v := on_links (INIT_LIST_HEAD file_systems_list) v in Ok (0, v).

Definition fstype_register (x : Z) (v : mvfs) : outcome (Z * mvfs) :=
  if x =? 0 then Ok (- EINVAL, v)
  else
    let! t := get_fstype x v in
    if is_null (fs_name t) then Ok (- EINVAL, v)
    else
      let! v := init_lists [x + FT_GLOBAL; x + FT_SUPERS] v in
      let! p := search_fstypes (same_name (fs_name t)) v in
      if negb (p =? 0) then Ok (- EBUSY, v)
      else
        let! v := on_links (list_add (x + FT_GLOBAL) file_systems_list) v in
        Ok (0, v).

Definition fstype_unregister (x : Z) (v : mvfs) : outcome (Z * mvfs) :=
  if x =? 0 then Ok (- EINVAL, v)
  else
    let! t := get_fstype x v in
    if is_null (fs_name t) then Ok (- EINVAL, v)
    else
      let! p := search_fstypes (λ p _, Ok (p =? x)) v in
      if p =? 0 then Ok (- ENOENT, v)
      else
        let! v := on_links (list_del (p + FT_GLOBAL)) v in
        Ok (0, v).

Definition fstype_lookup (name : charp) (v : mvfs) : outcome Z :=
  if is_null name then Ok 0 else search_fstypes (same_name name) v.

(** The list members of a superblock. *)
Definition super_cells (s : Z) : list Z := [s + S_MOUNTS; s + S_FSTYPE; s + S_ALL; s + S_CLEAN; s + S_DIRTY; s + S_IO].

Definition new_super (s : Z) (b : superblock) (v : mvfs) : mvfs :=
  let v := set_mhm (set_cells (foldr (λ p c, <[p := ListHead 0 0]> c) (links v) (super_cells s)) (mhm v)) v in
  set_dv (set_iv (put_super s b (iv (dv v))) (dv v)) v.

(** The fields that are not part of the record stay cleared. *)
Definition __fstype_allocSuperblock (type : Z) (v : mvfs) : outcome (Z * mvfs) :=
  let (s, v) := malloc SUPER_SIZE v in
  if s =? 0 then Ok (0, v)
  else
    let v := new_super s (Superblock 0 0 1 1 0 0 0 type) v in
    let! v := init_lists [s + S_ALL; s + S_CLEAN; s + S_DIRTY; s + S_IO; s + S_MOUNTS; s + S_FSTYPE] v in
    Ok (s, v).

(** The loop over the superblocks of a type. *)
Fixpoint find_super (fuel : nat) (head dev_id pos : Z) (v : mvfs) : outcome Z :=
  if pos =? head then Ok 0
  else
    let s := pos - S_FSTYPE in
    let! b := get_super s (iv (dv v)) in
    if s_device_id b =? dev_id then Ok s
    else
      match fuel with
      | O => Timeout
      | S fuel =>
          let! pos := get_next pos (links v) in
          find_super fuel head dev_id pos v
      end.

(** [mount] is what the [fs_mount] pointers of the file systems do. *)
Definition fstype_mount (mount : Z → option (Z → Z → Z → Z → mvfs → outcome (Z * mvfs)))
    (type flags dev_id fs_data : Z) (v : mvfs) : outcome (Z * mvfs) :=
  if type =? 0 then Ok (0, v)
  else
    let! t := get_fstype type v in
    let! found :=
      (if dev_id =? 0 then Ok 0
       else
         let! pos := get_next (type + FT_SUPERS) (links v) in
         find_super (size (links v)) (type + FT_SUPERS) dev_id pos v) in
    if negb (found =? 0) then Ok (found, v)
    else
      let! (s, v) :=
        match hook mount (fs_mount t) with
        | Some f => f type flags dev_id fs_data v
        | None => __fstype_allocSuperblock type v
        end in
      if PTR_IS_INVALID s then
        Ok (match hook mount (fs_mount t) with Some _ => s | None => ERR_PTR (- ENOMEM) end, v)
      else
        let! v := on_iv (λ w, let! b := get_super s w in
          Ok (put_super s (Superblock (s_flags b) (s_operations b) (s_refcount b) (s_next_ino b) (s_root b) (s_fs_info b) dev_id (s_fstype b)) w)) v in
        let! v := on_links (list_add (s + S_FSTYPE) (type + FT_SUPERS)) v in
        Ok (s, v).
End Mount.

Section Spec.
Context {A : Type} {KM : KMalloc A} {W : Type} {SO : SuperOps W} {DO : DentryOps W} {MO : MountOps W}.
Implicit Types (v : @mvfs A W) (F : heads).

(** ** The mount table *)

Definition mount_nodes (l : list Z) : list Z := (λ x, x + M_HASH) <$> l.

(** The table holds the mounts [xs], each under its mount point. *)
Record mount_rep v F (xs : list Z) : Prop := {
  mr_rep : ht_rep (mhash (Path 0 0) v) mount_get_key (mequal (Path 0 0) v) (mtab v) (mhm v) F (mount_nodes xs);
  mr_mount x : x ∈ xs → 0 < x < 2 ^ 63 ∧ is_Some (mounts v !! x);
}.

Lemma key_equals_path p q : mount_key_equals p q = true ↔ p = q.
Proof.
  destruct p, q. unfold mount_key_equals. cbn. rewrite andb_true_iff, !Z.eqb_eq.
  split; [intros [-> ->]; done|intros [= -> ->]; done].
Qed.

Lemma mount_callbacks local v : callbacks (mhash local v) (mequal local v).
Proof.
  split.
  - intros k. apply u32_range.
  - intros k k'. unfold mequal, mount_key_equals. by rewrite (Z.eqb_sym (p_dentry (mkey local v k))), (Z.eqb_sym (p_mnt (mkey local v k))).
  - intros k k' E. unfold mequal in E. apply key_equals_path in E. unfold mhash. by rewrite E.
Qed.

Lemma mount_key_node x : mount_get_key (x + M_HASH) = x + M_PATH.
Proof. unfold mount_get_key. lia. Qed.

Lemma mkey_mount local v x m : 0 < x → mounts v !! x = Some m → mkey local v (x + M_PATH) = mnt_path m.
Proof.
  intros Hx Hm. unfold mkey, LOCAL_KEY. rewrite (proj2 (Z.eqb_neq _ _)) by (unfold M_PATH; lia).
  replace (x + M_PATH - M_PATH) with x by lia. by rewrite Hm.
Qed.

(** The table of [v] in a state [v'] where its mounts have the same mount points and its
    buckets the same nodes, whatever path is looked for. *)
Lemma mount_rep_transfer local v v' F F' xs :
  mount_rep v F xs → mtab v' = mtab v → family (links v') F' →
  (∀ i, 0 ≤ i < ht_size (mtab v) → F' !! bucket (buckets (mtab v)) i = F !! bucket (buckets (mtab v)) i) →
  (∀ x m, x ∈ xs → mounts v !! x = Some m → ∃ m', mounts v' !! x = Some m' ∧ mnt_path m' = mnt_path m) →
  ht_rep (mhash local v') mount_get_key (mequal local v') (mtab v') (mhm v') F' (mount_nodes xs).
Proof.
  intros [HR Hx] Et HF Hb Hm. rewrite Et.
  assert (∀ n, n ∈ mount_nodes xs → mkey local v' (mount_get_key n) = mkey (Path 0 0) v (mount_get_key n)) as Hk.
  { intros n Hn. apply list_elem_of_fmap in Hn as (x & -> & Hin). destruct (Hx x Hin) as [Hr [m Em]].
    destruct (Hm x m Hin Em) as (m' & Em' & Ep). rewrite mount_key_node, (mkey_mount _ v' x m'), (mkey_mount _ v x m) by (done || lia). done. }
  apply (ht_rep_ext (mhash (Path 0 0) v) _ _ (mequal (Path 0 0) v)).
  - intros n Hn. unfold mhash. by rewrite Hk.
  - intros n n' Hn Hn'. unfold mequal. by rewrite !Hk.
  - destruct HR as [H1 H2 H3 H4 H5 H6 H7 H8]. split; try done. intros i Hi. rewrite Hb by done. by apply H3.
Qed.

Lemma mount_rep_local local v F xs :
  mount_rep v F xs → ht_rep (mhash local v) mount_get_key (mequal local v) (mtab v) (mhm v) F (mount_nodes xs).
Proof. intros HR. apply (mount_rep_transfer local v v F F xs HR); [done|apply HR|done|by eauto]. Qed.

(** A lookup finds the mount on a path, if there is one. *)
Lemma lookupMount_ok v F xs p :
  mount_rep v F xs →
  (∃ x m, x ∈ xs ∧ mounts v !! x = Some m ∧ mnt_path m = p ∧ path_lookupMount p v = Ok x) ∨
  (∀ x m, x ∈ xs → mounts v !! x = Some m → mnt_path m ≠ p) ∧ path_lookupMount p v = Ok 0.
Proof.
  intros HR. unfold path_lookupMount.
  destruct (lookup_spec _ mount_get_key _ (mount_callbacks p v) _ _ F _ LOCAL_KEY (mount_rep_local p v F xs HR)) as (r & -> & Hr); [done|].
  cbn [obind]. change (mkey p v LOCAL_KEY) with p in *. destruct Hr as [(Hr0 & Hin & Heq)|[-> Hno]].
  - left. apply list_elem_of_fmap in Hin as (x & -> & Hx). destruct (mr_mount _ _ _ HR x Hx) as [Hrg [m Hm]].
    unfold mequal in Heq. rewrite mount_key_node, (mkey_mount _ v x m), key_equals_path in Heq by (done || lia).
    assert (PTR_IS_INVALID (x + M_HASH) = false) as ->.
    { unfold PTR_IS_INVALID, PTR_IS_ERROR. rewrite (proj2 (Z.eqb_neq _ 0)) by done.
      rewrite u64_small by (unfold M_HASH; lia). apply Z.leb_gt. unfold M_HASH. lia. }
    exists x, m. split; [done|]. split; [done|]. split; [done|]. by replace (x + M_HASH - M_HASH) with x by lia.
  - right. split; [|done]. intros x m Hx Hm Ep. destruct (mr_mount _ _ _ HR x Hx) as [Hrg _].
    assert (mequal p v (mount_get_key (x + M_HASH)) LOCAL_KEY = true) as E.
    { unfold mequal. rewrite mount_key_node, (mkey_mount _ v x m) by (done || lia). by apply key_equals_path. }
    rewrite Hno in E; [done|]. apply list_elem_of_fmap. by exists x.
Qed.

Lemma lookupMount_found v F xs x m : mount_rep v F xs → x ∈ xs → mounts v !! x = Some m → path_lookupMount (mnt_path m) v = Ok x.
Proof.
  intros HR Hx Hm. destruct (lookupMount_ok v F xs (mnt_path m) HR) as [(y & k & Hy & Hk & E & ->)|[Hno _]]; [|by destruct (Hno x m Hx Hm)].
  f_equal. assert (y + M_HASH = x + M_HASH) as E'; [|lia].
  apply (hr_unique _ _ _ _ _ _ _ (mr_rep _ _ _ HR)); [apply list_elem_of_fmap; by exists y|apply list_elem_of_fmap; by exists x|].
  destruct (mr_mount _ _ _ HR y Hy), (mr_mount _ _ _ HR x Hx).
  unfold mequal. by rewrite !mount_key_node, (mkey_mount _ v y k), (mkey_mount _ v x m), key_equals_path by (done || lia).
Qed.

Lemma lookupMount_none v F xs p :
  mount_rep v F xs → (∀ x m, x ∈ xs → mounts v !! x = Some m → mnt_path m ≠ p) → path_lookupMount p v = Ok 0.
Proof. intros HR Hno. destruct (lookupMount_ok v F xs p HR) as [(x & m & Hx & Hm & E & _)|[_ ?]]; [by destruct (Hno x m)|done]. Qed.

(** Entering a mount whose mount point is free. *)
Lemma hash_mount_ok v F xs x m :
  mount_rep v F xs → 0 < x < 2 ^ 63 → mounts v !! x = Some m → p_dentry (mnt_path m) ≠ 0 →
  ~ in_family F (x + M_HASH) → is_Some (links v !! (x + M_HASH)) →
  items (mtab v) < ht_size (mtab v) * max_load (mtab v) / 100 →
  (∀ y k, y ∈ xs → mounts v !! y = Some k → mnt_path k ≠ mnt_path m) →
  ∃ v' F', __mount_hash x v = Ok (0, v') ∧ mounts v' = mounts v ∧ mount_rep v' F' (x :: xs) ∧ dentries (dv v') = dentries (dv v) ∧
    ∀ h, (∀ i, 0 ≤ i < ht_size (mtab v) → h ≠ bucket (buckets (mtab v)) i) → F' !! h = F !! h.
Proof.
  intros HR Hx Hm Hd Hfresh Hs Hload Hfree. unfold __mount_hash, get_mount.
  rewrite (proj2 (Z.eqb_neq x 0)), Hm by lia. cbn [of_option obind]. rewrite (proj2 (Z.eqb_neq _ 0)) by done.
  destruct (insert_below_spec _ mount_get_key _ (mount_callbacks (Path 0 0) v) _ _ F _ (x + M_HASH) (mr_rep _ _ _ HR))
    as [[(n & Hn & Eq) _]|[_ (t' & m' & F' & -> & HR' & HF')]];
    [unfold M_HASH; lia|rewrite mount_key_node; unfold M_PATH; lia|done|done|done| |].
  - exfalso. apply list_elem_of_fmap in Hn as (y & -> & Hy). destruct (mr_mount _ _ _ HR y Hy) as [Hyr [k Hk]].
    unfold mequal in Eq. rewrite !mount_key_node, (mkey_mount _ v y k), (mkey_mount _ v x m), key_equals_path in Eq by (done || lia).
    by apply (Hfree y k).
  - cbn [obind]. eexists _, F'. split; [done|]. split; [done|]. split; [|split; [done|exact HF']]. split; [exact HR'|].
    intros y [->|Hy]%elem_of_cons; [split; [done|by exists m]|by apply HR].
Qed.

(** ** Attaching a mount *)

(** The state once [mount_add] has set the mount point of [x], with its references. *)
Definition attached v (x : Z) (m : vfsmount) (mp : path) (d : dentry) (pm : vfsmount) : @mvfs A W :=
  let v := set_dv (put_dentry (p_dentry mp) (set_d_refcount (s32 (d_refcount d + 1)) d) (dv v)) v in
  set_mounts (<[x := set_mnt_path mp m]> (<[p_mnt mp := set_mnt_refcount (s32 (mnt_refcount pm + 1)) pm]> (mounts v))) v.

(** [x] can be attached to [mp]: both parts of [mp] are there, and [x] is on no list. *)
Record can_attach v F (x : Z) (m : vfsmount) (mp : path) (d : dentry) (pm : vfsmount) (kids : list Z) : Prop := {
  ca_range : 0 < x < 2 ^ 63;
  ca_mount : mounts v !! x = Some m;
  ca_dentry : p_dentry mp ≠ 0 ∧ dentries (dv v) !! p_dentry mp = Some d;
  ca_parent : p_mnt mp ≠ 0 ∧ p_mnt mp ≠ x ∧ mounts v !! p_mnt mp = Some pm;
  ca_kids : F !! (p_mnt mp + M_CHILDREN) = Some kids;
  ca_off i : 0 ≤ i < ht_size (mtab v) → p_mnt mp + M_CHILDREN ≠ bucket (buckets (mtab v)) i;
  ca_fresh p : p = x + M_CHILD ∨ p = x + M_HASH → ~ in_family F p ∧ is_Some (links v !! p);
}.

(** Attaching [x] changes no other mount point. *)
Lemma attached_keeps v x m mp d pm y k :
  mounts v !! p_mnt mp = Some pm → y ≠ x → mounts v !! y = Some k →
  ∃ k', mounts (attached v x m mp d pm) !! y = Some k' ∧ mnt_path k' = mnt_path k.
Proof.
  intros Hpm Hy Hk. unfold attached. cbn. rewrite lookup_insert_ne by done. destruct (decide (p_mnt mp = y)) as [<-|Hne].
  - rewrite lookup_insert_eq. assert (pm = k) as <- by congruence. by eexists.
  - rewrite lookup_insert_ne by done. by exists k.
Qed.

Lemma attached_old v x m mp d pm y k :
  mounts v !! p_mnt mp = Some pm → y ≠ x → mounts (attached v x m mp d pm) !! y = Some k →
  ∃ k', mounts v !! y = Some k' ∧ mnt_path k = mnt_path k'.
Proof.
  intros Hpm Hy. unfold attached. cbn. rewrite lookup_insert_ne by done.
  intros [[<- <-]|[_ Hk]]%lookup_insert_Some; [by exists pm|by exists k].
Qed.

Lemma attach_steps v F x m mp d pm kids (k : @mvfs A W → outcome (Z * @mvfs A W)) :
  can_attach v F x m mp d pm kids →
  (let! (d, v) := on_dv (dentry_ref (p_dentry mp)) v in
   let! v := upd_mount x (λ m, set_mnt_path (Path (p_mnt (mnt_path m)) d) m) v in
   let! (y, v) := mount_ref (p_mnt mp) v in
   let! v := upd_mount x (λ m, set_mnt_path (Path y (p_dentry (mnt_path m))) m) v in
   k v) = k (attached v x m mp d pm).
Proof.
  intros [Hr Hm [Hd0 Hd] (Hp0 & Hpx & Hpm) Hk Hoff Hfr].
  unfold on_dv, dentry_ref, update, get_dentry. rewrite (proj2 (Z.eqb_neq _ 0)), Hd by done. cbn [of_option obind].
  unfold upd_mount, mount_ref, get_mount, upd_mount, get_mount. cbn [mounts set_dv]. rewrite Hm. cbn [of_option obind].
  rewrite (proj2 (Z.eqb_neq _ 0)) by done. cbn [put_mount set_mounts mounts set_dv]. rewrite lookup_insert_ne, Hpm by done. cbn [of_option obind].
  cbn [put_mount set_mounts mounts set_dv]. rewrite lookup_insert_ne, lookup_insert_eq by done. cbn [of_option obind].
  unfold attached, put_mount, set_mounts, set_dv. cbn. f_equal. f_equal. destruct m as [? [? ?] ? ? ? ? ?], mp as [? ?]. cbn.
  rewrite (insert_insert_ne _ _ _ _ _ Hpx), insert_insert_eq. done.
Qed.

(** The attached state still represents the table, and the new child is linked. *)
Lemma attach_links v F xs x m mp d pm kids :
  mount_rep v F xs → can_attach v F x m mp d pm kids → x ∉ xs →
  ∃ v' F', on_links (list_add (x + M_CHILD) (p_mnt mp + M_CHILDREN)) (attached v x m mp d pm) = Ok v' ∧
    mounts v' = mounts (attached v x m mp d pm) ∧ dentries (dv v') = dentries (dv (attached v x m mp d pm)) ∧ mtab v' = mtab v ∧ mount_rep v' F' xs ∧
    F' = <[p_mnt mp + M_CHILDREN := (x + M_CHILD) :: kids]> F ∧
    ~ in_family F' (x + M_HASH) ∧ is_Some (links v' !! (x + M_HASH)).
Proof.
  intros HR HC Hx. destruct HC as [Hr Hm [Hd0 Hd] (Hp0 & Hpx & Hpm) Hk Hoff Hfr].
  destruct (Hfr (x + M_CHILD) (or_introl eq_refl)) as [Hf1 Hs1]. destruct (Hfr (x + M_HASH) (or_intror eq_refl)) as [Hf2 Hs2].
  destruct (family_add (links v) F _ kids (x + M_CHILD) (hr_fam _ _ _ _ _ _ _ (mr_rep _ _ _ HR)) Hk Hf1 Hs1) as (c & E & HF & Ho).
  assert (~ in_family (<[p_mnt mp + M_CHILDREN := (x + M_CHILD) :: kids]> F) (x + M_HASH)) as Hnew.
  { intros (q & l & Hq & Hin). apply lookup_insert_Some in Hq as [[<- <-]|[_ Hq]]; [|by apply Hf2; exists q, l].
    apply elem_of_cons in Hin as [Hin|[Hin|Hin]%elem_of_cons].
    - apply Hf2. exists (p_mnt mp + M_CHILDREN), kids. split; [done|]. apply elem_of_cons. by left.
    - unfold M_HASH, M_CHILD in Hin. lia.
    - apply Hf2. exists (p_mnt mp + M_CHILDREN), kids. split; [done|]. apply elem_of_cons. by right. }
  set (v' := set_mhm (set_cells c (mhm (attached v x m mp d pm))) (attached v x m mp d pm)).
  exists v', (<[p_mnt mp + M_CHILDREN := (x + M_CHILD) :: kids]> F).
  split; [unfold on_links; change (links (attached v x m mp d pm)) with (links v); by rewrite E|].
  split; [done|]. split; [done|]. split; [done|]. split.
  - split.
    + apply (mount_rep_transfer _ v v' F _ xs HR); [done|done| |].
      * intros i Hi. apply lookup_insert_ne. by apply Hoff.
      * intros y k Hy. apply (attached_keeps v x m mp d pm y k Hpm). by intros ->.
    + intros y Hy. destruct (mr_mount _ _ _ HR y Hy) as [Hry Hsy]. split; [done|].
      change (mounts v') with (mounts (attached v x m mp d pm)). unfold attached. cbn. by rewrite !lookup_insert_is_Some'; right; right.
  - split; [done|]. split; [done|]. change (is_Some (c !! (x + M_HASH))).
    rewrite Ho; [done|]. intros Hin. apply Hnew. exists (p_mnt mp + M_CHILDREN), ((x + M_CHILD) :: kids). split; [apply lookup_insert_eq|].
    apply elem_of_cons in Hin as [Hin|Hin]; [|set_solver]. unfold M_HASH, M_CHILD in Hin. lia.
Qed.

Lemma attach_new v F xs x m mp d pm kids : mount_rep v F xs → can_attach v F x m mp d pm kids → x ∉ xs.
Proof.
  intros HR HC Hx. destruct (ca_fresh _ _ _ _ _ _ _ _ HC (x + M_HASH) (or_intror eq_refl)) as [Hf _]. apply Hf.
  assert (x + M_HASH ∈ mount_nodes xs) as Hn by (apply list_elem_of_fmap; by exists x).
  pose proof (mr_rep _ _ _ HR) as HT. destruct (hr_bucket _ _ _ _ _ _ _ HT _ (rep_idx _ _ _ _ _ _ _ (mount_get_key (x + M_HASH)) HT)) as (l & Hl & Hin).
  eexists _, l. split; [exact Hl|]. apply elem_of_cons. right. by apply Hin.
Qed.

(** C23. [mount_add] attaches a mount to a mount point that is free: from then on the
    mount point, and no other, resolves to the new mount, which is the first child of the
    mount it lies in; the dentry and the parent mount have one more reference each and all
    other dentries and mounts are as before, and a further attempt to mount there is refused with [-EBUSY] and changes nothing. *)
Theorem mount_add_lookup v F xs x m mp d pm kids flags :
  mount_rep v F xs → can_attach v F x m mp d pm kids →
  items (mtab v) < ht_size (mtab v) * max_load (mtab v) / 100 →
  (∀ y k, y ∈ xs → mounts v !! y = Some k → mnt_path k ≠ mp) →
  ∃ v' F', mount_add x (Some mp) flags v = Ok (0, v') ∧ mount_rep v' F' (x :: xs) ∧
    mounts v' = <[x := set_mnt_path mp m]> (<[p_mnt mp := set_mnt_refcount (s32 (mnt_refcount pm + 1)) pm]> (mounts v)) ∧
    dentries (dv v') = <[p_dentry mp := set_d_refcount (s32 (d_refcount d + 1)) d]> (dentries (dv v)) ∧
    F' !! (p_mnt mp + M_CHILDREN) = Some ((x + M_CHILD) :: kids) ∧
    (∀ p, path_lookupMount p v' = if decide (p = mp) then Ok x else path_lookupMount p v) ∧
    (∀ y flags, y ≠ 0 → mount_add y (Some mp) flags v' = Ok (- EBUSY, v')).
Proof.
  intros HR HC Hload Hfree. pose proof (attach_new _ _ _ _ _ _ _ _ _ HR HC) as Hx.
  destruct (attach_links v F xs x m mp d pm kids HR HC Hx) as (v1 & F1 & E1 & Em1 & Ed1 & Et1 & HR1 & EF1 & Hf & Hs).
  assert (mounts v1 !! x = Some (set_mnt_path mp m)) as Hm1 by (rewrite Em1; cbn; apply lookup_insert_eq).
  pose proof HC as [Hrg Hm [Hd0 Hd] (Hp0 & Hpx & Hpm) _ Hoff _].
  assert (∀ y, y ∈ xs → y ≠ x) as Hne by (by intros y Hy ->).
  destruct (hash_mount_ok v1 F1 xs x _ HR1 Hrg Hm1) as (v' & F' & E2 & Em2 & HR2 & Ed2 & EF2); [done|done|done|by rewrite Et1| |].
  { intros y k Hy. rewrite Em1. intros (k0 & Hk0 & ->)%attached_old; [|done|by apply Hne]. by apply (Hfree y). }
  assert (∀ p, path_lookupMount p v' = if decide (p = mp) then Ok x else path_lookupMount p v) as Hlook.
  { intros p. case_decide as Hp.
    - subst p. apply (lookupMount_found v' F' (x :: xs) x (set_mnt_path mp m) HR2); [by apply elem_of_cons; left|by rewrite Em2].
    - destruct (lookupMount_ok v F xs p HR) as [(z & k & Hz & Hk & <- & ->)|[Hno ->]].
      + destruct (attached_keeps v x m mp d pm z k Hpm (Hne z Hz) Hk) as (k' & Hk' & <-).
        apply (lookupMount_found v' F' (x :: xs) z k' HR2); [by apply elem_of_cons; right|by rewrite Em2, Em1].
      + apply (lookupMount_none v' F' (x :: xs) p HR2). intros z k [->|Hz]%elem_of_cons Hk; rewrite Em2 in Hk; [rewrite Hm1 in Hk; injection Hk as <-; by intros <-|].
        rewrite Em1 in Hk. apply attached_old in Hk as (k0 & Hk0 & ->); [by apply (Hno z)|done|by apply Hne]. }
  exists v', F'. split; [|split; [done|split; [by rewrite Em2, Em1|split; [by rewrite Ed2, Ed1|split; [|split; [done|]]]]]].
  - unfold mount_add. rewrite (proj2 (Z.eqb_neq x 0)) by lia.
    destruct (lookupMount_ok v F xs mp HR) as [(y & k & Hy & Hk & Ep & _)|[_ ->]]; [by destruct (Hfree y k Hy Hk)|].
    cbn [obind]. change (negb (0 =? 0)) with false. cbn iota.
    rewrite (attach_steps v F x m mp d pm kids) by done. rewrite (proj2 (Z.eqb_neq (p_mnt mp) 0)) by done.
    rewrite E1. cbn [obind]. rewrite E2. done.
  - rewrite EF2, EF1 by (rewrite Et1; apply Hoff). apply lookup_insert_eq.
  - intros y fl Hy. unfold mount_add. rewrite (proj2 (Z.eqb_neq y 0)), Hlook, decide_True by done. cbn [obind].
    by rewrite (proj2 (Z.eqb_neq x 0)) by lia.
Qed.

(** ** The mount above a dentry *)

Lemma mount_on_none v F xs x :
  mount_rep v F xs → (∀ y m, y ∈ xs → mounts v !! y = Some m → mnt_path m ≠ Path 0 x) → mount_on x v = Ok (0, v).
Proof.
  intros HR Hno. unfold mount_on.
  destruct (lookup_spec _ mount_get_key _ (mount_callbacks (Path 0 x) v) _ _ F _ LOCAL_KEY (mount_rep_local (Path 0 x) v F xs HR))
    as (r & -> & Hr); [done|]. cbn [obind]. destruct Hr as [(Hr0 & Hin & Heq)|[-> _]]; [exfalso|done].
  apply list_elem_of_fmap in Hin as (y & -> & Hy). destruct (mr_mount _ _ _ HR y Hy) as [Hrg [m Hm]].
  unfold mequal in Heq. rewrite mount_key_node, (mkey_mount _ v y m), key_equals_path in Heq by (done || lia). by apply (Hno y m).
Qed.

(** [dentry_lookupMountpoint] looks mount points up with a null mount, while
    [mount_add] enters them with the mount they lie in: when every mount was attached
    inside another one, the walk from any dentry to its root ends and finds no mount. *)
Theorem lookupMountpoint_misses v F xs x ns l :
  mount_rep v F xs → (∀ y m, y ∈ xs → mounts v !! y = Some m → p_mnt (mnt_path m) ≠ 0) →
  path_of (dentries (dv v)) (names (dv v)) x ns l → dentry_lookupMountpoint x v = Ok (0, v).
Proof.
  intros HR Hno HP. assert (∀ y, mount_on y v = Ok (0, v)) as Hon.
  { intros y. apply (mount_on_none v F xs y HR). intros z m Hz Hm E. apply (Hno z m Hz Hm). by rewrite E. }
  unfold dentry_lookupMountpoint. pose proof (path_depth _ _ _ _ _ HP) as Hd. revert Hd. generalize (size (dentries (dv v))) as fuel.
  induction HP as [x d H0 Hx Hr Hp|x d q ns l H0 Hx Hr Hp Hq Hl HP IH]; intros fuel Hd.
  - destruct fuel; cbn [lookup_mountpoint]; unfold get_dentry; rewrite (proj2 (Z.eqb_neq x 0)), Hx by done; cbn [of_option obind];
      by rewrite Hp, Z.eqb_refl.
  - rewrite length_app in Hd. cbn in Hd. destruct fuel as [|fuel]; [lia|].
    cbn [lookup_mountpoint]. unfold get_dentry. rewrite (proj2 (Z.eqb_neq x 0)), Hx by done. cbn [of_option obind].
    rewrite (proj2 (Z.eqb_neq _ _)) by done. rewrite Hon.
    destruct (has DCACHE_MOUNTED (d_flags d)); cbn [obind]; change (negb (0 =? 0)) with false; cbn iota; apply IH; lia.
Qed.

(** ** The registry of file system types *)

(** [s] points at the string [n]. *)
Definition cstring (s : charp) (n : list Z) : Prop := is_null s = false ∧ (0 ∉ n) ∧ ∃ rest, text s = n ++ 0 :: rest.

Lemma strcmp_cstring s n s' n' :
  cstring s n → cstring s' n' → ∃ r, text_strcmp (text s) (text s') = Ok r ∧ (r = 0 ↔ n = n').
Proof.
  intros (_ & H0 & [r ->]) (_ & H0' & [r' ->]). revert n' H0'. induction n as [|a n IH]; intros [|b n'] H0'; cbn.
  - by exists 0.
  - exists (0 - b). split; [done|]. apply not_elem_of_cons in H0' as [? _]. split; [lia|done].
  - apply not_elem_of_cons in H0 as [Ha _]. rewrite (proj2 (Z.eqb_neq a 0)) by done. cbn. exists a. split; [by rewrite Z.sub_0_r|]. split; [lia|done].
  - apply not_elem_of_cons in H0 as [Ha H0]. apply not_elem_of_cons in H0' as [Hb H0'].
    rewrite (proj2 (Z.eqb_neq a 0)) by done. destruct (Z.eqb_spec a b) as [->|Hne]; cbn.
    + destruct (IH H0 n' H0') as (r0 & -> & Hr0). exists r0. split; [done|]. rewrite Hr0. split; [by intros ->|by intros [= ->]].
    + exists (a - b). split; [done|]. split; [lia|]. by intros [= ? _].
Qed.

Context (fsl : Z).

Definition fs_nodes (ts : list Z) : list Z := (λ t, t + FT_GLOBAL) <$> ts.

(** The list of types holds [ts]; [nm] gives the name of each. *)
Record registry v F (ts : list Z) (nm : Z → list Z) : Prop := {
  rg_fam : family (links v) F;
  rg_list : F !! fsl = Some (fs_nodes ts);
  rg_type t : t ∈ ts → t ≠ 0 ∧ ∃ ft, fstypes v !! t = Some ft ∧ cstring (fs_name ft) (nm t);
}.

Lemma find_fstype_ok v F ts nm test (f : Z → bool) pre post fuel :
  registry v F ts nm → ts = pre ++ post → (length post ≤ fuel)%nat →
  (∀ t ft, t ∈ ts → fstypes v !! t = Some ft → test t ft = Ok (f t)) →
  find_fstype fsl fuel test (default fsl (hd_error (fs_nodes post))) v = Ok (default 0 (List.find f post)).
Proof.
  intros HR -> Hf Ht. pose proof (fam_dll _ _ (rg_fam _ _ _ _ HR) _ _ (rg_list _ _ _ _ HR)) as D. revert pre fuel HR Hf Ht D.
  induction post as [|t post IH]; intros pre fuel HR Hf Ht D.
  { destruct fuel; cbn; by rewrite Z.eqb_refl. }
  destruct fuel as [|fuel]; cbn [length] in Hf; [lia|]. change (default fsl (hd_error (fs_nodes (t :: post)))) with (t + FT_GLOBAL).
  assert (t ∈ pre ++ t :: post) as Hin by (rewrite elem_of_app, elem_of_cons; tauto).
  destruct (rg_type _ _ _ _ HR t Hin) as (Ht0 & ft & Hft & _). pose proof D as [Hnd Hl]. unfold fs_nodes in Hnd, Hl. rewrite fmap_app, fmap_cons in Hnd, Hl.
  assert (t + FT_GLOBAL ≠ fsl) as Hne.
  { intros E. apply NoDup_cons in Hnd as [Hh _]. apply Hh, elem_of_app. right. apply elem_of_cons. by left. }
  cbn [find_fstype]. rewrite (proj2 (Z.eqb_neq _ fsl)) by done. replace (t + FT_GLOBAL - FT_GLOBAL) with t by lia.
  unfold get_fstype. rewrite Hft. cbn [of_option obind]. rewrite (Ht t ft Hin Hft). cbn [obind List.find]. destruct (f t); [done|].
  assert (get_next (t + FT_GLOBAL) (links v) = Ok (default fsl (hd_error (fs_nodes post)))) as ->.
  { apply get_next_ok. rewrite <-app_assoc, app_comm_cons in Hl. apply linked_app in Hl as [_ Hl]. unfold nx, fs_nodes. destruct post; apply Hl. }
  cbn [obind]. apply (IH (pre ++ [t])); [by rewrite <-app_assoc|lia|by rewrite <-app_assoc|by rewrite <-app_assoc].
Qed.

Lemma search_fstypes_ok v F ts nm test f :
  registry v F ts nm → (∀ t ft, t ∈ ts → fstypes v !! t = Some ft → test t ft = Ok (f t)) →
  search_fstypes fsl test v = Ok (default 0 (List.find f ts)).
Proof.
  intros HR Ht. pose proof (fam_dll _ _ (rg_fam _ _ _ _ HR) _ _ (rg_list _ _ _ _ HR)) as D.
  unfold search_fstypes. rewrite (get_next_ok _ _ _ (dll_first _ _ _ D)). cbn [obind].
  apply (find_fstype_ok v F ts nm test f [] ts); [done|done| |done].
  pose proof (dll_length _ _ _ D) as Hl. unfold fs_nodes in Hl. by rewrite length_fmap in Hl.
Qed.

(** The first type of that name. *)
Definition by_name (ts : list Z) (nm : Z → list Z) (n : list Z) : Z := default 0 (List.find (λ t, bool_decide (nm t = n)) ts).

Lemma search_name_ok v F ts nm s n :
  registry v F ts nm → cstring s n → search_fstypes fsl (same_name s) v = Ok (by_name ts nm n).
Proof.
  intros HR Hs. apply (search_fstypes_ok v F ts nm _ _ HR). intros t ft Hin Hft.
  destruct (rg_type _ _ _ _ HR t Hin) as (_ & ft' & Hft' & Hc). assert (ft' = ft) as -> by congruence.
  unfold same_name. destruct (strcmp_cstring _ _ _ _ Hc Hs) as (r & -> & Hr). cbn [obind]. f_equal.
  destruct (Z.eqb_spec r 0) as [->|Hne]; symmetry; [apply bool_decide_eq_true_2|apply bool_decide_eq_false_2]; tauto.
Qed.

(** [x] can be registered: it is on no list. *)
Definition unlinked v F (x : Z) : Prop :=
  x ≠ 0 ∧ ∀ p, p = x + FT_GLOBAL ∨ p = x + FT_SUPERS → ~ in_family F p ∧ is_Some (links v !! p).

(** The two list heads of [x] are initialised; then only that of its superblocks counts. *)
Lemma init_type_lists v F x :
  family (links v) F → unlinked v F x →
  ∃ v', init_lists [x + FT_GLOBAL; x + FT_SUPERS] v = Ok v' ∧ fstypes v' = fstypes v ∧
    family (links v') (<[x + FT_SUPERS := []]> F) ∧ is_Some (links v' !! (x + FT_GLOBAL)) ∧ ~ in_family (<[x + FT_SUPERS := []]> F) (x + FT_GLOBAL).
Proof.
  intros HF (Hx & Hu). destruct (Hu _ (or_introl eq_refl)) as [Hf1 Hs1]. destruct (Hu _ (or_intror eq_refl)) as [Hf2 Hs2].
  destruct (family_init (links v) F _ HF Hf1 Hs1) as (c1 & E1 & HF1 & Ho1).
  assert (x + FT_SUPERS ≠ x + FT_GLOBAL) as Hne by (unfold FT_SUPERS, FT_GLOBAL; lia).
  assert (~ in_family (<[x + FT_GLOBAL := []]> F) (x + FT_SUPERS)) as Hf3.
  { intros (q & l & Hq & Hin). apply lookup_insert_Some in Hq as [[<- <-]|[_ Hq]]; [apply list_elem_of_singleton in Hin; lia|by apply Hf2; exists q, l]. }
  destruct (family_init c1 _ (x + FT_SUPERS) HF1 Hf3) as (c2 & E2 & HF2 & Ho2); [rewrite Ho1; [done|by rewrite list_elem_of_singleton]|].
  eexists. cbn [init_lists]. unfold on_links. rewrite E1. cbn [obind].
  change (links (set_mhm (set_cells c1 (mhm v)) v)) with c1. rewrite E2. cbn [obind]. split; [done|]. split; [done|].
  assert (F !! (x + FT_GLOBAL) = None) as Hn.
  { destruct (F !! (x + FT_GLOBAL)) as [l|] eqn:E; [|done]. destruct Hf1. exists (x + FT_GLOBAL), l. split; [done|]. apply elem_of_cons. by left. }
  split; [|split].
  - apply (family_sub _ (<[x + FT_SUPERS := []]> (<[x + FT_GLOBAL := []]> F))); [|done]. apply insert_mono. by apply insert_subseteq.
  - change (is_Some (c2 !! (x + FT_GLOBAL))). rewrite Ho2 by (rewrite list_elem_of_singleton; lia).
    apply (dll_nodes c1 (x + FT_GLOBAL) []); [|by apply list_elem_of_singleton]. apply (fam_dll _ _ HF1). apply lookup_insert_eq.
  - intros (q & l & Hq & Hin). apply lookup_insert_Some in Hq as [[<- <-]|[_ Hq]]; [apply list_elem_of_singleton in Hin; lia|by apply Hf1; exists q, l].
Qed.

Lemma register_ok v F ts nm x ft :
  registry v F ts nm → unlinked v F x → fstypes v !! x = Some ft → cstring (fs_name ft) (nm x) →
  ∃ v' F', fstype_register fsl x v = Ok (if by_name ts nm (nm x) =? 0 then 0 else - EBUSY, v') ∧
    registry v' F' (if by_name ts nm (nm x) =? 0 then x :: ts else ts) nm.
Proof.
  intros HR Hu Hft Hc. destruct (init_type_lists v F x (rg_fam _ _ _ _ HR) Hu) as (v1 & E1 & Ef1 & HF1 & Hs1 & Hfr1).
  assert (registry v1 (<[x + FT_SUPERS := []]> F) ts nm) as HR1.
  { split; [done| |intros t Ht; rewrite Ef1; by apply (rg_type _ _ _ _ HR)]. rewrite lookup_insert_ne; [apply (rg_list _ _ _ _ HR)|].
    intros E. destruct Hu as [_ Hu]. destruct (Hu _ (or_intror eq_refl)) as [Hf _]. apply Hf. rewrite E. exists fsl, (fs_nodes ts).
    split; [apply HR|]. apply elem_of_cons. by left. }
  unfold fstype_register. rewrite (proj2 (Z.eqb_neq x 0)) by apply Hu. unfold get_fstype. rewrite Hft. cbn [of_option obind].
  rewrite (proj1 Hc). cbv iota. rewrite E1. cbn [obind]. rewrite (search_name_ok v1 _ ts nm _ _ HR1 Hc). cbn [obind].
  destruct (by_name ts nm (nm x) =? 0); cbn [negb]; [|by exists v1, (<[x + FT_SUPERS := []]> F)].
  destruct (family_add (links v1) _ fsl _ (x + FT_GLOBAL) HF1 (rg_list _ _ _ _ HR1) Hfr1 Hs1) as (c & E2 & HF2 & Ho).
  unfold on_links. rewrite E2. cbn [obind]. eexists _, _. split; [done|]. split.
  - exact HF2.
  - by rewrite lookup_insert_eq.
  - change (fstypes _) with (fstypes v1). intros t [->|Ht]%elem_of_cons; [|by apply (rg_type _ _ _ _ HR1)].
    split; [apply Hu|]. rewrite Ef1. by exists ft.
Qed.

Lemma unregister_ok v F l1 t l2 nm :
  registry v F (l1 ++ t :: l2) nm → ∃ v' F', fstype_unregister fsl t v = Ok (0, v') ∧ registry v' F' (l1 ++ l2) nm.
Proof.
  intros HR. assert (t ∈ l1 ++ t :: l2) as Hin by (rewrite elem_of_app, elem_of_cons; tauto).
  destruct (rg_type _ _ _ _ HR t Hin) as (Ht0 & ft & Hft & Hc). unfold fstype_unregister, get_fstype.
  rewrite (proj2 (Z.eqb_neq t 0)), Hft by done. cbn [of_option obind]. rewrite (proj1 Hc). cbv iota.
  rewrite (search_fstypes_ok v F _ nm _ (λ p, p =? t) HR) by done. cbn [obind].
  assert (List.find (λ p, p =? t) (l1 ++ t :: l2) = Some t) as ->.
  { destruct (List.find (λ p, p =? t) (l1 ++ t :: l2)) as [y|] eqn:E; [apply List.find_some in E as [_ E]; by apply Z.eqb_eq in E as ->|].
    exfalso. pose proof (List.find_none _ _ E t (proj1 (list_elem_of_In _ _) Hin)) as E'. cbn in E'. by rewrite Z.eqb_refl in E'. }
  change (default 0 (Some t)) with t. rewrite (proj2 (Z.eqb_neq t 0)) by done. pose proof (rg_list _ _ _ _ HR) as HL. unfold fs_nodes in HL. rewrite fmap_app, fmap_cons in HL.
  destruct (family_del (links v) F fsl _ (t + FT_GLOBAL) _ (rg_fam _ _ _ _ HR) HL) as (c & E & HF & _). unfold on_links. rewrite E. cbn [obind].
  eexists _, _. split; [done|]. split; [exact HF| |].
  - rewrite lookup_insert_eq. unfold fs_nodes. by rewrite fmap_app.
  - intros y Hy. apply (rg_type _ _ _ _ HR). set_solver.
Qed.

(** The registry of file systems is a table from names to types: a lookup returns the
    registered type of that name; registering a type enters it when its name is free and is
    refused with [-EBUSY] when it is taken; unregistering removes it, and is refused with
    [-ENOENT] for a type that is not registered. *)
Theorem fstype_registry v F ts nm :
  registry v F ts nm →
  (∀ s n, cstring s n → fstype_lookup fsl s v = Ok (by_name ts nm n)) ∧
  (∀ x ft, unlinked v F x → fstypes v !! x = Some ft → cstring (fs_name ft) (nm x) →
     ∃ v' F', fstype_register fsl x v = Ok (if by_name ts nm (nm x) =? 0 then 0 else - EBUSY, v') ∧
       registry v' F' (if by_name ts nm (nm x) =? 0 then x :: ts else ts) nm) ∧
  (∀ l1 t l2, ts = l1 ++ t :: l2 → ∃ v' F', fstype_unregister fsl t v = Ok (0, v') ∧ registry v' F' (l1 ++ l2) nm) ∧
  (∀ x ft n, x ≠ 0 → x ∉ ts → fstypes v !! x = Some ft → cstring (fs_name ft) n → fstype_unregister fsl x v = Ok (- ENOENT, v)).
Proof.
  intros HR. split; [|split; [|split]].
  - intros s n Hs. unfold fstype_lookup. rewrite (proj1 Hs). by apply (search_name_ok v F).
  - intros x ft. by apply (register_ok v F ts nm x ft HR).
  - intros l1 t l2 ->. by apply (unregister_ok v F l1 t l2 nm).
  - intros x ft n Hx Hnx Hft Hc. unfold fstype_unregister, get_fstype. rewrite (proj2 (Z.eqb_neq x 0)), Hft by done. cbn [of_option obind].
    rewrite (proj1 Hc). cbv iota. rewrite (search_fstypes_ok v F _ nm _ (λ p, p =? x) HR) by done. cbn [obind].
    destruct (List.find (λ p, p =? x) ts) as [y|] eqn:E; [|done]. apply List.find_some in E as [Hy E]. apply Z.eqb_eq in E as ->.
    by apply list_elem_of_In in Hy.
Qed.
End Spec.

(** ** Witnesses

    The dentry cache of [Dentry], a mount of the root at 9216, another one at 9472 that is
    not attached yet, and a list of file system types at 1024 that holds the one at 2048. *)

#[local] Existing Instances log_ops no_dentry_ops.
#[local] Instance no_mount_ops : MountOps (list Z) := { op_remount _ := None }.

Definition ROOT_MNT : Z := 9216.
Definition NEW_MNT : Z := 9472.
Definition FSL : Z := 1024.
Definition ext4_type : fstype := FsType (CharP 3072 [101; 120; 116; 52; 0]) 0.
Definition ramfs_type : fstype := FsType (CharP 3088 [114; 97; 109; 102; 115; 0]) 0.

Definition mvfs0_links : list (Z * list Z) :=
  [(ROOT_MNT + M_CHILDREN, []); (FSL, [2048 + FT_GLOBAL]); (2048 + FT_SUPERS, [])].

Definition mvfs0_cells : store :=
  list_to_map [(ROOT_MNT + M_CHILDREN, ListHead (ROOT_MNT + M_CHILDREN) (ROOT_MNT + M_CHILDREN));
    (FSL, ListHead (2048 + FT_GLOBAL) (2048 + FT_GLOBAL)); (2048 + FT_GLOBAL, ListHead FSL FSL);
    (2048 + FT_SUPERS, ListHead (2048 + FT_SUPERS) (2048 + FT_SUPERS));
    (NEW_MNT + M_CHILD, ListHead 0 0); (NEW_MNT + M_HASH, ListHead 0 0);
    (2304 + FT_GLOBAL, ListHead 0 0); (2304 + FT_SUPERS, ListHead 0 0)].

Definition mvfs0 : @mvfs Z (list Z) :=
  let mounts := {[ROOT_MNT := VfsMount ROOT (Path 0 0) 0 0 0 1 NULL; NEW_MNT := VfsMount ROOT (Path 0 0) 0 1 0 1 NULL]} in
  let types := {[2048 := ext4_type; 2304 := ramfs_type]} in
  match hashtable_setup (Some (HT 0 0 0 0 0)) 16 75 (HMem mvfs0_cells (Expansion 0 0 0 0) 16384) with
  | Ok (_, Some t, m) => Mvfs (set_iv (set_hm m (iv dvfs0)) dvfs0) mounts t 2 ∅ types
  | _ => Mvfs dvfs0 mounts (HT 0 0 0 0 0) 2 ∅ types
  end.

Definition mvfs0_lists : list (Z * list Z) := mvfs0_links ++ ((λ i, (bucket (buckets (mtab mvfs0)) i, [])) <$> seqZ 0 16).

Lemma mvfs0_family : family (links mvfs0) (list_to_map mvfs0_lists).
Proof. apply family_intro; apply (bool_decide_unpack _); vm_compute; exact I. Qed.

Lemma mvfs0_size : ht_size (mtab mvfs0) = 16.
Proof. vm_compute. reflexivity. Qed.

Lemma mvfs0_bucket i : 0 ≤ i < 16 → (list_to_map mvfs0_lists : heads) !! bucket (buckets (mtab mvfs0)) i = Some [].
Proof.
  intros Hi. assert (i ∈ seqZ 0 16) as Hin by (apply elem_of_seqZ; lia). clear Hi. revert i Hin.
  apply Forall_forall. apply (bool_decide_unpack _). vm_compute. exact I.
Qed.

Lemma mvfs0_ok : mount_rep mvfs0 (list_to_map mvfs0_lists) [].
Proof.
  split; [|intros x Hx; by apply elem_of_nil in Hx]. split.
  - exact mvfs0_family.
  - exists 4. split; [lia|]. vm_compute. reflexivity.
  - rewrite mvfs0_size. intros i Hi. exists []. split; [by apply mvfs0_bucket|]. intros x. split; [by intros Hx%elem_of_nil|]. intros [Hx _]. by apply elem_of_nil in Hx.
  - intros x Hx. by apply elem_of_nil in Hx.
  - intros x y Hx. by apply elem_of_nil in Hx.
  - apply NoDup_nil_2.
  - split; vm_compute; reflexivity.
  - vm_compute. split; discriminate.
Qed.

(** No list of the state runs through these addresses. *)
Lemma mvfs0_fresh p :
  p ∈ [NEW_MNT + M_CHILD; NEW_MNT + M_HASH; 2304 + FT_GLOBAL; 2304 + FT_SUPERS] →
  ~ in_family (list_to_map mvfs0_lists) p ∧ is_Some (links mvfs0 !! p).
Proof.
  intros Hp. split.
  - intros (q & l & Hq & Hx). apply elem_of_list_to_map_2 in Hq.
    assert (p ∈ mvfs0_lists ≫= λ e, e.1 :: e.2) as Hin by (apply list_elem_of_bind; by exists (q, l)).
    clear Hx Hq q l. revert Hin. change (p ∉ (mvfs0_lists ≫= λ e, e.1 :: e.2)). revert p Hp. apply Forall_forall. apply (bool_decide_unpack _). vm_compute. exact I.
  - revert p Hp. apply Forall_forall. apply (bool_decide_unpack _). vm_compute. exact I.
Qed.

Lemma mvfs0_attach : can_attach mvfs0 (list_to_map mvfs0_lists) NEW_MNT (VfsMount ROOT (Path 0 0) 0 1 0 1 NULL) (Path ROOT_MNT ROOT)
  (Dentry 1 0 4096 0 ROOT 0 0 0) (VfsMount ROOT (Path 0 0) 0 0 0 1 NULL) [].
Proof.
  split.
  - done.
  - vm_compute. reflexivity.
  - split; [done|vm_compute; reflexivity].
  - split; [done|]. split; [done|vm_compute; reflexivity].
  - vm_compute. reflexivity.
  - rewrite mvfs0_size. intros i Hi. assert (buckets (mtab mvfs0) = 16384) as -> by (vm_compute; reflexivity).
    cbn [p_mnt]. unfold bucket, BUCKET_SIZE, ROOT_MNT, M_CHILDREN. lia.
  - intros p Hp. apply mvfs0_fresh. destruct Hp as [->| ->]; apply (bool_decide_unpack _); vm_compute; exact I.
Qed.

Lemma mount_add_lookup_witness :
  ∃ v' F', mount_add NEW_MNT (Some (Path ROOT_MNT ROOT)) 0 mvfs0 = Ok (0, v') ∧ mount_rep v' F' [NEW_MNT] ∧
    path_lookupMount (Path ROOT_MNT ROOT) v' = Ok NEW_MNT.
Proof.
  destruct (mount_add_lookup mvfs0 (list_to_map mvfs0_lists) [] NEW_MNT _ _ _ _ _ 0 mvfs0_ok mvfs0_attach) as (v' & F' & E & HR & _ & _ & _ & Hl & _).
  - vm_compute. reflexivity.
  - intros y k Hy. apply elem_of_nil in Hy. destruct Hy.
  - exists v', F'. split; [exact E|]. split; [exact HR|]. rewrite Hl, decide_True by reflexivity. reflexivity.
Defined.

Lemma lookupMountpoint_misses_witness : dentry_lookupMountpoint ROOT mvfs0 = Ok (0, mvfs0).
Proof.
  apply (lookupMountpoint_misses mvfs0 (list_to_map mvfs0_lists) [] ROOT [ROOT] [] mvfs0_ok).
  - intros y m Hy. apply elem_of_nil in Hy. destruct Hy.
  - apply (path_root _ _ ROOT (Dentry 1 0 4096 0 ROOT 0 0 0)); [done|vm_compute; reflexivity|cbn; lia|done].
Defined.

Definition fs_names (t : Z) : list Z := if t =? 2048 then [101; 120; 116; 52] else [114; 97; 109; 102; 115].

Lemma ext4_cstring : cstring (fs_name ext4_type) (fs_names 2048).
Proof. split; [done|]. split; [|by exists []]. apply (bool_decide_unpack _). vm_compute. exact I. Qed.

Lemma ramfs_cstring : cstring (fs_name ramfs_type) (fs_names 2304).
Proof. split; [done|]. split; [|by exists []]. apply (bool_decide_unpack _). vm_compute. exact I. Qed.

Lemma mvfs0_registry : registry FSL mvfs0 (list_to_map mvfs0_lists) [2048] fs_names.
Proof.
  split; [exact mvfs0_family|vm_compute; reflexivity|]. intros t Ht. apply list_elem_of_singleton in Ht as ->.
  split; [done|]. exists ext4_type. split; [vm_compute; reflexivity|exact ext4_cstring].
Qed.

Lemma fstype_registry_witness :
  ∃ v' F', fstype_register FSL 2304 mvfs0 = Ok (0, v') ∧ registry FSL v' F' [2304; 2048] fs_names.
Proof.
  destruct (fstype_registry FSL mvfs0 (list_to_map mvfs0_lists) [2048] fs_names mvfs0_registry) as (_ & Hreg & _).
  destruct (Hreg 2304 ramfs_type) as (v' & F' & E & HR).
  - split; [done|]. intros p Hp. apply mvfs0_fresh. destruct Hp as [->| ->]; apply (bool_decide_unpack _); vm_compute; exact I.
  - vm_compute. reflexivity.
  - exact ramfs_cstring.
  - exists v', F'. split; [exact E|exact HR].
Defined.

(** ** Two sequences that go wrong *)

(** A type that is registered a second time is refused, but its list node has been
    initialised by then and leads to itself: a search that does not stop before it never
    ends. *)
Lemma self_loop_diverges {A W : Type} fsl fuel test pos (v : @mvfs A W) t :
  pos ≠ fsl → fstypes v !! (pos - FT_GLOBAL) = Some t → test (pos - FT_GLOBAL) t = Ok false →
  get_next pos (links v) = Ok pos → find_fstype fsl fuel test pos v = Timeout.
Proof.
  intros Hp Ht Hf Hn. induction fuel as [|fuel IH]; cbn [find_fstype]; rewrite (proj2 (Z.eqb_neq pos fsl)) by done;
    unfold get_fstype; rewrite Ht; cbn [of_option obind]; rewrite Hf; cbn [obind]; [done|]. rewrite Hn. exact IH.
Qed.

Definition registered_twice : outcome (Z * @mvfs Z (list Z)) :=
  let! (_, v) := fstype_register FSL 2304 mvfs0 in fstype_register FSL 2048 v.

Lemma registered_twice_diverges fuel :
  ∃ v, registered_twice = Ok (- EBUSY, v) ∧
    find_fstype FSL fuel (same_name (CharP 3104 [120; 102; 115; 0])) (2048 + FT_GLOBAL) v = Timeout ∧
    get_next FSL (links v) = Ok (2304 + FT_GLOBAL) ∧ get_next (2304 + FT_GLOBAL) (links v) = Ok (2048 + FT_GLOBAL).
Proof.
  destruct registered_twice as [[r v]| | |] eqn:E; [|vm_compute in E; discriminate..].
  assert (r = - EBUSY) as -> by (apply (f_equal (λ o, match o with Ok p => p.1 | _ => 0 end)) in E; vm_compute in E; by rewrite <-E).
  apply (f_equal (λ o, match o with Ok p => p.2 | _ => mvfs0 end)) in E. cbn [snd] in E.
  exists v. split; [done|]. rewrite <-E. split; [|split; vm_compute; reflexivity].
  apply (self_loop_diverges _ _ _ _ _ ext4_type); [done|vm_compute; reflexivity..].
Qed.

(** A mount made by [superblock_acquireMount] has a cleared [mnt_hash_node], which is not
    empty in the sense of [list_empty]: dropping its last reference before it is attached
    unlinks that node through null pointers. *)
Definition acquired_and_dropped : outcome (@mvfs Z (list Z)) :=
  let heads := list_to_map ((λ p, (p, ListHead p p)) <$> super_cells SB) in
  let v := set_mhm (HMem heads (Expansion 0 0 0 0) 16384) mvfs0 in
  let v := set_dv (set_iv (put_super SB (Superblock 0 0 1 1 ROOT 0 0 0) (iv (dv v))) (dv v)) v in
  let! (x, v) := superblock_acquireMount (λ _, None) SB 0 NULL v in mount_unref x v.

Lemma acquired_mount_drop_faults : acquired_and_dropped = Fault.
Proof. vm_compute. reflexivity. Qed.
