(* ===== verification/Ramfs.v ===== *)
(** * The memory file system ([kernel/fs/ramfs.c])

    Mounting, filling and releasing a superblock of the memory file system, on maps from addresses to the structures; the
    fields are those the file sets. The time of the root inode, which [Time] models, is left out.

    The theorem [static_ramfs_mount_fails]: a mount never succeeds. The root dentry is cleared and then its name,
    a pointer in [struct dentry], is dereferenced. *)

From stdpp Require Import base gmap list.
From S2P Require Import Prelude.

Local Open Scope Z_scope.
Local Open Scope kernel_scope.

Definition MS_NOSUID : Z := 2.
Definition MS_NODEV : Z := 4.
Definition RAMFS_MAGIC : Z := 2240043254.
Definition S_IFDIR : Z := 16384.

Record ramfs_sb := RamSb {
  s_blocksize : Z; s_blocksize_bits : Z; s_magic : Z; s_flags : Z; s_file_maxbytes : Z; s_time_granularity : Z; s_root : Z;
}.

Record ramfs_inode := RamInode { i_ino : Z; i_mode : Z; i_size : Z; i_blocks : Z; i_refcount : Z; i_superblock : Z }.

Record ramfs_dentry := RamDentry { d_name : Z; d_inode : Z; d_superblock : Z; d_refcount : Z }.

(** [struct qstr] *)
Record ramfs_name := RamName { name : Z; len : Z; hash : Z }.

Definition ZERO_SB : ramfs_sb := RamSb 0 0 0 0 0 0 0.

Section Ramfs.
Context {A : Type} {KM : KMalloc A}.

(** [kstrdup_slash] is the address of a copy of the string, [slash_hash] is [full_name_hash] of it; the sizes are those of the structures. *)
Context (kstrdup_slash : A → Z * A) (slash_hash : Z) (sb_size inode_size dentry_size : Z).

Record ramvfs := RamVfs {
  rheap : A; rsbs : gmap Z ramfs_sb; rinodes : gmap Z ramfs_inode; rdentries : gmap Z ramfs_dentry; rnames : gmap Z ramfs_name;
}.

Definition static_ramfs_fill_super (sb : Z) (v : ramvfs) : outcome (Z * ramvfs) :=
  let! b := of_option (rsbs v !! sb) in
  let b := RamSb PAGE_SIZE 12 RAMFS_MAGIC (Z.lor (s_flags b) (Z.lor MS_NODEV MS_NOSUID)) (2 ^ 64 - 1) 1 (s_root b) in
  let v := RamVfs (rheap v) (<[sb := b]> (rsbs v)) (rinodes v) (rdentries v) (rnames v) in
  let (root_inode, a) := kmalloc inode_size (rheap v) in
  if root_inode =? 0 then Ok (- ENOMEM, RamVfs a (rsbs v) (rinodes v) (rdentries v) (rnames v))
  else
    let i := RamInode 1 (Z.lor S_IFDIR 493) 0 0 1 sb in
    let v := RamVfs a (rsbs v) (<[root_inode := i]> (rinodes v)) (rdentries v) (rnames v) in
    let (root_dentry, a) := kmalloc dentry_size (rheap v) in
    if root_dentry =? 0 then
      Ok (- ENOMEM, RamVfs (kfree root_inode a) (rsbs v) (delete root_inode (rinodes v)) (rdentries v) (rnames v))
    else
      let d := RamDentry 0 0 0 0 in
      let (s, a) := kstrdup_slash a in
      let! n := of_option (rnames v !! d_name d) in
      let n := RamName s 1 slash_hash in
      let d' := RamDentry (d_name d) root_inode sb 1 in
      let b := RamSb (s_blocksize b) (s_blocksize_bits b) (s_magic b) (s_flags b) (s_file_maxbytes b) (s_time_granularity b) root_dentry in
      Ok (0, RamVfs a (<[sb := b]> (rsbs v)) (rinodes v) (<[root_dentry := d']> (rdentries v)) (<[d_name d := n]> (rnames v))).

(** The result is the superblock or an error pointer. *)
Definition static_ramfs_mount (v : ramvfs) : outcome (Z * ramvfs) :=
  let (sb, a) := kmalloc sb_size (rheap v) in
  let v := RamVfs a (rsbs v) (rinodes v) (rdentries v) (rnames v) in
  if sb =? 0 then Ok (ERR_PTR (- ENOMEM), v)
  else
    let v := RamVfs (rheap v) (<[sb := ZERO_SB]> (rsbs v)) (rinodes v) (rdentries v) (rnames v) in
    let! (error, v) := static_ramfs_fill_super sb v in
    if negb (error =? 0) then
      Ok (ERR_PTR error, RamVfs (kfree sb (rheap v)) (delete sb (rsbs v)) (rinodes v) (rdentries v) (rnames v))
    else Ok (sb, v).

Definition static_ramfs_kill_sb (sb : Z) (v : ramvfs) : outcome ramvfs :=
  let! b := of_option (rsbs v !! sb) in
  let! v :=
    (if s_root b =? 0 then Ok v
     else
       let! d := of_option (rdentries v !! s_root b) in
       Ok (RamVfs (kfree (s_root b) (kfree (d_inode d) (rheap v))) (rsbs v) (delete (d_inode d) (rinodes v)) (delete (s_root b) (rdentries v)) (rnames v))) in
  Ok (RamVfs (kfree sb (rheap v)) (delete sb (rsbs v)) (rinodes v) (rdentries v) (rnames v)).

(** Mounting reports the lack of memory and takes nothing then; with memory for the three structures it dereferences the null name of the new dentry. *)
Theorem static_ramfs_mount_fails v :
  rnames v !! 0 = None →
  static_ramfs_mount v = Fault ∨
  ∃ v', static_ramfs_mount v = Ok (ERR_PTR (- ENOMEM), v') ∧
    (∀ p, rsbs v !! p = None → rsbs v' !! p = None) ∧ (∀ p, rinodes v !! p = None → rinodes v' !! p = None) ∧ rdentries v' = rdentries v.
Proof.
  intros H0. unfold static_ramfs_mount, static_ramfs_fill_super. destruct (kmalloc sb_size (rheap v)) as [sb a]. cbn [rheap rsbs rinodes rdentries rnames].
  destruct (sb =? 0); [right; eexists; by split_and!|]. rewrite lookup_insert_eq. cbn [of_option obind].
  destruct (kmalloc inode_size a) as [i a1]. cbn [rheap rsbs rinodes rdentries rnames]. destruct (i =? 0).
  - right. eexists. split; [done|]. cbn [rsbs rinodes rdentries]. split_and!; try done. intros p Hp. rewrite insert_insert_eq.
    destruct (decide (p = sb)) as [->|]; [apply lookup_delete_eq|]. by rewrite lookup_delete_ne, lookup_insert_ne.
  - destruct (kmalloc dentry_size a1) as [d a2]. cbn [rheap rsbs rinodes rdentries rnames]. destruct (d =? 0).
    + right. eexists. split; [done|]. cbn [rsbs rinodes rdentries]. split_and!; try done; intros p Hp.
      * rewrite insert_insert_eq. destruct (decide (p = sb)) as [->|]; [apply lookup_delete_eq|]. by rewrite lookup_delete_ne, lookup_insert_ne.
      * destruct (decide (p = i)) as [->|]; [apply lookup_delete_eq|]. by rewrite lookup_delete_ne, lookup_insert_ne.
    + left. destruct (kstrdup_slash a2) as [x a3]. cbn [d_name]. by rewrite H0.
Qed.
End Ramfs.
