(* ===== verification/Pathwalk.v ===== *)
(** * Path walking and the operations on paths ([kernel/fs/vfs/vfs.c],
      [kernel/fs/vfs/path.c], and the functions of [dentry.c] and [inode.c] that call
      into a file system)

    A path is a C string: its address and the bytes that can be read from it on. What a
    file system does behind [struct inode_operations] works on the state of the dentry
    layer and is the interface [NodeOps]. Locks and time stamps are left out. *)

From stdpp Require Import base gmap list.
From S2P Require Import Prelude ListHead KString Hashtable Qstr Inode Dentry Mount.
Local Open Scope Z_scope.
Local Open Scope kernel_scope.

Definition LOOKUP_FOLLOW : Z := 1.
Definition LOOKUP_AUTOMOUNT : Z := 4.
Definition ENOTEMPTY : Z := 39.
Definition S_IFDIR : Z := 16384.
Definition S_IFBLK : Z := 24576.

Definition PTR_ERR (p : Z) : Z := s64 p.

Definition SLASH : Z := 47.
Definition DOT : Z := 46.

(** [strchr] on the bytes of its argument: the index of the first [c]. *)
Fixpoint text_strchr (c : Z) (s : list Z) : outcome (option nat) :=
  match s with
  | [] => Fault
  | x :: s =>
      if x =? c then Ok (Some O)
      else if x =? 0 then Ok None
      else let! r := text_strchr c s in Ok (S <$> r)
  end.

(** The pointer [n] bytes on. *)
Definition shift (n : nat) (p : charp) : charp := CharP (addr p + Z.of_nat n) (drop n (text p)).

(** The component [p] points at, its slash overwritten by a terminator, and the
    pointer behind it. *)
Definition cut_component (p : charp) : outcome (charp * charp) :=
  let! slash := text_strchr SLASH (text p) in
  match slash with
  | Some k => Ok (CharP (addr p) (take k (text p) ++ 0 :: drop (S k) (text p)), shift (S k) p)
  | None => let! n := text_strlen (text p) in Ok (p, shift (Z.to_nat n) p)
  end.

(** The operations of [struct inode_operations] on directories. *)
Class NodeOps (A W : Type) : Type := {
  op_lookup : Z → option (Z → Z → Z → @dvfs A W → outcome (Z * @dvfs A W));
  op_mkdir : Z → option (Z → Z → Z → @dvfs A W → outcome (Z * @dvfs A W));
  op_mknod : Z → option (Z → Z → Z → Z → @dvfs A W → outcome (Z * @dvfs A W));
  op_rmdir : Z → option (Z → Z → @dvfs A W → outcome (Z * @dvfs A W));
  op_link : Z → option (Z → Z → Z → @dvfs A W → outcome (Z * @dvfs A W));
}.

Section Nodes.
Context {A : Type} {KM : KMalloc A} {W : Type} {SO : SuperOps W} {DO : DentryOps W} {NO : NodeOps A W}.

(** [uid] and [gid] are those of the calling task. *)
Context (current_hash_algorithm euid uid gid : Z).

Definition on_inodes {B : Type} (f : @vfs A W → outcome (B * @vfs A W)) (v : @dvfs A W) : outcome (B * @dvfs A W) :=
  let! (r, w) := f (iv v) in Ok (r, set_iv w v).

Definition inode_lookup (dir x lookup_flags : Z) (v : @dvfs A W) : outcome (Z * @dvfs A W) :=
  if (dir =? 0) || (x =? 0) then Ok (ERR_PTR (- EINVAL), v)
  else
    let! i := get_inode dir (iv v) in
    if negb (S_ISDIR (i_mode i)) then Ok (ERR_PTR (- ENOTDIR), v)
    else
      match hook op_lookup (i_op i) with
      | Some f => f dir x lookup_flags v
      | None => Ok (ERR_PTR (- ENOSYS), v)
      end.

(** The directory is one entry longer. *)
Definition grow_dir (dir : Z) (v : @dvfs A W) : outcome (@dvfs A W) :=
  let! i := get_inode dir (iv v) in
  Ok (set_iv (put_inode dir (Inode (i_mode i) (i_uid i) (i_gid i) (s64 (i_size i + 1)) (i_nlink i) (i_superblock i)
        (i_ino i) (i_op i) (i_refcount i) (i_state i) (i_fs_info i) (i_data i)) (iv v)) v).

(** An error pointer from [inode_acquire] is not null, so it is written through. *)
Definition inode_mkdir (dir x mode : Z) (v : @dvfs A W) : outcome (Z * @dvfs A W) :=
  if (dir =? 0) || (x =? 0) then Ok (- EINVAL, v)
  else
    let! (error, v) := on_inodes (inode_permission euid dir (Z.lor MAY_WRITE MAY_EXEC)) v in
    if negb (error =? 0) then Ok (error, v)
    else
      let! i := get_inode dir (iv v) in
      match hook op_mkdir (i_op i) with
      | Some f => f dir x mode v
      | None =>
          let! (y, v) := on_inodes (inode_acquire (i_superblock i) 0) v in
          if y =? 0 then Ok (- ENOMEM, v)
          else
            let! n := get_inode y (iv v) in
            let n := Inode (Z.lor S_IFDIR (Z.land mode 511)) uid gid 0 (i_nlink n) (i_superblock n) (i_ino n) (i_op n)
                       (i_refcount n) (i_state n) (i_fs_info n) (i_data n) in
            let v := set_iv (put_inode y n (iv v)) v in
            let! (_, v) := dentry_instantiate x y v in
            let! v := grow_dir dir v in
            Ok (0, v)
      end.

Definition inode_mknod (dir x mode dev : Z) (v : @dvfs A W) : outcome (Z * @dvfs A W) :=
  if (dir =? 0) || (x =? 0) then Ok (- EINVAL, v)
  else
    let! (error, v) := on_inodes (inode_permission euid dir (Z.lor MAY_WRITE MAY_EXEC)) v in
    if negb (error =? 0) then Ok (error, v)
    else
      let! i := get_inode dir (iv v) in
      match hook op_mknod (i_op i) with
      | Some f => f dir x mode dev v
      | None =>
          let! (y, v) := on_inodes (inode_acquire (i_superblock i) 0) v in
          if PTR_IS_ERROR y then Ok (s32 (PTR_ERR y), v)
          else
            let! (_, v) := dentry_instantiate x y v in
            let! v := grow_dir dir v in
            Ok (0, v)
      end.

Definition inode_rmdir (dir x : Z) (v : @dvfs A W) : outcome (Z * @dvfs A W) :=
  if (dir =? 0) || (x =? 0) then Ok (- EINVAL, v)
  else
    let! d := get_dentry x v in
    if d_inode d =? 0 then Ok (- EINVAL, v)
    else
      let! i := get_inode dir (iv v) in
      match hook op_rmdir (i_op i) with
      | None => Ok (- EPERM, v)
      | Some f =>
          let! (error, v) := on_inodes (inode_checkPermission euid dir (Z.lor MAY_WRITE MAY_EXEC)) v in
          if negb (error =? 0) then Ok (error, v)
          else
            let! empty := dentry_isEmptyDir x v in
            if negb empty then Ok (- ENOTEMPTY, v) else f dir x v
      end.

(** [!name || !*name] *)
Definition empty_string (s : charp) : outcome bool :=
  if is_null s then Ok true else let! c := of_option (head (text s)) in Ok (c =? 0).

Definition dentry_mkdir (parent : Z) (nm : charp) (mode : Z) (v : @dvfs A W) : outcome (Z * @dvfs A W) :=
  if parent =? 0 then Ok (ERR_PTR (- EINVAL), v)
  else
    let! e := empty_string nm in
    if e then Ok (ERR_PTR (- EINVAL), v)
    else
      let! dir := dentry_isDir parent v in
      if negb dir then Ok (ERR_PTR (- ENOTDIR), v)
      else
        let! d := get_dentry parent v in
        if d_inode d =? 0 then Ok (ERR_PTR (- ENOENT), v)
        else
          let! (error, v) := on_inodes (inode_permission euid (d_inode d) (Z.lor MAY_WRITE MAY_EXEC)) v in
          if negb (error =? 0) then Ok (ERR_PTR error, v)
          else
            let! i := get_inode (d_inode d) (iv v) in
            match hook op_mkdir (i_op i) with
            | None => Ok (ERR_PTR (- EPERM), v)
            | Some _ =>
                let! (x, v) := dentry_acquireRaw current_hash_algorithm parent nm 1 false true v in
                if x =? 0 then Ok (ERR_PTR (- ENOMEM), v)
                else
                  let! d := get_dentry parent v in
                  let! (error, v) := inode_mkdir (d_inode d) x mode v in
                  if negb (error =? 0) then
                    let! (_, v) := dentry_unref x v in Ok (ERR_PTR error, v)
                  else Ok (x, v)
            end.

Definition dentry_mknod (parent : Z) (nm : charp) (mode dev : Z) (v : @dvfs A W) : outcome (Z * @dvfs A W) :=
  if parent =? 0 then Ok (ERR_PTR (- EINVAL), v)
  else
    let! d := get_dentry parent v in
    if d_inode d =? 0 then Ok (ERR_PTR (- EINVAL), v)
    else
      let! e := empty_string nm in
      if e then Ok (ERR_PTR (- EINVAL), v)
      else
        let! dir := dentry_isDir parent v in
        if negb dir then Ok (ERR_PTR (- ENOTDIR), v)
        else
          let! (error, v) := on_inodes (inode_permission euid (d_inode d) (Z.lor MAY_WRITE MAY_EXEC)) v in
          if negb (error =? 0) then Ok (ERR_PTR error, v)
          else
            let! (x, v) := dentry_acquireRaw current_hash_algorithm parent nm 0 false true v in
            if x =? 0 then Ok (ERR_PTR (- ENOMEM), v)
            else
              let! n := get_dentry x v in
              if negb (d_inode n =? 0) then
                let! (_, v) := dentry_unref x v in Ok (ERR_PTR (- EEXIST), v)
              else
                let! d := get_dentry parent v in
                let! (error, v) := inode_mknod (d_inode d) x mode dev v in
                if negb (error =? 0) then
                  let! (_, v) := dentry_unref x v in Ok (ERR_PTR error, v)
                else Ok (x, v).

(** The second component is what [new_inode] points at afterwards. *)
Definition vfs_link (old dir new : Z) (v : @dvfs A W) : outcome (Z * option Z * @dvfs A W) :=
  if (old =? 0) || (dir =? 0) || (new =? 0) then Ok (- EINVAL, None, v)
  else
    let! i := get_inode dir (iv v) in
    match hook op_link (i_op i) with
    | None => Ok (- EPERM, None, v)
    | Some f =>
        let! d := get_dentry new v in
        if negb (d_inode d =? 0) then Ok (- EEXIST, None, v)
        else
          let! (error, v) := on_inodes (inode_checkPermission euid dir MAY_WRITE) v in
          if negb (error =? 0) then Ok (error, None, v)
          else
            let! (error, v) := f old dir new v in
            if negb (error =? 0) then Ok (error, None, v)
            else
              let! d := get_dentry new v in
              Ok (0, Some (d_inode d), v)
    end.
End Nodes.

Section Walk.
Context {A : Type} {KM : KMalloc A} {W : Type} {SO : SuperOps W} {DO : DentryOps W} {NO : NodeOps A W}.
Context (current_hash_algorithm euid uid gid : Z).
Local Abbreviation state := (@mvfs A W).

(** ** The walk *)

(** Let go of a dentry and of a mount that may be null. *)
Definition drop_ref (x mnt : Z) (v : state) : outcome state :=
  let! (_, v) := on_dv (dentry_unref x) v in
  if mnt =? 0 then Ok v else mount_unref mnt v.

(** From a dentry to its parent, if it has one. *)
Definition to_parent (x : Z) (v : state) : outcome (Z * state) :=
  let! d := get_dentry x (dv v) in
  if d_parent d =? 0 then Ok (x, v)
  else
    let! (_, v) := on_dv (dentry_unref x) v in
    on_dv (dentry_ref (d_parent d)) v.

(** A component [..]. *)
Definition walk_up (x mnt : Z) (v : state) : outcome (Z * Z * state) :=
  let! top := (if mnt =? 0 then Ok None
               else let! m := get_mount mnt v in Ok (if x =? mnt_root m then Some (mnt_path m) else None)) in
  match top with
  | Some mp =>
      if negb (p_mnt mp =? 0) && negb (p_mnt mp =? mnt) then
        let! (_, v) := on_dv (dentry_unref x) v in
        let! v := mount_unref mnt v in
        let! (mnt, v) := mount_ref (p_mnt mp) v in
        let! (x, v) := on_dv (dentry_ref (p_dentry mp)) v in
        let! (x, v) := to_parent x v in
        Ok (x, mnt, v)
      else Ok (x, mnt, v)
  | None =>
      let! (x, v) := to_parent x v in
      Ok (x, mnt, v)
  end.

(** Ask the file system about a negative dentry [next] of the directory [x]; [Some e] is
    an error to return. *)
Definition resolve_negative (x next flags : Z) (v : state) : outcome (option Z * state) :=
  let! n := get_dentry next (dv v) in
  if negb (d_inode n =? 0) then Ok (None, v)
  else
    let! d := get_dentry x (dv v) in
    if d_inode d =? 0 then Ok (None, v)
    else
      let! i := get_inode (d_inode d) (iv (dv v)) in
      match hook (op_lookup (A := A) (W := W)) (i_op i) with
      | None => Ok (None, v)
      | Some _ =>
          let! (found, v) := on_dv (inode_lookup (d_inode d) next flags) v in
          if PTR_IS_ERROR found then Ok (Some (s32 (PTR_ERR found)), v)
          else if found =? 0 then Ok (None, v)
          else
            let! f := get_dentry found (dv v) in
            if d_inode f =? 0 then Ok (None, v)
            else
              let! (i, v) := on_dv (on_inodes (inode_ref (d_inode f))) v in
              let! (_, v) := on_dv (dentry_instantiate next i) v in
              let! (_, v) := on_dv (dentry_unref found) v in
              Ok (None, v)
      end.

(** Go down into what is mounted on [x]. *)
Definition cross_mount (x mnt flags : Z) (v : state) : outcome (Z * Z * state) :=
  let! here := (if has LOOKUP_AUTOMOUNT flags then is_mounted x (dv v) else Ok false) in
  if negb here then Ok (x, mnt, v)
  else
    let! (mounted, v) := dentry_lookupMountpoint x v in
    if mounted =? 0 then Ok (x, mnt, v)
    else
      let! v := (if mnt =? 0 then Ok v else mount_unref mnt v) in
      let! m := get_mount mounted v in
      let! (r, v) := on_dv (dentry_ref (mnt_root m)) v in
      let! (_, v) := on_dv (dentry_unref x) v in
      Ok (r, mounted, v).

(** A step of the walk ends it with an error, its references dropped, or goes on. *)
Inductive walked : Type :=
| Stop (error : Z)
| At (x mnt : Z).

(** A component that is a name. *)
Definition walk_name (c : charp) (x mnt flags : Z) (v : state) : outcome (walked * state) :=
  let! (next, v) := on_dv (dentry_acquireRaw current_hash_algorithm x c (-1) true true) v in
  if PTR_IS_ERROR next || (next =? 0) then
    let! v := drop_ref x mnt v in
    Ok (Stop (if next =? 0 then - ENOMEM else s32 (PTR_ERR next)), v)
  else
    let! (error, v) := resolve_negative x next flags v in
    match error with
    | Some e =>
        let! (_, v) := on_dv (dentry_unref next) v in
        let! v := drop_ref x mnt v in
        Ok (Stop e, v)
    | None =>
        let! (_, v) := on_dv (dentry_unref x) v in
        let! (x, mnt, v) := cross_mount next mnt flags v in
        Ok (At x mnt, v)
    end.

Definition walk_component (c : charp) (x mnt flags : Z) (v : state) : outcome (walked * state) :=
  let! len := text_strlen (text c) in
  let byte i := default 0 (text c !! i) in
  if (s32 len =? 1) && (byte 0%nat =? DOT) then Ok (At x mnt, v)
  else if (s32 len =? 2) && (byte 0%nat =? DOT) && (byte 1%nat =? DOT) then
    let! (x, mnt, v) := walk_up x mnt v in Ok (At x mnt, v)
  else if s32 len =? 0 then Ok (At x mnt, v)
  else walk_name c x mnt flags v.

(** Each round moves [component] forwards, so the length of the string is enough fuel. *)
Fixpoint walk_loop (fuel : nat) (component : charp) (x mnt flags : Z) (v : state) : outcome (walked * state) :=
  let! c := of_option (head (text component)) in
  if c =? 0 then Ok (At x mnt, v)
  else
    match fuel with
    | O => Timeout
    | S fuel =>
        let! (this, next) := cut_component component in
        let! (r, v) := walk_component this x mnt flags v in
        match r with
        | Stop e => Ok (Stop e, v)
        | At x mnt => walk_loop fuel next x mnt flags v
        end
    end.

(** The result path is only written on success. *)
Definition vfs_pathwalk (base_dentry base_mnt : Z) (path_str : charp) (flags : Z) (v : state) : outcome (Z * option path * state) :=
  if (base_dentry =? 0) || is_null path_str then Ok (- EINVAL, None, v)
  else
    let! (x, v) := on_dv (dentry_ref base_dentry) v in
    let! (mnt, v) := mount_ref base_mnt v in
    let! c := of_option (head (text path_str)) in
    let! (x, v, path_str) :=
      (if c =? SLASH then
         if mnt =? 0 then Ok (x, v, shift 1 path_str)
         else
           let! (_, v) := on_dv (dentry_unref x) v in
           let! m := get_mount mnt v in
           let! (x, v) := on_dv (dentry_ref (mnt_root m)) v in
           Ok (x, v, shift 1 path_str)
       else Ok (x, v, path_str)) in
    let! c := of_option (head (text path_str)) in
    if c =? 0 then Ok (0, Some (Path mnt x), v)
    else
      let! n := text_strlen (text path_str) in
      let (buf, v) := malloc (u64 (n + 1)) v in
      if buf =? 0 then
        let! v := drop_ref x mnt v in Ok (- ENOMEM, None, v)
      else
        let copy := CharP buf (take (Z.to_nat n) (text path_str) ++ [0]) in
        let! (r, v) := walk_loop (Z.to_nat n) copy x mnt flags v in
        match r with
        | Stop e => Ok (e, None, release buf v)
        | At x mnt => Ok (0, Some (Path mnt x), release buf v)
        end.

(** ** Lookups from the directories of a process; [cfs] is the [fs] of the calling task *)

Definition path_create (cfs : Z) (name : charp) (flags : Z) (v : state) : outcome (Z * option path * state) :=
  let! f := get_fs cfs v in
  vfs_pathwalk (p_dentry (pwd f)) (p_mnt (pwd f)) name flags v.

(** [result] says whether the caller passed a place for the result. *)
Definition kern_path_qstr (cfs : Z) (nm : option qstr) (flags : Z) (result : bool) (v : state) : outcome (Z * option path * state) :=
  match nm with
  | None => Ok (- EINVAL, None, v)
  | Some q =>
      if negb result then Ok (- EINVAL, None, v)
      else
        let (buf, v) := malloc (u32 (len q + 1)) v in
        if buf =? 0 then Ok (- ENOMEM, None, v)
        else if Z.of_nat (length (text (name q))) <? len q then Fault
        else
          let! (ret, p, v) := path_create cfs (CharP buf (take (Z.to_nat (len q)) (text (name q)) ++ [0])) flags v in
          Ok (ret, p, release buf v)
  end.

Definition AT_FDCWD : Z := -100.

(** [file->f_inode] is [f_dentry->d_inode], and [f_dentry] is laid over the mount of
    [f_path], whose second word is the dentry it is mounted on. *)
Definition file_inode (p : path) (v : state) : outcome Z :=
  let! m := get_mount (p_mnt p) v in Ok (p_dentry (mnt_path m)).

(** The directory a lookup starts from: [Error e], [Borrowed p] for the root or working
    directory, which are used without a reference, [Held p] for that of a descriptor.
    [file_of] gives the path of the file open on a descriptor. *)
Inductive start : Type :=
| Error (e : Z)
| Borrowed (p : path)
| Held (p : path).

Definition start_at (cfs dfd : Z) (absolute : bool) (file_of : Z → option path) (v : state) : outcome (start * state) :=
  if absolute then let! f := get_fs cfs v in Ok (Borrowed (root f), v)
  else if dfd =? AT_FDCWD then let! f := get_fs cfs v in Ok (Borrowed (pwd f), v)
  else
    match file_of dfd with
    | None => Ok (Error (- EBADF), v)
    | Some p =>
        let! i := file_inode p v in
        let! n := get_inode i (iv (dv v)) in
        if negb (S_ISDIR (i_mode n)) then Ok (Error (- ENOTDIR), v)
        else let! (p, v) := ref_path p v in Ok (Held p, v)
    end.

(** The last component is what [started] holds afterwards, when it is asked for. *)
Definition filename_lookup (cfs dfd : Z) (name : charp) (flags : Z) (result : bool) (file_of : Z → option path)
    (started : bool) (v : state) : outcome (Z * option path * option path * state) :=
  if is_null name || negb result then Ok (- EINVAL, None, None, v)
  else
    let! c := of_option (head (text name)) in
    let! (s, v) := start_at cfs dfd (c =? SLASH) file_of v in
    match s with
    | Error e => Ok (e, None, None, v)
    | Borrowed p | Held p =>
        let! (st, v) := (if started then let! (q, v) := ref_path p v in Ok (Some q, v) else Ok (None, v)) in
        let! (error, r, v) := vfs_pathwalk (p_dentry p) (p_mnt p) name flags v in
        let! v := drop_ref (p_dentry p) (p_mnt p) v in
        Ok (error, r, st, v)
    end.

(** The index of the last component, or an error, and the parent's path. [kstrndup]
    copies the whole string whatever limit it is given. *)
Definition resolve_path_parent (cfs : Z) (path_str : charp) (v : state) : outcome (Z * option path * state) :=
  let! e := empty_string path_str in
  if e then Ok (- EINVAL, None, v)
  else
    let! c := of_option (head (text path_str)) in
    let! f := get_fs cfs v in
    let! (start_path, v) := ref_path (if c =? SLASH then root f else pwd f) v in
    let! slash := text_strchr SLASH (text path_str) in
    match slash with
    | None => Ok (0, Some start_path, v)
    | Some k =>
        let name_index := Z.of_nat k + 1 in
        let! (copy, v) := copy_string path_str v in
        if is_null copy then
          let! (_, v) := path_destroy start_path v in Ok (- ENOMEM, None, v)
        else
          let! c := of_option (head (text copy)) in
          if negb (c =? 0) then
            let! (error, r, v) := vfs_pathwalk (p_dentry start_path) (p_mnt start_path) copy LOOKUP_FOLLOW v in
            let! (_, v) := path_destroy start_path v in
            let v := release (addr copy) v in
            if negb (error =? 0) then Ok (error, None, v) else Ok (s32 name_index, r, v)
          else Ok (s32 name_index, Some start_path, release (addr copy) v)
    end.

(** ** Creating files *)

Definition vfs_mkdir_path (cfs : Z) (p : charp) (mode : Z) (v : state) : outcome (Z * state) :=
  let! e := empty_string p in
  if e then Ok (ERR_PTR (- EINVAL), v)
  else
    let! r := text_strcmp (text p) [SLASH; 0] in
    if r =? 0 then Ok (ERR_PTR (- EEXIST), v)
    else
      let! (pos, parent, v) := resolve_path_parent cfs p v in
      if pos <? 0 then Ok (ERR_PTR pos, v)
      else
        let! parent := of_option parent in
        let! (result, v) := on_dv (dentry_mkdir current_hash_algorithm euid uid gid (p_dentry parent) (shift (Z.to_nat pos) p) mode) v in
        let! (_, v) := path_destroy parent v in
        Ok (result, v).

(** The reference to the parent is dropped before it is used. *)
Definition vfs_mkdir (cfs parent : Z) (nm : charp) (mode : Z) (v : state) : outcome (Z * state) :=
  let! e := empty_string nm in
  if e then Ok (ERR_PTR (- EINVAL), v)
  else
    let! (pos, parent, v) :=
      (if parent =? 0 then
         let! (pos, p, v) := resolve_path_parent cfs nm v in
         if pos <? 0 then Ok (pos, 0, v)
         else
           let! p := of_option p in
           let! (_, v) := path_destroy p v in
           Ok (pos, p_dentry p, v)
       else Ok (0, parent, v)) in
    if pos <? 0 then Ok (ERR_PTR pos, v)
    else if parent =? 0 then Ok (ERR_PTR (- EINVAL), v)
    else on_dv (dentry_mkdir current_hash_algorithm euid uid gid parent (shift (Z.to_nat pos) nm) mode) v.

Definition vfs_mknod (cfs parent : Z) (nm : charp) (mode dev : Z) (v : state) : outcome (Z * state) :=
  let! e := empty_string nm in
  if e then Ok (ERR_PTR (- EINVAL), v)
  else if parent =? 0 then
    let! (pos, p, v) := resolve_path_parent cfs nm v in
    if pos <? 0 then Ok (ERR_PTR pos, v)
    else
      let! p := of_option p in
      let! (result, v) := on_dv (dentry_mknod current_hash_algorithm euid (p_dentry p) (shift (Z.to_nat pos) nm) mode dev) v in
      let! (_, v) := path_destroy p v in
      Ok (result, v)
  else on_dv (dentry_mknod current_hash_algorithm euid parent nm mode dev) v.

Definition vfs_mknod_block (cfs : Z) (p : charp) (mode dev : Z) (v : state) : outcome (Z * state) :=
  let! (x, v) := vfs_mknod cfs 0 p (Z.lor S_IFBLK (Z.land mode 511)) dev v in
  if PTR_IS_ERROR x then
    let error := s32 (PTR_ERR x) in
    Ok (if error =? - EEXIST then 0 else error, v)
  else
    let! (_, v) := on_dv (dentry_unref x) v in
    Ok (0, v).
End Walk.

Definition O_RDONLY : Z := 0.
Definition O_WRONLY : Z := 1.
Definition O_RDWR : Z := 2.
Definition O_CREAT : Z := 64.
Definition O_EXCL : Z := 128.
Definition O_TRUNC : Z := 512.
Definition O_APPEND : Z := 1024.
Definition O_NONBLOCK : Z := 2048.
Definition O_DSYNC : Z := 4096.
Definition O_SYNC : Z := 1052672.
Definition O_DIRECTORY : Z := 65536.
Definition O_NOFOLLOW : Z := 131072.
Definition O_CLOEXEC : Z := 524288.
Definition O_PATH : Z := 2097152.

(** As the C library defines it, with [O_PATH]. *)
Definition O_ACCMODE : Z := Z.lor 3 O_PATH.
Definition VALID_OPEN_FLAGS : Z :=
  fold_right Z.lor 0 [O_ACCMODE; O_CREAT; O_EXCL; O_TRUNC; O_APPEND; O_NONBLOCK; O_SYNC; O_DIRECTORY; O_NOFOLLOW; O_CLOEXEC; O_DSYNC].

Definition FMODE_READ : Z := 1.
Definition FMODE_WRITE : Z := 2.
Definition FMODE_APPEND : Z := 8.
Definition FMODE_NONBLOCK : Z := 16.
Definition FMODE_EXCL : Z := 128.

Definition vfs_validate_flags (flags : Z) : Z :=
  let acc := Z.land flags O_ACCMODE in
  if negb (acc =? O_RDONLY) && negb (acc =? O_WRONLY) && negb (acc =? O_RDWR) then - EINVAL
  else if has O_TRUNC flags && (acc =? O_RDONLY) then - EINVAL
  else if has (Z.lnot VALID_OPEN_FLAGS) flags then - EINVAL
  else 0.

(** The conversion of the flags in [vfs_alloc_file]. *)
Definition fmode_of (flags : Z) : Z :=
  let acc := Z.land flags O_ACCMODE in
  let m := 0 in
  let m := if acc =? O_RDONLY then Z.lor m FMODE_READ else m in
  let m := if acc =? O_WRONLY then Z.lor m FMODE_WRITE else m in
  let m := if acc =? O_RDWR then Z.lor m (Z.lor FMODE_READ FMODE_WRITE) else m in
  let m := if has O_APPEND flags then Z.lor m FMODE_APPEND else m in
  let m := if has O_EXCL flags then Z.lor m FMODE_EXCL else m in
  if has O_NONBLOCK flags then Z.lor m FMODE_NONBLOCK else m.

(** A new [struct file]; [f_op] is that of its inode and is left out. *)
Record new_file := NewFile {
  nf_path : path;
  nf_mode : Z;
  nf_pos : Z;
  nf_flags : Z;
  nf_refcount : Z;
}.

Definition FILE_SIZE : Z := 72.

Section Mounting.
Context {A : Type} {KM : KMalloc A} {W : Type} {SO : SuperOps W} {DO : DentryOps W} {MO : MountOps W} {NO : NodeOps A W}.
Context (mount_list file_systems_list current_hash_algorithm euid : Z).
Local Abbreviation state := (@mvfs A W).

(** What the file systems do behind [fs_mount] and [create_mount], and the device number
    of an inode, which only they write. *)
Context (mount : Z → option (Z → Z → Z → Z → state → outcome (Z * state))).
Context (create_mount : Z → option (Z → Z → charp → state → outcome (Z * state))).
Context (i_rdev : Z → W → Z).

Definition ENODEV : Z := 19.
Definition ENOTBLK : Z := 15.
Definition MS_REMOUNT : Z := 32.
Definition MS_BIND : Z := 4096.

Definition none_name : list Z := [110; 111; 110; 101; 0].
Definition mem_name : list Z := [109; 101; 109; 0].
Definition memory_name : list Z := [109; 101; 109; 111; 114; 121; 0].

(** [strcmp(a, b) == 0] *)
Definition same_text (a b : list Z) : outcome bool := let! r := text_strcmp a b in Ok (r =? 0).

(** The three special names, compared one after the other. *)
Definition is_memory_device (nm : list Z) : outcome bool :=
  let! a := same_text nm none_name in
  if a then Ok true
  else
    let! b := same_text nm mem_name in
    if b then Ok true else same_text nm memory_name.

(** The result and the device number. *)
Definition lookup_dev_id (cfs : Z) (dev_name : charp) (v : state) : outcome (Z * Z * state) :=
  if is_null dev_name then Ok (- EINVAL, 0, v)
  else
    let! e := empty_string dev_name in
    if e then Ok (- ENODEV, 0, v)
    else
      let! special := is_memory_device (text dev_name) in
      if special then Ok (0, 0, v)
      else
        let! (ret, p, v) := path_create current_hash_algorithm cfs dev_name LOOKUP_FOLLOW v in
        if ret <? 0 then Ok (ret, 0, v)
        else
          let! p := of_option p in
          let! d := get_dentry (p_dentry p) (dv v) in
          if d_inode d =? 0 then
            let! (_, v) := path_destroy p v in Ok (- ENODEV, 0, v)
          else
            let! i := get_inode (d_inode d) (iv (dv v)) in
            if negb (S_ISBLK (i_mode i)) then
              let! (_, v) := path_destroy p v in Ok (- ENOTBLK, 0, v)
            else
              let dev := i_rdev (d_inode d) (fs (iv (dv v))) in
              let! (_, v) := path_destroy p v in
              Ok (0, dev, v).

Definition vfs_kern_mount (cfs type flags : Z) (device_path : charp) (data : Z) (v : state) : outcome (Z * state) :=
  if PTR_IS_INVALID type then Ok (ERR_PTR (- EINVAL), v)
  else
    let! none := empty_string device_path in
    let! (ret, dev_id, v) := (if none then Ok (0, 0, v) else lookup_dev_id cfs device_path v) in
    if ret <? 0 then Ok (ERR_PTR ret, v)
    else
      let! (s, v) := fstype_mount mount type flags dev_id data v in
      if PTR_IS_INVALID s then Ok (ERR_PTR (- ENOMEM), v)
      else
        let! (m, v) := superblock_acquireMount create_mount s flags device_path v in
        if PTR_IS_INVALID m then Ok (ERR_PTR (- ENOMEM), v) else Ok (m, v).

Definition vfs_init (v : state) : outcome (Z * state) :=
  let! v := mcache_init mount_list v in
  let! (err, v) := on_dv init_dentry_hashtable v in
  if err <? 0 then Ok (err, v)
  else
    let! (err, v) := on_dv (on_inodes icache_init) v in
    if err <? 0 then Ok (err, v)
    else
      let! (err, v) := fstype_register_all file_systems_list v in
      if err <? 0 then Ok (err, v) else Ok (0, v).

(** The mount to attach, or the result of [do_mount] when there is none. *)
Definition mount_to_add (cfs type flags data : Z) (source : charp) (mount_path : path) (v : state) : outcome ((Z + Z) * state) :=
  if has MS_BIND flags then
    let! (ret, src, v) := path_create current_hash_algorithm cfs source 0 v in
    if negb (ret =? 0) then Ok (inl ret, v)
    else
      let! src := of_option src in
      let! (m, v) := mount_bind mount_list (Some src) flags v in
      let! (_, v) := path_destroy src v in
      Ok (inr m, v)
  else if has MS_REMOUNT flags then
    let! (ret, v) := remount (Some mount_path) flags data v in Ok (inl ret, v)
  else
    let! (m, v) := vfs_kern_mount cfs type (s32 flags) source data v in Ok (inr m, v).

Definition do_mount (cfs : Z) (source target fstype_name : charp) (flags data : Z) (v : state) : outcome (Z * state) :=
  let! type := fstype_lookup file_systems_list fstype_name v in
  if type =? 0 then Ok (- ENODEV, v)
  else
    let! (ret, mp, v) := path_create current_hash_algorithm cfs target 0 v in
    if negb (ret =? 0) then Ok (ret, v)
    else
      let! mp := of_option mp in
      let! (r, v) := mount_to_add cfs type flags data source mp v in
      let! (ret, v) :=
        match r with
        | inl ret => Ok (ret, v)
        | inr newmnt =>
            if PTR_IS_ERROR newmnt then Ok (s32 (PTR_ERR newmnt), v)
            else
              let! (ret, v) := mount_add newmnt (Some mp) (s32 flags) v in
              if negb (ret =? 0) then
                let! v := mount_unref newmnt v in Ok (ret, v)
              else Ok (ret, v)
        end in
      let! (_, v) := path_destroy mp v in
      Ok (ret, v).

(** The write checks of [vfs_alloc_file]: 0 or the error. *)
Definition may_open (i flags : Z) (v : state) : outcome (Z * state) :=
  let acc := Z.land flags O_ACCMODE in
  if (acc =? O_RDONLY) || (i =? 0) then Ok (0, v)
  else
    let! n := get_inode i (iv (dv v)) in
    let! ro := inode_isReadonly n (iv (dv v)) in
    if ro then Ok (- EROFS, v)
    else if (acc =? O_WRONLY) || (acc =? O_RDWR) then
      if S_ISDIR (i_mode n) then Ok (- EISDIR, v)
      else on_dv (on_inodes (inode_permission euid i MAY_WRITE)) v
    else Ok (0, v).

(** [file->f_inode = i]: see [file_inode]. *)
Definition set_file_inode (p : path) (i : Z) (v : state) : outcome state :=
  upd_mount (p_mnt p) (λ m, set_mnt_path (Path (p_mnt (mnt_path m)) i) m) v.

(** The address of the new file, or an error, and its contents. *)
Definition vfs_alloc_file (p : option path) (flags : Z) (v : state) : outcome (Z * option new_file * state) :=
  match p with
  | None => Ok (ERR_PTR (- EINVAL), None, v)
  | Some p =>
      if (p_dentry p =? 0) || (p_mnt p =? 0) then Ok (ERR_PTR (- EINVAL), None, v)
      else
        let! d := get_dentry (p_dentry p) (dv v) in
        let error := vfs_validate_flags flags in
        if negb (error =? 0) then Ok (ERR_PTR error, None, v)
        else
          let! (error, v) := may_open (d_inode d) flags v in
          if negb (error =? 0) then Ok (ERR_PTR error, None, v)
          else
            let (file, v) := malloc FILE_SIZE v in
            if file =? 0 then Ok (ERR_PTR (- ENOMEM), None, v)
            else
              let! (q, v) := ref_path p v in
              let! d := get_dentry (p_dentry p) (dv v) in
              let! (i, v) := (if d_inode d =? 0 then Ok (0, v) else on_dv (on_inodes (inode_ref (d_inode d))) v) in
              let! v := set_file_inode q i v in
              let! i := file_inode q v in
              let! pos := (if negb (i =? 0) && has O_APPEND flags
                           then let! n := get_inode i (iv (dv v)) in Ok (i_size n) else Ok 0) in
              Ok (file, Some (NewFile q (fmode_of flags) pos (u32 flags) 1), v)
  end.
End Mounting.

Section Spec.
Context {A : Type} {KM : KMalloc A} {KS : KMallocSpec A} {W : Type} {SO : SuperOps W} {DO : DentryOps W} {NO : NodeOps A W}.
Context (alg : Z).
Implicit Types (v : @mvfs A W) (w : @dvfs A W) (F : heads).

(** ** Strings *)

Lemma strlen_nul (s r : list Z) : 0 ∉ s → text_strlen (s ++ 0 :: r) = Ok (Z.of_nat (length s)).
Proof.
  induction s as [|c s IH]; intros H0; cbn [app text_strlen]; [done|]. apply not_elem_of_cons in H0 as [Hc H0].
  rewrite (proj2 (Z.eqb_neq c 0)) by done. rewrite IH by done. cbn [obind]. f_equal. cbn. lia.
Qed.

Lemma strchr_here c (s r : list Z) : c ∉ s → 0 ∉ s → text_strchr c (s ++ c :: r) = Ok (Some (length s)).
Proof.
  induction s as [|x s IH]; intros Hc H0; cbn [app text_strchr].
  - by rewrite Z.eqb_refl.
  - apply not_elem_of_cons in Hc as [Hx Hc]. apply not_elem_of_cons in H0 as [Hx0 H0].
    rewrite (proj2 (Z.eqb_neq x c)), (proj2 (Z.eqb_neq x 0)) by done. by rewrite IH.
Qed.

Lemma strchr_absent c (s r : list Z) : c ∉ s → 0 ∉ s → c ≠ 0 → text_strchr c (s ++ 0 :: r) = Ok None.
Proof.
  induction s as [|x s IH]; intros Hc H0 Hcz; cbn [app text_strchr].
  - by rewrite (proj2 (Z.eqb_neq 0 c)) by done.
  - apply not_elem_of_cons in Hc as [Hx Hc]. apply not_elem_of_cons in H0 as [Hx0 H0].
    rewrite (proj2 (Z.eqb_neq x c)), (proj2 (Z.eqb_neq x 0)) by done. by rewrite IH.
Qed.

(** A component and what follows it, up to a slash or the end. *)
Lemma cut_slash a (s r : list Z) :
  SLASH ∉ s → 0 ∉ s → cut_component (CharP a (s ++ SLASH :: r)) = Ok (CharP a (s ++ 0 :: r), CharP (a + Z.of_nat (S (length s))) r).
Proof.
  intros Hs H0. unfold cut_component. cbn [text addr]. rewrite strchr_here by done. cbn [obind]. unfold shift. cbn [text addr].
  rewrite take_app_length, drop_app_ge by lia. by replace (S (length s) - length s)%nat with 1%nat by lia.
Qed.

Lemma cut_end a (s r : list Z) :
  SLASH ∉ s → 0 ∉ s → cut_component (CharP a (s ++ 0 :: r)) = Ok (CharP a (s ++ 0 :: r), CharP (a + Z.of_nat (length s)) (0 :: r)).
Proof.
  intros Hs H0. unfold cut_component. cbn [text addr]. rewrite strchr_absent, strlen_nul by done. cbn [obind]. unfold shift. cbn [text addr].
  by rewrite Nat2Z.id, drop_app_length.
Qed.

(** A name that a path can hold: no slash, no terminator, not empty, [.] or [..]. *)
Record good_name (n : list Z) : Prop := {
  gn_slash : SLASH ∉ n;
  gn_nul : 0 ∉ n;
  gn_dots : n ≠ [] ∧ n ≠ [DOT] ∧ n ≠ [DOT; DOT];
  gn_len : Z.of_nat (length n) < 2 ^ 31;
}.

Lemma good_head n r : good_name n → ∃ c, head (n ++ r) = Some c ∧ c ≠ 0.
Proof. intros [Hs H0 (Hne & _) _]. destruct n as [|c n]; [done|]. exists c. split; [done|]. by apply not_elem_of_cons in H0 as [? _]. Qed.

(** Such a component is looked up as a name. *)
Lemma component_name a n r x mnt flags v :
  good_name n → walk_component alg (CharP a (n ++ 0 :: r)) x mnt flags v = walk_name alg (CharP a (n ++ 0 :: r)) x mnt flags v.
Proof.
  intros H. unfold walk_component. cbn [text]. rewrite strlen_nul by apply H. cbn [obind].
  pose proof (gn_len _ H) as Hl. rewrite s32_small by lia. destruct (gn_dots _ H) as (H1 & H2 & H3).
  destruct n as [|c [|c2 [|c3 n]]]; [done|..]; cbn [length app lookup list_lookup default from_option id].
  - change (Z.of_nat 1 =? 1) with true. cbn [andb]. rewrite (proj2 (Z.eqb_neq c DOT)) by (intros ->; done). done.
  - change (Z.of_nat 2 =? 1) with false. change (Z.of_nat 2 =? 2) with true. cbn [andb].
    destruct (Z.eqb_spec c DOT) as [->|]; cbn [andb]; [|done]. rewrite (proj2 (Z.eqb_neq c2 DOT)) by (intros ->; done). done.
  - rewrite (proj2 (Z.eqb_neq _ 1)), (proj2 (Z.eqb_neq _ 2)), (proj2 (Z.eqb_neq _ 0)) by lia. done.
Qed.

(** ** One step down *)

(** What a lookup leaves of a dentry, its reference count aside. *)
Definition mark w (d : dentry) : dentry := set_d_flags (Z.lor (d_flags d) DCACHE_REFERENCED) (set_d_time (jiffies w) d).
Definition seen (x : Z) (d : dentry) w : @dvfs A W := put_dentry x (mark w d) w.

Definition in_use w (x : Z) (d : dentry) : Prop := x ≠ 0 ∧ dentries w !! x = Some d ∧ 0 < d_refcount d < 2 ^ 31 - 2.

Lemma touched_held x d w : in_use w x d → put_dentry x (touched w d) w = held x (mark w d) (seen x d w).
Proof.
  intros (Hx & Hd & Hr). unfold held, seen, touched, mark. rewrite s32_small by lia. unfold put_dentry, set_dentries. cbn.
  by rewrite insert_insert_eq.
Qed.

(** [x] is a cached, positive dentry with a good name, found under the directory [p]. *)
Record child w (hs : list Z) (p x : Z) (q : qstr) (d : dentry) : Prop := {
  ch_dir : dentry_isDir p w = Ok true;
  ch_hashed : x ∈ hs;
  ch_named : is_named alg w x p q;
  ch_use : in_use w x d;
  ch_range : x < 2 ^ 63 ∧ p ≠ x;
  ch_positive : d_inode d ≠ 0;
  ch_valid : hook op_revalidate (d_op d) = None;
  ch_name : good_name (contents q);
}.

Lemma isDir_put w p x d d' : dentries w !! x = Some d → d_inode d' = d_inode d → dentry_isDir p (put_dentry x d' w) = dentry_isDir p w.
Proof.
  intros Hd Hi. unfold dentry_isDir, get_dentry. cbn. destruct (p =? 0); [done|]. destruct (decide (x = p)) as [<-|Hne].
  - rewrite lookup_insert_eq, Hd. cbn. by rewrite Hi.
  - by rewrite lookup_insert_ne by done.
Qed.

(** The lookup of a component by its name. *)
Lemma acquire_child w F hs p x q d a r :
  dcache alg w F hs → p ≠ 0 → child w hs p x q d → 0 < a →
  dentry_acquireRaw alg p (CharP a (contents q ++ 0 :: r)) (-1) true true w = Ok (x, put_dentry x (touched w d) w).
Proof.
  intros H Hp [Hdir Hx Hn (Hx0 & Hd & Hr) _ Hi Hv Hg] Ha. unfold dentry_acquireRaw, is_null. cbn [addr text].
  rewrite (proj2 (Z.eqb_neq p 0)), (proj2 (Z.eqb_neq a 0)) by (done || lia). cbn [orb].
  destruct (good_head (contents q) (0 :: r) Hg) as (c & -> & Hc). cbn [of_option obind]. rewrite (proj2 (Z.eqb_neq c 0)) by done.
  rewrite strlen_nul by apply Hg. cbn [obind]. pose proof (gn_len _ Hg) as Hl. rewrite u32_small by lia.
  assert (∃ h, qstr_hash alg (CharP a (contents q ++ 0 :: r)) (Z.of_nat (length (contents q))) = Ok h) as [h Hh].
  { unfold qstr_hash, is_null. cbn [addr text]. rewrite (proj2 (Z.eqb_neq a 0)) by lia. unfold djbx33a_hash, fnv1a_hash.
    destruct (alg =? _); rewrite hash_loop_ok by (rewrite length_app; lia); by eexists. }
  unfold full_name_hash. rewrite Hh. cbn [obind].
  assert (qstr_ok alg (Qstr (CharP a (contents q ++ 0 :: r)) (Z.of_nat (length (contents q))) h)) as Hok.
  { split; cbn; [lia| |done]. rewrite length_app. lia. }
  apply (acquire_hit_any alg w F hs p _ x q d true true H Hp Hdir Hok Hx Hn); [|done|done].
  unfold contents at 2. cbn. rewrite Nat2Z.id. by rewrite take_app_length.
Qed.

Lemma ptr_ok x : 0 < x < 2 ^ 63 → PTR_IS_ERROR x || (x =? 0) = false.
Proof.
  intros Hx. unfold PTR_IS_ERROR. rewrite (proj2 (Z.eqb_neq x 0)), orb_false_r by lia. rewrite u64_small by lia. apply Z.leb_gt. lia.
Qed.

(** From the directory [p], held, to its child [x], held instead. *)
Lemma step_down v w F hs p dp x q d a r mnt flags :
  dcache alg w F hs → in_use w p dp → child w hs p x q d → 0 < a → has LOOKUP_AUTOMOUNT flags = false →
  walk_component alg (CharP a (contents q ++ 0 :: r)) p mnt flags (set_dv (held p dp w) v) =
    Ok (At x mnt, set_dv (held x (mark w d) (seen x d w)) v).
Proof.
  intros H (Hp0 & Hdp & Hrp) HC Ha Hfl. rewrite component_name by apply HC. unfold walk_name.
  pose proof (ch_use _ _ _ _ _ _ HC) as (Hx0 & Hd & Hr). destruct (ch_range _ _ _ _ _ _ HC) as [Hx63 Hpx].
  assert (dcache alg (held p dp w) F hs) as H1 by (by apply (dcache_put alg w F hs p dp)).
  assert (child (held p dp w) hs p x q d) as HC1.
  { destruct HC as [? ? ? ? ? ? ? ?]. split; try done.
    - unfold held. by rewrite (isDir_put w p p dp).
    - by apply (named_put alg w p dp).
    - split; [done|]. split; [|done]. cbn. by rewrite lookup_insert_ne. }
  assert (put_dentry x (touched (held p dp w) d) (held p dp w) = held p dp (put_dentry x (touched w d) w)) as E1.
  { unfold held, put_dentry, set_dentries. cbn. by rewrite insert_insert_ne. }
  unfold on_dv at 1. change (dv (set_dv (held p dp w) v)) with (held p dp w).
  rewrite (acquire_child _ F hs p x q d a r H1 Hp0 HC1 Ha), E1, touched_held by done. cbn [obind].
  set (w1 := held x (mark w d) (seen x d w)).
  assert (dentries (held p dp w1) !! x = Some (set_d_refcount (d_refcount d + 1) (mark w d)) ∧ dentries w1 !! p = Some dp) as [Hx1 Hp1].
  { subst w1. unfold held, seen. cbn. rewrite lookup_insert_ne, lookup_insert_eq, !lookup_insert_ne by done. done. }
  change (set_dv (held p dp w1) (set_dv (held p dp w) v)) with (set_dv (held p dp w1) v).
  destruct (ch_named _ _ _ _ _ _ HC) as [Hxp _]. rewrite ptr_ok by lia.
  unfold resolve_negative, get_dentry. change (dv (set_dv (held p dp w1) v)) with (held p dp w1). rewrite Hx1. cbn [of_option obind].
  change (d_inode (set_d_refcount _ _)) with (d_inode d). rewrite (proj2 (Z.eqb_neq (d_inode d) 0)) by apply HC. cbn [negb obind].
  unfold on_dv, dentry_unref. change (dv (set_dv (held p dp w1) v)) with (held p dp w1). rewrite (unref_held _ p dp) by done. cbn [obind].
  unfold cross_mount. rewrite Hfl. cbn [obind negb]. done.
Qed.

(** ** The walk down a path *)

(** [x] is below [r] over the names [l], every dentry on the way a cached [child]. *)
Inductive below w (hs : list Z) (r : Z) : Z → list qstr → Prop :=
| below_root d : in_use w r d → below w hs r r []
| below_child p l x q d : below w hs r p l → child w hs p x q d → below w hs r x (l ++ [q]).

(** [w'] is [w] with some dentries marked by lookups. *)
Inductive visited w : @dvfs A W → Prop :=
| visited_refl : visited w w
| visited_step w' x d : visited w w' → dentries w' !! x = Some d → visited w (seen x d w').

Lemma child_seen w hs p x q d y e :
  dentries w !! y = Some e → child w hs p x q d → ∃ d', child (seen y e w) hs p x q d'.
Proof.
  intros He [H1 H2 H3 (H4 & H4' & H4'') H5 H6 H7 H8]. exists (if decide (y = x) then mark w d else d). split; try done.
  - unfold seen. by rewrite (isDir_put w p y e).
  - by apply (named_put alg w y e).
  - split; [done|]. unfold seen. cbn. destruct (decide (y = x)) as [<-|Hne]; [rewrite lookup_insert_eq|by rewrite lookup_insert_ne].
    rewrite H4' in He. injection He as <-. done.
  - by destruct (decide (y = x)).
  - by destruct (decide (y = x)).
Qed.

Lemma visited_child w w' hs p x q d : visited w w' → child w hs p x q d → ∃ d', child w' hs p x q d'.
Proof. intros Hv HC. induction Hv as [|w' y e _ (d' & IH) He]; [by exists d|]. by apply (child_seen w' hs p x q d' y e). Qed.

Lemma below_seen w hs r x l y e : dentries w !! y = Some e → below w hs r x l → below (seen y e w) hs r x l.
Proof.
  intros He H. induction H as [d (H0 & Hd & Hr)|p l x q d _ IH HC].
  - unfold seen. destruct (decide (y = r)) as [->|Hne].
    + apply (below_root _ _ _ (mark w e)). split; [done|]. cbn. rewrite lookup_insert_eq. rewrite Hd in He. injection He as <-. done.
    + apply (below_root _ _ _ d). split; [done|]. cbn. by rewrite lookup_insert_ne.
  - destruct (child_seen w hs p x q d y e He HC) as (d' & HC'). by eapply below_child.
Qed.

Lemma below_use w hs r x l : below w hs r x l → ∃ d, in_use w x d.
Proof. intros H. destruct H as [d|? ? ? ? d _ HC]; exists d; [done|apply HC]. Qed.

Lemma visited_keep w w' F hs r x l :
  visited w w' → dcache alg w F hs → below w hs r x l → dcache alg w' F hs ∧ below w' hs r x l.
Proof.
  intros H HD HB. induction H as [|w' y d _ [HD' HB'] Hy]; [done|]. split; [by apply (dcache_put alg w' F hs y d)|by apply below_seen].
Qed.

(** Marks change neither references nor the tree. *)
Lemma visited_dentry w w' y d :
  visited w w' → dentries w !! y = Some d → ∃ d', dentries w' !! y = Some d' ∧
    d_refcount d' = d_refcount d ∧ d_inode d' = d_inode d ∧ d_name d' = d_name d ∧ d_parent d' = d_parent d.
Proof.
  intros H Hd. induction H as [|w' x e _ (d' & Hd' & ? & ? & ? & ?) He]; [by exists d|]. unfold seen. cbn.
  destruct (decide (x = y)) as [->|Hne]; [|exists d'; by rewrite lookup_insert_ne].
  rewrite Hd' in He. injection He as <-. exists (mark w' d'). by rewrite lookup_insert_eq.
Qed.

(** Names with a slash behind each. *)
Definition seg (l : list qstr) : list Z := l ≫= λ q, contents q ++ [SLASH].

Lemma components_seg l t : components l ++ SLASH :: t = SLASH :: seg l ++ t.
Proof.
  induction l as [|q l IH]; [done|]. unfold components, seg in *. cbn. f_equal. rewrite <-!app_assoc. f_equal. exact IH.
Qed.

Lemma seg_app l q : seg (l ++ [q]) = seg l ++ contents q ++ [SLASH].
Proof. unfold seg. rewrite bind_app. cbn. by rewrite app_nil_r. Qed.

Lemma below_names w hs r x l : below w hs r x l → Forall (λ q, good_name (contents q)) l.
Proof. intros H. induction H as [|p l x q d _ IH HC]; [done|]. apply Forall_app. split; [done|]. apply Forall_singleton. apply HC. Qed.

(** One round of the loop at a component, whatever ends it. *)
Lemma loop_child v w F hs p dp x q d a r fuel mnt flags :
  dcache alg w F hs → in_use w p dp → child w hs p x q d → 0 < a → has LOOKUP_AUTOMOUNT flags = false →
  walk_loop alg (S fuel) (CharP a (contents q ++ SLASH :: r)) p mnt flags (set_dv (held p dp w) v) =
    walk_loop alg fuel (CharP (a + Z.of_nat (S (length (contents q)))) r) x mnt flags (set_dv (held x (mark w d) (seen x d w)) v) ∧
  walk_loop alg (S fuel) (CharP a (contents q ++ [0])) p mnt flags (set_dv (held p dp w) v) =
    Ok (At x mnt, set_dv (held x (mark w d) (seen x d w)) v).
Proof.
  intros H Hp HC Ha Hfl. pose proof (ch_name _ _ _ _ _ _ HC) as Hg. split; cbn [walk_loop text].
  - destruct (good_head (contents q) (SLASH :: r) Hg) as (c & -> & Hc). cbn [of_option obind]. rewrite (proj2 (Z.eqb_neq c 0)) by done.
    rewrite cut_slash by apply Hg. cbn [obind]. by rewrite (step_down v w F hs p dp x q d) by done.
  - destruct (good_head (contents q) [0] Hg) as (c & -> & Hc). cbn [of_option obind]. rewrite (proj2 (Z.eqb_neq c 0)) by done.
    rewrite cut_end by apply Hg. cbn [obind]. rewrite (step_down v w F hs p dp x q d) by done. cbn [obind]. by destruct fuel.
Qed.

Lemma walk_down v w F hs r x l mnt flags :
  below w hs r x l → dcache alg w F hs → has LOOKUP_AUTOMOUNT flags = false → ∀ dr fuel a t, in_use w r dr → 0 < a →
  ∃ w' dx, visited w w' ∧ in_use w' x dx ∧
    walk_loop alg (length l + fuel) (CharP a (seg l ++ t)) r mnt flags (set_dv (held r dr w) v) =
    walk_loop alg fuel (CharP (a + Z.of_nat (length (seg l))) t) x mnt flags (set_dv (held x dx w') v).
Proof.
  intros HB HD Hfl. induction HB as [d Hr|p l x q d HB IH HC]; intros dr fuel a t Hdr Ha.
  - exists w, dr. split; [constructor|]. split; [done|]. cbn. by rewrite Z.add_0_r.
  - rewrite seg_app, <-app_assoc. destruct (IH dr (S fuel) a ((contents q ++ [SLASH]) ++ t) Hdr Ha) as (w' & dp & Hv & Hup & E).
    destruct (visited_keep w w' F hs r x (l ++ [q]) Hv HD (below_child _ _ _ _ _ _ _ _ HB HC)) as [HD' HB'].
    destruct (visited_child _ _ _ _ _ _ _ Hv HC) as (d' & HC').
    exists (seen x d' w'), (mark w' d'). pose proof (ch_use _ _ _ _ _ _ HC') as (Hx0 & Hd' & Hr').
    split; [by constructor|]. split; [split; [done|]; split; [unfold seen; cbn; apply lookup_insert_eq|done]|].
    rewrite length_app. cbn [length]. replace (length l + 1 + fuel)%nat with (length l + S fuel)%nat by lia. rewrite E, <-app_assoc. cbn [app].
    destruct (loop_child v w' F hs p dp x q d' (a + Z.of_nat (length (seg l))) t fuel mnt flags HD' Hup HC') as [-> _]; [lia|done|].
    f_equal. f_equal. rewrite !length_app. cbn. lia.
Qed.

(** ** Whole paths *)

(** An allocation changes none of this. *)
Lemma heap_keep w F hs r x l n p (a : A) :
  0 < n → kmalloc n (heap_of w) = (p, a) → dcache alg w F hs → below w hs r x l →
  dcache alg (set_heap a w) F hs ∧ below (set_heap a w) hs r x l.
Proof.
  intros Hn Ek HD HB. destruct (kmalloc_block _ _ _ _ Hn Ek) as [Hg _].
  assert (∀ y p q, is_named alg w y p q → is_named alg (set_heap a w) y p q) as Hnm.
  { intros y p' q [Hy (d & Hd & Hp & Hq & Hok & Hl)]. split; [done|]. exists d. split; [done|]. split; [done|]. split; [done|]. split; [done|].
    by apply (km_live_mono (heap_of w)). }
  split.
  - apply (dcache_transfer alg w _ F F hs HD); [apply HD| |done|done|auto].
    intros y Hy. destruct (dc_placed _ _ _ _ HD y Hy) as (z & k & Hb & Hyz). exists z, k. split; [by apply Hg|done].
  - clear HD. induction HB as [d Hd|p' l y q d _ IH HC]; [by apply (below_root _ _ _ d)|]. apply (below_child _ _ _ p' l y q d IH).
    destruct HC as [? ? ? ? ? ? ? ?]. by split; auto.
Qed.

Lemma seg_length l : Forall (λ q, good_name (contents q)) l → (length l ≤ length (seg l))%nat ∧ 0 ∉ seg l.
Proof.
  induction 1 as [|q l Hq _ [IH IH0]]; [split; [done|by intros ?%elem_of_nil]|]. unfold seg in *. cbn. rewrite !length_app. cbn. split; [lia|].
  rewrite !elem_of_app, list_elem_of_singleton. intros [[H|H]|H]; [by apply (gn_nul _ Hq)|discriminate H|done].
Qed.

Lemma below_nil w hs r x : below w hs r x [] → x = r.
Proof. remember [] as l eqn:E. intros H. destruct H as [|p l x q]; [done|]. by destruct l. Qed.

Lemma below_last w hs r x l q : below w hs r x (l ++ [q]) → ∃ p d, below w hs r p l ∧ child w hs p x q d.
Proof.
  remember (l ++ [q]) as k eqn:E. intros H. destruct H as [|p l' x q' d H HC]; [by destruct l|].
  apply app_inj_tail in E as [-> ->]. by exists p, d.
Qed.

(** The walk of the path of [x], from any dentry [b] in the mount whose root is [r]: the
    result is [x] with a reference, and no other count changes but that of the mount. *)
Lemma pathwalk_ok v F hs r x l b db mnt m s rest flags buf a :
  dcache alg (dv v) F hs → below (dv v) hs r x l → in_use (dv v) b db →
  mnt ≠ 0 → mounts v !! mnt = Some m → mnt_root m = r →
  is_null s = false → text s = path_text l ++ 0 :: rest → has LOOKUP_AUTOMOUNT flags = false →
  Z.of_nat (length (path_text l)) < 2 ^ 31 →
  (l ≠ [] → kmalloc (Z.of_nat (length (path_text l))) (heap_of (dv v)) = (buf, a) ∧ 0 < buf) →
  ∃ v' w dx, vfs_pathwalk alg b mnt s flags v = Ok (0, Some (Path mnt x), v') ∧
    mounts v' = <[mnt := set_mnt_refcount (s32 (mnt_refcount m + 1)) m]> (mounts v) ∧
    dentries (dv v') = dentries (held x dx w) ∧ visited (if l is [] then dv v else set_heap a (dv v)) w ∧ in_use w x dx.
Proof.
  intros HD HB (Hb0 & Hdb & Hrb) Hm0 Hm Hr Hs Ht Hfl Hmax Hmem.
  assert (∃ dr, in_use (dv v) r dr) as (dr & Hur) by (clear -HB; induction HB; [by eexists|done]).
  pose proof Hur as (Hr0 & Hdr & Hrr). set (m' := set_mnt_refcount (s32 (mnt_refcount m + 1)) m). set (vm := put_mount mnt m' v).
  assert (∃ t, text s = SLASH :: t) as (t & Et) by (rewrite Ht; unfold path_text; destruct l; by eexists).
  unfold vfs_pathwalk. rewrite (proj2 (Z.eqb_neq b 0)), Hs by done. cbn [orb].
  unfold on_dv at 1. rewrite (ref_held b db) by done. cbn [obind]. unfold mount_ref, upd_mount, get_mount.
  rewrite (proj2 (Z.eqb_neq mnt 0)) by done. change (mounts (set_dv _ v)) with (mounts v). rewrite Hm. cbn [of_option obind].
  change (put_mount mnt _ (set_dv ?w v)) with (set_dv w vm). rewrite Et. cbn [head of_option obind].
  change (SLASH =? SLASH) with true. cbv iota. unfold on_dv at 1, dentry_unref. change (dv (set_dv ?w vm)) with w. rewrite (unref_held _ b db) by done. cbn [obind].
  change (set_dv (dv v) (set_dv ?w vm)) with vm. change (mounts vm) with (<[mnt := m']> (mounts v)). rewrite lookup_insert_eq. cbn [of_option obind].
  change (mnt_root m') with (mnt_root m). rewrite Hr. unfold on_dv at 1. change (dv vm) with (dv v). rewrite (ref_held r dr) by done. cbn [obind].
  assert (shift 1 s = CharP (addr s + 1) t) as -> by (unfold shift; by rewrite Et).
  rewrite (proj2 (Z.eqb_neq mnt 0)) by done. cbn [obind text].
  destruct l as [|q l _] using rev_ind.
  - assert (x = r) as -> by (by apply (below_nil (dv v) hs)).
    cbn in Ht. rewrite Et in Ht. injection Ht as ->. cbn [head of_option obind]. exists (set_dv (held r dr (dv v)) vm), (dv v), dr.
    split; [done|]. split; [done|]. split; [done|]. split; [constructor|done].
  - destruct (Hmem ltac:(by destruct l)) as [Ek Hbuf]. clear Hmem.
    assert (text s = SLASH :: (seg l ++ contents q) ++ 0 :: rest) as Et'.
    { rewrite Ht. assert (path_text (l ++ [q]) = components (l ++ [q])) as -> by (unfold path_text; by destruct l).
      unfold components. rewrite bind_app. fold (components l). cbn [mbind list_bind app]. rewrite app_nil_r, <-app_assoc. cbn [app].
      rewrite (components_seg l). by rewrite <-app_assoc. }
    rewrite Et in Et'. injection Et' as ->.
    pose proof (below_names _ _ _ _ _ HB) as HN. rewrite Forall_app, Forall_singleton in HN. destruct HN as [HNl HNq].
    destruct (seg_length l HNl) as [Hlen H0]. assert (0 ∉ seg l ++ contents q) as H0' by (rewrite elem_of_app; intros [?|?]; [done|by apply (gn_nul _ HNq)]).
    assert (contents q ≠ []) as Hqne by apply HNq.
    assert (path_text (l ++ [q]) = SLASH :: seg l ++ contents q) as Ept by (apply (app_inv_tail (0 :: rest)); rewrite <-Ht, Et; done).
    rewrite Ept in Ek, Hmax. set (n := length (seg l ++ contents q)) in *. cbn [length] in Ek, Hmax. fold n in Ek, Hmax.
    assert (∃ c, head ((seg l ++ contents q) ++ 0 :: rest) = Some c ∧ c ≠ 0) as (c & -> & Hc).
    { destruct (seg l ++ contents q) as [|c k] eqn:E; [by apply app_eq_nil in E as [_ E]|]. exists c. split; [done|]. by apply not_elem_of_cons in H0' as [? _]. }
    cbn [of_option obind]. rewrite (proj2 (Z.eqb_neq c 0)), strlen_nul by done. cbn [obind]. fold n.
    unfold malloc. change (heap (mhm (set_dv (held r dr (dv v)) vm))) with (heap_of (dv v)). rewrite u64_small by lia.
    replace (Z.of_nat n + 1) with (Z.of_nat (S n)) by lia. rewrite Ek. rewrite (proj2 (Z.eqb_neq buf 0)) by lia.
    change (set_mhm _ (set_dv (held r dr (dv v)) vm)) with (set_dv (held r dr (set_heap a (dv v))) vm).
    rewrite Nat2Z.id. unfold n at 2. rewrite take_app_length.
    destruct (heap_keep (dv v) F hs r x (l ++ [q]) (Z.of_nat (S n)) buf a ltac:(lia) Ek HD HB) as [HD1 HB1].
    destruct (below_last _ _ _ _ _ _ HB1) as (p & d & HBp & HC).
    assert (∃ fuel, n = (length l + S fuel)%nat) as [fuel Hf].
    { exists (n - length l - 1)%nat. unfold n. rewrite length_app. destruct (contents q); [done|]. cbn. lia. }
    rewrite Hf, <-app_assoc.
    destruct (walk_down vm (set_heap a (dv v)) F hs r p l mnt flags HBp HD1 Hfl dr (S fuel) buf (contents q ++ [0]) Hur Hbuf) as (w' & dp & Hv & Hup & ->).
    destruct (visited_keep _ w' F hs r p l Hv HD1 HBp) as [HD' _].
    destruct (visited_child _ _ _ _ _ _ _ Hv HC) as (d' & HC').
    destruct (loop_child vm w' F hs p dp x q d' (buf + Z.of_nat (length (seg l))) [] fuel mnt flags HD' Hup HC') as [_ ->]; [lia|done|].
    cbn [obind]. exists (release buf (set_dv (held x (mark w' d') (seen x d' w')) vm)), (seen x d' w'), (mark w' d').
    split; [done|]. split; [done|]. split; [done|]. pose proof (ch_use _ _ _ _ _ _ HC') as (Hx0 & Hd' & Hr').
    split; [destruct (l ++ [q]) eqn:E; [by destruct l|by constructor]|].
    split; [done|]. split; [unfold seen; cbn; apply lookup_insert_eq|done].
Qed.

Lemma below_size w hs r x l : below w hs r x l → Z.of_nat (length (components l)) = path_size l.
Proof.
  intros H. induction H as [|p l x q d _ IH HC]; [done|]. rewrite path_size_snoc, <-IH. unfold components. rewrite bind_app, length_app. cbn.
  destruct (ch_named _ _ _ _ _ _ HC) as [_ (e & _ & _ & _ & Hok & _)].
  pose proof (contents_length q (qo_len _ _ Hok)). rewrite app_nil_r. lia.
Qed.

Lemma below_path w hs r x l dr :
  below w hs r x l → in_use w r dr → d_parent dr = r → ∃ ns, path_of (dentries w) (names w) x ns l.
Proof.
  intros H (Hr0 & Hdr & Hrr) Hp. induction H as [|p l x q d _ (ns & IH) HC]; [exists [r]; by apply (path_root _ _ r dr)|].
  destruct HC as [_ _ [_ (e & He & Hep & Hq & Hok & _)] (Hx0 & Hd & Hr) [_ Hpx] _ _ _]. rewrite He in Hd. injection Hd as ->.
  exists (x :: ns). apply (path_child _ _ x d q); [done|done|done|congruence|done|apply Hok|by rewrite Hep].
Qed.

(** C6. Printing a path and walking it are inverse: for a dentry [x] of which every
    ancestor up to the root of the mount is cached, positive and not called [.] or [..],
    walking the string that [dentry_allocFullPath] makes, from any dentry of that mount,
    succeeds and leads back to [x]. The walk ends, gains one reference to [x] and one to
    the mount, and drops every other reference it took on the way. *)
Theorem full_path_roundtrip v F hs r dr x l b db mnt m flags p a buf a' :
  dcache alg (dv v) F hs → below (dv v) hs r x l → in_use (dv v) r dr → d_parent dr = r → in_use (dv v) b db →
  mnt ≠ 0 → mounts v !! mnt = Some m → mnt_root m = r → has LOOKUP_AUTOMOUNT flags = false → path_size l + 1 < 2 ^ 31 →
  kmalloc (path_size l + 2) (heap_of (dv v)) = (p, a) → p ≠ 0 →
  (l ≠ [] → kmalloc (Z.of_nat (length (path_text l))) a = (buf, a') ∧ 0 < buf) →
  ∃ s w v', dentry_allocFullPath x (dv v) = Ok (s, w) ∧ text s = path_text l ++ [0] ∧
    vfs_pathwalk alg b mnt s flags (set_dv w v) = Ok (0, Some (Path mnt x), v') ∧
    mounts v' = <[mnt := set_mnt_refcount (s32 (mnt_refcount m + 1)) m]> (mounts v) ∧
    ∀ y d, dentries (dv v) !! y = Some d → ∃ d', dentries (dv v') !! y = Some d' ∧
      d_refcount d' = d_refcount d + (if decide (y = x) then 1 else 0) ∧
      d_inode d' = d_inode d ∧ d_name d' = d_name d ∧ d_parent d' = d_parent d.
Proof.
  intros HD HB Hur Hpr Hub Hm0 Hm Hr Hfl Hmax Ek Hp Hmem. destruct (below_path _ _ _ _ _ _ HB Hur Hpr) as (ns & HP).
  pose proof (path_size_pos _ _ _ _ _ HP) as Hps. exists (CharP p (path_text l ++ [0])), (set_heap a (dv v)).
  rewrite (full_path_ok x ns l (dv v) p a HP Hmax Ek), (proj2 (Z.eqb_neq p 0)) by done.
  destruct (heap_keep (dv v) F hs r x l (path_size l + 2) p a ltac:(lia) Ek HD HB) as [HD1 HB1].
  assert (Z.of_nat (length (path_text l)) < 2 ^ 31) as Hlen.
  { pose proof (below_size _ _ _ _ _ HB). unfold path_text. destruct l; [done|lia]. }
  destruct (pathwalk_ok (set_dv (set_heap a (dv v)) v) F hs r x l b db mnt m (CharP p (path_text l ++ [0])) [] flags buf a' HD1 HB1 Hub Hm0 Hm Hr)
    as (v' & w & dx & E & Emnt & Ed & Hv & Hux); [unfold is_null; cbn; lia|done|done|done|done|].
  exists v'. split; [done|]. split; [done|]. split; [done|]. split; [done|]. intros y d Hd.
  assert (∃ d', dentries w !! y = Some d' ∧ d_refcount d' = d_refcount d ∧ d_inode d' = d_inode d ∧ d_name d' = d_name d ∧ d_parent d' = d_parent d)
    as (d' & Hd' & E1 & E2 & E3 & E4).
  { destruct l; [exact (visited_dentry _ w y d Hv Hd)|exact (visited_dentry _ w y d Hv Hd)]. }
  rewrite Ed. unfold held. cbn. destruct Hux as (_ & Hdx & _). case_decide as Hy.
  - subst y. rewrite Hd' in Hdx. injection Hdx as <-. eexists. rewrite lookup_insert_eq. split; [done|]. cbn. by rewrite E1.
  - exists d'. rewrite lookup_insert_ne by done. by rewrite E1, Z.add_0_r.
Qed.

(** ** Paths that lead nowhere *)

(** Components that are empty or a dot. *)
Inductive idle : list Z → Prop :=
| idle_nil : idle []
| idle_last : idle [DOT]
| idle_slash t : idle t → idle (SLASH :: t)
| idle_dot t : idle t → idle (DOT :: SLASH :: t).

Lemma idle_nul t : idle t → 0 ∉ t.
Proof.
  induction 1 as [| |t _ IH|t _ IH]; rewrite ?not_elem_of_cons; repeat split; try done; by intros ?%elem_of_nil.
Qed.

Lemma loop_idle t fuel a x mnt flags v :
  idle t → (length t ≤ fuel)%nat → walk_loop alg fuel (CharP a (t ++ [0])) x mnt flags v = Ok (At x mnt, v).
Proof.
  intros H. revert fuel a. assert ((SLASH ∉ ([] : list Z)) ∧ (SLASH ∉ [DOT]) ∧ (0 ∉ ([] : list Z)) ∧ (0 ∉ [DOT])) as (H1 & H2 & H3 & H4).
  { repeat split; rewrite ?not_elem_of_cons; repeat split; try done; by intros ?%elem_of_nil. }
  induction H as [| |t H IH|t H IH]; intros [|fuel] a Hf; cbn [length] in Hf; try lia; try done; cbn [walk_loop text app head of_option obind].
  - change (DOT =? 0) with false. cbv iota. pose proof (cut_end a [DOT] [] H2 H4) as E. cbn [app] in E. rewrite E. cbn. by destruct fuel.
  - change (SLASH =? 0) with false. cbv iota. pose proof (cut_slash a [] (t ++ [0]) H1 H3) as E. cbn [app] in E. rewrite E. cbn. apply IH. lia.
  - change (DOT =? 0) with false. cbv iota. pose proof (cut_slash a [DOT] (t ++ [0]) H2 H4) as E. cbn [app] in E. rewrite E. cbn. apply IH. lia.
Qed.

(** A relative path whose components are all empty or a dot is the starting
    directory: the walk succeeds, ends where it began and leaves one reference to the
    dentry and to the mount. *)
Theorem pathwalk_idle v b db mnt m s t rest flags buf a :
  in_use (dv v) b db → mnt ≠ 0 → mounts v !! mnt = Some m → is_null s = false →
  text s = t ++ 0 :: rest → idle t → head t ≠ Some SLASH → Z.of_nat (length t) < 2 ^ 31 →
  kmalloc (Z.of_nat (length t) + 1) (heap_of (dv v)) = (buf, a) → buf ≠ 0 →
  ∃ v', vfs_pathwalk alg b mnt s flags v = Ok (0, Some (Path mnt b), v') ∧
    dentries (dv v') = dentries (held b db (dv v)) ∧
    mounts v' = <[mnt := set_mnt_refcount (s32 (mnt_refcount m + 1)) m]> (mounts v).
Proof.
  intros (Hb0 & Hdb & Hrb) Hm0 Hm Hs Ht Hi Hsl Hlen Ek Hbuf. set (m' := set_mnt_refcount (s32 (mnt_refcount m + 1)) m). set (vm := put_mount mnt m' v).
  unfold vfs_pathwalk. rewrite (proj2 (Z.eqb_neq b 0)), Hs by done. cbn [orb].
  unfold on_dv at 1. rewrite (ref_held b db) by done. cbn [obind]. unfold mount_ref, upd_mount, get_mount.
  rewrite (proj2 (Z.eqb_neq mnt 0)) by done. change (mounts (set_dv _ v)) with (mounts v). rewrite Hm. cbn [of_option obind].
  change (put_mount mnt _ (set_dv ?w v)) with (set_dv w vm).
  assert (∃ c, head (text s) = Some c ∧ c ≠ SLASH ∧ (c = 0 ↔ t = [])) as (c & Hc & Hcs & Hc0).
  { rewrite Ht. pose proof (idle_nul t Hi) as H0. destruct t as [|c t]; [by exists 0|]. exists c. split; [done|]. split; [by intros ->|].
    split; [intros ->; by apply not_elem_of_cons in H0 as [? _]|done]. }
  rewrite Hc. cbn [of_option obind]. rewrite (proj2 (Z.eqb_neq c SLASH)) by done. cbn [obind]. rewrite Hc. cbn [of_option obind].
  destruct (Z.eqb_spec c 0) as [->|Hne]; [by eexists|].
  rewrite Ht, strlen_nul by (by apply idle_nul). cbn [obind]. rewrite u64_small by lia.
  unfold malloc. change (heap (mhm (set_dv (held b db (dv v)) vm))) with (heap_of (dv v)). rewrite Ek, (proj2 (Z.eqb_neq buf 0)) by done.
  rewrite Nat2Z.id, take_app_length. rewrite loop_idle by done. cbn [obind]. eexists. split; [done|]. done.
Qed.

(** Opening for reading: [vfs_alloc_file] makes a file with one reference on the
    dentry and the mount of the path, at offset 0 or, when appending, at the size of the
    inode. It also overwrites the place the mount is attached to with the address of the
    inode, since [f_inode] is laid over that field of the mount. *)
Theorem alloc_file_moves_mount euid v p d i n m flags file a :
  p_dentry p ≠ 0 → p_mnt p ≠ 0 → dentries (dv v) !! p_dentry p = Some d → d_inode d = i → i ≠ 0 →
  inodes (iv (dv v)) !! i = Some n → i_op n ≠ 0 → mounts v !! p_mnt p = Some m →
  vfs_validate_flags flags = 0 → Z.land flags O_ACCMODE = O_RDONLY →
  kmalloc FILE_SIZE (heap_of (dv v)) = (file, a) → file ≠ 0 →
  ∃ v', vfs_alloc_file euid (Some p) flags v =
      Ok (file, Some (NewFile p (fmode_of flags) (if has O_APPEND flags then i_size n else 0) (u32 flags) 1), v') ∧
    dentries (dv v') !! p_dentry p = Some (set_d_refcount (s32 (d_refcount d + 1)) d) ∧
    mounts v' !! p_mnt p = Some (set_mnt_path (Path (p_mnt (mnt_path m)) i) (set_mnt_refcount (s32 (mnt_refcount m + 1)) m)).
Proof.
  intros Hd0 Hm0 Hd Hdi Hi0 Hn Hop Hm Hfl Hacc Ek Hf. unfold vfs_alloc_file.
  rewrite (proj2 (Z.eqb_neq _ 0) Hd0), (proj2 (Z.eqb_neq _ 0) Hm0). cbn [orb]. unfold get_dentry at 1. rewrite Hd. cbn [of_option obind].
  rewrite Hfl. change (negb (0 =? 0)) with false. cbv iota. unfold may_open. rewrite Hacc. change (O_RDONLY =? O_RDONLY) with true. cbn [orb obind].
  change (negb (0 =? 0)) with false. cbv iota. unfold malloc. change (heap (mhm v)) with (heap_of (dv v)). rewrite Ek.
  rewrite (proj2 (Z.eqb_neq file 0)) by done. unfold ref_path, on_dv at 1, dentry_ref, update, get_dentry.
  rewrite (proj2 (Z.eqb_neq _ 0) Hd0). change (dentries (dv (set_mhm ?h v))) with (dentries (dv v)). rewrite Hd. cbn [of_option obind].
  unfold mount_ref, upd_mount, get_mount. rewrite (proj2 (Z.eqb_neq _ 0) Hm0). change (mounts (set_dv ?w (set_mhm ?h v))) with (mounts v).
  rewrite Hm. cbn [of_option obind]. change (dentries (dv (put_mount _ _ (set_dv ?w _)))) with (dentries w).
  change (dentries (put_dentry ?x ?e ?w)) with (<[x := e]> (dentries w)). rewrite lookup_insert_eq. cbn [of_option obind].
  change (d_inode (set_d_refcount _ d)) with (d_inode d). rewrite Hdi, (proj2 (Z.eqb_neq i 0)) by done.
  unfold on_dv, on_inodes, inode_ref, get_inode. rewrite (proj2 (Z.eqb_neq i 0)) by done.
  change (inodes (iv (dv (put_mount _ _ (set_dv (put_dentry _ _ ?w) _))))) with (inodes (iv w)).
  change (inodes (iv (dv (set_mhm ?h v)))) with (inodes (iv (dv v))). rewrite Hn. cbn [of_option obind].
  unfold inode_isBad. rewrite (proj2 (Z.eqb_neq _ 0) Hop). cbn [obind]. unfold set_file_inode, file_inode, upd_mount, get_mount. cbn [p_mnt p_dentry].
  cbn [mounts put_mount set_mounts set_dv]. rewrite lookup_insert_eq. cbn [of_option obind]. cbn [mounts put_mount set_mounts set_dv].
  rewrite lookup_insert_eq. cbn [of_option obind p_dentry mnt_path set_mnt_path]. rewrite (proj2 (Z.eqb_neq i 0)) by done. cbn [negb andb].
  destruct (has O_APPEND flags).
  - cbn. rewrite lookup_insert_eq. cbn. eexists. split; [by destruct p|]. cbn. by rewrite !lookup_insert_eq.
  - cbn. eexists. split; [by destruct p|]. cbn. by rewrite !lookup_insert_eq.
Qed.
End Spec.

(** ** Witnesses

    The cache of [Dentry] after [etc] was looked up in the root directory and found to be a
    directory too, in a mount of the root at [ROOT_MNT]. *)

#[local] Existing Instances log_ops no_dentry_ops.
#[local] Instance no_node_ops : NodeOps Z (list Z) := {
  op_lookup _ := None;
  op_mkdir _ := None;
  op_mknod _ := None;
  op_rmdir _ := None;
  op_link _ := None;
}.

Definition dvfs1 : @dvfs Z (list Z) :=
  match dentry_acquire 0 ROOT (Some etc) (-1) false true dvfs0 with
  | Ok (_, v) =>
      match dentries v !! etc_dentry with
      | Some d => put_dentry etc_dentry (set_d_inode 4096 d) v
      | None => v
      end
  | _ => dvfs0
  end.

Definition CFS : Z := 512.

Definition mvfs1 : @mvfs Z (list Z) :=
  Mvfs dvfs1 {[ROOT_MNT := VfsMount ROOT (Path 0 0) 0 0 0 1 NULL]} (HT 0 0 0 0 0) 1
    {[CFS := FsStruct 1 (Path ROOT_MNT ROOT) (Path ROOT_MNT ROOT)]} ∅.

Lemma dvfs1_ok : ∃ F, dcache 0 dvfs1 F [etc_dentry] ∧ is_named 0 dvfs1 etc_dentry ROOT etc_copy.
Proof.
  destruct dvfs0_parent as [HP Hoff].
  destruct (acquire_new 0 dvfs0 (list_to_map dvfs0_lists) [] ROOT _ [] etc etc_dentry 16920 etc_copy 16920 16940
    dvfs0_ok HP Hoff ltac:(vm_compute; reflexivity) etc_name) as (_ & _ & l & v' & F' & Hl & E & C).
  - intros y q Hy. apply elem_of_nil in Hy. destruct Hy.
  - exact dvfs0_memory.
  - vm_compute. reflexivity.
  - assert (l = []) as ->.
    { rewrite dvfs0_bucket in Hl; [congruence|]. rewrite <-dvfs0_size. apply (didx_range 0 dvfs0 _ _ _ _ dvfs0_ok). }
    destruct (cr_dentry _ _ _ _ _ _ _ _ _ _ _ _ _ C) as (d & Hd & _). exists F'. unfold dvfs1. rewrite E, Hd. split.
    + apply (dcache_put 0 v' F' _ _ d); [apply (cr_cache _ _ _ _ _ _ _ _ _ _ _ _ _ C)|done|done|done].
    + apply (named_put 0 v' _ d); [done|done|done|]. exact (cr_named _ _ _ _ _ _ _ _ _ _ _ _ _ C).
Qed.

Definition etc_node : dentry := Dentry 1 16640 4096 16920 ROOT 0 0 0.

Lemma etc_below : below 0 dvfs1 [etc_dentry] ROOT etc_dentry [etc_copy].
Proof.
  destruct dvfs1_ok as (F & _ & Hn). apply (below_child 0 dvfs1 _ ROOT ROOT [] etc_dentry etc_copy etc_node).
  - apply (below_root _ _ _ _ (Dentry 2 0 4096 0 ROOT 0 0 0)). split; [done|]. split; [vm_compute; reflexivity|]. cbn. lia.
  - split; [vm_compute; reflexivity|by apply list_elem_of_singleton|exact Hn|split; [done|]; split; [vm_compute; reflexivity|cbn; lia]|done|done|done|].
    split; [| |done|vm_compute; reflexivity]; apply (bool_decide_unpack _); vm_compute; exact I.
Qed.

Lemma full_path_roundtrip_witness :
  ∃ s w v', dentry_allocFullPath etc_dentry (dv mvfs1) = Ok (s, w) ∧ text s = [47; 101; 116; 99; 0] ∧
    vfs_pathwalk 0 ROOT ROOT_MNT s LOOKUP_FOLLOW (set_dv w mvfs1) = Ok (0, Some (Path ROOT_MNT etc_dentry), v').
Proof.
  destruct dvfs1_ok as (F & HD & _).
  destruct (full_path_roundtrip 0 mvfs1 F [etc_dentry] ROOT (Dentry 2 0 4096 0 ROOT 0 0 0) etc_dentry [etc_copy] ROOT (Dentry 2 0 4096 0 ROOT 0 0 0)
    ROOT_MNT (VfsMount ROOT (Path 0 0) 0 0 0 1 NULL) LOOKUP_FOLLOW 16940 16946 16946 16950 HD etc_below) as (s & w & v' & E1 & E2 & E3 & _).
  - split; [done|]. split; [vm_compute; reflexivity|]. cbn. lia.
  - reflexivity.
  - split; [done|]. split; [vm_compute; reflexivity|]. cbn. lia.
  - done.
  - vm_compute. reflexivity.
  - reflexivity.
  - reflexivity.
  - cbn. lia.
  - vm_compute. reflexivity.
  - done.
  - intros _. split; [vm_compute; reflexivity|lia].
  - exists s, w, v'. split; [exact E1|]. split; [rewrite E2; reflexivity|exact E3].
Defined.

Lemma pathwalk_idle_witness :
  ∃ v', vfs_pathwalk 0 etc_dentry ROOT_MNT (CharP 700 [46; 47; 47; 46; 0]) 0 mvfs1 = Ok (0, Some (Path ROOT_MNT etc_dentry), v').
Proof.
  destruct (pathwalk_idle 0 mvfs1 etc_dentry etc_node ROOT_MNT (VfsMount ROOT (Path 0 0) 0 0 0 1 NULL) (CharP 700 [46; 47; 47; 46; 0])
    [46; 47; 47; 46] [] 0 16940 16945) as (v' & E & _).
  - split; [done|]. split; [vm_compute; reflexivity|]. cbn. lia.
  - done.
  - vm_compute. reflexivity.
  - reflexivity.
  - reflexivity.
  - apply idle_dot, idle_slash, idle_last.
  - done.
  - cbn. lia.
  - vm_compute. reflexivity.
  - done.
  - exists v'. exact E.
Defined.

Lemma alloc_file_moves_mount_witness :
  ∃ v', vfs_alloc_file 1000 (Some (Path ROOT_MNT etc_dentry)) O_RDONLY mvfs1 =
      Ok (16940, Some (NewFile (Path ROOT_MNT etc_dentry) FMODE_READ 0 0 1), v') ∧
    mounts v' !! ROOT_MNT = Some (VfsMount ROOT (Path 0 4096) 0 0 0 2 NULL).
Proof.
  destruct (alloc_file_moves_mount 1000 mvfs1 (Path ROOT_MNT etc_dentry) etc_node 4096 (Inode 16877 0 0 0 1 0 2 1 1 0 0 0)
    (VfsMount ROOT (Path 0 0) 0 0 0 1 NULL) O_RDONLY 16940 17012) as (v' & E & _ & Hm);
    [done|done|vm_compute; reflexivity|reflexivity|done|vm_compute; reflexivity|done|vm_compute; reflexivity|reflexivity|reflexivity|vm_compute; reflexivity|done|].
  exists v'. split; [exact E|exact Hm].
Defined.

(** ** Two results that are not what their callers expect *)

(** The parent directory of [/etc] is reported to be [/etc] itself: the whole string is
    walked, because [kstrndup] ignores its limit. *)
Lemma parent_of_etc :
  match resolve_path_parent 0 CFS (CharP 700 [47; 101; 116; 99; 0]) mvfs1 with
  | Ok (pos, p, _) => (pos, p)
  | _ => (0, None)
  end = (1, Some (Path ROOT_MNT etc_dentry)).
Proof. vm_compute. reflexivity. Qed.

(** Looking [/etc] up and dropping the result costs the root directory and its mount a
    reference each. *)
Definition lookup_and_drop (v : @mvfs Z (list Z)) : outcome (@mvfs Z (list Z)) :=
  let! (_, p, _, v) := filename_lookup 0 CFS AT_FDCWD (CharP 700 [47; 101; 116; 99; 0]) 0 true (λ _, None) false v in
  let! p := of_option p in
  let! (_, v) := path_destroy p v in
  Ok v.

Definition root_counts (v : @mvfs Z (list Z)) : option Z * option Z :=
  (d_refcount <$> dentries (dv v) !! ROOT, mnt_refcount <$> mounts v !! ROOT_MNT).

Lemma lookup_loses_reference :
  let v := put_mount ROOT_MNT (VfsMount ROOT (Path 0 0) 0 0 0 3 NULL) mvfs1 in
  root_counts v = (Some 2, Some 3) ∧ ∃ v', lookup_and_drop v = Ok v' ∧ root_counts v' = (Some 1, Some 2).
Proof.
  intros v. split; [vm_compute; reflexivity|]. destruct (lookup_and_drop v) as [v'| | |] eqn:E; [|vm_compute in E; discriminate..].
  exists v'. split; [done|]. apply (f_equal (λ o, match o with Ok x => root_counts x | _ => (None, None) end)) in E.
  rewrite <-E. vm_compute. reflexivity.
Qed.
