(* ===== verification/Buffer.v ===== *)
(** * Block devices and the buffer cache ([kernel/device/block_device.c],
      [kernel/device/buffer_head.c], part of [kernel/device/device.c])

    Devices and buffers live in maps from addresses to records, the bytes of a block in a
    map from the address of its data; list members are cells of the memory of the hash
    tables. The operations of a device driver are the interface [BlockOps]; calling one
    that is missing is a fault. Spinlocks are left out, the lock bit of a buffer is not.

    A buffer has one list node, [b_lru], for its bucket and for the LRU list. Its key is
    made by [buffer_get_key] in one static structure, so a key pointer is modelled as in
    [Dentry]: by the node the structure was last filled from, or [LOCAL_KEY]. *)

From stdpp Require Import base gmap list.
From S2P Require Import Prelude ListHead KString Hashtable Inode.
Local Open Scope Z_scope.
Local Open Scope kernel_scope.

Definition BH_Uptodate : Z := 0.
Definition BH_Dirty : Z := 1.
Definition BH_Lock : Z := 2.
Definition BH_Mapped : Z := 4.
Definition BH_New : Z := 5.

Definition READ : Z := 0.
Definition O_ACCMODE : Z := 2097155.

Record block_device := BlockDevice {
  bd_dev : Z;
  bd_openers : Z;
  bd_block_size : Z;
  bd_refcnt : Z;
  bd_mode : Z;
  bd_ops : Z;
}.

Record buffer_head := BufferHead {
  b_bdev : Z;
  b_blocknr : Z;
  b_size : Z;
  b_state : Z;
  b_count : Z;
  b_data : Z;
}.

Definition BD_LIST : Z := 32.
Definition BDEV_SIZE : Z := 96.
Definition B_LRU : Z := 56.
Definition BUFFER_SIZE : Z := 136.

Definition MINORBITS : Z := 20.
Definition MAJOR (dev : Z) : Z := u32 (Z.shiftr dev MINORBITS).
Definition MINOR (dev : Z) : Z := u32 (Z.land dev (2 ^ MINORBITS - 1)).
Definition MKDEV (major minor : Z) : Z := u64 (Z.lor (Z.shiftl major MINORBITS) minor).
Definition RAMDISK_MAJOR : Z := 1.

Definition set_b_state (s : Z) (b : buffer_head) : buffer_head :=
  BufferHead (b_bdev b) (b_blocknr b) (b_size b) s (b_count b) (b_data b).
Definition set_b_count (n : Z) (b : buffer_head) : buffer_head :=
  BufferHead (b_bdev b) (b_blocknr b) (b_size b) (b_state b) n (b_data b).

(** [test_bit], [set_bit] and [clear_bit] on the state word. *)
Definition state_bit (nr : Z) (b : buffer_head) : bool := Z.testbit (b_state b) nr.
Definition set_state (nr : Z) (b : buffer_head) : buffer_head := set_b_state (Z.lor (b_state b) (Z.shiftl 1 nr)) b.
Definition clear_state (nr : Z) (b : buffer_head) : buffer_head :=
  set_b_state (Z.land (b_state b) (u64 (Z.lnot (Z.shiftl 1 nr)))) b.

(** A driver, by the address of its table: reading gives the result and the bytes. *)
Class BlockOps (W : Type) : Type := {
  op_read : Z → option (Z → Z → Z → W → Z * list Z * W);
  op_write : Z → option (Z → list Z → Z → Z → W → Z * W);
  op_open : Z → option (Z → Z → W → Z * W);
  op_release : Z → option (Z → W → W);
}.

Section Buffer.
Context {A : Type} {KM : KMalloc A} {W : Type} {BO : BlockOps W}.

(** The addresses of the two global list heads, and what memory that holds no buffer
    looks like when it is read as one. *)
Context (block_device_list bh_lru_list : Z) (stray : Z → Z * Z * Z).

Record bvfs := Bvfs {
  bdevs : gmap Z block_device;
  bufs : gmap Z buffer_head;
  blocks : gmap Z (list Z);
  bhm : @hmem A;
  btab : hashtable;
  disk : W;
}.

Definition set_bdevs (x : gmap Z block_device) (v : bvfs) : bvfs := Bvfs x (bufs v) (blocks v) (bhm v) (btab v) (disk v).
Definition set_bufs (x : gmap Z buffer_head) (v : bvfs) : bvfs := Bvfs (bdevs v) x (blocks v) (bhm v) (btab v) (disk v).
Definition set_blocks (x : gmap Z (list Z)) (v : bvfs) : bvfs := Bvfs (bdevs v) (bufs v) x (bhm v) (btab v) (disk v).
Definition set_bhm (x : @hmem A) (v : bvfs) : bvfs := Bvfs (bdevs v) (bufs v) (blocks v) x (btab v) (disk v).
Definition set_btab (x : hashtable) (v : bvfs) : bvfs := Bvfs (bdevs v) (bufs v) (blocks v) (bhm v) x (disk v).
Definition set_disk (x : W) (v : bvfs) : bvfs := Bvfs (bdevs v) (bufs v) (blocks v) (bhm v) (btab v) x.

Definition on_nodes (f : store → outcome store) (v : bvfs) : outcome bvfs :=
  let! c := f (cells (bhm v)) in Ok (set_bhm (set_cells c (bhm v)) v).
Definition balloc (n : Z) (v : bvfs) : Z * bvfs :=
  let m := bhm v in let (p, a) := kmalloc n (heap m) in (p, set_bhm (HMem (cells m) (statics m) a) v).
Definition bfree (p : Z) (v : bvfs) : bvfs :=
  let m := bhm v in set_bhm (HMem (cells m) (statics m) (kfree p (heap m))) v.

Definition get_bdev (x : Z) (v : bvfs) : outcome block_device := of_option (bdevs v !! x).
Definition put_bdev (x : Z) (d : block_device) (v : bvfs) : bvfs := set_bdevs (<[x := d]> (bdevs v)) v.
Definition get_buf (x : Z) (v : bvfs) : outcome buffer_head := of_option (bufs v !! x).
Definition put_buf (x : Z) (b : buffer_head) (v : bvfs) : bvfs := set_bufs (<[x := b]> (bufs v)) v.
Definition upd_buf (x : Z) (f : buffer_head → buffer_head) (v : bvfs) : outcome bvfs :=
  let! b := get_buf x v in Ok (put_buf x (f b) v).

(** ** Block devices *)

Definition alloc_block_device (v : bvfs) : outcome (Z * bvfs) :=
  let (x, v) := balloc BDEV_SIZE v in
  if x =? 0 then Ok (0, v)
  else
    let v := put_bdev x (BlockDevice 0 0 0 1 0 0) v in
    let v := set_bhm (set_cells (<[x + BD_LIST := ListHead 0 0]> (cells (bhm v))) (bhm v)) v in
    let! v := on_nodes (INIT_LIST_HEAD (x + BD_LIST)) v in
    Ok (x, v).

Definition free_block_device (x : Z) (v : bvfs) : bvfs :=
  if x =? 0 then v
  else
    let v := set_bhm (set_cells (delete (x + BD_LIST) (cells (bhm v))) (bhm v)) v in
    bfree x (set_bdevs (delete x (bdevs v)) v).

Fixpoint find_bdev (fuel : nat) (dev pos : Z) (v : bvfs) : outcome Z :=
  if pos =? block_device_list then Ok 0
  else
    let! d := get_bdev (pos - BD_LIST) v in
    if bd_dev d =? dev then Ok (pos - BD_LIST)
    else
      match fuel with
      | O => Timeout
      | S fuel =>
          let! pos := get_next pos (cells (bhm v)) in
          find_bdev fuel dev pos v
      end.

Definition set_bd_refcnt (n : Z) (d : block_device) : block_device :=
  BlockDevice (bd_dev d) (bd_openers d) (bd_block_size d) n (bd_mode d) (bd_ops d).

Definition blockdevice_lookup (dev : Z) (v : bvfs) : outcome (Z * bvfs) :=
  let! pos := get_next block_device_list (cells (bhm v)) in
  let! x := find_bdev (size (cells (bhm v))) dev pos v in
  if x =? 0 then Ok (0, v)
  else
    let! d := get_bdev x v in
    Ok (x, put_bdev x (set_bd_refcnt (s32 (bd_refcnt d + 1)) d) v).

Definition blockdevice_unref (x : Z) (v : bvfs) : outcome bvfs :=
  if x =? 0 then Ok v
  else
    let! d := get_bdev x v in
    let d := set_bd_refcnt (s32 (bd_refcnt d - 1)) d in
    let v := put_bdev x d v in
    if bd_refcnt d =? 0 then
      let! v := on_nodes (list_del (x + BD_LIST)) v in
      Ok (free_block_device x v)
    else Ok v.

Definition blockdevice_open (x mode : Z) (v : bvfs) : outcome (Z * bvfs) :=
  let access_mode := Z.land mode O_ACCMODE in
  if x =? 0 then Ok (- EINVAL, v)
  else
    let! d := get_bdev x v in
    let (res, v) :=
      match hook op_open (bd_ops d) with
      | Some f => let (r, w) := f x access_mode (disk v) in (r, set_disk w v)
      | None => (0, v)
      end in
    if res =? 0 then
      Ok (res, put_bdev x (BlockDevice (bd_dev d) (s32 (bd_openers d + 1)) (bd_block_size d) (bd_refcnt d)
                             (Z.lor (bd_mode d) access_mode) (bd_ops d)) v)
    else Ok (res, v).

Definition blockdevice_close (x : Z) (v : bvfs) : outcome bvfs :=
  if x =? 0 then Ok v
  else
    let! d := get_bdev x v in
    if 0 <? bd_openers d then
      let n := bd_openers d - 1 in
      if n =? 0 then
        let v := match hook op_release (bd_ops d) with Some f => set_disk (f x (disk v)) v | None => v end in
        Ok (put_bdev x (BlockDevice (bd_dev d) n (bd_block_size d) (bd_refcnt d) 0 (bd_ops d)) v)
      else Ok (put_bdev x (BlockDevice (bd_dev d) n (bd_block_size d) (bd_refcnt d) (bd_mode d) (bd_ops d)) v)
    else Ok v.

(** [ramdisk_ops] is the address of the table of that name. *)
Definition __register_platform_devices (ramdisk_ops : Z) (v : bvfs) : outcome bvfs :=
  let! (x, v) := alloc_block_device v in
  if x =? 0 then Ok v
  else
    let! d := get_bdev x v in
    let v := put_bdev x (BlockDevice (MKDEV RAMDISK_MAJOR 0) (bd_openers d) 512 (bd_refcnt d) (bd_mode d) ramdisk_ops) v in
    on_nodes (list_add (x + BD_LIST) block_device_list) v.

(** ** Keys of buffers *)

Definition buffer_key (b : buffer_head) : Z * Z * Z := (b_bdev b, b_blocknr b, b_size b).

Definition buffer_hash_func (key : Z * Z * Z) : Z :=
  let '(bdev, block, size) := key in
  let hash := u32 bdev in
  let hash := u32 (hash * 37 + u32 block) in
  u32 (hash * 37 + u32 size).

Definition buffer_key_equals (k1 k2 : Z * Z * Z) : bool := bool_decide (k1 = k2).

Definition buffer_get_key (node : Z) : Z := node.

(** What a key pointer leads to. *)
Definition bkey (local : Z * Z * Z) (v : bvfs) (k : Z) : Z * Z * Z :=
  if k =? LOCAL_KEY then local
  else match bufs v !! (k - B_LRU) with Some b => buffer_key b | None => stray k end.

Definition bhash (local : Z * Z * Z) (v : bvfs) (k : Z) : Z := buffer_hash_func (bkey local v k).

(** Two keys from [buffer_get_key] are the same static structure. *)
Definition bequal (local : Z * Z * Z) (v : bvfs) (k1 k2 : Z) : bool :=
  if k2 =? LOCAL_KEY then buffer_key_equals (bkey local v k1) (bkey local v k2) else true.

(** ** The buffer cache *)

Definition alloc_buffer_head (v : bvfs) : outcome (Z * bvfs) :=
  let (x, v) := balloc BUFFER_SIZE v in
  if x =? 0 then Ok (0, v)
  else
    let v := put_buf x (BufferHead 0 0 0 0 0 0) v in
    let v := set_bhm (set_cells (<[x + B_LRU := ListHead 0 0]> (cells (bhm v))) (bhm v)) v in
    let! v := on_nodes (INIT_LIST_HEAD (x + B_LRU)) v in
    Ok (x, v).

Definition free_buffer_head (x : Z) (v : bvfs) : outcome bvfs :=
  if x =? 0 then Ok v
  else
    let! b := get_buf x v in
    let v := if b_data b =? 0 then v else bfree (b_data b) (set_blocks (delete (b_data b) (blocks v)) v) in
    let v := set_bhm (set_cells (delete (x + B_LRU) (cells (bhm v))) (bhm v)) v in
    Ok (bfree x (set_bufs (delete x (bufs v)) v)).

(** The part of [getblk] that finds a cached buffer: it moves to the end of the LRU list. *)
Definition reuse_buffer (x : Z) (v : bvfs) : outcome bvfs :=
  let! v := upd_buf x (λ b, set_b_count (s32 (b_count b + 1)) b) v in
  let! e := list_empty (x + B_LRU) (cells (bhm v)) in
  if e then Ok v
  else
    let! v := on_nodes (list_del (x + B_LRU)) v in
    on_nodes (list_add_tail (x + B_LRU) bh_lru_list) v.

(** The end of [getblk]: the new buffer is entered in the table and the LRU list. *)
Definition enter_buffer (x data : Z) (v : bvfs) : outcome (Z * bvfs) :=
  let local := (0, 0, 0) in
  let! (r, t, m) := hashtable_insert (bhash local v) buffer_get_key (bequal local v) (Some (btab v)) (x + B_LRU) (bhm v) in
  let v := set_btab (default (btab v) t) (set_bhm m v) in
  if negb (r =? 0) then
    let v := bfree data v in
    let! v := free_buffer_head x v in
    Ok (0, v)
  else
    let! v := on_nodes (list_add_tail (x + B_LRU) bh_lru_list) v in
    Ok (x, v).

(** The contents of the new block are whatever the memory held. *)
Definition new_buffer (bdev block size : Z) (garbage : list Z) (v : bvfs) : outcome (Z * bvfs) :=
  let! (x, v) := alloc_buffer_head v in
  if x =? 0 then Ok (0, v)
  else
    let! v := upd_buf x (λ b, BufferHead bdev block size (b_state b) (b_count b) (b_data b)) v in
    let (data, v) := balloc size v in
    let! v := upd_buf x (λ b, BufferHead bdev block size (b_state b) (b_count b) data) v in
    if data =? 0 then
      let! v := free_buffer_head x v in Ok (0, v)
    else
      let v := set_blocks (<[data := garbage]> (blocks v)) v in
      let! v := upd_buf x (λ b, set_state BH_Mapped (set_state BH_New (set_b_count 1 b))) v in
      enter_buffer x data v.

Definition getblk (bdev block size : Z) (garbage : list Z) (v : bvfs) : outcome (Z * bvfs) :=
  let key := (bdev, block, size) in
  let! node := hashtable_lookup (bhash key v) buffer_get_key (bequal key v) (Some (btab v)) LOCAL_KEY (bhm v) in
  if negb (node =? 0) then
    let! v := reuse_buffer (node - B_LRU) v in
    Ok (node - B_LRU, v)
  else new_buffer bdev block size garbage v.

Definition lock_buffer (x : Z) (v : bvfs) : outcome bvfs := upd_buf x (set_state BH_Lock) v.
Definition unlock_buffer (x : Z) (v : bvfs) : outcome bvfs := upd_buf x (clear_state BH_Lock) v.

Definition mark_buffer_dirty (x : Z) (v : bvfs) : outcome bvfs :=
  if x =? 0 then Ok v else upd_buf x (set_state BH_Dirty) v.

(** [bdev->bd_ops->read_blocks(bdev, bh->b_data, block, 1)] *)
Definition read_block (x bdev block : Z) (v : bvfs) : outcome (Z * bvfs) :=
  let! d := get_bdev bdev v in
  let! f := of_option (hook op_read (bd_ops d)) in
  let! b := get_buf x v in
  let '(r, bytes, w) := f bdev block 1 (disk v) in
  Ok (r, set_disk w (set_blocks (<[b_data b := bytes]> (blocks v)) v)).

(** [bh->b_bdev->bd_ops->write_blocks(bh->b_bdev, bh->b_data, bh->b_blocknr, 1)] *)
Definition write_block (x : Z) (v : bvfs) : outcome (Z * bvfs) :=
  let! b := get_buf x v in
  let! d := get_bdev (b_bdev b) v in
  let! f := of_option (hook op_write (bd_ops d)) in
  let! bytes := of_option (blocks v !! b_data b) in
  let (r, w) := f (b_bdev b) bytes (b_blocknr b) 1 (disk v) in
  Ok (r, set_disk w v).

Definition sync_dirty_buffer (x : Z) (v : bvfs) : outcome (Z * bvfs) :=
  let! b := get_buf x v in
  if negb (state_bit BH_Dirty b) then Ok (0, v)
  else
    let! v := lock_buffer x v in
    let! b := get_buf x v in
    let! (ret, v) :=
      (if state_bit BH_Dirty b then
         let! (ret, v) := write_block x v in
         if ret =? 0 then let! v := upd_buf x (clear_state BH_Dirty) v in Ok (ret, v) else Ok (ret, v)
       else Ok (0, v)) in
    let! v := unlock_buffer x v in
    Ok (ret, v).

Definition brelse (x : Z) (v : bvfs) : outcome bvfs :=
  if x =? 0 then Ok v
  else
    let! b := get_buf x v in
    let b := set_b_count (s32 (b_count b - 1)) b in
    let v := put_buf x b v in
    if (b_count b =? 0) && state_bit BH_Dirty b then
      let! (_, v) := sync_dirty_buffer x v in Ok v
    else Ok v.

Definition bread (bdev block size : Z) (garbage : list Z) (v : bvfs) : outcome (Z * bvfs) :=
  let! (x, v) := getblk bdev block size garbage v in
  if x =? 0 then Ok (0, v)
  else
    let! b := get_buf x v in
    if state_bit BH_Uptodate b then Ok (x, v)
    else
      let! v := lock_buffer x v in
      let! b := get_buf x v in
      if state_bit BH_Uptodate b then
        let! v := unlock_buffer x v in Ok (x, v)
      else
        let! (r, v) := read_block x bdev block v in
        if negb (r =? 0) then
          let! v := unlock_buffer x v in
          let! v := brelse x v in
          Ok (0, v)
        else
          let! v := upd_buf x (set_state BH_Uptodate) v in
          let! v := unlock_buffer x v in
          Ok (x, v).

Definition rw_one (rw x : Z) (v : bvfs) : outcome bvfs :=
  if x =? 0 then Ok v
  else
    let! b := get_buf x v in
    if rw =? READ then
      if negb (state_bit BH_Uptodate b) then
        let! v := lock_buffer x v in
        let! (_, v) := read_block x (b_bdev b) (b_blocknr b) v in
        let! v := upd_buf x (set_state BH_Uptodate) v in
        unlock_buffer x v
      else Ok v
    else if state_bit BH_Dirty b then
      let! v := lock_buffer x v in
      let! (_, v) := write_block x v in
      let! v := upd_buf x (clear_state BH_Dirty) v in
      unlock_buffer x v
    else Ok v.

(** [bhs] are the first [nr] elements of the array. *)
Fixpoint ll_rw_block (rw : Z) (bhs : list Z) (v : bvfs) : outcome bvfs :=
  match bhs with
  | [] => Ok v
  | x :: bhs => let! v := rw_one rw x v in ll_rw_block rw bhs v
  end.

Definition buffer_init (v : bvfs) : outcome bvfs :=
  let! (ret, t, m) := hashtable_setup (Some (btab v)) 1024 80 (bhm v) in
  let v := set_btab (default (btab v) t) (set_bhm m v) in
  if negb (ret =? 0) then Panic else on_nodes (INIT_LIST_HEAD bh_lru_list) v.

Fixpoint sync_lru (fuel : nat) (bdev pos ret : Z) (v : bvfs) : outcome (Z * bvfs) :=
  if pos =? bh_lru_list then Ok (ret, v)
  else
    match fuel with
    | O => Timeout
    | S fuel =>
        let x := pos - B_LRU in
        let! b := get_buf x v in
        let! (ret, v) :=
          (if (b_bdev b =? bdev) && state_bit BH_Dirty b then
             let! (err, v) := sync_dirty_buffer x v in
             Ok (if negb (err =? 0) && (ret =? 0) then err else ret, v)
           else Ok (ret, v)) in
        let! pos := get_next pos (cells (bhm v)) in
        sync_lru fuel bdev pos ret v
    end.

Definition sync_dirty_buffers (bdev : Z) (v : bvfs) : outcome (Z * bvfs) :=
  let! pos := get_next bh_lru_list (cells (bhm v)) in
  sync_lru (size (cells (bhm v))) bdev pos 0 v.
End Buffer.

Arguments enter_buffer : simpl never.

Section Spec.
Context {A : Type} {KM : KMalloc A} {KS : KMallocSpec A} {W : Type} {BO : BlockOps W}.
Context (bh_lru_list : Z) (stray : Z → Z * Z * Z).
Implicit Types (v : @bvfs A W) (l : list Z).
Local Abbreviation lru := bh_lru_list.

(** ** The cache *)

Definition lru_nodes l : list Z := (λ x, x + B_LRU) <$> l.

Definition bidx v (key : Z * Z * Z) : Z := Z.land (buffer_hash_func key) (u32 (ht_size (btab v) - 1)).

(** Buffer [x] holds the block of [key]. *)
Definition caches v (x : Z) (key : Z * Z * Z) : Prop := ∃ b, bufs v !! x = Some b ∧ buffer_key b = key.

(** What a bucket holds: its head leads to itself, or to the one buffer of the bucket,
    whose own links belong to the LRU list. *)
Definition bucket_ok v l (i : Z) : Prop :=
  let p := bucket (buckets (btab v)) i in
  cells (bhm v) !! p = Some (ListHead p p) ∧ (∀ x key, x ∈ l → caches v x key → bidx v key ≠ i) ∨
  ∃ x key, x ∈ l ∧ caches v x key ∧ bidx v key = i ∧ cells (bhm v) !! p = Some (ListHead (x + B_LRU) (x + B_LRU)) ∧
    ∀ y k, y ∈ l → caches v y k → bidx v k = i → y = x.

(** The buffers [l] are cached, in LRU order; the heap owns every list node. *)
Record bcache v l : Prop := {
  bc_lru : dll (cells (bhm v)) lru (lru_nodes l);
  bc_size : ∃ k, 4 ≤ k ≤ 25 ∧ ht_size (btab v) = 2 ^ k;
  bc_load : 50 ≤ max_load (btab v) ≤ 90;
  bc_items : items (btab v) = Z.of_nat (length l) ∧ items (btab v) < 2 ^ 31 - 2;
  bc_buf x : x ∈ l → 0 < x ∧ ∃ key, caches v x key;
  bc_bucket i : 0 ≤ i < ht_size (btab v) → bucket_ok v l i;
  bc_off i : 0 ≤ i < ht_size (btab v) → bucket (buckets (btab v)) i ∉ lru :: lru_nodes l;
  bc_heap p : p ∈ lru :: lru_nodes l ∨ (∃ i, 0 ≤ i < ht_size (btab v) ∧ p = bucket (buckets (btab v)) i) →
    ∃ q n, km_block (heap (bhm v)) q n ∧ q ≤ p < q + n;
}.

Lemma bidx_range v l key : bcache v l → 0 ≤ bidx v key < ht_size (btab v).
Proof.
  intros H. destruct (bc_size _ _ H) as (k & Hk & E). unfold bidx. rewrite E.
  assert (2 ^ k ≤ 2 ^ 31) by (apply Z.pow_le_mono_r; lia). rewrite u32_small by lia.
  replace (2 ^ k - 1) with (Z.ones k) by (rewrite Z.ones_equiv; lia). rewrite Z.land_ones by lia. apply Z.mod_pos_bound. lia.
Qed.

Lemma bkey_buf local v x key : 0 < x → caches v x key → bkey stray local v (x + B_LRU) = key.
Proof.
  intros Hx (b & Hb & <-). unfold bkey, LOCAL_KEY. rewrite (proj2 (Z.eqb_neq _ _)) by (unfold B_LRU; lia).
  replace (x + B_LRU - B_LRU) with x by lia. by rewrite Hb.
Qed.

Lemma head_fields (c : store) p n : nx c p = Some n → pv c p = Some n → c !! p = Some (ListHead n n).
Proof. unfold nx, pv. destruct (c !! p) as [[a b]|]; cbn; congruence. Qed.

Lemma member_next (c : store) head l1 e l2 : dll c head (l1 ++ e :: l2) → nx c e = Some (default head (hd_error l2)) ∧ default head (hd_error l2) ≠ e.
Proof.
  intros D. split.
  - destruct D as [_ Hl]. rewrite <-app_assoc, app_comm_cons in Hl. apply linked_app in Hl as [_ Hl]. unfold nx. destruct l2; apply Hl.
  - apply (dll_mid _ _ _ _ _ _ D). destruct l2 as [|y l2]; cbn; [by apply elem_of_cons; left|]. rewrite elem_of_cons, elem_of_app, elem_of_cons. tauto.
Qed.

(** A search of the table for a block. *)
Definition find_block (key : Z * Z * Z) v : outcome Z :=
  hashtable_lookup (bhash stray key v) buffer_get_key (bequal stray key v) (Some (btab v)) LOCAL_KEY (bhm v).

Lemma find_unfold key v :
  find_block key v = search_bucket buffer_get_key (bequal stray key v) LOCAL_KEY (bucket (buckets (btab v)) (bidx v key)) (cells (bhm v)).
Proof. reflexivity. Qed.

Lemma equal_local key v n : bequal stray key v n LOCAL_KEY = bool_decide (bkey stray key v n = key).
Proof. reflexivity. Qed.

Lemma find_hit v l x key : bcache v l → x ∈ l → caches v x key → find_block key v = Ok (x + B_LRU).
Proof.
  intros H Hx Hk. rewrite find_unfold. set (p := bucket _ _). pose proof (bidx_range v l key H) as Hr.
  destruct (bc_bucket _ _ H _ Hr) as [[_ Hno]|(y & k & Hy & Hky & Ek & Hc & Hu)]; [by destruct (Hno x key Hx Hk)|].
  fold p in Hc. assert (y = x) as -> by (symmetry; by apply (Hu x key)).
  unfold search_bucket. rewrite (get_next_ok p (x + B_LRU)) by (unfold nx; by rewrite Hc). cbn [obind].
  destruct (bc_buf _ _ H x Hx) as [Hx0 _].
  assert (0 < size (cells (bhm v)))%nat as Hsz.
  { apply Nat.neq_0_lt_0. intros E. apply map_size_empty_inv in E. rewrite E in Hc. by rewrite lookup_empty in Hc. }
  destruct (size (cells (bhm v))) as [|n]; [lia|]. cbn [find_key].
  assert (x + B_LRU ≠ p) as Hne.
  { intros E. apply (bc_off _ _ H _ Hr). fold p. rewrite <-E. apply elem_of_cons. right. apply list_elem_of_fmap. by exists x. }
  rewrite (proj2 (Z.eqb_neq _ p)) by done. unfold buffer_get_key. rewrite equal_local, (bkey_buf key v x key) by done.
  by rewrite bool_decide_eq_true_2.
Qed.

Lemma find_empty v l key :
  bcache v l → (∀ x k, x ∈ l → caches v x k → bidx v k ≠ bidx v key) → find_block key v = Ok 0.
Proof.
  intros H Hno. rewrite find_unfold. set (p := bucket _ _). pose proof (bidx_range v l key H) as Hr.
  destruct (bc_bucket _ _ H _ Hr) as [[Hc _]|(y & k & Hy & Hky & Ek & _)]; [|by destruct (Hno y k Hy Hky)].
  fold p in Hc. unfold search_bucket. rewrite (get_next_ok p p) by (unfold nx; by rewrite Hc). cbn [obind].
  destruct (size _); cbn; by rewrite Z.eqb_refl.
Qed.

(** From a node of the LRU list, or its head, the search goes round that list for ever. *)
Lemma round_and_round v l key p fuel pos :
  dll (cells (bhm v)) lru (lru_nodes l) → p ∉ lru :: lru_nodes l → pos ∈ lru :: lru_nodes l →
  (∀ n, n ∈ lru :: lru_nodes l → bkey stray key v n ≠ key) →
  find_key buffer_get_key (bequal stray key v) fuel LOCAL_KEY pos p (cells (bhm v)) = Timeout.
Proof.
  intros D Hp Hpos Hno. revert pos Hpos. induction fuel as [|fuel IH]; intros pos Hpos; cbn [find_key].
  - by rewrite (proj2 (Z.eqb_neq pos p)) by (by intros ->).
  - rewrite (proj2 (Z.eqb_neq pos p)) by (by intros ->). unfold buffer_get_key at 1. rewrite equal_local, bool_decide_eq_false_2 by (by apply Hno).
    assert (∃ n, nx (cells (bhm v)) pos = Some n ∧ n ∈ lru :: lru_nodes l) as (n & Hn & Hin).
    { apply elem_of_cons in Hpos as [->|Hpos].
      - eexists. split; [by apply dll_first|]. destruct (lru_nodes l); cbn; [by apply elem_of_cons; left|]. rewrite !elem_of_cons. tauto.
      - apply list_elem_of_split in Hpos as (l1 & l2 & E). rewrite E in D |- *. destruct (member_next _ _ _ _ _ D) as [Hn _].
        eexists. split; [exact Hn|]. destruct l2; cbn; rewrite elem_of_cons, elem_of_app, !elem_of_cons; tauto. }
    rewrite (get_next_ok _ _ _ Hn). cbn [obind]. by apply IH.
Qed.

(** A block that is not cached but falls into the bucket of one that is: the search
    leaves the bucket through the node of the cached buffer, whose links belong to the LRU
    list, and never ends, however many steps it is given (unless the memory around the head
    of that list happens to look like the block). *)
Theorem getblk_collision_hangs v l key x k fuel :
  bcache v l → x ∈ l → caches v x k → bidx v k = bidx v key → (∀ y, y ∈ l → ~ caches v y key) →
  bkey stray key v lru ≠ key →
  nx (cells (bhm v)) (bucket (buckets (btab v)) (bidx v key)) = Some (x + B_LRU) ∧
  find_key buffer_get_key (bequal stray key v) fuel LOCAL_KEY (x + B_LRU) (bucket (buckets (btab v)) (bidx v key)) (cells (bhm v)) = Timeout.
Proof.
  intros H Hx Hk Eb Hno Hs. pose proof (bidx_range v l key H) as Hr. split.
  - destruct (bc_bucket _ _ H _ Hr) as [[_ Hn]|(y & k' & Hy & Hky & Ek & Hc & Hu)]; [by destruct (Hn x k)|].
    rewrite (Hu x k Hx Hk Eb). unfold nx. by rewrite Hc.
  - apply (round_and_round v l key); [apply H|by apply (bc_off _ _ H)|apply elem_of_cons; right; apply list_elem_of_fmap; by exists x|].
    intros n [->|Hn]%elem_of_cons; [done|]. apply list_elem_of_fmap in Hn as (y & -> & Hy). destruct (bc_buf _ _ H y Hy) as [Hy0 (ky & Hky)].
    rewrite (bkey_buf key v y ky) by done. intros ->. by apply (Hno y).
Qed.

(** ** Getting a block *)

(** The cache in a later state, with its buffers in another order. *)
Lemma bcache_reorder v v' l l' :
  bcache v l → (∀ x, x ∈ l' ↔ x ∈ l) → length l' = length l → btab v' = btab v → heap (bhm v') = heap (bhm v) →
  (∀ x key, caches v' x key ↔ caches v x key) → dll (cells (bhm v')) lru (lru_nodes l') →
  (∀ p, p ∉ lru :: lru_nodes l → cells (bhm v') !! p = cells (bhm v) !! p) → bcache v' l'.
Proof.
  intros H Hl Hlen Et Eh Hc HD Hp.
  assert (∀ n, n ∈ lru :: lru_nodes l' ↔ n ∈ lru :: lru_nodes l) as Hn.
  { intros n. rewrite !elem_of_cons. unfold lru_nodes. rewrite !list_elem_of_fmap. split; (intros [?|(x & -> & Hx)]; [by left|right; exists x; split; [done|by apply Hl]]). }
  split; rewrite ?Et; try apply H; [done|rewrite Hlen; apply H| | | |].
  - intros x Hx. destruct (bc_buf _ _ H x (proj1 (Hl x) Hx)) as [H0 (k & Hk)]. split; [done|]. exists k. by apply Hc.
  - intros i Hi. unfold bucket_ok, bidx. rewrite Et, Hp by (by apply (bc_off _ _ H)). fold (bidx v).
    destruct (bc_bucket _ _ H i Hi) as [[E1 E2]|(x & k & Hx & Hk & Ek & E1 & E2)]; [left|right].
    + split; [done|]. intros x k Hx Hk. apply (E2 x k); [by apply Hl|by apply Hc].
    + exists x, k. split; [by apply Hl|]. split; [by apply Hc|]. split; [done|]. split; [done|]. intros y k' Hy Hk'. apply (E2 y k'); [by apply Hl|by apply Hc].
  - intros i Hi. rewrite Hn. by apply (bc_off _ _ H).
  - intros q Hq. rewrite Eh. apply (bc_heap _ _ H). destruct Hq as [Hq|Hq]; [left; by apply Hn|by right].
Qed.

Lemma caches_put v x b b' y key : bufs v !! x = Some b → buffer_key b' = buffer_key b → caches (put_buf x b' v) y key ↔ caches v y key.
Proof.
  intros Hb Ek. unfold caches. cbn. destruct (decide (x = y)) as [<-|Hne].
  - rewrite lookup_insert_eq, Hb. split; intros (c & [= <-] & <-); eexists; split; try done. 
  - by rewrite lookup_insert_ne.
Qed.

(** A cached block is found, gains a reference and becomes the most recently used. *)
Lemma getblk_hit v l1 x l2 b bdev block sz garbage :
  bcache v (l1 ++ x :: l2) → bufs v !! x = Some b → buffer_key b = (bdev, block, sz) →
  ∃ v', getblk lru stray bdev block sz garbage v = Ok (x, v') ∧ bcache v' ((l1 ++ l2) ++ [x]) ∧
    bufs v' = <[x := set_b_count (s32 (b_count b + 1)) b]> (bufs v) ∧ bdevs v' = bdevs v ∧ blocks v' = blocks v ∧ disk v' = disk v.
Proof.
  intros H Hb Ek. assert (x ∈ l1 ++ x :: l2) as Hx by (rewrite elem_of_app, elem_of_cons; tauto).
  unfold getblk. fold (find_block (bdev, block, sz) v). rewrite (find_hit v _ x (bdev, block, sz) H Hx) by (by exists b). cbn [obind].
  destruct (bc_buf _ _ H x Hx) as [Hx0 _]. rewrite (proj2 (Z.eqb_neq _ 0)) by (unfold B_LRU; lia). cbn [negb].
  replace (x + B_LRU - B_LRU) with x by lia. pose proof (bc_lru _ _ H) as D. unfold lru_nodes in D. rewrite fmap_app, fmap_cons in D.
  unfold reuse_buffer, upd_buf, get_buf. rewrite Hb. cbn [of_option obind].
  set (v1 := put_buf x (set_b_count (s32 (b_count b + 1)) b) v). change (cells (bhm v1)) with (cells (bhm v)).
  destruct (member_next _ _ _ _ _ D) as [Hn Hne]. unfold list_empty. rewrite (get_next_ok _ _ _ Hn). cbn [obind]. rewrite (proj2 (Z.eqb_neq _ _)) by done.
  destruct (list_del_spec _ _ _ _ _ D) as (c1 & E1 & D1 & Hc1 & Ho1).
  destruct (list_add_tail_spec c1 lru _ (x + B_LRU) D1) as (c2 & E2 & D2 & Ho2); [by intros Hin; apply (dll_mid _ _ _ _ _ _ D Hin)|by eexists|].
  unfold on_nodes at 1. change (cells (bhm v1)) with (cells (bhm v)). rewrite E1. cbn [obind]. unfold on_nodes.
  change (cells (bhm (set_bhm (set_cells c1 (bhm v1)) v1))) with c1. rewrite E2. cbn [obind].
  eexists. split; [done|]. split; [|done]. apply (bcache_reorder v _ (l1 ++ x :: l2)); [done|..]; cbn.
  - intros y. rewrite !elem_of_app, !elem_of_cons, elem_of_nil. tauto.
  - rewrite !length_app. cbn. lia.
  - done.
  - done.
  - intros y k. by apply (caches_put v x b).
  - unfold lru_nodes. rewrite !fmap_app. cbn. exact D2.
  - intros p Hp. unfold lru_nodes in Hp. rewrite fmap_app, fmap_cons in Hp. rewrite Ho2, Ho1; [done|done|].
    intros Hin. apply Hp. revert Hin. rewrite !elem_of_cons, !elem_of_app, !elem_of_cons. tauto.
Qed.

(** The buffer [getblk] makes. *)
Definition fresh_buffer (bdev block sz data : Z) : buffer_head := BufferHead bdev block sz 48 1 data.

(** The memory for it: both allocations succeed. *)
Definition buffer_memory v (sz x data : Z) (a a' : A) : Prop :=
  kmalloc BUFFER_SIZE (heap (bhm v)) = (x, a) ∧ 0 < x ∧ 0 < sz ∧ kmalloc sz a = (data, a') ∧ data ≠ 0.

(** The state before the new buffer is entered in the table. *)
Definition with_buffer v (bdev block sz x data : Z) (garbage : list Z) (a' : A) : @bvfs A W :=
  Bvfs (bdevs v) (<[x := fresh_buffer bdev block sz data]> (bufs v)) (<[data := garbage]> (blocks v))
    (HMem (<[x + B_LRU := ListHead (x + B_LRU) (x + B_LRU)]> (cells (bhm v))) (statics (bhm v)) a') (btab v) (disk v).

Lemma new_buffer_steps v bdev block sz x data a a' garbage :
  buffer_memory v sz x data a a' →
  new_buffer lru stray bdev block sz garbage v = enter_buffer lru stray x data (with_buffer v bdev block sz x data garbage a').
Proof.
  intros (Ek & Hx & Hsz & Ek' & Hd). unfold new_buffer, alloc_buffer_head, balloc. rewrite Ek, (proj2 (Z.eqb_neq x 0)) by lia.
  unfold on_nodes at 1, INIT_LIST_HEAD, set_next, set_prev. cbn. rewrite lookup_insert_eq. cbn. rewrite lookup_insert_eq. cbn.
  rewrite (proj2 (Z.eqb_neq x 0)) by lia. unfold upd_buf, get_buf. cbn. rewrite lookup_insert_eq. cbn. rewrite Ek'. cbn.
  rewrite lookup_insert_eq. cbn. rewrite (proj2 (Z.eqb_neq data 0)) by done. unfold get_buf. cbn. rewrite lookup_insert_eq. cbn.
  unfold set_bufs, set_blocks, put_buf, set_bhm. cbn. rewrite !insert_insert_eq. reflexivity.
Qed.

(** What holds of the new node: it is on no list, and memory holds it. *)
Lemma new_node_fresh v l x sz data a a' :
  bcache v l → buffer_memory v sz x data a a' →
  (x + B_LRU ∉ lru :: lru_nodes l) ∧ (∀ i, 0 ≤ i < ht_size (btab v) → bucket (buckets (btab v)) i ≠ x + B_LRU) ∧ (x ∉ l) ∧
  (∀ q n, km_block (heap (bhm v)) q n → km_block a' q n) ∧ km_block a' x BUFFER_SIZE.
Proof.
  intros H (Ek & Hx & Hsz & Ek' & Hd). destruct (kmalloc_block _ _ _ _ (ltac:(done) : 0 < BUFFER_SIZE) Ek) as [Hg1 Hb]. destruct (Hb ltac:(lia)) as [Hbx Hdis].
  destruct (kmalloc_block _ _ _ _ Hsz Ek') as [Hg2 _].
  assert (∀ p, (∃ q n, km_block (heap (bhm v)) q n ∧ q ≤ p < q + n) → p ≠ x + B_LRU) as Hne.
  { intros p (q & n & Hq & Hp) ->. pose proof (Hdis q n Hq). unfold BUFFER_SIZE, B_LRU in *. lia. }
  assert (x + B_LRU ∉ lru :: lru_nodes l) as H1 by (intros Hin; apply (Hne (x + B_LRU)); [apply (bc_heap _ _ H); by left|done]).
  split; [done|]. split; [|split; [|split; [auto|auto]]].
  - intros i Hi. apply Hne. apply (bc_heap _ _ H). right. by exists i.
  - intros Hin. apply H1. apply elem_of_cons. right. apply list_elem_of_fmap. by exists x.
Qed.

Lemma threshold_small v l : bcache v l → u32 (ht_size (btab v) * max_load (btab v)) / 100 = ht_size (btab v) * max_load (btab v) / 100.
Proof.
  intros H. destruct (bc_size _ _ H) as (k & Hk & E). pose proof (bc_load _ _ H) as Hl. rewrite E.
  assert (2 ^ k ≤ 2 ^ 25) by (apply Z.pow_le_mono_r; lia). assert (0 < 2 ^ k) by (apply Z.pow_pos_nonneg; lia). rewrite u32_small by nia. done.
Qed.

(** The cache with one more buffer, entered in an empty bucket. *)
Lemma bcache_enter v v' l x key :
  bcache v l → 0 < x → (x ∉ l) → (∀ i, 0 ≤ i < ht_size (btab v) → bucket (buckets (btab v)) i ≠ x + B_LRU) →
  (∀ y k, y ∈ l → caches v y k → bidx v k ≠ bidx v key) →
  caches v' x key → (∀ y k, y ≠ x → caches v' y k ↔ caches v y k) →
  btab v' = set_items (items (btab v) + 1) (btab v) → items (btab v) + 1 < 2 ^ 31 - 2 →
  dll (cells (bhm v')) lru (lru_nodes (l ++ [x])) →
  cells (bhm v') !! bucket (buckets (btab v)) (bidx v key) = Some (ListHead (x + B_LRU) (x + B_LRU)) →
  (∀ q, q ∉ lru :: lru_nodes l → q ≠ x + B_LRU → q ≠ bucket (buckets (btab v)) (bidx v key) → cells (bhm v') !! q = cells (bhm v) !! q) →
  (∀ q n, km_block (heap (bhm v)) q n → km_block (heap (bhm v')) q n) → km_block (heap (bhm v')) x BUFFER_SIZE →
  bcache v' (l ++ [x]).
Proof.
  intros H Hx Hnew Hb Hno Hk Hks Et Hit HD Hp Hc Hg Hgx. pose proof (bidx_range v l key H) as Hr.
  assert (∀ y k, y ∈ l → caches v' y k ↔ caches v y k) as Hold by (intros y k Hy; apply Hks; by intros ->).
  assert (∀ q, q ∈ lru :: lru_nodes (l ++ [x]) ↔ q ∈ lru :: lru_nodes l ∨ q = x + B_LRU) as Hin.
  { intros q. unfold lru_nodes. rewrite fmap_app, !elem_of_cons, elem_of_app. cbn. rewrite list_elem_of_singleton. tauto. }
  assert (∀ k, bidx v' k = bidx v k) as Ei by (intros k; unfold bidx; by rewrite Et).
  split; rewrite ?Et; cbn [ht_size buckets max_load items set_items]; try apply H.
  - done.
  - rewrite length_app. cbn. destruct (bc_items _ _ H). lia.
  - intros y. rewrite elem_of_app, list_elem_of_singleton. intros [Hy| ->]; [|split; [done|by exists key]].
    destruct (bc_buf _ _ H y Hy) as [H0 (k & Hyk)]. split; [done|]. exists k. by apply Hold.
  - intros i Hi. unfold bucket_ok. rewrite Et. cbn [buckets set_items]. destruct (decide (i = bidx v key)) as [->|Hne].
    + right. exists x, key. split; [rewrite elem_of_app, list_elem_of_singleton; tauto|]. split; [done|]. split; [done|]. split; [done|].
      intros y k. rewrite elem_of_app, list_elem_of_singleton, Ei. intros [Hy| ->] Hyk E; [|done]. apply (Hold y k Hy) in Hyk. by destruct (Hno y k Hy Hyk).
    + rewrite Hc; [|by apply (bc_off _ _ H)|by apply Hb|unfold bucket, BUCKET_SIZE; lia].
      assert (∀ k, caches v' x k → bidx v k ≠ i) as Hxi.
      { intros k (b & Hb1 & Hb2). destruct Hk as (b' & Hb1' & Hb2'). congruence. }
      destruct (bc_bucket _ _ H i Hi) as [[E1 E2]|(y & k & Hy & Hyk & Ek & E1 & E2)]; [left|right].
      * split; [done|]. intros y k. rewrite elem_of_app, list_elem_of_singleton, Ei. intros [Hy| ->] Hyk; [|by apply Hxi]. apply (E2 y k); [done|]. by apply Hold.
      * exists y, k. rewrite elem_of_app, Ei. split; [by left|]. split; [by apply Hold|]. split; [done|]. split; [done|].
        intros z k'. rewrite elem_of_app, list_elem_of_singleton, Ei. intros [Hz| ->] Hzk E; [|by destruct (Hxi k' Hzk)]. apply (E2 z k'); [done|by apply Hold|done].
  - intros i Hi. rewrite Hin. intros [Hi'|Hi']; [by apply (bc_off _ _ H i Hi)|by apply (Hb i Hi)].
  - intros q Hq. rewrite Hin in Hq.
    assert ((q ∈ lru :: lru_nodes l ∨ (∃ i, 0 ≤ i < ht_size (btab v) ∧ q = bucket (buckets (btab v)) i)) ∨ q = x + B_LRU) as [Hq'|E] by tauto.
    + destruct (bc_heap _ _ H q Hq') as (q' & n & Hqn & Hr'). exists q', n. auto.
    + exists x, BUFFER_SIZE. split; [done|]. rewrite E. unfold BUFFER_SIZE, B_LRU. lia.
Qed.

(** A block whose bucket is empty gets a new buffer, with one reference and not up to
    date, at the end of the LRU list. *)
Lemma getblk_new v l bdev block sz garbage x data a a' :
  bcache v l → (∀ y k, y ∈ l → caches v y k → bidx v k ≠ bidx v (bdev, block, sz)) → buffer_memory v sz x data a a' →
  items (btab v) < ht_size (btab v) * max_load (btab v) / 100 →
  ∃ v', getblk lru stray bdev block sz garbage v = Ok (x, v') ∧ bcache v' (l ++ [x]) ∧
    bufs v' = <[x := fresh_buffer bdev block sz data]> (bufs v) ∧ bdevs v' = bdevs v ∧ blocks v' = <[data := garbage]> (blocks v) ∧ disk v' = disk v.
Proof.
  intros H Hno Hm Hload. unfold getblk. fold (find_block (bdev, block, sz) v). rewrite (find_empty v l _ H Hno). cbn [obind].
  change (negb (0 =? 0)) with false. cbv iota. rewrite (new_buffer_steps v bdev block sz x data a a' garbage Hm). unfold enter_buffer. cbv zeta.
  destruct (new_node_fresh v l x sz data a a' H Hm) as (Hf1 & Hf2 & Hf3 & Hg & Hbx).
  set (v1 := with_buffer v bdev block sz x data garbage a'). remember (x + B_LRU) as n eqn:En. set (key := (bdev, block, sz)) in *.
  assert (0 < x) as Hx by apply Hm. pose proof (bidx_range v l key H) as Hr. set (i0 := bidx v key) in *. set (p := bucket (buckets (btab v)) i0).
  assert (cells (bhm v) !! p = Some (ListHead p p)) as Hp.
  { destruct (bc_bucket _ _ H _ Hr) as [[Hc _]|(y & k & Hy & Hky & Ek & _)]; [done|by destruct (Hno y k Hy Hky)]. }
  assert (p ∉ lru :: lru_nodes l) as Hoff by (by apply (bc_off _ _ H)). assert (p ≠ n) as Hpn by (by apply Hf2).
  assert (bkey stray (0, 0, 0) v1 n = key) as Hkey by (rewrite En; apply bkey_buf; [done|]; eexists; split; [apply lookup_insert_eq|done]).
  unfold hashtable_insert, hashtable_count. rewrite (proj2 (Z.eqb_neq n 0)) by (unfold B_LRU in *; lia). unfold buffer_get_key at 1.
  rewrite (proj2 (Z.eqb_neq n 0)) by (unfold B_LRU in *; lia). change (btab v1) with (btab v). rewrite (threshold_small v l H).
  pose proof (bc_items _ _ H) as [Hit Hmax]. rewrite (u32_small (items (btab v))) by lia. rewrite (proj2 (Z.leb_gt _ _)) by done. cbn [obind].
  change (0 <? 0) with false. cbv iota. unfold insert_into.
  change (bhash stray (0, 0, 0) v1 (buffer_get_key n)) with (buffer_hash_func (bkey stray (0, 0, 0) v1 n)). rewrite Hkey.
  change (Z.land (buffer_hash_func key) (u32 (ht_size (btab v) - 1))) with i0. fold p.
  assert (cells (bhm v1) !! p = Some (ListHead p p)) as Hp1 by (cbn; rewrite <-En; by rewrite lookup_insert_ne).
  unfold search_bucket. rewrite (get_next_ok p p) by (unfold nx; by rewrite Hp1). cbn [obind].
  assert (∀ fuel k, find_key buffer_get_key (bequal stray (0, 0, 0) v1) fuel k p p (cells (bhm v1)) = Ok 0) as -> by (intros [|?] ?; cbn; by rewrite Z.eqb_refl).
  cbn [obind]. change (negb (0 =? 0)) with false. cbv iota.
  destruct (list_add_spec (cells (bhm v1)) p [] n) as (c1 & E1 & D1 & Ho1); [apply dll_nil; [unfold nx|unfold pv]; by rewrite Hp1|by rewrite list_elem_of_singleton|cbn; rewrite <-En, lookup_insert_eq; by eexists|].
  rewrite E1. cbn [obind default from_option]. change (negb (0 =? 0)) with false. cbv iota.
  assert (dll c1 lru (lru_nodes l)) as D2.
  { apply (dll_frame [n; p] (cells (bhm v))); [|intros y Hy; rewrite !elem_of_cons, elem_of_nil; intros [->|[->|[]]]; done|apply H].
    intros q Hq. rewrite Ho1 by done. cbn. rewrite <-En, lookup_insert_ne; [done|]. intros Hqn. apply Hq. apply elem_of_cons. by left. }
  destruct (list_add_tail_spec c1 lru _ n D2 Hf1) as (c2 & E2 & D3 & Ho2).
  { apply (dll_nodes c1 p [n] n D1). rewrite !elem_of_cons. tauto. }
  unfold on_nodes. cbn [bhm set_btab set_bhm cells set_cells]. rewrite E2. cbn [obind]. eexists. split; [done|]. split; [|done].
  assert (∀ q, q ≠ n → q ∉ lru :: lru_nodes l → c2 !! q = c1 !! q) as Hc2 by (intros q Hqn Hql; apply Ho2; rewrite elem_of_cons; tauto).
  assert (∀ q, q ≠ n → q ≠ p → c1 !! q = cells (bhm v) !! q) as Hc1.
  { intros q Hqn Hqp. rewrite Ho1 by (rewrite !elem_of_cons, elem_of_nil; tauto). cbn. rewrite <-En. by rewrite lookup_insert_ne. }
  subst n. apply (bcache_enter v _ l x key); try done; cbn.
  - eexists. split; [apply lookup_insert_eq|done].
  - intros y k Hy. unfold caches. cbn. by rewrite lookup_insert_ne.
  - rewrite s32_small; [done|lia].
  - pose proof (bc_load _ _ H). destruct (bc_size _ _ H) as (k & Hk & E). assert (2 ^ k ≤ 2 ^ 25) by (apply Z.pow_le_mono_r; lia).
    assert (ht_size (btab v) * max_load (btab v) / 100 ≤ 2 ^ 25) by (apply Z.div_le_upper_bound; nia). lia.
  - unfold lru_nodes. by rewrite fmap_app.
  - fold p. rewrite Hc2 by done. apply head_fields; [by apply (dll_first c1 p [_])|by apply (dll_last c1 p [_])].
  - intros q Hq1 Hq2 Hq3. rewrite Hc2, Hc1 by done. done.
Qed.
(** ** Reading a block *)

(** Only the state word of a buffer changes, so the cache is the same. *)
Lemma bcache_bufs v v' l :
  bcache v l → btab v' = btab v → bhm v' = bhm v → (∀ x key, caches v' x key ↔ caches v x key) → bcache v' l.
Proof. intros H Et Eh Hc. apply (bcache_reorder v _ l); try done; [by rewrite Eh|rewrite Eh; apply H|by intros p _; rewrite Eh]. Qed.

(** What a buffer is after a successful read. *)
Definition read_buffer (b : buffer_head) : buffer_head := clear_state BH_Lock (set_state BH_Uptodate (set_state BH_Lock b)).

(** A block that is not cached is read from the device, once; the buffer is then in the
    cache and up to date. *)
Lemma bread_miss v l bdev block sz garbage x data a a' d f bytes w :
  bcache v l → (∀ y k, y ∈ l → caches v y k → bidx v k ≠ bidx v (bdev, block, sz)) → buffer_memory v sz x data a a' →
  items (btab v) < ht_size (btab v) * max_load (btab v) / 100 →
  bdevs v !! bdev = Some d → hook op_read (bd_ops d) = Some f → f bdev block 1 (disk v) = (0, bytes, w) →
  ∃ v', bread lru stray bdev block sz garbage v = Ok (x, v') ∧ bcache v' (l ++ [x]) ∧ disk v' = w ∧
    bufs v' = <[x := read_buffer (fresh_buffer bdev block sz data)]> (bufs v) ∧ bdevs v' = bdevs v ∧
    blocks v' = <[data := bytes]> (blocks v).
Proof.
  intros H Hno Hm Hl Hd Hf Er. destruct (getblk_new v l bdev block sz garbage x data a a' H Hno Hm Hl) as (v1 & E1 & H1 & B1 & D1 & K1 & W1).
  assert (0 < x) as Hx by apply Hm. unfold bread. rewrite E1. cbn [obind]. rewrite (proj2 (Z.eqb_neq x 0)) by lia.
  unfold get_buf, lock_buffer, unlock_buffer, upd_buf, get_buf. rewrite B1, lookup_insert_eq. cbn [of_option obind].
  change (state_bit BH_Uptodate (fresh_buffer bdev block sz data)) with false. cbv iota. cbn [bufs put_buf set_bufs]. rewrite lookup_insert_eq. cbn [of_option obind].
  change (state_bit BH_Uptodate (set_state BH_Lock (fresh_buffer bdev block sz data))) with false. cbv iota.
  unfold read_block, get_bdev, get_buf. cbn [bdevs bufs put_buf set_bufs]. rewrite D1, Hd. cbn [of_option obind]. rewrite Hf. cbn [of_option obind].
  rewrite lookup_insert_eq. cbn [of_option obind disk blocks put_buf set_bufs]. rewrite W1, Er. cbn [obind]. change (negb (0 =? 0)) with false. cbv iota.
  cbn [bufs set_disk set_blocks put_buf set_bufs]. rewrite lookup_insert_eq. cbn [of_option obind bufs put_buf set_bufs]. rewrite lookup_insert_eq. cbn [of_option obind].
  eexists. split; [reflexivity|]. cbn. rewrite D1, K1, B1, !insert_insert_eq. split; [|done].
  apply (bcache_bufs v1); try done. intros y k. unfold caches. cbn. rewrite B1. destruct (decide (x = y)) as [<-|Hne].
  - rewrite !lookup_insert_eq. split; intros (b & [= <-] & <-); by eexists.
  - by rewrite !lookup_insert_ne.
Qed.

(** A cached block that is up to date is not read again. *)
Lemma bread_hit v l1 x l2 b bdev block sz garbage :
  bcache v (l1 ++ x :: l2) → bufs v !! x = Some b → buffer_key b = (bdev, block, sz) → state_bit BH_Uptodate b = true →
  ∃ v', bread lru stray bdev block sz garbage v = Ok (x, v') ∧ bcache v' ((l1 ++ l2) ++ [x]) ∧
    bufs v' = <[x := set_b_count (s32 (b_count b + 1)) b]> (bufs v) ∧ bdevs v' = bdevs v ∧ blocks v' = blocks v ∧ disk v' = disk v.
Proof.
  intros H Hb Ek Hu. destruct (getblk_hit v l1 x l2 b bdev block sz garbage H Hb Ek) as (v1 & E1 & H1 & B1 & D1 & K1 & W1).
  assert (0 < x) as Hx by (apply (bc_buf _ _ H); rewrite elem_of_app, elem_of_cons; tauto).
  exists v1. split; [|done]. unfold bread. rewrite E1. cbn [obind]. rewrite (proj2 (Z.eqb_neq x 0)) by lia.
  unfold get_buf. rewrite B1, lookup_insert_eq. cbn [of_option obind]. by replace (state_bit BH_Uptodate _) with true.
Qed.

(** C32. Reading a block twice accesses the device once, provided that the bucket of the block
    is empty, the load of the table is below its threshold, memory is left and the driver
    succeeds: the first [bread] allocates a buffer and fills it with what the driver delivers, the
    second gives the same buffer with one more reference and neither touches the device
    nor the bytes; the cache stays well formed and the buffer is the most recently used.
    For an occupied bucket [getblk_collision_hangs] says what happens instead. *)
Theorem bread_twice v l bdev block sz garbage garbage' x data a a' d f bytes w :
  bcache v l → (∀ y k, y ∈ l → caches v y k → bidx v k ≠ bidx v (bdev, block, sz)) → buffer_memory v sz x data a a' →
  items (btab v) < ht_size (btab v) * max_load (btab v) / 100 →
  bdevs v !! bdev = Some d → hook op_read (bd_ops d) = Some f → f bdev block 1 (disk v) = (0, bytes, w) →
  ∃ v1 v2, bread lru stray bdev block sz garbage v = Ok (x, v1) ∧ bread lru stray bdev block sz garbage' v1 = Ok (x, v2) ∧
    bcache v2 (l ++ [x]) ∧ disk v1 = w ∧ disk v2 = w ∧ blocks v1 = blocks v2 ∧ blocks v2 !! data = Some bytes ∧
    bufs v2 !! x = Some (BufferHead bdev block sz 49 2 data).
Proof.
  intros H Hno Hm Hl Hd Hf Er. destruct (bread_miss v l bdev block sz garbage x data a a' d f bytes w H Hno Hm Hl Hd Hf Er) as (v1 & E1 & H1 & W1 & B1 & D1 & K1).
  destruct (bread_hit v1 l x [] _ bdev block sz garbage' H1 (eq_trans (f_equal (lookup x) B1) (lookup_insert_eq _ _ _))) as (v2 & E2 & H2 & B2 & D2 & K2 & W2); [done|done|].
  exists v1, v2. rewrite app_nil_r in H2. rewrite B2, W2, W1, K2, K1, !lookup_insert_eq. done.
Qed.
(** ** Writing the dirty blocks of a device *)

Section Sync.
Context (bdev : Z) (f : Z → list Z → Z → Z → W → Z * W).

(** The driver is asked to write a buffer; its dirty bit goes when that succeeds. *)
Definition flush_one (data : gmap Z (list Z)) (x : Z) (s : Z * gmap Z buffer_head * W) : Z * gmap Z buffer_head * W :=
  let '(ret, bs, w) := s in
  match bs !! x with
  | Some b =>
      if (b_bdev b =? bdev) && state_bit BH_Dirty b then
        let (r, w) := f bdev (default [] (data !! b_data b)) (b_blocknr b) 1 w in
        let b := set_state BH_Lock b in
        (if negb (r =? 0) && (ret =? 0) then r else ret,
         <[x := clear_state BH_Lock (if r =? 0 then clear_state BH_Dirty b else b)]> bs, w)
      else s
  | None => s
  end.

Definition flush (data : gmap Z (list Z)) (l : list Z) (s : Z * gmap Z buffer_head * W) : Z * gmap Z buffer_head * W :=
  foldl (λ s x, flush_one data x s) s l.

(** The state with what a flush leaves. *)
Definition flushed (s : Z * gmap Z buffer_head * W) v : Z * @bvfs A W := (s.1.1, set_disk s.2 (set_bufs s.1.2 v)).

Lemma state_locked b nr : nr ≠ BH_Lock → 0 ≤ nr → state_bit nr (set_state BH_Lock b) = state_bit nr b.
Proof.
  intros Hn H0. unfold state_bit, set_state. cbn [b_state set_b_state]. rewrite Z.lor_spec. change (Z.shiftl 1 BH_Lock) with (2 ^ 2). rewrite Z.pow2_bits_eqb by lia.
  rewrite (proj2 (Z.eqb_neq 2 nr)) by (unfold BH_Lock in Hn; lia). by rewrite orb_false_r.
Qed.

Lemma sync_dirty_buffer_flush v x b d ret :
  bufs v !! x = Some b → b_bdev b = bdev → state_bit BH_Dirty b = true → is_Some (blocks v !! b_data b) →
  bdevs v !! bdev = Some d → hook op_write (bd_ops d) = Some f →
  ∃ err w, sync_dirty_buffer x v = Ok (err, set_disk w (set_bufs (flush_one (blocks v) x (ret, bufs v, disk v)).1.2 v)) ∧
    (flush_one (blocks v) x (ret, bufs v, disk v)).1.1 = (if negb (err =? 0) && (ret =? 0) then err else ret) ∧
    (flush_one (blocks v) x (ret, bufs v, disk v)).2 = w.
Proof.
  intros Hb Eb Hdirty [bytes Hbytes] Hd Hf. unfold sync_dirty_buffer, lock_buffer, unlock_buffer, upd_buf, get_buf. rewrite Hb. cbn [of_option obind]. rewrite Hdirty. cbn [negb].
  cbn [bufs put_buf set_bufs]. rewrite lookup_insert_eq. cbn [of_option obind]. rewrite state_locked, Hdirty by done.
  unfold write_block, get_buf, get_bdev. cbn [bufs put_buf set_bufs bdevs blocks disk]. rewrite lookup_insert_eq. cbn [of_option obind].
  change (b_bdev (set_state BH_Lock b)) with (b_bdev b). change (b_data (set_state BH_Lock b)) with (b_data b). change (b_blocknr (set_state BH_Lock b)) with (b_blocknr b).
  rewrite Eb, Hd. cbn [of_option obind]. rewrite Hf. cbn [of_option obind]. rewrite Hbytes. cbn [of_option obind].
  unfold flush_one. rewrite Hb, Eb, Z.eqb_refl, Hdirty, Hbytes. cbn [andb default from_option id].
  destruct (f bdev bytes (b_blocknr b) 1 (disk v)) as [r w] eqn:Ef. cbn [obind]. exists r, w.
  destruct (r =? 0); cbn [obind bufs put_buf set_bufs set_disk]; rewrite lookup_insert_eq; cbn [of_option obind bufs put_buf set_bufs]; [rewrite lookup_insert_eq; cbn [of_option obind]|];
    (split; [|done]); unfold put_buf, set_bufs, set_disk; cbn; by rewrite !insert_insert_eq.
Qed.
(** A flush changes nothing of a buffer but its state, and touches only the given one. *)
Lemma flush_one_at data x y s b :
  s.1.2 !! y = Some b →
  ∃ b', (flush_one data x s).1.2 !! y = Some b' ∧ buffer_key b' = buffer_key b ∧ b_data b' = b_data b ∧ b_count b' = b_count b ∧ (x ≠ y → b' = b).
Proof.
  destruct s as [[ret bs] w]. cbn. intros Hb. destruct (decide (x = y)) as [<-|Hne].
  - rewrite Hb. destruct (_ && _); [|cbn; eauto 10]. destruct (f _ _ _ _ _) as [r w']. cbn. rewrite lookup_insert_eq. eexists. split; [done|]. by destruct (r =? 0).
  - destruct (bs !! x) as [c|]; [|cbn; eauto 10]. destruct (_ && _); [|cbn; eauto 10]. destruct (f _ _ _ _ _) as [r w']. cbn. rewrite lookup_insert_ne by done. eauto 10.
Qed.

Lemma sync_lru_flush d l2 : ∀ l1 fuel ret v,
  dll (cells (bhm v)) lru (lru_nodes (l1 ++ l2)) → (∀ x, x ∈ l2 → ∃ b, bufs v !! x = Some b ∧ is_Some (blocks v !! b_data b)) →
  bdevs v !! bdev = Some d → hook op_write (bd_ops d) = Some f → (length l2 ≤ fuel)%nat →
  sync_lru lru fuel bdev (default lru (hd_error (lru_nodes l2))) ret v = Ok (flushed (flush (blocks v) l2 (ret, bufs v, disk v)) v).
Proof.
  induction l2 as [|x l2 IH]; intros l1 fuel ret v D Hb Hd Hf Hfuel.
  - cbn. destruct fuel; cbn; rewrite Z.eqb_refl; unfold flushed; by destruct v.
  - destruct fuel as [|fuel]; [cbn in Hfuel; lia|]. unfold lru_nodes in D. rewrite fmap_app, fmap_cons in D. cbn [lru_nodes fmap list_fmap hd_error default from_option id sync_lru].
    rewrite (proj2 (Z.eqb_neq _ lru)) by (intros E; apply (dll_mid _ _ _ _ _ lru D); [apply elem_of_cons; by left|done]).
    replace (x + B_LRU - B_LRU) with x by lia. destruct (Hb x) as (b & Hbx & Hbd); [by apply elem_of_cons; left|].
    unfold get_buf. rewrite Hbx. cbn [of_option obind]. set (s := flush_one (blocks v) x (ret, bufs v, disk v)).
    assert ((if (b_bdev b =? bdev) && state_bit BH_Dirty b
             then let! (err, v0) := sync_dirty_buffer x v in Ok (if negb (err =? 0) && (ret =? 0) then err else ret, v0)
             else Ok (ret, v)) = Ok (flushed s v)) as ->.
    { destruct ((b_bdev b =? bdev) && state_bit BH_Dirty b) eqn:Ed.
      - apply andb_true_iff in Ed as [Ed1%Z.eqb_eq Ed2]. destruct (sync_dirty_buffer_flush v x b d ret) as (err & w & E1 & E2 & E3); try done.
        rewrite E1. cbn [obind]. unfold flushed. by rewrite <-E2, <-E3.
      - unfold s, flush_one, flushed. rewrite Hbx, Ed. cbn. by destruct v. }
    cbn [obind flushed]. cbn [bhm set_disk set_bufs]. destruct (member_next _ _ _ _ _ D) as [Hn _]. rewrite (get_next_ok _ _ _ Hn). cbn [obind].
    change (flush (blocks v) (x :: l2) (ret, bufs v, disk v)) with (flush (blocks v) l2 s).
    specialize (IH (l1 ++ [x]) fuel s.1.1 (set_disk s.2 (set_bufs s.1.2 v))). cbn [bhm set_disk set_bufs blocks bufs disk bdevs] in IH. fold (lru_nodes l2). rewrite IH; try done.
    + by destruct s as [[? ?] ?].
    + unfold lru_nodes. by rewrite <-app_assoc, fmap_app.
    + intros y Hy. destruct (Hb y) as (c & Hc & Hcd); [by apply elem_of_cons; right|].
      destruct (flush_one_at (blocks v) x y (ret, bufs v, disk v) c Hc) as (c' & Hc' & _ & Ed & _). exists c'. by rewrite Ed.
    + cbn in Hfuel. lia.
Qed.

(** Buffer [x], when it is one of the device, is clean. *)
Definition clean (s : Z * gmap Z buffer_head * W) (x : Z) : Prop :=
  ∀ b, s.1.2 !! x = Some b → b_bdev b = bdev → state_bit BH_Dirty b = false.

Lemma cleared_clean b : state_bit BH_Dirty (clear_state BH_Lock (clear_state BH_Dirty b)) = false.
Proof.
  unfold state_bit, clear_state, BH_Dirty, BH_Lock. cbn [b_state set_b_state]. rewrite !Z.land_spec.
  change (Z.testbit (u64 (Z.lnot (Z.shiftl 1 1))) 1) with false. by rewrite andb_false_r.
Qed.

Lemma flush_one_clean data x s : (flush_one data x s).1.1 = 0 → s.1.1 = 0 ∧ clean (flush_one data x s) x ∧ ∀ y, clean s y → clean (flush_one data x s) y.
Proof.
  destruct s as [[ret bs] w]. unfold clean, flush_one. cbn [fst snd]. destruct (bs !! x) as [b|] eqn:Hb; [|cbn [fst snd]; rewrite Hb; naive_solver].
  destruct ((b_bdev b =? bdev) && state_bit BH_Dirty b) eqn:Ed; cbn [fst snd].
  - destruct (f _ _ _ _ _) as [r w']. cbn [fst snd]. intros Hr. assert (ret = 0 ∧ r = 0) as [-> ->].
    { revert Hr. destruct (Z.eqb_spec r 0), (Z.eqb_spec ret 0); done. }
    cbn. split; [done|]. rewrite lookup_insert_eq. split; [intros ? [= <-] _; apply cleared_clean|].
    intros y Hy c. destruct (decide (x = y)) as [<-|Hne]; [rewrite lookup_insert_eq; intros [= <-] _; apply cleared_clean|].
    rewrite lookup_insert_ne by done. apply Hy.
  - intros ->. split; [done|]. rewrite Hb. split; [|done]. intros ? [= <-] E. rewrite E, Z.eqb_refl in Ed. done.
Qed.

Lemma flush_clean data l : ∀ s, (flush data l s).1.1 = 0 →
  s.1.1 = 0 ∧ (∀ x, x ∈ l → clean (flush data l s) x) ∧ ∀ y, clean s y → clean (flush data l s) y.
Proof.
  induction l as [|x l IH]; intros s; cbn.
  - intros E. split; [done|]. split; [|done]. intros x Hx. by apply elem_of_nil in Hx.
  - intros E. destruct (IH _ E) as (E1 & Hl & Hp). destruct (flush_one_clean data x s E1) as (E0 & Hx & Hy).
    split; [done|]. split; [|auto]. intros y [->|Hin]%elem_of_cons; auto.
Qed.

(** C33. [sync_dirty_buffers] ends, and does what a flush of the buffers in LRU order
    does: the driver gets exactly the dirty buffers of the device, the dirty bits of those
    it wrote are cleared, the first error is the result, lists and table are untouched;
    and when the result is 0 no cached buffer of the device is dirty. *)
Theorem sync_dirty_buffers_flush v l d :
  bcache v l → (∀ x b, x ∈ l → bufs v !! x = Some b → is_Some (blocks v !! b_data b)) →
  bdevs v !! bdev = Some d → hook op_write (bd_ops d) = Some f →
  sync_dirty_buffers lru bdev v = Ok (flushed (flush (blocks v) l (0, bufs v, disk v)) v) ∧
  ((flush (blocks v) l (0, bufs v, disk v)).1.1 = 0 → ∀ x, x ∈ l → clean (flush (blocks v) l (0, bufs v, disk v)) x).
Proof.
  intros H Hb Hd Hf. split; [|intros E; by apply flush_clean]. pose proof (bc_lru _ _ H) as D. unfold sync_dirty_buffers.
  rewrite (get_next_ok _ _ _ (dll_first _ _ _ D)). cbn [obind]. apply (sync_lru_flush d l []); try done.
  - intros x Hx. destruct (bc_buf _ _ H x Hx) as (_ & k & b & Hbx & _). exists b. eauto.
  - pose proof (dll_length _ _ _ D) as Hl. unfold lru_nodes in Hl. by rewrite length_fmap in Hl.
Qed.
End Sync.
End Spec.

(** ** Concrete states *)

(** A driver that delivers 0xAA bytes and logs what it is asked to do. *)
#[local] Instance log_ops : BlockOps (list (Z * Z)) := {
  op_read t := if t =? 1 then Some (λ _ block _ w, (0, [170], w ++ [(0, block)])) else None;
  op_write t := if t =? 1 then Some (λ _ bytes block _ w, (0, w ++ [(1, block)])) else None;
  op_open _ := None;
  op_release _ := None;
}.

#[local] Instance list_head_dec : EqDecision list_head.
Proof. solve_decision. Defined.

Definition LRU : Z := 512.
Definition bhead (p : Z) : Z * list_head := (p, ListHead p p).
Definition blank (k : Z) : Z * Z * Z := (0, 0, 0).

Definition bvfs0 : @bvfs Z (list (Z * Z)) :=
  Bvfs {[ 600 := BlockDevice (MKDEV 1 0) 0 512 1 0 1 ]} ∅ ∅
    (HMem (list_to_map (bhead LRU :: (bhead ∘ bucket 1024 <$> seqZ 0 16))) (Expansion 0 0 0 0) 4096) (HT 16 0 80 0 1024) [].

Lemma bvfs0_cache : bcache LRU bvfs0 [].
Proof.
  split.
  - apply dll_nil; by vm_compute.
  - exists 4. by vm_compute.
  - by vm_compute.
  - by vm_compute.
  - intros x Hx. by apply elem_of_nil in Hx.
  - intros i Hi. left. split; [|intros x k Hx; by apply elem_of_nil in Hx].
    assert (Forall (λ i, cells (bhm bvfs0) !! bucket (buckets (btab bvfs0)) i = Some (ListHead (bucket (buckets (btab bvfs0)) i) (bucket (buckets (btab bvfs0)) i))) (seqZ 0 16)) as HF
      by (apply (bool_decide_unpack _); vm_compute; exact I).
    rewrite Forall_forall in HF. apply HF. apply elem_of_seqZ. exact Hi.
  - intros i Hi. cbn in *. rewrite list_elem_of_singleton. unfold bucket, BUCKET_SIZE, LRU. lia.
  - intros p Hp. exists p, 1. cbn in *. rewrite list_elem_of_singleton in Hp. unfold bucket, BUCKET_SIZE, LRU in Hp. destruct Hp as [->|(i & Hi & ->)]; lia.
Qed.

(** Block 7 read into the empty cache. *)
Definition bread7 : Z * @bvfs Z (list (Z * Z)) :=
  match bread LRU blank 600 7 512 [] bvfs0 with Ok r => r | _ => (0, bvfs0) end.

Lemma bread7_cache : bcache LRU bread7.2 [4096].
Proof.
  destruct (bread_miss LRU blank bvfs0 [] 600 7 512 [] 4096 4232 4232 4744 (BlockDevice (MKDEV 1 0) 0 512 1 0 1) (λ _ block _ w, (0, [170], w ++ [(0, block)])) [170] [(0, 7)] bvfs0_cache)
    as (v' & E & H & _); [intros y k Hy; by apply elem_of_nil in Hy|by vm_compute|by vm_compute|by vm_compute|reflexivity|reflexivity|].
  unfold bread7. by rewrite E.
Qed.

Lemma bread_twice_witness : ∃ v1 v2,
  bread LRU blank 600 7 512 [] bvfs0 = Ok (4096, v1) ∧ bread LRU blank 600 7 512 [] v1 = Ok (4096, v2) ∧
  bcache LRU v2 [4096] ∧ disk v1 = [(0, 7)] ∧ disk v2 = [(0, 7)] ∧ blocks v1 = blocks v2 ∧ blocks v2 !! 4232 = Some [170] ∧
  bufs v2 !! 4096 = Some (BufferHead 600 7 512 49 2 4232).
Proof.
  apply (bread_twice LRU blank bvfs0 [] 600 7 512 [] [] 4096 4232 4232 4744 (BlockDevice (MKDEV 1 0) 0 512 1 0 1) (λ _ block _ w, (0, [170], w ++ [(0, block)])) [170] [(0, 7)]).
  - exact bvfs0_cache.
  - intros y k Hy. by apply elem_of_nil in Hy.
  - by vm_compute.
  - by vm_compute.
  - by vm_compute.
  - reflexivity.
  - reflexivity.
Defined.

Lemma getblk_collision_hangs_witness :
  find_key buffer_get_key (bequal blank (600, 23, 512) bread7.2) 1000 LOCAL_KEY (4096 + B_LRU)
    (bucket (buckets (btab bread7.2)) (bidx bread7.2 (600, 23, 512))) (cells (bhm bread7.2)) = Timeout.
Proof.
  apply (getblk_collision_hangs LRU blank bread7.2 [4096] (600, 23, 512) 4096 (600, 7, 512)).
  - exact bread7_cache.
  - by apply elem_of_cons; left.
  - eexists. split; by vm_compute.
  - by vm_compute.
  - intros y Hy (b & Hb & Ek). apply list_elem_of_singleton in Hy as ->. vm_compute in Hb. injection Hb as <-. discriminate Ek.
  - by vm_compute.
Defined.

(** The same block, changed. *)
Definition dirty7 : @bvfs Z (list (Z * Z)) :=
  match mark_buffer_dirty 4096 bread7.2 with Ok v => v | _ => bvfs0 end.

Lemma dirty7_cache : bcache LRU dirty7 [4096].
Proof.
  assert (dirty7 = put_buf 4096 (BufferHead 600 7 512 51 1 4232) bread7.2) as -> by (vm_compute; reflexivity).
  assert (bufs bread7.2 !! 4096 = Some (BufferHead 600 7 512 49 1 4232)) as Hb by (vm_compute; reflexivity).
  generalize bread7_cache, Hb. generalize bread7.2. intros v H Hv. apply (bcache_bufs LRU v); [done..|].
  intros x key. by apply (caches_put v 4096 (BufferHead 600 7 512 49 1 4232)).
Qed.

Lemma dirty7_data x b : x ∈ [4096] → bufs dirty7 !! x = Some b → is_Some (blocks dirty7 !! b_data b).
Proof. intros Hx Hb. apply list_elem_of_singleton in Hx as ->. vm_compute in Hb. injection Hb as <-. vm_compute. by eexists. Qed.

Lemma sync_dirty_buffers_flush_witness :
  sync_dirty_buffers LRU 600 dirty7 = Ok (flushed (flush 600 (λ _ bytes block _ w, (0, w ++ [(1, block)])) (blocks dirty7) [4096] (0, bufs dirty7, disk dirty7)) dirty7) ∧
  disk (flushed (flush 600 (λ _ bytes block _ w, (0, w ++ [(1, block)])) (blocks dirty7) [4096] (0, bufs dirty7, disk dirty7)) dirty7).2 = [(0, 7); (1, 7)].
Proof.
  split; [|by vm_compute].
  apply (sync_dirty_buffers_flush LRU blank 600 (λ _ bytes block _ w, (0, w ++ [(1, block)])) dirty7 [4096] (BlockDevice (MKDEV 1 0) 0 512 1 0 1)).
  - exact dirty7_cache.
  - exact dirty7_data.
  - by vm_compute.
  - reflexivity.
Defined.
