(* ===== verification/PageCache.v ===== *)
(** * The page cache of a file ([kernel/fs/vfs/address_space.c],
      [include/kernel/fs/vfs/addrspace.h])

    An address space keeps the cached pages of an inode in a radix tree of [RadixTree],
    whose items are the addresses of page structures of [Page]. Address spaces live in a
    map from addresses; all trees share the nodes and the allocator. What the file system
    does behind [readpage] and [writepage] is the interface [SpaceOps]; it may change the
    pages and the world. Spinlocks of the address spaces are left out: each operation
    holds one throughout. *)

From stdpp Require Import base gmap list.
From S2P Require Import Prelude ListHead PageTable Page RadixTree.
Local Open Scope Z_scope.
Local Open Scope kernel_scope.

Definition RADIX_TREE_TAG_DIRTY : Z := 0.
Definition RADIX_TREE_TAG_ACCESSED : Z := 2.
Definition PAGE_UPTODATE : Z := 2.
Definition PAGE_SHIFT : Z := 12.
Definition WB_SYNC_ALL : Z := 1.
Definition WB_REASON_SYNC : Z := 1.
Definition SPACE_SIZE : Z := 40.

(** [struct addrSpace]: the root of the tree is its height and its node. *)
Record addrSpace := AddrSpace {
  tree_height : Z;
  tree_node : Z;
  nrpages : Z;
  a_ops : Z;
}.

(** The fields of [struct writeback_control] that are used. *)
Record writeback_control := Wbc {
  nr_to_write : Z;
  range_start : Z;
  range_end : Z;
  sync_mode : Z;
  reason : Z;
}.

(** The operations of an address space, by the address of their table. [readpage] gets a
    file made up for the occasion, of which it can use the address space. *)
Class SpaceOps (W : Type) : Type := {
  readpage : Z → option (Z → Z → page_manager → W → Z * page_manager * W);
  writepage : Z → option (Z → writeback_control → page_manager → W → Z * writeback_control * page_manager * W);
}.

Section PageCache.
Context {A : Type} {KM : KMalloc A} {W : Type} {SO : SpaceOps W}.
Context (kernel_pa : Z → outcome Z).

Record pcache := PCache {
  pm : page_manager;
  spaces : gmap Z addrSpace;
  i_mapping : gmap Z Z;
  tnodes : gmap Z radix_tree_node;
  pheap : A;
  world : W;
}.

Definition set_pm (x : page_manager) (s : pcache) : pcache :=
  PCache x (spaces s) (i_mapping s) (tnodes s) (pheap s) (world s).
Definition set_spaces (x : gmap Z addrSpace) (s : pcache) : pcache :=
  PCache (pm s) x (i_mapping s) (tnodes s) (pheap s) (world s).
Definition set_world (x : W) (s : pcache) : pcache :=
  PCache (pm s) (spaces s) (i_mapping s) (tnodes s) (pheap s) x.

Definition get_space (m : Z) (s : pcache) : outcome addrSpace := of_option (spaces s !! m).
Definition put_space (m : Z) (a : addrSpace) (s : pcache) : pcache := set_spaces (<[m := a]> (spaces s)) s.

(** The tree of an address space, and an operation on it. *)
Definition tree (a : addrSpace) (s : pcache) : @rtree A := RTree (tree_height a) (tree_node a) (tnodes s) (pheap s).

Definition put_tree (m : Z) (a : addrSpace) (t : @rtree A) (s : pcache) : pcache :=
  PCache (pm s) (<[m := AddrSpace (rheight t) (rnode t) (nrpages a) (a_ops a)]> (spaces s)) (i_mapping s)
    (nodes t) (heap t) (world s).

Definition on_tree {R} (m : Z) (f : @rtree A → outcome (R * @rtree A)) (s : pcache) : outcome (R * pcache) :=
  let! a := get_space m s in
  let! (r, t) := f (tree a s) in
  Ok (r, put_tree m a t s).

Definition on_pages (f : page_manager → outcome page_manager) (s : pcache) : outcome pcache :=
  let! p := f (pm s) in Ok (set_pm p s).

Definition set_nrpages (n : Z) (a : addrSpace) : addrSpace := AddrSpace (tree_height a) (tree_node a) n (a_ops a).

Definition upd_space (m : Z) (f : addrSpace → addrSpace) (s : pcache) : outcome pcache :=
  let! a := get_space m s in Ok (put_space m (f a) s).

(** [page->mapping] and [page->index]. *)
Definition set_mapping (m : Z) (v : page) : page :=
  Page (flags v) m (refcount v) (index v) (kmalloc_size v) (paddr v) (lru v) (page_lock v).
Definition set_index (i : Z) (v : page) : page :=
  Page (flags v) (mapping v) (refcount v) i (kmalloc_size v) (paddr v) (lru v) (page_lock v).

(** A write to a field of a page structure. *)
Definition write_page (p : Z) (f : page → page) (s : page_manager) : outcome page_manager :=
  let! v := get_struct p s in Ok (put_struct p (f v) s).

Definition page_uptodate (p : Z) (s : page_manager) : outcome bool :=
  let! v := get_struct p s in Ok (negb (Z.land (flags v) PAGE_UPTODATE =? 0)).

(** [garbage] is what the memory of [a_ops] held. *)
Definition addrSpace_create (inode garbage : Z) (s : pcache) : Z * pcache :=
  let (m, a) := kmalloc SPACE_SIZE (pheap s) in
  let s := PCache (pm s) (spaces s) (i_mapping s) (tnodes s) a (world s) in
  if m =? 0 then (0, s)
  else
    let s := put_space m (AddrSpace 0 0 0 garbage) s in
    if inode =? 0 then (m, s)
    else (m, PCache (pm s) (spaces s) (<[inode := m]> (i_mapping s)) (tnodes s) (pheap s) (world s)).

Definition addrSpace_getPage (m idx : Z) (s : pcache) : outcome (Z * pcache) :=
  let! a := get_space m s in
  let! p := radix_tree_lookup idx (tree a s) in
  if p =? 0 then Ok (0, s)
  else let! s := on_pages (get_page p) s in Ok (p, s).

Definition addrSpace_addPage (m p idx : Z) (s : pcache) : outcome (Z * pcache) :=
  let! s := on_pages (get_page p) s in
  let! (ret, s) := on_tree m (radix_tree_insert idx p) s in
  if ret =? 0 then
    let! s := on_pages (write_page p (λ v, set_index idx (set_mapping m v))) s in
    let! s := upd_space m (λ a, set_nrpages (u64 (nrpages a + 1)) a) s in
    let! (_, s) := on_tree m (radix_tree_tag_set idx RADIX_TREE_TAG_ACCESSED) s in
    Ok (ret, s)
  else
    let! s := on_pages (put_page p) s in
    Ok (ret, s).

Definition addrSpace_putPage (m p : Z) (s : pcache) : outcome (Z * pcache) :=
  let! v := get_struct p (pm s) in
  let! (item, s) := on_tree m (radix_tree_delete (index v)) s in
  if item =? p then
    let! s := upd_space m (λ a, set_nrpages (u64 (nrpages a - 1)) a) s in
    let! s := on_pages (write_page p (set_mapping 0)) s in
    let! s := on_pages (put_page p) s in
    Ok (1, s)
  else Ok (0, s).

Definition addrSpace_setPageDirty (m p : Z) (s : pcache) : outcome (Z * pcache) :=
  if (m =? 0) || (p =? 0) then Ok (0, s)
  else
    let! v := get_struct p (pm s) in
    if mapping v =? m then
      let! s := on_pages (set_page_dirty p) s in
      let! v := get_struct p (pm s) in
      let! (_, s) := on_tree m (radix_tree_tag_set (index v) RADIX_TREE_TAG_DIRTY) s in
      Ok (1, s)
    else Ok (0, s).

Fixpoint get_pages (ps : list Z) (s : pcache) : outcome pcache :=
  match ps with
  | [] => Ok s
  | p :: ps => let! s := on_pages (get_page p) s in get_pages ps s
  end.

(** The pages found; [scan] bounds the indices skipped in one go, as in [RadixTree]. *)
Definition addrSpace_getDirtyPages (scan : nat) (m nr_pages start : Z) (s : pcache) : outcome (list Z * pcache) :=
  let! a := get_space m s in
  let! ps := radix_tree_gang_lookup_tag scan start nr_pages RADIX_TREE_TAG_DIRTY (tree a s) in
  let! s := get_pages ps s in
  Ok (ps, s).

Definition addrSpace_removeDirtyTag (m p : Z) (s : pcache) : outcome (Z * pcache) :=
  if (m =? 0) || (p =? 0) then Ok (0, s)
  else
    let! v := get_struct p (pm s) in
    if mapping v =? m then
      let! s := on_pages (clear_page_dirty p) s in
      let! v := get_struct p (pm s) in
      let! (_, s) := on_tree m (radix_tree_tag_clear (index v) RADIX_TREE_TAG_DIRTY) s in
      Ok (1, s)
    else Ok (0, s).

Definition addrSpace_invalidate (m p : Z) (s : pcache) : outcome (Z * pcache) :=
  let! d := test_page_dirty p (pm s) in
  if negb (d =? 0) then Ok (- EBUSY, s)
  else
    let! v := get_struct p (pm s) in
    let! s :=
      (if mapping v =? m then
         let! (_, s) := on_tree m (radix_tree_delete (index v)) s in
         let! s := upd_space m (λ a, set_nrpages (u64 (nrpages a - 1)) a) s in
         on_pages (write_page p (set_mapping 0)) s
       else Ok s) in
    let! s := on_pages (put_page p) s in
    Ok (0, s).

(** [gfp_mask] is not used. *)
Definition addrSpace_acquirePage (m idx : Z) (s : pcache) : outcome (Z * pcache) :=
  let! (p, s) := addrSpace_getPage m idx s in
  if negb (p =? 0) then Ok (p, s)
  else
    let! (p, x) := alloc_page kernel_pa (pm s) in
    let s := set_pm x s in
    if p =? 0 then Ok (0, s)
    else
      let! s := on_pages (write_page p (λ v, set_refcount 1 (set_flags 0 (set_mapping 0 v)))) s in
      let! (ret, s) := addrSpace_addPage m p idx s in
      if ret <? 0 then
        let! s := on_pages (put_page p) s in
        addrSpace_getPage m idx s
      else Ok (p, s).

(** The call of [readpage] and what follows: the page, or 0 for the failure. *)
Definition read_in (m p : Z) (s : pcache) : outcome (Z * pcache) :=
  let! a := get_space m s in
  match (if a_ops a =? 0 then None else readpage (a_ops a)) with
  | Some f =>
      let! s := on_pages (lock_page p) s in
      let '(ret, x, w) := f m p (pm s) (world s) in
      let s := set_world w (set_pm x s) in
      let! s := on_pages (unlock_page p) s in
      let! u := page_uptodate p (pm s) in
      if (ret =? 0) && u then Ok (p, s)
      else let! s := on_pages (put_page p) s in Ok (0, s)
  | None => let! s := on_pages (put_page p) s in Ok (0, s)
  end.

Definition addrSpace_readPage (m idx : Z) (s : pcache) : outcome (Z * pcache) :=
  let! (p, s) := addrSpace_getPage m idx s in
  if negb (p =? 0) then
    let! u := page_uptodate p (pm s) in
    if u then Ok (p, s) else read_in m p s
  else
    let! (p, s) := addrSpace_acquirePage m idx s in
    if p =? 0 then Ok (0, s) else read_in m p s.

Definition init_writeback_control (mode : Z) : writeback_control := Wbc (2 ^ 31 - 1) 0 (2 ^ 63 - 1) (mode mod 2) 0.

(** [page_offset], and the test that the page is outside the range; the second
    comparison is unsigned. *)
Definition out_of_range (idx : Z) (wbc : writeback_control) : bool :=
  let page_offset := s64 (Z.shiftl (s64 idx) PAGE_SHIFT) in
  (range_end wbc <=? page_offset) || (u64 (page_offset + PAGE_SIZE) <=? u64 (range_start wbc)).

(** The loop over one batch. The local variables of the function, and whether the loop
    was left by [break]. *)
Record wb := Wb {
  wb_index : Z;
  wb_ret : Z;
  wb_nr : Z;
  wb_wbc : writeback_control;
}.

Section Writeback.
Context (m : Z) (write : Z → writeback_control → page_manager → W → Z * writeback_control * page_manager * W).

(** One page of a batch: the new variables, and whether the page was handled to the end
    of the loop body. *)
Definition write_one (p : Z) (l : wb) (s : pcache) : outcome (bool * wb * pcache) :=
  let! v := get_struct p (pm s) in
  let idx := if wb_index l <? index v then index v else wb_index l in
  let l := Wb idx (wb_ret l) (wb_nr l) (wb_wbc l) in
  let! d := test_page_dirty p (pm s) in
  if d =? 0 then
    let! s := on_pages (put_page p) s in Ok (false, l, s)
  else if out_of_range (index v) (wb_wbc l) then
    let! s := on_pages (put_page p) s in Ok (false, l, s)
  else
    let! (locked, x) := trylock_page p (pm s) in
    let s := set_pm x s in
    let! (l, s) :=
      (if negb (locked =? 0) then
         let '(ret, wbc, x, w) := write p (wb_wbc l) (pm s) (world s) in
         let s := set_world w (set_pm x s) in
         let! s := (if ret =? 0 then let! (_, s) := addrSpace_removeDirtyTag m p s in Ok s else Ok s) in
         let! s := on_pages (unlock_page p) s in
         Ok (Wb (wb_index l) ret (wb_nr l) wbc, s)
       else Ok (l, s)) in
    let! s := on_pages (put_page p) s in
    Ok (true, l, s).

Fixpoint write_batch (ps : list Z) (l : wb) (s : pcache) : outcome (wb * pcache) :=
  match ps with
  | [] => Ok (l, s)
  | p :: ps =>
      let! (handled, l, s) := write_one p l s in
      if handled then
        if wb_ret l <? 0 then Ok (l, s)
        else
          let l := Wb (wb_index l) (wb_ret l) (s64 (wb_nr l - 1)) (wb_wbc l) in
          if wb_nr l <=? 0 then Ok (l, s) else write_batch ps l s
      else write_batch ps l s
  end.

Fixpoint writeback_loop (fuel scan : nat) (l : wb) (s : pcache) : outcome (wb * pcache) :=
  let! (ps, s) := addrSpace_getDirtyPages scan m 16 (wb_index l) s in
  let! (l, s) := write_batch ps l s in
  let l := Wb (u64 (wb_index l + 1)) (wb_ret l) (wb_nr l) (wb_wbc l) in
  if (wb_nr l <=? 0) || (wb_ret l <? 0) then Ok (l, s)
  else
    match ps with
    | [] => Ok (l, s)
    | _ =>
        match fuel with
        | O => Timeout
        | S fuel => writeback_loop fuel scan l s
        end
    end.
End Writeback.

(** The result, and the control structure as it is left. *)
Definition __addrSpace_writeback (fuel scan : nat) (m : Z) (wbc : writeback_control) (s : pcache)
    : outcome (Z * writeback_control * pcache) :=
  if m =? 0 then Ok (- EINVAL, wbc, s)
  else
    let! a := get_space m s in
    match (if a_ops a =? 0 then None else writepage (a_ops a)) with
    | None => Ok (- EINVAL, wbc, s)
    | Some f =>
        let! (l, s) := writeback_loop m f fuel scan (Wb 0 0 (nr_to_write wbc) wbc) s in
        let c := wb_wbc l in
        Ok (wb_ret l, Wbc (wb_nr l) (range_start c) (range_end c) (sync_mode c) (reason c), s)
    end.

Definition addrSpace_writeBack (fuel scan : nat) (m : Z) (s : pcache) : outcome (Z * pcache) :=
  let c := init_writeback_control WB_SYNC_ALL in
  let! (ret, _, s) := __addrSpace_writeback fuel scan m (Wbc (nr_to_write c) (range_start c) (range_end c) (sync_mode c) WB_REASON_SYNC) s in
  Ok (ret, s).

Definition addrSpace_writeback_range (fuel scan : nat) (m start end_ mode : Z) (s : pcache) : outcome (Z * pcache) :=
  let c := init_writeback_control mode in
  let! (ret, _, s) := __addrSpace_writeback fuel scan m (Wbc (nr_to_write c) start end_ (sync_mode c) (reason c)) s in
  Ok (ret, s).
End PageCache.

Section Spec.
Context {A : Type} {KM : KMalloc A} {KS : KMallocSpec A} {W : Type} {SO : SpaceOps W}.
Context (kernel_pa : Z → outcome Z).
Implicit Types (s : @pcache A W) (own : gmap Z (Z * Z)).

(** The page cached at an index, 0 for none. *)
Definition cached s (m idx : Z) : Z :=
  match spaces s !! m with Some a => content (tree a s) idx | None => 0 end.

(** The address space [m] with a well-formed tree, and the free pages [l]. *)
Record pc_inv own m l s : Prop := {
  pc_space : ∃ a, spaces s !! m = Some a ∧ rt_inv own (tree a s);
  pc_pages : page_inv (pm s) l;
}.

Lemma content_below t i : @content A t i ≠ 0 → 0 < rheight t ∧ 0 ≤ i < 64 ^ rheight t.
Proof.
  unfold content. destruct (Z.ltb_spec 0 (rheight t)), (Z.leb_spec 0 i), (Z.ltb_spec i (64 ^ rheight t)); cbn; done.
Qed.

(** Changing a structure that exists keeps the pages. *)
Lemma page_inv_put x l p v : page_inv x l → page_inv (put_struct p v x) l.
Proof.
  intros [[G1 G2 G3 G4 G5] H2 H3 H4 H5]. split; [by split|done|done|done|]. intros i Hi. cbn. destruct (decide (p = page_pool x + PAGE_STRUCT * i)) as [<-|Hne].
  - by rewrite lookup_insert_eq.
  - rewrite lookup_insert_ne by done. by apply H5.
Qed.

(** A page that is cached is found, with one more reference. *)
Lemma getPage_hit own m s a idx p v :
  spaces s !! m = Some a → rt_inv own (tree a s) → content (tree a s) idx = p → p ≠ 0 → structs (pm s) !! p = Some v →
  addrSpace_getPage m idx s = Ok (p, set_pm (put_struct p (set_refcount (s32 (refcount v + 1)) v) (pm s)) s).
Proof.
  intros Ha Hr Hp Hp0 Hv. unfold addrSpace_getPage, get_space. rewrite Ha. cbn [of_option obind].
  assert (content (tree a s) idx ≠ 0) as Hc by congruence. destruct (content_below _ _ Hc) as [_ Hi].
  rewrite (lookup_content own) by (done || lia). cbn [obind]. rewrite Hp, (proj2 (Z.eqb_neq p 0)) by done.
  unfold on_pages, get_page, update_page, get_struct. rewrite (proj2 (Z.eqb_neq p 0)) by done. rewrite Hv. done.
Qed.

Lemma getPage_miss own m s a idx :
  spaces s !! m = Some a → rt_inv own (tree a s) → good_index (tree_height a) idx → content (tree a s) idx = 0 →
  addrSpace_getPage m idx s = Ok (0, s).
Proof.
  intros Ha Hr Hg Hp. unfold addrSpace_getPage, get_space. rewrite Ha. cbn [of_option obind].
  rewrite (lookup_content own); [by rewrite Hp|done|apply Hg|apply Hg; cbn; pose proof (ri_height _ _ Hr); cbn in *; lia].
Qed.

(** A new page enters an address space. *)
Lemma addPage_new own m s a idx p v :
  spaces s !! m = Some a → rt_inv own (tree a s) → good_index (tree_height a) idx → idx ≤ 64 ^ 4 → content (tree a s) idx = 0 →
  p ≠ 0 → structs (pm s) !! p = Some v → mem_for 7 NODE_SIZE (pheap s) →
  ∃ s' own' a', addrSpace_addPage m p idx s = Ok (0, s') ∧ spaces s' !! m = Some a' ∧ rt_inv own' (tree a' s') ∧
    (∀ i, content (tree a' s') i = if i =? idx then p else content (tree a s) i) ∧
    nrpages a' = u64 (nrpages a + 1) ∧ a_ops a' = a_ops a ∧ world s' = world s ∧
    pm s' = put_struct p (set_index idx (set_mapping m (set_refcount (s32 (refcount v + 1)) v))) (pm s).
Proof.
  intros Ha Hr Hg Hi Hc Hp Hv Hmem. unfold addrSpace_addPage, on_pages at 1, get_page, update_page, get_struct.
  rewrite (proj2 (Z.eqb_neq p 0)) by done. rewrite Hv. cbn [of_option obind].
  set (x1 := put_struct p (set_refcount (s32 (refcount v + 1)) v) (pm s)). set (s1 := set_pm x1 s).
  unfold on_tree at 1, get_space. change (spaces s1) with (spaces s). rewrite Ha. cbn [of_option obind]. change (tree a s1) with (tree a s).
  destruct (insert_spec own (tree a s) idx p Hr Hp Hg) as (r & t & own' & E & Hr' & Hres).
  rewrite E. cbn [obind].
  destruct Hres as [(-> & _ & Hc')|[(-> & Hx & _)|[(-> & Hx & _)|(-> & Hx & _)]]]; [|done|lia|done].
  change (0 =? 0) with true. cbv iota. unfold on_pages, write_page, get_struct.
  change (pm (put_tree m a t s1)) with x1. unfold x1 at 1. cbn [structs put_struct set_structs]. rewrite lookup_insert_eq. cbn [of_option obind].
  unfold upd_space, get_space. cbn [spaces set_pm put_tree]. rewrite lookup_insert_eq. cbn [of_option obind].
  unfold on_tree, get_space. cbn [spaces put_space set_spaces set_pm put_tree]. rewrite lookup_insert_eq. cbn [of_option obind].
  set (a1 := set_nrpages _ _). change (tree a1 _) with (RTree (rheight t) (rnode t) (nodes t) (heap t)). replace (RTree (rheight t) (rnode t) (nodes t) (heap t)) with t by (by destruct t).
  assert (content t idx ≠ 0) as Hn by (by rewrite Hc', Z.eqb_refl). destruct (content_below _ _ Hn) as [Hh Hb].
  destruct (radix_tag_set_get own' t idx RADIX_TREE_TAG_ACCESSED Hr' Hh Hb ltac:(done)) as (ok & t2 & E2 & Hr2 & Hc2 & _).
  rewrite E2. cbn [obind]. eexists _, own', _. split; [reflexivity|]. cbn [spaces put_tree]. rewrite lookup_insert_eq. split; [done|].
  unfold tree. cbn [tree_height tree_node tnodes pheap put_tree nrpages a_ops a1 set_nrpages world set_pm put_space set_spaces pm].
  replace (RTree (rheight t2) (rnode t2) (nodes t2) (heap t2)) with t2 by (by destruct t2). split; [done|].
  split; [intros i; rewrite Hc2; apply Hc'|]. split_and!; try done.
  unfold x1, put_struct, set_structs. cbn. by rewrite insert_insert_eq.
Qed.

(** The structure of a page that has just entered the cache. *)
Definition cached_page (m idx st q : Z) (n : Z) (v : page) : page :=
  Page 0 m n idx (kmalloc_size v) q (ListHead (st + LRU_OFFSET) (st + LRU_OFFSET)) false.

(** C17. Acquiring the page of an index that is not cached takes the first free page,
    enters it in the tree of the address space under that index and no other, and counts
    it; it holds two references, one for the cache and one for the caller. The heap has
    room for the nodes of the tree, and the index is one the tree can take: at most
    [64^4], not a power of 64 from the limit of the tree on, not 0 in an empty tree. A second
    request for the index gives the same page with a third reference, and changes nothing
    else. *)
Theorem acquirePage_again own m q l s a idx :
  spaces s !! m = Some a → pc_inv own m (q :: l) s → good_index (tree_height a) idx → idx ≤ 64 ^ 4 → cached s m idx = 0 →
  mem_for 7 NODE_SIZE (pheap s) →
  let p := struct_of (pm s) q in
  ∃ own' v s1 s2, addrSpace_acquirePage kernel_pa m idx s = Ok (p, s1) ∧ addrSpace_acquirePage kernel_pa m idx s1 = Ok (p, s2) ∧
    pc_inv own' m l s2 ∧ (∀ i, cached s2 m i = if i =? idx then p else cached s m i) ∧
    (∃ a', spaces s2 !! m = Some a' ∧ nrpages a' = u64 (nrpages a + 1)) ∧
    structs (pm s) !! p = Some v ∧
    structs (pm s1) = <[p := cached_page m idx p q 2 v]> (structs (pm s)) ∧
    structs (pm s2) = <[p := cached_page m idx p q 3 v]> (structs (pm s)).
Proof.
  intros Ha [(a0 & Ha0 & Hr) Hpi] Hg Hi Hc Hmem p. rewrite Ha in Ha0. injection Ha0 as <-. unfold cached in Hc. rewrite Ha in Hc.
  destruct (alloc_page_spec kernel_pa (pm s) q l Hpi) as (x & v & Eal & Hpi' & Hv & Hst & _). fold p in Eal, Hv, Hst.
  assert (0 < p) as Hp.
  { destruct Hpi as [Hgeo _ Hf _ _]. apply Forall_cons in Hf as [Hm _]. by apply struct_of_pos. }
  set (x1 := put_struct p (set_refcount 1 (set_flags 0 (set_mapping 0 (fresh_page p q v)))) x). set (s0 := set_pm x1 s).
  assert (structs x1 !! p = Some (fresh_page p q v)) as Hv1 by (cbn; by rewrite lookup_insert_eq).
  destruct (addPage_new own m s0 a idx p (fresh_page p q v) Ha Hr Hg Hi Hc ltac:(lia) Hv1 Hmem) as (s1 & own' & a' & Eadd & Ha' & Hr' & Hc' & Hn' & _ & _ & Epm).
  exists own', v, s1. set (w := set_index idx (set_mapping m (set_refcount 2 (fresh_page p q v)))).
  assert (structs (pm s1) = <[p := w]> (structs (pm s))) as Hs1.
  { rewrite Epm. unfold s0, x1, put_struct, set_structs. cbn. rewrite Hst, !insert_insert_eq. done. }
  assert (content (tree a' s1) idx = p) as Hcp by (rewrite Hc', Z.eqb_refl; done).
  assert (structs (pm s1) !! p = Some w) as Hw by (rewrite Hs1; apply lookup_insert_eq).
  set (s2 := set_pm (put_struct p (set_refcount (s32 (refcount w + 1)) w) (pm s1)) s1).
  assert (addrSpace_acquirePage kernel_pa m idx s1 = Ok (p, s2)) as E2.
  { unfold addrSpace_acquirePage. rewrite (getPage_hit own' m s1 a' idx p w) by (done || lia). cbn [obind]. by rewrite (proj2 (Z.eqb_neq p 0)) by lia. }
  exists s2. split_and!.
  - unfold addrSpace_acquirePage. rewrite (getPage_miss own m s a idx Ha Hr Hg Hc). cbn [obind]. change (negb (0 =? 0)) with false. cbv iota.
    rewrite Eal. cbn [obind]. rewrite (proj2 (Z.eqb_neq p 0)) by lia. unfold on_pages, write_page, get_struct. cbn [pm set_pm].
    rewrite Hst, lookup_insert_eq. cbn [of_option obind]. change (set_pm _ (set_pm x s)) with s0. rewrite Eadd. done.
  - exact E2.
  - split; [exists a'; split; [exact Ha'|exact Hr']|]. cbn. rewrite Epm. by do 3 apply page_inv_put.
  - intros i. unfold cached. cbn [spaces s2 set_pm]. rewrite Ha', Ha. apply Hc'.
  - by exists a'.
  - done.
  - done.
  - cbn. rewrite Hs1, insert_insert_eq. done.
Qed.

(** ** Writing back *)

(** With no tagged index a search from index 0 wraps round and never ends. *)
Lemma skip_untagged_hangs t tag fuel idx :
  0 ≤ idx < 2 ^ 64 → (∀ i, 0 ≤ i < 2 ^ 64 → radix_tree_tag_get i tag t = Ok 0) → @skip_untagged A fuel 0 idx tag t = Timeout.
Proof.
  intros Hi Hno. revert idx Hi. induction fuel as [|fuel IH]; intros idx Hi; cbn [skip_untagged]; rewrite Hno by done; cbn [obind]; [done|].
  change (negb (0 =? 0)) with false. cbv iota. assert (0 ≤ u64 (idx + 1) < 2 ^ 64) by apply u64_range.
  rewrite (proj2 (Z.ltb_ge _ _)) by lia. by apply IH.
Qed.

(** Writing back an address space without dirty pages never ends: the search for dirty
    pages starts at index 0, and its test for the wrap-around is [index < first_index]. *)
Theorem writeback_clean_hangs m s a f fuel scan :
  m ≠ 0 → spaces s !! m = Some a → a_ops a ≠ 0 → writepage (a_ops a) = Some f →
  (∀ i, 0 ≤ i < 2 ^ 64 → radix_tree_tag_get i RADIX_TREE_TAG_DIRTY (tree a s) = Ok 0) →
  addrSpace_writeBack fuel scan m s = Timeout.
Proof.
  intros Hm Ha Ho Hf Hno. unfold addrSpace_writeBack, __addrSpace_writeback, get_space. rewrite (proj2 (Z.eqb_neq m 0)) by done.
  rewrite Ha. cbn [of_option obind]. rewrite (proj2 (Z.eqb_neq _ 0)) by done. rewrite Hf.
  destruct fuel as [|fuel]; cbn [writeback_loop]; unfold addrSpace_getDirtyPages, get_space; cbn [wb_index]; rewrite Ha; cbn [of_option obind];
    unfold radix_tree_gang_lookup_tag; change (RADIX_TREE_MAX_TAGS <=? RADIX_TREE_TAG_DIRTY) with false; cbv iota; change (Z.to_nat 16) with 16%nat;
    cbn [gang_tag_loop]; by rewrite skip_untagged_hangs.
Qed.

(** What a search for tagged items delivers is tagged. *)
Lemma skip_untagged_tagged t tag fuel first : ∀ idx i,
  0 ≤ idx → @skip_untagged A fuel first idx tag t = Ok (Some i) → 0 ≤ i ∧ ∃ r, radix_tree_tag_get i tag t = Ok r ∧ r ≠ 0.
Proof.
  induction fuel as [|fuel IH]; intros idx i Hi; cbn [skip_untagged]; destruct (radix_tree_tag_get idx tag t) as [r| | |] eqn:Er; cbn [obind]; try done;
    destruct (Z.eqb_spec r 0); cbn [negb]; try done; try (intros [= <-]; split; [done|]; by exists r).
  destruct (_ <? first); [done|]. apply IH. apply u64_range.
Qed.

Lemma gang_tagged t tag scan first p : ∀ fuel idx l,
  0 ≤ idx → @gang_tag_loop A fuel scan first idx tag t = Ok l → p ∈ l →
  ∃ i r, 0 ≤ i ∧ radix_tree_lookup i t = Ok p ∧ radix_tree_tag_get i tag t = Ok r ∧ r ≠ 0.
Proof.
  induction fuel as [|fuel IH]; intros idx l Hi; cbn [gang_tag_loop]; [intros [= <-] H; by apply elem_of_nil in H|].
  destruct (skip_untagged _ _ _ _ _) as [[i|]| | |] eqn:Es; cbn [obind]; try done; [|intros [= <-] H; by apply elem_of_nil in H].
  destruct (radix_tree_lookup i t) as [item| | |] eqn:El; cbn [obind]; try done.
  destruct (item =? 0); [intros [= <-] H; by apply elem_of_nil in H|]. destruct (skip_untagged_tagged _ _ _ _ _ _ Hi Es) as (Hi' & r & Hr & Hr0).
  destruct (_ <? first).
  - intros [= <-] H. apply list_elem_of_singleton in H as ->. by exists i, r.
  - destruct (gang_tag_loop _ _ _ _ _ _) as [l'| | |] eqn:Eg; cbn [obind]; try done. intros [= <-] [->|H]%elem_of_cons; [by exists i, r|].
    apply (IH (u64 (i + 1)) l'); [apply u64_range|exact Eg|exact H].
Qed.

(** Taking references changes the page structures only. *)
Lemma get_pages_frame ps : ∀ s s', get_pages ps s = Ok s' → spaces s' = spaces s ∧ tnodes s' = tnodes s.
Proof.
  induction ps as [|p ps IH]; intros s s'; cbn [get_pages]; [intros [= <-]; done|]. unfold on_pages.
  destruct (get_page p (pm s)) as [x| | |]; cbn [obind]; try done. intros E. by destruct (IH _ _ E).
Qed.

(** Cleaning one page of a file hides other dirty pages from write-back: when the
    dirty tag of the page at index [i] is removed, a page at index [j] below the same slot
    of the root keeps its dirty flag, but no later search for dirty pages delivers it. *)
Theorem clean_hides_dirty own m s a p v q j :
  m ≠ 0 → p ≠ 0 → spaces s !! m = Some a → rt_inv own (tree a s) → structs (pm s) !! p = Some v → mapping v = m →
  content (tree a s) (index v) = p → content (tree a s) j = q → q ≠ 0 → q ≠ p → 0 < j → (∀ k, content (tree a s) k = q → k = j) →
  index v / 64 ^ (tree_height a - 1) = j / 64 ^ (tree_height a - 1) →
  ∃ s', addrSpace_removeDirtyTag m p s = Ok (1, s') ∧
    (∀ x, x ≠ p → structs (pm s') !! x = structs (pm s) !! x) ∧ (∀ k, cached s' m k = cached s m k) ∧
    ∀ scan nr start ps s'', 0 ≤ start → addrSpace_getDirtyPages scan m nr start s' = Ok (ps, s'') → q ∉ ps.
Proof.
  intros Hm Hp Ha Hr Hv Em Hcp Hcq Hq Hqp Hj Huni Hij.
  assert (content (tree a s) (index v) ≠ 0) as Hn1 by congruence. destruct (content_below _ _ Hn1) as [Hh Hbi].
  assert (content (tree a s) j ≠ 0) as Hn2 by congruence. destruct (content_below _ _ Hn2) as [_ Hbj].
  destruct (radix_tag_clear_subtree own (tree a s) (index v) j RADIX_TREE_TAG_DIRTY Hr Hh Hbi Hbj ltac:(done) Hij) as (ok & t & E & Hr' & Eh & Hc & Hg).
  unfold addrSpace_removeDirtyTag, on_pages, clear_page_dirty, update_page, get_struct. rewrite (proj2 (Z.eqb_neq m 0)), (proj2 (Z.eqb_neq p 0)) by done. cbn [orb].
  rewrite Hv. cbn [of_option obind]. rewrite Em, Z.eqb_refl. cbn [pm set_pm structs put_struct set_structs]. rewrite lookup_insert_eq. cbn [of_option obind].
  change (index (set_flags _ v)) with (index v). unfold on_tree, get_space. cbn [spaces set_pm]. rewrite Ha. cbn [of_option obind].
  change (tree a (set_pm _ s)) with (tree a s). rewrite E. cbn [obind]. eexists. split; [reflexivity|]. split_and!.
  - intros x Hx. cbn. by rewrite lookup_insert_ne.
  - intros k. unfold cached. cbn [spaces put_tree]. rewrite lookup_insert_eq, Ha. rewrite <-Hc. unfold tree. cbn. by destruct t.
  - intros scan nr start ps s'' Hst. unfold addrSpace_getDirtyPages, get_space. cbn [spaces put_tree]. rewrite lookup_insert_eq. cbn [of_option obind].
    set (t' := tree _ _). assert (t' = t) as -> by (unfold t', tree; cbn; by destruct t). unfold radix_tree_gang_lookup_tag.
    destruct (RADIX_TREE_MAX_TAGS <=? RADIX_TREE_TAG_DIRTY) eqn:E3; [done|].
    destruct (gang_tag_loop _ _ _ _ _ _) as [l| | |] eqn:Eg; cbn [obind]; try done.
    destruct (get_pages l _) as [s3| | |]; cbn [obind]; try done. intros [= <- <-] Hin.
    destruct (gang_tagged t _ _ _ q _ _ _ Hst Eg Hin) as (k & r & Hk & El & Et & Hr0).
    assert (k = j) as ->; [|congruence]. pose proof (ri_height _ _ Hr') as Hh'. assert (0 < rheight t) by (rewrite Eh; exact Hh). destruct (Z.eq_dec k (64 ^ rheight t)) as [->|Hne].
    + rewrite lookup_at_limit in El by lia. assert (0 < 64 ^ rheight t) by (apply Z.pow_pos_nonneg; lia).
      rewrite (lookup_content own) in El by (done || lia). injection El as El. rewrite Hc in El. specialize (Huni _ El). lia.
    + rewrite (lookup_content own) in El by done. injection El as El. rewrite Hc in El. by apply Huni.
Qed.
End Spec.

(** ** Concrete states *)

(** A file system that fills pages and logs what it is asked to do. *)
#[local] Instance log_space : SpaceOps (list (Z * Z)) := {
  readpage t := if t =? 1 then Some (λ _ p x w, (0, match write_page p (λ v, set_flags (Z.lor (flags v) PAGE_UPTODATE) v) x with Ok x => x | _ => x end, w ++ [(0, p)])) else None;
  writepage t := if t =? 1 then Some (λ p c x w, (0, c, x, w ++ [(1, p)])) else None;
}.

(** An allocator that never fails. *)
#[local] Instance sure_allocator : KMalloc positive := {
  kmalloc size brk := (Z.pos brk, (brk + Z.to_pos size)%positive);
  kfree _ brk := brk;
}.

#[local, refine] Instance sure_spec : KMallocSpec positive :=
  { km_block brk q n := 0 < n ∧ q + n ≤ Z.pos brk }.
Proof.
  - intros brk q n H. apply H.
  - intros size brk p brk' Hs [= <- <-]. rewrite Pos2Z.inj_add, Z2Pos.id by lia. split; [intros; lia|]. intros _. split; [lia|]. intros; lia.
  - intros p q n brk _ H. exact H.
Defined.

(** An empty address space at 500, one free page at 65536. *)
Definition pcache0 : @pcache positive (list (Z * Z)) :=
  PCache (one_page true 0) {[ 500 := AddrSpace 0 0 0 1 ]} ∅ ∅ 9000%positive [].

Lemma pcache0_inv : pc_inv ∅ 500 [65536] pcache0.
Proof.
  split; [|apply one_page_inv]. eexists. split; [reflexivity|]. split; cbn; [lia|done| |]; intros p *; by rewrite lookup_empty.
Qed.

Lemma acquirePage_again_witness : ∃ own' s1 s2,
  addrSpace_acquirePage Ok 500 2 pcache0 = Ok (1000, s1) ∧ addrSpace_acquirePage Ok 500 2 s1 = Ok (1000, s2) ∧
  pc_inv own' 500 [] s2 ∧ cached s2 500 2 = 1000.
Proof.
  destruct (acquirePage_again Ok ∅ 500 65536 [] pcache0 (AddrSpace 0 0 0 1) 2) as (own' & v & s1 & s2 & E1 & E2 & H & Hc & _).
  - reflexivity.
  - exact pcache0_inv.
  - split; [lia|]. split; [lia|]. intros k Hk. cbn in Hk. assert (k = 0 ∨ k = 1 ∨ k = 2 ∨ k = 3 ∨ k = 4) as [->|[->|[->|[->| ->]]]] by lia; done.
  - lia.
  - reflexivity.
  - vm_compute. repeat split; discriminate.
  - exists own', s1, s2. split; [exact E1|]. split; [exact E2|]. split; [exact H|exact (Hc 2)].
Defined.

Lemma writeback_clean_hangs_witness : addrSpace_writeBack 10 10 500 pcache0 = Timeout.
Proof.
  apply (writeback_clean_hangs 500 pcache0 (AddrSpace 0 0 0 1) (λ p c x w, (0, c, x, w ++ [(1, p)])));
    [lia|reflexivity|cbn; lia|reflexivity|intros i Hi; reflexivity].
Defined.

(** A file of two levels with dirty pages at the indices 2 and 3. *)
Definition dirty_page (idx : Z) : page := Page PAGE_DIRTY 500 2 idx 0 0 (ListHead 0 0) false.

Definition pcache2 : @pcache positive (list (Z * Z)) :=
  PCache (PageManager 1000 {[ 1000 := dirty_page 2; 1072 := dirty_page 3 ]} 2 65536 8192 60008 ∅ 0 ∅)
    {[ 500 := AddrSpace 2 3000 2 1 ]} ∅
    {[ 3000 := Node 2 1 0 (<[0%nat := 4000]> (replicate 64 0)) (replicate 3 1);
       4000 := Node 1 0 3000 (<[2%nat := 1000]> (<[3%nat := 1072]> (replicate 64 0))) (replicate 3 12) ]} 9000%positive [].

Definition own2 : gmap Z (Z * Z) := {[3000 := (2, 0); 4000 := (1, 0)]}.

Lemma own2_inv : rt_inv own2 (tree (AddrSpace 2 3000 2 1) pcache2).
Proof.
  split.
  - cbn. lia.
  - reflexivity.
  - intros p k b Hp. unfold own2 in Hp. apply lookup_insert_Some in Hp as [[<- [= <- <-]]|[_ Hp]].
    + split; [done|]. split; [lia|]. eexists. split; [reflexivity|]. split; [done|]. split; [done|]. split; [done|].
      intros _ i c Hi Hc Hcz. cbn [slots] in Hc. destruct (Z.eq_dec i 0) as [->|Hi0]; [injection Hc as <-; reflexivity|].
      rewrite list_lookup_insert_ne in Hc by lia. apply lookup_replicate in Hc as [-> _]. done.
    + apply lookup_singleton_Some in Hp as [<- [= <- <-]].
      split; [done|]. split; [lia|]. eexists. split; [reflexivity|]. split; [done|]. split; [done|]. split; [done|]. lia.
  - intros p x Hp. unfold own2 in Hp. apply lookup_insert_Some in Hp as [[<- _]|[_ Hp]]; [exists 552; cbn; lia|].
    apply lookup_singleton_Some in Hp as [<- _]. exists 552. cbn. lia.
Qed.

Lemma pcache2_unique k : content (tree (AddrSpace 2 3000 2 1) pcache2) k = 1072 → k = 3.
Proof.
  intros Hk. assert (content (tree (AddrSpace 2 3000 2 1) pcache2) k ≠ 0) as Hn by congruence. destruct (content_below _ _ Hn) as [_ Hb].
  assert (Forall (λ k, content (tree (AddrSpace 2 3000 2 1) pcache2) k = 1072 → k = 3) (seqZ 0 4096)) as HF.
  { apply (bool_decide_unpack _). vm_compute. exact I. }
  rewrite Forall_forall in HF. apply HF; [apply elem_of_seqZ; exact Hb|done].
Qed.

Lemma clean_hides_dirty_witness : ∃ s',
  addrSpace_removeDirtyTag 500 1000 pcache2 = Ok (1, s') ∧ structs (pm s') !! 1072 = Some (dirty_page 3) ∧
  ∀ scan nr start ps s'', 0 ≤ start → addrSpace_getDirtyPages scan 500 nr start s' = Ok (ps, s'') → 1072 ∉ ps.
Proof.
  destruct (clean_hides_dirty own2 500 pcache2 (AddrSpace 2 3000 2 1) 1000 (dirty_page 2) 1072 3) as (s' & E & Hs & _ & Hg).
  - lia.
  - lia.
  - reflexivity.
  - exact own2_inv.
  - reflexivity.
  - reflexivity.
  - vm_compute. reflexivity.
  - vm_compute. reflexivity.
  - lia.
  - lia.
  - lia.
  - exact pcache2_unique.
  - reflexivity.
  - exists s'. split; [exact E|]. split; [exact (Hs 1072 ltac:(lia))|exact Hg].
Defined.
