(* ===== verification/FileIO.v ===== *)
(** * Reading, writing and listing open files ([kernel/syscall/read.c],
      [kernel/syscall/write.c], [kernel/syscall/getdents64.c], the rest of
      [kernel/fs/vfs/file.c])

    The state is the descriptor tables and files of [FdTable] with the bytes of memory of
    [KString]. What a file system does behind an open file is the interface [IoOps]. The
    directory listing fills a buffer with records of variable length; the records are
    laid out byte by byte, as the C structure is. *)

From stdpp Require Import base gmap list.
From S2P Require Import Prelude KString FdTable.
Local Open Scope Z_scope.
Local Open Scope kernel_scope.

(** ** Flags of [open] *)

Definition O_RDONLY : Z := 0.
Definition O_WRONLY : Z := 1.
Definition O_RDWR : Z := 2.
Definition O_CREAT : Z := 64.
Definition O_EXCL : Z := 128.
Definition O_TRUNC : Z := 512.
Definition O_APPEND : Z := 1024.
Definition O_NONBLOCK : Z := 2048.
Definition O_DSYNC : Z := 4096.
Definition O_DIRECT : Z := 16384.
Definition O_DIRECTORY : Z := 65536.
Definition O_NOFOLLOW : Z := 131072.
Definition O_CLOEXEC : Z := 524288.
Definition O_SYNC : Z := 1052672.
Definition O_PATH : Z := 2097152.
Definition O_ACCMODE : Z := Z.lor 3 O_PATH.
Definition VALID_OPEN_FLAGS : Z :=
  fold_right Z.lor 0 [O_ACCMODE; O_CREAT; O_EXCL; O_TRUNC; O_APPEND; O_NONBLOCK; O_SYNC; O_DIRECTORY; O_NOFOLLOW; O_CLOEXEC; O_DSYNC].

Definition FMODE_READ : Z := 1.
Definition FMODE_APPEND : Z := 8.
Definition FMODE_NONBLOCK : Z := 16.
Definition FMODE_DIRECT : Z := 32.
Definition FMODE_SYNC : Z := 64.
Definition FMODE_EXCL : Z := 128.
Definition FMODE_DIRECTORY : Z := 2048.
Definition FMODE_PATH : Z := 4096.

Definition LOOKUP_FOLLOW : Z := 1.
Definition LOOKUP_DIRECTORY : Z := 2.
Definition LOOKUP_CREATE : Z := 512.
Definition LOOKUP_EXCL : Z := 1024.

Definition EISDIR : Z := 21.
Definition ENOTDIR : Z := 20.
Definition ENOSYS : Z := 38.
Definition EFAULT : Z := 14.

Definition any (mask flags : Z) : bool := negb (Z.land flags mask =? 0).
Definition add_if (c : bool) (bit m : Z) : Z := if c then Z.lor m bit else m.

Definition open_flags_to_fmode (flags : Z) : Z :=
  let acc := Z.land flags O_ACCMODE in
  let m :=
    if acc =? O_RDONLY then FMODE_READ
    else if acc =? O_WRONLY then FMODE_WRITE
    else if acc =? O_RDWR then Z.lor FMODE_READ FMODE_WRITE
    else 0 in
  let m := add_if (any O_APPEND flags) FMODE_APPEND m in
  let m := add_if (any O_NONBLOCK flags) FMODE_NONBLOCK m in
  let m := add_if (any O_DIRECT flags) FMODE_DIRECT m in
  let m := add_if (any O_SYNC flags || any O_DSYNC flags) FMODE_SYNC m in
  let m := add_if (any O_EXCL flags) FMODE_EXCL m in
  let m := add_if (any O_PATH flags) FMODE_PATH m in
  add_if (any O_DIRECTORY flags) FMODE_DIRECTORY m.

Definition open2lookup (flags : Z) : Z :=
  let l := add_if (negb (any O_NOFOLLOW flags)) LOOKUP_FOLLOW 0 in
  let l := add_if (any O_DIRECTORY flags) LOOKUP_DIRECTORY l in
  let l := add_if (any O_CREAT flags) LOOKUP_CREATE l in
  add_if (Z.land flags (Z.lor O_CREAT O_EXCL) =? Z.lor O_CREAT O_EXCL) LOOKUP_EXCL l.

Definition validate_open_flags (flags : Z) : Z :=
  let acc := Z.land flags O_ACCMODE in
  if negb (acc =? O_RDONLY) && negb (acc =? O_WRONLY) && negb (acc =? O_RDWR) then - EINVAL
  else if any O_TRUNC flags && (acc =? O_RDONLY) then - EINVAL
  else if any O_EXCL flags && negb (any O_CREAT flags) then - EINVAL
  else if any O_DIRECTORY flags && any O_TRUNC flags then - EISDIR
  else if any (Z.lnot VALID_OPEN_FLAGS) flags then - EINVAL
  else 0.

(** ** Directory listings *)

(** [struct getdents_callback]: the position of its [dir_context], and the buffer. *)
Record getdents := Getdents {
  gd_pos : Z;
  bufpos : Z;
  gd_count : Z;
}.

(** What a file system passes to the callback for one entry; the name is a pointer. *)
Record dir_entry := DirEntry {
  e_name : Z;
  e_namlen : Z;
  e_offset : Z;
  e_ino : Z;
  e_type : Z;
}.

(** [struct linux_dirent]: 8 bytes of inode number, 8 of offset, 2 of length, 1 of type,
    then the name; 24 is its size with padding. *)
Definition DIRENT_SIZE : Z := 24.
Definition D_OFF : Z := 8.
Definition D_RECLEN : Z := 16.
Definition D_TYPE : Z := 18.
Definition D_NAME : Z := 19.

Definition reclen_of (namlen : Z) : Z := u32 (ROUNDUP (u64 (DIRENT_SIZE + namlen + 1)) 8).

Definition filldir (e : dir_entry) (c : getdents) (m : mem) : outcome (Z * getdents * mem) :=
  let reclen := reclen_of (e_namlen e) in
  if gd_count c <? reclen then Ok (0, c, m)
  else
    let p := bufpos c in
    let! m := store_le 8 p (e_ino e) m in
    let! m := store_le 8 (p + D_OFF) (e_offset e) m in
    let! m := store_le 2 (p + D_RECLEN) reclen m in
    let! m := store_le 1 (p + D_TYPE) (e_type e) m in
    let! (_, m) := strncpy (p + D_NAME) (e_name e) (u64 (e_namlen e)) m in
    let! m := store8 (p + D_NAME + e_namlen e) 0 m in
    Ok (1, Getdents (gd_pos c) (p + reclen) (gd_count c - reclen), m).

(** The operations behind an open file; [None] is a missing function pointer, [has_fop]
    that there is a table at all. [fs_iterate] gets the callback. *)
Class IoOps (V : Type) : Type := {
  has_fop : Z → V → bool;
  fs_open : Z → V → option (Z → Z * V);
  fs_read : Z → V → option (Z → Z → Z → mem → outcome (Z * Z * V * mem));
  fs_write : Z → V → option (Z → Z → Z → mem → outcome (Z * Z * V));
  fs_fsync : Z → V → option (Z → Z → Z → Z * V);
  fs_iterate : Z → V → option ((dir_entry → getdents → mem → outcome (Z * getdents * mem)) → getdents → mem →
                               outcome (Z * getdents * mem * V));
  is_dir : Z → V → bool;
  sync_inode : Z → Z → V → Z * V;
}.

Section FileIO.
Context {A : Type} {KM : KMalloc A} {V : Type} {FO : FileOps V} {IO : IoOps V}.
Local Abbreviation state := (@fdmem A V).

Definition file_open (f flags : Z) (s : state) : outcome (Z * state) :=
  if f =? 0 then Ok (- EINVAL, s)
  else
    let! _ := get_file f s in
    match (if has_fop f (vfs s) then fs_open f (vfs s) else None) with
    | Some op => let (r, v) := op flags in Ok (r, set_vfs v s)
    | None => Ok (0, s)
    end.

Definition file_close (f : Z) (s : state) : outcome (Z * state) :=
  if f =? 0 then Ok (- EINVAL, s) else file_unref f s.

(** The inode operations are those of [Inode]; both synchronise data and metadata. *)
Definition file_sync (f datasync : Z) (s : state) : outcome (Z * state) :=
  if f =? 0 then Ok (- EINVAL, s)
  else
    let! v := get_file f s in
    if f_inode v =? 0 then Ok (- EINVAL, s)
    else
      match (if has_fop f (vfs s) then fs_fsync f (vfs s) else None) with
      | Some op => let (r, x) := op 0 (2 ^ 63 - 1) datasync in Ok (r, set_vfs x s)
      | None => let (r, x) := sync_inode (f_inode v) 1 (vfs s) in Ok (r, set_vfs x s)
      end.

Definition file_isReadable (f : Z) (s : state) : outcome bool :=
  if f =? 0 then Ok false
  else
    let! v := get_file f s in
    if (f_inode v =? 0) || (f_refcount v <=? 0) then Ok false else Ok (any FMODE_READ (f_mode v)).

Definition file_isWriteable (f : Z) (s : state) : outcome bool :=
  if f =? 0 then Ok false
  else
    let! v := get_file f s in
    if (f_inode v =? 0) || (f_refcount v <=? 0) then Ok false else Ok (any FMODE_WRITE (f_mode v)).

(** The position is passed by its address and is where the operation leaves it. *)
Definition file_read (f buf count : Z) (s : state) (m : mem) : outcome (Z * state * mem) :=
  if f =? 0 then Ok (- EBADF, s, m)
  else
    let! v := get_file f s in
    if negb (has_fop f (vfs s)) then Ok (- EBADF, s, m)
    else if negb (any FMODE_READ (f_mode v)) then Ok (- EBADF, s, m)
    else
      match fs_read f (vfs s) with
      | Some op =>
          let! (r, pos, x, m) := op buf count (f_pos v) m in
          Ok (r, put_file f (set_f_pos pos v) (set_vfs x s), m)
      | None => Ok (- ENOSYS, s, m)
      end.

Definition file_write (f buf count : Z) (s : state) (m : mem) : outcome (Z * state) :=
  if f =? 0 then Ok (- EBADF, s)
  else
    let! v := get_file f s in
    if negb (has_fop f (vfs s)) then Ok (- EBADF, s)
    else if negb (any FMODE_WRITE (f_mode v)) then Ok (- EBADF, s)
    else
      match fs_write f (vfs s) with
      | Some op =>
          let! (r, pos, x) := op buf count (f_pos v) m in
          Ok (r, put_file f (set_f_pos pos v) (set_vfs x s))
      | None => Ok (- EINVAL, s)
      end.

Definition do_read (fdt fd buf count : Z) (s : state) (m : mem) : outcome (Z * state * mem) :=
  let! (filp, s) := fdtable_getFile fdt (u64 fd) s in
  if filp =? 0 then Ok (- EBADF, s, m)
  else
    let! (ret, s, m) := file_read filp buf count s m in
    let! (_, s) := file_unref filp s in
    Ok (ret, s, m).

Definition do_write (fdt fd buf count : Z) (s : state) (m : mem) : outcome (Z * state) :=
  let! (filp, s) := fdtable_getFile fdt (u64 fd) s in
  if filp =? 0 then Ok (- EBADF, s)
  else
    let! (ret, s) := file_write filp buf count s m in
    let! (_, s) := file_unref filp s in
    Ok (ret, s).

Definition file_iterate (f : Z) (c : getdents) (s : state) (m : mem) : outcome (Z * getdents * state * mem) :=
  if f =? 0 then Ok (- EINVAL, c, s, m)
  else
    let! _ := get_file f s in
    match (if has_fop f (vfs s) then fs_iterate f (vfs s) else None) with
    | Some op =>
        let! (r, c, m, v) := op filldir c m in
        Ok (r, c, set_vfs v s, m)
    | None => Ok (- ENOSYS, c, s, m)
    end.

(** The reference [fdtable_getFile] takes is never dropped. *)
Definition do_getdents64 (fdt fd dirp count : Z) (s : state) (m : mem) : outcome (Z * state * mem) :=
  if dirp =? 0 then Ok (- EFAULT, s, m)
  else
    let! (f, s) := fdtable_getFile fdt (u64 fd) s in
    if f =? 0 then Ok (- EBADF, s, m)
    else
      let! v := get_file f s in
      if f_inode v =? 0 then Fault
      else if negb (is_dir (f_inode v) (vfs s)) then Ok (- ENOTDIR, s, m)
      else
        match (if has_fop f (vfs s) then fs_iterate f (vfs s) else None) with
        | None => Ok (- ENOTDIR, s, m)
        | Some _ =>
            let! (ret, c, s, m) := file_iterate f (Getdents (f_pos v) dirp count) s m in
            if ret <? 0 then Ok (ret, s, m)
            else
              let! v := get_file f s in
              let s := put_file f (set_f_pos (gd_pos c) v) s in
              Ok (s32 (count - gd_count c), s, m)
        end.
End FileIO.

(** ** What a listing holds *)

(** Reading a string, and the records of a buffer, as a program does. *)
Fixpoint read_cstr (fuel : nat) (p : Z) (m : mem) : outcome (list Z) :=
  let! b := load8 p m in
  if b =? 0 then Ok []
  else
    match fuel with
    | O => Timeout
    | S fuel => let! l := read_cstr fuel (p + 1) m in Ok (b :: l)
    end.

Fixpoint read_dirents (fuel : nat) (p len : Z) (m : mem) : outcome (list (Z * Z * Z * list Z)) :=
  if len <=? 0 then Ok []
  else
    match fuel with
    | O => Timeout
    | S fuel =>
        let! ino := load_le 8 p m in
        let! off := load_le 8 (p + D_OFF) m in
        let! reclen := load_le 2 (p + D_RECLEN) m in
        let! type := load_le 1 (p + D_TYPE) m in
        let! name := read_cstr (size m) (p + D_NAME) m in
        let! l := read_dirents fuel (p + reclen) (len - reclen) m in
        Ok ((ino, off, type, name) :: l)
    end.

Lemma load_le_bytes n : ∀ p v m,
  (∀ i, 0 ≤ i < Z.of_nat n → m !! (p + i) = Some ((v / 256 ^ i) mod 256)) → load_le n p m = Ok (v mod 256 ^ Z.of_nat n).
Proof.
  induction n as [|n IH]; intros p v m H; cbn [load_le]; [by rewrite Z.mod_1_r|].
  rewrite (load8_ok p (v mod 256)).
  2: { specialize (H 0 ltac:(lia)). by rewrite Z.add_0_r, Z.pow_0_r, Z.div_1_r in H. }
  cbn [obind]. rewrite (IH (p + 1) (v / 256)).
  2: { intros i Hi. replace (p + 1 + i) with (p + (i + 1)) by lia. rewrite H by lia. do 2 f_equal.
       replace (i + 1) with (Z.succ i) by lia. rewrite Z.pow_succ_r by lia. by rewrite Z.div_div by lia. }
  cbn [obind]. f_equal. rewrite Nat2Z.inj_succ, Z.pow_succ_r by lia. rewrite Z.rem_mul_r by lia. done.
Qed.

Lemma read_cstr_ok m l : ∀ fuel p, cstr m p l → (length l ≤ fuel)%nat → read_cstr fuel p m = Ok l.
Proof.
  induction l as [|b l IH]; intros fuel p Hc Hf.
  - apply cstr_nil in Hc. destruct fuel; cbn [read_cstr]; by rewrite (load8_ok _ _ _ Hc).
  - apply cstr_cons in Hc as (Hb & Hr & Hc). destruct fuel as [|fuel]; [cbn in Hf; lia|]. cbn [read_cstr]. rewrite (load8_ok _ _ _ Hb). cbn [obind].
    rewrite (proj2 (Z.eqb_neq b 0)) by lia. rewrite IH by (done || cbn in Hf; lia). done.
Qed.

(** The entry of a record: numbers of their width, a name of at most 255 bytes. *)
Record good_entry (m : mem) (e : dir_entry) (l : list Z) : Prop := {
  ge_name : cstr m (e_name e) l;
  ge_len : e_namlen e = Z.of_nat (length l) ∧ e_namlen e ≤ 255;
  ge_ino : 0 ≤ e_ino e < 2 ^ 64;
  ge_off : 0 ≤ e_offset e < 2 ^ 64;
  ge_type : 0 ≤ e_type e < 256;
}.

Definition entry_value (e : dir_entry) (l : list Z) : Z * Z * Z * list Z := (e_ino e, e_offset e, e_type e, l).

Lemma reclen_bounds n : 0 ≤ n ≤ 255 → D_NAME + n + 1 ≤ reclen_of n < 2 ^ 16 ∧ reclen_of n mod 8 = 0.
Proof.
  intros Hn. unfold reclen_of, ROUNDUP, DIRENT_SIZE, D_NAME. rewrite (u64_small (24 + n + 1)) by lia. rewrite (u64_small (24 + n + 1 - 1)) by lia.
  assert ((24 + n + 1 - 1) / 8 ≤ 40) by (apply Z.div_le_upper_bound; lia). assert (0 ≤ (24 + n + 1 - 1) / 8) by (apply Z.div_pos; lia).
  rewrite u64_small by lia. rewrite u32_small by lia. split; [zdm|]. by rewrite Z.mod_mul.
Qed.

(** The record of [e] lies at [p]. *)
Definition record_at (m : mem) (p : Z) (e : dir_entry) (l : list Z) : Prop :=
  load_le 8 p m = Ok (e_ino e) ∧ load_le 8 (p + D_OFF) m = Ok (e_offset e) ∧ load_le 2 (p + D_RECLEN) m = Ok (reclen_of (e_namlen e)) ∧
  load_le 1 (p + D_TYPE) m = Ok (e_type e) ∧ cstr m (p + D_NAME) l.

Lemma record_word_same n : ∀ p m m', (∀ a, p ≤ a < p + Z.of_nat n → m' !! a = m !! a) → load_le n p m' = load_le n p m.
Proof.
  induction n as [|n IH]; intros p m m' H; cbn [load_le]; [done|]. unfold load8. rewrite H by lia. destruct (m !! p); [|done]. cbn [of_option obind].
  rewrite (IH (p + 1) m m'); [done|]. intros a Ha. apply H. lia.
Qed.

Lemma record_same m m' p e l :
  e_namlen e = Z.of_nat (length l) → 0 ≤ e_namlen e ≤ 255 → (∀ a, p ≤ a < p + reclen_of (e_namlen e) → m' !! a = m !! a) → record_at m p e l → record_at m' p e l.
Proof.
  intros El Hn Hs (H1 & H2 & H3 & H4 & H5). pose proof (reclen_bounds _ Hn) as [Hb _]. unfold record_at, D_NAME, D_OFF, D_RECLEN, D_TYPE in *.
  split_and!; [rewrite (record_word_same 8 p m m')|rewrite (record_word_same 8 _ m m')|rewrite (record_word_same 2 _ m m')|rewrite (record_word_same 1 _ m m')|apply (cstr_same m); [|done]];
    try done; intros a Ha; apply Hs; lia.
Qed.

(** One call of the callback, when the record fits. *)
Lemma filldir_fits e l c m :
  mem_ok m → good_entry m e l → reclen_of (e_namlen e) ≤ gd_count c → mapped m (bufpos c) (gd_count c) →
  disjoint (bufpos c) (gd_count c) (e_name e) (e_namlen e + 1) →
  ∃ m', filldir e c m = Ok (1, Getdents (gd_pos c) (bufpos c + reclen_of (e_namlen e)) (gd_count c - reclen_of (e_namlen e)), m') ∧
    record_at m' (bufpos c) e l ∧ (∀ a, ~ (bufpos c ≤ a < bufpos c + reclen_of (e_namlen e)) → m' !! a = m !! a) ∧ same_dom m m' ∧ mem_ok m'.
Proof.
  intros Hok [Hn [El Hmax] Hi Ho Ht] Hfit Hmap Hdis. assert (0 ≤ e_namlen e ≤ 255) as Hr by lia. pose proof (reclen_bounds _ Hr) as [Hb _].
  set (p := bufpos c) in *. set (r := reclen_of (e_namlen e)) in *. unfold disjoint in Hdis. unfold filldir. fold p r.
  rewrite (proj2 (Z.ltb_ge _ _)) by done. unfold D_NAME, D_OFF, D_RECLEN, D_TYPE in *.
  destruct (store_le_ok 8 p (e_ino e) m) as (m1 & -> & B1 & F1 & S1 & K1); [intros i H; apply Hmap; lia|done|]. cbn [obind].
  destruct (store_le_ok 8 (p + 8) (e_offset e) m1) as (m2 & -> & B2 & F2 & S2 & K2); [apply (same_dom_mapped m); [done|]; intros i H; rewrite <-Z.add_assoc; apply Hmap; lia|done|]. cbn [obind].
  assert (same_dom m m2) as S02 by (by eapply same_dom_trans).
  destruct (store_le_ok 2 (p + 16) r m2) as (m3 & -> & B3 & F3 & S3 & K3); [apply (same_dom_mapped m); [done|]; intros i H; rewrite <-Z.add_assoc; apply Hmap; lia|done|]. cbn [obind].
  assert (same_dom m m3) as S03 by (by eapply same_dom_trans).
  destruct (store_le_ok 1 (p + 18) (e_type e) m3) as (m4 & -> & B4 & F4 & S4 & K4); [apply (same_dom_mapped m); [done|]; intros i H; rewrite <-Z.add_assoc; apply Hmap; lia|done|]. cbn [obind].
  assert (same_dom m m4) as S04 by (by eapply same_dom_trans). rewrite u64_small by lia.
  assert (∀ a, ~ (p ≤ a < p + 19) → m4 !! a = m !! a) as F04 by (intros a Ha; rewrite F4, F3, F2, F1 by lia; done).
  destruct (strncpy_ok (p + 19) (e_name e) l (e_namlen e) m4) as (m5 & -> & B5 & F5 & S5 & K5); [done|lia| | | |].
  { apply (cstr_same m); [|done]. intros a Ha. apply F04. lia. }
  { apply (same_dom_mapped m); [done|]. intros i H. rewrite <-Z.add_assoc. apply Hmap. lia. }
  { unfold disjoint. lia. }
  cbn [obind]. assert (same_dom m m5) as S05 by (by eapply same_dom_trans).
  destruct (store8_ok (p + 19 + e_namlen e) 0 m5) as (m6 & -> & E6 & S6 & K6); [apply S05; rewrite <-Z.add_assoc; apply Hmap; lia|done|]. cbn [obind].
  exists m6. split; [done|].
  assert (∀ a, a ≠ p + 19 + e_namlen e → m6 !! a = m5 !! a) as F6 by (intros a Ha; rewrite E6; by rewrite lookup_insert_ne).
  assert (∀ a, p ≤ a < p + 19 → m6 !! a = m4 !! a) as F46 by (intros a Ha; rewrite F6, F5 by lia; done).
  split; [|split_and!; [intros a Ha; rewrite F6, F5, F04 by lia; done|by eapply same_dom_trans|done]].
  unfold record_at, D_NAME, D_OFF, D_RECLEN, D_TYPE. split_and!.
  - rewrite (load_le_bytes 8 p (e_ino e)); [by rewrite Z.mod_small by lia|]. intros i H. rewrite F46, F4, F3, F2 by lia. by apply B1.
  - rewrite (load_le_bytes 8 (p + 8) (e_offset e)); [by rewrite Z.mod_small by lia|]. intros i H. rewrite F46, F4, F3 by lia. by apply B2.
  - rewrite (load_le_bytes 2 (p + 16) r); [by rewrite Z.mod_small by (change (256 ^ Z.of_nat 2) with (2 ^ 16); lia)|]. intros i H. rewrite F46, F4 by lia. by apply B3.
  - rewrite (load_le_bytes 1 (p + 18) (e_type e)); [by rewrite Z.mod_small by (change (256 ^ Z.of_nat 1) with 256; lia)|]. intros i H. rewrite F46 by lia. by apply B4.
  - rewrite El, Nat2Z.id, resize_all_alt in B5 by done. split; [|apply Hn]. apply bytes_at_app. split.
    + apply (bytes_at_same m5); [|done]. intros a Ha. apply F6. lia.
    + cbn. split; [|done]. rewrite <-El, E6, lookup_insert_eq. done.
Qed.

(** A listing that passes [es] to the callback until it says stop. *)
Fixpoint fill_list (es : list dir_entry) (c : getdents) (m : mem) : outcome (getdents * mem) :=
  match es with
  | [] => Ok (c, m)
  | e :: es =>
      let! (r, c, m) := filldir e c m in
      if r =? 0 then Ok (c, m) else fill_list es c m
  end.

(** What [k] entries leave in the buffer. *)
Definition listed (k : nat) (es : list dir_entry) (ls : list (list Z)) (c c' : getdents) (m m' : mem) : Prop :=
  0 ≤ gd_count c' ∧ bufpos c' + gd_count c' = bufpos c + gd_count c ∧ bufpos c ≤ bufpos c' ∧ gd_pos c' = gd_pos c ∧
  read_dirents k (bufpos c) (bufpos c' - bufpos c) m' = Ok (take k (zip_with entry_value es ls)) ∧
  (∀ e, es !! k = Some e → gd_count c' < reclen_of (e_namlen e)) ∧
  (∀ a, ~ (bufpos c ≤ a < bufpos c') → m' !! a = m !! a) ∧ same_dom m m' ∧ mem_ok m'.

Lemma good_entry_same m m' e l :
  (∀ a, e_name e ≤ a < e_name e + e_namlen e + 1 → m' !! a = m !! a) → good_entry m e l → good_entry m' e l.
Proof. intros Hs [Hn [El Hm] Hi Ho Ht]. split; try done. apply (cstr_same m); [|done]. intros a Ha. apply Hs. lia. Qed.

Lemma read_dirents_cons k p len m e l r :
  record_at m p e l → 0 ≤ e_namlen e ≤ 255 → 0 < len →
  read_dirents k (p + reclen_of (e_namlen e)) (len - reclen_of (e_namlen e)) m = Ok r →
  read_dirents (S k) p len m = Ok (entry_value e l :: r).
Proof.
  intros (H1 & H2 & H3 & H4 & H5) Hn Hlen Hr. cbn [read_dirents]. rewrite (proj2 (Z.leb_gt _ _)) by done.
  rewrite H1, H2, H3, H4. cbn [obind]. rewrite (read_cstr_ok m l) by (done || apply Nat.lt_le_incl, (cstr_fuel _ _ _ H5)).
  cbn [obind]. rewrite Hr. done.
Qed.

Lemma fill_list_ok es : ∀ ls c m,
  mem_ok m → Forall2 (good_entry m) es ls → mapped m (bufpos c) (gd_count c) → 0 ≤ gd_count c →
  Forall (λ e, disjoint (bufpos c) (gd_count c) (e_name e) (e_namlen e + 1)) es →
  ∃ k c' m', fill_list es c m = Ok (c', m') ∧ (k ≤ length es)%nat ∧ listed k es ls c c' m m'.
Proof.
  induction es as [|e es IH]; intros ls c m Hok Hg Hmap Hc Hd.
  - exists 0%nat, c, m. split; [done|]. split; [done|]. split_and!; try done; try lia. cbn. by rewrite (proj2 (Z.leb_le _ 0)) by lia.
  - destruct ls as [|l ls]; [by inversion Hg|]. apply Forall2_cons in Hg as [Hge Hg]. apply Forall_cons in Hd as [Hde Hd].
    destruct (ge_len _ _ _ Hge) as [El Hmax]. assert (0 ≤ e_namlen e ≤ 255) as Hn by lia. pose proof (reclen_bounds _ Hn) as [Hb _]. unfold D_NAME in Hb.
    cbn [fill_list]. destruct (Z.ltb_spec (gd_count c) (reclen_of (e_namlen e))) as [Hlt|Hge'].
    + exists 0%nat, c, m. unfold filldir. rewrite (proj2 (Z.ltb_lt _ _)) by done. split; [done|]. split; [cbn; lia|].
      split_and!; try done; try lia; [cbn; by rewrite (proj2 (Z.leb_le _ 0)) by lia|]. intros e' [= <-]. done.
    + destruct (filldir_fits e l c m) as (m1 & E & Hrec & Ho & Hs & Hok1); try done. rewrite E. cbn [obind]. change (1 =? 0) with false. cbv iota.
      set (r := reclen_of (e_namlen e)) in *. set (c1 := Getdents _ _ _).
      destruct (IH ls c1 m1) as (k & c' & m' & E' & Hk & H1 & H2 & H3 & H4 & H5 & H6 & H7 & H8 & H9); [done| | |cbn; lia| |].
      * apply (Forall2_impl (λ e' l', good_entry m e' l' ∧ disjoint (bufpos c) (gd_count c) (e_name e') (e_namlen e' + 1))).
        -- clear -Hg Hd. revert Hd. induction Hg; intros Hd; [constructor|]. apply Forall_cons in Hd as [? ?]. constructor; auto.
        -- intros e' l' [He Hd']. apply (good_entry_same m); [|done]. intros a Ha. apply Ho. unfold disjoint in Hd'. lia.
      * apply (same_dom_mapped m); [done|]. intros i Hi. cbn. rewrite <-Z.add_assoc. apply Hmap. cbn in Hi. lia.
      * eapply Forall_impl; [exact Hd|]. cbn. unfold disjoint. intros e' H. lia.
      * cbn in H2, H3, H4, H5. exists (S k), c', m'. split; [done|]. split; [cbn; lia|]. split_and!; try done; try lia.
        -- cbn [zip_with take]. apply read_dirents_cons; [|done|lia|].
           ++ apply (record_same m1); [lia|done| |done]. intros a Ha. apply H7. cbn. fold r in Ha. lia.
           ++ fold r. by replace (bufpos c' - bufpos c - r) with (bufpos c' - (bufpos c + r)) by lia.
        -- intros a Ha. rewrite H7, Ho; [done|lia|cbn; lia].
        -- by eapply same_dom_trans.
Qed.

Section Spec.
Context {A : Type} {KM : KMalloc A} {V : Type} {FO : FileOps V} {IO : IoOps V}.
Implicit Types (s : @fdmem A V).

(** Descriptor [fd] of the table [fdt] is the file [f]. *)
Record open_fd (fdt fd f : Z) (t : fdtable) (v : file) s : Prop := {
  of_table : tables s !! fdt = Some t ∧ fdt ≠ 0 ∧ table_ok t;
  of_range : 0 ≤ fd < max_fds t ∧ fd < 2 ^ 31;
  of_file : file_at t fd = f ∧ f ≠ 0 ∧ PTR_IS_ERROR f = false;
  of_rec : files s !! f = Some v ∧ 0 < f_refcount v < 2 ^ 31 - 1;
}.

Lemma open_getFile fdt fd f t v s :
  open_fd fdt fd f t v s → fdtable_getFile fdt (u64 fd) s = Ok (f, put_file f (set_f_refcount (f_refcount v + 1) v) s).
Proof.
  intros [(Ht & Hz & Hok) (Hr & Hmax) (Ef & Hf & _) (Hv & Hc)]. rewrite u64_small by lia. by apply (getFile_ok fdt t fd f v).
Qed.

(** Dropping the reference a system call took. *)
Lemma drop_taken f v v' s :
  f ≠ 0 → PTR_IS_ERROR f = false → files s !! f = Some v' → f_refcount v' = f_refcount v + 1 → 0 < f_refcount v < 2 ^ 31 - 1 →
  ∃ r, file_unref f s = Ok (r, put_file f (set_f_refcount (f_refcount v) v') s).
Proof.
  intros Hf He Hv' Ec Hc. unfold file_unref, get_file. rewrite (proj2 (Z.eqb_neq f 0)), He, Hv' by done. cbn [orb of_option obind].
  cbn [f_refcount set_f_refcount]. rewrite Ec, s32_small by lia. replace (f_refcount v + 1 - 1) with (f_refcount v) by lia.
  rewrite (proj2 (Z.eqb_neq _ 0)) by lia. by eexists.
Qed.

(** A read through a descriptor is a read of the file system at the position of the
    file, which moves to where the file system leaves it; without permission to read,
    or without the operation, nothing changes but the result. The reference count is
    what it was. *)
Theorem do_read_file fdt fd f t v s buf count m :
  open_fd fdt fd f t v s → has_fop f (vfs s) = true →
  (any FMODE_READ (f_mode v) = false → ∃ s', do_read fdt fd buf count s m = Ok (- EBADF, s', m) ∧ files s' = files s ∧ vfs s' = vfs s) ∧
  (∀ op r pos x m', any FMODE_READ (f_mode v) = true → fs_read f (vfs s) = Some op → op buf count (f_pos v) m = Ok (r, pos, x, m') →
    ∃ s', do_read fdt fd buf count s m = Ok (r, s', m') ∧ files s' = <[f := set_f_pos pos v]> (files s) ∧ vfs s' = x ∧ tables s' = tables s).
Proof.
  intros Ho Hfop. pose proof (open_getFile _ _ _ _ _ _ Ho) as E. destruct Ho as [_ _ (_ & Hf & He) (Hv & Hc)].
  unfold do_read. rewrite E. cbn [obind]. rewrite (proj2 (Z.eqb_neq f 0)) by done. set (s1 := put_file f _ s).
  assert (files s1 !! f = Some (set_f_refcount (f_refcount v + 1) v)) as H1 by apply lookup_insert_eq.
  unfold file_read, get_file. rewrite (proj2 (Z.eqb_neq f 0)), H1 by done. cbn [of_option obind].
  change (vfs s1) with (vfs s). rewrite Hfop. cbn [negb]. change (f_mode (set_f_refcount _ v)) with (f_mode v). split.
  - intros Hm. rewrite Hm. cbn [negb obind]. destruct (drop_taken f v _ s1 Hf He H1 eq_refl Hc) as (r & ->). cbn [obind]. eexists. split; [done|].
    cbn. rewrite insert_insert_eq. split; [|done]. apply insert_id. rewrite Hv. by destruct v.
  - intros op r pos x m' Hm Hop Er. rewrite Hm, Hop. cbn [negb]. change (f_pos (set_f_refcount _ v)) with (f_pos v). rewrite Er. cbn [obind].
    set (s2 := put_file f _ _). assert (files s2 !! f = Some (set_f_pos pos (set_f_refcount (f_refcount v + 1) v))) as H2 by apply lookup_insert_eq.
    destruct (drop_taken f v _ s2 Hf He H2 eq_refl Hc) as (r' & ->). cbn [obind]. eexists. split; [done|].
    cbn. rewrite !insert_insert_eq. split; [|done]. by destruct v.
Qed.

(** The tables of ext4 and of ramfs set no [iterate]: a directory of this kernel cannot
    be listed, and the attempt costs a reference. *)
Theorem getdents_no_iterate fdt fd f t v s dirp count m :
  open_fd fdt fd f t v s → f_inode v ≠ 0 → dirp ≠ 0 → fs_iterate f (vfs s) = None →
  ∃ s', do_getdents64 fdt fd dirp count s m = Ok (- ENOTDIR, s', m) ∧
    files s' = <[f := set_f_refcount (f_refcount v + 1) v]> (files s).
Proof.
  intros Ho Hi Hp Hit. pose proof (open_getFile _ _ _ _ _ _ Ho) as E. destruct Ho as [_ _ (_ & Hf & _) _].
  unfold do_getdents64. rewrite (proj2 (Z.eqb_neq dirp 0)), E by done. cbn [obind].
  rewrite (proj2 (Z.eqb_neq f 0)) by done. set (s1 := put_file f _ s).
  assert (files s1 !! f = Some (set_f_refcount (f_refcount v + 1) v)) as H1 by apply lookup_insert_eq.
  unfold get_file. rewrite H1. cbn [of_option obind]. change (f_inode (set_f_refcount _ v)) with (f_inode v).
  rewrite (proj2 (Z.eqb_neq _ 0)) by done. change (vfs s1) with (vfs s). rewrite Hit.
  exists s1. by destruct (is_dir _ _), (has_fop _ _).
Qed.

(** What a listing would be, for a file system whose [iterate] passes entries with names
    that stay where they are: the records [do_getdents64] leaves in the buffer, read
    the way a program reads them, are the entries of the directory in order, as many as
    fit; the result is the number of bytes they take; no byte outside them changes; the
    position is where the file system leaves it. *)
Theorem getdents_roundtrip fdt fd f t v s dirp count m es ls op np x :
  open_fd fdt fd f t v s → f_inode v ≠ 0 → is_dir (f_inode v) (vfs s) = true → has_fop f (vfs s) = true →
  fs_iterate f (vfs s) = Some op →
  (∀ c, op filldir c m = (let! (c, m) := fill_list es c m in Ok (0, Getdents np (bufpos c) (gd_count c), m, x))) →
  mem_ok m → Forall2 (good_entry m) es ls → dirp ≠ 0 → mapped m dirp count → 0 ≤ count < 2 ^ 31 →
  Forall (λ e, disjoint dirp count (e_name e) (e_namlen e + 1)) es →
  ∃ k n s' m', do_getdents64 fdt fd dirp count s m = Ok (n, s', m') ∧ 0 ≤ n ≤ count ∧ (k ≤ length es)%nat ∧
    read_dirents k dirp n m' = Ok (take k (zip_with entry_value es ls)) ∧
    (∀ e, es !! k = Some e → count - n < reclen_of (e_namlen e)) ∧
    (∀ a, ~ (dirp ≤ a < dirp + n) → m' !! a = m !! a) ∧
    files s' = <[f := set_f_pos np (set_f_refcount (f_refcount v + 1) v)]> (files s).
Proof.
  intros Ho Hi Hdir Hfop Hit Hop Hok Hg Hp Hmap Hc Hd. pose proof (open_getFile _ _ _ _ _ _ Ho) as E. destruct Ho as [_ _ (_ & Hf & _) _].
  unfold do_getdents64. rewrite (proj2 (Z.eqb_neq dirp 0)), E by done. cbn [obind]. rewrite (proj2 (Z.eqb_neq f 0)) by done. set (s1 := put_file f _ s).
  assert (files s1 !! f = Some (set_f_refcount (f_refcount v + 1) v)) as H1 by apply lookup_insert_eq.
  unfold get_file. rewrite H1. cbn [of_option obind]. change (f_inode (set_f_refcount _ v)) with (f_inode v). rewrite (proj2 (Z.eqb_neq _ 0)) by done.
  change (vfs s1) with (vfs s). rewrite Hdir, Hfop, Hit. cbn [negb].
  unfold file_iterate, get_file. rewrite (proj2 (Z.eqb_neq f 0)), H1 by done. cbn [of_option obind]. change (vfs s1) with (vfs s). rewrite Hfop, Hit, Hop.
  destruct (fill_list_ok es ls (Getdents (f_pos v) dirp count) m Hok Hg Hmap ltac:(apply Hc) Hd) as (k & c' & m' & Ef & Hk & L1 & L2 & L3 & _ & L5 & L6 & L7 & _).
  change (f_pos (set_f_refcount _ v)) with (f_pos v). rewrite Ef. cbn [obind]. change (0 <? 0) with false. cbv iota.
  change (files (set_vfs x s1)) with (files s1). rewrite H1. cbn [of_option obind]. cbn [gd_count gd_pos]. cbn in L2, L3, L5, L7.
  exists k, (count - gd_count c'), (put_file f (set_f_pos np (set_f_refcount (f_refcount v + 1) v)) (set_vfs x s1)), m'.
  rewrite s32_small by lia. replace (bufpos c' - dirp) with (count - gd_count c') in L5 by lia. split_and!; try done; try lia.
  - intros e He. specialize (L6 e He). lia.
  - intros a Ha. apply L7. lia.
  - cbn. by rewrite insert_insert_eq.
Qed.
End Spec.

(** ** Concrete states *)

#[local] Instance no_file_ops : FileOps unit := {
  fs_release _ _ := None;
  fs_llseek _ _ _ _ := None;
  path_destroy _ u := u;
  i_size _ _ := 0;
}.

(** A directory with the entries "." and "ab"; any file reads as one byte 7. *)
Definition two_entries : list dir_entry := [DirEntry 100 1 1 2 4; DirEntry 110 2 2 9 8].

#[local] Instance dir_ops : IoOps unit := {
  has_fop _ _ := true;
  fs_open _ _ := None;
  fs_read _ u := Some (λ buf count pos m, let! m := store8 buf 7 m in Ok (1, pos + 1, u, m));
  fs_write _ _ := None;
  fs_fsync _ _ := None;
  fs_iterate _ u := Some (λ actor c m, let! (c, m) := fill_list two_entries c m in Ok (0, Getdents 2 (bufpos c) (gd_count c), m, u));
  is_dir _ _ := true;
  sync_inode _ _ u := (0, u);
}.

Definition dir_mem : mem :=
  list_to_map ([(100, 46); (101, 0); (110, 97); (111, 98); (112, 0)] ++ ((λ i, (i, 0)) <$> seqZ 200 60)).

Lemma dir_mem_ok : mem_ok dir_mem.
Proof.
  intros a b H. assert (map_Forall (λ _ b, 0 ≤ b < 256) dir_mem) as HF by (apply (bool_decide_unpack _); vm_compute; exact I). by apply (HF a b).
Qed.

Lemma dir_mem_mapped : mapped dir_mem 200 60.
Proof.
  assert (Forall (λ i, is_Some (dir_mem !! (200 + i))) (seqZ 0 60)) as HF by (apply (bool_decide_unpack _); vm_compute; exact I).
  rewrite Forall_forall in HF. intros i Hi. apply HF. by apply elem_of_seqZ.
Qed.

Lemma fd0_open : open_fd 4096 0 8192 fd_tab0 (File 1 3 0 1) (fd_mem0 1).
Proof. split; [split_and!; [done|done|apply fd_tab0_ok]|by vm_compute|by vm_compute|by vm_compute]. Qed.

Lemma two_entries_good : Forall2 (good_entry dir_mem) two_entries [[46]; [97; 98]].
Proof.
  repeat constructor; cbn; try lia; by vm_compute.
Qed.

Lemma do_read_file_witness : ∃ s', do_read 4096 0 200 1 (fd_mem0 1) dir_mem = Ok (1, s', <[200 := 7]> dir_mem) ∧
  files s' = <[8192 := File 1 3 1 1]> (files (fd_mem0 1)).
Proof.
  destruct (proj2 (do_read_file (IO := dir_ops) 4096 0 8192 fd_tab0 (File 1 3 0 1) (fd_mem0 1) 200 1 dir_mem fd0_open eq_refl) _ 1 1 tt (<[200 := 7]> dir_mem) eq_refl eq_refl)
    as (s' & E & H & _); [reflexivity|]. exists s'. split; [exact E|exact H].
Defined.

Lemma getdents_roundtrip_witness : ∃ k n s' m', do_getdents64 4096 0 200 60 (fd_mem0 1) dir_mem = Ok (n, s', m') ∧
  read_dirents k 200 n m' = Ok (take k [(2, 1, 4, [46]); (9, 2, 8, [97; 98])]).
Proof.
  destruct (getdents_roundtrip (IO := dir_ops) 4096 0 8192 fd_tab0 (File 1 3 0 1) (fd_mem0 1) 200 60 dir_mem two_entries [[46]; [97; 98]]
    (λ actor c m, let! (c, m) := fill_list two_entries c m in Ok (0, Getdents 2 (bufpos c) (gd_count c), m, tt)) 2 tt fd0_open)
    as (k & n & s' & m' & E & _ & _ & H & _).
  - discriminate.
  - reflexivity.
  - reflexivity.
  - reflexivity.
  - reflexivity.
  - exact dir_mem_ok.
  - exact two_entries_good.
  - discriminate.
  - exact dir_mem_mapped.
  - lia.
  - repeat (apply Forall_cons; split; [right; vm_compute; discriminate|]). apply Forall_nil. exact I.
  - exists k, n, s', m'. split; [exact E|exact H].
Defined.
