(* ===== verification/Ext4Lib.v ===== *)
(** * What the ext4 adaptation layer works with

    [kernel/fs/ext4] sits between the VFS and lwext4, the library under [vendor/lwext4].
    The library is not modelled: it is the interface [Lwext4] on a state of its own, and
    what the theorems need of it are the laws [Lwext4Sizes] and [Lwext4Store], read off
    [ext4_types.h], [ext4_inode.c], [ext4_fs.c] and [ext4_bcache.c]. Its functions return
    0 or a positive error code; no law says so, and nothing below depends on the sign. A
    [struct ext4_inode_ref] is a handle the library gives out; what the layer reads
    and writes through it (the inode's fields, [dirty]) goes through the interface.
    The calls back into the VFS are the interface [Kernel], on the whole state.
    [held] records the handles the layer has got and not put back: putting a handle
    that is not held (a second release of the same block) is a fault. *)

From stdpp Require Import base gmap list.
From S2P Require Import Prelude Inode.
Local Open Scope Z_scope.
Local Open Scope kernel_scope.

Definition EIO : Z := 5.
Definition ENOTEMPTY : Z := 39.
Definition ENODATA : Z := 61.
Definition EOPNOTSUPP : Z := 95.
Definition ENOSYS : Z := 38.

(** ** A state monad with the outcomes of the prelude *)

Definition st (X A : Type) : Type := X → outcome (A * X).

#[export] Instance st_ret {X} : MRet (st X) := λ A a s, Ok (a, s).
#[export] Instance st_bind {X} : MBind (st X) := λ A B k m s, obind (m s) (λ '(a, s'), k a s').

Definition fault {X A : Type} : st X A := λ _, Fault.

(** ** The library *)

(** The fields of an on-disk inode the layer converts. *)
Inductive efield :=
| EMode | EUid | EGid | ESize | EAtime | EMtime | ECtime | EDtime | EBlocks | ELinks | EDev.

#[export] Instance efield_eq_dec : EqDecision efield.
Proof. solve_decision. Defined.

(** An entry [ext4_dir_find_entry] found: the block it holds and the inode number. *)
Record search_result := SearchResult { sr_block : Z; sr_inode : Z }.

(** A directory iterator; [it_curr] is null at the end of the directory. *)
Record dir_iter := DirIter { it_pos : Z; it_curr : Z }.

(** One element of the list [ext4_xattr_list] makes. *)
Record xattr_entry := XattrEntry { xe_index : Z; xe_name : list Z }.

(** Every function returns its [int] result, then what it stores through pointers. *)
Class Lwext4 (E : Type) : Type := {
  ext4_fs_get_inode_ref : Z → Z → E → (Z * Z) * E;
  ext4_fs_put_inode_ref : Z → E → Z * E;
  ext4_fs_alloc_inode : Z → Z → E → (Z * Z) * E;
  ext4_fs_free_inode : Z → E → Z * E;
  ref_index : Z → E → Z;
  ref_field : efield → Z → E → Z;
  set_field : efield → Z → Z → E → E;
  ref_dirty : Z → E → bool;
  set_dirty : Z → bool → E → E;
  (** the 60 bytes of [inode->blocks], and a copy to their start *)
  ref_blocks : Z → E → list Z;
  set_blocks : Z → list Z → E → E;
  ext4_inode_is_softlink : Z → E → bool;
  (** the block buffer of the reference, null if there is none *)
  ref_buf : Z → E → Z;
  buf_on_dirty_list : Z → E → bool;
  ext4_bcache_set_dirty : Z → E → E;
  ext4_bcache_insert_dirty_node : Z → Z → E → E;
  ext4_block_flush_buf : Z → Z → E → Z * E;
  ext4_fs_inode_links_count_inc : Z → E → E;
  ext4_fs_inode_links_count_dec : Z → E → E;
  ext4_dir_add_entry : Z → list Z → Z → E → Z * E;
  ext4_dir_remove_entry : Z → list Z → E → Z * E;
  ext4_dir_find_entry : Z → list Z → E → (Z * search_result) * E;
  ext4_dir_destroy_result : Z → search_result → E → Z * E;
  ext4_dir_iterator_init : Z → Z → E → (Z * dir_iter) * E;
  ext4_dir_iterator_next : dir_iter → E → (Z * dir_iter) * E;
  ext4_dir_iterator_fini : dir_iter → E → Z * E;
  ext4_dir_dx_init : Z → Z → E → Z * E;
  ext4_dir_dx_reset_parent_inode : Z → Z → E → Z * E;
  ext4_fs_append_inode_dblk : Z → E → (Z * Z) * E;
  ext4_fs_get_inode_dblk_idx : Z → Z → bool → E → (Z * Z) * E;
  ext4_fs_init_inode_dblk_idx : Z → Z → E → (Z * Z) * E;
  ext4_fs_truncate_inode : Z → Z → E → Z * E;
  (** a block handle, its bytes, and a copy to their start *)
  ext4_block_get : Z → Z → E → (Z * Z) * E;
  ext4_block_set : Z → Z → E → Z * E;
  block_data : Z → E → list Z;
  set_block_data : Z → list Z → E → E;
  (** name index and name; [None] when [found] is false *)
  ext4_extract_xattr_name : list Z → option (Z * list Z);
  ext4_get_xattr_name_prefix : Z → option (list Z);
  ext4_xattr_get : Z → Z → list Z → Z → E → (Z * (list Z * Z)) * E;
  ext4_xattr_remove : Z → Z → list Z → E → Z * E;
  ext4_xattr_list : Z → E → (Z * (list xattr_entry * Z)) * E;
  ext4_free : xattr_entry → E → E;
  ext4_readlink : list Z → Z → E → (Z * list Z) * E;
  (** the file system as a whole *)
  fs_bdev : Z → E → Z;
  sb_log_block_size : Z → E → Z;
  ext4_block_cache_flush : Z → E → Z * E;
}.

(** ** The structures of the VFS, with the members this layer uses *)

Record timespec := Timespec { tv_sec : Z; tv_nsec : Z }.

Record inode := Inode {
  i_mode : Z;
  i_uid : Z;
  i_gid : Z;
  i_rdev : Z;
  i_size : Z;
  i_atime : timespec;
  i_mtime : timespec;
  i_ctime : timespec;
  i_nlink : Z;
  i_blocks : Z;
  i_superblock : Z;
  i_ino : Z;
  i_op : Z;
  i_fop : Z;
  i_state : Z;
}.

(** [d_name] holds the [len] bytes of the name. *)
Record dentry := Dentry {
  d_name : list Z;
  d_inode : Z;
  d_superblock : Z;
}.

Record superblock := Superblock {
  s_fs_info : Z;
  s_blocksize : Z;
  s_bdev : Z;
}.

Definition set_i_mode (x : Z) (i : inode) : inode :=
  Inode x (i_uid i) (i_gid i) (i_rdev i) (i_size i) (i_atime i) (i_mtime i) (i_ctime i)
    (i_nlink i) (i_blocks i) (i_superblock i) (i_ino i) (i_op i) (i_fop i) (i_state i).
Definition set_i_uid (x : Z) (i : inode) : inode :=
  Inode (i_mode i) x (i_gid i) (i_rdev i) (i_size i) (i_atime i) (i_mtime i) (i_ctime i)
    (i_nlink i) (i_blocks i) (i_superblock i) (i_ino i) (i_op i) (i_fop i) (i_state i).
Definition set_i_gid (x : Z) (i : inode) : inode :=
  Inode (i_mode i) (i_uid i) x (i_rdev i) (i_size i) (i_atime i) (i_mtime i) (i_ctime i)
    (i_nlink i) (i_blocks i) (i_superblock i) (i_ino i) (i_op i) (i_fop i) (i_state i).
Definition set_i_rdev (x : Z) (i : inode) : inode :=
  Inode (i_mode i) (i_uid i) (i_gid i) x (i_size i) (i_atime i) (i_mtime i) (i_ctime i)
    (i_nlink i) (i_blocks i) (i_superblock i) (i_ino i) (i_op i) (i_fop i) (i_state i).
Definition set_i_size (x : Z) (i : inode) : inode :=
  Inode (i_mode i) (i_uid i) (i_gid i) (i_rdev i) x (i_atime i) (i_mtime i) (i_ctime i)
    (i_nlink i) (i_blocks i) (i_superblock i) (i_ino i) (i_op i) (i_fop i) (i_state i).
Definition set_i_atime (x : timespec) (i : inode) : inode :=
  Inode (i_mode i) (i_uid i) (i_gid i) (i_rdev i) (i_size i) x (i_mtime i) (i_ctime i)
    (i_nlink i) (i_blocks i) (i_superblock i) (i_ino i) (i_op i) (i_fop i) (i_state i).
Definition set_i_mtime (x : timespec) (i : inode) : inode :=
  Inode (i_mode i) (i_uid i) (i_gid i) (i_rdev i) (i_size i) (i_atime i) x (i_ctime i)
    (i_nlink i) (i_blocks i) (i_superblock i) (i_ino i) (i_op i) (i_fop i) (i_state i).
Definition set_i_ctime (x : timespec) (i : inode) : inode :=
  Inode (i_mode i) (i_uid i) (i_gid i) (i_rdev i) (i_size i) (i_atime i) (i_mtime i) x
    (i_nlink i) (i_blocks i) (i_superblock i) (i_ino i) (i_op i) (i_fop i) (i_state i).
Definition set_i_nlink (x : Z) (i : inode) : inode :=
  Inode (i_mode i) (i_uid i) (i_gid i) (i_rdev i) (i_size i) (i_atime i) (i_mtime i) (i_ctime i)
    x (i_blocks i) (i_superblock i) (i_ino i) (i_op i) (i_fop i) (i_state i).
Definition set_i_ino (x : Z) (i : inode) : inode :=
  Inode (i_mode i) (i_uid i) (i_gid i) (i_rdev i) (i_size i) (i_atime i) (i_mtime i) (i_ctime i)
    (i_nlink i) (i_blocks i) (i_superblock i) x (i_op i) (i_fop i) (i_state i).
Definition set_i_op (op fop : Z) (i : inode) : inode :=
  Inode (i_mode i) (i_uid i) (i_gid i) (i_rdev i) (i_size i) (i_atime i) (i_mtime i) (i_ctime i)
    (i_nlink i) (i_blocks i) (i_superblock i) (i_ino i) op fop (i_state i).

(** The VFS functions the layer calls, and the allocator and clock behind them. *)
Class Kernel (X : Type) : Type := {
  inode_acquire : Z → Z → st X Z;
  inode_ref : Z → st X Z;
  dentry_instantiate : Z → Z → st X Z;
  setattr_prepare : Z → Z → st X Z;
  dentry_allocFullPath : Z → st X (list Z);
  path_create : list Z → Z → st X Z;
  kmalloc_ok : Z → st X bool;
  do_time : st X Z;
}.

(** Remove one occurrence. *)
Fixpoint drop_one (r : Z) (l : list Z) : option (list Z) :=
  match l with
  | [] => None
  | x :: l => if x =? r then Some l else cons x <$> drop_one r l
  end.

Section State.
Context {E : Type} {L : Lwext4 E} {V : Type}.

(** [inodes], [dentries] and [supers] are the structures by address; [vworld] is
    what the VFS keeps besides them. *)
Record xs := Xs {
  lw : E;
  held : list Z;
  inodes : gmap Z inode;
  dentries : gmap Z dentry;
  supers : gmap Z superblock;
  vworld : V;
}.

Definition set_lw (e : E) (s : xs) : xs := Xs e (held s) (inodes s) (dentries s) (supers s) (vworld s).
Definition set_held (h : list Z) (s : xs) : xs := Xs (lw s) h (inodes s) (dentries s) (supers s) (vworld s).
Definition set_inodes (m : gmap Z inode) (s : xs) : xs := Xs (lw s) (held s) m (dentries s) (supers s) (vworld s).

(** A call of the library, one that returns nothing, and a read of its data. *)
Definition lib {A} (f : E → A * E) : st xs A := λ s, let (a, e) := f (lw s) in Ok (a, set_lw e s).
Definition lib_ (f : E → E) : st xs () := λ s, Ok ((), set_lw (f (lw s)) s).
Definition peek {A} (f : E → A) : st xs A := λ s, Ok (f (lw s), s).

Definition the_inode (x : Z) : st xs inode := λ s, let! i := of_option (inodes s !! x) in Ok (i, s).
Definition the_dentry (x : Z) : st xs dentry := λ s, let! d := of_option (dentries s !! x) in Ok (d, s).
Definition the_super (x : Z) : st xs superblock := λ s, let! b := of_option (supers s !! x) in Ok (b, s).
Definition write_inode (x : Z) (f : inode → inode) : st xs () :=
  λ s, let! i := of_option (inodes s !! x) in Ok ((), set_inodes (<[x := f i]> (inodes s)) s).

(** A handle that was filled is held until it is put. *)
Definition acquire (f : E → (Z * Z) * E) : st xs (Z * Z) := λ s,
  let '((ret, r), e) := f (lw s) in
  Ok ((ret, r), set_held (if ret =? 0 then r :: held s else held s) (set_lw e s)).
Definition get_ref (fs ino : Z) : st xs (Z * Z) := acquire (ext4_fs_get_inode_ref fs ino).
Definition alloc_ref (fs type : Z) : st xs (Z * Z) := acquire (ext4_fs_alloc_inode fs type).
Definition put_ref (r : Z) : st xs Z := λ s,
  match drop_one r (held s) with
  | None => Fault
  | Some h => let (ret, e) := ext4_fs_put_inode_ref r (lw s) in Ok (ret, set_held h (set_lw e s))
  end.

(** [memcpy] out of an array: reading past its end is a fault. *)
Definition copy_from (src : list Z) (n : Z) : st xs (list Z) :=
  if n <=? Z.of_nat (length src) then mret (take (Z.to_nat n) src) else fault.

End State.

Arguments xs : clear implicits.
Arguments Xs {E V}.

(** ** Reasoning about runs

    [runs s m Q]: from [s] the program returns, and the result and the state it ends
    in satisfy [Q]. What is known of the structures survives every step. *)

Section Generic.
Context {X : Type}.
Implicit Types s : X.

Definition runs {A} s (m : st X A) (Q : A → X → Prop) : Prop := ∃ a s', m s = Ok (a, s') ∧ Q a s'.

Lemma runs_ret {A} s (a : A) (Q : A → X → Prop) : Q a s → runs s (mret a) Q.
Proof. by eexists _, _. Qed.

Lemma runs_bind {A B} s (m : st X A) (k : A → st X B) Q :
  runs s m (λ a s', runs s' (k a) Q) → runs s (m ≫= k) Q.
Proof.
  intros (a & s' & Hm & b & s'' & Hk & HQ). exists b, s''. split; [|done].
  unfold mbind, st_bind. by rewrite Hm.
Qed.

Lemma runs_weaken {A} s (m : st X A) (Q R : A → X → Prop) :
  runs s m Q → (∀ a s', Q a s' → R a s') → runs s m R.
Proof. intros (a & s' & Hm & HQ) HR. exists a, s'. auto. Qed.

End Generic.

Section Runs.
Context {E : Type} {L : Lwext4 E} {V : Type}.
Implicit Types s : xs E V.

Definition super_known s (b : Z) : Prop := is_Some (supers s !! b).
Definition inode_known s (x : Z) : Prop :=
  ∃ i, inodes s !! x = Some i ∧ super_known s (i_superblock i).
Definition dentry_known s (x : Z) : Prop :=
  ∃ d, dentries s !! x = Some d ∧ super_known s (d_superblock d).
(** The dentry of an existing file. *)
Definition positive s (x : Z) : Prop :=
  ∃ d, dentries s !! x = Some d ∧ super_known s (d_superblock d) ∧ inode_known s (d_inode d).

(** A step that leaves the references alone. *)
Record later s s' : Prop := {
  later_super b : super_known s b → super_known s' b;
  later_inode x : inode_known s x → inode_known s' x;
  later_dentry x : dentry_known s x → dentry_known s' x;
  later_positive x : positive s x → positive s' x;
}.
Definition keeps s s' : Prop := later s s' ∧ held s' = held s.

#[global] Instance later_preorder : PreOrder later.
Proof. split; [by split|]. intros s1 s2 s3 H1 H2. split; intros x Hx; by apply H2, H1. Qed.

(** Only the library's state and the references change. *)
Lemma later_same s s' :
  inodes s' = inodes s → dentries s' = dentries s → supers s' = supers s → later s s'.
Proof.
  intros Hi Hd Hs. split; unfold positive, dentry_known, inode_known, super_known; intros x; rewrite ?Hi, ?Hd, ?Hs; done.
Qed.

Lemma runs_lib {A} s (f : E → A * E) (Q : A → xs E V → Prop) :
  (∀ a s', keeps s s' → Q a s') → runs s (lib f) Q.
Proof.
  intros HQ. unfold runs, lib. destruct (f (lw s)) as [a e]. eexists _, _. split; [done|].
  apply HQ. split; [by apply later_same|done].
Qed.

Lemma runs_lib_ s (f : E → E) (Q : () → xs E V → Prop) : (∀ s', keeps s s' → Q () s') → runs s (lib_ f) Q.
Proof. intros HQ. eexists _, _. split; [done|]. apply HQ. split; [by apply later_same|done]. Qed.

Lemma runs_peek {A} s (f : E → A) (Q : A → xs E V → Prop) : (∀ a, Q a s) → runs s (peek f) Q.
Proof. intros HQ. by eexists _, _. Qed.

Lemma runs_super s b (Q : superblock → xs E V → Prop) : super_known s b → (∀ x, Q x s) → runs s (the_super b) Q.
Proof. intros [x Hx] HQ. unfold runs, the_super. rewrite Hx. by eexists _, _. Qed.

Lemma runs_inode s x (Q : inode → xs E V → Prop) :
  inode_known s x → (∀ i, inodes s !! x = Some i → super_known s (i_superblock i) → Q i s) →
  runs s (the_inode x) Q.
Proof. intros (i & Hi & Hs) HQ. unfold runs, the_inode. rewrite Hi. eexists _, _. split; [done|]. by apply HQ. Qed.

Lemma runs_dentry s x (Q : dentry → xs E V → Prop) :
  dentry_known s x →
  (∀ d, dentries s !! x = Some d → super_known s (d_superblock d) → Q d s) →
  runs s (the_dentry x) Q.
Proof. intros (d & Hd & Hs) HQ. unfold runs, the_dentry. rewrite Hd. eexists _, _. split; [done|]. by apply HQ. Qed.

Lemma runs_positive s x (Q : dentry → xs E V → Prop) :
  positive s x →
  (∀ d, dentries s !! x = Some d → super_known s (d_superblock d) → inode_known s (d_inode d) → Q d s) →
  runs s (the_dentry x) Q.
Proof. intros (d & Hd & Hs & Hi) HQ. unfold runs, the_dentry. rewrite Hd. eexists _, _. split; [done|]. by apply HQ. Qed.

Lemma runs_acquire s f (Q : Z * Z → xs E V → Prop) :
  (∀ r s', later s s' → held s' = r :: held s → Q (0, r) s') →
  (∀ ret r s', ret ≠ 0 → keeps s s' → Q (ret, r) s') → runs s (acquire f) Q.
Proof.
  intros H0 H1. unfold runs, acquire. destruct (f (lw s)) as [[ret r] e]. eexists _, _. split; [done|].
  destruct (Z.eqb_spec ret 0) as [->|Hn].
  - apply H0; [by apply later_same|done].
  - apply H1; [done|]. split; [by apply later_same|done].
Qed.

Lemma runs_put s r h (Q : Z → xs E V → Prop) :
  drop_one r (held s) = Some h → (∀ ret s', later s s' → held s' = h → Q ret s') → runs s (put_ref r) Q.
Proof.
  intros Hd HQ. unfold runs, put_ref. rewrite Hd. destruct (ext4_fs_put_inode_ref r (lw s)) as [ret e].
  eexists _, _. split; [done|]. apply HQ; [by apply later_same|done].
Qed.

Lemma runs_write s x f (Q : () → xs E V → Prop) :
  inode_known s x → (∀ i, i_superblock (f i) = i_superblock i ∨ super_known s (i_superblock (f i))) →
  (∀ s', keeps s s' → Q () s') → runs s (write_inode x f) Q.
Proof.
  intros (i & Hi & Hs) Hf HQ. unfold runs, write_inode. rewrite Hi. eexists _, _. split; [done|].
  apply HQ. split; [|done].
  assert (∀ y, inode_known s y → inode_known (set_inodes (<[x:=f i]> (inodes s)) s) y) as Hk.
  { intros y (j & Hj & Hsj). unfold inode_known. cbn. destruct (decide (x = y)) as [->|].
    - exists (f i). rewrite lookup_insert_eq. split; [done|]. by destruct (Hf i) as [->|?].
    - exists j. by rewrite lookup_insert_ne. }
  split; [done..|]. intros y (d & Hd & Hds & Hdi). exists d. by split_and!; [..|apply Hk].
Qed.

Lemma drop_top r h : drop_one r (r :: h) = Some h.
Proof. cbn. by rewrite Z.eqb_refl. Qed.

(** A reference under another one can be put as well, also when both are the same. *)
Lemma drop_second r c h : drop_one r (c :: r :: h) = Some (c :: h).
Proof. cbn. rewrite Z.eqb_refl. by destruct (Z.eqb_spec c r) as [->|]. Qed.

End Runs.

Arguments drop_one : simpl never.

(** What the layer relies on of the VFS: its functions return, leave the references
    as they are and destroy nothing the layer holds; [inode_acquire] never returns a
    null pointer, so a result that is no error is an inode. *)
Class KernelSpec (E : Type) {L : Lwext4 E} (V : Type) {K : Kernel (xs E V)} : Type := {
  acquire_ok s sb ino :
    runs s (inode_acquire sb ino) (λ x s', keeps s s' ∧ (PTR_IS_INVALID x = false → inode_known s' x));
  ref_ok s x : runs s (inode_ref x) (λ _ s', keeps s s');
  instantiate_ok s d x : runs s (dentry_instantiate d x) (λ _ s', keeps s s');
  prepare_ok s d v : runs s (setattr_prepare d v) (λ _ s', keeps s s');
  fullpath_ok s d : runs s (dentry_allocFullPath d) (λ _ s', keeps s s');
  path_ok s p f : runs s (path_create p f) (λ _ s', keeps s s');
  malloc_ok s n : runs s (kmalloc_ok n) (λ _ s', keeps s s');
  time_ok s : runs s do_time (λ _ s', keeps s s');
}.

(** The sizes of the library's arrays: [blocks] of an inode and the data of a block. *)
Class Lwext4Sizes (E : Type) {L : Lwext4 E} : Type := {
  block_size : Z;
  blocks_size r e : 60 ≤ Z.of_nat (length (ref_blocks r e));
  data_size b e : block_size ≤ Z.of_nat (length (block_data b e));
}.

(** The fields of [struct ext4_inode]: 16 bits for the mode, the owner, the group and
    the links, 32 for the times, two words for the size. *)
Definition field_width (f : efield) : Z :=
  match f with EMode | EUid | EGid | ELinks => 16 | ESize => 64 | _ => 32 end.
Definition disk_conv (f : efield) (x : Z) : Z := x mod 2 ^ field_width f.

(** What the getters read from the fields [w]: the high word of the size belongs to
    regular files only. *)
Definition disk_read (w : efield → Z) (f : efield) : Z :=
  match f with
  | ESize => if Z.land (w EMode) S_IFMT =? 32768 then w ESize else w ESize mod 2 ^ 32
  | _ => w f
  end.

(** The inodes of the file systems as lwext4 keeps them. A reference points into the
    buffer of the block cache that holds its inode: [view] is what the buffers have,
    [marked] what is on the device or in a buffer marked for writing. The library can
    drop a buffer that nobody refers to, so it keeps a field only where the two agree
    ([field_kept]). Putting a reference marks its buffer if the reference is dirty.
    Truncation can change the size, the block count and [dirty]. Inode 0 of no file
    system is the target of what is no reference. The file systems have a revision above 0
    and were not made by the Hurd, for which the getters and setters differ. *)
Class Lwext4Store (E : Type) {L : Lwext4 E} : Type := {
  view : Z * Z → efield → E → Z;
  marked : Z * Z → efield → E → Z;
  ref_target : Z → E → Z * Z;
  field_kept (k : Z * Z) (e e' : E) : Prop :=
    ∀ f, view k f e = marked k f e → view k f e' = view k f e ∧ marked k f e' = view k f e;
  ref_reads r e f :
    ref_target r e ≠ (0, 0) → ref_field f r e = disk_read (λ g, view (ref_target r e) g e) f;
  get_store fs ino e ret r e' :
    ext4_fs_get_inode_ref fs ino e = ((ret, r), e') →
    (∀ k, field_kept k e e') ∧ (ret = 0 → ref_target r e' = (fs, ino) ∧ ref_dirty r e' = false);
  set_field_store f r x e :
    f ≠ EBlocks → f ≠ EDev → ref_target r e ≠ (0, 0) →
    let e' := set_field f r x e in
    ref_target r e' = ref_target r e ∧ ref_dirty r e' = ref_dirty r e ∧
    (∀ g, view (ref_target r e) g e' = if decide (g = f) then disk_conv f x else view (ref_target r e) g e) ∧
    (∀ k, k ≠ ref_target r e → field_kept k e e');
  set_dirty_store r d e :
    ref_target r e ≠ (0, 0) →
    let e' := set_dirty r d e in
    ref_target r e' = ref_target r e ∧ ref_dirty r e' = d ∧
    (∀ g, view (ref_target r e) g e' = view (ref_target r e) g e) ∧
    (∀ k, k ≠ ref_target r e → field_kept k e e');
  truncate_store r n e ret e' :
    ext4_fs_truncate_inode r n e = (ret, e') → ref_target r e ≠ (0, 0) →
    ref_target r e' = ref_target r e ∧
    (∀ g, g ≠ ESize → g ≠ EBlocks → view (ref_target r e) g e' = view (ref_target r e) g e) ∧
    (ref_dirty r e' = false → ref_dirty r e = false ∧ field_kept (ref_target r e) e e') ∧
    (∀ k, k ≠ ref_target r e → field_kept k e e');
  put_store r e ret e' :
    ext4_fs_put_inode_ref r e = (ret, e') → ref_target r e ≠ (0, 0) →
    (ref_dirty r e = true → ∀ f, view (ref_target r e) f e' = view (ref_target r e) f e ∧
                                 marked (ref_target r e) f e' = view (ref_target r e) f e) ∧
    (∀ k, k ≠ ref_target r e ∨ ref_dirty r e = false → field_kept k e e');
}.

(** Carry what is known of a state over to a later one. *)
Ltac known_later H :=
  match type of H with
  | later ?s ?s' =>
      repeat match goal with
      | K : super_known s _ |- _ => apply (later_super _ _ H) in K
      | K : inode_known s _ |- _ => apply (later_inode _ _ H) in K
      | K : dentry_known s _ |- _ => apply (later_dentry _ _ H) in K
      | K : positive s _ |- _ => apply (later_positive _ _ H) in K
      | K : inodes s !! _ = _ |- _ => clear K
      | K : dentries s !! _ = _ |- _ => clear K
      end
  end.
