(* ===== verification/Ext4Disk.v ===== *)
(** * A small library and kernel for the ext4 layer

    Concrete instances of the interfaces of [Ext4Lib] on which the operations run: a
    table of inodes and directories with handles that point into a cache of the inodes, and a
    VFS that keeps the inode number [n] at the address [4096 + n]. *)

From stdpp Require Import base gmap list.
From S2P Require Import Prelude Inode Ext4Lib.
Local Open Scope Z_scope.
Local Open Scope kernel_scope.

Record handle := Handle {
  h_target : Z * Z;
  h_dirty : bool;
  h_blocks : list Z;
}.

(** [cached] is what the block cache has of the inodes, [written] the device. *)
Record disk := Disk {
  cached : gmap (Z * Z) (efield → Z);
  written : gmap (Z * Z) (efield → Z);
  entries : gmap Z (list (list Z * Z));
  handles : gmap Z handle;
  next_handle : Z;
}.

Definition set_cached (m : gmap (Z * Z) (efield → Z)) (d : disk) : disk :=
  Disk m (written d) (entries d) (handles d) (next_handle d).
Definition set_written (m : gmap (Z * Z) (efield → Z)) (d : disk) : disk :=
  Disk (cached d) m (entries d) (handles d) (next_handle d).
Definition set_handles (m : gmap Z handle) (d : disk) : disk :=
  Disk (cached d) (written d) (entries d) m (next_handle d).
Definition set_entries (m : gmap Z (list (list Z * Z))) (d : disk) : disk :=
  Disk (cached d) (written d) m (handles d) (next_handle d).

Definition no_fields : efield → Z := λ _, 0.
Definition cached_at (k : Z * Z) (d : disk) : efield → Z := default no_fields (cached d !! k).
Definition written_at (k : Z * Z) (d : disk) : efield → Z := default no_fields (written d !! k).

Definition no_handle : handle := Handle (0, 0) false [].
Definition handle_at (r : Z) (d : disk) : handle := default no_handle (handles d !! r).
Definition upd_handle (r : Z) (f : handle → handle) (d : disk) : disk :=
  set_handles (alter f r (handles d)) d.

Definition upd_dirty (b : bool) (h : handle) : handle := Handle (h_target h) b (h_blocks h).
Definition upd_blocks (l : list Z) (h : handle) : handle :=
  Handle (h_target h) (h_dirty h) (l ++ drop (length l) (h_blocks h)).

(** Change a field in the buffer a handle points to. *)
Definition upd_field (r : Z) (f : efield) (x : Z) (d : disk) : disk :=
  let k := h_target (handle_at r d) in
  set_cached (<[k := λ g, if decide (g = f) then disk_conv f x else cached_at k d g]> (cached d)) d.

(** Give out a handle for an inode; no inode has number 0. *)
Definition open_handle (fs ino : Z) (d : disk) : (Z * Z) * disk :=
  ((0, next_handle d),
   Disk (cached d) (written d) (entries d)
     (<[next_handle d := Handle (fs, ino) false (repeat 0 60)]> (handles d)) (next_handle d + 1)).

Definition disk_get (fs ino : Z) (d : disk) : (Z * Z) * disk :=
  if (fs =? 0) && (ino =? 0) then ((EIO, 0), d)
  else match cached d !! (fs, ino) with
  | None => ((EIO, 0), d)
  | Some _ => open_handle fs ino d
  end.

(** Putting a dirty handle writes the buffer; otherwise the buffer is dropped. *)
Definition disk_put (r : Z) (d : disk) : Z * disk :=
  match handles d !! r with
  | None => (0, d)
  | Some h =>
      let k := h_target h in
      let d' := if h_dirty h then set_written (<[k := cached_at k d]> (written d)) d
                else set_cached (<[k := written_at k d]> (cached d)) d in
      (0, set_handles (delete r (handles d)) d')
  end.

(** A new inode has a number above all others. *)
Definition disk_alloc (fs type : Z) (d : disk) : (Z * Z) * disk :=
  let ino := 1 + foldr (λ k n, Z.max k.2 n) 0 (map_to_list (cached d)).*1 in
  open_handle fs ino
    (set_written (<[(fs, ino) := no_fields]> (written d)) (set_cached (<[(fs, ino) := no_fields]> (cached d)) d)).

Definition disk_free (r : Z) (d : disk) : Z * disk :=
  let k := h_target (handle_at r d) in
  (0, set_written (delete k (written d)) (set_cached (delete k (cached d)) d)).

Definition disk_field (f : efield) (r : Z) (d : disk) : Z := disk_read (cached_at (h_target (handle_at r d)) d) f.

Definition dir_of (r : Z) (d : disk) : list (list Z * Z) := default [] (entries d !! (h_target (handle_at r d)).2).

Definition name_eq (n : list Z) (en : list Z * Z) : bool := bool_decide (en.1 = n).

Definition disk_add (r : Z) (n : list Z) (c : Z) (d : disk) : Z * disk :=
  if existsb (name_eq n) (dir_of r d) then (EEXIST, d)
  else (0, set_entries (<[(h_target (handle_at r d)).2 := dir_of r d ++ [(n, (h_target (handle_at c d)).2)]]> (entries d)) d).

Definition disk_remove (r : Z) (n : list Z) (d : disk) : Z * disk :=
  if existsb (name_eq n) (dir_of r d) then
    (0, set_entries (<[(h_target (handle_at r d)).2 := List.filter (λ en, negb (name_eq n en)) (dir_of r d)]> (entries d)) d)
  else (ENOENT, d).

Definition disk_find (r : Z) (n : list Z) (d : disk) : (Z * search_result) * disk :=
  match find (name_eq n) (dir_of r d) with
  | Some en => ((0, SearchResult 1 en.2), d)
  | None => ((ENOENT, SearchResult 0 0), d)
  end.

#[export] Instance disk_lib : Lwext4 disk := {
  ext4_fs_get_inode_ref := disk_get;
  ext4_fs_put_inode_ref := disk_put;
  ext4_fs_alloc_inode := disk_alloc;
  ext4_fs_free_inode := disk_free;
  ref_index r d := (h_target (handle_at r d)).2;
  ref_field := disk_field;
  set_field f r x d := upd_field r f x d;
  ref_dirty r d := h_dirty (handle_at r d);
  set_dirty r b d := upd_handle r (upd_dirty b) d;
  ref_blocks r d := h_blocks (handle_at r d) ++ repeat 0 60;
  set_blocks r l d := upd_handle r (upd_blocks l) d;
  ext4_inode_is_softlink r d := Z.land (disk_field EMode r d) S_IFMT =? 40960;
  ref_buf r d := 1;
  buf_on_dirty_list b d := true;
  ext4_bcache_set_dirty b d := d;
  ext4_bcache_insert_dirty_node b c d := d;
  ext4_block_flush_buf b c d := (0, d);
  ext4_fs_inode_links_count_inc r d := upd_field r ELinks (disk_field ELinks r d + 1) d;
  ext4_fs_inode_links_count_dec r d := upd_field r ELinks (disk_field ELinks r d - 1) d;
  ext4_dir_add_entry := disk_add;
  ext4_dir_remove_entry := disk_remove;
  ext4_dir_find_entry := disk_find;
  ext4_dir_destroy_result r x d := (0, d);
  ext4_dir_iterator_init r pos d := ((0, DirIter 0 (Z.of_nat (length (dir_of r d)))), d);
  ext4_dir_iterator_next it d := ((0, DirIter (it_pos it + 1) (it_curr it - 1)), d);
  ext4_dir_iterator_fini it d := (0, d);
  ext4_dir_dx_init r p d := (0, d);
  ext4_dir_dx_reset_parent_inode r p d := (0, d);
  ext4_fs_append_inode_dblk r d := ((EIO, 0), d);
  ext4_fs_get_inode_dblk_idx r i u d := ((0, 100 + i), d);
  ext4_fs_init_inode_dblk_idx r i d := ((0, 100 + i), d);
  ext4_fs_truncate_inode r n d := (0, upd_handle r (upd_dirty true) (upd_field r ESize n d));
  ext4_block_get fs b d := ((0, b), d);
  ext4_block_set fs b d := (0, d);
  block_data b d := repeat 0 4096;
  set_block_data b l d := d;
  ext4_extract_xattr_name n := Some (1, n);
  ext4_get_xattr_name_prefix i := None;
  ext4_xattr_get r i n sz d := ((ENODATA, ([], 0)), d);
  ext4_xattr_remove r i n d := (ENODATA, d);
  ext4_xattr_list r d := ((0, ([], 0)), d);
  ext4_free en d := d;
  ext4_readlink n sz d := ((EIO, []), d);
  fs_bdev fs d := 1;
  sb_log_block_size fs d := 2;
  ext4_block_cache_flush b d := (0, d);
}.

#[export, refine] Instance disk_sizes : Lwext4Sizes disk := { block_size := 4096 }.
Proof.
  - intros r e. cbn [ref_blocks disk_lib]. rewrite length_app, repeat_length. lia.
  - intros b e. cbn [block_data disk_lib]. rewrite repeat_length. lia.
Defined.

Lemma handle_at_upd r f d : handle_at r (upd_handle r f d) = from_option f no_handle (handles d !! r).
Proof. unfold handle_at, upd_handle. cbn. rewrite lookup_alter_eq. by destruct (handles d !! r). Qed.

Lemma handle_at_some r d : h_target (handle_at r d) ≠ (0, 0) → handles d !! r = Some (handle_at r d).
Proof. unfold handle_at. by destruct (handles d !! r). Qed.

Lemma cached_at_upd r f x d k :
  cached_at k (upd_field r f x d) =
  if decide (k = h_target (handle_at r d)) then λ g, if decide (g = f) then disk_conv f x else cached_at k d g
  else cached_at k d.
Proof.
  unfold upd_field, cached_at. cbn. destruct (decide (k = _)) as [->|Hn]; [by rewrite lookup_insert_eq|].
  by rewrite lookup_insert_ne.
Qed.

Lemma cached_at_put r d h k :
  handles d !! r = Some h → let d' := (disk_put r d).2 in
  cached_at k d' = (if decide (k = h_target h ∧ h_dirty h = false) then written_at k d else cached_at k d) ∧
  written_at k d' = (if decide (k = h_target h ∧ h_dirty h = true) then cached_at k d else written_at k d).
Proof.
  intros Hh. unfold disk_put. rewrite Hh. destruct (h_dirty h); unfold cached_at, written_at; cbn;
    destruct (decide (k = h_target h)) as [->|Hn]; rewrite ?lookup_insert_eq, ?lookup_insert_ne by done;
    split; case_decide; naive_solver.
Qed.

#[export, refine] Instance disk_store : Lwext4Store disk := {
  view k f d := cached_at k d f;
  marked k f d := written_at k d f;
  ref_target r d := h_target (handle_at r d);
}.
Proof.
  - done.
  - intros fs ino e ret r e' Hg. cbn in Hg. unfold disk_get in Hg.
    destruct (_ && _); [by injection Hg as <- <- <-|].
    destruct (cached e !! (fs, ino)) as [fields|] eqn:Hs; [|by injection Hg as <- <- <-].
    injection Hg as <- <- <-. split; [done|]. intros _. cbn. unfold handle_at. cbn. by rewrite lookup_insert_eq.
  - intros f r x e _ _ Ht. cbn. split_and!; [done..| |].
    + intros g. by rewrite cached_at_upd, decide_True.
    + intros k Hk g Hg. rewrite cached_at_upd, decide_False by done. by rewrite Hg.
  - intros r b e Ht. apply handle_at_some in Ht. cbn. rewrite handle_at_upd, Ht.
    split_and!; [done..|]. by intros k _ g Hg.
  - intros r n e ret e' Hg Ht. injection Hg as <- <-. apply handle_at_some in Ht. cbn. rewrite handle_at_upd. cbn.
    rewrite Ht. cbn. split_and!; [done| |done|].
    + intros g Hg _. change (cached_at ?k (upd_handle _ _ ?d)) with (cached_at k d).
      by rewrite cached_at_upd, decide_True, decide_False.
    + intros k Hk g Hg. change (cached_at ?k (upd_handle _ _ ?d)) with (cached_at k d).
      rewrite cached_at_upd, decide_False by done. by rewrite Hg.
  - intros r e ret e' Hp Ht. apply handle_at_some in Ht. cbn in *.
    assert (e' = (disk_put r e).2) as -> by (by rewrite Hp). split.
    + intros Hd f. destruct (cached_at_put r e _ (h_target (handle_at r e)) Ht) as [-> ->].
      by rewrite decide_False, decide_True by naive_solver congruence.
    + intros k Hk f Hf. destruct (cached_at_put r e _ k Ht) as [-> ->].
      repeat case_decide; naive_solver congruence.
Defined.

(** ** The VFS *)

Abbreviation dstate := (xs disk ()).

Definition blank (sb ino : Z) : inode :=
  Inode 0 0 0 0 0 (Timespec 0 0) (Timespec 0 0) (Timespec 0 0) 0 0 sb ino 0 0 0.

(** The inode at [x] if it is usable. *)
Definition usable (x : Z) (s : dstate) : bool :=
  match inodes s !! x with
  | None => false
  | Some i => bool_decide (is_Some (supers s !! i_superblock i))
  end.

Definition table_acquire (sb ino : Z) : st dstate Z := λ s,
  let x := 4096 + u32 ino in
  if usable x s then Ok (x, s)
  else if bool_decide (is_Some (supers s !! sb)) then Ok (x, set_inodes (<[x := blank sb ino]> (inodes s)) s)
  else Ok (0, s).

Definition set_d_inode (x : Z) (d : dentry) : dentry := Dentry (d_name d) x (d_superblock d).

Definition table_instantiate (d x : Z) : st dstate Z := λ s,
  if usable x s then
    Ok (0, Xs (lw s) (held s) (inodes s) (alter (set_d_inode x) d (dentries s)) (supers s) (vworld s))
  else Ok (- EINVAL, s).

#[export] Instance table_kernel : Kernel dstate := {
  inode_acquire := table_acquire;
  inode_ref x := mret x;
  dentry_instantiate := table_instantiate;
  setattr_prepare d v := mret 0;
  dentry_allocFullPath d := mret [47];
  path_create p f := mret 0;
  kmalloc_ok n := mret true;
  do_time := mret 1700000000;
}.

Lemma usable_known (s : dstate) x : usable x s = true ↔ inode_known s x.
Proof.
  unfold usable, inode_known. destruct (inodes s !! x) as [i|]; [|split; [done|by intros (?&?&?)]].
  rewrite bool_decide_eq_true. split; [eauto|]. by intros (j & [= <-] & ?).
Qed.

Lemma keeps_refl (s : dstate) : keeps s s.
Proof. by split. Qed.

Lemma add_inode_keeps (s : dstate) x i :
  usable x s = false → super_known s (i_superblock i) → keeps s (set_inodes (<[x := i]> (inodes s)) s).
Proof.
  intros Hu Hs. split; [|done].
  assert (∀ y, inode_known s y → inode_known (set_inodes (<[x:=i]> (inodes s)) s) y) as Hk.
  { intros y Hy. assert (y ≠ x) as Hn by (intros ->; apply usable_known in Hy; congruence).
    destruct Hy as (j & Hj & Hb). exists j. split; [|done]. cbn. by rewrite lookup_insert_ne. }
  split; [done..|]. intros y (d & ? & ? & ?). exists d. by split_and!; [..|apply Hk].
Qed.

Lemma instantiate_keeps (s : dstate) d x :
  usable x s = true →
  keeps s (Xs (lw s) (held s) (inodes s) (alter (set_d_inode x) d (dentries s)) (supers s) (vworld s)).
Proof.
  intros Hu%usable_known. split; [|done].
  assert (∀ (y : Z) (e : dentry), dentries s !! y = Some e →
    alter (set_d_inode x) d (dentries s) !! y = Some (if decide (d = y) then set_d_inode x e else e)) as Ha.
  { intros y e He. destruct (decide (d = y)) as [->|]; [by rewrite lookup_alter_eq, He|by rewrite lookup_alter_ne]. }
  split; [done..| |].
  - intros y (e & He & Hs). eexists. split; [by apply Ha|]. by destruct (decide _).
  - intros y (e & He & Hs & Hi). eexists. split; [by apply Ha|]. by destruct (decide _).
Qed.

#[export, refine] Instance table_spec : KernelSpec disk () := {}.
Proof.
  - intros s sb ino. unfold runs. cbn. unfold table_acquire. destruct (usable _ s) eqn:Hu.
    + eexists _, _. split; [done|]. split; [apply keeps_refl|]. intros _. by apply usable_known.
    + case_bool_decide as Hs.
      * eexists _, _. split; [done|]. split; [by apply add_inode_keeps|]. intros _. eexists.
        cbn. rewrite lookup_insert_eq. done.
      * eexists _, _. split; [done|]. split; [apply keeps_refl|done].
  - intros s x. apply runs_ret, keeps_refl.
  - intros s d x. unfold runs. cbn. unfold table_instantiate. destruct (usable x s) eqn:Hu.
    + eexists _, _. split; [done|]. by apply instantiate_keeps.
    + eexists _, _. split; [done|]. apply keeps_refl.
  - intros s d v. apply runs_ret, keeps_refl.
  - intros s d. apply runs_ret, keeps_refl.
  - intros s p f. apply runs_ret, keeps_refl.
  - intros s n. apply runs_ret, keeps_refl.
  - intros s. apply runs_ret, keeps_refl.
Defined.

(** ** A disk with a directory and a file

    Superblock 10 is the file system 7. Inode 2 is the root directory at 4098, with
    the file [a] (inode 3, at 4099) in it; dentry 20 is that file's, dentry 21 has the
    free name [b]. Dentry 22 is that of the inode 11, which the disk does not have. *)

Definition fields_of (mode size links : Z) (f : efield) : Z :=
  match f with EMode => mode | ESize => size | ELinks => links | EMtime => 1600000000 | _ => 0 end.

Definition disk0 : disk :=
  let inodes := {[ (7, 2) := fields_of 16877 0 2; (7, 3) := fields_of 33188 5 1 ]} in
  Disk inodes inodes {[ 2 := [([97], 3)] ]} ∅ 50.

Definition with_mode (mode size : Z) (i : inode) : inode :=
  Inode mode 0 0 0 size (Timespec 0 0) (Timespec 0 0) (Timespec 0 0) 1 0 (i_superblock i) (i_ino i) 1 4 0.

Definition ext4_state0 : dstate :=
  Xs disk0 [] {[ 4098 := with_mode 16877 0 (blank 10 2); 4099 := with_mode 33188 5 (blank 10 3);
    4107 := with_mode 33188 0 (blank 10 11) ]}
    {[ 20 := Dentry [97] 4099 10; 21 := Dentry [98] 0 10; 22 := Dentry [99] 4107 10 ]} {[ 10 := Superblock 7 4096 1 ]} ().

Lemma dir0_known : inode_known ext4_state0 4098.
Proof. apply usable_known. reflexivity. Qed.

Lemma file0_known : inode_known ext4_state0 4099.
Proof. apply usable_known. reflexivity. Qed.

Lemma file0_positive : positive ext4_state0 20.
Proof. eexists. split; [reflexivity|]. split; [by eexists|exact file0_known]. Qed.

Lemma lost0_positive : positive ext4_state0 22.
Proof. eexists. split; [reflexivity|]. split; [by eexists|]. apply usable_known. reflexivity. Qed.

Lemma name0_known : dentry_known ext4_state0 21.
Proof. eexists. split; [reflexivity|]. by eexists. Qed.
