(* ===== verification/Ext4Inode.v ===== *)
(** * The inode operations of ext4 ([kernel/fs/ext4/ext4_inode.c], with
      [ext4_helper.c])

    One definition per function, over the library and kernel interfaces of
    [Ext4Lib]. Buffers a function fills are returned as the bytes written. *)

From stdpp Require Import base gmap list.
From S2P Require Import Prelude Inode Ext4Lib.
Local Open Scope Z_scope.
Local Open Scope kernel_scope.

Definition S_IFLNK : Z := 40960.
Definition S_IFDIR : Z := 16384.
Definition S_ISLNK (mode : Z) : bool := Z.land mode S_IFMT =? S_IFLNK.
Definition S_ISREG (mode : Z) : bool := Z.land mode S_IFMT =? 32768.
Definition S_ISFIFO (mode : Z) : bool := Z.land mode S_IFMT =? 4096.
Definition S_ISSOCK (mode : Z) : bool := Z.land mode S_IFMT =? 49152.
Definition S_IRUSR : Z := 256.
Definition S_IWUSR : Z := 128.
Definition S_IXUSR : Z := 64.
Definition MAY_ACCESS : Z := 16.

Definition ATTR_MODE : Z := 1.
Definition ATTR_UID : Z := 2.
Definition ATTR_GID : Z := 4.
Definition ATTR_SIZE : Z := 8.
Definition ATTR_ATIME : Z := 16.
Definition ATTR_MTIME : Z := 32.
Definition ATTR_CTIME : Z := 64.

Definition EXT4_DE_REG_FILE : Z := 1.
Definition EXT4_DE_DIR : Z := 2.
Definition EXT4_DE_CHRDEV : Z := 3.
Definition EXT4_DE_BLKDEV : Z := 4.
Definition EXT4_DE_FIFO : Z := 5.
Definition EXT4_DE_SOCK : Z := 6.
Definition EXT4_DE_SYMLINK : Z := 7.

Definition BH_Mapped : Z := 4.
Definition BH_New : Z := 5.
Definition VM_FAULT_NOPAGE : Z := 64.

(** The operation tables are told apart by numbers. *)
Definition ext4_file_inode_operations : Z := 1.
Definition ext4_dir_inode_operations : Z := 2.
Definition ext4_symlink_inode_operations : Z := 3.
Definition ext4_file_operations : Z := 4.
Definition ext4_dir_operations : Z := 5.

(** ** Conversions *)

Definition ext4_timestamp_to_timespec64 (timestamp : Z) : timespec := Timespec timestamp 0.
Definition timespec64_to_ext4_timestamp (ts : timespec) : Z := u32 (tv_sec ts).

(** The parameter type of the setter of a field. *)
Definition field_conv (f : efield) (x : Z) : Z :=
  match f with
  | ELinks => x mod 2 ^ 16
  | ESize | EBlocks => u64 x
  | _ => u32 x
  end.

Record iattr := Iattr {
  ia_valid : Z;
  ia_mode : Z;
  ia_uid : Z;
  ia_gid : Z;
  ia_size : Z;
  ia_atime : timespec;
  ia_mtime : timespec;
  ia_ctime : timespec;
}.

Record kstat := Kstat {
  k_dev : Z;
  k_ino : Z;
  k_mode : Z;
  k_nlink : Z;
  k_uid : Z;
  k_gid : Z;
  k_size : Z;
  k_atime : timespec;
  k_mtime : timespec;
  k_ctime : timespec;
  k_blksize : Z;
  k_blocks : Z;
}.

Record buffer_head := BufferHead { b_bdev : Z; b_blocknr : Z; b_size : Z; b_state : Z }.

Section Ext4.
Context {E : Type} {L : Lwext4 E} {V : Type} {K : Kernel (xs E V)}.
Local Abbreviation M := (st (xs E V)).

(** [ret != 0] *)
Local Abbreviation failed ret := (negb (ret =? 0)).

Definition setf (f : efield) (r x : Z) : M () := lib_ (set_field f r (field_conv f x)).
Definition getf (f : efield) (r : Z) : M Z := peek (ref_field f r).

Definition __inode_getExt4InodeRef (inode : Z) : M (Z * Z) :=
  i ← the_inode inode;
  b ← the_super (i_superblock i);
  get_ref (s_fs_info b) (u32 (i_ino i)).

(** ** Reading an inode *)

(** The operations of a file type; [i_rdev] is read for device files only. *)
Definition init_ops (r inode mode : Z) : M () :=
  if S_ISREG mode then write_inode inode (set_i_op ext4_file_inode_operations ext4_file_operations)
  else if S_ISDIR mode then write_inode inode (set_i_op ext4_dir_inode_operations ext4_dir_operations)
  else if S_ISLNK mode then write_inode inode (set_i_op ext4_symlink_inode_operations 0)
  else if S_ISBLK mode || S_ISCHR mode then
    dev ← getf EDev r;
    write_inode inode (λ i, set_i_op ext4_file_inode_operations 0 (set_i_rdev dev i))
  else write_inode inode (set_i_op ext4_file_inode_operations 0).

(** The VFS inode with the fields of the on-disk one. *)
Definition fill_inode (r sb ino : Z) (e : E) (i : inode) : inode :=
  Inode (ref_field EMode r e) (ref_field EUid r e) (ref_field EGid r e) (i_rdev i) (s64 (ref_field ESize r e))
    (ext4_timestamp_to_timespec64 (ref_field EAtime r e))
    (ext4_timestamp_to_timespec64 (ref_field EMtime r e))
    (ext4_timestamp_to_timespec64 (ref_field ECtime r e))
    (ref_field ELinks r e) (s64 (ref_field EBlocks r e)) sb ino (i_op i) (i_fop i) (i_state i).

Definition read_fields (r sb ino inode : Z) : M () :=
  fill ← peek (fill_inode r sb ino);
  write_inode inode fill.

Definition ext4_inode_init (sb inode ino : Z) : M Z :=
  b ← the_super sb;
  '(ret, r) ← get_ref (s_fs_info b) ino;
  if failed ret then mret ret
  else
    read_fields r sb ino inode;;
    mode ← getf EMode r;
    init_ops r inode mode;;
    put_ref r;;
    mret 0.

Definition ext4_read_inode (inode : Z) : M Z :=
  if inode =? 0 then mret (- EINVAL)
  else
    i ← the_inode inode;
    if i_superblock i =? 0 then mret (- EINVAL)
    else ext4_inode_init (i_superblock i) inode (u32 (i_ino i)).

(** ** Directory entries *)

Definition ext4_vfs_lookup (dir dentry flags : Z) : M Z :=
  i ← the_inode dir;
  b ← the_super (i_superblock i);
  if (dir =? 0) || (dentry =? 0) then mret (ERR_PTR (- EINVAL))
  else
    '(ret, e_dir_ref) ← get_ref (s_fs_info b) (u32 (i_ino i));
    if failed ret then mret (ERR_PTR ret)
    else
      d ← the_dentry dentry;
      '(ret, result) ← lib (ext4_dir_find_entry e_dir_ref (d_name d));
      put_ref e_dir_ref;;
      if failed ret then
        if ret =? - ENOENT then mret 0 else mret (ERR_PTR ret)
      else
        inode ← inode_acquire (i_superblock i) (sr_inode result);
        lib (ext4_dir_destroy_result e_dir_ref result);;
        mret inode.

(** The error exit of the functions that make an inode: the new inode is freed, the
    directory's reference is put. *)
Definition drop_new (e_inode_ref e_dir_ref ret : Z) : M Z :=
  lib (ext4_fs_free_inode e_inode_ref);;
  put_ref e_dir_ref;;
  mret ret.

(** The common end: the VFS inode is acquired, changed by [init] and attached. *)
Definition attach_new (sb dentry e_inode_ref e_dir_ref : Z) (init : Z → inode → inode) : M Z :=
  ino ← peek (ref_index e_inode_ref);
  inode ← inode_acquire sb ino;
  if inode =? 0 then drop_new e_inode_ref e_dir_ref (- ENOMEM)
  else
    write_inode inode (init ino);;
    dentry_instantiate dentry inode;;
    put_ref e_inode_ref;;
    put_ref e_dir_ref;;
    mret 0.

Definition ext4_vfs_create (dir dentry mode : Z) : M Z :=
  i ← the_inode dir;
  b ← the_super (i_superblock i);
  '(ret, e_dir_ref) ← get_ref (s_fs_info b) (u32 (i_ino i));
  if failed ret then mret ret
  else
    '(ret, e_inode_ref) ← alloc_ref (s_fs_info b) EXT4_DE_REG_FILE;
    if failed ret then put_ref e_dir_ref;; mret ret
    else
      setf EMode e_inode_ref mode;;
      d ← the_dentry dentry;
      ret ← lib (ext4_dir_add_entry e_dir_ref (d_name d) e_inode_ref);
      if failed ret then drop_new e_inode_ref e_dir_ref ret
      else
        attach_new (i_superblock i) dentry e_inode_ref e_dir_ref
          (λ _ j, set_i_op ext4_file_inode_operations ext4_file_operations (set_i_mode mode j)).

Definition ext4_vfs_link (old_dentry dir new_dentry : Z) : M Z :=
  '(ret, e_dir_ref) ← __inode_getExt4InodeRef dir;
  if failed ret then mret ret
  else
    od ← the_dentry old_dentry;
    '(ret, e_inode_ref) ← __inode_getExt4InodeRef (d_inode od);
    if failed ret then put_ref e_dir_ref;; mret ret
    else
      nd ← the_dentry new_dentry;
      ret ← lib (ext4_dir_add_entry e_dir_ref (d_name nd) e_inode_ref);
      if failed ret then put_ref e_inode_ref;; put_ref e_dir_ref;; mret ret
      else
        lib_ (ext4_fs_inode_links_count_inc e_inode_ref);;
        x ← inode_ref (d_inode od);
        dentry_instantiate new_dentry x;;
        put_ref e_inode_ref;;
        put_ref e_dir_ref;;
        mret 0.

(** Drop a link of an inode, and the inode with its last link. *)
Definition drop_link (r : Z) : M () :=
  lib_ (ext4_fs_inode_links_count_dec r);;
  n ← getf ELinks r;
  if n =? 0 then
    t ← do_time;
    setf EDtime r t;;
    lib (ext4_fs_free_inode r);;
    mret ()
  else mret ().

Definition ext4_vfs_unlink (dir dentry : Z) : M Z :=
  '(ret, e_dir_ref) ← __inode_getExt4InodeRef dir;
  if failed ret then mret ret
  else
    d ← the_dentry dentry;
    '(ret, e_inode_ref) ← __inode_getExt4InodeRef (d_inode d);
    if failed ret then put_ref e_dir_ref;; mret ret
    else
      ret ← lib (ext4_dir_remove_entry e_dir_ref (d_name d));
      if failed ret then put_ref e_inode_ref;; put_ref e_dir_ref;; mret ret
      else
        drop_link e_inode_ref;;
        put_ref e_inode_ref;;
        put_ref e_dir_ref;;
        mret 0.

(** The target of a symbolic link: up to 60 bytes go into the inode, more into a
    data block. *)
Definition store_target (fs e_inode_ref : Z) (symname : list Z) : M Z :=
  let symname_len := Z.of_nat (length symname) in
  if symname_len <=? 60 then
    lib_ (set_blocks e_inode_ref symname);;
    setf ESize e_inode_ref symname_len;;
    mret 0
  else
    '(ret, fblock) ← lib (ext4_fs_append_inode_dblk e_inode_ref);
    if failed ret then mret ret
    else
      '(ret, block) ← lib (ext4_block_get fs fblock);
      if failed ret then mret ret
      else
        lib_ (set_block_data block symname);;
        lib (ext4_block_set fs block);;
        setf ESize e_inode_ref symname_len;;
        mret 0.

Definition ext4_vfs_symlink (dir dentry : Z) (symname : list Z) : M Z :=
  '(ret, e_dir_ref) ← __inode_getExt4InodeRef dir;
  if failed ret then mret ret
  else
    i ← the_inode dir;
    b ← the_super (i_superblock i);
    '(ret, e_inode_ref) ← alloc_ref (s_fs_info b) EXT4_DE_SYMLINK;
    if failed ret then put_ref e_dir_ref;; mret ret
    else
      setf EMode e_inode_ref (Z.lor S_IFLNK 511);;
      d ← the_dentry dentry;
      ret ← lib (ext4_dir_add_entry e_dir_ref (d_name d) e_inode_ref);
      if failed ret then drop_new e_inode_ref e_dir_ref ret
      else
        ret ← store_target (s_fs_info b) e_inode_ref symname;
        if failed ret then drop_new e_inode_ref e_dir_ref ret
        else
          attach_new (i_superblock i) dentry e_inode_ref e_dir_ref
            (λ _ j, set_i_op ext4_symlink_inode_operations (i_fop j) (set_i_mode (Z.lor S_IFLNK 511) j)).

Definition ext4_vfs_mkdir (dir dentry mode : Z) : M Z :=
  let mode := Z.lor mode S_IFDIR in
  '(ret, e_dir_ref) ← __inode_getExt4InodeRef dir;
  if failed ret then mret ret
  else
    i ← the_inode dir;
    b ← the_super (i_superblock i);
    '(ret, e_inode_ref) ← alloc_ref (s_fs_info b) EXT4_DE_DIR;
    if failed ret then put_ref e_dir_ref;; mret ret
    else
      setf EMode e_inode_ref mode;;
      ret ← lib (ext4_dir_dx_init e_inode_ref e_dir_ref);
      if failed ret then drop_new e_inode_ref e_dir_ref ret
      else
        d ← the_dentry dentry;
        ret ← lib (ext4_dir_add_entry e_dir_ref (d_name d) e_inode_ref);
        if failed ret then drop_new e_inode_ref e_dir_ref ret
        else
          attach_new (i_superblock i) dentry e_inode_ref e_dir_ref
            (λ _ j, set_i_op ext4_dir_inode_operations ext4_dir_operations (set_i_mode mode j)).

(** Is there an entry after the first two? The iterator is finished on every path
    that started it. *)
Definition dir_is_empty (r : Z) : M (Z * bool) :=
  '(ret, it) ← lib (ext4_dir_iterator_init r 0);
  if failed ret then mret (ret, true)
  else if it_curr it =? 0 then lib (ext4_dir_iterator_fini it);; mret (0, true)
  else
    '(ret, it) ← lib (ext4_dir_iterator_next it);
    if failed ret then lib (ext4_dir_iterator_fini it);; mret (ret, true)
    else
      '(ret, it) ← lib (ext4_dir_iterator_next it);
      lib (ext4_dir_iterator_fini it);;
      if failed ret then mret (ret, true) else mret (0, it_curr it =? 0).

Definition ext4_vfs_rmdir (dir dentry : Z) : M Z :=
  '(ret, e_dir_ref) ← __inode_getExt4InodeRef dir;
  if failed ret then mret ret
  else
    d ← the_dentry dentry;
    '(ret, e_inode_ref) ← __inode_getExt4InodeRef (d_inode d);
    if failed ret then put_ref e_dir_ref;; mret ret
    else
      let out ret := put_ref e_inode_ref;; put_ref e_dir_ref;; mret ret in
      '(ret, is_empty) ← dir_is_empty e_inode_ref;
      if failed ret then out ret
      else if negb is_empty then out (- ENOTEMPTY)
      else
        ret ← lib (ext4_dir_remove_entry e_dir_ref (d_name d));
        if failed ret then out ret
        else
          lib (ext4_fs_free_inode e_inode_ref);;
          out 0.

(** The target of a rename that exists: it must be of the same kind, and empty if it
    is a directory; it is then unlinked. [Some] is an early return. *)
Definition remove_target (e_new_dir_ref : Z) (nd : dentry) (source_is_dir : bool) (result : search_result) : M (option Z) :=
  '(ret, target_ref) ← __inode_getExt4InodeRef (d_inode nd);
  if failed ret then lib (ext4_dir_destroy_result e_new_dir_ref result);; mret (Some ret)
  else
    let out ret := put_ref target_ref;; lib (ext4_dir_destroy_result e_new_dir_ref result);; mret ret in
    ti ← the_inode (d_inode nd);
    let target_is_dir := S_ISDIR (i_mode ti) in
    if source_is_dir && negb target_is_dir then out (Some (- EISDIR))
    else if negb source_is_dir && target_is_dir then out (Some (- ENOTDIR))
    else
      '(ret, is_empty) ← (if target_is_dir then dir_is_empty target_ref else mret (0, true));
      if failed ret then out (Some ret)
      else if negb is_empty then out (Some (- ENOTEMPTY))
      else
        ret ← lib (ext4_dir_remove_entry e_new_dir_ref (d_name nd));
        if failed ret then out (Some ret)
        else
          drop_link target_ref;;
          out None.

(** The entry moves: it is added to the new directory, [..] of a directory is set,
    and the old entry is removed. *)
Definition move_entry (e_old_dir_ref e_new_dir_ref e_inode_ref new_ino : Z) (od nd : dentry) (new_parent : bool) : M Z :=
  ret ← lib (ext4_dir_add_entry e_new_dir_ref (d_name nd) e_inode_ref);
  if failed ret then mret ret
  else
    ret ← (if new_parent then lib (ext4_dir_dx_reset_parent_inode e_inode_ref new_ino) else mret 0);
    if failed ret then mret ret
    else lib (ext4_dir_remove_entry e_old_dir_ref (d_name od)).

Definition ext4_vfs_rename (old_dir old_dentry new_dir new_dentry : Z) : M Z :=
  '(ret, e_old_dir_ref) ← __inode_getExt4InodeRef old_dir;
  if failed ret then mret ret
  else
    '(ret, e_new_dir_ref) ← __inode_getExt4InodeRef new_dir;
    if failed ret then put_ref e_old_dir_ref;; mret ret
    else
      od ← the_dentry old_dentry;
      '(ret, e_inode_ref) ← __inode_getExt4InodeRef (d_inode od);
      if failed ret then put_ref e_new_dir_ref;; put_ref e_old_dir_ref;; mret ret
      else
        let out ret := put_ref e_inode_ref;; put_ref e_new_dir_ref;; put_ref e_old_dir_ref;; mret ret in
        nd ← the_dentry new_dentry;
        oi ← the_inode (d_inode od);
        '(ret, result) ← lib (ext4_dir_find_entry e_new_dir_ref (d_name nd));
        early ←
          (if ret =? 0 then remove_target e_new_dir_ref nd (S_ISDIR (i_mode oi)) result
           else if negb (ret =? - ENOENT) then mret (Some ret)
           else mret None);
        match early with
        | Some ret => out ret
        | None =>
            ni ← the_inode new_dir;
            ret ← move_entry e_old_dir_ref e_new_dir_ref e_inode_ref (u32 (i_ino ni)) od nd
                    (S_ISDIR (i_mode oi) && negb (old_dir =? new_dir));
            if failed ret then out ret
            else
              x ← inode_ref (d_inode od);
              dentry_instantiate new_dentry x;;
              out 0
        end.

(** ** Symbolic links *)

Definition copy_blocks (r n : Z) : M (list Z) :=
  src ← peek (ref_blocks r);
  copy_from src n.

Definition copy_data (block n : Z) : M (list Z) :=
  src ← peek (block_data block);
  copy_from src n.

(** The result is the number of bytes and the bytes. *)
Definition ext4_vfs_readlink (dentry buflen : Z) : M (Z * list Z) :=
  d ← the_dentry dentry;
  b ← the_super (d_superblock d);
  i ← the_inode (d_inode d);
  '(ret, r) ← get_ref (s_fs_info b) (u32 (i_ino i));
  if failed ret then mret (ret, [])
  else
    let out ret bytes := put_ref r;; mret (ret, bytes) in
    let size := Z.min (u64 (i_size i)) (u64 buflen) in
    if negb (S_ISLNK (i_mode i)) then out (- EINVAL) []
    else if i_size i <=? 60 then
      bytes ← copy_blocks r size;
      out (s32 size) bytes
    else
      '(ret, fblock) ← lib (ext4_fs_get_inode_dblk_idx r 0 false);
      if failed ret then out ret []
      else if fblock =? 0 then out (- EIO) []
      else
        '(ret, block) ← lib (ext4_block_get (s_fs_info b) fblock);
        if failed ret then out ret []
        else
          bytes ← copy_data block size;
          lib (ext4_block_set (s_fs_info b) block);;
          out (s32 size) bytes.

Definition ext4_vfs_get_link (dentry inode : Z) : M Z :=
  i ← the_inode inode;
  '(ret, r) ← __inode_getExt4InodeRef inode;
  if failed ret then mret ret
  else
    let out ret := put_ref r;; mret ret in
    link ← peek (ext4_inode_is_softlink r);
    if negb link then out (- EINVAL)
    else
      ok ← kmalloc_ok (u64 (i_size i + 1));
      if negb ok then out (- ENOMEM)
      else if i_size i <? 60 then
        link_target ← copy_blocks r (u64 (i_size i));
        ret ← path_create link_target 0;
        out ret
      else
        pathname ← dentry_allocFullPath dentry;
        '(ret, link_target) ← lib (ext4_readlink pathname (i_size i));
        if failed ret then out ret
        else
          ret ← path_create link_target 0;
          out ret.

(** ** Permissions and attributes *)

Definition ext4_vfs_permission (inode mask : Z) : M Z :=
  if mask =? 0 then mret 0
  else
    i ← the_inode inode;
    if has I_NEW (i_state i) then mret 0
    else if mask =? MAY_ACCESS then mret 0
    else if has MAY_EXEC mask && negb (has S_IXUSR (i_mode i)) then mret (- EACCES)
    else if has MAY_WRITE mask && negb (has S_IWUSR (i_mode i)) then mret (- EACCES)
    else if has MAY_READ mask && negb (has S_IRUSR (i_mode i)) then mret (- EACCES)
    else mret 0.

(** An attribute that is asked for is set on disk, in the VFS inode, and the
    reference becomes dirty. *)
Definition set_attr (valid flag : Z) (f : efield) (r x at_inode : Z) (upd : inode → inode) : M () :=
  if has flag valid then
    setf f r x;;
    write_inode at_inode upd;;
    lib_ (set_dirty r true)
  else mret ().

(** The size: a smaller one cuts the file first. *)
Definition set_size (attr : iattr) (r inode : Z) : M Z :=
  if has ATTR_SIZE (ia_valid attr) then
    i ← the_inode inode;
    ret ← (if ia_size attr <? i_size i then lib (ext4_fs_truncate_inode r (u64 (ia_size attr))) else mret 0);
    if failed ret then mret ret
    else
      write_inode inode (set_i_size (ia_size attr));;
      setf ESize r (ia_size attr);;
      lib_ (set_dirty r true);;
      mret 0
  else mret 0.

(** A positive result of the first call passes [CHECK_RET] with the reference not
    filled in. *)
Definition ext4_vfs_setattr (dentry : Z) (attr : iattr) : M Z :=
  d ← the_dentry dentry;
  let inode := d_inode d in
  '(ret, r) ← __inode_getExt4InodeRef inode;
  if ret <? 0 then mret ret
  else if failed ret then fault
  else
    let valid := ia_valid attr in
    ret ← setattr_prepare dentry valid;
    if failed ret then put_ref r;; mret ret
    else
      set_attr valid ATTR_MODE EMode r (ia_mode attr) inode (set_i_mode (ia_mode attr));;
      set_attr valid ATTR_UID EUid r (ia_uid attr) inode (set_i_uid (ia_uid attr));;
      set_attr valid ATTR_GID EGid r (ia_gid attr) inode (set_i_gid (ia_gid attr));;
      ret ← set_size attr r inode;
      if failed ret then put_ref r;; mret ret
      else
        set_attr valid ATTR_ATIME EAtime r (tv_sec (ia_atime attr)) inode (set_i_atime (ia_atime attr));;
        set_attr valid ATTR_MTIME EMtime r (tv_sec (ia_mtime attr)) inode (set_i_mtime (ia_mtime attr));;
        set_attr valid ATTR_CTIME ECtime r (tv_sec (ia_ctime attr)) inode (set_i_ctime (ia_ctime attr));;
        put_ref r.

Definition ext4_vfs_getattr (dentry : Z) : M (Z * kstat) :=
  d ← the_dentry dentry;
  i ← the_inode (d_inode d);
  b ← the_super (i_superblock i);
  mret (0, Kstat (i_rdev i) (i_ino i) (i_mode i) (i_nlink i) (i_uid i) (i_gid i) (i_size i)
             (i_atime i) (i_mtime i) (i_ctime i) (s_blocksize b) (i_blocks i)).

(** ** Extended attributes *)

(** The frame of the four functions: a reference to the inode of the dentry around
    [body]. *)
Definition with_inode_ref {A} (dentry : Z) (fail : Z → A) (body : Z → M A) : M A :=
  d ← the_dentry dentry;
  '(ret, r) ← __inode_getExt4InodeRef (d_inode d);
  if failed ret then mret (fail ret)
  else
    a ← body r;
    put_ref r;;
    mret a.

(** The value is not used: the attribute is removed. *)
Definition ext4_vfs_setxattr (dentry : Z) (name value : list Z) (flags : Z) : M Z :=
  with_inode_ref dentry id (λ r,
    match ext4_extract_xattr_name name with
    | None => mret (- EINVAL)
    | Some (name_index, real_name) => lib (ext4_xattr_remove r name_index real_name)
    end).

Definition ext4_vfs_getxattr (dentry : Z) (name : list Z) (size : Z) : M (Z * list Z) :=
  with_inode_ref dentry (λ ret, (ret, [])) (λ r,
    match ext4_extract_xattr_name name with
    | None => mret (- EINVAL, [])
    | Some (name_index, real_name) =>
        '(ret, (bytes, data_len)) ← lib (ext4_xattr_get r name_index real_name size);
        mret (if ret =? 0 then data_len else ret, bytes)
    end).

Definition ext4_vfs_removexattr (dentry : Z) (name : list Z) : M Z :=
  with_inode_ref dentry id (λ r,
    match ext4_extract_xattr_name name with
    | None => mret (- ENODATA)
    | Some (name_index, real_name) => lib (ext4_xattr_remove r name_index real_name)
    end).

(** One name of the list: prefix, name and a null byte. *)
Definition xattr_text (en : xattr_entry) : list Z :=
  default [] (ext4_get_xattr_name_prefix (xe_index en)) ++ xe_name en ++ [0].

(** [has_buffer] says that the buffer is not null; the bytes are those written. *)
Definition ext4_vfs_listxattr (dentry : Z) (has_buffer : bool) (size : Z) : M (Z * list Z) :=
  with_inode_ref dentry (λ ret, (ret, [])) (λ r,
    '(ret, (l, list_len)) ← lib (ext4_xattr_list r);
    if failed ret then mret (ret, [])
    else
      let bytes := if has_buffer && (list_len <=? size) then l ≫= xattr_text else [] in
      lib_ (λ e, foldl (λ e en, ext4_free en e) e l);;
      mret (list_len, bytes)).

(** ** Special files *)

Definition node_type (mode : Z) : option Z :=
  if S_ISCHR mode then Some EXT4_DE_CHRDEV
  else if S_ISBLK mode then Some EXT4_DE_BLKDEV
  else if S_ISFIFO mode then Some EXT4_DE_FIFO
  else if S_ISSOCK mode then Some EXT4_DE_SOCK
  else None.

(** Its error exits leave the references as they are. *)
Definition ext4_vfs_mknod (inode dentry mode dev : Z) : M Z :=
  '(ret, parent_ref) ← __inode_getExt4InodeRef inode;
  if failed ret then mret ret
  else
    match node_type mode with
    | None => mret (- EINVAL)
    | Some filetype =>
        i ← the_inode inode;
        b ← the_super (i_superblock i);
        '(ret, child_ref) ← alloc_ref (s_fs_info b) filetype;
        if failed ret then mret ret
        else
          (if S_ISCHR mode || S_ISBLK mode then setf EDev child_ref dev else mret ());;
          setf EMode child_ref mode;;
          d ← the_dentry dentry;
          ret ← lib (ext4_dir_add_entry parent_ref (d_name d) child_ref);
          if failed ret then lib (ext4_fs_free_inode child_ref);; mret ret
          else
            ino ← peek (ref_index child_ref);
            child_inode ← inode_acquire (i_superblock i) ino;
            if child_inode =? 0 then lib (ext4_fs_free_inode child_ref);; mret (- ENOMEM)
            else
              write_inode child_inode (λ j, set_i_rdev dev (set_i_mode mode (set_i_ino ino j)));;
              dentry_instantiate dentry child_inode;;
              put_ref child_ref;;
              put_ref parent_ref;;
              mret 0
    end.

Definition ext4_vfs_tmpfile (inode dentry mode : Z) : M Z :=
  '(ret, parent_ref) ← __inode_getExt4InodeRef inode;
  if failed ret then mret ret
  else
    i ← the_inode inode;
    b ← the_super (i_superblock i);
    '(ret, child_ref) ← alloc_ref (s_fs_info b) EXT4_DE_REG_FILE;
    if failed ret then put_ref parent_ref;; mret ret
    else
      setf EMode child_ref mode;;
      setf ELinks child_ref 0;;
      attach_new (i_superblock i) dentry child_ref parent_ref
        (λ ino j, set_i_nlink 0 (set_i_mode mode (set_i_ino ino j))).

(** ** Blocks *)

Definition ext4_vfs_get_block (inode block : Z) (bh : buffer_head) (create : Z) : M (Z * buffer_head) :=
  '(ret, r) ← __inode_getExt4InodeRef inode;
  if failed ret then mret (ret, bh)
  else
    let out ret bh := put_ref r;; mret (ret, bh) in
    let creating := negb (create =? 0) in
    '(ret, phys) ← lib (ext4_fs_get_inode_dblk_idx r (u32 block) (negb creating));
    '(ret, phys) ←
      (if (ret =? 0) && creating && (phys =? 0) then lib (ext4_fs_init_inode_dblk_idx r (u32 block))
       else mret (ret, phys));
    if (ret =? 0) && (0 <? phys) then
      i ← the_inode inode;
      b ← the_super (i_superblock i);
      size ← peek (sb_log_block_size (s_fs_info b));
      out ret (BufferHead (s_bdev b) phys size
                 (Z.lor (b_state bh) (Z.shiftl 1 (if creating then BH_New else BH_Mapped))))
    else out ret bh.

Definition ext4_vfs_bmap (inode block : Z) : M Z :=
  '(ret, r) ← __inode_getExt4InodeRef inode;
  if failed ret then mret 0
  else
    '(ret, phys) ← lib (ext4_fs_get_inode_dblk_idx r (u32 block) true);
    put_ref r;;
    mret (if failed ret then 0 else phys).

Definition ext4_vfs_truncate_blocks (inode size : Z) : M () :=
  '(ret, r) ← __inode_getExt4InodeRef inode;
  if failed ret then mret ()
  else
    ret ← lib (ext4_fs_truncate_inode r (u64 size));
    (if ret =? 0 then
       write_inode inode (set_i_size size);;
       setf ESize r size;;
       lib_ (set_dirty r true)
     else mret ());;
    put_ref r;;
    mret ().

Definition ext4_vfs_direct_IO : M Z := mret (- EOPNOTSUPP).

Definition ext4_vfs_page_fault : M Z := mret VM_FAULT_NOPAGE.

(** ** Write-back of one inode; a null reference is 0 *)

Definition ext4_sync_inode (fs r : Z) : M Z :=
  if r =? 0 then mret (- EINVAL)
  else
    buf ← peek (ref_buf r);
    (if negb (buf =? 0) then
       lib_ (ext4_bcache_set_dirty buf);;
       on ← peek (buf_on_dirty_list buf);
       if negb on then
         bdev ← peek (fs_bdev fs);
         lib_ (ext4_bcache_insert_dirty_node bdev buf)
       else mret ()
     else mret ());;
    lib_ (set_dirty r true);;
    put_ref r.

Definition __ext4_flush_dirty_inode (fs r : Z) : M Z :=
  if r =? 0 then mret (- EINVAL)
  else
    dirty ← peek (ref_dirty r);
    buf ← peek (ref_buf r);
    if dirty && negb (buf =? 0) then
      bdev ← peek (fs_bdev fs);
      ret ← lib (ext4_block_flush_buf bdev buf);
      (if ret =? 0 then lib_ (set_dirty r false) else mret ());;
      mret ret
    else mret 0.

End Ext4.
