(* ===== verification/Ext4Refs.v ===== *)
(** * The inode references of the ext4 operations

    Which paths of [Ext4Inode] put back every reference they got. *)

From stdpp Require Import base gmap list.
From S2P Require Import Prelude Inode Ext4Lib Ext4Disk Ext4Inode.
Local Open Scope Z_scope.

Section Refs.
Context {E : Type} {L : Lwext4 E} {LS : Lwext4Sizes E} {V : Type} {K : Kernel (xs E V)} {KS : KernelSpec E V}.
Implicit Types s : xs E V.

Lemma runs_ref s x (Q : Z * Z → xs E V → Prop) :
  inode_known s x →
  (∀ r s', later s s' → held s' = r :: held s → Q (0, r) s') →
  (∀ ret r s', ret ≠ 0 → keeps s s' → Q (ret, r) s') →
  runs s (__inode_getExt4InodeRef x) Q.
Proof.
  intros Hx H0 H1. apply runs_bind, runs_inode; [done|]. intros i _ Hs.
  apply runs_bind, runs_super; [done|]. intros b. by apply runs_acquire.
Qed.

Lemma runs_fill s r sb ino x (Q : () → xs E V → Prop) :
  super_known s sb → inode_known s x → (∀ s', keeps s s' → Q () s') →
  runs s (read_fields r sb ino x) Q.
Proof.
  intros Hs Hx HQ. apply runs_bind. eexists _, _. split; [done|]. apply runs_write; [done|by right|done].
Qed.

(** The size bounds of the copies out of the library's arrays. *)
Lemma runs_copy_blocks s r n (Q : list Z → xs E V → Prop) :
  n ≤ 60 → (∀ bytes, Q bytes s) → runs s (copy_blocks r n) Q.
Proof.
  intros Hn HQ. apply runs_bind. eexists _, _. split; [done|]. unfold copy_from.
  pose proof (blocks_size r (lw s)). destruct (Z.leb_spec n (Z.of_nat (length (ref_blocks r (lw s))))); [|lia].
  by apply runs_ret.
Qed.

Lemma runs_copy_data s b n (Q : list Z → xs E V → Prop) :
  n ≤ block_size → (∀ bytes, Q bytes s) → runs s (copy_data b n) Q.
Proof.
  intros Hn HQ. apply runs_bind. eexists _, _. split; [done|]. unfold copy_from.
  pose proof (data_size b (lw s)). destruct (Z.leb_spec n (Z.of_nat (length (block_data b (lw s))))); [|lia].
  by apply runs_ret.
Qed.

(** The laws of the VFS calls, in the form the tactic below applies. *)
Lemma runs_call {A} s (m : st (xs E V) A) (Q : A → xs E V → Prop) :
  runs s m (λ _ s', keeps s s') → (∀ a s', keeps s s' → Q a s') → runs s m Q.
Proof. intros Hm HQ. eapply runs_weaken; [exact Hm|]. intros a s'. apply HQ. Qed.

Lemma runs_inode_acquire s sb ino (Q : Z → xs E V → Prop) :
  (∀ x s', keeps s s' → (PTR_IS_INVALID x = false → inode_known s' x) → Q x s') →
  runs s (inode_acquire sb ino) Q.
Proof. intros HQ. eapply runs_weaken; [apply acquire_ok|]. intros a s' [H1 H2]. by apply HQ. Qed.

End Refs.

(** One step of a run. *)
Ltac settle :=
  let Hl := fresh in let Hh := fresh in
  lazymatch goal with
  | |- keeps _ _ → _ => intros [Hl Hh]
  | |- later _ _ → held _ = _ → _ => intros Hl Hh
  end;
  known_later Hl; clear Hl;
  try match type of Hh with
  | _ = ?x =>
      match x with
      | context [held ?t] => match goal with Ht : held t = _ |- _ => rewrite Ht in Hh; clear Ht end
      end
  end.

Ltac run_step :=
  first [progress cbn beta iota|
  lazymatch goal with
  | |- runs _ (_ ≫= _) _ => apply runs_bind
  | |- runs _ (mret _) _ => apply runs_ret
  | |- runs _ (lib _) _ => apply runs_lib; intros ? ?; settle
  | |- runs _ (lib_ _) _ => apply runs_lib_; intros ?; settle
  | |- runs _ (setf _ _ _) _ => apply runs_lib_; intros ?; settle
  | |- runs _ (peek _) _ => apply runs_peek; intros ?
  | |- runs _ (getf _ _) _ => apply runs_peek; intros ?
  | |- runs _ (the_super _) _ => apply runs_super; [assumption|]; intros ?
  | |- runs _ (the_inode _) _ => apply runs_inode; [assumption|]; intros ? ? ?
  | |- runs _ (the_dentry _) _ =>
      first [apply runs_positive; [assumption|]; intros ? ? ? ?
            |apply runs_dentry; [assumption|]; intros ? ? ?]
  | |- runs _ (__inode_getExt4InodeRef _) _ =>
      apply runs_ref; [assumption|intros ? ?; settle|intros ? ? ? ?; settle]
  | |- runs _ (get_ref _ _) _ => apply runs_acquire; [intros ? ?; settle|intros ? ? ? ?; settle]
  | |- runs _ (alloc_ref _ _) _ => apply runs_acquire; [intros ? ?; settle|intros ? ? ? ?; settle]
  | |- runs _ (read_fields _ _ _ _) _ => apply runs_fill; [assumption..|intros ?; settle]
  | |- runs _ (copy_blocks _ _) _ => apply runs_copy_blocks; [bool_props; lia|intros ?]
  | |- runs _ (copy_data _ _) _ => apply runs_copy_data; [lia|intros ?]
  | |- runs _ (write_inode _ _) _ => apply runs_write; [assumption|by left|intros ?; settle]
  | |- runs ?s (put_ref _) _ =>
      match goal with H : held s = _ |- _ =>
        eapply runs_put; [rewrite H; (apply drop_top || apply drop_second)|intros ? ?; settle] end
  | |- runs _ (inode_ref _) _ => apply runs_call; [apply ref_ok|intros ? ?; settle]
  | |- runs _ (dentry_instantiate _ _) _ => apply runs_call; [apply instantiate_ok|intros ? ?; settle]
  | |- runs _ (setattr_prepare _ _) _ => apply runs_call; [apply prepare_ok|intros ? ?; settle]
  | |- runs _ (dentry_allocFullPath _) _ => apply runs_call; [apply fullpath_ok|intros ? ?; settle]
  | |- runs _ (path_create _ _) _ => apply runs_call; [apply path_ok|intros ? ?; settle]
  | |- runs _ (kmalloc_ok _) _ => apply runs_call; [apply malloc_ok|intros ? ?; settle]
  | |- runs _ do_time _ => apply runs_call; [apply time_ok|intros ? ?; settle]
  | |- runs _ (inode_acquire _ _) _ => apply runs_inode_acquire; intros ? ?; settle; intros ?
  | |- runs _ (if 0 =? 0 then _ else _) _ => cbn [Z.eqb]
  | |- runs _ (if negb (0 =? 0) then _ else _) _ => cbn [negb Z.eqb]
  | H : ?ret ≠ 0 |- runs _ (if negb (?ret =? 0) then _ else _) _ =>
      rewrite (proj2 (Z.eqb_neq _ _) H); cbn [negb]
  | |- runs _ (if ?b then _ else _) _ => destruct b eqn:?
  | |- runs _ (let _ := _ in _) _ => cbv zeta
  | |- runs _ (match ?x with (_, _) => _ end) _ => destruct x
  | |- runs _ (match ?x with Some _ => _ | None => _ end) _ => destruct x eqn:?
  end].
Ltac run := repeat run_step; try congruence.

Section Balance.
Context {E : Type} {L : Lwext4 E} {LS : Lwext4Sizes E} {V : Type} {K : Kernel (xs E V)} {KS : KernelSpec E V}.
Implicit Types s : xs E V.

Definition balanced {A} s (m : st (xs E V) A) : Prop := runs s m (λ _ s', held s' = held s).

(** ** Every path of these operations *)

(** The operations, with their arguments. *)
Inductive eop :=
| OpReadInode (x : Z)
| OpLookup (dir d flags : Z)
| OpLink (o dir n : Z)
| OpUnlink (dir d : Z)
| OpRmdir (dir d : Z)
| OpRename (od o nd n : Z)
| OpReadlink (d buflen : Z)
| OpGetLink (d x : Z)
| OpSetattr (d : Z) (attr : iattr)
| OpSetxattr (d : Z) (name value : list Z) (flags : Z)
| OpGetxattr (d : Z) (name : list Z) (size : Z)
| OpRemovexattr (d : Z) (name : list Z)
| OpListxattr (d : Z) (buf : bool) (size : Z)
| OpGetBlock (x block : Z) (bh : buffer_head) (create : Z)
| OpBmap (x block : Z)
| OpTruncate (x size : Z).

Definition forget {A} (m : st (xs E V) A) : st (xs E V) () := m ≫= λ _, mret ().

Definition run_eop (op : eop) : st (xs E V) () :=
  match op with
  | OpReadInode x => forget (ext4_read_inode x)
  | OpLookup dir d flags => forget (ext4_vfs_lookup dir d flags)
  | OpLink o dir n => forget (ext4_vfs_link o dir n)
  | OpUnlink dir d => forget (ext4_vfs_unlink dir d)
  | OpRmdir dir d => forget (ext4_vfs_rmdir dir d)
  | OpRename od o nd n => forget (ext4_vfs_rename od o nd n)
  | OpReadlink d buflen => forget (ext4_vfs_readlink d buflen)
  | OpGetLink d x => forget (ext4_vfs_get_link d x)
  | OpSetattr d attr => forget (ext4_vfs_setattr d attr)
  | OpSetxattr d name value flags => forget (ext4_vfs_setxattr d name value flags)
  | OpGetxattr d name size => forget (ext4_vfs_getxattr d name size)
  | OpRemovexattr d name => forget (ext4_vfs_removexattr d name)
  | OpListxattr d buf size => forget (ext4_vfs_listxattr d buf size)
  | OpGetBlock x block bh create => forget (ext4_vfs_get_block x block bh create)
  | OpBmap x block => forget (ext4_vfs_bmap x block)
  | OpTruncate x size => ext4_vfs_truncate_blocks x size
  end.

(** The size of the inode of a symbolic link is that of its target. *)
Definition link_size s (x limit : Z) : Prop :=
  ∀ i, inodes s !! x = Some i → 0 ≤ i_size i ≤ limit ∧ i_size i < 2 ^ 63.

(** What the callers provide. *)
Definition ready s (op : eop) : Prop :=
  match op with
  | OpReadInode x | OpGetBlock x _ _ _ | OpBmap x _ | OpTruncate x _ => inode_known s x
  | OpLookup dir d _ => inode_known s dir ∧ dentry_known s d
  | OpLink o dir n => positive s o ∧ inode_known s dir ∧ dentry_known s n
  | OpUnlink dir d | OpRmdir dir d => inode_known s dir ∧ positive s d
  | OpRename od o nd n => inode_known s od ∧ positive s o ∧ inode_known s nd ∧ positive s n
  | OpReadlink d _ =>
      positive s d ∧ ∀ e, dentries s !! d = Some e → link_size s (d_inode e) block_size
  | OpGetLink d x => inode_known s x ∧ link_size s x (2 ^ 63)
  | OpSetattr d _ | OpSetxattr d _ _ _ | OpGetxattr d _ _ | OpRemovexattr d _ | OpListxattr d _ _ => positive s d
  end.

(** What the library answers when it is asked for the reference of the dentry's inode. *)
Definition ref_answer s (d : Z) : option Z :=
  e ← dentries s !! d; i ← inodes s !! d_inode e; b ← supers s !! i_superblock i;
  Some (ext4_fs_get_inode_ref (s_fs_info b) (u32 (i_ino i)) (lw s)).1.1.

(** The call of [setattr] to which the library refuses the reference with a positive
    code: [CHECK_RET] takes only negative ones for errors. *)
Definition unfilled s (op : eop) : bool :=
  match op with
  | OpSetattr d _ => if ref_answer s d is Some ret then 0 <? ret else false
  | _ => false
  end.

Ltac start := unfold balanced; match goal with s : xs E V |- _ => remember (held s) as h eqn:Hh; symmetry in Hh end.

Lemma namespace_balanced s op :
  match op with OpLookup _ _ _ | OpLink _ _ _ | OpUnlink _ _ | OpRmdir _ _ => True | _ => False end →
  ready s op → balanced s (run_eop op).
Proof.
  intros Hop Hr. destruct op; try done; cbn in Hr; destruct_and? Hr; cbn [run_eop]; unfold forget; start.
  - unfold ext4_vfs_lookup. run.
  - unfold ext4_vfs_link. run.
  - unfold ext4_vfs_unlink, drop_link. run.
  - unfold ext4_vfs_rmdir, dir_is_empty. run.
Qed.

Lemma rename_balanced s od o nd n :
  inode_known s od → positive s o → inode_known s nd → positive s n →
  balanced s (ext4_vfs_rename od o nd n).
Proof. intros. start. unfold ext4_vfs_rename, remove_target, move_entry, dir_is_empty, drop_link. run. Qed.

Lemma xattr_balanced s op :
  match op with OpSetxattr _ _ _ _ | OpGetxattr _ _ _ | OpRemovexattr _ _ | OpListxattr _ _ _ => True | _ => False end →
  ready s op → balanced s (run_eop op).
Proof.
  intros Hop Hr. destruct op; try done; cbn in Hr; cbn [run_eop]; unfold forget; start;
    unfold ext4_vfs_setxattr, ext4_vfs_getxattr, ext4_vfs_removexattr, ext4_vfs_listxattr, with_inode_ref; run.
Qed.

Lemma blocks_balanced s op :
  match op with OpReadInode _ | OpGetBlock _ _ _ _ | OpBmap _ _ | OpTruncate _ _ => True | _ => False end →
  ready s op → balanced s (run_eop op).
Proof.
  intros Hop Hr. destruct op; try done; cbn in Hr; cbn [run_eop]; unfold forget; start.
  - unfold ext4_read_inode, ext4_inode_init, init_ops. run.
  - unfold ext4_vfs_get_block. run.
  - unfold ext4_vfs_bmap. run.
  - unfold ext4_vfs_truncate_blocks. run.
Qed.

Lemma copy_bound x y : 0 ≤ x < 2 ^ 63 → Z.min (u64 x) y ≤ x.
Proof. intros. rewrite u64_small; lia. Qed.

Lemma links_balanced s op :
  match op with OpReadlink _ _ | OpGetLink _ _ => True | _ => False end →
  ready s op → balanced s (run_eop op).
Proof.
  intros Hop Hr. destruct op; try done; cbn in Hr; destruct Hr as [Hk Hz]; cbn [run_eop]; unfold forget; start.
  - unfold ext4_vfs_readlink. do 8 run_step.
    match goal with H : dentries s !! d = Some ?e, H' : inodes s !! _ = Some ?i |- _ =>
      destruct (Hz e H i H') as [? ?]; pose proof (copy_bound (i_size i) (u64 buflen)) end. clear Hz. run.
  - unfold ext4_vfs_get_link. do 3 run_step.
    match goal with H' : inodes s !! _ = Some ?i |- _ =>
      destruct (Hz i H') as [? ?]; assert (u64 (i_size i) = i_size i) by (apply u64_small; lia) end. clear Hz.
    run.
Qed.
(** *** Changing attributes *)

Lemma keeps_trans s1 s2 s3 : keeps s1 s2 → keeps s2 s3 → keeps s1 s3.
Proof. intros [H1 E1] [H2 E2]. split; [by etransitivity|congruence]. Qed.

Lemma runs_set_attr s valid flag f r v x upd (Q : () → xs E V → Prop) :
  inode_known s x → (∀ i, i_superblock (upd i) = i_superblock i) →
  (∀ s', keeps s s' → Q () s') → runs s (set_attr valid flag f r v x upd) Q.
Proof.
  intros Hx Hu HQ. unfold set_attr. destruct (has flag valid); [|apply runs_ret, HQ; split; done].
  apply runs_bind, runs_lib_. intros s1 H1. pose proof (later_inode _ _ (proj1 H1) _ Hx).
  apply runs_bind, runs_write; [done|intros ?; left; apply Hu|]. intros s2 H2.
  apply runs_lib_. intros s3 H3. apply HQ. eauto using keeps_trans.
Qed.

Lemma runs_set_size s attr r x (Q : Z → xs E V → Prop) :
  inode_known s x → (∀ ret s', keeps s s' → Q ret s') → runs s (set_size attr r x) Q.
Proof.
  intros Hx HQ. unfold set_size. destruct (has ATTR_SIZE _); [|apply runs_ret, HQ; split; done].
  apply runs_bind, runs_inode; [done|]. intros i _ _. apply runs_bind.
  assert (∀ ret s1, keeps s s1 → runs s1 (if negb (ret =? 0) then mret ret
    else write_inode x (set_i_size (ia_size attr));; setf ESize r (ia_size attr);; lib_ (set_dirty r true);; mret 0) Q) as Hend.
  { intros ret s1 H1. destruct (negb _); [by apply runs_ret, HQ|].
    apply runs_bind, runs_write; [by apply (later_inode _ _ (proj1 H1))|by left|]. intros s2 H2.
    apply runs_bind, runs_lib_. intros s3 H3. apply runs_bind, runs_lib_. intros s4 H4.
    apply runs_ret, HQ. eauto using keeps_trans. }
  destruct (ia_size attr <? i_size i); [apply runs_lib; intros ret s1 H1|apply runs_ret]; apply Hend; [done|by split].
Qed.

(** As [runs_ref], with what is known of the result. *)
Lemma runs_ref_ret s x (P : Z → Prop) (Q : Z * Z → xs E V → Prop) :
  inode_known s x →
  (∀ i b, inodes s !! x = Some i → supers s !! i_superblock i = Some b →
          P (ext4_fs_get_inode_ref (s_fs_info b) (u32 (i_ino i)) (lw s)).1.1) →
  (∀ r s', later s s' → held s' = r :: held s → Q (0, r) s') →
  (∀ ret r s', ret ≠ 0 → P ret → keeps s s' → Q (ret, r) s') →
  runs s (__inode_getExt4InodeRef x) Q.
Proof.
  intros (i & Hi & b & Hb) HP H0 H1. specialize (HP i b Hi Hb).
  unfold __inode_getExt4InodeRef, the_inode, the_super, runs, mbind, st_bind. rewrite Hi. cbn. rewrite Hb. cbn.
  unfold get_ref, acquire. destruct (ext4_fs_get_inode_ref _ _ _) as [[ret r] e]. cbn in HP.
  eexists _, _. split; [done|]. destruct (Z.eqb_spec ret 0) as [->|Hn].
  - apply H0; [by apply later_same|done].
  - apply H1; [done..|]. split; [by apply later_same|done].
Qed.

Lemma setattr_balanced s d attr :
  positive s d → unfilled s (OpSetattr d attr) = false → balanced s (ext4_vfs_setattr d attr).
Proof.
  intros Hd Hz.
  assert (∀ e i b, dentries s !! d = Some e → inodes s !! d_inode e = Some i → supers s !! i_superblock i = Some b →
    (ext4_fs_get_inode_ref (s_fs_info b) (u32 (i_ino i)) (lw s)).1.1 ≤ 0) as Hle.
  { intros e i b He Hi Hb. cbn [unfilled] in Hz. unfold ref_answer, mbind, option_bind in Hz.
    rewrite He, Hi, Hb in Hz. by apply Z.ltb_ge. }
  clear Hz. start. unfold ext4_vfs_setattr. apply runs_bind, runs_positive; [done|].
  intros e He _ Hi. apply runs_bind. apply (runs_ref_ret _ _ (λ ret, ret ≤ 0)); [done|eauto| |].
  - intros r s1. settle. cbn [Z.ltb Z.compare].
    repeat first [run_step
      |apply runs_set_attr; [assumption|done|intros ?; settle]
      |apply runs_set_size; [assumption|intros ? ?; settle]]; congruence.
  - intros ret r s1 Hn Hret. settle. destruct (Z.ltb_spec ret 0); [|lia]. run.
Qed.

(** With a positive answer it goes on with the structure that was not filled in. *)
Lemma setattr_unfilled s d attr : unfilled s (OpSetattr d attr) = true → ext4_vfs_setattr d attr s = Fault.
Proof.
  cbn [unfilled]. unfold ref_answer, mbind, option_bind.
  destruct (dentries s !! d) as [e|] eqn:He; [|done]. destruct (inodes s !! d_inode e) as [i|] eqn:Hi; [|done].
  destruct (supers s !! i_superblock i) as [b|] eqn:Hb; [|done]. intros Hz%Z.ltb_lt.
  unfold ext4_vfs_setattr, __inode_getExt4InodeRef, the_dentry, the_inode, the_super, get_ref, acquire, mbind, st_bind.
  rewrite He. cbn. rewrite Hi. cbn. rewrite Hb. cbn.
  destruct (ext4_fs_get_inode_ref _ _ _) as [[ret r] e']. cbn in Hz |- *.
  rewrite (proj2 (Z.ltb_ge _ _)), (proj2 (Z.eqb_neq _ _)) by lia. done.
Qed.

Lemma op_balanced s op : ready s op → unfilled s op = false → balanced s (run_eop op).
Proof.
  destruct op; intros Hr Hu; try (by apply namespace_balanced); try (by apply xattr_balanced);
    try (by apply blocks_balanced); try (by apply links_balanced).
  - cbn in Hr. destruct Hr as (? & ? & ? & ?). apply runs_bind. eapply runs_weaken; [by apply rename_balanced|].
    intros a s' H'. by apply runs_ret.
  - apply runs_bind. eapply runs_weaken; [by apply setattr_balanced|]. intros a s' H'. by apply runs_ret.
Qed.

(** ** Making inodes *)

Inductive mkop :=
| MkCreate (dir d mode : Z)
| MkSymlink (dir d : Z) (target : list Z)
| MkMkdir (dir d mode : Z)
| MkTmpfile (dir d mode : Z)
| MkMknod (dir d mode dev : Z).

Definition run_mkop (op : mkop) : st (xs E V) Z :=
  match op with
  | MkCreate dir d mode => ext4_vfs_create dir d mode
  | MkSymlink dir d target => ext4_vfs_symlink dir d target
  | MkMkdir dir d mode => ext4_vfs_mkdir dir d mode
  | MkTmpfile dir d mode => ext4_vfs_tmpfile dir d mode
  | MkMknod dir d mode dev => ext4_vfs_mknod dir d mode dev
  end.

Definition mk_args (op : mkop) : Z * Z :=
  match op with
  | MkCreate dir d _ | MkSymlink dir d _ | MkMkdir dir d _ | MkTmpfile dir d _ | MkMknod dir d _ _ => (dir, d)
  end.

(** The references an operation may leave behind when it fails. *)
Definition may_leak (op : mkop) : nat := if op is MkMknod _ _ _ _ then 2%nat else 1%nat.

Definition mk_refs op (h : list Z) (ret : Z) s' : Prop :=
  ∃ l, held s' = l ++ h ∧ (ret = 0 → l = []) ∧ (length l ≤ may_leak op)%nat.

Lemma runs_valid_acquire s sb ino (Q : Z → xs E V → Prop) :
  (∀ s x s', inode_acquire sb ino s = Ok (x, s') → PTR_IS_ERROR x = false) →
  (∀ x s', keeps s s' → x ≠ 0 → inode_known s' x → Q x s') → (∀ s', keeps s s' → Q 0 s') →
  runs s (inode_acquire sb ino) Q.
Proof.
  intros He H1 H0. destruct (acquire_ok s sb ino) as (x & s' & E' & Hk & Hv). exists x, s'. split; [done|].
  specialize (He _ _ _ E'). unfold PTR_IS_INVALID in Hv. rewrite He, orb_false_r in Hv.
  destruct (Z.eqb_spec x 0) as [->|Hn]; [by apply H0|]. apply H1; auto.
Qed.

Lemma mk_refs_intro op h ret s' l :
  held s' = l ++ h → (ret = 0 → l = []) → (length l ≤ may_leak op)%nat → mk_refs op h ret s'.
Proof. intros ? ? ?. by exists l. Qed.

Ltac leaves l :=
  apply (mk_refs_intro _ _ _ _ l);
    [eassumption|intros; exfalso; bool_props; unfold EINVAL, ENOMEM in *; lia|cbn; lia].
Ltac leak_count :=
  match goal with H : held ?s = _ |- mk_refs _ ?h _ ?s =>
    match type of H with
    | _ = h => by apply (mk_refs_intro _ _ _ _ []); [..|cbn; lia]
    | _ = ?a :: h => leaves [a]
    | _ = ?a :: ?b :: h => leaves [a; b]
    end
  end.

Lemma mkop_refs s op :
  (∀ sb ino s x s', inode_acquire sb ino s = Ok (x, s') → PTR_IS_ERROR x = false) →
  inode_known s (mk_args op).1 → dentry_known s (mk_args op).2 →
  runs s (run_mkop op) (mk_refs op (held s)).
Proof.
  intros Hv Hi Hd. remember (held s) as h eqn:Hh. symmetry in Hh.
  destruct op; cbn [mk_args fst snd] in Hi, Hd; cbn [run_mkop];
    unfold ext4_vfs_create, ext4_vfs_symlink, ext4_vfs_mkdir, ext4_vfs_tmpfile, ext4_vfs_mknod, attach_new, drop_new, store_target;
    repeat first [leak_count
      |lazymatch goal with |- runs _ (inode_acquire _ _) _ =>
         apply runs_valid_acquire; [eauto|intros ? ?; settle; intros ? ?|intros ?; settle] end
      |run_step].
Qed.

End Balance.

(** ** Properties *)

Section Properties.
Context {E : Type} {L : Lwext4 E} {LS : Lwext4Sizes E} {V : Type} {K : Kernel (xs E V)} {KS : KernelSpec E V}.


(** The operations that make an inode put their references back when they succeed.
    When they fail they can leave one behind, [mknod] two. *)
Theorem creation_refs (s : xs E V) op :
  (∀ sb ino s x s', inode_acquire sb ino s = Ok (x, s') → PTR_IS_ERROR x = false) →
  inode_known s (mk_args op).1 → dentry_known s (mk_args op).2 →
  ∃ ret s' l, run_mkop op s = Ok (ret, s') ∧ held s' = l ++ held s ∧ (ret = 0 → l = []) ∧
    (length l ≤ may_leak op)%nat.
Proof. intros Hv Hi Hd. destruct (mkop_refs s op Hv Hi Hd) as (ret & s' & Hr & l & ?). by exists ret, s', l. Qed.

(** [create] does leave one: when the new name cannot be added, the inode is freed but
    the reference to it is never put. *)
Theorem create_leaks (s : xs E V) dir d mode i b de rd e1 rc e2 err e3 :
  inodes s !! dir = Some i → supers s !! i_superblock i = Some b → dentries s !! d = Some de →
  ext4_fs_get_inode_ref (s_fs_info b) (u32 (i_ino i)) (lw s) = ((0, rd), e1) →
  ext4_fs_alloc_inode (s_fs_info b) EXT4_DE_REG_FILE e1 = ((0, rc), e2) →
  ext4_dir_add_entry rd (d_name de) rc (set_field EMode rc (u32 mode) e2) = (err, e3) → err ≠ 0 →
  ∃ s', ext4_vfs_create dir d mode s = Ok (err, s') ∧ held s' = rc :: held s.
Proof.
  intros Hi Hb Hd E1 E2 E3 Hn. unfold ext4_vfs_create, the_inode, the_super, the_dentry, mbind, st_bind.
  rewrite Hi. cbn. rewrite Hb. cbn. unfold get_ref, alloc_ref, acquire. rewrite E1. cbn. rewrite E2. cbn.
  rewrite Hd. cbn. unfold lib. cbn. rewrite E3. cbn. rewrite (proj2 (Z.eqb_neq _ _) Hn). cbn.
  unfold drop_new, lib, mbind, st_bind. cbn. destruct (ext4_fs_free_inode rc e3) as [x e4]. cbn.
  unfold put_ref. cbn [held set_held set_lw]. rewrite drop_second. cbn.
  destruct (ext4_fs_put_inode_ref rd e4) as [y e5]. by eexists.
Qed.

End Properties.

(** ** The small disk *)

(** The mode 0600, the owner 65537 and the size 2. *)
Definition attr0 : iattr :=
  Iattr (Z.lor ATTR_MODE (Z.lor ATTR_UID ATTR_SIZE)) 33152 65537 0 2 (Timespec 0 0) (Timespec 0 0) (Timespec 0 0).


Lemma table_acquire_valid sb ino (s : dstate) x s' :
  table_acquire sb ino s = Ok (x, s') → PTR_IS_ERROR x = false.
Proof.
  unfold table_acquire. intros H.
  assert (x = 4096 + u32 ino ∨ x = 0) as Hx.
  { repeat (case_match; [left; congruence|]). right. congruence. }
  unfold PTR_IS_ERROR. apply Z.leb_gt. pose proof (u32_range ino). rewrite u64_small; destruct Hx; lia.
Qed.

Lemma creation_refs_witness :
  ∃ ret s' l, run_mkop (MkCreate 4098 21 33188) ext4_state0 = Ok (ret, s') ∧ held s' = l ++ [] ∧
    (ret = 0 → l = []) ∧ (length l ≤ 1)%nat.
Proof.
  apply (creation_refs ext4_state0 (MkCreate 4098 21 33188)).
  - exact table_acquire_valid.
  - exact dir0_known.
  - exact name0_known.
Defined.

(** The name [a] is taken: the reference 51 of the inode that was allocated stays. *)
Lemma create_leaks_witness :
  ∃ s', ext4_vfs_create 4098 20 33188 ext4_state0 = Ok (EEXIST, s') ∧ held s' = [51].
Proof.
  eapply (create_leaks ext4_state0 4098 20 33188); try reflexivity. discriminate.
Defined.
