(* ===== verification/Ext4Attr.v ===== *)
(** * Attributes set through ext4 are read back

    The changes [ext4_vfs_setattr] makes to an inode, followed through the library's
    reference to the stored inode and back into the VFS by [ext4_inode_init]. *)

From stdpp Require Import base gmap list.
From S2P Require Import Prelude Inode Ext4Lib Ext4Disk Ext4Inode Ext4Refs.
Local Open Scope Z_scope.

(** The fields of the inode after the attributes of [attr] are applied to [old], each cut
    to the width it has on disk. *)
Definition with_attr (attr : iattr) (old : efield → Z) (f : efield) : Z :=
  let pick flag x := if has flag (ia_valid attr) then x mod 2 ^ field_width f else old f in
  match f with
  | EMode => pick ATTR_MODE (ia_mode attr)
  | EUid => pick ATTR_UID (ia_uid attr)
  | EGid => pick ATTR_GID (ia_gid attr)
  | ESize => pick ATTR_SIZE (ia_size attr)
  | EAtime => pick ATTR_ATIME (tv_sec (ia_atime attr))
  | EMtime => pick ATTR_MTIME (tv_sec (ia_mtime attr))
  | ECtime => pick ATTR_CTIME (tv_sec (ia_ctime attr))
  | _ => old f
  end.

(** The VFS inode has the attributes of the stored one. *)
Record reads_as (i : inode) (w : efield → Z) : Prop := {
  ra_mode : i_mode i = w EMode;
  ra_uid : i_uid i = w EUid;
  ra_gid : i_gid i = w EGid;
  ra_size : i_size i = s64 (w ESize);
  ra_atime : i_atime i = Timespec (w EAtime) 0;
  ra_mtime : i_mtime i = Timespec (w EMtime) 0;
  ra_ctime : i_ctime i = Timespec (w ECtime) 0;
  ra_nlink : i_nlink i = w ELinks;
}.

Section Attr.
Context {E : Type} {L : Lwext4 E} {LS : Lwext4Store E} {V : Type} {K : Kernel (xs E V)}.
Implicit Types s : xs E V.

(** Every change made so far is on the device or marked for writing. *)
Definition settled (e : E) : Prop := ∀ k f, view k f e = marked k f e.

(** A reference to the inode [t] whose fields, the block count aside, are [w]; the other
    inodes are those of [e0], and nothing but changes of [t] is unmarked. Those are made
    through a reference that is dirty. *)
Record editing (e0 : E) (t : Z * Z) (r : Z) (w : efield → Z) (e : E) : Prop := {
  ed_target : ref_target r e = t;
  ed_field f : f ≠ EBlocks → view t f e = w f;
  ed_clean : ref_dirty r e = false → ∀ f, view t f e = marked t f e;
  ed_other k f : k ≠ t → view k f e = view k f e0 ∧ marked k f e = view k f e0;
}.

Definition edit (f : efield) (x : Z) (w : efield → Z) (g : efield) : Z := if decide (g = f) then x else w g.

Lemma others_kept (e0 e e' : E) t :
  (∀ k f, k ≠ t → view k f e = view k f e0 ∧ marked k f e = view k f e0) →
  (∀ k, k ≠ t → field_kept k e e') →
  ∀ k f, k ≠ t → view k f e' = view k f e0 ∧ marked k f e' = view k f e0.
Proof.
  intros He Hk k f Hn. destruct (He k f Hn) as [H1 H2]. destruct (Hk k Hn f) as [-> ->]; [congruence|].
  by rewrite H1.
Qed.

Lemma edit_set e0 t r w e f x :
  t ≠ (0, 0) → f ≠ EBlocks → f ≠ EDev → editing e0 t r w e →
  editing e0 t r (edit f (disk_conv f x) w) (set_dirty r true (set_field f r x e)).
Proof.
  intros Hn Hb Hv [Ht Hf Hc Ho]. subst t. destruct (set_field_store f r x e Hb Hv Hn) as (Ht1 & Hd1 & Hf1 & Ho1).
  destruct (set_dirty_store r true (set_field f r x e)) as (Ht2 & Hd2 & Hf2 & Ho2); [congruence|].
  rewrite Ht1 in *. split.
  - done.
  - intros g Hg. rewrite Hf2, Hf1. unfold edit. destruct (decide (g = f)); auto.
  - congruence.
  - eauto using others_kept.
Qed.

(** What a step of [setattr] leaves alone. *)
Definition same_frame s s' : Prop :=
  held s' = held s ∧ dentries s' = dentries s ∧ supers s' = supers s.

#[local] Instance same_frame_preorder : PreOrder same_frame.
Proof. split; [by intros s|]. intros s1 s2 s3 (?&?&?) (?&?&?). split_and!; congruence. Qed.

Lemma disk_conv_field f x : disk_conv f (field_conv f x) = x mod 2 ^ field_width f.
Proof.
  unfold disk_conv. destruct f; cbn [field_conv field_width]; unfold u32, u64; apply Z.mod_mod_divide;
    first [reflexivity|by exists (2 ^ 16)|by exists (2 ^ 32)].
Qed.

Lemma set_attr_edit s valid flag f r v x upd i e0 t w :
  t ≠ (0, 0) → f ≠ EBlocks → f ≠ EDev → inodes s !! x = Some i → editing e0 t r w (lw s) →
  runs s (set_attr valid flag f r v x upd) (λ _ s', same_frame s s' ∧ is_Some (inodes s' !! x) ∧
    editing e0 t r (if has flag valid then edit f (v mod 2 ^ field_width f) w else w) (lw s')).
Proof.
  intros Hn Hb Hv Hi He. unfold set_attr. destruct (has flag valid).
  - unfold runs, setf, lib_, write_inode, mbind, st_bind. cbn. rewrite Hi. cbn. eexists _, _. split; [done|]. cbn.
    split; [done|]. rewrite lookup_insert_eq. split; [done|]. rewrite <-disk_conv_field. by apply edit_set.
  - apply runs_ret. split; [done|]. split; [by eexists|done].
Qed.

Lemma truncate_editing e0 t r w n e ret e' :
  t ≠ (0, 0) → editing e0 t r w e → ext4_fs_truncate_inode r n e = (ret, e') →
  editing e0 t r (edit ESize (view t ESize e') w) e'.
Proof.
  intros Hn [Ht Hf Hc Ho] Ee. subst t. destruct (truncate_store r n e ret e' Ee Hn) as (Ht' & Hf' & Hd' & Ho'). split.
  - done.
  - intros f Hb. unfold edit. destruct (decide (f = ESize)) as [->|Hs]; [done|]. rewrite Hf' by done. auto.
  - intros Hd f. destruct (Hd' Hd) as [Hd0 Hk]. destruct (Hk f) as [-> ->]; auto.
  - eauto using others_kept.
Qed.

Lemma editing_ext e0 t r w w' e :
  (∀ f, w f = w' f) → editing e0 t r w e → editing e0 t r w' e.
Proof. intros Hw [? Hf ? ?]. split; [done| |done..]. intros f Hb. by rewrite <-Hw, Hf. Qed.

(** The size: either the edit is made, or the truncation failed and the error is returned. *)
Lemma set_size_edit s attr r x i e0 t w :
  t ≠ (0, 0) → inodes s !! x = Some i → editing e0 t r w (lw s) →
  runs s (set_size attr r x) (λ ret s', same_frame s s' ∧ is_Some (inodes s' !! x) ∧
    (ret = 0 → editing e0 t r
       (if has ATTR_SIZE (ia_valid attr) then edit ESize (ia_size attr mod 2 ^ 64) w else w) (lw s'))).
Proof.
  intros Hn Hi He. unfold set_size. destruct (has ATTR_SIZE _).
  2: { apply runs_ret. split; [done|]. split; [by eexists|done]. }
  apply runs_bind. unfold the_inode. eexists _, _. split; [by rewrite Hi|].
  assert (∀ ret s1 w1, same_frame s s1 → inodes s1 = inodes s → editing e0 t r w1 (lw s1) →
    (∀ f, f ≠ ESize → w1 f = w f) →
    runs s1 (if negb (ret =? 0) then mret ret
      else write_inode x (set_i_size (ia_size attr));; setf ESize r (ia_size attr);; lib_ (set_dirty r true);; mret 0)
    (λ ret s', same_frame s s' ∧ is_Some (inodes s' !! x) ∧
      (ret = 0 → editing e0 t r (edit ESize (ia_size attr mod 2 ^ 64) w) (lw s')))) as Hend.
  { intros ret s1 w1 Hfr Hi1 He1 Hw. destruct (Z.eqb_spec ret 0) as [->|Hr]; cbn.
    - unfold runs, write_inode, setf, lib_, mbind, st_bind. rewrite Hi1, Hi. cbn. eexists _, _. split; [done|].
      cbn. split; [done|]. rewrite lookup_insert_eq. split; [done|]. intros _.
      apply (editing_ext _ _ _ (edit ESize (ia_size attr mod 2 ^ 64) w1)); [|rewrite <-(disk_conv_field ESize); by apply edit_set].
      intros f. unfold edit. destruct (decide (f = ESize)); auto.
    - apply runs_ret. rewrite Hi1, Hi. split; [done|]. split; [done|congruence]. }
  apply runs_bind. destruct (ia_size attr <? i_size i).
  - unfold runs at 1, lib. destruct (ext4_fs_truncate_inode _ _ _) as [ret e'] eqn:Ee. eexists _, _. split; [done|].
    eapply Hend; [done|done|by eapply truncate_editing|]. intros f Hf. unfold edit. by rewrite decide_False.
  - apply runs_ret. by eapply Hend.
Qed.

Lemma edit_if (b : bool) f x (w : efield → Z) g :
  (if b then edit f x w else w) g = if decide (g = f) then (if b then x else w g) else w g.
Proof. unfold edit. destruct b, (decide (g = f)); done. Qed.

Lemma edits_with_attr attr (w : efield → Z) f :
  let valid := ia_valid attr in
  let w1 := if has ATTR_MODE valid then edit EMode (ia_mode attr mod 2 ^ 16) w else w in
  let w2 := if has ATTR_UID valid then edit EUid (ia_uid attr mod 2 ^ 16) w1 else w1 in
  let w3 := if has ATTR_GID valid then edit EGid (ia_gid attr mod 2 ^ 16) w2 else w2 in
  let w4 := if has ATTR_SIZE valid then edit ESize (ia_size attr mod 2 ^ 64) w3 else w3 in
  let w5 := if has ATTR_ATIME valid then edit EAtime (tv_sec (ia_atime attr) mod 2 ^ 32) w4 else w4 in
  let w6 := if has ATTR_MTIME valid then edit EMtime (tv_sec (ia_mtime attr) mod 2 ^ 32) w5 else w5 in
  (if has ATTR_CTIME valid then edit ECtime (tv_sec (ia_ctime attr) mod 2 ^ 32) w6 else w6) f =
  with_attr attr w f.
Proof. cbv zeta. rewrite !edit_if. by destruct f. Qed.

(** After putting the reference everything is marked, and the fields are as edited. *)
Definition edited (e0 : E) (t : Z * Z) (w : efield → Z) (e : E) : Prop :=
  settled e ∧ (∀ f, f ≠ EBlocks → view t f e = w f) ∧ (∀ k f, k ≠ t → view k f e = view k f e0).

Lemma put_editing s h e0 t r w (Q : Z → xs E V → Prop) :
  held s = r :: h → t ≠ (0, 0) → editing e0 t r w (lw s) →
  (∀ ret s', held s' = h → inodes s' = inodes s → supers s' = supers s → edited e0 t w (lw s') → Q ret s') →
  runs s (put_ref r) Q.
Proof.
  intros Hh Hn [Ht Hf Hc Ho] HQ. unfold runs, put_ref. rewrite Hh, drop_top.
  destruct (ext4_fs_put_inode_ref r (lw s)) as [ret e'] eqn:Ep. eexists _, _. split; [done|].
  destruct (put_store _ _ _ _ Ep) as [Hp Hk]; [congruence|]. rewrite Ht in *. apply HQ; [done..|]. cbn.
  assert (∀ f, view t f e' = view t f (lw s) ∧ marked t f e' = view t f (lw s)) as Htf.
  { intros f. destruct (ref_dirty r (lw s)) eqn:Hd; [by apply Hp|]. apply Hk; auto. }
  pose proof (others_kept e0 (lw s) e' t Ho (λ k Hkt, Hk k (or_introl Hkt))) as Ho'. split_and!.
  - intros k f. destruct (decide (k = t)) as [->|Hkt]; [by destruct (Htf f) as [-> ->]|].
    by destruct (Ho' k f Hkt) as [-> ->].
  - intros f Hb. destruct (Htf f) as [-> _]. auto.
  - intros k f Hkt. by destruct (Ho' k f Hkt) as [-> _].
Qed.

Definition setattr_done s s' attr (t : Z * Z) (ret : Z) : Prop :=
  held s' = held s ∧ supers s' = supers s ∧
  (ret = 0 → edited (lw s) t (with_attr attr (λ f, view t f (lw s))) (lw s')).

Lemma editing_start (e : E) fs ino r e' :
  settled e → ext4_fs_get_inode_ref fs ino e = ((0, r), e') →
  editing e (fs, ino) r (λ f, view (fs, ino) f e) e'.
Proof.
  intros Hs Eg. destruct (get_store _ _ _ _ _ _ Eg) as [Hk Hr]. destruct (Hr eq_refl) as (Ht & Hd).
  split; [done|..].
  - intros f _. by destruct (Hk (fs, ino) f (Hs _ _)) as [-> _].
  - intros _ f. by destruct (Hk (fs, ino) f (Hs _ _)) as [-> ->].
  - intros k f _. apply Hk, Hs.
Qed.

(** One attribute, with the frame carried along from [s1]. *)
Ltac attr_step :=
  match goal with
  | F : same_frame ?s1 ?s, I : inodes ?s !! _ = Some _, Ed : editing _ _ _ _ (lw ?s) |- runs ?s _ _ =>
      let s' := fresh "s" in let F' := fresh "F" in
      apply runs_bind; eapply runs_weaken; [eapply set_attr_edit; [eassumption|done|done|exact I|exact Ed]|];
      intros ? s' (F' & [? ?] & ?); assert (same_frame s1 s') by (by transitivity s); clear F F' I Ed
  end.

Lemma setattr_run s1 r x attr e0 t w i (Q : Z → xs E V → Prop) h :
  t ≠ (0, 0) → held s1 = r :: h → inodes s1 !! x = Some i → editing e0 t r w (lw s1) →
  (∀ ret s', held s' = h → supers s' = supers s1 →
     (ret = 0 → edited e0 t (with_attr attr w) (lw s')) → Q ret s') →
  let valid := ia_valid attr in
  runs s1 (
    set_attr valid ATTR_MODE EMode r (ia_mode attr) x (set_i_mode (ia_mode attr));;
    set_attr valid ATTR_UID EUid r (ia_uid attr) x (set_i_uid (ia_uid attr));;
    set_attr valid ATTR_GID EGid r (ia_gid attr) x (set_i_gid (ia_gid attr));;
    ret ← set_size attr r x;
    if negb (ret =? 0) then put_ref r;; mret ret
    else
      set_attr valid ATTR_ATIME EAtime r (tv_sec (ia_atime attr)) x (set_i_atime (ia_atime attr));;
      set_attr valid ATTR_MTIME EMtime r (tv_sec (ia_mtime attr)) x (set_i_mtime (ia_mtime attr));;
      set_attr valid ATTR_CTIME ECtime r (tv_sec (ia_ctime attr)) x (set_i_ctime (ia_ctime attr));;
      put_ref r) Q.
Proof.
  intros Hn Hh Hi He HQ valid. assert (same_frame s1 s1) by done.
  do 3 attr_step.
  apply runs_bind. eapply runs_weaken; [by eapply set_size_edit|]. intros ret t2 (F2 & [j I2] & Ed).
  assert (same_frame s1 t2) as F by (by etransitivity). clear F2.
  destruct (Z.eqb_spec ret 0) as [->|Hr]; cbn [negb].
  - specialize (Ed eq_refl).
    match goal with H : editing _ _ _ _ (lw ?s), H2 : editing _ _ _ _ (lw t2) |- _ =>
      lazymatch s with t2 => fail | _ => clear H end end.
    do 3 attr_step.
    match goal with F : same_frame s1 ?s, Ed : editing _ _ _ _ (lw ?s) |- runs ?s _ _ =>
      destruct F as (Fh & _ & Fs); eapply (put_editing s h); [by rewrite Fh|done|exact Ed|] end.
    intros ret s' Hh' _ Hs' (He1 & He2 & He3). apply HQ; [done|congruence|]. intros _. split_and!; [done| |done].
    intros f Hf. rewrite (He2 f Hf). apply (edits_with_attr attr w f).
  - destruct F as (Fh & _ & Fs). apply runs_bind. unfold put_ref. unfold runs at 1. rewrite Fh, Hh, drop_top.
    destruct (ext4_fs_put_inode_ref r (lw t2)) as [y e2]. eexists _, _. split; [done|].
    apply runs_ret, HQ; [done|by rewrite <-Fs|congruence].
Qed.

Lemma setattr_edit s d de i b attr :
  dentries s !! d = Some de → inodes s !! d_inode de = Some i → supers s !! i_superblock i = Some b →
  let fs := s_fs_info b in let ino := u32 (i_ino i) in
  (fs, ino) ≠ (0, 0) → (ext4_fs_get_inode_ref fs ino (lw s)).1.1 = 0 → settled (lw s) →
  (∀ s v, ∃ a, setattr_prepare d v s = Ok (a, s)) →
  runs s (ext4_vfs_setattr d attr) (λ ret s', setattr_done s s' attr (fs, ino) ret).
Proof.
  intros Hd Hi Hb fs ino Hn Hg Hst Hp. unfold ext4_vfs_setattr, __inode_getExt4InodeRef.
  apply runs_bind. eexists _, _. split; [unfold the_dentry; by rewrite Hd|].
  apply runs_bind, runs_bind. eexists _, _. split; [unfold the_inode; by rewrite Hi|].
  apply runs_bind. eexists _, _. split; [unfold the_super; by rewrite Hb|].
  unfold get_ref, acquire. fold fs ino. destruct (ext4_fs_get_inode_ref fs ino (lw s)) as [[ret r] e'] eqn:Eg.
  eexists _, _. split; [by rewrite Eg|]. cbn in Hg. subst ret.
  cbn [negb Z.ltb Z.compare Z.eqb]. apply (editing_start _ _ _ _ _ Hst) in Eg.
  destruct (Hp (set_held (r :: held s) (set_lw e' s)) (ia_valid attr)) as [a Ha].
  apply runs_bind. eexists _, _. split; [exact Ha|].
  destruct (Z.eqb_spec a 0) as [->|Hz]; cbn [negb].
  - eapply (setattr_run _ r _ attr (lw s) (fs, ino) _ i _ (held s)); [done..|exact Eg|].
    intros ret s' Hh Hs Hw. by split_and!.
  - apply runs_bind. eapply put_editing; [done..|exact Eg|]. intros ret s' Hh _ Hs _.
    apply runs_ret. split; [done|]. split; [done|congruence].
Qed.

(** Choosing the operations changes none of the attributes. *)
Lemma init_ops_reads s r x mode i w :
  inodes s !! x = Some i → reads_as i w →
  runs s (init_ops r x mode) (λ _ s', held s' = held s ∧ ∃ j, inodes s' !! x = Some j ∧ reads_as j w).
Proof.
  intros Hi Hr. assert (∀ f, reads_as (f i) w →
    runs s (write_inode x f) (λ _ s', held s' = held s ∧ ∃ j, inodes s' !! x = Some j ∧ reads_as j w)) as Hwr.
  { intros f Hf. unfold runs, write_inode. rewrite Hi. eexists _, _. split; [done|]. split; [done|].
    exists (f i). cbn. by rewrite lookup_insert_eq. }
  destruct Hr. unfold init_ops. repeat case_match; by apply Hwr.
Qed.

(** Reading an inode whose fields are [w]. *)
Lemma init_reads s sb b x ino w :
  supers s !! sb = Some b → is_Some (inodes s !! x) → (s_fs_info b, ino) ≠ (0, 0) → settled (lw s) →
  (∀ f, f ≠ EBlocks → view (s_fs_info b, ino) f (lw s) = w f) →
  runs s (ext4_inode_init sb x ino) (λ ret s', ret = 0 → ∃ i, inodes s' !! x = Some i ∧ reads_as i (disk_read w)).
Proof.
  intros Hb [i Hi] Hn Hst Hw. unfold ext4_inode_init. apply runs_bind. eexists _, _. split; [unfold the_super; by rewrite Hb|].
  apply runs_bind. unfold get_ref, acquire.
  destruct (ext4_fs_get_inode_ref (s_fs_info b) ino (lw s)) as [[ret r] e'] eqn:Eg.
  eexists _, _. split; [by rewrite Eg|]. cbn beta iota.
  destruct (Z.eqb_spec ret 0) as [->|Hr]; cbn [negb]; [|by apply runs_ret].
  destruct (editing_start _ _ _ _ _ Hst Eg) as [Ht Hf _ _].
  assert (∀ f, f ≠ EBlocks → ref_field f r e' = disk_read w f) as Hrd.
  { intros f Hfb. rewrite ref_reads, Ht by congruence. destruct f; cbn; rewrite ?Hf by done; cbn; rewrite ?Hw by done; done. }
  apply runs_bind. unfold read_fields, write_inode, peek. eexists _, _. split; [unfold mbind, st_bind; cbn; by rewrite Hi|].
  apply runs_bind. eexists _, _. split; [done|]. apply runs_bind.
  eapply runs_weaken.
  { eapply init_ops_reads; [cbn; apply lookup_insert_eq|]. split; cbn; rewrite Hrd by done; done. }
  intros _ s2 [Hh Hj]. cbn in Hh. apply runs_bind. unfold runs at 1, put_ref. rewrite Hh, drop_top.
  destruct (ext4_fs_put_inode_ref r (lw s2)) as [y e2]. eexists _, _. split; [done|]. by apply runs_ret.
Qed.

End Attr.

Section Properties.
Context {E : Type} {L : Lwext4 E} {LS : Lwext4Store E} {V : Type} {K : Kernel (xs E V)}.


End Properties.

(** ** The small disk: the file [a] gets the mode 0600, the owner 65537 and the size 2.
    The owner is read back as 1. *)

