(* ===== verification/Ext4Fs.v ===== *)
(** * The ext4 file system as a whole ([kernel/fs/ext4/ext4_superblock.c],
      [ext4_fs.c], [ext4_blockdev.c], [ext4_file.c], [ext4_helper.c])

    [write_inode] works on the state of [Ext4Lib]. Mounting, unmounting and opening
    allocate memory, so they work on a state with the kernel's heap: [live] are the
    blocks that were allocated and not freed, and freeing a block that is not live is a
    fault. The functions of the library that handle mounts and open files are the
    interface [Lwext4Files], the driver of a block device is [Driver]. *)

From stdpp Require Import base gmap list.
From S2P Require Import Prelude Misc Inode Ext4Lib Ext4Disk Ext4Inode Ext4Refs.
Local Open Scope Z_scope.
Local Open Scope kernel_scope.

(** ** Writing an inode back *)

Section WriteInode.
Context {E : Type} {L : Lwext4 E} {V : Type}.

Definition ext4_write_inode (inode wait : Z) : st (xs E V) Z :=
  i ← the_inode inode;
  b ← the_super (i_superblock i);
  if (inode =? 0) || (s_fs_info b =? 0) then mret (- EINVAL)
  else
    '(ret, r) ← get_ref (s_fs_info b) (u32 (i_ino i));
    if negb (ret =? 0) then mret ret
    else
      setf EMode r (i_mode i);;
      setf EUid r (i_uid i);;
      setf EGid r (i_gid i);;
      setf ESize r (i_size i);;
      setf EAtime r (timespec64_to_ext4_timestamp (i_atime i));;
      setf EMtime r (timespec64_to_ext4_timestamp (i_mtime i));;
      setf ECtime r (timespec64_to_ext4_timestamp (i_ctime i));;
      setf ELinks r (i_nlink i);;
      ret ← (if negb (wait =? 0) then ext4_sync_inode (s_fs_info b) r else mret ret);
      put_ref r;;
      mret ret.

End WriteInode.

(** ** Structures *)

Definition FS_SIZE : Z := 1136.
Definition EXT4_BLOCKDEV_SIZE : Z := 72.
Definition IFACE_SIZE : Z := 96.
Definition EXT4_FILE_SIZE : Z := 32.
Definition EXT4_DIR_SIZE : Z := 304.
Definition EXT4_SUPERBLOCK_MAGIC : Z := 61267.
Definition EXT4_LINK_MAX : Z := 65000.
Definition EXT4_DIRECTORY_FILENAME_LEN : Z := 255.
Definition ST_NOSUID : Z := 2.
Definition ST_NODEV : Z := 4.
Definition ST_NOEXEC : Z := 8.
Definition ext4_superblock_operations : Z := 6.

Record ext4_blockdev_iface := Iface {
  ph_bsize : Z;
  ph_bcnt : Z;
  ph_bbuf : Z;
  ph_refctr : Z;
  p_user : Z;
}.

Record ext4_blockdev := Blockdev {
  bdif : Z;
  part_offset : Z;
  part_size : Z;
  lg_bsize : Z;
  lg_bcnt : Z;
  bd_fs : Z;
}.

(** [struct block_device]; [bd_ops] is the address of its operations. *)
Record block_device := BlockDevice { bd_block_size : Z; bd_nr_blocks : Z; bd_ops : Z }.

(** [struct superblock], the members a mount sets. *)
Record vsuper := Vsuper {
  v_flags : Z;
  v_bdev : Z;
  v_blocksize : Z;
  v_blocksize_bits : Z;
  v_magic : Z;
  v_operations : Z;
  v_fs_info : Z;
  v_max_links : Z;
}.

Record statfs := Statfs {
  f_type : Z;
  f_bsize : Z;
  f_blocks : Z;
  f_bfree : Z;
  f_bavail : Z;
  f_files : Z;
  f_ffree : Z;
  f_fsid : Z * Z;
  f_namelen : Z;
  f_frsize : Z;
  f_flags : Z;
}.

(** [struct file], the members [open], [read] and [write] use. *)
Record ofile := Ofile { of_inode : Z; of_dentry : Z; of_isdir : bool; of_pos : Z; of_private : Z }.

(** An entry of [ext4_dir_entry_next]. *)
Record direntry := Direntry { de_name : list Z; de_inode : Z; de_type : Z }.

(** The superblock of the mounted file system. *)
Record sblock := Sblock {
  sb_magic : Z;
  sb_block_size : Z;
  sb_blocks_cnt : Z;
  sb_free_blocks_cnt : Z;
  sb_inodes_count : Z;
  sb_free_inodes_count : Z;
  sb_uuid : list Z;
}.

Class Lwext4Files (E : Type) : Type := {
  ext4_fs_init : Z → Z → bool → E → Z * E;
  ext4_fs_fini : Z → E → Z * E;
  the_sblock : Z → E → sblock;
  flush_cache : Z → E → Z * E;
  (** the result and [fpos] *)
  ext4_fopen2 : Z → list Z → Z → E → (Z * Z) * E;
  ext4_dir_open : Z → list Z → E → Z * E;
  ext4_dir_entry_next : Z → E → option direntry * E;
  ext4_fseek : Z → Z → E → Z * E;
  ext4_fread : Z → Z → E → (Z * list Z) * E;
  ext4_fwrite : Z → list Z → E → (Z * Z) * E;
}.

(** The driver of a block device, by the address of its operations; the buffer is an
    address. *)
Class Driver (E : Type) : Type := {
  drv_open : Z → option (Z → Z → E → Z * E);
  drv_read : Z → option (Z → Z → Z → Z → E → Z * E);
  drv_write : Z → option (Z → Z → Z → Z → E → Z * E);
  drv_release : Z → option (Z → E → E);
}.

Definition word_at (l : list Z) (k : nat) : Z :=
  foldr (λ b n, b + 256 * n) 0 (take 4 (drop (4 * k) l)).

Definition make_fsid_from_uuid (uuid : list Z) : Z * Z :=
  (s32 (Z.lxor (word_at uuid 0) (word_at uuid 1)), s32 (Z.lxor (word_at uuid 2) (word_at uuid 3))).

(** ** Mounts *)

Section Fs.
Context {E : Type} {LF : Lwext4Files E} {D : Driver E} {A : Type} {KM : KMalloc A}.

Record fx := Fx {
  ext : E;
  heap : A;
  live : list Z;
  ifaces : gmap Z ext4_blockdev_iface;
  bdevs : gmap Z ext4_blockdev;
  kbdevs : gmap Z block_device;
  fs_bdevs : gmap Z Z;
  vsupers : gmap Z vsuper;
  ofiles : gmap Z ofile;
}.
Local Abbreviation M := (st fx).

Definition set_ext (e : E) (s : fx) : fx :=
  Fx e (heap s) (live s) (ifaces s) (bdevs s) (kbdevs s) (fs_bdevs s) (vsupers s) (ofiles s).
Definition set_heap (a : A) (l : list Z) (s : fx) : fx :=
  Fx (ext s) a l (ifaces s) (bdevs s) (kbdevs s) (fs_bdevs s) (vsupers s) (ofiles s).
Definition set_ifaces (m : gmap Z ext4_blockdev_iface) (s : fx) : fx :=
  Fx (ext s) (heap s) (live s) m (bdevs s) (kbdevs s) (fs_bdevs s) (vsupers s) (ofiles s).
Definition set_bdevs (m : gmap Z ext4_blockdev) (s : fx) : fx :=
  Fx (ext s) (heap s) (live s) (ifaces s) m (kbdevs s) (fs_bdevs s) (vsupers s) (ofiles s).
Definition set_fs_bdevs (m : gmap Z Z) (s : fx) : fx :=
  Fx (ext s) (heap s) (live s) (ifaces s) (bdevs s) (kbdevs s) m (vsupers s) (ofiles s).
Definition set_vsupers (m : gmap Z vsuper) (s : fx) : fx :=
  Fx (ext s) (heap s) (live s) (ifaces s) (bdevs s) (kbdevs s) (fs_bdevs s) m (ofiles s).
Definition set_ofiles (m : gmap Z ofile) (s : fx) : fx :=
  Fx (ext s) (heap s) (live s) (ifaces s) (bdevs s) (kbdevs s) (fs_bdevs s) (vsupers s) m.

Definition ecall {B} (f : E → B * E) : M B := λ s, let (b, e) := f (ext s) in Ok (b, set_ext e s).
Definition epeek {B} (f : E → B) : M B := λ s, Ok (f (ext s), s).
Definition modify (f : fx → fx) : M () := λ s, Ok ((), f s).
Definition reads {B} (f : fx → option B) : M B := λ s, let! b := of_option (f s) in Ok (b, s).

Definition malloc (n : Z) : M Z := λ s,
  let (p, a) := kmalloc n (heap s) in
  Ok (p, set_heap a (if p =? 0 then live s else p :: live s) s).
Definition free (p : Z) : M () := λ s,
  if p =? 0 then Ok ((), s)
  else match drop_one p (live s) with
  | None => Fault
  | Some l => Ok ((), set_heap (kfree p (heap s)) l s)
  end.

Definition ext4_blockdev_create_adapter (kernel_bdev : Z) : M Z :=
  if kernel_bdev =? 0 then mret 0
  else
    e_blockdevice ← malloc EXT4_BLOCKDEV_SIZE;
    if e_blockdevice =? 0 then mret 0
    else
      iface ← malloc IFACE_SIZE;
      if iface =? 0 then free e_blockdevice;; mret 0
      else
        kb ← reads (λ s, kbdevs s !! kernel_bdev);
        let block_size := if bd_block_size kb =? 0 then 4096 else bd_block_size kb in
        bbuf ← malloc block_size;
        if bbuf =? 0 then free iface;; free e_blockdevice;; mret 0
        else
          modify (λ s, set_ifaces (<[iface := Iface block_size (bd_nr_blocks kb) bbuf 1 kernel_bdev]> (ifaces s)) s);;
          modify (λ s, set_bdevs (<[e_blockdevice :=
            Blockdev iface 0 (u64 (bd_nr_blocks kb * block_size)) block_size (bd_nr_blocks kb) 0]> (bdevs s)) s);;
          mret e_blockdevice.

Definition ext4_blockdev_free_adapter (e_blockdevice : Z) : M () :=
  if e_blockdevice =? 0 then mret ()
  else
    d ← reads (λ s, bdevs s !! e_blockdevice);
    (if negb (bdif d =? 0) then
       i ← reads (λ s, ifaces s !! bdif d);
       (if negb (ph_bbuf i =? 0) then free (ph_bbuf i) else mret ());;
       free (bdif d)
     else mret ());;
    free e_blockdevice.

Definition __ext4_get_kernel_bdev (e_blockdevice : Z) : M Z :=
  if e_blockdevice =? 0 then mret 0
  else
    d ← reads (λ s, bdevs s !! e_blockdevice);
    i ← reads (λ s, ifaces s !! bdif d);
    mret (p_user i).

(** The four adapters: the driver's function if there is one. *)
Definition ext4_blockdev_adapter_open (e_blockdevice : Z) : M Z :=
  if e_blockdevice =? 0 then mret (- EINVAL)
  else
    kernel_bdev ← __ext4_get_kernel_bdev e_blockdevice;
    if kernel_bdev =? 0 then mret (- EINVAL)
    else
      kb ← reads (λ s, kbdevs s !! kernel_bdev);
      match hook drv_open (bd_ops kb) with
      | Some f => ecall (f kernel_bdev 3)
      | None => mret 0
      end.

Definition ext4_blockdev_adapter_bread (e_blockdevice buf blk_id blk_cnt : Z) : M Z :=
  if (e_blockdevice =? 0) || (buf =? 0) then mret (- EINVAL)
  else
    kernel_bdev ← __ext4_get_kernel_bdev e_blockdevice;
    if kernel_bdev =? 0 then mret (- EINVAL)
    else
      kb ← reads (λ s, kbdevs s !! kernel_bdev);
      match hook drv_read (bd_ops kb) with
      | Some f => ecall (f kernel_bdev buf blk_id blk_cnt)
      | None => mret (- ENOSYS)
      end.

Definition ext4_blockdev_adapter_bwrite (e_blockdevice buf blk_id blk_cnt : Z) : M Z :=
  if (e_blockdevice =? 0) || (buf =? 0) then mret (- EINVAL)
  else
    kernel_bdev ← __ext4_get_kernel_bdev e_blockdevice;
    if kernel_bdev =? 0 then mret (- EINVAL)
    else
      kb ← reads (λ s, kbdevs s !! kernel_bdev);
      match hook drv_write (bd_ops kb) with
      | Some f => ecall (f kernel_bdev buf blk_id blk_cnt)
      | None => mret (- ENOSYS)
      end.

Definition ext4_blockdev_adapter_close (e_blockdevice : Z) : M Z :=
  if e_blockdevice =? 0 then mret (- EINVAL)
  else
    kernel_bdev ← __ext4_get_kernel_bdev e_blockdevice;
    if kernel_bdev =? 0 then mret (- EINVAL)
    else
      kb ← reads (λ s, kbdevs s !! kernel_bdev);
      match hook drv_release (bd_ops kb) with
      | Some f => ecall (λ e, (0, f kernel_bdev e))
      | None => mret 0
      end.

(** [e_fs->bdev] *)
Definition ext4_fs_sync (fs : Z) : M Z :=
  if fs =? 0 then mret (- EINVAL)
  else
    bdev ← reads (λ s, fs_bdevs s !! fs);
    if bdev =? 0 then mret (- EINVAL) else ecall (flush_cache bdev).

Definition ext4_sync_fs (sb wait : Z) : M Z :=
  if PTR_IS_INVALID sb then mret (- EINVAL)
  else
    b ← reads (λ s, vsupers s !! sb);
    if v_fs_info b =? 0 then mret (- EINVAL) else ext4_fs_sync (v_fs_info b).

Definition ext4_fill_super (sb : Z) : M Z :=
  e_fs ← malloc FS_SIZE;
  if e_fs =? 0 then mret (- ENOMEM)
  else
    b ← reads (λ s, vsupers s !! sb);
    if v_bdev b =? 0 then free e_fs;; mret (- EINVAL)
    else
      e_blockdevice ← ext4_blockdev_create_adapter (v_bdev b);
      if e_blockdevice =? 0 then free e_fs;; mret (- ENOMEM)
      else
        modify (λ s, set_fs_bdevs (<[e_fs := e_blockdevice]> (fs_bdevs s)) s);;
        modify (λ s, set_bdevs (alter (λ d, Blockdev (bdif d) (part_offset d) (part_size d) (lg_bsize d) (lg_bcnt d) e_fs)
                                  e_blockdevice (bdevs s)) s);;
        ret ← ecall (ext4_fs_init e_fs e_blockdevice (has MS_RDONLY (v_flags b)));
        if negb (ret =? 0) then ext4_blockdev_free_adapter e_blockdevice;; free e_fs;; mret ret
        else
          sblk ← epeek (the_sblock e_fs);
          modify (λ s, set_vsupers (<[sb := Vsuper (v_flags b) (v_bdev b) (sb_block_size sblk)
            (ffs (sb_block_size sblk) - 1) EXT4_SUPERBLOCK_MAGIC ext4_superblock_operations e_fs EXT4_LINK_MAX]> (vsupers s)) s);;
          mret 0.

Definition set_v_fs_info (x : Z) (b : vsuper) : vsuper :=
  Vsuper (v_flags b) (v_bdev b) (v_blocksize b) (v_blocksize_bits b) (v_magic b) (v_operations b) x (v_max_links b).

Definition ext4_put_super (sb : Z) : M () :=
  b ← reads (λ s, vsupers s !! sb);
  let fs := v_fs_info b in
  if fs =? 0 then mret ()
  else
    ext4_fs_sync fs;;
    ecall (ext4_fs_fini fs);;
    free fs;;
    modify (λ s, set_vsupers (<[sb := set_v_fs_info 0 b]> (vsupers s)) s).

Definition ext4_statfs (sb stats : Z) : M (Z * option statfs) :=
  if PTR_IS_INVALID sb || PTR_IS_INVALID stats then mret (- EINVAL, None)
  else
    b ← reads (λ s, vsupers s !! sb);
    if PTR_IS_INVALID (v_fs_info b) then mret (- EINVAL, None)
    else
      e ← epeek (the_sblock (v_fs_info b));
      mret (0, Some (Statfs (sb_magic e) (sb_block_size e) (sb_blocks_cnt e) (sb_free_blocks_cnt e)
        (sb_free_blocks_cnt e) (sb_inodes_count e) (sb_free_inodes_count e) (make_fsid_from_uuid (sb_uuid e))
        EXT4_DIRECTORY_FILENAME_LEN (sb_block_size e) (Z.lor ST_NOSUID (Z.lor ST_NODEV ST_NOEXEC)))).

(** ** Open files *)

(** The path of a dentry under its mount: a new block, 0 when there is none, and its
    text. *)
Context (dentry_allocPath2Mount : Z → M (Z * list Z)).

Definition EXT4_file_open (file flags : Z) : M Z :=
  if file =? 0 then mret (- EINVAL)
  else
    f ← reads (λ s, ofiles s !! file);
    if of_inode f =? 0 then mret (- EINVAL)
    else
      ext4_f ← malloc EXT4_FILE_SIZE;
      if ext4_f =? 0 then mret (- ENOMEM)
      else
        '(path, text) ← dentry_allocPath2Mount (of_dentry f);
        if path =? 0 then free ext4_f;; mret (- ENOMEM)
        else
          '(ret, fpos) ← ecall (ext4_fopen2 ext4_f text flags);
          (if negb (ret =? 0) then free ext4_f
           else modify (λ s, set_ofiles (<[file := Ofile (of_inode f) (of_dentry f) (of_isdir f) fpos ext4_f]> (ofiles s)) s));;
          free path;;
          mret ret.

Definition EXT4_dir_open (file flags : Z) : M Z :=
  if file =? 0 then mret (- EINVAL)
  else
    f ← reads (λ s, ofiles s !! file);
    if of_inode f =? 0 then mret (- EINVAL)
    else if negb (of_isdir f) then mret (- ENOTDIR)
    else
      ext4_d ← malloc EXT4_DIR_SIZE;
      if ext4_d =? 0 then mret (- ENOMEM)
      else
        '(path, text) ← dentry_allocPath2Mount (of_dentry f);
        if path =? 0 then free ext4_d;; mret (- ENOMEM)
        else
          ret ← ecall (ext4_dir_open ext4_d text);
          if negb (ret =? 0) then free ext4_d;; free path;; mret ret
          else
            modify (λ s, set_ofiles (<[file := Ofile (of_inode f) (of_dentry f) (of_isdir f) (of_pos f) ext4_d]> (ofiles s)) s);;
            free path;;
            mret 0.

(** The bytes read are returned with the result; [*pos] stays as it is. *)
Definition EXT4_file_read (file count pos : Z) : M (Z * list Z) :=
  f ← reads (λ s, ofiles s !! file);
  ret ← ecall (ext4_fseek (of_private f) pos);
  if negb (ret =? 0) then mret (- EIO, [])
  else
    '(ret, bytes) ← ecall (ext4_fread (of_private f) count);
    if negb (ret =? 0) then mret (- EIO, []) else mret (Z.of_nat (length bytes), bytes).

Definition EXT4_file_write (file : Z) (buf : list Z) (pos : Z) : M Z :=
  f ← reads (λ s, ofiles s !! file);
  ret ← ecall (ext4_fseek (of_private f) pos);
  if negb (ret =? 0) then mret (- EIO)
  else
    '(ret, n) ← ecall (ext4_fwrite (of_private f) buf);
    if negb (ret =? 0) then mret (- EIO) else mret n.

(** The [DT_] code of a directory entry. *)
Definition entry_type (t : Z) : Z :=
  if t =? EXT4_DE_REG_FILE then 8
  else if t =? EXT4_DE_DIR then 4
  else if t =? EXT4_DE_CHRDEV then 2
  else if t =? EXT4_DE_BLKDEV then 6
  else if t =? EXT4_DE_FIFO then 1
  else if t =? EXT4_DE_SOCK then 12
  else if t =? EXT4_DE_SYMLINK then 10
  else 0.

(** [actor name pos ino type c] is the callback on the caller's data [c]; it returns
    whether to go on. *)
Fixpoint dir_iterate_loop {C} (fuel : nat) (dir : Z) (actor : list Z → Z → Z → Z → C → bool * C) (pos : Z) (c : C)
    : M (Z * C) :=
  match fuel with
  | O => λ _, Timeout
  | S fuel =>
      entry ← ecall (ext4_dir_entry_next dir);
      match entry with
      | None => mret (pos, c)
      | Some en =>
          let (more, c) := actor (de_name en) pos (de_inode en) (entry_type (de_type en)) c in
          if more then dir_iterate_loop fuel dir actor (pos + 1) c else mret (pos + 1, c)
      end
  end.

Definition EXT4_dir_iterate {C} (fuel : nat) (filp : Z) (actor : list Z → Z → Z → Z → C → bool * C) (pos : Z) (c : C)
    : M (Z * Z * C) :=
  f ← reads (λ s, ofiles s !! filp);
  if of_private f =? 0 then mret (- EBADF, pos, c)
  else
    '(pos, c) ← dir_iterate_loop fuel (of_private f) actor pos c;
    mret (0, pos, c).

End Fs.

(** ** Lemmas *)

Section Lost.
Context {E : Type} {L : Lwext4 E} {LS : Lwext4Store E} {V : Type}.
Implicit Types s : xs E V.

(** Setting a field does not mark the reference. *)
Definition only_fields (r : Z) (e e' : E) : Prop :=
  ref_target r e' = ref_target r e ∧ ref_dirty r e' = ref_dirty r e.

Lemma run_setf {B} s f r x (k : () → st (xs E V) B) (P : outcome (B * xs E V) → Prop) :
  f ≠ EBlocks → f ≠ EDev → ref_target r (lw s) ≠ (0, 0) →
  (∀ e, only_fields r (lw s) e → P (k () (set_lw e s))) → P ((setf f r x ≫= k) s).
Proof.
  intros Hb Hv Ht HP. unfold setf, lib_, mbind, st_bind. cbn. apply HP.
  by destruct (set_field_store f r (field_conv f x) (lw s) Hb Hv Ht) as (? & ? & _).
Qed.

Lemma only_fields_trans r e1 e2 e3 : only_fields r e1 e2 → only_fields r e2 e3 → only_fields r e1 e3.
Proof. intros [T1 D1] [T2 D2]. split; congruence. Qed.

(** All the fields of [ext4_write_inode]. *)
Lemma run_fields {B} s r fs ino (fields : list (efield * Z)) (k : st (xs E V) B) (P : outcome (B * xs E V) → Prop) :
  Forall (λ fx, fx.1 ≠ EBlocks ∧ fx.1 ≠ EDev) fields → ref_target r (lw s) = (fs, ino) → (fs, ino) ≠ (0, 0) →
  (∀ e, only_fields r (lw s) e → P (k (set_lw e s))) →
  P (foldr (λ '(f, x) m, setf f r x ≫= λ _, m) k fields s).
Proof.
  intros Hall Ht Hn. revert s Ht. induction Hall as [|[f x] fields [Hb Hv] _ IH]; intros s Ht HP; cbn [foldr].
  - specialize (HP (lw s)). assert (set_lw (lw s) s = s) as Hs by by destruct s. rewrite Hs in HP. by apply HP.
  - apply run_setf; [done..|congruence|]. intros e He. apply IH; [cbn; destruct He; congruence|].
    intros e2 He2. apply (HP e2). by eapply only_fields_trans.
Qed.

Lemma drop_absent r l : r ∉ l → drop_one r l = None.
Proof.
  induction l as [|x l IH]; [done|]. intros Hn. apply not_elem_of_cons in Hn as [Hx Hl]. unfold drop_one; fold drop_one.
  rewrite (proj2 (Z.eqb_neq x r)) by done. by rewrite IH.
Qed.

Lemma sync_inode_puts s fs r h :
  r ≠ 0 → held s = r :: h → runs s (ext4_sync_inode fs r) (λ _ s', held s' = h).
Proof. intros Hr Hh. unfold ext4_sync_inode. rewrite (proj2 (Z.eqb_neq _ _) Hr). run. Qed.

End Lost.

Section Blocks.
Context {E : Type} {LF : Lwext4Files E} {D : Driver E} {A : Type} {KM : KMalloc A}.
Implicit Types s : @fx E A.

Lemma runs_malloc s n (Q : Z → @fx E A → Prop) :
  (∀ a, Q 0 (set_heap a (live s) s)) → (∀ p a, p ≠ 0 → Q p (set_heap a (p :: live s) s)) → runs s (malloc n) Q.
Proof.
  intros H0 H1. unfold runs, malloc. destruct (kmalloc n (heap s)) as [p a]. eexists _, _. split; [done|].
  destruct (Z.eqb_spec p 0) as [->|Hp]; auto.
Qed.

Lemma runs_free s p l (Q : () → @fx E A → Prop) :
  p ≠ 0 → drop_one p (live s) = Some l → (∀ a, Q () (set_heap a l s)) → runs s (free p) Q.
Proof. intros Hp Hl HQ. unfold runs, free. rewrite (proj2 (Z.eqb_neq _ _) Hp), Hl. by eexists _, _. Qed.

Lemma runs_reads {B} s (f : @fx E A → option B) b (Q : B → @fx E A → Prop) :
  f s = Some b → Q b s → runs s (reads f) Q.
Proof. intros Hf HQ. unfold runs, reads. rewrite Hf. by eexists _, _. Qed.

Lemma runs_modify s f (Q : () → @fx E A → Prop) : Q () (f s) → runs s (modify f) Q.
Proof. intros HQ. by eexists _, _. Qed.

Lemma runs_ecall {B} s (f : E → B * E) (Q : B → @fx E A → Prop) :
  (∀ b e, Q b (set_ext e s)) → runs s (ecall f) Q.
Proof. intros HQ. unfold runs, ecall. destruct (f (ext s)) as [b e]. by eexists _, _. Qed.

(** What creating the adapter leaves: nothing when it fails, three blocks and the
    structures that name them when it succeeds. *)
Definition adapter_made s (p : Z) s' : Prop :=
  p = 0 ∧ live s' = live s ∨
  p ≠ 0 ∧ ∃ i b d f, live s' = b :: i :: p :: live s ∧ i ≠ 0 ∧ b ≠ 0 ∧
    bdevs s' !! p = Some d ∧ bdif d = i ∧ ifaces s' !! i = Some f ∧ ph_bbuf f = b.

Lemma create_adapter_made s kb :
  kb = 0 ∨ is_Some (kbdevs s !! kb) →
  runs s (ext4_blockdev_create_adapter kb) (λ p s', adapter_made s p s' ∧
    vsupers s' = vsupers s ∧ fs_bdevs s' = fs_bdevs s ∧ ofiles s' = ofiles s).
Proof.
  intros Hk. unfold ext4_blockdev_create_adapter. destruct (Z.eqb_spec kb 0) as [->|Hkb].
  { apply runs_ret. split; [by left|done]. }
  destruct Hk as [?|[d Hd]]; [done|].
  apply runs_bind, runs_malloc; [intros a; apply runs_ret; split; [by left|done]|].
  intros p a Hp. rewrite (proj2 (Z.eqb_neq _ _) Hp).
  apply runs_bind, runs_malloc.
  { intros a1. apply runs_bind, (runs_free _ _ (live s)); [done|apply drop_top|].
    intros a2. apply runs_ret. split; [by left|done]. }
  intros i a1 Hi. rewrite (proj2 (Z.eqb_neq _ _) Hi).
  apply runs_bind, (runs_reads _ _ d); [done|]. cbv zeta.
  apply runs_bind, runs_malloc.
  { intros a2. apply runs_bind, (runs_free _ _ (p :: live s)); [done|apply drop_top|]. intros a3.
    apply runs_bind, (runs_free _ _ (live s)); [done|apply drop_top|]. intros a4.
    apply runs_ret. split; [by left|done]. }
  intros b a2 Hb. rewrite (proj2 (Z.eqb_neq _ _) Hb).
  apply runs_bind, runs_modify, runs_bind, runs_modify, runs_ret. split; [|done]. right. split; [done|].
  exists i, b. eexists _, _. cbn. rewrite !lookup_insert_eq. by split_and!.
Qed.

(** Freeing an adapter frees its three blocks. *)
Lemma free_adapter_frees s p i b d f l (Q : () → @fx E A → Prop) :
  p ≠ 0 → i ≠ 0 → b ≠ 0 → live s = b :: i :: p :: l → bdevs s !! p = Some d → bdif d = i →
  ifaces s !! i = Some f → ph_bbuf f = b → (∀ a, Q () (set_heap a l s)) →
  runs s (ext4_blockdev_free_adapter p) Q.
Proof.
  intros Hp Hi Hb Hl Hd <- Hf <- HQ. unfold ext4_blockdev_free_adapter. rewrite (proj2 (Z.eqb_neq _ _) Hp).
  apply runs_bind, (runs_reads _ _ d); [done|]. rewrite (proj2 (Z.eqb_neq _ _) Hi). cbn [negb].
  apply runs_bind, runs_bind, (runs_reads _ _ f); [done|]. rewrite (proj2 (Z.eqb_neq _ _) Hb). cbn [negb].
  apply runs_bind, (runs_free _ _ (bdif d :: p :: l)); [done|rewrite Hl; apply drop_top|]. intros a1.
  apply (runs_free _ _ (p :: l)); [done|apply drop_top|]. intros a2.
  apply (runs_free _ _ l); [done|apply drop_top|]. intros a3. apply (HQ a3).
Qed.

(** The state after a mount of [sb]: the four blocks and how they are linked. *)
Definition mounted s (sb : Z) s' : Prop :=
  ∃ fs p i b v, live s' = b :: i :: p :: fs :: live s ∧ vsupers s' !! sb = Some v ∧ v_fs_info v = fs ∧ fs ≠ 0 ∧
    fs_bdevs s' !! fs = Some p ∧ p ≠ 0.

Lemma fill_super_made s sb v :
  vsupers s !! sb = Some v → v_bdev v = 0 ∨ is_Some (kbdevs s !! v_bdev v) →
  runs s (ext4_fill_super sb) (λ ret s', if ret =? 0 then mounted s sb s' else live s' = live s).
Proof.
  intros Hv Hk. unfold ext4_fill_super.
  apply runs_bind, runs_malloc; [intros a; by apply runs_ret|].
  intros fs a Hfs. rewrite (proj2 (Z.eqb_neq _ _) Hfs). apply runs_bind, (runs_reads _ _ v); [done|].
  assert (∀ ret s1, ret ≠ 0 → live s1 = fs :: live s → runs s1 (free fs;; mret ret)
    (λ ret s', if ret =? 0 then mounted s sb s' else live s' = live s)) as Hout.
  { intros ret s1 Hr Hl. apply runs_bind, (runs_free _ _ (live s)); [done|rewrite Hl; apply drop_top|].
    intros a1. apply runs_ret. by rewrite (proj2 (Z.eqb_neq _ _) Hr). }
  destruct (Z.eqb_spec (v_bdev v) 0) as [Hz|Hb]; [by apply Hout|].
  apply runs_bind. eapply runs_weaken; [by apply create_adapter_made|].
  intros p s1 (Hm & Hs & Hfb & Ho). destruct Hm as [[-> Hl]|(Hp & i & b & d & f & Hl & Hi & Hbb & Hd & Hdi & Hf & Hfb')].
  { cbn [Z.eqb]. by apply Hout. }
  rewrite (proj2 (Z.eqb_neq _ _) Hp). apply runs_bind, runs_modify, runs_bind, runs_modify, runs_bind, runs_ecall.
  intros ret e. destruct (Z.eqb_spec ret 0) as [->|Hr]; cbn [negb].
  - apply runs_bind. eexists _, _. split; [done|]. apply runs_bind, runs_modify, runs_ret. cbn [Z.eqb].
    exists fs, p, i, b. eexists. cbn. rewrite !lookup_insert_eq. by split_and!.
  - apply runs_bind. eapply (free_adapter_frees _ p i b (Blockdev (bdif d) (part_offset d) (part_size d) (lg_bsize d) (lg_bcnt d) fs) f (fs :: live s));
      [done..| |done|done|done|].
    { cbn. by rewrite lookup_alter_eq, Hd. }
    intros a1. by apply Hout.
Qed.

(** Unmounting frees one of the four blocks. *)
Lemma put_super_frees s sb s' :
  mounted s sb s' → runs s' (ext4_put_super sb) (λ _ t, ∃ p i b, live t = b :: i :: p :: live s).
Proof.
  intros (fs & p & i & b & v & Hl & Hv & Hvf & Hfs & Hb & Hp). unfold ext4_put_super.
  apply runs_bind, (runs_reads _ _ v); [done|]. cbv zeta. rewrite Hvf, (proj2 (Z.eqb_neq _ _) Hfs).
  apply runs_bind. unfold ext4_fs_sync. rewrite (proj2 (Z.eqb_neq _ _) Hfs).
  apply runs_bind, (runs_reads _ _ p); [done|]. rewrite (proj2 (Z.eqb_neq _ _) Hp). apply runs_ecall. intros y e.
  apply runs_bind, runs_ecall. intros y2 e2.
  assert (∃ p' i' b', drop_one fs (b :: i :: p :: fs :: live s) = Some (b' :: i' :: p' :: live s)) as (p' & i' & b' & Hd).
  { unfold drop_one; fold drop_one. destruct (b =? fs) eqn:?; [by eexists _, _, _|]. destruct (i =? fs) eqn:?; [by eexists _, _, _|].
    destruct (p =? fs) eqn:?; [by eexists _, _, _|]. rewrite Z.eqb_refl. by eexists _, _, _. }
  apply runs_bind, (runs_free _ _ (b' :: i' :: p' :: live s)); [done|by rewrite <-Hd, <-Hl|]. intros a.
  apply runs_modify. by exists p', i', b'.
Qed.

End Blocks.

(** ** Properties *)

(** [ext4_write_inode] never has the inode written. Without [wait] it changes the
    fields through a reference it does not mark dirty and puts that reference, so that the
    library can drop the change. With [wait] it puts the reference a second time after
    [ext4_sync_inode] has put it. *)
Theorem write_inode_never_stores {E} {L : Lwext4 E} {LS : Lwext4Store E} {V} (s : xs E V) x i b wait r e :
  inodes s !! x = Some i → supers s !! i_superblock i = Some b → x ≠ 0 → s_fs_info b ≠ 0 →
  ext4_fs_get_inode_ref (s_fs_info b) (u32 (i_ino i)) (lw s) = ((0, r), e) → r ≠ 0 → r ∉ held s →
  if wait =? 0 then
    ∃ s' e1, ext4_write_inode x wait s = Ok (0, s') ∧ held s' = held s ∧
      ref_target r e1 = (s_fs_info b, u32 (i_ino i)) ∧ ref_dirty r e1 = false ∧
      lw s' = (ext4_fs_put_inode_ref r e1).2
  else ext4_write_inode x wait s = Fault.
Proof.
  intros Hi Hb Hx Hf Eg Hr Hh. destruct (get_store _ _ _ _ _ _ Eg) as [_ Hd].
  destruct (Hd eq_refl) as (Ht & Hdirty).
  set (P := λ o, if wait =? 0 then ∃ (s' : xs E V) (e1 : E), o = Ok (0, s') ∧ held s' = held s ∧
      ref_target r e1 = (s_fs_info b, u32 (i_ino i)) ∧ ref_dirty r e1 = false ∧
      lw s' = (ext4_fs_put_inode_ref r e1).2 else o = Fault).
  change (P (ext4_write_inode x wait s)).
  unfold ext4_write_inode, the_inode, the_super, get_ref, acquire.
  unfold mbind at 1, st_bind at 1. rewrite Hi. cbn [obind of_option]. unfold mbind at 1, st_bind at 1. rewrite Hb.
  cbn [obind of_option]. rewrite (proj2 (Z.eqb_neq _ _) Hx), (proj2 (Z.eqb_neq _ _) Hf). cbn [orb].
  unfold mbind at 1, st_bind at 1. rewrite Eg. cbn [obind Z.eqb negb].
  set (s1 := set_held (r :: held s) (set_lw e s)).
  set (fields := [(EMode, i_mode i); (EUid, i_uid i); (EGid, i_gid i); (ESize, i_size i);
    (EAtime, timespec64_to_ext4_timestamp (i_atime i)); (EMtime, timespec64_to_ext4_timestamp (i_mtime i));
    (ECtime, timespec64_to_ext4_timestamp (i_ctime i)); (ELinks, i_nlink i)]).
  set (rest := (ret ← (if negb (wait =? 0) then ext4_sync_inode (s_fs_info b) r else mret 0); put_ref r;; mret ret) : st (xs E V) Z).
  change (setf EMode r (i_mode i) ≫= _) with (foldr (λ '(f, x) m, setf f r x ≫= λ _, m) rest fields).
  apply (run_fields s1 r (s_fs_info b) (u32 (i_ino i))); [by repeat constructor|done|congruence|].
  intros e2 (Ht2 & Hd2). change (lw s1) with e in *. subst rest P. destruct (wait =? 0); cbn [negb].
  - unfold put_ref, mbind, st_bind. cbn. rewrite drop_top. exists (set_held (held s) (set_lw (ext4_fs_put_inode_ref r e2).2 s1)), e2.
    destruct (ext4_fs_put_inode_ref r e2) as [ret e3]. split_and!; [done..|congruence|congruence|done].
  - destruct (sync_inode_puts (set_lw e2 s1) (s_fs_info b) r (held s) Hr eq_refl) as (ret & s2 & Hsy & Hh2).
    unfold mbind, st_bind. rewrite Hsy. cbn. unfold put_ref. rewrite Hh2, (drop_absent _ _ Hh). done.
Qed.

Section Mounts.
Context {E : Type} {LF : Lwext4Files E} {D : Driver E} {A : Type} {KM : KMalloc A}.

(** A mount that fails frees all it allocated; one that succeeds has allocated the file
    system, the block device and its interface and buffer. Unmounting frees the first of
    these only: every mount and unmount loses three blocks. *)
Theorem mount_umount_blocks (s : @fx E A) sb v :
  vsupers s !! sb = Some v → v_bdev v = 0 ∨ is_Some (kbdevs s !! v_bdev v) →
  ∃ ret s', ext4_fill_super sb s = Ok (ret, s') ∧
    (ret ≠ 0 → live s' = live s) ∧
    (ret = 0 → length (live s') = (4 + length (live s))%nat ∧
       ∃ t l, ext4_put_super sb s' = Ok ((), t) ∧ live t = l ++ live s ∧ length l = 3%nat).
Proof.
  intros Hv Hk. destruct (fill_super_made s sb v Hv Hk) as (ret & s' & Hr & Hm). exists ret, s'. split; [done|].
  destruct (Z.eqb_spec ret 0) as [->|Hn]; [|split; [done|by intros]]. split; [done|]. intros _. split.
  - destruct Hm as (fs & p & i & b & w & Hl & _). by rewrite Hl.
  - destruct (put_super_frees s sb s' Hm) as ([] & t & Ht & p & i & b & Hl). exists t, [b; i; p]. by rewrite Hl.
Qed.

(** Opening a file frees the path it built; it keeps the library's file structure exactly
    when it succeeds. *)
Theorem file_open_blocks (alloc_path : Z → st (@fx E A) (Z * list Z)) (s : @fx E A) file f flags :
  (∀ s d, runs s (alloc_path d) (λ '(p, _) s', live s' = (if p =? 0 then live s else p :: live s) ∧ ofiles s' = ofiles s)) →
  ofiles s !! file = Some f →
  ∃ ret s', EXT4_file_open alloc_path file flags s = Ok (ret, s') ∧
    (ret ≠ 0 → live s' = live s) ∧
    (ret = 0 → ∃ p g, live s' = p :: live s ∧ ofiles s' !! file = Some g ∧ of_private g = p).
Proof.
  intros Hpath Hf. set (Q := λ (ret : Z) (s' : @fx E A), (ret ≠ 0 → live s' = live s) ∧
    (ret = 0 → ∃ p g, live s' = p :: live s ∧ ofiles s' !! file = Some g ∧ of_private g = p)).
  change (runs s (EXT4_file_open alloc_path file flags) Q). unfold EXT4_file_open.
  destruct (file =? 0); [by apply runs_ret|]. apply runs_bind, (runs_reads _ _ f); [done|].
  destruct (of_inode f =? 0); [by apply runs_ret|]. apply runs_bind, runs_malloc; [intros a; by apply runs_ret|].
  intros p a Hp. rewrite (proj2 (Z.eqb_neq _ _) Hp). apply runs_bind. eapply runs_weaken; [apply Hpath|].
  intros [path text] s1 [Hl Ho]. cbn in Hl. destruct (Z.eqb_spec path 0) as [->|Hn].
  - apply runs_bind, (runs_free _ _ (live s)); [done|rewrite Hl; apply drop_top|]. intros a1. by apply runs_ret.
  - apply runs_bind, runs_ecall. intros [ret fpos] e. destruct (Z.eqb_spec ret 0) as [->|Hr]; cbn [negb].
    + apply runs_bind, runs_modify, runs_bind, (runs_free _ _ (p :: live s)); [done|cbn; rewrite Hl; apply drop_top|].
      intros a1. apply runs_ret. split; [done|]. intros _. exists p. eexists. cbn. by rewrite lookup_insert_eq.
    + apply runs_bind, (runs_free _ _ (path :: live s)); [done|cbn; rewrite Hl; apply drop_second|]. intros a1.
      apply runs_bind, (runs_free _ _ (live s)); [done|apply drop_top|]. intros a2. apply runs_ret. by split.
Qed.

(** [EXT4_dir_iterate] passes the entries of the directory to the callback in order, with
    consecutive positions, up to the one it refuses. *)
Fixpoint send {C} (actor : list Z → Z → Z → Z → C → bool * C) (l : list direntry) (pos : Z) (c : C) : Z * C :=
  match l with
  | [] => (pos, c)
  | en :: l =>
      let (more, c) := actor (de_name en) pos (de_inode en) (entry_type (de_type en)) c in
      if more then send actor l (pos + 1) c else (pos + 1, c)
  end.

(** The library has the entries [l] left in [dir]. *)
Fixpoint dir_has (dir : Z) (l : list direntry) (e : E) : Prop :=
  match l with
  | [] => ∃ e', ext4_dir_entry_next dir e = (None, e')
  | en :: l => ∃ e', ext4_dir_entry_next dir e = (Some en, e') ∧ dir_has dir l e'
  end.

Theorem dir_iterate_sends {C} (actor : list Z → Z → Z → Z → C → bool * C) (s : @fx E A) filp f l pos c :
  ofiles s !! filp = Some f → of_private f ≠ 0 → dir_has (of_private f) l (ext s) →
  ∃ s', EXT4_dir_iterate (S (length l)) filp actor pos c s = Ok ((0, (send actor l pos c).1, (send actor l pos c).2), s').
Proof.
  intros Hf Hp Hl. assert (∀ l pos c (s : @fx E A), dir_has (of_private f) l (ext s) →
    ∃ s', dir_iterate_loop (S (length l)) (of_private f) actor pos c s = Ok (send actor l pos c, s')) as Hloop.
  { clear. induction l as [|en l IH]; intros pos c s Hl; destruct Hl as (e' & Hl).
    - cbn. unfold mbind, st_bind, ecall. rewrite Hl. by eexists.
    - destruct Hl as [He Hl]. cbn [dir_iterate_loop length send]. unfold mbind, st_bind, ecall. rewrite He. cbn [obind].
      destruct (actor _ _ _ _ c) as [[] c']; [by apply IH|by eexists]. }
  destruct (Hloop l pos c s Hl) as (s' & Hs). exists s'. unfold EXT4_dir_iterate, reads, mbind, st_bind. rewrite Hf.
  cbn [of_option obind]. rewrite (proj2 (Z.eqb_neq _ _) Hp), Hs. by destruct (send actor l pos c).
Qed.

End Mounts.

(** ** Witnesses *)

(** Unlike the file that is stored with mode 0100644, the inode at 4099 has mode 0100600. *)
Definition ext4_state1 : dstate :=
  set_inodes (<[4099 := with_mode 33152 5 (blank 10 3)]> (inodes ext4_state0)) ext4_state0.

Lemma write_inode_never_stores_witness :
  (∃ s', ext4_write_inode 4099 0 ext4_state1 = Ok (0, s') ∧ view (7, 3) EMode (lw s') = 33188) ∧
  ext4_write_inode 4099 1 ext4_state1 = Fault.
Proof.
  pose proof (λ wait, write_inode_never_stores ext4_state1 4099 (with_mode 33152 5 (blank 10 3)) (Superblock 7 4096 1)
    wait 50 (disk_get 7 3 disk0).2 eq_refl eq_refl ltac:(discriminate) ltac:(discriminate) eq_refl
    ltac:(discriminate) (not_elem_of_nil 50)) as H.
  split; [|exact (H 1)]. destruct (H 0) as (s' & e1 & Hr & _). exists s'. split; [exact Hr|].
  vm_compute in Hr. injection Hr as <-. reflexivity.
Defined.

(** A library that mounts and opens anything and lists its state. *)
#[export] Instance list_files : Lwext4Files (list direntry) := {
  ext4_fs_init fs b ro e := (0, e);
  ext4_fs_fini fs e := (0, e);
  the_sblock fs e := Sblock EXT4_SUPERBLOCK_MAGIC 4096 1000 900 100 90 (repeat 0 16);
  flush_cache b e := (0, e);
  ext4_fopen2 f p fl e := ((0, 0), e);
  ext4_dir_open d p e := (0, e);
  ext4_dir_entry_next d e := match e with [] => (None, []) | en :: e => (Some en, e) end;
  ext4_fseek f p e := (0, e);
  ext4_fread f n e := ((0, []), e);
  ext4_fwrite f b e := ((0, 0), e);
}.

Definition fx0 : @fx (list direntry) Z :=
  Fx [Direntry [97] 3 1; Direntry [98] 4 2] 8192 [] ∅ ∅ {[ 40 := BlockDevice 512 2048 0 ]} ∅
    {[ 10 := Vsuper 0 40 0 0 0 0 0 0 ]} {[ 60 := Ofile 1 2 true 0 900 ]}.

Lemma mount_umount_blocks_witness :
  ∃ ret s', ext4_fill_super 10 fx0 = Ok (ret, s') ∧ (ret ≠ 0 → live s' = []) ∧
    (ret = 0 → length (live s') = 4%nat ∧
       ∃ t l, ext4_put_super 10 s' = Ok ((), t) ∧ live t = l ++ [] ∧ length l = 3%nat).
Proof.
  apply (mount_umount_blocks fx0 10 (Vsuper 0 40 0 0 0 0 0 0)); [reflexivity|]. right. by eexists.
Defined.

Lemma file_open_blocks_witness :
  ∃ ret s', EXT4_file_open (λ _, mret (0, [])) 60 0 fx0 = Ok (ret, s') ∧ (ret ≠ 0 → live s' = []) ∧
    (ret = 0 → ∃ p g, live s' = [p] ∧ ofiles s' !! 60 = Some g ∧ of_private g = p).
Proof.
  apply (file_open_blocks (λ _, mret (0, [])) fx0 60 (Ofile 1 2 true 0 900)); [|reflexivity].
  intros s d. by apply runs_ret.
Defined.

Lemma dir_iterate_sends_witness :
  ∃ s', EXT4_dir_iterate 3 60 (λ n p i t c, (true, c ++ [(n, p, i, t)])) 0 [] fx0 =
    Ok ((0, 2, [([97], 0, 3, 8); ([98], 1, 4, 4)]), s').
Proof.
  apply (dir_iterate_sends (λ n p i t c, (true, c ++ [(n, p, i, t)])) fx0 60 (Ofile 1 2 true 0 900)
    [Direntry [97] 3 1; Direntry [98] 4 2] 0 []); [reflexivity|discriminate|].
  cbn. eauto 10.
Defined.
