(* ===== verification/Time.v ===== *)
(** * Time ([kernel/time.c] and the inline functions of [include/kernel/time.h])

    The system time is a pair of seconds and nanoseconds ([int64] each). A structure
    passed by pointer is a result; a null pointer is [false]. What is asked of a
    superblock is its range and granularity. *)

From stdpp Require Import base numbers option.
From S2P Require Import Prelude.
Local Open Scope Z_scope.
Local Open Scope kernel_scope.

Definition NSEC_PER_SEC : Z := 1000000000.
Definition NSEC_PER_USEC : Z := 1000.

Definition CLOCK_REALTIME : Z := 0.
Definition CLOCK_MONOTONIC : Z := 1.
Definition CLOCK_BOOTTIME : Z := 2.

Record timespec := Timespec { tv_sec : Z; tv_nsec : Z }.
Record timeval := Timeval { tvl_sec : Z; tv_usec : Z }.

(** The fields of a superblock that matter here; [s_ops] says whether it has operations. *)
Record sb_time := SbTime { s_ops : bool; s_time_granularity : Z; s_time_min : Z; s_time_max : Z }.

Record clock := Clock { system_time : timespec; jiffies : Z }.

(** ** Structures *)

Definition timeval_to_timespec (tv : timeval) : timespec :=
  Timespec (tvl_sec tv) (s64 (tv_usec tv * NSEC_PER_USEC)).

Definition timespec_to_timeval (ts : timespec) : timeval :=
  Timeval (tv_sec ts) (Z.quot (tv_nsec ts) NSEC_PER_USEC).

(** The parameter is a [uint32]. *)
Definition timespec_trunc (ts : timespec) (granularity : Z) : timespec :=
  let granularity := u32 granularity in
  if (granularity =? 0) || (granularity =? 1) then ts
  else Timespec (tv_sec ts) (s64 (tv_nsec ts - Z.rem (tv_nsec ts) granularity)).

Definition timespec_compare (a b : timespec) : Z :=
  if negb (tv_sec a =? tv_sec b) then (if tv_sec b <? tv_sec a then 1 else -1)
  else if tv_nsec b <? tv_nsec a then 1
  else if tv_nsec a <? tv_nsec b then -1
  else 0.

Definition timespec_add (a b : timespec) : timespec :=
  let sec := s64 (tv_sec a + tv_sec b) in
  let nsec := s64 (tv_nsec a + tv_nsec b) in
  if NSEC_PER_SEC <=? nsec then Timespec (s64 (sec + 1)) (s64 (nsec - NSEC_PER_SEC)) else Timespec sec nsec.

Definition timespec_sub (a b : timespec) : timespec :=
  let sec := s64 (tv_sec a - tv_sec b) in
  if tv_nsec b <=? tv_nsec a then Timespec sec (s64 (tv_nsec a - tv_nsec b))
  else Timespec (s64 (sec - 1)) (s64 (s64 (NSEC_PER_SEC + tv_nsec a) - tv_nsec b)).

(** ** Clocks *)

Definition update_sys_time_from_hw (c : clock) : clock := Clock (Timespec 1672531200 0) (jiffies c).

Definition time_init (c : clock) : clock :=
  let c := Clock (Timespec 0 0) (jiffies c) in
  let c := update_sys_time_from_hw c in
  Clock (system_time c) 0.

(** The error or the time. *)
Definition do_clock_gettime (which_clock : Z) (tp : bool) (c : clock) : Z + timespec :=
  if negb tp then inl (- EINVAL)
  else if which_clock =? CLOCK_REALTIME then inr (system_time c)
  else if (which_clock =? CLOCK_MONOTONIC) || (which_clock =? CLOCK_BOOTTIME) then inr (system_time c)
  else inl (- EINVAL).

Definition do_gettimeofday (tv : bool) (c : clock) : Z + timeval :=
  if negb tv then inl (- EINVAL) else inr (timespec_to_timeval (system_time c)).

(** [now] is not initialised before the call; its content [junk] stays on an error. *)
Definition current_fs_time (sb : option sb_time) (junk : timespec) (c : clock) : timespec :=
  let now := match do_clock_gettime CLOCK_REALTIME true c with inr t => t | inl _ => junk end in
  match sb with
  | None => now
  | Some sb =>
      let now :=
        if tv_sec now <? s_time_min sb then Timespec (s_time_min sb) (tv_nsec now)
        else if s_time_max sb <? tv_sec now then Timespec (s_time_max sb) (tv_nsec now)
        else now in
      let granularity := if s_ops sb && negb (s_time_granularity sb =? 0) then s_time_granularity sb else 1 in
      timespec_trunc now granularity
  end.

Definition current_time (sb : option sb_time) (junk : timespec) (c : clock) : timespec :=
  let now := match do_clock_gettime CLOCK_REALTIME true c with inr t => t | inl _ => junk end in
  match sb with
  | None => now
  | Some _ => current_fs_time sb junk c
  end.

Definition current_time_unix (sb : option sb_time) (junk : timespec) (c : clock) : Z :=
  tv_sec (current_time sb junk c).

(** The time, which is also stored through a pointer that is not null. *)
Definition do_time (timer : bool) (c : clock) : Z * option Z :=
  let current := tv_sec (system_time c) in
  (current, if timer then Some current else None).

(** [copy_to_user] is given: the address and the value, true when it failed. *)
Definition sys_time (copy_to_user : Z → Z → bool) (tloc : Z) (c : clock) : Z :=
  let (ret, ktime) := do_time true c in
  let ktime := default 0 ktime in
  if ret <? 0 then ret
  else if negb (tloc =? 0) then
    if copy_to_user tloc ktime then - EFAULT else ktime
  else ktime.

(** ** Normal form

    A structure is normal when its nanoseconds are less than a second; it stands for
    a number of nanoseconds. *)

Definition normal (t : timespec) : Prop := 0 ≤ tv_nsec t < 10 ^ 9.
Definition nanos (t : timespec) : Z := tv_sec t * 10 ^ 9 + tv_nsec t.

(** The same for the structures with microseconds. *)
Definition normal_us (tv : timeval) : Prop := 0 ≤ tv_usec tv < 10 ^ 6.
Definition micros (tv : timeval) : Z := tvl_sec tv * 10 ^ 6 + tv_usec tv.

(** Seconds that can be added and subtracted without overflow. *)
Definition moderate (t : timespec) : Prop := - 2 ^ 61 ≤ tv_sec t < 2 ^ 61.

Ltac time_arith := unfold normal, moderate, nanos, normal_us, micros, NSEC_PER_SEC, NSEC_PER_USEC in *; change (10 ^ 9) with 1000000000 in *; change (10 ^ 6) with 1000000 in *; cbn [tv_sec tv_nsec tvl_sec tv_usec] in *.

Lemma timespec_add_ok a b :
  normal a → normal b → moderate a → moderate b →
  normal (timespec_add a b) ∧ nanos (timespec_add a b) = nanos a + nanos b.
Proof.
  intros. unfold timespec_add. time_arith. rewrite (s64_small (tv_sec a + _)), (s64_small (tv_nsec a + _)) by lia.
  destruct (Z.leb_spec 1000000000 (tv_nsec a + tv_nsec b)); cbn [tv_sec tv_nsec]; [rewrite !s64_small by lia|]; lia.
Qed.

Lemma timespec_sub_ok a b :
  normal a → normal b → moderate a → moderate b →
  normal (timespec_sub a b) ∧ nanos (timespec_sub a b) = nanos a - nanos b.
Proof.
  intros. unfold timespec_sub. time_arith. rewrite (s64_small (tv_sec a - _)) by lia.
  destruct (Z.leb_spec (tv_nsec b) (tv_nsec a)); cbn [tv_sec tv_nsec]; rewrite !s64_small by (rewrite ?s64_small; lia); lia.
Qed.

Lemma timespec_compare_ok a b : normal a → normal b → timespec_compare a b = Z.sgn (nanos a - nanos b).
Proof.
  intros. unfold timespec_compare. time_arith.
  destruct (Z.eqb_spec (tv_sec a) (tv_sec b)); cbn [negb]; repeat match goal with |- context [?x <? ?y] => destruct (Z.ltb_spec x y) end; lia.
Qed.

(** Truncation rounds the nanoseconds down to a multiple. *)
Lemma timespec_trunc_ok t g :
  normal t → 0 < u32 g →
  normal (timespec_trunc t g) ∧ tv_sec (timespec_trunc t g) = tv_sec t ∧
  (u32 g | tv_nsec (timespec_trunc t g)) ∧ 0 ≤ nanos t - nanos (timespec_trunc t g) < u32 g.
Proof.
  intros Hn Hg. unfold timespec_trunc. rewrite (proj2 (Z.eqb_neq (u32 g) 0)) by lia. cbn [orb].
  destruct (Z.eqb_spec (u32 g) 1) as [->|Hg1]; [split_and!; [done|done|apply Z.divide_1_l|lia..]|].
  time_arith. rewrite Z.rem_mod_nonneg by lia. pose proof (Z.mod_pos_bound (tv_nsec t) (u32 g)). pose proof (Z.mod_le (tv_nsec t) (u32 g)).
  rewrite s64_small by lia. split_and!; [lia|lia|done| |lia|lia].
  exists (tv_nsec t / u32 g). pose proof (Z.div_mod (tv_nsec t) (u32 g)). lia.
Qed.

Lemma timeval_to_timespec_ok tv :
  normal_us tv → normal (timeval_to_timespec tv) ∧ nanos (timeval_to_timespec tv) = micros tv * 1000.
Proof. intros Hu. unfold timeval_to_timespec. time_arith. rewrite s64_small by lia. lia. Qed.

(** Microseconds are rounded down. *)
Lemma timespec_to_timeval_ok t :
  normal t → normal_us (timespec_to_timeval t) ∧ micros (timespec_to_timeval t) = nanos t / 1000.
Proof.
  intros Hn. unfold timespec_to_timeval. time_arith. rewrite Z.quot_div_nonneg by lia. split; zdm.
Qed.

Lemma timeval_roundtrip tv : normal_us tv → timespec_to_timeval (timeval_to_timespec tv) = tv.
Proof.
  intros Hu. destruct tv as [s u]. unfold timespec_to_timeval, timeval_to_timespec. time_arith. rewrite s64_small by lia.
  by rewrite Z.quot_mul by lia.
Qed.

Lemma timespec_sub_add a b :
  normal a → normal b → moderate a → moderate b → timespec_add (timespec_sub a b) b = a.
Proof.
  intros Ha Hb Ma Mb. unfold timespec_add. destruct a as [sa na], b as [sb nb]. unfold timespec_sub in *. time_arith.
  rewrite (s64_small (sa - sb)) in * by lia.
  destruct (Z.leb_spec nb na); cbn [tv_sec tv_nsec] in *; rewrite ?(s64_small (1000000000 + na)) in * by lia;
    rewrite ?(s64_small (na - nb)), ?(s64_small (sa - sb - 1)), ?(s64_small (1000000000 + na - nb)) in * by lia.
  - rewrite (s64_small (na - nb + nb)) by lia. rewrite (proj2 (Z.leb_gt _ _)) by lia. rewrite s64_small by lia. f_equal; lia.
  - rewrite (s64_small (1000000000 + na - nb + nb)) by lia. rewrite (proj2 (Z.leb_le _ _)) by lia. rewrite !s64_small by (rewrite ?s64_small; lia). f_equal; lia.
Qed.

(** C36. The time structures keep their normal form (nanoseconds below a second): sums,
    differences and truncations of normal structures are normal and are the sums, differences
    and roundings of the nanoseconds they stand for; comparison is that of the
    nanoseconds and a difference added back gives the first operand. Conversions keep
    the normal form too: from microseconds they multiply by 1000, to microseconds they divide the
    nanoseconds by 1000 and round down, and there and back is the identity. *)
Theorem timespec_normal a b g tv :
  normal a → normal b → moderate a → moderate b → 0 < u32 g → normal_us tv →
  (normal (timespec_add a b) ∧ nanos (timespec_add a b) = nanos a + nanos b) ∧
  (normal (timespec_sub a b) ∧ nanos (timespec_sub a b) = nanos a - nanos b) ∧
  timespec_compare a b = Z.sgn (nanos a - nanos b) ∧
  timespec_add (timespec_sub a b) b = a ∧
  (normal (timespec_trunc a g) ∧ (u32 g | tv_nsec (timespec_trunc a g)) ∧ 0 ≤ nanos a - nanos (timespec_trunc a g) < u32 g) ∧
  (normal (timeval_to_timespec tv) ∧ nanos (timeval_to_timespec tv) = micros tv * 1000) ∧
  (normal_us (timespec_to_timeval a) ∧ micros (timespec_to_timeval a) = nanos a / 1000) ∧
  timespec_to_timeval (timeval_to_timespec tv) = tv.
Proof.
  intros Ha Hb Ma Mb Hg Hu. destruct (timespec_trunc_ok a g Ha Hg) as (? & _ & ? & ?).
  split; [by apply timespec_add_ok|]. split; [by apply timespec_sub_ok|]. split; [by apply timespec_compare_ok|].
  split; [by apply timespec_sub_add|]. split; [done|]. split; [by apply timeval_to_timespec_ok|].
  split; [by apply timespec_to_timeval_ok|by apply timeval_roundtrip].
Qed.

(** The time given to a file system is in its range and a multiple of its granularity. *)
Theorem current_time_range sb junk c :
  normal (system_time c) → s_time_min sb ≤ s_time_max sb →
  s_ops sb = true → 0 < s_time_granularity sb < 2 ^ 32 →
  let t := current_time (Some sb) junk c in
  normal t ∧ s_time_min sb ≤ tv_sec t ≤ s_time_max sb ∧ (s_time_granularity sb | tv_nsec t) ∧
  current_time_unix (Some sb) junk c = tv_sec t.
Proof.
  intros Hn Hr Ho Hg t. unfold t, current_time_unix, current_time, current_fs_time. cbn [do_clock_gettime negb Z.eqb CLOCK_REALTIME].
  rewrite Ho, (proj2 (Z.eqb_neq _ 0)) by lia. cbn [andb negb].
  set (now := if tv_sec _ <? _ then _ else _).
  assert (normal now ∧ s_time_min sb ≤ tv_sec now ≤ s_time_max sb) as [Hnn Hrn].
  { unfold now, normal in *. repeat match goal with |- context [?x <? ?y] => destruct (Z.ltb_spec x y) end; cbn [tv_sec tv_nsec]; lia. }
  destruct (timespec_trunc_ok now (s_time_granularity sb) Hnn) as (H1 & H2 & H3 & _); [rewrite u32_small; lia|].
  rewrite u32_small in H3 by lia. rewrite H2. split_and!; (done || lia).
Qed.

(** A granularity of [2^32] nanoseconds or a multiple of it is cut to 0 and ignored. *)
Lemma granularity_truncated t : timespec_trunc t (2 ^ 32) = t.
Proof. done. Qed.

Lemma timespec_normal_witness :
  let a := Timespec 5 2100 in
  let b := Timespec 3 999999999 in
  timespec_sub a b = Timespec 1 2101 ∧ timespec_add (timespec_sub a b) b = a ∧ timespec_compare a b = 1 ∧
  micros (timespec_to_timeval a) = 5000002.
Proof.
  intros a b. destruct (timespec_normal a b 1000 (Timeval 7 250)) as (_ & _ & Hc & Hi & _ & _ & [_ Hm] & _);
    [time_arith; cbn; lia..|reflexivity|time_arith; cbn; lia|].
  split; [reflexivity|]. split; [exact Hi|]. rewrite Hc, Hm. split; reflexivity.
Defined.

Lemma current_time_range_witness :
  let sb := SbTime true 1000 0 100 in
  tv_sec (current_time (Some sb) (Timespec 0 0) (time_init (Clock (Timespec 0 0) 0))) ≤ 100.
Proof.
  intros sb. destruct (current_time_range sb (Timespec 0 0) (time_init (Clock (Timespec 0 0) 0))) as (_ & [_ H] & _).
  - time_arith. cbn. lia.
  - cbn. lia.
  - reflexivity.
  - cbn. lia.
  - exact H.
Defined.
