(* ===== verification/Snprintf.v ===== *)
(** * Bounded formatted output ([snprintf] and [vsnprintf] of [kernel/util/string.c])

    The buffer, the format and the strings lie in one byte memory. The variable
    arguments are a list of registers. [snprintf] and [vsnprintf] are separate
    interpreters with formats of their own. [null_text] is the address of the
    literal the first prints for a null string. A loop over a format or a string
    visits distinct addresses, and one step more than the memory has bytes ends it. *)

From stdpp Require Import base gmap list.
From S2P Require Import Prelude KString Vprint.
Local Open Scope Z_scope.
Local Open Scope kernel_scope.

Definition va_next (ap : list Z) : outcome (Z * list Z) :=
  match ap with v :: ap => Ok (v, ap) | [] => Fault end.

(** ** [snprintf] *)

(** [if (count < size) str[count++] = c; else count++;] *)
Definition put_char (str sz c count : Z) (m : mem) : outcome (Z * mem) :=
  if count <? sz then
    let! m := store8 (str + count) c m in Ok (count + 1, m)
  else Ok (count + 1, m).

Fixpoint copy_str (fuel : nat) (str sz s count : Z) (m : mem) : outcome (Z * Z * mem) :=
  match fuel with
  | O => Timeout
  | S fuel =>
      let! c := load8 s m in
      if negb (c =? 0) && (count <? sz) then
        let! m := store8 (str + count) c m in
        copy_str fuel str sz (s + 1) (count + 1) m
      else Ok (s, count, m)
  end.

(** The digits in [temp], the last one written first. The array has 32 places,
    [room] of them free. *)
Fixpoint temp_digits (room : nat) (num base : Z) (upper : bool) (temp : list Z) : outcome (list Z) :=
  match room with
  | O => Fault
  | S room =>
      let digit := Z.rem num base in
      let c := if digit <? 10 then 48 + digit else (if upper then 65 else 97) + (digit - 10) in
      let num := Z.quot num base in
      if 0 <? num then temp_digits room num base upper (c :: temp) else Ok (c :: temp)
  end.

(** [while (len > 0 && count < size) str[count++] = temp[--len]; count += len;] *)
Fixpoint write_temp (str sz : Z) (temp : list Z) (count : Z) (m : mem) : outcome (Z * mem) :=
  match temp with
  | [] => Ok (count, m)
  | c :: temp' =>
      if count <? sz then
        let! m := store8 (str + count) c m in
        write_temp str sz temp' (count + 1) m
      else Ok (count + Z.of_nat (length temp), m)
  end.

Definition write_number (str sz num base : Z) (upper : bool) (count : Z) (m : mem) : outcome (Z * mem) :=
  let! temp := temp_digits 32 num base upper [] in
  write_temp str sz temp count m.

Section Snprintf.
Context (null_text : Z).

(** The [switch] on the conversion [c]. *)
Definition format_one (str sz c count : Z) (ap : list Z) (m : mem) : outcome (Z * list Z * mem) :=
  if c =? 115 (* s *) then
    let! (s, ap) := va_next ap in
    let s := if s =? 0 then null_text else s in
    let! _ := strlen s m in
    let! (s, count, m) := copy_str (S (size m)) str sz s count m in
    let! n := strlen s m in
    Ok (count + n, ap, m)
  else if (c =? 100) || (c =? 105) (* d i *) then
    let! (v, ap) := va_next ap in
    let num := s32 v in
    let! (num, count, m) :=
      (if num <? 0 then let! (count, m) := put_char str sz 45 count m in Ok (s32 (- num), count, m)
       else Ok (num, count, m)) in
    let! (count, m) := write_number str sz num 10 false count m in
    Ok (count, ap, m)
  else if c =? 117 (* u *) then
    let! (v, ap) := va_next ap in
    let! (count, m) := write_number str sz (u32 v) 10 false count m in
    Ok (count, ap, m)
  else if (c =? 120) || (c =? 88) (* x X *) then
    let! (v, ap) := va_next ap in
    let! (count, m) := write_number str sz (u32 v) 16 (c =? 88) count m in
    Ok (count, ap, m)
  else if c =? 99 (* c *) then
    let! (v, ap) := va_next ap in
    let! (count, m) := put_char str sz v count m in
    Ok (count, ap, m)
  else
    let! (count, m) := put_char str sz c count m in
    Ok (count, ap, m).

(** The first loop; its result is the rest of the format, the count, the rest of
    the arguments and the memory. *)
Fixpoint format_loop (fuel : nat) (str sz format count : Z) (ap : list Z) (m : mem) : outcome (Z * Z * list Z * mem) :=
  match fuel with
  | O => Timeout
  | S fuel =>
      let! c := load8 format m in
      if negb (c =? 0) && (count <? sz) then
        if negb (c =? 37) then
          let! m := store8 (str + count) c m in
          format_loop fuel str sz (format + 1) (count + 1) ap m
        else
          let format := format + 1 in
          let! c := load8 format m in
          let format := if c =? 48 then format + 1 else format in
          let! c := load8 format m in
          let! (count, ap, m) := format_one str sz c count ap m in
          format_loop fuel str sz (format + 1) count ap m
      else Ok (format, count, ap, m)
  end.

Definition is_int_conv (c : Z) : bool :=
  (c =? 99) || (c =? 100) || (c =? 105) || (c =? 117) || (c =? 120) || (c =? 88).

(** The second loop counts what the rest of the format would print. *)
Fixpoint count_rest (fuel : nat) (format count : Z) (ap : list Z) (m : mem) : outcome Z :=
  match fuel with
  | O => Timeout
  | S fuel =>
      let! c := load8 format m in
      if c =? 0 then Ok count
      else if c =? 37 then
        let format := format + 1 in
        let! c := load8 format m in
        if c =? 115 then
          let! (s, ap) := va_next ap in
          let! count := (if s =? 0 then Ok count else let! n := strlen s m in Ok (count + n)) in
          count_rest fuel (format + 1) count ap m
        else if is_int_conv c then
          let! (_, ap) := va_next ap in
          count_rest fuel (format + 1) (count + 1) ap m
        else if c =? 37 then count_rest fuel (format + 1) (count + 1) ap m
        else count_rest fuel (format + 1) count ap m
      else count_rest fuel (format + 1) (count + 1) ap m
  end.

Definition vsnprintf_internal (str size_ format : Z) (args : list Z) (m : mem) : outcome (Z * mem) :=
  if size_ =? 0 then Ok (0, m)
  else
    let sz := size_ - 1 in
    let! (format, count, args, m) := format_loop (S (size m)) str sz format 0 args m in
    let! m := (if 0 <? sz then store8 (str + if count <? sz then count else sz) 0 m else Ok m) in
    let! count := count_rest (S (size m)) format count args m in
    Ok (s32 count, m).

Definition snprintf (str size_ format : Z) (args : list Z) (m : mem) : outcome (Z * mem) :=
  if (size_ =? 0) || (str =? NULL) then Ok (0, m)
  else vsnprintf_internal str size_ format args m.

End Snprintf.

(** ** [vsnprintf] *)

(** [if (++pos < n) out[pos - 1] = c;] *)
Definition emit (out n c pos : Z) (m : mem) : outcome (Z * mem) :=
  let pos := pos + 1 in
  if pos <? n then let! m := store8 (out + (pos - 1)) c m in Ok (pos, m) else Ok (pos, m).

(** The hexadecimal digits [k - 1] to 0 of [num]. *)
Fixpoint emit_hex (k : nat) (out n num pos : Z) (m : mem) : outcome (Z * mem) :=
  match k with
  | O => Ok (pos, m)
  | S k =>
      let d := Z.land (Z.shiftr num (4 * Z.of_nat k)) 15 in
      let! (pos, m) := emit out n (if d <? 10 then 48 + d else 97 + d - 10) pos m in
      emit_hex k out n num pos m
  end.

(** An [int64] has at most 19 decimal digits. *)
Fixpoint count_digits (fuel : nat) (nn digits : Z) : outcome Z :=
  match fuel with
  | O => Timeout
  | S fuel =>
      let nn := Z.quot nn 10 in
      if nn =? 0 then Ok digits else count_digits fuel nn (digits + 1)
  end.

(** The digits, from the last one; [k] are left. *)
Fixpoint emit_dec (k : nat) (out n num pos : Z) (m : mem) : outcome mem :=
  match k with
  | O => Ok m
  | S k =>
      let i := Z.of_nat k in
      let! m := (if pos + i + 1 <? n then store8 (out + (pos + i)) (48 + Z.rem num 10) m else Ok m) in
      emit_dec k out n (Z.quot num 10) pos m
  end.

Fixpoint emit_str (fuel : nat) (out n s2 pos : Z) (m : mem) : outcome (Z * mem) :=
  match fuel with
  | O => Timeout
  | S fuel =>
      let! c := load8 s2 m in
      if c =? 0 then Ok (pos, m)
      else
        let! (pos, m) := emit out n c pos m in
        emit_str fuel out n (s2 + 1) pos m
  end.

Definition va_num64 (longarg : bool) (vl : list Z) : outcome (Z * list Z) :=
  let! (v, vl) := va_next vl in Ok (if longarg then s64 v else s32 v, vl).

Record vstate := Vstate {
  format : bool;
  longarg : bool;
  pos : Z;
  vl : list Z;
  vmem : mem;
}.

Definition vsnprintf_hex (out n : Z) (longarg : bool) (pos : Z) (vl : list Z) (m : mem) : outcome vstate :=
  let! (num, vl) := va_num64 longarg vl in
  let! (pos, m) := emit_hex (if longarg then 16 else 8) out n num pos m in
  Ok (Vstate false false pos vl m).

Definition vsnprintf_dec (out n : Z) (longarg : bool) (pos : Z) (vl : list Z) (m : mem) : outcome vstate :=
  let! (num, vl) := va_num64 longarg vl in
  let! (num, pos, m) :=
    (if num <? 0 then let! (pos, m) := emit out n 45 pos m in Ok (s64 (- num), pos, m)
     else Ok (num, pos, m)) in
  let! digits := count_digits 20 num 1 in
  let! m := emit_dec (Z.to_nat digits) out n num pos m in
  Ok (Vstate false false (pos + digits) vl m).

(** The body of the loop for the character [c]. *)
Definition vsnprintf_step (out n c : Z) (s : vstate) : outcome vstate :=
  let 'Vstate format longarg pos vl m := s in
  if format then
    if c =? 108 (* l *) then Ok (Vstate true true pos vl m)
    else if c =? 112 (* p *) then
      let! (pos, m) := emit out n 48 pos m in
      let! (pos, m) := emit out n 120 pos m in
      vsnprintf_hex out n true pos vl m
    else if c =? 120 (* x *) then vsnprintf_hex out n longarg pos vl m
    else if c =? 100 (* d *) then vsnprintf_dec out n longarg pos vl m
    else if c =? 115 (* s *) then
      let! (s2, vl) := va_next vl in
      let! (pos, m) := emit_str (S (size m)) out n s2 pos m in
      Ok (Vstate false false pos vl m)
    else if c =? 99 (* c *) then
      let pos := pos + 1 in
      if pos <? n then
        let! (v, vl) := va_next vl in
        let! m := store8 (out + (pos - 1)) v m in
        Ok (Vstate false false pos vl m)
      else Ok (Vstate false false pos vl m)
    else Ok s
  else if c =? 37 then Ok (Vstate true longarg pos vl m)
  else
    let! (pos, m) := emit out n c pos m in
    Ok (Vstate false longarg pos vl m).

Fixpoint vsnprintf_loop (fuel : nat) (out n s : Z) (st : vstate) : outcome vstate :=
  match fuel with
  | O => Timeout
  | S fuel =>
      let! c := load8 s (vmem st) in
      if c =? 0 then Ok st
      else
        let! st := vsnprintf_step out n c st in
        vsnprintf_loop fuel out n (s + 1) st
  end.

Definition vsnprintf (out n s : Z) (vl : list Z) (m : mem) : outcome (Z * mem) :=
  let! st := vsnprintf_loop (S (size m)) out n s (Vstate false false 0 vl m) in
  let! m :=
    (if pos st <? n then store8 (out + pos st) 0 (vmem st)
     else if negb (n =? 0) then store8 (out + (n - 1)) 0 (vmem st)
     else Ok (vmem st)) in
  Ok (s32 (pos st), m).

(** ** Text in a buffer

    [written str sz m0 t m]: [m] is [m0] with the first [sz] bytes of the text [t]
    at [str]. *)

Definition written (str sz : Z) (m0 : mem) (t : list Z) (m : mem) : Prop :=
  (∀ i c, t !! i = Some c → Z.of_nat i < sz → m !! (str + Z.of_nat i) = Some (u8 c)) ∧
  (∀ a, ~ (str ≤ a < str + sz) → m !! a = m0 !! a) ∧ same_dom m0 m ∧ mem_ok m.

Section Written.
Context (str sz : Z) (m0 : mem).
Context (Hbuf : mapped m0 str sz).

Lemma written_nil : mem_ok m0 → written str sz m0 [] m0.
Proof. intros Hok. by split_and!. Qed.

(** A string beside the buffer stays. *)
Lemma written_cstr t m p l :
  written str sz m0 t m → disjoint str sz p (Z.of_nat (length l) + 1) → cstr m0 p l → cstr m p l.
Proof. intros (_ & Ho & _) Hd. apply cstr_same. intros a Ha. apply Ho. unfold disjoint in Hd. lia. Qed.

Lemma written_put t c m :
  written str sz m0 t m → Z.of_nat (length t) < sz →
  ∃ m', store8 (str + Z.of_nat (length t)) c m = Ok m' ∧ written str sz m0 (t ++ [c]) m'.
Proof.
  intros (Hi & Ho & Hd & Hok) Hl. destruct (store8_ok (str + Z.of_nat (length t)) c m) as (m' & E & -> & Hd' & Hok');
    [apply Hd, Hbuf; lia|done|]. eexists. split; [exact E|]. split_and!; [| |by eapply same_dom_trans|done].
  - intros i x Hx Hs. destruct (decide (i = length t)) as [->|Hne].
    + rewrite lookup_insert_eq. rewrite lookup_app_r, Nat.sub_diag in Hx by lia. by injection Hx as <-.
    + rewrite lookup_insert_ne by lia. apply lookup_app_Some in Hx as [Hx|[Hge Hx]]; [by apply Hi|].
      apply list_lookup_singleton_Some in Hx as [? _]. lia.
  - intros a Ha. rewrite lookup_insert_ne by lia. by apply Ho.
Qed.

(** What lies past the end of the buffer is not written. *)
Lemma written_over t t' m : written str sz m0 t m → sz ≤ Z.of_nat (length t) → written str sz m0 (t ++ t') m.
Proof.
  intros (Hi & Ho) Hl. split; [|done]. intros i c Hc Hs. rewrite lookup_app_l in Hc by lia. by apply Hi.
Qed.

Lemma put_char_ok t c m :
  written str sz m0 t m →
  ∃ m', put_char str sz c (Z.of_nat (length t)) m = Ok (Z.of_nat (length (t ++ [c])), m') ∧
    written str sz m0 (t ++ [c]) m'.
Proof.
  intros Hw. unfold put_char. rewrite length_app, Nat2Z.inj_add. cbn [length].
  destruct (Z.ltb_spec (Z.of_nat (length t)) sz) as [Hl|Hl].
  - destruct (written_put t c m Hw Hl) as (m' & -> & Hw'). cbn [obind]. eauto.
  - exists m. split; [done|]. by apply written_over.
Qed.

Lemma emit_put_char n c p m : emit str n c p m = put_char str (n - 1) c p m.
Proof.
  unfold emit, put_char. replace (p + 1 - 1) with p by lia.
  destruct (Z.ltb_spec (p + 1) n), (Z.ltb_spec p (n - 1)); (done || lia).
Qed.

Lemma write_temp_ok temp t m :
  written str sz m0 t m →
  ∃ m', write_temp str sz temp (Z.of_nat (length t)) m = Ok (Z.of_nat (length (t ++ temp)), m') ∧
    written str sz m0 (t ++ temp) m'.
Proof.
  revert t m. induction temp as [|c temp IH]; intros t m Hw; cbn [write_temp]; [rewrite app_nil_r; eauto|].
  destruct (Z.ltb_spec (Z.of_nat (length t)) sz) as [Hl|Hl].
  - destruct (written_put t c m Hw Hl) as (m1 & -> & Hw1). cbn [obind].
    destruct (IH (t ++ [c]) m1 Hw1) as (m2 & E & Hw2). rewrite <-app_assoc in E, Hw2. exists m2. split; [|done].
    replace (Z.of_nat (length t) + 1) with (Z.of_nat (length (t ++ [c]))) by (rewrite length_app; cbn; lia). exact E.
  - exists m. split; [|by apply written_over]. rewrite length_app. repeat f_equal. cbn. lia.
Qed.

(** The copy of a string stops at its end or at the end of the buffer. *)
Lemma copy_str_ok fuel l s t m :
  written str sz m0 t m → cstr m0 s l → disjoint str sz s (Z.of_nat (length l) + 1) → (length l < fuel)%nat →
  ∃ l1 l2 m', l = l1 ++ l2 ∧
    copy_str fuel str sz s (Z.of_nat (length t)) m = Ok (s + Z.of_nat (length l1), Z.of_nat (length (t ++ l1)), m') ∧
    written str sz m0 (t ++ l1) m' ∧ (l2 = [] ∨ sz ≤ Z.of_nat (length (t ++ l1))).
Proof.
  revert fuel s t m. induction l as [|c l IH]; intros [|fuel] s t m Hw Hc Hd Hf;
    pose proof (written_cstr _ _ _ _ Hw Hd Hc) as Hc'; cbn [length copy_str] in *; try lia.
  - apply cstr_nil in Hc'. rewrite (load8_ok _ _ _ Hc'). cbn. exists [], [], m. rewrite !app_nil_r, Z.add_0_r. by auto.
  - apply cstr_cons in Hc' as (Hb & Hr & _). apply cstr_cons in Hc as (_ & _ & Hc). rewrite (load8_ok _ _ _ Hb). cbn [obind].
    rewrite (proj2 (Z.eqb_neq c 0)) by lia. cbn [negb andb].
    destruct (Z.ltb_spec (Z.of_nat (length t)) sz) as [Hl|Hl].
    + destruct (written_put t c m Hw Hl) as (m1 & -> & Hw1). cbn [obind].
      destruct (IH fuel (s + 1) (t ++ [c]) m1 Hw1 Hc) as (l1 & l2 & m2 & -> & E & Hw2 & He);
        [unfold disjoint in *; lia|lia|]. rewrite <-app_assoc in E, Hw2, He. exists (c :: l1), l2, m2.
      split_and!; [done| |done|done]. cbn [app length] in *. replace (s + Z.of_nat (S (length l1))) with (s + 1 + Z.of_nat (length l1)) by lia.
      replace (Z.of_nat (length t) + 1) with (Z.of_nat (length (t ++ [c]))) by (rewrite length_app; cbn; lia). exact E.
    + exists [], (c :: l), m. rewrite app_nil_r, Z.add_0_r. by auto.
Qed.
End Written.

(** ** Digits *)

Lemma numeral_rev_fuel f g u base upper :
  2 ≤ base → 0 ≤ u < base ^ Z.of_nat f → (0 < f ≤ g)%nat → numeral_rev f u base upper = numeral_rev g u base upper.
Proof.
  intros Hb. revert g u. induction f as [|f IH]; intros [|g] u Hu Hg; try lia. cbn [numeral_rev].
  rewrite Nat2Z.inj_succ, Z.pow_succ_r in Hu by lia.
  assert (0 ≤ u / base < base ^ Z.of_nat f) as Hu' by (split; [apply Z.div_pos; lia|apply Z.div_lt_upper_bound; lia]).
  destruct (Z.eqb_spec (u / base) 0) as [E|E]; [done|]. rewrite (IH g); [done|done|].
  destruct f; [change (base ^ Z.of_nat 0) with 1 in Hu'; lia|lia].
Qed.

Lemma temp_digits_ok room num base upper acc :
  2 ≤ base → 0 ≤ num < base ^ Z.of_nat room → (0 < room)%nat →
  temp_digits room num base upper acc = Ok (rev (numeral_rev room num base upper) ++ acc).
Proof.
  intros Hb. revert num acc. induction room as [|n IH]; intros num acc Hu Hr; [lia|]. cbn [temp_digits numeral_rev].
  rewrite Nat2Z.inj_succ, Z.pow_succ_r in Hu by lia. rewrite Z.rem_mod_nonneg, Z.quot_div_nonneg by lia.
  assert (0 ≤ num / base < base ^ Z.of_nat n) as Hu' by (split; [apply Z.div_pos; lia|apply Z.div_lt_upper_bound; lia]).
  replace (if num mod base <? 10 then 48 + num mod base else (if upper then 65 else 97) + (num mod base - 10))
    with (digit_char (num mod base) upper)
    by (unfold digit_char; destruct (Z.leb_spec (num mod base) 9), (Z.ltb_spec (num mod base) 10), upper; lia).
  destruct (Z.eqb_spec (num / base) 0) as [->|E]; [done|]. rewrite (proj2 (Z.ltb_lt 0 _)) by lia.
  rewrite IH; [cbn [rev]; by rewrite <-app_assoc|done|].
  destruct n; [change (base ^ Z.of_nat 0) with 1 in Hu'; lia|lia].
Qed.

Lemma write_number_ok str sz m0 num base upper t m :
  mapped m0 str sz → written str sz m0 t m → 2 ≤ base → 0 ≤ num < 2 ^ 32 →
  ∃ m', write_number str sz num base upper (Z.of_nat (length t)) m = Ok (Z.of_nat (length (t ++ numeral num base upper)), m') ∧
    written str sz m0 (t ++ numeral num base upper) m'.
Proof.
  intros Hb Hw H2 Hn. unfold write_number. assert (2 ^ 32 ≤ base ^ 32) by (apply Z.pow_le_mono_l; lia).
  rewrite temp_digits_ok by (change (Z.of_nat 32) with 32; lia). cbn [obind]. rewrite app_nil_r.
  unfold numeral. rewrite <-(numeral_rev_fuel 32 64) by (change (Z.of_nat 32) with 32; lia). by apply write_temp_ok.
Qed.

(** ** Formats of [snprintf]

    A format is a sequence of characters and conversions. [spell] writes it down,
    [text] is what it prints and [args] the arguments it takes. *)

Inductive conv :=
| CStr (p : Z) (s : list Z)
| CInt (i : bool) (v : Z)
| CUns (v : Z)
| CHex (upper : bool) (v : Z)
| CChr (v : Z)
| COther (c : Z).

Inductive item :=
| Lit (c : Z)
| Conv (zero : bool) (d : conv).

Definition conv_char (d : conv) : Z :=
  match d with
  | CStr _ _ => 115
  | CInt i _ => if i then 105 else 100
  | CUns _ => 117
  | CHex upper _ => if upper then 88 else 120
  | CChr _ => 99
  | COther c => c
  end.

Definition conv_args (d : conv) : list Z :=
  match d with
  | CStr p _ => [p]
  | CInt _ v | CUns v | CHex _ v | CChr v => [v]
  | COther _ => []
  end.

Definition int_text (v : Z) : list Z := if v <? 0 then 45 :: numeral (- v) 10 false else numeral v 10 false.

Definition conv_text (d : conv) : list Z :=
  match d with
  | CStr _ s => s
  | CInt _ v => int_text (s32 v)
  | CUns v => numeral (u32 v) 10 false
  | CHex upper v => numeral (u32 v) 16 upper
  | CChr v => [v]
  | COther c => [c]
  end.

Definition item_spell (x : item) : list Z :=
  match x with
  | Lit c => [c]
  | Conv zero d => 37 :: (if zero then [48] else []) ++ [conv_char d]
  end.
Definition item_text (x : item) : list Z := match x with Lit c => [c] | Conv _ d => conv_text d end.
Definition item_args (x : item) : list Z := match x with Lit _ => [] | Conv _ d => conv_args d end.

Definition spell (l : list item) : list Z := l ≫= item_spell.
Definition text (l : list item) : list Z := l ≫= item_text.
Definition args (l : list item) : list Z := l ≫= item_args.

Definition is_conv (c : Z) : bool := (c =? 115) || is_int_conv c.

(** A string argument lies beside the buffer; a null one is the literal. The least
    [int] has no negation. *)
Definition item_ok (null_text str sz : Z) (m : mem) (x : item) : Prop :=
  match x with
  | Lit c => c ≠ 37
  | Conv _ (CStr p s) =>
      let q := if p =? 0 then null_text else p in cstr m q s ∧ disjoint str sz q (Z.of_nat (length s) + 1)
  | Conv _ (CInt _ v) => s32 v ≠ - 2 ^ 31
  | Conv zero (COther c) => is_conv c = false ∧ (zero = false → c ≠ 48)
  | _ => True
  end.

Definition plain (x : item) : Prop := match x with Conv true _ => False | _ => True end.

Lemma int_conv_chars c : is_conv c = false → c ≠ 115 ∧ c ≠ 100 ∧ c ≠ 105 ∧ c ≠ 117 ∧ c ≠ 120 ∧ c ≠ 88 ∧ c ≠ 99.
Proof. unfold is_conv, is_int_conv. intros H. bool_props. by split_and!. Qed.

Section Loops.
Context (null_text str sz : Z) (m0 : mem).
Context (Hbuf : mapped m0 str sz).

Lemma format_str_ok p s t rest m :
  written str sz m0 t m → item_ok null_text str sz m0 (Conv false (CStr p s)) →
  ∃ m', format_one null_text str sz 115 (Z.of_nat (length t)) (p :: rest) m = Ok (Z.of_nat (length (t ++ s)), rest, m') ∧
    written str sz m0 (t ++ s) m'.
Proof.
  intros Hw [Hc Hd]. unfold format_one. cbn [Z.eqb Pos.eqb va_next obind]. set (q := if p =? 0 then null_text else p) in *.
  pose proof (written_cstr _ _ _ _ _ _ _ Hw Hd Hc) as Hc'. rewrite (strlen_ok _ _ _ Hc'). cbn [obind].
  destruct (copy_str_ok str sz m0 Hbuf (S (size m)) s q t m Hw Hc Hd) as (l1 & l2 & m' & -> & -> & Hw' & He);
    [pose proof (cstr_fuel _ _ _ Hc'); lia|]. cbn [obind].
  assert (cstr m' (q + Z.of_nat (length l1)) l2) as Hc2.
  { pose proof (written_cstr _ _ _ _ _ _ _ Hw' Hd Hc) as [Hb Hf]. rewrite <-app_assoc in Hb.
    apply bytes_at_app in Hb as [_ Hb]. apply Forall_app in Hf as [_ Hf]. by split. }
  rewrite (strlen_ok _ _ _ Hc2). cbn [obind]. exists m'. rewrite app_assoc. split.
  - rewrite (length_app (t ++ l1)). repeat f_equal. lia.
  - destruct He as [->|He]; [by rewrite app_nil_r|by apply written_over].
Qed.

Lemma format_int_ok i v t rest m :
  written str sz m0 t m → s32 v ≠ - 2 ^ 31 →
  ∃ m', format_one null_text str sz (conv_char (CInt i v)) (Z.of_nat (length t)) (v :: rest) m =
      Ok (Z.of_nat (length (t ++ int_text (s32 v))), rest, m') ∧
    written str sz m0 (t ++ int_text (s32 v)) m'.
Proof.
  intros Hw Hv. pose proof (s32_range v) as Hr. unfold format_one.
  replace (conv_char (CInt i v) =? 115) with false by (by destruct i).
  replace ((conv_char (CInt i v) =? 100) || (conv_char (CInt i v) =? 105)) with true by (by destruct i).
  cbn [va_next obind]. unfold int_text. destruct (Z.ltb_spec (s32 v) 0) as [Hn|Hn].
  - destruct (put_char_ok str sz m0 Hbuf t 45 m Hw) as (m1 & -> & Hw1). cbn [obind]. rewrite s32_small by lia.
    destruct (write_number_ok str sz m0 (- s32 v) 10 false (t ++ [45]) m1 Hbuf Hw1) as (m2 & -> & Hw2); [lia..|].
    cbn [obind]. rewrite <-app_assoc in *. eauto.
  - cbn [obind]. destruct (write_number_ok str sz m0 (s32 v) 10 false t m Hbuf Hw) as (m2 & -> & Hw2); [lia..|].
    cbn [obind]. eauto.
Qed.

Lemma format_one_ok zero d rest t m :
  written str sz m0 t m → item_ok null_text str sz m0 (Conv zero d) →
  ∃ m', format_one null_text str sz (conv_char d) (Z.of_nat (length t)) (conv_args d ++ rest) m =
      Ok (Z.of_nat (length (t ++ conv_text d)), rest, m') ∧
    written str sz m0 (t ++ conv_text d) m'.
Proof.
  intros Hw Hok. destruct d as [p s|i v|v|upper v|v|c]; cbn [conv_args conv_text app].
  - by apply format_str_ok.
  - by apply format_int_ok.
  - unfold format_one. cbn [conv_char Z.eqb Pos.eqb orb va_next obind]. pose proof (u32_range v).
    destruct (write_number_ok str sz m0 (u32 v) 10 false t m Hbuf Hw) as (m2 & -> & Hw2); [lia..|]. cbn [obind]. eauto.
  - unfold format_one. pose proof (u32_range v).
    destruct (write_number_ok str sz m0 (u32 v) 16 upper t m Hbuf Hw) as (m2 & E & Hw2); [lia..|].
    destruct upper; cbn [conv_char Z.eqb Pos.eqb orb va_next obind]; rewrite E; cbn [obind]; eauto.
  - unfold format_one. cbn [conv_char Z.eqb Pos.eqb orb va_next obind].
    destruct (put_char_ok str sz m0 Hbuf t v m Hw) as (m2 & -> & Hw2). cbn [obind]. eauto.
  - destruct Hok as [Hc _]. apply int_conv_chars in Hc as (?&?&?&?&?&?&?). unfold format_one. cbn [conv_char].
    do 7 (rewrite (proj2 (Z.eqb_neq c _)) by done). cbn [orb].
    destruct (put_char_ok str sz m0 Hbuf t c m Hw) as (m2 & -> & Hw2). cbn [obind]. eauto.
Qed.

Lemma conv_char_48 zero d : item_ok null_text str sz m0 (Conv zero d) → zero = false → conv_char d ≠ 48.
Proof. destruct d as [| [] | | [] | |]; cbn; try done. by intros [_ ?]. Qed.

(** The first loop prints a prefix of the format, all of it unless the buffer is full. *)
Lemma format_loop_ok fuel l fmt t m rest :
  written str sz m0 t m → cstr m0 fmt (spell l) → disjoint str sz fmt (Z.of_nat (length (spell l)) + 1) →
  Forall (item_ok null_text str sz m0) l → (length l < fuel)%nat →
  ∃ l1 l2 m', l = l1 ++ l2 ∧
    format_loop null_text fuel str sz fmt (Z.of_nat (length t)) (args l ++ rest) m =
      Ok (fmt + Z.of_nat (length (spell l1)), Z.of_nat (length (t ++ text l1)), args l2 ++ rest, m') ∧
    written str sz m0 (t ++ text l1) m' ∧ (l2 = [] ∨ sz ≤ Z.of_nat (length (t ++ text l1))).
Proof.
  revert fuel fmt t m. induction l as [|x l IH]; intros [|fuel] fmt t m Hw Hc Hd Hok Hf; [cbn in Hf; lia| |cbn in Hf; lia|].
  all: pose proof (written_cstr _ _ _ _ _ _ _ Hw Hd Hc) as Hc'; cbn [format_loop].
  { apply cstr_nil in Hc'. rewrite (load8_ok _ _ _ Hc'). cbn. exists [], [], m.
    cbn. rewrite app_nil_r, Z.add_0_r. by auto. }
  apply Forall_cons in Hok as [Hx Hok]. cbn [length] in Hf. change (spell (x :: l)) with (item_spell x ++ spell l) in *.
  assert (∃ c, head (item_spell x) = Some c ∧ m !! fmt = Some c ∧ 0 < c < 256) as (c & Ec & Hb & Hr).
  { destruct x as [c|zero d]; cbn [item_spell app] in Hc'; apply cstr_cons in Hc' as (? & ? & _); cbn; eauto. }
  rewrite (load8_ok _ _ _ Hb). cbn [obind]. rewrite (proj2 (Z.eqb_neq c 0)) by lia. cbn [negb andb].
  destruct (Z.ltb_spec (Z.of_nat (length t)) sz) as [Hl|Hl].
  2:{ exists [], (x :: l), m. cbn. rewrite app_nil_r, Z.add_0_r. by auto. }
  (* the step: [m1] after the item, the format moved on by its spelling *)
  assert (∀ m1 k, written str sz m0 (t ++ item_text x) m1 → k = Z.of_nat (length (item_spell x)) →
    ∃ l1 l2 m', x :: l = l1 ++ l2 ∧
    format_loop null_text fuel str sz (fmt + k) (Z.of_nat (length (t ++ item_text x))) (args l ++ rest) m1 =
      Ok (fmt + Z.of_nat (length (spell l1)), Z.of_nat (length (t ++ text l1)), args l2 ++ rest, m') ∧
    written str sz m0 (t ++ text l1) m' ∧ (l2 = [] ∨ sz ≤ Z.of_nat (length (t ++ text l1)))) as Hstep.
  { intros m1 k Hw1 ->. rewrite length_app in Hd. destruct (IH fuel (fmt + Z.of_nat (length (item_spell x))) (t ++ item_text x) m1 Hw1)
      as (l1 & l2 & m' & -> & E & Hw2 & He); [|unfold disjoint in *; lia|done|lia|].
    - destruct Hc as [Hb0 Hf0]. rewrite <-app_assoc in Hb0. apply bytes_at_app in Hb0 as [_ Hb0].
      apply Forall_app in Hf0 as [_ Hf0]. by split.
    - exists (x :: l1), l2, m'. change (spell (x :: l1)) with (item_spell x ++ spell l1).
      change (text (x :: l1)) with (item_text x ++ text l1). rewrite app_assoc. split_and!; [done| |done|done].
      by rewrite E, (length_app (item_spell x)), Nat2Z.inj_add, Z.add_assoc. }
  destruct x as [c'|zero d]; cbn [item_spell head app] in Ec; injection Ec as <-.
  - rewrite (proj2 (Z.eqb_neq c' 37)) by done. cbn [negb]. destruct (written_put str sz m0 Hbuf t c' m Hw Hl) as (m1 & -> & Hw1).
    cbn [obind]. change (args (Lit c' :: l)) with (args l).
    replace (Z.of_nat (length t) + 1) with (Z.of_nat (length (t ++ item_text (Lit c')))) by (rewrite length_app; cbn; lia).
    by apply Hstep.
  - cbn [negb Z.eqb Pos.eqb]. change (args (Conv zero d :: l)) with (conv_args d ++ args l). rewrite <-app_assoc.
    destruct (format_one_ok zero d (args l ++ rest) t m Hw Hx) as (m1 & E & Hw1). cbn [item_spell] in Hc'.
    apply cstr_cons in Hc' as (_ & _ & Hc'). destruct zero; cbn [app] in Hc'; apply cstr_cons in Hc' as (H1 & _ & Hc').
    + apply cstr_cons in Hc' as (H2 & _). rewrite (load8_ok _ _ _ H1). cbn [obind Z.eqb Pos.eqb]. rewrite (load8_ok _ _ _ H2).
      cbn [obind]. rewrite E. cbn [obind]. rewrite <-!Z.add_assoc. by apply Hstep.
    + rewrite (load8_ok _ _ _ H1). cbn [obind]. rewrite (proj2 (Z.eqb_neq _ 48)) by (eapply conv_char_48; done).
      rewrite (load8_ok _ _ _ H1). cbn [obind]. rewrite E. cbn [obind]. rewrite <-!Z.add_assoc. by apply Hstep.
Qed.

Lemma item_spell_length x : (0 < length (item_spell x))%nat.
Proof. destruct x; cbn; lia. Qed.

Lemma spell_length l : (length l ≤ length (spell l))%nat.
Proof.
  induction l as [|x l IH]; [done|]. change (spell (x :: l)) with (item_spell x ++ spell l). rewrite length_app. cbn.
  pose proof (item_spell_length x). lia.
Qed.

(** The second loop ends; it adds nothing for an empty rest. *)
Lemma count_rest_ok fuel l fmt count m rest :
  cstr m fmt (spell l) → Forall plain l → (length l < fuel)%nat →
  (∀ zero p s, Conv zero (CStr p s) ∈ l → p ≠ 0 → cstr m p s) →
  Forall (item_ok null_text str sz m0) l →
  ∃ r, count_rest fuel fmt count (args l ++ rest) m = Ok r ∧ (l = [] → r = count).
Proof.
  revert fuel fmt count. induction l as [|x l IH]; intros [|fuel] fmt count Hc Hp Hf Hs Hok; [cbn in Hf; lia| |cbn in Hf; lia|].
  all: cbn [count_rest]. { apply cstr_nil in Hc. rewrite (load8_ok _ _ _ Hc). by exists count. }
  apply Forall_cons in Hp as [Hpx Hp], Hok as [Hx Hok]. cbn [length] in Hf.
  change (spell (x :: l)) with (item_spell x ++ spell l) in Hc.
  assert (∀ fmt' count', cstr m fmt' (spell l) → ∃ r, count_rest fuel fmt' count' (args l ++ rest) m = Ok r ∧ (x :: l = [] → r = count)) as Hstep.
  { intros fmt' count' Hc'. destruct (IH fuel fmt' count' Hc' Hp) as (r & E & _); [lia| |done|by exists r].
    intros zero p s Hin. apply (Hs zero p s). by right. }
  destruct x as [c|zero d]; cbn [item_spell] in Hc.
  { apply cstr_cons in Hc as (Hb & Hr & Hc). rewrite (load8_ok _ _ _ Hb). cbn [obind].
    rewrite (proj2 (Z.eqb_neq c 0)), (proj2 (Z.eqb_neq c 37)) by (done || lia). by apply Hstep. }
  destruct zero; [done|]. cbn [app] in Hc. apply cstr_cons in Hc as (Hb & Hr & Hc). apply cstr_cons in Hc as (Hb2 & Hr2 & Hc).
  rewrite (load8_ok _ _ _ Hb). cbn [obind Z.eqb Pos.eqb]. rewrite (load8_ok _ _ _ Hb2). cbn [obind].
  change (args (Conv false d :: l)) with (conv_args d ++ args l). rewrite <-app_assoc.
  destruct d as [p s|[] v|v|[] v|v|c]; cbn [conv_char conv_args app Z.eqb Pos.eqb va_next obind is_int_conv orb]; try by apply Hstep.
  - destruct (Z.eqb_spec p 0) as [->|Hne]; cbn [obind]; [by apply Hstep|].
    rewrite (strlen_ok p s m) by (apply (Hs false p s); [by left|done]). cbn [obind]. by apply Hstep.
  - destruct Hx as [Hn _]. unfold is_conv in Hn. apply orb_false_elim in Hn as [-> ->].
    destruct (c =? 37); by apply Hstep.
Qed.
End Loops.

Lemma disjoint_shrink str n n' p k : n' ≤ n → disjoint str n p k → disjoint str n' p k.
Proof. unfold disjoint. lia. Qed.

Lemma item_ok_shrink null_text str n n' m x : n' ≤ n → item_ok null_text str n m x → item_ok null_text str n' m x.
Proof.
  intros Hn. destruct x as [c|zero []]; cbn; try done. intros [? Hd]. split; [done|by eapply disjoint_shrink].
Qed.

(** The terminator goes after the text, or into the last byte of the buffer. *)
Lemma terminate str n m0 t m k :
  0 < n → mapped m0 str n → written str (n - 1) m0 t m → k = Z.min (Z.of_nat (length t)) (n - 1) →
  ∃ m', store8 (str + k) 0 m = Ok m' ∧
    (∀ i c, t !! i = Some c → Z.of_nat i < n - 1 → m' !! (str + Z.of_nat i) = Some (u8 c)) ∧
    m' !! (str + k) = Some 0 ∧ (∀ a, ~ (str ≤ a < str + n) → m' !! a = m0 !! a) ∧ same_dom m0 m' ∧ mem_ok m'.
Proof.
  intros Hn Hb (Hi & Ho & Hd & Hok) Hk. destruct (store8_ok (str + k) 0 m) as (m' & E & -> & Hd' & Hok');
    [apply Hd, Hb; lia|done|]. eexists. split; [exact E|]. split_and!; [..|by eapply same_dom_trans|done].
  - intros i c Hc Hs. rewrite lookup_insert_ne; [by apply Hi|]. apply lookup_lt_Some in Hc. lia.
  - by rewrite lookup_insert_eq.
  - intros a Ha. rewrite lookup_insert_ne by lia. apply Ho. lia.
Qed.

(** The arguments may be more than the format takes. *)
Lemma snprintf_ok null_text str n fmt l m rest :
  mem_ok m → str ≠ 0 → 1 < n → mapped m str n →
  cstr m fmt (spell l) → disjoint str n fmt (Z.of_nat (length (spell l)) + 1) →
  Forall (item_ok null_text str n m) l →
  Forall plain l ∨ Z.of_nat (length (text l)) < n - 1 →
  ∃ r m', snprintf null_text str n fmt (args l ++ rest) m = Ok (r, m') ∧
    (∀ i c, text l !! i = Some c → Z.of_nat i < n - 1 → m' !! (str + Z.of_nat i) = Some (u8 c)) ∧
    m' !! (str + Z.min (Z.of_nat (length (text l))) (n - 1)) = Some 0 ∧
    (∀ a, ~ (str ≤ a < str + n) → m' !! a = m !! a) ∧ same_dom m m' ∧ mem_ok m' ∧
    (Z.of_nat (length (text l)) < Z.min (n - 1) (2 ^ 31) → r = Z.of_nat (length (text l))).
Proof.
  intros Hm Hs Hn Hb Hc Hd Hok Hp. unfold snprintf, vsnprintf_internal, NULL.
  rewrite (proj2 (Z.eqb_neq n 0)), (proj2 (Z.eqb_neq str 0)) by lia. cbn [orb].
  assert (mapped m str (n - 1)) as Hb' by (intros i Hi; apply Hb; lia). pose proof (spell_length l) as Hsl.
  destruct (format_loop_ok null_text str (n - 1) m Hb' (S (size m)) l fmt [] m rest) as (l1 & l2 & m1 & -> & E & Hw & He);
    [by apply written_nil|done|by eapply disjoint_shrink; [|done]; lia| |pose proof (cstr_fuel _ _ _ Hc); lia|].
  { eapply Forall_impl; [exact Hok|]. intros x. apply item_ok_shrink. lia. }
  cbn [app length] in E, Hw, He. change (Z.of_nat 0) with 0 in E. rewrite E. cbn [obind]. clear E.
  rewrite (proj2 (Z.ltb_lt 0 (n - 1))) by lia.
  assert (text (l1 ++ l2) = text l1 ++ text l2) as Et by apply bind_app.
  assert (spell (l1 ++ l2) = spell l1 ++ spell l2) as Es by apply bind_app. rewrite Et, Es in *.
  destruct (terminate str n m (text l1 ++ text l2) m1 (if Z.of_nat (length (text l1)) <? n - 1 then Z.of_nat (length (text l1)) else n - 1))
    as (m2 & -> & Hi & H0 & Ho & Hsd & Hmo); [lia|done| |rewrite length_app| ].
  { destruct He as [->|He]; [by rewrite app_nil_r|by apply written_over]. }
  { destruct (Z.ltb_spec (Z.of_nat (length (text l1))) (n - 1)), He as [->|He]; cbn; lia. }
  cbn [obind].
  assert (∃ r, count_rest (S (size m2)) (fmt + Z.of_nat (length (spell l1))) (Z.of_nat (length (text l1))) (args l2 ++ rest) m2 = Ok r ∧
    (l2 = [] → r = Z.of_nat (length (text l1)))) as (r & -> & Hr).
  { apply Forall_app in Hok as [_ Hok]. rewrite length_app in Hd.
    assert (cstr m2 (fmt + Z.of_nat (length (spell l1))) (spell l2)) as Hc2.
    { destruct Hc as [Hb0 Hf0]. rewrite <-app_assoc in Hb0. apply bytes_at_app in Hb0 as [_ Hb0].
      apply Forall_app in Hf0 as [_ Hf0]. apply (cstr_same m); [|by split]. intros a Ha. apply Ho. unfold disjoint in Hd. lia. }
    apply (count_rest_ok null_text str n m); [done| |pose proof (cstr_fuel _ _ _ Hc2); pose proof (spell_length l2); lia| |done].
    - destruct He as [->|He]; [by apply Forall_nil|]. destruct Hp as [Hp|Hp]; [by apply Forall_app in Hp as [_ ?]|].
      rewrite length_app in Hp. lia.
    - intros zero p s Hin Hne. rewrite Forall_forall in Hok. specialize (Hok _ Hin). cbn in Hok.
      rewrite (proj2 (Z.eqb_neq p 0)) in Hok by done. destruct Hok as [Hcs Hds]. eapply cstr_same; [|exact Hcs].
      intros a Ha. apply Ho. unfold disjoint in Hds. lia. }
  cbn [obind]. exists (s32 r), m2. split; [done|]. split; [done|]. rewrite length_app in *. split_and!; [|done..|].
  - replace (Z.min _ _) with (if Z.of_nat (length (text l1)) <? n - 1 then Z.of_nat (length (text l1)) else n - 1); [done|].
    destruct (Z.ltb_spec (Z.of_nat (length (text l1))) (n - 1)), He as [->|He]; cbn; lia.
  - intros Hlt. destruct He as [->|He]; [|lia]. cbn in *. rewrite Hr, s32_small by (done || lia). lia.
Qed.

(** For a buffer of more than one byte and a format of texts and conversions whose strings
    lie beside the buffer, [snprintf] ends, writes the first [n - 1] bytes of what the
    format means and a terminator, and changes nothing outside the buffer. The result is
    the length of the text when the text fits. Without the [0] flag the text may be of any length. *)
Theorem snprintf_text null_text str n fmt l m rest :
  mem_ok m → str ≠ 0 → 1 < n → mapped m str n →
  cstr m fmt (spell l) → disjoint str n fmt (Z.of_nat (length (spell l)) + 1) →
  Forall (item_ok null_text str n m) l →
  Forall plain l ∨ Z.of_nat (length (text l)) < n - 1 →
  ∃ r m', snprintf null_text str n fmt (args l ++ rest) m = Ok (r, m') ∧
    (∀ i c, text l !! i = Some c → Z.of_nat i < n - 1 → m' !! (str + Z.of_nat i) = Some (u8 c)) ∧
    m' !! (str + Z.min (Z.of_nat (length (text l))) (n - 1)) = Some 0 ∧
    (∀ a, ~ (str ≤ a < str + n) → m' !! a = m !! a) ∧
    (Z.of_nat (length (text l)) < Z.min (n - 1) (2 ^ 31) → r = Z.of_nat (length (text l))).
Proof.
  intros Hm Hs Hn Hb Hc Hd Hok Hp.
  destruct (snprintf_ok null_text str n fmt l m rest Hm Hs Hn Hb Hc Hd Hok Hp) as (r & m' & E & Hi & H0 & Ho & _ & _ & Hr).
  exists r, m'. by split_and!.
Qed.

(** ** Formats of [vsnprintf] *)

(** The last [k] digits of [v]. *)
Fixpoint fixed_digits (k : nat) (base v : Z) : list Z :=
  match k with
  | O => []
  | S k => fixed_digits k base (v / base) ++ [digit_char (v mod base) false]
  end.

Lemma fixed_digits_length k base v : length (fixed_digits k base v) = k.
Proof. revert v. induction k as [|k IH]; intros v; cbn; [done|]. rewrite length_app, IH. cbn. lia. Qed.

Lemma fixed_digits_value k base v : 2 ≤ base ≤ 16 → numeral_value base (fixed_digits k base v) = v mod base ^ Z.of_nat k.
Proof.
  intros Hb. revert v. induction k as [|k IH]; intros v; cbn [fixed_digits]; [change (base ^ Z.of_nat 0) with 1; by rewrite Z.mod_1_r|].
  unfold numeral_value in *. rewrite fold_left_app. cbn [fold_left]. rewrite IH, digit_char_value by (pose proof (Z.mod_pos_bound v base); lia).
  rewrite Nat2Z.inj_succ, Z.pow_succ_r, Z.rem_mul_r by (try apply Z.pow_pos_nonneg; lia). lia.
Qed.

Lemma fixed_numeral fuel u base : fixed_digits (length (numeral_rev fuel u base false)) base u = rev (numeral_rev fuel u base false).
Proof.
  revert u. induction fuel as [|f IH]; intros u; cbn [numeral_rev]; [done|]. cbn [length fixed_digits rev]. f_equal.
  destruct (u / base =? 0); [done|apply IH].
Qed.

(** The digits by shift and mask are those by division. *)
Fixpoint hex_digits (k : nat) (num : Z) : list Z :=
  match k with
  | O => []
  | S k => digit_char (Z.land (Z.shiftr num (4 * Z.of_nat k)) 15) false :: hex_digits k num
  end.

Lemma hex_digits_step k num : hex_digits (S k) num = hex_digits k (num / 16) ++ [digit_char (num mod 16) false].
Proof.
  induction k as [|k IH]; [|].
  { cbn [hex_digits app]. change (4 * Z.of_nat 0) with 0. rewrite Z.shiftr_0_r. change 15 with (Z.ones 4). by rewrite Z.land_ones. }
  change (hex_digits (S (S k)) num) with (digit_char (Z.land (Z.shiftr num (4 * Z.of_nat (S k))) 15) false :: hex_digits (S k) num).
  rewrite IH. cbn [hex_digits app]. do 3 f_equal. rewrite !Z.shiftr_div_pow2 by lia. rewrite Z.div_div by lia.
  f_equal. change 16 with (2 ^ 4). rewrite <-Z.pow_add_r by lia. f_equal. lia.
Qed.

Lemma hex_fixed k num : hex_digits k num = fixed_digits k 16 num.
Proof. revert num. induction k as [|k IH]; intros num; [done|]. by rewrite hex_digits_step, IH. Qed.

Lemma count_digits_ok fuel nn d :
  0 ≤ nn < 10 ^ Z.of_nat fuel → (0 < fuel)%nat →
  count_digits fuel nn d = Ok (d - 1 + Z.of_nat (length (numeral_rev fuel nn 10 false))).
Proof.
  revert nn d. induction fuel as [|f IH]; intros nn d Hn Hf; [lia|]. cbn [count_digits numeral_rev].
  rewrite Nat2Z.inj_succ, Z.pow_succ_r in Hn by lia. rewrite Z.quot_div_nonneg by lia.
  assert (0 ≤ nn / 10 < 10 ^ Z.of_nat f) as Hn' by zdm.
  destruct (Z.eqb_spec (nn / 10) 0) as [E|E]; [cbn; f_equal; lia|].
  rewrite IH; [cbn [length]; f_equal; lia|done|].
  destruct f; [change (10 ^ Z.of_nat 0) with 1 in Hn'; lia|lia].
Qed.

Section Emit.
Context (out n : Z) (m0 : mem).
Context (Hbuf : mapped m0 out (n - 1)).

Lemma emit_ok t c m :
  written out (n - 1) m0 t m →
  ∃ m', emit out n c (Z.of_nat (length t)) m = Ok (Z.of_nat (length (t ++ [c])), m') ∧ written out (n - 1) m0 (t ++ [c]) m'.
Proof. rewrite emit_put_char. by apply put_char_ok. Qed.

Lemma emit_hex_ok k num t m :
  written out (n - 1) m0 t m →
  ∃ m', emit_hex k out n num (Z.of_nat (length t)) m = Ok (Z.of_nat (length (t ++ hex_digits k num)), m') ∧
    written out (n - 1) m0 (t ++ hex_digits k num) m'.
Proof.
  revert t m. induction k as [|k IH]; intros t m Hw; cbn [emit_hex hex_digits]; [rewrite app_nil_r; eauto|].
  set (d := Z.land (Z.shiftr num (4 * Z.of_nat k)) 15).
  replace (if d <? 10 then 48 + d else 97 + d - 10) with (digit_char d false)
    by (unfold digit_char; destruct (Z.leb_spec d 9), (Z.ltb_spec d 10); lia).
  destruct (emit_ok t (digit_char d false) m Hw) as (m1 & -> & Hw1). cbn [obind].
  destruct (IH _ m1 Hw1) as (m2 & -> & Hw2). rewrite <-app_assoc in *. eauto.
Qed.

Lemma emit_str_ok fuel l s t m :
  written out (n - 1) m0 t m → cstr m0 s l → disjoint out (n - 1) s (Z.of_nat (length l) + 1) → (length l < fuel)%nat →
  ∃ m', emit_str fuel out n s (Z.of_nat (length t)) m = Ok (Z.of_nat (length (t ++ l)), m') ∧ written out (n - 1) m0 (t ++ l) m'.
Proof.
  revert fuel s t m. induction l as [|c l IH]; intros [|fuel] s t m Hw Hc Hd Hf;
    pose proof (written_cstr _ _ _ _ _ _ _ Hw Hd Hc) as Hc'; cbn [length emit_str] in *; try lia.
  - apply cstr_nil in Hc'. rewrite (load8_ok _ _ _ Hc'). cbn [obind Z.eqb]. rewrite app_nil_r. eauto.
  - apply cstr_cons in Hc' as (Hb & Hr & _). apply cstr_cons in Hc as (_ & _ & Hc). rewrite (load8_ok _ _ _ Hb). cbn [obind].
    rewrite (proj2 (Z.eqb_neq c 0)) by lia. destruct (emit_ok t c m Hw) as (m1 & -> & Hw1). cbn [obind].
    destruct (IH fuel (s + 1) _ m1 Hw1 Hc) as (m2 & E & Hw2); [unfold disjoint in *; lia|lia|]. rewrite E.
    rewrite <-app_assoc in *. eauto.
Qed.

(** The digits are stored from the last one; the text before them stays. *)
Lemma emit_dec_ok k num t m :
  0 ≤ num → written out (n - 1) m0 t m →
  ∃ m', emit_dec k out n num (Z.of_nat (length t)) m = Ok m' ∧
    (∀ i c, fixed_digits k 10 num !! i = Some c → Z.of_nat (length t + i) < n - 1 →
       m' !! (out + Z.of_nat (length t + i)) = Some (u8 c)) ∧
    (∀ a, ~ (out + Z.of_nat (length t) ≤ a < out + Z.min (Z.of_nat (length t + k)) (n - 1)) → m' !! a = m !! a) ∧
    same_dom m0 m' ∧ mem_ok m'.
Proof.
  revert num m. induction k as [|k IH]; intros num m Hn Hw; cbn [emit_dec fixed_digits].
  { exists m. destruct Hw as (_ & _ & ? & ?). by split_and!. }
  rewrite Z.quot_div_nonneg, Z.rem_mod_nonneg by lia. pose proof (Z.mod_pos_bound num 10).
  replace (48 + num mod 10) with (digit_char (num mod 10) false) by (unfold digit_char; rewrite (proj2 (Z.leb_le _ 9)); lia).
  assert (∃ m1, (if Z.of_nat (length t) + Z.of_nat k + 1 <? n
      then store8 (out + (Z.of_nat (length t) + Z.of_nat k)) (digit_char (num mod 10) false) m else Ok m) = Ok m1 ∧
    written out (n - 1) m0 t m1 ∧
    (Z.of_nat (length t + k) < n - 1 → m1 !! (out + Z.of_nat (length t + k)) = Some (u8 (digit_char (num mod 10) false))) ∧
    (∀ a, (a = out + Z.of_nat (length t + k) → n - 1 ≤ Z.of_nat (length t + k)) → m1 !! a = m !! a)) as (m1 & -> & Hw1 & Hk & Ho1).
  { destruct (Z.ltb_spec (Z.of_nat (length t) + Z.of_nat k + 1) n) as [Hl|Hl]; [|exists m; split_and!; (done || lia)].
    destruct Hw as (Hi & Ho & Hd & Hok). destruct (store8_ok (out + (Z.of_nat (length t) + Z.of_nat k)) (digit_char (num mod 10) false) m)
      as (m1 & E & -> & Hd1 & Hok1); [apply Hd, Hbuf; lia|done|]. eexists. split; [exact E|]. split_and!.
    - split_and!; [|intros a Ha; rewrite lookup_insert_ne by lia; by apply Ho|by eapply same_dom_trans|done].
      intros i c Hc Hs. rewrite lookup_insert_ne; [by apply Hi|]. apply lookup_lt_Some in Hc. lia.
    - intros _. by rewrite Nat2Z.inj_add, lookup_insert_eq.
    - intros a Ha. apply lookup_insert_ne. intros E'. lia. }
  cbn [obind]. destruct (IH (num / 10) m1) as (m2 & -> & Hi2 & Ho2 & Hd2 & Hok2); [apply Z.div_pos; lia|done|].
  exists m2. split; [done|]. split_and!; [|intros a Ha; rewrite Ho2, Ho1 by lia; done|done|done].
  intros i c Hc Hs. apply lookup_app_Some in Hc as [Hc|[Hge Hc]]; [by apply Hi2|].
  rewrite fixed_digits_length in *. apply list_lookup_singleton_Some in Hc as [Hz <-].
  replace i with k in * by lia. rewrite Ho2 by lia. by apply Hk.
Qed.

Lemma emit_dec_written k num t m :
  0 ≤ num → written out (n - 1) m0 t m →
  ∃ m', emit_dec k out n num (Z.of_nat (length t)) m = Ok m' ∧ written out (n - 1) m0 (t ++ fixed_digits k 10 num) m'.
Proof.
  intros Hn Hw. destruct (emit_dec_ok k num t m Hn Hw) as (m' & -> & Hi & Ho & Hd & Hok). exists m'. split; [done|].
  destruct Hw as (Hi0 & Ho0 & _). split_and!; [| |done|done].
  - intros i c Hc Hs. apply lookup_app_Some in Hc as [Hc|[Hge Hc]].
    + rewrite Ho; [by apply Hi0|]. apply lookup_lt_Some in Hc. lia.
    + replace i with (length t + (i - length t))%nat by lia. apply Hi; [done|lia].
  - intros a Ha. rewrite Ho by lia. by apply Ho0.
Qed.

Lemma vsnprintf_dec_ok (lng : bool) v t rest m :
  written out (n - 1) m0 t m → (if lng then s64 v else s32 v) ≠ - 2 ^ 63 →
  let t' := t ++ int_text (if lng then s64 v else s32 v) in
  ∃ m', vsnprintf_dec out n lng (Z.of_nat (length t)) (v :: rest) m = Ok (Vstate false false (Z.of_nat (length t')) rest m') ∧
    written out (n - 1) m0 t' m'.
Proof.
  intros Hw Hv. unfold vsnprintf_dec, va_num64. cbn [va_next obind]. set (num := if lng then s64 v else s32 v) in *.
  assert (- 2 ^ 63 < num < 2 ^ 63) as Hr by (unfold num in *; destruct lng; [pose proof (s64_range v)|pose proof (s32_range v)]; lia).
  assert (∀ u t1 (m1 : mem), 0 ≤ u < 2 ^ 63 → written out (n - 1) m0 t1 m1 →
    ∃ m' : mem, (let! digits := count_digits 20 u 1 in
           let! m := emit_dec (Z.to_nat digits) out n u (Z.of_nat (length t1)) m1 in
           Ok (Vstate false false (Z.of_nat (length t1) + digits) rest m)) =
        Ok (Vstate false false (Z.of_nat (length (t1 ++ numeral u 10 false))) rest m') ∧
      written out (n - 1) m0 (t1 ++ numeral u 10 false) m') as Hnum.
  { intros u t1 m1 Hu Hw1. assert (0 ≤ u < 10 ^ Z.of_nat 20) as Hu' by (change (10 ^ Z.of_nat 20) with 100000000000000000000; lia).
    rewrite count_digits_ok by (done || lia). cbn [obind]. unfold numeral. rewrite <-(numeral_rev_fuel 20 64) by (done || lia).
    rewrite <-fixed_numeral. set (k := length (numeral_rev 20 u 10 false)).
    replace (1 - 1 + Z.of_nat k) with (Z.of_nat k) by lia. rewrite Nat2Z.id.
    destruct (emit_dec_written k u t1 m1) as (m' & -> & Hw'); [lia|done|]. cbn [obind].
    exists m'. split; [|done]. rewrite length_app, fixed_digits_length, Nat2Z.inj_add. done. }
  unfold int_text. destruct (Z.ltb_spec num 0) as [Hn|Hn].
  - destruct (emit_ok t 45 m Hw) as (m1 & -> & Hw1). cbn [obind].
    replace (s64 (- num)) with (- num) by (unfold s64; rewrite Z.mod_small; lia).
    destruct (Hnum (- num) _ m1 ltac:(lia) Hw1) as (m' & E & Hw'). rewrite E. rewrite <-app_assoc in *. eauto.
  - cbn [obind]. apply Hnum; [lia|done].
Qed.
End Emit.

Inductive vitem :=
| VLit (c : Z)
| VDec (long : bool) (v : Z)
| VHex (long : bool) (v : Z)
| VPtr (v : Z)
| VStr (p : Z) (s : list Z)
| VChr (v : Z).

Definition l_text (long : bool) : list Z := if long then [108] else [].

Definition vitem_spell (x : vitem) : list Z :=
  match x with
  | VLit c => [c]
  | VDec long _ => 37 :: l_text long ++ [100]
  | VHex long _ => 37 :: l_text long ++ [120]
  | VPtr _ => [37; 112]
  | VStr _ _ => [37; 115]
  | VChr _ => [37; 99]
  end.

Definition vitem_args (x : vitem) : list Z :=
  match x with
  | VLit _ => []
  | VDec _ v | VHex _ v | VPtr v | VChr v => [v]
  | VStr p _ => [p]
  end.

Definition vitem_text (x : vitem) : list Z :=
  match x with
  | VLit c => [c]
  | VDec long v => int_text (if long then s64 v else s32 v)
  | VHex long v => if long then fixed_digits 16 16 (s64 v) else fixed_digits 8 16 (s32 v)
  | VPtr v => [48; 120] ++ fixed_digits 16 16 (s64 v)
  | VStr _ s => s
  | VChr v => [v]
  end.

Definition vspell (l : list vitem) : list Z := l ≫= vitem_spell.
Definition vtext (l : list vitem) : list Z := l ≫= vitem_text.
Definition vargs (l : list vitem) : list Z := l ≫= vitem_args.

Definition vitem_ok (out n : Z) (m : mem) (x : vitem) : Prop :=
  match x with
  | VLit c => c ≠ 37
  | VDec long v => (if long then s64 v else s32 v) ≠ - 2 ^ 63
  | VStr p s => cstr m p s ∧ disjoint out n p (Z.of_nat (length s) + 1)
  | _ => True
  end.

(** [%c] takes its argument only while there is room. *)
Definition no_char (x : vitem) : Prop := match x with VChr _ => False | _ => True end.

Section Vloop.
Context (out n : Z) (m0 : mem).
Context (Hbuf : mapped m0 out (n - 1)).

Lemma vsnprintf_hex_ok (long : bool) v t rest m :
  written out (n - 1) m0 t m →
  let t' := t ++ vitem_text (VHex long v) in
  ∃ m', vsnprintf_hex out n long (Z.of_nat (length t)) (v :: rest) m = Ok (Vstate false false (Z.of_nat (length t')) rest m') ∧
    written out (n - 1) m0 t' m'.
Proof.
  intros Hw. unfold vsnprintf_hex, va_num64. cbn [va_next obind vitem_text].
  destruct long; (edestruct (emit_hex_ok out n m0 Hbuf) as (m' & E & Hw'); [exact Hw|]; rewrite E; cbn [obind];
    rewrite hex_fixed in *; by eauto).
Qed.

(** One step of the loop. *)
Lemma vloop_step fuel s c st st' :
  vmem st !! s = Some c → 0 < c → vsnprintf_step out n c st = Ok st' →
  vsnprintf_loop (S fuel) out n s st = vsnprintf_loop fuel out n (s + 1) st'.
Proof.
  intros Hc Hp E. cbn [vsnprintf_loop]. rewrite (load8_ok _ _ _ Hc). cbn [obind].
  rewrite (proj2 (Z.eqb_neq c 0)) by lia. by rewrite E.
Qed.

(** A conversion: [%], perhaps [l], and its character. *)
Lemma vloop_conv fuel s (long : bool) c p vl m st' :
  bytes_at m s (37 :: l_text long ++ [c]) → 0 < c → vsnprintf_step out n c (Vstate true long p vl m) = Ok st' →
  let k := length (37 :: l_text long ++ [c]) in
  vsnprintf_loop (k + fuel) out n s (Vstate false false p vl m) = vsnprintf_loop fuel out n (s + Z.of_nat k) st'.
Proof.
  intros [H1 Hb] Hp E k. unfold k; cbn [length Nat.add].
  rewrite (vloop_step _ s 37 (Vstate false false p vl m) (Vstate true false p vl m)) by done.
  destruct long; cbn [l_text app bytes_at] in Hb; destruct Hb as [H2 Hb]; cbn [l_text app length Nat.add].
  - rewrite (vloop_step _ (s + 1) 108 (Vstate true false p vl m) (Vstate true true p vl m)) by done. destruct Hb as [H3 _].
    rewrite (vloop_step _ (s + 1 + 1) c (Vstate true true p vl m) st' H3 Hp E). f_equal; lia.
  - rewrite (vloop_step _ (s + 1) c (Vstate true false p vl m) st' H2 Hp E). f_equal; lia.
Qed.

Lemma vconv_ok fuel s x t rest m :
  written out (n - 1) m0 t m → vitem_ok out (n - 1) m0 x →
  no_char x ∨ Z.of_nat (length t) < n - 1 →
  bytes_at m s (vitem_spell x) → (∀ c, x = VLit c → 0 < c) →
  ∃ m', vsnprintf_loop (length (vitem_spell x) + fuel) out n s (Vstate false false (Z.of_nat (length t)) (vitem_args x ++ rest) m) =
      vsnprintf_loop fuel out n (s + Z.of_nat (length (vitem_spell x)))
        (Vstate false false (Z.of_nat (length (t ++ vitem_text x))) rest m') ∧
    written out (n - 1) m0 (t ++ vitem_text x) m'.
Proof.
  intros Hw Hok Hch Hb Hlit. destruct x as [c|long v|long v|v|p l|v]; cbn [vitem_args app].
  - destruct (emit_ok out n m0 Hbuf t c m Hw) as (m' & E & Hw'). exists m'. split; [|done].
    apply (vloop_step _ _ c); [apply Hb|by eapply Hlit|]. cbn. rewrite (proj2 (Z.eqb_neq c 37)) by done. by rewrite E.
  - destruct (vsnprintf_dec_ok out n m0 Hbuf long v t rest m Hw Hok) as (m' & E & Hw'). exists m'. split; [|done].
    by apply vloop_conv.
  - destruct (vsnprintf_hex_ok long v t rest m Hw) as (m' & E & Hw'). exists m'. split; [|done]. by apply vloop_conv.
  - destruct (emit_ok out n m0 Hbuf t 48 m Hw) as (m1 & E1 & Hw1).
    destruct (emit_ok out n m0 Hbuf _ 120 m1 Hw1) as (m2 & E2 & Hw2).
    destruct (vsnprintf_hex_ok true v _ rest m2 Hw2) as (m' & E & Hw'). rewrite <-!app_assoc in *. exists m'. split; [|done].
    apply (vloop_conv _ _ false 112); [done..|]. cbn [vsnprintf_step Z.eqb Pos.eqb]. rewrite E1. cbn [obind]. rewrite E2. exact E.
  - destruct Hok as [Hc Hd]. destruct (emit_str_ok out n m0 Hbuf (S (size m)) l p t m Hw Hc Hd) as (m' & E & Hw').
    { pose proof (cstr_fuel _ _ _ (written_cstr _ _ _ _ _ _ _ Hw Hd Hc)). lia. }
    exists m'. split; [|done]. apply (vloop_conv _ _ false 115); [done..|].
    cbn [vsnprintf_step Z.eqb Pos.eqb va_next obind]. by rewrite E.
  - destruct Hch as [[]|Hl]. destruct (written_put out (n - 1) m0 Hbuf t v m Hw Hl) as (m' & E & Hw'). exists m'. split; [|done].
    apply (vloop_conv _ _ false 99); [done..|]. cbn [vsnprintf_step Z.eqb Pos.eqb va_next obind].
    rewrite (proj2 (Z.ltb_lt _ n)) by lia. replace (Z.of_nat (length t) + 1 - 1) with (Z.of_nat (length t)) by lia. rewrite E.
    cbn [obind]. rewrite length_app. do 2 f_equal. cbn. lia.
Qed.

Lemma vloop_ok fuel l s t m :
  written out (n - 1) m0 t m → cstr m0 s (vspell l) → disjoint out (n - 1) s (Z.of_nat (length (vspell l)) + 1) →
  Forall (vitem_ok out (n - 1) m0) l → Forall no_char l ∨ Z.of_nat (length (t ++ vtext l)) ≤ n - 1 →
  (length (vspell l) < fuel)%nat →
  ∃ m', vsnprintf_loop fuel out n s (Vstate false false (Z.of_nat (length t)) (vargs l) m) =
      Ok (Vstate false false (Z.of_nat (length (t ++ vtext l))) [] m') ∧
    written out (n - 1) m0 (t ++ vtext l) m'.
Proof.
  revert fuel s t m. induction l as [|x l IH]; intros fuel s t m Hw Hc Hd Hok Hch Hf;
    pose proof (written_cstr _ _ _ _ _ _ _ Hw Hd Hc) as Hc'.
  { apply cstr_nil in Hc'. destruct fuel; [cbn in Hf; lia|]. cbn [vsnprintf_loop vmem]. rewrite (load8_ok _ _ _ Hc'). cbn. rewrite app_nil_r. eauto. }
  apply Forall_cons in Hok as [Hx Hok].
  change (vspell (x :: l)) with (vitem_spell x ++ vspell l) in *. change (vtext (x :: l)) with (vitem_text x ++ vtext l) in *.
  change (vargs (x :: l)) with (vitem_args x ++ vargs l). rewrite length_app in Hd, Hf.
  destruct (vconv_ok (fuel - length (vitem_spell x)) s x t (vargs l) m Hw Hx) as (m1 & E & Hw1).
  - destruct Hch as [Hch|Hch]; [left; by apply Forall_cons in Hch as [? _]|]. destruct x; try (by left). right.
    rewrite !length_app in Hch. cbn in Hch. lia.
  - destruct Hc' as [Hb _]. rewrite <-app_assoc in Hb. by apply bytes_at_app in Hb as [? _].
  - intros c ->. destruct Hc' as [_ Hfa]. apply Forall_cons in Hfa as [? _]. lia.
  - replace (length (vitem_spell x) + (fuel - length (vitem_spell x)))%nat with fuel in E by lia.
    rewrite E. rewrite app_assoc in *. apply IH; [done| |unfold disjoint in *; lia|done| |lia].
    + destruct Hc as [Hb0 Hf0]. rewrite <-app_assoc in Hb0. apply bytes_at_app in Hb0 as [_ Hb0].
      apply Forall_app in Hf0 as [_ Hf0]. by split.
    + destruct Hch as [Hch|Hch]; [left; by apply Forall_cons in Hch as [_ ?]|by right].
Qed.
End Vloop.

(** C31. On formats of characters other than [%] and of the conversions [%d], [%ld], [%x],
    [%lx], [%p], [%s] and [%c], [vsnprintf] is a bounded printer: it ends, returns the
    length of the whole text of the format, writes the first [n - 1] bytes of it and a
    terminator when the buffer is not empty, and changes nothing outside the buffer. Excluded
    are [%c] in a text that is cut, whose argument is then not taken ([vsnprintf_cut_char]),
    [%%] and conversions it does not know ([vsnprintf_percent]) and the least [int64]
    ([vsnprintf_least]). *)
Theorem vsnprintf_text out n s l m :
  mem_ok m → 0 ≤ n → mapped m out n →
  cstr m s (vspell l) → disjoint out n s (Z.of_nat (length (vspell l)) + 1) →
  Forall (vitem_ok out n m) l → Forall no_char l ∨ Z.of_nat (length (vtext l)) < n →
  Z.of_nat (length (vtext l)) < 2 ^ 31 →
  ∃ m', vsnprintf out n s (vargs l) m = Ok (Z.of_nat (length (vtext l)), m') ∧
    (∀ i c, vtext l !! i = Some c → Z.of_nat i < n - 1 → m' !! (out + Z.of_nat i) = Some (u8 c)) ∧
    (0 < n → m' !! (out + Z.min (Z.of_nat (length (vtext l))) (n - 1)) = Some 0) ∧
    (∀ a, ~ (out ≤ a < out + n) → m' !! a = m !! a).
Proof.
  intros Hm Hn Hb Hc Hd Hok Hch Hlen. unfold vsnprintf. assert (mapped m out (n - 1)) as Hb' by (intros i Hi; apply Hb; lia).
  destruct (vloop_ok out n m Hb' (S (size m)) l s [] m) as (m1 & E & Hw);
    [by apply written_nil|done|by eapply disjoint_shrink; [|done]; lia| |cbn; destruct Hch; [by left|right; lia]|
     pose proof (cstr_fuel _ _ _ Hc); lia|].
  { eapply Forall_impl; [exact Hok|]. intros []; cbn; try done. intros [? Hdi]. split; [done|]. by eapply disjoint_shrink; [|done]; lia. }
  cbn [app length] in E, Hw. change (Z.of_nat 0) with 0 in E. rewrite E. cbn [obind pos vmem]. rewrite s32_small by lia.
  destruct (Z.eq_dec n 0) as [->|Hnz].
  - rewrite (proj2 (Z.ltb_ge _ 0)) by lia. cbn [Z.eqb negb obind]. exists m1. split; [done|]. destruct Hw as (_ & Ho & _).
    split; [lia|]. split; [lia|]. intros a Ha. apply Ho. lia.
  - rewrite (proj2 (Z.eqb_neq n 0)) by done. cbn [negb]. set (len := Z.of_nat (length (vtext l))) in *.
    destruct (terminate out n m (vtext l) m1 (Z.min len (n - 1))) as (m2 & E2 & Hi & H0 & Ho & _); [lia|done..|].
    exists m2. split; [|by auto]. destruct (Z.ltb_spec len n).
    + replace (Z.min len (n - 1)) with len in E2 by lia. by rewrite E2.
    + replace (Z.min len (n - 1)) with (n - 1) in E2 by lia. by rewrite E2.
Qed.

(** ** Examples *)

Fixpoint mem_bytes (p : Z) (l : list Z) : mem :=
  match l with
  | [] => ∅
  | b :: l => <[p := b]> (mem_bytes (p + 1) l)
  end.

(** A buffer of eight bytes at 100 and a format at 200. *)
Definition sample_mem (fmt : list Z) : mem := mem_bytes 100 (replicate 8 255) ∪ mem_bytes 200 (fmt ++ [0]).

Definition buffer (k : nat) (m : mem) : list (option Z) := (λ i, m !! (100 + Z.of_nat i)) <$> seq 0 k.

(** The literals of the examples: ["a%dz"], ["ab%d"], ["%02x"], ["%%d"], ["ab%c%d"] and
    ["%ld"]. *)
Definition fmt_int : list Z := [97; 37; 100; 122].
Definition fmt_tail : list Z := [97; 98; 37; 100].
Definition fmt_width : list Z := [37; 48; 50; 120].
Definition fmt_percent : list Z := [37; 37; 100].
Definition fmt_char : list Z := [97; 98; 37; 99; 37; 100].
Definition fmt_long : list Z := [37; 108; 100].

(** A buffer of one byte is left without a terminator. *)
Lemma snprintf_one_byte null_text str fmt args m r m' :
  snprintf null_text str 1 fmt args m = Ok (r, m') → m' = m.
Proof.
  unfold snprintf, vsnprintf_internal. destruct (_ || _); [by intros [= _ <-]|]. cbn [Z.eqb format_loop]. intros H. inv_ok. change (1 - 1) with 0 in *. rewrite andb_false_r in H0.
  injection H0 as <-. cbn [Z.ltb Z.compare obind] in H. by inv_ok.
Qed.

(** Cut before a number, [snprintf] counts one byte for the number: 3 instead of 5. *)
Lemma snprintf_short_count :
  match snprintf 0 100 2 200 [123] (sample_mem fmt_tail) with
  | Ok (r, m) => r = 3 ∧ buffer 2 m = [Some 97; Some 0]
  | _ => False
  end.
Proof. vm_compute. done. Qed.

(** A width is not part of a conversion: ["%02x"] prints ["2x"] and takes no argument. *)
Lemma snprintf_width :
  match snprintf 0 100 8 200 [] (sample_mem fmt_width) with
  | Ok (r, m) => r = 2 ∧ buffer 3 m = [Some 50; Some 120; Some 0]
  | _ => False
  end.
Proof. vm_compute. done. Qed.

(** In [vsnprintf] ["%%"] leaves the conversion open: ["%%d"] prints an argument. *)
Lemma vsnprintf_percent :
  match vsnprintf 100 8 200 [7] (sample_mem fmt_percent) with
  | Ok (r, m) => r = 1 ∧ buffer 2 m = [Some 55; Some 0]
  | _ => False
  end.
Proof. vm_compute. done. Qed.

(** Without room [%c] does not take its argument, which is left to the next conversion:
    ["ab%c%d"] of ['A'] and 7 counts 65 as the number, 5 bytes instead of 4. *)
Lemma vsnprintf_cut_char :
  match vsnprintf 100 2 200 [65; 7] (sample_mem fmt_char) with
  | Ok (r, m) => r = 5
  | _ => False
  end ∧ length (vtext [VLit 97; VLit 98; VChr 65; VDec false 7]) = 4%nat.
Proof. vm_compute. done. Qed.

(** The least [int64] has no negation; its digits are negative: after the sign comes
    the character [0 - 9]. *)
Lemma vsnprintf_least :
  match vsnprintf 100 8 200 [- 2 ^ 63] (sample_mem fmt_long) with
  | Ok (r, m) => buffer 3 m = [Some 45; Some 39; Some 46]
  | _ => False
  end.
Proof. vm_compute. done. Qed.

Lemma mem_bytes_ok p l : Forall (λ b, 0 ≤ b < 256) l → mem_ok (mem_bytes p l).
Proof.
  revert p. induction l as [|b l IH]; intros p Hl a c; cbn [mem_bytes]; [done|]. apply Forall_cons in Hl as [Hb Hl].
  intros [[_ <-]|[_ Hc]]%lookup_insert_Some; [done|by apply (IH (p + 1) Hl a)].
Qed.

Lemma mem_ok_union m1 m2 : mem_ok m1 → mem_ok m2 → mem_ok (m1 ∪ m2).
Proof. intros H1 H2 a b [Ha|[_ Ha]]%lookup_union_Some_raw; eauto. Qed.

Lemma format_mem_ok fmt : Forall (λ b, 0 ≤ b < 256) fmt → mem_ok (sample_mem fmt).
Proof.
  intros Hf. apply mem_ok_union; apply mem_bytes_ok; [by repeat constructor|].
  apply Forall_app. split; [done|]. by repeat constructor.
Qed.

Lemma sample_buffer fmt : mapped (sample_mem fmt) 100 8.
Proof.
  intros i Hi. assert (i = 0 ∨ i = 1 ∨ i = 2 ∨ i = 3 ∨ i = 4 ∨ i = 5 ∨ i = 6 ∨ i = 7) as H by lia.
  unfold sample_mem. apply lookup_union_is_Some. left. destruct_or! H; subst i; by eexists.
Qed.

Lemma snprintf_text_witness :
  ∃ r m', snprintf 0 100 4 200 [-5] (sample_mem fmt_int) = Ok (r, m') ∧ buffer 4 m' = [Some 97; Some 45; Some 53; Some 0].
Proof.
  destruct (snprintf_text 0 100 4 200 [Lit 97; Conv false (CInt false (-5)); Lit 122] (sample_mem fmt_int) [])
    as (r & m' & E & Hi & H0 & _).
  - by apply format_mem_ok; repeat constructor.
  - done.
  - lia.
  - intros i Hi. apply sample_buffer. lia.
  - split; [cbn; by split_and!|by repeat constructor].
  - left. cbn. lia.
  - repeat constructor; done.
  - left. by repeat constructor.
  - exists r, m'. split; [exact E|]. unfold buffer. cbn [seq fmap list_fmap].
    rewrite (Hi 0%nat 97 eq_refl), (Hi 1%nat 45 eq_refl), (Hi 2%nat 53 eq_refl) by lia. change (m' !! (100 + Z.of_nat 3) = Some 0) in H0. by rewrite H0.
Defined.

Lemma vsnprintf_text_witness :
  ∃ m', vsnprintf 100 3 200 [-5] (sample_mem fmt_int) = Ok (4, m') ∧ buffer 3 m' = [Some 97; Some 45; Some 0].
Proof.
  destruct (vsnprintf_text 100 3 200 [VLit 97; VDec false (-5); VLit 122] (sample_mem fmt_int)) as (m' & E & Hi & H0 & _).
  - by apply format_mem_ok; repeat constructor.
  - lia.
  - intros i Hi. apply sample_buffer. lia.
  - split; [cbn; by split_and!|by repeat constructor].
  - left. cbn. lia.
  - by repeat constructor.
  - left. by repeat constructor.
  - reflexivity.
  - exists m'. split; [exact E|]. unfold buffer. cbn [seq fmap list_fmap].
    rewrite (Hi 0%nat 97 eq_refl), (Hi 1%nat 45 eq_refl) by lia. specialize (H0 ltac:(lia)). change (m' !! (100 + Z.of_nat 2) = Some 0) in H0. by rewrite H0.
Defined.
