(* ===== verification/Device.v ===== *)
(** * Device nodes ([kernel/device/device.c])

    [create_device_nodes] walks the list of block devices of [Buffer], formats the name of
    each with [snprintf] and enters it in a directory with the path operations of
    [Pathwalk]. The two states share the kernel's allocator, whose state is the one of
    the block devices while no path operation runs. [name] is the address of the array on
    the stack, and the literals of the code lie in the same byte memory. The messages on the console
    are left out, with the branch whose two sides only print. *)

From stdpp Require Import base gmap list.
From S2P Require Import Prelude ListHead KString Vprint Hashtable Qstr Inode Dentry Mount Pathwalk Buffer Snprintf.
Local Open Scope Z_scope.
Local Open Scope kernel_scope.

Definition SCSI_DISK0_MAJOR : Z := 8.

(** ["ram%d"], ["sd%c%d"], ["blk%d_%d"] and ["/dev"]. *)
Definition fmt_ram : list Z := [114; 97; 109; 37; 100].
Definition fmt_sd : list Z := [115; 100; 37; 99; 37; 100].
Definition fmt_blk : list Z := [98; 108; 107; 37; 100; 95; 37; 100].
Definition slash_dev : list Z := [47; 100; 101; 118; 0].

(** The [n] bytes at [p]. *)
Fixpoint read_bytes (n : nat) (p : Z) (m : mem) : outcome (list Z) :=
  match n with
  | O => Ok []
  | S n =>
      let! b := load8 p m in
      let! l := read_bytes n (p + 1) m in
      Ok (b :: l)
  end.

Section Device.
Context {A : Type} {KM : KMalloc A} {W : Type} {SO : SuperOps W} {DO : DentryOps W} {NO : NodeOps A W} {D : Type}.
Context (block_device_list : Z).
Context (current_hash_algorithm euid uid gid cfs : Z).

(** Where the code's literals and the array [name] lie. *)
Context (ram_at sd_at blk_at dev_at null_text name : Z).

Record dsys := DSys {
  blk : @bvfs A D;
  tree : @mvfs A W;
  ram : mem;
}.

Definition set_ram (m : mem) (s : dsys) : dsys := DSys (blk s) (tree s) m.
Definition set_blk (v : @bvfs A D) (s : dsys) : dsys := DSys v (tree s) (ram s).

(** A path operation, on the allocator as the block devices left it. *)
Definition enter_tree (s : dsys) : @mvfs A W := set_dv (set_heap (heap (bhm (blk s))) (dv (tree s))) (tree s).
Definition leave_tree (v : @mvfs A W) (s : dsys) : dsys :=
  let h := bhm (blk s) in
  DSys (set_bhm (HMem (cells h) (statics h) (heap_of (dv v))) (blk s)) v (ram s).
Definition on_tree {R : Type} (f : @mvfs A W → outcome (R * @mvfs A W)) (s : dsys) : outcome (R * dsys) :=
  let! (r, v) := f (enter_tree s) in Ok (r, leave_tree v s).

(** The name of a device, formatted into the array. *)
Definition format_name (dev : Z) (m : mem) : outcome mem :=
  let! (_, m) :=
    (if MAJOR dev =? RAMDISK_MAJOR then snprintf null_text name 32 ram_at [MINOR dev] m
     else if MAJOR dev =? SCSI_DISK0_MAJOR then
       snprintf null_text name 32 sd_at [u32 (97 + MINOR dev / 16); MINOR dev mod 16] m
     else snprintf null_text name 32 blk_at [MAJOR dev; MINOR dev] m) in
  Ok m.

Definition node_mode : Z := Z.lor S_IFBLK 384.

(** The directory entry of one device. What [vfs_mknod] gives is released, an error
    pointer too. *)
Definition create_node (dev_dir dev : Z) (s : dsys) : outcome dsys :=
  let! m := format_name dev (ram s) in
  let s := set_ram m s in
  let! l := read_bytes 32 name m in
  let! (nod_dentry, s) := on_tree (vfs_mknod current_hash_algorithm euid cfs dev_dir (CharP name l) node_mode dev) s in
  let! (_, s) := on_tree (on_dv (dentry_unref nod_dentry)) s in
  Ok s.

(** [list_for_each_entry] reads the next pointer after the body. *)
Fixpoint nodes_loop (fuel : nat) (dev_dir pos : Z) (s : dsys) : outcome dsys :=
  if pos =? block_device_list then Ok s
  else
    match fuel with
    | O => Timeout
    | S fuel =>
        let! d := get_bdev (pos - BD_LIST) (blk s) in
        let! s := create_node dev_dir (bd_dev d) s in
        let! pos := get_next pos (cells (bhm (blk s))) in
        nodes_loop fuel dev_dir pos s
    end.

Definition create_device_nodes (s : dsys) : outcome (Z * dsys) :=
  let! (dev_dir, s) := on_tree (vfs_mkdir current_hash_algorithm euid uid gid cfs 0 (CharP dev_at slash_dev) 493) s in
  if PTR_IS_ERROR dev_dir then Ok (s32 (PTR_ERR dev_dir), s)
  else
    let! pos := get_next block_device_list (cells (bhm (blk s))) in
    let! s := nodes_loop (size (cells (bhm (blk s)))) dev_dir pos s in
    Ok (0, s).

(** [ramdisk_ops] is the address of the table of that name. *)
Definition device_init (ramdisk_ops : Z) (s : dsys) : outcome dsys :=
  let! v := on_nodes (INIT_LIST_HEAD block_device_list) (blk s) in
  let! v := __register_platform_devices block_device_list ramdisk_ops v in
  let! (_, s) := create_device_nodes (set_blk v s) in
  Ok s.
End Device.

(** ** Names *)

Definition decimal (u : Z) : list Z := numeral u 10 false.

(** The name of a device: by its driver for RAM disks and SCSI disks. *)
Definition device_name (dev : Z) : list Z :=
  if MAJOR dev =? RAMDISK_MAJOR then [114; 97; 109] ++ decimal (MINOR dev)
  else if MAJOR dev =? SCSI_DISK0_MAJOR then [115; 100; u8 (97 + MINOR dev / 16)] ++ decimal (MINOR dev mod 16)
  else [98; 108; 107] ++ decimal (MAJOR dev) ++ 95 :: decimal (MINOR dev).

(** A device number whose parts are numbers [%d] prints without a sign. *)
Definition dev_ok (dev : Z) : Prop := 0 ≤ MAJOR dev < 2 ^ 31.

Lemma minor_range dev : 0 ≤ MINOR dev < 2 ^ 20.
Proof.
  unfold MINOR, MINORBITS. change (2 ^ 20 - 1) with (Z.ones 20). rewrite Z.land_ones by lia.
  pose proof (Z.mod_pos_bound dev (2 ^ 20)). rewrite u32_small; lia.
Qed.

Lemma decimal_digits u c : c ∈ decimal u → 48 ≤ c ≤ 57.
Proof.
  intros Hc. pose proof (proj1 (Forall_forall _ _) (numeral_digits u) c Hc) as H. unfold is_digit in H. cbn in H.
  apply andb_prop in H as [H1%Z.leb_le H2%Z.leb_le]. lia.
Qed.

Lemma decimal_length u : 0 ≤ u < 2 ^ 31 → (length (decimal u) ≤ 10)%nat.
Proof.
  intros Hu. unfold decimal, numeral. rewrite length_rev, <-(numeral_rev_fuel 10) by lia. apply numeral_rev_length.
Qed.

Lemma decimal_inj u w : 0 ≤ u < 2 ^ 31 → 0 ≤ w < 2 ^ 31 → decimal u = decimal w → u = w.
Proof.
  intros Hu Hw E. apply (f_equal (numeral_value 10)) in E. unfold decimal, numeral in E. by rewrite !numeral_rev_value in E by lia.
Qed.

Lemma decimal_u8 u : u8 <$> decimal u = decimal u.
Proof.
  rewrite <-(list_fmap_id (decimal u)) at 2. apply list_fmap_ext. intros i c Hc. cbn. apply u8_small.
  apply list_elem_of_lookup_2, decimal_digits in Hc. change (2 ^ 8) with 256. lia.
Qed.

Lemma int_text_decimal u : 0 ≤ u < 2 ^ 31 → int_text (s32 u) = decimal u.
Proof. intros Hu. rewrite s32_small by lia. unfold int_text. by rewrite (proj2 (Z.ltb_ge u 0)) by lia. Qed.

(** The format of a name with its arguments. *)
Definition name_items (dev : Z) : list item :=
  if MAJOR dev =? RAMDISK_MAJOR then [Lit 114; Lit 97; Lit 109; Conv false (CInt false (MINOR dev))]
  else if MAJOR dev =? SCSI_DISK0_MAJOR then
    [Lit 115; Lit 100; Conv false (CChr (u32 (97 + MINOR dev / 16))); Conv false (CInt false (MINOR dev mod 16))]
  else [Lit 98; Lit 108; Lit 107; Conv false (CInt false (MAJOR dev)); Lit 95; Conv false (CInt false (MINOR dev))].

Lemma name_items_text dev : dev_ok dev → u8 <$> text (name_items dev) = device_name dev ∧ (length (device_name dev) ≤ 24)%nat.
Proof.
  intros Hd. unfold dev_ok in Hd. pose proof (minor_range dev) as Hm. pose proof (Z.mod_pos_bound (MINOR dev) 16).
  pose proof (decimal_length (MINOR dev)). pose proof (decimal_length (MAJOR dev) Hd). pose proof (decimal_length (MINOR dev mod 16)).
  unfold name_items, device_name, text. destruct (_ =? _); [|destruct (_ =? _)];
    cbn [mbind list_bind item_text conv_text app]; rewrite ?int_text_decimal, ?app_nil_r by lia;
    cbn [fmap list_fmap]; rewrite ?fmap_app; cbn [fmap list_fmap]; rewrite ?decimal_u8; split; try done; cbn [length app]; rewrite ?length_app; cbn [length]; try lia.
  rewrite (u32_small (97 + _)); [done|]. change (2 ^ 32) with 4294967296. zdm.
Qed.

(** Devices with different numbers have different names, where the letters of the SCSI disks
    do not run out. *)
Definition lettered (dev : Z) : Prop := MAJOR dev = SCSI_DISK0_MAJOR → MINOR dev < 26 * 16.

Lemma dev_parts dev : 0 ≤ dev < 2 ^ 51 → dev = MAJOR dev * 2 ^ 20 + MINOR dev.
Proof.
  intros Hd. unfold MAJOR, MINOR, MINORBITS. change (2 ^ 20 - 1) with (Z.ones 20). rewrite Z.land_ones, Z.shiftr_div_pow2 by lia.
  rewrite !u32_small by (change (2 ^ 20) with 1048576; zdm). change (2 ^ 20) with 1048576. zdm.
Qed.

Lemma decimal_split u w l l' :
  decimal u ++ 95 :: l = decimal w ++ 95 :: l' → decimal u = decimal w ∧ l = l'.
Proof.
  pose proof (decimal_digits u) as Hu. pose proof (decimal_digits w) as Hw. revert Hu Hw. generalize (decimal u) (decimal w).
  intros a. induction a as [|c a IH]; intros [|c' b] Ha Hb E; cbn in E; simplify_eq.
  - done.
  - specialize (Hb 95 ltac:(set_solver)). lia.
  - specialize (Ha 95 ltac:(set_solver)). lia.
  - destruct (IH b) as [-> ->]; [intros x Hx; apply Ha; set_solver|intros x Hx; apply Hb; set_solver|done|done].
Qed.

#[local] Opaque decimal.

Lemma small_rem x : 0 ≤ x mod 16 < 2 ^ 31.
Proof. zdm. Qed.

Lemma letter_range x : 0 ≤ x < 26 * 16 → 0 ≤ 97 + x / 16 < 2 ^ 8.
Proof. zdm. Qed.

Lemma device_name_inj dev dev' :
  0 ≤ dev < 2 ^ 51 → 0 ≤ dev' < 2 ^ 51 → lettered dev → lettered dev' → device_name dev = device_name dev' → dev = dev'.
Proof.
  intros Hd Hd' Hl Hl' E. rewrite (dev_parts dev Hd), (dev_parts dev' Hd').
  assert (∀ x, 0 ≤ x < 2 ^ 51 → 0 ≤ MAJOR x < 2 ^ 31) as HM.
  { intros x Hx. unfold MAJOR, MINORBITS. rewrite Z.shiftr_div_pow2, u32_small by (change (2 ^ 20) with 1048576; zdm).
    change (2 ^ 20) with 1048576. zdm. }
  pose proof (HM dev Hd) as HM1. pose proof (HM dev' Hd') as HM2. pose proof (minor_range dev). pose proof (minor_range dev').
  unfold lettered in *. unfold device_name in E.
  destruct (Z.eqb_spec (MAJOR dev) RAMDISK_MAJOR) as [E1|], (Z.eqb_spec (MAJOR dev') RAMDISK_MAJOR) as [E2|];
    [|destruct (Z.eqb_spec (MAJOR dev') SCSI_DISK0_MAJOR) as [E2|]; discriminate
     |destruct (Z.eqb_spec (MAJOR dev) SCSI_DISK0_MAJOR) as [E1|]; discriminate|].
  - injection E as E%decimal_inj; [congruence|lia..].
  - destruct (Z.eqb_spec (MAJOR dev) SCSI_DISK0_MAJOR) as [E1|], (Z.eqb_spec (MAJOR dev') SCSI_DISK0_MAJOR) as [E2|]; try discriminate.
    + injection E as Ec Er%decimal_inj; [|apply small_rem..]. specialize (Hl E1). specialize (Hl' E2).
      rewrite !u8_small in Ec by (apply letter_range; lia). rewrite E1, E2, (Z.div_mod (MINOR dev) 16), (Z.div_mod (MINOR dev') 16), Er by lia.
      lia.
    + apply (f_equal (drop 3)), decimal_split in E as [E%decimal_inj E'%decimal_inj]; [congruence|lia..].
Qed.

(** ** Formatting *)

Lemma read_bytes_ok n p m : mapped m p (Z.of_nat n) → ∃ l, read_bytes n p m = Ok l ∧ length l = n ∧ bytes_at m p l.
Proof.
  revert p. induction n as [|n IH]; intros p Hm; [by exists []|]. cbn [read_bytes]. unfold load8.
  destruct (Hm 0) as [b Hb]; [lia|]. rewrite Z.add_0_r in Hb. rewrite Hb. cbn [of_option obind].
  destruct (IH (p + 1)) as (l & -> & <- & Hl).
  { intros i Hi. replace (p + 1 + i) with (p + (1 + i)) by lia. apply Hm. lia. }
  exists (b :: l). done.
Qed.

(** What bytes [l] known to begin with [t] and a zero look like. *)
Lemma bytes_prefix m p l t :
  bytes_at m p l → bytes_at m p (t ++ [0]) → (length t < length l)%nat → ∃ rest, l = t ++ 0 :: rest.
Proof.
  rewrite !bytes_at_lookup. intros Hl Ht Hlen. exists (drop (S (length t)) l). apply list_eq. intros i.
  destruct (decide (i ≤ length t)%nat) as [Hi|Hi].
  - assert ((t ++ 0 :: drop (S (length t)) l) !! i = (t ++ [0]) !! i) as ->.
    { destruct (decide (i < length t)%nat); [by rewrite !lookup_app_l by lia|].
      replace i with (length t) by lia. by rewrite !list_lookup_middle. }
    destruct (lookup_lt_is_Some_2 l i) as [b Hb]; [lia|]. destruct (lookup_lt_is_Some_2 (t ++ [0]) i) as [c Hc]; [rewrite length_app; cbn; lia|].
    apply Hl in Hb as Hb'. apply Ht in Hc as Hc'. congruence.
  - rewrite lookup_app_r by lia. destruct (i - length t)%nat as [|k] eqn:Ek; [lia|].
    change ((0 :: drop (S (length t)) l) !! S k) with (drop (S (length t)) l !! k). rewrite lookup_drop. f_equal. lia.
Qed.

(** A literal lies beside the array [name]. *)
Definition literal (name : Z) (m : mem) (p : Z) (l : list Z) : Prop := cstr m p l ∧ disjoint name 32 p (Z.of_nat (length l) + 1).

(** The memory [create_device_nodes] formats names in. *)
Record name_mem (ram_at sd_at blk_at name : Z) (m : mem) : Prop := {
  nm_bytes : mem_ok m;
  nm_addr : name ≠ 0;
  nm_array : mapped m name 32;
  nm_ram : literal name m ram_at fmt_ram;
  nm_sd : literal name m sd_at fmt_sd;
  nm_blk : literal name m blk_at fmt_blk;
}.

Lemma literal_same name m m' p l :
  (∀ a, ~ (name ≤ a < name + 32) → m' !! a = m !! a) → literal name m p l → literal name m' p l.
Proof. intros Ho [Hc Hd]. split; [|done]. apply (cstr_same m); [|done]. intros a Ha. apply Ho. unfold disjoint in Hd. lia. Qed.

Lemma name_written m p t m' :
  (length t ≤ 24)%nat → (∀ i c, t !! i = Some c → m' !! (p + Z.of_nat i) = Some (u8 c)) →
  m' !! (p + Z.min (Z.of_nat (length t)) 31) = Some 0 → same_dom m m' → mapped m p 32 →
  ∃ rest, read_bytes 32 p m' = Ok ((u8 <$> t) ++ 0 :: rest).
Proof.
  intros Hlen Ht H0 Hd Hm. destruct (read_bytes_ok 32 p m') as (l & -> & Hl & Hb).
  { intros i Hi. by apply Hd, Hm. }
  destruct (bytes_prefix m' p l (u8 <$> t)) as [rest ->]; [done| |rewrite length_fmap; lia|by exists rest].
  apply bytes_at_app. rewrite length_fmap. split.
  - apply bytes_at_lookup. intros i b Hi. apply list_lookup_fmap_Some in Hi as (c & -> & Hc). auto.
  - cbn. rewrite Z.min_l in H0 by lia. done.
Qed.

Section Format.
Context (ram_at sd_at blk_at null_text name : Z).

(** One call of [snprintf] with the format that belongs to the device. *)
Lemma format_name_items dev m fmt items :
  name_mem ram_at sd_at blk_at name m → dev_ok dev → items = name_items dev → literal name m fmt (spell items) →
  ∃ r m' rest, snprintf null_text name 32 fmt (args items) m = Ok (r, m') ∧
    read_bytes 32 name m' = Ok (device_name dev ++ 0 :: rest) ∧ name_mem ram_at sd_at blk_at name m'.
Proof.
  intros Hm Hd -> [Hc Hj]. destruct (name_items_text dev Hd) as [Ht Hl]. rewrite <-Ht, length_fmap in Hl.
  destruct (snprintf_ok null_text name 32 fmt (name_items dev) m []) as (r & m' & E & Hi & H0 & Ho & Hs & Hk & _);
    [by destruct Hm..|lia|by destruct Hm|done|done| |right; lia|].
  { unfold dev_ok in Hd. pose proof (minor_range dev). unfold name_items.
    destruct (_ =? _); [|destruct (_ =? _)]; repeat (apply Forall_cons; split); try done; cbn; rewrite s32_small; zdm. }
  rewrite app_nil_r in E. destruct (name_written m name (text (name_items dev)) m') as [rest Hr]; [done| |done|done|by destruct Hm|].
  { intros i c Hc'. apply Hi; [done|]. apply lookup_lt_Some in Hc'. lia. }
  exists r, m', rest. rewrite <-Ht. split; [done|]. split; [done|].
  destruct Hm. split; try done; try (by eapply literal_same). intros i Hi'. by apply Hs, nm_array0.
Qed.

Lemma format_name_ok dev m :
  name_mem ram_at sd_at blk_at name m → dev_ok dev →
  ∃ m' rest, format_name ram_at sd_at blk_at null_text name dev m = Ok m' ∧
    read_bytes 32 name m' = Ok (device_name dev ++ 0 :: rest) ∧ name_mem ram_at sd_at blk_at name m'.
Proof.
  intros Hm Hd. pose proof (eq_refl (name_items dev)) as E. unfold name_items at 2 in E. unfold format_name.
  assert (∃ fmt, literal name m fmt (spell (name_items dev)) ∧
    (if MAJOR dev =? RAMDISK_MAJOR then snprintf null_text name 32 ram_at [MINOR dev] m
     else if MAJOR dev =? SCSI_DISK0_MAJOR then snprintf null_text name 32 sd_at [u32 (97 + MINOR dev / 16); MINOR dev mod 16] m
     else snprintf null_text name 32 blk_at [MAJOR dev; MINOR dev] m) = snprintf null_text name 32 fmt (args (name_items dev)) m)
    as (fmt & Hl & ->).
  { rewrite E. destruct (_ =? _); [|destruct (_ =? _)]; eexists; (split; [|reflexivity]); by destruct Hm. }
  destruct (format_name_items dev m fmt _ Hm Hd eq_refl Hl) as (r & m' & rest & -> & ? & ?). by exists m', rest.
Qed.
End Format.

(** ** One node for each device *)

Section Nodes.
Context {A : Type} {KM : KMalloc A} {W : Type} {SO : SuperOps W} {DO : DentryOps W} {NO : NodeOps A W} {D : Type}.
Context (block_device_list : Z) (current_hash_algorithm euid uid gid cfs : Z) (ram_at sd_at blk_at dev_at null_text name : Z).

Local Abbreviation sys := (@dsys A W D).
Local Abbreviation names_in := (name_mem ram_at sd_at blk_at name).

(** Making the node of a device under its name. The array has bytes behind the name. *)
Definition make_node (dir dev : Z) (rest : list Z) (v : @mvfs A W) : outcome (@mvfs A W) :=
  let! (x, v) := vfs_mknod current_hash_algorithm euid cfs dir (CharP name (device_name dev ++ 0 :: rest)) node_mode dev v in
  let! (_, v) := on_dv (dentry_unref x) v in
  Ok v.

(** The nodes of the devices [devs], one after the other, up to the first that stops the
    system. *)
Inductive makes (dir : Z) : list Z → @mvfs A W → outcome (@mvfs A W) → Prop :=
| makes_none v : makes dir [] v (Ok v)
| makes_one dev devs rest v v' o : make_node dir dev rest v = Ok v' → makes dir devs v' o → makes dir (dev :: devs) v o
| makes_stop dev devs rest v o : make_node dir dev rest v = o → (∀ v', o ≠ Ok v') → makes dir (dev :: devs) v o.

Lemma enter_leave v (s : sys) : enter_tree (leave_tree v s) = v.
Proof. by destruct v as [[[? ? [] ? ?] ? ? ? ?] ? ? ? ? ?], s. Qed.

Definition same_devices (s s' : sys) : Prop :=
  bdevs (blk s') = bdevs (blk s) ∧ cells (bhm (blk s')) = cells (bhm (blk s)).

Lemma same_devices_trans s1 s2 s3 : same_devices s1 s2 → same_devices s2 s3 → same_devices s1 s3.
Proof. unfold same_devices. intros [-> ->] [-> ->]. done. Qed.

Lemma create_node_make dir dev (s : sys) :
  names_in (ram s) → dev_ok dev →
  ∃ rest, match make_node dir dev rest (enter_tree s) with
    | Ok v => ∃ s', create_node current_hash_algorithm euid cfs ram_at sd_at blk_at null_text name dir dev s = Ok s' ∧
        enter_tree s' = v ∧ tree s' = v ∧ names_in (ram s') ∧ same_devices s s'
    | o => (let! s' := create_node current_hash_algorithm euid cfs ram_at sd_at blk_at null_text name dir dev s in Ok (tree s')) = o
    end.
Proof.
  intros Hm Hd. destruct (format_name_ok ram_at sd_at blk_at null_text name dev (ram s) Hm Hd) as (m & rest & E & Er & Hm').
  exists rest. unfold create_node, make_node, on_tree. rewrite E. cbn [obind]. rewrite Er. cbn [obind].
  change (enter_tree (set_ram m s)) with (enter_tree s).
  destruct (vfs_mknod _ _ _ _ _ _ _ _) as [[x v]| | |]; [|done..]. cbn [obind]. rewrite enter_leave.
  destruct (on_dv _ v) as [[r v']| | |]; [|done..]. cbn [obind]. eexists. split; [done|]. by rewrite enter_leave.
Qed.

(** The devices at [l], with the numbers [devs]. *)
Definition registered (v : @bvfs A D) (l devs : list Z) : Prop :=
  dll (cells (bhm v)) block_device_list ((λ x, x + BD_LIST) <$> l) ∧
  Forall2 (λ x dev, ∃ d, bdevs v !! x = Some d ∧ bd_dev d = dev ∧ dev_ok dev) l devs.

Lemma nodes_loop_makes dir l2 devs : ∀ fuel p (s : sys),
  names_in (ram s) → linked (cells (bhm (blk s))) (p :: ((λ x, x + BD_LIST) <$> l2) ++ [block_device_list]) →
  Forall (λ x, x + BD_LIST ≠ block_device_list) l2 →
  Forall2 (λ x dev, ∃ d, bdevs (blk s) !! x = Some d ∧ bd_dev d = dev ∧ dev_ok dev) l2 devs → (length l2 ≤ fuel)%nat →
  tree s = enter_tree s →
  ∃ pos o, get_next p (cells (bhm (blk s))) = Ok pos ∧ makes dir devs (enter_tree s) o ∧
    (let! s' := nodes_loop block_device_list current_hash_algorithm euid cfs ram_at sd_at blk_at null_text name fuel dir pos s in Ok (tree s')) = o ∧
    ∀ s', nodes_loop block_device_list current_hash_algorithm euid cfs ram_at sd_at blk_at null_text name fuel dir pos s = Ok s' → same_devices s s'.
Proof.
  revert devs. induction l2 as [|x l2 IH]; intros devs fuel p s Hm Hl Hne HF Hf Ht.
  - apply Forall2_nil_inv_l in HF as ->. exists block_device_list, (Ok (enter_tree s)). split; [by apply get_next_ok, Hl|].
    split; [constructor|]. destruct fuel; cbn [nodes_loop]; rewrite Z.eqb_refl, <-Ht; by split; [|intros s' [= <-]].
  - apply Forall2_cons_inv_l in HF as (dev & devs' & (d & Hd & Hdev & Hok) & HF & ->). apply Forall_cons in Hne as [Hx Hne].
    destruct fuel as [|fuel]; [cbn in Hf; lia|]. destruct Hl as (Hn & _ & Hl). exists (x + BD_LIST).
    cbn [nodes_loop]. rewrite (proj2 (Z.eqb_neq _ _) Hx). unfold get_bdev. replace (x + BD_LIST - BD_LIST) with x by lia.
    rewrite Hd. cbn [of_option obind]. rewrite Hdev.
    destruct (create_node_make dir dev s Hm Hok) as (rest & H).
    destruct (make_node dir dev rest (enter_tree s)) as [v| | |] eqn:E.
    { destruct H as (s' & -> & Hv & Ht' & Hm' & [Hb Hc]). cbn [obind].
      destruct (IH devs' fuel (x + BD_LIST) s') as (pos & o & Hp & Hmk & Ho & Hs);
        [done|by rewrite Hc|done|by rewrite Hb|cbn in Hf; lia|congruence|]. rewrite Hp. cbn [obind].
      exists o. split; [by apply get_next_ok|]. rewrite Hv in Hmk. split; [by eapply makes_one|]. split; [done|].
      intros s'' Hs'. eapply same_devices_trans; [by split|auto]. }
    all: eexists; split; [by apply get_next_ok|]; split; [eapply makes_stop; [exact E|done]|];
      destruct (create_node _ _ _ _ _ _ _ _ _ _ _) as [s'| | |]; cbn [obind] in H; try discriminate; by split.
Qed.

(** Once [/dev] is made, [create_device_nodes] enters every registered device in the
    order of the list under its name, with its number, and returns 0 with the list as it
    was. Only a call of [vfs_mknod] or [dentry_unref] that stops the system stops it. *)
Theorem create_device_nodes_all (s : sys) l devs dir v :
  names_in (ram s) → registered (blk s) l devs →
  vfs_mkdir current_hash_algorithm euid uid gid cfs 0 (CharP dev_at slash_dev) 493 (enter_tree s) = Ok (dir, v) → PTR_IS_ERROR dir = false →
  ∃ o, makes dir devs v o ∧
    (let! (r, s') := create_device_nodes block_device_list current_hash_algorithm euid uid gid cfs ram_at sd_at blk_at dev_at null_text name s in Ok (r, tree s')) =
      (let! v' := o in Ok (0, v')) ∧
    ∀ r s', create_device_nodes block_device_list current_hash_algorithm euid uid gid cfs ram_at sd_at blk_at dev_at null_text name s = Ok (r, s') →
      same_devices s s'.
Proof.
  intros Hm [Hd HF] E He. unfold create_device_nodes, on_tree. rewrite E. cbn [obind]. rewrite He.
  destruct (nodes_loop_makes dir l devs (size (cells (bhm (blk (leave_tree v s))))) block_device_list (leave_tree v s)) as (pos & o & Hp & Hmk & Ho & Hs);
    [done|by apply Hd| |done| |by rewrite enter_leave|].
  - destruct Hd as [[Hnin _]%NoDup_cons _]. apply Forall_forall. intros x Hx Ex. apply Hnin. rewrite <-Ex. by apply (list_elem_of_fmap_2 (λ x, x + BD_LIST)).
  - apply dll_length in Hd. rewrite length_fmap in Hd. exact Hd.
  - rewrite enter_leave in Hmk. rewrite Hp. cbn [obind]. exists o. split; [done|]. rewrite <-Ho.
    destruct (nodes_loop _ _ _ _ _ _ _ _ _ _ _ _ _) as [s'| | |] eqn:El; cbn [obind]; (split; [done|]); intros r s'' [= <- <-].
    by destruct (Hs _ eq_refl) as [? ?].
Qed.
End Nodes.

(** An error pointer is no dentry, and releasing it reads through it. *)
Lemma create_node_error {A} {KM : KMalloc A} {W} {SO : SuperOps W} {DO : DentryOps W} {NO : NodeOps A W} {D}
    alg euid cfs ram_at sd_at blk_at null_text name dir dev (s : @dsys A W D) e v :
  name_mem ram_at sd_at blk_at name (ram s) → dev_ok dev → -4095 ≤ e < 0 → dentries (dv v) !! ERR_PTR e = None →
  (∀ rest, vfs_mknod alg euid cfs dir (CharP name (device_name dev ++ 0 :: rest)) node_mode dev (enter_tree s) = Ok (ERR_PTR e, v)) →
  create_node alg euid cfs ram_at sd_at blk_at null_text name dir dev s = Fault.
Proof.
  intros Hm Hd He Hv Hk. destruct (create_node_make (D := D) alg euid cfs ram_at sd_at blk_at null_text name dir dev s Hm Hd) as (rest & H).
  unfold make_node in H. rewrite Hk in H. cbn [obind] in H.
  assert (dentry_unref (ERR_PTR e) (dv v) = Fault) as Hu.
  { unfold dentry_unref. assert (ERR_PTR e ≠ 0) as Hne by (unfold ERR_PTR, u64; zdm).
    destruct (size _); cbn [dentry_unref_loop]; rewrite (proj2 (Z.eqb_neq _ _) Hne); unfold get_dentry; by rewrite Hv. }
  unfold on_dv in H at 1. rewrite Hu in H. cbn [obind] in H.
  by destruct (create_node _ _ _ _ _ _ _ _ _ _ _).
Qed.

(** ** A root file system with and without [/dev]

    The file system makes a file by giving its dentry a new inode, to which it keeps a
    reference. The tree is that of [Dentry] with [/dev] looked up and found. *)

#[local] Existing Instances Inode.log_ops no_dentry_ops.

Definition fresh_file (x mode : Z) (v : @dvfs Z (list Z)) : outcome (Z * @dvfs Z (list Z)) :=
  let! d := get_dentry x v in
  Ok (0, put_dentry x (set_d_inode (x + 1) d) (set_iv (put_inode (x + 1) (Inode mode 0 0 0 1 0 (x + 1) 1 2 0 0 0) (iv v)) v)).

#[local] Instance plain_fs : NodeOps Z (list Z) := {
  op_lookup _ := None;
  op_mkdir t := if t =? 1 then Some (λ _ x mode v, fresh_file x (Z.lor S_IFDIR mode) v) else None;
  op_mknod t := if t =? 1 then Some (λ _ x mode _ v, fresh_file x mode v) else None;
  op_rmdir _ := None;
  op_link _ := None;
}.

Definition dev_qstr : qstr := Qstr (CharP 100 [100; 101; 118; 0]) 3 (fnv1a_round (fnv1a_round (fnv1a_round 2166136261 100) 101) 118).
Definition dev_dentry : Z := 16768.

Definition dvfs_dev : @dvfs Z (list Z) :=
  match dentry_acquire 0 ROOT (Some dev_qstr) (-1) false true dvfs0 with
  | Ok (x, v) =>
      match dentries v !! x with
      | Some d => put_dentry x (set_d_inode 4096 d) v
      | None => v
      end
  | _ => dvfs0
  end.

Definition BDEVS : Z := 256.
Definition RAM_FMT : Z := 1100.
Definition SD_FMT : Z := 1120.
Definition BLK_FMT : Z := 1140.
Definition NAME : Z := 1000.

Definition name_mem0 : mem :=
  mem_bytes NAME (replicate 32 255) ∪ mem_bytes RAM_FMT (fmt_ram ++ [0]) ∪ mem_bytes SD_FMT (fmt_sd ++ [0]) ∪ mem_bytes BLK_FMT (fmt_blk ++ [0]).

Definition boot_sys (v : @dvfs Z (list Z)) : @dsys Z (list Z) unit :=
  DSys (Bvfs ∅ ∅ ∅ (HMem {[BDEVS := ListHead 0 0]} (Expansion 0 0 0 0) (heap_of v)) (HT 0 0 0 0 0) tt)
    (Mvfs v {[ROOT_MNT := VfsMount ROOT (Path 0 0) 0 0 0 3 NULL]} (HT 0 0 0 0 0) 1
       {[CFS := FsStruct 1 (Path ROOT_MNT ROOT) (Path ROOT_MNT ROOT)]} ∅)
    name_mem0.

Definition boot_devices (v : @dvfs Z (list Z)) : outcome (@dsys Z (list Z) unit) :=
  device_init BDEVS 0 0 0 0 CFS RAM_FMT SD_FMT BLK_FMT 1200 1300 NAME 1 (boot_sys v).

(** With a directory [/dev] a second one is made inside it, where the nodes go: the parent of [/dev]
    is taken to be [/dev]. *)
Lemma device_nodes_below_dev :
  match boot_devices dvfs_dev with
  | Ok s => (λ d, (d_parent d, d_name d)) <$> dentries (dv (tree s)) !! 17045
  | _ => None
  end = Some (dev_dentry, 17197).
Proof. vm_compute. reflexivity. Qed.

(** Without it the walk gives the dentry of a file that does not exist, whose only
    reference [vfs_mkdir] drops before it makes a directory in it. *)
Lemma device_init_without_dev : boot_devices dvfs0 = Fault.
Proof. vm_compute. reflexivity. Qed.
