(* ===== verification/Dtb.v ===== *)
(** * The flattened device tree ([kernel/boot/dtb.c])

    [parseDtb] converts the header in place and walks the structure block for the
    memory of the machine. The blob, the static buffer [strBuf] and the literals lie in one
    byte memory. Of the name of a property the code reads the first byte, for a log call
    that is commented out.

    A walk only moves up, by at least four bytes a step, so one step more than the
    memory has bytes is enough fuel for each loop and for the recursion. *)

From stdpp Require Import base gmap list.
From S2P Require Import Prelude KString Vprint Snprintf.
Local Open Scope Z_scope.
Local Open Scope kernel_scope.

Definition FDT_BEGIN_NODE : Z := 1.
Definition FDT_END_NODE : Z := 2.
Definition FDT_PROP : Z := 3.
Definition FDT_NOP : Z := 4.
Definition FDT_END : Z := 9.

(** The header: ten words; the offsets of the structure block and of the strings are the
    third and the fourth. *)
Definition FDT_HEADER_SIZE : Z := 40.
Definition OFF_DT_STRUCT : Z := 8.
Definition OFF_DT_STRINGS : Z := 12.

Record MemInfo := Mem_info { start : Z; msize : Z }.

Definition swapChar (a b : Z) (m : mem) : outcome mem :=
  let! c := load8 a m in
  let! d := load8 b m in
  let! m := store8 a d m in
  store8 b c m.

(** The words from [bin + i] on, [n] left. *)
Fixpoint swap_words (n : nat) (bin i : Z) (m : mem) : outcome mem :=
  match n with
  | O => Ok m
  | S n =>
      let! m := swapChar (bin + i) (bin + i + 3) m in
      let! m := swapChar (bin + i + 1) (bin + i + 2) m in
      swap_words n bin (i + 4) m
  end.

Definition endianBigToLittle (bin size_ : Z) (m : mem) : outcome mem :=
  swap_words (Z.to_nat ((size_ + 3) / 4)) bin 0 m.

Definition parserFdtHeader (fdtHeader : Z) (m : mem) : outcome mem := endianBigToLittle fdtHeader FDT_HEADER_SIZE m.

Definition readBigEndian32 (p : Z) (m : mem) : outcome Z :=
  let! b0 := load8 (p + 3) m in
  let! b1 := load8 (p + 2) m in
  let! b2 := load8 (p + 1) m in
  let! b3 := load8 p m in
  Ok (b0 + 2 ^ 8 * b1 + 2 ^ 16 * b2 + 2 ^ 24 * b3).

Definition readBigEndian64 (p : Z) (m : mem) : outcome Z :=
  let! lo := readBigEndian32 (p + 4) m in
  let! hi := readBigEndian32 p m in
  Ok (lo + 2 ^ 32 * hi).

Definition FOURROUNDUP (sz : Z) : Z := Z.land (u64 (sz + 4 - 1)) (Z.lnot 3).

Definition recordMem (value : Z) (m : mem) : outcome MemInfo :=
  let! s := readBigEndian64 value m in
  let! n := readBigEndian64 (value + 8) m in
  Ok (Mem_info s n).

Fixpoint skip_nop (fuel : nat) (node : Z) (m : mem) : outcome Z :=
  match fuel with
  | O => Timeout
  | S fuel =>
      let! t := readBigEndian32 node m in
      if t =? FDT_NOP then skip_nop fuel (node + 4) m else Ok node
  end.

Definition number_len (len : Z) : bool := (len =? 4) || (len =? 8) || (len =? 16) || (len =? 32).

(** Where the strings of the file lie: the buffer, ["values: "] and the two formats,
    ["memory"] and the literal of [snprintf]. *)
Record layout := Layout {
  strBuf : Z;
  pre : Z;
  fmt_s : Z;
  fmt_02x : Z;
  memory_str : Z;
  null_text : Z;
}.

Section Parse.
Context (L : layout).

(** The bytes [value + i] on, [n] left, into the text. *)
Fixpoint format_bytes (n : nat) (value i : Z) (m : mem) : outcome mem :=
  match n with
  | O => Ok m
  | S n =>
      let! b := load8 (value + i) m in
      let! (_, m) := snprintf (null_text L) (strBuf L + 9 - 1 + 3 * i) (128 - 9) (fmt_02x L) [b] m in
      format_bytes n value (i + 1) m
  end.

Definition format_value (value len : Z) (m : mem) : outcome mem :=
  let! (_, m) := snprintf (null_text L) (strBuf L) 9 (fmt_s L) [pre L] m in
  format_bytes (Z.to_nat len) value 0 m.

Context (fdtHeader : Z).

(** The inner loop: a run of properties. *)
Fixpoint scan_props (fuel : nat) (node nodeStr value : Z) (m : mem) : outcome (Z * Z * Z * mem) :=
  match fuel with
  | O => Timeout
  | S fuel =>
      let! t := readBigEndian32 node m in
      if t =? FDT_PROP then
        let node := node + 4 in
        let! len := readBigEndian32 node m in
        let node := node + 4 in
        let! nameoff := readBigEndian32 node m in
        let node := node + 4 in
        let! off_dt_strings := load_le 4 (fdtHeader + OFF_DT_STRINGS) m in
        let! _ := load8 (node + off_dt_strings + nameoff) m in
        let! (nodeStr, value, m) :=
          (if number_len len then let! m := format_value node len m in Ok (nodeStr, node, m)
           else Ok (node, value, m)) in
        let node := FOURROUNDUP (node + len) in
        let! node := skip_nop (S (size m)) node m in
        scan_props fuel node nodeStr value m
      else Ok (node, nodeStr, value, m)
  end.

(** After a run of properties. *)
Definition record_memory (nodeStr value : Z) (info : MemInfo) (m : mem) : outcome MemInfo :=
  if nodeStr =? NULL then Ok info
  else
    let! c := strncmp nodeStr (memory_str L) 7 m in
    if c =? 0 then recordMem value m else Ok info.

(** The outer loop. *)
Fixpoint scan_runs (fuel : nat) (node : Z) (info : MemInfo) (m : mem) : outcome (Z * MemInfo * mem) :=
  match fuel with
  | O => Timeout
  | S fuel =>
      let! node := skip_nop (S (size m)) node m in
      let! t := readBigEndian32 node m in
      if t =? FDT_PROP then
        let! (node, nodeStr, value, m) := scan_props (S (size m)) node NULL NULL m in
        let! info := record_memory nodeStr value info m in
        scan_runs fuel node info m
      else Ok (node, info, m)
  end.

Fixpoint parseFdtNode (fuel : nat) (node : Z) (info : MemInfo) (m : mem) : outcome (Z * MemInfo * mem) :=
  match fuel with
  | O => Timeout
  | S fuel =>
      let! node := skip_nop (S (size m)) node m in
      let! t := readBigEndian32 node m in
      if negb (t =? FDT_BEGIN_NODE) then Panic
      else
        let node := node + 4 in
        let! n := strlen node m in
        let node := FOURROUNDUP (node + (n + 1)) in
        let! (node, info, m) := scan_runs (S (size m)) node info m in
        let! (node, info, m) := parse_children fuel node info m in
        Ok (node + 4, info, m)
  end
with parse_children (fuel : nat) (node : Z) (info : MemInfo) (m : mem) : outcome (Z * MemInfo * mem) :=
  match fuel with
  | O => Timeout
  | S fuel =>
      let! t := readBigEndian32 node m in
      if negb (t =? FDT_END_NODE) then
        let! (node, info, m) := parseFdtNode fuel node info m in
        let! node := skip_nop (S (size m)) node m in
        parse_children fuel node info m
      else Ok (node, info, m)
  end.

Fixpoint parse_trees (fuel : nat) (node : Z) (info : MemInfo) (m : mem) : outcome (MemInfo * mem) :=
  match fuel with
  | O => Timeout
  | S fuel =>
      let! (node, info, m) := parseFdtNode (S (size m)) node info m in
      let! t := readBigEndian32 node m in
      if negb (t =? FDT_END) then parse_trees fuel node info m else Ok (info, m)
  end.

End Parse.

Definition parseDtb (L : layout) (dtbEntry : Z) (info : MemInfo) (m : mem) : outcome (MemInfo * mem) :=
  let! m := parserFdtHeader dtbEntry m in
  let! off := load_le 4 (dtbEntry + OFF_DT_STRUCT) m in
  parse_trees L dtbEntry (S (size m)) (dtbEntry + off) info m.

(** ** Device trees

    A tree as the specification of the format writes it: a node has a name, properties
    and children. [NOP] words may follow the name, a property and a child. *)

Record property := Property { p_nameoff : Z; p_value : list Z; p_nops : nat }.

Inductive tree :=
| Node (name : list Z) (nops : nat) (props : list property) (children : list tree) (after : nat).

Section TreeInd.
Context (P : tree → Prop).
Context (H : ∀ name k ps cs a, Forall P cs → P (Node name k ps cs a)).

Fixpoint tree_nested_ind (t : tree) : P t :=
  match t with
  | Node name k ps cs a =>
      H name k ps cs a ((fix go (cs : list tree) : Forall P cs :=
        match cs with
        | [] => @List.Forall_nil tree P
        | c :: cs => @List.Forall_cons tree P c cs (tree_nested_ind c) (go cs)
        end) cs)
  end.
End TreeInd.

Definition be32 (x : Z) : list Z := [x / 2 ^ 24 mod 256; x / 2 ^ 16 mod 256; x / 2 ^ 8 mod 256; x mod 256].
Definition pad (l : list Z) : list Z := replicate (Z.to_nat (- Z.of_nat (length l) mod 4)) 0.
Definition nop_words (k : nat) : list Z := concat (replicate k (be32 FDT_NOP)).

Definition prop_bytes (p : property) : list Z :=
  be32 FDT_PROP ++ be32 (Z.of_nat (length (p_value p))) ++ be32 (p_nameoff p) ++
  p_value p ++ pad (p_value p) ++ nop_words (p_nops p).
Definition props_bytes (ps : list property) : list Z := ps ≫= prop_bytes.

(** A node without, and with, the [NOP]s that follow it. *)
Fixpoint node_bytes (t : tree) : list Z :=
  match t with
  | Node name k ps cs _ =>
      be32 FDT_BEGIN_NODE ++ (name ++ [0]) ++ pad (name ++ [0]) ++ nop_words k ++ props_bytes ps ++
      concat (map (λ c, node_bytes c ++ nop_words (match c with Node _ _ _ _ a => a end)) cs) ++ be32 FDT_END_NODE
  end.
Definition after (t : tree) : nat := match t with Node _ _ _ _ a => a end.
Definition children_bytes (cs : list tree) : list Z := concat (map (λ c, node_bytes c ++ nop_words (after c)) cs).

(** The last value that counts as a string and the last one that counts as numbers. *)
Definition is_number (p : property) : bool := number_len (Z.of_nat (length (p_value p))).
Fixpoint last_values (ps : list property) (s v : option (list Z)) : option (list Z) * option (list Z) :=
  match ps with
  | [] => (s, v)
  | p :: ps => if is_number p then last_values ps s (Some (p_value p)) else last_values ps (Some (p_value p)) v
  end.

(** ["memory"] *)
Definition memory_text : list Z := [109; 101; 109; 111; 114; 121].

(** The value starts with ["memory"] and ends there or has a zero there. *)
Definition is_memory (s : list Z) : bool := bool_decide (take 7 (s ++ [0]) = memory_text ++ [0]).

Definition be_value (l : list Z) : Z := fold_left (λ a b, a * 256 + b) l 0.
Definition memory_of (v : list Z) : MemInfo := Mem_info (be_value (take 8 v)) (be_value (take 8 (drop 8 v))).

Definition record_props (ps : list property) (info : MemInfo) : MemInfo :=
  match last_values ps None None with
  | (Some s, Some v) => if is_memory s then memory_of v else info
  | _ => info
  end.

(** What the walk records: the last node with the string ["memory"]. *)
Fixpoint record_tree (t : tree) (info : MemInfo) : MemInfo :=
  match t with
  | Node _ _ ps cs _ => fold_left (λ i c, record_tree c i) cs (record_props ps info)
  end.

(** The name of no property is further than [max_name] into the strings. *)
Definition prop_ok (max_name : Z) (p : property) : Prop :=
  0 ≤ p_nameoff p ≤ max_name ∧ max_name < 2 ^ 32 ∧ Forall (λ b, 0 ≤ b < 256) (p_value p) ∧ Z.of_nat (length (p_value p)) < 2 ^ 32.

(** A node whose string is ["memory"] has an address and a size. *)
Definition memory_ok (ps : list property) : Prop :=
  match last_values ps None None with
  | (Some s, v) => is_memory s = true → ∃ l, v = Some l ∧ (16 ≤ length l)%nat
  | _ => True
  end.

Fixpoint tree_ok (max_name : Z) (t : tree) : Prop :=
  match t with
  | Node name _ ps cs _ =>
      Forall (λ b, 0 < b < 256) name ∧ Forall (prop_ok max_name) ps ∧ memory_ok ps ∧ fold_right (λ c P, tree_ok max_name c ∧ P) True cs
  end.

(** ** Reading *)

Lemma be32_length x : length (be32 x) = 4%nat.
Proof. done. Qed.

Lemma be32_at m p x : 0 ≤ x < 2 ^ 32 → bytes_at m p (be32 x) → readBigEndian32 p m = Ok x.
Proof.
  intros Hx (H0 & H1 & H2 & H3 & _). unfold readBigEndian32.
  replace (p + 1 + 1) with (p + 2) in * by lia. replace (p + 2 + 1) with (p + 3) in * by lia.
  rewrite (load8_ok _ _ _ H3), (load8_ok _ _ _ H2), (load8_ok _ _ _ H1), (load8_ok _ _ _ H0). cbn [obind]. f_equal. zdm.
Qed.

Lemma bytes_at_app_l m p l1 l2 : bytes_at m p (l1 ++ l2) → bytes_at m p l1.
Proof. rewrite bytes_at_app. tauto. Qed.

Lemma token_at m p x l : 0 ≤ x < 2 ^ 32 → bytes_at m p (be32 x ++ l) → readBigEndian32 p m = Ok x.
Proof. intros Hx Hb. apply (be32_at _ _ _ Hx). by eapply bytes_at_app_l. Qed.

Lemma skip_nop_ok fuel k m p x l :
  (k < fuel)%nat → 0 ≤ x < 2 ^ 32 → x ≠ FDT_NOP → bytes_at m p (nop_words k ++ be32 x ++ l) →
  skip_nop fuel p m = Ok (p + Z.of_nat (length (nop_words k))).
Proof.
  revert fuel p. induction k as [|k IH]; intros [|fuel] p Hf Hx Hn Hb; try lia; cbn [skip_nop].
  - cbn [nop_words replicate concat app] in Hb. rewrite (token_at _ _ _ _ Hx Hb). cbn [obind].
    rewrite (proj2 (Z.eqb_neq _ _) Hn). f_equal. cbn. lia.
  - change (nop_words (S k)) with (be32 FDT_NOP ++ nop_words k) in *. rewrite <-app_assoc in Hb.
    rewrite (token_at _ _ FDT_NOP _ ltac:(done) Hb). cbn [obind Z.eqb FDT_NOP Pos.eqb].
    apply bytes_at_app in Hb as [_ Hb]. rewrite (IH fuel (p + 4)); [|lia|done|done|done].
    f_equal. rewrite length_app. cbn [length be32]. lia.
Qed.

Lemma nop_words_length k : length (nop_words k) = (4 * k)%nat.
Proof. induction k as [|k IH]; [done|]. change (nop_words (S k)) with (be32 FDT_NOP ++ nop_words k). rewrite length_app, IH. cbn. lia. Qed.

(** Fuel for the words that lie in memory. *)
Lemma nops_fuel m p k l : bytes_at m p (nop_words k ++ l) → (k ≤ size m)%nat.
Proof.
  intros Hb%bytes_at_app_l%bytes_at_mapped%mapped_size. rewrite nop_words_length in Hb. lia.
Qed.

Lemma pad_length l : Z.of_nat (length (l ++ pad l)) mod 4 = 0.
Proof.
  unfold pad. rewrite length_app, length_replicate, Nat2Z.inj_add, Z2Nat.id by (apply Z.mod_pos_bound; lia). zdm.
Qed.

Lemma FOURROUNDUP_ok p l :
  p mod 4 = 0 → 0 ≤ p → p + Z.of_nat (length (l ++ pad l)) < 2 ^ 64 - 4 →
  FOURROUNDUP (p + Z.of_nat (length l)) = p + Z.of_nat (length (l ++ pad l)).
Proof.
  intros Hp H0 Hl. unfold FOURROUNDUP, pad in *. rewrite length_app, length_replicate in *. set (n := Z.of_nat (length l)) in *.
  rewrite Nat2Z.inj_add, Z2Nat.id in * by (apply Z.mod_pos_bound; lia). fold n in Hl |- *.
  pose proof (Z.mod_pos_bound (- n) 4). rewrite u64_small by lia.
  change 3 with (Z.ones 2). rewrite <-Z.ldiff_land, Z.ldiff_ones_r, Z.shiftl_mul_pow2, Z.shiftr_div_pow2 by lia.
  change (2 ^ 2) with 4. zdm.
Qed.

(** ** The text of a value

    The calls pass 119 as the room left, from offset 8 up to offset 101 of the 128
    bytes of [strBuf]. What they print is shorter: three characters each. *)

Definition STRBUF_SIZE : Z := 128.

(** ["values: "], ["%s"] and ["%02x "] *)
Definition values_text : list Z := [118; 97; 108; 117; 101; 115; 58; 32].
Definition s_text : list Z := [37; 115].
Definition x_text : list Z := [37; 48; 50; 120; 32].

Definition literals (L : layout) : list (Z * list Z) :=
  [(pre L, values_text); (fmt_s L, s_text); (fmt_02x L, x_text); (memory_str L, memory_text)].

(** The walk: the header and the offset of the strings it gives, the structure block from
    [lo] to [hi], and the greatest offset of a name. *)
Record walk := Walk { w_header : Z; w_strings : Z; lo : Z; hi : Z; max_name : Z }.

(** A name is looked for at its offset from the place of its property, not from the
    header, so it is the memory behind the structure block that has to be readable. *)
Record env_ok (L : layout) (W : walk) (m : mem) : Prop := {
  env_mem : mem_ok m;
  env_strings : load_le 4 (w_header W + OFF_DT_STRINGS) m = Ok (w_strings W);
  env_header : disjoint (strBuf L) STRBUF_SIZE (w_header W + OFF_DT_STRINGS) 4;
  env_names : mapped m (lo W + w_strings W) (hi W - lo W + max_name W + 1);
  env_buf : mapped m (strBuf L) STRBUF_SIZE;
  env_null : 0 < strBuf L ∧ pre L ≠ 0;
  env_lits p l : (p, l) ∈ literals L → cstr m p l ∧ disjoint (strBuf L) STRBUF_SIZE p (Z.of_nat (length l) + 1);
}.

(** [m'] is [m] but for the buffer. *)
Definition keeps (L : layout) (m m' : mem) : Prop :=
  (∀ a, ~ (strBuf L ≤ a < strBuf L + STRBUF_SIZE) → m' !! a = m !! a) ∧ same_dom m m' ∧ mem_ok m'.

Section Values.
Context (L : layout) (W : walk).

Lemma buffer_only_refl m : mem_ok m → keeps L m m.
Proof. intros Hm. by split_and!. Qed.

Lemma buffer_only_trans m1 m2 m3 : keeps L m1 m2 → keeps L m2 m3 → keeps L m1 m3.
Proof.
  intros (O1 & D1 & _) (O2 & D2 & Hok). split_and!; [|by eapply same_dom_trans|done]. intros a Ha. by rewrite O2, O1.
Qed.

Lemma keeps_bytes m m' p l :
  keeps L m m' → disjoint (strBuf L) STRBUF_SIZE p (Z.of_nat (length l)) → bytes_at m p l → bytes_at m' p l.
Proof. intros (Ho & _) Hd. apply bytes_at_same. intros a Ha. apply Ho. unfold disjoint in Hd. lia. Qed.

Lemma env_keeps m m' : env_ok L W m → keeps L m m' → env_ok L W m'.
Proof.
  intros He Hk. pose proof Hk as (Ho & Hd & Hok).
  split; [done| |apply He|by eapply same_dom_mapped, He|by eapply same_dom_mapped, He|apply He|].
  { rewrite (load_le_same _ _ m); [apply He|]. intros a Ha. apply Ho. pose proof (env_header _ _ _ He) as Hh. unfold disjoint in Hh. lia. }
  intros p l Hin. destruct (env_lits _ _ _ He p l Hin) as [Hc Hdi]. split; [|done]. eapply cstr_same; [|exact Hc].
  intros a Ha. apply Ho. unfold disjoint in Hdi. lia.
Qed.

(** A part [str], [n] of the buffer. *)
Lemma snprintf_part m str n p l rest :
  env_ok L W m → (p, spell l) ∈ literals L → 1 < n → strBuf L ≤ str → str + n ≤ strBuf L + STRBUF_SIZE →
  Forall (item_ok (null_text L) str n m) l → Forall plain l ∨ Z.of_nat (length (text l)) < n - 1 →
  ∃ r m', snprintf (null_text L) str n p (args l ++ rest) m = Ok (r, m') ∧ keeps L m m'.
Proof.
  intros He Hin Hn Hs Hsn Hok Hp. destruct (env_lits _ _ _ He _ _ Hin) as [Hc Hd]. pose proof (env_null _ _ _ He).
  destruct (snprintf_ok (null_text L) str n p l m rest) as (r & m' & E & _ & _ & Ho & Hsd & Hmo & _); try done.
  - apply He.
  - lia.
  - intros i Hi. replace (str + i) with (strBuf L + (str - strBuf L + i)) by lia. apply (env_buf _ _ _ He). lia.
  - unfold disjoint in *. lia.
  - exists r, m'. split; [exact E|]. split_and!; [|done|done]. intros a Ha. apply Ho. lia.
Qed.

(** [m'] is [m] but for the four bytes at [str]. *)
Definition four (str : Z) (m m' : mem) : Prop :=
  (∀ a, ~ (str ≤ a < str + 4) → m' !! a = m !! a) ∧ same_dom m m' ∧ mem_ok m'.

Lemma four_store str m m' i c :
  mapped m str 4 → four str m m' → 0 ≤ i < 4 → ∃ m2, store8 (str + i) c m' = Ok m2 ∧ four str m m2.
Proof.
  intros Hm (Ho & Hd & Hok) Hi. destruct (store8_ok (str + i) c m') as (m2 & E & -> & Hd2 & Hok2);
    [by apply Hd, Hm|done|]. eexists. split; [exact E|]. split_and!; [|by eapply same_dom_trans|done].
  intros a Ha. rewrite lookup_insert_ne by lia. by apply Ho.
Qed.

(** The format ["%02x "]: the flag and the width are not read as such, so that it prints
    ["2x "] and takes no argument. Only these three bytes and the terminator are
    written, whatever the room the call was given. *)
Lemma snprintf_02x str n p ap m :
  mem_ok m → str ≠ 0 → 4 < n → mapped m str 4 → cstr m p x_text → disjoint str 4 p 6 →
  ∃ r m', snprintf (null_text L) str n p ap m = Ok (r, m') ∧ four str m m'.
Proof.
  intros Hok Hs Hn Hm Hc Hd. pose proof (cstr_fuel _ _ _ Hc) as Hf. cbn [length x_text] in Hf.
  assert (∀ m' j b, four str m m' → (x_text ++ [0]) !! j = Some b → load8 (p + Z.of_nat j) m' = Ok b) as Hrd.
  { intros m' j b (Ho & _) Hj. apply load8_ok. rewrite Ho.
    - destruct Hc as [Hb _]. rewrite bytes_at_lookup in Hb. by apply Hb.
    - apply lookup_lt_Some in Hj. cbn in Hj. unfold disjoint in Hd. lia. }
  assert (∀ c q, 0 ≤ c < 4 → ((c <? n - 1) = true) ∧ q + 1 - 1 = q) as Hlt by (intros c q ?; split; [apply Z.ltb_lt|]; lia).
  unfold snprintf, vsnprintf_internal, NULL. rewrite (proj2 (Z.eqb_neq n 0)), (proj2 (Z.eqb_neq str 0)) by lia. cbn [orb].
  assert (∃ m3, format_loop (null_text L) (S (size m)) str (n - 1) p 0 ap m = Ok (p + 5, 3, ap, m3) ∧ four str m m3) as (m3 & -> & H3).
  { destruct (size m) as [|[|[|[|f]]]]; [lia..|]. assert (four str m m) as H0 by by split_and!.
    cbn [format_loop]. pose proof (Hrd m 0%nat 37 H0 eq_refl) as E0. rewrite Z.add_0_r in E0. rewrite E0. cbn [obind].
    rewrite (proj1 (Hlt 0 0 ltac:(lia))). cbn [Z.eqb Pos.eqb negb andb].
    rewrite (Hrd m 1%nat 48 H0 eq_refl : load8 (p + 1) m = _). cbn [obind Z.eqb Pos.eqb].
    replace (p + 1 + 1) with (p + 2) by lia. rewrite (Hrd m 2%nat 50 H0 eq_refl : load8 (p + 2) m = _). cbn [obind].
    unfold format_one. cbn [Z.eqb Pos.eqb orb]. unfold put_char. rewrite (proj1 (Hlt 0 0 ltac:(lia))).
    destruct (four_store str m m 0 50 Hm H0) as (m1 & -> & H1); [lia|]. cbn [obind].
    replace (p + 2 + 1) with (p + 3) by lia. rewrite (Hrd m1 3%nat 120 H1 eq_refl : load8 (p + 3) m1 = _). cbn [obind].
    change (0 + 1) with 1. rewrite (proj1 (Hlt 1 0 ltac:(lia))). cbn [Z.eqb Pos.eqb negb andb].
    destruct (four_store str m m1 1 120 Hm H1) as (m2 & -> & H2); [lia|]. cbn [obind].
    replace (p + 3 + 1) with (p + 4) by lia. rewrite (Hrd m2 4%nat 32 H2 eq_refl : load8 (p + 4) m2 = _). cbn [obind].
    change (1 + 1) with 2. rewrite (proj1 (Hlt 2 0 ltac:(lia))). cbn [Z.eqb Pos.eqb negb andb].
    destruct (four_store str m m2 2 32 Hm H2) as (m3 & -> & H3); [lia|]. cbn [obind].
    replace (p + 4 + 1) with (p + 5) by lia. rewrite (Hrd m3 5%nat 0 H3 eq_refl : load8 (p + 5) m3 = _). cbn [obind Z.eqb negb andb].
    by exists m3. }
  cbn [obind]. rewrite (proj1 (Hlt 3 0 ltac:(lia))), (proj2 (Z.ltb_lt 0 (n - 1))) by lia.
  destruct (four_store str m m3 3 0 Hm H3) as (m4 & -> & H4); [lia|]. cbn [obind count_rest].
  rewrite (Hrd m4 5%nat 0 H4 eq_refl : load8 (p + 5) m4 = _). cbn [obind Z.eqb]. by eexists _, _.
Qed.

Lemma format_bytes_ok n value i m :
  env_ok L W m → 0 ≤ i → i + Z.of_nat n ≤ 32 → mapped m value (i + Z.of_nat n) →
  ∃ m', format_bytes L n value i m = Ok m' ∧ keeps L m m'.
Proof.
  revert i m. induction n as [|n IH]; intros i m He Hi Hn Hm; cbn [format_bytes].
  { exists m. split; [done|]. apply buffer_only_refl, He. }
  destruct (Hm i) as [b Hb]; [lia|]. rewrite (load8_ok _ _ _ Hb). cbn [obind].
  destruct (env_lits _ _ _ He (fmt_02x L) x_text) as [Hc Hd]; [do 2 right; by left|]. pose proof (env_null _ _ _ He).
  set (str := strBuf L + 9 - 1 + 3 * i). unfold disjoint, STRBUF_SIZE in Hd. cbn [length x_text] in Hd.
  destruct (snprintf_02x str (128 - 9) (fmt_02x L) [b] m) as (r & m1 & -> & Ho & Hsd & Hmo);
    [apply He|unfold str; lia|lia| |done|unfold disjoint, str; lia|].
  { intros j Hj. unfold str. replace (strBuf L + 9 - 1 + 3 * i + j) with (strBuf L + (8 + 3 * i + j)) by lia.
    apply (env_buf _ _ _ He). unfold STRBUF_SIZE. lia. }
  assert (keeps L m m1) as Hk by (split_and!; [intros a Ha; apply Ho; unfold str, STRBUF_SIZE in *; lia|done|done]).
  cbn [obind]. destruct (IH (i + 1) m1) as (m2 & -> & Hk2); [by eapply env_keeps|lia|lia| |].
  - replace (i + 1 + Z.of_nat n) with (i + Z.of_nat (S n)) by lia. by eapply same_dom_mapped.
  - exists m2. split; [done|]. by eapply buffer_only_trans.
Qed.

Lemma format_value_ok value len m :
  env_ok L W m → 0 ≤ len ≤ 32 → mapped m value len → ∃ m', format_value L value len m = Ok m' ∧ keeps L m m'.
Proof.
  intros He Hl Hm. unfold format_value.
  destruct (snprintf_part m (strBuf L) 9 (fmt_s L) [Conv false (CStr (pre L) values_text)] []) as (r & m1 & E & Hk);
    [done|right; by left|lia|lia|unfold STRBUF_SIZE; lia| |left; by repeat constructor|].
  - apply Forall_singleton. cbn. rewrite (proj2 (Z.eqb_neq (pre L) 0)) by apply He.
    destruct (env_lits _ _ _ He (pre L) values_text) as [Hc Hd]; [by left|]. split; [done|]. unfold disjoint, STRBUF_SIZE in *. cbn in *. lia.
  - cbn [args mbind list_bind app item_args conv_args] in E. rewrite E. cbn [obind].
    destruct (format_bytes_ok (Z.to_nat len) value 0 m1) as (m2 & -> & Hk2); [by eapply env_keeps|lia|lia| |].
    + replace (0 + Z.of_nat (Z.to_nat len)) with len by lia. eapply same_dom_mapped; [apply Hk|done].
    + exists m2. split; [done|]. by eapply buffer_only_trans.
Qed.
End Values.

(** ** Runs of properties *)

Lemma strncmp_zero k l s1 s2 m :
  bytes_at m s1 (l ++ [0]) → cstr m s2 k →
  ∃ r, strncmp_loop (S (length k)) s1 s2 m = Ok r ∧ (r = 0 ↔ take (S (length k)) (l ++ [0]) = k ++ [0]).
Proof.
  revert l s1 s2. induction k as [|b k IH]; intros l s1 s2 Hl Hk; cbn [strncmp_loop length].
  - apply cstr_nil in Hk. destruct l as [|a l]; cbn [app] in Hl; destruct Hl as [Ha _];
      rewrite (load8_ok _ _ _ Ha), (load8_ok _ _ _ Hk); cbn [obind].
    + eexists. split; [done|]. done.
    + rewrite orb_true_r. eexists. split; [done|]. cbn. rewrite take_0. split; [intros E; f_equal; lia|intros [= ->]; lia].
  - apply cstr_cons in Hk as (Hb & Hr & Hk). destruct l as [|a l]; cbn [app] in Hl; destruct Hl as [Ha Hl];
      rewrite (load8_ok _ _ _ Ha), (load8_ok _ _ _ Hb); cbn [obind].
    + rewrite (proj2 (Z.eqb_neq 0 b)) by lia. cbn [negb orb]. eexists. split; [done|]. cbn. split; [lia|intros [= <-]; lia].
    + rewrite (proj2 (Z.eqb_neq b 0)) by lia. destruct (Z.eqb_spec a b) as [->|Hne].
      * rewrite (proj2 (Z.eqb_neq b 0)) by lia. cbn [negb orb]. destruct (IH l (s1 + 1) (s2 + 1) Hl Hk) as (r & E & Hz).
        exists r. split; [exact E|]. rewrite Hz. cbn [app take length]. split; [by intros ->|by intros [= ?]].
      * cbn [negb orb]. eexists. split; [done|]. cbn. split; [lia|intros [= ? _]; lia].
Qed.

Lemma read64_at m p l : (8 ≤ length l)%nat → bytes_at m p l → readBigEndian64 p m = Ok (be_value (take 8 l)).
Proof.
  intros Hl Hb. assert (∀ q i b, l !! i = Some b → q = p + Z.of_nat i → load8 q m = Ok b) as G.
  { rewrite bytes_at_lookup in Hb. intros q i b Hi ->. by apply load8_ok, Hb. }
  do 8 (destruct l as [|? l]; [cbn in Hl; lia|]). unfold readBigEndian64, readBigEndian32.
  erewrite (G (p + 4 + 3) 7%nat), (G (p + 4 + 2) 6%nat), (G (p + 4 + 1) 5%nat), (G (p + 4) 4%nat),
    (G (p + 3) 3%nat), (G (p + 2) 2%nat), (G (p + 1) 1%nat), (G p 0%nat) by (reflexivity || lia).
  cbn [obind]. f_equal. unfold be_value. cbn [take fold_left]. rewrite take_0. cbn [fold_left]. lia.
Qed.

Lemma recordMem_ok m p l : (16 ≤ length l)%nat → bytes_at m p l → recordMem p m = Ok (memory_of l).
Proof.
  intros Hl Hb. unfold recordMem. rewrite (read64_at m p l) by (done || lia). cbn [obind].
  rewrite <-(take_drop 8 l) in Hb. apply bytes_at_app in Hb as [_ Hb]. rewrite length_take, Nat.min_l in Hb by lia.
  rewrite (read64_at m (p + 8) (drop 8 l)); [done|rewrite length_drop; lia|done].
Qed.

(** A token below [2^24] starts with a zero byte; what follows a value always does. *)
Definition starts (l : list Z) : Prop := ∃ x t, l = be32 x ++ t ∧ 0 ≤ x < 2 ^ 24 ∧ x ≠ FDT_NOP.

Lemma be32_zero x : 0 ≤ x < 2 ^ 24 → ∃ t, be32 x = 0 :: t.
Proof. intros Hx. unfold be32. replace (x / 2 ^ 24) with 0 by zdm. by eexists. Qed.

Lemma zero_next v k l : starts l → ∃ t, pad v ++ nop_words k ++ l = 0 :: t.
Proof.
  intros (x & t & -> & Hx & _). unfold pad. destruct (Z.to_nat _) as [|n]; [|by eexists]. cbn [replicate app].
  destruct k as [|k]; [|by eexists]. destruct (be32_zero x Hx) as (t' & ->). by eexists.
Qed.

Lemma props_starts ps l : starts l → starts (props_bytes ps ++ l).
Proof.
  intros Hl. destruct ps as [|p ps]; [done|]. change (props_bytes (p :: ps)) with (prop_bytes p ++ props_bytes ps).
  unfold prop_bytes. rewrite <-!app_assoc. by eexists _, _.
Qed.

Section Runs.
Context (L : layout) (W : walk).

(** Bytes of the structure block, which is beside the buffer. *)
Definition apart (p : Z) (l : list Z) : Prop :=
  disjoint (strBuf L) STRBUF_SIZE p (Z.of_nat (length l)) ∧ lo W ≤ p ∧ p + Z.of_nat (length l) ≤ hi W.
Definition lies (m : mem) (p : Z) (l : list Z) : Prop := apart p l ∧ bytes_at m p l.

Lemma lies_app m p l1 l2 : lies m p (l1 ++ l2) → lies m p l1 ∧ lies m (p + Z.of_nat (length l1)) l2.
Proof.
  intros [Ha Hb]. apply bytes_at_app in Hb as [H1 H2]. unfold lies, apart, disjoint in *. rewrite length_app in Ha.
  split; (split; [lia|done]).
Qed.

Lemma lies_keeps m m' p l : keeps L m m' → lies m p l → lies m' p l.
Proof. intros Hk [Ha Hb]. split; [done|]. eapply keeps_bytes; [done|apply Ha|done]. Qed.

(** A pointer to the bytes, null for none. *)
Definition holds (m : mem) (p : Z) (o : option (list Z)) : Prop :=
  match o with
  | None => p = 0
  | Some l => p ≠ 0 ∧ lies m p l
  end.

Lemma holds_keeps m m' p o : keeps L m m' → holds m p o → holds m' p o.
Proof. intros Hk. destruct o as [l|]; cbn; [|done]. intros [? Hl]. split; [done|by eapply lies_keeps]. Qed.

Definition terminated (o : option (list Z)) : option (list Z) := option_map (λ s, s ++ [0]) o.

Lemma token_lies m p x l : 0 ≤ x < 2 ^ 32 → lies m p (be32 x ++ l) → readBigEndian32 p m = Ok x.
Proof. intros Hx [_ Hb]. by eapply token_at. Qed.

(** One property: the string or the value is noted, and the walk is at what follows. *)
Lemma scan_props_step fuel p node ns v s0 v0 m l :
  env_ok L W m → prop_ok (max_name W) p → node mod 4 = 0 → 0 ≤ node → node + Z.of_nat (length (prop_bytes p ++ l)) < 2 ^ 64 - 4 →
  lies m node (prop_bytes p ++ l) → starts l → holds m ns (terminated s0) → holds m v v0 →
  ∃ ns' v' m',
    scan_props L (w_header W) (S fuel) node ns v m = scan_props L (w_header W) fuel (node + Z.of_nat (length (prop_bytes p))) ns' v' m' ∧
    keeps L m m' ∧
    (if is_number p then holds m' ns' (terminated s0) ∧ holds m' v' (Some (p_value p))
     else holds m' ns' (terminated (Some (p_value p))) ∧ holds m' v' v0).
Proof.
  intros He (Hno & Hmx & Hv & Hvl) Hal Hp Hmax Hl Hst Hns Hvv. unfold prop_bytes in *. rewrite <-!app_assoc in *.
  cbn [scan_props]. rewrite (token_lies _ _ FDT_PROP _ ltac:(done) Hl). cbn [obind Z.eqb FDT_PROP Pos.eqb].
  rewrite !length_app, !be32_length in Hmax. set (val := p_value p) in *.
  apply lies_app in Hl as [_ Hl]. rewrite be32_length in Hl. change (Z.of_nat 4) with 4 in Hl.
  rewrite (token_lies _ _ (Z.of_nat (length val)) _ ltac:(lia) Hl). cbn [obind].
  apply lies_app in Hl as [_ Hl]. rewrite be32_length in Hl. change (Z.of_nat 4) with 4 in Hl.
  rewrite (token_lies _ _ (p_nameoff p) _ ltac:(lia) Hl). cbn [obind].
  apply lies_app in Hl as [_ Hl]. rewrite be32_length in Hl. change (Z.of_nat 4) with 4 in Hl.
  set (q := node + 4 + 4 + 4) in *. rewrite (env_strings _ _ _ He). cbn [obind].
  destruct (env_names _ _ _ He (q - lo W + p_nameoff p)) as [nm Hnm]; [destruct Hl as [[_ Hin] _]; lia|].
  replace (lo W + w_strings W + (q - lo W + p_nameoff p)) with (q + w_strings W + p_nameoff p) in Hnm by lia.
  rewrite (load8_ok _ _ _ Hnm). cbn [obind].
  assert (lies m q (val ++ [0])) as Hq.
  { destruct (zero_next val (p_nops p) l Hst) as (t & Ez). rewrite Ez in Hl. change (0 :: t) with ([0] ++ t) in Hl.
    rewrite app_assoc in Hl. by apply lies_app in Hl as [? _]. }
  assert (∃ ns' v' m', (if number_len (Z.of_nat (length val)) then let! m := format_value L q (Z.of_nat (length val)) m in Ok (ns, q, m)
      else Ok (q, v, m)) = Ok (ns', v', m') ∧ keeps L m m' ∧
    (if is_number p then holds m' ns' (terminated s0) ∧ holds m' v' (Some val)
     else holds m' ns' (terminated (Some val)) ∧ holds m' v' v0)) as (ns' & v' & m' & -> & Hk & Hh).
  { unfold is_number. fold val. destruct (number_len (Z.of_nat (length val))) eqn:En.
    - destruct (format_value_ok L W q (Z.of_nat (length val)) m He) as (m' & -> & Hk).
      + unfold number_len in En. repeat (apply orb_prop in En as [En|En]); apply Z.eqb_eq in En; lia.
      + apply lies_app in Hq as [[_ Hb] _]. by apply bytes_at_mapped.
      + cbn [obind]. exists ns, q, m'. split; [done|]. split; [done|]. split; [by eapply holds_keeps|].
        split; [lia|]. apply lies_app in Hq as [Hq _]. by eapply lies_keeps.
    - exists q, v, m. split; [done|]. split; [apply buffer_only_refl, He|]. split; [|done]. split; [lia|done]. }
  cbn [obind]. exists ns', v', m'. split; [|by split]. rewrite (FOURROUNDUP_ok q val) by (try rewrite length_app; try (unfold q; zdm); lia).
  rewrite app_assoc in Hl. apply lies_app in Hl as [_ Hl]. apply (lies_keeps _ m') in Hl; [|done]. destruct Hl as [_ Hl].
  destruct Hst as (x & t & -> & Hx & Hn). rewrite (skip_nop_ok _ (p_nops p) m' _ x t) by
    (try done; try lia; pose proof (nops_fuel _ _ _ _ Hl); lia).
  cbn [obind]. f_equal. unfold q. rewrite !length_app, !be32_length. lia.
Qed.

Lemma prop_bytes_align p : Z.of_nat (length (prop_bytes p)) mod 4 = 0.
Proof.
  unfold prop_bytes. pose proof (pad_length (p_value p)) as H. rewrite !length_app, !be32_length, nop_words_length in *. zdm.
Qed.

Lemma scan_props_ok fuel ps node ns v s0 v0 m x t :
  env_ok L W m → Forall (prop_ok (max_name W)) ps → node mod 4 = 0 → 0 ≤ node →
  node + Z.of_nat (length (props_bytes ps ++ be32 x ++ t)) < 2 ^ 64 - 4 →
  lies m node (props_bytes ps ++ be32 x ++ t) → 0 ≤ x < 2 ^ 24 → x ≠ FDT_NOP → x ≠ FDT_PROP →
  holds m ns (terminated s0) → holds m v v0 → (length ps < fuel)%nat →
  ∃ ns' v' m', scan_props L (w_header W) fuel node ns v m = Ok (node + Z.of_nat (length (props_bytes ps)), ns', v', m') ∧ keeps L m m' ∧
    holds m' ns' (terminated (fst (last_values ps s0 v0))) ∧ holds m' v' (snd (last_values ps s0 v0)).
Proof.
  revert fuel node ns v s0 v0 m. induction ps as [|p ps IH]; intros [|fuel] node ns v s0 v0 m He Hok Hal Hn Hmax Hl Hx Hx1 Hx2 Hs Hv Hf;
    [cbn in Hf; lia| |cbn in Hf; lia|].
  - cbn [props_bytes mbind list_bind app] in Hl. cbn [scan_props]. rewrite (token_lies _ _ x _ ltac:(lia) Hl). cbn [obind].
    rewrite (proj2 (Z.eqb_neq _ _) Hx2). exists ns, v, m. split; [cbn; by rewrite Z.add_0_r|]. split; [apply buffer_only_refl, He|by split].
  - apply Forall_cons in Hok as [Hp Hok]. change (props_bytes (p :: ps)) with (prop_bytes p ++ props_bytes ps) in *.
    rewrite <-app_assoc in Hl, Hmax. assert (starts (be32 x ++ t)) as Hst by (by eexists _, _).
    destruct (scan_props_step fuel p node ns v s0 v0 m (props_bytes ps ++ be32 x ++ t)) as (ns1 & v1 & m1 & -> & Hk & Hh);
      [done..|by apply props_starts|done|done|]. rewrite length_app in Hmax. pose proof (prop_bytes_align p).
    apply (lies_keeps m m1) in Hl; [|done]. apply lies_app in Hl as [_ Hl].
    assert (∃ s1 w1, holds m1 ns1 (terminated s1) ∧ holds m1 v1 w1 ∧ last_values (p :: ps) s0 v0 = last_values ps s1 w1)
      as (s1 & w1 & Hs1 & Hw1 & ->).
    { cbn [last_values]. destruct (is_number p); destruct Hh; by eexists _, _. }
    destruct (IH fuel (node + Z.of_nat (length (prop_bytes p))) ns1 v1 s1 w1 m1) as (ns2 & v2 & m2 & E & Hk2 & Hh2);
      [by eapply env_keeps|done|zdm|lia|lia|done..|cbn in Hf; lia|].
    exists ns2, v2, m2. split; [by rewrite E, length_app, Nat2Z.inj_add, Z.add_assoc|]. split; [by eapply buffer_only_trans|done].
Qed.

Lemma record_memory_ok ps ns v info m :
  env_ok L W m → memory_ok ps →
  holds m ns (terminated (fst (last_values ps None None))) → holds m v (snd (last_values ps None None)) →
  record_memory L ns v info m = Ok (record_props ps info).
Proof.
  intros He Hmo. unfold record_memory, record_props, memory_ok in *. destruct (last_values ps None None) as [[s|] o]; cbn; [|by intros ->].
  intros [Hns [_ Hb]] Hv. rewrite (proj2 (Z.eqb_neq ns NULL)) by done. unfold strncmp. cbn [Z.eqb].
  destruct (env_lits _ _ _ He (memory_str L) memory_text) as [Hc _]; [do 3 right; by left|].
  destruct (strncmp_zero memory_text s ns (memory_str L) m Hb Hc) as (r & E & Hz).
  change (Z.to_nat 7) with (S (length memory_text)). rewrite E. cbn [obind].
  unfold is_memory in *. change 7%nat with (S (length memory_text)) in *.
  destruct (Z.eqb_spec r 0) as [Hr|Hr].
  - assert (take (S (length memory_text)) (s ++ [0]) = memory_text ++ [0]) as Et by tauto.
    rewrite bool_decide_eq_true_2 in Hmo |- * by done. destruct (Hmo eq_refl) as (l & -> & Hl16). destruct Hv as [_ [_ Hv]]. by apply recordMem_ok.
  - rewrite bool_decide_eq_false_2 by tauto. by destruct o.
Qed.

Lemma prop_bytes_length p : (12 ≤ length (prop_bytes p))%nat.
Proof. unfold prop_bytes. rewrite !length_app, !be32_length. lia. Qed.

Lemma props_bytes_length ps : (length ps ≤ length (props_bytes ps))%nat.
Proof.
  induction ps as [|p ps IH]; [done|]. change (props_bytes (p :: ps)) with (prop_bytes p ++ props_bytes ps). rewrite length_app.
  pose proof (prop_bytes_length p). cbn. lia.
Qed.

Lemma lies_fuel m p l : lies m p l → (length l ≤ size m)%nat.
Proof. intros [_ Hb%bytes_at_mapped%mapped_size]. lia. Qed.

(** The properties of a node. *)
Lemma scan_runs_ok k ps node info m x t :
  env_ok L W m → Forall (prop_ok (max_name W)) ps → memory_ok ps → node mod 4 = 0 → 0 ≤ node →
  node + Z.of_nat (length (nop_words k ++ props_bytes ps ++ be32 x ++ t)) < 2 ^ 64 - 4 →
  lies m node (nop_words k ++ props_bytes ps ++ be32 x ++ t) → 0 ≤ x < 2 ^ 24 → x ≠ FDT_NOP → x ≠ FDT_PROP →
  ∃ m', scan_runs L (w_header W) (S (size m)) node info m =
      Ok (node + Z.of_nat (length (nop_words k ++ props_bytes ps)), record_props ps info, m') ∧ keeps L m m'.
Proof.
  intros He Hok Hmo Hal Hn Hmax Hl Hx Hx1 Hx2. assert (starts (be32 x ++ t)) as Hst by (by eexists _, _).
  pose proof (props_starts ps _ Hst) as (y & t' & Ey & Hy & Hy1). pose proof (lies_fuel _ _ _ Hl) as Hsz.
  assert (skip_nop (S (size m)) node m = Ok (node + Z.of_nat (length (nop_words k)))) as Esk.
  { rewrite Ey in Hl. apply (skip_nop_ok _ k m node y t'); [|lia|done|apply Hl]. destruct Hl as [_ Hb]. pose proof (nops_fuel _ _ _ _ Hb). lia. }
  cbn [scan_runs]. rewrite Esk. cbn [obind]. clear Esk. rewrite length_app in Hmax, Hsz. apply lies_app in Hl as [_ Hl].
  set (q := node + Z.of_nat (length (nop_words k))) in *.
  destruct ps as [|p ps]; [|].
  { cbn [props_bytes mbind list_bind app] in Hl. rewrite (token_lies _ _ x _ ltac:(lia) Hl). cbn [obind].
    rewrite (proj2 (Z.eqb_neq _ _) Hx2). exists m. rewrite app_nil_r. split; [done|apply buffer_only_refl, He]. }
  assert (readBigEndian32 q m = Ok FDT_PROP) as ->.
  { change (props_bytes (p :: ps)) with (prop_bytes p ++ props_bytes ps) in Hl. unfold prop_bytes in Hl. rewrite <-!app_assoc in Hl. by eapply token_lies. }
  cbn [obind Z.eqb FDT_PROP Pos.eqb]. set (P := p :: ps) in *.
  destruct (scan_props_ok (S (size m)) P q NULL NULL None None m x t) as (ns & v & m' & -> & Hk & Hs & Hv); try done.
  - unfold q. rewrite nop_words_length. zdm.
  - lia.
  - lia.
  - rewrite length_app in Hsz. pose proof (props_bytes_length P). lia.
  - cbn [obind]. assert (env_ok L W m') as He' by (by eapply env_keeps). rewrite (record_memory_ok P) by done. cbn [obind].
    apply (lies_keeps m m') in Hl; [|done]. apply lies_app in Hl as [_ Hl].
    destruct (size m) as [|n] eqn:Es; [rewrite !length_app, be32_length in Hsz; lia|]. cbn [scan_runs].
    rewrite (skip_nop_ok _ 0 m' _ x t) by (try done; try lia; apply Hl). cbn [nop_words replicate concat length obind].
    rewrite Z.add_0_r, (token_lies _ _ x _ ltac:(lia) Hl). cbn [obind]. rewrite (proj2 (Z.eqb_neq _ _) Hx2).
    exists m'. split; [|done]. unfold q. by rewrite (length_app (nop_words k)), Nat2Z.inj_add, Z.add_assoc.
Qed.
End Runs.

(** ** Nodes *)

Lemma node_bytes_eq name k ps cs a :
  node_bytes (Node name k ps cs a) =
    be32 FDT_BEGIN_NODE ++ ((name ++ [0]) ++ pad (name ++ [0])) ++ nop_words k ++ props_bytes ps ++ children_bytes cs ++ be32 FDT_END_NODE.
Proof. cbn [node_bytes]. by rewrite <-!app_assoc. Qed.

Lemma node_bytes_begin t : ∃ l, node_bytes t = be32 FDT_BEGIN_NODE ++ l.
Proof. destruct t. rewrite node_bytes_eq. by eexists. Qed.

Lemma children_cons c cs : children_bytes (c :: cs) = node_bytes c ++ nop_words (after c) ++ children_bytes cs.
Proof. unfold children_bytes. cbn [map concat]. by rewrite <-app_assoc. Qed.

(** What follows the properties: a child or the end. *)
Lemma children_head cs : ∃ x t, children_bytes cs ++ be32 FDT_END_NODE = be32 x ++ t ∧ (x = FDT_BEGIN_NODE ∨ x = FDT_END_NODE).
Proof.
  destruct cs as [|c cs]; [exists FDT_END_NODE, []; split; [done|by right]|]. rewrite children_cons.
  destruct (node_bytes_begin c) as (l & ->). eexists _, _. rewrite <-!app_assoc. split; [done|by left].
Qed.

Lemma props_bytes_align ps : Z.of_nat (length (props_bytes ps)) mod 4 = 0.
Proof.
  induction ps as [|p ps IH]; [done|]. change (props_bytes (p :: ps)) with (prop_bytes p ++ props_bytes ps). rewrite length_app.
  pose proof (prop_bytes_align p). zdm.
Qed.

Lemma node_bytes_align t : Z.of_nat (length (node_bytes t)) mod 4 = 0 ∧ (12 ≤ length (node_bytes t))%nat.
Proof.
  induction t as [name k ps cs a IH] using tree_nested_ind. rewrite node_bytes_eq.
  assert (Z.of_nat (length (children_bytes cs)) mod 4 = 0) as Hc.
  { induction IH as [|c cs [Hc _] _ IHc]; [done|]. rewrite children_cons, !length_app, nop_words_length. zdm. }
  pose proof (pad_length (name ++ [0])) as Hn. pose proof (props_bytes_align ps).
  assert (1 ≤ Z.of_nat (length (name ++ [0]))) by (rewrite length_app; cbn; lia).
  rewrite (length_app (be32 _)), (length_app (_ ++ pad _)), (length_app (nop_words k)), (length_app (props_bytes ps)),
    (length_app (children_bytes cs)), !be32_length, nop_words_length.
  assert (1 ≤ Z.of_nat (length ((name ++ [0]) ++ pad (name ++ [0])))) by (rewrite length_app; lia).
  set (N := length ((name ++ [0]) ++ pad (name ++ [0]))) in *. split; [zdm|].
  assert (4 ≤ N)%nat by zdm. lia.
Qed.

(** One step of the recursion. *)
Lemma parseFdtNode_S L h fuel node info m :
  parseFdtNode L h (S fuel) node info m =
    (let! node := skip_nop (S (size m)) node m in
     let! t := readBigEndian32 node m in
     if negb (t =? FDT_BEGIN_NODE) then Panic
     else
       let node := node + 4 in
       let! n := strlen node m in
       let node := FOURROUNDUP (node + (n + 1)) in
       let! (node, info, m) := scan_runs L h (S (size m)) node info m in
       let! (node, info, m) := parse_children L h fuel node info m in
       Ok (node + 4, info, m)).
Proof. done. Qed.

Lemma parse_children_S L h fuel node info m :
  parse_children L h (S fuel) node info m =
    (let! t := readBigEndian32 node m in
     if negb (t =? FDT_END_NODE) then
       let! (node, info, m) := parseFdtNode L h fuel node info m in
       let! node := skip_nop (S (size m)) node m in
       parse_children L h fuel node info m
     else Ok (node, info, m)).
Proof. done. Qed.

Section Nodes.
Context (L : layout) (W : walk).

Definition parses (t : tree) : Prop := ∀ fuel p info m,
  env_ok L W m → tree_ok (max_name W) t → p mod 4 = 0 → 0 ≤ p → p + Z.of_nat (length (node_bytes t)) < 2 ^ 64 - 4 →
  lies L W m p (node_bytes t) → (length (node_bytes t) ≤ fuel)%nat →
  ∃ m', parseFdtNode L (w_header W) fuel p info m = Ok (p + Z.of_nat (length (node_bytes t)), record_tree t info, m') ∧ keeps L m m'.

Lemma parse_children_ok cs fuel p info m :
  Forall parses cs → env_ok L W m → fold_right (λ c P, tree_ok (max_name W) c ∧ P) True cs → p mod 4 = 0 → 0 ≤ p →
  p + Z.of_nat (length (children_bytes cs ++ be32 FDT_END_NODE)) < 2 ^ 64 - 4 →
  lies L W m p (children_bytes cs ++ be32 FDT_END_NODE) → (length (children_bytes cs) < fuel)%nat →
  ∃ m', parse_children L (w_header W) fuel p info m =
      Ok (p + Z.of_nat (length (children_bytes cs)), fold_left (λ i c, record_tree c i) cs info, m') ∧ keeps L m m'.
Proof.
  intros HP. revert fuel p info m. induction HP as [|c cs Hc HP IH]; intros [|fuel] p info m He Hok Hal Hp Hmax Hl Hf; try lia; rewrite parse_children_S.
  - cbn [children_bytes map concat app] in *. rewrite (token_lies L W m p FDT_END_NODE []) by (rewrite ?app_nil_r; done).
    cbn [obind Z.eqb FDT_END_NODE Pos.eqb negb]. exists m. split; [cbn; by rewrite Z.add_0_r|apply buffer_only_refl, He].
  - rewrite children_cons in *. rewrite <-!app_assoc in *. destruct Hok as [Hokc Hok]. destruct (node_bytes_align c) as [Hca Hcl].
    assert (readBigEndian32 p m = Ok FDT_BEGIN_NODE) as ->.
    { destruct (node_bytes_begin c) as (l & El). rewrite El, <-app_assoc in Hl. by eapply token_lies. }
    cbn [obind Z.eqb FDT_BEGIN_NODE FDT_END_NODE Pos.eqb negb]. rewrite !length_app in Hmax, Hf.
    destruct (Hc fuel p info m He Hokc Hal Hp) as (m1 & -> & Hk); [lia|by apply lies_app in Hl as [? _]|lia|]. cbn [obind].
    apply (lies_keeps L W m m1) in Hl; [|done]. apply lies_app in Hl as [_ Hl]. destruct (children_head cs) as (x & t & Ex & Hx).
    rewrite (skip_nop_ok _ (after c) m1 _ x t); [|destruct Hl as [_ Hb]; pose proof (nops_fuel _ _ _ _ Hb); lia
      |destruct Hx as [->| ->]; done|destruct Hx as [->| ->]; done|rewrite <-Ex; apply Hl]. cbn [obind].
    apply lies_app in Hl as [_ Hl]. rewrite nop_words_length in *.
    destruct (IH fuel (p + Z.of_nat (length (node_bytes c)) + Z.of_nat (4 * after c)) (record_tree c info) m1) as (m2 & -> & Hk2);
      [by eapply env_keeps|done|zdm|lia|rewrite length_app, be32_length in *; lia|done|lia|].
    exists m2. split; [|by eapply buffer_only_trans]. cbn [fold_left]. rewrite !length_app, nop_words_length, !Nat2Z.inj_add, !Z.add_assoc. done.
Qed.

Lemma parseFdtNode_ok t : parses t.
Proof.
  induction t as [name k ps cs a IH] using tree_nested_ind. intros fuel p info m He (Hname & Hps & Hmo & Hcs) Hal Hp Hmax Hl Hf.
  rewrite node_bytes_eq in *. rewrite !length_app, !be32_length in Hf. destruct fuel as [|fuel]; [lia|]. rewrite parseFdtNode_S.
  rewrite (skip_nop_ok (S (size m)) 0 m p FDT_BEGIN_NODE _ ltac:(lia) ltac:(done) ltac:(done) (proj2 Hl)).
  cbn [nop_words replicate concat length obind]. rewrite Z.add_0_r, (token_lies L W m p FDT_BEGIN_NODE _ ltac:(done) Hl).
  cbn [obind Z.eqb FDT_BEGIN_NODE Pos.eqb negb]. rewrite (length_app (be32 _)), be32_length in Hmax |- *.
  apply lies_app in Hl as [_ Hl]. rewrite be32_length in Hl. change (Z.of_nat 4) with 4 in *. set (q := p + 4) in *.
  assert (cstr m q name) as Hc.
  { split; [|done]. apply lies_app in Hl as [Hl _]. apply lies_app in Hl as [Hl _]. apply Hl. }
  rewrite (strlen_ok _ _ _ Hc). cbn [obind]. set (N := (name ++ [0]) ++ pad (name ++ [0])) in *.
  rewrite (length_app N) in Hmax |- *.
  replace (q + (Z.of_nat (length name) + 1)) with (q + Z.of_nat (length (name ++ [0]))) by (rewrite length_app; cbn; lia).
  rewrite FOURROUNDUP_ok by (try (fold N); unfold q; zdm || lia). fold N. apply lies_app in Hl as [_ Hl].
  set (q2 := q + Z.of_nat (length N)) in *. destruct (children_head cs) as (x & t & Ex & Hx).
  assert (q2 mod 4 = 0) as Hq2 by (unfold q2, q, N; pose proof (pad_length (name ++ [0])); zdm).
  destruct (scan_runs_ok L W k ps q2 info m x t) as (m1 & -> & Hk); try done; try (rewrite <-Ex; first [done|unfold q2, q; lia]);
    [unfold q2, q; lia|destruct Hx as [->| ->]; done..|]. cbn [obind].
  apply (lies_keeps L W m m1) in Hl; [|done]. rewrite app_assoc in Hl, Hmax. apply lies_app in Hl as [_ Hl].
  rewrite (length_app (_ ++ props_bytes ps)) in Hmax. set (q3 := q2 + Z.of_nat (length (nop_words k ++ props_bytes ps))) in *.
  destruct (parse_children_ok cs fuel q3 (record_props ps info) m1) as (m2 & -> & Hk2); try done.
  - by eapply env_keeps.
  - unfold q3. rewrite length_app, nop_words_length. pose proof (props_bytes_align ps). zdm.
  - unfold q3, q2, q. lia.
  - unfold q3, q2, q in *. lia.
  - lia.
  - cbn [obind]. exists m2. split; [|by eapply buffer_only_trans]. cbn [record_tree]. unfold q3, q2, q.
    rewrite !length_app, be32_length, !Nat2Z.inj_add, !Z.add_assoc. done.
Qed.
End Nodes.

(** ** The header *)

Lemma swapChar_ok a b m :
  a ≠ b → is_Some (m !! a) → is_Some (m !! b) → mem_ok m →
  ∃ m', swapChar a b m = Ok m' ∧ m' !! a = m !! b ∧ m' !! b = m !! a ∧
    (∀ x, x ≠ a → x ≠ b → m' !! x = m !! x) ∧ same_dom m m' ∧ mem_ok m'.
Proof.
  intros Hab [c Hc] [d Hd] Hok. unfold swapChar. rewrite (load8_ok _ _ _ Hc), (load8_ok _ _ _ Hd). cbn [obind].
  destruct (store8_ok a d m) as (m1 & -> & -> & Hd1 & Hok1); [by rewrite Hc|done|]. cbn [obind].
  destruct (store8_ok b c (<[a := u8 d]> m)) as (m2 & -> & -> & Hd2 & Hok2); [apply Hd1; by rewrite Hd|done|].
  eexists. split; [done|]. rewrite (u8_small c), (u8_small d) in * by (by eapply Hok). split_and!; [..|by eapply same_dom_trans|done].
  - by rewrite lookup_insert_ne, lookup_insert_eq.
  - by rewrite lookup_insert_eq.
  - intros x ? ?. by rewrite !lookup_insert_ne.
Qed.

Lemma swap_words_ok n bin i m :
  mapped m (bin + i) (4 * Z.of_nat n) → mem_ok m →
  ∃ m', swap_words n bin i m = Ok m' ∧
    (∀ k j, 0 ≤ k < Z.of_nat n → 0 ≤ j < 4 → m' !! (bin + i + 4 * k + j) = m !! (bin + i + 4 * k + (3 - j))) ∧
    (∀ a, ~ (bin + i ≤ a < bin + i + 4 * Z.of_nat n) → m' !! a = m !! a) ∧ same_dom m m' ∧ mem_ok m'.
Proof.
  revert i m. induction n as [|n IH]; intros i m Hm Hok; cbn [swap_words].
  { exists m. split; [done|]. split; [lia|]. split; [done|]. by split. }
  destruct (swapChar_ok (bin + i) (bin + i + 3) m) as (m1 & -> & A1 & B1 & O1 & D1 & K1);
    [lia|rewrite <-(Z.add_0_r (bin + i)); apply Hm; lia|apply Hm; lia|done|]. cbn [obind].
  destruct (swapChar_ok (bin + i + 1) (bin + i + 2) m1) as (m2 & -> & A2 & B2 & O2 & D2 & K2);
    [lia|apply D1, Hm; lia|apply D1, Hm; lia|done|]. cbn [obind].
  destruct (IH (i + 4) m2) as (m3 & -> & H3 & O3 & D3 & K3); [|done|].
  { intros x Hx. apply D2, D1. replace (bin + (i + 4) + x) with (bin + i + (4 + x)) by lia. apply Hm. lia. }
  exists m3. split; [done|]. split_and!; [| |by do 2 (eapply same_dom_trans; [done|])|done].
  - intros k j Hk Hj. destruct (Z.eq_dec k 0) as [->|Hne].
    + rewrite O3 by lia. assert (j = 0 ∨ j = 1 ∨ j = 2 ∨ j = 3) as Hj' by lia.
      rewrite Z.mul_0_r, Z.add_0_r. destruct Hj' as [->|[->|[->| ->]]]; rewrite ?Z.add_0_r;
        [rewrite O2 by lia; done|rewrite A2; apply O1; lia|rewrite B2; apply O1; lia|rewrite O2 by lia; rewrite B1; f_equal; lia].
    + specialize (H3 (k - 1) j ltac:(lia) Hj). replace (bin + (i + 4) + 4 * (k - 1) + j) with (bin + i + 4 * k + j) in H3 by lia.
      rewrite H3, O2, O1 by lia. f_equal. lia.
  - intros a Ha. rewrite O3, O2, O1 by lia. done.
Qed.

(** The converted word read by the machine is the stored one read from the left. *)
Lemma header_word m m' p x :
  readBigEndian32 p m = Ok x → (∀ j, 0 ≤ j < 4 → m' !! (p + j) = m !! (p + (3 - j))) → load_le 4 p m' = Ok x.
Proof.
  intros E Hj. unfold readBigEndian32, load8 in E.
  destruct (m !! (p + 3)) as [b0|] eqn:E0; [|done]. destruct (m !! (p + 2)) as [b1|] eqn:E1; [|done].
  destruct (m !! (p + 1)) as [b2|] eqn:E2; [|done]. destruct (m !! p) as [b3|] eqn:E3; [|done]. cbn [of_option obind] in E. injection E as <-.
  assert (∀ j b, 0 ≤ j < 4 → m !! (p + (3 - j)) = Some b → ∀ q, q = p + j → load8 q m' = Ok b) as G
    by (intros j b Hr Hb q ->; apply load8_ok; by rewrite Hj).
  cbn [load_le]. rewrite (G 0 b0 ltac:(lia) E0 p) by lia. cbn [obind].
  rewrite (G 1 b1 ltac:(lia) E1 (p + 1)) by lia. cbn [obind]. rewrite (G 2 b2 ltac:(lia) E2 (p + 1 + 1)) by lia. cbn [obind].
  rewrite (G 3 b3 ltac:(lia) ltac:(by rewrite Z.add_0_r) (p + 1 + 1 + 1)) by lia. cbn [obind]. f_equal. lia.
Qed.

(** The buffer and the literals of the file. *)
Record literals_ok (L : layout) (m : mem) : Prop := {
  li_mem : mem_ok m;
  li_buf : mapped m (strBuf L) STRBUF_SIZE;
  li_null : 0 < strBuf L ∧ pre L ≠ 0;
  li_lits p l : (p, l) ∈ literals L → cstr m p l ∧ disjoint (strBuf L) STRBUF_SIZE p (Z.of_nat (length l) + 1);
}.

(** Where a blob may lie: the header beside the buffer, the literals and the structure
    block, and readable memory where the code looks for the names. *)
Record blob_ok (L : layout) (dtb off strings mx : Z) (t : tree) (m : mem) : Prop := {
  blob_header : mapped m dtb FDT_HEADER_SIZE;
  blob_off : readBigEndian32 (dtb + OFF_DT_STRUCT) m = Ok off;
  blob_strings : readBigEndian32 (dtb + OFF_DT_STRINGS) m = Ok strings;
  blob_align : (dtb + off) mod 4 = 0 ∧ 0 ≤ dtb + off;
  blob_max : dtb + off + Z.of_nat (length (node_bytes t)) < 2 ^ 64 - 4;
  blob_tree : bytes_at m (dtb + off) (node_bytes t ++ be32 FDT_END);
  blob_apart : disjoint dtb FDT_HEADER_SIZE (dtb + off) (Z.of_nat (length (node_bytes t)) + 4);
  blob_buf : disjoint (strBuf L) STRBUF_SIZE dtb FDT_HEADER_SIZE;
  blob_buf_tree : disjoint (strBuf L) STRBUF_SIZE (dtb + off) (Z.of_nat (length (node_bytes t)) + 4);
  blob_lits p l : (p, l) ∈ literals L → disjoint dtb FDT_HEADER_SIZE p (Z.of_nat (length l) + 1);
  blob_names : mapped m (dtb + off + strings) (Z.of_nat (length (node_bytes t)) + 4 + mx + 1);
}.

(** What holds once the header is converted. *)
Lemma header_converted L dtb off strings mx t m m1 :
  literals_ok L m → blob_ok L dtb off strings mx t m → same_dom m m1 → mem_ok m1 →
  (∀ k j, 0 ≤ k < 10 → 0 ≤ j < 4 → m1 !! (dtb + 4 * k + j) = m !! (dtb + 4 * k + (3 - j))) →
  (∀ a, ~ (dtb ≤ a < dtb + 40) → m1 !! a = m !! a) →
  let W := Walk dtb strings (dtb + off) (dtb + off + Z.of_nat (length (node_bytes t)) + 4) mx in
  env_ok L W m1 ∧ lies L W m1 (dtb + off) (node_bytes t ++ be32 FDT_END).
Proof.
  intros [_ Hbuf Hn Hli] Hb D1 K1 H1 O1 W.
  pose proof (blob_buf _ _ _ _ _ _ _ Hb) as Hdb. unfold disjoint, FDT_HEADER_SIZE in Hdb. split.
  - split; [done| | | |by eapply same_dom_mapped|done|].
    + apply (header_word m m1 (dtb + 12) strings (blob_strings _ _ _ _ _ _ _ Hb)). intros j Hj. exact (H1 3 j ltac:(lia) Hj).
    + unfold disjoint, OFF_DT_STRINGS, STRBUF_SIZE in *. cbn. lia.
    + eapply same_dom_mapped; [done|]. cbn.
      replace (_ - _ + mx + 1) with (Z.of_nat (length (node_bytes t)) + 4 + mx + 1) by lia. apply Hb.
    + intros p l Hin. destruct (Hli p l Hin) as [Hc Hd]. split; [|done]. eapply cstr_same; [|exact Hc].
      intros a Ha. apply O1. pose proof (blob_lits _ _ _ _ _ _ _ Hb p l Hin) as Hx. unfold disjoint, FDT_HEADER_SIZE in Hx. lia.
  - pose proof (blob_buf_tree _ _ _ _ _ _ _ Hb) as Hx. pose proof (blob_apart _ _ _ _ _ _ _ Hb) as Hy.
    unfold disjoint, FDT_HEADER_SIZE in *. split.
    + unfold apart, disjoint. cbn. rewrite length_app, be32_length. lia.
    + eapply bytes_at_same; [|apply Hb]. intros a Hr. apply O1. rewrite length_app, be32_length in Hr. lia.
Qed.

(** C26. For a blob that holds a device tree, with [NOP] words after names, properties and
    children, [parseDtb] ends and records the memory of the last node whose string
    property is ["memory"], the first two 64-bit numbers of its last numeric
    property. Nothing but the header, which it converts, and the 128 bytes of [strBuf]
    changes. *)
Theorem parseDtb_memory L dtb off strings mx t info m :
  literals_ok L m → tree_ok mx t → blob_ok L dtb off strings mx t m →
  ∃ m', parseDtb L dtb info m = Ok (record_tree t info, m') ∧
    ∀ a, ~ (dtb ≤ a < dtb + FDT_HEADER_SIZE) → ~ (strBuf L ≤ a < strBuf L + STRBUF_SIZE) → m' !! a = m !! a.
Proof.
  intros Hli Ht Hb. unfold parseDtb, parserFdtHeader, endianBigToLittle.
  destruct (swap_words_ok 10 dtb 0 m) as (m1 & E1 & H1 & O1 & D1 & K1); [rewrite Z.add_0_r; apply Hb|apply Hli|].
  change (Z.to_nat ((FDT_HEADER_SIZE + 3) / 4)) with 10%nat. rewrite E1. cbn [obind]. rewrite Z.add_0_r in *.
  change (4 * Z.of_nat 10) with 40 in *. change (Z.of_nat 10) with 10 in *.
  destruct (header_converted L dtb off strings mx t m m1 Hli Hb D1 K1 H1 O1) as [He Hl].
  set (W := Walk _ _ _ _ _) in *. pose proof (blob_align _ _ _ _ _ _ _ Hb) as [Hal Hp].
  unfold OFF_DT_STRUCT. rewrite (header_word m m1 (dtb + 8) off (blob_off _ _ _ _ _ _ _ Hb))
    by (intros j Hj; exact (H1 2 j ltac:(lia) Hj)). cbn [obind parse_trees].
  pose proof (lies_fuel _ _ _ _ _ Hl) as Hsz. rewrite length_app in Hsz. pose proof (proj1 (lies_app _ _ _ _ _ _ Hl)) as Hl2.
  destruct (parseFdtNode_ok L W t (S (size m1)) (dtb + off) info m1) as (m2 & E2 & Hk); [done..|apply Hb|done|lia|].
  change (w_header W) with dtb in E2. rewrite E2. cbn [obind].
  apply (lies_keeps L W m1 m2) in Hl; [|done]. apply lies_app in Hl as [_ Hl].
  rewrite (token_lies L W m2 _ FDT_END []) by (rewrite ?app_nil_r; done). cbn [obind Z.eqb FDT_END Pos.eqb negb].
  exists m2. split; [done|]. intros a Ha1 Ha2. rewrite (proj1 Hk) by done. by apply O1.
Qed.

(** ** An example: a root with one node for 4096 bytes of memory at [2^31] *)

Definition sample_layout : layout := Layout 8192 8500 8520 8530 8540 0.

Definition memory_node : tree :=
  Node [109] 1 [Property 0 (memory_text ++ [0]) 0; Property 8 ([0; 0; 0; 0; 128; 0; 0; 0] ++ [0; 0; 0; 0; 0; 0; 16; 0]) 1] [] 1.
Definition sample_tree : tree := Node [] 0 [Property 16 [0; 0; 0; 2] 0] [memory_node] 0.

(** The header with the offset 40, then [body] and some room for names. *)
Definition sample_blob (body : list Z) : mem :=
  mem_bytes 4096 ((replicate 8 0 ++ be32 40 ++ replicate 28 0) ++ body ++ replicate 20 0) ∪
  (mem_bytes 8192 (replicate 128 0) ∪
   (mem_bytes 8500 (values_text ++ [0]) ∪ (mem_bytes 8520 (s_text ++ [0]) ∪ (mem_bytes 8530 (x_text ++ [0]) ∪ mem_bytes 8540 (memory_text ++ [0]))))).

Definition sample_blob_mem : mem := sample_blob (node_bytes sample_tree ++ be32 FDT_END).

(** A [NOP] between the root and the end is taken for a second root. *)
Lemma nop_before_end_panics :
  parseDtb sample_layout 4096 (Mem_info 0 0) (sample_blob (node_bytes sample_tree ++ be32 FDT_NOP ++ be32 FDT_END)) = Panic.
Proof. vm_compute. done. Qed.

Lemma sample_env : literals_ok sample_layout sample_blob_mem.
Proof.
  split.
  - repeat apply mem_ok_union; apply mem_bytes_ok; vm_compute; repeat constructor; done.
  - apply (bytes_at_mapped _ 8192 (replicate 128 0)). vm_compute. by repeat split.
  - done.
  - intros p l Hin. unfold literals, disjoint, STRBUF_SIZE, sample_layout in *. cbn [strBuf pre fmt_s fmt_02x memory_str] in *.
    repeat (apply elem_of_cons in Hin as [[= -> ->]|Hin]; [split; [split; [vm_compute; by repeat split|by repeat constructor]|left; cbn; lia]|]).
    by apply elem_of_nil in Hin.
Qed.

Lemma sample_blob_ok : blob_ok sample_layout 4096 40 0 16 sample_tree sample_blob_mem.
Proof.
  split.
  - apply (bytes_at_mapped _ 4096 (replicate 8 0 ++ be32 40 ++ replicate 28 0)). vm_compute. by repeat split.
  - vm_compute. done.
  - vm_compute. done.
  - done.
  - reflexivity.
  - vm_compute. by repeat split.
  - left. vm_compute. done.
  - right. vm_compute. done.
  - right. vm_compute. done.
  - intros p l Hin. unfold literals, disjoint, FDT_HEADER_SIZE, sample_layout in *. cbn [strBuf pre fmt_s fmt_02x memory_str] in *.
    repeat (apply elem_of_cons in Hin as [[= -> ->]|Hin]; [left; cbn; lia|]). by apply elem_of_nil in Hin.
  - apply (bytes_at_mapped _ 4136 (node_bytes sample_tree ++ be32 FDT_END ++ replicate 17 0)). vm_compute. by repeat split.
Qed.

Lemma parseDtb_memory_witness :
  ∃ m', parseDtb sample_layout 4096 (Mem_info 0 0) sample_blob_mem = Ok (Mem_info (2 ^ 31) 4096, m').
Proof.
  destruct (parseDtb_memory sample_layout 4096 40 0 16 sample_tree (Mem_info 0 0) sample_blob_mem) as (m' & E & _).
  - exact sample_env.
  - cbn. unfold prop_ok, memory_ok. cbn. split_and!; repeat constructor; try done; try lia. intros _. eexists. split; [done|]. cbn. lia.
  - exact sample_blob_ok.
  - exists m'. exact E.
Defined.
