(* ===== verification/Syscall.v ===== *)
(** * System calls ([kernel/syscall])

    The descriptor tables and open files are those of [FdTable] and [FileIO], the kernel
    memory is the byte memory of [KString]. The path lookup and the creation of a file object
    are behind [OpenOps], the copies between kernel and user memory behind [UserOps], mounting and
    mapping behind [VfsOps]. The numbers of the calls are those of the RISC-V Linux ABI. *)

From stdpp Require Import base gmap list.
From S2P Require Import Prelude KString FdTable FileIO.
Local Open Scope Z_scope.
Local Open Scope kernel_scope.

Definition AT_FDCWD : Z := -100.
Definition PATH_MAX : Z := 4096.

Class OpenOps (A V : Type) : Type := {
  (** the directory, the path and the flags; the result and the path found *)
  filename_lookup : Z → Z → Z → V → Z * Z * V;
  (** the path, the flags and the mode *)
  vfs_alloc_file : Z → Z → Z → @fdmem A V → Z * @fdmem A V;
  path_put : Z → V → V;
}.

(** A pointer [vfs_alloc_file] returns that is no error is a new file with one reference. *)
Class OpenSpec (A V : Type) {OO : OpenOps A V} : Type := {
  alloc_file_new path flags mode s f s' :
    vfs_alloc_file path flags mode s = (f, s') → f ≠ 0 → PTR_IS_ERROR f = false →
    tables s' = tables s ∧ files s !! f = None ∧ ∃ v, files s' = <[f := v]> (files s) ∧ f_refcount v = 1;
}.

Class UserOps : Type := {
  copy_to_user : Z → Z → Z → mem → Z * mem;
  copy_from_user : Z → Z → Z → mem → Z * mem;
}.

Class VfsOps (V : Type) : Type := {
  vfs_mount : Z → Z → Z → Z → Z → V → Z * V;
  vfs_mmap_file : Z → Z → Z → Z → Z → Z → Z → V → Z * V;
}.

Section Syscall.
Context {A : Type} {KM : KMalloc A} {V : Type} {FO : FileOps V} {IO : IoOps V} {OO : OpenOps A V} {UO : UserOps} {VO : VfsOps V}.
Local Abbreviation state := (@fdmem A V).

(** What a call sees of the current task: its descriptor table, address space and pid. *)
Record task := Task { fdt : Z; task_mm : Z; task_pid : Z }.

(** ** [openat]

    [PTR_ERR] is a cast: what is returned when the file cannot be opened is the address
    of the file, cut to 32 bits. *)
Definition do_openat (cur : task) (dirfd pathname flags mode : Z) (s : state) : outcome (Z * state) :=
  let ret := validate_open_flags flags in
  if ret <? 0 then Ok (ret, s)
  else
    let '(ret, path, v) := filename_lookup dirfd pathname (open2lookup flags) (vfs s) in
    let s := set_vfs v s in
    if ret <? 0 then Ok (ret, s)
    else
      let (filp, s) := vfs_alloc_file path flags mode s in
      let! (ret, s) := file_open filp flags s in
      if ret <? 0 then Ok (s32 filp, set_vfs (path_put path (vfs s)) s)
      else
        let! (fd, s) := fdtable_allocFd (fdt cur) 0 s in
        if fd <? 0 then
          let! (_, s) := file_unref filp s in
          Ok (fd, set_vfs (path_put path (vfs s)) s)
        else
          let! (_, s) := fdtable_installFd (fdt cur) fd filp s in
          Ok (fd, s).

Definition do_open (cur : task) (pathname flags mode : Z) (s : state) : outcome (Z * state) :=
  do_openat cur AT_FDCWD pathname flags mode s.

Definition sys_openat (cur : task) (dirfd pathname flags mode : Z) (s : state) (m : mem) : outcome (Z * state * mem) :=
  if pathname =? 0 then Ok (- EFAULT, s, m)
  else
    let (kpathname, a) := kmalloc PATH_MAX (heap s) in
    let s := set_heap a s in
    if kpathname =? 0 then Ok (- ENOMEM, s, m)
    else
      let (c, m) := copy_from_user kpathname pathname PATH_MAX m in
      if negb (c =? 0) then Ok (- EFAULT, set_heap (kfree kpathname (heap s)) s, m)
      else
        let! (ret, s) := do_openat cur dirfd kpathname flags mode s in
        Ok (ret, set_heap (kfree kpathname (heap s)) s, m).

(** ** Reading and writing: through a buffer of the kernel *)

(** The buffer is freed on an error only. *)
Definition sys_read (cur : task) (fd buf count : Z) (s : state) (m : mem) : outcome (Z * state * mem) :=
  let (kbuf, a) := kmalloc count (heap s) in
  let s := set_heap a s in
  if kbuf =? 0 then Ok (- ENOMEM, s, m)
  else
    let! (r, s, m) := do_read (fdt cur) fd kbuf count s m in
    let ret := s32 r in
    if ret <? 0 then Ok (ret, set_heap (kfree kbuf (heap s)) s, m)
    else
      let (_, m) := copy_to_user buf kbuf ret m in
      Ok (ret, s, m).

Definition sys_write (cur : task) (fd buf count : Z) (s : state) (m : mem) : outcome (Z * state * mem) :=
  let (kbuf, a) := kmalloc count (heap s) in
  let s := set_heap a s in
  if kbuf =? 0 then Ok (- ENOMEM, s, m)
  else
    let (c, m) := copy_from_user kbuf buf count m in
    if negb (c =? 0) then Ok (- EFAULT, set_heap (kfree kbuf (heap s)) s, m)
    else
      let! (r, s) := do_write (fdt cur) fd kbuf count s m in
      let ret := s32 r in
      Ok (ret, set_heap (kfree kbuf (heap s)) s, m).

(** All of the buffer is copied, however much was filled. *)
Definition sys_getdents64 (cur : task) (fd user_buf count : Z) (s : state) (m : mem) : outcome (Z * state * mem) :=
  let (dirp, a) := kmalloc count (heap s) in
  let s := set_heap a s in
  if dirp =? 0 then Ok (- ENOMEM, s, m)
  else
    let! (ret, s, m) := do_getdents64 (fdt cur) fd dirp count s m in
    if ret <? 0 then Ok (ret, set_heap (kfree dirp (heap s)) s, m)
    else
      let (_, m) := copy_to_user user_buf dirp count m in
      Ok (ret, s, m).

(** ** The rest *)

Definition sys_close (cur : task) (fd : Z) (s : state) : outcome (Z * state) := do_close (fdt cur) fd s.
Definition sys_lseek (cur : task) (fd offset whence : Z) (s : state) : outcome (Z * state) := do_lseek (fdt cur) fd offset whence s.
Definition sys_getpid (cur : task) : Z := task_pid cur.
Definition do_exit (status : Z) : Z := 0.
Definition sys_exit (status : Z) : Z := do_exit status.
Definition do_clone (flags stack ptid tls ctid : Z) : Z := 0.
Definition sys_clone (flags stack ptid tls ctid : Z) : Z := do_clone flags stack ptid tls ctid.

Definition sys_mount (source target fstype flags data : Z) (s : state) : Z * state :=
  let (r, v) := vfs_mount source target fstype flags data (vfs s) in (r, set_vfs v s).

(** A descriptor is asked for also when the mapping is anonymous. *)
Definition do_mmap (cur : task) (addr length prot flags fd offset : Z) (s : state) : outcome (Z * state) :=
  let! (file, s) := fdtable_getFile (fdt cur) (u64 fd) s in
  if (file =? 0) || PTR_IS_ERROR file then Ok (- EBADF, s)
  else
    let (r, v) := vfs_mmap_file (task_mm cur) addr length prot flags file offset (vfs s) in
    Ok (s64 r, set_vfs v s).
Definition sys_mmap (cur : task) (addr length prot flags fd offset : Z) (s : state) : outcome (Z * state) :=
  do_mmap cur addr length prot flags fd offset s.

(** ** Dispatch *)

Inductive syscall_fn :=
| F_openat | F_close | F_read | F_write | F_lseek | F_mount | F_getdents64
| F_exit | F_getpid | F_clone | F_mmap.

Definition SYSCALL_TABLE_SIZE : Z := 223.

(** [None] is a null pointer: the entries of [getppid] and [brk] and the gaps. *)
Definition syscall_table (n : Z) : option syscall_fn :=
  if n =? 56 then Some F_openat
  else if n =? 57 then Some F_close
  else if n =? 63 then Some F_read
  else if n =? 64 then Some F_write
  else if n =? 62 then Some F_lseek
  else if n =? 40 then Some F_mount
  else if n =? 61 then Some F_getdents64
  else if n =? 93 then Some F_exit
  else if n =? 172 then Some F_getpid
  else if n =? 173 then None
  else if n =? 220 then Some F_clone
  else if n =? 222 then Some F_mmap
  else if n =? 214 then None
  else None.

Definition with_mem (m : mem) (o : outcome (Z * state)) : outcome (Z * state * mem) :=
  let! (r, s) := o in Ok (r, s, m).

(** The arguments become those of the wrapper: an [int] is the low half of its register. *)
Definition call (cur : task) (f : syscall_fn) (a0 a1 a2 a3 a4 a5 : Z) (s : state) (m : mem) : outcome (Z * state * mem) :=
  match f with
  | F_openat => sys_openat cur (s32 a0) (u64 a1) (s32 a2) (u32 a3) s m
  | F_close => with_mem m (sys_close cur (s32 a0) s)
  | F_read => sys_read cur (s32 a0) (u64 a1) (u64 a2) s m
  | F_write => sys_write cur (s32 a0) (u64 a1) (u64 a2) s m
  | F_lseek => with_mem m (sys_lseek cur (s32 a0) (s64 a1) (s32 a2) s)
  | F_mount => with_mem m (Ok (sys_mount (u64 a0) (u64 a1) (u64 a2) (u64 a3) (u64 a4) s))
  | F_getdents64 => sys_getdents64 cur (s32 a0) (u64 a1) (u64 a2) s m
  | F_exit => Ok (sys_exit (s32 a0), s, m)
  | F_getpid => Ok (sys_getpid cur, s, m)
  | F_clone => Ok (sys_clone (u64 a0) (u64 a1) (u64 a2) (u64 a3) (u64 a4), s, m)
  | F_mmap => with_mem m (sys_mmap cur (u64 a0) (u64 a1) (s32 a2) (s32 a3) (s32 a4) (s64 a5) s)
  end.

Definition do_syscall (cur : task) (syscall_num a0 a1 a2 a3 a4 a5 : Z) (s : state) (m : mem) : outcome (Z * state * mem) :=
  if (syscall_num <? 0) || (SYSCALL_TABLE_SIZE <=? syscall_num) then Ok (- ENOSYS, s, m)
  else
    match syscall_table syscall_num with
    | None => Ok (- ENOSYS, s, m)
    | Some f => call cur f a0 a1 a2 a3 a4 a5 s m
    end.

End Syscall.

(** ** Opening a file *)

Section Open.
Context {A : Type} {KM : KMalloc A} {V : Type} {FO : FileOps V} {IO : IoOps V} {OO : OpenOps A V} {OS : OpenSpec A V}.
Implicit Types (s : @fdmem A V) (t : fdtable).

(** [file_open] changes the file system only. *)
Lemma file_open_frame f flags s r s' : file_open f flags s = Ok (r, s') → tables s' = tables s ∧ files s' = files s.
Proof.
  unfold file_open. destruct (f =? 0); [by intros [= _ <-]|]. intros H. inv_ok.
  destruct (if has_fop f (vfs s) then fs_open f (vfs s) else None) as [op|]; [destruct (op flags)|]; by injection H as _ <-.
Qed.

(** C22. When the path is found and the file is created and opened, [do_openat] ends in one of two
    ways: it returns a descriptor that was free, under which [fdtable_getFile] finds the new file, with
    every other descriptor as before; or every descriptor is taken and the table cannot grow, and it
    returns [-EMFILE] with the table as before and the new file freed. *)
Theorem openat_descriptor cur dirfd pathname flags mode s t r path v f s1 r1 s2 :
  tables s !! fdt cur = Some t → fdt cur ≠ 0 → table_ok t → max_fds t < 2 ^ 29 →
  validate_open_flags flags = 0 →
  filename_lookup dirfd pathname (open2lookup flags) (vfs s) = (r, path, v) → 0 ≤ r →
  vfs_alloc_file path flags mode (set_vfs v s) = (f, s1) → f ≠ 0 → PTR_IS_ERROR f = false →
  file_open f flags s1 = Ok (r1, s2) → 0 ≤ r1 → (∀ x, match fs_release f x with Some (e, _) => e = 0 | None => True end) →
  ∃ fd s', do_openat cur dirfd pathname flags mode s = Ok (fd, s') ∧
    ((0 ≤ fd ∧ (fd < max_fds t → free_at t fd = true) ∧
      ∃ s3 t', fdtable_getFile (fdt cur) fd s' = Ok (f, s3) ∧ tables s' = <[fdt cur := t']> (tables s) ∧ table_ok t' ∧
        ∀ i, 0 ≤ i < max_fds t → i ≠ fd → file_at t' i = file_at t i ∧ flags_at t' i = flags_at t i) ∨
     (fd = - EMFILE ∧ tables s' = tables s ∧ files s' = files s ∧ ∀ i, 0 ≤ i < max_fds t → free_at t i = false)).
Proof.
  intros Ht Hz Hok Hmax Hfl El Hr Ea Hf He Eo Hr1 Hrel. unfold do_openat. rewrite Hfl, El. cbn [Z.ltb Z.compare].
  rewrite (proj2 (Z.ltb_ge r 0)), Ea, Eo by done. cbn [obind]. rewrite (proj2 (Z.ltb_ge r1 0)) by done.
  destruct (alloc_file_new _ _ _ _ _ _ Ea Hf He) as (Et1 & Hnew & w & Ef1 & Hrc). cbn [tables files set_vfs] in *.
  destruct (file_open_frame _ _ _ _ _ Eo) as [Et2 Ef2]. rewrite Et1 in Et2. rewrite Ef1 in Ef2.
  destruct (allocFd_spec (fdt cur) t 0 s2) as (fd & s3 & E & Ef3 & Ev3 & Hres); [by rewrite Et2|done..|].
  rewrite E. cbn [obind]. rewrite Et2 in Hres. rewrite Ef2 in Ef3.
  destruct Hres as [(-> & Et3 & _ & _ & Hfull)|(Hfd & Hfree & t1 & Et3 & Hok1 & Hlt & _ & Efl & Hoth)].
  - cbn [EMFILE Z.opp Z.ltb Z.compare].
    destruct (file_unref_ok f w s3) as (r4 & s4 & E4 & Et4 & Hc); [done|done|by rewrite Ef3, lookup_insert_eq|lia|apply Hrel|].
    destruct Hc as [(_ & _ & Ef4)|[? _]]; [|lia]. rewrite E4. cbn [obind]. eexists _, _. split; [done|]. right. cbn [tables files set_vfs].
    rewrite Et4, Ef4, Ef3, Et3, delete_insert_id by done. by split_and!.
  - rewrite (proj2 (Z.ltb_ge fd 0)) by done.
    destruct (installFd_ok (fdt cur) t1 fd f s3) as (t2 & E2 & Hup); [by rewrite Et3, lookup_insert_eq|done|done|done|lia| |].
    { rewrite Efl, allocated_flag. done. }
    rewrite E2. cbn [obind]. eexists _, _. split; [done|]. left. split; [done|]. split; [done|].
    destruct Hup as (Hok2 & Em & _ & Hslot). pose proof (to_max t Hok) as Hpos.
    assert (file_at t2 fd = f) as E3 by (destruct (Hslot fd ltac:(lia)) as [-> _]; by rewrite Z.eqb_refl).
    eexists _, t2. split; [|split; [|split; [done|]]].
    + apply (getFile_ok (fdt cur) t2 fd f w); try done; [apply lookup_insert_eq|lia|cbn; by rewrite Ef3, lookup_insert_eq|lia].
    + cbn. by rewrite Et3, insert_insert_eq.
    + intros i Hi Hne. destruct (Hoth i Hi Hne) as [<- <-]. destruct (Z.lt_ge_cases i (max_fds t1)) as [Hlt1|Hge1].
      * destruct (Hslot i ltac:(lia)) as [-> ->]. by rewrite (proj2 (Z.eqb_neq i fd)).
      * destruct Hok1 as [L1 L2 _ _], Hok2 as [L3 L4 _ _]. unfold file_at, flags_at.
        rewrite !(lookup_ge_None_2 _ (Z.to_nat i)) by lia. done.
Qed.

(** An error of [vfs_alloc_file] (a directory opened for writing, say) is followed as a pointer. *)
Lemma openat_error_faults cur dirfd pathname flags mode s r path v f s1 :
  validate_open_flags flags = 0 → filename_lookup dirfd pathname (open2lookup flags) (vfs s) = (r, path, v) → 0 ≤ r →
  vfs_alloc_file path flags mode (set_vfs v s) = (f, s1) → PTR_IS_ERROR f = true → files s1 !! f = None →
  do_openat cur dirfd pathname flags mode s = Fault.
Proof.
  intros Hfl El Hr Ea He Hn. unfold do_openat. rewrite Hfl, El. cbn [Z.ltb Z.compare]. rewrite (proj2 (Z.ltb_ge r 0)), Ea by done.
  assert (f ≠ 0) by (intros ->; done). unfold file_open. rewrite (proj2 (Z.eqb_neq f 0)) by done. unfold get_file. by rewrite Hn.
Qed.
End Open.

(** ** A concrete instance: every path names a file without operations, made at the next
    free multiple of 256 *)

#[local] Existing Instance plain_files.

#[local] Instance no_io : IoOps unit := {
  has_fop _ _ := false;
  fs_open _ _ := None;
  fs_read _ _ := None;
  fs_write _ _ := None;
  fs_fsync _ _ := None;
  fs_iterate _ _ := None;
  is_dir _ _ := false;
  sync_inode _ _ u := (0, u);
}.

#[local] Instance sample_open : OpenOps Z unit := {
  filename_lookup _ _ _ u := (0, 1, u);
  vfs_alloc_file _ _ _ s :=
    match files s !! heap s with
    | Some _ => (0, s)
    | None => (heap s, FdMem (tables s) (<[heap s := File 1 1 0 1]> (files s)) (heap s + 256) (vfs s))
    end;
  path_put _ u := u;
}.

#[local, refine] Instance sample_open_spec : OpenSpec Z unit := {}.
Proof.
  intros path flags mode s f s' E Hf _. cbn in E. destruct (files s !! heap s) eqn:En; [by injection E as <- _|].
  injection E as <- <-. cbn. split; [done|]. split; [done|]. by eexists.
Defined.

Definition sample_task : task := Task 4096 0 7.

Lemma openat_descriptor_witness :
  ∃ fd s', do_openat sample_task AT_FDCWD 500 O_RDONLY 0 (fd_mem0 1) = Ok (fd, s') ∧ fd = 1 ∧
    ∃ s3, fdtable_getFile 4096 1 s' = Ok (16384, s3).
Proof.
  destruct (openat_descriptor sample_task AT_FDCWD 500 O_RDONLY 0 (fd_mem0 1) fd_tab0 0 1 tt 16384
    (FdMem {[ 4096 := fd_tab0 ]} (<[16384 := File 1 1 0 1]> {[ 8192 := File 1 3 0 1 ]}) 16640 tt) 0
    (FdMem {[ 4096 := fd_tab0 ]} (<[16384 := File 1 1 0 1]> {[ 8192 := File 1 3 0 1 ]}) 16640 tt)) as (fd & s' & E & Hc).
  - reflexivity.
  - discriminate.
  - apply fd_tab0_ok.
  - reflexivity.
  - reflexivity.
  - reflexivity.
  - lia.
  - reflexivity.
  - discriminate.
  - reflexivity.
  - vm_compute. reflexivity.
  - lia.
  - done.
  - exists fd, s'. split; [exact E|]. assert (fd = 1) as -> by (vm_compute in E; by injection E as <- _). split; [reflexivity|].
    destruct Hc as [(_ & _ & s3 & t' & Eg & _)|[Hn _]]; [exists s3; exact Eg|discriminate Hn].
Defined.
