(* ===== verification/Trap.v ===== *)
(** * Traps ([kernel/strap/strap.c], [switch_to] of [kernel/sched/sched.c])

    The machine is one hart with its control registers, the trap frame of the current
    process and the state the system calls work on. The registers that the code does not name
    are a list. [smode_trap_vector] and [schedule] are addresses. Returning to user
    mode ([sret] with the page table given) and returning to the interrupted kernel code
    are results. Printing is left out. *)

From stdpp Require Import base gmap list.
From S2P Require Import Prelude KString FdTable FileIO Syscall.
Local Open Scope Z_scope.
Local Open Scope kernel_scope.

Definition IRQ_S_SOFT : Z := 1.
Definition IRQ_S_TIMER : Z := 5.
Definition IRQ_S_EXT : Z := 9.

Definition CAUSE_MISALIGNED_FETCH : Z := 0.
Definition CAUSE_FETCH_ACCESS : Z := 1.
Definition CAUSE_ILLEGAL_INSTRUCTION : Z := 2.
Definition CAUSE_BREAKPOINT : Z := 3.
Definition CAUSE_MISALIGNED_LOAD : Z := 4.
Definition CAUSE_LOAD_ACCESS : Z := 5.
Definition CAUSE_MISALIGNED_STORE : Z := 6.
Definition CAUSE_STORE_ACCESS : Z := 7.
Definition CAUSE_USER_ECALL : Z := 8.
Definition CAUSE_SUPERVISOR_ECALL : Z := 9.
Definition CAUSE_MACHINE_ECALL : Z := 11.
Definition CAUSE_FETCH_PAGE_FAULT : Z := 12.
Definition CAUSE_LOAD_PAGE_FAULT : Z := 13.
Definition CAUSE_STORE_PAGE_FAULT : Z := 15.
Definition CAUSE_MTIMER_S_TRAP : Z := 2 ^ 63 + 1.

(** Bits of [sip] and [sstatus]. *)
Definition SIP_SSIP : Z := 1.
Definition SSTATUS_SPP : Z := 8.
Definition SSTATUS_SPIE : Z := 5.
Definition SSTATUS_SIE : Z := 1.
Definition bit (n : Z) : Z := Z.shiftl 1 n.

Definition TIME_SLICE_LEN : Z := 2.
Definition PROT_READ : Z := 1.
Definition PROT_WRITE : Z := 2.
Definition PROT_EXEC : Z := 4.

Record trapframe := Trapframe {
  a0 : Z; a1 : Z; a2 : Z; a3 : Z; a4 : Z; a5 : Z; a7 : Z;
  other_regs : list Z;
  kernel_sp : Z;
  epc : Z;
  kernel_satp : Z;
  kernel_schedule : Z;
}.

Definition set_epc (x : Z) (t : trapframe) : trapframe :=
  Trapframe (a0 t) (a1 t) (a2 t) (a3 t) (a4 t) (a5 t) (a7 t) (other_regs t) (kernel_sp t) x (kernel_satp t) (kernel_schedule t).
Definition set_a0 (x : Z) (t : trapframe) : trapframe :=
  Trapframe x (a1 t) (a2 t) (a3 t) (a4 t) (a5 t) (a7 t) (other_regs t) (kernel_sp t) (epc t) (kernel_satp t) (kernel_schedule t).
Definition set_kernel (sp satp sched : Z) (t : trapframe) : trapframe :=
  Trapframe (a0 t) (a1 t) (a2 t) (a3 t) (a4 t) (a5 t) (a7 t) (other_regs t) sp (epc t) satp sched.

(** The fields of an area the page fault handler reads. *)
Record vma := Vma { vm_start : Z; vm_prot : Z; page_count : Z }.

Record process := Process {
  tick_count : Z;
  frame : trapframe;
  kstack : Z;
  (** the page table; [None] without address space *)
  mm : option Z;
  find_vma : Z → option vma;
  sys_task : task;
}.

Definition set_tick (x : Z) (p : process) : process := Process x (frame p) (kstack p) (mm p) (find_vma p) (sys_task p).
Definition set_frame (x : trapframe) (p : process) : process := Process (tick_count p) x (kstack p) (mm p) (find_vma p) (sys_task p).

Section Trap.
Context {A : Type} {KM : KMalloc A} {V : Type} {FO : FileOps V} {IO : IoOps V} {OO : OpenOps A V} {UO : UserOps} {VO : VfsOps V}.
Context (smode_trap_vector schedule : Z).

Record machine := Machine {
  scause : Z; sepc : Z; stval : Z; sstatus : Z; sip : Z; stvec : Z; satp : Z;
  hartid : Z;
  jiffies : Z;
  CURRENT : option process;
  kfds : @fdmem A V;
  kmem : mem;
}.

Definition set_sstatus (x : Z) (k : machine) : machine :=
  Machine (scause k) (sepc k) (stval k) x (sip k) (stvec k) (satp k) (hartid k) (jiffies k) (CURRENT k) (kfds k) (kmem k).
Definition set_CURRENT (p : process) (k : machine) : machine :=
  Machine (scause k) (sepc k) (stval k) (sstatus k) (sip k) (stvec k) (satp k) (hartid k) (jiffies k) (Some p) (kfds k) (kmem k).
Definition set_kernel_state (s : @fdmem A V) (m : mem) (k : machine) : machine :=
  Machine (scause k) (sepc k) (stval k) (sstatus k) (sip k) (stvec k) (satp k) (hartid k) (jiffies k) (CURRENT k) s m.

Inductive resume :=
| ToUser (user_satp : Z)
| ToKernel.

Definition MAKE_SATP (pagetable : Z) : Z := Z.lor (Z.shiftl 8 60) (Z.shiftr pagetable 12).

(** [write_csr(sstatus, read_csr(sstatus) | SSTATUS_SIE)] *)
Definition enable_interrupts (k : machine) : machine := set_sstatus (Z.lor (sstatus k) (bit SSTATUS_SIE)) k.

(** The process is the current one, as in every call from a trap. *)
Definition switch_to (p : process) (k : machine) : outcome (resume * machine) :=
  match mm p with
  | None => Fault
  | Some pagetable =>
      let frame := set_kernel (kstack p) (satp k) schedule (frame p) in
      let st := Z.lor (Z.land (sstatus k) (Z.lnot (bit SSTATUS_SPP))) (bit SSTATUS_SPIE) in
      Ok (ToUser (MAKE_SATP pagetable),
          Machine (scause k) (epc frame) (stval k) st (sip k) smode_trap_vector (satp k) (hartid k) (jiffies k)
            (Some (set_frame frame p)) (kfds k) (kmem k))
  end.

Definition handle_syscall (p : process) (k : machine) : outcome machine :=
  let tf := set_epc (u64 (epc (frame p) + 4)) (frame p) in
  let! (r, s, m) := do_syscall (sys_task p) (s64 (a7 tf)) (a0 tf) (a1 tf) (a2 tf) (a3 tf) (a4 tf) (a5 tf) (kfds k) (kmem k) in
  Ok (set_kernel_state s m (set_CURRENT (set_frame (set_a0 (u64 r) tf) p) k)).

Definition handle_mtimer_trap (k : machine) : outcome machine :=
  match CURRENT k with
  | None => Fault
  | Some p =>
      let j := if hartid k =? 0 then u64 (jiffies k + 1) else jiffies k in
      Ok (Machine (scause k) (sepc k) (stval k) (sstatus k) (Z.land (sip k) (Z.lnot (bit SIP_SSIP))) (stvec k) (satp k) (hartid k) j
            (Some (set_tick (s32 (tick_count p + 1)) p)) (kfds k) (kmem k))
  end.

(** Since its cases are commented out, every path ends in the panic. *)
Definition handle_user_page_fault (mcause stval : Z) (p : process) : outcome machine :=
  let fault_prot :=
    if mcause =? CAUSE_LOAD_PAGE_FAULT then PROT_READ
    else if mcause =? CAUSE_STORE_PAGE_FAULT then PROT_WRITE
    else if mcause =? CAUSE_FETCH_PAGE_FAULT then PROT_EXEC
    else 0 in
  match mm p with
  | None => Panic
  | Some _ =>
      match find_vma p stval with
      | None => Panic
      | Some v =>
          if negb (Z.land fault_prot (vm_prot v) =? fault_prot) then Panic
          else
            let page_va := ROUNDDOWN stval PAGE_SIZE in
            let page_idx := s32 (u64 (page_va - vm_start v) / PAGE_SIZE) in
            if (page_idx <? 0) || (page_count v <=? page_idx) then Panic
            else Panic
      end
  end.

Definition rrsched (k : machine) : outcome machine :=
  match CURRENT k with
  | None => Fault
  | Some p => if TIME_SLICE_LEN <=? tick_count p then Ok (set_CURRENT (set_tick 0 p) k) else Ok k
  end.

(** The exceptions of the kernel that are not fatal. *)
Definition kernel_exception (cause : Z) (k : machine) : outcome machine :=
  if cause =? CAUSE_MISALIGNED_FETCH then Panic
  else if cause =? CAUSE_FETCH_ACCESS then Panic
  else if cause =? CAUSE_ILLEGAL_INSTRUCTION then Panic
  else if cause =? CAUSE_BREAKPOINT then Ok k
  else if cause =? CAUSE_MISALIGNED_LOAD then Panic
  else if cause =? CAUSE_LOAD_ACCESS then Panic
  else if cause =? CAUSE_MISALIGNED_STORE then Panic
  else if cause =? CAUSE_STORE_ACCESS then Panic
  else if cause =? CAUSE_USER_ECALL then Panic
  else if cause =? CAUSE_SUPERVISOR_ECALL then Ok k
  else if cause =? CAUSE_MACHINE_ECALL then Panic
  else if cause =? CAUSE_FETCH_PAGE_FAULT then Panic
  else if cause =? CAUSE_LOAD_PAGE_FAULT then Panic
  else if cause =? CAUSE_STORE_PAGE_FAULT then Panic
  else Panic.

Definition kernel_trap_handler (k : machine) : outcome (resume * machine) :=
  let cause := scause k in
  let! k :=
    (if negb (Z.land cause (bit 63) =? 0) then
       let interrupt_cause := Z.land cause (Z.lnot (bit 63)) in
       if interrupt_cause =? IRQ_S_TIMER then handle_mtimer_trap k
       else if interrupt_cause =? IRQ_S_SOFT then Ok k
       else if interrupt_cause =? IRQ_S_EXT then Ok k
       else Ok k
     else kernel_exception cause k) in
  Ok (ToKernel, enable_interrupts k).

Definition user_trap_handler (k : machine) : outcome (resume * machine) :=
  match CURRENT k with
  | None => Panic
  | Some p =>
      let p := set_frame (set_epc (sepc k) (frame p)) p in
      let k := set_CURRENT p k in
      let cause := scause k in
      let! k :=
        (if cause =? CAUSE_USER_ECALL then handle_syscall p k
         else if cause =? CAUSE_MTIMER_S_TRAP then
           let! k := handle_mtimer_trap k in rrsched k
         else if (cause =? CAUSE_STORE_PAGE_FAULT) || (cause =? CAUSE_LOAD_PAGE_FAULT) then
           handle_user_page_fault cause (stval k) p
         else Panic) in
      let k := enable_interrupts k in
      match CURRENT k with
      | None => Panic
      | Some p => switch_to p k
      end
  end.

Definition smode_trap_handler (k : machine) : outcome (resume * machine) :=
  if negb (Z.land (sstatus k) (bit SSTATUS_SPP) =? 0) then kernel_trap_handler k else user_trap_handler k.

(** ** What a trap does *)

(** The hart returns to user mode at [pc], with interrupts off until then and on after. *)
Definition resumes_at (pc : Z) (k : machine) : Prop :=
  sepc k = pc ∧ stvec k = smode_trap_vector ∧
  Z.testbit (sstatus k) SSTATUS_SPP = false ∧ Z.testbit (sstatus k) SSTATUS_SPIE = true.

Lemma switch_to_ok p pt k :
  mm p = Some pt →
  ∃ k', switch_to p k = Ok (ToUser (MAKE_SATP pt), k') ∧ resumes_at (epc (frame p)) k' ∧
    CURRENT k' = Some (set_frame (set_kernel (kstack p) (satp k) schedule (frame p)) p) ∧
    sip k' = sip k ∧ jiffies k' = jiffies k ∧ kfds k' = kfds k ∧ kmem k' = kmem k.
Proof.
  intros Hm. unfold switch_to. rewrite Hm. eexists. split; [done|]. split; [|by split_and!].
  unfold resumes_at, bit, SSTATUS_SPP, SSTATUS_SPIE. cbn [sepc stvec sstatus frame epc set_kernel set_frame].
  split; [done|]. split; [done|]. rewrite !testbit_set, !testbit_clear by lia. cbn [Z.eqb Pos.eqb negb]. by rewrite andb_false_r, orb_true_r.
Qed.

(** The end of [user_trap_handler]. *)
Lemma resume_ok p pt k :
  CURRENT k = Some p → mm p = Some pt →
  ∃ k', (match CURRENT (enable_interrupts k) with None => Panic | Some p => switch_to p (enable_interrupts k) end) =
      Ok (ToUser (MAKE_SATP pt), k') ∧ resumes_at (epc (frame p)) k' ∧
    CURRENT k' = Some (set_frame (set_kernel (kstack p) (satp k) schedule (frame p)) p) ∧
    sip k' = sip k ∧ jiffies k' = jiffies k ∧ kfds k' = kfds k ∧ kmem k' = kmem k.
Proof. intros Hc Hm. cbn [enable_interrupts CURRENT set_sstatus]. rewrite Hc. by apply (switch_to_ok p pt (enable_interrupts k)). Qed.

Lemma user_trap_timer k p pt :
  Z.testbit (sstatus k) SSTATUS_SPP = false → CURRENT k = Some p → mm p = Some pt → scause k = CAUSE_MTIMER_S_TRAP →
  let f := frame p in
  ∃ k', smode_trap_handler k = Ok (ToUser (MAKE_SATP pt), k') ∧ resumes_at (sepc k) k' ∧
    kfds k' = kfds k ∧ kmem k' = kmem k ∧ Z.testbit (sip k') SIP_SSIP = false ∧
    jiffies k' = (if hartid k =? 0 then u64 (jiffies k + 1) else jiffies k) ∧
    ∃ p', CURRENT k' = Some p' ∧ mm p' = mm p ∧
      tick_count p' = (if TIME_SLICE_LEN <=? s32 (tick_count p + 1) then 0 else s32 (tick_count p + 1)) ∧
      [a0 (frame p'); a1 (frame p'); a2 (frame p'); a3 (frame p'); a4 (frame p'); a5 (frame p'); a7 (frame p')] =
        [a0 f; a1 f; a2 f; a3 f; a4 f; a5 f; a7 f] ∧
      other_regs (frame p') = other_regs f.
Proof.
  intros Hspp Hc Hm Hs f. unfold smode_trap_handler, bit. rewrite land_pow2_eqb, Hspp by (unfold SSTATUS_SPP; lia). cbn [negb].
  unfold user_trap_handler. rewrite Hc. cbn [scause set_CURRENT].
  rewrite Hs. change (CAUSE_MTIMER_S_TRAP =? CAUSE_USER_ECALL) with false. rewrite Z.eqb_refl.
  unfold handle_mtimer_trap. cbn [CURRENT set_CURRENT obind]. unfold rrsched. cbn [CURRENT tick_count set_tick set_frame].
  set (tick := s32 (tick_count p + 1)). set (p1 := set_frame (set_epc (sepc k) (frame p)) p).
  set (k1 := Machine _ _ _ _ _ _ _ _ _ _ _ _).
  assert (∃ k2, (if TIME_SLICE_LEN <=? tick then Ok (set_CURRENT (set_tick 0 (set_tick tick p1)) k1) else Ok k1) = Ok k2 ∧
    CURRENT k2 = Some (set_tick (if TIME_SLICE_LEN <=? tick then 0 else tick) p1) ∧ sip k2 = sip k1 ∧ jiffies k2 = jiffies k1 ∧
    kfds k2 = kfds k ∧ kmem k2 = kmem k) as (k2 & -> & Hc2 & Hs2 & Hj2 & Hf2 & Hm2).
  { destruct (TIME_SLICE_LEN <=? tick); eexists; by split_and!. }
  cbn [obind]. destruct (resume_ok _ pt k2 Hc2 Hm) as (k' & E & Hr & Hp & Hsi & Hj & Hf & Hk).
  exists k'. split; [exact E|]. split; [exact Hr|]. rewrite Hsi, Hs2, Hj, Hj2, Hf, Hk, Hp, Hf2, Hm2. split_and!; [done|done| |done|].
  - unfold k1, bit, SIP_SSIP. cbn [sip]. rewrite testbit_clear by lia. cbn [Z.eqb Pos.eqb negb]. by rewrite andb_false_r.
  - eexists. by split_and!.
Qed.

(** C19. Every trap from user mode: a system call returns to the instruction after it with its result in
    [a0], the arguments and all other registers as they were; a timer interrupt returns to the interrupted
    instruction with the registers as they were, the pending bit cleared, the tick counted (on hart 0)
    and the time slice of the process advanced or started anew; any other cause, page faults
    included, stops the kernel. *)
Theorem user_trap_cases k p pt :
  Z.testbit (sstatus k) SSTATUS_SPP = false → CURRENT k = Some p → mm p = Some pt →
  let f := frame p in
  (∀ r s m, scause k = CAUSE_USER_ECALL →
    do_syscall (sys_task p) (s64 (a7 f)) (a0 f) (a1 f) (a2 f) (a3 f) (a4 f) (a5 f) (kfds k) (kmem k) = Ok (r, s, m) →
    ∃ k', smode_trap_handler k = Ok (ToUser (MAKE_SATP pt), k') ∧ resumes_at (u64 (sepc k + 4)) k' ∧
      kfds k' = s ∧ kmem k' = m ∧ jiffies k' = jiffies k ∧
      ∃ p', CURRENT k' = Some p' ∧ tick_count p' = tick_count p ∧ a0 (frame p') = u64 r ∧
        [a1 (frame p'); a2 (frame p'); a3 (frame p'); a4 (frame p'); a5 (frame p'); a7 (frame p')] = [a1 f; a2 f; a3 f; a4 f; a5 f; a7 f] ∧
        other_regs (frame p') = other_regs f) ∧
  (scause k = CAUSE_MTIMER_S_TRAP →
    ∃ k', smode_trap_handler k = Ok (ToUser (MAKE_SATP pt), k') ∧ resumes_at (sepc k) k' ∧
      kfds k' = kfds k ∧ kmem k' = kmem k ∧ Z.testbit (sip k') SIP_SSIP = false ∧
      jiffies k' = (if hartid k =? 0 then u64 (jiffies k + 1) else jiffies k) ∧
      ∃ p', CURRENT k' = Some p' ∧
        tick_count p' = (if TIME_SLICE_LEN <=? s32 (tick_count p + 1) then 0 else s32 (tick_count p + 1)) ∧
        [a0 (frame p'); a1 (frame p'); a2 (frame p'); a3 (frame p'); a4 (frame p'); a5 (frame p'); a7 (frame p')] =
          [a0 f; a1 f; a2 f; a3 f; a4 f; a5 f; a7 f] ∧
        other_regs (frame p') = other_regs f) ∧
  (scause k ≠ CAUSE_USER_ECALL → scause k ≠ CAUSE_MTIMER_S_TRAP → smode_trap_handler k = Panic).
Proof.
  intros Hspp Hc Hm f. split; [|split].
  2: { intros Hs. destruct (user_trap_timer k p pt Hspp Hc Hm Hs) as (k' & E & Hr & ? & ? & ? & ? & p' & ? & _ & ?). exists k'. split_and!; try done. by exists p'. }
  all: unfold smode_trap_handler, bit; rewrite land_pow2_eqb, Hspp by (unfold SSTATUS_SPP; lia); cbn [negb];
    unfold user_trap_handler; rewrite Hc; cbn [scause set_CURRENT].
  - intros r s m Hs Ed. rewrite Hs. cbn [Z.eqb CAUSE_USER_ECALL Pos.eqb]. unfold handle_syscall.
    cbn [sys_task set_frame frame set_epc a0 a1 a2 a3 a4 a5 a7 kfds kmem set_CURRENT]. fold f. rewrite Ed. cbn [obind].
    set (tf := set_a0 (u64 r) (set_epc (u64 (sepc k + 4)) (set_epc (sepc k) f))).
    destruct (resume_ok (set_frame tf p) pt (set_kernel_state s m (set_CURRENT (set_frame tf p) k)) eq_refl Hm)
      as (k' & E & Hr & Hp & _ & Hj & Hf & Hk).
    exists k'. split; [exact E|]. split; [exact Hr|]. split_and!; [exact Hf|exact Hk|exact Hj|]. rewrite Hp. by eexists.
  - intros N1 N2. rewrite (proj2 (Z.eqb_neq _ _) N1), (proj2 (Z.eqb_neq _ _) N2).
    destruct (_ || _); [|done]. unfold handle_user_page_fault. cbn [mm set_frame find_vma]. rewrite Hm.
    destruct (find_vma p _) as [v|]; [|done]. destruct (negb _); [done|]. by destruct (_ || _).
Qed.

(** ** Time slices *)

(** A timer interrupt arrives in user mode at [pc]. *)
Definition timer_interrupt (pc : Z) (k : machine) : machine :=
  Machine CAUSE_MTIMER_S_TRAP pc (stval k) (Z.land (sstatus k) (Z.lnot (bit SSTATUS_SPP))) (Z.lor (sip k) (bit SIP_SSIP)) (stvec k) (satp k)
    (hartid k) (jiffies k) (CURRENT k) (kfds k) (kmem k).

(** A run of them, with what the process does in between left to [user]. *)
Fixpoint timer_run (user : machine → machine) (pcs : list Z) (k : machine) : outcome machine :=
  match pcs with
  | [] => Ok k
  | pc :: pcs =>
      let! (_, k) := smode_trap_handler (timer_interrupt pc (user k)) in
      timer_run user pcs k
  end.

Definition ticks (k : machine) : option Z := tick_count <$> CURRENT k.

(** User code does not touch the process structure. *)
Definition user_ok (user : machine → machine) : Prop :=
  ∀ k, match CURRENT k, CURRENT (user k) with
       | Some p, Some p' => tick_count p' = tick_count p ∧ mm p' = mm p
       | None, None => True
       | _, _ => False
       end.

Lemma timer_step user pc k p pt :
  user_ok user → CURRENT k = Some p → mm p = Some pt →
  ∃ r k' p', smode_trap_handler (timer_interrupt pc (user k)) = Ok (r, k') ∧ CURRENT k' = Some p' ∧ mm p' = Some pt ∧
    tick_count p' = (if TIME_SLICE_LEN <=? s32 (tick_count p + 1) then 0 else s32 (tick_count p + 1)).
Proof.
  intros Hu Hc Hm. specialize (Hu k). rewrite Hc in Hu. destruct (CURRENT (user k)) as [q|] eqn:Eq; [|done]. destruct Hu as [Et Em].
  destruct (user_trap_timer (timer_interrupt pc (user k)) q pt) as (k' & E & _ & _ & _ & _ & _ & p' & Hp & Hmm & Hti & _).
  - cbn [timer_interrupt sstatus]. unfold bit, SSTATUS_SPP. rewrite testbit_clear by lia. cbn [Z.eqb Pos.eqb negb]. by rewrite andb_false_r.
  - done.
  - by rewrite Em.
  - done.
  - exists (ToUser (MAKE_SATP pt)), k', p'. rewrite Et in Hti. rewrite Em, Hm in Hmm. by split_and!.
Qed.

(** A time slice ends: whatever the process does in between, among any [TIME_SLICE_LEN]
    timer interrupts in a row that reach it in user mode there is one after which its tick count is 0 again. *)
Theorem time_slice_ends user pcs k p pt :
  user_ok user → CURRENT k = Some p → mm p = Some pt → 0 ≤ tick_count p < 2 ^ 31 - TIME_SLICE_LEN →
  Z.of_nat (length pcs) = TIME_SLICE_LEN →
  ∃ n k', (0 < n ≤ length pcs)%nat ∧ timer_run user (take n pcs) k = Ok k' ∧ ticks k' = Some 0.
Proof.
  intros Hu Hc Hm Ht Hl. destruct pcs as [|pc1 [|pc2 [|? ?]]]; try (unfold TIME_SLICE_LEN in Hl; cbn in Hl; lia).
  destruct (timer_step user pc1 k p pt Hu Hc Hm) as (r1 & k1 & p1 & E1 & Hc1 & Hm1 & Ht1). unfold TIME_SLICE_LEN in *.
  rewrite s32_small in Ht1 by lia. destruct (Z.leb_spec 2 (tick_count p + 1)) as [Hge|Hlt].
  - exists 1%nat, k1. split; [cbn; lia|]. cbn [take timer_run]. rewrite E1. cbn [obind]. split; [done|]. unfold ticks. rewrite Hc1. cbn. by rewrite Ht1.
  - destruct (timer_step user pc2 k1 p1 pt Hu Hc1 Hm1) as (r2 & k2 & p2 & E2 & Hc2 & _ & Ht2). unfold TIME_SLICE_LEN in Ht2.
    rewrite Ht1, s32_small, (proj2 (Z.leb_le 2 _)) in Ht2 by lia.
    exists 2%nat, k2. split; [cbn; lia|]. cbn [take timer_run]. rewrite E1. cbn [obind]. rewrite E2. cbn [obind]. split; [done|].
    unfold ticks. rewrite Hc2. cbn. by rewrite Ht2.
Qed.

End Trap.

(** ** Examples *)

#[local] Existing Instances plain_files no_io sample_open.

#[local] Instance no_user : UserOps := { copy_to_user _ _ _ m := (0, m); copy_from_user _ _ _ m := (0, m) }.
#[local] Instance no_vfs : VfsOps unit := { vfs_mount _ _ _ _ _ u := (0, u); vfs_mmap_file _ _ _ _ _ _ _ u := (0, u) }.

(** A process that calls [getpid] at address 100. *)
Definition sample_frame : trapframe := Trapframe 0 1 2 3 4 5 172 [6; 7] 0 0 0 0.
Definition sample_process : process := Process 0 sample_frame 8000 (Some 4096) (λ _, None) sample_task.
Definition sample_machine (cause : Z) : @machine Z unit :=
  Machine cause 100 0 0 2 0 0 0 41 (Some sample_process) (fd_mem0 1) ∅.

Lemma user_trap_cases_witness :
  ∃ k', smode_trap_handler 64 128 (sample_machine CAUSE_USER_ECALL) = Ok (ToUser (MAKE_SATP 4096), k') ∧ sepc k' = 104.
Proof.
  destruct (user_trap_cases 64 128 (sample_machine CAUSE_USER_ECALL) sample_process 4096) as (Hs & _ & _); [reflexivity..|].
  destruct (Hs 7 (fd_mem0 1) ∅) as (k' & E & (Hpc & _) & _); [reflexivity|vm_compute; reflexivity|].
  exists k'. split; [exact E|]. rewrite Hpc. reflexivity.
Defined.

Lemma time_slice_ends_witness :
  ∃ n k', (0 < n ≤ 2)%nat ∧ timer_run 64 128 id (take n [100; 104]) (sample_machine 0) = Ok k' ∧ ticks k' = Some 0.
Proof.
  apply (time_slice_ends 64 128 id [100; 104] (sample_machine 0) sample_process 4096).
  - intros k. cbn. by destruct (CURRENT k).
  - reflexivity.
  - reflexivity.
  - unfold TIME_SLICE_LEN. cbn. lia.
  - reflexivity.
Defined.
