(* ===== verification/Elf.v ===== *)
(** * The executable loader ([kernel/elf/elf.c], [include/kernel/elf.h])

    The loader reads structures and segments of the file into the bytes of memory: its
    local structures are at the addresses [EHDR], [PH] and [SH], and their members are
    decoded at the offsets of the C structures. The file and address space operations it
    calls are the interface [Loader]; what it needs of them is [LoaderSpec], which the
    files of this kernel do not meet. *)

From stdpp Require Import base gmap list.
From S2P Require Import Prelude KString.
Local Open Scope Z_scope.
Local Open Scope kernel_scope.

Definition ENOEXEC : Z := 8.
Definition EIO : Z := 5.
Definition ESPIPE : Z := 29.
Definition O_RDONLY : Z := 0.
Definition SEEK_SET : Z := 0.
Definition SEEK_CUR : Z := 1.

Definition SEGMENT_READABLE : Z := 4.
Definition SEGMENT_EXECUTABLE : Z := 1.
Definition SEGMENT_WRITABLE : Z := 2.
Definition ELF_MAGIC : Z := 1179403647.
Definition ELF_PROG_LOAD : Z := 1.

Definition PROT_READ : Z := 1.
Definition PROT_WRITE : Z := 2.
Definition PROT_EXEC : Z := 4.
Definition VM_READ : Z := 1.
Definition VM_WRITE : Z := 2.
Definition VM_EXEC : Z := 4.

(** ** Structures *)

Record elf_header := ElfHeader {
  magic : Z;
  e_type : Z;
  machine : Z;
  entry : Z;
  phoff : Z;
  shoff : Z;
  phnum : Z;
  shnum : Z;
  shstrndx : Z;
}.
Definition EHDR_SIZE : Z := 64.

Record elf_prog_header := ProgHeader {
  p_type : Z;
  p_flags : Z;
  p_off : Z;
  p_vaddr : Z;
  p_filesz : Z;
  p_memsz : Z;
}.
Definition PH_SIZE : Z := 56.

Record elf_sect_header := SectHeader {
  sh_name : Z;
  sh_addr : Z;
  sh_offset : Z;
  sh_size : Z;
}.
Definition SH_SIZE : Z := 64.

Definition decode_ehdr (p : Z) (m : mem) : outcome elf_header :=
  let! magic := load_le 4 p m in
  let! type := load_le 2 (p + 16) m in
  let! machine := load_le 2 (p + 18) m in
  let! entry := load_le 8 (p + 24) m in
  let! phoff := load_le 8 (p + 32) m in
  let! shoff := load_le 8 (p + 40) m in
  let! phnum := load_le 2 (p + 56) m in
  let! shnum := load_le 2 (p + 60) m in
  let! shstrndx := load_le 2 (p + 62) m in
  Ok (ElfHeader magic type machine entry phoff shoff phnum shnum shstrndx).

Definition decode_ph (p : Z) (m : mem) : outcome elf_prog_header :=
  let! type := load_le 4 p m in
  let! flags := load_le 4 (p + 4) m in
  let! off := load_le 8 (p + 8) m in
  let! vaddr := load_le 8 (p + 16) m in
  let! filesz := load_le 8 (p + 32) m in
  let! memsz := load_le 8 (p + 40) m in
  Ok (ProgHeader type flags off vaddr filesz memsz).

Definition decode_sh (p : Z) (m : mem) : outcome elf_sect_header :=
  let! name := load_le 4 p m in
  let! addr := load_le 8 (p + 16) m in
  let! offset := load_le 8 (p + 24) m in
  let! size := load_le 8 (p + 32) m in
  Ok (SectHeader name addr offset size).

(** ** What the loader calls *)

Class Loader (W : Type) : Type := {
  do_open : list Z → Z → Z → W → Z * W;
  do_close : Z → W → W;
  do_lseek : Z → Z → Z → W → Z * W;
  do_read : Z → Z → Z → W → mem → outcome (Z * W * mem);
  user_alloc_mm : W → Z * W;
  (** the area and whether it is text *)
  vm_area_setup : Z → Z → Z → bool → Z → Z → W → Z * W;
  populate_vma : Z → Z → Z → Z → W → mem → outcome (Z * W * mem);
  lookup_pa : Z → Z → W → Z;
  kmalloc : Z → W → Z * W;
  kfree : Z → W → W;
}.

Section Elf.
Context {W : Type} {LD : Loader W}.
Context (EHDR PH SH : Z).

(** The address space, entry point and global pointer of the process. *)
Record proc := Proc { p_mm : Z; p_epc : Z; p_gp : Z }.

Record lstate := Lstate { lmem : mem; world : W; the_proc : proc }.

Definition set_lmem (m : mem) (s : lstate) : lstate := Lstate m (world s) (the_proc s).
Definition set_world (w : W) (s : lstate) : lstate := Lstate (lmem s) w (the_proc s).
Definition set_proc (p : proc) (s : lstate) : lstate := Lstate (lmem s) (world s) p.

Definition lseek (fd off whence : Z) (s : lstate) : Z * lstate :=
  let (r, w) := do_lseek fd off whence (world s) in (r, set_world w s).

(** The position is kept in an [int32]. *)
Definition elf_read_at (fd dest size offset : Z) (s : lstate) : outcome (Z * lstate) :=
  let (pos, s) := lseek fd 0 SEEK_CUR s in
  let current_pos := s32 pos in
  if current_pos <? 0 then Ok (-1, s)
  else
    let (r, s) := lseek fd offset SEEK_SET s in
    if r <? 0 then Ok (-1, s)
    else
      let! (bytes_read, w, m) := do_read fd dest size (world s) (lmem s) in
      let (_, s) := lseek fd current_pos SEEK_SET (Lstate m w (the_proc s)) in
      Ok (bytes_read, s).

Definition validate_elf_header (h : elf_header) : Z :=
  if negb (magic h =? ELF_MAGIC) then -1
  else if negb (machine h =? 243) then -1
  else if negb (e_type h =? 2) then -1
  else 0.

Definition flag_if (flags bit x : Z) : Z := if Z.land flags bit =? 0 then 0 else x.

Definition segment_prot (flags : Z) : Z :=
  Z.lor (flag_if flags SEGMENT_READABLE PROT_READ)
    (Z.lor (flag_if flags SEGMENT_WRITABLE PROT_WRITE) (flag_if flags SEGMENT_EXECUTABLE PROT_EXEC)).

Definition segment_vm_flags (flags : Z) : Z :=
  Z.lor (flag_if flags SEGMENT_READABLE VM_READ)
    (Z.lor (flag_if flags SEGMENT_WRITABLE VM_WRITE) (flag_if flags SEGMENT_EXECUTABLE VM_EXEC)).

Definition elf_setup_vma (mm vaddr memsz flags : Z) (s : lstate) : outcome (Z * lstate) :=
  let prot := segment_prot flags in
  let text := negb (Z.land flags SEGMENT_EXECUTABLE =? 0) in
  let (vma, w) := vm_area_setup mm vaddr memsz text prot (segment_vm_flags flags) (world s) in
  if vma =? 0 then Ok (-1, set_world w s)
  else
    let! (ret, w, m) := populate_vma vma vaddr memsz prot w (lmem s) in
    Ok (ret, Lstate m w (the_proc s)).

(** One page of a segment: its part of the file, and zeros after it. The result
    says whether it could be read. *)
Definition load_page (fd mm : Z) (ph : elf_prog_header) (i : Z) (s : lstate) : outcome (bool * lstate) :=
  let pa := lookup_pa mm (u64 (p_vaddr ph + i * PAGE_SIZE)) (world s) in
  let page_offset := u64 (i * PAGE_SIZE) in
  if page_offset <? p_filesz ph then
    let bytes_to_copy := Z.min PAGE_SIZE (p_filesz ph - page_offset) in
    let! (r, s) := elf_read_at fd pa bytes_to_copy (u64 (p_off ph + page_offset)) s in
    if negb (r =? bytes_to_copy) then Ok (false, s)
    else if bytes_to_copy <? PAGE_SIZE then
      let! (_, m) := memset (u64 (pa + bytes_to_copy)) 0 (PAGE_SIZE - bytes_to_copy) (lmem s) in
      Ok (true, set_lmem m s)
    else Ok (true, s)
  else
    let! (_, m) := memset pa 0 PAGE_SIZE (lmem s) in
    Ok (true, set_lmem m s).

Fixpoint load_pages (n : nat) (fd mm : Z) (ph : elf_prog_header) (i : Z) (s : lstate) : outcome (Z * lstate) :=
  match n with
  | O => Ok (0, s)
  | S n =>
      let! (ok, s) := load_page fd mm ph i s in
      if negb ok then Ok (-1, s) else load_pages n fd mm ph (i + 1) s
  end.

Definition load_segment (fd : Z) (ph : elf_prog_header) (s : lstate) : outcome (Z * lstate) :=
  if negb (p_type ph =? ELF_PROG_LOAD) then Ok (0, s)
  else if p_memsz ph <? p_filesz ph then Ok (-1, s)
  else if u64 (p_vaddr ph + p_memsz ph) <? p_vaddr ph then Ok (-1, s)
  else
    let mm := p_mm (the_proc s) in
    let! (ret, s) := elf_setup_vma mm (p_vaddr ph) (p_memsz ph) (p_flags ph) s in
    if negb (ret =? 0) then Ok (ret, s)
    else
      let num_pages := u64 (p_memsz ph + PAGE_SIZE - 1) / PAGE_SIZE in
      load_pages (Z.to_nat num_pages) fd mm ph 0 s.

(** The string [".sdata"] is at [sdata]. The loop over the sections from [i], [n] left. *)
Fixpoint find_sdata (n : nat) (fd : Z) (h : elf_header) (buffer size sdata i : Z) (s : lstate) : outcome lstate :=
  match n with
  | O => Ok s
  | S n =>
      let! (r, s) := elf_read_at fd SH SH_SIZE (u64 (shoff h + i * SH_SIZE)) s in
      if negb (r =? SH_SIZE) then find_sdata n fd h buffer size sdata (i + 1) s
      else
        let! sh := decode_sh SH (lmem s) in
        let! eq := (if sh_name sh <? size then
                      let! c := strcmp (u64 (buffer + sh_name sh)) sdata (lmem s) in Ok (c =? 0)
                    else Ok false) in
        if eq then Ok (set_proc (Proc (p_mm (the_proc s)) (p_epc (the_proc s)) (u64 (sh_addr sh + 2048))) s)
        else find_sdata n fd h buffer size sdata (i + 1) s
  end.

Definition setup_global_pointer (fd sdata : Z) (h : elf_header) (s : lstate) : outcome lstate :=
  let! (r, s) := elf_read_at fd SH SH_SIZE (u64 (shoff h + shstrndx h * SH_SIZE)) s in
  if negb (r =? SH_SIZE) then Ok s
  else
    let! str := decode_sh SH (lmem s) in
    let (buffer, w) := kmalloc (sh_size str) (world s) in
    let s := set_world w s in
    if buffer =? 0 then Ok s
    else
      let! (r, s) := elf_read_at fd buffer (sh_size str) (sh_offset str) s in
      if negb (u64 r =? sh_size str) then Ok (set_world (kfree buffer (world s)) s)
      else
        let! s := find_sdata (Z.to_nat (shnum h)) fd h buffer (sh_size str) sdata 0 s in
        Ok (set_world (kfree buffer (world s)) s).

(** The loop over the program headers from [i], [n] left. *)
Fixpoint load_segments (n : nat) (fd : Z) (h : elf_header) (i : Z) (s : lstate) : outcome (Z * lstate) :=
  match n with
  | O => Ok (0, s)
  | S n =>
      let! (r, s) := elf_read_at fd PH PH_SIZE (u64 (phoff h + i * PH_SIZE)) s in
      if negb (r =? PH_SIZE) then Ok (-1, s)
      else
        let! ph := decode_ph PH (lmem s) in
        let! (r, s) := load_segment fd ph s in
        if negb (r =? 0) then Ok (-1, s) else load_segments n fd h (i + 1) s
  end.

Definition load_elf_binary (fd sdata : Z) (h : elf_header) (s : lstate) : outcome (Z * lstate) :=
  let! (r, s) := load_segments (Z.to_nat (phnum h)) fd h 0 s in
  if negb (r =? 0) then Ok (r, s)
  else
    let! s := setup_global_pointer fd sdata h s in
    Ok (0, set_proc (Proc (p_mm (the_proc s)) (entry h) (p_gp (the_proc s))) s).

Definition load_debug_information : Z := 0.

(** Read and check the header; [None] is the error return. *)
Definition init_elf_context (fd : Z) (s : lstate) : outcome (option elf_header * lstate) :=
  let! (r, s) := elf_read_at fd EHDR EHDR_SIZE 0 s in
  if negb (r =? EHDR_SIZE) then Ok (None, s)
  else
    let! h := decode_ehdr EHDR (lmem s) in
    if negb (validate_elf_header h =? 0) then Ok (None, s) else Ok (Some h, s).

(** Make sure the process has an address space. *)
Definition ensure_mm (s : lstate) : bool * lstate :=
  if p_mm (the_proc s) =? 0 then
    let (mm, w) := user_alloc_mm (world s) in
    (negb (mm =? 0), set_proc (Proc mm (p_epc (the_proc s)) (p_gp (the_proc s))) (set_world w s))
  else (true, s).

Definition close (fd : Z) (s : lstate) : lstate := set_world (do_close fd (world s)) s.

Definition load_elf_from_file (filename : list Z) (sdata : Z) (s : lstate) : outcome lstate :=
  let (fd, w) := do_open filename O_RDONLY 0 (world s) in
  let s := set_world w s in
  if fd <? 0 then Panic
  else
    let (ok, s) := ensure_mm s in
    if negb ok then Panic
    else
      let! (h, s) := init_elf_context fd s in
      match h with
      | None => Panic
      | Some h =>
          let! (r, s) := load_elf_binary fd sdata h s in
          if negb (r =? 0) then Panic else Ok (close fd s)
      end.

Definition load_elf_symbols (filename : list Z) (s : lstate) : outcome (Z * lstate) :=
  let (fd, w) := do_open filename O_RDONLY 0 (world s) in
  let s := set_world w s in
  if fd <? 0 then Ok (-1, s)
  else
    let! (h, s) := init_elf_context fd s in
    Ok (if h is None then -1 else 0, close fd s).

Definition load_init_binary (path : list Z) (sdata : Z) (s : lstate) : outcome (Z * lstate) :=
  let (fd, w) := do_open path O_RDONLY 0 (world s) in
  let s := set_world w s in
  if fd <? 0 then Ok (fd, s)
  else
    let (ok, s) := ensure_mm s in
    if negb ok then Ok (- ENOMEM, close fd s)
    else
      let! (r, s) := elf_read_at fd EHDR EHDR_SIZE 0 s in
      if negb (r =? EHDR_SIZE) then Ok (- EIO, close fd s)
      else
        let! h := decode_ehdr EHDR (lmem s) in
        if negb (validate_elf_header h =? 0) then Ok (- ENOEXEC, close fd s)
        else
          let! (error, s) := load_elf_binary fd sdata h s in
          Ok (error, close fd s).

End Elf.

(** ** Files that cannot be sought

    [vfs_open] never sets [FMODE_LSEEK], so that [do_lseek] answers [-ESPIPE] for
    every file it opened ([FdTable.file_llseek]): then the loader reads nothing. *)

Theorem load_init_unseekable {W} {LD : Loader W} EHDR PH SH path sdata (s : @lstate W) :
  (∀ fd off whence w, (do_lseek fd off whence w).1 = - ESPIPE) →
  ∃ r s', load_init_binary EHDR PH SH path sdata s = Ok (r, s') ∧ r < 0 ∧ lmem s' = lmem s.
Proof.
  intros Hl. unfold load_init_binary. destruct (do_open path O_RDONLY 0 (world s)) as [fd w].
  destruct (Z.ltb_spec fd 0) as [Hfd|_]; [by eexists _, _|].
  destruct (ensure_mm (set_world w s)) as [ok s1] eqn:Hm.
  assert (lmem s1 = lmem s) as Hs1.
  { unfold ensure_mm in Hm. destruct (p_mm _ =? 0); [|by injection Hm as _ <-].
    destruct (user_alloc_mm _) as [mm w1]. by injection Hm as _ <-. }
  destruct ok; cbn [negb]; [|by eexists _, _].
  unfold elf_read_at, lseek. specialize (Hl fd 0 SEEK_CUR (world s1)).
  destruct (do_lseek fd 0 SEEK_CUR (world s1)) as [pos w2]. cbn in Hl. subst pos.
  change (s32 (- ESPIPE) <? 0) with true. cbn. by eexists _, _.
Qed.

(** ** What the loader relies on *)

(** The bytes [l] are in memory from [dest] on, and nothing else changed. *)
Definition put_bytes (dest : Z) (l : list Z) (m m' : mem) : Prop :=
  (∀ i b, l !! i = Some b → m' !! (dest + Z.of_nat i) = Some b) ∧
  (∀ a, ~ (dest ≤ a < dest + Z.of_nat (length l)) → m' !! a = m !! a) ∧
  same_dom m m' ∧ mem_ok m'.

(** Seeking and reading as the loader assumes them: [file_at w fd c p] says that [fd] is
    at position [p] of a file with the bytes [c], seeking moves the position and reading
    advances it. Neither changes the address spaces. No file that [vfs_open] opens is
    one of these, see above; the laws are what the interface promises to a loader, not
    what the kernel has. *)
Class LoaderSpec (W : Type) {LD : Loader W} : Type := {
  file_at : W → Z → list Z → Z → Prop;
  lseek_cur w fd c p :
    file_at w fd c p → ∃ w', do_lseek fd 0 SEEK_CUR w = (p, w') ∧ file_at w' fd c p ∧
      ∀ mm va, lookup_pa mm va w' = lookup_pa mm va w;
  lseek_set w fd c p o :
    file_at w fd c p → 0 ≤ o → ∃ w', do_lseek fd o SEEK_SET w = (o, w') ∧ file_at w' fd c o ∧
      ∀ mm va, lookup_pa mm va w' = lookup_pa mm va w;
  read_file w fd c p dest n m :
    file_at w fd c p → 0 ≤ p → 0 ≤ n → p + n ≤ Z.of_nat (length c) → mapped m dest n → mem_ok m →
    ∃ w' m', do_read fd dest n w m = Ok (n, w', m') ∧ file_at w' fd c (p + n) ∧
      (∀ mm va, lookup_pa mm va w' = lookup_pa mm va w) ∧
      put_bytes dest (take (Z.to_nat n) (drop (Z.to_nat p) c)) m m';
}.

Section Load.
Context {W : Type} {LD : Loader W} {LSP : LoaderSpec W}.
Implicit Types s : @lstate W.

(** The file, the process and the translations are the same after a read. *)
Record loading (fd mm : Z) (c : list Z) (p : Z) (pa : Z → Z) s : Prop := {
  ld_file : file_at (world s) fd c p;
  ld_pa va : lookup_pa mm va (world s) = pa va;
  ld_mem : mem_ok (lmem s);
}.

Lemma elf_read_at_ok fd mm c p pa dest n off s :
  loading fd mm c p pa s → 0 ≤ p < 2 ^ 31 → 0 ≤ off → 0 ≤ n → off + n ≤ Z.of_nat (length c) → mapped (lmem s) dest n →
  ∃ s', elf_read_at fd dest n off s = Ok (n, s') ∧ loading fd mm c p pa s' ∧ the_proc s' = the_proc s ∧
    put_bytes dest (take (Z.to_nat n) (drop (Z.to_nat off) c)) (lmem s) (lmem s').
Proof.
  intros [Hf Hpa Hok] Hp Ho Hn Hl Hm. unfold elf_read_at, lseek.
  destruct (lseek_cur _ _ _ _ Hf) as (w1 & E1 & F1 & V1). rewrite E1, s32_small by lia. cbn [set_world world lmem the_proc].
  destruct (Z.ltb_spec p 0) as [|_]; [lia|].
  destruct (lseek_set _ _ _ _ off F1 Ho) as (w2 & E2 & F2 & V2). rewrite E2. cbn [set_world world lmem the_proc].
  destruct (Z.ltb_spec off 0) as [|_]; [lia|].
  destruct (read_file w2 fd c off dest n (lmem s) F2 Ho Hn Hl Hm Hok) as (w3 & m3 & E3 & F3 & V3 & B3). rewrite E3. cbn [obind].
  destruct (lseek_set _ _ _ _ p F3) as (w4 & E4 & F4 & V4); [lia|]. cbn [world]. rewrite E4.
  eexists. split; [done|]. cbn. split_and!; [|done|done]. split; [done| |apply B3].
  intros va. cbn. by rewrite V4, V3, V2, V1.
Qed.

(** The byte of the segment at [x]: from the file, or zero. *)
Definition image (ph : elf_prog_header) (c : list Z) (x : Z) : Z :=
  if x <? p_filesz ph then default 0 (c !! Z.to_nat (p_off ph + x)) else 0.

(** A page is as it has to be. *)
Definition page_loaded (ph : elf_prog_header) (c : list Z) (pa : Z → Z) (i : Z) (m : mem) : Prop :=
  ∀ k, 0 ≤ k < PAGE_SIZE → m !! (pa (p_vaddr ph + i * PAGE_SIZE) + k) = Some (image ph c (i * PAGE_SIZE + k)).

(** A segment of the file that fits into the machine. *)
Record segment_ok (ph : elf_prog_header) (c : list Z) : Prop := {
  sg_off : 0 ≤ p_off ph;
  sg_filesz : 0 ≤ p_filesz ph;
  sg_memsz : p_filesz ph ≤ p_memsz ph;
  sg_vaddr : 0 ≤ p_vaddr ph;
  sg_end : p_vaddr ph + p_memsz ph + PAGE_SIZE < 2 ^ 64;
  sg_file : p_off ph + p_filesz ph ≤ Z.of_nat (length c) < 2 ^ 64;
}.

Lemma load_page_ok fd mm c p pa ph i s :
  loading fd mm c p pa s → 0 ≤ p < 2 ^ 31 → segment_ok ph c → 0 ≤ i → i * PAGE_SIZE < p_memsz ph →
  let q := pa (p_vaddr ph + i * PAGE_SIZE) in
  0 ≤ q → q + PAGE_SIZE < 2 ^ 64 → mapped (lmem s) q PAGE_SIZE →
  ∃ s', load_page fd mm ph i s = Ok (true, s') ∧ loading fd mm c p pa s' ∧ the_proc s' = the_proc s ∧
    page_loaded ph c pa i (lmem s') ∧ same_dom (lmem s) (lmem s') ∧
    (∀ a, ~ (q ≤ a < q + PAGE_SIZE) → lmem s' !! a = lmem s !! a).
Proof.
  intros Hld Hp [Ho Hfz Hmz Hv He Hc] Hi Him q Hq0 Hq Hm. unfold load_page. unfold PAGE_SIZE in *.
  rewrite (u64_small (p_vaddr ph + i * 4096)) by lia. rewrite (ld_pa _ _ _ _ _ _ Hld). fold q.
  rewrite (u64_small (i * 4096)) by lia. destruct (Z.ltb_spec (i * 4096) (p_filesz ph)) as [Hlt|Hge].
  - set (n := Z.min 4096 (p_filesz ph - i * 4096)). assert (0 < n ≤ 4096) as Hn by lia.
    rewrite u64_small by lia.
    destruct (elf_read_at_ok fd mm c p pa q n (p_off ph + i * 4096) s) as (s1 & E1 & L1 & P1 & B1);
      [done|lia|lia|lia|lia|intros k Hk; apply Hm; lia|].
    rewrite E1. cbn [obind]. rewrite Z.eqb_refl. cbn [negb].
    destruct B1 as (Bi & Bo & Bd & Bk).
    assert (length (take (Z.to_nat n) (drop (Z.to_nat (p_off ph + i * 4096)) c)) = Z.to_nat n) as Hlen
      by (rewrite length_take, length_drop; lia).
    assert (∀ k, 0 ≤ k < n → lmem s1 !! (q + k) = Some (image ph c (i * 4096 + k))) as Hin.
    { intros k Hk. destruct (lookup_lt_is_Some_2 c (Z.to_nat (p_off ph + (i * 4096 + k)))) as [b Hb]; [lia|].
      replace k with (Z.of_nat (Z.to_nat k)) at 1 by lia. rewrite (Bi (Z.to_nat k) b).
      - unfold image. destruct (Z.ltb_spec (i * 4096 + k) (p_filesz ph)); [|lia]. by rewrite Hb.
      - rewrite lookup_take_lt by lia. rewrite lookup_drop. rewrite <-Hb. f_equal. lia. }
    destruct (Z.ltb_spec n 4096) as [Hn4|Hn4].
    + rewrite u64_small by lia.
      destruct (memset_spec (q + n) 0 (4096 - n) (lmem s1)) as (m2 & E2 & Fi & Fo & Fd & Fk); [done| |lia|lia|lia|].
      { apply (same_dom_mapped (lmem s)); [done|]. intros k Hk. rewrite <-Z.add_assoc. apply Hm. lia. }
      rewrite E2. cbn [obind]. eexists. split; [done|]. destruct L1 as [? ? ?]. cbn. split_and!; [by split|done| |by eapply same_dom_trans|].
      * intros k Hk. unfold PAGE_SIZE in *. fold q. destruct (Z.lt_ge_cases k n) as [Hkn|Hkn]; [rewrite Fo by lia; apply Hin; lia|].
        replace (q + k) with (q + n + (k - n)) by lia. rewrite Fi by lia. unfold image.
        destruct (Z.ltb_spec (i * 4096 + k) (p_filesz ph)); [lia|done].
      * intros a Ha. rewrite Fo by lia. apply Bo. rewrite Hlen. lia.
    + eexists. split; [done|]. split_and!; [done|done| |done|].
      * intros k Hk. apply Hin. unfold PAGE_SIZE in Hk. lia.
      * intros a Ha. apply Bo. rewrite Hlen. lia.
  - destruct Hld as [Hf Hpa Hok].
    destruct (memset_spec q 0 4096 (lmem s)) as (m2 & E2 & Fi & Fo & Fd & Fk); [done|done|lia|lia|lia|].
    rewrite E2. cbn [obind]. eexists. split; [done|]. cbn. split_and!; [by split|done| |done|done].
    intros k Hk. unfold PAGE_SIZE in *. fold q. rewrite Fi by done. unfold image.
    destruct (Z.ltb_spec (i * 4096 + k) (p_filesz ph)); [lia|done].
Qed.

(** The physical pages of a segment: in memory, and apart from each other. *)
Record frames_ok (ph : elf_prog_header) (pa : Z → Z) (n : nat) (m : mem) : Prop := {
  fr_page i : 0 ≤ i < Z.of_nat n → let q := pa (p_vaddr ph + i * PAGE_SIZE) in
    0 ≤ q ∧ q + PAGE_SIZE < 2 ^ 64 ∧ mapped m q PAGE_SIZE;
  fr_apart i j : 0 ≤ i < Z.of_nat n → 0 ≤ j < Z.of_nat n → i ≠ j →
    disjoint (pa (p_vaddr ph + i * PAGE_SIZE)) PAGE_SIZE (pa (p_vaddr ph + j * PAGE_SIZE)) PAGE_SIZE;
}.

Lemma frames_same ph pa n m m' : same_dom m m' → frames_ok ph pa n m → frames_ok ph pa n m'.
Proof.
  intros Hd [Hp Ha]. split; [|done]. intros i Hi. destruct (Hp i Hi) as (? & ? & ?).
  split_and!; [done..|]. by eapply same_dom_mapped.
Qed.

Lemma page_loaded_same ph c pa i m m' :
  page_loaded ph c pa i m →
  (∀ k, 0 ≤ k < PAGE_SIZE → m' !! (pa (p_vaddr ph + i * PAGE_SIZE) + k) = m !! (pa (p_vaddr ph + i * PAGE_SIZE) + k)) →
  page_loaded ph c pa i m'.
Proof. intros Hl Hs k Hk. rewrite Hs by done. by apply Hl. Qed.

(** [n] pages from page [i] on, of [t] in all. *)
Lemma load_pages_ok n fd mm c p pa ph t i s :
  loading fd mm c p pa s → 0 ≤ p < 2 ^ 31 → segment_ok ph c → frames_ok ph pa t (lmem s) →
  0 ≤ i → i + Z.of_nat n = Z.of_nat t → (Z.of_nat t - 1) * PAGE_SIZE < p_memsz ph →
  (∀ j, 0 ≤ j < i → page_loaded ph c pa j (lmem s)) →
  ∃ s', load_pages n fd mm ph i s = Ok (0, s') ∧ loading fd mm c p pa s' ∧ the_proc s' = the_proc s ∧
    (∀ j, 0 ≤ j < Z.of_nat t → page_loaded ph c pa j (lmem s')) ∧
    (∀ a, (∀ j, 0 ≤ j < Z.of_nat t → let q := pa (p_vaddr ph + j * PAGE_SIZE) in ~ (q ≤ a < q + PAGE_SIZE)) →
       lmem s' !! a = lmem s !! a).
Proof.
  revert i s. induction n as [|n IH]; intros i s Hld Hp Hsg Hfr Hi Ht Hsz Hdone; cbn [load_pages].
  { exists s. split_and!; [done..| |done]. intros j Hj. apply Hdone. lia. }
  destruct (fr_page _ _ _ _ Hfr i) as (Q0 & Q1 & Qm); [lia|].
  destruct (load_page_ok fd mm c p pa ph i s) as (s1 & E1 & L1 & P1 & D1 & S1 & O1);
    [done|done|done|done|unfold PAGE_SIZE in *; nia|done..|].
  rewrite E1. cbn [obind negb].
  destruct (IH (i + 1) s1) as (s2 & E2 & L2 & P2 & D2 & O2); [done|done|done|by eapply frames_same|lia|lia|done| |].
  { intros j Hj. destruct (Z.eq_dec j i) as [->|Hji]; [done|].
    apply (page_loaded_same _ _ _ _ (lmem s)); [apply Hdone; lia|]. intros k Hk. apply O1.
    destruct (fr_apart _ _ _ _ Hfr i j); lia. }
  exists s2. split_and!; [done|done|congruence|done|]. intros a Ha. rewrite O2 by done. apply O1. apply (Ha i). lia.
Qed.

End Load.

(** ** Properties *)

Section Properties.
Context {W : Type} {LD : Loader W} {LSP : LoaderSpec W}.

(** Loading a segment whose area could be set up puts, through the translations of
    the new address space, the bytes of the file at the start of the segment and zeros
    after them, up to the end of its last page; no other memory changes, the file keeps
    its position and the process its registers. *)
Theorem load_segment_image (s : @lstate W) fd ph c p s1 n :
  p_type ph = ELF_PROG_LOAD → segment_ok ph c → 0 ≤ p < 2 ^ 31 →
  elf_setup_vma (p_mm (the_proc s)) (p_vaddr ph) (p_memsz ph) (p_flags ph) s = Ok (0, s1) →
  let pa va := lookup_pa (p_mm (the_proc s)) va (world s1) in
  file_at (world s1) fd c p → mem_ok (lmem s1) → frames_ok ph pa n (lmem s1) →
  Z.of_nat n = (p_memsz ph + PAGE_SIZE - 1) / PAGE_SIZE →
  ∃ s', load_segment fd ph s = Ok (0, s') ∧ file_at (world s') fd c p ∧ the_proc s' = the_proc s1 ∧
    (∀ x, 0 ≤ x < Z.of_nat n * PAGE_SIZE →
       lmem s' !! (pa (p_vaddr ph + x / PAGE_SIZE * PAGE_SIZE) + x mod PAGE_SIZE) = Some (image ph c x)) ∧
    (∀ a, (∀ j, 0 ≤ j < Z.of_nat n → let q := pa (p_vaddr ph + j * PAGE_SIZE) in ~ (q ≤ a < q + PAGE_SIZE)) →
       lmem s' !! a = lmem s1 !! a).
Proof.
  intros Ht Hsg Hp Hs pa Hf Hok Hfr Hn. pose proof Hsg as [Ho Hfz Hmz Hv He Hc]. unfold load_segment.
  rewrite Ht. cbn [Z.eqb negb ELF_PROG_LOAD Pos.eqb]. change (ELF_PROG_LOAD =? ELF_PROG_LOAD) with true. cbn [negb].
  destruct (Z.ltb_spec (p_memsz ph) (p_filesz ph)) as [|_]; [lia|]. unfold PAGE_SIZE in *. rewrite u64_small by lia.
  destruct (Z.ltb_spec (p_vaddr ph + p_memsz ph) (p_vaddr ph)) as [|_]; [lia|]. rewrite Hs. cbn [obind negb Z.eqb].
  rewrite u64_small by lia. rewrite <-Hn, Nat2Z.id.
  destruct (load_pages_ok n fd (p_mm (the_proc s)) c p pa ph n 0 s1) as (s' & E' & [F' V' K'] & P' & D' & O');
    [by split|done|done|done|lia|lia|unfold PAGE_SIZE; zdm|lia|].
  exists s'. split_and!; [done|done|done| |done].
  intros x Hx. pose proof (Z.div_mod x 4096). pose proof (Z.mod_pos_bound x 4096). specialize (D' (x / 4096)).
  replace x with (x / 4096 * 4096 + x mod 4096) at 3 by lia. apply D'; [|unfold PAGE_SIZE; lia].
  split; [apply Z.div_pos; lia|apply Z.div_lt_upper_bound; lia].
Qed.

End Properties.

(** ** A file in memory, a process whose page at 4096 is the physical page at 69632 *)

Fixpoint write_bytes (dest : Z) (l : list Z) (m : mem) : mem :=
  match l with
  | [] => m
  | b :: l => <[dest := b]> (write_bytes (dest + 1) l m)
  end.

Lemma write_bytes_put dest l m :
  mem_ok m → mapped m dest (Z.of_nat (length l)) → Forall (λ b, 0 ≤ b < 256) l → put_bytes dest l m (write_bytes dest l m).
Proof.
  intros Hok. revert dest. induction l as [|b l IH]; intros dest Hm Hl; cbn [write_bytes].
  { split; [intros i b Hb; by rewrite lookup_nil in Hb|]. by split_and!. }
  apply Forall_cons in Hl as [Hb Hl]. destruct (IH (dest + 1)) as (Hi & Ho & Hd & Hk); [|done|].
  { intros k Hk. rewrite <-Z.add_assoc. apply Hm. cbn [length]. lia. }
  assert (is_Some (write_bytes (dest + 1) l m !! dest)) as Hs.
  { apply Hd. replace dest with (dest + 0) by lia. apply Hm. cbn [length]. lia. }
  split_and!.
  - intros [|i] x Hx; cbn in Hx.
    + injection Hx as ->. rewrite Z.add_0_r. apply lookup_insert_eq.
    + rewrite lookup_insert_ne by lia. replace (dest + Z.of_nat (S i)) with (dest + 1 + Z.of_nat i) by lia. by apply Hi.
  - intros a Ha. cbn [length] in Ha. rewrite lookup_insert_ne by lia. apply Ho. lia.
  - eapply same_dom_trans; [exact Hd|]. by apply same_dom_insert.
  - rewrite <-(u8_small b) by lia. by apply mem_ok_insert.
Qed.

(** The bytes of the file and the position. *)
#[export] Instance ram_loader : Loader (list Z * Z) := {
  do_open path flags mode w := (3, w);
  do_close fd w := w;
  do_lseek fd off whence w := let p := if whence =? SEEK_CUR then w.2 + off else off in (p, (w.1, p));
  do_read fd dest n w m :=
    let l := take (Z.to_nat n) (drop (Z.to_nat w.2) w.1) in
    Ok (Z.of_nat (length l), (w.1, w.2 + Z.of_nat (length l)), write_bytes dest l m);
  user_alloc_mm w := (1, w);
  vm_area_setup mm vaddr len text prot flags w := (1, w);
  populate_vma vma vaddr len prot w m := Ok (0, w, m);
  lookup_pa mm va w := va + 65536;
  kmalloc n w := (0, w);
  kfree p w := w;
}.

#[export, refine] Instance ram_spec : LoaderSpec (list Z * Z) := {
  file_at w fd c p := w = (c, p) ∧ Forall (λ b, 0 ≤ b < 256) c;
}.
Proof.
  - intros w fd c p [-> Hc]. eexists. cbn. rewrite Z.add_0_r. by split_and!.
  - intros w fd c p o [-> Hc] Ho. eexists. cbn. by split_and!.
  - intros w fd c p dest n m [-> Hc] Hp Hn Hl Hm Hok. cbn.
    assert (length (take (Z.to_nat n) (drop (Z.to_nat p) c)) = Z.to_nat n) as Hlen
      by (rewrite length_take, length_drop; lia).
    rewrite Hlen, Z2Nat.id by lia. eexists _, _. split; [done|]. split; [by split|]. split; [done|].
    apply write_bytes_put; [done|by rewrite Hlen, Z2Nat.id by lia|by apply Forall_take, Forall_drop].
Defined.

Definition one_page : mem := gset_to_gmap 255 (list_to_set (seqZ 69632 4096)).

Lemma one_page_at a : one_page !! a = if decide (69632 ≤ a < 73728) then Some 255 else None.
Proof.
  unfold one_page. rewrite lookup_gset_to_gmap. destruct (decide (69632 ≤ a < 73728)) as [Ha|Ha].
  - rewrite option_guard_True; [done|]. apply elem_of_list_to_set, elem_of_seqZ. lia.
  - rewrite option_guard_False; [done|]. rewrite elem_of_list_to_set, elem_of_seqZ. lia.
Qed.

Definition small_segment : elf_prog_header := ProgHeader ELF_PROG_LOAD 5 1 4096 3 10.

Definition lstate0 : @lstate (list Z * Z) := Lstate one_page ([9; 1; 2; 3], 0) (Proc 1 0 0).

Lemma load_segment_image_witness :
  ∃ s', load_segment 3 small_segment lstate0 = Ok (0, s') ∧ lmem s' !! 69632 = Some 1 ∧ lmem s' !! 69634 = Some 3 ∧
    lmem s' !! 69635 = Some 0 ∧ lmem s' !! 73727 = Some 0.
Proof.
  destruct (load_segment_image lstate0 3 small_segment [9; 1; 2; 3] 0 lstate0 1) as (s' & E & _ & _ & Hm & _).
  - reflexivity.
  - split; cbn; unfold PAGE_SIZE; lia.
  - lia.
  - reflexivity.
  - split; [reflexivity|]. repeat constructor; lia.
  - intros a b Hb. cbn [lstate0 lmem] in Hb. rewrite one_page_at in Hb. destruct (decide _); [injection Hb as <-; lia|done].
  - split.
    + intros i Hi. assert (i = 0) as -> by lia. cbn. unfold PAGE_SIZE. split; [lia|]. split; [lia|]. intros k Hk.
      rewrite one_page_at, decide_True by lia. by eexists.
    + intros i j Hi Hj. lia.
  - reflexivity.
  - exists s'. split; [exact E|].
    split; [exact (Hm 0 ltac:(unfold PAGE_SIZE; lia))|]. split; [exact (Hm 2 ltac:(unfold PAGE_SIZE; lia))|].
    split; [exact (Hm 3 ltac:(unfold PAGE_SIZE; lia))|exact (Hm 4095 ltac:(unfold PAGE_SIZE; lia))].
Defined.

(** A file that is opened and cannot be sought. *)
Definition unseekable_loader : Loader () := {|
  do_open path flags mode w := (3, w);
  do_close fd w := w;
  do_lseek fd off whence w := (- ESPIPE, w);
  do_read fd dest n w m := Ok (0, w, m);
  user_alloc_mm w := (1, w);
  vm_area_setup mm vaddr len text prot flags w := (1, w);
  populate_vma vma vaddr len prot w m := Ok (0, w, m);
  lookup_pa mm va w := va;
  kmalloc n w := (0, w);
  kfree p w := w;
|}.

Lemma load_init_unseekable_witness :
  ∃ r s', load_init_binary (LD := unseekable_loader) 0 64 128 [47] 0 (Lstate ∅ () (Proc 1 0 0)) = Ok (r, s') ∧
    r < 0 ∧ lmem s' = ∅.
Proof.
  apply (load_init_unseekable (LD := unseekable_loader) 0 64 128 [47] 0 (Lstate ∅ () (Proc 1 0 0))).
  intros fd off whence w. reflexivity.
Defined.
